(* ===== verification/_CoqProject ===== *)
-Q . S2P
Prelude.v
PyDecimal.v
PyText.v
Countries.v
Models.v
Money.v
Access.v
Json.v
HashChain.v
ApprovalPolicy.v
Approvals.v
Commission.v
Zones.v
PromoTax.v
Alerts.v
Store.v
Promos.v
Settlement.v
Payouts.v
PayoutSafety.v
Drivers.v
DriverSafety.v
Trips.v
OperatorEnd.v
Rewards.v
PromoSafety.v
Gateways.v
TripPayments.v
TripSafety.v
RideCommands.v
RideMoney.v
EndSafety.v
PaymentSafety.v
PaidOnce.v
RefundBooks.v
Fares.v
FarePromises.v
QuotePromises.v
FareCards.v
FareCardSafety.v
Bookings.v
BookingSafety.v
SafetyConfig.v
Incidents.v
SafetyWatch.v
IncidentSafety.v
CaseSafety.v
WatchSafety.v
TripConsole.v
ConsoleSafety.v
Macros.v
MacroSafety.v
Tickets.v
TicketSafety.v
DeskSafety.v
