(* ===== verification/Prelude.v ===== *)
(** * SaaradhiGo backend: a verification library

    The program is a Django service for ride hailing in India and the United States:
    it quotes and settles trips, keeps driver and rider money, runs promotions, and
    gives operators a console whose powerful actions need a second person.  This
    library models the parts of it that decide about money and authority, as pure
    functions on explicit state, and proves what makes them right.

    ** How the code is modelled

    Every definition translates the function, model or constraint it is named after.
    A database table is a list or a finite map of records and is passed along as state;
    a transaction that fails leaves the state it started from; an exception is the
    [Err] of [res].  An instant is an integer.  Money is an integer number of minor
    units where the code stores one, and a Python [Decimal] where it computes with one
    ([PyDecimal]: 28 significant digits, half up or half even as the call says).
    Strings are the ASCII part of Python's.  Code outside src/ (shapely polygons, the
    Redis counts behind surge, the gateway) is an argument.

    ** The parts, bottom up

    - [PyDecimal], [PyText]: decimals, text and numeric strings as Python has them.
    - [Countries], [Money]: [base/countries.py] and [base/money.py]; phone numbers,
      rounding into and out of minor units, per-currency totals.
    - [Models]: the shared rows of zones, rate cards, geography and trips.
    - [Access]: [servers/admin_access] and [base/permissions.py]; the geography tree
      whose stored paths make containment a prefix test, assignments, the bridge from
      the old capabilities, list scoping, and the Super Admin floor.
    - [Json], [HashChain]: decoded JSON with Python's canonical dump of it, and the audit
      log of [servers/admin_audit]: the hashed form of a row, the chain, the anchor that
      vouches for the rows from before it, the verifier, and writers.  SHA-256 is a
      parameter of which only the shape of a digest is assumed.
    - [ApprovalPolicy], [Approvals]: [servers/approvals]; thresholds and their history,
      the decision who may act alone, and the life of a request.  The service commits
      in several transactions and runs executors outside every lock, so [Approvals] has
      both the operations as the code composes them and a step relation that interleaves
      their transactions with crashes; the first are walks of the second.
    - [Commission], [Zones], [PromoTax]: [servers/pricing]; which commission governs a
      trip, which zone and rate card a point gets, how a quoted total splits into fare,
      fee and tax.
    - [Alerts]: [servers/command_centre]; operator alerts and their thresholds.
    - [Store], [Promos], [Settlement]: the tables of [servers/driver/models.py] and
      [servers/promotions/models.py], the promotion budgets and redemptions
      ([promotions/budget.py], [rider_promos.py]), and what a finished trip writes to
      the driver's wallet and the ledger ([driver/utils.py]), its deferral and its
      reversal.  [Rewards] adds what campaigns pay at once and the raising of a budget
      ([incentives.py], [referrals.py], [workflow.py]), and [PromoSafety] runs all of it.
    - [Payouts], [PayoutSafety]: a driver's money on its way out; requests and the weekly
      run, release, dispatch to the provider, its webhooks, retries, refunds, conflicts
      and recoveries of debts ([servers/driver], [servers/payments], [approvals/executors.py],
      [fraud/money.py]).  What the provider answers and reports is an argument.
    - [Drivers], [DriverSafety]: who may drive; approval, suspension, expiry of papers,
      the online socket, the fatigue cap and the cancellation penalty
      ([servers/driver/fatigue.py], [qa_eligibility.py], [admin_drivers.py], [tasks.py]).
    - [Trips], [OperatorEnd]: the life of a ride over one [World] of money tables, drivers,
      trips and payments; booking, acceptance, the state machine and the command ladder of
      [servers/consumers.py], the cancellations of [servers/ride], the payment at
      completion, refunds, the rider's wallet, and an operator's end of a started ride
      ([ride/operator_end.py], [admin_stale.py]).  [TripSafety] interleaves all of it with
      Drivers as one step relation; [RideCommands], [RideMoney] and [EndSafety] prove what
      the commands, the money and the operator's end promise.
    - [Gateways], [TripPayments]: a rider paying for a trip; the payment record and its
      orders, the claim under which one request captures, the webhook, the wallet
      payment, the switch to cash, and the capture that comes too late and is given back
      ([payments/orders.py], [late_paid.py], [views.py], [tasks.py],
      [trip_wallet_payment.py]).  What a provider answers is an argument.
      [PaymentSafety] keeps the shape of the payment tables through a step relation that
      runs these operations beside a ride in any order; [PaidOnce] proves what it promises.
    - [Fares], [FarePromises], [QuotePromises]: the fare quoted before a ride
      ([quote_fare] of [pricing/services.py]): which card prices it, distance and time, night and surge, the
      minimum fare, fee and tax.
    - [FareCards], [FareCardSafety]: the versions of a rate card
      ([pricing/fare_card_workflow.py], [RateCard.new_version]); a new price waits for its
      date, a card retires, and a draft is previewed.
    - [Bookings], [BookingSafety]: a quote that is stored, checked and booked
      ([ride/quotes.py], [_create_trip] of [servers/consumers.py]), on top of the booking of
      [Trips].
    - [SafetyConfig], [Incidents], [SafetyWatch]: [servers/safety] and [servers/sos]; the
      versioned settings of a country ([config.py]); alarms with their anchor, cases, links
      and timelines, every action of the console on them, who sees and answers what, and
      the escalation sweep ([sos/models.py], [views.py], [services.py], [scope.py],
      [admin_views.py], [escalation.py]); and what the module notices by itself: encoded
      routes, long stops, overruns, deviations, cities without cover ([geometry.py],
      [detection.py], [coverage.py]).  [IncidentSafety] runs all of it as one step relation,
      where an operator decides on tables seen earlier ([seen]) and acts on the tables of
      now, and reduces each operation to a few elementary moves; [CaseSafety] and
      [WatchSafety] prove what it promises.
    - [TripConsole], [ConsoleSafety], [RefundBooks]: what an operator does to a trip in the
      console ([ride/admin_trips.py]): refunds and adjustments from the request to the
      executor that runs after approval, flags, notes and the bulk action, over the [World]
      of [Trips]; and what the other two writers of refunds add to the books.
    - [Macros], [MacroSafety]: saved replies ([support/macros.py], their writes in
      [admin_support.py] and [admin_followups.py]); what one may contain, how it is filled
      in, and its versions.
    - [Tickets], [TicketSafety], [DeskSafety]: the support desk of [servers/support]; tickets
      with their clocks ([sla.py]), who sees them ([scope.py], [rider/scope.py]), users,
      operators, the sweep of waiting tickets ([waiting.py]), returned refunds
      ([service.py]) and the numbers of a country ([sla_change.py]).  [DeskSafety] runs
      all of it on tables read at any earlier moment of the run.

    ** What the theorems show

    - Settlement: the driver nets the trip exactly once whatever the payment mode, the
      balance is the sum of its ledger, a second settlement and a second reversal change
      nothing, and a trip no commission rule governs is deferred with an alert.
    - Payouts: while the separate transactions of dispatches run between everything else,
      each operation and each undisturbed transaction keeps a driver's wealth (balance,
      payouts that are out, recoveries taken, refunds owed), and a disturbed one moves that
      driver by the amount or not at all; the provider is asked once for each release, a
      webhook delivered again changes nothing, and a recovery stays within its share and
      above the floor.  Two theorems show gaps between webhook and dispatch: a failure
      between two saves, and a webhook that cannot find its payout.
    - Rides: in every reachable world a driver is on one ride and a request key books one
      trip; every step refines the life cycle of each ride, which moves at most four times
      and can always be ended; its timeline is ordered and its completion counted once.
      Commands may be sent again, a ride starts only with its code and five wrong codes
      end the guessing.  Completing charges exactly the payable fare, a wallet pays once
      and keeps what is held, a refund stays within what was paid; an operator's end never
      charges above the upfront price, adds up, and cannot be repeated.  Three theorems
      show gaps: a refund that outlives its rollback, a cancel that escapes its penalty,
      a wallet of another currency.
    - Trip payments: under every interleaving of riders, webhooks and tasks a trip is paid
      once and an order belongs to one payment; captured money settles its trip exactly
      once, goes back in full or is left to a person, and reporting it again changes
      nothing; the wallet pays exactly what is owed beyond what is held, a refund gives
      the rest once, and paying moves no ride.  Three gaps: an early verification loses
      the payment, a new attempt forgets the paid order, a refused switch loses the cash.
    - Fare quotes: whenever the tables price a pickup the quote is the tariff, its lines
      add up exactly in minor units, the settlement of an additive market recovers fare,
      fee and tax from the total, and a longer ride costs no less.  A ride booked with a
      valid quote is stored at exactly its total, a refused quote books nothing, and the
      bookings are rides.  One gap: a valid quote can fail to book.
    - Fare cards: the preview is the quote, a new price holds from its date and changes no
      earlier one, one card of a class is in force at any moment as long as no scheduled
      card is retired.  Two gaps: retiring a scheduled card, and a retired card whose past
      rides lose their card.
    - Safety: under every interleaving, with readings of any age, a trip has one open case
      and an alarm that has a case is linked to it; nothing of a case is deleted and
      timelines only grow; cases and severities never go back, and a closed case hides no
      alarm, except by the races the theorems name; an alarm gets its case at once or at the
      next attempt, pressing twice records one; the sweep marks exactly the alarms and cases
      whose timer passed, each with its open alert; everyone paged may answer; a city
      without officers has its alert exactly while the gap lasts; a stored route decodes to
      its points.  Six gaps: an alarm taken up behind a closed case, one that joins a case
      closed since it was read, one answered by somebody who may not answer there, an
      acknowledgement that silences another alert, a severity written over a worse one, and
      a closed case set to work.
    - Trip console: however operators refund, adjust, flag and note, each as often as they
      like, and riders ask for refunds, the refunds of a trip stay within the most it was
      ever paid and a request acts once; a refund credits exactly what was approved.  Three
      gaps: a wallet of another currency is credited the number, downward adjustments
      together pass the fare, and an operator's end does not look at earlier refunds.
    - Support desk: the clock of a ticket stands still exactly while the user is waited for;
      a safety concern never waits; the sweep closes and reminds exactly what is due; list
      and badge agree but for stale marks of waiting; whoever may act on a ticket sees it;
      under every interleaving closed means resolved, due times count from the creation and
      no message is lost.  A saved
      reply is filled in as [str.format] reads it and its history is complete.  Gaps: a
      ticket that becomes a safety concern still pauses, a second wait is not reminded, a
      fresh wait can be closed, a stale close hides a breach, a kind is not validated, and
      two spellings of a reply slip through.
    - Drivers: a suspended driver is off the road unless a patch read before the
      suspension was saved after it, a deactivated one stays off, each driven second counts
      once, the third cancellation locks out.  Four show gaps: an approval that overwrites
      a suspension, a block the online socket lifts, a lockout it ignores, and a
      reconnection that hides driving time.
    - Promotions: what a campaign has committed is its committed redemptions, what it spent
      is its settled redemptions and rewards and its rows of the ledger, and its budget is
      passed by operators' ends alone.  Two theorems show inputs on which the code does not
      do what it says.
    - Maker-checker: under every interleaving an executor runs at most once, for a request
      somebody who might check it approved on the record (another admin, or the maker as
      the sole Super Admin) or for an amount within a configured limit; every
      execution refines the life cycle of a request; a held key answers with its
      request; the sweep leaves nothing overdue; a maker acts alone only within a limit
      of that country, action and currency; and a threshold cannot be set back to a
      value it has had, which the code did not mean.
    - Access: the prefix test is containment in every reachable tree without a slash in a
      code (one theorem shows what a slash does), a permission is granted exactly to a
      superuser, by an assignment at or above the place or by the migration exemption,
      lists and details agree, and revoking never crosses the Super Admin floor.
    - Audit: the dump of a value determines it, so the hashed form of a row determines
      every hashed column; the verifier is silent exactly on well formed tables, always
      on what the application wrote one row after the other; two silent tables with the
      same newest hash hold the same history unless two different texts among those hashed
      for them have one digest, or one has the digest the chain starts from.  Two
      theorems show false alarms: writers at the same time, and a limited check.
    - Pricing and money: splits invert quotes, rounding is to the nearest minor unit
      and happens once up to 28 digits, round trips are exact, lookups pick the most
      specific rule, zone and card.
    - Alerts: one open alert per event, levels follow the thresholds.

    ** Fuel and bounds

    [Access.save_node] recurses down a tree of four kinds: [tree_depth] is 5, and
    [save_node_fuel] shows the fuel never runs out.  [PyText.digits_fuel] is bounded by
    the binary logarithm of the number.  [Macros.parse] reads a text with its length as
    fuel, which [MacroSafety.pieces_enough] shows to be enough.  The other recursions are
    structural.

    Quotes compute with [Decimal] at 28 digits: the theorems on them hold for prices
    below a million, multipliers below a hundred and measures below ten thousand with at
    most six decimals ([rates_ok], [measure_ok]), under which every intermediate result
    is exact or rounded where the code says so.

    The sweep of alarms looks at 200 rows and the backfill at 50, as in the code: the theorems
    on them ask that no more are waiting.  A polyline is decoded to the integers the code
    divides by 100000.

    ** Not modelled

    Views, serializers, URLs, migrations and settings (framework glue); the adapters of
    the gateways, push, SMS and storage (external services); the route and the distance
    between two points (Google or the great circle) and what Redis counts of demand; the
    search for drivers around a pickup and the waves of offers; broadcasts and notices;
    reports, dashboards and payment history (read-only queries); the audit rows written
    beside a change; in payouts the loop of the weekly run and its notices; wallet top-ups
    and the inbox of webhooks; the lists and the board of the safety console, the reveal of
    a contact, and distances on the globe; the other filters of the ticket list, its
    dashboard and the masking of free text; earnings statements and fraud rules. *)

From Stdlib Require Export ZArith Lia.
From stdpp Require Export base option list strings gmap.

#[global] Open Scope Z_scope.

(** ** Results: Python code that may raise *)

Inductive res (E A : Type) : Type :=
| Ok (a : A)
| Err (e : E).
Arguments Ok {E A} a.
Arguments Err {E A} e.

Definition res_bind {E A B : Type} (m : res E A) (k : A -> res E B) : res E B :=
  match m with Ok a => k a | Err e => Err e end.

(** [raise X from e] : the error of a callee re-raised as another one. *)
Definition map_err {E F A : Type} (f : E -> F) (m : res E A) : res F A :=
  match m with Ok a => Ok a | Err e => Err (f e) end.

Definition res_opt {E A : Type} (e : E) (o : option A) : res E A :=
  match o with Some a => Ok a | None => Err e end.

Definition is_ok {E A : Type} (m : res E A) : bool :=
  match m with Ok _ => true | Err _ => false end.

(** Guard: raise [e] unless the condition holds. *)
Definition require {E : Type} (b : bool) (e : E) : res E unit :=
  if b then Ok tt else Err e.

Declare Scope res_scope.
Delimit Scope res_scope with res.
Notation "'let*' x := m 'in' k" := (res_bind m (fun x => k))
  (at level 200, x pattern, right associativity) : res_scope.
#[global] Open Scope res_scope.

#[global] Instance res_eq_dec {E A : Type} `{EqDecision E, EqDecision A} : EqDecision (res E A).
Proof. solve_decision. Defined.

Lemma res_bind_ok {E A B : Type} (m : res E A) (k : A -> res E B) (b : B) :
  res_bind m k = Ok b <-> exists a, m = Ok a /\ k a = Ok b.
Proof.
  destruct m as [a|e]; simpl.
  - split; [eauto | intros (x & Hx & Hk); congruence].
  - split; [discriminate | intros (x & Hx & _); discriminate].
Qed.

Lemma res_bind_assoc {E A B C : Type} (m : res E A) (f : A -> res E B) (g : B -> res E C) :
  res_bind (res_bind m f) g = res_bind m (fun a => res_bind (f a) g).
Proof. by destruct m. Qed.

Lemma require_ok {E : Type} (b : bool) (e : E) (u : unit) :
  require b e = Ok u <-> b = true.
Proof. destruct b, u; simpl; split; congruence. Qed.

(** ** Small list helpers *)

(** [sum(f(x) for x in l)] on integers. *)
Definition zsum {A : Type} (f : A -> Z) (l : list A) : Z :=
  foldr (fun x acc => f x + acc) 0 l.

(** [qs.first()] after an [order_by]: the first element under a boolean strict order,
    the earlier one of two that tie. *)
Fixpoint best_by {A : Type} (better : A -> A -> bool) (l : list A) : option A :=
  match l with
  | [] => None
  | x :: r =>
    match best_by better r with
    | None => Some x
    | Some y => Some (if better y x then y else x)
    end
  end.

Lemma zsum_app {A : Type} (f : A -> Z) (l1 l2 : list A) :
  zsum f (l1 ++ l2) = zsum f l1 + zsum f l2.
Proof. induction l1 as [|x l IH]; simpl; lia. Qed.

Lemma zsum_ext {A : Type} (f g : A -> Z) (l : list A) :
  (forall x, x ∈ l -> f x = g x) -> zsum f l = zsum g l.
Proof.
  induction l as [|x l IH]; simpl; intros H; [done|].
  rewrite H by set_solver. rewrite IH by set_solver. done.
Qed.

Lemma zsum_filter_split {A : Type} (f : A -> Z) (P : A -> bool) (l : list A) :
  zsum f (List.filter P l) + zsum f (List.filter (fun x => negb (P x)) l) = zsum f l.
Proof. induction l as [|x l IH]; simpl; [done|]. destruct (P x); simpl; lia. Qed.

Lemma zsum_nonneg {A : Type} (f : A -> Z) (l : list A) :
  (forall x, x ∈ l -> 0 <= f x) -> 0 <= zsum f l.
Proof.
  induction l as [|x l IH]; simpl; intros H; [lia|].
  pose proof (H x ltac:(set_solver)). specialize (IH ltac:(set_solver)). lia.
Qed.

Lemma zsum_sub {A : Type} (f g : A -> Z) (l : list A) :
  zsum (fun x => f x - g x) l = zsum f l - zsum g l.
Proof. induction l as [|x l IH]; simpl; lia. Qed.

Lemma zsum_add {A : Type} (f g : A -> Z) (l : list A) :
  zsum (fun x => f x + g x) l = zsum f l + zsum g l.
Proof. induction l as [|x l IH]; simpl; lia. Qed.

Lemma zsum_zero {A : Type} (l : list A) : zsum (fun _ => 0) l = 0.
Proof. induction l as [|x l IH]; simpl; lia. Qed.

Lemma zsum_fmap {A B : Type} (g : A -> B) (f : B -> Z) (l : list A) :
  zsum f (g <$> l) = zsum (fun x => f (g x)) l.
Proof. unfold zsum. induction l as [|x l IH]; [done|]. by rewrite fmap_cons; simpl; rewrite IH. Qed.

Lemma zsum_swap {A B : Type} (f : A -> B -> Z) (l : list A) (k : list B) :
  zsum (fun a => zsum (f a) k) l = zsum (fun b => zsum (fun a => f a b) l) k.
Proof.
  induction l as [|a l IH]; simpl; [by rewrite zsum_zero|]. rewrite IH. by rewrite zsum_add.
Qed.

(** A list without duplicates meets each of its elements once. *)
Lemma zsum_indicator {A : Type} `{EqDecision A} (x : A) (v : Z) (l : list A) :
  base.NoDup l -> x ∈ l -> zsum (fun y => if decide (x = y) then v else 0) l = v.
Proof.
  induction 1 as [|y l Hy Hl IH]; intros Hx; [by apply not_elem_of_nil in Hx|]. simpl.
  destruct (decide (x = y)) as [->|Hne].
  - enough (zsum (fun z => if decide (y = z) then v else 0) l = 0) by lia.
    clear -Hy. induction l as [|z l IH]; simpl; [done|].
    rewrite decide_False by set_solver. rewrite IH by set_solver. lia.
  - rewrite IH by set_solver. done.
Qed.

Lemma zsum_update {A : Type} (key : A -> Z) (g : A -> Z) (f : A -> A) (l : list A) (r : A) :
  base.NoDup (key <$> l) -> r ∈ l ->
  zsum g ((fun x => if key x =? key r then f x else x) <$> l) = zsum g l - g r + g (f r).
Proof.
  intros Hn Hr. induction l as [|x l IH]; [by apply not_elem_of_nil in Hr|].
  rewrite fmap_cons in Hn. apply NoDup_cons in Hn as [Hx Hn]. rewrite fmap_cons. cbn [zsum foldr].
  apply elem_of_cons in Hr as [->|Hr].
  - rewrite Z.eqb_refl.
    assert ((fun y => if key y =? key x then f y else y) <$> l = l) as ->.
    { rewrite <- (list_fmap_id l) at 2. apply list_fmap_ext. intros k y Hy. cbn.
      destruct (Z.eqb_spec (key y) (key x)) as [E|]; [|done]. exfalso. apply Hx. rewrite <- E.
      apply list_elem_of_fmap. exists y. split; [done|]. by eapply list_elem_of_lookup_2. }
    unfold zsum. lia.
  - destruct (Z.eqb_spec (key x) (key r)) as [E|].
    { exfalso. apply Hx. rewrite E. apply list_elem_of_fmap. by exists r. }
    specialize (IH Hn Hr). unfold zsum in *. lia.
Qed.

Lemma zsum_perm {A : Type} (f : A -> Z) (l k : list A) : l ≡ₚ k -> zsum f l = zsum f k.
Proof. induction 1; simpl; lia. Qed.

(** Rows with distinct keys are known by their key. *)
Lemma unique_rows {A B : Type} (g : A -> B) (l : list A) (x y : A) : base.NoDup (g <$> l) -> x ∈ l -> y ∈ l -> g x = g y -> x = y.
Proof.
  intros Hn Hx Hy E. apply list_elem_of_lookup in Hx as [i Hi]. apply list_elem_of_lookup in Hy as [j Hj].
  assert (i = j) as ->; [|congruence]. eapply NoDup_lookup; [exact Hn|by rewrite list_lookup_fmap, Hi|by rewrite list_lookup_fmap, Hj, E].
Qed.

Lemma filter_filter {A : Type} (P Q : A -> bool) (l : list A) :
  List.filter P (List.filter Q l) = List.filter (fun x => Q x && P x) l.
Proof. induction l as [|x l IH]; simpl; [done|]. destruct (Q x); simpl; [|done]. by rewrite IH. Qed.

Lemma find_app {A} (P : A -> bool) (l k : list A) :
  List.find P l = None -> List.find P (l ++ k) = List.find P k.
Proof. induction l as [|x l IH]; [done|]. cbn. by destruct (P x). Qed.

Lemma elem_of_filter_b {A : Type} (P : A -> bool) (l : list A) (x : A) :
  x ∈ List.filter P l <-> x ∈ l /\ P x = true.
Proof. by rewrite !list_elem_of_In, filter_In. Qed.

Lemma omap_filter_b {A B : Type} (f g : A -> option B) (P : A -> bool) (l : list A) :
  (forall x, g x = if P x then f x else None) -> omap f (List.filter P l) = omap g l.
Proof.
  intros Hg. induction l as [|x l IH]; [done|]. cbn [List.filter].
  change (omap g (x :: l)) with (match g x with Some y => y :: omap g l | None => omap g l end).
  rewrite Hg. destruct (P x); [|done].
  change (omap f (x :: List.filter P l)) with
    (match f x with Some y => y :: omap f (List.filter P l) | None => omap f (List.filter P l) end).
  by rewrite IH.
Qed.

Lemma filter_all {A : Type} (P : A -> bool) (l : list A) :
  Forall (fun x => P x = true) l -> List.filter P l = l.
Proof. induction 1 as [|x l Hx _ IH]; simpl; [done|]. by rewrite Hx, IH. Qed.

Lemma filter_none {A} (P : A -> bool) (l : list A) :
  Forall (fun x => P x = false) l -> List.filter P l = [].
Proof. induction 1 as [|x l Hx _ IH]; simpl; [done|]. by rewrite Hx. Qed.

Lemma best_by_elem {A : Type} (better : A -> A -> bool) (l : list A) (x : A) :
  best_by better l = Some x -> x ∈ l.
Proof.
  revert x; induction l as [|a l IH]; simpl; intros x H; [done|].
  destruct (best_by better l) as [y|]; simplify_eq; [|set_solver].
  destruct (better y a); [|set_solver]. specialize (IH _ eq_refl). set_solver.
Qed.

Lemma best_by_none {A : Type} (better : A -> A -> bool) (l : list A) :
  best_by better l = None <-> l = [].
Proof. destruct l as [|a l]; simpl; [done|]. by destruct (best_by better l). Qed.

(** ** Text order *)

Lemma string_leb_trans (a b c : string) :
  String.leb a b = true -> String.leb b c = true -> String.leb a c = true.
Proof.
  unfold String.leb. revert b c; induction a as [|x a IH]; intros b c.
  - by destruct c.
  - destruct b as [|y b], c as [|z c]; cbn [String.compare]; try done.
    unfold Ascii.compare.
    destruct (N.compare_spec (Ascii.N_of_ascii x) (Ascii.N_of_ascii y)) as [E1|L1|G1]; [| |done];
    destruct (N.compare_spec (Ascii.N_of_ascii y) (Ascii.N_of_ascii z)) as [E2|L2|G2]; try done; intros H1 H2.
    + rewrite E1, E2, N.compare_refl. by apply (IH b c).
    + by rewrite E1, (proj2 (N.compare_lt_iff _ _) L2).
    + by rewrite <- E2, (proj2 (N.compare_lt_iff _ _) L1).
    + by rewrite (proj2 (N.compare_lt_iff _ _) (N.lt_trans _ _ _ L1 L2)).
Qed.

(** ** Automation shared by the components *)

Create HintDb sgo.
#[export] Hint Rewrite @zsum_app @res_bind_ok @require_ok : sgo.
#[export] Hint Resolve zsum_nonneg : sgo.

(** Split every boolean conjunction, disjunction and integer test in sight. *)
Ltac bool_cases :=
  repeat match goal with
  | H : andb _ _ = true |- _ => apply andb_true_iff in H as [? ?]
  | H : negb _ = true |- _ => apply negb_true_iff in H
  | H : (_ <? _) = true |- _ => apply Z.ltb_lt in H
  | H : (_ <? _) = false |- _ => apply Z.ltb_ge in H
  | H : (_ <=? _) = true |- _ => apply Z.leb_le in H
  | H : (_ <=? _) = false |- _ => apply Z.leb_gt in H
  | H : (_ =? _) = true |- _ => apply Z.eqb_eq in H
  | H : (_ =? _) = false |- _ => apply Z.eqb_neq in H
  end.

(** Case split on the innermost [if] or [match] of a hypothesis or of the goal. *)
Ltac split_match H :=
  match type of H with
  | context [match ?x with _ => _ end] => destruct x eqn:?
  end.

(** Run an [res] computation that is known to have succeeded backwards. *)
Ltac run_ok H :=
  repeat first
    [ apply res_bind_ok in H as (? & ? & H)
    | discriminate H ].
