(* ===== verification/PyDecimal.v ===== *)
(** * PyDecimal: the part of Python's [decimal] module the money code uses

    The standard library's [Decimal] is part of the language the program is
    written in, so it is modelled and not assumed: finite decimals as a
    coefficient and an exponent, the default context (28 digits,
    ROUND_HALF_EVEN, Emax 999999, Emin -999999, traps on InvalidOperation,
    DivisionByZero and Overflow), and the operations [+], [-], [*], [/],
    [scaleb], [quantize] and [int()].  The sign of zero is not represented:
    every amount the program stores goes through an integer, which has none.

    The meaning of a decimal is a rational ([dval]); [deq] is equality of that
    meaning, coarser than equality of coefficient and exponent, and the
    operations respect it.  [rhu] is the specification of ROUND_HALF_UP on
    rationals; the lemmas at the end say which operations are exact and that
    [quantize] to an integer is [rhu]. *)

From Stdlib Require Import QArith Qround Qpower Lqa Setoid Morphisms.
From S2P Require Import Prelude.
#[local] Open Scope Z_scope.

(** ** Data *)

Record dec := Dec { coef : Z; dexp : Z }.

#[global] Instance dec_eq_dec : EqDecision dec.
Proof. solve_decision. Defined.

Inductive dec_error := InvalidOperation | Overflow | DivisionByZero.

#[global] Instance dec_error_eq_dec : EqDecision dec_error.
Proof. solve_decision. Defined.

Definition prec : Z := 28.
Definition Emax : Z := 999999.
Definition Emin : Z := -999999.
Definition Etiny : Z := Emin - prec + 1.
Definition Etop : Z := Emax - prec + 1.

(** ** Digits and roundings *)

Fixpoint ndigits_fuel (fuel : nat) (z : Z) : Z :=
  match fuel with
  | O => 1
  | S f => if z <? 10 then 1 else 1 + ndigits_fuel f (z / 10)
  end.

(** [len(str(abs(z)))]; each step divides by ten, so [log2] steps are enough. *)
Definition ndigits (z : Z) : Z :=
  ndigits_fuel (Z.to_nat (Z.log2 (Z.abs z))) (Z.abs z).

(** [n / d] rounded to an integer, ties away from zero. *)
Definition round_half_up (n d : Z) : Z :=
  Z.sgn n * ((2 * Z.abs n + d) / (2 * d)).

(** [n / d] rounded to an integer, ties to the even neighbour. *)
Definition round_half_even (n d : Z) : Z :=
  let q := Z.abs n / d in
  let r := Z.abs n mod d in
  Z.sgn n * (if 2 * r <? d then q
             else if d <? 2 * r then q + 1
             else if Z.even q then q else q + 1).

(** [Decimal._fix]: round a result to the context. *)
Definition fix_ctx (d : dec) : res dec_error dec :=
  if coef d =? 0 then
    Ok (Dec 0 (Z.min (Z.max (dexp d) Etiny) Emax))
  else
    let exp_min := ndigits (coef d) + dexp d - prec in
    if Etop <? exp_min then Err Overflow
    else
      let exp_min := Z.max exp_min Etiny in
      if dexp d <? exp_min then
        let c := round_half_even (coef d) (10 ^ (exp_min - dexp d)) in
        let d' := if prec <? ndigits c then Dec (c / 10) (exp_min + 1) else Dec c exp_min in
        if Etop <? dexp d' then Err Overflow else Ok d'
      else Ok d.

(** ** Operations *)

Definition of_Z (z : Z) : dec := Dec z 0.

(** The coefficient of [d] written at exponent [e <= dexp d]. *)
Definition coef_at (e : Z) (d : dec) : Z := coef d * 10 ^ (dexp d - e).

Definition dadd (a b : dec) : res dec_error dec :=
  let e := Z.min (dexp a) (dexp b) in
  fix_ctx (Dec (coef_at e a + coef_at e b) e).

Definition dneg (a : dec) : dec := Dec (- coef a) (dexp a).

Definition dsub (a b : dec) : res dec_error dec := dadd a (dneg b).

Definition dmul (a b : dec) : res dec_error dec :=
  fix_ctx (Dec (coef a * coef b) (dexp a + dexp b)).

(** Strip trailing zeros of a quotient up to the ideal exponent. *)
Fixpoint strip_zeros (fuel : nat) (c e ideal : Z) : dec :=
  match fuel with
  | O => Dec c e
  | S f => if (e <? ideal) && (c mod 10 =? 0) then strip_zeros f (c / 10) (e + 1) ideal
           else Dec c e
  end.

Definition ddiv (a b : dec) : res dec_error dec :=
  if coef b =? 0 then
    Err (if coef a =? 0 then InvalidOperation else DivisionByZero)
  else if coef a =? 0 then fix_ctx (Dec 0 (dexp a - dexp b))
  else
    let shift := ndigits (coef b) - ndigits (coef a) + prec + 1 in
    let e := dexp a - dexp b - shift in
    let n := if 0 <=? shift then Z.abs (coef a) * 10 ^ shift else Z.abs (coef a) in
    let m := if 0 <=? shift then Z.abs (coef b) else Z.abs (coef b) * 10 ^ (- shift) in
    let q := n / m in
    let s := Z.sgn (coef a) * Z.sgn (coef b) in
    let d := if n mod m =? 0
             then strip_zeros (Z.to_nat shift) q e (dexp a - dexp b)
             else Dec (if q mod 5 =? 0 then q + 1 else q) e in
    fix_ctx (Dec (s * coef d) (dexp d)).

Definition scaleb (d : dec) (n : Z) : res dec_error dec :=
  fix_ctx (Dec (coef d) (dexp d + n)).

(** [d.quantize(Decimal(1), rounding=ROUND_HALF_UP)], as the integer [int()] gives. *)
Definition rescale0_half_up (d : dec) : Z :=
  if 0 <=? dexp d then coef d * 10 ^ dexp d
  else round_half_up (coef d) (10 ^ (- dexp d)).

Definition quantize_int_half_up (d : dec) : res dec_error Z :=
  let c := rescale0_half_up d in
  if prec <? ndigits c then Err InvalidOperation else Ok c.

(** [d.quantize(Decimal(10) ** e)] under the default ROUND_HALF_EVEN. *)
Definition quantize_half_even (e : Z) (d : dec) : res dec_error dec :=
  let c := if e <=? dexp d then coef d * 10 ^ (dexp d - e)
           else round_half_even (coef d) (10 ^ (e - dexp d)) in
  if prec <? ndigits c then Err InvalidOperation else Ok (Dec c e).

(** Comparison of values. *)
Definition dcompare (a b : dec) : comparison :=
  let e := Z.min (dexp a) (dexp b) in
  coef_at e a ?= coef_at e b.

Definition dltb (a b : dec) : bool := match dcompare a b with Lt => true | _ => false end.
Definition dleb (a b : dec) : bool := match dcompare a b with Gt => false | _ => true end.
Definition deqb (a b : dec) : bool := match dcompare a b with Eq => true | _ => false end.

(** ** The meaning of a decimal *)

Definition dval (d : dec) : Q := (inject_Z (coef d) * Qpower 10 (dexp d))%Q.

Definition deq (a b : dec) : Prop := Qeq (dval a) (dval b).

(** ROUND_HALF_UP on rationals: to the nearest integer, ties away from zero. *)
Definition rhu (q : Q) : Z := round_half_up (Qnum q) (Zpos (Qden q)).

(** Move an integer inequality to the rationals. *)
Ltac z2q H :=
  first [rewrite Zle_Qle in H | rewrite Zlt_Qlt in H | idtac];
  repeat first [ rewrite inject_Z_plus in H | rewrite inject_Z_mult in H
               | rewrite inject_Z_opp in H ].

(** ** Powers of ten *)

Definition p10 (e : Z) : Q := Qpower 10 e.

Lemma p10_pos (e : Z) : (0 < p10 e)%Q.
Proof. apply Qpower_0_lt. reflexivity. Qed.

Lemma p10_add (a b : Z) : (p10 (a + b) == p10 a * p10 b)%Q.
Proof. apply Qpower_plus. discriminate. Qed.

Lemma p10_Z (e : Z) : 0 <= e -> (p10 e == inject_Z (10 ^ e))%Q.
Proof. intros H. symmetry. by apply Zpower_Qpower. Qed.

Lemma p10_sub (a b : Z) : 0 <= b -> (p10 (a - b) * inject_Z (10 ^ b) == p10 a)%Q.
Proof.
  intros H. rewrite <- p10_Z by done. rewrite <- p10_add.
  by replace (a - b + b) with a by lia.
Qed.

Lemma pow10_pos (k : Z) : 0 <= k -> 0 < 10 ^ k.
Proof. intros. by apply Z.pow_pos_nonneg. Qed.

(** ** Digit counts *)

Lemma ndigits_fuel_pos (f : nat) (z : Z) : 1 <= ndigits_fuel f z.
Proof. revert z; induction f as [|f IH]; simpl; intros z; [lia|]. destruct (z <? 10); [lia|]. specialize (IH (z / 10)). lia. Qed.

Lemma ndigits_fuel_le (f : nat) (z k : Z) :
  0 <= z -> 1 <= k -> z < 10 ^ k -> ndigits_fuel f z <= k.
Proof.
  revert z k; induction f as [|f IH]; simpl; intros z k Hz Hk Hlt; [lia|].
  destruct (z <? 10) eqn:E; bool_cases; [lia|].
  destruct (decide (k = 1)) as [->|]; [lia|].
  assert (ndigits_fuel f (z / 10) <= k - 1); [|lia].
  apply IH; [apply Z.div_pos; lia | lia |].
  apply Z.div_lt_upper_bound; [lia|].
  by rewrite <- (Z.pow_succ_r 10 (k - 1)), Z.sub_1_r, Z.succ_pred by lia.
Qed.

Lemma ndigits_pos (z : Z) : 1 <= ndigits z.
Proof. apply ndigits_fuel_pos. Qed.

Lemma ndigits_le (z k : Z) : 1 <= k -> Z.abs z < 10 ^ k -> ndigits z <= k.
Proof. intros. apply ndigits_fuel_le; lia. Qed.

Lemma ndigits_fuel_upper (f : nat) (z : Z) :
  0 <= z -> z < 2 ^ (Z.of_nat f + 1) -> z < 10 ^ ndigits_fuel f z.
Proof.
  revert z; induction f as [|f IH]; intros z Hz Hlt; simpl.
  - change (2 ^ (Z.of_nat 0 + 1)) with 2 in Hlt. change (10 ^ 1) with 10. lia.
  - destruct (z <? 10) eqn:E; bool_cases; [change (10 ^ 1) with 10; lia|].
    rewrite Z.add_comm, Z.pow_add_r by (pose proof (ndigits_fuel_pos f (z / 10)); lia).
    change (10 ^ 1) with 10.
    assert (z / 10 < 10 ^ ndigits_fuel f (z / 10)) as IHz.
    { apply IH; [apply Z.div_pos; lia|].
      apply Z.div_lt_upper_bound; [lia|].
      replace (Z.of_nat (S f) + 1) with (Z.succ (Z.of_nat f + 1)) in Hlt by lia.
      rewrite Z.pow_succ_r in Hlt by lia. lia. }
    pose proof (Z.div_mod z 10 ltac:(lia)). pose proof (Z.mod_pos_bound z 10 ltac:(lia)). lia.
Qed.

Lemma ndigits_upper (z : Z) : Z.abs z < 10 ^ ndigits z.
Proof.
  apply ndigits_fuel_upper; [lia|].
  destruct (decide (z = 0)) as [->|Hz]; [by vm_compute|].
  rewrite Z2Nat.id by apply Z.log2_nonneg.
  apply (Z.log2_spec (Z.abs z)). lia.
Qed.

Lemma ndigits_lower (z : Z) : z <> 0 -> 10 ^ (ndigits z - 1) <= Z.abs z.
Proof.
  intros Hz. destruct (Z.le_gt_cases (10 ^ (ndigits z - 1)) (Z.abs z)) as [|Hlt]; [done|].
  destruct (decide (ndigits z = 1)) as [E|].
  - rewrite E in Hlt |- *. change (10 ^ (1 - 1)) with 1 in *. lia.
  - pose proof (ndigits_pos z). apply ndigits_le in Hlt; lia.
Qed.

(** ** Rounding half up *)

Lemma round_half_up_scale (n d k : Z) :
  0 < d -> 0 < k -> round_half_up (n * k) (d * k) = round_half_up n d.
Proof.
  intros Hd Hk. unfold round_half_up.
  rewrite Z.sgn_mul, (Z.sgn_pos k), Z.mul_1_r by done. f_equal.
  rewrite Z.abs_mul, (Z.abs_eq k) by lia.
  replace (2 * (Z.abs n * k) + d * k) with ((2 * Z.abs n + d) * k) by ring.
  replace (2 * (d * k)) with (2 * d * k) by ring.
  apply Z.div_mul_cancel_r; lia.
Qed.

#[export] Instance rhu_proper : Proper (Qeq ==> eq) rhu.
Proof.
  intros [a b] [c d] H. unfold Qeq in H; simpl in H. unfold rhu; simpl.
  rewrite <- (round_half_up_scale a (Zpos b) (Zpos d)) by lia.
  rewrite H. rewrite Z.mul_comm with (n := Zpos b).
  by rewrite round_half_up_scale by lia.
Qed.

Lemma rhu_frac (n d : Z) : 0 < d -> rhu (inject_Z n / inject_Z d) = round_half_up n d.
Proof.
  intros Hd. destruct d as [|d|d]; try lia.
  transitivity (rhu (n # d)); [|done].
  apply rhu_proper. rewrite (Qmake_Qdiv n d). reflexivity.
Qed.

Lemma rhu_Z (n : Z) : rhu (inject_Z n) = n.
Proof.
  unfold rhu, round_half_up. cbn [Qnum Qden inject_Z]. change (2 * 1) with 2.
  destruct (Z.lt_trichotomy n 0) as [H|[->|H]]; [| done |].
  - rewrite Z.sgn_neg by done.
    rewrite <- (Z.div_unique (2 * Z.abs n + 1) 2 (- n) 1); lia.
  - rewrite Z.sgn_pos by done.
    rewrite <- (Z.div_unique (2 * Z.abs n + 1) 2 n 1); lia.
Qed.

(** The defining bound: the result is a nearest integer. *)
Lemma round_half_up_bounds (n d : Z) :
  0 < d -> Z.abs (2 * d * round_half_up n d - 2 * n) <= d.
Proof.
  intros Hd. unfold round_half_up.
  pose proof (Z.div_mod (2 * Z.abs n + d) (2 * d) ltac:(lia)) as E.
  pose proof (Z.mod_pos_bound (2 * Z.abs n + d) (2 * d) ltac:(lia)) as B.
  set (q := (2 * Z.abs n + d) / (2 * d)) in *.
  destruct (Z.lt_trichotomy n 0) as [H|[->|H]].
  - rewrite Z.sgn_neg by done. nia.
  - change (Z.sgn 0) with 0. rewrite Z.mul_0_l. lia.
  - rewrite Z.sgn_pos by done. nia.
Qed.

Lemma rhu_bounds (q : Q) : (q - (1 # 2) <= inject_Z (rhu q) <= q + (1 # 2))%Q.
Proof.
  destruct q as [n d]. unfold rhu; simpl.
  pose proof (round_half_up_bounds n (Zpos d) ltac:(lia)) as H.
  set (r := round_half_up n (Z.pos d)) in *.
  unfold Qle, Qminus, Qplus, inject_Z; simpl.
  rewrite ?Pos2Z.inj_mul. split; nia.
Qed.

Lemma rhu_opp (q : Q) : rhu (- q) = - rhu q.
Proof.
  destruct q as [n d]. unfold rhu, round_half_up; simpl.
  rewrite Z.sgn_opp, Z.abs_opp. lia.
Qed.

Lemma round_half_up_nonneg (n d : Z) : 0 < d -> 0 <= n -> 0 <= round_half_up n d.
Proof.
  intros. unfold round_half_up. apply Z.mul_nonneg_nonneg; [lia|].
  apply Z.div_pos; lia.
Qed.

Lemma rhu_mono (p q : Q) : (p <= q)%Q -> rhu p <= rhu q.
Proof.
  intros Hpq. pose proof (rhu_bounds p) as [Hp1 Hp2]. pose proof (rhu_bounds q) as [Hq1 Hq2].
  destruct (Z.le_gt_cases (rhu p) (rhu q)) as [|Hgt]; [done|exfalso].
  assert (inject_Z (rhu q) + 1 <= inject_Z (rhu p))%Q as Hi.
  { rewrite <- (inject_Z_plus _ 1), <- Zle_Qle. lia. }
  assert (p == q)%Q as E by lra.
  rewrite E in Hgt. lia.
Qed.

Lemma rhu_unique (q : Q) (n : Z) :
  (inject_Z n - (1 # 2) < q < inject_Z n + (1 # 2))%Q -> rhu q = n.
Proof.
  intros [H1 H2]. pose proof (rhu_bounds q) as [Hq1 Hq2].
  assert (inject_Z (rhu q) < inject_Z n + 1)%Q as A by lra.
  assert (inject_Z n < inject_Z (rhu q) + 1)%Q as B by lra.
  rewrite <- (inject_Z_plus _ 1), <- Zlt_Qlt in A.
  rewrite <- (inject_Z_plus _ 1), <- Zlt_Qlt in B. lia.
Qed.

Lemma rhu_zero : rhu 0 = 0.
Proof. done. Qed.

Lemma rhu_nonneg (q : Q) : (0 <= q)%Q -> 0 <= rhu q.
Proof. intros H. rewrite <- rhu_zero. by apply rhu_mono. Qed.

(** ** Exactness of the operations *)

(** What fits the context: at most 28 digits and an exponent in range. *)
Definition fits (d : dec) : Prop :=
  Z.abs (coef d) < 10 ^ prec /\ Etiny <= dexp d <= Etop.

Lemma fix_ctx_fits (d : dec) : fits d -> fix_ctx d = Ok d.
Proof.
  intros [Hc He]. unfold fix_ctx, Etop, Etiny, Emax, Emin in *.
  destruct (coef d =? 0) eqn:E; bool_cases.
  - destruct d as [c e]; simpl in *. subst c. do 2 f_equal. unfold prec in *. lia.
  - pose proof (ndigits_le (coef d) prec ltac:(done) Hc).
    rewrite (proj2 (Z.ltb_ge _ _)) by lia.
    by rewrite (proj2 (Z.ltb_ge (dexp d) _)) by lia.
Qed.

Lemma coef_at_val (e : Z) (d : dec) :
  e <= dexp d -> (inject_Z (coef_at e d) * p10 e == dval d)%Q.
Proof.
  intros H. unfold coef_at, dval. rewrite inject_Z_mult, <- p10_Z by lia.
  rewrite <- Qmult_assoc, <- p10_add. by replace (dexp d - e + e) with (dexp d) by lia.
Qed.

Lemma dval_Dec (c e : Z) : (dval (Dec c e) == inject_Z c * p10 e)%Q.
Proof. reflexivity. Qed.

Lemma dval_of_Z (z : Z) : (dval (of_Z z) == inject_Z z)%Q.
Proof. unfold dval, of_Z; simpl. ring. Qed.

Lemma dval_dneg (a : dec) : (dval (dneg a) == - dval a)%Q.
Proof. unfold dval, dneg; simpl. rewrite inject_Z_opp. ring. Qed.

Lemma dadd_exact (a b : dec) :
  let e := Z.min (dexp a) (dexp b) in
  fits (Dec (coef_at e a + coef_at e b) e) ->
  exists d, dadd a b = Ok d /\ (dval d == dval a + dval b)%Q /\ dexp d = e.
Proof.
  intros e H. unfold dadd. fold e. rewrite fix_ctx_fits by done.
  eexists; split; [done|]; split; [|done].
  rewrite dval_Dec, inject_Z_plus, Qmult_plus_distr_l, !coef_at_val by lia. reflexivity.
Qed.

Lemma dmul_exact (a b : dec) :
  fits (Dec (coef a * coef b) (dexp a + dexp b)) ->
  dmul a b = Ok (Dec (coef a * coef b) (dexp a + dexp b)) /\
  (dval (Dec (coef a * coef b) (dexp a + dexp b)) == dval a * dval b)%Q.
Proof.
  intros H. unfold dmul. split; [by apply fix_ctx_fits|].
  rewrite dval_Dec, inject_Z_mult, p10_add. unfold dval, p10. ring.
Qed.

Lemma scaleb_exact (d : dec) (n : Z) :
  fits (Dec (coef d) (dexp d + n)) ->
  scaleb d n = Ok (Dec (coef d) (dexp d + n)) /\
  (dval (Dec (coef d) (dexp d + n)) == dval d * p10 n)%Q.
Proof.
  intros H. unfold scaleb. split; [by apply fix_ctx_fits|].
  rewrite dval_Dec, p10_add. unfold dval, p10. ring.
Qed.

Lemma rescale0_half_up_spec (d : dec) : rescale0_half_up d = rhu (dval d).
Proof.
  unfold rescale0_half_up. destruct (0 <=? dexp d) eqn:E; bool_cases.
  - rewrite <- (rhu_Z (coef d * _)). apply rhu_proper. unfold dval.
    by rewrite inject_Z_mult, Zpower_Qpower by done.
  - rewrite <- rhu_frac by (apply pow10_pos; lia). apply rhu_proper.
    unfold dval, Qdiv. rewrite Zpower_Qpower by lia.
    rewrite Qpower_opp, Qinv_involutive. reflexivity.
Qed.

Lemma quantize_int_half_up_spec (d : dec) :
  quantize_int_half_up d =
  if prec <? ndigits (rhu (dval d)) then Err InvalidOperation else Ok (rhu (dval d)).
Proof. unfold quantize_int_half_up. by rewrite rescale0_half_up_spec. Qed.

Lemma dcompare_spec (a b : dec) : dcompare a b = (dval a ?= dval b)%Q.
Proof.
  unfold dcompare. set (e := Z.min (dexp a) (dexp b)).
  rewrite <- (coef_at_val e a), <- (coef_at_val e b) by lia.
  pose proof (p10_pos e) as Hp.
  destruct (Z.compare_spec (coef_at e a) (coef_at e b)) as [E|L|G]; symmetry.
  - apply Qeq_alt. by rewrite E.
  - apply Qlt_alt. apply Qmult_lt_compat_r; [done|]. by rewrite <- Zlt_Qlt.
  - apply Qgt_alt. apply Qmult_lt_compat_r; [done|]. rewrite <- Zlt_Qlt. lia.
Qed.

Lemma dltb_spec (a b : dec) : dltb a b = true <-> (dval a < dval b)%Q.
Proof. unfold dltb. rewrite dcompare_spec, Qlt_alt. by destruct (dval a ?= dval b)%Q. Qed.

Lemma dleb_spec (a b : dec) : dleb a b = true <-> (dval a <= dval b)%Q.
Proof. unfold dleb. rewrite dcompare_spec, Qle_alt. by destruct (dval a ?= dval b)%Q. Qed.

Lemma deqb_spec (a b : dec) : deqb a b = true <-> (dval a == dval b)%Q.
Proof. unfold deqb. rewrite dcompare_spec, Qeq_alt. by destruct (dval a ?= dval b)%Q. Qed.

#[export] Instance deq_equivalence : Equivalence deq.
Proof.
  split; unfold deq.
  - intros a; reflexivity.
  - intros a b H. symmetry. exact H.
  - intros a b c H1 H2. rewrite H1. exact H2.
Qed.

#[export] Instance dval_proper : Proper (deq ==> Qeq) dval.
Proof. by intros a b. Qed.

#[export] Instance quantize_proper : Proper (deq ==> eq) quantize_int_half_up.
Proof. intros a b H. rewrite !quantize_int_half_up_spec. by rewrite (rhu_proper _ _ H). Qed.

(** ** Division *)

Lemma strip_zeros_val (f : nat) (c e i : Z) :
  (dval (strip_zeros f c e i) == inject_Z c * p10 e)%Q.
Proof.
  revert c e; induction f as [|f IH]; intros c e; simpl; [reflexivity|].
  destruct (e <? i); simpl; [|reflexivity].
  destruct (c mod 10 =? 0) eqn:E; [|reflexivity]. bool_cases.
  rewrite IH, p10_add. pose proof (Z.div_mod c 10 ltac:(lia)) as D.
  rewrite E, Z.add_0_r in D. rewrite D at 2. rewrite inject_Z_mult.
  change (p10 1) with (inject_Z 10). ring.
Qed.

(** Stripping [k] known trailing zeros, then at most what is left of the fuel. *)
Lemma strip_zeros_pow (k f : nat) (c e i : Z) :
  (k <= f)%nat -> e + Z.of_nat k <= i ->
  strip_zeros f (c * 10 ^ Z.of_nat k) e i = strip_zeros (f - k) c (e + Z.of_nat k) i.
Proof.
  revert f e; induction k as [|k IH]; intros f e Hf He.
  - rewrite Nat.sub_0_r. f_equal; simpl; lia.
  - destruct f as [|f]; [lia|]. cbn [strip_zeros].
    rewrite (proj2 (Z.ltb_lt e i)) by lia.
    rewrite Nat2Z.inj_succ, Z.pow_succ_r by lia.
    replace (c * (10 * 10 ^ Z.of_nat k)) with (c * 10 ^ Z.of_nat k * 10) by ring.
    rewrite Z_mod_mult, Z.eqb_refl, Z.div_mul by lia. cbn [andb].
    rewrite IH by lia. f_equal; lia.
Qed.

Lemma strip_zeros_range (f : nat) (c e i : Z) :
  0 <= c -> e <= i ->
  0 <= coef (strip_zeros f c e i) <= c /\ e <= dexp (strip_zeros f c e i) <= i.
Proof.
  revert c e; induction f as [|f IH]; intros c e Hc He; simpl; [lia|].
  destruct (e <? i) eqn:E; simpl; [|lia].
  destruct (c mod 10 =? 0); simpl; [|lia]. bool_cases.
  destruct (IH (c / 10) (e + 1)) as [[? Hle] ?]; [apply Z.div_pos; lia | lia |].
  pose proof (Z.div_le_upper_bound c 10 c ltac:(lia) ltac:(lia)). lia.
Qed.

(** Dividing by one hundred is exact: the only division in a percentage. *)
Lemma ddiv_100_exact (a : dec) (k : Z) :
  Z.abs (coef a) < 10 ^ prec -> -2 <= k <= 2 -> Etiny + 64 <= dexp a <= Etop - 64 ->
  exists d, ddiv a (Dec (10 ^ (2 + k)) (- k)) = Ok d /\
    (dval d == dval a * (1 # 100))%Q /\ Z.abs (coef d) <= Z.abs (coef a) /\
    dexp a - 2 <= dexp d <= dexp a + k.
Proof.
  intros Hc Hk He. unfold ddiv. cbn [coef dexp].
  pose proof (pow10_pos (2 + k) ltac:(lia)) as H100.
  rewrite (proj2 (Z.eqb_neq (10 ^ (2 + k)) 0)) by lia.
  destruct (coef a =? 0) eqn:E0; bool_cases.
  { rewrite fix_ctx_fits.
    - eexists; split; [done|]. split; [|cbn [coef dexp]; change (Z.abs 0) with 0;
        split; [|]; lia].
      unfold dval; cbn [coef dexp]. rewrite E0. change (inject_Z 0) with 0%Q. ring.
    - split; cbn [coef dexp]; [by apply pow10_pos | unfold Etiny, Etop, Emin, Emax, prec in *; lia]. }
  pose proof (ndigits_le (coef a) prec ltac:(done) Hc) as Hn.
  pose proof (ndigits_pos (coef a)) as Hn1.
  assert (ndigits (10 ^ (2 + k)) = 3 + k) as ->.
  { assert (k = -2 \/ k = -1 \/ k = 0 \/ k = 1 \/ k = 2) as [->|[->|[->|[->| ->]]]] by lia; done. }
  set (n := ndigits (coef a)) in *.
  assert (exists t : nat, 3 + k - n + prec + 1 = Z.of_nat t + (2 + k)) as [t Ht].
  { exists (Z.to_nat (30 - n)). unfold prec in *. lia. }
  rewrite Ht. rewrite (proj2 (Z.leb_le 0 _)) by lia.
  rewrite (Z.abs_eq (10 ^ (2 + k))) by lia.
  rewrite (Z.pow_add_r 10 (Z.of_nat t)) by lia. rewrite Z.mul_assoc.
  rewrite Z_mod_mult, Z.eqb_refl, Z.div_mul by lia.
  rewrite (Z.sgn_pos (10 ^ (2 + k))), Z.mul_1_r by done.
  set (ideal := dexp a - - k). set (e := ideal - (Z.of_nat t + (2 + k))).
  replace (Z.to_nat (Z.of_nat t + (2 + k))) with (t + Z.to_nat (2 + k))%nat by lia.
  rewrite strip_zeros_pow by (unfold e; lia).
  replace (t + Z.to_nat (2 + k) - t)%nat with (Z.to_nat (2 + k)) by lia.
  replace (e + Z.of_nat t) with (ideal - (2 + k)) by (unfold e; lia).
  destruct (strip_zeros_range (Z.to_nat (2 + k)) (Z.abs (coef a)) (ideal - (2 + k)) ideal)
    as [Hs1 Hs2]; [lia|lia|].
  pose proof (strip_zeros_val (Z.to_nat (2 + k)) (Z.abs (coef a)) (ideal - (2 + k)) ideal) as Hv.
  set (r := strip_zeros _ _ _ _) in *.
  assert (fits (Dec (Z.sgn (coef a) * coef r) (dexp r))) as Hf.
  { split; cbn [coef dexp]; [rewrite Z.abs_mul; nia |].
    unfold ideal, Etiny, Etop, Emin, Emax, prec in *. lia. }
  rewrite fix_ctx_fits by done. eexists; split; [done|].
  split; [|split; [cbn [coef]; rewrite Z.abs_mul; nia|]].
  - rewrite dval_Dec, inject_Z_mult, <- Qmult_assoc. change (inject_Z (coef r) * p10 (dexp r))%Q with (dval r).
    rewrite Hv. replace (ideal - (2 + k)) with (dexp a + -2) by (unfold ideal; lia).
    rewrite p10_add. change (p10 (-2)) with (1 # 100)%Q.
    rewrite Qmult_assoc, <- inject_Z_mult, Z.mul_comm, Z.abs_sgn. unfold dval, p10. ring.
  - cbn [dexp]. unfold ideal in *. lia.
Qed.

(** ** Accuracy of an inexact division *)

Lemma round_half_even_bounds (n d : Z) :
  0 < d -> 0 <= n -> Z.abs (2 * (round_half_even n d * d - n)) <= d.
Proof.
  intros Hd Hn. unfold round_half_even. rewrite (Z.abs_eq n) by done.
  pose proof (Z.div_mod n d ltac:(lia)) as E. pose proof (Z.mod_pos_bound n d Hd) as B.
  set (q := n / d) in *. set (r := n mod d) in *.
  destruct (decide (n = 0)) as [->|]; [change (Z.sgn 0) with 0; lia|].
  rewrite Z.sgn_pos, Z.mul_1_l by lia.
  destruct (2 * r <? d) eqn:E1; bool_cases; [nia|].
  destruct (d <? 2 * r) eqn:E2; bool_cases; [nia|].
  destruct (Z.even q); nia.
Qed.

Lemma Qscale_bounds (x y z w a b : Q) :
  (0 < w -> x * a <= y * z -> y * z <= x * b -> x * w * a <= y * (w * z) <= x * w * b)%Q.
Proof.
  intros Hw H1 H2.
  assert (x * w * a == (x * a) * w)%Q as -> by ring.
  assert (x * w * b == (x * b) * w)%Q as -> by ring.
  assert (y * (w * z) == (y * z) * w)%Q as -> by ring.
  split; apply Qmult_le_compat_r; auto using Qlt_le_weak.
Qed.

(** Relative error of one rounding to the context: half a unit in the 28th digit. *)
Definition ulp : Q := 5 # 10000000000000000000000000000.

(** Dropping [j] digits of a coefficient of [prec + j] digits. *)
Lemma drop_digits_close (d : dec) (j : Z) :
  0 <= j -> 10 ^ (prec - 1) * 10 ^ j <= coef d ->
  let c := round_half_even (coef d) (10 ^ j) in
  (dval d * (1 - ulp) <= dval (Dec c (dexp d + j)) <= dval d * (1 + ulp))%Q.
Proof.
  intros Hj0 Hl c. pose proof (pow10_pos j Hj0) as Hj.
  pose proof (pow10_pos (prec - 1) ltac:(done)) as Hpr.
  pose proof (round_half_even_bounds (coef d) (10 ^ j) Hj ltac:(nia)) as Hb. fold c in Hb.
  rewrite dval_Dec, p10_add, (p10_Z j) by done. unfold dval. fold (p10 (dexp d)).
  apply Qscale_bounds; [apply p10_pos|..]; unfold ulp.
  all: change (10 ^ (prec - 1)) with 1000000000000000000000000000 in Hl.
  all: assert (2 * (c * 10 ^ j) <= 2 * coef d + 10 ^ j) as H1 by lia.
  all: assert (2 * coef d <= 2 * (c * 10 ^ j) + 10 ^ j) as H2 by lia.
  all: z2q Hl; z2q H1; z2q H2.
  all: change (inject_Z 2) with 2%Q in *.
  all: change (inject_Z 1000000000000000000000000000) with (1000000000000000000000000000#1)%Q in *.
  all: lra.
Qed.

(** A coefficient of all nines carries into the next power of ten. *)
Lemma carry_val (e : Z) : (dval (Dec (10 ^ prec / 10) (e + 1)) == dval (Dec (10 ^ prec) e))%Q.
Proof.
  assert (10 ^ prec = 10 ^ prec / 10 * 10) as E by (vm_compute; reflexivity).
  set (a := 10 ^ prec / 10) in *. rewrite E, !dval_Dec, inject_Z_mult, p10_add.
  change (p10 1) with (inject_Z 10). ring.
Qed.

(** A positive value rounded to the context. *)
Lemma fix_ctx_close (d : dec) :
  0 < coef d -> Etiny <= dexp d -> ndigits (coef d) + dexp d + 1 <= Etop ->
  exists d', fix_ctx d = Ok d' /\
    (dval d * (1 - ulp) <= dval d' <= dval d * (1 + ulp))%Q /\
    0 <= coef d' < 10 ^ prec /\ dexp d <= dexp d' <= dexp d + ndigits (coef d).
Proof.
  intros Hc He Ht. pose proof (ndigits_pos (coef d)) as Hn1.
  destruct (Z.le_gt_cases (ndigits (coef d)) prec) as [Hn|Hn].
  { exists d. pose proof (ndigits_upper (coef d)) as Hu.
    pose proof (Z.pow_le_mono_r 10 _ _ ltac:(lia) Hn).
    rewrite fix_ctx_fits by (split; lia). split; [done|]. split; [|lia].
    assert (0 <= dval d)%Q as H0.
    { unfold dval. apply Qmult_le_0_compat; [|apply Qlt_le_weak, p10_pos].
      change 0%Q with (inject_Z 0). rewrite <- Zle_Qle. lia. }
    unfold ulp. split; lra. }
  set (j := ndigits (coef d) - prec). assert (0 <= j) as Hj0 by (unfold j; lia).
  pose proof (pow10_pos j Hj0) as Hj.
  pose proof (ndigits_upper (coef d)) as Hu. pose proof (ndigits_lower (coef d) ltac:(lia)) as Hl.
  rewrite Z.abs_eq in Hu, Hl by lia.
  replace (ndigits (coef d)) with (prec + j) in Hu by (unfold j; lia).
  replace (ndigits (coef d) - 1) with (prec - 1 + j) in Hl by (unfold j; lia).
  rewrite Z.pow_add_r in Hu, Hl by (unfold prec; lia).
  pose proof (drop_digits_close d j Hj0 Hl) as Hv.
  pose proof (round_half_even_bounds (coef d) (10 ^ j) Hj ltac:(lia)) as Hb.
  set (c := round_half_even (coef d) (10 ^ j)) in *. cbn zeta in Hv.
  assert (0 <= c <= 10 ^ prec) as Hcb by (unfold prec in *; nia).
  unfold fix_ctx. rewrite (proj2 (Z.eqb_neq _ _)) by lia.
  rewrite (proj2 (Z.ltb_ge Etop _)) by (unfold prec in *; lia).
  replace (Z.max (ndigits (coef d) + dexp d - prec) Etiny) with (dexp d + j) by (unfold j; lia).
  rewrite (proj2 (Z.ltb_lt (dexp d) _)) by (unfold j; lia).
  replace (dexp d + j - dexp d) with j by lia. fold c.
  destruct (prec <? ndigits c) eqn:Eov; bool_cases; cbn [dexp].
  - assert (c = 10 ^ prec) as Ec.
    { destruct (Z.le_gt_cases (10 ^ prec) c); [lia|].
      pose proof (ndigits_le c prec ltac:(done) ltac:(lia)). lia. }
    rewrite (proj2 (Z.ltb_ge Etop _)) by (unfold j, prec in *; lia).
    clearbody c. subst c. eexists; split; [done|].
    split; [by rewrite carry_val|]. cbn [coef dexp].
    pose proof (eq_refl : (10 ^ prec / 10 <? 10 ^ prec) = true). bool_cases.
    split; [|unfold j, prec in *; lia]. split; [by apply Z.div_pos|done].
  - rewrite (proj2 (Z.ltb_ge Etop _)) by (unfold j, prec in *; lia).
    eexists; split; [done|]. split; [done|]. cbn [coef dexp].
    split; [|unfold j, prec in *; lia]. split; [lia|].
    pose proof (ndigits_upper c) as Hcu. rewrite Z.abs_eq in Hcu by lia.
    pose proof (Z.pow_le_mono_r 10 _ _ ltac:(lia) Eov). lia.
Qed.

(** The quotient [ddiv] hands to [fix_ctx], for positive operands. *)
Definition pre_quotient (a b : dec) : dec :=
  let shift := ndigits (coef b) - ndigits (coef a) + prec + 1 in
  let e := dexp a - dexp b - shift in
  let n := coef a * 10 ^ shift in
  let q := n / coef b in
  if n mod coef b =? 0 then strip_zeros (Z.to_nat shift) q e (dexp a - dexp b)
  else Dec (if q mod 5 =? 0 then q + 1 else q) e.

Definition small (a : dec) : Prop :=
  0 < coef a < 10 ^ prec /\ -1000 <= dexp a <= 1000.

Lemma small_shift (a b : dec) :
  small a -> small b ->
  2 <= ndigits (coef b) - ndigits (coef a) + prec + 1 <= 56.
Proof.
  intros [[Ha1 Ha2] _] [[Hb1 Hb2] _].
  pose proof (ndigits_pos (coef a)). pose proof (ndigits_pos (coef b)).
  pose proof (ndigits_le (coef a) prec ltac:(done) ltac:(lia)).
  pose proof (ndigits_le (coef b) prec ltac:(done) ltac:(lia)). unfold prec in *. lia.
Qed.

Lemma dec_eta (d : dec) : Dec (coef d) (dexp d) = d.
Proof. by destruct d. Qed.

Lemma ddiv_pre_quotient (a b : dec) :
  small a -> small b -> ddiv a b = fix_ctx (pre_quotient a b).
Proof.
  intros Ha Hb. pose proof (small_shift a b Ha Hb) as Hs.
  destruct Ha as [[Ha1 Ha2] Ha3], Hb as [[Hb1 Hb2] Hb3].
  unfold ddiv, pre_quotient.
  rewrite !(proj2 (Z.eqb_neq _ 0)) by lia. rewrite (proj2 (Z.leb_le 0 _)) by lia.
  rewrite !Z.sgn_pos, !Z.abs_eq by lia.
  by rewrite !Z.mul_1_l, dec_eta.
Qed.

(** [n / m] has 29 or 30 digits, so a unit of the quotient is small next to [n]. *)
Lemma quotient_big (a b : dec) :
  small a -> small b ->
  let n := coef a * 10 ^ (ndigits (coef b) - ndigits (coef a) + prec + 1) in
  10 ^ prec * coef b <= n < 10 ^ (prec + 2) * coef b.
Proof.
  intros Ha Hb. pose proof (small_shift a b Ha Hb) as Hs.
  destruct Ha as [[Ha1 Ha2] Ha3], Hb as [[Hb1 Hb2] Hb3].
  pose proof (ndigits_pos (coef a)). pose proof (ndigits_pos (coef b)).
  pose proof (ndigits_upper (coef a)) as Ua. pose proof (ndigits_lower (coef a) ltac:(lia)) as La.
  pose proof (ndigits_upper (coef b)) as Ub. pose proof (ndigits_lower (coef b) ltac:(lia)) as Lb.
  rewrite Z.abs_eq in Ua, La, Ub, Lb by lia.
  set (na := ndigits (coef a)) in *. set (nb := ndigits (coef b)) in *.
  pose proof (pow10_pos (nb - na + prec + 1) ltac:(lia)) as Hp. cbn zeta. split.
  - apply Z.le_trans with (10 ^ (na - 1) * 10 ^ (nb - na + prec + 1)); [|nia].
    rewrite <- Z.pow_add_r by lia. replace (na - 1 + (nb - na + prec + 1)) with (prec + nb) by lia.
    rewrite Z.pow_add_r by (unfold prec in *; lia). pose proof (pow10_pos prec ltac:(done)). nia.
  - apply Z.lt_le_trans with (10 ^ na * 10 ^ (nb - na + prec + 1)); [nia|].
    rewrite <- Z.pow_add_r by lia. replace (na + (nb - na + prec + 1)) with (prec + 2 + (nb - 1)) by lia.
    rewrite Z.pow_add_r by (unfold prec in *; lia). pose proof (pow10_pos (prec + 2) ltac:(done)). nia.
Qed.

Lemma pre_quotient_close (a b : dec) :
  small a -> small b ->
  (dval a * (1 - ulp) <= dval (pre_quotient a b) * dval b <= dval a * (1 + ulp))%Q /\
  0 < coef (pre_quotient a b) <= 10 ^ (prec + 2) /\
  -2100 <= dexp (pre_quotient a b) <= 2100.
Proof.
  intros Ha Hb. pose proof (small_shift a b Ha Hb) as Hs.
  pose proof (quotient_big a b Ha Hb) as Hq. cbn zeta in Hq.
  destruct Ha as [[Ha1 Ha2] Ha3], Hb as [[Hb1 Hb2] Hb3]. unfold pre_quotient.
  set (s := ndigits (coef b) - ndigits (coef a) + prec + 1) in *.
  set (n := coef a * 10 ^ s) in *. set (e := dexp a - dexp b - s).
  assert (dval a == inject_Z n * p10 (e + dexp b))%Q as Hva.
  { unfold n. rewrite inject_Z_mult, <- p10_Z, <- Qmult_assoc, <- p10_add by lia.
    by replace (s + (e + dexp b)) with (dexp a) by (unfold e; lia). }
  pose proof (Z.div_mod n (coef b) ltac:(lia)) as D.
  pose proof (Z.mod_pos_bound n (coef b) ltac:(lia)) as M.
  assert (0 < n / coef b <= 10 ^ (prec + 2)) as Hqb.
  { split; [apply Z.div_str_pos; unfold prec in *; nia | apply Z.div_le_upper_bound; lia]. }
  assert (forall c0, n - coef b <= c0 * coef b <= n + coef b ->
    (dval a * (1 - ulp) <= inject_Z c0 * p10 e * dval b <= dval a * (1 + ulp))%Q) as Hbound.
  { intros c0 [Hc1 Hc2]. rewrite Hva. unfold dval. fold (p10 (dexp b)).
    assert (inject_Z c0 * p10 e * (inject_Z (coef b) * p10 (dexp b))
      == inject_Z c0 * (p10 (e + dexp b) * inject_Z (coef b)))%Q as ->
      by (rewrite p10_add; ring).
    apply Qscale_bounds; [apply p10_pos|..]; unfold ulp.
    all: change (10 ^ prec) with 10000000000000000000000000000 in Hq; destruct Hq as [Hq _].
    all: assert (n <= c0 * coef b + coef b) as H1 by lia; clear Hc1.
    all: clearbody n; z2q Hq; z2q H1; z2q Hc2.
    all: change (inject_Z 10000000000000000000000000000) with (10000000000000000000000000000#1)%Q in *.
    all: lra. }
  destruct (n mod coef b =? 0) eqn:E; bool_cases.
  - rewrite E, Z.add_0_r in D.
    pose proof (strip_zeros_val (Z.to_nat s) (n / coef b) e (dexp a - dexp b)) as V.
    pose proof (strip_zeros_range (Z.to_nat s) (n / coef b) e (dexp a - dexp b) ltac:(lia) ltac:(unfold e; lia)) as R.
    set (r := strip_zeros _ _ _ _) in *.
    split; [rewrite V; apply Hbound; lia|]. split; [|unfold e in *; lia].
    split; [|lia]. destruct (decide (coef r = 0)) as [Z0|]; [|lia]. exfalso.
    unfold dval in V. rewrite Z0 in V. change (inject_Z 0) with 0%Q in V.
    pose proof (p10_pos e) as Hp. fold (p10 (dexp r)) in V.
    assert (0 < inject_Z (n / coef b))%Q as Hpos by (change 0%Q with (inject_Z 0); rewrite <- Zlt_Qlt; lia).
    nra.
  - cbn [coef dexp]. split; [|split; [|unfold e; lia]].
    + rewrite dval_Dec. apply Hbound. destruct (_ mod 5 =? 0); nia.
    + destruct (_ mod 5 =? 0); [|lia]. split; [lia|].
      assert (n / coef b < 10 ^ (prec + 2)); [|lia]. apply Z.div_lt_upper_bound; lia.
Qed.

(** Division of positive amounts is correct to 27 digits. *)
Lemma ddiv_close (a b : dec) :
  small a -> small b ->
  exists d, ddiv a b = Ok d /\
    (dval a * (1 - 3 * ulp) <= dval d * dval b <= dval a * (1 + 3 * ulp))%Q /\
    0 <= coef d < 10 ^ prec /\ -2100 <= dexp d <= 2200.
Proof.
  intros Ha Hb. rewrite ddiv_pre_quotient by done.
  destruct (pre_quotient_close a b Ha Hb) as [[V1 V2] [[C1 C2] E]].
  set (r := pre_quotient a b) in *.
  assert (ndigits (coef r) <= prec + 3) as Hn.
  { apply ndigits_le; [done|]. rewrite Z.abs_eq by lia.
    apply Z.le_lt_trans with (10 ^ (prec + 2)); [done | by vm_compute]. }
  destruct (fix_ctx_close r) as (d & Hd & [W1 W2] & Hc & He);
    [done | unfold Etiny, Emin, prec; lia | unfold Etop, Emax, prec in *; lia |].
  exists d. split; [done|]. split; [|unfold prec in *; lia].
  assert (0 < dval b)%Q as Hbp.
  { destruct Hb as [[Hb _] _]. unfold dval. apply Qmult_lt_0_compat; [|apply p10_pos].
    change 0%Q with (inject_Z 0). by rewrite <- Zlt_Qlt. }
  assert (0 < dval a)%Q as Hap.
  { destruct Ha as [[Ha _] _]. unfold dval. apply Qmult_lt_0_compat; [|apply p10_pos].
    change 0%Q with (inject_Z 0). by rewrite <- Zlt_Qlt. }
  unfold ulp in *. split; nra.
Qed.
