(* ===== verification/PyText.v ===== *)
(** * PyText: Python strings as the money and lookup code uses them

    ASCII strings: [str.upper], [str.strip], [str()] of an integer and of a
    [Decimal], and the numeric-string grammar of the [Decimal] constructor.
    A string is Stdlib's [string]; the parsers work on its list of characters. *)

From Stdlib Require Import Ascii.
From S2P Require Import Prelude PyDecimal.
#[local] Open Scope Z_scope.

(** ** Characters *)

Definition code (c : Ascii.ascii) : Z := Z.of_N (Ascii.N_of_ascii c).

Definition chr (n : Z) : Ascii.ascii := Ascii.ascii_of_N (Z.to_N n).

(** [str.isspace] on one ASCII character, which is what [strip] removes. *)
Definition is_space (c : Ascii.ascii) : bool :=
  let n := code c in
  ((9 <=? n) && (n <=? 13)) || ((28 <=? n) && (n <=? 32)).

Definition is_digit (c : Ascii.ascii) : bool :=
  let n := code c in (48 <=? n) && (n <=? 57).

Definition digit_val (c : Ascii.ascii) : Z := code c - 48.

Definition upper_char (c : Ascii.ascii) : Ascii.ascii :=
  let n := code c in if (97 <=? n) && (n <=? 122) then chr (n - 32) else c.

(** ** Strings *)

Definition chars (s : string) : list Ascii.ascii := String.list_ascii_of_string s.

Definition of_chars (l : list Ascii.ascii) : string := String.string_of_list_ascii l.

Fixpoint lstrip (l : list Ascii.ascii) : list Ascii.ascii :=
  match l with
  | c :: r => if is_space c then lstrip r else l
  | [] => []
  end.

Definition strip_chars (l : list Ascii.ascii) : list Ascii.ascii :=
  rev (lstrip (rev (lstrip l))).

Definition strip (s : string) : string := of_chars (strip_chars (chars s)).

Definition upper (s : string) : string := of_chars (upper_char <$> chars s).

Definition lower_char (c : Ascii.ascii) : Ascii.ascii :=
  let n := code c in if (65 <=? n) && (n <=? 90) then chr (n + 32) else c.

Definition lower (s : string) : string := of_chars (lower_char <$> chars s).

(** [str(x or '').upper().strip()] for an [x] that is a string or None. *)
Definition norm_code (x : option string) : string := strip (upper (default EmptyString x)).

(** ** Integers *)

Fixpoint digits_fuel (fuel : nat) (z : Z) (acc : list Ascii.ascii) : list Ascii.ascii :=
  let acc' := chr (48 + z mod 10) :: acc in
  match fuel with
  | O => acc'
  | S f => if z <? 10 then acc' else digits_fuel f (z / 10) acc'
  end.

(** The decimal digits of a non-negative integer. *)
Definition digits_of (z : Z) : list Ascii.ascii := digits_fuel (Z.to_nat (Z.log2 z)) z [].

Definition digits_val (l : list Ascii.ascii) : Z :=
  foldl (fun acc c => acc * 10 + digit_val c) 0 l.

Fixpoint span_digits (l : list Ascii.ascii) : list Ascii.ascii * list Ascii.ascii :=
  match l with
  | c :: r => if is_digit c then let '(d, t) := span_digits r in (c :: d, t) else ([], l)
  | [] => ([], [])
  end.

(** ** [Decimal(str)] *)

Definition minus : Ascii.ascii := "-"%char.
Definition plus : Ascii.ascii := "+"%char.
Definition dot : Ascii.ascii := "."%char.

Definition take_sign (l : list Ascii.ascii) : Z * list Ascii.ascii :=
  match l with
  | c :: r => if decide (c = minus) then (-1, r) else if decide (c = plus) then (1, r) else (1, l)
  | [] => (1, [])
  end.

Definition is_e (c : Ascii.ascii) : bool := (code c =? 69) || (code c =? 101).

(** The exponent part: nothing, or E, an optional sign and at least one digit. *)
Definition parse_exp (l : list Ascii.ascii) : option Z :=
  match l with
  | [] => Some 0
  | c :: r =>
    if is_e c then
      let '(sg, r') := take_sign r in
      match span_digits r' with
      | ((_ :: _) as d, []) => Some (sg * digits_val d)
      | _ => None
      end
    else None
  end.

(** Exponents outside these limits make the exact constructor raise. *)
Definition MAX_EMAX : Z := 999999999999999999.
Definition MIN_ETINY : Z := -1999999999999999997.

(** A finite decimal from a string, [None] where the constructor raises or where it
    gives an infinity or a NaN. *)
Definition parse_decimal (s : string) : option dec :=
  let l := List.filter (fun c => negb (code c =? 95)) (strip_chars (chars s)) in
  let '(sg, l) := take_sign l in
  let '(i, l) := span_digits l in
  let '(f, l) := match l with
                 | c :: r => if decide (c = dot) then span_digits r else ([], l)
                 | [] => ([], [])
                 end in
  if bool_decide (i = [] /\ f = []) then None
  else
    e ← parse_exp l;
    let d := Dec (sg * digits_val (i ++ f)) (e - Z.of_nat (length f)) in
    if (MIN_ETINY <=? dexp d) && (dexp d + ndigits (coef d) - 1 <=? MAX_EMAX) then Some d else None.

(** ** [str(Decimal)] *)

(** [%+d]. *)
Definition signed_digits (z : Z) : list Ascii.ascii :=
  (if z <? 0 then minus else plus) :: digits_of (Z.abs z).

(** [str(z)] of an integer, and its [f]-string form. *)
Definition number (z : Z) : string := of_chars ((if z <? 0 then [minus] else []) ++ digits_of (Z.abs z)).

Definition zeros (n : Z) : list Ascii.ascii := replicate (Z.to_nat n) "0"%char.

Definition dec_chars (d : dec) : list Ascii.ascii :=
  let ds := digits_of (Z.abs (coef d)) in
  let len := Z.of_nat (length ds) in
  let leftdigits := dexp d + len in
  let dotplace := if (dexp d <=? 0) && (-6 <? leftdigits) then leftdigits else 1 in
  let '(ip, fp) :=
    if dotplace <=? 0 then (["0"%char], dot :: zeros (- dotplace) ++ ds)
    else if len <=? dotplace then (ds ++ zeros (dotplace - len), [])
    else (take (Z.to_nat dotplace) ds, dot :: drop (Z.to_nat dotplace) ds) in
  let ex := if leftdigits =? dotplace then [] else "E"%char :: signed_digits (leftdigits - dotplace) in
  (if coef d <? 0 then [minus] else []) ++ ip ++ fp ++ ex.

Definition dec_str (d : dec) : string := of_chars (dec_chars d).

(** ** Lemmas: characters *)

Lemma digit_cases (k : Z) (P : Z -> Prop) :
  0 <= k < 10 -> P 0 -> P 1 -> P 2 -> P 3 -> P 4 -> P 5 -> P 6 -> P 7 -> P 8 -> P 9 -> P k.
Proof.
  intros Hk. assert (k = 0 \/ k = 1 \/ k = 2 \/ k = 3 \/ k = 4 \/ k = 5 \/ k = 6 \/ k = 7
    \/ k = 8 \/ k = 9) as H by lia. by repeat (destruct H as [->|H]; [done|]); subst.
Qed.

Lemma digit_char_ok (k : Z) :
  0 <= k < 10 -> digit_val (chr (48 + k)) = k /\ is_digit (chr (48 + k)) = true.
Proof. intros Hk. pattern k. apply digit_cases; done. Qed.

Lemma digit_not (c : Ascii.ascii) :
  is_digit c = true ->
  is_space c = false /\ (code c =? 95) = false /\ c <> minus /\ c <> plus /\ c <> dot.
Proof.
  unfold is_digit, is_space. intros H. bool_cases.
  repeat split; [lia | lia | ..]; intros ->; vm_compute in *; congruence.
Qed.

Lemma chars_append (a b : string) : chars (a +:+ b)%string = chars a ++ chars b.
Proof. unfold chars. induction a as [|c a IH]; [done|]. exact (f_equal (cons c) IH). Qed.

Lemma chars_inj (a b : string) : chars a = chars b -> a = b.
Proof.
  intros H. rewrite <- (String.string_of_list_ascii_of_string a), <- (String.string_of_list_ascii_of_string b).
  unfold chars in H. by rewrite H.
Qed.

Lemma length_chars (s : string) : length (chars s) = String.length s.
Proof. unfold chars. induction s as [|a s IH]; [done|]. exact (f_equal S IH). Qed.

Lemma chars_of_chars (l : list Ascii.ascii) : chars (of_chars l) = l.
Proof. apply String.list_ascii_of_string_of_list_ascii. Qed.

(** ** Lemmas: digits of an integer *)

Lemma digits_fuel_val (f : nat) (z : Z) (acc : list Ascii.ascii) :
  0 <= z < 2 ^ (Z.of_nat f + 1) ->
  foldl (fun a c => a * 10 + digit_val c) 0 (digits_fuel f z acc) =
  foldl (fun a c => a * 10 + digit_val c) z acc.
Proof.
  revert z acc; induction f as [|f IH]; intros z acc Hz; cbn [digits_fuel foldl].
  - change (2 ^ (Z.of_nat 0 + 1)) with 2 in Hz.
    assert (z = 0 \/ z = 1) as [-> | ->] by lia; done.
  - pose proof (Z.mod_pos_bound z 10 ltac:(lia)) as Hm.
    destruct (digit_char_ok (z mod 10) Hm) as [Hd _].
    pose proof (Z.div_mod z 10 ltac:(lia)) as Dz.
    destruct (z <? 10) eqn:E; bool_cases.
    + cbn [foldl]. rewrite Hd. f_equal. rewrite Z.mod_small; lia.
    + rewrite IH; [cbn [foldl]; rewrite Hd; f_equal; lia|].
      split; [apply Z.div_pos; lia|]. apply Z.div_lt_upper_bound; [lia|].
      replace (Z.of_nat (S f) + 1) with (Z.succ (Z.of_nat f + 1)) in Hz by lia.
      rewrite Z.pow_succ_r in Hz by lia. lia.
Qed.

Lemma digits_val_of (z : Z) : 0 <= z -> digits_val (digits_of z) = z.
Proof.
  intros Hz. unfold digits_val, digits_of. rewrite digits_fuel_val; [done|].
  split; [done|]. destruct (decide (z = 0)) as [->|]; [done|].
  rewrite Z2Nat.id by apply Z.log2_nonneg. apply Z.log2_spec. lia.
Qed.

Lemma digits_fuel_digits (f : nat) (z : Z) (acc : list Ascii.ascii) :
  0 <= z -> Forall (fun c => is_digit c = true) acc ->
  Forall (fun c => is_digit c = true) (digits_fuel f z acc) /\ digits_fuel f z acc <> [].
Proof.
  revert z acc; induction f as [|f IH]; intros z acc Hz Ha; cbn [digits_fuel].
  all: pose proof (Z.mod_pos_bound z 10 ltac:(lia)) as Hm.
  all: destruct (digit_char_ok (z mod 10) Hm) as [_ Hd].
  - split; [by constructor | done].
  - destruct (z <? 10); [split; [by constructor | done]|].
    apply IH; [apply Z.div_pos; lia | by constructor].
Qed.

Lemma digits_of_digits (z : Z) :
  0 <= z -> Forall (fun c => is_digit c = true) (digits_of z) /\ digits_of z <> [].
Proof. intros. by apply digits_fuel_digits. Qed.

Lemma zeros_digits (n : Z) : Forall (fun c => is_digit c = true) (zeros n).
Proof. by apply Forall_replicate. Qed.

Lemma digits_val_zeros (n : Z) (l : list Ascii.ascii) : digits_val (zeros n ++ l) = digits_val l.
Proof. unfold digits_val, zeros. induction (Z.to_nat n); simpl; done. Qed.

(** ** Lemmas: parsing *)

Lemma span_digits_app (l r : list Ascii.ascii) :
  Forall (fun c => is_digit c = true) l ->
  (forall c, head r = Some c -> is_digit c = false) ->
  span_digits (l ++ r) = (l, r).
Proof.
  intros Hl Hr. induction Hl as [|c l Hc _ IH]; simpl.
  - destruct r as [|c r]; [done|]. simpl. by rewrite Hr.
  - by rewrite Hc, IH.
Qed.

Lemma strip_chars_id (l : list Ascii.ascii) :
  Forall (fun c => is_space c = false) l -> strip_chars l = l.
Proof.
  intros H. assert (forall k, Forall (fun c => is_space c = false) k -> lstrip k = k) as E.
  { intros k Hk. destruct Hk as [|c k Hc _]; simpl; [done|]. by rewrite Hc. }
  unfold strip_chars. rewrite (E l) by done. rewrite E by (by apply List.Forall_rev). apply rev_involutive.
Qed.

(** Plain positional notation: a sign, digits, and a fractional part if there is one. *)
Definition plain (neg : bool) (i f : list Ascii.ascii) : list Ascii.ascii :=
  (if neg then [minus] else []) ++ i ++ (if bool_decide (f = []) then [] else dot :: f).

Lemma parse_plain (neg : bool) (i f : list Ascii.ascii) :
  Forall (fun c => is_digit c = true) i -> Forall (fun c => is_digit c = true) f -> i <> [] ->
  parse_decimal (of_chars (plain neg i f)) =
  let d := Dec ((if neg then -1 else 1) * digits_val (i ++ f)) (- Z.of_nat (length f)) in
  if (MIN_ETINY <=? dexp d) && (dexp d + ndigits (coef d) - 1 <=? MAX_EMAX) then Some d else None.
Proof.
  intros Hi Hf Hne. unfold parse_decimal. rewrite chars_of_chars.
  assert (Forall (fun c => is_space c = false /\ (code c =? 95) = false) (plain neg i f)) as Hall.
  { unfold plain. repeat apply Forall_app_2.
    - destruct neg; repeat constructor.
    - eapply Forall_impl; [exact Hi|]. intros c Hc. by destruct (digit_not c Hc) as (? & ? & _).
    - case_bool_decide; [constructor|]. constructor; [done|].
      eapply Forall_impl; [exact Hf|]. intros c Hc. by destruct (digit_not c Hc) as (? & ? & _). }
  rewrite strip_chars_id by (eapply Forall_impl; [exact Hall|]; by intros ? []).
  rewrite (filter_all _ (plain neg i f))
    by (eapply Forall_impl; [exact Hall|]; by intros ? [_ ->]).
  assert (take_sign (plain neg i f) = (if neg then -1 else 1,
    i ++ (if bool_decide (f = []) then [] else dot :: f))) as ->.
  { unfold plain. destruct neg; [done|]. destruct i as [|c i]; [done|]. simpl.
    inversion Hi as [|? ? Hc _]; subst. destruct (digit_not c Hc) as (_ & _ & Hm & Hp & _).
    by rewrite !decide_False. }
  rewrite span_digits_app; [|done|].
  2:{ intros c. case_bool_decide; simpl; [done|]. by intros [= <-]. }
  case_bool_decide as Ef.
  - subst f. rewrite app_nil_r. rewrite bool_decide_false by naive_solver. done.
  - cbn [app]. rewrite decide_True by done.
    replace (span_digits f) with (f, @nil Ascii.ascii)
      by (symmetry; rewrite <- (app_nil_r f) at 1; by apply span_digits_app).
    by rewrite bool_decide_false by naive_solver.
Qed.

(** [Decimal(str(d)) == d], digit for digit, for an amount printed without an exponent. *)
Lemma parse_dec_str (d : dec) :
  Z.abs (coef d) < 10 ^ prec -> -4 <= dexp d <= 0 -> parse_decimal (dec_str d) = Some d.
Proof.
  intros Hc He. unfold dec_str, dec_chars.
  set (ds := digits_of (Z.abs (coef d))).
  destruct (digits_of_digits (Z.abs (coef d)) ltac:(lia)) as [Hds Hne]. fold ds in Hds, Hne.
  pose proof (digits_val_of (Z.abs (coef d)) ltac:(lia)) as Hv. fold ds in Hv.
  assert (1 <= Z.of_nat (length ds)) as Hlen by (destruct ds; simpl; [done|lia]).
  set (len := Z.of_nat (length ds)) in *.
  rewrite (proj2 (Z.leb_le (dexp d) 0)), (proj2 (Z.ltb_lt (-6) _)) by lia. cbn [andb].
  rewrite Z.eqb_refl.
  assert (exists i f, Forall (fun c => is_digit c = true) i /\ Forall (fun c => is_digit c = true) f /\
    i <> [] /\ digits_val (i ++ f) = Z.abs (coef d) /\ dexp d = - Z.of_nat (length f) /\
    (if dexp d + len <=? 0 then (["0"%char], dot :: zeros (- (dexp d + len)) ++ ds)
     else if len <=? dexp d + len then (ds ++ zeros (dexp d + len - len), [])
     else (take (Z.to_nat (dexp d + len)) ds, dot :: drop (Z.to_nat (dexp d + len)) ds))
    = (i, if bool_decide (f = []) then [] else dot :: f)) as (i & f & Hi & Hf & Hin & Hval & Hexp & ->).
  { destruct (dexp d + len <=? 0) eqn:E1; bool_cases.
    - exists ["0"%char], (zeros (- (dexp d + len)) ++ ds).
      split; [by repeat constructor|]. split; [apply Forall_app_2; [apply zeros_digits|done]|].
      split; [done|]. split; [change (["0"%char] ++ zeros (- (dexp d + len)) ++ ds) with
        ((zeros 1 ++ zeros (- (dexp d + len)) ++ ds)); by rewrite !digits_val_zeros|].
      split; [unfold zeros; rewrite length_app, length_replicate; lia|].
      rewrite bool_decide_false; [done|]. intros [_ ?]%app_eq_nil. done.
    - destruct (len <=? dexp d + len) eqn:E2; bool_cases.
      + exists ds, []. assert (dexp d = 0) as -> by lia.
        rewrite app_nil_r. repeat split; [done|done|done|done|].
        replace (0 + len - len) with 0 by lia. by rewrite app_nil_r.
      + exists (take (Z.to_nat (dexp d + len)) ds), (drop (Z.to_nat (dexp d + len)) ds).
        split; [by apply Forall_take|]. split; [by apply Forall_drop|].
        split; [destruct ds; [done|]; destruct (Z.to_nat _) eqn:?; [lia|done]|].
        split; [by rewrite take_drop|]. split; [rewrite length_drop; lia|].
        rewrite bool_decide_false; [done|].
        intros Hnil%(f_equal length). rewrite length_drop in Hnil. simpl in Hnil. lia. }
  rewrite app_nil_r.
  change ((if coef d <? 0 then [minus] else []) ++ i ++ (if bool_decide (f = []) then [] else dot :: f))
    with (plain (coef d <? 0) i f).
  rewrite parse_plain by done. rewrite Hval.
  assert ((if coef d <? 0 then -1 else 1) * Z.abs (coef d) = coef d) as ->
    by (destruct (coef d <? 0) eqn:?; bool_cases; lia).
  rewrite <- Hexp. cbn [coef dexp]. rewrite dec_eta.
  pose proof (ndigits_le (coef d) prec ltac:(done) Hc). unfold MIN_ETINY, MAX_EMAX, prec in *.
  rewrite !(proj2 (Z.leb_le _ _)) by lia. done.
Qed.

(** Printed integers read back, whatever non-digit follows. *)
Lemma number_inj (a b : Z) (r s : list Ascii.ascii) :
  (forall c, head r = Some c -> is_digit c = false) -> (forall c, head s = Some c -> is_digit c = false) ->
  chars (number a) ++ r = chars (number b) ++ s -> a = b /\ r = s.
Proof.
  intros Hr Hs. unfold number. rewrite !chars_of_chars.
  destruct (digits_of_digits (Z.abs a) (Z.abs_nonneg a)) as [Da Na].
  destruct (digits_of_digits (Z.abs b) (Z.abs_nonneg b)) as [Db0 Nb].
  assert (forall x l m, x <> [] -> Forall (fun c => is_digit c = true) x -> x ++ l = minus :: m -> False) as Hminus.
  { intros x l m Hx Hd E. destruct x as [|c x]; [done|]. injection E as -> _.
    apply Forall_cons in Hd as [Hd _]. by vm_compute in Hd. }
  assert (digits_of (Z.abs a) ++ r = digits_of (Z.abs b) ++ s -> Z.abs a = Z.abs b /\ r = s) as Hcore.
  { intros E. pose proof (span_digits_app _ r Da Hr) as Sa. rewrite E, (span_digits_app _ s Db0 Hs) in Sa.
    injection Sa as Ed ->. split; [|done].
    rewrite <- (digits_val_of (Z.abs a)), <- (digits_val_of (Z.abs b)) by lia. by rewrite Ed. }
  rewrite <- !app_assoc. destruct (Z.ltb_spec a 0), (Z.ltb_spec b 0); cbn [app].
  - intros [= E]. apply Hcore in E as [E ->]. split; [lia|done].
  - intros E. exfalso. symmetry in E. by eapply Hminus in E.
  - intros E. exfalso. by eapply Hminus in E.
  - intros E. apply Hcore in E as [E ->]. split; [lia|done].
Qed.

Lemma number_not_empty z : number z <> EmptyString.
Proof.
  intros H. apply (f_equal chars) in H. unfold number in H. rewrite chars_of_chars in H.
  destruct (digits_of_digits (Z.abs z) (Z.abs_nonneg z)) as [_ Hne]. by apply app_nil in H as [_ H].
Qed.

Lemma number_eq a b : number a = number b -> a = b.
Proof.
  intros H. apply (f_equal (fun s => chars s ++ [])%list) in H.
  by apply number_inj in H as [-> _].
Qed.

Example parse_exponent : parse_decimal "-1.25E+12" = Some (Dec (-125) 10).
Proof. vm_compute. reflexivity. Qed.
