(* ===== verification/Countries.v ===== *)
(** * Countries: the country registry and phone normalisation

    Models [base/countries.py].  [COUNTRIES] is the registry in the order of the
    Python dict, because [normalize_phone] and [country_of_phone] walk it in that
    order.  Strings are ASCII; the symbols of the registry that are not (the
    rupee sign) are not carried. *)

From Stdlib Require Import Ascii.
From S2P Require Import Prelude PyDecimal PyText.
#[local] Open Scope Z_scope.

(** ** Data *)

Record Country := {
  country_code : string;
  country_name : string;
  country_currency : string;
  symbol_position : string;
  calling_code : string;
  national_number_lengths : list Z;
  country_distance_unit : string;
  country_tax_mode : string;
  country_tax_label : string;
  default_timezone : string;
  default_tax_percent : dec
}.

Definition INDIA : Country := {|
  country_code := "IN"; country_name := "India"; country_currency := "INR";
  symbol_position := "prefix"; calling_code := "91"; national_number_lengths := [10];
  country_distance_unit := "km"; country_tax_mode := "inclusive"; country_tax_label := "GST";
  default_timezone := "Asia/Kolkata"; default_tax_percent := Dec 500 (-2) |}.

Definition UNITED_STATES : Country := {|
  country_code := "US"; country_name := "United States"; country_currency := "USD";
  symbol_position := "prefix"; calling_code := "1"; national_number_lengths := [10];
  country_distance_unit := "mi"; country_tax_mode := "additive";
  country_tax_label := "Sales tax"; default_timezone := "America/New_York";
  default_tax_percent := Dec 0 (-2) |}.

Definition COUNTRIES : list Country := [INDIA; UNITED_STATES].

(** [Country.e164_length]. *)
Definition e164_length (c : Country) : list Z :=
  (fun n => Z.of_nat (String.length (calling_code c)) + n) <$> national_number_lengths c.

(** ** Lookup *)

Definition truthy (s : option string) : bool :=
  match s with None => false | Some s => negb (bool_decide (s = EmptyString)) end.

Definition registry_get (code : string) : option Country :=
  List.find (fun c => bool_decide (country_code c = code)) COUNTRIES.

Definition find_country (code : option string) : option Country :=
  if truthy code then registry_get (norm_code code) else None.

Definition require_country (code : option string) : res (option string) Country :=
  res_opt code (find_country code).

Definition get_country (code : option string) : Country :=
  if truthy code then default INDIA (registry_get (norm_code code)) else INDIA.

Definition is_supported_country (code : option string) : bool :=
  bool_decide (is_Some (registry_get (norm_code code))).

(** ** Phone numbers *)

Definition len (l : list ascii) : Z := Z.of_nat (length l).

(** [digits.startswith(country.calling_code) and len(digits) in country.e164_length] *)
Definition full_number_of (digits : list ascii) (c : Country) : bool :=
  bool_decide (chars (calling_code c) `prefix_of` digits) &&
  bool_decide (len digits ∈ e164_length c).

Definition national_of (digits : list ascii) (c : Country) : bool :=
  bool_decide (len digits ∈ national_number_lengths c).

Definition e164 (digits : list ascii) : list ascii := plus :: digits.

Definition normalize_phone (raw : option string) (default_country : option string)
    : option (list ascii) :=
  match raw with
  | None => None
  | Some raw =>
    let s := strip_chars (chars raw) in
    let digits := List.filter is_digit s in
    if bool_decide (s = []) then None
    else if bool_decide (digits = []) then None
    else
      let default := find_country default_country in
      if truthy default_country && bool_decide (default = None) then None
      else if bool_decide (head s = Some plus) then
        if existsb (full_number_of digits) COUNTRIES then Some (e164 digits) else None
      else
        match default with
        | Some d =>
          if national_of digits d then Some (e164 (chars (calling_code d) ++ digits)) else
          let ordered := d :: List.filter (fun c => negb (bool_decide (country_code c = country_code d))) COUNTRIES in
          if existsb (full_number_of digits) ordered then Some (e164 digits) else
          match List.filter (national_of digits) ordered with
          | m :: _ => Some (e164 (chars (calling_code m) ++ digits))
          | [] => None
          end
        | None =>
          if existsb (full_number_of digits) COUNTRIES then Some (e164 digits) else
          match List.filter (national_of digits) COUNTRIES with
          | [m] => Some (e164 (chars (calling_code m) ++ digits))
          | _ => None
          end
        end
  end.

(** The supported country with the longest matching calling code, the first of several. *)
Definition country_of_phone (e164 : option (list ascii)) : option Country :=
  match e164 with
  | None | Some [] => None
  | Some l =>
    let digits := List.filter is_digit l in
    foldl (fun best c =>
      if full_number_of digits c then
        match best with
        | None => Some c
        | Some b => if (String.length (calling_code b) <? String.length (calling_code c))%nat
                    then Some c else best
        end
      else best) None COUNTRIES
  end.

(** ** Lemmas *)

(** A canonical number: a plus, then digits that are a full number of some country. *)
Definition e164_ok (p : list ascii) : Prop :=
  exists digits c, p = e164 digits /\ Forall (fun x => is_digit x = true) digits /\
    c ∈ COUNTRIES /\ full_number_of digits c = true.

Lemma countries_cases (c : Country) : c ∈ COUNTRIES -> c = INDIA \/ c = UNITED_STATES.
Proof. intros [->|[->|[]%not_elem_of_nil]%elem_of_cons]%elem_of_cons; auto. Qed.

Lemma calling_code_digits (c : Country) :
  c ∈ COUNTRIES -> Forall (fun x => is_digit x = true) (chars (calling_code c)).
Proof. intros [->| ->]%countries_cases; by repeat constructor. Qed.

Lemma filter_digits (l : list ascii) : Forall (fun x => is_digit x = true) (List.filter is_digit l).
Proof. induction l as [|c l IH]; simpl; [constructor|]. by destruct (is_digit c) eqn:E; [constructor|]. Qed.

Lemma national_full (digits : list ascii) (c : Country) :
  national_of digits c = true -> full_number_of (chars (calling_code c) ++ digits) c = true.
Proof.
  unfold national_of, full_number_of. intros H%bool_decide_eq_true.
  apply andb_true_iff; split; apply bool_decide_eq_true; [by eexists|].
  unfold e164_length. apply list_elem_of_fmap. exists (len digits); split; [|done].
  unfold len, chars. rewrite length_app. f_equal.
  enough (length (String.list_ascii_of_string (calling_code c)) = String.length (calling_code c)) by lia.
  induction (calling_code c) as [|x s IH]; simpl; congruence.
Qed.

Lemma existsb_full (digits : list ascii) (cs : list Country) :
  (forall c, c ∈ cs -> c ∈ COUNTRIES) -> Forall (fun x => is_digit x = true) digits ->
  existsb (full_number_of digits) cs = true -> e164_ok (e164 digits).
Proof.
  intros Hcs Hd (c & Hin & Hc)%existsb_exists.
  exists digits, c. split; [done|]. split; [done|]. split; [|done]. apply Hcs. by apply list_elem_of_In.
Qed.

Lemma national_ok (digits : list ascii) (c : Country) :
  c ∈ COUNTRIES -> Forall (fun x => is_digit x = true) digits ->
  national_of digits c = true -> e164_ok (e164 (chars (calling_code c) ++ digits)).
Proof.
  intros Hc Hd Hn. exists (chars (calling_code c) ++ digits), c.
  repeat split; [|done|by apply national_full].
  apply Forall_app_2; [by apply calling_code_digits|done].
Qed.

Lemma find_country_in (code : option string) (c : Country) :
  find_country code = Some c -> c ∈ COUNTRIES.
Proof.
  unfold find_country, registry_get. destruct (truthy code); [|done].
  intros [H _]%List.find_some. by apply list_elem_of_In.
Qed.

Lemma ordered_in (d c : Country) (f : Country -> bool) :
  d ∈ COUNTRIES -> c ∈ d :: List.filter f COUNTRIES -> c ∈ COUNTRIES.
Proof.
  intros Hd [->|H]%elem_of_cons; [done|].
  apply list_elem_of_In, filter_In in H as [H _]. by apply list_elem_of_In.
Qed.

Lemma filter_head_in {A : Type} (f : A -> bool) (l : list A) (x : A) (r : list A) :
  List.filter f l = x :: r -> x ∈ l /\ f x = true.
Proof.
  intros H. assert (In x (List.filter f l)) as Hx by (rewrite H; by left).
  apply filter_In in Hx as [? ?]. by rewrite list_elem_of_In.
Qed.

Lemma normalize_phone_sound (raw dc : option string) (p : list ascii) :
  normalize_phone raw dc = Some p -> e164_ok p.
Proof.
  unfold normalize_phone. destruct raw as [raw|]; [|done].
  set (digits := List.filter is_digit (strip_chars (chars raw))).
  pose proof (filter_digits (strip_chars (chars raw))) as Hd. fold digits in Hd.
  repeat (case_bool_decide; [done|]).
  destruct (_ && _); [done|].
  case_bool_decide.
  { destruct (existsb _ _) eqn:E; [|done]. intros [= <-]. by eapply existsb_full; [| |exact E]. }
  destruct (find_country dc) as [d|] eqn:Ed.
  - pose proof (find_country_in _ _ Ed) as Hin.
    destruct (national_of digits d) eqn:En; [intros [= <-]; by apply national_ok|].
    cbv zeta. destruct (existsb _ _) eqn:E.
    { intros [= <-]. eapply existsb_full; [|done|exact E]. intros c. by apply ordered_in. }
    destruct (List.filter _ (_ :: _)) as [|m r] eqn:Ef; [done|]. intros [= <-].
    apply filter_head_in in Ef as [Hm Hn]. apply national_ok; [|done|done]. by eapply ordered_in.
  - destruct (existsb _ _) eqn:E.
    { intros [= <-]. by eapply existsb_full; [| |exact E]. }
    destruct (List.filter (national_of digits) COUNTRIES) as [|m [|m2 r]] eqn:Ef; [done| |done].
    intros [= <-]. apply filter_head_in in Ef as [Hm Hn]. by apply national_ok.
Qed.

Lemma e164_reads_back (digits : list ascii) (c : Country) (dc : option string) :
  Forall (fun x => is_digit x = true) digits -> c ∈ COUNTRIES -> full_number_of digits c = true ->
  truthy dc = false \/ is_Some (find_country dc) ->
  normalize_phone (Some (of_chars (e164 digits))) dc = Some (e164 digits).
Proof.
  intros Hd Hc Hf Hdc. unfold normalize_phone. rewrite chars_of_chars.
  assert (Forall (fun x => is_space x = false) (e164 digits)) as Hs.
  { constructor; [done|]. eapply Forall_impl; [exact Hd|]. intros x Hx. apply (digit_not x Hx). }
  rewrite (strip_chars_id _ Hs). cbn [List.filter e164]. replace (is_digit plus) with false by done.
  rewrite (filter_all _ _ Hd).
  rewrite bool_decide_false by done. rewrite (bool_decide_false (digits = [])).
  2:{ intros ->. apply andb_true_iff in Hf as [_ Hf]. apply bool_decide_eq_true in Hf.
      destruct (countries_cases c Hc) as [-> | ->]; vm_compute in Hf; set_solver. }
  assert (truthy dc && bool_decide (find_country dc = None) = false) as ->.
  { destruct Hdc as [-> | [d ->]]; [done|]. rewrite bool_decide_false by done. apply andb_false_r. }
  rewrite bool_decide_true by done.
  rewrite (proj2 (existsb_exists _ _)); [done|]. exists c. split; [by apply list_elem_of_In | done].
Qed.

Lemma full_number_unique (digits : list ascii) (c d : Country) :
  c ∈ COUNTRIES -> d ∈ COUNTRIES ->
  full_number_of digits c = true -> full_number_of digits d = true -> c = d.
Proof.
  unfold full_number_of. intros Hc Hd [_ H1]%andb_true_iff [_ H2]%andb_true_iff.
  apply bool_decide_eq_true in H1, H2.
  destruct (countries_cases c Hc) as [-> | ->], (countries_cases d Hd) as [-> | ->];
    try done; exfalso;
  apply list_elem_of_fmap in H1 as (x & E1 & H1), H2 as (y & E2 & H2);
  apply list_elem_of_singleton in H1, H2; subst; rewrite E1 in E2; vm_compute in E2; discriminate.
Qed.

Lemma country_of_phone_full (digits : list ascii) (c : Country) :
  Forall (fun x => is_digit x = true) digits -> c ∈ COUNTRIES -> full_number_of digits c = true ->
  country_of_phone (Some (e164 digits)) = Some c.
Proof.
  intros Hd Hc Hf. unfold country_of_phone. cbn [e164 List.filter].
  replace (is_digit plus) with false by done. rewrite (filter_all _ _ Hd).
  pose proof (full_number_unique digits c) as Hu. cbn [COUNTRIES foldl].
  destruct (countries_cases c Hc) as [-> | ->].
  - rewrite Hf. destruct (full_number_of digits UNITED_STATES) eqn:E; [|done].
    by specialize (Hu UNITED_STATES Hc ltac:(by right; left) Hf E).
  - rewrite Hf. destruct (full_number_of digits INDIA) eqn:E; [|done].
    by specialize (Hu INDIA Hc ltac:(by left) Hf E).
Qed.

(** ** Properties *)

(** Phone normalisation is canonical: whatever a person typed and whichever
    default country was assumed, an accepted number is a plus and the digits of a
    full number of exactly one supported country, [country_of_phone] finds that
    country from it, and normalising the result again, under any supported default
    or none, changes nothing. *)
Theorem normalize_phone_canonical (raw dc dc' : option string) (p : list ascii) :
  normalize_phone raw dc = Some p ->
  truthy dc' = false \/ is_Some (find_country dc') ->
  e164_ok p /\
  (exists c, c ∈ COUNTRIES /\ country_of_phone (Some p) = Some c) /\
  normalize_phone (Some (of_chars p)) dc' = Some p.
Proof.
  intros H Hdc. pose proof (normalize_phone_sound _ _ _ H) as Hok. split; [done|].
  destruct Hok as (digits & c & -> & Hd & Hc & Hf). split.
  - exists c. split; [done|]. by apply country_of_phone_full.
  - by eapply e164_reads_back.
Qed.

Lemma normalize_phone_canonical_witness :
  normalize_phone (Some " (555) 123-4567 "%string) (Some "us"%string)
    = Some (e164 (chars "15551234567")) /\
  normalize_phone (Some (of_chars (e164 (chars "15551234567")))) (Some "IN"%string)
    = Some (e164 (chars "15551234567")).
Proof.
  assert (normalize_phone (Some " (555) 123-4567 "%string) (Some "us"%string)
    = Some (e164 (chars "15551234567"))) as H by (vm_compute; reflexivity).
  split; [exact H|].
  apply (normalize_phone_canonical _ _ (Some "IN"%string) _ H).
  right. eexists. vm_compute. reflexivity.
Defined.
