(* ===== verification/Models.v ===== *)
(** * Models: the rows the components share

    The columns of the database tables that more than one component reads, as
    records: service zones and rate cards ([servers/pricing/models.py]), the
    geography nodes of [servers/admin_access/models.py], and trips
    ([servers/ride/models.py]).  Ids and foreign keys are integers, instants are
    integers (microseconds), money columns are minor units, and a [DecimalField]
    is a [dec].  Columns no modelled code reads are left out. *)

From Stdlib Require Import QArith.
From S2P Require Import Prelude PyDecimal PyText Countries.
#[local] Open Scope Z_scope.

(** ** Geography *)

Inductive node_kind := KGlobal | KCountry | KState | KCity.

#[global] Instance node_kind_eq_dec : EqDecision node_kind.
Proof. solve_decision. Defined.

(** [GeoNode] with its parent already loaded.  The parent chain is finite: [clean]
    only lets a node sit under the next outer kind. *)
Inductive GeoNode :=
| mk_node (id : Z) (kind : node_kind) (code path : string) (parent : option GeoNode).

Definition node_id (n : GeoNode) : Z := match n with mk_node i _ _ _ _ => i end.
Definition node_kind_of (n : GeoNode) : node_kind := match n with mk_node _ k _ _ _ => k end.
Definition node_code (n : GeoNode) : string := match n with mk_node _ _ c _ _ => c end.
Definition node_path (n : GeoNode) : string := match n with mk_node _ _ _ p _ => p end.
Definition node_parent (n : GeoNode) : option GeoNode := match n with mk_node _ _ _ _ p => p end.

(** [GeoNode.country]: the country at or above the node, None at Global. *)
Fixpoint node_country (n : GeoNode) : option GeoNode :=
  if decide (node_kind_of n = KCountry) then Some n
  else match n with
       | mk_node _ _ _ _ (Some p) => node_country p
       | mk_node _ _ _ _ None => None
       end.

(** ** Pricing rows *)

(** [ServiceZone]; blank [CharField]s are [EmptyString]. *)
Record Zone := {
  zone_id : Z;
  zone_code : string;
  zone_country : string;
  zone_parent : option Z;
  zone_priority : Z;
  zone_currency : string;
  zone_distance_unit : string;
  zone_tax_mode : string;
  zone_per_trip_fee : dec;
  zone_fee_label : string;
  zone_geo_node : option GeoNode;
  zone_is_active : bool
}.

(** [RateCard]. *)
Record RateCard := {
  card_zone : Z;
  card_vehicle_type : Z;
  base_fare : dec;
  per_km_fare : dec;
  per_min_fare : dec;
  min_fare : dec;
  night_surge_multiplier : dec;
  night_surge_start_hour : Z;
  night_surge_end_hour : Z;
  surge_cap_multiplier : dec;
  gst_percent : dec;
  effective_from : Z;
  effective_to : option Z;
  card_version : Z;
  card_is_active : bool
}.

(** ** Trips *)

Inductive payment := Cash | OtherMethod (name : string).

#[global] Instance payment_eq_dec : EqDecision payment.
Proof. solve_decision. Defined.

(** [Trip]: the columns pricing, commission, settlement and dispatch read.  A null
    [payment_method] is [None]. *)
Record Trip := {
  trip_id : Z;
  trip_rider : Z;
  trip_driver : option Z;
  trip_zone : option Zone;
  trip_pickup : Q * Q;
  trip_vehicle_type : option Z;
  trip_vehicle_vt : option Z;
  trip_requested_at : Z;
  trip_currency : string;
  estimated_fare_minor : option Z;
  final_fare_minor : option Z;
  payment_method : option payment;
  end_rule : string;
  commission_percent_snapshot : option dec;
  commission_rule_id : option Z;
  commission_rule_version : option Z
}.

(** [trip.final_fare_minor if ... is not None else trip.estimated_fare_minor or 0] *)
Definition trip_gross_minor (t : Trip) : Z :=
  match final_fare_minor t with
  | Some f => f
  | None => default 0 (estimated_fare_minor t)
  end.

Definition is_cash (t : Trip) : bool := bool_decide (payment_method t = Some Cash).
