(* ===== verification/Money.v ===== *)
(** * Money: integer minor units, rounded once

    Models [base/money.py]: the currency table, the strict and lenient currency
    lookups, the one rounding point [to_minor], the exact reader [from_minor],
    the major-unit string of the API, the per-currency totals and the rule that
    refuses a change of scale.  The first part is the code; the second is the
    specification on rationals and the lemmas the other components use. *)

From Stdlib Require Import QArith Lqa.
From S2P Require Import Prelude PyDecimal PyText Countries Models.
#[local] Open Scope Z_scope.

(** ** Currencies *)

Record Currency := { cur_code : string; cur_exponent : Z }.

Definition CURRENCIES : gmap string Currency :=
  list_to_map [("INR"%string, {| cur_code := "INR"; cur_exponent := 2 |});
               ("USD"%string, {| cur_code := "USD"; cur_exponent := 2 |})].

Definition DEFAULT_CURRENCY : string := country_currency INDIA.

Inductive money_error :=
| UnsupportedCurrency
| MoneyTypeError
| ArithmeticError (e : dec_error).

#[global] Instance money_error_eq_dec : EqDecision money_error.
Proof. solve_decision. Defined.

Definition is_supported (currency : option string) : bool :=
  bool_decide (is_Some (CURRENCIES !! norm_code currency)).

(** [normalize_currency]; the log line is not modelled. *)
Definition normalize_currency (currency fallback : option string) : string :=
  let code := norm_code currency in
  if is_supported currency then code
  else if truthy fallback then default EmptyString fallback else DEFAULT_CURRENCY.

Definition exponent (currency : option string) : res money_error Z :=
  match CURRENCIES !! norm_code currency with
  | Some c => Ok (cur_exponent c)
  | None => Err UnsupportedCurrency
  end.

Definition lift_dec {A : Type} (m : res dec_error A) : res money_error A := map_err ArithmeticError m.

Definition quantum (currency : option string) : res money_error dec :=
  let* e := exponent currency in lift_dec (scaleb (of_Z 1) (- e)).

(** ** Python values that reach money *)

(** A float is known by its [str()], which is all the code reads of it. *)
Inductive pynum :=
| PyNone
| PyBool (b : bool)
| PyFloat (text : string)
| PyInt (z : Z)
| PyStr (s : string)
| PyDec (d : dec)
| PyDecNotFinite
| PyOther.

Definition as_decimal (amount : pynum) : res money_error dec :=
  match amount with
  | PyBool _ | PyFloat _ => Err MoneyTypeError
  | PyDec d => Ok d
  | PyDecNotFinite => Err MoneyTypeError
  | PyInt z => Ok (of_Z z)
  | PyStr s => res_opt MoneyTypeError (parse_decimal s)
  | PyNone | PyOther => Err MoneyTypeError
  end.

Definition parse_input (value : pynum) : res money_error dec :=
  as_decimal (match value with PyFloat s => PyStr s | v => v end).

(** ** The rounding point *)

Definition to_minor_dec (amount : dec) (currency : option string) : res money_error Z :=
  let* e := exponent currency in
  let* scaled := lift_dec (scaleb amount e) in
  lift_dec (quantize_int_half_up scaled).

Definition to_minor (amount : pynum) (currency : option string) : res money_error (option Z) :=
  match amount with
  | PyNone => Ok None
  | _ => let* d := as_decimal amount in
         let* m := to_minor_dec d currency in Ok (Some m)
  end.

Definition from_minor_Z (minor : Z) (currency : option string) : res money_error dec :=
  let* e := exponent currency in lift_dec (scaleb (of_Z minor) (- e)).

Definition from_minor (minor : pynum) (currency : option string) : res money_error (option dec) :=
  match minor with
  | PyNone => Ok None
  | PyInt z => let* d := from_minor_Z z currency in Ok (Some d)
  | _ => Err MoneyTypeError
  end.

Definition quantize_dec (amount : dec) (currency : option string) : res money_error dec :=
  let* m := to_minor_dec amount currency in from_minor_Z m currency.

Definition quantize (amount : pynum) (currency : option string) : res money_error (option dec) :=
  match amount with
  | PyNone => Ok None
  | _ => let* d := as_decimal amount in
         let* q := quantize_dec d currency in Ok (Some q)
  end.

(** [WHOLE_UNIT_FARE_CURRENCIES]: compared with [str(currency).upper()], not stripped. *)
Definition whole_unit_fare (currency : string) : bool := bool_decide (upper currency = "INR"%string).

Definition round_fare (amount : option dec) (currency : string) : res money_error (option dec) :=
  match amount with
  | None => Ok None
  | Some d =>
    if whole_unit_fare currency then
      let* n := lift_dec (quantize_int_half_up d) in
      let* q := quantize_dec (of_Z n) (Some currency) in Ok (Some q)
    else let* q := quantize_dec d (Some currency) in Ok (Some q)
  end.

Definition to_major_string (minor : pynum) (currency : option string) : res money_error (option string) :=
  let* v := from_minor minor currency in Ok (dec_str <$> v).

(** [to_minor(amount * percent / Decimal('100'), currency)]: the code writes it in the
    settlement, in the promo tax and in the quote; the divisor's exponent is as written there. *)
Definition percent_of (amount percent hundred : dec) : res money_error dec :=
  let* p := lift_dec (dmul amount percent) in lift_dec (ddiv p hundred).

Definition percent_minor (amount percent hundred : dec) (currency : option string) : res money_error Z :=
  let* v := percent_of amount percent hundred in to_minor_dec v currency.

Definition HUNDRED : dec := of_Z 100.

(** ** Aggregates *)

(** A row of a queryset, as an aggregate reads it: its currency column and the
    minor-unit column being summed, which may be null. *)
Definition money_row : Type := string * option Z.

(** [ORDER BY] on a text column. *)
Fixpoint insert_key (k : string) (l : list string) : list string :=
  match l with
  | [] => [k]
  | x :: r => if String.leb k x then k :: l else x :: insert_key k r
  end.

Definition sort_keys (l : list string) : list string := foldr insert_key [] l.

(** [queryset.values(currency).annotate(Sum).order_by(currency)]: one entry per stored
    currency text, with the sum of its non-null amounts. *)
Definition group_sums (rows : list money_row) : list (string * Z) :=
  let keys := sort_keys (remove_dups (fst <$> rows)) in
  (fun k => (k, zsum (fun r => if decide (r.1 = k) then default 0 r.2 else 0) rows)) <$> keys.

(** [totals[code] = totals.get(code, 0) + n] on an insertion-ordered dict. *)
Fixpoint dict_add (code : string) (n : Z) (d : list (string * Z)) : list (string * Z) :=
  match d with
  | [] => [(code, n)]
  | (c, m) :: r => if decide (c = code) then (c, m + n) :: r else (c, m) :: dict_add code n r
  end.

Definition totals_minor (rows : list money_row) : list (string * Z) :=
  foldl (fun totals '(k, n) => dict_add (normalize_currency (Some k) None) n totals)
    [] (group_sums rows).

Fixpoint from_minor_all (d : list (string * Z)) : res money_error (list (string * dec)) :=
  match d with
  | [] => Ok []
  | (c, m) :: r =>
    let* v := from_minor_Z m (Some c) in
    let* r' := from_minor_all r in Ok ((c, v) :: r')
  end.

Definition sum_by_currency (rows : list money_row) : res money_error (list (string * dec)) :=
  from_minor_all (totals_minor rows).

Definition sum_minor (rows : list money_row) : Z := zsum (fun r => default 0 r.2) rows.

Definition single_currency_or_none (codes : list (option string)) : option string :=
  match remove_dups (omap (fun c => if truthy c then c else None) codes) with
  | [c] => Some (normalize_currency (Some c) None)
  | _ => None
  end.

(** ** Where a record's currency comes from *)

Definition currency_for_zone (zone : option Zone) : string :=
  match zone with
  | None => DEFAULT_CURRENCY
  | Some z =>
    if truthy (Some (zone_currency z)) then normalize_currency (Some (zone_currency z)) None
    else normalize_currency (Some (country_currency (get_country (Some (zone_country z))))) None
  end.

Definition currency_for_trip (trip : option Trip) : string :=
  match trip with
  | None => DEFAULT_CURRENCY
  | Some t =>
    if truthy (Some (trip_currency t)) then normalize_currency (Some (trip_currency t)) None
    else currency_for_zone (trip_zone t)
  end.

(** ** Amount columns read and written as decimals *)

(** A row with money: its currency column, what [_derive_currency] finds, and its
    minor-unit columns by name. *)
Record Row := {
  row_currency : string;
  row_derived : option string;
  row_minor : gmap string (option Z)
}.

Definition currency_of (r : Row) : string * Row :=
  if truthy (Some (row_currency r)) then (row_currency r, r)
  else match row_derived r with
       | Some f =>
         if truthy (Some f) then
           let chosen := normalize_currency (Some f) None in
           (chosen, {| row_currency := chosen; row_derived := row_derived r; row_minor := row_minor r |})
         else (DEFAULT_CURRENCY, r)
       | None => (DEFAULT_CURRENCY, r)
       end.

(** [MinorUnitsAmount.fget] and [fset]. *)
Definition amount_get (field : string) (r : Row) : res money_error (option dec) * Row :=
  let '(cur, r') := currency_of r in
  (from_minor (match default None (row_minor r !! field) with None => PyNone | Some z => PyInt z end)
     (Some cur), r').

Definition amount_set (field : string) (value : pynum) (r : Row) : res money_error Row :=
  let '(cur, r') := currency_of r in
  let* m := to_minor value (Some cur) in
  Ok {| row_currency := row_currency r'; row_derived := row_derived r';
        row_minor := <[field := m]> (row_minor r') |}.

Definition held (r : Row) : bool :=
  existsb (fun '(_, v) => match v with None => false | Some z => negb (z =? 0) end)
    (map_to_list (row_minor r)).

(** [assert_currency_change_keeps_scale]: [Err] is the [ValueError] it raises. *)
Definition assert_currency_change_keeps_scale (r : Row) (before after : option string) : res unit unit :=
  if negb (truthy before) || negb (truthy after) || bool_decide (before = after) then Ok tt
  else match exponent before, exponent after with
       | Ok e1, Ok e2 => if e1 =? e2 then Ok tt else if held r then Err tt else Ok tt
       | _, _ => Ok tt
       end.

(** ** Specification: amounts as rationals *)

(** The value of [minor] units of a currency with [e] digits. *)
Definition major (e minor : Z) : Q := (inject_Z minor * p10 (- e))%Q.

(** What rounding an amount to [e] digits must give. *)
Definition minor_spec (e : Z) (amount : Q) : Z := rhu (amount * p10 e)%Q.

(** A 64-bit column, [BigIntegerField]. *)
Definition bigint (z : Z) : Prop := - 2 ^ 63 <= z < 2 ^ 63.

(** An amount with at most 28 digits and a moderate exponent. *)
Definition exact (d : dec) : Prop := Z.abs (coef d) < 10 ^ prec /\ -5000 <= dexp d <= 5000.

(** ** Lemmas: currencies *)

Lemma exponent_two (c : option string) (e : Z) : exponent c = Ok e -> e = 2.
Proof.
  unfold exponent, CURRENCIES. cbn [list_to_map foldr].
  destruct (_ !! norm_code c) as [cur|] eqn:E; [|done]. intros [= <-].
  apply lookup_insert_Some in E as [[_ <-]|[_ E]]; [done|].
  apply lookup_insert_Some in E as [[_ <-]|[_ E]]; [done|]. by rewrite lookup_empty in E.
Qed.

Lemma exponent_supported (c : option string) : is_supported c = true -> exponent c = Ok 2.
Proof.
  unfold is_supported. intros H%bool_decide_eq_true.
  destruct (exponent c) as [e|err] eqn:E; [by rewrite (exponent_two _ _ E)|].
  unfold exponent in E. destruct H as [cur H]. by rewrite H in E.
Qed.

Lemma normalize_supported (c : option string) :
  is_supported (Some (normalize_currency c None)) = true.
Proof.
  unfold normalize_currency. destruct (is_supported c) eqn:E; [|done].
  unfold is_supported in E. apply bool_decide_eq_true in E as [cur E].
  unfold CURRENCIES in E. cbn [list_to_map foldr] in E.
  apply lookup_insert_Some in E as [[<- _]|[_ E]]; [done|].
  apply lookup_insert_Some in E as [[<- _]|[_ E]]; [done|]. by rewrite lookup_empty in E.
Qed.

Lemma currency_for_zone_supported (z : option Zone) : is_supported (Some (currency_for_zone z)) = true.
Proof.
  unfold currency_for_zone. destruct z as [z|]; [|done].
  destruct (truthy _); apply normalize_supported.
Qed.

Lemma currency_for_trip_supported (t : option Trip) : is_supported (Some (currency_for_trip t)) = true.
Proof.
  unfold currency_for_trip. destruct t as [t|]; [|done].
  destruct (truthy _); [apply normalize_supported | apply currency_for_zone_supported].
Qed.

Lemma currency_for_trip_exponent (t : option Trip) : exponent (Some (currency_for_trip t)) = Ok 2.
Proof. apply exponent_supported, currency_for_trip_supported. Qed.

#[export] Hint Resolve exponent_supported normalize_supported currency_for_trip_supported
  currency_for_zone_supported currency_for_trip_exponent : sgo.

(** ** Lemmas: rounding *)

#[export] Instance minor_spec_proper (e : Z) : Proper (Qeq ==> eq) (minor_spec e).
Proof. intros a b H. unfold minor_spec. apply rhu_proper. by rewrite H. Qed.

Lemma to_minor_dec_spec (d : dec) (c : option string) (e : Z) :
  exact d -> exponent c = Ok e -> Z.abs (minor_spec e (dval d)) < 10 ^ prec ->
  to_minor_dec d c = Ok (minor_spec e (dval d)).
Proof.
  intros [Hd Hx] He Hb. pose proof (exponent_two _ _ He) as ->.
  unfold to_minor_dec. rewrite He. cbn [res_bind].
  destruct (scaleb_exact d 2) as [-> Hv].
  { split; cbn [coef dexp]; [done | unfold Etiny, Etop, Emin, Emax, prec in *; lia]. }
  cbn [lift_dec map_err res_bind]. rewrite quantize_int_half_up_spec.
  rewrite (rhu_proper _ _ Hv). fold (minor_spec 2 (dval d)).
  pose proof (ndigits_le _ prec ltac:(done) Hb). by rewrite (proj2 (Z.ltb_ge _ _)) by done.
Qed.

Lemma from_minor_Z_spec (m : Z) (c : option string) (e : Z) :
  Z.abs m < 10 ^ prec -> exponent c = Ok e ->
  from_minor_Z m c = Ok (Dec m (- e)) /\ (dval (Dec m (- e)) == major e m)%Q.
Proof.
  intros Hm He. pose proof (exponent_two _ _ He) as ->. split; [|reflexivity].
  unfold from_minor_Z. rewrite He. cbn [res_bind]. unfold scaleb, of_Z; cbn [coef dexp].
  rewrite fix_ctx_fits; [done|]. split; cbn [coef dexp]; [done|].
  unfold Etiny, Etop, Emin, Emax, prec. lia.
Qed.

Lemma minor_spec_major (e m : Z) : minor_spec e (major e m) = m.
Proof.
  unfold minor_spec, major. rewrite <- (rhu_Z m) at 2. apply rhu_proper.
  rewrite <- Qmult_assoc, <- p10_add. replace (- e + e) with 0 by lia.
  change (p10 0) with 1%Q. ring.
Qed.

Lemma to_minor_of_minor (m : Z) (c : option string) (e : Z) :
  Z.abs m < 10 ^ prec -> exponent c = Ok e -> to_minor_dec (Dec m (- e)) c = Ok m.
Proof.
  intros Hm He. pose proof (minor_spec_major e m) as Hs.
  rewrite <- Hs at 2. apply to_minor_dec_spec; [|done|].
  - pose proof (exponent_two _ _ He). split; cbn [coef dexp]; [done|lia].
  - change (dval (Dec m (- e))) with (major e m). by rewrite Hs.
Qed.

Lemma bigint_prec (m : Z) : bigint m -> Z.abs m < 10 ^ prec.
Proof. unfold bigint, prec. intros H. change (2 ^ 63) with 9223372036854775808 in H.
  change (10 ^ 28) with 10000000000000000000000000000. lia. Qed.

#[export] Hint Resolve bigint_prec : sgo.

Lemma quantize_dec_spec (d : dec) (c : option string) (e : Z) :
  exact d -> exponent c = Ok e -> Z.abs (minor_spec e (dval d)) < 10 ^ prec ->
  quantize_dec d c = Ok (Dec (minor_spec e (dval d)) (- e)).
Proof.
  intros Hd He Hb. unfold quantize_dec. rewrite (to_minor_dec_spec d c e) by done.
  cbn [res_bind]. by apply from_minor_Z_spec.
Qed.

(** ** Lemmas: a percentage of an amount *)

(** A stored percentage: at most three decimals and not negative. *)
Definition pct_ok (p : dec) : Prop := 0 <= coef p < 10 ^ 7 /\ -3 <= dexp p <= 0.

(** An amount of minor units that leaves the decimal context room for a percentage. *)
Definition amount_ok (m : Z) : Prop := 0 <= m < 10 ^ 19.

Lemma pct_val (p : dec) : pct_ok p -> (0 <= dval p <= 10000000)%Q.
Proof.
  intros [Hc He]. unfold dval. fold (p10 (dexp p)).
  assert (p10 (dexp p) <= 1)%Q as H1.
  { assert (dexp p = -3 \/ dexp p = -2 \/ dexp p = -1 \/ dexp p = 0) as [->|[->|[->| ->]]] by lia;
      vm_compute; discriminate. }
  pose proof (p10_pos (dexp p)) as H0.
  assert (0 <= inject_Z (coef p) <= 10000000)%Q as [Hl Hu].
  { change 0%Q with (inject_Z 0). change 10000000%Q with (inject_Z (10 ^ 7)).
    rewrite <- !Zle_Qle. lia. }
  split; nra.
Qed.

(** The share of [m] minor units, as a rational number of minor units. *)
Definition share (m : Z) (p : dec) : Q := (inject_Z m * dval p * (1 # 100))%Q.

Lemma share_nonneg (m : Z) (p : dec) : 0 <= m -> pct_ok p -> (0 <= share m p)%Q.
Proof.
  intros Hm Hp. destruct (pct_val p Hp) as [H _]. unfold share.
  assert (0 <= inject_Z m)%Q by (change 0%Q with (inject_Z 0); by rewrite <- Zle_Qle).
  nra.
Qed.

Lemma share_mono (m n : Z) (p : dec) : m <= n -> pct_ok p -> (share m p <= share n p)%Q.
Proof.
  intros Hm Hp. destruct (pct_val p Hp) as [H _]. unfold share. rewrite Zle_Qle in Hm. nra.
Qed.

Lemma share_le (m : Z) (p : dec) : 0 <= m -> pct_ok p -> (dval p <= 100)%Q -> (share m p <= inject_Z m)%Q.
Proof.
  intros Hm Hp H1. unfold share.
  assert (0 <= inject_Z m)%Q by (change 0%Q with (inject_Z 0); by rewrite <- Zle_Qle). nra.
Qed.

Lemma percent_of_spec (m : Z) (p : dec) (k : Z) :
  amount_ok m -> pct_ok p -> -2 <= k <= 2 ->
  exists d, percent_of (Dec m (-2)) p (Dec (10 ^ (2 + k)) (- k)) = Ok d /\
    (dval d == share m p * p10 (-2))%Q /\ exact d.
Proof.
  intros Hm Hp Hk. pose proof Hp as [Hc He]. unfold amount_ok in Hm.
  assert (Z.abs (m * coef p) < 10 ^ prec) as Hb.
  { unfold prec. change (10 ^ 28) with (10 ^ 19 * 10 ^ 9). change (10 ^ 9) with (10 ^ 7 * 100). nia. }
  unfold percent_of. destruct (dmul_exact (Dec m (-2)) p) as [-> Hv].
  { split; cbn [coef dexp]; [done|]. unfold Etiny, Etop, Emin, Emax, prec. lia. }
  cbn [lift_dec map_err res_bind coef dexp] in *.
  destruct (ddiv_100_exact (Dec (m * coef p) (-2 + dexp p)) k) as (d & -> & Hd & Hdc & Hde);
    [done|done|cbn [dexp]; unfold Etiny, Etop, Emin, Emax, prec; lia|].
  exists d. split; [done|]. cbn [coef dexp] in *. split; [|split; lia].
  rewrite Hd, Hv, dval_Dec. unfold share. ring.
Qed.

Lemma percent_minor_spec (m : Z) (p : dec) (k : Z) (c : option string) :
  amount_ok m -> pct_ok p -> -2 <= k <= 2 -> exponent c = Ok 2 ->
  percent_minor (Dec m (-2)) p (Dec (10 ^ (2 + k)) (- k)) c = Ok (rhu (share m p)).
Proof.
  intros Hm Hp Hk Hc. unfold percent_minor.
  destruct (percent_of_spec m p k Hm Hp Hk) as (d & -> & Hd & He). cbn [res_bind].
  assert (minor_spec 2 (dval d) = rhu (share m p)) as Hs.
  { unfold minor_spec. apply rhu_proper. rewrite Hd, <- Qmult_assoc, <- p10_add.
    change (p10 (-2 + 2)) with 1%Q. ring. }
  rewrite <- Hs. apply to_minor_dec_spec; [done|done|]. rewrite Hs.
  pose proof (rhu_nonneg _ (share_nonneg m p ltac:(unfold amount_ok in Hm; lia) Hp)).
  rewrite Z.abs_eq by done. apply Z.le_lt_trans with (rhu (inject_Z (m * 10 ^ 5))).
  - apply rhu_mono. unfold share. destruct (pct_val p Hp) as [H0 H1].
    rewrite inject_Z_mult. change (inject_Z (10 ^ 5)) with 100000%Q.
    assert (0 <= inject_Z m)%Q by (change 0%Q with (inject_Z 0); rewrite <- Zle_Qle; unfold amount_ok in Hm; lia).
    nra.
  - rewrite rhu_Z. unfold amount_ok, prec in *. lia.
Qed.

(** ** Lemmas: totals per currency *)

(** The amount a totals dict holds under a code. *)
Definition dict_get (code : string) (d : list (string * Z)) : Z :=
  zsum (fun p => if decide (p.1 = code) then p.2 else 0) d.

Lemma dict_add_get (c code : string) (n : Z) (d : list (string * Z)) :
  dict_get c (dict_add code n d) = dict_get c d + (if decide (code = c) then n else 0).
Proof.
  unfold dict_get. induction d as [|[k m] d IH]; simpl; [lia|].
  destruct (decide (k = code)) as [->|]; simpl; [|rewrite IH]; destruct (decide _); lia.
Qed.

Lemma dict_add_keys (code : string) (n : Z) (d : list (string * Z)) (k : string) :
  k ∈ (dict_add code n d).*1 -> k = code \/ k ∈ d.*1.
Proof.
  induction d as [|[c m] d IH]; simpl; [set_solver|].
  destruct (decide (c = code)); simpl; [set_solver|]. set_solver.
Qed.

Lemma dict_add_nodup (code : string) (n : Z) (d : list (string * Z)) :
  base.NoDup d.*1 -> base.NoDup (dict_add code n d).*1.
Proof.
  induction d as [|[c m] d IH]; simpl; [by constructor; [set_solver|constructor]|].
  intros [Hc Hd]%NoDup_cons. destruct (decide (c = code)) as [->|Hne]; simpl; constructor; auto.
  intros [->|]%dict_add_keys; done.
Qed.

Lemma insert_key_perm (k : string) (l : list string) : insert_key k l ≡ₚ k :: l.
Proof.
  induction l as [|x l IH]; simpl; [done|]. destruct (String.leb k x); [done|].
  rewrite IH. by constructor.
Qed.

Lemma sort_keys_perm (l : list string) : sort_keys l ≡ₚ l.
Proof. unfold sort_keys. induction l as [|k l IH]; simpl; [done|]. by rewrite insert_key_perm, IH. Qed.

Lemma totals_fold (groups d : list (string * Z)) (c : string) :
  base.NoDup d.*1 ->
  let t := foldl (fun totals '(k, n) => dict_add (normalize_currency (Some k) None) n totals) d groups in
  base.NoDup t.*1 /\
  dict_get c t = dict_get c d
    + zsum (fun g => if decide (normalize_currency (Some g.1) None = c) then g.2 else 0) groups.
Proof.
  revert d; induction groups as [|[k n] groups IH]; simpl; intros d Hd; [split; [done|lia]|].
  destruct (IH (dict_add (normalize_currency (Some k) None) n d)) as [H1 H2]; [by apply dict_add_nodup|].
  split; [done|]. rewrite H2, dict_add_get. lia.
Qed.

Lemma group_sums_total (rows : list money_row) (P : string -> bool) :
  zsum (fun g => if P g.1 then g.2 else 0) (group_sums rows) =
  zsum (fun r => if P r.1 then default 0 r.2 else 0) rows.
Proof.
  unfold group_sums. rewrite zsum_fmap, (zsum_perm _ _ _ (sort_keys_perm _)). simpl.
  rewrite (zsum_ext _ (fun k => zsum (fun r => if decide (r.1 = k) then if P r.1 then default 0 r.2 else 0 else 0) rows)).
  2:{ intros k _. destruct (P k) eqn:E.
      - apply zsum_ext. intros r _. destruct (decide (r.1 = k)) as [->|]; [by rewrite E|done].
      - rewrite (zsum_ext _ (fun _ => 0)); [by rewrite zsum_zero|].
        intros r _. destruct (decide (r.1 = k)) as [->|]; [by rewrite E|done]. }
  rewrite zsum_swap. apply zsum_ext. intros r Hr. apply zsum_indicator; [apply NoDup_remove_dups|].
  apply elem_of_remove_dups, list_elem_of_fmap. by exists r.
Qed.

Lemma totals_minor_spec (rows : list money_row) (c : string) :
  base.NoDup (totals_minor rows).*1 /\
  dict_get c (totals_minor rows) =
    zsum (fun r => if decide (normalize_currency (Some r.1) None = c) then default 0 r.2 else 0) rows.
Proof.
  unfold totals_minor. destruct (totals_fold (group_sums rows) [] c) as [H1 H2]; [constructor|].
  split; [done|]. rewrite H2. unfold dict_get at 1; cbn [zsum foldr].
  pose proof (group_sums_total rows (fun k => bool_decide (normalize_currency (Some k) None = c))) as G.
  etransitivity; [|etransitivity; [exact G|]].
  - rewrite Z.add_0_l. apply zsum_ext. intros g _. by case_bool_decide; destruct (decide _).
  - apply zsum_ext. intros r _. by case_bool_decide; destruct (decide _).
Qed.

Lemma from_minor_all_ok (d : list (string * Z)) :
  (forall c m, (c, m) ∈ d -> is_supported (Some c) = true /\ Z.abs m < 10 ^ prec) ->
  from_minor_all d = Ok ((fun p => (p.1, Dec p.2 (-2))) <$> d).
Proof.
  induction d as [|[c m] d IH]; intros H; [done|]. cbn [from_minor_all].
  destruct (H c m) as [Hc Hm]; [set_solver|].
  destruct (from_minor_Z_spec m (Some c) 2) as [-> _]; [done|by apply exponent_supported|].
  cbn [res_bind]. rewrite IH; [done|]. intros c' m' Hin. apply H. set_solver.
Qed.

Lemma dict_get_lookup (d : list (string * Z)) (c : string) (m : Z) :
  base.NoDup d.*1 -> (c, m) ∈ d -> dict_get c d = m.
Proof.
  unfold dict_get. induction d as [|[k n] d IH]; simpl; intros Hnd Hin; [set_solver|].
  apply NoDup_cons in Hnd as [Hk Hnd]. destruct (decide (k = c)) as [->|Hne].
  - assert (m = n) as ->.
    { apply elem_of_cons in Hin as [[= ->]|Hin]; [done|]. exfalso. apply Hk.
      apply list_elem_of_fmap. by exists (c, m). }
    rewrite (zsum_ext _ (fun _ => 0)); [rewrite zsum_zero; lia|].
    intros [k' n'] Hin'. simpl. destruct (decide (k' = c)) as [->|]; [|done]. exfalso. apply Hk.
    apply list_elem_of_fmap. by exists (c, n').
  - rewrite IH; [lia|done|]. set_solver.
Qed.

Lemma totals_supported (rows : list money_row) (c : string) (m : Z) :
  (c, m) ∈ totals_minor rows -> is_supported (Some c) = true.
Proof.
  unfold totals_minor. generalize (group_sums rows). intros groups Hin.
  assert (c ∈ (foldl (fun totals '(k, n) => dict_add (normalize_currency (Some k) None) n totals) [] groups).*1) as Hk
    by (apply list_elem_of_fmap; by exists (c, m)).
  clear Hin. assert (forall d, (forall k, k ∈ d.*1 -> is_supported (Some k) = true) -> forall k,
    k ∈ (foldl (fun totals '(k, n) => dict_add (normalize_currency (Some k) None) n totals) d groups).*1 ->
    is_supported (Some k) = true) as Hgen; [|eapply Hgen; [|exact Hk]; intros k; set_solver].
  clear. induction groups as [|[k n] groups IH]; simpl; intros d Hd; [done|].
  apply IH. intros k' [->|]%dict_add_keys; [apply normalize_supported | by apply Hd].
Qed.

Lemma dict_add_has (code k : string) (n : Z) (d : list (string * Z)) :
  k = code \/ k ∈ d.*1 -> k ∈ (dict_add code n d).*1.
Proof.
  induction d as [|[c m] d IH]; cbn [dict_add].
  - intros [->|H]; [by left | by apply not_elem_of_nil in H].
  - destruct (decide (c = code)) as [->|Hne]; rewrite !fmap_cons; cbn [fst].
    + rewrite elem_of_cons. intros [->|?]; auto.
    + rewrite !elem_of_cons. intros [->|[->|?]]; auto.
Qed.

Lemma totals_keys (rows : list money_row) (r : money_row) :
  r ∈ rows -> normalize_currency (Some r.1) None ∈ (totals_minor rows).*1.
Proof.
  intros Hr. unfold totals_minor.
  assert (exists n, (r.1, n) ∈ group_sums rows) as [n Hn].
  { unfold group_sums. eexists. apply list_elem_of_fmap. exists r.1. split; [reflexivity|].
    rewrite sort_keys_perm. apply elem_of_remove_dups, list_elem_of_fmap. by exists r. }
  revert Hn. generalize (group_sums rows), (@nil (string * Z)). intros groups.
  induction groups as [|[k m] groups IH]; simpl; intros d Hin; [by apply not_elem_of_nil in Hin|].
  apply elem_of_cons in Hin as [[= -> ->]|Hin]; [|by apply IH].
  clear IH. assert (normalize_currency (Some k) None ∈ (dict_add (normalize_currency (Some k) None) m d).*1) as H0
    by (apply dict_add_has; by left).
  revert H0. generalize (dict_add (normalize_currency (Some k) None) m d).
  induction groups as [|[k' m'] groups IH]; simpl; intros d' Hd'; [done|].
  apply IH, dict_add_has. by right.
Qed.

(** The rows of a queryset that are in currency [c]. *)
Definition in_currency (c : string) (rows : list money_row) : list money_row :=
  List.filter (fun r => bool_decide (normalize_currency (Some r.1) None = c)) rows.

Lemma sum_minor_in_currency (c : string) (rows : list money_row) :
  sum_minor (in_currency c rows) =
  zsum (fun r => if decide (normalize_currency (Some r.1) None = c) then default 0 r.2 else 0) rows.
Proof.
  unfold sum_minor, in_currency. induction rows as [|r rows IH]; simpl; [done|].
  case_bool_decide as E; simpl; rewrite IH; by destruct (decide _).
Qed.

Lemma rhu_half_up (q : Q) :
  (0 <= q -> inject_Z (rhu q) - (1 # 2) <= q < inject_Z (rhu q) + (1 # 2))%Q.
Proof.
  destruct q as [n d]. unfold Qle, Qlt, Qplus, Qminus, rhu, round_half_up, inject_Z; simpl.
  intros Hn. assert (0 <= n) as H0 by lia.
  pose proof (Z.div_mod (2 * n + Zpos d) (2 * Zpos d) ltac:(lia)) as D.
  pose proof (Z.mod_pos_bound (2 * n + Zpos d) (2 * Zpos d) ltac:(lia)) as M.
  rewrite (Z.abs_eq n) by lia.
  change (match n with 0 => 0 | Z.pos y' => Z.pos y'~0 | Z.neg y' => Z.neg y'~0 end) with (2 * n).
  change (Z.pos d~0) with (2 * Z.pos d).
  assert (Z.sgn n * ((2 * n + Z.pos d) / (2 * Z.pos d)) = (2 * n + Z.pos d) / (2 * Z.pos d)) as ->.
  { destruct (decide (n = 0)) as [->|]; [|rewrite Z.sgn_pos; lia].
    rewrite Z.div_small; lia. }
  set (q := (2 * n + Z.pos d) / (2 * Z.pos d)) in *. nia.
Qed.

(** ** Properties *)

(** The one rounding point: for every amount of at most 28 significant digits
    and every supported currency, [to_minor] gives the amount in minor units
    rounded half up, once: the nearest integer, a tie going away from zero. *)
Theorem to_minor_rounds_once (d : dec) (c : option string) :
  exact d -> is_supported c = true -> Z.abs (minor_spec 2 (dval d)) < 10 ^ prec ->
  exists m, to_minor (PyDec d) c = Ok (Some m) /\ m = rhu (dval d * inject_Z 100)%Q /\
    (0 <= dval d -> inject_Z m - (1 # 2) <= dval d * inject_Z 100 < inject_Z m + (1 # 2))%Q /\
    (dval d < 0 -> inject_Z m - (1 # 2) < dval d * inject_Z 100 <= inject_Z m + (1 # 2))%Q.
Proof.
  intros Hd Hc Hb. unfold to_minor, as_decimal. cbn [res_bind].
  rewrite (to_minor_dec_spec d c 2) by auto with sgo. cbn [res_bind].
  exists (minor_spec 2 (dval d)). split; [done|]. split; [done|].
  unfold minor_spec. change (p10 2) with (inject_Z 100). set (q := (dval d * inject_Z 100)%Q).
  split; intros Hs.
  - apply rhu_half_up. unfold q. change (inject_Z 100) with (100 # 1)%Q. lra.
  - destruct (rhu_half_up (- q)) as [H1 H2].
    { unfold q. change (inject_Z 100) with (100 # 1)%Q. lra. }
    rewrite rhu_opp, inject_Z_opp in H1, H2. split; lra.
Qed.

Lemma to_minor_rounds_once_witness :
  to_minor (PyDec (Dec 135675 (-3))) (Some "inr"%string) = Ok (Some 13568) /\
  exists m, to_minor (PyDec (Dec (-135675) (-3))) (Some "INR"%string) = Ok (Some m) /\ m = -13568.
Proof.
  split; [vm_compute; reflexivity|].
  destruct (to_minor_rounds_once (Dec (-135675) (-3)) (Some "INR"%string)) as (m & H & E & _).
  - split; [vm_compute; reflexivity | cbn [dexp]; lia].
  - vm_compute; reflexivity.
  - vm_compute; reflexivity.
  - exists m. split; [exact H|]. rewrite E. vm_compute. reflexivity.
Defined.

(** The limit of C1: past 28 significant digits the amount is rounded twice,
    first half-even to the 28 digits of the decimal context by [scaleb] and then half up.
    An amount strictly below half a paisa is stored as one paisa. *)
Theorem to_minor_rounds_twice_past_28_digits :
  exists s d, parse_decimal s = Some d /\ (dval d < 5 # 1000)%Q /\ minor_spec 2 (dval d) = 0 /\
    to_minor (PyStr s) (Some "INR"%string) = Ok (Some 1).
Proof.
  exists "0.004999999999999999999999999999999"%string,
    (Dec 4999999999999999999999999999999 (-33)).
  repeat split; vm_compute; reflexivity.
Qed.

(** Round trip: every 64-bit amount of minor units in a supported currency reads
    as a decimal that stores back as the same integer, and so does its API string. *)
Theorem minor_round_trip (m : Z) (c : option string) :
  bigint m -> is_supported c = true ->
  exists d s, from_minor (PyInt m) c = Ok (Some d) /\ (dval d == inject_Z m / inject_Z 100)%Q /\
    to_minor (PyDec d) c = Ok (Some m) /\
    to_major_string (PyInt m) c = Ok (Some s) /\ to_minor (PyStr s) c = Ok (Some m).
Proof.
  intros Hm%bigint_prec Hc%exponent_supported. exists (Dec m (-2)), (dec_str (Dec m (-2))).
  destruct (from_minor_Z_spec m c 2 Hm Hc) as [Hf Hv]. pose proof (to_minor_of_minor m c 2 Hm Hc) as Ht.
  change (Z.opp 2) with (-2) in *.
  unfold to_major_string, from_minor, to_minor, as_decimal. rewrite Hf. cbn [res_bind].
  rewrite Ht. split; [done|]. split; [exact Hv|].
  split; [done|]. split; [done|].
  rewrite parse_dec_str by (cbn [coef dexp]; first [done | lia]). cbn [res_opt res_bind].
  by rewrite Ht.
Qed.

Lemma minor_round_trip_witness :
  to_major_string (PyInt 13568) (Some "usd"%string) = Ok (Some "135.68"%string) /\
  exists d s, from_minor (PyInt (-5)) (Some "INR"%string) = Ok (Some d) /\
    to_major_string (PyInt (-5)) (Some "INR"%string) = Ok (Some s) /\
    to_minor (PyStr s) (Some "INR"%string) = Ok (Some (-5)).
Proof.
  split; [vm_compute; reflexivity|].
  destruct (minor_round_trip (-5) (Some "INR"%string)) as (d & s & H1 & _ & _ & H2 & H3).
  - unfold bigint; lia.
  - vm_compute; reflexivity.
  - exists d, s. auto.
Defined.

(** Totals never mix currencies: [sum_by_currency] lists each currency once, the
    amount under a code is exactly the sum of the rows whose currency normalises to
    that code, and every row is counted under a listed code. *)
Theorem sum_by_currency_correct (rows : list money_row) :
  (forall c, Z.abs (sum_minor (in_currency c rows)) < 10 ^ prec) ->
  exists totals, sum_by_currency rows = Ok totals /\ base.NoDup totals.*1 /\
    (forall c d, (c, d) ∈ totals ->
       is_supported (Some c) = true /\ (dval d == major 2 (sum_minor (in_currency c rows)))%Q) /\
    (forall r, r ∈ rows -> normalize_currency (Some r.1) None ∈ totals.*1).
Proof.
  intros Hb. unfold sum_by_currency.
  destruct (totals_minor_spec rows EmptyString) as [Hnd _].
  assert (forall c m, (c, m) ∈ totals_minor rows -> m = sum_minor (in_currency c rows)) as Hget.
  { intros c m Hin. rewrite sum_minor_in_currency. destruct (totals_minor_spec rows c) as [_ <-].
    symmetry. by apply dict_get_lookup. }
  rewrite from_minor_all_ok.
  2:{ intros c m Hin. split; [by eapply totals_supported|]. rewrite (Hget c m Hin). apply Hb. }
  eexists; split; [reflexivity|]. rewrite <- list_fmap_compose. split; [exact Hnd|].
  split; [|intros r; apply totals_keys].
  intros c d ([c' m] & [= -> ->] & Hin)%list_elem_of_fmap. cbn [fst snd].
  split; [by eapply totals_supported|]. by rewrite (Hget c' m Hin).
Qed.

Lemma sum_by_currency_correct_witness :
  let rows : list money_row := [("INR"%string, Some 4520000); ("USD"%string, Some 131050);
                                ("inr"%string, Some 68); ("INR"%string, None)] in
  sum_by_currency rows = Ok [("INR"%string, Dec 4520068 (-2)); ("USD"%string, Dec 131050 (-2))] /\
  exists totals, sum_by_currency rows = Ok totals /\ base.NoDup totals.*1.
Proof.
  intros rows. split; [vm_compute; reflexivity|].
  destruct (sum_by_currency_correct rows) as (t & H1 & H2 & _).
  - intros c. rewrite sum_minor_in_currency. unfold rows; cbn [zsum foldr fst snd].
    repeat destruct (decide _); vm_compute; reflexivity.
  - exists t. auto.
Defined.
