(* ===== verification/Access.v ===== *)
(** * Access: who may do what, where

    The geography tree, roles and assignments of [servers/admin_access/models.py]
    (saving and deleting a node, the paths that make containment a prefix test),
    [access.py] (permissions at a node, scope paths, the list filter), [bridge.py]
    (the migration rule [granted]), [base/permissions.py] (operators and their
    legacy capabilities) and the Super Admin floor of [services.py].

    A table is a map from primary key to row; the queries are folds over it.  The
    audit rows that the managers write beside every change are not modelled here. *)

From stdpp Require Import sorting.
From Stdlib Require Import Ascii.
From S2P Require Import Prelude PyText Models.
#[local] Open Scope Z_scope.
#[local] Open Scope string_scope.

(** ** The geography table *)

(** [ALLOWED_PARENT]. *)
Definition ALLOWED_PARENT (k : node_kind) : option node_kind :=
  match k with
  | KGlobal => None
  | KCountry => Some KGlobal
  | KState => Some KCountry
  | KCity => Some KState
  end.

Inductive node_status := DRAFT | ACTIVE | PAUSED.

#[global] Instance node_status_eq_dec : EqDecision node_status.
Proof. solve_decision. Defined.

(** A row of [GeoNode]: the parent is a foreign key into the same table. *)
Record GeoRow := {
  g_kind : node_kind;
  g_code : string;
  g_name : string;
  g_parent : option Z;
  g_path : string;
  g_status : node_status
}.

Notation GeoTable := (gmap Z GeoRow).

Definition with_path (p : string) (n : GeoRow) : GeoRow :=
  {| g_kind := g_kind n; g_code := g_code n; g_name := g_name n; g_parent := g_parent n;
     g_path := p; g_status := g_status n |}.

Inductive save_error := ValidationError | ParentMissing | ProtectedError | OutOfFuel.

Definition parent_row (t : GeoTable) (n : GeoRow) : res save_error (option GeoRow) :=
  match g_parent n with
  | None => Ok None
  | Some p => match t !! p with Some m => Ok (Some m) | None => Err ParentMissing end
  end.

(** The field validators of [full_clean]: neither text column may be blank, and both
    fit their column. *)
Definition clean_fields (n : GeoRow) : bool :=
  let fits (s : string) (w : nat) := (1 <=? String.length s)%nat && (String.length s <=? w)%nat in
  fits (g_code n) 32%nat && fits (g_name n) 120%nat.

(** [validate_unique] on [code], leaving the row itself out. *)
Definition code_is_free (id : Z) (code : string) (t : GeoTable) : bool :=
  bool_decide (map_Forall (fun j m => j = id \/ g_code m <> code) t).

(** [clean]: the node sits under the kind [ALLOWED_PARENT] asks for. *)
Definition clean (n : GeoRow) (up : option GeoRow) : bool :=
  bool_decide (ALLOWED_PARENT (g_kind n) = g_kind <$> up).

Definition full_clean (id : Z) (n : GeoRow) (t : GeoTable) : res save_error unit :=
  let* up := parent_row t n in
  require (clean_fields n && code_is_free id (g_code n) t && clean n up) ValidationError.

Definition build_path (n : GeoRow) (up : option GeoRow) : string :=
  (match up with Some m => g_path m | None => EmptyString end) +:+ g_code n +:+ "/".

(** [self.children.all()], in the model's ordering (by path). *)
Definition path_le (a b : Z * GeoRow) : Prop := String.leb (g_path a.2) (g_path b.2) = true.

#[global] Instance path_le_dec : RelDecision path_le.
Proof. intros a b. unfold path_le. apply _. Defined.

Definition children (id : Z) (t : GeoTable) : list (Z * GeoRow) :=
  merge_sort path_le (map_to_list (filter (fun p => g_parent p.2 = Some id) t)).

(** [GeoNode.save]: validate, rebuild the path, write, then save every child so that
    the whole subtree follows.  The recursion goes down the tree: [fuel] bounds its
    depth, and [save_node_fuel] shows that [tree_depth] always suffices.  An error
    rolls the whole save back. *)
Fixpoint save_node (fuel : nat) (id : Z) (n : GeoRow) (t : GeoTable) : res save_error GeoTable :=
  match fuel with
  | O => Err OutOfFuel
  | S f =>
    let* _ := full_clean id n t in
    let* up := parent_row t n in
    let t1 := <[id := with_path (build_path n up) n]> t in
    foldl (fun acc c => let* t' := acc in save_node f c.1 c.2 t') (Ok t1) (children id t1)
  end.

Definition tree_depth : nat := 5%nat.

Definition save (id : Z) (n : GeoRow) (t : GeoTable) : res save_error GeoTable :=
  save_node tree_depth id n t.

(** Deleting a node another row points to is refused ([on_delete=PROTECT]);
    [held] lists the nodes the rest of the database points to. *)
Definition delete_node (held : list Z) (id : Z) (t : GeoTable) : res save_error GeoTable :=
  if bool_decide (id ∈ held) || negb (bool_decide (children id t = []))
  then Err ProtectedError else Ok (delete id t).

(** [covers]: a prefix test on the paths. *)
Definition covers (n : GeoRow) (other : option GeoRow) : bool :=
  match other with Some o => String.prefix (g_path n) (g_path o) | None => false end.

(** The tables the model's own operations produce. *)
Inductive tree_reached : GeoTable -> Prop :=
| reached_empty : tree_reached ∅
| reached_save t t' id n : tree_reached t -> save id n t = Ok t' -> tree_reached t'
| reached_delete t t' held id : tree_reached t -> delete_node held id t = Ok t' -> tree_reached t'.

(** [under t a b]: the node [b] is [a] or sits somewhere below it. *)
Inductive under (t : GeoTable) (a : Z) : Z -> Prop :=
| under_refl : under t a a
| under_step b p nb : t !! b = Some nb -> g_parent nb = Some p -> under t a p -> under t a b.

(** ** The tree invariant *)

Definition rank (k : node_kind) : nat :=
  match k with KGlobal => 0 | KCountry => 1 | KState => 2 | KCity => 3 end.

Lemma allowed_parent_rank k k' : ALLOWED_PARENT k = Some k' -> rank k = S (rank k').
Proof. by destruct k; intros [= <-]. Qed.

(** Row [j] would pass its own save unchanged. *)
Definition settled (t : GeoTable) (j : Z) : Prop :=
  forall n, t !! j = Some n ->
    full_clean j n t = Ok tt /\
    exists up, parent_row t n = Ok up /\ g_path n = build_path n up.

Definition tree_ok (t : GeoTable) : Prop := forall j, settled t j.

(** Two tables that agree but for paths. *)
Definition same_but_path (t t' : GeoTable) : Prop :=
  forall j, with_path EmptyString <$> t !! j = with_path EmptyString <$> t' !! j.

Lemma full_clean_ok id n t :
  full_clean id n t = Ok tt <->
  exists up, parent_row t n = Ok up /\
    clean_fields n = true /\ code_is_free id (g_code n) t = true /\ clean n up = true.
Proof.
  unfold full_clean. rewrite res_bind_ok. split.
  - intros (up & Hup & H). apply require_ok in H. bool_cases. eauto.
  - intros (up & Hup & H1 & H2 & H3). exists up. split; [done|]. apply require_ok.
    by rewrite H1, H2, H3.
Qed.

Lemma code_is_free_spec id c t :
  code_is_free id c t = true <-> forall j m, t !! j = Some m -> j = id \/ g_code m <> c.
Proof. unfold code_is_free. by rewrite bool_decide_eq_true. Qed.

#[global] Instance same_but_path_equiv : Equivalence same_but_path.
Proof.
  split; [by intros t j | by intros t t' H j | intros a b c H1 H2 j; by rewrite H1].
Qed.

Lemma same_lookup t t' j m :
  same_but_path t t' -> t !! j = Some m ->
  exists m', t' !! j = Some m' /\ with_path EmptyString m' = with_path EmptyString m.
Proof.
  intros H Hm. specialize (H j). rewrite Hm in H. simpl in H.
  destruct (t' !! j) as [m'|]; [|done]. exists m'. split; [done|].
  change (Some (with_path EmptyString m) = Some (with_path EmptyString m')) in H. congruence.
Qed.

Lemma same_insert t id n p : same_but_path (<[id := with_path p n]> t) (<[id := n]> t).
Proof.
  intros j. destruct (decide (j = id)) as [->|]; [by rewrite !lookup_insert_eq|].
  by rewrite !lookup_insert_ne.
Qed.

Lemma same_reinsert t id n :
  with_path EmptyString <$> t !! id = Some (with_path EmptyString n) ->
  same_but_path (<[id := n]> t) t.
Proof.
  intros H j. destruct (decide (j = id)) as [->|]; [by rewrite lookup_insert_eq, H|].
  by rewrite lookup_insert_ne.
Qed.

Lemma elem_of_children id t c :
  c ∈ children id t <-> t !! c.1 = Some c.2 /\ g_parent c.2 = Some id.
Proof.
  unfold children. rewrite merge_sort_Permutation. destruct c as [j m]; simpl.
  rewrite elem_of_map_to_list, map_lookup_filter_Some. done.
Qed.

(** A row written with its rebuilt path is settled, unless it became its own parent. *)
Lemma settled_written t id n up :
  full_clean id n t = Ok tt -> parent_row t n = Ok up -> g_parent n <> Some id ->
  settled (<[id := with_path (build_path n up) n]> t) id.
Proof.
  intros Hfc Hup Hne m Hm. rewrite lookup_insert_eq in Hm. simplify_eq.
  assert (Hrow : parent_row (<[id:=with_path (build_path n up) n]> t)
                   (with_path (build_path n up) n) = Ok up).
  { revert Hup. unfold parent_row. simpl. destruct (g_parent n) as [p|]; [|done].
    rewrite lookup_insert_ne by congruence. done. }
  split; [|by exists up]. apply full_clean_ok in Hfc as (up' & Hup' & H1 & H2 & H3).
  assert (up' = up) as -> by congruence. apply full_clean_ok. exists up. split; [done|].
  split; [done|]. split; [|done]. apply code_is_free_spec. intros j m Hj.
  destruct (decide (j = id)); [by left|]. simplify_map_eq.
  by apply (proj1 (code_is_free_spec _ _ _) H2).
Qed.

(** Writing a row leaves the rows that are not below it settled. *)
Lemma settled_other t id n p j :
  full_clean id n t = Ok tt -> j <> id -> settled t j ->
  (forall m, t !! j = Some m -> g_parent m <> Some id) ->
  settled (<[id := with_path p n]> t) j.
Proof.
  intros Hfc Hne Hj Hpar m Hm. rewrite lookup_insert_ne in Hm by done.
  destruct (Hj m Hm) as (Hfm & up & Hup & Hpath). specialize (Hpar m Hm).
  assert (Hrow : parent_row (<[id:=with_path p n]> t) m = Ok up).
  { revert Hup. unfold parent_row. destruct (g_parent m) as [q|]; [|done].
    rewrite lookup_insert_ne by congruence. done. }
  split; [|by exists up]. apply full_clean_ok in Hfc as (_ & _ & _ & Hfree & _).
  apply full_clean_ok in Hfm as (up' & Hup' & H1 & H2 & H3).
  assert (up' = up) as -> by congruence. apply full_clean_ok. exists up. split; [done|].
  split; [done|]. split; [|done]. rewrite code_is_free_spec in *. intros k m' Hk.
  destruct (decide (k = id)) as [->|]; simplify_map_eq.
  - right. simpl. destruct (Hfree j m Hm); congruence.
  - by apply H2.
Qed.

Definition save_all (f : nat) (acc : res save_error GeoTable) (l : list (Z * GeoRow)) :=
  foldl (fun acc c => let* t' := acc in save_node f c.1 c.2 t') acc l.

Lemma save_all_err f e l : save_all f (Err e) l = Err e.
Proof. induction l as [|c l IH]; [done|]. exact IH. Qed.

Lemma save_node_ok f id n t t' :
  save_node (S f) id n t = Ok t' <->
  exists up, full_clean id n t = Ok tt /\ parent_row t n = Ok up /\
    let t1 := <[id := with_path (build_path n up) n]> t in
    save_all f (Ok t1) (children id t1) = Ok t'.
Proof.
  cbn [save_node]. rewrite res_bind_ok. split.
  - intros ([] & Hfc & H). apply res_bind_ok in H as (up & Hup & H). exists up. done.
  - intros (up & Hfc & Hup & H). exists tt. split; [done|]. apply res_bind_ok. exists up. done.
Qed.

Definition spec_at (f : nat) : Prop := forall id n t t',
  save_node f id n t = Ok t' ->
  same_but_path (<[id := n]> t) t' /\ settled t' id /\
  (forall j, settled t j -> settled t' j).

Lemma save_all_spec f (l : list (Z * GeoRow)) tA tB :
  spec_at f -> save_all f (Ok tA) l = Ok tB ->
  (forall c, c ∈ l -> with_path EmptyString <$> tA !! c.1 = Some (with_path EmptyString c.2)) ->
  same_but_path tA tB /\ (forall j, settled tA j -> settled tB j) /\
  (forall c, c ∈ l -> settled tB c.1).
Proof.
  intros IHf. revert tA. induction l as [|[c nc] l IH]; intros tA HB Hkids.
  - injection HB as <-. split; [done|]. split; [done|]. intros c Hc. set_solver.
  - change (save_all f (save_node f c nc tA) l = Ok tB) in HB.
    destruct (save_node f c nc tA) as [tC|e] eqn:HC; [|by rewrite save_all_err in HB].
    destruct (IHf _ _ _ _ HC) as (Hs & Hc & Hk).
    assert (Hsame : same_but_path tA tC).
    { rewrite <- Hs. symmetry. apply same_reinsert. apply (Hkids (c, nc)). set_solver. }
    destruct (IH tC HB) as (Hs' & Hk' & Hl').
    { intros d Hd. rewrite <- (Hkids d) by set_solver. symmetry. apply Hsame. }
    split; [by rewrite Hsame|]. split; [auto|]. intros d [->|Hd]%elem_of_cons; auto.
Qed.

Lemma not_own_parent f id n up t t' :
  let t1 := <[id := with_path (build_path n up) n]> t in
  spec_at f -> save_all f (Ok t1) (children id t1) = Ok t' -> g_parent n <> Some id.
Proof.
  intros t1 IHf H Hp.
  assert (Hin : (id, with_path (build_path n up) n) ∈ children id t1).
  { apply elem_of_children. split; [apply lookup_insert_eq | done]. }
  assert (Hkids : forall c, c ∈ children id t1 ->
            with_path EmptyString <$> t1 !! c.1 = Some (with_path EmptyString c.2)).
  { intros c Hc. apply elem_of_children in Hc as [-> _]. done. }
  destruct (save_all_spec f _ _ _ IHf H Hkids) as (Hsame & _ & Hset).
  assert (Hid : with_path EmptyString <$> t' !! id = Some (with_path EmptyString n)).
  { rewrite <- (Hsame id). unfold t1. rewrite lookup_insert_eq. done. }
  destruct (t' !! id) as [m|] eqn:Hm; [|done]. injection Hid as Hk _ _ Hpar _.
  destruct (Hset _ Hin m Hm) as (Hfc & _). apply full_clean_ok in Hfc as (u & Hu & _ & _ & Hc).
  unfold parent_row in Hu. rewrite Hpar, Hp, Hm in Hu. injection Hu as <-.
  unfold clean in Hc. rewrite bool_decide_eq_true in Hc. simpl in Hc.
  apply allowed_parent_rank in Hc. lia.
Qed.

Lemma save_node_spec f : spec_at f.
Proof.
  induction f as [|f IH]; intros id n t t' H; [discriminate|].
  apply save_node_ok in H as (up & Hfc & Hup & H). cbn zeta in H.
  pose proof (not_own_parent f id n up t t' IH H) as Hne.
  set (t1 := <[id := with_path (build_path n up) n]> t) in *.
  destruct (save_all_spec f _ _ _ IH H) as (Hsame & Hkeep & Hset).
  { intros c Hc. apply elem_of_children in Hc as [-> _]. done. }
  split; [by rewrite <- Hsame; symmetry; apply same_insert|].
  assert (Hid : settled t' id) by (apply Hkeep, settled_written; done).
  split; [done|]. intros j Hj. destruct (decide (j = id)) as [->|Hj']; [done|].
  destruct (t !! j) as [m|] eqn:Hm.
  - destruct (decide (g_parent m = Some id)) as [Hp|Hp].
    + apply (Hset (j, m)). apply elem_of_children. simpl. unfold t1.
      by rewrite lookup_insert_ne.
    + apply Hkeep, settled_other; [done..|]. intros ? ?. congruence.
  - intros m Hm'. destruct (same_lookup t' t1 j m) as (m' & H' & _); [done..|].
    unfold t1 in H'. by rewrite lookup_insert_ne in H' by done; congruence.
Qed.

Lemma save_tree_ok id n t t' : tree_ok t -> save id n t = Ok t' -> tree_ok t'.
Proof. intros Ht H j. apply (save_node_spec _ _ _ _ _ H). apply Ht. Qed.

Lemma delete_tree_ok held id t t' : tree_ok t -> delete_node held id t = Ok t' -> tree_ok t'.
Proof.
  unfold delete_node. intros Ht. case_match eqn:Hc; [done|]. intros [= <-] j m Hm.
  apply orb_false_iff in Hc as [_ Hc]. apply negb_false_iff, bool_decide_eq_true in Hc.
  apply lookup_delete_Some in Hm as [Hne Hm].
  destruct (Ht j m Hm) as (Hfc & up & Hup & Hpath).
  assert (Hrow : parent_row (delete id t) m = Ok up).
  { revert Hup. unfold parent_row. destruct (g_parent m) as [p|] eqn:Hp; [|done].
    rewrite lookup_delete_ne; [done|]. intros ->.
    assert ((j, m) ∈ children p t) as Hin by (by apply elem_of_children).
    rewrite Hc in Hin. set_solver. }
  split; [|by exists up]. apply full_clean_ok in Hfc as (up' & Hup' & H1 & H2 & H3).
  assert (up' = up) as -> by congruence. apply full_clean_ok. exists up. split; [done|].
  split; [done|]. split; [|done]. rewrite code_is_free_spec in *.
  intros k m' Hk. apply lookup_delete_Some in Hk as [_ Hk]. by apply H2.
Qed.

Lemma reached_ok t : tree_reached t -> tree_ok t.
Proof.
  induction 1; [by intros j m Hm|by eapply save_tree_ok|by eapply delete_tree_ok].
Qed.

(** ** The depth of the tree bounds the recursion *)

Lemma rank_bound k : (rank k <= 3)%nat.
Proof. destruct k; simpl; lia. Qed.

Lemma full_clean_fuel id n t : full_clean id n t <> Err OutOfFuel.
Proof.
  unfold full_clean, parent_row, require. destruct (g_parent n) as [p|]; simpl.
  - destruct (t !! p); simpl; [|done]. by case_match.
  - by case_match.
Qed.

Lemma child_rank id n t t1 c nc :
  t1 !! id = Some n -> same_but_path t1 t -> g_parent nc = Some id ->
  full_clean c nc t = Ok tt -> rank (g_kind nc) = S (rank (g_kind n)).
Proof.
  intros Hid Hsame Hp Hfc. destruct (same_lookup t1 t id n Hsame Hid) as (m & Hm & Heq).
  apply full_clean_ok in Hfc as (u & Hu & _ & _ & Hc).
  unfold parent_row in Hu. rewrite Hp, Hm in Hu. injection Hu as <-.
  unfold clean in Hc. rewrite bool_decide_eq_true in Hc. simpl in Hc.
  apply allowed_parent_rank in Hc. apply (f_equal g_kind) in Heq. simpl in Heq. congruence.
Qed.

Lemma save_all_fuel f id n t1 l tA :
  (forall c nc t, (5 <= f + rank (g_kind nc))%nat -> save_node f c nc t <> Err OutOfFuel) ->
  (4 <= f + rank (g_kind n))%nat -> (1 <= f)%nat ->
  t1 !! id = Some n -> same_but_path t1 tA ->
  (forall c, c ∈ l -> g_parent c.2 = Some id /\
                      with_path EmptyString <$> t1 !! c.1 = Some (with_path EmptyString c.2)) ->
  save_all f (Ok tA) l <> Err OutOfFuel.
Proof.
  intros IHf Hf H1 Hid. revert tA. induction l as [|[c nc] l IH]; intros tA Hsame Hl; [done|].
  destruct (Hl (c, nc)) as [Hp Hc]; [set_solver|]. simpl in Hp, Hc.
  change (save_all f (save_node f c nc tA) l <> Err OutOfFuel).
  destruct (save_node f c nc tA) as [tC|e] eqn:HC.
  - apply IH; [|intros d Hd; apply Hl; set_solver].
    destruct (save_node_spec _ _ _ _ _ HC) as (Hs & _). rewrite <- Hs. rewrite Hsame.
    symmetry. apply same_reinsert. by rewrite <- (Hsame c).
  - rewrite save_all_err. rewrite <- HC. destruct f as [|f]; [lia|].
    destruct (full_clean c nc tA) as [[]|e'] eqn:Hfc.
    + apply IHf. rewrite (child_rank id n tA t1 c nc); done || lia.
    + cbn [save_node]. rewrite Hfc. cbn [res_bind]. intros [= ->].
      by apply (full_clean_fuel c nc tA).
Qed.

Lemma save_node_fuel f id n t :
  (5 <= f + rank (g_kind n))%nat -> save_node f id n t <> Err OutOfFuel.
Proof.
  revert id n t. induction f as [|f IH]; intros id n t Hf.
  - pose proof (rank_bound (g_kind n)). lia.
  - cbn [save_node]. destruct (full_clean id n t) as [[]|e] eqn:Hfc.
    2: { intros [= ->]. by apply (full_clean_fuel id n t). }
    cbn [res_bind]. pose proof Hfc as Hup. apply full_clean_ok in Hup as (up & -> & _). cbn [res_bind].
    set (t1 := <[id := with_path (build_path n up) n]> t).
    apply (save_all_fuel f id (with_path (build_path n up) n) t1); simpl.
    + intros c nc t'. apply IH.
    + lia.
    + pose proof (rank_bound (g_kind n)). lia.
    + apply lookup_insert_eq.
    + done.
    + intros c Hc. apply elem_of_children in Hc as [Hc Hp]. by rewrite Hc.
Qed.

(** ** Paths are containment *)

Definition slash : ascii := "/"%char.

(** Text without a path separator. *)
Definition slash_free (t : GeoTable) : Prop :=
  forall j n, t !! j = Some n -> slash ∉ chars (g_code n).

Lemma prefix_chars s s' : String.prefix s s' = true <-> chars s `prefix_of` chars s'.
Proof.
  revert s'. induction s as [|a s IH]; intros s'.
  - split; [intros _; apply prefix_nil | by destruct s'].
  - destruct s' as [|b s']; change (chars (String.String a s)) with (a :: chars s).
    + split; [done|]. intros [k Hk]. discriminate Hk.
    + change (chars (String.String b s')) with (b :: chars s').
      cbn [String.prefix]. destruct (ascii_dec a b) as [->|Hne].
      * rewrite IH. split; [apply prefix_cons | apply prefix_cons_inv_2].
      * split; [done|]. intros H. by apply prefix_cons_inv_1 in H.
Qed.

#[local] Close Scope string_scope.
#[local] Open Scope list_scope.

(** A path that ends in a separator and is a prefix of a longer one ends no later than
    the last whole segment. *)
Lemma segment_prefix (p0 q c : list ascii) :
  slash ∉ c -> (p0 ++ [slash]) `prefix_of` (q ++ c ++ [slash]) ->
  (p0 ++ [slash]) `prefix_of` q \/ p0 = q ++ c.
Proof.
  intros Hc [k Hk]. destruct k as [|x k _] using rev_ind.
  - right. rewrite app_nil_r, app_assoc in Hk. by apply app_inj_tail in Hk as [-> _].
  - left. rewrite !app_assoc in Hk. apply app_inj_tail in Hk as [Hk _].
    assert (H : q ++ c = p0 ++ ([slash] ++ k)) by (by rewrite Hk, <- app_assoc).
    apply app_eq_app in H as [l [[Hq Hr]|[Hq Hr]]].
    + destruct l as [|y l].
      * exfalso. simpl in Hr. apply Hc. rewrite <- Hr. set_solver.
      * injection Hr as <- Hr. exists l. by rewrite Hq, <- app_assoc.
    + exfalso. apply Hc. rewrite Hr. set_solver.
Qed.

Lemma last_segment (p p' c c' : list ascii) :
  slash ∉ c -> slash ∉ c' ->
  (p = [] \/ exists r, p = r ++ [slash]) -> (p' = [] \/ exists r, p' = r ++ [slash]) ->
  p ++ c = p' ++ c' -> c = c'.
Proof.
  intros Hc Hc' Hp Hp' H. apply app_eq_app in H as [l [[Hq Hr]|[Hq Hr]]].
  - destruct l as [|y l _] using rev_ind; [done|]. exfalso. destruct Hp as [->|[r ->]].
    + by destruct p', l.
    + rewrite app_assoc in Hq. apply app_inj_tail in Hq as [_ <-]. set_solver.
  - destruct l as [|y l _] using rev_ind; [done|]. exfalso. destruct Hp' as [->|[r ->]].
    + by destruct p, l.
    + rewrite app_assoc in Hq. apply app_inj_tail in Hq as [_ <-]. set_solver.
Qed.

Lemma path_shape t j n :
  tree_ok t -> t !! j = Some n ->
  match g_parent n with
  | None => chars (g_path n) = chars (g_code n) ++ [slash]
  | Some p => exists m, t !! p = Some m /\ rank (g_kind n) = S (rank (g_kind m)) /\
                chars (g_path n) = chars (g_path m) ++ chars (g_code n) ++ [slash]
  end.
Proof.
  intros Ht Hn. destruct (Ht j n Hn) as (Hfc & up & Hup & Hpath).
  apply full_clean_ok in Hfc as (up' & Hup' & _ & _ & Hc).
  assert (up' = up) as -> by congruence. unfold clean in Hc. rewrite bool_decide_eq_true in Hc.
  rewrite Hpath. unfold build_path. rewrite !chars_append.
  unfold parent_row in Hup. destruct (g_parent n) as [p|]; [|by injection Hup as <-].
  destruct (t !! p) as [m|] eqn:Hm; [|done]. injection Hup as <-.
  exists m. split; [done|]. split; [by apply allowed_parent_rank|]. done.
Qed.

Lemma path_ends t j n :
  tree_ok t -> t !! j = Some n -> exists r, chars (g_path n) = r ++ [slash].
Proof.
  intros Ht Hn. pose proof (path_shape t j n Ht Hn) as H.
  destruct (g_parent n) as [p|]; [|by eexists].
  destruct H as (m & _ & _ & ->). rewrite app_assoc. by eexists.
Qed.

Lemma code_unique t a b na nb :
  tree_ok t -> t !! a = Some na -> t !! b = Some nb -> g_code na = g_code nb -> a = b.
Proof.
  intros Ht Ha Hb Hc. destruct (Ht a na Ha) as (Hfc & _).
  apply full_clean_ok in Hfc as (_ & _ & _ & Hfree & _).
  destruct (proj1 (code_is_free_spec _ _ _) Hfree b nb Hb); congruence.
Qed.

Lemma under_prefix t a b na nb :
  tree_ok t -> under t a b -> t !! a = Some na -> t !! b = Some nb ->
  chars (g_path na) `prefix_of` chars (g_path nb).
Proof.
  intros Ht H Ha. revert nb. induction H as [|b p nb' Hb Hp Hu IH]; intros nb Hnb; simplify_eq; [done|].
  pose proof (path_shape t b nb' Ht Hb) as Hs. rewrite Hp in Hs. destruct Hs as (m & Hm & _ & ->).
  etrans; [by apply IH|]. by apply prefix_app_r.
Qed.

(** Equal paths belong to one node. *)
Lemma path_unique t a b na nb :
  tree_ok t -> slash_free t -> t !! a = Some na -> t !! b = Some nb ->
  chars (g_path na) = chars (g_path nb) -> a = b.
Proof.
  intros Ht Hf Ha Hb Heq.
  pose proof (path_shape t a na Ht Ha) as Sa. pose proof (path_shape t b nb Ht Hb) as Sb.
  assert (Hshape : forall n, (exists j, t !! j = Some n) -> exists q, (q = [] \/ exists r, q = r ++ [slash]) /\
            chars (g_path n) = (q ++ chars (g_code n)) ++ [slash]).
  { intros n [j Hj]. pose proof (path_shape t j n Ht Hj) as S. destruct (g_parent n) as [p|].
    - destruct S as (m & Hm & _ & ->). exists (chars (g_path m)). rewrite app_assoc.
      split; [right; by apply (path_ends t p)|done].
    - exists []. split; [by left|done]. }
  destruct (Hshape na) as (qa & Hqa & Ea); [by eexists|].
  destruct (Hshape nb) as (qb & Hqb & Eb); [by eexists|].
  rewrite Ea, Eb in Heq. apply app_inj_tail in Heq as [Heq _].
  apply (code_unique t a b na nb Ht Ha Hb). apply chars_inj.
  apply (last_segment qa qb); eauto.
Qed.

Lemma prefix_under t a b na nb :
  tree_ok t -> slash_free t -> t !! a = Some na -> t !! b = Some nb ->
  chars (g_path na) `prefix_of` chars (g_path nb) -> under t a b.
Proof.
  intros Ht Hf Ha. remember (rank (g_kind nb)) as r eqn:Hr. revert b nb Hr.
  induction r as [r IH] using lt_wf_ind. intros b nb -> Hb Hpre.
  destruct (path_ends t a na Ht Ha) as [ra Hra].
  pose proof (path_shape t b nb Ht Hb) as Hs. destruct (g_parent nb) as [p|] eqn:Hp.
  - destruct Hs as (m & Hm & Hrank & Hpath). rewrite Hra, Hpath in Hpre.
    apply segment_prefix in Hpre as [Hpre|Hwhole]; [| |by apply (Hf b)].
    + apply (under_step t a b p nb); [done..|]. apply (IH (rank (g_kind m)) ltac:(lia) p m); [done..|].
      by rewrite Hra.
    + rewrite (path_unique t a b na nb); [constructor|done..|].
      rewrite Hra, Hpath, Hwhole. by rewrite app_assoc.
  - rewrite (path_unique t a b na nb); [constructor|done..|].
    rewrite Hra, Hs in Hpre |- *.
    apply (segment_prefix ra [] (chars (g_code nb))) in Hpre as [[k Hk]| ->]; [| |by apply (Hf b)].
    + by destruct ra.
    + done.
Qed.

Lemma path_length t j n :
  tree_ok t -> t !! j = Some n -> (length (chars (g_path n)) <= 33 * S (rank (g_kind n)))%nat.
Proof.
  intros Ht. remember (rank (g_kind n)) as r eqn:Hr. revert j n Hr.
  induction r as [r IH] using lt_wf_ind. intros j n -> Hn.
  assert (Hc : (length (chars (g_code n)) <= 32)%nat).
  { destruct (Ht j n Hn) as (Hfc & _). apply full_clean_ok in Hfc as (_ & _ & Hf & _).
    unfold clean_fields in Hf. rewrite length_chars.
    apply andb_true_iff in Hf as [Hf _]. apply andb_true_iff in Hf as [_ Hf]. by apply Nat.leb_le. }
  pose proof (path_shape t j n Ht Hn) as Hs. destruct (g_parent n) as [p|].
  - destruct Hs as (m & Hm & Hrank & ->). rewrite !length_app. simpl.
    pose proof (IH (rank (g_kind m)) ltac:(lia) p m eq_refl Hm). lia.
  - rewrite Hs, length_app. simpl. lia.
Qed.

(** C38. Whatever sequence of saves and deletions produced the geography table, the prefix test
    on the stored paths never misses what lies below a node, and when no code of the table holds
    a slash it is containment: a node covers another exactly when it is that node or one of its
    ancestors.  A save that moves or renames a node rewrites the paths of its whole subtree,
    never runs past the depth of the tree, and leaves every path within its 255-character
    column. *)
Theorem covers_is_containment t :
  tree_reached t ->
  (forall a b na nb, t !! a = Some na -> t !! b = Some nb ->
     (under t a b -> covers na (Some nb) = true) /\
     (slash_free t -> covers na (Some nb) = true <-> under t a b)) /\
  (forall j n, t !! j = Some n -> Z.of_nat (String.length (g_path n)) <= 255) /\
  (forall id n, save id n t <> Err OutOfFuel).
Proof.
  intros Hr%reached_ok. split; [|split].
  - intros a b na nb Ha Hb. unfold covers. rewrite prefix_chars. split; [intros Hu; by apply (under_prefix t a b)|].
    intros Hf. split; [by apply prefix_under|]. intros Hu. by apply (under_prefix t a b).
  - intros j n Hn. pose proof (path_length t j n Hr Hn) as H. rewrite length_chars in H.
    pose proof (rank_bound (g_kind n)). lia.
  - intros id n. apply save_node_fuel. unfold tree_depth. lia.
Qed.

(** ** Accounts and their legacy capabilities ([base/permissions.py]) *)

#[local] Open Scope string_scope.

Record User := {
  uid : Z;
  u_authenticated : bool;
  u_superuser : bool;
  u_staff : bool;
  u_role : string;
  u_ops_role : option string;
  u_active : bool;
  u_break_glass : bool;
  u_label : string;
  u_email : string
}.

Definition is_operator (user : option User) : bool :=
  match user with
  | None => false
  | Some u => u_authenticated u &&
      (u_superuser u || (bool_decide (u_role u = "admin") && u_staff u))
  end.

Definition ALL_CAPABILITIES : list string :=
  ["trip.read"; "driver.read"; "driver.kyc"; "support.read"; "support.reply"; "finance.read";
   "finance.payout"; "pricing.write"; "ops.admin"].

Definition OPS_ROLE_CAPABILITIES : list (string * list string) :=
  [("support", ["trip.read"; "driver.read"; "support.read"; "support.reply"]);
   ("driver_ops", ["trip.read"; "driver.read"; "driver.kyc"; "support.read"]);
   ("finance", ["trip.read"; "driver.read"; "support.read"; "finance.read"; "finance.payout"]);
   ("admin", ALL_CAPABILITIES)].

(** [d.get(k)] on a literal dictionary. *)
Definition table_get {A : Type} (d : list (string * A)) (k : string) : option A :=
  snd <$> List.find (fun e => bool_decide (e.1 = k)) d.

Definition ops_role_of (u : User) : option string :=
  if negb (is_operator (Some u)) then None
  else if u_superuser u then Some "admin"
  else let role := match u_ops_role u with
                   | Some r => if bool_decide (r = EmptyString) then "admin" else r
                   | None => "admin"
                   end in
       match table_get OPS_ROLE_CAPABILITIES role with
       | Some _ => Some role
       | None => Some "admin"
       end.

Definition legacy_capabilities_of (u : User) : list string :=
  match ops_role_of u with
  | Some role => default [] (table_get OPS_ROLE_CAPABILITIES role)
  | None => []
  end.

(** An unknown capability is logged and refused. *)
Definition has_capability (u : User) (capability : string) : bool :=
  bool_decide (capability ∈ ALL_CAPABILITIES) && bool_decide (capability ∈ legacy_capabilities_of u).

(** ** Snapshots of an actor ([admin_audit/models.py]) *)

(** [actor_role_of]: the account's role, with the operator authority it carried. *)
Definition actor_role_of (u : User) : string :=
  let ops := default EmptyString (u_ops_role u) in
  String.substring 0 64
    (if (u_staff u || u_superuser u || bool_decide (u_role u = "admin")) &&
        negb (bool_decide (ops = EmptyString))
     then u_role u +:+ "/" +:+ ops else u_role u).

(** [actor_snapshot]: who somebody was at that moment. *)
Record Snapshot := { sn_id : option Z; sn_label : string; sn_email : string; sn_role : string }.

Definition actor_snapshot (user : option User) : Snapshot :=
  match user with
  | Some u =>
    if u_authenticated u
    then {| sn_id := Some (uid u); sn_label := String.substring 0 255 (u_label u);
            sn_email := String.substring 0 254 (u_email u); sn_role := actor_role_of u |}
    else {| sn_id := None; sn_label := EmptyString; sn_email := EmptyString; sn_role := EmptyString |}
  | None => {| sn_id := None; sn_label := EmptyString; sn_email := EmptyString; sn_role := EmptyString |}
  end.

(** ** Roles and assignments *)

(** The keys of [PERMISSIONS]. *)
Definition ALL_PERMISSIONS : list string :=
  ["trip.read"; "rider.read"; "driver.read"; "support.read"; "finance.read"; "report.read";
   "audit.read"; "zone.read"; "liveops.read"; "liveops.aggregate"; "pii.view";
   "trip.write"; "trip.stale_resolve"; "rider.write"; "rider.note"; "rider.flag";
   "rider.signout"; "rider.block"; "driver.write"; "driver.kyc"; "driver.deactivate";
   "support.reply"; "support.refund"; "support.macro"; "support.sla"; "support.dashboard";
   "finance.payout"; "finance.adjust"; "finance.config"; "finance.aggregate";
   "finance.export"; "pricing.write"; "zone.write"; "promo.read"; "promo.write";
   "incentive.write"; "fraud.read"; "fraud.rules"; "notify.send"; "notify.read";
   "notify.template"; "notify.campaign"; "safety.read"; "safety.respond"; "safety.config";
   "fraud.review"; "admin.manage"; "platform.settings"; "platform.read";
   "platform.city_pause"; "platform.integrations.read"; "approval.check"; "privacy.manage"].

Definition SUPER_ADMIN : string := "super_admin".
Definition MIN_SUPER_ADMINS : Z := 2.

Record Role := {
  r_code : string;
  r_permissions : list string;
  r_global_only : bool;
  r_active : bool
}.

Record Assignment := {
  as_admin : Z;
  as_role : Z;
  as_scope : Z;
  as_active : bool
}.

(** The access tables, the accounts, and [settings.ADMIN_ACCESS_STRICT]. *)
Record AccessDb := {
  nodes : GeoTable;
  roles : gmap Z Role;
  assignments : gmap Z Assignment;
  users : gmap Z User;
  strict_mode : bool
}.

(** An assignment joined with its role and its node; both are foreign keys. *)
Definition joined (db : AccessDb) (a : Assignment) : option (Role * GeoRow) :=
  match roles db !! as_role a, nodes db !! as_scope a with
  | Some r, Some n => Some (r, n)
  | _, _ => None
  end.

Definition assignment_rows (db : AccessDb) : list Assignment := snd <$> map_to_list (assignments db).

Definition active_assignments (db : AccessDb) (u : User) : list (Role * GeoRow) :=
  if u_authenticated u
  then omap (fun a => if (as_admin a =? uid u)%Z && as_active a
                      then match joined db a with
                           | Some (r, n) => if r_active r then Some (r, n) else None
                           | None => None
                           end
                      else None) (assignment_rows db)
  else [].

Definition permissions_at (db : AccessDb) (u : User) (node : option GeoRow) : list string :=
  if u_superuser u then ALL_PERMISSIONS
  else flat_map (fun a => match node with
                          | Some _ => if covers a.2 node then r_permissions a.1 else []
                          | None => r_permissions a.1
                          end) (active_assignments db u).

(** [Err p] is the [ValueError] for a permission outside the catalogue. *)
Definition has_permission_at (db : AccessDb) (u : User) (permission : string)
    (node : option GeoRow) : res string bool :=
  if bool_decide (permission ∈ ALL_PERMISSIONS)
  then Ok (bool_decide (permission ∈ permissions_at db u node))
  else Err permission.

Definition is_super_admin (db : AccessDb) (u : User) : bool :=
  u_superuser u ||
  existsb (fun a => bool_decide (r_code a.1 = SUPER_ADMIN) && bool_decide (g_kind a.2 = KGlobal))
    (active_assignments db u).

(** [sorted(set(...))] of texts. *)
Definition text_le (a b : string) : Prop := String.leb a b = true.

#[global] Instance text_le_dec : RelDecision text_le.
Proof. intros a b. unfold text_le. apply _. Defined.

Definition sorted_set (l : list string) : list string := merge_sort text_le (remove_dups l).

(** None means unrestricted. *)
Definition scope_paths (db : AccessDb) (u : User) : option (list string) :=
  if u_superuser u then None
  else if existsb (fun a => bool_decide (g_kind a.2 = KGlobal)) (active_assignments db u) then None
  else Some (sorted_set ((fun a => g_path a.2) <$> active_assignments db u)).

(** A queryset is a list of rows; [anchors] follows the path fields, None where a
    nullable join finds nothing; [also] is the union of [UNSCOPED_UNION]. *)
Definition scope_queryset {A : Type} (db : AccessDb) (u : User) (rows : list A)
    (anchors : A -> list (option string)) (also : A -> bool) : list A :=
  match scope_paths db u with
  | None => rows
  | Some [] => []
  | Some paths =>
    List.filter (fun row =>
      existsb (fun path => existsb (fun a => match a with
                                             | Some p => String.prefix path p
                                             | None => false
                                             end) (anchors row)) paths || also row) rows
  end.

(** ** The bridge between the two models *)

Definition LEGACY_EQUIVALENT : list (string * string) :=
  [("trip.read", "trip.read"); ("driver.read", "driver.read"); ("driver.kyc", "driver.kyc");
   ("support.read", "support.read"); ("support.reply", "support.reply");
   ("finance.read", "finance.read"); ("finance.payout", "finance.payout");
   ("pricing.write", "pricing.write"); ("admin.manage", "ops.admin")].

Definition LEGACY_OPEN_TO_ANY_OPERATOR : list string :=
  ["report.read"; "pii.view"; "safety.respond"; "zone.read"].

Inductive how := by_new | by_legacy | denied.

#[global] Instance how_eq_dec : EqDecision how.
Proof. solve_decision. Defined.

Definition is_migrated (db : AccessDb) (u : User) : bool :=
  negb (bool_decide (active_assignments db u = [])).

Definition granted (db : AccessDb) (u : User) (permission : string) (node : option GeoRow)
    : res string (bool * how) :=
  if negb (is_operator (Some u)) then Ok (false, denied)
  else let* held := has_permission_at db u permission node in
    if held then Ok (true, by_new)
    else if strict_mode db then Ok (false, denied)
    else if is_migrated db u then Ok (false, denied)
    else if bool_decide (permission ∈ LEGACY_OPEN_TO_ANY_OPERATOR) then Ok (true, by_legacy)
    else match table_get LEGACY_EQUIVALENT permission with
         | Some legacy => if has_capability u legacy then Ok (true, by_legacy) else Ok (false, denied)
         | None => Ok (false, denied)
         end.

(** [bridge.capabilities_of]: the list the console draws itself from. *)
Definition capabilities_of (db : AccessDb) (u : User) : list string :=
  if negb (is_operator (Some u)) then []
  else let allowed := permissions_at db u None in
    if strict_mode db || is_migrated db u then allowed
    else allowed ++ LEGACY_OPEN_TO_ANY_OPERATOR ++
         omap (fun e => if has_capability u e.2 then Some e.1 else None) LEGACY_EQUIVALENT.

(** [scoping.scoped]: an unmigrated account is not filtered until strict mode. *)
Definition scoped {A : Type} (db : AccessDb) (u : User) (rows : list A)
    (anchors : A -> list (option string)) (also : A -> bool) : list A :=
  if negb (strict_mode db) && negb (is_migrated db u) then rows
  else scope_queryset db u rows anchors also.

(** [scoping.requested_node]: the [?scope=] node, refused unless the caller holds it. *)
Definition requested_node (db : AccessDb) (u : User) (param : option string)
    : res unit (option GeoRow) :=
  let code := strip (default EmptyString param) in
  if bool_decide (code = EmptyString) then Ok None
  else match List.find (fun n => bool_decide (g_code n = code)) (snd <$> map_to_list (nodes db)) with
       | None => Err tt
       | Some node =>
         match scope_paths db u with
         | None => Ok (Some node)
         | Some paths =>
           if existsb (fun path => String.prefix path (g_path node)) paths
           then Ok (Some node) else Err tt
         end
       end.

Definition scoped_to_request {A : Type} (db : AccessDb) (u : User) (param : option string)
    (rows : list A) (anchors : A -> list (option string)) (also : A -> bool) : res unit (list A) :=
  let base := scoped db u rows anchors also in
  let* node := requested_node db u param in
  match node with
  | None => Ok base
  | Some n =>
    Ok (List.filter (fun row =>
          existsb (fun a => match a with
                            | Some p => String.prefix (g_path n) p
                            | None => false
                            end) (anchors row) || also row) base)
  end.

(** [approvals/scope.py], [may_act]: a missing node is reached only by an unrestricted account. *)
Definition may_act (db : AccessDb) (u : User) (permission : string) (node : option GeoRow)
    : res string bool :=
  if negb (strict_mode db) && negb (is_migrated db u)
  then let* g := granted db u permission None in Ok g.1
  else match node with
       | None => match scope_paths db u with
                 | Some _ => Ok false
                 | None => let* g := granted db u permission None in Ok g.1
                 end
       | Some _ => let* g := granted db u permission node in Ok g.1
       end.

(** ** Authority lemmas *)

#[local] Close Scope string_scope.

(** The assignment rows behind [active_assignments]. *)
Definition holds_at (db : AccessDb) (u : User) (r : Role) (n : GeoRow) : Prop :=
  u_authenticated u = true /\ exists k a, assignments db !! k = Some a /\ as_admin a = uid u /\
    as_active a = true /\ roles db !! as_role a = Some r /\ nodes db !! as_scope a = Some n /\
    r_active r = true.

Lemma elem_of_active db u r n : (r, n) ∈ active_assignments db u <-> holds_at db u r n.
Proof.
  unfold active_assignments, holds_at, assignment_rows.
  destruct (u_authenticated u); [|set_solver]. rewrite list_elem_of_omap. split.
  - intros (a & Ha & H). apply list_elem_of_fmap in Ha as ([k a'] & -> & Ha).
    apply elem_of_map_to_list in Ha. simpl in H. split; [done|]. exists k, a'. unfold joined in H.
    repeat split_match H; simplify_eq. bool_cases.
    destruct (roles db !! _) as [r'|], (nodes db !! _) as [n'|]; by simplify_eq.
  - intros (_ & k & a & Hk & Hu & Ha & Hr & Hn & Hact). exists a. split.
    + apply list_elem_of_fmap. exists (k, a). split; [done|]. by apply elem_of_map_to_list.
    + unfold joined. rewrite Hr, Hn, Hact, Ha, Hu, Z.eqb_refl. done.
Qed.

Lemma migrated_spec db u : is_migrated db u = true <-> exists r n, holds_at db u r n.
Proof.
  unfold is_migrated. rewrite negb_true_iff, bool_decide_eq_false. split.
  - intros H. destruct (active_assignments db u) as [|[r n] l] eqn:E; [done|].
    exists r, n. apply elem_of_active. rewrite E. set_solver.
  - intros (r & n & H%elem_of_active) E. rewrite E in H. set_solver.
Qed.

Lemma elem_of_permissions db u p node :
  u_superuser u = false ->
  p ∈ permissions_at db u node <->
  exists r n, holds_at db u r n /\ p ∈ r_permissions r /\
              (forall o, node = Some o -> covers n (Some o) = true).
Proof.
  intros Hs. unfold permissions_at. rewrite Hs, list_elem_of_In, in_flat_map. split.
  - intros ([r n] & Hin & Hp). apply list_elem_of_In in Hin. apply list_elem_of_In in Hp. exists r, n.
    split; [by apply elem_of_active|]. destruct node as [o|]; simpl in Hp.
    + destruct (String.prefix _ _) eqn:E; [|set_solver]. split; [done|]. by intros o' [= <-].
    + split; [done|]. intros o [=].
  - intros (r & n & H & Hp & Hc). exists (r, n). rewrite <- !list_elem_of_In.
    split; [by apply elem_of_active|]. destruct node as [o|]; simpl; [|done].
    pose proof (Hc o eq_refl) as Hc'. simpl in Hc'. by rewrite Hc'.
Qed.

(** An account whose authority comes from assignments alone. *)
Definition under_new_model (db : AccessDb) (u : User) : Prop :=
  u_superuser u = false /\ (strict_mode db = true \/ is_migrated db u = true).

Lemma granted_new db u p node b h :
  under_new_model db u -> p ∈ ALL_PERMISSIONS -> granted db u p node = Ok (b, h) ->
  (b = true <-> is_operator (Some u) = true /\ p ∈ permissions_at db u node).
Proof.
  intros [Hs Hm] Hp. unfold granted, has_permission_at.
  rewrite (bool_decide_eq_true_2 (p ∈ ALL_PERMISSIONS)) by done.
  destruct (is_operator (Some u)) eqn:Ho; cbn [negb]; [|intros [= <- <-]; split; [done|intros [[=] _]]].
  cbn [res_bind]. destruct (bool_decide _) eqn:Hd.
  - apply bool_decide_eq_true in Hd. intros [= <- <-]. done.
  - apply bool_decide_eq_false in Hd.
    destruct (strict_mode db); [intros [= <- <-]; split; [done|by intros [_ ?]]|].
    destruct Hm as [|Hm]; [done|]. rewrite Hm. intros [= <- <-]. split; [done|by intros [_ ?]].
Qed.

Lemma granted_total db u p node :
  p ∈ ALL_PERMISSIONS -> exists b h, granted db u p node = Ok (b, h).
Proof.
  intros Hp. unfold granted, has_permission_at.
  rewrite (bool_decide_eq_true_2 (p ∈ ALL_PERMISSIONS)) by done. cbn [res_bind].
  repeat case_match; eauto.
Qed.

Lemma find_none_not_in {A} (d : list (string * A)) k :
  table_get d k = None <-> k ∉ d.*1.
Proof.
  unfold table_get. induction d as [|[k' v] d IH]; simpl; [set_solver|].
  destruct (bool_decide (k' = k)) eqn:E; simpl.
  - apply bool_decide_eq_true in E. set_solver.
  - apply bool_decide_eq_false in E. rewrite IH. set_solver.
Qed.

Lemma table_get_in {A} (d : list (string * A)) k v :
  base.NoDup d.*1 -> table_get d k = Some v <-> (k, v) ∈ d.
Proof.
  unfold table_get. induction d as [|[k' v'] d IH]; simpl; intros Hnd; [set_solver|].
  apply NoDup_cons in Hnd as [Hk Hnd]. specialize (IH Hnd).
  destruct (bool_decide (k' = k)) eqn:E; simpl.
  - apply bool_decide_eq_true in E as ->. split; [intros [= ->]; set_solver|].
    intros [H|H]%elem_of_cons; [by simplify_eq|]. exfalso. apply Hk.
    apply list_elem_of_fmap. by exists (k, v).
  - apply bool_decide_eq_false in E. rewrite IH. set_solver.
Qed.

(** An active assignment of [u], to an active role that lists [p], at the place [b] or above it. *)
Definition assigned_at (db : AccessDb) (u : User) (p : string) (b : Z) : Prop :=
  exists k a r, assignments db !! k = Some a /\ as_admin a = uid u /\ as_active a = true /\
    roles db !! as_role a = Some r /\ r_active r = true /\ p ∈ r_permissions r /\
    (exists na, nodes db !! as_scope a = Some na) /\ under (nodes db) (as_scope a) b.

(** What the migration exemption leaves to an account without assignments: its legacy
    capabilities, wherever the place is. *)
Definition exempted (db : AccessDb) (u : User) (p : string) : Prop :=
  strict_mode db = false /\ is_migrated db u = false /\
  (p ∈ LEGACY_OPEN_TO_ANY_OPERATOR \/ exists l, (p, l) ∈ LEGACY_EQUIVALENT /\ has_capability u l = true).

Lemma granted_spec db u p node b h :
  p ∈ ALL_PERMISSIONS -> granted db u p node = Ok (b, h) ->
  (b = true <-> is_operator (Some u) = true /\ (p ∈ permissions_at db u node \/ exempted db u p)).
Proof.
  intros Hp. unfold granted, has_permission_at, exempted.
  rewrite (bool_decide_eq_true_2 (p ∈ ALL_PERMISSIONS)) by done.
  destruct (is_operator (Some u)) eqn:Ho; cbn [negb]; [|intros [= <- <-]; split; [done|intros [[=] _]]].
  cbn [res_bind]. destruct (bool_decide_reflect (p ∈ permissions_at db u node)) as [Hd|Hd]; [intros [= <- <-]; tauto|].
  destruct (strict_mode db); [intros [= <- <-]; split; [done|intros [_ [H|[[=] _]]]; done]|].
  destruct (is_migrated db u); [intros [= <- <-]; split; [done|intros [_ [H|[_ [[=] _]]]]; done]|].
  destruct (bool_decide_reflect (p ∈ LEGACY_OPEN_TO_ANY_OPERATOR)) as [Hl|Hl]; [intros [= <- <-]; split; [auto 10|done]|].
  assert (Hnd : base.NoDup LEGACY_EQUIVALENT.*1) by (apply (bool_decide_unpack _); vm_compute; exact I).
  destruct (table_get LEGACY_EQUIVALENT p) as [l|] eqn:Ht.
  - apply (table_get_in _ _ _ Hnd) in Ht. destruct (has_capability u l) eqn:Hc; intros [= <- <-]; [split; [|done]; eauto 10|].
    split; [done|]. intros [_ [H|(_ & _ & [H|(l' & H1 & H2)])]]; [done..|].
    apply (table_get_in _ _ _ Hnd) in Ht, H1. congruence.
  - intros [= <- <-]. split; [done|]. intros [_ [H|(_ & _ & [H|(l' & H1 & H2)])]]; [done..|].
    apply (table_get_in _ _ _ Hnd) in H1. congruence.
Qed.

Lemma superuser_holds_all db u p node : u_superuser u = true -> p ∈ ALL_PERMISSIONS -> p ∈ permissions_at db u node.
Proof. intros Hs Hp. unfold permissions_at. by rewrite Hs. Qed.

(** C37. In a table of places whose codes hold no slash, a catalogued permission is granted at a
    place exactly to an operator who is a superuser, or has an active assignment, to an
    active role that lists it, at that place or above it, or is under the migration exemption
    (no strict mode, no assignment at all) with an open permission or a legacy capability
    for it: nothing else grants it, and an account with an assignment, or any in strict
    mode, has no legacy access. *)
Theorem granted_by_containment db u p b nb allowed h :
  tree_reached (nodes db) -> slash_free (nodes db) ->
  p ∈ ALL_PERMISSIONS -> nodes db !! b = Some nb ->
  granted db u p (Some nb) = Ok (allowed, h) ->
  (allowed = true <->
   is_operator (Some u) = true /\ (u_superuser u = true \/ assigned_at db u p b \/ exempted db u p)).
Proof.
  intros Hr%reached_ok Hf Hp Hb Hg. rewrite (granted_spec db u p (Some nb) allowed h Hp Hg).
  destruct (u_superuser u) eqn:Hs; [split; intros [? _]; auto using superuser_holds_all|].
  assert (Hcov : forall j n, nodes db !! j = Some n -> covers n (Some nb) = true <-> under (nodes db) j b).
  { intros j n Hj. unfold covers. rewrite prefix_chars. split; [by apply prefix_under|]. intros Hu. by apply (under_prefix (nodes db) j b). }
  rewrite (elem_of_permissions db u p (Some nb) Hs).
  enough (is_operator (Some u) = true -> (exists r n, holds_at db u r n /\ p ∈ r_permissions r /\
    (forall o, Some nb = Some o -> covers n (Some o) = true)) <-> assigned_at db u p b) as Hx.
  { split; intros [Ho H]; (split; [done|]); specialize (Hx Ho); [destruct H; tauto|]. destruct H as [[=]|[H|H]]; tauto. }
  intros Ho. split.
  - intros (r & n & (_ & k & a & Hk & Hu & Hact & Hro & Hn & Hra) & Hpr & Hc).
    exists k, a, r. split_and!; try done; [by exists n|]. apply (Hcov _ n Hn). by apply Hc.
  - intros (k & a & r & Hk & Hu & Hact & Hro & Hra & Hpr & [n Hn] & Hun).
    exists r, n. split_and!.
    + split; [|by exists k, a]. unfold is_operator in Ho. by apply andb_true_iff in Ho as [? _].
    + done.
    + intros o [= <-]. by apply (Hcov _ n Hn).
Qed.

(** ** Lists and details *)

Lemma elem_of_sorted_set p l : p ∈ sorted_set l <-> p ∈ l.
Proof. unfold sorted_set. by rewrite merge_sort_Permutation, elem_of_remove_dups. Qed.

Lemma scope_queryset_spec {A} db u (rows : list A) anchors also row :
  row ∈ scope_queryset db u rows anchors also <->
  row ∈ rows /\
  (scope_paths db u = None \/
   exists r n, holds_at db u r n /\
     (also row = true \/ exists r' n' p, holds_at db u r' n' /\ Some p ∈ anchors row /\
                           String.prefix (g_path n') p = true)).
Proof.
  unfold scope_queryset, scope_paths. destruct (u_superuser u); [naive_solver|].
  destruct (existsb _ (active_assignments db u)); [naive_solver|].
  set (ps := (fun a => g_path a.2) <$> active_assignments db u).
  assert (Hps : forall p, p ∈ sorted_set ps <-> exists r n, holds_at db u r n /\ p = g_path n).
  { intros p. rewrite elem_of_sorted_set. unfold ps. rewrite list_elem_of_fmap. split.
    - intros ([r n] & -> & Hin%elem_of_active). by exists r, n.
    - intros (r & n & Hin%elem_of_active & ->). by exists (r, n). }
  destruct (sorted_set ps) as [|p0 ps'] eqn:E.
  - split; [set_solver|]. intros [_ [?|(r & n & Hh & _)]]; [done|].
    assert (g_path n ∈ []) as Hin by (apply Hps; eauto). set_solver.
  - rewrite elem_of_filter_b, orb_true_iff, existsb_exists. split.
    + intros [Hrow Hc]. split; [done|]. right. destruct (proj1 (Hps p0)) as (r & n & Hh & _); [set_solver|].
      exists r, n. split; [done|]. destruct Hc as [(p & Hp & Hex)|Hal]; [right|by left].
      apply existsb_exists in Hex as ([q|] & Hq & Hpre); [|done].
      apply list_elem_of_In in Hp. apply list_elem_of_In in Hq.
      apply Hps in Hp as (r' & n' & Hh' & ->). by exists r', n', q.
    + intros [Hrow [?|(r & n & Hh & Hc)]]; [done|]. split; [done|].
      destruct Hc as [Hal|(r' & n' & p & Hh' & Hp & Hpre)]; [by right|left].
      exists (g_path n'). split; [apply list_elem_of_In, Hps; eauto|].
      apply existsb_exists. exists (Some p). split; [by apply list_elem_of_In|done].
Qed.

(** Lists and details answer alike: a row the account may act on is in its filtered
    list, an account that may act on a placeless row sees every row, a row in the list of
    a restricted account is anchored under one of its assignments (or is on the list of
    exceptions), and [?scope=] only ever narrows. *)
Theorem lists_agree_with_details {A : Type} db u p (rows : list A)
    (anchors : A -> list (option string)) (also : A -> bool) row :
  p ∈ ALL_PERMISSIONS -> under_new_model db u -> row ∈ rows ->
  (forall n, may_act db u p (Some n) = Ok true -> Some (g_path n) ∈ anchors row ->
     row ∈ scoped db u rows anchors also) /\
  (may_act db u p None = Ok true -> row ∈ scoped db u rows anchors also) /\
  (row ∈ scoped db u rows anchors also -> scope_paths db u <> None ->
     (exists r n, holds_at db u r n) /\
     (also row = true \/ exists r n q, holds_at db u r n /\ Some q ∈ anchors row /\
                          String.prefix (g_path n) q = true)) /\
  (forall param narrowed, scoped_to_request db u param rows anchors also = Ok narrowed ->
     row ∈ narrowed -> row ∈ scoped db u rows anchors also).
Proof.
  intros Hp Hnew Hrow.
  assert (Hsc : scoped db u rows anchors also = scope_queryset db u rows anchors also).
  { unfold scoped. by destruct Hnew as [_ [-> | ->]]; rewrite ?andb_false_r. }
  assert (Hma : negb (strict_mode db) && negb (is_migrated db u) = false).
  { by destruct Hnew as [_ [-> | ->]]; rewrite ?andb_false_r. }
  split_and!.
  - intros n Hact Hanc. rewrite Hsc. apply scope_queryset_spec. split; [done|].
    unfold may_act in Hact. rewrite Hma in Hact.
    destruct (granted db u p (Some n)) as [[b h]|e] eqn:Hg; [|done]. cbn in Hact.
    injection Hact as ->. apply (granted_new _ _ _ _ _ _ Hnew Hp) in Hg as [Hg _].
    destruct (Hg eq_refl) as [_ Hin]. apply elem_of_permissions in Hin; [|apply Hnew].
    destruct Hin as (r & m & Hh & _ & Hc). right. exists r, m. split; [done|]. right.
    exists r, m, (g_path n). split_and!; [done..|]. by apply (Hc n).
  - intros Hact. rewrite Hsc. apply scope_queryset_spec. split; [done|]. left.
    unfold may_act in Hact. rewrite Hma in Hact. by destruct (scope_paths db u).
  - rewrite Hsc. intros [_ [?|(r & n & Hh & Hc)]]%scope_queryset_spec Hne; [done|].
    split; [by exists r, n|]. naive_solver.
  - intros param narrowed H. unfold scoped_to_request in H.
    apply res_bind_ok in H as ([n|] & _ & H); injection H as <-; [|done].
    by intros [? _]%elem_of_filter_b.
Qed.

(** ** The console's capability list *)

(** The list the console draws itself from is exactly what the permission check
    allows with no place given, for every catalogued permission and every account,
    migrated or not, in strict mode or not. *)
Theorem capabilities_match_granted db u p :
  p ∈ ALL_PERMISSIONS ->
  (p ∈ capabilities_of db u <-> exists h, granted db u p None = Ok (true, h)).
Proof.
  intros Hp. unfold capabilities_of, granted, has_permission_at.
  rewrite (bool_decide_eq_true_2 (p ∈ ALL_PERMISSIONS)) by done.
  destruct (is_operator (Some u)); cbn [negb]; [|split; [set_solver|by intros [h [=]]]].
  cbn [res_bind]. destruct (bool_decide (p ∈ permissions_at db u None)) eqn:Hd.
  - apply bool_decide_eq_true in Hd. split; [eauto|]. intros _.
    destruct (_ || _); [done|]. rewrite elem_of_app. by left.
  - apply bool_decide_eq_false in Hd. destruct (strict_mode db); [split; [done|by intros [h [=]]]|].
    destruct (is_migrated db u); cbn [orb]; [split; [done|by intros [h [=]]]|].
    rewrite !elem_of_app, list_elem_of_omap.
    destruct (bool_decide (p ∈ LEGACY_OPEN_TO_ANY_OPERATOR)) eqn:Ho.
    { apply bool_decide_eq_true in Ho. split; [intros _; by eexists | intros _; by right; left]. }
    apply bool_decide_eq_false in Ho.
    assert (Hnd : base.NoDup LEGACY_EQUIVALENT.*1) by (apply (bool_decide_unpack _); vm_compute; exact I).
    split.
    + intros [?|[?|([k l] & Hin & H)]]; [done..|]. simpl in H. split_match H; [|done].
      injection H as ->. apply (table_get_in _ _ _ Hnd) in Hin. rewrite Hin. case_match; [eauto|congruence].
    + intros [h H]. right. right. destruct (table_get LEGACY_EQUIVALENT p) as [l|] eqn:Hl; [|done].
      exists (p, l). split; [by apply table_get_in|]. simpl. by destruct (has_capability u l).
Qed.

(** ** Assignments and the Super Admin floor *)

(** [check_role_at_scope]. *)
Definition check_role_at_scope (r : Role) (n : GeoRow) : bool :=
  negb (bool_decide (g_kind n = KGlobal) && negb (bool_decide (r_code r = SUPER_ADMIN))) &&
  negb (r_global_only r && negb (bool_decide (g_kind n = KGlobal))).

Definition set_assignments (m : gmap Z Assignment) (db : AccessDb) : AccessDb :=
  {| nodes := nodes db; roles := roles db; assignments := m; users := users db;
     strict_mode := strict_mode db |}.

Definition same_triple (a b : Assignment) : bool :=
  (as_admin a =? as_admin b) && (as_role a =? as_role b) && (as_scope a =? as_scope b).

(** [AdminAssignment.save]: the pair of role and scope is checked, and the triple is unique. *)
Definition save_assignment (k : Z) (a : Assignment) (db : AccessDb) : res save_error AccessDb :=
  match joined db a with
  | None => Err ParentMissing
  | Some (r, n) =>
    if check_role_at_scope r n &&
       bool_decide (map_Forall (fun j b => j = k \/ same_triple a b = false) (assignments db))
    then Ok (set_assignments (<[k := a]> (assignments db)) db)
    else Err ValidationError
  end.

(** One row of the [active_super_admin_ids] query. *)
Definition counts_as_super_admin (db : AccessDb) (a : Assignment) : bool :=
  match joined db a, users db !! as_admin a with
  | Some (r, n), Some u =>
    bool_decide (r_code r = SUPER_ADMIN) && bool_decide (g_kind n = KGlobal) &&
    as_active a && r_active r && u_active u && negb (u_break_glass u)
  | _, _ => false
  end.

Definition active_super_admin_ids (db : AccessDb) : list Z :=
  remove_dups (as_admin <$> List.filter (counts_as_super_admin db) (assignment_rows db)).

Definition super_admin_shortfall (db : AccessDb) : Z :=
  Z.max 0 (MIN_SUPER_ADMINS - Z.of_nat (length (active_super_admin_ids db))).

Definition deactivated (a : Assignment) : Assignment :=
  {| as_admin := as_admin a; as_role := as_role a; as_scope := as_scope a; as_active := false |}.

Inductive revoke_error := WouldLeaveTooFewSuperAdmins (left : Z) | AssignmentMissing | SaveFailed (e : save_error).

(** The row makes its holder a Super Admin at Global. *)
Definition named_super_admin (db : AccessDb) (a : Assignment) : bool :=
  match joined db a with
  | Some (r, n) => bool_decide (r_code r = SUPER_ADMIN) && bool_decide (g_kind n = KGlobal) &&
                   as_active a
  | None => false
  end.

(** [revoke_assignment]: the floor is asked of an active Super Admin row only, and only
    blocks going below it from at or above it. *)
Definition revoke_assignment (k : Z) (db : AccessDb) : res revoke_error AccessDb :=
  match assignments db !! k with
  | None => Err AssignmentMissing
  | Some a =>
    let current := active_super_admin_ids db in
    let remaining := List.filter (fun i => negb (i =? as_admin a)) current in
    if named_super_admin db a && (MIN_SUPER_ADMINS <=? Z.of_nat (length current)) &&
       (Z.of_nat (length remaining) <? MIN_SUPER_ADMINS)
    then Err (WouldLeaveTooFewSuperAdmins (Z.of_nat (length remaining)))
    else map_err SaveFailed (save_assignment k (deactivated a) db)
  end.

Lemma elem_of_super_admins db i :
  i ∈ active_super_admin_ids db <->
  exists k a, assignments db !! k = Some a /\ as_admin a = i /\ counts_as_super_admin db a = true.
Proof.
  unfold active_super_admin_ids, assignment_rows. rewrite elem_of_remove_dups, list_elem_of_fmap. split.
  - intros (a & -> & Ha). apply elem_of_filter_b in Ha as [Ha Hc].
    apply list_elem_of_fmap in Ha as ([k a'] & -> & Ha%elem_of_map_to_list). by exists k, a'.
  - intros (k & a & Hk & <- & Hc). exists a. split; [done|]. apply elem_of_filter_b. split; [|done].
    apply list_elem_of_fmap. exists (k, a). split; [done|]. by apply elem_of_map_to_list.
Qed.

Lemma save_assignment_spec k a db db' :
  save_assignment k a db = Ok db' -> db' = set_assignments (<[k := a]> (assignments db)) db.
Proof. unfold save_assignment. intros H. repeat split_match H; by simplify_eq. Qed.

(** A Super Admin survives the deactivation of a row that is not theirs, or is not one
    that made them a Super Admin. *)
Lemma super_admin_survives db k a i :
  assignments db !! k = Some a -> i ∈ active_super_admin_ids db ->
  (i <> as_admin a \/ counts_as_super_admin db a = false) ->
  i ∈ active_super_admin_ids (set_assignments (<[k := deactivated a]> (assignments db)) db).
Proof.
  intros Hk Hi Hor. apply elem_of_super_admins in Hi as (j & b & Hj & <- & Hc).
  apply elem_of_super_admins. exists j, b. split; [|done]. cbn [assignments set_assignments].
  rewrite lookup_insert_ne; [done|]. intros ->. simplify_eq. destruct Hor; congruence.
Qed.

Lemma nodup_length_le {A} (l k : list A) :
  base.NoDup l -> (forall x, x ∈ l -> x ∈ k) -> (length l <= length k)%nat.
Proof. intros Hnd H. by apply submseteq_length, NoDup_submseteq. Qed.

(** Revoking an assignment never takes the platform from at or above two named Super
    Admins to below two; a refusal means exactly two were left and this row is one of
    theirs; and below the floor nothing is refused for it. *)
Theorem super_admin_floor k db :
  match revoke_assignment k db with
  | Ok db' => MIN_SUPER_ADMINS <= Z.of_nat (length (active_super_admin_ids db)) ->
              super_admin_shortfall db' = 0
  | Err (WouldLeaveTooFewSuperAdmins n) =>
      n < MIN_SUPER_ADMINS <= Z.of_nat (length (active_super_admin_ids db)) /\
      exists a, assignments db !! k = Some a /\ as_active a = true
  | Err _ => True
  end.
Proof.
  unfold revoke_assignment. destruct (assignments db !! k) as [a|] eqn:Hk; [|done].
  destruct (named_super_admin db a && _ && _) eqn:Hc.
  - apply andb_true_iff in Hc as [Hc H2]. apply andb_true_iff in Hc as [Hn H1]. bool_cases.
    split; [lia|]. exists a. split; [done|]. revert Hn. unfold named_super_admin. destruct (joined db a) as [[r n]|]; [|done].
    intros Hn. by bool_cases.
  - destruct (save_assignment k (deactivated a) db) as [db'|e] eqn:Hs; [|done]. cbn [map_err].
    apply save_assignment_spec in Hs as ->. unfold super_admin_shortfall.
    set (db' := set_assignments _ db). intros Hfloor.
    enough (2 <= Z.of_nat (length (active_super_admin_ids db'))) by (unfold MIN_SUPER_ADMINS; lia).
    rewrite (proj2 (Z.leb_le _ _) Hfloor), andb_true_r in Hc.
    assert (Hnamed : named_super_admin db a = false -> counts_as_super_admin db a = false).
    { unfold named_super_admin, counts_as_super_admin. destruct (joined db a) as [[r n]|]; [|done].
      destruct (users db !! as_admin a); [|done]. by intros ->. }
    apply andb_false_iff in Hc as [Hc|Hc].
    + assert (length (active_super_admin_ids db) <= length (active_super_admin_ids db'))%nat;
        [|unfold MIN_SUPER_ADMINS in Hfloor; lia].
      apply nodup_length_le; [apply NoDup_remove_dups|]. intros i Hi.
      apply super_admin_survives; [done..|]. right. by apply Hnamed.
    + apply Z.ltb_ge in Hc. unfold MIN_SUPER_ADMINS in Hc. etrans; [exact Hc|].
      apply inj_le, nodup_length_le.
      * apply NoDup_ListNoDup, List.NoDup_filter, NoDup_ListNoDup, NoDup_remove_dups.
      * intros i Hi. apply elem_of_filter_b in Hi as [Hi Hne]. bool_cases.
        apply super_admin_survives; [done..|]. by left.
Qed.

(** ** A concrete deployment *)

(** Saving a list of rows, parents first, as the seed does. *)
Fixpoint save_rows (l : list (Z * GeoRow)) (t : GeoTable) : res save_error GeoTable :=
  match l with
  | [] => Ok t
  | (id, n) :: r => let* t' := save id n t in save_rows r t'
  end.

Lemma reached_rows l t t' : tree_reached t -> save_rows l t = Ok t' -> tree_reached t'.
Proof.
  revert t. induction l as [|[id n] l IH]; intros t Ht H; [by injection H as <-|].
  apply res_bind_ok in H as (t1 & H1 & H). apply (IH t1); [|done]. by apply (reached_save t t1 id n).
Qed.

Definition demo_row (k : node_kind) (code : string) (parent : option Z) : GeoRow :=
  {| g_kind := k; g_code := code; g_name := code; g_parent := parent; g_path := EmptyString;
     g_status := DRAFT |}.

Definition demo_rows : list (Z * GeoRow) :=
  [(1, demo_row KGlobal "GLOBAL" None); (2, demo_row KCountry "IN" (Some 1));
   (3, demo_row KState "IN-TG" (Some 2)); (4, demo_row KCity "IN-TG-HYD" (Some 3));
   (5, demo_row KCountry "US" (Some 1))].

Definition demo_tree : GeoTable :=
  match save_rows demo_rows ∅ with Ok t => t | Err _ => ∅ end.

Lemma demo_reached : tree_reached demo_tree.
Proof. apply (reached_rows demo_rows ∅); [constructor | vm_compute; reflexivity]. Qed.

Lemma demo_slash_free : slash_free demo_tree.
Proof.
  assert (H : map_Forall (fun _ n => slash ∉ chars (g_code n)) demo_tree).
  { apply (bool_decide_unpack _). vm_compute. exact I. }
  exact H.
Qed.

(** Renaming the country moves the paths of its state and of its city. *)
Example rename_moves_subtree :
  (let* t := save 2 (demo_row KCountry "BH" (Some 1)) demo_tree in Ok (g_path <$> t !! 4))
  = Ok (Some "GLOBAL/BH/IN-TG/IN-TG-HYD/")%string.
Proof. vm_compute. reflexivity. Qed.

(** A country cannot be put under a city. *)
Example country_not_under_city :
  save 5 (demo_row KCountry "US" (Some 4)) demo_tree = Err ValidationError.
Proof. vm_compute. reflexivity. Qed.

Definition demo_role : Role :=
  {| r_code := "finance"; r_permissions := ["finance.payout"; "approval.check"];
     r_global_only := false; r_active := true |}.

Definition demo_user (i : Z) (super : bool) : User :=
  {| uid := i; u_authenticated := true; u_superuser := super; u_staff := true; u_role := "admin";
     u_ops_role := None; u_active := true; u_break_glass := false;
     u_label := "ops"; u_email := EmptyString |}.

Definition demo_access : AccessDb :=
  {| nodes := demo_tree; roles := {[ 1 := demo_role ]};
     assignments := {[ 1 := {| as_admin := 7; as_role := 1; as_scope := 2; as_active := true |};
                       2 := {| as_admin := 8; as_role := 1; as_scope := 2; as_active := true |} ]};
     users := {[ 7 := demo_user 7 false; 8 := demo_user 8 false; 9 := demo_user 9 true ]};
     strict_mode := false |}.

Definition demo_node (id : Z) : GeoRow := default (demo_row KGlobal EmptyString None) (demo_tree !! id).

Lemma covers_is_containment_witness :
  covers (demo_node 2) (Some (demo_node 4)) = true /\ under demo_tree 2 4.
Proof.
  assert (H : covers (demo_node 2) (Some (demo_node 4)) = true) by (vm_compute; reflexivity).
  split; [exact H|].
  apply (proj2 (proj1 (covers_is_containment demo_tree demo_reached) 2 4
           (demo_node 2) (demo_node 4) ltac:(vm_compute; reflexivity) ltac:(vm_compute; reflexivity)) demo_slash_free). exact H.
Defined.

(** [full_clean] accepts a slash in a code, and then the test is wrong: two countries side by side,
    of which the first covers the second.  Only the console's form for new places and the seed
    keep slashes out. *)
Lemma slash_crosses_borders :
  let t := match save 6 (demo_row KCountry "IN/X" (Some 1)) demo_tree with Ok t => t | Err _ => ∅ end in
  tree_reached t /\ covers (demo_node 2) (t !! 6) = true /\ g_path <$> t !! 2 = Some (g_path (demo_node 2)) /\ ~ under t 2 6.
Proof.
  set (t := match save 6 (demo_row KCountry "IN/X"%string (Some 1)) demo_tree with Ok t => t | Err _ => ∅ end).
  split; [apply (reached_save demo_tree t 6 (demo_row KCountry "IN/X" (Some 1)) demo_reached); vm_compute; reflexivity|].
  split; [vm_compute; reflexivity|]. split; [vm_compute; reflexivity|].
  intros H. inversion H as [|b p nb Hb Hp Hu]; subst. vm_compute in Hb. injection Hb as <-. injection Hp as <-.
  inversion Hu as [|b q nc Hc Hq Hv]; subst. vm_compute in Hc. injection Hc as <-. discriminate Hq.
Qed.

Lemma demo_new_model : under_new_model demo_access (demo_user 7 false).
Proof. split; [done|]. right. vm_compute. reflexivity. Qed.

(** User 7 may pay out in Hyderabad, and through an assignment at India. *)
Lemma granted_by_containment_witness :
  is_operator (Some (demo_user 7 false)) = true /\
  (u_superuser (demo_user 7 false) = true \/ assigned_at demo_access (demo_user 7 false) "finance.payout" 4 \/
   exempted demo_access (demo_user 7 false) "finance.payout") /\
  ~ exempted demo_access (demo_user 7 false) "finance.payout".
Proof.
  assert (H : granted demo_access (demo_user 7 false) "finance.payout" (Some (demo_node 4)) = Ok (true, by_new)) by (vm_compute; reflexivity).
  destruct (proj1 (granted_by_containment demo_access (demo_user 7 false) "finance.payout" 4 (demo_node 4)
    true by_new demo_reached demo_slash_free ltac:(apply (bool_decide_unpack _); vm_compute; exact I) ltac:(vm_compute; reflexivity) H) eq_refl) as [H1 H2].
  split; [exact H1|]. split; [exact H2|]. intros (_ & E & _). vm_compute in E. discriminate E.
Defined.

(** Rows are nodes of the tree themselves; user 7 works in India. *)
Lemma lists_agree_with_details_witness :
  let anchors n := [Some (g_path (demo_node n))] in
  4 ∈ scoped demo_access (demo_user 7 false) [2; 4; 5] anchors (fun _ => false).
Proof.
  intros anchors.
  apply (lists_agree_with_details demo_access (demo_user 7 false) "finance.payout" [2; 4; 5]
    anchors (fun _ => false) 4) with (n := demo_node 4).
  - apply (bool_decide_unpack _). vm_compute. exact I.
  - apply demo_new_model.
  - apply (bool_decide_unpack _). vm_compute. exact I.
  - vm_compute. reflexivity.
  - apply (bool_decide_unpack _). vm_compute. exact I.
Defined.

Lemma capabilities_match_granted_witness :
  ("pricing.write" ∈ capabilities_of demo_access (demo_user 5 false))%string.
Proof.
  apply (capabilities_match_granted demo_access (demo_user 5 false) "pricing.write").
  - apply (bool_decide_unpack _). vm_compute. exact I.
  - exists by_legacy. vm_compute. reflexivity.
Defined.

(** With two Super Admins, revoking either is refused. *)
Definition demo_super : Role :=
  {| r_code := SUPER_ADMIN; r_permissions := ALL_PERMISSIONS; r_global_only := true; r_active := true |}.

Example floor_refuses :
  revoke_assignment 1
    {| nodes := demo_tree; roles := {[ 1 := demo_super ]};
       assignments := {[ 1 := {| as_admin := 7; as_role := 1; as_scope := 1; as_active := true |};
                         2 := {| as_admin := 8; as_role := 1; as_scope := 1; as_active := true |} ]};
       users := {[ 7 := demo_user 7 false; 8 := demo_user 8 false ]}; strict_mode := true |}
  = Err (WouldLeaveTooFewSuperAdmins 1).
Proof. vm_compute. reflexivity. Qed.
