(* ===== verification/Json.v ===== *)
(** * Json: decoded JSON and Python's canonical dump of it

    The values [JSONField]s hold, and [json.dumps(v, sort_keys=True,
    separators=(',', ':'))] with Python's ASCII escapes, which the audit chain hashes.
    Floating point numbers do not occur in the modelled payloads and are left out.  The
    dump is uniquely decodable: where one value's text ends is determined by the text. *)

From Stdlib Require Import Ascii.
From S2P Require Import Prelude PyText.
#[local] Open Scope Z_scope.
#[local] Open Scope string_scope.

(** ** Values *)

Inductive json :=
| JNull
| JBool (b : bool)
| JInt (z : Z)
| JStr (s : string)
| JList (l : list json)
| JObj (l : list (string * json)).

(** Python's truth value of a decoded JSON value. *)
Definition json_truthy (j : json) : bool :=
  match j with
  | JNull => false
  | JBool b => b
  | JInt z => negb (z =? 0)%Z
  | JStr s => negb (bool_decide (s = EmptyString))
  | JList l => match l with [] => false | _ => true end
  | JObj l => match l with [] => false | _ => true end
  end.

(** A decoded object; [dict_get] is [d.get(k)]. *)
Notation payload_dict := (list (string * json)).

Definition dict_get (d : payload_dict) (k : string) : option json :=
  snd <$> List.find (fun e => bool_decide (e.1 = k)) d.

(** ** Text *)

#[local] Close Scope string_scope.
#[local] Open Scope list_scope.

Definition quote : ascii := chr 34.

Definition hex_digit (n : Z) : ascii := if n <? 10 then chr (48 + n) else chr (87 + n).

(** One character inside a JSON string, as [ensure_ascii] writes it. *)
Definition escape (c : ascii) : list ascii :=
  let n := code c in
  if n =? 34 then ["\"%char; quote]
  else if n =? 92 then ["\"; "\"]%char
  else if n =? 8 then ["\"; "b"]%char
  else if n =? 12 then ["\"; "f"]%char
  else if n =? 10 then ["\"; "n"]%char
  else if n =? 13 then ["\"; "r"]%char
  else if n =? 9 then ["\"; "t"]%char
  else if (32 <=? n) && (n <=? 126) then [c]
  else ["\"; "u"; "0"; "0"]%char ++ [hex_digit (n / 16); hex_digit (n mod 16)].

Definition json_string (s : string) : list ascii := quote :: flat_map escape (chars s) ++ [quote].

(** Keys in code point order; a key is written once per entry, in the order given. *)
Fixpoint insert_key {A : Type} (e : string * A) (l : list (string * A)) : list (string * A) :=
  match l with
  | [] => [e]
  | x :: r => if String.leb e.1 x.1 then e :: l else x :: insert_key e r
  end.

Definition sort_keys {A : Type} (l : list (string * A)) : list (string * A) := foldr insert_key [] l.

(** ["k":v] for every entry, and items joined by commas. *)
Definition member (e : string * list ascii) : list ascii := json_string e.1 ++ [":"%char] ++ e.2.

Fixpoint comma_join (l : list (list ascii)) : list ascii :=
  match l with
  | [] => []
  | [x] => x
  | x :: r => x ++ [","%char] ++ comma_join r
  end.

Fixpoint dumps (j : json) : list ascii :=
  match j with
  | JNull => chars "null"
  | JBool true => chars "true"
  | JBool false => chars "false"
  | JInt z => chars (number z)
  | JStr s => json_string s
  | JList l => ["["%char] ++ comma_join (List.map dumps l) ++ ["]"%char]
  | JObj l => ["{"%char] ++ comma_join (List.map member (sort_keys (List.map (fun e => (e.1, dumps e.2)) l))) ++ ["}"%char]
  end.

Example dumps_sorted :
  of_chars (dumps (JObj [("b", JInt (-2)); ("a", JList [JBool true; JNull])]))%string
  = "{" +:+ of_chars [quote] +:+ "a" +:+ of_chars [quote] +:+ ":[true,null]," +:+ of_chars [quote] +:+ "b"
    +:+ of_chars [quote] +:+ ":-2}".
Proof. vm_compute. reflexivity. Qed.

(** ** Unique decoding *)

Fixpoint prefixb (l k : list ascii) : bool :=
  match l, k with
  | [], _ => true
  | a :: l, b :: k => Ascii.eqb a b && prefixb l k
  | _, [] => false
  end.

Lemma prefixb_app l k x y : l ++ x = k ++ y -> prefixb l k = true \/ prefixb k l = true.
Proof.
  revert k. induction l as [|a l IH]; intros [|b k]; cbn; auto.
  intros [= -> H]. rewrite Ascii.eqb_refl. cbn. by apply IH.
Qed.

Definition all_ascii : list ascii := (fun n => Ascii.ascii_of_nat n) <$> seq 0 256.

Lemma all_ascii_in (c : ascii) : c ∈ all_ascii.
Proof.
  unfold all_ascii. apply list_elem_of_fmap. exists (Ascii.nat_of_ascii c).
  rewrite Ascii.ascii_nat_embedding. split; [done|]. apply elem_of_seq.
  pose proof (Ascii.nat_ascii_bounded c). lia.
Qed.

(** The escape of one character starts no other's, and neither it nor the quote starts the other. *)
Definition escape_apart (a b : ascii) : bool := Ascii.eqb a b || negb (prefixb (escape a) (escape b)).
Definition escape_unquoted (a : ascii) : bool := negb (prefixb [quote] (escape a)) && negb (prefixb (escape a) [quote]).

Lemma all_ascii_forall (P : ascii -> bool) : forallb P all_ascii = true -> forall a, P a = true.
Proof. intros H a. exact (proj1 (forallb_forall P all_ascii) H a (proj1 (list_elem_of_In _ _) (all_ascii_in a))). Qed.

Lemma escapes_apart (a b : ascii) : escape_apart a b = true.
Proof.
  apply (all_ascii_forall (fun x => escape_apart x b)). revert b.
  apply (all_ascii_forall (fun b => forallb (fun x => escape_apart x b) all_ascii)). vm_compute. reflexivity.
Qed.

Lemma escapes_unquoted (a : ascii) : escape_unquoted a = true.
Proof. apply (all_ascii_forall escape_unquoted). vm_compute. reflexivity. Qed.

Lemma escape_prefix (a b : ascii) x y : escape a ++ x = escape b ++ y -> a = b /\ x = y.
Proof.
  intros H. assert (a = b) as ->; [|by apply app_inv_head in H].
  assert (Hp : forall c d, prefixb (escape c) (escape d) = true -> c = d).
  { intros c d Hcd. pose proof (escapes_apart c d) as Hok. unfold escape_apart in Hok.
    rewrite Hcd, orb_false_r in Hok. by apply Ascii.eqb_eq. }
  apply prefixb_app in H as [H|H]; [by apply Hp|symmetry; by apply Hp].
Qed.

Lemma escape_quote (a : ascii) x y : escape a ++ x <> quote :: y.
Proof.
  intros H. pose proof (escapes_unquoted a) as Hok. unfold escape_unquoted in Hok.
  apply andb_true_iff in Hok as [H1 H2]. change (quote :: y) with ([quote] ++ y) in H.
  apply prefixb_app in H as [H|H]; [by rewrite H in H2|by rewrite H in H1].
Qed.

Lemma escaped_unique (l k : list ascii) x y :
  flat_map escape l ++ quote :: x = flat_map escape k ++ quote :: y -> l = k /\ x = y.
Proof.
  revert k. induction l as [|a l IH]; intros [|b k]; cbn [flat_map app].
  - by intros [= ->].
  - rewrite <- app_assoc. intros H. symmetry in H. by apply escape_quote in H.
  - rewrite <- app_assoc. intros H. by apply escape_quote in H.
  - rewrite <- !app_assoc. intros [-> H]%escape_prefix. by apply IH in H as [-> ->].
Qed.

Lemma json_string_unique (s t : string) x y :
  json_string s ++ x = json_string t ++ y -> s = t /\ x = y.
Proof.
  unfold json_string. cbn [app]. rewrite <- !app_assoc. cbn [app]. intros [= H].
  apply escaped_unique in H as [H ->]. split; [by apply chars_inj|done].
Qed.

(** What follows a value inside a list or an object or on its line, or nothing. *)
Definition stops (r : list ascii) : Prop :=
  match r with [] => True | c :: _ => c ∈ [","; "]"; "}"; "010"]%char end.

Lemma stops_not_digit r c : stops r -> head r = Some c -> is_digit c = false.
Proof.
  destruct r as [|d r]; [done|]. cbn. intros H [= ->].
  repeat (apply elem_of_cons in H as [->|H]; [done|]). by apply not_elem_of_nil in H.
Qed.

Definition decodes (j : json) : Prop := forall j2 r1 r2,
  stops r1 -> stops r2 -> dumps j ++ r1 = dumps j2 ++ r2 -> dumps j = dumps j2 /\ r1 = r2.

(** The first character of a dump gives its shape away. *)
Definition json_shape (j : json) : nat :=
  match j with
  | JNull => 0 | JBool true => 1 | JBool false => 2 | JInt _ => 3 | JStr _ => 4 | JList _ => 5 | JObj _ => 6
  end.

Definition char_shape (c : ascii) : nat :=
  let n := code c in
  if n =? 110 then 0 else if n =? 116 then 1 else if n =? 102 then 2 else if n =? 34 then 4
  else if n =? 91 then 5 else if n =? 123 then 6 else if n =? 93 then 7 else 3.

Lemma digit_shape c : is_digit c = true -> char_shape c = 3%nat.
Proof.
  unfold is_digit, char_shape. intros H. bool_cases.
  repeat (rewrite (proj2 (Z.eqb_neq _ _)) by lia). done.
Qed.

Lemma dumps_head j : exists c r, dumps j = c :: r /\ char_shape c = json_shape j.
Proof.
  destruct j as [|[]|z|s|l|l]; cbn [dumps json_shape]; try (by eexists _, _).
  unfold number. rewrite chars_of_chars.
  destruct (digits_of_digits (Z.abs z) (Z.abs_nonneg z)) as [Hd Hne].
  destruct (z <? 0); [by eexists _, _|]. cbn [app].
  destruct (digits_of (Z.abs z)) as [|c r]; [done|]. exists c, r. split; [done|].
  apply Forall_cons in Hd as [Hd _]. by apply digit_shape.
Qed.

Lemma dumps_shape j1 j2 r1 r2 : dumps j1 ++ r1 = dumps j2 ++ r2 -> json_shape j1 = json_shape j2.
Proof.
  destruct (dumps_head j1) as (c1 & t1 & -> & <-), (dumps_head j2) as (c2 & t2 & -> & <-). by intros [= -> _].
Qed.

(** Comma separated items up to a closing bracket. *)
Lemma items_unique (e : ascii) (l k : list (list ascii)) r1 r2 :
  e = "]"%char \/ e = "}"%char ->
  (forall x y a b, x ∈ l -> y ∈ k -> stops a -> stops b -> x ++ a = y ++ b -> x = y /\ a = b) ->
  (forall x, x ∈ l \/ x ∈ k -> exists c t, x = c :: t /\ c <> e) ->
  comma_join l ++ e :: r1 = comma_join k ++ e :: r2 -> l = k /\ r1 = r2.
Proof.
  intros He. assert (Hstop : forall r, stops (e :: r)) by (intros r; cbn; destruct He as [-> | ->]; set_solver).
  assert (Hcomma : e <> ","%char) by (by destruct He as [-> | ->]).
  revert k. induction l as [|x l IH]; intros [|y k] Hu Hh H.
  - by injection H as ->.
  - exfalso. destruct (Hh y) as (c & t & -> & Hc); [set_solver|]. cbn in H. destruct k; injection H as H _; congruence.
  - exfalso. destruct (Hh x) as (c & t & -> & Hc); [set_solver|]. cbn in H. destruct l; injection H as H _; congruence.
  - assert (Hsplit : forall z m r, comma_join (z :: m) ++ e :: r =
              z ++ (match m with [] => e :: r | _ => ","%char :: comma_join m ++ e :: r end)).
    { intros z [|w m] r; cbn; [done|]. by rewrite <- app_assoc. }
    rewrite !Hsplit in H. apply Hu in H as [-> H]; [|set_solver|set_solver| |].
    2: { destruct l; [apply Hstop|cbn; set_solver]. }
    2: { destruct k; [apply Hstop|cbn; set_solver]. }
    destruct l as [|x' l], k as [|y' k].
    + by injection H as ->.
    + by injection H as H _.
    + by injection H as H _.
    + apply (f_equal (@tail ascii)) in H. cbn [tail] in H. apply IH in H as [-> ->]; [done| |].
      * intros. eapply Hu; try done; set_solver.
      * intros z Hz. apply Hh. set_solver.
Qed.

(** Induction under lists and objects. *)
Lemma json_nested_ind (P : json -> Prop) :
  P JNull -> (forall b, P (JBool b)) -> (forall z, P (JInt z)) -> (forall s, P (JStr s)) ->
  (forall l, Forall P l -> P (JList l)) -> (forall l, Forall (fun e => P e.2) l -> P (JObj l)) ->
  forall j, P j.
Proof.
  intros Hn Hb Hi Hs Hl Ho. fix IH 1. intros [|b|z|s|l|l]; [done|apply Hb|apply Hi|apply Hs| |].
  - apply Hl. induction l as [|x l IHl]; constructor; [apply IH|exact IHl].
  - apply Ho. induction l as [|[k x] l IHl]; constructor; [apply IH|exact IHl].
Qed.

Lemma insert_member_perm {A} (e : string * A) l : insert_key e l ≡ₚ e :: l.
Proof.
  induction l as [|x l IH]; cbn; [done|]. destruct (String.leb _ _); [done|]. rewrite IH. apply Permutation_swap.
Qed.

Lemma sort_members_perm {A} (l : list (string * A)) : sort_keys l ≡ₚ l.
Proof. induction l as [|e l IH]; cbn; [done|]. by rewrite insert_member_perm, IH. Qed.

(** The entries of an object, dumped and sorted. *)
Definition dumped (l : list (string * json)) : list (string * list ascii) :=
  sort_keys (List.map (fun e => (e.1, dumps e.2)) l).

Lemma elem_of_dumped l k t : (k, t) ∈ dumped l <-> exists v, (k, v) ∈ l /\ t = dumps v.
Proof.
  unfold dumped. rewrite sort_members_perm, list_elem_of_In, in_map_iff. split.
  - intros ([k' v] & [= <- <-] & Hin). exists v. split; [by apply list_elem_of_In|done].
  - intros (v & Hin & ->). exists (k, v). split; [done|by apply list_elem_of_In].
Qed.

Lemma member_unique k1 t1 k2 t2 a b :
  member (k1, t1) ++ a = member (k2, t2) ++ b -> k1 = k2 /\ t1 ++ a = t2 ++ b.
Proof.
  unfold member. cbn [fst snd]. rewrite <- !app_assoc. intros [-> H]%json_string_unique.
  split; [done|]. by injection H.
Qed.

Lemma members_unique l1 l2 r1 r2 :
  Forall (fun e => decodes e.2) l1 ->
  comma_join (List.map member (dumped l1)) ++ "}"%char :: r1 =
  comma_join (List.map member (dumped l2)) ++ "}"%char :: r2 ->
  dumped l1 = dumped l2 /\ r1 = r2.
Proof.
  intros Hd H. apply items_unique in H as [H ->]; [|by right| |].
  - split; [|done]. revert H. generalize (dumped l1) (dumped l2). clear.
    induction l as [|[k t] l IH]; intros [|[k' t'] m]; cbn [List.map]; try done. intros H.
    apply (f_equal (fun x => (head x, tail x))) in H. cbn [head tail] in H. apply pair_eq in H as [H1 H2].
    apply (inj Some) in H1. rewrite (IH _ H2).
    assert (member (k, t) ++ [] = member (k', t') ++ []) as H by (by rewrite !app_nil_r).
    apply member_unique in H as [-> H]. rewrite !app_nil_r in H. by rewrite H.
  - intros x y a b Hx Hy Ha Hb Heq.
    rewrite list_elem_of_In, in_map_iff in Hx. destruct Hx as ([k1 t1] & <- & Hx).
    rewrite list_elem_of_In, in_map_iff in Hy. destruct Hy as ([k2 t2] & <- & Hy).
    rewrite <- list_elem_of_In, elem_of_dumped in Hx, Hy.
    destruct Hx as (v1 & Hv1 & ->), Hy as (v2 & Hv2 & ->).
    apply member_unique in Heq as [-> Heq]. rewrite Forall_forall in Hd.
    destruct (Hd _ Hv1 v2 a b Ha Hb Heq) as [Ht ->]. cbn [snd] in Ht. by rewrite Ht.
  - intros x Hx.
    assert (Hm : exists e, x = member e).
    { destruct Hx as [Hx|Hx]; rewrite list_elem_of_In, in_map_iff in Hx; destruct Hx as (e & <- & _); by exists e. }
    destruct Hm as [e ->]. by eexists _, _.
Qed.

Lemma dumps_decodes j : decodes j.
Proof.
  induction j as [|b|z|s|l IH|l IH] using json_nested_ind; intros j2 r1 r2 H1 H2 H;
    pose proof (dumps_shape _ _ _ _ H) as Hs;
    (destruct j2 as [|b2|z2|s2|l2|l2]; cbn [json_shape] in Hs; try (by repeat case_match)).
  - cbn in H. by injection H.
  - destruct b, b2; [|done|done|]; cbn in H; by injection H.
  - cbn [dumps] in *. apply number_inj in H as [-> ->]; [done|by intros c; apply stops_not_digit|by intros c; apply stops_not_digit].
  - cbn [dumps] in *. by apply json_string_unique in H as [-> ->].
  - cbn [dumps] in *. rewrite <- !app_assoc in H. cbn [app] in H. injection H as H.
    apply items_unique in H as [H ->]; [|by left| |].
    + by rewrite H.
    + intros x y a b Hx Hy Ha Hb Heq. rewrite list_elem_of_In, in_map_iff in Hx.
      destruct Hx as (v1 & <- & Hx). rewrite list_elem_of_In, in_map_iff in Hy. destruct Hy as (v2 & <- & _).
      rewrite Forall_forall in IH. apply (IH v1); [by apply list_elem_of_In|done..].
    + intros x Hx. assert (Hv : exists v, x = dumps v).
      { destruct Hx as [Hx|Hx]; rewrite list_elem_of_In, in_map_iff in Hx; destruct Hx as (v & <- & _); by exists v. }
      destruct Hv as [v ->]. destruct (dumps_head v) as (c & t & -> & Hc). exists c, t. split; [done|].
      intros ->. cbn in Hc. by destruct v as [|[]| | | |].
  - cbn [dumps] in *. fold (dumped l) (dumped l2) in H. fold (dumped l) (dumped l2).
    rewrite <- !app_assoc in H. cbn [app] in H. injection H as H.
    apply members_unique in H as [H ->]; [by rewrite H|done].
Qed.

(** Two objects with the same dump have the same dumped entries. *)
Lemma dumps_obj_entries l1 l2 : dumps (JObj l1) = dumps (JObj l2) -> dumped l1 = dumped l2.
Proof.
  cbn [dumps]. fold (dumped l1) (dumped l2). cbn [app]. intros [= H].
  apply (members_unique l1 l2 [] []) in H as [-> _]; [done|].
  apply Forall_forall. intros e _. apply dumps_decodes.
Qed.

(** Lookup survives sorting. *)
Lemma find_insert_key {A} k (e : string * A) l :
  List.find (fun x => bool_decide (x.1 = k)) (insert_key e l) =
  (if bool_decide (e.1 = k) then Some e else List.find (fun x => bool_decide (x.1 = k)) l).
Proof.
  induction l as [|x l IH]; [done|]. cbn [insert_key]. destruct (String.leb e.1 x.1) eqn:Hle; [done|].
  cbn [List.find]. rewrite IH. destruct (bool_decide (e.1 = k)) eqn:E1; [|done].
  apply bool_decide_eq_true in E1 as <-. rewrite bool_decide_eq_false_2; [done|].
  intros E. rewrite E in Hle. unfold String.leb in Hle.
  assert (Hr : forall s, String.compare s s = Eq).
  { induction s as [|c s IHs]; [done|]. cbn. unfold Ascii.compare. by rewrite N.compare_refl. }
  by rewrite Hr in Hle.
Qed.

Lemma dumped_get l k :
  snd <$> List.find (fun x => bool_decide (x.1 = k)) (dumped l) = dumps <$> dict_get l k.
Proof.
  unfold dumped, dict_get. induction l as [|[k' v] l IH]; [done|]. cbn [List.map sort_keys foldr].
  fold (sort_keys (List.map (fun e : string * json => (e.1, dumps e.2)) l)).
  rewrite find_insert_key. cbn [fst List.find]. by destruct (bool_decide (k' = k)).
Qed.

(** The canonical dump determines an object's entries: two objects with the same
    dump answer every key with values of the same dump. *)
Lemma dumps_get l1 l2 k :
  dumps (JObj l1) = dumps (JObj l2) -> dumps <$> dict_get l1 k = dumps <$> dict_get l2 k.
Proof. intros H%dumps_obj_entries. by rewrite <- !dumped_get, H. Qed.
