(* ===== verification/HashChain.v ===== *)
(** * HashChain: the audit log and its tamper evidence

    [servers/admin_audit/hashchain.py], the linking of new rows in
    [servers/admin_audit/models.py], and [record_admin_action] of
    [servers/admin_audit/services.py].

    A table is the list of its rows in id order.  SHA-256 is a parameter [sha256], from the
    bytes hashed to the hex digest; what is assumed of it is that a digest is 64
    hexadecimal digits.  No theorem assumes that it has no collisions: where the argument
    needs that, the conclusion says "or these two hashed texts collide".  The free text in a problem's
    [detail] is left out; its issue, row and time are kept. *)

From Stdlib Require Import Ascii.
From S2P Require Import Prelude PyText Access Json.
#[local] Open Scope Z_scope.

(** ** Rows *)

Definition GENESIS : string := of_chars (replicate 64 "0"%char).

Definition ANCHOR_ACTION : string := "chain_anchor"%string.
Definition ANCHOR_TARGET_TYPE : string := "audit_chain"%string.

(** A row of [AdminAuditLog]; [created_at] is its ISO-8601 text. *)
Record Entry := {
  e_id : Z;
  e_actor_id : option Z;
  e_actor_label : string;
  e_actor_email : string;
  e_actor_role : string;
  e_action : string;
  e_target_type : string;
  e_target_id : string;
  e_before : payload_dict;
  e_after : payload_dict;
  e_reason : string;
  e_ip : option string;
  e_agent : string;
  e_created : string;
  e_previous_hash : string;
  e_content_hash : string
}.

(** ** The canonical form *)

(** [_normalise] by the type of the column. *)
Definition normalise_int (v : option Z) : string := default EmptyString (number <$> v).
Definition normalise_text (v : option string) : string := default EmptyString v.
Definition normalise_dict (v : payload_dict) : string := of_chars (dumps (JObj v)).

(** [HASHED_FIELDS], each with the normalised value of a row. *)
Definition HASHED_FIELDS : list (string * (Entry -> string)) :=
  [("actor_id"%string, fun e => normalise_int (e_actor_id e));
   ("actor_label"%string, e_actor_label);
   ("action"%string, e_action);
   ("target_type"%string, e_target_type);
   ("target_id"%string, e_target_id);
   ("before"%string, fun e => normalise_dict (e_before e));
   ("after"%string, fun e => normalise_dict (e_after e));
   ("reason"%string, e_reason);
   ("ip_address"%string, fun e => normalise_text (e_ip e));
   ("user_agent"%string, e_agent);
   ("created_at"%string, e_created);
   ("actor_email"%string, e_actor_email);
   ("actor_role"%string, e_actor_role)].

Definition OPTIONAL_FIELDS : list string := ["actor_email"; "actor_role"]%string.

(** An optional field with no value is left out. *)
Definition skipped (field value : string) : bool :=
  bool_decide (field ∈ OPTIONAL_FIELDS) && bool_decide (value = EmptyString).

Definition parts_of (fields : list (string * (Entry -> string))) (e : Entry) : payload_dict :=
  omap (fun f => if skipped f.1 (f.2 e) then None else Some (f.1, JStr (f.2 e))) fields.

Definition canonical_content (e : Entry) : list ascii := dumps (JObj (parts_of HASHED_FIELDS e)).

(** [str.encode('utf-8')] of code points below 256. *)
Definition utf8_char (c : ascii) : list ascii :=
  if code c <? 128 then [c] else [chr (192 + code c / 64); chr (128 + code c mod 64)].

Definition encode (l : list ascii) : list ascii := flat_map utf8_char l.

Definition is_anchor (e : Entry) : bool :=
  bool_decide (e_action e = ANCHOR_ACTION) && bool_decide (e_target_type e = ANCHOR_TARGET_TYPE).

(** [text or default] *)
Definition or_text (s d : string) : string := if bool_decide (s = EmptyString) then d else s.

Definition hashed (e : Entry) : bool := negb (bool_decide (e_content_hash e = EmptyString)).

Definition newline : ascii := chr 10.

(** What [pre_chain_digest] feeds to the hash. *)
Definition run_bytes (rows : list Entry) : list ascii :=
  flat_map (fun e => (encode (canonical_content e) ++ [newline])%list) rows.

(** ** Problems and reports *)

Inductive Issue :=
| UnhashedRow
| BrokenLink
| ContentAltered
| SecondAnchor
| AnchorMismatch
| UnanchoredRows.

Record Problem := { p_id : option Z; p_created : option string; p_issue : Issue }.

(** What the walk carries from row to row; [pre_bytes] is what [pre_digest] was fed. *)
Record Walk := {
  problems : list Problem;
  checked : Z;
  expected_previous : string;
  pre_count : Z;
  pre_first_id : option Z;
  pre_last_id : option Z;
  pre_last_created : option string;
  pre_bytes : list ascii;
  chain_started : bool;
  anchor : option Entry
}.

Definition walk_start : Walk :=
  {| problems := []; checked := 0; expected_previous := GENESIS; pre_count := 0; pre_first_id := None;
     pre_last_id := None; pre_last_created := None; pre_bytes := []; chain_started := false; anchor := None |}.

Record PreChain := { pc_rows : Z; pc_first_id : option Z; pc_last_id : option Z; pc_anchor_id : option Z }.

Record Report := { r_checked : Z; r_problems : list Problem; r_pre_chain : option PreChain }.

(** [stored.get(key) == value] for an integer (or None) and for a text. *)
Definition json_is_int (j : option json) (v : option Z) : bool :=
  match j, v with
  | (None | Some JNull), None => true
  | Some (JInt z), Some n => z =? n
  | Some (JBool b), Some n => Z.b2z b =? n
  | _, _ => false
  end.

Definition json_is_text (j : option json) (s : string) : bool :=
  match j with Some (JStr t) => bool_decide (t = s) | _ => false end.

Section chain.

Context (sha256 : list ascii -> string).

Definition compute_hash (previous_hash : string) (e : Entry) : string :=
  sha256 (encode (chars (or_text previous_hash GENESIS)) ++ encode (canonical_content e))%list.

Definition pre_chain_digest (rows : list Entry) : string := sha256 (run_bytes rows).

(** ** Reading the chain *)

Definition problem (e : Entry) (i : Issue) : Problem :=
  {| p_id := Some (e_id e); p_created := Some (e_created e); p_issue := i |}.

(** [claimed == actual] for the first anchor met. *)
Definition claims_match (e : Entry) (count : Z) (last_id : option Z) (bytes : list ascii) : bool :=
  json_is_int (dict_get (e_after e) "pre_chain_rows"%string) (Some count) &&
  json_is_int (dict_get (e_after e) "pre_chain_max_id"%string) last_id &&
  json_is_text (dict_get (e_after e) "pre_chain_digest"%string) (sha256 bytes).

(** The problems one hashed row adds. *)
Definition row_problems (w : Walk) (e : Entry) : list Problem :=
  (if bool_decide (e_previous_hash e = expected_previous w) then [] else [problem e BrokenLink]) ++
  (if bool_decide (compute_hash (e_previous_hash e) e = e_content_hash e) then [] else [problem e ContentAltered]) ++
  (if is_anchor e then
     match anchor w with
     | Some _ => [problem e SecondAnchor]
     | None => if claims_match e (pre_count w) (pre_last_id w) (pre_bytes w) then []
               else [problem e AnchorMismatch]
     end
   else []).

(** One turn of the loop. *)
Definition walk_step (w : Walk) (e : Entry) : Walk :=
  if negb (hashed e) then
    if chain_started w then
      {| problems := problems w ++ [problem e UnhashedRow]; checked := checked w + 1;
         expected_previous := expected_previous w; pre_count := pre_count w; pre_first_id := pre_first_id w;
         pre_last_id := pre_last_id w; pre_last_created := pre_last_created w; pre_bytes := pre_bytes w;
         chain_started := chain_started w; anchor := anchor w |}
    else
      {| problems := problems w; checked := checked w + 1;
         expected_previous := expected_previous w; pre_count := pre_count w + 1;
         pre_first_id := match pre_first_id w with None => Some (e_id e) | Some i => Some i end;
         pre_last_id := Some (e_id e); pre_last_created := Some (e_created e);
         pre_bytes := (pre_bytes w ++ encode (canonical_content e) ++ [newline])%list;
         chain_started := chain_started w; anchor := anchor w |}
  else
    {| problems := problems w ++ row_problems w e; checked := checked w + 1;
       expected_previous := e_content_hash e; pre_count := pre_count w; pre_first_id := pre_first_id w;
       pre_last_id := pre_last_id w; pre_last_created := pre_last_created w; pre_bytes := pre_bytes w;
       chain_started := true;
       anchor := if is_anchor e then match anchor w with Some a => Some a | None => Some e end else anchor w |}.

Definition walk (w : Walk) (rows : list Entry) : Walk := foldl walk_step w rows.

(** The report; [limit = 0] stands for no limit, as [if limit] reads it. *)
Definition inspect_chain (table : list Entry) (limit : nat) : Report :=
  let rows := match limit with O => table | _ => take limit table end in
  let w := walk walk_start rows in
  let walked_past_the_run := negb (negb (Nat.eqb limit 0) && (pre_count w =? checked w)) in
  let unanchored :=
    negb (pre_count w =? 0) && (match anchor w with None => true | _ => false end) && walked_past_the_run in
  {| r_checked := checked w;
     r_problems := problems w ++
       (if unanchored then [{| p_id := pre_last_id w; p_created := pre_last_created w; p_issue := UnanchoredRows |}]
        else []);
     r_pre_chain := if pre_count w =? 0 then None
       else Some {| pc_rows := pre_count w; pc_first_id := pre_first_id w; pc_last_id := pre_last_id w;
                    pc_anchor_id := e_id <$> anchor w |} |}.

Definition verify_chain (table : list Entry) (limit : nat) : Z * list Problem :=
  let report := inspect_chain table limit in (r_checked report, r_problems report).

(** ** Writing rows *)

Definition with_hashes (e : Entry) (previous content : string) : Entry :=
  {| e_id := e_id e; e_actor_id := e_actor_id e; e_actor_label := e_actor_label e;
     e_actor_email := e_actor_email e; e_actor_role := e_actor_role e; e_action := e_action e;
     e_target_type := e_target_type e; e_target_id := e_target_id e; e_before := e_before e;
     e_after := e_after e; e_reason := e_reason e; e_ip := e_ip e; e_agent := e_agent e;
     e_created := e_created e; e_previous_hash := previous; e_content_hash := content |}.

(** The newest row's stored hash, GENESIS where there is no row or it stores none. *)
Definition tail_hash (table : list Entry) : string :=
  or_text (default EmptyString (e_content_hash <$> last table)) GENESIS.

Definition link_into_chain (table : list Entry) (e : Entry) : Entry :=
  let previous := tail_hash table in with_hashes e previous (compute_hash previous e).

Inductive SaveError := AuditLogIsAppendOnly | DuplicateId.

(** The INSERT: the table stays in id order, and an id is used once. *)
Fixpoint insert_row (e : Entry) (table : list Entry) : list Entry :=
  match table with
  | [] => [e]
  | x :: r => if e_id e <? e_id x then e :: table else x :: insert_row e r
  end.

Definition with_id (e : Entry) (id : Z) : Entry :=
  {| e_id := id; e_actor_id := e_actor_id e; e_actor_label := e_actor_label e;
     e_actor_email := e_actor_email e; e_actor_role := e_actor_role e; e_action := e_action e;
     e_target_type := e_target_type e; e_target_id := e_target_id e; e_before := e_before e;
     e_after := e_after e; e_reason := e_reason e; e_ip := e_ip e; e_agent := e_agent e;
     e_created := e_created e; e_previous_hash := e_previous_hash e; e_content_hash := e_content_hash e |}.

(** [save]: [pk] is the instance's id, [next_id] what the sequence would hand out. *)
Definition save (table : list Entry) (next_id : Z) (pk : option Z) (force_insert : bool) (e : Entry) :
  res SaveError (list Entry * Entry) :=
  let* _ := require (match pk with Some _ => force_insert | None => true end) AuditLogIsAppendOnly in
  let linked := if hashed e then e else link_into_chain table e in
  let row := with_id linked (default next_id pk) in
  let* _ := require (negb (existsb (fun x => e_id x =? e_id row) table)) DuplicateId in
  Ok (insert_row row table, row).

(** [write_anchor]: the row that vouches for the unhashed rows already there. *)
Inductive ChainStateError := AlreadyAnchored | UnhashedAfterHashed (id first_hashed : Z).

Definition anchor_reason (n : Z) : string :=
  ("Hash chain started. The " +:+ number n +:+ " row(s) before this one predate the chain and carry no hash; "
   +:+ "they are protected by the digest in this row, not by being rewritten.")%string.

Definition anchor_after (run : list Entry) : payload_dict :=
  [("pre_chain_rows", JInt (Z.of_nat (length run))); ("pre_chain_first_id", JInt (default 0 (e_id <$> head run)));
   ("pre_chain_max_id", JInt (default 0 (e_id <$> last run))); ("pre_chain_digest", JStr (pre_chain_digest run));
   ("digest", JStr "sha256 over canonical_content of each row in id order, newline-terminated")]%string.

Definition anchor_row (run : list Entry) (id : Z) (label now : string) : Entry :=
  {| e_id := id; e_actor_id := None; e_actor_label := label; e_actor_email := EmptyString;
     e_actor_role := EmptyString; e_action := ANCHOR_ACTION; e_target_type := ANCHOR_TARGET_TYPE;
     e_target_id := EmptyString; e_before := []; e_after := anchor_after run;
     e_reason := anchor_reason (Z.of_nat (length run)); e_ip := None; e_agent := EmptyString; e_created := now;
     e_previous_hash := EmptyString; e_content_hash := EmptyString |}.

Definition write_anchor (table : list Entry) (next_id : Z) (label now : string) :
  res ChainStateError (list Entry * option Entry) :=
  let* _ := require (negb (existsb is_anchor table)) AlreadyAnchored in
  let unhashed := List.filter (fun e => negb (hashed e)) table in
  match last unhashed with
  | None => Ok (table, None)
  | Some newest =>
    let* _ := match head (List.filter hashed table) with
              | Some h => require (negb (e_id h <? e_id newest)) (UnhashedAfterHashed (e_id newest) (e_id h))
              | None => Ok tt
              end in
    let row := link_into_chain table (anchor_row unhashed next_id label now) in
    Ok (insert_row row table, Some row)
  end.

(** ** Recording an action *)

(** What the recorder reads of a request; [rq_ip] is the resolved client address. *)
Record Request := { rq_user : option User; rq_ip : option string; rq_agent : option string }.

Record AuditContext := { cx_actor : option User; cx_label : string; cx_request : option Request }.

Definition resolve_actor (c : AuditContext) : option User :=
  match cx_actor c with
  | Some u => Some u
  | None => match cx_request c ≫= rq_user with
            | Some u => if u_authenticated u then Some u else None
            | None => None
            end
  end.

Definition client_ip_of (request : option Request) : option string := request ≫= rq_ip.

Definition user_agent (request : option Request) : string :=
  String.substring 0 512 (default EmptyString (request ≫= rq_agent)).

Definition actor_label_of (u : option User) : string :=
  default EmptyString ((fun u => String.substring 0 255 (u_label u)) <$> u).

(** The arguments of one call. *)
Record Recorded := {
  rc_action : string; rc_target_type : string; rc_target_id : option string;
  rc_before : option payload_dict; rc_after : option payload_dict; rc_reason : option string
}.

(** The instance the recorder builds, before [save]. *)
Definition recorded_entry (request : option Request) (ctx : option AuditContext) (now : string) (r : Recorded) : Entry :=
  let requester := match request ≫= rq_user with
                   | Some u => if u_authenticated u then Some u else None
                   | None => None
                   end in
  let '(actor, label, request) :=
    match requester, ctx with
    | None, Some c => (resolve_actor c, cx_label c, match request with None => cx_request c | _ => request end)
    | _, _ => (requester, EmptyString, request)
    end in
  let sn := actor_snapshot actor in
  let label := or_text label (actor_label_of actor) in
  {| e_id := 0; e_actor_id := sn_id sn; e_actor_label := or_text label (sn_label sn);
     e_actor_email := sn_email sn; e_actor_role := sn_role sn; e_action := rc_action r;
     e_target_type := rc_target_type r; e_target_id := default EmptyString (rc_target_id r);
     e_before := default [] (rc_before r); e_after := default [] (rc_after r);
     e_reason := String.substring 0 10000 (default EmptyString (rc_reason r));
     e_ip := client_ip_of request; e_agent := user_agent request; e_created := now;
     e_previous_hash := EmptyString; e_content_hash := EmptyString |}.

(** [record_admin_action]: a failed write leaves the table and gives [None]. *)
Definition record_admin_action (table : list Entry) (next_id : Z) (request : option Request)
  (ctx : option AuditContext) (now : string) (r : Recorded) : list Entry * option Entry :=
  match save table next_id None false (recorded_entry request ctx now r) with
  | Ok (table', row) => (table', Some row)
  | Err _ => (table, None)
  end.

(** ** Writers at the same time

    The lock of [_link_into_chain] ends with its own [atomic] block, before the INSERT. *)

Record Writers := { w_table : list Entry; w_linked : list Entry }.

Inductive write_step : Writers -> Writers -> Prop :=
| link_step s e :
    hashed e = false ->
    write_step s {| w_table := w_table s; w_linked := w_linked s ++ [link_into_chain (w_table s) e] |}
| insert_step s l1 e l2 id :
    w_linked s = l1 ++ e :: l2 ->
    (forall x, x ∈ w_table s -> e_id x < id) ->
    write_step s {| w_table := w_table s ++ [with_id e id]; w_linked := l1 ++ l2 |}.


(** ** A reference definition: when a table is well formed *)

(** The hashed rows, each committing to the one before. *)
Fixpoint linked (previous : string) (rows : list Entry) : Prop :=
  match rows with
  | [] => True
  | e :: r => e_previous_hash e = previous /\ compute_hash (e_previous_hash e) e = e_content_hash e /\
              linked (e_content_hash e) r
  end.

(** An anchor's claims about the rows before the chain. *)
Definition vouches (a : Entry) (run : list Entry) : bool :=
  claims_match a (Z.of_nat (length run)) (e_id <$> last run) (run_bytes run).

(** At most one anchor, right about the run; no run without an anchor. *)
Definition anchored (run chain : list Entry) : Prop :=
  match List.filter is_anchor chain with
  | [] => run = []
  | [a] => vouches a run = true
  | _ => False
  end.

Definition well_formed (table : list Entry) : Prop := exists run chain,
  table = run ++ chain /\ Forall (fun e => hashed e = false) run /\ Forall (fun e => hashed e = true) chain /\
  linked GENESIS chain /\ anchored run chain.

End chain.

(** ** The walk, phase by phase *)

Section walk.

Context (sha256 : list ascii -> string).

#[local] Notation walk := (walk sha256).
#[local] Notation walk_step := (walk_step sha256).

(** Splitting a table at its first hashed row. *)
Lemma split_run (table : list Entry) : exists run rest,
  table = run ++ rest /\ Forall (fun e => hashed e = false) run /\
  match rest with [] => True | e :: _ => hashed e = true end.
Proof.
  induction table as [|e t (run & rest & -> & Hr & Hh)]; [by exists [], []|].
  destruct (hashed e) eqn:He.
  - exists [], (e :: run ++ rest). by split_and!.
  - exists (e :: run), rest. split_and!; [done|by constructor|done].
Qed.

(** The state after the run before the chain. *)
Definition run_walk (run : list Entry) : Walk :=
  {| problems := []; checked := Z.of_nat (length run); expected_previous := GENESIS;
     pre_count := Z.of_nat (length run); pre_first_id := e_id <$> head run; pre_last_id := e_id <$> last run;
     pre_last_created := e_created <$> last run; pre_bytes := run_bytes run; chain_started := false;
     anchor := None |}.

Lemma run_bytes_app a b : run_bytes (a ++ b) = (run_bytes a ++ run_bytes b)%list.
Proof. apply flat_map_app. Qed.

Lemma walk_run (run : list Entry) :
  Forall (fun e => hashed e = false) run -> walk walk_start run = run_walk run.
Proof.
  induction run as [|e run IH] using rev_ind; [done|]. intros [Hr He]%Forall_app.
  apply Forall_cons in He as [He _]. unfold HashChain.walk in *. rewrite foldl_app, IH by done. cbn [foldl].
  unfold HashChain.walk_step. rewrite He. cbn [negb]. unfold run_walk. cbn [problems checked expected_previous
    pre_count pre_first_id pre_last_id pre_last_created pre_bytes chain_started anchor].
  rewrite !last_snoc, length_app, run_bytes_app. unfold run_bytes at 3. cbn [flat_map length fmap option_fmap option_map].
  rewrite app_nil_r. f_equal; try lia. by destruct run.
Qed.

(** Past the run, what the walk knows of it stays. *)
Lemma walk_chain_keeps (w : Walk) (l : list Entry) :
  chain_started w = true \/ (match l with [] => True | e :: _ => hashed e = true end) ->
  pre_count (walk w l) = pre_count w /\ pre_last_id (walk w l) = pre_last_id w /\
  pre_bytes (walk w l) = pre_bytes w.
Proof.
  revert w. induction l as [|e l IH]; intros w Hw; [done|]. cbn [HashChain.walk foldl].
  change (foldl walk_step (walk_step w e) l) with (walk (walk_step w e) l).
  destruct (IH (walk_step w e)) as (-> & -> & ->).
  - left. unfold HashChain.walk_step. destruct (hashed e) eqn:He; [done|]. destruct Hw as [Hw|Hw]; [|done]. by rewrite Hw.
  - unfold HashChain.walk_step. destruct (hashed e) eqn:He; [done|]. destruct Hw as [Hw|Hw]; [|done]. by rewrite Hw.
Qed.

(** What the anchors of a chain must satisfy, given the one already met. *)
Definition anchors_fit (w : Walk) (l : list Entry) : Prop :=
  match anchor w, List.filter is_anchor l with
  | _, [] => True
  | None, [a] => claims_match sha256 a (pre_count w) (pre_last_id w) (pre_bytes w) = true
  | _, _ => False
  end.

Lemma row_problems_nil (w : Walk) (e : Entry) :
  row_problems sha256 w e = [] <->
  e_previous_hash e = expected_previous w /\ compute_hash sha256 (e_previous_hash e) e = e_content_hash e /\
  anchors_fit w [e].
Proof.
  unfold row_problems, anchors_fit. cbn [List.filter]. rewrite !app_nil. repeat case_bool_decide; destruct (is_anchor e), (anchor w);
    try case_match; naive_solver.
Qed.

(** From the first hashed row on: nothing more is reported exactly when every row is
    hashed and linked and the anchors fit. *)
Lemma walk_chain (w : Walk) (l : list Entry) :
  chain_started w = true \/ (match l with [] => True | e :: _ => hashed e = true end) ->
  problems (walk w l) = [] <->
  problems w = [] /\ Forall (fun e => hashed e = true) l /\ linked sha256 (expected_previous w) l /\ anchors_fit w l.
Proof.
  revert w. induction l as [|e l IH]; intros w Hw.
  { cbn. unfold anchors_fit. cbn. destruct (anchor w); naive_solver. }
  cbn [HashChain.walk foldl]. change (foldl walk_step (walk_step w e) l) with (walk (walk_step w e) l).
  unfold HashChain.walk_step. destruct (hashed e) eqn:He; cbn [negb].
  - rewrite IH by by left. cbn [problems expected_previous linked]. rewrite app_nil, row_problems_nil, Forall_cons.
    unfold anchors_fit. cbn [anchor List.filter pre_count pre_last_id pre_bytes].
    destruct (is_anchor e), (anchor w), (List.filter is_anchor l) as [|? [|]]; naive_solver.
  - destruct Hw as [Hw|Hw]; [|done]. rewrite Hw. rewrite IH by by left. cbn [problems].
    split; [intros (H & _); by apply app_nil in H as [_ H]|intros (_ & H & _)].
    apply Forall_cons in H as [H _]. congruence.
Qed.

(** The anchor the walk ends with. *)
Lemma walk_anchor (w : Walk) (l : list Entry) :
  Forall (fun e => hashed e = true) l ->
  anchor (walk w l) = match anchor w with Some a => Some a | None => head (List.filter is_anchor l) end.
Proof.
  intros H. revert w. induction H as [|e l He Hl IH]; intros w; [cbn; by destruct (anchor w)|].
  cbn [HashChain.walk foldl]. change (foldl walk_step (walk_step w e) l) with (walk (walk_step w e) l).
  rewrite IH. unfold HashChain.walk_step. rewrite He. cbn [negb anchor List.filter]. by destruct (is_anchor e), (anchor w).
Qed.

Lemma walk_app (w : Walk) (a b : list Entry) : walk w (a ++ b) = walk (walk w a) b.
Proof. apply foldl_app. Qed.

Lemma walk_checked (w : Walk) (l : list Entry) : checked (walk w l) = checked w + Z.of_nat (length l).
Proof.
  revert w. induction l as [|e l IH]; intros w; cbn; [lia|].
  change (foldl walk_step (walk_step w e) l) with (walk (walk_step w e) l). rewrite IH.
  unfold HashChain.walk_step. repeat case_match; cbn; lia.
Qed.

Lemma clean_well_formed (table : list Entry) :
  r_problems (inspect_chain sha256 table 0) = [] <-> well_formed sha256 table.
Proof.
  destruct (split_run table) as (run & rest & -> & Hr & Hh).
  unfold inspect_chain. cbn [r_problems Nat.eqb negb andb]. rewrite walk_app, walk_run by done.
  destruct (walk_chain_keeps (run_walk run) rest (or_intror Hh)) as (-> & _ & _).
  rewrite app_nil, walk_chain by by right. cbn [run_walk problems expected_previous pre_count].
  unfold anchors_fit. cbn [run_walk anchor pre_count pre_last_id pre_bytes]. split.
  - intros [(_ & Hc & Hl & Ha) Hu]. exists run, rest. split_and!; [done..|].
    rewrite walk_anchor in Hu by done. cbn [run_walk anchor] in Hu. unfold anchored, vouches.
    destruct (List.filter is_anchor rest) as [|a [|]]; [|done|done].
    cbn [head] in Hu. rewrite !andb_true_r in Hu. by destruct run.
  - intros (run' & chain & Heq & Hr' & Hc & Hl & Ha).
    assert (run = run' /\ rest = chain) as [<- <-].
    { clear -Heq Hr Hh Hr' Hc. revert run' Heq Hr'. induction run as [|e run IH]; intros [|e' run'] Heq Hr'; cbn in *.
      - by subst.
      - subst. apply Forall_cons in Hr' as [Hr' _]. congruence.
      - subst. apply Forall_cons in Hr as [Hr _]. apply Forall_cons in Hc as [Hc _]. congruence.
      - injection Heq as -> Heq. apply Forall_cons in Hr as [_ Hr], Hr' as [_ Hr'].
        by destruct (IH Hr run' Heq Hr') as [-> ->]. }
    unfold anchored, vouches in Ha. rewrite walk_anchor by done. cbn [run_walk anchor].
    destruct (List.filter is_anchor rest) as [|a [|]]; [subst run|..]; split_and!; try done.
    by rewrite andb_false_r.
Qed.

(** The verifier is right about what a healthy log is: a full check reports nothing
    exactly when the table is a run of unhashed rows followed by hashed rows, each
    hashing to what it stores and linked to the row before, with at most one anchor,
    whose count, last id and digest are those of the run, and no run without an anchor. *)
Theorem clean_iff_well_formed (table : list Entry) :
  verify_chain sha256 table 0 = (Z.of_nat (length table), []) <-> well_formed sha256 table.
Proof.
  rewrite <- clean_well_formed. unfold verify_chain. split; [by intros [= _ H]|]. intros H. rewrite H.
  f_equal. unfold inspect_chain. cbn [r_checked]. by rewrite walk_checked.
Qed.

End walk.

(** ** What the canonical form commits to *)

(** Two rows that tell the same: every hashed column equal, payloads up to the order of
    their keys, an absent address like an empty one.  The id and the hashes are not
    content. *)
Record same_content (a b : Entry) : Prop := {
  sc_actor_id : e_actor_id a = e_actor_id b;
  sc_actor_label : e_actor_label a = e_actor_label b;
  sc_actor_email : e_actor_email a = e_actor_email b;
  sc_actor_role : e_actor_role a = e_actor_role b;
  sc_action : e_action a = e_action b;
  sc_target_type : e_target_type a = e_target_type b;
  sc_target_id : e_target_id a = e_target_id b;
  sc_before : dumps (JObj (e_before a)) = dumps (JObj (e_before b));
  sc_after : dumps (JObj (e_after a)) = dumps (JObj (e_after b));
  sc_reason : e_reason a = e_reason b;
  sc_ip : normalise_text (e_ip a) = normalise_text (e_ip b);
  sc_agent : e_agent a = e_agent b;
  sc_created : e_created a = e_created b
}.

Lemma normalise_int_inj a b : normalise_int a = normalise_int b -> a = b.
Proof.
  destruct a as [a|], b as [b|]; cbn; [by intros ->%number_eq| | |done].
  - by intros H%number_not_empty.
  - intros H. symmetry in H. by apply number_not_empty in H.
Qed.

Lemma normalise_dict_inj a b : normalise_dict a = normalise_dict b -> dumps (JObj a) = dumps (JObj b).
Proof. unfold normalise_dict. intros H%(f_equal chars). by rewrite !chars_of_chars in H. Qed.

(** Reading one field back out of the canonical parts. *)
Lemma parts_get fs e f :
  base.NoDup fs.*1 -> f ∈ fs ->
  dict_get (parts_of fs e) f.1 = if skipped f.1 (f.2 e) then None else Some (JStr (f.2 e)).
Proof.
  assert (Hnone : forall fs k, k ∉ fs.*1 -> dict_get (parts_of fs e) k = None).
  { clear. intros fs k. unfold dict_get, parts_of. induction fs as [|f fs IH]; cbn; [done|]. intros Hk.
    apply not_elem_of_cons in Hk as [Hne Hk]. destruct (skipped _ _); cbn; [by apply IH|].
    rewrite bool_decide_eq_false_2 by done. by apply IH. }
  induction fs as [|g fs IH]; [by intros _ ?%not_elem_of_nil|].
  intros [Hg Hnd]%NoDup_cons [-> | Hf]%elem_of_cons.
  - unfold parts_of. cbn [omap list_omap]. destruct (skipped g.1 (g.2 e)); [by apply Hnone|].
    unfold dict_get. cbn [List.find fst]. by rewrite bool_decide_eq_true_2.
  - specialize (IH Hnd Hf). assert (g.1 <> f.1).
    { intros E. apply Hg. rewrite E. by apply list_elem_of_fmap_2. }
    unfold parts_of. cbn [omap list_omap]. destruct (skipped g.1 (g.2 e)); [done|].
    unfold dict_get. cbn [List.find fst]. by rewrite bool_decide_eq_false_2.
Qed.

Lemma canonical_fields a b f :
  canonical_content a = canonical_content b -> f ∈ HASHED_FIELDS -> f.2 a = f.2 b.
Proof.
  intros H Hf. apply (dumps_get _ _ f.1) in H.
  assert (Hnd : base.NoDup HASHED_FIELDS.*1) by (apply (bool_decide_unpack _); by vm_compute).
  rewrite !(parts_get HASHED_FIELDS) in H by done.
  assert (Hs : forall v, skipped f.1 v = true -> v = EmptyString).
  { intros v [_ Hv]%andb_true_iff. by apply bool_decide_eq_true in Hv. }
  destruct (skipped f.1 (f.2 a)) eqn:Ea, (skipped f.1 (f.2 b)) eqn:Eb; cbn in H; try done.
  - by rewrite (Hs _ Ea), (Hs _ Eb).
  - apply (inj Some) in H. cbn [dumps] in H.
    assert (Hj : (json_string (f.2 a) ++ [] = json_string (f.2 b) ++ [])%list) by by rewrite !app_nil_r.
    by apply json_string_unique in Hj as [Hj _].
Qed.

Lemma canonical_same a b : canonical_content a = canonical_content b -> same_content a b.
Proof.
  intros H. pose proof (fun f Hf => canonical_fields a b f H Hf) as Hall.
  assert (HF : Forall (fun f : string * (Entry -> string) => f.2 a = f.2 b) HASHED_FIELDS).
  { apply Forall_forall. exact Hall. }
  clear H Hall. unfold HASHED_FIELDS in HF. rewrite !Forall_cons in HF. cbn [snd] in HF.
  destruct HF as (H1 & H2 & H3 & H4 & H5 & H6 & H7 & H8 & H9 & H10 & H11 & H12 & H13 & _).
  constructor; try done; [by apply normalise_int_inj|by apply normalise_dict_inj..].
Qed.

Lemma parts_of_ext fs a b :
  Forall (fun f : string * (Entry -> string) => f.2 a = f.2 b) fs -> parts_of fs a = parts_of fs b.
Proof.
  unfold parts_of. induction 1 as [|f fs Hf _ IH]; [done|]. cbn [omap list_omap]. rewrite Hf.
  by destruct (skipped f.1 (f.2 b)); [|f_equal].
Qed.

Lemma same_canonical a b : same_content a b -> canonical_content a = canonical_content b.
Proof.
  intros [E1 E2 E3 E4 E5 E6 E7 E8 E9 E10 E11 E12 E13]. unfold canonical_content. do 2 f_equal.
  apply parts_of_ext. unfold HASHED_FIELDS, normalise_dict. rewrite !Forall_cons. cbn [snd].
  rewrite E8, E9, E1. by split_and!.
Qed.

(** The canonical form is exact: two rows have the same hashed text exactly when they
    agree on every hashed column, whatever characters the texts contain, payloads up to
    the order of keys. *)
Theorem canonical_commits a b : canonical_content a = canonical_content b <-> same_content a b.
Proof. split; [apply canonical_same|apply same_canonical]. Qed.

(** ** Bytes *)

Lemma utf8_prefix : forallb (fun a => forallb (fun b => Ascii.eqb a b || negb (prefixb (utf8_char a) (utf8_char b)))
                                       all_ascii) all_ascii = true.
Proof. vm_compute. reflexivity. Qed.

Lemma utf8_char_cons (a b : ascii) x y : (utf8_char a ++ x = utf8_char b ++ y)%list -> a = b /\ x = y.
Proof.
  intros H. assert (a = b) as ->; [|by apply app_inv_head in H].
  assert (Hp : forall c d, prefixb (utf8_char c) (utf8_char d) = true -> c = d).
  { intros c d Hcd. pose proof utf8_prefix as Hok. rewrite forallb_forall in Hok.
    specialize (Hok c (proj1 (list_elem_of_In _ _) (all_ascii_in c))). rewrite forallb_forall in Hok.
    specialize (Hok d (proj1 (list_elem_of_In _ _) (all_ascii_in d))).
    rewrite Hcd, orb_false_r in Hok. by apply Ascii.eqb_eq. }
  apply prefixb_app in H as [H|H]; [by apply Hp|symmetry; by apply Hp].
Qed.

Lemma encode_inj l k : encode l = encode k -> l = k.
Proof.
  unfold encode. revert k. induction l as [|a l IH]; intros [|b k]; cbn [flat_map]; [done| | |].
  - intros H. unfold utf8_char in H. by case_match.
  - intros H. unfold utf8_char in H. by case_match.
  - intros [-> H]%utf8_char_cons. f_equal. by apply IH.
Qed.

Lemma encode_app l k : encode (l ++ k) = (encode l ++ encode k)%list.
Proof. apply flat_map_app. Qed.

Lemma stops_newline r : stops (newline :: r).
Proof. unfold stops, newline. vm_compute (chr 10). set_solver. Qed.

(** Canonical texts in a row, a newline after each, can be told apart. *)
Lemma run_bytes_commits a b : run_bytes a = run_bytes b -> Forall2 same_content a b.
Proof.
  assert (Hb : forall l, run_bytes l = encode (flat_map (fun e => canonical_content e ++ [newline])%list l)).
  { induction l as [|e l IH]; [done|]. unfold run_bytes in *. cbn [flat_map].
    by rewrite IH, !encode_app. }
  rewrite !Hb. intros H%encode_inj. clear Hb. revert b H.
  assert (Hc : forall e, exists r, canonical_content e = "{"%char :: r).
  { intros e. unfold canonical_content. cbn [dumps]. by eexists. }
  induction a as [|x a IH]; intros [|y b]; cbn [flat_map].
  - constructor.
  - destruct (Hc y) as [r ->]. done.
  - destruct (Hc x) as [r ->]. done.
  - rewrite <- !app_assoc. cbn [app]. intros H. apply dumps_decodes in H as [H Ht].
    + constructor; [by apply canonical_same|]. apply IH. exact (f_equal (@tail ascii) Ht).
    + apply stops_newline.
    + apply stops_newline.
Qed.

(** ** Tamper evidence *)

Definition is_hex (c : ascii) : bool := is_digit c || ((97 <=? code c) && (code c <=? 102)).

(** What [hexdigest()] of SHA-256 returns. *)
Definition hex_digest (s : string) : bool := Nat.eqb (length (chars s)) 64 && forallb is_hex (chars s).

Section tamper.

Context (sha256 : list ascii -> string) (digest_hex : forall b, hex_digest (sha256 b) = true).

#[local] Notation linked := (linked sha256).
#[local] Notation well_formed := (well_formed sha256).

(** The hash a chain ends with. *)
Definition last_hash (previous : string) (chain : list Entry) : string :=
  default previous (e_content_hash <$> last chain).

Lemma last_hash_snoc p c e : last_hash p (c ++ [e]) = e_content_hash e.
Proof. unfold last_hash. by rewrite last_snoc. Qed.

Lemma linked_snoc p c e :
  linked p (c ++ [e]) <->
  linked p c /\ e_previous_hash e = last_hash p c /\ compute_hash sha256 (e_previous_hash e) e = e_content_hash e.
Proof.
  revert p. induction c as [|x c IH]; intros p; cbn [app HashChain.linked].
  - unfold last_hash. cbn. naive_solver.
  - rewrite IH. assert (last_hash (e_content_hash x) c = last_hash p (x :: c)) as ->; [|naive_solver].
    unfold last_hash. destruct c as [|y c]; [done|]. rewrite last_cons_cons.
    destruct (last (y :: c)) eqn:El; [done|]. by apply last_None in El.
Qed.

Lemma digest_not_empty s : hex_digest s = true -> s <> EmptyString.
Proof. by intros H ->. Qed.

Lemma digest_eq s t l k :
  hex_digest s = true -> hex_digest t = true ->
  (encode (chars s) ++ encode l = encode (chars t) ++ encode k)%list -> s = t /\ l = k.
Proof.
  intros [Hs _]%andb_true_iff [Ht _]%andb_true_iff H. rewrite <- !encode_app in H. apply encode_inj in H.
  apply Nat.eqb_eq in Hs, Ht. apply app_inj_1 in H as [H ->]; [|congruence]. split; [by apply chars_inj|done].
Qed.

Lemma or_text_digest s d : hex_digest s = true -> or_text s d = s.
Proof. intros H. unfold or_text. by rewrite bool_decide_eq_false_2 by by apply digest_not_empty. Qed.

Lemma last_hash_digest p c : hex_digest p = true -> linked p c -> hex_digest (last_hash p c) = true.
Proof.
  intros Hp. induction c as [|e c _] using rev_ind; [done|]. rewrite linked_snoc, last_hash_snoc.
  intros (_ & _ & <-). apply digest_hex.
Qed.

Lemma genesis_digest : hex_digest GENESIS = true.
Proof. by vm_compute. Qed.

(** What a hashed row's digest is computed from, and everything a check of a table feeds to
    SHA-256: the text of each hashed row, and the run of unhashed ones. *)
Definition row_text (e : Entry) : list ascii :=
  (encode (chars (or_text (e_previous_hash e) GENESIS)) ++ encode (canonical_content e))%list.

Definition chain_texts (chain : list Entry) : list (list ascii) := row_text <$> chain.

Definition hashed_texts (table : list Entry) : list (list ascii) :=
  run_bytes (List.filter (fun e => negb (hashed e)) table) :: chain_texts (List.filter hashed table).

(** Two different texts of the two lists with one digest: a pair that can be read off the
    tables, not the mere existence of one somewhere. *)
Definition collide (l k : list (list ascii)) : Prop := exists a b, a ∈ l /\ b ∈ k /\ a <> b /\ sha256 a = sha256 b.

Definition hits_genesis (l : list (list ascii)) : Prop := exists a, a ∈ l /\ sha256 a = GENESIS.

#[export] Instance collide_decision l k : Decision (collide l k).
Proof.
  destruct (decide (Exists (fun a => Exists (fun b => a <> b /\ sha256 a = sha256 b) k) l)) as [H|H]; [left|right].
  - abstract (apply Exists_exists in H as (a & Ha & (b & Hb & H)%Exists_exists); by exists a, b).
  - abstract (intros (a & b & Ha & Hb & Hab); apply H, Exists_exists; exists a; split; [done|];
              apply Exists_exists; by exists b).
Defined.

Lemma collide_mono l l' k k' : l ⊆ l' -> k ⊆ k' -> collide l k -> collide l' k'.
Proof. intros Hl Hk (a & b & ? & ? & ? & ?). exists a, b. set_solver. Qed.

Lemma hits_genesis_mono l l' : l ⊆ l' -> hits_genesis l -> hits_genesis l'.
Proof. intros Hl (a & ? & ?). exists a. set_solver. Qed.

(** Equal digests have equal texts under them, or these two texts collide. *)
Lemma sha_eq l k a b : a ∈ l -> b ∈ k -> sha256 a = sha256 b -> a = b \/ collide l k.
Proof. intros Ha Hb H. destruct (decide (a = b)); [by left|right; by exists a, b]. Qed.

Lemma compute_hash_text e : compute_hash sha256 (e_previous_hash e) e = sha256 (row_text e).
Proof. done. Qed.

Lemma last_text c e : row_text e ∈ chain_texts (c ++ [e]).
Proof. unfold chain_texts. rewrite fmap_app. apply elem_of_app. right. apply list_elem_of_here. Qed.

Lemma chain_texts_app c e : chain_texts c ⊆ chain_texts (c ++ [e]).
Proof. unfold chain_texts. rewrite fmap_app. intros x Hx. apply elem_of_app. by left. Qed.

Lemma app_subseteq {A} (l l' k k' : list A) : l ⊆ l' -> k ⊆ k' -> l ++ k ⊆ l' ++ k'.
Proof. intros Hl Hk x [Hx|Hx]%elem_of_app; apply elem_of_app; [left; by apply Hl|right; by apply Hk]. Qed.

Lemma chains_agree c1 c2 :
  linked GENESIS c1 -> linked GENESIS c2 -> last_hash GENESIS c1 = last_hash GENESIS c2 ->
  Forall2 same_content c1 c2 \/ collide (chain_texts c1) (chain_texts c2) \/
  hits_genesis (chain_texts c1 ++ chain_texts c2).
Proof.
  revert c2. induction c1 as [|e1 c1 IH] using rev_ind; intros c2; destruct c2 as [|e2 c2 _] using rev_ind.
  - intros. by left.
  - intros _ H. apply linked_snoc in H as (_ & _ & H). rewrite last_hash_snoc, <- H. intros Hg.
    right. right. exists (row_text e2). split; [|done]. apply elem_of_app. right. apply last_text.
  - intros H _. apply linked_snoc in H as (_ & _ & H). rewrite last_hash_snoc, <- H. intros Hg.
    right. right. exists (row_text e1). split; [|done]. apply elem_of_app. left. apply last_text.
  - rewrite !linked_snoc, !last_hash_snoc. intros (H1 & P1 & C1) (H2 & P2 & C2). rewrite <- C1, <- C2, !compute_hash_text.
    intros Heq. destruct (sha_eq (chain_texts (c1 ++ [e1])) (chain_texts (c2 ++ [e2])) _ _ (last_text _ _) (last_text _ _) Heq)
      as [Ht | Hcol]; [clear Heq|by right; left].
    pose proof (last_hash_digest _ _ genesis_digest H1) as D1. pose proof (last_hash_digest _ _ genesis_digest H2) as D2.
    unfold row_text in Ht. rewrite P1, P2, (or_text_digest _ _ D1), (or_text_digest _ _ D2) in Ht.
    apply (digest_eq _ _ _ _ D1 D2) in Ht as [Hp Hc].
    destruct (IH c2 H1 H2 Hp) as [Hf|[Hf|Hf]].
    + left. apply Forall2_app; [done|]. constructor; [by apply canonical_same|constructor].
    + right. left. eapply collide_mono; [apply chain_texts_app|apply chain_texts_app|exact Hf].
    + right. right. eapply hits_genesis_mono; [|exact Hf].
      apply app_subseteq; apply chain_texts_app.
Qed.

Lemma same_anchor a b : same_content a b -> is_anchor a = is_anchor b.
Proof. intros []. unfold is_anchor. by rewrite sc_action0, sc_target_type0. Qed.

Lemma same_anchors c1 c2 :
  Forall2 same_content c1 c2 -> Forall2 same_content (List.filter is_anchor c1) (List.filter is_anchor c2).
Proof.
  induction 1 as [|a b c1 c2 Hab _ IH]; cbn; [constructor|]. rewrite (same_anchor _ _ Hab).
  destruct (is_anchor b); [by constructor|done].
Qed.

(** The digest an anchor vouches with. *)
Lemma vouches_digest a run :
  vouches sha256 a run = true -> dict_get (e_after a) "pre_chain_digest" = Some (JStr (sha256 (run_bytes run))).
Proof.
  unfold vouches, claims_match. intros [_ H]%andb_true_iff. unfold json_is_text in H.
  destruct (dict_get _ _) as [[]|]; try done. by apply bool_decide_eq_true in H as ->.
Qed.

Lemma runs_agree a1 a2 run1 run2 :
  same_content a1 a2 -> vouches sha256 a1 run1 = true -> vouches sha256 a2 run2 = true ->
  Forall2 same_content run1 run2 \/ collide [run_bytes run1] [run_bytes run2].
Proof.
  intros Hs H1%vouches_digest H2%vouches_digest.
  pose proof (dumps_get _ _ "pre_chain_digest"%string (sc_after _ _ Hs)) as Hd. rewrite H1, H2 in Hd. cbn in Hd.
  apply (inj Some) in Hd. apply (f_equal (fun l => l ++ [])%list) in Hd. apply json_string_unique in Hd as [Hd _].
  apply (sha_eq [run_bytes run1] [run_bytes run2]) in Hd as [Hd|Hc]; [left|by right|set_solver..].
  by apply run_bytes_commits.
Qed.

Lemma well_formed_last run chain :
  linked GENESIS chain -> anchored sha256 run chain -> tail_hash (run ++ chain) = last_hash GENESIS chain.
Proof.
  intros Hl Ha. destruct chain as [|e chain _] using rev_ind.
  - cbn in Ha. by subst run.
  - unfold tail_hash. rewrite app_assoc, last_snoc, last_hash_snoc. cbn. apply or_text_digest.
    apply linked_snoc in Hl as (_ & _ & <-). apply digest_hex.
Qed.

Lemma subseteq_head {A} (x : A) l : [x] ⊆ x :: l.
Proof. intros y ->%list_elem_of_singleton. apply list_elem_of_here. Qed.

(** A table of unhashed rows followed by hashed ones splits back into the two. *)
Lemma split_texts run chain :
  Forall (fun e => hashed e = false) run -> Forall (fun e => hashed e = true) chain ->
  hashed_texts (run ++ chain) = run_bytes run :: chain_texts chain.
Proof.
  intros Hr Hc. unfold hashed_texts. rewrite !List.filter_app.
  rewrite (filter_none hashed run), (filter_none _ chain), (filter_all _ run), (filter_all hashed chain), app_nil_r; [done|done| | |done].
  - eapply Forall_impl; [exact Hr|]. by intros e ->.
  - eapply Forall_impl; [exact Hc|]. by intros e ->.
Qed.

(** C35. Tamper evidence.  Two tables that both pass the full check and end in the same
    stored hash hold the same history, row for row, the rows from before the chain
    included; or else the two tables themselves exhibit a failure of SHA-256: a text hashed
    for the one and a different text hashed for the other with the same digest, or a text
    hashed for one of them whose digest is the genesis value.  So whoever keeps a log and
    its newest hash detects every edit, removal, insertion and reordering, short of an
    attacker who puts a second preimage among the rows presented. *)
Theorem tamper_evident (table1 table2 : list Entry) :
  r_problems (inspect_chain sha256 table1 0) = [] -> r_problems (inspect_chain sha256 table2 0) = [] ->
  tail_hash table1 = tail_hash table2 ->
  Forall2 same_content table1 table2 \/ collide (hashed_texts table1) (hashed_texts table2) \/
  hits_genesis (hashed_texts table1 ++ hashed_texts table2).
Proof.
  intros (run1 & c1 & -> & R1 & F1 & L1 & A1)%clean_well_formed (run2 & c2 & -> & R2 & F2 & L2 & A2)%clean_well_formed.
  rewrite !well_formed_last, !split_texts by done. intros Heq.
  destruct (chains_agree c1 c2 L1 L2 Heq) as [Hc|[H|H]].
  - pose proof (same_anchors _ _ Hc) as Ha. unfold anchored in A1, A2.
    destruct (List.filter is_anchor c1) as [|a1 [|]], (List.filter is_anchor c2) as [|a2 [|]]; try done;
      try (by inversion Ha).
    + subst. by left.
    + apply Forall2_cons in Ha as [Ha _]. destruct (runs_agree a1 a2 run1 run2 Ha A1 A2) as [Hr|Hcol].
      * left. by apply Forall2_app.
      * right. left. eapply collide_mono; [apply subseteq_head|apply subseteq_head|exact Hcol].
  - right. left. eapply collide_mono; [apply list_subseteq_cons|apply list_subseteq_cons|exact H]; done.
  - right. right. eapply hits_genesis_mono; [|exact H]. apply app_subseteq; by apply list_subseteq_cons.
Qed.


(** ** An honest log *)

Lemma insert_row_last (e : Entry) (t : list Entry) : (forall x, x ∈ t -> e_id x < e_id e) -> insert_row e t = t ++ [e].
Proof.
  induction t as [|x t IH]; cbn; [done|]. intros H. rewrite (proj2 (Z.ltb_ge _ _)); [|by apply Z.lt_le_incl, H; set_solver].
  rewrite IH; [done|]. intros y Hy. apply H. set_solver.
Qed.

(** [save] of a new, unhashed row under a fresh id appends it, linked to the tail. *)
Lemma save_appends t id e :
  hashed e = false -> (forall x, x ∈ t -> e_id x < id) ->
  save sha256 t id None false e =
  Ok (t ++ [with_id (link_into_chain sha256 t e) id], with_id (link_into_chain sha256 t e) id).
Proof.
  intros He Hid. unfold save. cbn [require res_bind default]. rewrite He.
  set (row := with_id _ _). assert (existsb (fun x => e_id x =? e_id row) t = false) as ->.
  { apply not_true_is_false. intros (x & Hx & Heq)%existsb_exists. apply list_elem_of_In in Hx.
    specialize (Hid _ Hx). cbn in Heq. apply Z.eqb_eq in Heq. lia. }
  cbn [negb require res_bind]. by rewrite insert_row_last.
Qed.

(** How the application fills the table: rows from before the chain, rows saved one after
    another, and the anchor; ids come from a sequence. *)
Inductive written : list Entry -> Prop :=
| written_legacy run :
    Forall (fun e => hashed e = false /\ is_anchor e = false) run -> written run
| written_save t id e t' row :
    written t -> hashed e = false -> is_anchor e = false -> (forall x, x ∈ t -> e_id x < id) ->
    save sha256 t id None false e = Ok (t', row) -> written t'
| written_anchor t id label now t' row :
    written t -> (forall x, x ∈ t -> e_id x < id) ->
    write_anchor sha256 t id label now = Ok (t', row) -> written t'.

(** What writing keeps: the anchor, if there is one yet, vouches for the run. *)
Definition growing (t : list Entry) : Prop := exists run chain,
  t = run ++ chain /\ Forall (fun e => hashed e = false) run /\ Forall (fun e => hashed e = true) chain /\
  Forall (fun e => is_anchor e = false) run /\ linked GENESIS chain /\
  match List.filter is_anchor chain with [] => True | [a] => vouches sha256 a run = true | _ => False end.

Lemma tail_hash_growing run chain :
  Forall (fun e => hashed e = false) run -> linked GENESIS chain -> tail_hash (run ++ chain) = last_hash GENESIS chain.
Proof.
  intros Hr Hl. destruct chain as [|e chain _] using rev_ind.
  - rewrite app_nil_r. destruct run as [|e run _] using rev_ind; [done|]. apply Forall_app in Hr as [_ He].
    apply Forall_cons in He as [He _]. unfold tail_hash. rewrite last_snoc. cbn. unfold hashed in He.
    apply negb_false_iff, bool_decide_eq_true in He as ->. done.
  - unfold tail_hash. rewrite app_assoc, last_snoc, last_hash_snoc. cbn. apply or_text_digest.
    apply linked_snoc in Hl as (_ & _ & <-). apply digest_hex.
Qed.

(** Appending one more linked row. *)
Lemma growing_snoc run chain e id :
  Forall (fun e => hashed e = false) run -> linked GENESIS chain ->
  let row := with_id (link_into_chain sha256 (run ++ chain) e) id in
  linked GENESIS (chain ++ [row]) /\ hashed row = true.
Proof.
  intros Hr Hl row. split.
  - apply linked_snoc. split; [done|]. split; [by apply tail_hash_growing|done].
  - unfold hashed. cbn. by rewrite bool_decide_eq_false_2 by apply digest_not_empty, digest_hex.
Qed.

Lemma anchor_row_vouches run a :
  run <> [] -> e_after a = anchor_after sha256 run -> vouches sha256 a run = true.
Proof.
  intros Hne Ha. unfold vouches, claims_match. rewrite Ha. destruct run as [|x run _] using rev_ind; [done|].
  unfold anchor_after. rewrite last_snoc.
  change (dict_get _ "pre_chain_rows") with (Some (JInt (Z.of_nat (length (run ++ [x]))))).
  change (dict_get _ "pre_chain_max_id") with (Some (JInt (e_id x))).
  change (dict_get _ "pre_chain_digest") with (Some (JStr (sha256 (run_bytes (run ++ [x]))))).
  unfold json_is_int, json_is_text. cbn [fmap option_fmap option_map]. rewrite !Z.eqb_refl. by rewrite bool_decide_eq_true_2.
Qed.

Lemma write_anchor_cases t id label now t' row :
  (forall x, x ∈ t -> e_id x < id) -> write_anchor sha256 t id label now = Ok (t', row) ->
  existsb is_anchor t = false /\
  (t' = t \/ exists run, run = List.filter (fun e => negb (hashed e)) t /\ run <> [] /\
    t' = t ++ [link_into_chain sha256 t (anchor_row sha256 run id label now)]).
Proof.
  intros Hid. unfold write_anchor. destruct (existsb is_anchor t); cbn [negb require res_bind]; [done|].
  intros H. split; [done|]. destruct (last _) as [newest|] eqn:El; [|injection H as <- _; by left].
  right. eexists. split; [done|]. split; [by intros E; rewrite E in El|].
  apply res_bind_ok in H as (u & _ & H). injection H as <- _. by rewrite insert_row_last.
Qed.

Lemma written_growing t : written t -> growing t.
Proof.
  induction 1 as [run Hr|t id e t' row Hw (run & chain & -> & Hr & Hc & Hn & Hl & Ha) He Hna Hid Hs
                 |t id label now t' row Hw (run & chain & -> & Hr & Hc & Hn & Hl & Ha) Hid Hs].
  - exists run, []. rewrite app_nil_r. split_and!; try done; (eapply Forall_impl; [exact Hr|]; naive_solver).
  - rewrite save_appends in Hs by done. injection Hs as <- _.
    destruct (growing_snoc run chain e id Hr Hl) as [Hl' Hh].
    exists run, (chain ++ [with_id (link_into_chain sha256 (run ++ chain) e) id]). rewrite app_assoc.
    split_and!; try done; [apply Forall_app; split; [done|]; by constructor|].
    rewrite List.filter_app. cbn [List.filter].
    change (is_anchor (with_id _ id)) with (is_anchor e). by rewrite Hna, app_nil_r.
  - apply write_anchor_cases in Hs as (Hna & [-> | (r & -> & Hne & ->)]); [by exists run, chain| |done].
    set (row' := anchor_row _ _ _ _ _). destruct (growing_snoc run chain row' id Hr Hl) as [Hl' Hh].
    assert (Hrun : List.filter (fun e => negb (hashed e)) (run ++ chain) = run).
    { rewrite List.filter_app, (filter_none _ chain), app_nil_r.
      - apply filter_all. eapply Forall_impl; [exact Hr|]. by intros ? ->.
      - eapply Forall_impl; [exact Hc|]. by intros ? ->. }
    assert (Hnone : List.filter is_anchor chain = []).
    { apply filter_none, Forall_forall. intros x Hx. apply not_true_is_false. intros Hax.
      rewrite existsb_app in Hna. apply orb_false_iff in Hna as [_ Hna]. apply not_true_iff_false in Hna. apply Hna.
      apply existsb_exists. exists x. split; [by apply list_elem_of_In|done]. }
    exists run, (chain ++ [with_id (link_into_chain sha256 (run ++ chain) row') id]). rewrite app_assoc.
    split_and!; try done; [apply Forall_app; split; [done|]; by constructor|].
    rewrite List.filter_app, Hnone. cbn. apply anchor_row_vouches; [by rewrite Hrun in Hne|].
    cbn. by rewrite Hrun.
Qed.

(** No false alarms: whatever the application wrote, one save after the other, passes the
    full check, provided the rows from before the chain, if there are any, have been
    anchored. *)
Theorem honest_log_verifies (t : list Entry) :
  written t -> (existsb is_anchor t = true \/ Forall (fun e => hashed e = true) t) ->
  r_problems (inspect_chain sha256 t 0) = [].
Proof.
  intros (run & chain & -> & Hr & Hc & Hn & Hl & Ha)%written_growing H. apply clean_well_formed.
  exists run, chain. split_and!; try done. unfold anchored.
  destruct (List.filter is_anchor chain) as [|a [|]] eqn:Ef; [|done|done].
  destruct H as [(x & Hx & Hax)%existsb_exists | H].
  - exfalso. apply in_app_or in Hx as [Hx|Hx].
    + rewrite Forall_forall in Hn. apply list_elem_of_In in Hx. by rewrite (Hn _ Hx) in Hax.
    + assert (In x (List.filter is_anchor chain)) as Hin by by apply filter_In. by rewrite Ef in Hin.
  - apply Forall_app in H as [H _]. destruct run as [|x run]; [done|].
    apply Forall_cons in Hr as [Hx _]. apply Forall_cons in H as [H _]. congruence.
Qed.

End tamper.

(** ** A check of the oldest rows only *)

Lemma linked_take sha256 p l k : linked sha256 p l -> linked sha256 p (take k l).
Proof. revert p k. induction l as [|e l IH]; intros p [|k]; cbn; try done. intros (H1 & H2 & H3). split_and!; try done. by apply IH. Qed.

Lemma filter_take {A} (P : A -> bool) (l : list A) k :
  exists r, List.filter P l = List.filter P (take k l) ++ r.
Proof. exists (List.filter P (drop k l)). by rewrite <- List.filter_app, take_drop. Qed.

Lemma head_filter {A} (P : A -> bool) (l : list A) :
  (match head (List.filter P l) with None => true | _ => false end) = negb (existsb P l).
Proof. induction l as [|x l IH]; cbn; [done|]. by destruct (P x). Qed.

(** What a limited check of a healthy log says: nothing, unless the limit falls between the
    end of the run and its anchor, where it reports the run as unanchored. *)
Theorem limited_check sha256 (run chain : list Entry) (limit : nat) :
  Forall (fun e => hashed e = false) run -> Forall (fun e => hashed e = true) chain ->
  linked sha256 GENESIS chain -> anchored sha256 run chain -> limit <> O ->
  p_issue <$> r_problems (inspect_chain sha256 (run ++ chain) limit) =
  (if (match run with [] => false | _ => true end) && (length run <? limit)%nat &&
      negb (existsb is_anchor (take (limit - length run) chain))
   then [UnanchoredRows] else []).
Proof.
  intros Hr Hc Hl Ha Hlim. unfold inspect_chain. destruct limit as [|n]; [done|].
  rewrite take_app. set (k := (S n - length run)%nat). cbn [r_problems].
  rewrite walk_app. rewrite walk_run by by apply Forall_take.
  pose proof (Forall_take _ k _ Hc) as Hc'.
  set (w := run_walk (take (S n) run)).
  assert (Hstart : chain_started w = true \/ match take k chain with [] => True | e :: _ => hashed e = true end).
  { right. destruct (take k chain); [done|]. by apply Forall_cons in Hc' as [? _]. }
  destruct (walk_chain_keeps sha256 w (take k chain) Hstart) as (-> & -> & _).
  assert (Hfit : k <> 0%nat -> take (S n) run = run).
  { intros Hk. apply take_ge. lia. }
  destruct (filter_take is_anchor chain k) as [r Hf].
  assert (Hclean : problems (walk sha256 w (take k chain)) = []).
  { apply walk_chain; [done|]. split_and!; [done|done|by apply linked_take|].
    unfold anchors_fit. cbn. unfold anchored in Ha. rewrite Hf in Ha.
    destruct (List.filter is_anchor (take k chain)) as [|a [|]] eqn:Et; [done| |done].
    destruct r; [|done]. rewrite Hfit; [done|]. intros E. by rewrite E in Et. }
  rewrite Hclean, walk_anchor, walk_checked by done. cbn [w run_walk pre_count anchor checked app Nat.eqb negb andb].
  rewrite head_filter. destruct (existsb is_anchor (take k chain)) eqn:Ee; cbn [negb]; rewrite !andb_false_r || rewrite !andb_true_r; [done|].
  destruct run as [|x run]; [done|]. rewrite length_take.
  assert (chain <> []).
  { intros ->. cbn in Ha. done. }
  destruct (Nat.ltb_spec (length (x :: run)) (S n)) as [Hlt|Hge]; cbn [andb].
  - rewrite (proj2 (Z.eqb_neq _ _)), (proj2 (Z.eqb_neq _ _)); [done| |cbn; lia].
    rewrite length_take. destruct chain; [done|]. cbn [length] in *. lia.
  - assert (k = 0%nat) as -> by (unfold k; lia). cbn [take length]. rewrite Z.add_0_r, Z.eqb_refl. cbn [negb].
    by rewrite andb_false_r.
Qed.

(** ** Two writers at once *)

Lemma problems_grow sha256 w l : exists r, problems (walk sha256 w l) = problems w ++ r.
Proof.
  revert w. induction l as [|e l IH]; intros w; [exists []; by rewrite app_nil_r|].
  destruct (IH (walk_step sha256 w e)) as [r Hr].
  change (walk sha256 w (e :: l)) with (walk sha256 (walk_step sha256 w e) l). rewrite Hr. unfold walk_step.
  repeat case_match; cbn [problems]; rewrite <- ?app_assoc; by eexists.
Qed.

Lemma walk_expected sha256 w l e : hashed e = true -> expected_previous (walk sha256 w (l ++ [e])) = e_content_hash e.
Proof. intros He. rewrite walk_app. cbn. unfold walk_step. by rewrite He. Qed.

(** The lock does not order the writers: from any table, two rows can be linked to the same
    predecessor and then both be inserted, and the check reports the second as a broken
    link from then on, whatever is appended later.  Nobody tampered with anything. *)
Theorem concurrent_appends_fork sha256 (t later : list Entry) (a b : Entry) (ida idb : Z) :
  hashed a = false -> hashed b = false -> (forall x, x ∈ t -> e_id x < ida) -> ida < idb ->
  compute_hash sha256 (tail_hash t) a <> EmptyString -> compute_hash sha256 (tail_hash t) b <> EmptyString ->
  compute_hash sha256 (tail_hash t) a <> tail_hash t ->
  exists t', rtc (write_step sha256) {| w_table := t; w_linked := [] |} {| w_table := t'; w_linked := [] |} /\
    exists rest, t' = t ++ rest /\ length rest = 2%nat /\
    problem (with_id (link_into_chain sha256 t b) idb) BrokenLink ∈ r_problems (inspect_chain sha256 (t' ++ later) 0).
Proof.
  intros Ha Hb Hida Hidb Hna Hnb Hne.
  set (ra := with_id (link_into_chain sha256 t a) ida). set (rb := with_id (link_into_chain sha256 t b) idb).
  exists ((t ++ [ra]) ++ [rb]). split.
  - eapply rtc_l; [by apply (link_step _ _ a)|]. eapply rtc_l; [by apply (link_step _ _ b)|]. cbn [w_table w_linked app].
    eapply rtc_l; [by apply (insert_step _ {| w_table := t; w_linked := _ |} [] (link_into_chain sha256 t a) [link_into_chain sha256 t b] ida)|].
    eapply rtc_l; [|done]. cbn [w_table app].
    apply (insert_step _ {| w_table := t ++ [ra]; w_linked := _ |} [] (link_into_chain sha256 t b) [] idb); [done|].
    cbn [w_table].
    intros x [Hx | ->%list_elem_of_singleton]%elem_of_app; [|done]. specialize (Hida _ Hx). lia.
  - exists [ra; rb]. split; [by rewrite <- app_assoc|]. split; [done|].
    unfold inspect_chain. cbn [r_problems]. apply elem_of_app. left. rewrite walk_app.
    edestruct problems_grow as [r ->]. apply elem_of_app. left. rewrite walk_app. cbn [walk foldl].
    assert (Hh : hashed rb = true) by (unfold hashed; cbn; by rewrite bool_decide_eq_false_2).
    unfold walk_step at 1. rewrite Hh. cbn [negb problems]. apply elem_of_app. right. unfold row_problems.
    rewrite walk_expected by (unfold hashed; cbn; by rewrite bool_decide_eq_false_2).
    cbn [e_previous_hash e_content_hash rb ra with_id link_into_chain with_hashes].
    rewrite bool_decide_eq_false_2; [cbn; apply list_elem_of_here|]. intros E. by symmetry in E.
Qed.

(** ** Concrete logs *)

(** A toy digest of 64 hexadecimal digits, to run the definitions. *)
Fixpoint hex_of (k : nat) (n : Z) : list ascii :=
  match k with O => [] | S k => hex_of k (n / 16) ++ [hex_digit (n mod 16)] end.

Definition toy_digest (b : list ascii) : string :=
  of_chars (hex_of 64 (foldl (fun acc c => (acc * 257 + code c + 1) mod 2 ^ 61) 7 b)).

Lemma hex_of_hex k n : length (hex_of k n) = k /\ forallb is_hex (hex_of k n) = true.
Proof.
  revert n. induction k as [|k IH]; intros n; [done|]. cbn [hex_of]. destruct (IH (n / 16)) as [Hl Hf].
  rewrite length_app, Hl, forallb_app, Hf. split; [cbn; lia|]. cbn [forallb andb]. rewrite andb_true_r.
  pose proof (Z.mod_pos_bound n 16 eq_refl) as Hm. generalize dependent (n mod 16). intros m Hm.
  assert (m ∈ seqZ 0 16) as Hin by (apply elem_of_seqZ; lia).
  assert (Hall : forallb (fun m => is_hex (hex_digit m)) (seqZ 0 16) = true) by by vm_compute.
  rewrite forallb_forall in Hall. apply Hall. by apply list_elem_of_In.
Qed.

Lemma toy_digest_hex b : hex_digest (toy_digest b) = true.
Proof.
  unfold hex_digest, toy_digest. rewrite chars_of_chars. destruct (hex_of_hex 64 (foldl (fun acc c => (acc * 257 + code c + 1) mod 2 ^ 61) 7 b)) as [-> ->].
  done.
Qed.

Definition draft (id : Z) (target : string) : Entry :=
  {| e_id := id; e_actor_id := Some 3; e_actor_label := "ops"; e_actor_email := EmptyString;
     e_actor_role := "admin/finance"; e_action := "kyc_update"; e_target_type := "driver"; e_target_id := target;
     e_before := [("approved", JBool false)]; e_after := [("approved", JBool true)];
     e_reason := "Documents verified."; e_ip := None; e_agent := EmptyString;
     e_created := "2026-10-27T10:00:00+00:00"; e_previous_hash := EmptyString; e_content_hash := EmptyString |}%string.

(** Two rows from before the chain, one saved, then the anchor, then another row. *)
Definition demo_legacy : list Entry := [draft 1 "7"%string; draft 2 "8"%string].
Definition demo_saved (t : list Entry) (id : Z) (target : string) : list Entry :=
  match save toy_digest t id None false (draft 0 target) with Ok (t', _) => t' | Err _ => t end.
Definition demo_anchored (t : list Entry) (id : Z) : list Entry :=
  match write_anchor toy_digest t id "test anchor"%string "2026-10-28T00:00:00+00:00"%string with
  | Ok (t', _) => t' | Err _ => t end.
Definition demo_hashed : list Entry := demo_saved demo_legacy 3 "9"%string.
Definition demo_log : list Entry := demo_saved (demo_anchored demo_hashed 4) 5 "10"%string.

(** The log with one old row edited. *)
Definition demo_edited : list Entry := draft 1 "70"%string :: tail demo_log.

Example demo_log_verifies : verify_chain toy_digest demo_log 0 = (5, []).
Proof. vm_compute. reflexivity. Qed.

Example demo_edit_found : p_issue <$> r_problems (inspect_chain toy_digest demo_edited 0) = [AnchorMismatch].
Proof. vm_compute. reflexivity. Qed.

Example demo_second_anchor : write_anchor toy_digest demo_log 6 "again"%string "now"%string = Err AlreadyAnchored.
Proof. vm_compute. reflexivity. Qed.

Example demo_anchor_refused :
  write_anchor toy_digest (demo_hashed ++ [draft 4 "1"%string]) 5 "x"%string "now"%string = Err (UnhashedAfterHashed 4 3).
Proof. vm_compute. reflexivity. Qed.

Example demo_no_edit : save toy_digest demo_log 6 (Some 5) false (draft 5 "1"%string) = Err AuditLogIsAppendOnly.
Proof. vm_compute. reflexivity. Qed.

(** ** The properties at concrete inputs *)

Lemma tamper_evident_witness :
  r_problems (inspect_chain toy_digest demo_log 0) = [] /\
  ~ collide toy_digest (hashed_texts demo_log) (hashed_texts demo_log) /\
  (Forall2 same_content demo_log demo_log \/ collide toy_digest (hashed_texts demo_log) (hashed_texts demo_log) \/
   hits_genesis toy_digest (hashed_texts demo_log ++ hashed_texts demo_log)).
Proof.
  assert (H : r_problems (inspect_chain toy_digest demo_log 0) = []) by (vm_compute; reflexivity).
  split; [exact H|]. split.
  - apply (bool_decide_unpack _). vm_compute. exact I.
  - exact (tamper_evident toy_digest toy_digest_hex demo_log demo_log H H eq_refl).
Defined.

Lemma demo_written : written toy_digest demo_log.
Proof.
  unfold demo_log, demo_saved. destruct (save toy_digest (demo_anchored demo_hashed 4) 5 None false (draft 0 "10"))
    as [[t' row]|] eqn:E; [|vm_compute in E; discriminate].
  eapply (written_save _ _ 5 (draft 0 "10")); [|done..| |exact E].
  - unfold demo_anchored. destruct (write_anchor toy_digest demo_hashed 4 "test anchor" "2026-10-28T00:00:00+00:00")
      as [[t2 r2]|] eqn:E2; [|vm_compute in E2; discriminate].
    eapply (written_anchor _ _ 4); [| |exact E2].
    + unfold demo_hashed, demo_saved. destruct (save toy_digest demo_legacy 3 None false (draft 0 "9"))
        as [[t3 r3]|] eqn:E3; [|vm_compute in E3; discriminate].
      eapply (written_save _ _ 3 (draft 0 "9")); [|done..| |exact E3].
      * apply written_legacy. repeat constructor.
      * apply Forall_forall. apply (bool_decide_unpack _). by vm_compute.
    + apply Forall_forall. apply (bool_decide_unpack _). by vm_compute.
  - apply Forall_forall. apply (bool_decide_unpack _). by vm_compute.
Qed.

Lemma honest_log_verifies_witness : r_problems (inspect_chain toy_digest demo_log 0) = [].
Proof. apply (honest_log_verifies toy_digest toy_digest_hex demo_log demo_written). left. vm_compute. reflexivity. Defined.

Lemma limited_check_witness : p_issue <$> r_problems (inspect_chain toy_digest demo_log 3) = [UnanchoredRows].
Proof.
  assert (E : demo_log = take 2 demo_log ++ drop 2 demo_log) by (symmetry; apply take_drop).
  rewrite E. refine (eq_trans (limited_check toy_digest (take 2 demo_log) (drop 2 demo_log) 3 _ _ _ _ _) _).
  - apply (bool_decide_unpack _). vm_compute. exact I.
  - apply (bool_decide_unpack _). vm_compute. exact I.
  - vm_compute. tauto.
  - vm_compute. reflexivity.
  - discriminate.
  - vm_compute. reflexivity.
Defined.

Lemma concurrent_appends_fork_witness :
  exists t', rtc (write_step toy_digest) {| w_table := []; w_linked := [] |} {| w_table := t'; w_linked := [] |} /\
    exists rest, t' = [] ++ rest /\ length rest = 2%nat /\
    problem (with_id (link_into_chain toy_digest [] (draft 0 "8"%string)) 2) BrokenLink
      ∈ r_problems (inspect_chain toy_digest (t' ++ []) 0).
Proof.
  apply (concurrent_appends_fork toy_digest [] [] (draft 0 "7"%string) (draft 0 "8"%string) 1 2); try reflexivity.
  - intros x Hx. by apply not_elem_of_nil in Hx.
  - vm_compute. discriminate.
  - vm_compute. discriminate.
  - vm_compute. discriminate.
Defined.
