(* ===== verification/ApprovalPolicy.v ===== *)
(** * ApprovalPolicy: the maker-checker catalogue, thresholds and the decision

    [servers/approvals/actions.py] (the closed catalogue of actions), the policy table
    of [servers/approvals/models.py] with its constraints, and from
    [servers/approvals/service.py]: [active_policy], [decide], the validation of a
    proposed threshold and [write_policy_version], the one writer of policy rows. *)

From S2P Require Import Prelude PyText Countries Money Access Json.
#[local] Open Scope Z_scope.
#[local] Open Scope string_scope.

(** ** The catalogue *)

Record Action := {
  act_key : string;
  act_capability : string;
  act_always_checker : bool;
  act_multi_target_key : string;
  act_force_checker_key : string
}.

Definition action (key capability : string) (always : bool) (multi force : string) : Action :=
  {| act_key := key; act_capability := capability; act_always_checker := always;
     act_multi_target_key := multi; act_force_checker_key := force |}.

Definition SUPPORT_REFUND : string := "support.refund".
Definition FINANCE_REFUND : string := "finance.refund".
Definition FINANCE_ADJUST : string := "finance.adjust".
Definition FINANCE_PAYOUT : string := "finance.payout".
Definition PRICING_CHANGE : string := "pricing.change".
Definition DRIVER_DEACTIVATE : string := "driver.deactivate".
Definition BULK_ACTION : string := "bulk.action".
Definition POLICY_CHANGE : string := "approvals.policy_change".
Definition THRESHOLD_CHANGE : string := "command_centre.threshold_change".
Definition SUPPORT_SLA_CHANGE : string := "support.sla_change".
Definition FINANCE_PAYOUT_CONFIG : string := "finance.payout_config_change".
Definition FINANCE_WALLET_CREDIT : string := "finance.wallet_credit".
Definition ZONE_CHANGE : string := "zone.change".
Definition NOTIFICATION_TEMPLATE_CHANGE : string := "notification.template_change".
Definition NOTIFICATION_CAMPAIGN_SEND : string := "notification.campaign_send".
Definition PROMOTION_LAUNCH : string := "promotion.launch".
Definition PROMOTION_BUDGET_INCREASE : string := "promotion.budget_increase".
Definition FRAUD_RULE_CHANGE : string := "fraud.rule_change".
Definition FINANCE_PAYOUT_HOLD : string := "finance.payout_hold".
Definition PLATFORM_CITY_STATUS : string := "platform.city_status".
Definition PLATFORM_FLAG_CHANGE : string := "platform.flag_change".
Definition PLATFORM_APP_VERSION : string := "platform.app_version".
Definition PLATFORM_SETTING_CHANGE : string := "platform.setting_change".
Definition PRIVACY_ERASURE : string := "privacy.erasure".

Definition ACTIONS : list Action :=
  [action SUPPORT_REFUND "support.refund" false EmptyString EmptyString;
   action FINANCE_REFUND "support.refund" false EmptyString EmptyString;
   action FINANCE_ADJUST "finance.adjust" false EmptyString "requires_checker";
   action FINANCE_PAYOUT "finance.payout" false "withdrawal_ids" EmptyString;
   action PRICING_CHANGE "pricing.write" false EmptyString EmptyString;
   action DRIVER_DEACTIVATE "driver.deactivate" false EmptyString EmptyString;
   action BULK_ACTION "admin.manage" false EmptyString EmptyString;
   action POLICY_CHANGE "platform.settings" true EmptyString EmptyString;
   action THRESHOLD_CHANGE "platform.settings" true EmptyString EmptyString;
   action SUPPORT_SLA_CHANGE "support.sla" false EmptyString EmptyString;
   action FINANCE_PAYOUT_CONFIG "finance.config" false EmptyString EmptyString;
   action FINANCE_WALLET_CREDIT "finance.adjust" false EmptyString EmptyString;
   action ZONE_CHANGE "zone.write" false EmptyString EmptyString;
   action NOTIFICATION_TEMPLATE_CHANGE "notify.template" false EmptyString EmptyString;
   action NOTIFICATION_CAMPAIGN_SEND "notify.campaign" false EmptyString EmptyString;
   action PROMOTION_LAUNCH "promo.read" false EmptyString EmptyString;
   action PROMOTION_BUDGET_INCREASE "promo.read" false EmptyString EmptyString;
   action FRAUD_RULE_CHANGE "fraud.rules" false EmptyString EmptyString;
   action FINANCE_PAYOUT_HOLD "finance.payout" true EmptyString EmptyString;
   action PLATFORM_CITY_STATUS "platform.settings" false EmptyString EmptyString;
   action PLATFORM_FLAG_CHANGE "platform.settings" false EmptyString EmptyString;
   action PLATFORM_APP_VERSION "platform.settings" false EmptyString EmptyString;
   action PLATFORM_SETTING_CHANGE "platform.settings" false EmptyString EmptyString;
   action PRIVACY_ERASURE "privacy.manage" true EmptyString EmptyString].

Definition action_for (key : string) : option Action :=
  List.find (fun a => bool_decide (act_key a = key)) ACTIONS.

(** ** Refusals *)

Inductive ap_error :=
| InvalidRequest (code : string)
| ThresholdNotConfigured
| NotPermitted (code : string)
| NotInScope
| WrongState (code : string)
| NoExecutor
| IntegrityFailure
| UnknownPermission (p : string)
| RequestDoesNotExist.

#[global] Instance ap_error_eq_dec : EqDecision ap_error.
Proof. solve_decision. Defined.

(** ** Policies *)

Inductive limit_kind := MONEY | COUNT | ALWAYS.

#[global] Instance limit_kind_eq_dec : EqDecision limit_kind.
Proof. solve_decision. Defined.

Definition limit_kind_of (s : string) : option limit_kind :=
  if bool_decide (s = "money") then Some MONEY
  else if bool_decide (s = "count") then Some COUNT
  else if bool_decide (s = "always") then Some ALWAYS
  else None.

Record Policy := {
  pol_id : Z;
  pol_country : string;
  pol_action : string;
  pol_kind : limit_kind;
  pol_currency : string;
  pol_limit : option Z;
  pol_active : bool;
  pol_version : Z;
  pol_from : Z;
  pol_to : option Z;
  pol_reason : string;
  pol_created_by : Snapshot;
  pol_changed_via : option Z
}.

Record PolicyTable := { pt_rows : list Policy; pt_next : Z }.

Definition policy_for (country action_key : string) (p : Policy) : bool :=
  bool_decide (pol_country p = country) && bool_decide (pol_action p = action_key).

(** The table's ordering within one country and action: the latest version first. *)
Definition later (a b : Policy) : bool := (pol_version b <? pol_version a)%Z.

Definition active_policy (t : PolicyTable) (country action_key : string) : option Policy :=
  best_by later (List.filter (fun p => policy_for country action_key p && pol_active p) (pt_rows t)).

(** An amount argument: an [int] that is not a bool, or anything else. *)
Inductive pyamount := AInt (z : Z) | ANotInt.

Definition check_country (country : option string) : res ap_error string :=
  let code := norm_code country in
  match registry_get code with
  | Some _ => Ok code
  | None => Err (InvalidRequest "UNKNOWN_COUNTRY")
  end.

Definition check_amount (amount : pyamount) : res ap_error Z :=
  match amount with
  | ANotInt => Err (InvalidRequest "AMOUNT_NOT_INTEGER")
  | AInt z => if (z <? 0)%Z then Err (InvalidRequest "AMOUNT_NEGATIVE") else Ok z
  end.

(** The currency test of [decide]: never convert. *)
Definition currency_fits (kind : limit_kind) (currency : option string) (p : Policy) : bool :=
  negb (bool_decide (kind = MONEY)) || bool_decide (norm_code currency = pol_currency p).

(** [decide]: [(needs_checker, policy)]. *)
Definition decide_checker (t : PolicyTable) (action_key : string) (country : option string)
    (amount : option pyamount) (currency : option string) : res ap_error (bool * option Policy) :=
  match action_for action_key with
  | None => Err (InvalidRequest "UNKNOWN_ACTION")
  | Some act =>
    let* country := check_country country in
    if act_always_checker act then Ok (true, None)
    else match active_policy t country action_key with
    | None => Err ThresholdNotConfigured
    | Some p =>
      match pol_kind p, pol_limit p with
      | ALWAYS, _ | _, None => Ok (true, Some p)
      | kind, Some limit =>
        match amount with
        | None => Err (InvalidRequest "AMOUNT_REQUIRED")
        | Some amount =>
          let* amount := check_amount amount in
          let* _ := require (currency_fits kind currency p) (InvalidRequest "CURRENCY_MISMATCH") in
          Ok ((limit <? amount)%Z, Some p)
        end
      end
    end
  end.

(** ** Writing a policy version *)

(** A checked proposal: country, kind, currency and limit. *)
Record PolicyFields := {
  pf_country : string;
  pf_kind : limit_kind;
  pf_currency : string;
  pf_limit : option Z
}.

Definition validate_policy_fields (country : option string) (action_key kind : string)
    (currency : option string) (maker_limit : option pyamount) : res ap_error PolicyFields :=
  let* country := check_country country in
  match action_for action_key with
  | None => Err (InvalidRequest "UNKNOWN_ACTION")
  | Some act =>
    let* _ := require (negb (act_always_checker act)) (InvalidRequest "ACTION_HAS_NO_POLICY") in
    match limit_kind_of kind with
    | None => Err (InvalidRequest "INVALID_LIMIT_KIND")
    | Some kind =>
      let currency := norm_code currency in
      let* _ := match kind with
                | MONEY => require (bool_decide (currency = country_currency (get_country (Some country))))
                             (InvalidRequest "CURRENCY_NOT_LOCAL")
                | _ => require (bool_decide (currency = EmptyString))
                         (InvalidRequest "CURRENCY_NOT_ALLOWED")
                end in
      let* limit := match kind, maker_limit with
                    | ALWAYS, Some _ => Err (InvalidRequest "LIMIT_NOT_ALLOWED")
                    | _, None => Ok None
                    | _, Some a => let* z := check_amount a in Ok (Some z)
                    end in
      Ok {| pf_country := country; pf_kind := kind; pf_currency := currency; pf_limit := limit |}
    end
  end.

Definition closed_policy (now : Z) (p : Policy) : Policy :=
  {| pol_id := pol_id p; pol_country := pol_country p; pol_action := pol_action p;
     pol_kind := pol_kind p; pol_currency := pol_currency p; pol_limit := pol_limit p;
     pol_active := false; pol_version := pol_version p; pol_from := pol_from p;
     pol_to := Some now; pol_reason := pol_reason p; pol_created_by := pol_created_by p;
     pol_changed_via := pol_changed_via p |}.

(** The row's own check constraints. *)
Definition policy_row_ok (p : Policy) : bool :=
  match pol_kind p with
  | MONEY => negb (bool_decide (pol_currency p = EmptyString))
  | COUNT => bool_decide (pol_currency p = EmptyString)
  | ALWAYS => bool_decide (pol_currency p = EmptyString) && bool_decide (pol_limit p = None)
  end && match pol_limit p with Some l => (0 <=? l)%Z | None => true end.

(** The two unique constraints, against the rows already there. *)
Definition policy_is_free (rows : list Policy) (p : Policy) : bool :=
  negb (existsb (fun q => policy_for (pol_country p) (pol_action p) q &&
                          ((pol_active q && pol_active p) || (pol_version q =? pol_version p)%Z)) rows).

Definition insert_policy (p : Policy) (t : PolicyTable) : res ap_error PolicyTable :=
  if policy_row_ok p && policy_is_free (pt_rows t) p
  then Ok {| pt_rows := pt_rows t ++ [p]; pt_next := (pt_next t + 1)%Z |}
  else Err IntegrityFailure.

Definition close_policy (now id : Z) (rows : list Policy) : list Policy :=
  (fun q => if (pol_id q =? id)%Z then closed_policy now q else q) <$> rows.

(** The highest version there has been for a country and an action, 0 for none. *)
Definition latest_version (t : PolicyTable) (country action_key : string) : Z :=
  default 0%Z (pol_version <$>
    best_by later (List.filter (policy_for country action_key) (pt_rows t))).

(** [write_policy_version]: close the active row, open the next version.
    [(new_policy, superseded)]. *)
Definition write_policy_version (now : Z) (country : option string) (action_key kind : string)
    (currency : option string) (maker_limit : option pyamount) (created_by : Snapshot)
    (reason : string) (changed_via : option Z) (t : PolicyTable)
    : res ap_error ((Policy * option Policy) * PolicyTable) :=
  let* f := validate_policy_fields country action_key kind currency maker_limit in
  let current := active_policy t (pf_country f) action_key in
  let rows := match current with
              | Some c => close_policy now (pol_id c) (pt_rows t)
              | None => pt_rows t
              end in
  let p := {| pol_id := pt_next t; pol_country := pf_country f; pol_action := action_key;
              pol_kind := pf_kind f; pol_currency := pf_currency f; pol_limit := pf_limit f;
              pol_active := true; pol_version := (latest_version t (pf_country f) action_key + 1)%Z;
              pol_from := now; pol_to := None;
              pol_reason := String.substring 0 10000 reason; pol_created_by := created_by;
              pol_changed_via := changed_via |} in
  let* t' := insert_policy p {| pt_rows := rows; pt_next := pt_next t |} in
  Ok ((p, closed_policy now <$> current), t').

(** ** The history of a threshold *)

#[local] Close Scope string_scope.

(** The rows of one country and action, in the order they were written: versions count
    from 1, every row but the last is closed at the instant its successor opens, and the
    last one is in force. *)
Definition history (l : list Policy) : Prop :=
  forall i p, l !! i = Some p ->
    pol_version p = Z.of_nat i + 1 /\
    match l !! S i with
    | Some q => pol_active p = false /\ pol_to p = Some (pol_from q)
    | None => pol_active p = true /\ pol_to p = None
    end.

Definition rows_for (t : PolicyTable) (country action_key : string) : list Policy :=
  List.filter (policy_for country action_key) (pt_rows t).

Record policies_ok (t : PolicyTable) : Prop := {
  ok_fresh : forall p, p ∈ pt_rows t -> pol_id p < pt_next t;
  ok_ids : base.NoDup (pol_id <$> pt_rows t);
  ok_history : forall country action_key, history (rows_for t country action_key)
}.

Lemma best_by_last (k : Z) (l : list Policy) :
  (forall i p, l !! i = Some p -> pol_version p = k + Z.of_nat i) -> best_by later l = last l.
Proof.
  revert k. induction l as [|a l IH]; intros k H; [done|]. cbn [best_by].
  rewrite (IH (k + 1)).
  2: { intros i p Hp. rewrite (H (S i) p Hp). lia. }
  destruct l as [|b l']; [done|]. rewrite last_cons_cons.
  destruct (last (b :: l')) as [y|] eqn:Hy; [|by apply last_None in Hy].
  rewrite last_lookup in Hy. apply (H (S (pred (length (b :: l')))) y) in Hy.
  pose proof (H 0%nat a eq_refl). unfold later. rewrite (proj2 (Z.ltb_lt _ _)); [done|lia].
Qed.

Lemma history_snoc h c : history (h ++ [c]) ->
  Forall (fun p => pol_active p = false) h /\ pol_active c = true /\
  pol_version c = Z.of_nat (length h) + 1.
Proof.
  intros H. split; [|].
  - apply Forall_lookup. intros i p Hp. assert (Hi : (i < length h)%nat) by (by eapply lookup_lt_Some).
    destruct (H i p) as [_ Hn]; [by rewrite lookup_app_l|].
    destruct ((h ++ [c]) !! S i) as [q|] eqn:E; [by destruct Hn|].
    apply lookup_ge_None in E. rewrite length_app in E. simpl in E. lia.
  - destruct (H (length h) c) as [Hv Hn]; [by apply list_lookup_middle|].
    destruct ((h ++ [c]) !! S (length h)) as [q|] eqn:E.
    + apply lookup_lt_Some in E. rewrite length_app in E. simpl in E. lia.
    + by destruct Hn.
Qed.

Lemma active_is_last t country action_key :
  policies_ok t -> active_policy t country action_key = last (rows_for t country action_key).
Proof.
  intros Hok. unfold active_policy. rewrite <- (filter_filter pol_active). fold (rows_for t country action_key).
  pose proof (ok_history t Hok country action_key) as H.
  destruct (rows_for t country action_key) as [|c h _] using rev_ind; [done|].
  apply history_snoc in H as (Hh & Hc & _). rewrite List.filter_app, (filter_none _ h) by done.
  simpl. rewrite Hc, last_snoc. done.
Qed.

Lemma latest_is_length t country action_key :
  policies_ok t -> latest_version t country action_key = Z.of_nat (length (rows_for t country action_key)).
Proof.
  intros Hok. unfold latest_version. fold (rows_for t country action_key).
  pose proof (ok_history t Hok country action_key) as H.
  rewrite (best_by_last 1) by (intros i p Hp; destruct (H i p Hp); lia).
  destruct (rows_for t country action_key) as [|c h _] using rev_ind; [done|].
  apply history_snoc in H as (_ & _ & Hv). rewrite last_snoc, length_app. simpl. lia.
Qed.

Lemma nodup_fmap_inj {A B} (f : A -> B) (l : list A) (x y : A) :
  base.NoDup (f <$> l) -> x ∈ l -> y ∈ l -> f x = f y -> x = y.
Proof.
  induction l as [|a l IH]; intros Hnd Hx Hy Hf; [by apply not_elem_of_nil in Hx|].
  apply NoDup_cons in Hnd as [Ha Hnd].
  assert (Hin : forall z, z ∈ l -> f z ∈ f <$> l) by (intros z ?; by apply list_elem_of_fmap_2).
  apply elem_of_cons in Hx as [->|Hx], Hy as [->|Hy]; [done| | |by apply IH].
  - by rewrite Hf in Ha; destruct Ha; apply Hin.
  - by rewrite <- Hf in Ha; destruct Ha; apply Hin.
Qed.

Lemma policy_for_spec c a p : policy_for c a p = true <-> pol_country p = c /\ pol_action p = a.
Proof. unfold policy_for. by rewrite andb_true_iff, !bool_decide_eq_true. Qed.

Lemma rows_for_close now id c a rows :
  List.filter (policy_for c a) (close_policy now id rows)
  = close_policy now id (List.filter (policy_for c a) rows).
Proof.
  unfold close_policy. induction rows as [|q rows IH]; [done|]. rewrite fmap_cons. cbn [List.filter].
  assert (policy_for c a (if pol_id q =? id then closed_policy now q else q) = policy_for c a q) as ->
    by (by destruct (pol_id q =? id)).
  rewrite IH. by destruct (policy_for c a q).
Qed.

Lemma close_ids now id rows : pol_id <$> close_policy now id rows = pol_id <$> rows.
Proof.
  unfold close_policy. rewrite <- list_fmap_compose. apply list_fmap_ext. intros i q _. simpl.
  by destruct (pol_id q =? id).
Qed.

Lemma close_none now id rows : Forall (fun q => pol_id q <> id) rows -> close_policy now id rows = rows.
Proof.
  unfold close_policy. induction 1 as [|q rows Hq _ IH]; [done|]. rewrite fmap_cons, IH.
  by rewrite (proj2 (Z.eqb_neq _ _) Hq).
Qed.

Lemma elem_of_rows_for t c a p :
  p ∈ rows_for t c a <-> p ∈ pt_rows t /\ pol_country p = c /\ pol_action p = a.
Proof. unfold rows_for. by rewrite elem_of_filter_b, policy_for_spec. Qed.

(** The rows a write leaves behind for one key, before the new row is added. *)
Definition after_close (now : Z) (t : PolicyTable) (c a : string) : list Policy :=
  match active_policy t c a with
  | Some cur => close_policy now (pol_id cur) (pt_rows t)
  | None => pt_rows t
  end.

Lemma after_close_own now t c a :
  policies_ok t ->
  List.filter (policy_for c a) (after_close now t c a)
  = match last (rows_for t c a) with
    | Some cur => take (pred (length (rows_for t c a))) (rows_for t c a) ++ [closed_policy now cur]
    | None => []
    end.
Proof.
  intros Hok. unfold after_close. rewrite active_is_last by done.
  destruct (rows_for t c a) as [|cur h _] eqn:E using rev_ind; [exact E|].
  rewrite last_snoc, length_app. simpl. rewrite Nat.add_1_r. simpl. rewrite take_app_length.
  rewrite rows_for_close. fold (rows_for t c a). rewrite E. unfold close_policy.
  rewrite fmap_app. fold (close_policy now (pol_id cur) h). rewrite close_none.
  - simpl. by rewrite Z.eqb_refl.
  - apply Forall_lookup. intros i q Hq Hid.
    assert (q = cur) as ->.
    { apply (nodup_fmap_inj pol_id (pt_rows t)); [apply ok_ids; done| | |done].
      - apply (elem_of_rows_for t c a). rewrite E. apply elem_of_app. left. by eapply list_elem_of_lookup_2.
      - apply (elem_of_rows_for t c a). rewrite E. set_solver. }
    pose proof (ok_history t Hok c a) as H. rewrite E in H.
    assert (Hi : (i < length h)%nat) by (by eapply lookup_lt_Some).
    destruct (H i cur) as [H1 _]; [by rewrite lookup_app_l|].
    destruct (history_snoc h cur H) as (_ & _ & H2). lia.
Qed.

Lemma after_close_other now t c a c' a' :
  policies_ok t -> (c', a') <> (c, a) ->
  List.filter (policy_for c' a') (after_close now t c a) = rows_for t c' a'.
Proof.
  intros Hok Hne. unfold after_close. destruct (active_policy t c a) as [cur|] eqn:Ha; [|done].
  rewrite rows_for_close. fold (rows_for t c' a'). apply close_none, Forall_forall.
  intros q Hq Hid. apply elem_of_rows_for in Hq as (Hq & <- & <-).
  rewrite active_is_last in Ha by done. apply last_Some_elem_of, elem_of_rows_for in Ha as (Hc & <- & <-).
  apply Hne. by rewrite (nodup_fmap_inj pol_id (pt_rows t) q cur (ok_ids t Hok) Hq Hc Hid).
Qed.

Lemma history_extend now h cur p :
  history (h ++ [cur]) -> pol_version p = Z.of_nat (length h) + 2 -> pol_from p = now ->
  pol_active p = true -> pol_to p = None -> history ((h ++ [closed_policy now cur]) ++ [p]).
Proof.
  intros H Hv Hf Ha Ht i q Hq.
  destruct (decide (i < length h)%nat) as [Hi|Hi].
  - rewrite <- app_assoc, lookup_app_l in Hq by done. destruct (H i q) as [H1 H2]; [by rewrite lookup_app_l|].
    split; [done|]. rewrite <- app_assoc. destruct (decide (S i < length h)%nat) as [Hs|Hs].
    + rewrite lookup_app_l in H2 by done; rewrite lookup_app_l by done. exact H2.
    + assert (S i = length h) as Hs' by lia. rewrite Hs' in H2; rewrite Hs'.
      rewrite list_lookup_middle in H2 by done. cbn [app]. rewrite list_lookup_middle by done. exact H2.
  - destruct (decide (i = length h)) as [->|Hne].
    + rewrite <- app_assoc in Hq; rewrite <- app_assoc. cbn [app] in Hq; cbn [app]. rewrite list_lookup_middle in Hq by done.
      injection Hq as <-. destruct (history_snoc h cur H) as (_ & _ & Hvc). split; [by simpl|].
      rewrite lookup_app_r by lia. replace (S (length h) - length h)%nat with 1%nat by lia. simpl.
      by rewrite Hf.
    + pose proof (lookup_lt_Some _ _ _ Hq) as Hl. rewrite !length_app in Hl. simpl in Hl.
      assert (i = length (h ++ [closed_policy now cur])) as Hii by (rewrite length_app; simpl; lia).
      rewrite Hii, list_lookup_middle in Hq by done. injection Hq as <-. rewrite Hii.
      rewrite lookup_ge_None_2 by (rewrite length_app; simpl; lia).
      rewrite length_app. simpl. split; [lia|done].
Qed.

Lemma history_single p :
  pol_version p = 1 -> pol_active p = true -> pol_to p = None -> history [p].
Proof. intros Hv Ha Ht [|i] q Hq; [|done]. injection Hq as <-. done. Qed.

Lemma closed_inactive now h cur :
  Forall (fun p => pol_active p = false) h ->
  Forall (fun p => pol_active p = false) (h ++ [closed_policy now cur]).
Proof. intros H. apply Forall_app. split; [done|]. by constructor. Qed.

(** The key's own history after the write. *)
Lemma write_own_history now t c a p :
  policies_ok t -> pol_version p = latest_version t c a + 1 -> pol_from p = now ->
  pol_active p = true -> pol_to p = None ->
  history (List.filter (policy_for c a) (after_close now t c a) ++ [p]).
Proof.
  intros Hok Hv Hf Ha Ht. rewrite after_close_own by done. rewrite latest_is_length in Hv by done.
  pose proof (ok_history t Hok c a) as H.
  destruct (rows_for t c a) as [|cur h _] using rev_ind; [by apply history_single|].
  rewrite last_snoc, length_app in *. simpl in *. rewrite Nat.add_1_r. simpl. rewrite take_app_length.
  apply history_extend; [done|lia|done..].
Qed.

Lemma write_is_free now t c a p :
  policies_ok t -> pol_country p = c -> pol_action p = a -> pol_version p = latest_version t c a + 1 ->
  pol_from p = now -> pol_active p = true -> pol_to p = None ->
  policy_is_free (after_close now t c a) p = true.
Proof.
  intros Hok Hc Hac Hv Hf Ha Ht. unfold policy_is_free. apply negb_true_iff.
  destruct (existsb _ _) eqn:E; [|done]. apply existsb_exists in E as (q & Hq & Hb).
  apply andb_true_iff in Hb as [Hk Hb]. rewrite Hc, Hac in Hk. rewrite Ha, andb_true_r in Hb.
  assert (Hin : q ∈ List.filter (policy_for c a) (after_close now t c a)).
  { apply elem_of_filter_b. split; [by apply list_elem_of_In|done]. }
  pose proof (write_own_history now t c a p Hok Hv Hf Ha Ht) as H.
  apply list_elem_of_lookup in Hin as [i Hi]. pose proof (lookup_lt_Some _ _ _ Hi) as Hl.
  destruct (history_snoc _ _ H) as (Hin & _ & Hvp).
  assert (pol_active q = false) as Hqa by (by eapply (Forall_lookup_1 _ _ _ _ Hin Hi)).
  rewrite Hqa in Hb. simpl in Hb. apply Z.eqb_eq in Hb.
  destruct (H i q) as [Hvq _]; [by rewrite lookup_app_l|]. lia.
Qed.

Lemma validated_row f country action_key kind currency limit p :
  validate_policy_fields country action_key kind currency limit = Ok f ->
  pol_kind p = pf_kind f -> pol_currency p = pf_currency f -> pol_limit p = pf_limit f ->
  policy_row_ok p = true.
Proof.
  unfold validate_policy_fields. intros H Hk Hc Hl.
  apply res_bind_ok in H as (code & Hcode & H). destruct (action_for action_key) as [act|]; [|done].
  apply res_bind_ok in H as ([] & _ & H). destruct (limit_kind_of kind) as [k|]; [|done].
  apply res_bind_ok in H as ([] & Hcur & H). apply res_bind_ok in H as (l & Hlim & [= <-]).
  simpl in *. unfold policy_row_ok. rewrite Hk, Hc, Hl.
  assert (Hpos : match l with Some l => (0 <=? l) | None => true end = true).
  { assert (Hz : forall a, (let* z := check_amount a in Ok (Some z)) = Ok l ->
               match l with Some l => (0 <=? l) | None => true end = true).
    { intros [z|] Hz; [|done]. simpl in Hz. destruct (z <? 0) eqn:Ez; [done|]. injection Hz as <-.
      bool_cases. by apply Z.leb_le. }
    destruct limit as [a|]; [|by destruct k; injection Hlim as <-].
    destruct k; [by apply (Hz a)|by apply (Hz a)|done]. }
  rewrite Hpos, andb_true_r. destruct k.
  - apply require_ok, bool_decide_eq_true in Hcur as ->. unfold check_country in Hcode.
    clear -Hcode. unfold get_country. destruct (registry_get (norm_code country)) as [c|] eqn:E; [|done].
    destruct (truthy _); [|done]. destruct (registry_get (norm_code (Some code))) as [c'|] eqn:E'; [|done].
    unfold registry_get in E'. apply List.find_some in E' as [Hin _].
    destruct Hin as [<-|[<-|[]]]; done.
  - apply require_ok, bool_decide_eq_true in Hcur. by rewrite bool_decide_eq_true.
  - apply require_ok, bool_decide_eq_true in Hcur. rewrite andb_true_iff, !bool_decide_eq_true.
    split; [done|]. by destruct limit as [[]|]; simplify_eq/=.
Qed.

Lemma after_close_spec now t c a :
  match active_policy t c a with
  | Some cur => close_policy now (pol_id cur) (pt_rows t)
  | None => pt_rows t
  end = after_close now t c a.
Proof. done. Qed.

Lemma after_close_ids now t c a : pol_id <$> after_close now t c a = pol_id <$> pt_rows t.
Proof. unfold after_close. case_match; [apply close_ids|done]. Qed.

Lemma write_tables_ok now t c a p :
  policies_ok t -> pol_country p = c -> pol_action p = a -> pol_version p = latest_version t c a + 1 ->
  pol_from p = now -> pol_active p = true -> pol_to p = None -> pol_id p = pt_next t ->
  policies_ok {| pt_rows := after_close now t c a ++ [p]; pt_next := pt_next t + 1 |}.
Proof.
  intros Hok Hc Ha Hv Hf Hact Hto Hid.
  assert (Hlt : forall i, i ∈ pol_id <$> after_close now t c a -> i < pt_next t).
  { intros i Hi. rewrite after_close_ids in Hi. apply list_elem_of_fmap in Hi as (q & -> & Hq).
    by apply (ok_fresh t Hok). }
  split; simpl.
  - intros q [Hq|Hq]%elem_of_app.
    + pose proof (Hlt (pol_id q) (list_elem_of_fmap_2 _ _ _ Hq)). lia.
    + apply list_elem_of_singleton in Hq as ->. lia.
  - rewrite fmap_app. apply NoDup_app. split; [rewrite after_close_ids; apply ok_ids; done|].
    split; [|apply NoDup_singleton]. intros i Hi%Hlt Hq. simpl in Hq.
    apply list_elem_of_singleton in Hq. lia.
  - intros c' a'. unfold rows_for. simpl. rewrite List.filter_app. simpl.
    destruct (policy_for c' a' p) eqn:Hp.
    + apply policy_for_spec in Hp as [<- <-]. rewrite Hc, Ha. by apply write_own_history.
    + rewrite app_nil_r, after_close_other; [by apply ok_history|done|].
      intros [= -> ->]. rewrite (proj2 (policy_for_spec c a p)) in Hp by done. done.
Qed.

(** A threshold's past is kept: writing a version leaves every other country and
    action alone, closes the version in force at the instant the new one opens, numbers
    the new one next, and makes it the only one in force; the rows stay a gapless
    history, and a proposal that passes validation is never refused by the table's
    constraints. *)
Theorem policy_history_kept now country action_key kind currency limit by_whom reason via t :
  policies_ok t ->
  match write_policy_version now country action_key kind currency limit by_whom reason via t with
  | Ok ((p, superseded), t') =>
      policies_ok t' /\ active_policy t' (pol_country p) action_key = Some p /\
      pol_version p = latest_version t (pol_country p) action_key + 1 /\
      superseded = closed_policy now <$> active_policy t (pol_country p) action_key /\
      rows_for t' (pol_country p) action_key =
        take (pred (length (rows_for t (pol_country p) action_key)))
             (rows_for t (pol_country p) action_key) ++ option_list superseded ++ [p] /\
      (forall c a, (c, a) <> (pol_country p, action_key) -> rows_for t' c a = rows_for t c a)
  | Err e => exists code, e = InvalidRequest code
  end.
Proof.
  intros Hok. unfold write_policy_version.
  destruct (validate_policy_fields country action_key kind currency limit) as [f|e] eqn:Hval;
    cbn [res_bind].
  2: { revert Hval. unfold validate_policy_fields, check_country, check_amount, require.
       clear. intros H. repeat (first [split_match H | progress simpl in H]; simplify_eq); eauto. }
  rewrite after_close_spec. unfold insert_policy. cbn [pt_rows pt_next].
  match goal with |- context [policy_row_ok ?q] => set (p := q) end.
  rewrite (validated_row f country action_key kind currency limit p Hval) by done.
  rewrite (write_is_free now t (pf_country f) action_key p) by done. cbn [andb res_bind].
  split; [by apply write_tables_ok|].
  assert (Hok' : policies_ok {| pt_rows := after_close now t (pf_country f) action_key ++ [p];
                                pt_next := pt_next t + 1 |}) by (by apply write_tables_ok).
  assert (Hrows : rows_for {| pt_rows := after_close now t (pf_country f) action_key ++ [p];
                              pt_next := pt_next t + 1 |} (pf_country f) action_key
                  = List.filter (policy_for (pf_country f) action_key)
                      (after_close now t (pf_country f) action_key) ++ [p]).
  { unfold rows_for. simpl. rewrite List.filter_app. simpl.
    by rewrite (proj2 (policy_for_spec (pf_country f) action_key p)). }
  change (pol_country p) with (pf_country f). split_and!; [| done | done | |].
  - rewrite active_is_last, Hrows by done. by rewrite last_snoc.
  - rewrite Hrows, after_close_own, active_is_last by done.
    destruct (last (rows_for t (pf_country f) action_key)) as [cur|] eqn:Hl; simpl.
    + by rewrite <- app_assoc.
    + apply last_None in Hl. rewrite Hl. done.
  - intros c a Hne. unfold rows_for. simpl. rewrite List.filter_app, after_close_other by done. simpl.
    destruct (policy_for c a p) eqn:Hp; [|by rewrite app_nil_r].
    apply policy_for_spec in Hp as [<- <-]. done.
Qed.

(** A maker acts alone only under a limit somebody configured: the decision "no
    checker" needs an action of the catalogue that is not built-in always-checked, an
    active policy of that very country and action, measured in money of the policy's own
    currency or in a count, and a whole non-negative amount not above its limit; a
    country with no policy is refused rather than defaulted. *)
Theorem maker_alone_only_within_limit t action_key country amount currency :
  match decide_checker t action_key country amount currency with
  | Ok (false, policy) =>
      exists act p limit z,
        action_for action_key = Some act /\ act_always_checker act = false /\
        policy = Some p /\ active_policy t (norm_code country) action_key = Some p /\
        pol_active p = true /\ pol_country p = norm_code country /\ pol_action p = action_key /\
        pol_limit p = Some limit /\ amount = Some (AInt z) /\ 0 <= z <= limit /\
        (pol_kind p = COUNT \/ pol_kind p = MONEY /\ norm_code currency = pol_currency p)
  | Ok (true, None) => exists act, action_for action_key = Some act /\ act_always_checker act = true
  | Ok (true, Some p) =>
      active_policy t (norm_code country) action_key = Some p /\
      (pol_kind p = ALWAYS \/ pol_limit p = None \/
       exists limit z, pol_limit p = Some limit /\ amount = Some (AInt z) /\ limit < z)
  | Err ThresholdNotConfigured => active_policy t (norm_code country) action_key = None
  | Err e => exists code, e = InvalidRequest code
  end.
Proof.
  unfold decide_checker. destruct (action_for action_key) as [act|] eqn:Hact; [|by eexists].
  unfold check_country. destruct (registry_get (norm_code country)); simpl; [|by eexists].
  destruct (act_always_checker act) eqn:Halw; [by exists act|].
  destruct (active_policy t (norm_code country) action_key) as [p|] eqn:Hp; [|done].
  assert (Hin : pol_active p = true /\ pol_country p = norm_code country /\ pol_action p = action_key).
  { unfold active_policy in Hp. apply best_by_elem, elem_of_filter_b in Hp as [_ Hb].
    apply andb_true_iff in Hb as [Hb ?]. apply policy_for_spec in Hb as [? ?]. done. }
  destruct Hin as (Hpa & Hpc & Hpk). unfold currency_fits.
  destruct (pol_limit p) as [limit|] eqn:Hlim; [|by destruct (pol_kind p); eauto].
  destruct (pol_kind p) eqn:Hk; [| |by eauto]; (destruct amount as [[z|]|]; simpl; [|by eexists..]);
    (destruct (z <? 0) eqn:Hz; simpl; [by eexists|]); bool_cases.
  - destruct (bool_decide (norm_code currency = pol_currency p)) eqn:Hcur; simpl; [|by eexists].
    apply bool_decide_eq_true in Hcur. destruct (limit <? z) eqn:Hlz; bool_cases.
    + split; [done|]. right. right. by exists limit, z.
    + exists act, p, limit, z. split_and!; try done; [by right].
  - destruct (limit <? z) eqn:Hlz; bool_cases.
    + split; [done|]. right. right. by exists limit, z.
    + exists act, p, limit, z. split_and!; try done; [by left].
Qed.

(** ** A concrete threshold *)

Definition no_policies : PolicyTable := {| pt_rows := []; pt_next := 1 |}.

Lemma no_policies_ok : policies_ok no_policies.
Proof. split; [by intros p Hp%not_elem_of_nil | constructor | by intros c a [|i] p]. Qed.

Definition seed : Snapshot := {| sn_id := None; sn_label := "seed"; sn_email := EmptyString; sn_role := EmptyString |}.

Definition demo_write (now : Z) (limit : Z) (t : PolicyTable) :=
  write_policy_version now (Some "in"%string) SUPPORT_REFUND "money" (Some "inr"%string)
    (Some (AInt limit)) seed "first" None t.

(** A table holding one threshold: support refunds in India, alone up to 500 rupees. *)
Definition demo_policies : PolicyTable :=
  match demo_write 10 50000 no_policies with Ok (_, t) => t | Err _ => no_policies end.

Example refund_alone_below_limit :
  is_ok (let* d := decide_checker demo_policies SUPPORT_REFUND (Some "IN"%string) (Some (AInt 50000))
                     (Some "INR"%string) in require (negb d.1) NotInScope) = true.
Proof. vm_compute. reflexivity. Qed.

Example refund_above_limit_needs_checker :
  (let* d := decide_checker demo_policies SUPPORT_REFUND (Some "IN"%string) (Some (AInt 50001))
               (Some "INR"%string) in Ok d.1) = Ok true.
Proof. vm_compute. reflexivity. Qed.

Example refund_in_us_blocked :
  decide_checker demo_policies SUPPORT_REFUND (Some "US"%string) (Some (AInt 1)) (Some "USD"%string)
  = Err ThresholdNotConfigured.
Proof. vm_compute. reflexivity. Qed.

Lemma policy_history_kept_witness :
  exists p t', demo_write 10 50000 no_policies = Ok ((p, None), t') /\
    active_policy t' "IN" SUPPORT_REFUND = Some p /\ pol_version p = 1.
Proof.
  pose proof (policy_history_kept 10 (Some "in"%string) SUPPORT_REFUND "money" (Some "inr"%string)
    (Some (AInt 50000)) seed "first" None no_policies no_policies_ok) as H.
  destruct (write_policy_version _ _ _ _ _ _ _ _ _ no_policies) as [[[p sup] t']|e] eqn:E;
    [|vm_compute in E; discriminate E].
  vm_compute in E. injection E as <- <- <-. destruct H as (_ & Ha & Hv & _).
  eexists _, _. split; [reflexivity|]. split; [exact Ha|]. reflexivity.
Defined.
