(* ===== verification/Approvals.v ===== *)
(** * Approvals: one request, two people, one execution

    The request table of [servers/approvals/models.py] with its constraints, the
    registry of executors and close callbacks ([registry.py]), and the service
    ([service.py]): raising a request or acting alone ([require_approval_or_execute]),
    who may check ([_may_check], [self_approval_allowed]), the four decisions
    ([approve], [reject], [cancel], expiry) and the one run of the executor ([_run],
    [_finish]).

    The service commits in several transactions and runs the executor outside every
    lock, so other callers' steps come in between.  Each transaction is a definition of
    its own; the composed operations are built from them the way the code composes
    them, and [step] interleaves them.  [W] is everything else the executors change; an
    executor also reads and writes the policy table, and never the requests. *)

From S2P Require Import Prelude PyText Countries Money Models Access Json ApprovalPolicy.
#[local] Open Scope Z_scope.
#[local] Open Scope string_scope.

(** ** The request table *)

Inductive status := REQUESTED | APPROVED | REJECTED | EXECUTED | FAILED | CANCELLED | EXPIRED.

#[global] Instance status_eq_dec : EqDecision status.
Proof. solve_decision. Defined.

(** [KEY_HELD_STATUSES]. *)
Definition key_held (st : status) : bool :=
  match st with REQUESTED | APPROVED | EXECUTED => true | _ => false end.

(** [TERMINAL_STATUSES]. *)
Definition terminal (st : status) : bool :=
  match st with REQUESTED | APPROVED => false | _ => true end.

Definition DEFAULT_TTL_HOURS : Z := 72.

Record Request := {
  rq_action : string;
  rq_country : string;
  rq_scope : option Z;
  rq_amount : option Z;
  rq_currency : string;
  rq_policy : option Z;
  rq_target_type : string;
  rq_target_id : string;
  rq_payload : payload_dict;
  rq_reason : string;
  rq_maker : Z;
  rq_maker_snapshot : Snapshot;
  rq_status : status;
  rq_requested_at : Z;
  rq_expires_at : Z;
  rq_checker : option Z;
  rq_checker_snapshot : Snapshot;
  rq_self_approved : bool;
  rq_decision_reason : string;
  rq_decided_at : option Z;
  rq_executed_at : option Z;
  rq_result : json;
  rq_error_code : string;
  rq_error : string;
  rq_key : string
}.

Record AuditRow := {
  au_action : string;
  au_request : Z;
  au_actor : option Z;
  au_label : string;
  au_reason : string
}.

(** ** Executors and callbacks *)

(** An executor gets the instant, the request's id and row, and the tables it may change.
    What running one ends in: a value, [ExecutionRefused], or another exception. *)
Inductive exec_outcome :=
| Returned (result : json)
| ExecutionRefused (code message : string)
| Raised (message : string).

Definition executor (W : Type) : Type :=
  Z -> Z -> Request -> PolicyTable * W -> exec_outcome * (PolicyTable * W).

(** [None] is a callback that raised: its savepoint is rolled back and it is logged. *)
Definition callback (W : Type) : Type := Z -> Request -> string -> W -> option W.

Section Service.
Context {W : Type}.
Context (executor_for : string -> option (executor W)).
Context (on_closed : string -> list (callback W)).
Context (ttl : Z).

Record Sys := {
  policies : PolicyTable;
  requests : gmap Z Request;
  next_request : Z;
  trail : list AuditRow;
  clock : Z;
  world : W
}.

Definition set_requests (m : gmap Z Request) (n : Z) (s : Sys) : Sys :=
  {| policies := policies s; requests := m; next_request := n; trail := trail s;
     clock := clock s; world := world s |}.

Definition set_world (p : PolicyTable) (w : W) (s : Sys) : Sys :=
  {| policies := p; requests := requests s; next_request := next_request s; trail := trail s;
     clock := clock s; world := w |}.

Definition note (action : string) (id : Z) (actor : option Z) (label reason : string) (s : Sys) : Sys :=
  {| policies := policies s; requests := requests s; next_request := next_request s;
     trail := trail s ++ [{| au_action := action; au_request := id; au_actor := actor;
                             au_label := label; au_reason := reason |}];
     clock := clock s; world := world s |}.

(** [notify_closed]: every callback in turn, each in a savepoint of its own. *)
Definition notify_closed (id : Z) (r : Request) (outcome : string) (s : Sys) : Sys :=
  set_world (policies s)
    (foldl (fun w f => default w (f id r outcome w)) (world s) (on_closed (rq_action r))) s.

(** *** Constraints *)

Definition checker_is_not_maker (r : Request) : bool :=
  match rq_checker r with
  | None => true
  | Some c => negb (c =? rq_maker r)%Z || rq_self_approved r
  end.

Definition amount_not_negative (r : Request) : bool :=
  match rq_amount r with Some a => (0 <=? a)%Z | None => true end.

(** [approvals_idempotency_key_held]: among rows holding their key, keys are distinct. *)
Definition key_is_free (id : Z) (r : Request) (m : gmap Z Request) : bool :=
  negb (key_held (rq_status r)) ||
  bool_decide (map_Forall (fun j q => j = id \/ key_held (rq_status q) = false \/ rq_key q <> rq_key r) m).

(** [row.save()]. *)
Definition save_request (id : Z) (r : Request) (s : Sys) : res ap_error Sys :=
  if checker_is_not_maker r && amount_not_negative r && key_is_free id r (requests s)
  then Ok (set_requests (<[id := r]> (requests s)) (next_request s) s)
  else Err IntegrityFailure.

Definition insert_request (r : Request) (s : Sys) : res ap_error (Z * Sys) :=
  let id := next_request s in
  let* s' := save_request id r s in
  Ok (id, set_requests (requests s') (id + 1)%Z s').

(** [_existing]: the row holding the key. *)
Definition existing (key : string) (s : Sys) : option (Z * Request) :=
  List.find (fun e => bool_decide (rq_key e.2 = key) && key_held (rq_status e.2))
    (map_to_list (requests s)).

(** *** Status changes *)

Definition with_status (st : status) (r : Request) : Request :=
  {| rq_action := rq_action r; rq_country := rq_country r; rq_scope := rq_scope r;
     rq_amount := rq_amount r; rq_currency := rq_currency r; rq_policy := rq_policy r;
     rq_target_type := rq_target_type r; rq_target_id := rq_target_id r;
     rq_payload := rq_payload r; rq_reason := rq_reason r; rq_maker := rq_maker r;
     rq_maker_snapshot := rq_maker_snapshot r; rq_status := st;
     rq_requested_at := rq_requested_at r; rq_expires_at := rq_expires_at r;
     rq_checker := rq_checker r; rq_checker_snapshot := rq_checker_snapshot r;
     rq_self_approved := rq_self_approved r; rq_decision_reason := rq_decision_reason r;
     rq_decided_at := rq_decided_at r; rq_executed_at := rq_executed_at r;
     rq_result := rq_result r; rq_error_code := rq_error_code r; rq_error := rq_error r;
     rq_key := rq_key r |}.

(** A decision at [now]: the new status, its reason, and, unless the maker withdrew,
    the checker with the self-approved mark. *)
Definition decided (st : status) (checker : option User) (own : bool) (reason : string) (now : Z)
    (r : Request) : Request :=
  {| rq_action := rq_action r; rq_country := rq_country r; rq_scope := rq_scope r;
     rq_amount := rq_amount r; rq_currency := rq_currency r; rq_policy := rq_policy r;
     rq_target_type := rq_target_type r; rq_target_id := rq_target_id r;
     rq_payload := rq_payload r; rq_reason := rq_reason r; rq_maker := rq_maker r;
     rq_maker_snapshot := rq_maker_snapshot r; rq_status := st;
     rq_requested_at := rq_requested_at r; rq_expires_at := rq_expires_at r;
     rq_checker := match checker with Some u => Some (uid u) | None => rq_checker r end;
     rq_checker_snapshot := match checker with
                            | Some u => actor_snapshot (Some u)
                            | None => rq_checker_snapshot r
                            end;
     rq_self_approved := match checker with Some _ => own | None => rq_self_approved r end;
     rq_decision_reason := String.substring 0 10000 reason; rq_decided_at := Some now;
     rq_executed_at := rq_executed_at r; rq_result := rq_result r;
     rq_error_code := rq_error_code r; rq_error := rq_error r; rq_key := rq_key r |}.

(** The columns [_finish] updates. *)
Definition finished (st : status) (result : json) (code error : string) (now : Z) (r : Request) : Request :=
  {| rq_action := rq_action r; rq_country := rq_country r; rq_scope := rq_scope r;
     rq_amount := rq_amount r; rq_currency := rq_currency r; rq_policy := rq_policy r;
     rq_target_type := rq_target_type r; rq_target_id := rq_target_id r;
     rq_payload := rq_payload r; rq_reason := rq_reason r; rq_maker := rq_maker r;
     rq_maker_snapshot := rq_maker_snapshot r; rq_status := st;
     rq_requested_at := rq_requested_at r; rq_expires_at := rq_expires_at r;
     rq_checker := rq_checker r; rq_checker_snapshot := rq_checker_snapshot r;
     rq_self_approved := rq_self_approved r; rq_decision_reason := rq_decision_reason r;
     rq_decided_at := rq_decided_at r; rq_executed_at := Some now;
     rq_result := result; rq_error_code := code; rq_error := error; rq_key := rq_key r |}.

(** *** Running the executor, once *)

(** [_finish]: a conditional update on [status = APPROVED]; the flag says whether it
    matched. *)
Definition finish (id : Z) (st : status) (result : json) (code error : string) (s : Sys) : bool * Sys :=
  match requests s !! id with
  | Some r =>
    if bool_decide (rq_status r = APPROVED)
    then (true, set_requests (<[id := finished st result code error (clock s) r]> (requests s))
                  (next_request s) s)
    else (false, s)
  | None => (false, s)
  end.

Definition as_result (j : json) : json :=
  match j with JObj _ => j | _ => JObj [("result", j)] end.

(** The end of [_run]: record what the executor did. *)
Definition record_outcome (id : Z) (o : exec_outcome) (actor : option Z) (reason : string) (s : Sys) : Sys :=
  match o with
  | ExecutionRefused code message =>
      note "approval_failed" id actor EmptyString reason (finish id FAILED (JObj []) code message s).2
  | Raised message =>
      note "approval_failed" id actor EmptyString reason
        (finish id FAILED (JObj []) "EXECUTOR_ERROR" (String.substring 0 2000 message) s).2
  | Returned j =>
      note "approval_executed" id actor EmptyString reason
        (finish id EXECUTED (as_result j) EmptyString EmptyString s).2
  end.

(** The executor's own changes, before the outcome is recorded. *)
Definition execute (ex : executor W) (id : Z) (r : Request) (s : Sys) : exec_outcome * Sys :=
  let '(o, (p, w)) := ex (clock s) id r (policies s, world s) in (o, set_world p w s).

Definition run (id : Z) (r : Request) (ex : executor W) (actor : option Z) (reason : string) (s : Sys) : Sys :=
  let '(o, s') := execute ex id r s in record_outcome id o actor reason s'.

(** [str(registry.NoExecutor(...))]. *)
Definition no_executor_text (key : string) : string :=
  "no executor is registered for '" +:+ key +:+
  "'; a request for it could be raised but never carried out".

(** What the caller that made the transition does next: the registered executor, or a
    failure when none is registered. *)
Definition carry_out (id : Z) (r : Request) (actor : option Z) (reason : string) (s : Sys) : Sys :=
  match executor_for (rq_action r) with
  | Some ex => run id r ex actor reason s
  | None => note "approval_failed" id actor EmptyString reason
              (finish id FAILED (JObj []) "NO_EXECUTOR" (no_executor_text (rq_action r)) s).2
  end.

(** *** Who may check *)

Definition scope_row (acc : AccessDb) (r : Request) : option GeoRow :=
  match rq_scope r with Some n => nodes acc !! n | None => None end.

Definition lift_permission {A : Type} (m : res string A) : res ap_error A := map_err UnknownPermission m.

(** The three questions, in the order that leaks least. *)
Definition may_check (acc : AccessDb) (r : Request) (checker : User) : res ap_error unit :=
  let* g := lift_permission (granted acc checker "approval.check" None) in
  let* _ := require g.1 (NotPermitted "CHECKER_LACKS_CAPABILITY") in
  let* here := lift_permission (may_act acc checker "approval.check" (scope_row acc r)) in
  let* _ := require here NotInScope in
  match action_for (rq_action r) with
  | None => Err (InvalidRequest "UNKNOWN_ACTION")
  | Some act =>
    let* able := lift_permission (may_act acc checker (act_capability act) (scope_row acc r)) in
    require able (NotPermitted "CHECKER_LACKS_ACTION_CAPABILITY")
  end.

(** An active assignment to an active role that carries [approval.check]. *)
Definition holds_check_role (acc : AccessDb) (u : User) : bool :=
  existsb (fun a => (as_admin a =? uid u)%Z && as_active a && u_active u &&
                    match roles acc !! as_role a with
                    | Some r => r_active r && bool_decide ("approval.check" ∈ r_permissions r)
                    | None => false
                    end) (assignment_rows acc).

(** [_possible_checkers] yields somebody. *)
Definition has_possible_checker (acc : AccessDb) (r : Request) : bool :=
  existsb (fun u => u_active u && negb (uid u =? rq_maker r)%Z &&
                    (holds_check_role acc u || u_superuser u) &&
                    negb (u_break_glass u) && is_ok (may_check acc r u))
    (snd <$> map_to_list (users acc)).

(** [solo] is [settings.APPROVALS_SOLO_SUPER_ADMIN]. *)
Definition self_approval_allowed (acc : AccessDb) (solo : bool) (r : Request) (u : User) : bool :=
  solo && (uid u =? rq_maker r)%Z && is_super_admin acc u && negb (u_break_glass u) &&
  negb (has_possible_checker acc r).

Definition check_checker (acc : AccessDb) (solo : bool) (r : Request) (checker : User) : res ap_error unit :=
  let* _ := may_check acc r checker in
  require (negb (uid checker =? rq_maker r)%Z || self_approval_allowed acc solo r checker)
    (NotPermitted "SELF_APPROVAL").

Definition SELF_APPROVAL_MIN_REASON : nat := 10%nat.

Definition self_reason_ok (r : Request) (own : bool) (reason : string) : bool :=
  negb (own && bool_decide (rq_status r = REQUESTED) &&
        (String.length (strip reason) <? SELF_APPROVAL_MIN_REASON)%nat).

Definition is_past_expiry (r : Request) (s : Sys) : bool := (rq_expires_at r <=? clock s)%Z.

Definition is_overdue (r : Request) (s : Sys) : bool :=
  bool_decide (rq_status r = REQUESTED) && is_past_expiry r s.

(** [_expire_if_due]. *)
Definition expire_if_due (id : Z) (s : Sys) : bool * Sys :=
  match requests s !! id with
  | Some r =>
    if is_overdue r s
    then let r' := with_status EXPIRED r in
         let s' := set_requests (<[id := r']> (requests s)) (next_request s) s in
         (true, notify_closed id r' "expired"
                  (note "approval_expired" id None "system:approval_expiry"
                     "expired before a checker acted" s'))
    else (false, s)
  | None => (false, s)
  end.

(** The refusal of a step that came too late. *)
Definition not_open (r : Request) : ap_error :=
  WrongState (if rq_checker r then "ALREADY_DECIDED" else "NOT_OPEN").

(** *** The locked transactions *)

(** What a locked decision finds: it made the transition, the same decision had been
    made, or the request is overdue. *)
Inductive lock_result :=
| Decided (r : Request)
| Already (r : Request)
| Overdue.

Definition locked (id : Z) (s : Sys) : res ap_error Request := res_opt RequestDoesNotExist (requests s !! id).

Definition approve_lock (acc : AccessDb) (solo : bool) (id : Z) (checker : User) (reason : string)
    (s : Sys) : res ap_error (lock_result * Sys) :=
  let* r := locked id s in
  let* _ := check_checker acc solo r checker in
  let own := (uid checker =? rq_maker r)%Z in
  let* _ := require (self_reason_ok r own reason) (InvalidRequest "REASON_REQUIRED") in
  if is_overdue r s then Ok (Overdue, s)
  else if negb (bool_decide (rq_status r = REQUESTED))
  then if bool_decide (rq_checker r = Some (uid checker)) &&
          bool_decide (rq_status r ∈ [APPROVED; EXECUTED; FAILED])
       then Ok (Already r, s) else Err (not_open r)
  else
    let r' := decided APPROVED (Some checker) own reason (clock s) r in
    let* s' := save_request id r' s in
    Ok (Decided r', note (if own then "approval_self_approved" else "approval_approved") id
                      (Some (uid checker)) EmptyString reason s').

Definition reject_lock (acc : AccessDb) (solo : bool) (id : Z) (checker : User) (reason : string)
    (s : Sys) : res ap_error (lock_result * Sys) :=
  let* r := locked id s in
  let* _ := check_checker acc solo r checker in
  let own := (uid checker =? rq_maker r)%Z in
  let* _ := require (self_reason_ok r own reason) (InvalidRequest "REASON_REQUIRED") in
  if is_overdue r s then Ok (Overdue, s)
  else if negb (bool_decide (rq_status r = REQUESTED))
  then if bool_decide (rq_checker r = Some (uid checker)) && bool_decide (rq_status r = REJECTED)
       then Ok (Already r, s) else Err (not_open r)
  else
    let r' := decided REJECTED (Some checker) own reason (clock s) r in
    let* s' := save_request id r' s in
    Ok (Decided r', notify_closed id r' "rejected"
                      (note "approval_rejected" id (Some (uid checker)) EmptyString reason s')).

Definition cancel_lock (id : Z) (maker : User) (reason : string) (s : Sys)
    : res ap_error (lock_result * Sys) :=
  let* r := locked id s in
  let* _ := require (uid maker =? rq_maker r)%Z (NotPermitted "NOT_MAKER") in
  if is_overdue r s then Ok (Overdue, s)
  else if negb (bool_decide (rq_status r = REQUESTED))
  then if bool_decide (rq_status r = CANCELLED) then Ok (Already r, s) else Err (WrongState "NOT_OPEN")
  else
    let r' := decided CANCELLED None false reason (clock s) r in
    let* s' := save_request id r' s in
    Ok (Decided r', notify_closed id r' "cancelled"
                      (note "approval_cancelled" id (Some (uid maker)) EmptyString reason s')).

(** *** The operations *)

Definition reload (id : Z) (s : Sys) : res ap_error Request := locked id s.

(** [approve]: the transition, then, outside the lock, the executor. *)
Definition approve (acc : AccessDb) (solo : bool) (id : Z) (checker : User) (reason : string)
    (s : Sys) : res ap_error Request * Sys :=
  match approve_lock acc solo id checker reason s with
  | Err e => (Err e, s)
  | Ok (Already r, s') => (Ok r, s')
  | Ok (Overdue, s') => (Err (WrongState "EXPIRED"), (expire_if_due id s').2)
  | Ok (Decided r, s') =>
      let s'' := carry_out id r (Some (uid checker)) reason s' in (reload id s'', s'')
  end.

Definition closing (m : res ap_error (lock_result * Sys)) (id : Z) (s : Sys)
    : res ap_error Request * Sys :=
  match m with
  | Err e => (Err e, s)
  | Ok (Already r, s') => (Ok r, s')
  | Ok (Overdue, s') => (Err (WrongState "EXPIRED"), (expire_if_due id s').2)
  | Ok (Decided r, s') => (Ok r, s')
  end.

Definition reject (acc : AccessDb) (solo : bool) (id : Z) (checker : User) (reason : string)
    (s : Sys) : res ap_error Request * Sys :=
  if bool_decide (strip reason = EmptyString) then (Err (InvalidRequest "REASON_REQUIRED"), s)
  else closing (reject_lock acc solo id checker reason s) id s.

Definition cancel (id : Z) (maker : User) (reason : string) (s : Sys) : res ap_error Request * Sys :=
  closing (cancel_lock id maker reason s) id s.

(** [expire_stale]: every request due at [now], each in a transaction of its own. *)
Definition due (now : Z) (s : Sys) : list Z :=
  fst <$> List.filter (fun e => bool_decide (rq_status e.2 = REQUESTED) && (rq_expires_at e.2 <=? now)%Z)
            (map_to_list (requests s)).

Fixpoint expire_each (ids : list Z) (s : Sys) : Z * Sys :=
  match ids with
  | [] => (0, s)
  | id :: rest =>
    let '(hit, s') := expire_if_due id s in
    let '(n, s'') := expire_each rest s' in
    ((if hit then 1 else 0) + n, s'')%Z
  end.

Definition expire_stale (now : option Z) (s : Sys) : Z * Sys :=
  expire_each (due (default (clock s) now) s) s.

(** *** Raising a request *)

Record RaiseArgs := {
  ra_action : string;
  ra_actor : option User;
  ra_country : option string;
  ra_amount : option pyamount;
  ra_currency : option string;
  ra_scope : option Z;
  ra_target : option (string * string);
  ra_target_type : string;
  ra_target_id : string;
  ra_payload : payload_dict;
  ra_execute : option (executor W);
  ra_key : string;
  ra_reason : string;
  ra_system_label : string
}.

(** [scope.country_node] and [anchor_for]. *)
Definition country_node (acc : AccessDb) (code : string) : option Z :=
  fst <$> List.find (fun e => bool_decide (g_kind e.2 = KCountry) && bool_decide (g_code e.2 = code))
            (map_to_list (nodes acc)).

Definition anchor_for (acc : AccessDb) (node : option Z) (code : string) : option Z :=
  match node with Some n => Some n | None => country_node acc code end.

(** [_target_fields]: the target's model name and key, unless given. *)
Definition target_fields (a : RaiseArgs) : string * string :=
  let pick (s d : string) := if bool_decide (s = EmptyString) then d else s in
  match ra_target a with
  | Some (model, pk) => (pick (ra_target_type a) model, pick (ra_target_id a) pk)
  | None => (ra_target_type a, ra_target_id a)
  end.

Definition system_maker (a : RaiseArgs) : bool :=
  match ra_actor a with None => negb (bool_decide (ra_system_label a = EmptyString)) | Some _ => false end.

(** A payload naming many targets, or one marked so, always needs a checker. *)
Definition forces_checker (act : Action) (payload : payload_dict) : bool :=
  (negb (bool_decide (act_multi_target_key act = EmptyString)) &&
   match dict_get payload (act_multi_target_key act) with None | Some JNull => false | Some _ => true end) ||
  (negb (bool_decide (act_force_checker_key act = EmptyString)) &&
   match dict_get payload (act_force_checker_key act) with Some j => json_truthy j | None => false end).

Inductive prepared :=
| Duplicate (id : Z) (r : Request)
| Fresh (r : Request) (needs_checker : bool) (ex : executor W).

(** Everything before the insert. *)
Definition prepare (acc : AccessDb) (a : RaiseArgs) (s : Sys) : res ap_error prepared :=
  let* _ := require (system_maker a || is_operator (ra_actor a)) (NotPermitted "NOT_AN_OPERATOR") in
  let* _ := require (negb (bool_decide (ra_key a = EmptyString)))
              (InvalidRequest "IDEMPOTENCY_KEY_REQUIRED") in
  let* d := decide_checker (policies s) (ra_action a) (ra_country a) (ra_amount a) (ra_currency a) in
  let needs := d.1 || system_maker a ||
    match action_for (ra_action a) with Some act => forces_checker act (ra_payload a) | None => false end in
  let* country := check_country (ra_country a) in
  let currency := if truthy (ra_currency a) then norm_code (ra_currency a) else EmptyString in
  let* _ := require (negb (truthy (ra_currency a)) || is_supported (Some currency))
              (InvalidRequest "UNSUPPORTED_CURRENCY") in
  let* registered := res_opt NoExecutor (executor_for (ra_action a)) in
  match existing (ra_key a) s with
  | Some (id, r) => Ok (Duplicate id r)
  | None =>
    let '(kind, ident) := target_fields a in
    let* amount := match ra_amount a with
                   | None => Ok None
                   | Some am => let* z := check_amount am in Ok (Some z)
                   end in
    let maker := if system_maker a
                 then {| sn_id := Some 0%Z; sn_label := String.substring 0 255 (ra_system_label a);
                         sn_email := EmptyString; sn_role := "system" |}
                 else actor_snapshot (ra_actor a) in
    let empty := {| sn_id := None; sn_label := EmptyString; sn_email := EmptyString;
                    sn_role := EmptyString |} in
    Ok (Fresh
      {| rq_action := ra_action a; rq_country := country;
         rq_scope := anchor_for acc (ra_scope a) country; rq_amount := amount;
         rq_currency := currency; rq_policy := pol_id <$> d.2;
         rq_target_type := String.substring 0 64 kind; rq_target_id := String.substring 0 64 ident;
         rq_payload := ra_payload a; rq_reason := String.substring 0 10000 (ra_reason a);
         rq_maker := default 0%Z (sn_id maker); rq_maker_snapshot := maker;
         rq_status := if needs then REQUESTED else APPROVED;
         rq_requested_at := clock s; rq_expires_at := (clock s + ttl)%Z;
         rq_checker := None; rq_checker_snapshot := empty; rq_self_approved := false;
         rq_decision_reason := if needs then EmptyString else "within maker limit";
         rq_decided_at := if needs then None else Some (clock s);
         rq_executed_at := None; rq_result := JObj []; rq_error_code := EmptyString;
         rq_error := EmptyString; rq_key := String.substring 0 200 (ra_key a) |}
      needs (default registered (ra_execute a)))
  end.

Record Outcome := { oc_id : Z; oc_request : option Request; oc_executed : bool; oc_duplicate : bool }.

(** After the insert: the audit row and, within the limit, the executor. *)
Definition after_insert (a : RaiseArgs) (id : Z) (r : Request) (needs : bool) (ex : executor W) (s : Sys)
    : Outcome * Sys :=
  let actor := uid <$> ra_actor a in
  if needs
  then ({| oc_id := id; oc_request := Some r; oc_executed := false; oc_duplicate := false |},
        note "approval_requested" id actor
          (if system_maker a then ra_system_label a else EmptyString) (ra_reason a) s)
  else let s' := run id r ex actor (ra_reason a)
                   (note "approval_within_maker_limit" id actor EmptyString (ra_reason a) s) in
       ({| oc_id := id; oc_request := requests s' !! id; oc_executed := true; oc_duplicate := false |}, s').

Definition require_approval_or_execute (acc : AccessDb) (a : RaiseArgs) (s : Sys)
    : res ap_error Outcome * Sys :=
  match prepare acc a s with
  | Err e => (Err e, s)
  | Ok (Duplicate id r) =>
      (Ok {| oc_id := id; oc_request := Some r; oc_executed := false; oc_duplicate := true |}, s)
  | Ok (Fresh r needs ex) =>
    match insert_request r s with
    | Ok (id, s') => let '(o, s'') := after_insert a id r needs ex s' in (Ok o, s'')
    | Err e =>
      match existing (ra_key a) s with
      | Some (id, r') =>
          (Ok {| oc_id := id; oc_request := Some r'; oc_executed := false; oc_duplicate := true |}, s)
      | None => (Err e, s)
      end
    end
  end.

(** [executors.execute_policy_change]: the change is written in the maker's name. *)
Definition json_amount (j : option json) : option pyamount :=
  match j with
  | None | Some JNull => None
  | Some (JInt z) => Some (AInt z)
  | Some _ => Some ANotInt
  end.

Definition json_text (j : option json) : option string :=
  match j with Some (JStr t) => Some t | _ => None end.

Definition execute_policy_change : executor W := fun now id r '(t, w) =>
  let p := rq_payload r in
  match dict_get p "country", dict_get p "action_key", dict_get p "limit_kind" with
  | Some c, Some (JStr k), Some (JStr kind) =>
    match write_policy_version now (json_text (Some c)) k kind (json_text (dict_get p "currency"))
            (json_amount (dict_get p "maker_limit")) (rq_maker_snapshot r) (rq_reason r) (Some id) t with
    | Ok ((pol, old), t') =>
        (Returned (JObj [("policy_id", JInt (pol_id pol)); ("version", JInt (pol_version pol));
                         ("superseded_policy_id", match old with Some o => JInt (pol_id o) | None => JNull end)]),
         (t', w))
    | Err (InvalidRequest code) => (Raised code, (t, w))
    | Err _ => (Raised "IntegrityError", (t, w))
    end
  | _, _, _ => (Raised "KeyError", (t, w))
  end.

(** The key a proposed threshold is raised under: the proposed values, and not the
    version they would replace. *)
Definition policy_change_key (f : PolicyFields) (action_key kind : string) : string :=
  "policy_change:" +:+ pf_country f +:+ ":" +:+ action_key +:+ ":" +:+ kind +:+ ":" +:+
  (if bool_decide (pf_currency f = EmptyString) then "-" else pf_currency f) +:+ ":" +:+
  match pf_limit f with Some z => number z | None => "none" end.

(** [propose_policy_change]. *)
Definition propose_policy_change (acc : AccessDb) (actor : User) (country : option string)
    (action_key kind : string) (currency : option string) (limit : option pyamount) (reason : string) (s : Sys)
    : res ap_error Outcome * Sys :=
  match (let* f := validate_policy_fields country action_key kind currency limit in
         let* _ := require (negb (bool_decide (strip reason = EmptyString)))
                     (InvalidRequest "REASON_REQUIRED") in
         let node := country_node acc (pf_country f) in
         let* ok := lift_permission (may_act acc actor "platform.settings"
                      (match node with Some n => nodes acc !! n | None => None end)) in
         let* _ := require ok (NotPermitted "SCOPE_NOT_HELD") in
         Ok (f, node)) with
  | Err e => (Err e, s)
  | Ok (f, node) =>
    require_approval_or_execute acc
      {| ra_action := POLICY_CHANGE; ra_actor := Some actor; ra_country := Some (pf_country f);
         ra_amount := None; ra_currency := None; ra_scope := node; ra_target := None;
         ra_target_type := "approval_policy"; ra_target_id := pf_country f +:+ ":" +:+ action_key;
         ra_payload := [("country", JStr (pf_country f)); ("action_key", JStr action_key);
                        ("limit_kind", JStr kind); ("currency", JStr (pf_currency f));
                        ("maker_limit", match pf_limit f with Some z => JInt z | None => JNull end)];
         ra_execute := None;
         ra_key := policy_change_key f action_key kind;
         ra_reason := reason; ra_system_label := EmptyString |} s
  end.

(** ** Interleaving *)

#[local] Close Scope string_scope.

(** What a caller still has to do after committing a row as APPROVED: write its audit
    row, run the executor (or record that none is registered), record the outcome. *)
Inductive ticket :=
| New (id : Z) (r : Request) (ex : executor W)
| Ready (id : Z) (r : Request) (ex : option (executor W))
| Ran (id : Z) (o : exec_outcome).

Definition ticket_id (t : ticket) : Z :=
  match t with New id _ _ | Ready id _ _ | Ran id _ => id end.

(** An approval as it was made: the request, the accounts and the setting as they were
    then, and who approved. *)
Record Approval := { ck_request : Z; ck_db : AccessDb; ck_solo : bool; ck_user : User }.

(** What has been: the threshold tables that are no longer in force, and the approvals. *)
Record Past := { tables : list PolicyTable; checks : list Approval }.

Definition past_table (t : PolicyTable) (p : Past) : Past := {| tables := t :: tables p; checks := checks p |}.
Definition past_check (k : Approval) (p : Past) : Past := {| tables := tables p; checks := k :: checks p |}.

(** The database, the callers in between, the executions so far, and the past. *)
Record Conf := { sys : Sys; tickets : list ticket; ran : list Z; past : Past }.

(** The threshold tables there have been, the one in force first. *)
Definition held_tables (c : Conf) : list PolicyTable := policies (sys c) :: tables (past c).

Inductive step (c : Conf) : Conf -> Prop :=
| step_raise acc a s0 r needs ex id s' :
    policies s0 ∈ held_tables c ->
    prepare acc a s0 = Ok (Fresh r needs ex) -> insert_request r (sys c) = Ok (id, s') ->
    step c {| sys := s'; tickets := if needs then tickets c else New id r ex :: tickets c; ran := ran c; past := past c |}
| step_note id r ex l1 l2 actor reason :
    tickets c = l1 ++ New id r ex :: l2 ->
    step c {| sys := note "approval_within_maker_limit"%string id actor EmptyString reason (sys c);
              tickets := l1 ++ Ready id r (Some ex) :: l2; ran := ran c; past := past c |}
| step_approve acc solo id checker reason r s' :
    approve_lock acc solo id checker reason (sys c) = Ok (Decided r, s') ->
    step c {| sys := s'; tickets := Ready id r (executor_for (rq_action r)) :: tickets c; ran := ran c;
              past := past_check {| ck_request := id; ck_db := acc; ck_solo := solo; ck_user := checker |} (past c) |}
| step_reject acc solo id checker reason r s' :
    reject_lock acc solo id checker reason (sys c) = Ok (Decided r, s') ->
    step c {| sys := s'; tickets := tickets c; ran := ran c; past := past c |}
| step_cancel id maker reason r s' :
    cancel_lock id maker reason (sys c) = Ok (Decided r, s') ->
    step c {| sys := s'; tickets := tickets c; ran := ran c; past := past c |}
| step_expire id :
    step c {| sys := (expire_if_due id (sys c)).2; tickets := tickets c; ran := ran c; past := past c |}
| step_execute id r ex l1 l2 o s' :
    tickets c = l1 ++ Ready id r (Some ex) :: l2 -> execute ex id r (sys c) = (o, s') ->
    step c {| sys := s'; tickets := l1 ++ Ran id o :: l2; ran := id :: ran c;
              past := past_table (policies (sys c)) (past c) |}
| step_record id o l1 l2 actor reason :
    tickets c = l1 ++ Ran id o :: l2 ->
    step c {| sys := record_outcome id o actor reason (sys c); tickets := l1 ++ l2; ran := ran c; past := past c |}
| step_no_executor id r l1 l2 actor reason :
    tickets c = l1 ++ Ready id r None :: l2 ->
    step c {| sys := note "approval_failed" id actor EmptyString reason
                       (finish id FAILED (JObj []) "NO_EXECUTOR" (no_executor_text (rq_action r)) (sys c)).2;
              tickets := l1 ++ l2; ran := ran c; past := past c |}
| step_crash t l1 l2 :
    tickets c = l1 ++ t :: l2 -> step c {| sys := sys c; tickets := l1 ++ l2; ran := ran c; past := past c |}
| step_log row :
    step c {| sys := {| policies := policies (sys c); requests := requests (sys c);
                        next_request := next_request (sys c); trail := trail (sys c) ++ [row];
                        clock := clock (sys c); world := world (sys c) |};
              tickets := tickets c; ran := ran c; past := past c |}
| step_tick now :
    clock (sys c) <= now ->
    step c {| sys := {| policies := policies (sys c); requests := requests (sys c);
                        next_request := next_request (sys c); trail := trail (sys c);
                        clock := now; world := world (sys c) |};
              tickets := tickets c; ran := ran c; past := past c |}
| step_others p w :
    step c {| sys := set_world p w (sys c); tickets := tickets c; ran := ran c;
              past := past_table (policies (sys c)) (past c) |}.

(** No request yet, nothing running. *)
Definition initial (c : Conf) : Prop := requests (sys c) = ∅ /\ tickets c = [] /\ ran c = [].

Definition reachable (c : Conf) : Prop := exists c0, initial c0 /\ rtc step c0 c.

(** ** The invariant *)

Definition executing (st : status) : bool :=
  match st with APPROVED | EXECUTED | FAILED => true | _ => false end.

(** The audit trail says who decided the request: the checker on the row, or nobody
    because it was within the maker's limit. *)
Definition on_record (l : list AuditRow) (id : Z) (r : Request) : Prop :=
  exists row, row ∈ l /\ au_request row = id /\
    match rq_checker r with
    | Some ck => au_actor row = Some ck /\
        au_action row = (if rq_self_approved r then "approval_self_approved" else "approval_approved")%string
    | None => au_action row = "approval_within_maker_limit"%string
    end.

Definition ticket_ok (c : Conf) (t : ticket) : Prop :=
  exists r, requests (sys c) !! ticket_id t = Some r /\ rq_status r = APPROVED /\
    match t with
    | New id _ _ => rq_checker r = None /\ id ∉ ran c
    | Ready id _ _ => on_record (trail (sys c)) id r /\ id ∉ ran c
    | Ran id _ => id ∈ ran c
    end.

Record conf_ok (c : Conf) : Prop := {
  ci_fresh : forall id r, requests (sys c) !! id = Some r -> id < next_request (sys c);
  ci_keys : forall i j p q, requests (sys c) !! i = Some p -> requests (sys c) !! j = Some q ->
    key_held (rq_status p) = true -> key_held (rq_status q) = true -> rq_key p = rq_key q -> i = j;
  ci_maker : forall id r, requests (sys c) !! id = Some r -> checker_is_not_maker r = true;
  ci_nodup : base.NoDup (ticket_id <$> tickets c);
  ci_tickets : forall t, t ∈ tickets c -> ticket_ok c t;
  ci_ran : base.NoDup (ran c);
  ci_ran_row : forall id, id ∈ ran c -> exists r, requests (sys c) !! id = Some r /\
    executing (rq_status r) = true /\ on_record (trail (sys c)) id r;
  ci_done : forall id r, requests (sys c) !! id = Some r -> rq_status r = EXECUTED -> id ∈ ran c
}.

Lemma on_record_more l l' id r : on_record l id r -> on_record (l ++ l') id r.
Proof. intros (row & Hin & H). exists row. split; [set_solver|done]. Qed.

(** Steps that leave requests and tickets alone. *)
Lemma conf_ok_frame c s' extra :
  conf_ok c -> requests s' = requests (sys c) -> next_request s' = next_request (sys c) ->
  trail s' = trail (sys c) ++ extra ->
  conf_ok {| sys := s'; tickets := tickets c; ran := ran c; past := past c |}.
Proof.
  intros [] Hr Hn Ht. split; simpl; rewrite ?Hr, ?Hn; try done.
  - intros t Hin. destruct (ci_tickets0 t Hin) as (r & Hl & Hst & Hc). exists r.
    simpl. rewrite Hr. split; [done|]. split; [done|].
    destruct t; [done| |done]. split; [|by destruct Hc]. rewrite Ht. by apply on_record_more, Hc.
  - intros id Hid. destruct (ci_ran_row0 id Hid) as (r & Hl & Hst & Hc). exists r.
    split; [done|]. split; [done|]. rewrite Ht. by apply on_record_more.
Qed.

(** Dropping or replacing a ticket. *)
Lemma ids_split (l1 l2 : list ticket) (t : ticket) :
  base.NoDup (ticket_id <$> l1 ++ t :: l2) ->
  base.NoDup (ticket_id <$> l1 ++ l2) /\
  forall t', t' ∈ l1 ++ l2 -> ticket_id t' <> ticket_id t.
Proof.
  rewrite !fmap_app, fmap_cons. intros H.
  assert (HP : ticket_id t :: (ticket_id <$> l1) ++ (ticket_id <$> l2) ≡ₚ
               (ticket_id <$> l1) ++ ticket_id t :: (ticket_id <$> l2)) by (by rewrite Permutation_middle).
  rewrite <- HP in H. apply NoDup_cons in H as [Hn Hd]. split; [done|].
  intros t' Ht' Heq. apply Hn. rewrite <- Heq, <- fmap_app. by apply list_elem_of_fmap_2.
Qed.

Lemma ids_replace (l1 l2 : list ticket) (t t' : ticket) :
  ticket_id t' = ticket_id t -> ticket_id <$> l1 ++ t' :: l2 = ticket_id <$> l1 ++ t :: l2.
Proof. intros H. by rewrite !fmap_app, !fmap_cons, H. Qed.

Lemma conf_ok_drop c t l1 l2 :
  conf_ok c -> tickets c = l1 ++ t :: l2 ->
  conf_ok {| sys := sys c; tickets := l1 ++ l2; ran := ran c; past := past c |}.
Proof.
  intros [] Ht. rewrite Ht in *. split; simpl; try done.
  - by apply (ids_split l1 l2 t).
  - intros t' Hin. destruct (ci_tickets0 t') as (r & H); [set_solver|]. by exists r.
Qed.

Lemma conf_ok_swap c t t' l1 l2 :
  conf_ok c -> tickets c = l1 ++ t :: l2 -> ticket_id t' = ticket_id t -> ticket_ok c t' ->
  conf_ok {| sys := sys c; tickets := l1 ++ t' :: l2; ran := ran c; past := past c |}.
Proof.
  intros [] Ht Hid Hok. rewrite Ht in *. split; simpl; try done.
  - by rewrite (ids_replace l1 l2 t t').
  - intros u [Hu|[->|Hu]%elem_of_cons]%elem_of_app.
    + destruct (ci_tickets0 u) as (r & H); [set_solver|]. by exists r.
    + by destruct Hok as (r & H); exists r.
    + destruct (ci_tickets0 u) as (r & H); [set_solver|]. by exists r.
Qed.

(** Rows with a ticket or an execution behind them are not open. *)
Lemma open_is_idle c id r :
  conf_ok c -> requests (sys c) !! id = Some r -> rq_status r = REQUESTED ->
  id ∉ ran c /\ id ∉ ticket_id <$> tickets c.
Proof.
  intros [] Hr Hst. split.
  - intros Hin. destruct (ci_ran_row0 id Hin) as (r' & Hr' & He & _). simplify_eq. by rewrite Hst in He.
  - intros (t & -> & Hin)%list_elem_of_fmap. destruct (ci_tickets0 t Hin) as (r' & Hr' & He & _).
    simplify_eq. congruence.
Qed.

(** A change to a row nothing runs for. *)
Lemma conf_ok_update c id r r' s' extra :
  conf_ok c -> requests (sys c) !! id = Some r -> key_held (rq_status r) = true ->
  id ∉ ran c -> id ∉ ticket_id <$> tickets c ->
  rq_key r' = rq_key r -> rq_status r' <> EXECUTED -> checker_is_not_maker r' = true ->
  requests s' = <[id := r']> (requests (sys c)) -> next_request s' = next_request (sys c) ->
  trail s' = trail (sys c) ++ extra ->
  conf_ok {| sys := s'; tickets := tickets c; ran := ran c; past := past c |}.
Proof.
  intros Hok Hr Hheld Hran Htick Hk Hst' Hmk Hreq Hnext Htr. destruct Hok. split; simpl; rewrite ?Hreq, ?Hnext.
  - intros j q Hj. destruct (decide (j = id)) as [->|]; simplify_map_eq; eauto.
  - intros i j p q Hi Hj Hp Hq Heq.
    destruct (decide (i = id)) as [->|]; destruct (decide (j = id)) as [->|]; simplify_map_eq; try done.
    + apply (ci_keys0 id j r q); congruence.
    + apply (ci_keys0 i id p r); congruence.
    + by apply (ci_keys0 i j p q).
  - intros j q Hj. destruct (decide (j = id)) as [->|]; simplify_map_eq; eauto.
  - done.
  - intros t Hin. destruct (ci_tickets0 t Hin) as (q & Hl & Hq & Hc). exists q. simpl.
    assert (ticket_id t <> id) by (intros <-; apply Htick; by apply list_elem_of_fmap_2).
    rewrite Hreq, lookup_insert_ne by done. split; [done|]. split; [done|].
    destruct t; [done| |done]. split; [|by destruct Hc]. rewrite Htr. by apply on_record_more, Hc.
  - done.
  - intros j Hj. destruct (ci_ran_row0 j Hj) as (q & Hl & Hq & Hc). exists q.
    rewrite lookup_insert_ne by congruence. split; [done|]. split; [done|]. rewrite Htr. by apply on_record_more.
  - intros j q Hj Hq. destruct (decide (j = id)) as [->|]; simplify_map_eq; eauto.
Qed.

Lemma conf_ok_ticket c t :
  conf_ok c -> ticket_ok c t -> ticket_id t ∉ ticket_id <$> tickets c ->
  conf_ok {| sys := sys c; tickets := t :: tickets c; ran := ran c; past := past c |}.
Proof.
  intros [] Hok Hn. split; simpl; try done.
  - by apply NoDup_cons.
  - intros u [->|Hu]%elem_of_cons; [by destruct Hok as (r & H); exists r|].
    destruct (ci_tickets0 u Hu) as (r & H). by exists r.
Qed.

Lemma save_request_ok id r s s' :
  save_request id r s = Ok s' <->
  (checker_is_not_maker r = true /\ amount_not_negative r = true /\ key_is_free id r (requests s) = true) /\
  s' = set_requests (<[id := r]> (requests s)) (next_request s) s.
Proof.
  unfold save_request. split.
  - intros H. destruct (_ && _) eqn:E; [|done]. injection H as <-. bool_cases. done.
  - intros [(-> & -> & ->) ->]. done.
Qed.

Lemma key_is_free_spec id r m :
  key_is_free id r m = true <->
  (key_held (rq_status r) = true ->
   forall j q, m !! j = Some q -> j <> id -> key_held (rq_status q) = true -> rq_key q <> rq_key r).
Proof.
  unfold key_is_free. destruct (key_held (rq_status r)); simpl; [|done].
  rewrite bool_decide_eq_true. split.
  - intros H _ j q Hj Hne Hq. destruct (H j q Hj) as [?|[?|?]]; congruence.
  - intros H j q Hj. destruct (decide (j = id)) as [|Hne]; [by left|]. right.
    destruct (key_held (rq_status q)) eqn:E; [right|by left]. by apply (H eq_refl j q).
Qed.

Lemma insert_request_ok r s id s' :
  insert_request r s = Ok (id, s') ->
  id = next_request s /\ checker_is_not_maker r = true /\ key_is_free id r (requests s) = true /\
  requests s' = <[id := r]> (requests s) /\ next_request s' = id + 1 /\ trail s' = trail s.
Proof.
  unfold insert_request. intros H. apply res_bind_ok in H as (s1 & H1 & H). injection H as <- <-.
  apply save_request_ok in H1 as ((H1 & _ & H3) & ->). done.
Qed.

Lemma prepare_fresh acc a s r needs ex :
  prepare acc a s = Ok (Fresh r needs ex) ->
  rq_checker r = None /\ rq_status r = (if needs then REQUESTED else APPROVED) /\
  rq_key r = String.substring 0 200 (ra_key a) /\ rq_action r = ra_action a.
Proof.
  unfold prepare. intros H.
  apply res_bind_ok in H as ([] & _ & H). apply res_bind_ok in H as ([] & _ & H).
  apply res_bind_ok in H as (d & _ & H). apply res_bind_ok in H as (c & _ & H).
  apply res_bind_ok in H as ([] & _ & H). apply res_bind_ok in H as (reg & _ & H).
  destruct (existing (ra_key a) s) as [[i q]|]; [done|]. destruct (target_fields a) as [k i].
  apply res_bind_ok in H as (am & _ & H). injection H as <- <- <-. done.
Qed.

Lemma conf_ok_insert c r id s' :
  conf_ok c -> insert_request r (sys c) = Ok (id, s') -> rq_checker r = None ->
  rq_status r = REQUESTED \/ rq_status r = APPROVED ->
  conf_ok {| sys := s'; tickets := tickets c; ran := ran c; past := past c |} /\
  requests s' !! id = Some r /\ id ∉ ran c /\ id ∉ ticket_id <$> tickets c.
Proof.
  intros Hok Hins Hc Hst. pose proof Hok as [].
  apply insert_request_ok in Hins as (-> & Hmk & Hfree & Hreq & Hnext & Htr).
  assert (Hnew : requests (sys c) !! next_request (sys c) = None).
  { destruct (requests (sys c) !! next_request (sys c)) as [q|] eqn:E; [|done].
    apply ci_fresh0 in E. lia. }
  assert (Hold : forall j q, requests (sys c) !! j = Some q -> requests s' !! j = Some q).
  { intros j q Hj. rewrite Hreq, lookup_insert_ne; [done|congruence]. }
  pose proof (proj1 (key_is_free_spec _ _ _) Hfree) as Hk.
  assert (Hheld : key_held (rq_status r) = true) by (by destruct Hst as [-> | ->]).
  specialize (Hk Hheld). split; [split; simpl|].
  - intros j q Hj. rewrite Hnext. rewrite Hreq in Hj. apply lookup_insert_Some in Hj as [[<- _]|[_ Hj]]; [lia|].
    apply ci_fresh0 in Hj. lia.
  - intros i j p q Hi Hj Hp Hq Heq. rewrite Hreq in Hi, Hj.
    apply lookup_insert_Some in Hi as [[<- <-]|[Hni Hi]]; apply lookup_insert_Some in Hj as [[<- <-]|[Hnj Hj]].
    + done.
    + by destruct (Hk j q Hj).
    + by destruct (Hk i p Hi).
    + by apply (ci_keys0 i j p q).
  - intros j q Hj. rewrite Hreq in Hj. apply lookup_insert_Some in Hj as [[_ <-]|[_ Hj]]; eauto.
  - done.
  - intros t Hin. destruct (ci_tickets0 t Hin) as (q & Hl & Hq & Hx). exists q. simpl. rewrite Htr. eauto.
  - done.
  - intros j Hj. destruct (ci_ran_row0 j Hj) as (q & Hl & Hq). exists q. rewrite Htr. eauto.
  - intros j q Hj Hq. rewrite Hreq in Hj. apply lookup_insert_Some in Hj as [[_ <-]|[_ Hj]]; [|eauto].
    by destruct Hst as [Hst|Hst]; rewrite Hst in Hq.
  - split; [by rewrite Hreq, lookup_insert_eq|]. split.
    + intros Hin. destruct (ci_ran_row0 _ Hin) as (q & Hq & _). congruence.
    + intros (t & Ht & Hin)%list_elem_of_fmap. destruct (ci_tickets0 t Hin) as (q & Hl & _). congruence.
Qed.

(** What a locked decision that went through did. *)
Lemma locked_ok id s r : locked id s = Ok r <-> requests s !! id = Some r.
Proof. unfold locked. destruct (requests s !! id); simpl; split; congruence. Qed.

Lemma approve_lock_decided acc solo id checker reason s r' s' :
  approve_lock acc solo id checker reason s = Ok (Decided r', s') ->
  exists r, requests s !! id = Some r /\ rq_status r = REQUESTED /\ is_overdue r s = false /\
    check_checker acc solo r checker = Ok tt /\ checker_is_not_maker r' = true /\
    r' = decided APPROVED (Some checker) (uid checker =? rq_maker r) reason (clock s) r /\
    requests s' = <[id := r']> (requests s) /\ next_request s' = next_request s /\
    trail s' = trail s ++
      [{| au_action := if uid checker =? rq_maker r then "approval_self_approved"%string
                       else "approval_approved"%string;
          au_request := id; au_actor := Some (uid checker); au_label := EmptyString; au_reason := reason |}].
Proof.
  unfold approve_lock. intros H. apply res_bind_ok in H as (r & Hr & H). apply locked_ok in Hr.
  apply res_bind_ok in H as ([] & Hcc & H). apply res_bind_ok in H as ([] & _ & H).
  destruct (is_overdue r s) eqn:Hod; [done|].
  destruct (bool_decide (rq_status r = REQUESTED)) eqn:Hst; cbn [negb] in H.
  2: { destruct (_ && _); done. }
  apply bool_decide_eq_true in Hst. apply res_bind_ok in H as (s1 & Hs1 & H). injection H as <- <-.
  apply save_request_ok in Hs1 as ((Hm & _) & ->). exists r. split_and!; done.
Qed.

Lemma reject_lock_decided acc solo id checker reason s r' s' :
  reject_lock acc solo id checker reason s = Ok (Decided r', s') ->
  exists r extra, requests s !! id = Some r /\ rq_status r = REQUESTED /\ is_overdue r s = false /\
    checker_is_not_maker r' = true /\
    r' = decided REJECTED (Some checker) (uid checker =? rq_maker r) reason (clock s) r /\
    requests s' = <[id := r']> (requests s) /\ next_request s' = next_request s /\
    trail s' = trail s ++ extra.
Proof.
  unfold reject_lock. intros H. apply res_bind_ok in H as (r & Hr & H). apply locked_ok in Hr.
  apply res_bind_ok in H as ([] & _ & H). apply res_bind_ok in H as ([] & _ & H).
  destruct (is_overdue r s) eqn:Hod; [done|].
  destruct (bool_decide (rq_status r = REQUESTED)) eqn:Hst; cbn [negb] in H.
  2: { destruct (_ && _); done. }
  apply bool_decide_eq_true in Hst. apply res_bind_ok in H as (s1 & Hs1 & H). injection H as <- <-.
  apply save_request_ok in Hs1 as ((Hm & _) & ->). by eexists r, _.
Qed.

Lemma cancel_lock_decided id maker reason s r' s' :
  cancel_lock id maker reason s = Ok (Decided r', s') ->
  exists r extra, requests s !! id = Some r /\ rq_status r = REQUESTED /\ uid maker = rq_maker r /\
    is_overdue r s = false /\ checker_is_not_maker r' = true /\
    r' = decided CANCELLED None false reason (clock s) r /\
    requests s' = <[id := r']> (requests s) /\ next_request s' = next_request s /\
    trail s' = trail s ++ extra.
Proof.
  unfold cancel_lock. intros H. apply res_bind_ok in H as (r & Hr & H). apply locked_ok in Hr.
  apply res_bind_ok in H as ([] & Hmk & H). apply require_ok in Hmk. bool_cases.
  destruct (is_overdue r s) eqn:Hod; [done|].
  destruct (bool_decide (rq_status r = REQUESTED)) eqn:Hst; cbn [negb] in H.
  2: { destruct (bool_decide (rq_status r = CANCELLED)); discriminate H. }
  apply bool_decide_eq_true in Hst. apply res_bind_ok in H as (s1 & Hs1 & H). injection H as <- <-.
  apply save_request_ok in Hs1 as ((Hm & _) & ->). by eexists r, _.
Qed.

Lemma expire_if_due_cases id s :
  (expire_if_due id s = (false, s)) \/
  exists r extra, requests s !! id = Some r /\ is_overdue r s = true /\ rq_status r = REQUESTED /\
    (expire_if_due id s).1 = true /\
    requests (expire_if_due id s).2 = <[id := with_status EXPIRED r]> (requests s) /\
    next_request (expire_if_due id s).2 = next_request s /\
    clock (expire_if_due id s).2 = clock s /\
    trail (expire_if_due id s).2 = trail s ++ extra.
Proof.
  unfold expire_if_due. destruct (requests s !! id) as [r|] eqn:Hr; [|by left].
  destruct (is_overdue r s) eqn:Hod; [|by left]. right. eexists r, _. split; [done|]. split; [done|].
  unfold is_overdue in Hod. apply andb_true_iff in Hod as [Hod _]. apply bool_decide_eq_true in Hod. done.
Qed.

(** ** Every step keeps the invariant *)

Lemma ok_approve c acc solo id checker reason r' s' :
  conf_ok c -> approve_lock acc solo id checker reason (sys c) = Ok (Decided r', s') ->
  conf_ok {| sys := s'; tickets := Ready id r' (executor_for (rq_action r')) :: tickets c; ran := ran c; past := past c |}.
Proof.
  intros Hok H. apply approve_lock_decided in H as (r & Hr & Hst & _ & _ & Hmk & Hr' & Hreq & Hn & Htr).
  destruct (open_is_idle c id r Hok Hr Hst) as [Hnr Hnt].
  apply (conf_ok_ticket {| sys := s'; tickets := tickets c; ran := ran c; past := past c |}
    (Ready id r' (executor_for (rq_action r')))); [| |exact Hnt].
  - eapply (conf_ok_update c id r r'); try done; [by rewrite Hst|by rewrite Hr'|by rewrite Hr'].
  - exists r'. cbn. rewrite Hreq, lookup_insert_eq. split; [done|]. split; [by rewrite Hr'|].
    split; [|done]. rewrite Htr. eexists. split; [apply elem_of_app; right; by apply list_elem_of_singleton|].
    split; [done|]. rewrite Hr'. cbn. done.
Qed.

Lemma ok_close c id r r' s' extra :
  conf_ok c -> requests (sys c) !! id = Some r -> rq_status r = REQUESTED ->
  rq_key r' = rq_key r -> rq_status r' <> EXECUTED -> checker_is_not_maker r' = true ->
  requests s' = <[id := r']> (requests (sys c)) -> next_request s' = next_request (sys c) ->
  trail s' = trail (sys c) ++ extra ->
  conf_ok {| sys := s'; tickets := tickets c; ran := ran c; past := past c |}.
Proof.
  intros Hok Hr Hst Hk Hne Hmk Hreq Hn Htr. destruct (open_is_idle c id r Hok Hr Hst) as [Hnr Hnt].
  eapply (conf_ok_update c id r r'); try done. by rewrite Hst.
Qed.

Lemma ok_expire c id :
  conf_ok c -> conf_ok {| sys := (expire_if_due id (sys c)).2; tickets := tickets c; ran := ran c; past := past c |}.
Proof.
  intros Hok. destruct (expire_if_due_cases id (sys c)) as [->|(r & extra & Hr & _ & Hst & _ & Hreq & Hn & _ & Htr)].
  - by destruct c.
  - pose proof (ci_maker c Hok id r Hr) as Hm. by eapply (ok_close c id r (with_status EXPIRED r)).
Qed.

Lemma ok_execute c id r ex l1 l2 o s' :
  conf_ok c -> tickets c = l1 ++ Ready id r (Some ex) :: l2 -> execute ex id r (sys c) = (o, s') ->
  conf_ok {| sys := s'; tickets := l1 ++ Ran id o :: l2; ran := id :: ran c; past := past c |}.
Proof.
  intros Hok Ht He. destruct (ci_tickets c Hok (Ready id r (Some ex))) as (q & Hq & Hst & Hrec & Hnr).
  { rewrite Ht. set_solver. }
  assert (Hs' : exists p w, s' = set_world p w (sys c)).
  { unfold execute in He. destruct (ex _ id r _) as [o' [p w]]. injection He as _ <-. by exists p, w. }
  destruct Hs' as (p & w & ->). pose proof (ci_nodup c Hok) as Hnd. rewrite Ht in Hnd.
  destruct (ids_split l1 l2 _ Hnd) as [_ Hother]. destruct Hok. rewrite Ht in *. split; cbn; try done.
  - by rewrite (ids_replace l1 l2 (Ready id r (Some ex)) (Ran id o)).
  - assert (Hold : forall u, u ∈ l1 ++ l2 ->
      ticket_ok {| sys := set_world p w (sys c); tickets := l1 ++ Ran id o :: l2; ran := id :: ran c; past := past c |} u).
    { intros u Hu. destruct (ci_tickets0 u) as (q' & Hq' & Hst' & H'); [set_solver|].
      exists q'. split; [done|]. split; [done|]. specialize (Hother u Hu). cbn in Hother.
      destruct u; cbn in *; [destruct H'; split; [done|set_solver]|destruct H'; split; [done|set_solver]|set_solver]. }
    intros u [Hu|[->|Hu]%elem_of_cons]%elem_of_app; [apply Hold; set_solver| |apply Hold; set_solver].
    exists q. split; [done|]. split; [done|]. set_solver.
  - by apply NoDup_cons.
  - intros j [->|Hj]%elem_of_cons; [|by apply ci_ran_row0]. exists q. split; [done|]. by rewrite Hst.
  - intros j q' Hj Hex. apply elem_of_cons. right. by apply (ci_done0 j q').
Qed.

(** Recording the end of a run, or of a request no executor is registered for. *)
Lemma ok_finish c t l1 l2 st result code error extra s' :
  conf_ok c -> tickets c = l1 ++ t :: l2 ->
  (st = EXECUTED /\ ticket_id t ∈ ran c) \/ st = FAILED ->
  requests s' = requests (finish (ticket_id t) st result code error (sys c)).2 ->
  next_request s' = next_request (sys c) -> trail s' = trail (sys c) ++ extra ->
  conf_ok {| sys := s'; tickets := l1 ++ l2; ran := ran c; past := past c |} /\
  (finish (ticket_id t) st result code error (sys c)).1 = true.
Proof.
  intros Hok Ht Hst Hreq Hn Htr. set (id := ticket_id t) in *.
  destruct (ci_tickets c Hok t) as (r & Hr & Hstr & _); [rewrite Ht; set_solver|].
  fold id in Hr. unfold finish in *. rewrite Hr, Hstr in *. rewrite bool_decide_eq_true_2 in * by done.
  cbn in Hreq. split; [|done].
  set (r' := finished st result code error (clock (sys c)) r) in *.
  assert (Hrec : forall l, on_record l id r -> on_record l id r') by (intros l H; exact H).
  pose proof (ci_nodup c Hok) as Hnd. rewrite Ht in Hnd. destruct (ids_split l1 l2 t Hnd) as [Hnd' Hother].
  fold id in Hother. destruct Hok. rewrite Ht in *. split; cbn; rewrite ?Hreq, ?Hn, ?Htr.
  - intros j q [[<- <-]|[_ Hj]]%lookup_insert_Some; eauto.
  - assert (Hheld : key_held (rq_status r) = true) by (by rewrite Hstr).
    intros i j p q [[<- <-]|[Hni Hi]]%lookup_insert_Some [[<- <-]|[Hnj Hj]]%lookup_insert_Some Hp Hq Heq.
    + done.
    + by apply (ci_keys0 id j r q).
    + by apply (ci_keys0 i id p r).
    + by apply (ci_keys0 i j p q).
  - intros j q [[<- <-]|[_ Hj]]%lookup_insert_Some; [|eauto]. exact (ci_maker0 id r Hr).
  - done.
  - intros u Hu. destruct (ci_tickets0 u) as (q & Hq & Hstq & H'); [set_solver|]. exists q. cbn.
    rewrite Hreq, Htr, lookup_insert_ne by (intros E; by apply (Hother u Hu)).
    split; [done|]. split; [done|]. destruct u; [done| |done].
    destruct H' as [H' ?]; split; [by apply on_record_more|done].
  - done.
  - intros j Hj. destruct (ci_ran_row0 j Hj) as (q & Hq & Hex & Hon). apply (on_record_more _ extra) in Hon.
    destruct (decide (j = id)) as [->|Hne].
    + simplify_eq. exists r'. rewrite lookup_insert_eq. split; [done|]. split; [|by apply Hrec].
      by destruct Hst as [[-> _]| ->].
    + exists q. by rewrite lookup_insert_ne.
  - intros j q [[<- <-]|[_ Hj]]%lookup_insert_Some Hex; [|eauto].
    by destruct Hst as [[_ ?]|Hf]; [|cbn in Hex; congruence].
Qed.

(** What [finish] leaves alone. *)
Ltac finish_frame Hq Hst :=
  cbn; unfold finish; cbn; rewrite Hq, Hst, bool_decide_eq_true_2 by done; reflexivity.

(** The record of the past is not part of it. *)
Lemma conf_ok_past c pa : conf_ok c -> conf_ok {| sys := sys c; tickets := tickets c; ran := ran c; past := pa |}.
Proof. intros []. by split. Qed.

Lemma step_ok c c' : conf_ok c -> step c c' -> conf_ok c'.
Proof.
  intros Hok Hs. destruct Hs.
  - apply prepare_fresh in H0 as (Hc & Hst & _).
    destruct (conf_ok_insert c r id s' Hok H1 Hc) as (Hok' & Hr & Hnr & Hnt); [destruct needs; auto|].
    destruct needs; [done|].
    apply (conf_ok_ticket {| sys := s'; tickets := tickets c; ran := ran c; past := past c |} (New id r ex));
      [done|by exists r|exact Hnt].
  - pose proof (ci_tickets c Hok (New id r ex)) as (q & Hq & Hst & Hcq & Hnr); [rewrite H; set_solver|].
    set (s' := note _ _ _ _ _ _).
    apply (conf_ok_swap {| sys := s'; tickets := tickets c; ran := ran c; past := past c |} (New id r ex)
             (Ready id r (Some ex)) l1 l2); [|exact H| |].
    + by eapply conf_ok_frame.
    + done.
    + exists q. cbn. split; [done|]. split; [done|]. split; [|done].
      eexists. split; [apply elem_of_app; right; by apply list_elem_of_singleton|]. split; [done|].
      by rewrite Hcq.
  - apply (conf_ok_past {| sys := s'; tickets := _; ran := ran c; past := past c |}). by eapply ok_approve.
  - apply reject_lock_decided in H as (q & extra & Hr & Hst & _ & Hmk & Hr' & Hreq & Hn & Htr).
    eapply (ok_close c id q r); try done; by rewrite Hr'.
  - apply cancel_lock_decided in H as (q & extra & Hr & Hst & _ & _ & Hmk & Hr' & Hreq & Hn & Htr).
    eapply (ok_close c id q r); try done; by rewrite Hr'.
  - by apply ok_expire.
  - apply (conf_ok_past {| sys := s'; tickets := _; ran := _; past := past c |}). by eapply ok_execute.
  - pose proof (ci_tickets c Hok (Ran id o)) as (q & Hq & Hst & Hin); [rewrite H; set_solver|].
    cbn in Hq. unfold record_outcome. destruct o as [j|code msg|msg].
    + eapply (ok_finish c (Ran id (Returned j)) l1 l2 EXECUTED);
        [done|exact H|by left|reflexivity|by finish_frame Hq Hst..].
    + eapply (ok_finish c (Ran id (ExecutionRefused code msg)) l1 l2 FAILED);
        [done|exact H|by right|reflexivity|by finish_frame Hq Hst..].
    + eapply (ok_finish c (Ran id (Raised msg)) l1 l2 FAILED);
        [done|exact H|by right|reflexivity|by finish_frame Hq Hst..].
  - pose proof (ci_tickets c Hok (Ready id r None)) as (q & Hq & Hst & _); [rewrite H; set_solver|].
    cbn in Hq. eapply (ok_finish c (Ready id r None) l1 l2 FAILED);
      [done|exact H|by right|reflexivity|by finish_frame Hq Hst..].
  - by eapply conf_ok_drop.
  - by eapply conf_ok_frame.
  - eapply (conf_ok_frame c _ []); try done. cbn. by rewrite app_nil_r.
  - apply (conf_ok_past {| sys := set_world p w (sys c); tickets := tickets c; ran := ran c; past := past c |}).
    eapply (conf_ok_frame c _ []); try done. cbn. by rewrite app_nil_r.
Qed.

Lemma initial_ok c : initial c -> conf_ok c.
Proof.
  intros (Hr & Ht & Hn). split; rewrite ?Hr, ?Ht, ?Hn; cbn; try (by constructor); set_solver.
Qed.

Lemma conf_reachable_ok c : reachable c -> conf_ok c.
Proof.
  intros (c0 & Hi & Hs). apply initial_ok in Hi. induction Hs; [done|]. eauto using step_ok.
Qed.

(** ** Who answers for a run *)

(** Without a checker: the amount is at most the limit of the threshold the request names,
    which was in force in one of the tables [ts], in money of its currency or in a count,
    for an action that is neither always checked nor forced to a checker by its payload. *)
Definition within_limit (ts : list PolicyTable) (r : Request) : Prop :=
  exists t act p limit z, t ∈ ts /\ active_policy t (rq_country r) (rq_action r) = Some p /\
    rq_policy r = Some (pol_id p) /\ pol_limit p = Some limit /\ rq_amount r = Some z /\ 0 <= z <= limit /\
    (pol_kind p = COUNT \/ pol_kind p = MONEY /\ rq_currency r = pol_currency p) /\
    action_for (rq_action r) = Some act /\ act_always_checker act = false /\ forces_checker act (rq_payload r) = false.

(** With one: the approval is among those made, by an account that might check this request,
    and by another than the maker, or else by the maker as the only Super Admin who can:
    the setting is on, the account is no break-glass account, and nobody else may check. *)
Definition checked (ks : list Approval) (id : Z) (r : Request) : Prop :=
  exists k, k ∈ ks /\ ck_request k = id /\ rq_checker r = Some (uid (ck_user k)) /\
    may_check (ck_db k) r (ck_user k) = Ok tt /\
    if rq_self_approved r
    then uid (ck_user k) = rq_maker r /\ ck_solo k = true /\ is_super_admin (ck_db k) (ck_user k) = true /\
         u_break_glass (ck_user k) = false /\ has_possible_checker (ck_db k) r = false
    else uid (ck_user k) <> rq_maker r.

Definition backed (ts : list PolicyTable) (ks : list Approval) (id : Z) (r : Request) : Prop :=
  match rq_checker r with Some _ => checked ks id r | None => within_limit ts r end.

Definition backed_ok (c : Conf) : Prop :=
  forall id r, requests (sys c) !! id = Some r -> executing (rq_status r) = true ->
    backed (held_tables c) (checks (past c)) id r.

(** The columns the backing reads; no step but the approval changes them. *)
Definition grounds (r : Request) :=
  (rq_action r, rq_country r, rq_scope r, rq_amount r, rq_currency r, rq_policy r, rq_payload r,
   rq_maker r, rq_checker r, rq_self_approved r).

Lemma backed_grounds ts ks ts' ks' id r r' :
  grounds r' = grounds r -> ts ⊆ ts' -> ks ⊆ ks' -> backed ts ks id r -> backed ts' ks' id r'.
Proof.
  intros Hg Hts Hks. destruct r, r'. cbn in Hg. simplify_eq. unfold backed. cbn. case_match.
  - intros (k' & Hk & Hb). exists k'. split; [by apply Hks|exact Hb].
  - intros (t & act & p & limit & z & Ht & H'). exists t, act, p, limit, z. split; [by apply Hts|exact H'].
Qed.

(** Raising: nobody is asked only within a limit. *)
Lemma prepare_within acc a s r ex ts :
  prepare acc a s = Ok (Fresh r false ex) -> policies s ∈ ts -> within_limit ts r.
Proof.
  unfold prepare. intros H Hts.
  apply res_bind_ok in H as ([] & _ & H). apply res_bind_ok in H as ([] & _ & H).
  apply res_bind_ok in H as ([needs pol] & Hd & H). apply res_bind_ok in H as (c & Hc & H).
  apply res_bind_ok in H as ([] & Hcur & H). apply res_bind_ok in H as (reg & _ & H).
  destruct (existing (ra_key a) s) as [[i q]|]; [done|]. destruct (target_fields a) as [k i].
  apply res_bind_ok in H as (am & Ham & H). injection H as Hr Hn _. subst r. cbn [fst snd] in *.
  apply orb_false_iff in Hn as [[-> Hsys]%orb_false_iff Hforce].
  pose proof (maker_alone_only_within_limit (policies s) (ra_action a) (ra_country a) (ra_amount a) (ra_currency a)) as Hal.
  rewrite Hd in Hal. destruct Hal as (act & p & limit & z & Hact & Halw & -> & Hp & _ & _ & _ & Hlim & Hz & Hle & Hkind).
  exists (policies s), act, p, limit, z. cbn. rewrite Hact in Hforce.
  assert (c = norm_code (ra_country a)) as ->.
  { unfold check_country in Hc. destruct (registry_get _); [|done]. by simplify_eq. }
  rewrite Hz in Ham.
  cbn in Ham. destruct (z <? 0); [done|]. cbn in Ham. simplify_eq. split_and!; try done; try lia.
  destruct Hkind as [?|[? Hk]]; [by left|right]. split; [done|]. rewrite <- Hk.
  destruct (ra_currency a) as [cur|]; [|done]. cbn [truthy]. by case_bool_decide; subst.
Qed.

Lemma record_rows id o actor reason s :
  requests (record_outcome id o actor reason s) =
  requests (match o with
            | ExecutionRefused code m => finish id FAILED (JObj []) code m s
            | Raised m => finish id FAILED (JObj []) "EXECUTOR_ERROR" (String.substring 0 2000 m) s
            | Returned j => finish id EXECUTED (as_result j) EmptyString EmptyString s
            end).2.
Proof. by destruct o. Qed.

(** What became of the rows in one step. *)
Lemma finish_policies id st result code error s : policies (finish id st result code error s).2 = policies s.
Proof. unfold finish. by repeat case_match. Qed.

Lemma record_policies id o actor reason s : policies (record_outcome id o actor reason s) = policies s.
Proof. destruct o; apply finish_policies. Qed.

Lemma finish_grounds id st result code error s j q :
  requests (finish id st result code error s).2 !! j = Some q ->
  exists r, requests s !! j = Some r /\ grounds q = grounds r /\ (executing (rq_status q) = true -> executing (rq_status r) = true).
Proof.
  unfold finish. intros Hq. destruct (requests s !! id) as [r|] eqn:Hr; [|by eauto].
  case_bool_decide as Ha; [|by eauto]. cbn in Hq. apply lookup_insert_Some in Hq as [[<- <-]|[_ Hq]]; [|by eauto].
  exists r. split_and!; [done..|]. by rewrite Ha.
Qed.

Lemma expire_grounds id s j q :
  requests (expire_if_due id s).2 !! j = Some q ->
  exists r, requests s !! j = Some r /\ grounds q = grounds r /\ (executing (rq_status q) = true -> executing (rq_status r) = true).
Proof.
  destruct (expire_if_due_cases id s) as [-> | (r & extra & Hr & _ & _ & _ & -> & _)]; [by eauto|].
  intros [[<- <-]|[_ Hq]]%lookup_insert_Some; [by exists r|by exists q].
Qed.

Lemma backed_frame c c' :
  backed_ok c -> held_tables c ⊆ held_tables c' -> checks (past c) ⊆ checks (past c') ->
  (forall j q, requests (sys c') !! j = Some q -> exists r, requests (sys c) !! j = Some r /\
     grounds q = grounds r /\ (executing (rq_status q) = true -> executing (rq_status r) = true)) ->
  backed_ok c'.
Proof.
  intros Hok Ht Hk Hrows j q Hq Hst. destruct (Hrows j q Hq) as (r & Hr & Hg & Himp).
  eapply backed_grounds; [exact Hg|exact Ht|exact Hk|]. apply Hok; [done|by apply Himp].
Qed.

(** A row that is new or newly decided, the others as they were. *)
Lemma backed_insert c c' id r :
  backed_ok c -> held_tables c ⊆ held_tables c' -> checks (past c) ⊆ checks (past c') ->
  requests (sys c') = <[id := r]> (requests (sys c)) ->
  (executing (rq_status r) = true -> backed (held_tables c') (checks (past c')) id r) -> backed_ok c'.
Proof.
  intros Hok Ht Hk Hreq Hr j q. rewrite Hreq. intros [[<- <-]|[_ Hq]]%lookup_insert_Some Hst; [by apply Hr|].
  eapply backed_grounds; [reflexivity|exact Ht|exact Hk|by apply Hok].
Qed.

Lemma approval_checked acc solo r u reason now ks id :
  check_checker acc solo r u = Ok tt ->
  checked ({| ck_request := id; ck_db := acc; ck_solo := solo; ck_user := u |} :: ks) id
    (decided APPROVED (Some u) (uid u =? rq_maker r) reason now r).
Proof.
  unfold check_checker. intros H. apply res_bind_ok in H as ([] & Hm & H). apply require_ok in H.
  eexists. split; [apply list_elem_of_here|]. cbn [rq_checker rq_self_approved decided ck_user ck_request ck_db ck_solo].
  split_and!; [done..|exact Hm|]. destruct (uid u =? rq_maker r) eqn:E; [|by apply Z.eqb_neq].
  unfold self_approval_allowed in H. cbn [negb orb] in H. bool_cases. by split_and!.
Qed.

(** The locked decisions and the expiry leave the thresholds alone. *)
Lemma expire_policies id s : policies (expire_if_due id s).2 = policies s.
Proof. unfold expire_if_due. by repeat case_match. Qed.

Lemma decision_policies acc solo id u reason s lr s' :
  approve_lock acc solo id u reason s = Ok (lr, s') \/ reject_lock acc solo id u reason s = Ok (lr, s') ->
  policies s' = policies s.
Proof.
  unfold approve_lock, reject_lock, save_request. intros [H|H];
    repeat (first [apply res_bind_ok in H as (? & ? & H) | split_match H]; simplify_eq; try done);
    repeat case_match; by simplify_eq.
Qed.

Lemma cancel_policies id u reason s lr s' :
  cancel_lock id u reason s = Ok (lr, s') -> policies s' = policies s.
Proof.
  unfold cancel_lock, save_request. intros H.
  repeat (first [apply res_bind_ok in H as (? & ? & H) | split_match H]; simplify_eq; try done);
    repeat case_match; by simplify_eq.
Qed.

Lemma insert_policies r s id s' : insert_request r s = Ok (id, s') -> policies s' = policies s.
Proof.
  unfold insert_request, save_request. intros H. apply res_bind_ok in H as (s1 & H1 & H). simplify_eq.
  by case_match; simplify_eq.
Qed.

Lemma same_tables c c' : policies (sys c') = policies (sys c) -> past c' = past c -> held_tables c' = held_tables c.
Proof. unfold held_tables. by intros -> ->. Qed.

Lemma step_backed c c' : backed_ok c -> step c c' -> backed_ok c'.
Proof.
  intros Hok Hs. destruct Hs as [acc a s0 r needs ex id s' Hs0 Hp Hi| |acc solo id u reason r s' Ha
    |acc solo id u reason r s' Ha|id u reason r s' Ha|id|id r ex l1 l2 o s' Ht He| | | | | |].
  - pose proof (prepare_fresh _ _ _ _ _ _ Hp) as (Hc & Hst & _). pose proof (insert_policies _ _ _ _ Hi) as Hpol.
    apply insert_request_ok in Hi as (_ & _ & _ & Hreq & _).
    assert (Hh : held_tables {| sys := s'; tickets := if needs then tickets c else New id r ex :: tickets c; ran := ran c;
       past := past c |} = held_tables c) by by apply same_tables.
    eapply (backed_insert c _ id r); [done|by rewrite Hh|done|exact Hreq|]. rewrite Hst, Hh. destruct needs; [done|].
    intros _. unfold backed. rewrite Hc. by eapply prepare_within.
  - by apply (backed_frame c); [done..|cbn; eauto].
  - pose proof (decision_policies acc solo id u reason _ _ _ (or_introl Ha)) as Hpol.
    apply approve_lock_decided in Ha as (q & Hr & Hst & _ & Hcc & _ & Hr' & Hreq & _).
    eapply (backed_insert c _ id r); [done|unfold held_tables; cbn; by rewrite Hpol|cbn; set_solver|exact Hreq|]. intros _.
    unfold backed. rewrite Hr'. cbn [decided rq_checker]. by apply approval_checked.
  - pose proof (decision_policies acc solo id u reason _ _ _ (or_intror Ha)) as Hpol.
    apply reject_lock_decided in Ha as (q & extra & Hr & _ & _ & _ & Hr' & Hreq & _).
    eapply (backed_insert c _ id r); [done|unfold held_tables; cbn; by rewrite Hpol|done|exact Hreq|by rewrite Hr'].
  - pose proof (cancel_policies id u reason _ _ _ Ha) as Hpol.
    apply cancel_lock_decided in Ha as (q & extra & Hr & _ & _ & _ & _ & Hr' & Hreq & _).
    eapply (backed_insert c _ id r); [done|unfold held_tables; cbn; by rewrite Hpol|done|exact Hreq|by rewrite Hr'].
  - apply (backed_frame c); [done|unfold held_tables; cbn; by rewrite expire_policies|done|apply expire_grounds].
  - unfold execute in He. destruct (ex _ id r _) as [o' [p w]]. injection He as _ <-.
    apply (backed_frame c); [done|unfold held_tables; cbn; set_solver|done|cbn; eauto].
  - apply (backed_frame c); [done|unfold held_tables; cbn; by rewrite record_policies|done|]. cbn. rewrite record_rows. destruct o; apply finish_grounds.
  - apply (backed_frame c); [done|unfold held_tables; cbn; by rewrite finish_policies|done|apply finish_grounds].
  - by apply (backed_frame c); [done..|cbn; eauto].
  - by apply (backed_frame c); [done..|cbn; eauto].
  - by apply (backed_frame c); [done..|cbn; eauto].
  - apply (backed_frame c); [done|unfold held_tables; cbn; set_solver|done|cbn; eauto].
Qed.

Lemma backed_reachable c : reachable c -> backed_ok c.
Proof.
  intros (c0 & (Hr & _) & Hs). assert (H0 : backed_ok c0).
  { intros id r. by rewrite Hr, lookup_empty. }
  clear Hr. induction Hs; [done|]. eauto using step_backed.
Qed.

(** ** What the invariant gives *)

(** C1. However callers interleave, crash or race, the executor of a request runs at most
    once, and somebody answers for every run.  Either the request names an approval that
    was made, by an account that might check it where it is: another account than the
    maker, or, with the row marked self-approved, the maker as the sole Super Admin (the
    setting is on, the account is not break-glass, and no other account may check).  Or
    nobody was asked, and then the amount is at most the limit of the threshold the request
    names, in its currency, for an action that does not force a checker, and the audit
    trail says so.  A request is EXECUTED only if its executor ran; among open and executed
    requests an idempotency key is held by one; and the conditional update that records a
    run always finds its row. *)
Theorem executor_runs_once c :
  reachable c ->
  base.NoDup (ran c) /\
  (forall id, id ∈ ran c -> exists r, requests (sys c) !! id = Some r /\
     executing (rq_status r) = true /\ on_record (trail (sys c)) id r /\
     match rq_checker r with
     | Some _ => checked (checks (past c)) id r
     | None => within_limit (held_tables c) r
     end) /\
  (forall id r, requests (sys c) !! id = Some r -> rq_status r = EXECUTED -> id ∈ ran c) /\
  (forall i j p q, requests (sys c) !! i = Some p -> requests (sys c) !! j = Some q ->
     key_held (rq_status p) = true -> key_held (rq_status q) = true -> rq_key p = rq_key q -> i = j) /\
  (forall id o st result code error, Ran id o ∈ tickets c ->
     (finish id st result code error (sys c)).1 = true).
Proof.
  intros Hreach. pose proof (backed_reachable c Hreach) as Hb. apply conf_reachable_ok in Hreach as Hok. split_and!.
  - apply ci_ran. done.
  - intros id Hid. destruct (ci_ran_row c Hok id Hid) as (r & Hr & He & Hon). exists r.
    split_and!; [done..|]. exact (Hb id r Hr He).
  - apply (ci_done c Hok).
  - apply (ci_keys c Hok).
  - intros id o st result code error Hin. destruct (ci_tickets c Hok _ Hin) as (r & Hr & Hst & _).
    cbn in Hr. unfold finish. by rewrite Hr, Hst, bool_decide_eq_true_2.
Qed.

(** *** The life of one request *)

(** The abstract machine: what may become of a request. *)
Inductive moves : status -> status -> Prop :=
| move_approve : moves REQUESTED APPROVED
| move_reject : moves REQUESTED REJECTED
| move_cancel : moves REQUESTED CANCELLED
| move_expire : moves REQUESTED EXPIRED
| move_succeed : moves APPROVED EXECUTED
| move_fail : moves APPROVED FAILED.

Lemma terminal_stays st st' : terminal st = true -> ~ moves st st'.
Proof. by destruct 2. Qed.

(** The columns nothing changes after the row is written. *)
Definition asked (r : Request) :=
  (rq_action r, rq_country r, rq_scope r, rq_amount r, rq_currency r, rq_policy r,
   (rq_target_type r, rq_target_id r, rq_payload r, rq_reason r),
   (rq_maker r, rq_maker_snapshot r, rq_requested_at r, rq_expires_at r, rq_key r)).

(** One step's effect on one row. *)
Definition row_step (r r' : Request) : Prop :=
  asked r' = asked r /\ (r' = r \/ moves (rq_status r) (rq_status r')).

Lemma row_step_refl r : row_step r r.
Proof. split; [done|by left]. Qed.

Lemma row_update (m : gmap Z Request) id r r' :
  m !! id = Some r -> row_step r r' ->
  forall j q, m !! j = Some q -> exists q', <[id := r']> m !! j = Some q' /\ row_step q q'.
Proof.
  intros Hr Hrow j q Hj. destruct (decide (j = id)) as [->|].
  - simplify_eq. exists r'. by rewrite lookup_insert_eq.
  - exists q. rewrite lookup_insert_ne by done. split; [done|apply row_step_refl].
Qed.

Lemma finish_rows id st result code error s :
  st = EXECUTED \/ st = FAILED ->
  forall j q, requests s !! j = Some q ->
    exists q', requests (finish id st result code error s).2 !! j = Some q' /\ row_step q q'.
Proof.
  intros Hst j q Hj. unfold finish. destruct (requests s !! id) as [r|] eqn:Hr.
  2: { exists q. split; [done|apply row_step_refl]. }
  destruct (bool_decide _) eqn:Ha; cbn; [|exists q; split; [done|apply row_step_refl]].
  apply bool_decide_eq_true in Ha. apply (row_update _ id r); [done| |done].
  split; [done|right]. cbn. rewrite Ha. destruct Hst as [-> | ->]; constructor.
Qed.

Lemma step_rows c c' :
  conf_ok c -> step c c' -> forall id r, requests (sys c) !! id = Some r ->
  exists r', requests (sys c') !! id = Some r' /\ row_step r r'.
Proof.
  intros Hok Hs. destruct Hs; cbn; try (intros j q Hj; exists q; split; [done|apply row_step_refl]).
  - intros j q Hj. apply insert_request_ok in H1 as (-> & _ & _ & -> & _).
    pose proof (ci_fresh c Hok j q Hj). exists q. rewrite lookup_insert_ne by lia.
    split; [done|apply row_step_refl].
  - apply approve_lock_decided in H as (q & Hr & Hst & _ & _ & _ & Hr' & -> & _).
    apply (row_update _ id q); [done|]. rewrite Hr'. split; [done|right]. cbn. rewrite Hst. constructor.
  - apply reject_lock_decided in H as (q & extra & Hr & Hst & _ & _ & Hr' & -> & _).
    apply (row_update _ id q); [done|]. rewrite Hr'. split; [done|right]. cbn. rewrite Hst. constructor.
  - apply cancel_lock_decided in H as (q & extra & Hr & Hst & _ & _ & _ & Hr' & -> & _).
    apply (row_update _ id q); [done|]. rewrite Hr'. split; [done|right]. cbn. rewrite Hst. constructor.
  - destruct (expire_if_due_cases id (sys c)) as [->|(r & extra & Hr & _ & Hst & _ & -> & _)].
    + intros j q Hj. exists q. split; [done|apply row_step_refl].
    + apply (row_update _ id r); [done|]. split; [done|right]. cbn. rewrite Hst. constructor.
  - intros j q Hj. exists q. split; [|apply row_step_refl]. unfold execute in H0.
    destruct (ex _ id r _) as [o' [p w]]. by injection H0 as _ <-.
  - rewrite record_rows. destruct o; apply finish_rows; auto.
  - apply finish_rows. auto.
Qed.

(** C7. Whatever happens to a request is a walk of the abstract life cycle: requested,
    then approved, rejected, cancelled or expired; approved, then executed or failed.
    What was asked (action, place, amount, payload, maker, key, deadline) never changes,
    so a checker approves what the maker raised, and a closed request never changes
    again. *)
Theorem requests_refine_lifecycle c c' id r :
  reachable c -> rtc step c c' -> requests (sys c) !! id = Some r ->
  exists r', requests (sys c') !! id = Some r' /\ asked r' = asked r /\
    rtc moves (rq_status r) (rq_status r') /\ (terminal (rq_status r) = true -> r' = r).
Proof.
  intros Hreach Hs. apply conf_reachable_ok in Hreach. revert r. induction Hs as [c|c1 c2 c3 H12 H23 IH]; intros r Hr.
  - exists r. split_and!; [done..|constructor|done].
  - destruct (step_rows c1 c2 Hreach H12 id r Hr) as (r2 & Hr2 & Ha2 & Hm2).
    destruct (IH (step_ok c1 c2 Hreach H12) r2 Hr2) as (r3 & Hr3 & Ha3 & Hm3 & Ht3).
    exists r3. split; [done|]. split; [congruence|]. destruct Hm2 as [->|Hm2]; [done|]. split.
    + by eapply rtc_l.
    + intros Ht. by apply terminal_stays in Hm2.
Qed.

(** *** The composed operations are walks of the step relation *)

Definition walks (c : Conf) (s' : Sys) : Prop :=
  exists rn pa, rtc step c {| sys := s'; tickets := tickets c; ran := rn; past := pa |}.

Lemma walks_refl c : walks c (sys c).
Proof. exists (ran c), (past c). by destruct c. Qed.

Lemma walks_step c s' : step c {| sys := s'; tickets := tickets c; ran := ran c; past := past c |} -> walks c s'.
Proof. intros H. eexists _, _. by apply rtc_once. Qed.

(** Execute, then record, with the ticket on top. *)
Lemma run_walks s l rn pa id r ex actor reason :
  rtc step {| sys := s; tickets := Ready id r (Some ex) :: l; ran := rn; past := pa |}
           {| sys := run id r ex actor reason s; tickets := l; ran := id :: rn; past := past_table (policies s) pa |}.
Proof.
  unfold run. destruct (execute ex id r s) as [o s'] eqn:He.
  eapply rtc_l; [by eapply (step_execute {| sys := s; tickets := Ready id r (Some ex) :: l; ran := rn; past := pa |} id r ex [] l o s')|].
  apply rtc_once. by eapply (step_record {| sys := s'; tickets := Ran id o :: l; ran := id :: rn; past := past_table (policies s) pa |} id o [] l actor reason).
Qed.

Lemma carry_out_walks s l rn pa id r actor reason :
  exists rn' pa', rtc step {| sys := s; tickets := Ready id r (executor_for (rq_action r)) :: l; ran := rn; past := pa |}
                       {| sys := carry_out id r actor reason s; tickets := l; ran := rn'; past := pa' |}.
Proof.
  unfold carry_out. destruct (executor_for (rq_action r)) as [ex|].
  - eexists _, _. apply run_walks.
  - exists rn, pa. apply rtc_once.
    by eapply (step_no_executor {| sys := s; tickets := Ready id r None :: l; ran := rn; past := pa |} id r [] l actor reason).
Qed.

(** A locked decision that did not go through changes nothing. *)
Ltac lock_keeps H :=
  repeat (first [apply res_bind_ok in H as (? & _ & H) | split_match H]; simplify_eq; try done); eauto.

Lemma approve_lock_keeps acc solo id u reason s lr s' :
  approve_lock acc solo id u reason s = Ok (lr, s') -> (exists r, lr = Decided r) \/ s' = s.
Proof. unfold approve_lock. intros H. lock_keeps H. Qed.

Lemma reject_lock_keeps acc solo id u reason s lr s' :
  reject_lock acc solo id u reason s = Ok (lr, s') -> (exists r, lr = Decided r) \/ s' = s.
Proof. unfold reject_lock. intros H. lock_keeps H. Qed.

Lemma cancel_lock_keeps id u reason s lr s' :
  cancel_lock id u reason s = Ok (lr, s') -> (exists r, lr = Decided r) \/ s' = s.
Proof. unfold cancel_lock. intros H. lock_keeps H. Qed.

Lemma approve_walks acc solo id checker reason c :
  walks c (approve acc solo id checker reason (sys c)).2.
Proof.
  unfold approve. destruct (approve_lock acc solo id checker reason (sys c)) as [[lr s']|e] eqn:H;
    [|apply walks_refl].
  pose proof (approve_lock_keeps _ _ _ _ _ _ _ _ H) as [[r ->]| ->].
  - edestruct (carry_out_walks s' (tickets c) (ran c)) as (rn & pa & Hrn).
    exists rn, pa. eapply rtc_l; [by eapply step_approve|exact Hrn].
  - destruct lr as [r|r|]; cbn [snd]; [|apply walks_refl|apply walks_step, step_expire].
    edestruct (carry_out_walks (sys c) (tickets c) (ran c)) as (rn & pa & Hrn).
    exists rn, pa. eapply rtc_l; [by eapply step_approve|exact Hrn].
Qed.

Lemma closing_walks m id c :
  (forall r s', m = Ok (Decided r, s') -> step c {| sys := s'; tickets := tickets c; ran := ran c; past := past c |}) ->
  (forall lr s', m = Ok (lr, s') -> (exists r, lr = Decided r) \/ s' = sys c) ->
  walks c (closing m id (sys c)).2.
Proof.
  intros Hd Hk. destruct m as [[lr s']|e]; [|apply walks_refl].
  destruct (Hk lr s' eq_refl) as [[r ->]| ->].
  - apply walks_step, (Hd r s' eq_refl).
  - destruct lr as [r|r|]; cbn; [apply walks_refl|apply walks_refl|apply walks_step, step_expire].
Qed.

Lemma expire_each_walks ids c : walks c (expire_each ids (sys c)).2.
Proof.
  revert c. induction ids as [|id ids IH]; intros c; [apply walks_refl|]. cbn [expire_each].
  destruct (expire_if_due id (sys c)) as [hit s1] eqn:H1.
  set (c1 := {| sys := s1; tickets := tickets c; ran := ran c; past := past c |}).
  destruct (IH c1) as (rn & pa & Hrn). cbn [sys] in Hrn.
  destruct (expire_each ids s1) as [n s2] eqn:E. exists rn, pa. cbn in *. rewrite E in Hrn.
  eapply rtc_l; [|exact Hrn]. pose proof (step_expire c id) as Hs. by rewrite H1 in Hs.
Qed.

Lemma require_walks acc a c : walks c (require_approval_or_execute acc a (sys c)).2.
Proof.
  unfold require_approval_or_execute. destruct (prepare acc a (sys c)) as [[id r|r needs ex]|e] eqn:Hp;
    [apply walks_refl| |apply walks_refl].
  destruct (insert_request r (sys c)) as [[id s']|e] eqn:Hi.
  2: { destruct (existing (ra_key a) (sys c)) as [[i q]|]; apply walks_refl. }
  pose proof (step_raise c acc a (sys c) r needs ex id s' (list_elem_of_here _ _) Hp Hi) as Hs.
  unfold after_insert. destruct needs; cbn.
  - exists (ran c), (past c). eapply rtc_l; [exact Hs|]. apply rtc_once. apply (step_log {| sys := s'; tickets := tickets c; ran := ran c; past := past c |}).
  - eexists _, _. eapply rtc_l; [exact Hs|]. eapply rtc_l; [|apply run_walks].
    by eapply (step_note {| sys := s'; tickets := New id r ex :: tickets c; ran := ran c; past := past c |} id r ex [] (tickets c)).
Qed.

(** Each service call, run through without interruption, is a walk of the step
    relation that leaves nothing of its own pending: raising (or acting alone),
    approving, rejecting, cancelling and the expiry sweep.  What holds of every
    reachable configuration therefore holds after any sequence of complete calls, and
    of any interleaving of their transactions. *)
Theorem operations_refine_steps c :
  (forall acc a, walks c (require_approval_or_execute acc a (sys c)).2) /\
  (forall acc solo id u reason, walks c (approve acc solo id u reason (sys c)).2) /\
  (forall acc solo id u reason, walks c (reject acc solo id u reason (sys c)).2) /\
  (forall id u reason, walks c (cancel id u reason (sys c)).2) /\
  (forall now, walks c (expire_stale now (sys c)).2).
Proof.
  split_and!; intros.
  - apply require_walks.
  - apply approve_walks.
  - unfold reject. destruct (bool_decide _); [apply walks_refl|]. apply closing_walks.
    + intros r s' H. by eapply step_reject.
    + intros lr s'. apply reject_lock_keeps.
  - apply closing_walks.
    + intros r s' H. by eapply step_cancel.
    + intros lr s'. apply cancel_lock_keeps.
  - apply expire_each_walks.
Qed.

(** *** The sweep *)

Definition swept (s : Sys) (r : Request) : Request :=
  if is_overdue r s then with_status EXPIRED r else r.

Lemma swept_not_overdue s r : is_overdue (swept s r) s = false.
Proof.
  unfold swept. destruct (is_overdue r s) eqn:E; [|done]. unfold is_overdue. cbn. done.
Qed.

Lemma expire_if_due_lookup id s j :
  requests (expire_if_due id s).2 !! j = if decide (j = id) then swept s <$> requests s !! j else requests s !! j.
Proof.
  unfold expire_if_due, swept. destruct (requests s !! id) as [r|] eqn:Hr.
  - destruct (is_overdue r s) eqn:Ho; cbn.
    + destruct (decide (j = id)) as [->|]; [|by rewrite lookup_insert_ne].
      by rewrite lookup_insert_eq, Hr; cbn; rewrite Ho.
    + destruct (decide (j = id)) as [->|]; [|done]. by rewrite Hr; cbn; rewrite Ho.
  - cbn. destruct (decide (j = id)) as [->|]; [|done]. by rewrite Hr.
Qed.

Lemma expire_if_due_clock id s : clock (expire_if_due id s).2 = clock s.
Proof. destruct (expire_if_due_cases id s) as [->|(? & ? & ? & ? & ? & ? & ? & ? & ? & ?)]; done. Qed.

Lemma swept_clock s s' r : clock s' = clock s -> swept s' r = swept s r.
Proof. intros H. unfold swept, is_overdue, is_past_expiry. by rewrite H. Qed.

Lemma expire_each_spec ids s :
  base.NoDup ids ->
  clock (expire_each ids s).2 = clock s /\
  (forall j, requests (expire_each ids s).2 !! j =
             if decide (j ∈ ids) then swept s <$> requests s !! j else requests s !! j) /\
  (expire_each ids s).1 =
    zsum (fun id => if (match requests s !! id with Some r => is_overdue r s | None => false end) then 1 else 0) ids.
Proof.
  intros Hnd. revert s. induction Hnd as [|id ids Hid Hnd IH]; intros s; [split_and!; [done|by intros j|done]|].
  cbn [expire_each zsum foldr]. destruct (expire_if_due id s) as [hit s1] eqn:H1.
  pose proof (expire_if_due_clock id s) as Hc. pose proof (expire_if_due_lookup id s) as Hl. rewrite H1 in Hc, Hl.
  cbn in Hc, Hl. destruct (IH s1) as (IHc & IHl & IHn). destruct (expire_each ids s1) as [n s2]. cbn in *.
  split_and!.
  - congruence.
  - intros j. rewrite IHl, Hl. destruct (decide (j = id)) as [->|Hne].
    + rewrite decide_False, decide_True by set_solver. done.
    + destruct (decide (j ∈ ids)); [rewrite decide_True by set_solver|rewrite decide_False by set_solver]; [|done].
      destruct (requests s !! j); [|done]. cbn. by rewrite (swept_clock s s1).
  - rewrite IHn. f_equal.
    + assert (hit = (expire_if_due id s).1) as -> by (by rewrite H1). unfold expire_if_due.
      destruct (requests s !! id) as [r|]; [|done]. by destruct (is_overdue r s).
    + apply zsum_ext. intros j Hj. rewrite Hl, decide_False by (intros ->; done).
      destruct (requests s !! j) as [r|]; [|done]. unfold is_overdue, is_past_expiry. by rewrite Hc.
Qed.

Lemma elem_of_due now s id :
  id ∈ due now s <-> exists r, requests s !! id = Some r /\ rq_status r = REQUESTED /\ rq_expires_at r <= now.
Proof.
  unfold due. rewrite list_elem_of_fmap. split.
  - intros ([j r] & -> & H). apply elem_of_filter_b in H as [Hm Hb]. apply elem_of_map_to_list in Hm.
    apply andb_true_iff in Hb as [H1 H2]. apply bool_decide_eq_true in H1. apply Z.leb_le in H2. by exists r.
  - intros (r & Hr & Hst & Hle). exists (id, r). split; [done|]. apply elem_of_filter_b.
    split; [by apply elem_of_map_to_list|]. apply andb_true_iff. split; [by apply bool_decide_eq_true|by apply Z.leb_le].
Qed.

Lemma due_nodup now s : base.NoDup (due now s).
Proof.
  unfold due. pose proof (NoDup_fst_map_to_list (requests s)) as H. revert H.
  induction (map_to_list (requests s)) as [|e l IH]; [done|]. rewrite fmap_cons. intros [Hn Hd]%NoDup_cons.
  cbn [List.filter]. destruct (_ && _); [|by apply IH]. rewrite fmap_cons. apply NoDup_cons. split; [|by apply IH].
  intros (x & Hex & Hx)%list_elem_of_fmap. apply Hn. apply elem_of_filter_b in Hx as [Hx _].
  rewrite Hex. by apply list_elem_of_fmap_2.
Qed.

Lemma zsum_one {A} (l : list A) : zsum (fun _ => 1) l = Z.of_nat (length l).
Proof.
  induction l as [|x l IH]; [done|]. change (1 + zsum (fun _ => 1) l = Z.of_nat (S (length l))). lia.
Qed.

(** No request waits for ever: the sweep expires exactly the open requests whose
    deadline has come, counts each once, leaves every other request as it was, and
    afterwards whatever is still open is still in time. *)
Theorem expire_stale_clears s :
  let '(n, s') := expire_stale None s in
  (forall id, requests s' !! id = swept s <$> requests s !! id) /\
  n = Z.of_nat (length (due (clock s) s)) /\
  (forall id r, requests s' !! id = Some r -> rq_status r = REQUESTED -> clock s' < rq_expires_at r).
Proof.
  unfold expire_stale. cbn [default]. pose proof (expire_each_spec (due (clock s) s) s (due_nodup _ _)) as (Hc & Hl & Hn).
  destruct (expire_each (due (clock s) s) s) as [n s']. cbn in Hc, Hl, Hn.
  assert (Hall : forall id, requests s' !! id = swept s <$> requests s !! id).
  { intros id. rewrite Hl. destruct (decide (id ∈ due (clock s) s)) as [|Hni]; [done|].
    destruct (requests s !! id) as [r|] eqn:Hr; [|done]. cbn. f_equal. unfold swept.
    destruct (is_overdue r s) eqn:Ho; [|done]. exfalso. apply Hni, elem_of_due. exists r. split; [done|].
    unfold is_overdue, is_past_expiry in Ho. apply andb_true_iff in Ho as [H1 H2].
    by apply bool_decide_eq_true in H1; apply Z.leb_le in H2. }
  split_and!; [done| |].
  - rewrite Hn. transitivity (zsum (fun _ => 1) (due (clock s) s)).
    + apply zsum_ext. intros id (r & Hr & Hst & Hle)%elem_of_due. rewrite Hr. unfold is_overdue, is_past_expiry.
      by rewrite bool_decide_eq_true_2, (proj2 (Z.leb_le _ _)).
    + apply zsum_one.
  - intros id r Hr Hst. rewrite Hall in Hr. destruct (requests s !! id) as [q|]; [|done]. injection Hr as <-.
    pose proof (swept_not_overdue s q) as H. unfold is_overdue in H at 1. rewrite bool_decide_eq_true_2 in H by done.
    rewrite andb_true_l in H. unfold is_past_expiry in H. apply Z.leb_gt in H. lia.
Qed.

(** *** Keys *)

Lemma existing_held c id r :
  conf_ok c -> requests (sys c) !! id = Some r -> key_held (rq_status r) = true ->
  existing (rq_key r) (sys c) = Some (id, r).
Proof.
  intros Hok Hr Hh. unfold existing.
  destruct (List.find _ _) as [[j q]|] eqn:E.
  - apply List.find_some in E as [Hin Hb]. apply list_elem_of_In, elem_of_map_to_list in Hin.
    cbn in Hb. apply andb_true_iff in Hb as [Hk Hq]. apply bool_decide_eq_true in Hk.
    assert (j = id) as -> by (by apply (ci_keys c Hok j id q r)). by simplify_eq.
  - assert (Hin : In (id, r) (map_to_list (requests (sys c)))).
    { apply list_elem_of_In. by apply elem_of_map_to_list. }
    apply (List.find_none _ _ E) in Hin. cbn in Hin. rewrite Hh, bool_decide_eq_true_2 in Hin; done.
Qed.

(** What raising a held key can answer. *)
Definition answers_with (id : Z) (r : Request) (s : Sys) (answer : res ap_error Outcome * Sys) : Prop :=
  answer.2 = s /\
  match answer.1 with
  | Ok o => oc_id o = id /\ oc_request o = Some r /\ oc_duplicate o = true /\ oc_executed o = false
  | Err e => e <> IntegrityFailure
  end.

Lemma prepare_not_integrity acc a s : prepare acc a s <> Err IntegrityFailure.
Proof.
  intros H. unfold prepare, decide_checker, check_country, check_amount, require, res_opt in H.
  repeat (first [progress simpl in H | split_match H]; simplify_eq).
Qed.

Lemma raise_held_key acc a c id r :
  conf_ok c -> requests (sys c) !! id = Some r -> key_held (rq_status r) = true -> rq_key r = ra_key a ->
  answers_with id r (sys c) (require_approval_or_execute acc a (sys c)).
Proof.
  intros Hok Hr Hh Hk. pose proof (existing_held c id r Hok Hr Hh) as Hex. rewrite Hk in Hex.
  unfold require_approval_or_execute. destruct (prepare acc a (sys c)) as [p|e] eqn:Hp.
  2: { split; [done|]. cbn. intros ->. by apply prepare_not_integrity in Hp. }
  assert (p = Duplicate id r) as ->; [|by split].
  unfold prepare in Hp. rewrite Hex in Hp.
  repeat (apply res_bind_ok in Hp as (? & _ & Hp)). by injection Hp.
Qed.

(** Raising is idempotent per key: while a request holds its key (it is open,
    approved or executed), raising anything under that key returns that request and
    changes nothing; a refusal changes nothing either, and is never a database error. *)
Theorem held_key_returns_request acc a c id r :
  reachable c -> requests (sys c) !! id = Some r -> key_held (rq_status r) = true ->
  rq_key r = ra_key a ->
  answers_with id r (sys c) (require_approval_or_execute acc a (sys c)).
Proof. intros Hc. apply raise_held_key. by apply conf_reachable_ok. Qed.

(** A threshold cannot be set back: once a policy change has been carried out, its
    key (which names the proposed values but not the version they replace) stays held,
    so proposing the same values again returns the executed request and raises nothing,
    whatever threshold is in force by then. *)
Theorem threshold_cannot_return acc actor country action_key kind currency limit reason c id r f :
  reachable c -> requests (sys c) !! id = Some r -> rq_status r = EXECUTED ->
  validate_policy_fields country action_key kind currency limit = Ok f ->
  rq_key r = policy_change_key f action_key kind ->
  answers_with id r (sys c)
    (propose_policy_change acc actor country action_key kind currency limit reason (sys c)).
Proof.
  intros Hc%conf_reachable_ok Hr Hst Hf Hk. unfold propose_policy_change. rewrite Hf. cbn [res_bind].
  destruct (require (negb (bool_decide (strip reason = EmptyString))) _) as [[]|e] eqn:E1; cbn [res_bind].
  2: { unfold require in E1. split; [done|]. cbn. intros ->. by destruct (negb _). }
  destruct (lift_permission _) as [ok|e] eqn:E2; cbn [res_bind].
  2: { unfold lift_permission, map_err in E2. split; [done|]. cbn. intros ->. by split_match E2. }
  destruct ok; cbn [require res_bind]; [|by split].
  apply raise_held_key; [done|done|by rewrite Hst|done].
Qed.

End Service.

(** ** A concrete run: two admins and one threshold *)

#[local] Open Scope string_scope.

Definition ops_role : Role :=
  {| r_code := "platform"; r_permissions := ["platform.settings"; "approval.check"; "support.refund"];
     r_global_only := false; r_active := true |}.

(** Admins 7 and 8 hold the role over India, admin 6 over the USA. *)
Definition run_access : AccessDb :=
  {| nodes := demo_tree; roles := {[ 1%Z := ops_role ]};
     assignments := {[ 1%Z := {| as_admin := 7; as_role := 1; as_scope := 2; as_active := true |};
                       2%Z := {| as_admin := 8; as_role := 1; as_scope := 2; as_active := true |};
                       3%Z := {| as_admin := 6; as_role := 1; as_scope := 5; as_active := true |} ]};
     users := {[ 6%Z := demo_user 6 false; 7%Z := demo_user 7 false; 8%Z := demo_user 8 false ]};
     strict_mode := false |}.

Definition run_executors (key : string) : option (executor unit) :=
  if bool_decide (key = POLICY_CHANGE) then Some execute_policy_change
  else if bool_decide (key = SUPPORT_REFUND) then Some (fun _ _ _ tw => (Returned (JStr "refunded"), tw))
  else None.

Definition run_closed (_ : string) : list (callback unit) := [].

#[local] Close Scope string_scope.

Definition run_start : Sys (W := unit) :=
  {| policies := demo_policies; requests := ∅; next_request := 1; trail := []; clock := 100; world := tt |}.

Definition run_propose (limit : Z) (s : Sys (W := unit)) :=
  propose_policy_change run_executors 72 run_access (demo_user 7 false) (Some "IN"%string) SUPPORT_REFUND "money"
    (Some "INR"%string) (Some (AInt limit)) "quarterly review" s.

Definition run_approve (who id : Z) (s : Sys (W := unit)) :=
  approve run_executors run_closed run_access false id (demo_user who false) "agreed" s.

Definition run_s1 := (run_propose 80000 run_start).2.
Definition run_s2 := (run_approve 8 1 run_s1).2.
Definition run_s3 := (run_propose 60000 run_s2).2.
Definition run_s4 := (run_approve 8 2 run_s3).2.

Definition in_force (s : Sys (W := unit)) : option Z :=
  active_policy (policies s) "IN" SUPPORT_REFUND ≫= pol_limit.

Example maker_cannot_check : (run_approve 7 1 run_s1).1 = Err (NotPermitted "SELF_APPROVAL").
Proof. vm_compute. reflexivity. Qed.

Example other_country_sees_nothing : (run_approve 6 1 run_s1).1 = Err NotInScope.
Proof. vm_compute. reflexivity. Qed.

Example second_change_in_force : (in_force run_s2, in_force run_s4) = (Some 80000, Some 60000).
Proof. vm_compute. reflexivity. Qed.

Definition run_conf : Conf (W := unit) := {| sys := run_start; tickets := []; ran := []; past := {| tables := []; checks := [] |} |}.

Lemma run_initial : initial run_conf.
Proof. by split_and!. Qed.

Notation run_step := (step run_executors run_closed 72).
Notation run_reachable := (reachable run_executors run_closed 72).

Lemma reachable_walk (c : Conf (W := unit)) (s' : Sys) :
  run_reachable c -> tickets c = [] -> walks run_executors run_closed 72 c s' ->
  exists c', run_reachable c' /\ tickets c' = [] /\ sys c' = s'.
Proof.
  intros (c0 & Hi & Hs) Ht (rn & pa & Hw). exists {| sys := s'; tickets := tickets c; ran := rn; past := pa |}.
  split; [|done]. exists c0. split; [done|]. by etrans.
Qed.

Lemma propose_walks acc actor country action_key kind currency limit reason (c : Conf (W := unit)) :
  walks run_executors run_closed 72 c
    (propose_policy_change run_executors 72 acc actor country action_key kind currency limit reason (sys c)).2.
Proof.
  unfold propose_policy_change. case_match; [case_match; apply require_walks|apply walks_refl].
Qed.

Lemma run_reaches : exists c, run_reachable c /\ tickets c = [] /\ sys c = run_s4.
Proof.
  assert (H0 : exists c, run_reachable c /\ tickets c = [] /\ sys c = run_start).
  { exists run_conf. split; [|done]. exists run_conf. split; [apply run_initial|done]. }
  assert (Hp : forall l s, (exists c, run_reachable c /\ tickets c = [] /\ sys c = s) ->
             exists c, run_reachable c /\ tickets c = [] /\ sys c = (run_propose l s).2).
  { intros l s (c & Hc & Ht & <-). eapply reachable_walk; [done..|]. apply propose_walks. }
  assert (Ha : forall w i s, (exists c, run_reachable c /\ tickets c = [] /\ sys c = s) ->
             exists c, run_reachable c /\ tickets c = [] /\ sys c = (run_approve w i s).2).
  { intros w i s (c & Hc & Ht & <-). eapply reachable_walk; [done..|]. apply approve_walks. }
  apply Ha, Hp, Ha, Hp, H0.
Qed.

(** The request under [id] at the end of the run. *)
Definition run_request (id : Z) : option Request := requests run_s4 !! id.

Definition run_row : Request :=
  match run_request 1 with
  | Some r => r
  | None => {| rq_action := EmptyString; rq_country := EmptyString; rq_scope := None; rq_amount := None;
               rq_currency := EmptyString; rq_policy := None; rq_target_type := EmptyString;
               rq_target_id := EmptyString; rq_payload := []; rq_reason := EmptyString; rq_maker := 0;
               rq_maker_snapshot := seed; rq_status := REQUESTED; rq_requested_at := 0; rq_expires_at := 0;
               rq_checker := None; rq_checker_snapshot := seed; rq_self_approved := false;
               rq_decision_reason := EmptyString; rq_decided_at := None; rq_executed_at := None;
               rq_result := JNull; rq_error_code := EmptyString; rq_error := EmptyString; rq_key := EmptyString |}
  end.

Lemma run_row_1 : requests run_s4 !! 1 = Some run_row.
Proof. vm_compute. reflexivity. Qed.

Lemma executor_runs_once_witness :
  exists c, sys c = run_s4 /\ 1 ∈ ran c /\ rq_checker run_row = Some 8 /\ rq_maker run_row = 7 /\
    checked (checks (past c)) 1 run_row.
Proof.
  destruct run_reaches as (c & Hc & _ & Hs). exists c. split; [exact Hs|].
  destruct (executor_runs_once run_executors run_closed 72 c Hc) as (_ & Hb & H & _).
  rewrite Hs in H, Hb. assert (H1 : 1 ∈ ran c).
  { apply (H 1 run_row); [apply run_row_1|vm_compute; reflexivity]. }
  destruct (Hb 1 H1) as (r & Hr & _ & _ & Hk). rewrite run_row_1 in Hr. apply (inj Some) in Hr. rewrite <- Hr in Hk.
  split_and!; [exact H1|vm_compute; reflexivity|vm_compute; reflexivity|exact Hk].
Defined.

Lemma requests_refine_lifecycle_witness :
  exists c, sys c = run_s4 /\ forall c', rtc run_step c c' -> requests (sys c') !! 1 = Some run_row.
Proof.
  destruct run_reaches as (c & Hc & _ & Hs). exists c. split; [exact Hs|]. intros c' Hw.
  destruct (requests_refine_lifecycle run_executors run_closed 72 c c' 1 run_row Hc Hw) as (r' & Hr' & _ & _ & Ht).
  - rewrite Hs. apply run_row_1.
  - rewrite Hr', Ht; [reflexivity|]. vm_compute. reflexivity.
Defined.

Definition run_args : RaiseArgs (W := unit) :=
  {| ra_action := SUPPORT_REFUND; ra_actor := Some (demo_user 7 false); ra_country := Some "IN"%string;
     ra_amount := Some (AInt 100); ra_currency := Some "INR"%string; ra_scope := None; ra_target := None;
     ra_target_type := "trip"; ra_target_id := "5"; ra_payload := []; ra_execute := None;
     ra_key := rq_key run_row; ra_reason := "goodwill"; ra_system_label := EmptyString |}.

Lemma held_key_returns_request_witness :
  (require_approval_or_execute run_executors 72 run_access run_args run_s4).2 = run_s4.
Proof.
  destruct run_reaches as (c & Hc & _ & Hs).
  destruct (held_key_returns_request run_executors run_closed 72 run_access run_args c 1 run_row Hc) as [H _].
  - rewrite Hs. apply run_row_1.
  - vm_compute. reflexivity.
  - reflexivity.
  - rewrite Hs in H. exact H.
Defined.

(** In force: 600 rupees; 800 had been in force before it, and cannot be asked for again. *)
Lemma threshold_cannot_return_witness :
  in_force run_s4 = Some 60000 /\ (run_propose 80000 run_s4).2 = run_s4 /\
  (oc_duplicate <$> match (run_propose 80000 run_s4).1 with Ok o => Some o | Err _ => None end) = Some true.
Proof.
  split; [vm_compute; reflexivity|].
  destruct run_reaches as (c & Hc & _ & Hs).
  destruct (threshold_cannot_return run_executors run_closed 72 run_access (demo_user 7 false) (Some "IN"%string)
    SUPPORT_REFUND "money" (Some "INR"%string) (Some (AInt 80000)) "quarterly review" c 1 run_row
    {| pf_country := "IN"; pf_kind := MONEY; pf_currency := "INR"; pf_limit := Some 80000 |} Hc) as [H1 H2].
  - rewrite Hs. apply run_row_1.
  - vm_compute. reflexivity.
  - vm_compute. reflexivity.
  - vm_compute. reflexivity.
  - rewrite Hs in H1. split; [exact H1|]. vm_compute. reflexivity.
Defined.
