(* ===== verification/Commission.v ===== *)
(** * Commission: which rule governs a trip

    Models [servers/pricing/commission.py] and the resolution half of
    [servers/pricing/commission_models.py]: the scope of a trip, the layered
    resolution, the booking snapshot, the settlement-time decision that never
    invents a rate, and the console's matrix.  The table of rules is a list;
    the point lookup a trip without a stamped zone falls back to is the
    interface [ZoneLookup], which the pricing component implements. *)

From Stdlib Require Import QArith Sorted.
From S2P Require Import Prelude PyDecimal PyText Countries Models Money.
#[local] Open Scope Z_scope.

(** What [servers.pricing.services] promises to its clients. *)
Class ZoneLookup := { find_zone_for_point : Q * Q -> option Zone }.

(** ** Rules *)

Inductive rule_kind := Percentage | FlatFee | Subscription.
Inductive rule_status := Draft | PendingApproval | Active | Archived.

#[global] Instance rule_kind_eq_dec : EqDecision rule_kind.
Proof. solve_decision. Defined.
#[global] Instance rule_status_eq_dec : EqDecision rule_status.
Proof. solve_decision. Defined.

Record CommissionRule := {
  rule_id : Z;
  rule_country : string;
  rule_geo_node : option GeoNode;
  rule_vehicle_type : option Z;
  rule_kind_of : rule_kind;
  rule_percent : dec;
  rule_status_of : rule_status;
  rule_version : Z;
  rule_from : Z;
  rule_to : option Z
}.

Definition APPLICABLE_STATUSES : list rule_status := [Active; Archived].

Definition id_truthy (x : option Z) : bool := match x with Some v => negb (v =? 0) | None => false end.

Definition is_city_rule (r : CommissionRule) : bool :=
  match rule_geo_node r with Some n => bool_decide (node_kind_of n = KCity) | None => false end.

Definition rule_level (r : CommissionRule) : string :=
  if is_city_rule r && id_truthy (rule_vehicle_type r) then "city_vehicle"
  else if is_city_rule r then "city"
  else if id_truthy (rule_vehicle_type r) then "vehicle" else "country".

Definition specificity (r : CommissionRule) : Z :=
  (if id_truthy (rule_vehicle_type r) then 2 else 0) + (if is_city_rule r then 1 else 0).

Definition applies_at (r : CommissionRule) (at_ : Z) : bool :=
  if bool_decide (rule_status_of r ∈ APPLICABLE_STATUSES) then
    if at_ <? rule_from r then false
    else match rule_to r with None => true | Some e => at_ <? e end
  else false.

(** ** Where a trip sits *)

Fixpoint city_node_of (n : GeoNode) : option GeoNode :=
  if decide (node_kind_of n = KCity) then Some n
  else match n with
       | mk_node _ _ _ _ (Some p) => city_node_of p
       | mk_node _ _ _ _ None => None
       end.

(** [str(zone.country or '').upper() or None] when the node does not say. *)
Definition country_code_of_zone (z : Zone) : option string :=
  let own := let c := upper (zone_country z) in if truthy (Some c) then Some c else None in
  match zone_geo_node z with
  | Some n => match node_country n with Some c => Some (node_code c) | None => own end
  | None => own
  end.

Definition zone_city (z : Zone) : option Z :=
  n ← zone_geo_node z; c ← city_node_of n; Some (node_id c).

Definition trip_context `{ZoneLookup} (t : Trip) : option string * option Z * option Z :=
  let zone := match trip_zone t with Some z => Some z | None => find_zone_for_point (trip_pickup t) end in
  (z ← zone; country_code_of_zone z, z ← zone; zone_city z,
   match trip_vehicle_type t with Some v => Some v | None => trip_vehicle_vt t end).

(** ** Resolution *)

(** [_effective]: the database's filter. *)
Definition effective (at_ : Z) (r : CommissionRule) : bool :=
  bool_decide (rule_status_of r ∈ APPLICABLE_STATUSES) && (rule_from r <=? at_) &&
  match rule_to r with None => true | Some e => at_ <? e end.

Definition same_key (a b : CommissionRule) : bool :=
  bool_decide (rule_country a = rule_country b) &&
  bool_decide (node_id <$> rule_geo_node a = node_id <$> rule_geo_node b) &&
  bool_decide (rule_vehicle_type a = rule_vehicle_type b).

(** The cell a rule covers: the [continue]s of the loop. *)
Definition covers (city vt : option Z) (r : CommissionRule) : bool :=
  (if is_city_rule r then bool_decide (node_id <$> rule_geo_node r = city) else true) &&
  match rule_vehicle_type r with None => true | Some v => bool_decide (Some v = vt) end.

Definition rule_key (r : CommissionRule) : Z * Z * Z := (specificity r, rule_from r, rule_version r).

(** Python's [>] on the key tuples. *)
Definition key_gtb (a b : Z * Z * Z) : bool :=
  let '(a1, a2, a3) := a in let '(b1, b2, b3) := b in
  (b1 <? a1) || ((a1 =? b1) && ((b2 <? a2) || ((a2 =? b2) && (b3 <? a3)))).

Fixpoint best_rule (city vt : option Z) (rules : list CommissionRule)
    (best : option CommissionRule) : option CommissionRule :=
  match rules with
  | [] => best
  | r :: rest =>
    if covers city vt r then
      match best with
      | None => best_rule city vt rest (Some r)
      | Some b => best_rule city vt rest (if key_gtb (rule_key r) (rule_key b) then Some r else best)
      end
    else best_rule city vt rest best
  end.

(** [resolve]: [table] is the table of rules, [rules] the preloaded list a caller may pass. *)
Definition resolve (table : list CommissionRule) (country : option string) (city vt : option Z)
    (at_ : Z) (override : option CommissionRule) (rules : option (list CommissionRule))
    : option CommissionRule :=
  if truthy country then
    let rules := match rules with
      | None => List.filter (fun r => bool_decide (Some (rule_country r) = country) &&
                  bool_decide (rule_kind_of r = Percentage) && effective at_ r) table
      | Some l => List.filter (fun r => bool_decide (rule_kind_of r = Percentage) && applies_at r at_) l
      end in
    let rules := match override with
      | None => rules
      | Some o => List.filter (fun r => negb (same_key r o)) rules ++ [o]
      end in
    best_rule city vt rules None
  else None.

(** ** Decisions *)

Inductive source := Snapshot | RuleAtRequestedAt.

Record Decision := {
  percent : dec;
  decided_rule : option Z;
  decided_version : option Z;
  decided_from : source
}.

Inductive commission_error := CommissionNotConfigured (country : option string).

Definition commission_for_trip `{ZoneLookup} (table : list CommissionRule) (t : Trip)
    : res commission_error Decision :=
  match commission_percent_snapshot t with
  | Some p => Ok {| percent := p; decided_rule := commission_rule_id t;
                    decided_version := commission_rule_version t; decided_from := Snapshot |}
  | None =>
    let '(country, city, vt) := trip_context t in
    match resolve table country city vt (trip_requested_at t) None None with
    | None => Err (CommissionNotConfigured country)
    | Some r => Ok {| percent := rule_percent r; decided_rule := Some (rule_id r);
                      decided_version := Some (rule_version r); decided_from := RuleAtRequestedAt |}
    end
  end.

Definition commission_percent_for_trip `{ZoneLookup} (table : list CommissionRule) (t : Trip)
    : res commission_error dec :=
  let* d := commission_for_trip table t in Ok (percent d).

(** The three fields a booking stores: percent, rule id and version, all null together. *)
Definition snapshot_for_booking (table : list CommissionRule) (zone : option Zone) (vt : option Z)
    (at_ : Z) : option (dec * Z * Z) :=
  match resolve table (z ← zone; country_code_of_zone z) (z ← zone; zone_city z) vt at_ None None with
  | None => None
  | Some r => Some (rule_percent r, rule_id r, rule_version r)
  end.

(** A trip as the booking writes it: the snapshot goes on the new row. *)
Definition with_snapshot (snap : option (dec * Z * Z)) (t : Trip) : Trip :=
  {| trip_id := trip_id t; trip_rider := trip_rider t; trip_driver := trip_driver t;
     trip_zone := trip_zone t; trip_pickup := trip_pickup t;
     trip_vehicle_type := trip_vehicle_type t; trip_vehicle_vt := trip_vehicle_vt t;
     trip_requested_at := trip_requested_at t; trip_currency := trip_currency t;
     estimated_fare_minor := estimated_fare_minor t; final_fare_minor := final_fare_minor t;
     payment_method := payment_method t; end_rule := end_rule t;
     commission_percent_snapshot := (fun s => s.1.1) <$> snap;
     commission_rule_id := (fun s => s.1.2) <$> snap;
     commission_rule_version := (fun s => s.2) <$> snap |}.

(** ** The matrix *)

Fixpoint insert_by_from (r : CommissionRule) (l : list CommissionRule) : list CommissionRule :=
  match l with
  | [] => [r]
  | x :: rest => if rule_from r <=? rule_from x then r :: l else x :: insert_by_from r rest
  end.

(** [sorted(rules, key=effective_from)]: stable, so inserting from the right. *)
Definition sort_by_from (l : list CommissionRule) : list CommissionRule := foldr insert_by_from [] l.

Definition next_change (country : option string) (city vt : option Z) (now : Z)
    (rules : list CommissionRule) : option CommissionRule :=
  let future := sort_by_from (List.filter (fun r => bool_decide (rule_status_of r = Active) &&
      bool_decide (rule_kind_of r = Percentage) && (now <? rule_from r)) rules) in
  List.find (fun r => covers city vt r &&
    match resolve [] country city vt (rule_from r) None (Some rules) with
    | Some c => rule_id c =? rule_id r
    | None => false
    end) future.

(** One row of [matrix]: the rule in force and the next one, for a cell. *)
Record MatrixRow := {
  row_country : string; row_city : Z; row_vehicle : Z;
  row_rule : option CommissionRule; row_next : option CommissionRule
}.

Definition matrix (table : list CommissionRule) (countries : list string)
    (cities : string -> list Z) (vehicle_types : list Z) (now : Z) : list MatrixRow :=
  countries ≫= fun country =>
    let rules := List.filter (fun r => bool_decide (rule_country r = country) &&
                   bool_decide (rule_status_of r ∈ APPLICABLE_STATUSES)) table in
    cities country ≫= fun city => (fun vt =>
      {| row_country := country; row_city := city; row_vehicle := vt;
         row_rule := resolve [] (Some country) (Some city) (Some vt) now None (Some rules);
         row_next := next_change (Some country) (Some city) (Some vt) now rules |})
      <$> vehicle_types.

(** ** Lemmas *)

Definition governs (country : option string) (city vt : option Z) (at_ : Z) (r : CommissionRule) : Prop :=
  Some (rule_country r) = country /\ rule_kind_of r = Percentage /\ applies_at r at_ = true /\
  covers city vt r = true.

Lemma effective_applies (r : CommissionRule) (at_ : Z) : effective at_ r = applies_at r at_.
Proof.
  unfold effective, applies_at. destruct (bool_decide _); [|done]. cbn [andb].
  rewrite Z.ltb_antisym. by destruct (rule_from r <=? at_).
Qed.

Lemma key_gtb_spec (a b : Z * Z * Z) :
  key_gtb a b = true <->
  (b.1.1 < a.1.1 \/ (a.1.1 = b.1.1 /\ (b.1.2 < a.1.2 \/ (a.1.2 = b.1.2 /\ b.2 < a.2)))).
Proof.
  destruct a as [[a1 a2] a3], b as [[b1 b2] b3]. cbn [key_gtb fst snd].
  by rewrite !orb_true_iff, !andb_true_iff, !orb_true_iff, !andb_true_iff, !Z.ltb_lt, !Z.eqb_eq.
Qed.

Lemma key_gtb_trans (a b c : Z * Z * Z) :
  key_gtb a b = false -> key_gtb b c = false -> key_gtb a c = false.
Proof. rewrite <- !not_true_iff_false, !key_gtb_spec. lia. Qed.

Lemma key_gtb_asym (a b : Z * Z * Z) : key_gtb a b = true -> key_gtb b a = false.
Proof. rewrite <- not_true_iff_false, !key_gtb_spec. lia. Qed.

Lemma key_gtb_irrefl (a : Z * Z * Z) : key_gtb a a = false.
Proof. destruct (key_gtb a a) eqn:E; [|done]. by rewrite (key_gtb_asym _ _ E) in E. Qed.

Lemma best_rule_spec (city vt : option Z) (rules : list CommissionRule) (best : option CommissionRule) :
  match best_rule city vt rules best with
  | Some r => (best = Some r \/ (r ∈ rules /\ covers city vt r = true)) /\
      (forall b, best = Some b -> key_gtb (rule_key b) (rule_key r) = false) /\
      (forall r', r' ∈ rules -> covers city vt r' = true -> key_gtb (rule_key r') (rule_key r) = false)
  | None => best = None /\ forall r', r' ∈ rules -> covers city vt r' = false
  end.
Proof.
  revert best; induction rules as [|x rules IH]; intros best; cbn [best_rule].
  { destruct best as [b|]; [|split; [done|]; intros r' H; by apply not_elem_of_nil in H].
    split; [by left|]. split; [intros b' [= <-]; apply key_gtb_irrefl|].
    intros r' H; by apply not_elem_of_nil in H. }
  destruct (covers city vt x) eqn:Ex.
  2:{ specialize (IH best). destruct (best_rule _ _ _ _) as [r|].
      - destruct IH as (H1 & H2 & H3). split; [set_solver|]. split; [done|].
        intros r' [->|Hin]%elem_of_cons Hc; [congruence|by apply H3].
      - destruct IH as [-> H]. split; [done|]. intros r' [->|Hin]%elem_of_cons; [done|by apply H]. }
  set (best' := match best with None => Some x | Some b => if key_gtb (rule_key x) (rule_key b) then Some x else best end).
  replace (match best with None => best_rule city vt rules (Some x) | Some b => _ end)
    with (best_rule city vt rules best') by (unfold best'; by destruct best).
  specialize (IH best').
  assert (exists b', best' = Some b' /\ (best' = Some x \/ best' = best) /\
    key_gtb (rule_key x) (rule_key b') = false /\
    (forall b, best = Some b -> key_gtb (rule_key b) (rule_key b') = false)) as (b' & Eb & Hor & Hx & Hb).
  { unfold best'. destruct best as [b|].
    - destruct (key_gtb (rule_key x) (rule_key b)) eqn:E; eexists; (split; [done|]).
      + split; [by left|]. split; [apply key_gtb_irrefl|]. intros ? [= <-]. by apply key_gtb_asym.
      + split; [by right|]. split; [done|]. intros ? [= <-]. apply key_gtb_irrefl.
    - exists x. split; [done|]. split; [by left|]. split; [apply key_gtb_irrefl|done]. }
  rewrite Eb in *. destruct (best_rule _ _ _ _) as [r|]; [|by destruct IH].
  destruct IH as (H1 & H2 & H3). specialize (H2 b' eq_refl). split; [|split].
  - destruct H1 as [H1|[? ?]]; [|set_solver]. rewrite H1 in Hor.
    destruct Hor as [[= ->]|Hor]; [right; set_solver|by left].
  - intros b Hbb. by eapply key_gtb_trans; [apply Hb|].
  - intros r' [->|Hin]%elem_of_cons Hc; [by eapply key_gtb_trans|by apply H3].
Qed.

Lemma resolve_table_filter (table : list CommissionRule) (c : string) (city vt : option Z) (at_ : Z)
    (o : option CommissionRule) :
  resolve [] (Some c) city vt at_ o
    (Some (List.filter (fun r => bool_decide (rule_country r = c) &&
       bool_decide (rule_status_of r ∈ APPLICABLE_STATUSES)) table))
  = resolve table (Some c) city vt at_ o None.
Proof.
  unfold resolve. destruct (truthy (Some c)); [|done]. rewrite filter_filter.
  rewrite (filter_ext _ (fun r => bool_decide (Some (rule_country r) = Some c) &&
    bool_decide (rule_kind_of r = Percentage) && effective at_ r)); [done|].
  intros r. rewrite effective_applies. unfold applies_at.
  rewrite (bool_decide_ext (Some (rule_country r) = Some c) (rule_country r = c)) by naive_solver.
  destruct (bool_decide (rule_country r = c)); [|done].
  destruct (bool_decide (rule_status_of r ∈ _)); cbn [andb]; [done|]. by rewrite andb_false_r.
Qed.

Lemma resolve_spec (table : list CommissionRule) (country : option string) (city vt : option Z) (at_ : Z) :
  match resolve table country city vt at_ None None with
  | Some r => r ∈ table /\ governs country city vt at_ r /\
      forall r', r' ∈ table -> governs country city vt at_ r' -> key_gtb (rule_key r') (rule_key r) = false
  | None => truthy country = true -> forall r', r' ∈ table -> ~ governs country city vt at_ r'
  end.
Proof.
  unfold resolve. destruct (truthy country) eqn:Et; [|by intros].
  set (l := List.filter _ table). pose proof (best_rule_spec city vt l None) as H.
  assert (forall r, r ∈ l /\ covers city vt r = true <-> r ∈ table /\ governs country city vt at_ r) as Hl.
  { intros r. unfold l, governs. rewrite elem_of_filter_b, !andb_true_iff, !bool_decide_eq_true, effective_applies.
    tauto. }
  destruct (best_rule _ _ _ _) as [r|].
  - destruct H as ([|H1] & _ & H3); [done|]. apply Hl in H1 as [H1 H2]. split; [done|]. split; [done|].
    intros r' Hin Hg. destruct (proj2 (Hl r') (conj Hin Hg)). by apply H3.
  - intros _ r' Hin Hg. destruct (proj2 (Hl r') (conj Hin Hg)) as [Hin' Hc].
    destruct H as [_ H]. by rewrite H in Hc.
Qed.

Lemma insert_by_from_perm (r : CommissionRule) (l : list CommissionRule) : insert_by_from r l ≡ₚ r :: l.
Proof.
  induction l as [|x l IH]; simpl; [done|]. destruct (rule_from r <=? rule_from x); [done|].
  rewrite IH. by constructor.
Qed.

Lemma sort_by_from_perm (l : list CommissionRule) : sort_by_from l ≡ₚ l.
Proof. unfold sort_by_from. induction l as [|r l IH]; simpl; [done|]. by rewrite insert_by_from_perm, IH. Qed.

Lemma insert_by_from_sorted (r : CommissionRule) (l : list CommissionRule) :
  StronglySorted (fun a b => rule_from a <= rule_from b) l ->
  StronglySorted (fun a b => rule_from a <= rule_from b) (insert_by_from r l).
Proof.
  induction 1 as [|x l Hl IH Hx]; simpl; [by repeat constructor|].
  destruct (rule_from r <=? rule_from x) eqn:E; bool_cases.
  - constructor; [by constructor|]. constructor; [done|]. eapply Forall_impl; [exact Hx|]. simpl; lia.
  - constructor; [done|]. rewrite insert_by_from_perm. constructor; [lia|done].
Qed.

Lemma sort_by_from_sorted (l : list CommissionRule) :
  StronglySorted (fun a b => rule_from a <= rule_from b) (sort_by_from l).
Proof. unfold sort_by_from. induction l; simpl; [constructor|]. by apply insert_by_from_sorted. Qed.

(** The first element of a sorted list that passes a test has no earlier one before it. *)
Lemma find_sorted_first {A : Type} (key : A -> Z) (P : A -> bool) (l : list A) (x : A) :
  StronglySorted (fun a b => key a <= key b) l -> List.find P l = Some x ->
  forall y, y ∈ l -> P y = true -> key x <= key y.
Proof.
  induction 1 as [|a l Hl IH Ha]; simpl; [done|]. destruct (P a) eqn:E.
  - intros [= ->] y [->|Hy]%elem_of_cons _; [lia|]. rewrite Forall_forall in Ha. by apply Ha.
  - intros Hf y [->|Hy]%elem_of_cons Hp; [congruence|]. by apply IH.
Qed.

(** ** Properties *)

Section Properties.
Context `{ZoneLookup}.

(** Commission is never invented: a trip's commission is its booking snapshot,
    unchanged; without one it is the percent of a rule that governs the trip's cell
    at the moment it was requested and that no other governing rule outranks (more
    specific, then later, then higher version); and the refusal
    [CommissionNotConfigured] means that no rule in the table governs it. *)
Theorem commission_never_invented (table : list CommissionRule) (t : Trip) :
  let '(country, city, vt) := trip_context t in
  match commission_for_trip table t with
  | Ok d =>
    match commission_percent_snapshot t with
    | Some p => d = {| percent := p; decided_rule := commission_rule_id t;
                       decided_version := commission_rule_version t; decided_from := Snapshot |}
    | None => exists r, r ∈ table /\ governs country city vt (trip_requested_at t) r /\
        percent d = rule_percent r /\ decided_rule d = Some (rule_id r) /\
        forall r', r' ∈ table -> governs country city vt (trip_requested_at t) r' ->
          key_gtb (rule_key r') (rule_key r) = false
    end
  | Err (CommissionNotConfigured c) =>
    c = country /\ commission_percent_snapshot t = None /\
    (truthy country = true -> forall r, r ∈ table -> ~ governs country city vt (trip_requested_at t) r)
  end.
Proof.
  unfold commission_for_trip. destruct (trip_context t) as [[country city] vt].
  destruct (commission_percent_snapshot t) as [p|]; [done|].
  pose proof (resolve_spec table country city vt (trip_requested_at t)) as Hr.
  destruct (resolve _ _ _ _ _ _ _) as [r|]; [|done].
  destruct Hr as (? & ? & ?). exists r. auto.
Qed.

(** Never retroactive: the rate stamped at booking is the rate of a rule in force
    for the pickup's cell at that moment, and whatever the rule table becomes later,
    the trip is charged exactly that rate, rule and version. *)
Theorem booked_commission_is_charged (table table' : list CommissionRule) (zone : option Zone)
    (vt : option Z) (at_ : Z) (t : Trip) (p : dec) (i v : Z) :
  snapshot_for_booking table zone vt at_ = Some (p, i, v) ->
  commission_for_trip table' (with_snapshot (Some (p, i, v)) t) =
    Ok {| percent := p; decided_rule := Some i; decided_version := Some v; decided_from := Snapshot |} /\
  exists r, r ∈ table /\ rule_percent r = p /\ rule_id r = i /\ rule_version r = v /\
    governs (z ← zone; country_code_of_zone z) (z ← zone; zone_city z) vt at_ r.
Proof.
  unfold snapshot_for_booking. intros Hs. split; [done|].
  pose proof (resolve_spec table (z ← zone; country_code_of_zone z) (z ← zone; zone_city z) vt at_) as Hr.
  destruct (resolve _ _ _ _ _ _ _) as [r|]; [|done]. injection Hs as <- <- <-.
  destruct Hr as (? & ? & _). exists r. auto.
Qed.

(** The console's matrix shows what a booking would be charged: the rule of a cell
    is the one the booking snapshot takes for any zone of that country and city, and
    the cell says "not configured" exactly when a booking gets no snapshot. *)
Theorem matrix_shows_booking_rate (table : list CommissionRule) (countries : list string)
    (cities : string -> list Z) (vts : list Z) (now : Z) (row : MatrixRow) (zone : Zone) :
  row ∈ matrix table countries cities vts now ->
  country_code_of_zone zone = Some (row_country row) -> zone_city zone = Some (row_city row) ->
  snapshot_for_booking table (Some zone) (Some (row_vehicle row)) now =
    (fun r => (rule_percent r, rule_id r, rule_version r)) <$> row_rule row.
Proof.
  unfold matrix. intros Hrow Hc Hcity.
  apply list_elem_of_bind in Hrow as (country & Hrow & _).
  apply list_elem_of_bind in Hrow as (city & Hrow & _).
  apply list_elem_of_fmap in Hrow as (vt & -> & _). cbn [row_country row_city row_vehicle row_rule] in *.
  unfold snapshot_for_booking. cbn [mbind option_bind]. rewrite Hc, Hcity, resolve_table_filter.
  by destruct (resolve _ _ _ _ _ _ _).
Qed.

(** The announced next change is real and is the earliest: it lies in the future, it
    is the rule the cell resolves to at its own start, and no other active rule starting
    strictly sooner takes the cell over. *)
Theorem next_change_is_earliest (country : option string) (city vt : option Z) (now : Z)
    (rules : list CommissionRule) (r : CommissionRule) :
  next_change country city vt now rules = Some r ->
  r ∈ rules /\ now < rule_from r /\
  (exists c, resolve [] country city vt (rule_from r) None (Some rules) = Some c /\ rule_id c = rule_id r) /\
  forall r', r' ∈ rules -> rule_status_of r' = Active -> rule_kind_of r' = Percentage ->
    now < rule_from r' < rule_from r -> covers city vt r' = true ->
    (rule_id <$> resolve [] country city vt (rule_from r') None (Some rules)) <> Some (rule_id r').
Proof.
  unfold next_change. set (future := sort_by_from _). intros Hf.
  assert (forall x, x ∈ future <-> x ∈ rules /\
    (bool_decide (rule_status_of x = Active) && bool_decide (rule_kind_of x = Percentage) && (now <? rule_from x)) = true) as Hfut.
  { intros x. unfold future. by rewrite sort_by_from_perm, elem_of_filter_b. }
  pose proof (find_sorted_first rule_from _ _ _ (sort_by_from_sorted _) Hf) as Hfirst. fold future in Hfirst.
  apply List.find_some in Hf as [Hin Hp]. rewrite <- list_elem_of_In in Hin. apply Hfut in Hin as [Hin Hg].
  bool_cases. split; [done|]. split; [done|]. split.
  - destruct (resolve _ _ _ _ _ _ _) as [c|]; [|done]. bool_cases. eauto.
  - intros r' Hin' Ha Hk Hlt Hc Hres. enough (rule_from r <= rule_from r') by lia.
    apply Hfirst; [apply Hfut; split; [done|]; rewrite !bool_decide_true by done; apply Z.ltb_lt; lia|].
    cbv beta. rewrite Hc. cbn [andb].
    destruct (resolve [] country city vt (rule_from r') None (Some rules)) as [c'|]; [|done].
    apply Z.eqb_eq. cbn in Hres. congruence.
Qed.
End Properties.

(** ** Witnesses *)

Section Witnesses.

Definition demo_zone : Zone := {|
  zone_id := 1; zone_code := "IN-TG-HYD"; zone_country := "in"; zone_parent := None;
  zone_priority := 10; zone_currency := "INR"; zone_distance_unit := "km";
  zone_tax_mode := "inclusive"; zone_per_trip_fee := Dec 0 (-2); zone_fee_label := EmptyString;
  zone_geo_node := Some (mk_node 30 KCity "IN-TG-HYD" "IN/IN-TG/IN-TG-HYD/"
    (Some (mk_node 20 KState "IN-TG" "IN/IN-TG/" (Some (mk_node 10 KCountry "IN" "IN/" None)))));
  zone_is_active := true |}.

Definition demo_rule (i : Z) (city vehicle : bool) (pct from : Z) (st : rule_status) : CommissionRule := {|
  rule_id := i; rule_country := "IN";
  rule_geo_node := if city then zone_geo_node demo_zone else None;
  rule_vehicle_type := if vehicle then Some 7 else None; rule_kind_of := Percentage;
  rule_percent := Dec pct (-2); rule_status_of := st; rule_version := 1; rule_from := from;
  rule_to := None |}.

Definition demo_table : list CommissionRule :=
  [demo_rule 1 false false 1500 0 Active; demo_rule 2 true false 1200 5 Active;
   demo_rule 3 true true 1000 50 Active; demo_rule 4 false true 900 0 Draft].

Definition demo_trip : Trip := {|
  trip_id := 81; trip_rider := 5; trip_driver := Some 9; trip_zone := Some demo_zone;
  trip_pickup := (0%Q, 0%Q); trip_vehicle_type := Some 7; trip_vehicle_vt := None;
  trip_requested_at := 10; trip_currency := "INR"; estimated_fare_minor := Some 13568;
  final_fare_minor := None; payment_method := Some Cash; end_rule := EmptyString;
  commission_percent_snapshot := None; commission_rule_id := None; commission_rule_version := None |}.

Lemma booked_commission_is_charged_witness :
  snapshot_for_booking demo_table (Some demo_zone) (Some 7) 10 = Some (Dec 1200 (-2), 2, 1) /\
  @commission_for_trip {| find_zone_for_point := fun _ => None |} []
    (with_snapshot (Some (Dec 1200 (-2), 2, 1)) demo_trip) =
    Ok {| percent := Dec 1200 (-2); decided_rule := Some 2; decided_version := Some 1;
          decided_from := Snapshot |}.
Proof.
  assert (snapshot_for_booking demo_table (Some demo_zone) (Some 7) 10 = Some (Dec 1200 (-2), 2, 1)) as Hs
    by (vm_compute; reflexivity).
  split; [exact Hs|].
  exact (proj1 (@booked_commission_is_charged {| find_zone_for_point := fun _ => None |}
    _ [] _ _ _ demo_trip _ _ _ Hs)).
Defined.

Lemma matrix_shows_booking_rate_witness :
  let m := matrix demo_table ["IN"%string] (fun _ => [30]) [7; 8] 10 in
  rule_id <$> (row_rule <$> m) !! 0%nat ≫= id = Some 2 /\
  forall row, m !! 0%nat = Some row ->
    snapshot_for_booking demo_table (Some demo_zone) (Some (row_vehicle row)) 10 =
    (fun r => (rule_percent r, rule_id r, rule_version r)) <$> row_rule row.
Proof.
  intros m. split; [vm_compute; reflexivity|]. intros row Hrow.
  apply (matrix_shows_booking_rate demo_table ["IN"%string] (fun _ => [30]) [7; 8]).
  - eapply list_elem_of_lookup_2. exact Hrow.
  - vm_compute in Hrow. injection Hrow as <-. vm_compute. reflexivity.
  - vm_compute in Hrow. injection Hrow as <-. vm_compute. reflexivity.
Defined.

Lemma next_change_is_earliest_witness :
  next_change (Some "IN"%string) (Some 30) (Some 7) 10 demo_table = Some (demo_rule 3 true true 1000 50 Active) /\
  10 < rule_from (demo_rule 3 true true 1000 50 Active).
Proof.
  assert (next_change (Some "IN"%string) (Some 30) (Some 7) 10 demo_table
    = Some (demo_rule 3 true true 1000 50 Active)) as Hn by (vm_compute; reflexivity).
  split; [exact Hn|].
  exact (proj1 (proj2 (next_change_is_earliest _ _ _ _ _ _ Hn))).
Defined.
End Witnesses.
