(* ===== verification/Zones.v ===== *)
(** * Zones: point lookup, rate cards, the night window and surge

    Models the lookups of [servers/pricing/services.py]: [ZoneIndex] and the
    functions that resolve a point through it, [get_active_rate_card] and
    [rate_card_for_trip], [_is_night_now] and [compute_surge_multiplier].

    Shapely is not under src/: a zone's polygon and point containment are
    parameters ([polygon_for_zone], [contains]).  Redis counts and the local hour
    are arguments.  Coordinates are rationals; [None] is a value [float()] refuses. *)

From Stdlib Require Import QArith Sorted.
From S2P Require Import Prelude PyDecimal PyText Countries Models Money Commission.
#[local] Open Scope Z_scope.

(** ** The zone index *)

Section Index.
Context {Poly : Type} (polygon_for_zone : Zone -> option Poly) (contains : Poly -> Q * Q -> bool).

Record DraftZone := {
  draft_zone : Zone;
  draft_polygon : option Poly;
  draft_zone_id : option Z;
  draft_active : bool
}.

Definition entry : Type := Zone * Poly.

(** The sort key [(-(priority or 0), code or '')], as a boolean order. *)
Definition entry_leb (a b : Zone) : bool :=
  (zone_priority b <? zone_priority a) ||
  ((zone_priority a =? zone_priority b) && String.leb (zone_code a) (zone_code b)).

Fixpoint insert_entry (e : entry) (l : list entry) : list entry :=
  match l with
  | [] => [e]
  | x :: r => if entry_leb e.1 x.1 then e :: l else x :: insert_entry e r
  end.

Definition sort_entries (l : list entry) : list entry := foldr insert_entry [] l.

(** [ZoneIndex.load]. *)
Definition load (table : list Zone) (overlay : option DraftZone) : list entry :=
  let live := omap (fun z =>
    if negb (zone_is_active z) then None
    else if match overlay with
            | Some o => bool_decide (draft_zone_id o = Some (zone_id z))
            | None => false
            end then None
    else p ← polygon_for_zone z; Some (z, p)) table in
  let drafted := match overlay with
    | Some o => if draft_active o then
                  match draft_polygon o with Some p => [(draft_zone o, p)] | None => [] end
                else []
    | None => []
    end in
  sort_entries (live ++ drafted).

(** [ZoneIndex.containing]: the point is [(lat, lon)], shapely's is [(lon, lat)]. *)
Definition containing (entries : list entry) (lat lon : option Q) : list Zone :=
  match lat, lon with
  | Some lat, Some lon =>
    if Qle_bool (-90) lat && Qle_bool lat 90 && Qle_bool (-180) lon && Qle_bool lon 180 then
      fst <$> List.filter (fun e => contains e.2 (lon, lat)) entries
    else []
  | _, _ => []
  end.

Definition resolve_point (entries : list entry) (lat lon : option Q) : option Zone :=
  head (containing entries lat lon).

Definition find_zone (table : list Zone) (lat lon : option Q) : option Zone :=
  resolve_point (load table None) lat lon.

Definition zones_containing_point (table : list Zone) (lat lon : option Q) : list Zone :=
  containing (load table None) lat lon.

Definition is_inside_service_area (table : list Zone) (lat lon : option Q) : bool :=
  bool_decide (is_Some (find_zone table lat lon)).

Inductive area_error := PickupOutside | DropOutside.

Definition validate_service_area (table : list Zone) (pickup drop : option Q * option Q) : res area_error unit :=
  if negb (is_inside_service_area table pickup.1 pickup.2) then Err PickupOutside
  else if negb (is_inside_service_area table drop.1 drop.2) then Err DropOutside
  else Ok tt.

(** The pricing module's side of [ZoneLookup]. *)
Definition zone_lookup (table : list Zone) : ZoneLookup :=
  {| find_zone_for_point := fun p => find_zone table (Some p.1) (Some p.2) |}.

(** The table once a draft is saved: the zone it replaces goes, the draft comes in. *)
Definition commit_draft (o : DraftZone) (table : list Zone) : list Zone :=
  List.filter (fun z => negb (bool_decide (draft_zone_id o = Some (zone_id z)))) table ++ [draft_zone o].

End Index.
Arguments DraftZone : clear implicits.

(** ** Rate cards *)

Section Cards.
Context (zones : gmap Z Zone) (cards : list RateCard).

Definition card_applies (zone vt at_ : Z) (c : RateCard) : bool :=
  (card_zone c =? zone) && (card_vehicle_type c =? vt) && card_is_active c &&
  (effective_from c <=? at_) && match effective_to c with None => true | Some e => at_ <? e end.

(** [order_by('-effective_from', '-version')]. *)
Definition card_better (a b : RateCard) : bool :=
  (effective_from b <? effective_from a) ||
  ((effective_from a =? effective_from b) && (card_version b <? card_version a)).

Definition card_at (zone vt at_ : Z) : option RateCard :=
  best_by card_better (List.filter (card_applies zone vt at_) cards).

(** The walk up the parents with its [seen] set; [None] is a walk that ran out of fuel. *)
Fixpoint card_walk (fuel : nat) (vt at_ : Z) (seen : gset Z) (cursor : option Zone)
    : option (option RateCard) :=
  match fuel with
  | O => None
  | S f =>
    match cursor with
    | None => Some None
    | Some z =>
      if decide (zone_id z ∈ seen) then Some None
      else match card_at (zone_id z) vt at_ with
           | Some c => Some (Some c)
           | None => card_walk f vt at_ ({[zone_id z]} ∪ seen) (p ← zone_parent z; zones !! p)
           end
    end
  end.

Definition card_fuel : nat := S (S (size zones)).

Definition get_active_rate_card (zone : Zone) (vt at_ : Z) : option RateCard :=
  default None (card_walk card_fuel vt at_ ∅ (Some zone)).

Definition rate_card_for_trip `{ZoneLookup} (at_ : option Z) (t : Trip) : option RateCard :=
  zone ← match trip_zone t with Some z => Some z | None => find_zone_for_point (trip_pickup t) end;
  vt ← match trip_vehicle_type t with Some v => Some v | None => trip_vehicle_vt t end;
  get_active_rate_card zone vt (default (trip_requested_at t) at_).

Definition gst_percent_for_trip `{ZoneLookup} (t : Trip) : dec :=
  match rate_card_for_trip None t with Some c => gst_percent c | None => Dec 500 (-2) end.
End Cards.

(** ** The night window *)

(** [_is_night_now], given the hour in the zone's own timezone. *)
Definition is_night_hour (start stop hour : Z) : bool :=
  if start =? stop then false
  else if start <? stop then (start <=? hour) && (hour <? stop)
  else (start <=? hour) || (hour <? stop).

Definition is_night_now (card : RateCard) (hour : Z) : bool :=
  is_night_hour (night_surge_start_hour card) (night_surge_end_hour card) hour.

(** ** Surge *)

(** The tiers.  [ratio = demand / max(supply, 1)] is compared by cross-multiplying: supply
    is at most 100, so no quotient is within a float's rounding of a threshold. *)
Definition surge_tier (supply demand : Z) : dec :=
  let safe := Z.max supply 1 in
  if 5 * safe <=? demand then Dec 150 (-2)
  else if 3 * safe <=? demand then Dec 130 (-2)
  else if 3 * safe <=? 2 * demand then Dec 115 (-2)
  else if (2 * demand <? safe) && (10 <=? supply) then Dec 90 (-2)
  else Dec 100 (-2).

(** [counts] is what Redis answered: supply and demand, or [None] when it could not. *)
Definition compute_surge_multiplier (pickup : option (Q * Q)) (cap : dec) (counts : option (Z * Z)) : dec :=
  match pickup, counts with
  | Some _, Some (supply, demand) =>
    let surge := surge_tier supply demand in if dltb cap surge then cap else surge
  | _, _ => Dec 100 (-2)
  end.

(** ** Lemmas: the index *)

Lemma entry_leb_total (a b : Zone) : entry_leb a b = false -> entry_leb b a = true.
Proof.
  unfold entry_leb. destruct (Z.ltb_spec (zone_priority b) (zone_priority a)); simpl; [done|].
  destruct (Z.eqb_spec (zone_priority a) (zone_priority b)) as [E|]; simpl.
  - intros Hl. rewrite E, Z.ltb_irrefl, Z.eqb_refl. cbn [orb andb].
    by destruct (String.leb_total (zone_code a) (zone_code b)); [congruence|].
  - intros _. by rewrite (proj2 (Z.ltb_lt _ _)) by lia.
Qed.

Lemma entry_leb_trans (a b c : Zone) :
  entry_leb a b = true -> entry_leb b c = true -> entry_leb a c = true.
Proof.
  unfold entry_leb. rewrite !orb_true_iff, !andb_true_iff, !Z.ltb_lt, !Z.eqb_eq.
  intros [H1|[H1 S1]] [H2|[H2 S2]]; [left; lia | left; lia | left; lia |].
  right. split; [lia|]. by eapply string_leb_trans.
Qed.

Section IndexLemmas.
Context {Poly : Type} (polygon_for_zone : Zone -> option Poly) (contains : Poly -> Q * Q -> bool).
Notation load := (load polygon_for_zone).

Definition entry_le (a b : Zone * Poly) : Prop := entry_leb a.1 b.1 = true.

Lemma insert_entry_perm (e : Zone * Poly) (l : list (Zone * Poly)) : insert_entry e l ≡ₚ e :: l.
Proof.
  induction l as [|x l IH]; simpl; [done|]. destruct (entry_leb e.1 x.1); [done|].
  rewrite IH. by constructor.
Qed.

Lemma sort_entries_perm (l : list (Zone * Poly)) : sort_entries l ≡ₚ l.
Proof. unfold sort_entries. induction l as [|e l IH]; simpl; [done|]. by rewrite insert_entry_perm, IH. Qed.

Lemma insert_entry_sorted (e : Zone * Poly) (l : list (Zone * Poly)) :
  StronglySorted entry_le l -> StronglySorted entry_le (insert_entry e l).
Proof.
  induction 1 as [|x l Hl IH Hx]; simpl; [by repeat constructor|].
  destruct (entry_leb e.1 x.1) eqn:E.
  - constructor; [by constructor|]. constructor; [done|].
    eapply Forall_impl; [exact Hx|]. intros y. by apply entry_leb_trans.
  - constructor; [done|]. rewrite insert_entry_perm. constructor; [by apply entry_leb_total|done].
Qed.

Lemma sort_entries_sorted (l : list (Zone * Poly)) : StronglySorted entry_le (sort_entries l).
Proof. unfold sort_entries. induction l; simpl; [constructor|]. by apply insert_entry_sorted. Qed.

Lemma sorted_filter (f : Zone * Poly -> bool) (l : list (Zone * Poly)) :
  StronglySorted entry_le l -> StronglySorted entry_le (List.filter f l).
Proof.
  induction 1 as [|x l Hl IH Hx]; simpl; [constructor|]. destruct (f x); [|done].
  constructor; [done|]. rewrite Forall_forall in Hx |- *. intros y [Hy _]%elem_of_filter_b. by apply Hx.
Qed.

Lemma load_live (table : list Zone) (z : Zone) (p : Poly) :
  (z, p) ∈ load table None <-> z ∈ table /\ zone_is_active z = true /\ polygon_for_zone z = Some p.
Proof.
  unfold load. rewrite sort_entries_perm, app_nil_r, list_elem_of_omap. split.
  - intros (z' & Hin & H). destruct (zone_is_active z') eqn:Ea; cbn [negb] in H; [|done].
    apply bind_Some in H as (p' & Hp & [= <- <-]). auto.
  - intros (Hin & Ha & Hp). exists z. split; [done|]. rewrite Ha. cbn [negb mbind option_bind]. by rewrite Hp.
Qed.

Definition in_range (lat lon : Q) : bool :=
  Qle_bool (-90) lat && Qle_bool lat 90 && Qle_bool (-180) lon && Qle_bool lon 180.

(** [z] is active and its polygon contains the point. *)
Definition serves (lat lon : Q) (z : Zone) : Prop :=
  zone_is_active z = true /\ exists p, polygon_for_zone z = Some p /\ contains p (lon, lat) = true.
End IndexLemmas.

(** ** Lemmas: cards *)

Lemma card_better_trans (a b c : RateCard) :
  card_better b a = false -> card_better c b = false -> card_better c a = false.
Proof.
  unfold card_better. rewrite <- !not_true_iff_false, !orb_true_iff, !andb_true_iff, !Z.ltb_lt, !Z.eqb_eq.
  lia.
Qed.

(** [first()] under the descending order: nothing applicable is better. *)
Lemma best_card_max (l : list RateCard) (c : RateCard) :
  best_by card_better l = Some c -> forall c', c' ∈ l -> card_better c' c = false.
Proof.
  revert c; induction l as [|x l IH]; simpl; intros c H c' Hin; [done|].
  destruct (best_by card_better l) as [y|] eqn:E; simplify_eq.
  - specialize (IH _ eq_refl). destruct (card_better y x) eqn:Eb.
    + apply elem_of_cons in Hin as [->|Hin]; [|by apply IH].
      unfold card_better in *. rewrite <- not_true_iff_false.
      rewrite !orb_true_iff, !andb_true_iff, !Z.ltb_lt, !Z.eqb_eq in *. lia.
    + apply elem_of_cons in Hin as [->|Hin].
      * unfold card_better. by rewrite !Z.ltb_irrefl, andb_false_r.
      * eapply card_better_trans; [exact Eb|by apply IH].
  - apply best_by_none in E as ->. apply list_elem_of_singleton in Hin as ->.
    unfold card_better. by rewrite !Z.ltb_irrefl, andb_false_r.
Qed.

Section CardLemmas.
Context (zones : gmap Z Zone) (cards : list RateCard).

(** Rows are stored under their own id. *)
Definition ids_ok : Prop := forall i z, zones !! i = Some z -> zone_id z = i.

(** [up n z] is the zone [n] parents above [z]. *)
Fixpoint up (n : nat) (z : Zone) : option Zone :=
  match n with
  | O => Some z
  | S k => p ← zone_parent z; z' ← zones !! p; up k z'
  end.

Lemma card_walk_terminates (f : nat) (vt at_ : Z) (seen : gset Z) (cursor : option Zone) :
  ids_ok ->
  (forall z, cursor = Some z -> zones !! zone_id z = Some z) ->
  seen ⊆ dom zones -> (size (dom zones) < f + size seen)%nat ->
  card_walk zones cards (S f) vt at_ seen cursor <> None.
Proof.
  intros Hids. revert seen cursor; induction f as [|f IH]; intros seen cursor Hcur Hsub Hf.
  { apply subseteq_size in Hsub. lia. }
  cbn [card_walk]. destruct cursor as [z|]; [|done].
  destruct (decide (zone_id z ∈ seen)) as [|Hn]; [done|].
  destruct (card_at cards (zone_id z) vt at_); [done|].
  apply IH.
  - intros z' (p & _ & Hp)%bind_Some. by rewrite (Hids _ _ Hp).
  - specialize (Hcur z eq_refl). assert (zone_id z ∈ dom zones) by (by eapply elem_of_dom_2). set_solver.
  - rewrite size_union by set_solver. rewrite size_singleton. lia.
Qed.

Lemma card_walk_found (f : nat) (vt at_ : Z) (seen : gset Z) (cursor : option Zone) (c : RateCard) :
  card_walk zones cards f vt at_ seen cursor = Some (Some c) ->
  exists n z0 z, cursor = Some z0 /\ up n z0 = Some z /\ card_at cards (zone_id z) vt at_ = Some c /\
    forall k zk, (k < n)%nat -> up k z0 = Some zk -> card_at cards (zone_id zk) vt at_ = None.
Proof.
  revert seen cursor; induction f as [|f IH]; intros seen cursor; cbn [card_walk]; [done|].
  destruct cursor as [z|]; [|done]. destruct (decide _); [done|].
  destruct (card_at cards (zone_id z) vt at_) as [c'|] eqn:E.
  - intros [= ->]. exists 0%nat, z, z. repeat split; [done|]. lia.
  - intros H. destruct (IH _ _ H) as (m & z0 & z' & Hc & Hu & Hat & Hmin).
    apply bind_Some in Hc as (p & Hp & Hz). exists (S m), z, z'. split; [done|].
    cbn [up]. rewrite Hp. cbn [mbind option_bind]. rewrite Hz. split; [done|]. split; [done|].
    intros [|k] zk Hk; cbn [up]; [by intros [= <-]|].
    rewrite Hp. cbn [mbind option_bind]. rewrite Hz. cbn [mbind option_bind]. intros Hup. apply (Hmin k); [lia|done].
Qed.
End CardLemmas.

(** ** Properties *)

Section PointProperties.
Context {Poly : Type} (polygon_for_zone : Zone -> option Poly) (contains : Poly -> Q * Q -> bool).

(** Point lookup: the zone a coordinate resolves to is an active zone whose polygon
    contains it, and no other such zone has a higher priority, or the same priority and
    an earlier code; nothing is found exactly when the coordinate is unreadable, out of
    range or in no active zone.  The service-area check agrees. *)
Theorem find_zone_most_specific (table : list Zone) (lat lon : Q) :
  match find_zone polygon_for_zone contains table (Some lat) (Some lon) with
  | Some z => z ∈ table /\ serves polygon_for_zone contains lat lon z /\ in_range lat lon = true /\
      forall z', z' ∈ table -> serves polygon_for_zone contains lat lon z' -> entry_leb z z' = true
  | None => in_range lat lon = true ->
      forall z', z' ∈ table -> ~ serves polygon_for_zone contains lat lon z'
  end.
Proof.
  unfold find_zone, resolve_point, containing. fold (in_range lat lon).
  destruct (in_range lat lon) eqn:Er; [|by intros].
  set (l := List.filter _ _).
  assert (forall e, e ∈ l <-> e.1 ∈ table /\ zone_is_active e.1 = true /\
    polygon_for_zone e.1 = Some e.2 /\ contains e.2 (lon, lat) = true) as Hl.
  { intros [z p]. unfold l. rewrite elem_of_filter_b, load_live. cbn [fst snd]. tauto. }
  assert (StronglySorted entry_le l) as Hs by (apply sorted_filter, sort_entries_sorted).
  destruct l as [|e l'] eqn:E.
  - cbn. intros _ z' Hin (Ha & p & Hp & Hc).
    assert ((z', p) ∈ @nil (Zone * Poly)) as H by (apply Hl; auto). by apply not_elem_of_nil in H.
  - cbn [fmap list_fmap head]. destruct (proj1 (Hl e) ltac:(by left)) as (H1 & H2 & H3 & H4).
    split; [done|]. split; [split; [done|]; eauto|]. split; [done|].
    intros z' Hin (Ha & p & Hp & Hc).
    assert ((z', p) ∈ e :: l') as Hz by (apply Hl; auto).
    apply elem_of_cons in Hz as [<-|Hz].
    + unfold entry_leb. rewrite Z.eqb_refl, Z.ltb_irrefl. cbn [fst orb andb].
      by destruct (String.leb_total (zone_code z') (zone_code z')).
    + apply StronglySorted_inv in Hs as [_ Hs]. rewrite Forall_forall in Hs. by apply (Hs (z', p)).
Qed.

(** What the console previews is what a rider's quote does: looking up points with a
    draft overlaid on the live zones gives the very index the live lookup has once the
    draft is saved, so every point resolves the same. *)
Theorem draft_preview_is_live (table : list Zone) (o : DraftZone Poly) (lat lon : option Q) :
  zone_is_active (draft_zone o) = draft_active o ->
  polygon_for_zone (draft_zone o) = draft_polygon o ->
  resolve_point contains (load polygon_for_zone table (Some o)) lat lon =
  find_zone polygon_for_zone contains (commit_draft o table) lat lon.
Proof.
  intros Ha Hp. unfold find_zone. f_equal. unfold load, commit_draft. f_equal.
  rewrite omap_app, app_nil_r. f_equal.
  - symmetry. apply omap_filter_b. intros z.
    by destruct (bool_decide _), (zone_is_active z).
  - simpl. rewrite Ha, Hp. destruct (draft_active o), (draft_polygon o); done.
Qed.
End PointProperties.

Lemma draft_preview_is_live_witness :
  let poly := fun z : Zone => Some (zone_id z) in
  let inside := fun (p : Z) (_ : Q * Q) => Z.even p in
  let z2 := {| zone_id := 2; zone_code := "B"; zone_country := "IN"; zone_parent := None; zone_priority := 10;
     zone_currency := "INR"; zone_distance_unit := "km"; zone_tax_mode := "inclusive";
     zone_per_trip_fee := Dec 0 (-2); zone_fee_label := EmptyString; zone_geo_node := None;
     zone_is_active := true |} in
  let o := {| draft_zone := z2; draft_polygon := Some 2; draft_zone_id := Some 2; draft_active := true |} in
  resolve_point inside (load poly [demo_zone] (Some o)) (Some 0%Q) (Some 0%Q) = Some z2 /\
  find_zone poly inside (commit_draft o [demo_zone]) (Some 0%Q) (Some 0%Q) = Some z2.
Proof.
  intros poly inside z2 o. split; [vm_compute; reflexivity|].
  rewrite <- (draft_preview_is_live poly inside [demo_zone] o (Some 0%Q) (Some 0%Q)).
  - vm_compute; reflexivity.
  - reflexivity.
  - reflexivity.
Defined.

(** The walk up the zone tree always ends, even if the parents form a cycle, and finds
    the nearest card: the returned card applies at the moment to the nearest zone at or
    above the given one that has any applicable card, and of that zone's applicable cards
    it is the latest, by start and then version. *)
Theorem rate_card_nearest (zones : gmap Z Zone) (cards : list RateCard) (z : Zone) (vt at_ : Z) :
  ids_ok zones -> zones !! zone_id z = Some z ->
  exists r, card_walk zones cards (card_fuel zones) vt at_ ∅ (Some z) = Some r /\
    get_active_rate_card zones cards z vt at_ = r /\
    (forall c, r = Some c -> exists n z', up zones n z = Some z' /\ c ∈ cards /\
       card_applies (zone_id z') vt at_ c = true /\
       (forall c', c' ∈ cards -> card_applies (zone_id z') vt at_ c' = true -> card_better c' c = false) /\
       forall k zk, (k < n)%nat -> up zones k z = Some zk ->
         forall c', c' ∈ cards -> card_applies (zone_id zk) vt at_ c' = false).
Proof.
  intros Hids Hz.
  assert (card_walk zones cards (card_fuel zones) vt at_ ∅ (Some z) <> None) as Ht.
  { apply card_walk_terminates; [done| |set_solver|].
    - by intros ? [= <-].
    - rewrite size_empty, size_dom. lia. }
  unfold get_active_rate_card.
  destruct (card_walk _ _ _ _ _ _ _) as [r|] eqn:E; [|done].
  exists r. split; [done|]. split; [done|]. intros c ->.
  destruct (card_walk_found _ _ _ _ _ _ _ _ E) as (n & z0 & z' & [= <-] & Hu & Hat & Hmin).
  exists n, z'. split; [done|]. unfold card_at in Hat, Hmin.
  pose proof (best_by_elem _ _ _ Hat) as [Hin Ha]%elem_of_filter_b. split; [done|]. split; [done|].
  split.
  - intros c' Hc' Hap. by apply (best_card_max _ _ Hat), elem_of_filter_b.
  - intros k zk Hk Huk c' Hc'. specialize (Hmin k zk Hk Huk).
    apply best_by_none in Hmin. apply not_true_iff_false. intros Hap.
    assert (c' ∈ @nil RateCard) as Hf by (rewrite <- Hmin; by apply elem_of_filter_b).
    by apply not_elem_of_nil in Hf.
Qed.

Lemma rate_card_nearest_witness :
  let z1 := {| zone_id := 1; zone_code := "A"; zone_country := "IN"; zone_parent := Some 2; zone_priority := 1;
     zone_currency := "INR"; zone_distance_unit := "km"; zone_tax_mode := "inclusive";
     zone_per_trip_fee := Dec 0 (-2); zone_fee_label := EmptyString; zone_geo_node := None;
     zone_is_active := true |} in
  let z2 := {| zone_id := 2; zone_code := "B"; zone_country := "IN"; zone_parent := Some 1; zone_priority := 1;
     zone_currency := "INR"; zone_distance_unit := "km"; zone_tax_mode := "inclusive";
     zone_per_trip_fee := Dec 0 (-2); zone_fee_label := EmptyString; zone_geo_node := None;
     zone_is_active := true |} in
  let zones : gmap Z Zone := <[1 := z1]> (<[2 := z2]> ∅) in
  exists r, card_walk zones [] (card_fuel zones) 7 0 ∅ (Some z1) = Some r /\
    get_active_rate_card zones [] z1 7 0 = r /\ r = None.
Proof.
  intros z1 z2 zones. destruct (rate_card_nearest zones [] z1 7 0) as (r & H1 & H2 & _).
  - intros i z. unfold zones. rewrite !lookup_insert_Some, lookup_empty. naive_solver.
  - vm_compute; reflexivity.
  - exists r. split; [exact H1|]. split; [exact H2|]. rewrite <- H2. vm_compute. reflexivity.
Defined.

(** The night window is a window on the clock face: for hours 0 to 23, an hour is night
    exactly when it is fewer hours after the start than the end is, counting around
    midnight; equal bounds mean no night at all. *)
Theorem is_night_hour_clock (start stop hour : Z) :
  0 <= start < 24 -> 0 <= stop < 24 -> 0 <= hour < 24 ->
  is_night_hour start stop hour = true <-> (hour - start) mod 24 < (stop - start) mod 24.
Proof.
  intros Hs He Hh. unfold is_night_hour.
  assert (forall a, -24 < a < 24 -> a mod 24 = if a <? 0 then a + 24 else a) as M.
  { intros a Ha. destruct (a <? 0) eqn:E; bool_cases; [|apply Z.mod_small; lia].
    symmetry. apply (Z.mod_unique a 24 (-1)); lia. }
  rewrite !M by lia.
  destruct (Z.eqb_spec start stop); [subst; destruct (_ <? 0) eqn:?, (stop - stop <? 0) eqn:?; bool_cases; split; lia|].
  destruct (Z.ltb_spec start stop); rewrite ?andb_true_iff, ?orb_true_iff, Z.leb_le, Z.ltb_lt;
    destruct (hour - start <? 0) eqn:?, (stop - start <? 0) eqn:?; bool_cases; lia.
Qed.

Lemma is_night_hour_clock_witness :
  is_night_hour 23 5 2 = true /\ (2 - 23) mod 24 < (5 - 23) mod 24.
Proof. split; [vm_compute; reflexivity|]. apply (is_night_hour_clock 23 5 2); [lia|lia|lia|vm_compute; reflexivity]. Defined.
