(* ===== verification/PromoTax.v ===== *)
(** * PromoTax: splitting an additive-tax charge

    Models [servers/pricing/promo_tax.py]: the tax context of an additive-tax zone,
    the inversion of a quoted total into fare, tax and fee, the promo adjustment and
    the split a settlement uses.  Amounts in major units are decimals, as in the code. *)

From Stdlib Require Import QArith Lqa.
From S2P Require Import Prelude PyDecimal PyText Countries Models Money Commission Zones.
#[local] Open Scope Z_scope.

(** ** Decimal helpers of the language *)

(** Python's [min(a, b)] and [max(a, b)] on decimals: the first of two equal ones. *)
Definition dmin (a b : dec) : dec := if dltb b a then b else a.
Definition dmax (a b : dec) : dec := if dltb a b then b else a.

(** [D(str(x or '0'))]. *)
Definition or_zero (d : dec) : dec := if coef d =? 0 then of_Z 0 else d.

(** ** The tax context of a zone *)

Definition is_additive (zone : option Zone) : bool :=
  match zone with
  | None => false
  | Some z => bool_decide ((if truthy (Some (zone_tax_mode z)) then zone_tax_mode z else "inclusive"%string) = "additive"%string)
  end.

(** [RateCard.objects.filter(zone=zone, is_active=True).order_by('-version').first()] *)
Definition any_active_card (cards : list RateCard) (zone : Zone) : option RateCard :=
  best_by (fun a b => card_version b <? card_version a)
    (List.filter (fun c => (card_zone c =? zone_id zone) && card_is_active c) cards).

Definition additive_context (zones : gmap Z Zone) (cards : list RateCard) (now : Z)
    (zone : option Zone) (vt : option Z) : res money_error (option (dec * dec)) :=
  match zone with
  | None => Ok None
  | Some z =>
    if negb (is_additive zone) then Ok None
    else
      let card := match vt with Some v => get_active_rate_card zones cards z v now | None => None end in
      let card := match card with Some c => Some c | None => any_active_card cards z end in
      match card with
      | None => Ok None
      | Some c =>
        let currency := if truthy (Some (zone_currency z)) then zone_currency z else "USD"%string in
        let* fee := quantize_dec (or_zero (zone_per_trip_fee z)) (Some currency) in
        Ok (Some (or_zero (gst_percent c), fee))
      end
  end.

(** ** The split *)

(** One candidate of the search: [Some] when it explains the remainder. *)
Definition try_split (guess one percent remainder fee : dec) (currency : option string) (step : Z)
    : res money_error (option (dec * dec * dec)) :=
  let* move := lift_dec (dmul one (of_Z step)) in
  let* pretax := lift_dec (dadd guess move) in
  if dltb pretax (of_Z 0) then Ok None
  else
    let* t := percent_of pretax percent HUNDRED in
    let* tax := quantize_dec t currency in
    let* total := lift_dec (dadd pretax tax) in
    if deqb total remainder then
      let* rest := lift_dec (dsub remainder pretax) in Ok (Some (pretax, rest, fee))
    else Ok None.

Fixpoint search_split (guess one percent remainder fee : dec) (currency : option string) (steps : list Z)
    : res money_error (dec * dec * dec) :=
  match steps with
  | [] => let* rest := lift_dec (dsub remainder guess) in Ok (guess, rest, fee)
  | s :: r =>
    let* found := try_split guess one percent remainder fee currency s in
    match found with
    | Some x => Ok x
    | None => search_split guess one percent remainder fee currency r
    end
  end.

Definition split_additive (total percent fee : dec) (currency : option string)
    : res money_error (dec * dec * dec) :=
  let fee := dmin fee total in
  let* remainder := lift_dec (dsub total fee) in
  let* pd := lift_dec (ddiv percent HUNDRED) in
  let* divisor := lift_dec (dadd (of_Z 1) pd) in
  let* g := lift_dec (ddiv remainder divisor) in
  let* guess := quantize_dec g currency in
  let* one := from_minor_Z 1 currency in
  search_split guess one percent remainder fee currency [0; -1; 1; -2; 2].

(** ** The promo adjustment *)

Record Adjusted := {
  adj_taxable : dec; adj_tax : dec; adj_tax_before : dec; adj_full : dec;
  adj_discount : dec; adj_payable : dec; adj_relief : dec; adj_pretax : dec; adj_fee : dec
}.

Definition adjust (pretax percent fee discount : dec) (currency : option string)
    (tax_before : option dec) : res money_error Adjusted :=
  let* before := match tax_before with
    | None => let* p := percent_of pretax percent HUNDRED in quantize_dec p currency
    | Some b => Ok b
    end in
  let* undiscounted := lift_dec (dsub pretax discount) in
  let taxable := dmax (of_Z 0) undiscounted in
  let* p := percent_of taxable percent HUNDRED in
  let* q := quantize_dec p currency in
  let tax := dmin q before in
  let* pt := lift_dec (dadd pretax tax) in
  let* full := lift_dec (dadd pt fee) in
  let applied := dmin discount full in
  let* payable := lift_dec (dsub full applied) in
  let* relief := lift_dec (dsub before tax) in
  Ok {| adj_taxable := taxable; adj_tax := tax; adj_tax_before := before; adj_full := full;
        adj_discount := applied; adj_payable := payable; adj_relief := relief;
        adj_pretax := pretax; adj_fee := fee |}.

(** ** The settlement split *)

Record Split := { pretax_minor : Z; tax_minor : Z; fee_minor : Z }.

(** What the split reads besides the trip: the rate cards, the latest fare snapshot that
    recorded a split, and the promo discount held on the trip. *)
Record SplitInput := {
  si_zones : gmap Z Zone;
  si_cards : list RateCard;
  si_now : Z;
  si_stored : option (Z * option Z);
  si_discount : Z
}.

Definition settlement_split (i : SplitInput) (t : Trip) (gross : Z) (currency : option string)
    : res money_error (option Split) :=
  if negb (is_additive (trip_zone t)) then Ok None
  else
    let stored := match si_stored i with
      | Some (pretax, fee) =>
        let fee := default 0 fee in
        let tax := gross - pretax - fee in
        if (0 <=? pretax) && (0 <=? fee) && (0 <=? tax)
        then Some {| pretax_minor := pretax; tax_minor := tax; fee_minor := fee |} else None
      | None => None
      end in
    match stored with
    | Some s => Ok (Some s)
    | None =>
      let* ctx := additive_context (si_zones i) (si_cards i) (si_now i) (trip_zone t) (trip_vehicle_type t) in
      match ctx with
      | None => Ok None
      | Some (percent, zone_fee) =>
        let* zf := to_minor_dec zone_fee currency in
        let fee := Z.min zf gross in
        let remainder := gross - fee in
        if remainder <=? si_discount i then
          Ok (Some {| pretax_minor := remainder; tax_minor := 0; fee_minor := fee |})
        else
          let* taxed := from_minor_Z (remainder - si_discount i) currency in
          let* (taxable, tax, _) := split_additive taxed percent (of_Z 0) currency in
          let* tm := to_minor_dec taxable currency in
          let* xm := to_minor_dec tax currency in
          Ok (Some {| pretax_minor := tm + si_discount i; tax_minor := xm; fee_minor := fee |})
      end
    end.

(** ** Lemmas *)

Lemma dec2_val (m : Z) : (dval (Dec m (-2)) == inject_Z m * p10 (-2))%Q.
Proof. reflexivity. Qed.

Lemma dec2_compare (a b : Z) : dcompare (Dec a (-2)) (Dec b (-2)) = (a ?= b).
Proof. unfold dcompare, coef_at. cbn [coef dexp]. by rewrite !Z.mul_1_r. Qed.

Lemma dec2_eqb (a b : Z) : deqb (Dec a (-2)) (Dec b (-2)) = (a =? b).
Proof.
  unfold deqb. rewrite dec2_compare.
  destruct (Z.compare_spec a b); symmetry; [apply Z.eqb_eq | apply Z.eqb_neq | apply Z.eqb_neq]; lia.
Qed.

Lemma dec2_min (a b : Z) : a <= b -> dmin (Dec a (-2)) (Dec b (-2)) = Dec a (-2).
Proof.
  intros H. unfold dmin, dltb. rewrite dec2_compare.
  destruct (Z.compare_spec b a); [done|lia|done].
Qed.

Lemma dec2_ltb0 (a : Z) : dltb (Dec a (-2)) (of_Z 0) = (a <? 0).
Proof.
  unfold dltb, dcompare, coef_at, of_Z, Z.ltb. cbn [coef dexp]. change (Z.min (-2) 0) with (-2).
  by rewrite Z.mul_1_r.
Qed.

Lemma dec2_add (a b : Z) : Z.abs (a + b) < 10 ^ prec -> dadd (Dec a (-2)) (Dec b (-2)) = Ok (Dec (a + b) (-2)).
Proof.
  intros H. unfold dadd, coef_at. cbn [coef dexp]. rewrite Z.min_id, Z.sub_diag, !Z.mul_1_r.
  apply fix_ctx_fits. split; cbn [coef dexp]; [done|]. unfold Etiny, Etop, Emin, Emax, prec. lia.
Qed.

Lemma dec2_sub (a b : Z) : Z.abs (a - b) < 10 ^ prec -> dsub (Dec a (-2)) (Dec b (-2)) = Ok (Dec (a - b) (-2)).
Proof. intros H. unfold dsub, dneg. cbn [coef dexp]. by rewrite dec2_add. Qed.

Lemma dec2_exact (m : Z) : Z.abs m < 10 ^ prec -> exact (Dec m (-2)).
Proof. intros H. split; cbn [coef dexp]; [done|lia]. Qed.

Lemma to_minor_dec2 (m : Z) (c : option string) :
  Z.abs m < 10 ^ prec -> exponent c = Ok 2 -> to_minor_dec (Dec m (-2)) c = Ok m.
Proof. intros Hm He. by apply (to_minor_of_minor m c 2). Qed.

Section Split.
Context (c : option string) (Hc : exponent c = Ok 2) (p : dec) (Hp : pct_ok p).

(** The tax on a fare of [x] minor units. *)
Definition tax_on (x : Z) : Z := rhu (share x p).

Lemma tax_on_nonneg (x : Z) : 0 <= x -> 0 <= tax_on x.
Proof. intros. by apply rhu_nonneg, share_nonneg. Qed.

Lemma tax_on_mono (x y : Z) : x <= y -> tax_on x <= tax_on y.
Proof. intros. by apply rhu_mono, share_mono. Qed.

Lemma tax_on_bound (x : Z) : 0 <= x -> tax_on x <= x * 10 ^ 5.
Proof.
  intros Hx. rewrite <- (rhu_Z (x * 10 ^ 5)). apply rhu_mono. unfold share.
  destruct (pct_val p Hp) as [H0 H1]. rewrite inject_Z_mult. change (inject_Z (10 ^ 5)) with 100000%Q.
  assert (0 <= inject_Z x)%Q by (change 0%Q with (inject_Z 0); by rewrite <- Zle_Qle). nra.
Qed.

Lemma taxed_quantize (x : Z) :
  amount_ok x ->
  (let* t := percent_of (Dec x (-2)) p HUNDRED in quantize_dec t c) = Ok (Dec (tax_on x) (-2)).
Proof.
  intros Hx. pose proof (percent_minor_spec x p 0 c Hx Hp ltac:(lia) Hc) as H.
  unfold percent_minor in H. change (Dec (10 ^ (2 + 0)) (- 0)) with HUNDRED in H.
  destruct (percent_of _ _ _) as [t|]; [|done]. cbn [res_bind] in *.
  unfold quantize_dec. rewrite H. cbn [res_bind]. fold (tax_on x).
  apply (from_minor_Z_spec _ c 2); [|done].
  pose proof (tax_on_nonneg x ltac:(unfold amount_ok in Hx; lia)).
  pose proof (tax_on_bound x ltac:(unfold amount_ok in Hx; lia)). unfold amount_ok, prec in *. lia.
Qed.

Lemma try_split_spec (g s R : Z) (fee : dec) :
  amount_ok g -> -2 <= s <= 2 -> 0 <= R < 10 ^ 20 -> amount_ok (g + 2) ->
  try_split (Dec g (-2)) (Dec 1 (-2)) p (Dec R (-2)) fee c s =
  if (0 <=? g + s) && (g + s + tax_on (g + s) =? R)
  then Ok (Some (Dec (g + s) (-2), Dec (R - (g + s)) (-2), fee)) else Ok None.
Proof.
  intros Hg Hs HR Hg2. unfold try_split, amount_ok in *.
  assert (dmul (Dec 1 (-2)) (of_Z s) = Ok (Dec s (-2))) as ->.
  { unfold dmul, of_Z. cbn [coef dexp]. rewrite Z.mul_1_l. apply fix_ctx_fits.
    split; cbn [coef dexp]; [|unfold Etiny, Etop, Emin, Emax, prec]; unfold prec; lia. }
  cbn [lift_dec map_err res_bind]. rewrite dec2_add by (unfold prec; lia).
  cbn [lift_dec map_err res_bind]. rewrite dec2_ltb0, Z.leb_antisym.
  destruct (g + s <? 0) eqn:E0; [done|]. bool_cases. cbn [negb andb].
  pose proof (taxed_quantize (g + s) ltac:(unfold amount_ok; lia)) as Ht.
  destruct (percent_of _ _ _) as [t|]; [|done]. cbn [res_bind] in *. rewrite Ht. cbn [res_bind].
  pose proof (tax_on_nonneg (g + s) ltac:(lia)). pose proof (tax_on_bound (g + s) ltac:(lia)).
  rewrite dec2_add by (unfold prec; lia). cbn [lift_dec map_err res_bind].
  rewrite dec2_eqb. destruct (_ =? R); [|done].
  by rewrite dec2_sub by (unfold prec; lia).
Qed.

Lemma tax_near (x : Z) : 0 <= x ->
  (inject_Z x * dval p * (1 # 100) - (1 # 2) <= inject_Z (tax_on x)
     <= inject_Z x * dval p * (1 # 100) + (1 # 2))%Q.
Proof. intros _. apply rhu_bounds. Qed.

Lemma gross_inj (x y : Z) : x + tax_on x = y + tax_on y -> x = y.
Proof.
  intros H. destruct (Z.lt_trichotomy x y) as [L|[E|L]]; [|done|].
  - pose proof (tax_on_mono x y ltac:(lia)). lia.
  - pose proof (tax_on_mono y x ltac:(lia)). lia.
Qed.

(** The divisor [1 + percent/100] is exact. *)
Lemma divisor_exact :
  exists pd v : dec, ddiv p HUNDRED = Ok pd /\ (dadd (of_Z 1) pd = Ok v) /\
    (dval v == 1 + dval p * (1 # 100))%Q /\ small v.
Proof.
  pose proof Hp as [H1 H2]. unfold HUNDRED.
  destruct (ddiv_100_exact p 0) as (pd & Hpd & Hv & Hcd & He);
    [unfold prec; lia | lia | unfold Etiny, Etop, Emin, Emax, prec; lia |].
  change (Dec (10 ^ (2 + 0)) (- 0)) with (of_Z 100) in Hpd.
  assert (0 <= coef pd) as Hc0.
  { destruct (pct_val p Hp) as [Hp0 _].
    assert (0 <= dval pd)%Q as Hd by (rewrite Hv; nra).
    unfold dval in Hd. fold (p10 (dexp pd)) in Hd. pose proof (p10_pos (dexp pd)) as Hpp.
    rewrite Zle_Qle. change (inject_Z 0) with 0%Q.
    destruct (Qlt_le_dec (inject_Z (coef pd)) 0) as [Hneg|]; [|done]. exfalso. nra. }
  assert (dexp pd = -5 \/ dexp pd = -4 \/ dexp pd = -3 \/ dexp pd = -2 \/ dexp pd = -1 \/ dexp pd = 0) as Hcase by lia.
  set (v := Dec (coef_at (Z.min 0 (dexp pd)) (of_Z 1) + coef_at (Z.min 0 (dexp pd)) pd) (Z.min 0 (dexp pd))).
  assert (dexp pd <= 0 -> Z.min 0 (dexp pd) = dexp pd) as Hmin by lia.
  assert (1 <= coef v <= 10 ^ 8 /\ dexp v = dexp pd) as [Hcv Hev].
  { unfold v, coef_at, of_Z. cbn [coef dexp]. rewrite Hmin by lia. rewrite Z.sub_diag.
    split; [|done].
    destruct Hcase as [E|[E|[E|[E|[E|E]]]]]; rewrite E; simpl (10 ^ _); rewrite ?Z.mul_1_l; lia. }
  exists pd, v. split; [done|]. split; [|split].
  - unfold dadd. apply fix_ctx_fits. change (fits v). split.
    + rewrite Z.abs_eq by (etrans; [|exact (proj1 Hcv)]; lia).
      by apply Z.le_lt_trans with (10 ^ 8); [exact (proj2 Hcv)|].
    + rewrite Hev. unfold Etiny, Etop, Emin, Emax, prec. lia.
  - unfold v. rewrite dval_Dec, inject_Z_plus, Qmult_plus_distr_l.
    rewrite (coef_at_val _ (of_Z 1)) by (unfold of_Z; cbn [dexp]; lia).
    rewrite coef_at_val by lia. rewrite Hv, dval_of_Z. reflexivity.
  - split; [|rewrite Hev; lia]. split; [by apply Z.lt_le_trans with 1; [lia|exact (proj1 Hcv)]|].
    by apply Z.le_lt_trans with (10 ^ 8); [exact (proj2 Hcv)|].
Qed.

(** The guess is within one unit of the fare. *)
Lemma guess_near (x : Z) (d v : dec) :
  0 <= x -> 0 < x + tax_on x < 10 ^ 18 -> (dval v == 1 + dval p * (1 # 100))%Q ->
  (dval (Dec (x + tax_on x) (-2)) * (1 - 3 * ulp) <= dval d * dval v
    <= dval (Dec (x + tax_on x) (-2)) * (1 + 3 * ulp))%Q ->
  x - 1 <= minor_spec 2 (dval d) <= x + 1.
Proof.
  intros Hx HR Hv Hd. pose proof (tax_near x Hx) as Ht. destruct (pct_val p Hp) as [Hp0 Hp1].
  unfold minor_spec. change (p10 2) with 100%Q.
  pose proof (rhu_bounds (dval d * 100)) as Hr. set (g := rhu (dval d * 100)) in *.
  rewrite dval_Dec in Hd. change (p10 (-2)) with (1 # 100)%Q in Hd.
  rewrite Hv in Hd. set (q := dval d) in *. set (w := (dval p * (1 # 100))%Q) in *.
  assert (0 <= w)%Q as Hw by (unfold w; nra).
  rewrite inject_Z_plus in Hd.
  assert (0 < inject_Z x + inject_Z (tax_on x) <= 1000000000000000000)%Q as [HR0 HR1].
  { rewrite <- inject_Z_plus. change 0%Q with (inject_Z 0).
    change 1000000000000000000%Q with (inject_Z (10 ^ 18)). rewrite <- Zlt_Qlt, <- Zle_Qle. lia. }
  unfold ulp in Hd. set (X := inject_Z x) in *. set (T := inject_Z (tax_on x)) in *.
  assert (X * dval p * (1 # 100) == X * w)%Q as Ew by (unfold w; ring). rewrite Ew in Ht. clear Ew.
  assert (X * (1 + w) - (3 # 4) <= (q * 100) * (1 + w) <= X * (1 + w) + (3 # 4))%Q as [G1 G2] by (split; nra).
  assert (X - (3 # 4) <= q * 100)%Q as L1.
  { destruct (Qlt_le_dec (q * 100) (X - (3 # 4))) as [L|]; [|done]. exfalso. nra. }
  assert (q * 100 <= X + (3 # 4))%Q as L2.
  { destruct (Qlt_le_dec (X + (3 # 4)) (q * 100)) as [L|]; [|done]. exfalso. nra. }
  assert (inject_Z (x - 2) < inject_Z g)%Q as B1.
  { unfold Z.sub. rewrite inject_Z_plus. change (inject_Z (- (2))) with (-2)%Q. fold X. lra. }
  assert (inject_Z g < inject_Z (x + 2))%Q as B2.
  { rewrite inject_Z_plus. change (inject_Z 2) with 2%Q. fold X. lra. }
  rewrite <- Zlt_Qlt in B1, B2. lia.
Qed.

(** The search stops at the step that reaches the fare. *)
Lemma search_split_finds (g x : Z) (fee : dec) (steps : list Z) :
  amount_ok g -> amount_ok (g + 2) -> 0 <= x -> x + tax_on x < 10 ^ 20 ->
  Forall (fun s => -2 <= s <= 2) steps -> x - g ∈ steps ->
  search_split (Dec g (-2)) (Dec 1 (-2)) p (Dec (x + tax_on x) (-2)) fee c steps
  = Ok (Dec x (-2), Dec (tax_on x) (-2), fee).
Proof.
  intros Hg Hg2 Hx HR Hs Hin. pose proof (tax_on_nonneg x Hx).
  induction Hs as [|s r Hs Hr IH]; [by apply not_elem_of_nil in Hin|].
  cbn [search_split]. rewrite try_split_spec by (done || lia).
  destruct (_ && _) eqn:E.
  - bool_cases. assert (g + s = x) as -> by by apply gross_inj.
    cbn [res_bind]. repeat f_equal. lia.
  - cbn [res_bind]. apply IH. apply elem_of_cons in Hin as [<-|Hin]; [|done].
    exfalso. rewrite (proj2 (Z.leb_le 0 (g + (x - g)))) in E by lia. cbn [andb] in E.
    replace (g + (x - g)) with x in E by lia. by rewrite Z.eqb_refl in E.
Qed.

Lemma quantize_zero (e : Z) : -5000 <= e <= 5000 -> quantize_dec (Dec 0 e) c = Ok (Dec 0 (-2)).
Proof.
  intros He. assert (minor_spec 2 (dval (Dec 0 e)) = 0) as Hz.
  { unfold minor_spec. transitivity (rhu 0); [apply rhu_proper|apply rhu_zero]. rewrite dval_Dec.
    change (inject_Z 0) with 0%Q. ring. }
  pose proof (quantize_dec_spec (Dec 0 e) c 2) as Hq. rewrite Hz in Hq.
  apply Hq; [|done|done]. split; cbn [coef dexp]; [done|lia].
Qed.

Lemma split_guess (x : Z) :
  0 <= x -> x + tax_on x < 10 ^ 18 ->
  exists pd v q g, ddiv p HUNDRED = Ok pd /\ (dadd (of_Z 1) pd = Ok v) /\
    ddiv (Dec (x + tax_on x) (-2)) v = Ok q /\ quantize_dec q c = Ok (Dec g (-2)) /\
    0 <= g /\ x - 1 <= g <= x + 1.
Proof.
  intros Hx HB. pose proof (tax_on_nonneg x Hx) as Ht.
  destruct divisor_exact as (pd & v & Hpd & Hadd & Hv & Hs). exists pd, v.
  destruct (Z.eq_dec (x + tax_on x) 0) as [E|N].
  - assert (x = 0) as -> by lia. rewrite E. destruct Hs as [[Hv0 Hv1] [He0 He1]].
    exists (Dec 0 (-2 - dexp v)), 0. split; [done|]. split; [done|]. split; [|split; [|lia]].
    + unfold ddiv. rewrite (proj2 (Z.eqb_neq (coef v) 0)) by lia. cbn [coef dexp]. rewrite Z.eqb_refl.
      apply fix_ctx_fits. split; cbn [coef dexp]; [done|].
      unfold Etiny, Etop, Emin, Emax, prec. lia.
    + apply quantize_zero. lia.
  - destruct (ddiv_close (Dec (x + tax_on x) (-2)) v) as (q & Hq & Hclose & Hc1 & He1).
    { split; cbn [coef dexp]; [unfold prec; lia | lia]. }
    { done. }
    pose proof (guess_near x q v Hx ltac:(lia) Hv Hclose) as Hg.
    exists q, (minor_spec 2 (dval q)). split; [done|]. split; [done|]. split; [done|].
    split; [|split; [|done]].
    + apply (quantize_dec_spec _ c 2); [|done|unfold prec; lia]. split; lia.
    + unfold minor_spec. apply rhu_nonneg. unfold dval. change 0%Q with (0 * 0)%Q.
      assert (0 <= inject_Z (coef q))%Q by (change 0%Q with (inject_Z 0); rewrite <- Zle_Qle; lia).
      pose proof (p10_pos (dexp q)). unfold p10 in *. change (p10 2) with 100%Q. nra.
Qed.

Lemma split_spec (x f : Z) :
  0 <= x -> 0 <= f -> x + tax_on x + f < 10 ^ 18 ->
  split_additive (Dec (x + tax_on x + f) (-2)) p (Dec f (-2)) c
  = Ok (Dec x (-2), Dec (tax_on x) (-2), Dec f (-2)).
Proof.
  intros Hx Hf HB. pose proof (tax_on_nonneg x Hx) as Ht. unfold split_additive.
  rewrite dec2_min by lia. rewrite dec2_sub by (unfold prec; lia).
  replace (x + tax_on x + f - f) with (x + tax_on x) by lia. cbn [lift_dec map_err res_bind].
  destruct (split_guess x Hx ltac:(lia)) as (pd & v & q & g & -> & Hadd & Hq & Hg & Hg0 & Hgx).
  cbn [lift_dec map_err res_bind]. rewrite Hadd. cbn [lift_dec map_err res_bind]. rewrite Hq.
  cbn [lift_dec map_err res_bind]. rewrite Hg. cbn [res_bind].
  rewrite (proj1 (from_minor_Z_spec 1 c 2 ltac:(done) Hc)). cbn [res_bind].
  apply search_split_finds; unfold amount_ok; [lia|lia|done|lia| |].
  - repeat constructor; done.
  - assert (x - g = 0 \/ x - g = -1 \/ x - g = 1) as [->|[->| ->]] by lia; set_solver.
Qed.

(** Every split of a total of minor units is a split of it: the parts are minor units,
    not negative, and add up to it. *)
Definition splits (R : Z) (m : res money_error (dec * dec * dec)) (fee : dec) : Prop :=
  exists a, 0 <= a <= R /\ m = Ok (Dec a (-2), Dec (R - a) (-2), fee).

Lemma search_split_splits (g R : Z) (fee : dec) (steps : list Z) :
  0 <= g <= R -> R < 10 ^ 18 -> Forall (fun s => -2 <= s <= 2) steps ->
  splits R (search_split (Dec g (-2)) (Dec 1 (-2)) p (Dec R (-2)) fee c steps) fee.
Proof.
  intros Hg HR. induction 1 as [|s r Hs Hr IH]; cbn [search_split].
  - rewrite dec2_sub by (unfold prec; lia). cbn [lift_dec map_err res_bind]. by exists g.
  - rewrite try_split_spec by (unfold amount_ok; lia). destruct (_ && _) eqn:E; [|done].
    bool_cases. cbn [res_bind]. exists (g + s). split; [|done].
    pose proof (tax_on_nonneg (g + s) ltac:(lia)). lia.
Qed.

Lemma guess_below (R : Z) (d v : dec) :
  0 < R < 10 ^ 18 -> (1 <= dval v)%Q -> 0 <= coef d ->
  (dval d * dval v <= dval (Dec R (-2)) * (1 + 3 * ulp))%Q ->
  0 <= minor_spec 2 (dval d) <= R.
Proof.
  intros HR Hv Hd Hq. rewrite dval_Dec in Hq. change (p10 (-2)) with (1 # 100)%Q in Hq.
  assert (0 <= dval d)%Q as Hd0.
  { unfold dval. fold (p10 (dexp d)). pose proof (p10_pos (dexp d)).
    assert (0 <= inject_Z (coef d))%Q by (change 0%Q with (inject_Z 0); by rewrite <- Zle_Qle). nra. }
  assert (1 <= inject_Z R <= 1000000000000000000)%Q as [HR0 HR1].
  { change 1%Q with (inject_Z 1). change 1000000000000000000%Q with (inject_Z (10 ^ 18)). rewrite <- !Zle_Qle. lia. }
  unfold minor_spec. change (p10 2) with 100%Q. split; [apply rhu_nonneg; nra|].
  pose proof (rhu_bounds (dval d * 100)) as [_ Hr].
  assert (dval d * 100 <= inject_Z R + (1 # 4))%Q by (unfold ulp in Hq; nra).
  assert (inject_Z (rhu (dval d * 100)) < inject_Z (R + 1))%Q as B.
  { rewrite inject_Z_plus. change (inject_Z 1) with 1%Q. lra. }
  rewrite <- Zlt_Qlt in B. lia.
Qed.

(** The taxable part of a total worked back out of it: minor units, between zero and the total. *)
Lemma backed_out (R : Z) :
  0 <= R < 10 ^ 18 ->
  exists pd v q g, ddiv p HUNDRED = Ok pd /\ dadd (of_Z 1) pd = Ok v /\ ddiv (Dec R (-2)) v = Ok q /\
    quantize_dec q c = Ok (Dec g (-2)) /\ 0 <= g <= R.
Proof.
  intros HR. destruct divisor_exact as (pd & v & Hpd & Hadd & Hv & Hs). exists pd, v.
  destruct (Z.eq_dec R 0) as [->|N].
  - exists (Dec 0 (-2 - dexp v)), 0. destruct Hs as [[Hv0 Hv1] [He0 He1]]. split_and!; try done.
    + unfold ddiv. rewrite (proj2 (Z.eqb_neq (coef v) 0)) by lia. cbn [coef dexp]. rewrite Z.eqb_refl.
      apply fix_ctx_fits. split; cbn [coef dexp]; [done|]. unfold Etiny, Etop, Emin, Emax, prec. lia.
    + apply quantize_zero. lia.
  - destruct (ddiv_close (Dec R (-2)) v) as (q & Hq & [_ Hclose] & Hc1 & He1);
      [split; cbn [coef dexp]; [unfold prec; lia | lia] | done |].
    assert (1 <= dval v)%Q as Hv1 by (rewrite Hv; destruct (pct_val p Hp); nra).
    pose proof (guess_below R q v ltac:(lia) Hv1 ltac:(lia) Hclose) as Hg.
    exists q, (minor_spec 2 (dval q)). split_and!; try done; [|lia|lia].
    apply (quantize_dec_spec q c 2); [split; lia|done|unfold prec; lia].
Qed.

Lemma sub_no_fee (R : Z) : 0 <= R < 10 ^ 18 -> dmin (of_Z 0) (Dec R (-2)) = of_Z 0 /\ dsub (Dec R (-2)) (of_Z 0) = Ok (Dec R (-2)).
Proof.
  intros HR. unfold dmin. rewrite dec2_ltb0, (proj2 (Z.ltb_ge R 0)) by lia. split; [done|].
  pose proof (dec2_sub R 0) as H. rewrite Z.sub_0_r in H. rewrite <- H by (unfold prec; lia). done.
Qed.

(** Without a fee the split finds the fare too. *)
Lemma split_nofee_spec (x : Z) :
  0 <= x -> x + tax_on x < 10 ^ 18 ->
  split_additive (Dec (x + tax_on x) (-2)) p (of_Z 0) c = Ok (Dec x (-2), Dec (tax_on x) (-2), of_Z 0).
Proof.
  intros Hx HB. pose proof (tax_on_nonneg x Hx) as Ht. unfold split_additive.
  destruct (sub_no_fee (x + tax_on x) ltac:(lia)) as [-> ->]. cbn [lift_dec map_err res_bind].
  destruct (split_guess x Hx HB) as (pd & v & q & g & -> & Hadd & Hq & Hg & Hg0 & Hgx).
  cbn [lift_dec map_err res_bind]. rewrite Hadd. cbn [lift_dec map_err res_bind]. rewrite Hq. cbn [lift_dec map_err res_bind].
  rewrite Hg. cbn [res_bind]. rewrite (proj1 (from_minor_Z_spec 1 c 2 ltac:(done) Hc)). cbn [res_bind].
  apply search_split_finds; unfold amount_ok; [lia|lia|done|lia|repeat constructor; done|].
  assert (x - g = 0 \/ x - g = -1 \/ x - g = 1) as [->|[->| ->]] by lia; set_solver.
Qed.

Lemma split_nofee (R : Z) :
  0 <= R < 10 ^ 18 -> splits R (split_additive (Dec R (-2)) p (of_Z 0) c) (of_Z 0).
Proof.
  intros HR. unfold split_additive. destruct (sub_no_fee R HR) as [-> ->]. cbn [lift_dec map_err res_bind].
  destruct (backed_out R HR) as (pd & v & q & g & -> & Hadd & Hq & Hqu & Hg). cbn [lift_dec map_err res_bind].
  rewrite Hadd. cbn [lift_dec map_err res_bind]. rewrite Hq. cbn [lift_dec map_err res_bind].
  rewrite Hqu. cbn [res_bind]. rewrite (proj1 (from_minor_Z_spec 1 c 2 ltac:(done) Hc)). cbn [res_bind].
  apply search_split_splits; [done|lia|repeat constructor; done].
Qed.
End Split.

Lemma get_active_rate_card_elem (zones : gmap Z Zone) (cards : list RateCard) (z : Zone) (vt at_ : Z) (c : RateCard) :
  get_active_rate_card zones cards z vt at_ = Some c -> c ∈ cards.
Proof.
  unfold get_active_rate_card. destruct (card_walk _ _ _ _ _ _ _) as [r|] eqn:E; [|done]. cbn. intros ->.
  apply card_walk_found in E as (n & z0 & z' & _ & _ & H & _).
  by apply best_by_elem, elem_of_filter_b in H as [? _].
Qed.

Lemma or_zero_pct (d : dec) : pct_ok d -> pct_ok (or_zero d).
Proof. unfold or_zero. destruct (_ =? 0); [|done]. intros _. split; cbn; lia. Qed.

(** What the pricing tables hold: percentages of at most three decimals, fees of at most
    15 integer digits, currencies the code knows. *)
Definition cards_ok (cards : list RateCard) : Prop := forall c, c ∈ cards -> pct_ok (gst_percent c).

Definition zone_ok (z : Zone) : Prop :=
  (0 <= coef (zone_per_trip_fee z) < 10 ^ 15 /\ -4 <= dexp (zone_per_trip_fee z) <= 0) /\
  (zone_currency z = EmptyString \/ is_supported (Some (zone_currency z)) = true).

Lemma zone_fee_minor (z : Zone) :
  zone_ok z ->
  let currency := if truthy (Some (zone_currency z)) then zone_currency z else "USD"%string in
  exists f, 0 <= f < 10 ^ 18 /\ quantize_dec (or_zero (zone_per_trip_fee z)) (Some currency) = Ok (Dec f (-2)).
Proof.
  intros [[H1 H2] Hc] currency.
  assert (exponent (Some currency) = Ok 2) as He.
  { unfold currency. destruct Hc as [->|Hs]; [done|]. destruct (truthy _); [by apply exponent_supported|done]. }
  set (d := or_zero (zone_per_trip_fee z)).
  assert (0 <= coef d < 10 ^ 15 /\ -4 <= dexp d <= 0) as [D1 D2].
  { unfold d, or_zero. destruct (_ =? 0); cbn; lia. }
  assert (0 <= minor_spec 2 (dval d) <= 10 ^ 17) as [M0 M1].
  { unfold minor_spec. change (p10 2) with 100%Q.
    assert (dexp d = -4 \/ dexp d = -3 \/ dexp d = -2 \/ dexp d = -1 \/ dexp d = 0) as Hcase by lia.
    assert (0 <= p10 (dexp d) <= 1)%Q as [P0 P1].
    { destruct Hcase as [->|[->|[->|[->| ->]]]]; split; vm_compute; discriminate. }
    assert (0 <= inject_Z (coef d) <= 1000000000000000)%Q as [C0 C1].
    { change 0%Q with (inject_Z 0). change 1000000000000000%Q with (inject_Z (10 ^ 15)). rewrite <- !Zle_Qle. lia. }
    assert (0 <= dval d <= 1000000000000000)%Q as [V0 V1].
    { unfold dval. fold (p10 (dexp d)). split; nra. }
    split; [apply rhu_nonneg; nra|]. rewrite <- (rhu_Z (10 ^ 17)). apply rhu_mono.
    change (inject_Z (10 ^ 17)) with 100000000000000000%Q. nra. }
  exists (minor_spec 2 (dval d)). split; [lia|].
  apply (quantize_dec_spec d _ 2); [|done|unfold prec; lia]. split; [unfold prec; lia|lia].
Qed.

Lemma additive_context_ok (zones : gmap Z Zone) (cards : list RateCard) (now : Z) (zone : option Zone) (vt : option Z) :
  cards_ok cards -> (forall z, zone = Some z -> zone_ok z) ->
  exists r, additive_context zones cards now zone vt = Ok r /\
    forall p f, r = Some (p, f) -> pct_ok p /\ exists m, 0 <= m < 10 ^ 18 /\ f = Dec m (-2).
Proof.
  intros Hcards Hzone. unfold additive_context. destruct zone as [z|]; [|by eexists].
  destruct (is_additive _); cbn [negb]; [|by eexists].
  set (card := match _ with Some c => Some c | None => _ end).
  destruct card as [c|] eqn:E; [|by eexists].
  assert (c ∈ cards) as Hin.
  { unfold card in E. destruct vt as [v|]; [destruct (get_active_rate_card _ _ _ _ _) eqn:Hg|];
      [injection E as <-; by eapply get_active_rate_card_elem| |];
      by apply best_by_elem, elem_of_filter_b in E as [? _]. }
  destruct (zone_fee_minor z (Hzone z eq_refl)) as (f & Hf & ->). cbn [res_bind].
  eexists; split; [done|]. intros p f' [= <- <-]. split; [by apply or_zero_pct, Hcards|by exists f].
Qed.

Lemma settlement_split_sums (i : SplitInput) (t : Trip) (gross : Z) (currency : option string) :
  is_supported currency = true -> 0 <= gross < 10 ^ 18 -> 0 <= si_discount i ->
  cards_ok (si_cards i) -> (forall z, trip_zone t = Some z -> zone_ok z) ->
  exists r, settlement_split i t gross currency = Ok r /\
    (is_additive (trip_zone t) = false -> r = None) /\
    forall s, r = Some s ->
      0 <= pretax_minor s /\ 0 <= tax_minor s /\ 0 <= fee_minor s /\
      pretax_minor s + tax_minor s + fee_minor s = gross.
Proof.
  intros Hcur%exponent_supported Hg Hd Hcards Hzone. unfold settlement_split.
  destruct (is_additive (trip_zone t)); cbn [negb]; [|by eexists].
  set (stored := match si_stored i with Some _ => _ | None => _ end).
  destruct stored as [s|] eqn:E.
  { eexists; split; [done|]. split; [done|]. intros s' [= <-]. unfold stored in E.
    destruct (si_stored i) as [[pr fee]|]; [|done]. destruct (_ && _) eqn:B; [|done].
    simplify_eq. bool_cases. cbn. lia. }
  destruct (additive_context_ok (si_zones i) (si_cards i) (si_now i) (trip_zone t) (trip_vehicle_type t))
    as (r & -> & Hr); [done..|]. cbn [res_bind].
  destruct r as [[p f]|]; [|by eexists]. destruct (Hr p f eq_refl) as (Hp & m & Hm & ->).
  rewrite to_minor_dec2 by (done || (unfold prec; lia)). cbn [res_bind].
  destruct (Z.leb_spec (gross - Z.min m gross) (si_discount i)).
  { eexists; split; [done|]. split; [done|]. intros s [= <-]. cbn. lia. }
  rewrite (proj1 (from_minor_Z_spec (gross - Z.min m gross - si_discount i) currency 2 ltac:(unfold prec; lia) Hcur)). cbn [res_bind].
  change (- (2)) with (-2).
  destruct (split_nofee currency Hcur p Hp (gross - Z.min m gross - si_discount i) ltac:(lia)) as (a & Ha & ->).
  cbn [res_bind]. rewrite !to_minor_dec2 by (done || (unfold prec; lia)). cbn [res_bind].
  eexists; split; [done|]. split; [done|]. intros s [= <-]. cbn. lia.
Qed.

(** * Properties *)

(** Splitting a quoted total gives the quote back: whatever fare [x], percentage [p] and
    fee [f] the quote was made of, the split of [x + tax + fee] is exactly fare, tax and fee,
    where the tax is the one the quote computed, rounded half up.  So the bounded search of
    the code always finds its answer. *)
Theorem split_inverts_quote (c : option string) (p : dec) (x f : Z) :
  is_supported c = true -> pct_ok p -> 0 <= x < 10 ^ 12 -> 0 <= f < 10 ^ 12 ->
  exists tax, 0 <= tax /\
    (let* t := percent_of (Dec x (-2)) p HUNDRED in quantize_dec t c) = Ok (Dec tax (-2)) /\
    split_additive (Dec (x + tax + f) (-2)) p (Dec f (-2)) c = Ok (Dec x (-2), Dec tax (-2), Dec f (-2)).
Proof.
  intros Hc%exponent_supported Hp Hx Hf. exists (tax_on p x).
  pose proof (tax_on_bound p Hp x ltac:(lia)).
  split; [by apply tax_on_nonneg; [|lia]|]. split.
  - by apply taxed_quantize; [..|unfold amount_ok; lia].
  - by apply split_spec; [..|lia|lia|lia].
Qed.

Lemma split_inverts_quote_witness :
  exists tax, 0 <= tax /\
    (let* t := percent_of (Dec 1849 (-2)) (Dec 8875 (-3)) HUNDRED in quantize_dec t (Some "USD"%string))
      = Ok (Dec tax (-2)) /\
    split_additive (Dec (1849 + tax + 275) (-2)) (Dec 8875 (-3)) (Dec 275 (-2)) (Some "USD"%string)
      = Ok (Dec 1849 (-2), Dec tax (-2), Dec 275 (-2)).
Proof.
  apply (split_inverts_quote (Some "USD"%string) (Dec 8875 (-3)) 1849 275);
    [vm_compute; reflexivity | split; cbn; lia | lia | lia].
Defined.

(** What settlement splits it splits exactly: it never fails, and when it answers, fare,
    tax and fee are not negative and add up to the trip's whole charge, whether the split was
    stored at booking or worked out from the rate card; an inclusive-tax zone is never split. *)
Theorem settlement_split_exact (i : SplitInput) (t : Trip) (gross : Z) (currency : option string) :
  is_supported currency = true -> 0 <= gross < 10 ^ 18 -> 0 <= si_discount i ->
  cards_ok (si_cards i) -> (forall z, trip_zone t = Some z -> zone_ok z) ->
  exists r, settlement_split i t gross currency = Ok r /\
    (is_additive (trip_zone t) = false -> r = None) /\
    forall s, r = Some s ->
      0 <= pretax_minor s /\ 0 <= tax_minor s /\ 0 <= fee_minor s /\
      pretax_minor s + tax_minor s + fee_minor s = gross.
Proof. apply settlement_split_sums. Qed.

Definition us_zone : Zone := {|
  zone_id := 2; zone_code := "US-NY-NYC"; zone_country := "us"; zone_parent := None;
  zone_priority := 10; zone_currency := "USD"; zone_distance_unit := "mi";
  zone_tax_mode := "additive"; zone_per_trip_fee := Dec 275 (-2); zone_fee_label := "NYC fee";
  zone_geo_node := None; zone_is_active := true |}.

Definition us_card : RateCard := {|
  card_zone := 2; card_vehicle_type := 7; base_fare := Dec 300 (-2); per_km_fare := Dec 150 (-2);
  per_min_fare := Dec 50 (-2); min_fare := Dec 800 (-2); night_surge_multiplier := Dec 125 (-2);
  night_surge_start_hour := 23; night_surge_end_hour := 5; surge_cap_multiplier := Dec 200 (-2);
  gst_percent := Dec 888 (-2); effective_from := 0; effective_to := None; card_version := 1;
  card_is_active := true |}.

Definition us_trip : Trip := {|
  trip_id := 82; trip_rider := 5; trip_driver := Some 9; trip_zone := Some us_zone;
  trip_pickup := (0%Q, 0%Q); trip_vehicle_type := Some 7; trip_vehicle_vt := None;
  trip_requested_at := 10; trip_currency := "USD"; estimated_fare_minor := Some 2288;
  final_fare_minor := None; payment_method := Some Cash; end_rule := EmptyString;
  commission_percent_snapshot := None; commission_rule_id := None; commission_rule_version := None |}.

Definition us_input : SplitInput := {|
  si_zones := <[2 := us_zone]> ∅; si_cards := [us_card]; si_now := 10; si_stored := None; si_discount := 500 |}.

Lemma settlement_split_exact_witness :
  settlement_split us_input us_trip 2288 (Some "USD"%string)
    = Ok (Some {| pretax_minor := 1890; tax_minor := 123; fee_minor := 275 |}) /\
  exists r, settlement_split us_input us_trip 2288 (Some "USD"%string) = Ok r /\
    (is_additive (trip_zone us_trip) = false -> r = None) /\
    forall s, r = Some s ->
      0 <= pretax_minor s /\ 0 <= tax_minor s /\ 0 <= fee_minor s /\
      pretax_minor s + tax_minor s + fee_minor s = 2288.
Proof.
  split; [vm_compute; reflexivity|].
  apply (settlement_split_exact us_input us_trip 2288 (Some "USD"%string)).
  - vm_compute; reflexivity.
  - lia.
  - cbn. lia.
  - intros c [->|H]%elem_of_cons; [split; cbn; lia|by apply not_elem_of_nil in H].
  - intros z [= <-]. split; [cbn; lia|right; vm_compute; reflexivity].
Defined.
