(* ===== verification/Alerts.v ===== *)
(** * Alerts: the Command Centre's alerts and threshold sweep

    Models [servers/command_centre/services.py] (raise, clear, acknowledge),
    [metrics.py] (the catalogue and [level_for]) and [thresholds.py] (versioned
    thresholds, validation, the sweep of one threshold).  The alert table is a list in
    creation order; primary keys are handed out by [alert_next]. *)

From S2P Require Import Prelude PyDecimal PyText Countries Models Money.
#[local] Open Scope Z_scope.

(** ** Alerts *)

Inductive severity := INFO | WARNING | CRITICAL.

#[global] Instance severity_eq_dec : EqDecision severity.
Proof. solve_decision. Defined.

Definition SEVERITY_ORDER (s : severity) : Z :=
  match s with INFO => 0 | WARNING => 1 | CRITICAL => 2 end.

(** [OperatorAlert]; an alert is open while [acknowledged_at] is null. *)
Record Alert := {
  alert_id : Z;
  alert_kind : string;
  alert_severity : severity;
  alert_title : string;
  alert_payload : gmap string string;
  alert_source_type : string;
  alert_source_id : string;
  acknowledged_at : option Z;
  acknowledged_by : option Z;
  acknowledged_note : string
}.

Record AlertTable := { alerts : list Alert; alert_next : Z }.

Definition is_open (a : Alert) : bool := bool_decide (acknowledged_at a = None).

(** What an alert says of its place: the node's kind and whether its status is active. *)
Record Place := { place_kind : node_kind; place_active : bool }.

Definition SAFETY_COVERAGE_GAP : string := "safety_coverage_gap".
Definition FRAUD_QUEUE_AGING : string := "fraud.queue_aging".

(** ** The metric catalogue *)

Inductive direction := ABOVE | BELOW.

Record Metric := {
  metric_key : string;
  metric_direction : direction;
  default_window : string;
  min_sample : Z
}.

Definition is_rate (m : Metric) : bool := negb (bool_decide (default_window m = "now"%string)).

Definition metric_kind (m : Metric) : string := ("threshold_" +:+ metric_key m)%string.

Definition METRICS : list Metric := [
  {| metric_key := "unfulfilled_rate"; metric_direction := ABOVE; default_window := "24h"; min_sample := 5 |};
  {| metric_key := "acceptance_rate"; metric_direction := BELOW; default_window := "24h"; min_sample := 5 |};
  {| metric_key := "avg_eta_minutes"; metric_direction := ABOVE; default_window := "24h"; min_sample := 5 |};
  {| metric_key := "sos_open"; metric_direction := ABOVE; default_window := "now"; min_sample := 0 |};
  {| metric_key := "sos_unacknowledged"; metric_direction := ABOVE; default_window := "now"; min_sample := 0 |};
  {| metric_key := "withdrawal_pending"; metric_direction := ABOVE; default_window := "now"; min_sample := 0 |}].

Definition metric_for (key : string) : option Metric :=
  List.find (fun m => bool_decide (metric_key m = key)) METRICS.

Definition THRESHOLD_KINDS : list string := metric_kind <$> METRICS.

(** ** Raising *)

Definition live_city_only (kind : string) : bool :=
  bool_decide (kind ∈ THRESHOLD_KINDS) || bool_decide (kind = SAFETY_COVERAGE_GAP)
  || bool_decide (kind = FRAUD_QUEUE_AGING).

Definition city_is_live (city : option Place) (kind : string) : bool :=
  if negb (live_city_only kind) then true
  else match city with
       | None => true
       | Some c => if negb (bool_decide (place_kind c = KCity)) then true else place_active c
       end.

Definition open_for (st sid : string) (a : Alert) : bool :=
  bool_decide (alert_source_type a = st) && bool_decide (alert_source_id a = sid) && is_open a.

(** [.filter(...).first()] under the table's ordering, newest first. *)
Definition find_open (t : AlertTable) (st sid : string) : option Alert :=
  List.find (open_for st sid) (reverse (alerts t)).

Definition update_alert (t : AlertTable) (i : Z) (f : Alert -> Alert) : AlertTable :=
  {| alerts := (fun a => if alert_id a =? i then f a else a) <$> alerts t; alert_next := alert_next t |}.

Definition truncated (n : nat) (s : string) : string := String.substring 0 n s.

Definition worsen (kind : string) (sev : severity) (title : string) (payload : gmap string string)
    (a : Alert) : Alert :=
  {| alert_id := alert_id a; alert_kind := kind; alert_severity := sev; alert_title := truncated 200 title;
     alert_payload := payload ∪ alert_payload a; alert_source_type := alert_source_type a;
     alert_source_id := alert_source_id a; acknowledged_at := acknowledged_at a;
     acknowledged_by := acknowledged_by a; acknowledged_note := acknowledged_note a |}.

Definition create_alert (t : AlertTable) (kind : string) (sev : severity) (title : string)
    (payload : gmap string string) (st sid : string) : AlertTable :=
  {| alerts := alerts t ++ [{|
       alert_id := alert_next t; alert_kind := kind; alert_severity := sev;
       alert_title := truncated 200 title; alert_payload := payload; alert_source_type := st;
       alert_source_id := sid; acknowledged_at := None; acknowledged_by := None;
       acknowledged_note := EmptyString |}];
     alert_next := alert_next t + 1 |}.

(** [raise_alert]: the alert's key and the table; no key when a city that is not live stays silent. *)
Definition raise_alert (t : AlertTable) (kind : string) (title : string) (sev : severity)
    (payload : gmap string string) (st sid : string) (city : option Place) : option Z * AlertTable :=
  if negb (city_is_live city kind) then (None, t)
  else
    let existing := if truthy (Some st) && truthy (Some sid) then find_open t st sid else None in
    match existing with
    | Some a =>
      if SEVERITY_ORDER (alert_severity a) <? SEVERITY_ORDER sev
      then (Some (alert_id a), update_alert t (alert_id a) (worsen kind sev title payload))
      else (Some (alert_id a), t)
    | None => (Some (alert_next t), create_alert t kind sev title payload st sid)
    end.

(** [acknowledge], and the conditional [UPDATE] of the sweep and of the unsettled-trip clearance. *)
Definition close_alert (by_ : option Z) (note : string) (now : Z) (a : Alert) : Alert :=
  {| alert_id := alert_id a; alert_kind := alert_kind a; alert_severity := alert_severity a;
     alert_title := alert_title a; alert_payload := alert_payload a;
     alert_source_type := alert_source_type a; alert_source_id := alert_source_id a;
     acknowledged_at := Some now; acknowledged_by := by_; acknowledged_note := truncated 10000 note |}.

Definition acknowledge (t : AlertTable) (i : Z) (by_ : option Z) (note : string) (now : Z)
    : bool * AlertTable :=
  match List.find (fun a => (alert_id a =? i) && is_open a) (alerts t) with
  | None => (false, t)
  | Some _ => (true, update_alert t i (close_alert by_ note now))
  end.

Definition clear_alerts (t : AlertTable) (st sid note : string) (kinds : list string) (now : Z)
    : Z * AlertTable :=
  foldl (fun '(n, t) a =>
           let '(ok, t) := acknowledge t (alert_id a) None note now in (if ok then n + 1 else n, t))
    (0, t)
    (List.filter (fun a => open_for st sid a &&
                    (bool_decide (kinds = []) || bool_decide (alert_kind a ∈ kinds))) (alerts t)).

(** ** Levels *)

Definition crossed (d : direction) (value : dec) (line : option dec) : bool :=
  match line with
  | None => false
  | Some l => match d with ABOVE => dltb l value | BELOW => dltb value l end
  end.

Definition level_for (m : Metric) (value warn critical : option dec) : option severity :=
  match value with
  | None => None
  | Some v =>
    if crossed (metric_direction m) v critical then Some CRITICAL
    else if crossed (metric_direction m) v warn then Some WARNING else None
  end.

(** ** Versioned thresholds *)

(** [AlertThreshold], for one table of all cities; a null line is [None]. *)
Record Threshold := {
  th_id : Z;
  th_city : Z;
  th_metric : string;
  warn_value : option dec;
  critical_value : option dec;
  th_window : string;
  th_active : bool;
  th_version : Z;
  valid_from : Z;
  valid_to : option Z
}.

Inductive threshold_error :=
| UNKNOWN_METRIC | INVALID_WINDOW | NO_LINE | LINES_INVERTED | NOT_A_NUMBER | NEGATIVE
| DecimalTrap (e : dec_error) | ThresholdIntegrity.

Definition RATE_WINDOWS : list string := ["today"; "24h"; "7d"]%string.

(** Texts [Decimal()] reads as a value that is not finite: the sign and whether it is a NaN. *)
Definition nonfinite_text (s : string) : option (bool * bool) :=
  let '(sg, body) := take_sign (chars (strip (upper s))) in
  let nan (l : list Ascii.ascii) : bool :=
    bool_decide (take 3 l = chars "NAN") && forallb is_digit (drop 3 l) in
  if bool_decide (body = chars "INF") || bool_decide (body = chars "INFINITY") then Some (sg <? 0, false)
  else if nan body || (bool_decide (take 1 body = chars "S") && nan (drop 1 body)) then Some (sg <? 0, true)
  else None.

(** [_decimal_or_none]: what arrives is JSON, so null, a boolean, a number or a text. *)
Definition decimal_or_none (value : pynum) : res threshold_error (option dec) :=
  let number (o : option dec) : res threshold_error (option dec) :=
    match o with
    | None => match value with
              | PyStr s | PyFloat s =>
                match nonfinite_text s with
                | Some (neg, nan) => if neg && negb nan then Err NEGATIVE else Err (DecimalTrap InvalidOperation)
                | None => Err NOT_A_NUMBER
                end
              | _ => Err NOT_A_NUMBER
              end
    | Some d => if dltb d (of_Z 0) then Err NEGATIVE
                else let* q := map_err DecimalTrap (quantize_half_even (-2) d) in Ok (Some q)
    end in
  match value with
  | PyNone => Ok None
  | PyStr s => if bool_decide (s = EmptyString) then Ok None else number (parse_decimal s)
  | PyBool _ => Err NOT_A_NUMBER
  | PyFloat s => number (parse_decimal s)
  | PyInt z => number (Some (of_Z z))
  | PyDec d => number (Some d)
  | PyDecNotFinite => Err (DecimalTrap InvalidOperation)
  | PyOther => Err NOT_A_NUMBER
  end.

Definition validate_fields (key : string) (warn critical : pynum) (window : option string)
    : res threshold_error (Metric * option dec * option dec * string) :=
  let* metric := res_opt UNKNOWN_METRIC (metric_for key) in
  let w := strip (default EmptyString window) in
  let window := if bool_decide (w = EmptyString) then default_window metric else w in
  let* _ := require (negb (is_rate metric && negb (bool_decide (window ∈ RATE_WINDOWS)))) INVALID_WINDOW in
  let* _ := require (negb (negb (is_rate metric) && negb (bool_decide (window = "now"%string)))) INVALID_WINDOW in
  let* warn := decimal_or_none warn in
  let* critical := decimal_or_none critical in
  match warn, critical with
  | None, None => Err NO_LINE
  | Some w, Some c =>
    let beyond := match metric_direction metric with ABOVE => dltb w c | BELOW => dltb c w end in
    if beyond then Ok (metric, warn, critical, window) else Err LINES_INVERTED
  | _, _ => Ok (metric, warn, critical, window)
  end.

Definition for_key (city : Z) (metric : string) (t : Threshold) : bool :=
  (th_city t =? city) && bool_decide (th_metric t = metric).

Definition active_threshold (rows : list Threshold) (city : Z) (metric : string) : option Threshold :=
  List.find (fun t => for_key city metric t && th_active t) rows.

Definition latest_version (rows : list Threshold) (city : Z) (metric : string) : Z :=
  foldr Z.max 0 (th_version <$> List.filter (for_key city metric) rows).

Definition close_threshold (now : Z) (t : Threshold) : Threshold :=
  {| th_id := th_id t; th_city := th_city t; th_metric := th_metric t; warn_value := warn_value t;
     critical_value := critical_value t; th_window := th_window t; th_active := false;
     th_version := th_version t; valid_from := valid_from t; valid_to := Some now |}.

(** [write_threshold_version]: the rows afterwards and the row written, whose key is [fresh]. *)
Definition write_threshold_version (rows : list Threshold) (fresh city : Z) (metric : string)
    (warn critical : pynum) (window : option string) (now : Z)
    : res threshold_error (list Threshold * Threshold) :=
  let* (_, warn, critical, window) := validate_fields metric warn critical window in
  let current := active_threshold rows city metric in
  let latest := latest_version rows city metric in
  let rows := match current with
    | Some c => (fun t => if th_id t =? th_id c then close_threshold now t else t) <$> rows
    | None => rows
    end in
  let row := {| th_id := fresh; th_city := city; th_metric := metric; warn_value := warn;
                critical_value := critical; th_window := window; th_active := true;
                th_version := latest + 1; valid_from := now; valid_to := None |} in
  Ok (rows ++ [row], row).

(** ** The sweep *)

(** A measured row of [overview.measure]: each metric's value and the requests of its window. *)
Record Measured := {
  m_unfulfilled_rate : option dec; m_acceptance_rate : option dec; m_avg_eta_minutes : option dec;
  m_sos_open : option dec; m_sos_oldest : option dec; m_withdrawals_oldest : option dec;
  m_requested : Z
}.

Definition current_value (key : string) (row : Measured) : option (option dec * option Z) :=
  if bool_decide (key = "unfulfilled_rate"%string) then Some (m_unfulfilled_rate row, Some (m_requested row))
  else if bool_decide (key = "acceptance_rate"%string) then Some (m_acceptance_rate row, Some (m_requested row))
  else if bool_decide (key = "avg_eta_minutes"%string) then Some (m_avg_eta_minutes row, Some (m_requested row))
  else if bool_decide (key = "sos_open"%string) then Some (m_sos_open row, None)
  else if bool_decide (key = "sos_unacknowledged"%string) then Some (m_sos_oldest row, None)
  else if bool_decide (key = "withdrawal_pending"%string) then Some (m_withdrawals_oldest row, None)
  else None.

Inductive outcome := Raised | Escalated | Cleared | Kept | Quiet.

#[global] Instance outcome_eq_dec : EqDecision outcome.
Proof. solve_decision. Defined.

(** The level the sweep acts on: a rate over too few requests has none. *)
Definition swept_level (m : Metric) (t : Threshold) (value : option dec) (sample : option Z) : option severity :=
  match level_for m value (warn_value t) (critical_value t) with
  | None => None
  | Some l => match sample with
              | Some n => if n <? min_sample m then None else Some l
              | None => Some l
              end
  end.

Definition THRESHOLD_SOURCE : string := "alert_threshold".

Definition rewrite_alert (sev : option severity) (title : option string) (payload : gmap string string)
    (a : Alert) : Alert :=
  {| alert_id := alert_id a; alert_kind := alert_kind a; alert_severity := default (alert_severity a) sev;
     alert_title := default (alert_title a) title; alert_payload := payload;
     alert_source_type := alert_source_type a; alert_source_id := alert_source_id a;
     acknowledged_at := acknowledged_at a; acknowledged_by := acknowledged_by a;
     acknowledged_note := acknowledged_note a |}.

(** [evaluate_threshold]; the title and payload texts are built by the caller, [None] is an
    unknown metric, which raises. *)
Definition evaluate_threshold (t : AlertTable) (th : Threshold) (city_code : string) (city : option Place)
    (row : Measured) (title : string) (payload : gmap string string) (note : string) (now : Z)
    : option (outcome * AlertTable) :=
  metric ← metric_for (th_metric th);
  '(value, sample) ← current_value (metric_key metric) row;
  let level := swept_level metric th value sample in
  let source_id := (city_code +:+ ":" +:+ metric_key metric)%string in
  let existing := find_open t THRESHOLD_SOURCE source_id in
  match level with
  | None =>
    match existing with
    | None => Some (Quiet, t)
    | Some a => let '(ok, t) := acknowledge t (alert_id a) None note now in
                Some (if ok then Cleared else Kept, t)
    end
  | Some sev =>
    match existing with
    | None => Some (Raised, (raise_alert t (metric_kind metric) title sev payload THRESHOLD_SOURCE source_id city).2)
    | Some a =>
      if negb (bool_decide (alert_severity a = sev))
      then Some (Escalated, update_alert t (alert_id a) (rewrite_alert (Some sev) (Some (truncated 200 title)) payload))
      else Some (Kept, update_alert t (alert_id a) (rewrite_alert None None payload))
    end
  end.
(** ** Lemmas *)

Lemma filter_fmap_le {A : Type} (P : A -> bool) (f : A -> A) (l : list A) :
  (forall a, P (f a) = true -> P a = true) ->
  (length (List.filter P (f <$> l)) <= length (List.filter P l))%nat.
Proof.
  intros H. induction l as [|a l IH]; [done|]. rewrite fmap_cons. cbn [List.filter].
  specialize (H a). destruct (P (f a)); [rewrite H by done; cbn; lia|]. destruct (P a); cbn; lia.
Qed.

Lemma find_fmap_inv {A : Type} (P : A -> bool) (f : A -> A) (l : list A) :
  (forall a, P (f a) = P a) -> List.find P (f <$> l) = f <$> List.find P l.
Proof.
  intros H. induction l as [|a l IH]; [done|]. rewrite fmap_cons. cbn [List.find]. rewrite H.
  by destruct (P a).
Qed.

Lemma find_none_iff {A : Type} (P : A -> bool) (l : list A) :
  List.find P l = None <-> forall a, a ∈ l -> P a = false.
Proof.
  split.
  - intros H a Ha%list_elem_of_In. by apply (find_none P l H a).
  - intros H. destruct (List.find P l) as [a|] eqn:E; [|done].
    apply find_some in E as [Ha%list_elem_of_In HP]. by rewrite (H a Ha) in HP.
Qed.

Lemma filter_two {A : Type} (P : A -> bool) (l : list A) (a b : A) :
  a ∈ l -> b ∈ l -> P a = true -> P b = true -> a <> b -> (2 <= length (List.filter P l))%nat.
Proof.
  intros Ha Hb Pa Pb Hne.
  assert (a ∈ List.filter P l) as Ha' by by apply elem_of_filter_b.
  assert (b ∈ List.filter P l) as Hb' by by apply elem_of_filter_b.
  destruct (List.filter P l) as [|x [|y r]]; [by apply not_elem_of_nil in Ha'| |cbn; lia].
  apply list_elem_of_singleton in Ha', Hb'. congruence.
Qed.

(** At most one open alert per event, and fresh keys. *)
Definition one_open (t : AlertTable) : Prop :=
  forall st sid, st <> EmptyString -> sid <> EmptyString ->
    (length (List.filter (open_for st sid) (alerts t)) <= 1)%nat.

Definition keys_ok (t : AlertTable) : Prop :=
  base.NoDup (alert_id <$> alerts t) /\ forall a, a ∈ alerts t -> alert_id a < alert_next t.

Lemma keys_unique (t : AlertTable) (a b : Alert) : keys_ok t -> a ∈ alerts t -> b ∈ alerts t -> alert_id a = alert_id b -> a = b.
Proof.
  intros [Hn _] [i Hi]%list_elem_of_lookup_1 [j Hj]%list_elem_of_lookup_1 E.
  assert (Li : (alert_id <$> alerts t) !! i = Some (alert_id b)) by (by rewrite list_lookup_fmap, Hi; cbn; rewrite E).
  assert (Lj : (alert_id <$> alerts t) !! j = Some (alert_id b)) by (by rewrite list_lookup_fmap, Hj).
  pose proof (NoDup_lookup _ _ _ _ Hn Li Lj). congruence.
Qed.

(** What a change of one alert may do: keep its key and event, and not reopen it. *)
Definition gentle (f : Alert -> Alert) : Prop := forall a,
  alert_id (f a) = alert_id a /\ alert_source_type (f a) = alert_source_type a /\
  alert_source_id (f a) = alert_source_id a /\ (is_open (f a) = true -> is_open a = true).

Lemma gentle_worsen (k : string) (s : severity) (ti : string) (p : gmap string string) : gentle (worsen k s ti p).
Proof. by intros []. Qed.
Lemma gentle_close (b : option Z) (n : string) (now : Z) : gentle (close_alert b n now).
Proof. by intros []. Qed.
Lemma gentle_rewrite (s : option severity) (ti : option string) (p : gmap string string) : gentle (rewrite_alert s ti p).
Proof. by intros []. Qed.
#[export] Hint Resolve gentle_worsen gentle_close gentle_rewrite : sgo.

Lemma open_for_iff (st sid : string) (a : Alert) :
  open_for st sid a = true <-> alert_source_type a = st /\ alert_source_id a = sid /\ is_open a = true.
Proof. unfold open_for. rewrite !andb_true_iff, !bool_decide_eq_true. tauto. Qed.

Lemma gentle_open_for (f : Alert -> Alert) (st sid : string) (a : Alert) :
  gentle f -> open_for st sid (f a) = true -> open_for st sid a = true.
Proof. intros H. destruct (H a) as (_ & H1 & H2 & H3). rewrite !open_for_iff, H1, H2. tauto. Qed.

Definition table_ok (t : AlertTable) : Prop := one_open t /\ keys_ok t.

Lemma update_alert_ok (t : AlertTable) (i : Z) (f : Alert -> Alert) :
  gentle f -> table_ok t -> table_ok (update_alert t i f).
Proof.
  intros Hf [Ho [Hn Hk]]. split; [|split].
  - intros st sid Hst Hsid. etrans; [|exact (Ho st sid Hst Hsid)]. apply filter_fmap_le.
    intros a. destruct (alert_id a =? i); [by apply gentle_open_for|done].
  - cbn [alerts update_alert]. rewrite <- list_fmap_compose. erewrite list_fmap_ext; [exact Hn|].
    intros k a _. cbn. destruct (alert_id a =? i); [|done]. apply Hf.
  - cbn [alerts alert_next update_alert]. intros b (a & -> & Ha)%list_elem_of_fmap.
    specialize (Hk a Ha). destruct (alert_id a =? i); [|done]. by destruct (Hf a) as [-> _].
Qed.

Lemma create_alert_ok (t : AlertTable) (k : string) (s : severity) (ti : string) (p : gmap string string) (st sid : string) :
  table_ok t -> (st <> EmptyString -> sid <> EmptyString -> find_open t st sid = None) ->
  table_ok (create_alert t k s ti p st sid).
Proof.
  intros [Ho [Hn Hk]] Hnone. split; [|split].
  - intros st' sid' Hst Hsid. cbn [alerts create_alert]. rewrite List.filter_app, length_app. cbn [List.filter].
    specialize (Ho st' sid' Hst Hsid). destruct (open_for st' sid' _) eqn:E; cbn [length]; [|lia].
    apply open_for_iff in E as (<- & <- & _). cbn [alert_source_type alert_source_id] in *.
    specialize (Hnone Hst Hsid). unfold find_open in Hnone. rewrite find_none_iff in Hnone.
    destruct (List.filter _ _) as [|a r] eqn:F; [cbn; lia|]. exfalso.
    assert (a ∈ List.filter (open_for st sid) (alerts t)) as Ha by (rewrite F; set_solver).
    apply elem_of_filter_b in Ha as [Ha Hop]. rewrite Hnone in Hop; [done|]. by apply elem_of_reverse.
  - cbn [alerts create_alert]. rewrite fmap_app. apply NoDup_app. split; [done|]. split; [|apply NoDup_singleton].
    intros x (a & -> & Ha)%list_elem_of_fmap Hx. apply list_elem_of_singleton in Hx. cbn in Hx.
    specialize (Hk a Ha). lia.
  - cbn [alerts alert_next create_alert]. intros a [Ha|Ha%list_elem_of_singleton]%elem_of_app.
    + specialize (Hk a Ha). lia.
    + subst a. cbn. lia.
Qed.

Lemma truthy_iff (s : string) : truthy (Some s) = true <-> s <> EmptyString.
Proof. unfold truthy. rewrite negb_true_iff, bool_decide_eq_false. done. Qed.

Lemma raise_alert_ok (t : AlertTable) (k ti : string) (s : severity) (p : gmap string string) (st sid : string) (c : option Place) :
  table_ok t -> table_ok (raise_alert t k ti s p st sid c).2.
Proof.
  intros H. unfold raise_alert. destruct (city_is_live c k); cbn [negb]; [|done].
  destruct (truthy (Some st) && truthy (Some sid)) eqn:E.
  - destruct (find_open t st sid) as [a|] eqn:F.
    + destruct (_ <? _); cbn [snd]; [apply update_alert_ok; auto with sgo|done].
    + by apply create_alert_ok.
  - apply create_alert_ok; [done|]. intros H1%truthy_iff H2%truthy_iff. by rewrite H1, H2 in E.
Qed.

Lemma acknowledge_ok (t : AlertTable) (i : Z) (b : option Z) (n : string) (now : Z) :
  table_ok t -> table_ok (acknowledge t i b n now).2.
Proof.
  intros H. unfold acknowledge. destruct (List.find _ _); cbn [snd]; [|done].
  apply update_alert_ok; auto with sgo.
Qed.

Lemma clear_alerts_ok (t : AlertTable) (st sid note : string) (kinds : list string) (now : Z) :
  table_ok t -> table_ok (clear_alerts t st sid note kinds now).2.
Proof.
  unfold clear_alerts. generalize (List.filter (fun a => open_for st sid a &&
    (bool_decide (kinds = []) || bool_decide (alert_kind a ∈ kinds))) (alerts t)) as l.
  generalize 0 as n. intros n l. revert n t. induction l as [|a l IH]; intros n t H; [done|]. cbn [foldl].
  pose proof (acknowledge_ok t (alert_id a) None note now H) as H'.
  destruct (acknowledge _ _ _ _ _) as [ok t']. by apply IH.
Qed.

Lemma evaluate_threshold_ok (t t' : AlertTable) (th : Threshold) (code : string) (c : option Place) (row : Measured)
    (ti : string) (p : gmap string string) (note : string) (now : Z) (o : outcome) :
  table_ok t -> evaluate_threshold t th code c row ti p note now = Some (o, t') -> table_ok t'.
Proof.
  intros H. unfold evaluate_threshold. intros (m & _ & ((v & n) & _ & E)%bind_Some)%bind_Some.
  destruct (swept_level _ _ _ _) as [sev|]; destruct (find_open _ _ _) as [a|].
  - destruct (negb _); simplify_eq; apply update_alert_ok; auto with sgo.
  - simplify_eq. by apply raise_alert_ok.
  - pose proof (acknowledge_ok t (alert_id a) None note now H) as H'.
    destruct (acknowledge _ _ _ _ _) as [ok t'']. by simplify_eq.
  - by simplify_eq.
Qed.

(** What can happen to the alert table. *)
Inductive alert_step : AlertTable -> AlertTable -> Prop :=
| step_raise t k ti s p st sid c : alert_step t (raise_alert t k ti s p st sid c).2
| step_ack t i b n now : alert_step t (acknowledge t i b n now).2
| step_clear t st sid n ks now : alert_step t (clear_alerts t st sid n ks now).2
| step_sweep t th code c row ti p n now o t' :
    evaluate_threshold t th code c row ti p n now = Some (o, t') -> alert_step t t'.

Definition no_alerts : AlertTable := {| alerts := []; alert_next := 1 |}.

Lemma alert_step_ok (t t' : AlertTable) : alert_step t t' -> table_ok t -> table_ok t'.
Proof.
  intros Hs Hok. destruct Hs; eauto using raise_alert_ok, acknowledge_ok, clear_alerts_ok, evaluate_threshold_ok.
Qed.

Lemma reachable_ok (t : AlertTable) : rtc alert_step no_alerts t -> table_ok t.
Proof.
  intros Hr. remember no_alerts as t0 eqn:E.
  assert (table_ok t0) as H0.
  { subst t0. split; [by intros st sid _ _; cbn; lia|]. split; [by apply NoDup_nil|]. cbn. set_solver. }
  clear E. induction Hr; eauto using alert_step_ok.
Qed.

Lemma find_open_update (t : AlertTable) (st sid : string) (a : Alert) (f : Alert -> Alert) :
  keys_ok t -> find_open t st sid = Some a -> gentle f -> (is_open (f a) = true) ->
  find_open (update_alert t (alert_id a) f) st sid = Some (f a).
Proof.
  intros [Hn _] Hf Hg Ho. unfold find_open, update_alert in *. cbn [alerts].
  pose proof (find_some _ _ Hf) as [Ha%list_elem_of_In Hopen]. rewrite elem_of_reverse in Ha.
  set (g := fun x => if alert_id x =? alert_id a then f x else x).
  assert (forall x, x ∈ alerts t -> alert_id x = alert_id a -> x = a) as Huniq.
  { intros x Hx E. apply list_elem_of_lookup_1 in Hx as [i Hi], Ha as [j Hj].
    assert ((alert_id <$> alerts t) !! i = Some (alert_id a)) as Li by (by rewrite list_lookup_fmap, Hi; cbn; rewrite E).
    assert ((alert_id <$> alerts t) !! j = Some (alert_id a)) as Lj by (by rewrite list_lookup_fmap, Hj).
    pose proof (NoDup_lookup _ _ _ _ Hn Li Lj). congruence. }
  assert (forall x, x ∈ alerts t -> open_for st sid (g x) = open_for st sid x) as Hg'.
  { intros x Hx. unfold g. destruct (alert_id x =? alert_id a) eqn:E; [|done]. bool_cases.
    rewrite (Huniq x Hx E), Hopen. apply open_for_iff. apply open_for_iff in Hopen as (<- & <- & _).
    destruct (Hg a) as (_ & -> & -> & _). done. }
  replace (Some (f a)) with (g <$> Some a) by (unfold g; cbn; by rewrite Z.eqb_refl).
  rewrite <- Hf, <- fmap_reverse. clear -Hg'.
  assert (forall x, x ∈ reverse (alerts t) -> open_for st sid (g x) = open_for st sid x) as H
    by (intros x Hx; apply Hg'; by apply elem_of_reverse). clear Hg'.
  revert H. generalize (reverse (alerts t)) as l. induction l as [|x l IH]; intros H; [done|].
  rewrite fmap_cons. cbn [List.find]. rewrite H by set_solver. destruct (open_for st sid x); [done|].
  apply IH. set_solver.
Qed.

Lemma find_open_close (t : AlertTable) (st sid : string) (a : Alert) (b : option Z) (n : string) (now : Z) :
  table_ok t -> st <> EmptyString -> sid <> EmptyString -> find_open t st sid = Some a ->
  find_open (update_alert t (alert_id a) (close_alert b n now)) st sid = None.
Proof.
  intros [Ho _] Hst Hsid Hf. unfold find_open in Hf. apply find_some in Hf as [Ha%list_elem_of_In Hopen].
  rewrite elem_of_reverse in Ha. unfold find_open. apply find_none_iff. intros x Hx. rewrite elem_of_reverse in Hx.
  cbn [alerts update_alert] in Hx. apply list_elem_of_fmap in Hx as (y & -> & Hy).
  destruct (alert_id y =? alert_id a) eqn:E.
  - unfold open_for. rewrite (bool_decide_false (acknowledged_at _ = None)) || idtac. cbn. by rewrite andb_false_r.
  - apply not_true_iff_false. intros Hopen'. bool_cases.
    pose proof (filter_two (open_for st sid) (alerts t) a y Ha Hy Hopen Hopen' ltac:(congruence)).
    specialize (Ho st sid Hst Hsid). lia.
Qed.

Lemma find_open_created (t : AlertTable) (k : string) (s : severity) (ti : string) (p : gmap string string) (st sid : string) :
  find_open (create_alert t k s ti p st sid) st sid = Some {|
       alert_id := alert_next t; alert_kind := k; alert_severity := s;
       alert_title := truncated 200 ti; alert_payload := p; alert_source_type := st;
       alert_source_id := sid; acknowledged_at := None; acknowledged_by := None;
       acknowledged_note := EmptyString |}.
Proof.
  unfold find_open. cbn [alerts create_alert]. rewrite reverse_app, reverse_singleton. cbn [app List.find].
  by rewrite (proj2 (open_for_iff st sid _)) by (split; [done|]; split; done).
Qed.

(** Raising leaves an open alert, at least as severe as what was raised and what was open. *)
Lemma raise_alert_open (t : AlertTable) (k ti : string) (s : severity) (p : gmap string string) (st sid : string) (c : option Place) :
  keys_ok t -> st <> EmptyString -> sid <> EmptyString -> city_is_live c k = true ->
  exists a, find_open (raise_alert t k ti s p st sid c).2 st sid = Some a /\
    SEVERITY_ORDER s <= SEVERITY_ORDER (alert_severity a) /\
    (raise_alert t k ti s p st sid c).1 = Some (alert_id a) /\
    forall old, find_open t st sid = Some old ->
      alert_id a = alert_id old /\ SEVERITY_ORDER (alert_severity old) <= SEVERITY_ORDER (alert_severity a).
Proof.
  intros Hk Hst Hsid Hlive. unfold raise_alert. rewrite Hlive. cbn [negb].
  rewrite (proj2 (truthy_iff st) Hst), (proj2 (truthy_iff sid) Hsid). cbn [andb].
  destruct (find_open t st sid) as [a|] eqn:F.
  + pose proof F as F'. unfold find_open in F'. destruct (find_some _ _ F') as [_ (_ & _ & Hop)%open_for_iff].
    destruct (Z.ltb_spec (SEVERITY_ORDER (alert_severity a)) (SEVERITY_ORDER s)); cbn [fst snd].
    * exists (worsen k s ti p a). rewrite find_open_update; [|done|done|auto with sgo|done].
      split; [done|]. split; [done|]. split; [done|]. intros old [= <-]. cbn. split; [done|lia].
    * exists a. split; [done|]. split; [lia|]. split; [done|]. intros old [= <-]. lia.
  + cbn [fst snd]. eexists. split.
    * apply find_open_created.
    * cbn. split; [lia|]. by split.
Qed.

Lemma source_id_nonempty (code key : string) : (code +:+ ":" +:+ key)%string <> EmptyString.
Proof. destruct code; done. Qed.

(** * Properties *)

(** One alert per event: however alerts are raised, acknowledged, cleared and swept, two
    open alerts never name the same event, and a second occurrence never makes the open
    alert less severe than either occurrence. *)
Theorem one_open_alert_per_event (t : AlertTable) :
  rtc alert_step no_alerts t ->
  (forall a b, a ∈ alerts t -> b ∈ alerts t -> is_open a = true -> is_open b = true ->
     alert_source_type a = alert_source_type b -> alert_source_id a = alert_source_id b ->
     alert_source_type a <> EmptyString -> alert_source_id a <> EmptyString -> a = b) /\
  (forall k ti s p st sid c, st <> EmptyString -> sid <> EmptyString -> city_is_live c k = true ->
     exists a, find_open (raise_alert t k ti s p st sid c).2 st sid = Some a /\
       SEVERITY_ORDER s <= SEVERITY_ORDER (alert_severity a) /\
       (raise_alert t k ti s p st sid c).1 = Some (alert_id a) /\
       forall old, find_open t st sid = Some old ->
         alert_id a = alert_id old /\ SEVERITY_ORDER (alert_severity old) <= SEVERITY_ORDER (alert_severity a)).
Proof.
  intros Hr. pose proof (reachable_ok t Hr) as Hok. pose proof Hok as [Ho Hk]. split.
  - intros a b Ha Hb Oa Ob E1 E2 N1 N2. destruct (decide (alert_id a = alert_id b)) as [E|N].
    + apply list_elem_of_lookup_1 in Ha as [i Hi], Hb as [j Hj].
      assert ((alert_id <$> alerts t) !! i = Some (alert_id b)) as Li by (by rewrite list_lookup_fmap, Hi; cbn; rewrite E).
      assert ((alert_id <$> alerts t) !! j = Some (alert_id b)) as Lj by (by rewrite list_lookup_fmap, Hj).
      destruct Hk as [Hn _]. pose proof (NoDup_lookup _ _ _ _ Hn Li Lj). congruence.
    + exfalso. specialize (Ho _ _ N1 N2).
      pose proof (filter_two (open_for (alert_source_type a) (alert_source_id a)) (alerts t) a b Ha Hb) as H2.
      rewrite !open_for_iff in H2. specialize (H2 ltac:(done) ltac:(done) ltac:(congruence)). lia.
  - intros k ti s p st sid c Hst Hsid Hlive. by apply raise_alert_open.
Qed.

Lemma one_open_alert_per_event_witness :
  let t := (raise_alert no_alerts "sos" "An SOS" WARNING ∅ "sos" "7" None).2 in
  rtc alert_step no_alerts t /\
  exists a, find_open (raise_alert t "sos" "Worse" CRITICAL ∅ "sos" "7" None).2 "sos" "7" = Some a /\
    SEVERITY_ORDER CRITICAL <= SEVERITY_ORDER (alert_severity a).
Proof.
  intros t. assert (rtc alert_step no_alerts t) as Hr by (apply rtc_once; constructor). split; [exact Hr|].
  destruct (proj2 (one_open_alert_per_event t Hr) "sos"%string "Worse"%string CRITICAL ∅ "sos"%string "7"%string None)
    as (a & H1 & H2 & _); [discriminate | discriminate | vm_compute; reflexivity |].
  exists a. split; [exact H1|exact H2].
Defined.

(** After the sweep looks at a threshold, the city's open alert for it says exactly what
    was measured: no alert when the value crosses no line or the sample is too small, and an
    alert of the crossed line's severity otherwise. *)
Theorem sweep_tracks_level (t t' : AlertTable) (th : Threshold) (m : Metric) (code : string) (c : option Place)
    (row : Measured) (ti : string) (p : gmap string string) (note : string) (now : Z) (o : outcome)
    (value : option dec) (sample : option Z) :
  rtc alert_step no_alerts t ->
  metric_for (th_metric th) = Some m -> current_value (metric_key m) row = Some (value, sample) ->
  city_is_live c (metric_kind m) = true ->
  evaluate_threshold t th code c row ti p note now = Some (o, t') ->
  alert_severity <$> find_open t' THRESHOLD_SOURCE (code +:+ ":" +:+ metric_key m)%string
  = swept_level m th value sample.
Proof.
  intros Hr Hm Hv Hlive. pose proof (reachable_ok t Hr) as Hok. unfold evaluate_threshold.
  rewrite Hm. cbn [mbind option_bind]. rewrite Hv. cbn [mbind option_bind].
  set (sid := (code +:+ ":" +:+ metric_key m)%string). pose proof (source_id_nonempty code (metric_key m)) as Hsid.
  fold sid in Hsid. destruct (swept_level m th value sample) as [sev|]; destruct (find_open t THRESHOLD_SOURCE sid) as [a|] eqn:F.
  - pose proof F as F'. unfold find_open in F'. destruct (find_some _ _ F') as [_ (_ & _ & Hop)%open_for_iff].
    destruct (bool_decide (alert_severity a = sev)) eqn:B; cbn [negb]; intros [= <- <-];
      (rewrite find_open_update; [|by apply Hok|done|auto with sgo|done]); [|done].
    by apply bool_decide_eq_true in B as <-.
  - intros E. apply Some_inj, pair_equal_spec in E as [<- <-]. unfold raise_alert. rewrite Hlive. cbn [negb].
    rewrite (proj2 (truthy_iff THRESHOLD_SOURCE)), (proj2 (truthy_iff sid) Hsid) by done. cbn [andb]. rewrite F.
    cbn [snd]. by rewrite find_open_created.
  - unfold acknowledge. pose proof F as F'. unfold find_open in F'. apply find_some in F' as [Ha%list_elem_of_In Hop].
    rewrite elem_of_reverse in Ha. apply open_for_iff in Hop as (_ & _ & Hop).
    destruct (List.find _ (alerts t)) eqn:G.
    + intros [= <- <-]. by rewrite find_open_close.
    + rewrite find_none_iff in G. specialize (G a Ha). by rewrite Z.eqb_refl, Hop in G.
  - intros [= <- <-]. by rewrite F.
Qed.

Definition demo_threshold : Threshold := {|
  th_id := 1; th_city := 30; th_metric := "unfulfilled_rate"; warn_value := Some (Dec 1500 (-2));
  critical_value := Some (Dec 3000 (-2)); th_window := "24h"; th_active := true; th_version := 1;
  valid_from := 0; valid_to := None |}.

Definition demo_measured (v : Z) (requests : Z) : Measured := {|
  m_unfulfilled_rate := Some (of_Z v); m_acceptance_rate := None; m_avg_eta_minutes := None;
  m_sos_open := None; m_sos_oldest := None; m_withdrawals_oldest := None; m_requested := requests |}.

Lemma sweep_tracks_level_witness :
  exists o t', evaluate_threshold no_alerts demo_threshold "IN-TG-HYD" (Some {| place_kind := KCity; place_active := true |})
      (demo_measured 40 50) "title" ∅ "note" 9 = Some (o, t') /\
    alert_severity <$> find_open t' THRESHOLD_SOURCE ("IN-TG-HYD:unfulfilled_rate"%string) = Some CRITICAL.
Proof.
  destruct (evaluate_threshold no_alerts demo_threshold "IN-TG-HYD" (Some {| place_kind := KCity; place_active := true |})
      (demo_measured 40 50) "title" ∅ "note" 9) as [[o t']|] eqn:E; [|vm_compute in E; discriminate E].
  exists o, t'. split; [reflexivity|].
  refine (sweep_tracks_level no_alerts t' demo_threshold
    {| metric_key := "unfulfilled_rate"; metric_direction := ABOVE; default_window := "24h"; min_sample := 5 |}
    "IN-TG-HYD"%string _ (demo_measured 40 50) "title"%string ∅ "note"%string 9 o (Some (of_Z 40)) (Some 50) _ _ _ _ E).
  - constructor.
  - vm_compute; reflexivity.
  - vm_compute; reflexivity.
  - vm_compute; reflexivity.
Defined.

(** Writing versions, with keys the database has not used. *)
Inductive threshold_step : list Threshold -> list Threshold -> Prop :=
| step_write rows fresh city metric warn critical window now rows' row :
    fresh ∉ th_id <$> rows ->
    write_threshold_version rows fresh city metric warn critical window now = Ok (rows', row) ->
    threshold_step rows rows'.

Definition nested (t : Threshold) : Prop :=
  forall m v, metric_for (th_metric t) = Some m -> warn_value t <> None ->
    crossed (metric_direction m) v (critical_value t) = true ->
    crossed (metric_direction m) v (warn_value t) = true.

Definition versions_ok (rows : list Threshold) : Prop :=
  base.NoDup (th_id <$> rows) /\
  (forall a b, a ∈ rows -> b ∈ rows -> th_city a = th_city b -> th_metric a = th_metric b ->
     (th_active a = true /\ th_active b = true) \/ th_version a = th_version b -> a = b) /\
  Forall nested rows.

Lemma dltb_trans (a b c : dec) : dltb a b = true -> dltb b c = true -> dltb a c = true.
Proof. rewrite !dltb_spec. intros. by eapply QArith_base.Qlt_trans. Qed.

Lemma validate_nested (key : string) (warn critical : pynum) (window : option string)
    (m : Metric) (w c : option dec) (win : string) :
  validate_fields key warn critical window = Ok (m, w, c, win) ->
  metric_for key = Some m /\ forall v, w <> None ->
    crossed (metric_direction m) v c = true -> crossed (metric_direction m) v w = true.
Proof.
  unfold validate_fields. intros H. apply res_bind_ok in H as (m' & Hm & H).
  destruct (metric_for key) as [m''|]; [|done]. injection Hm as ->.
  apply res_bind_ok in H as (? & _ & H). apply res_bind_ok in H as (? & _ & H).
  apply res_bind_ok in H as (w' & _ & H). apply res_bind_ok in H as (c' & _ & H).
  destruct w' as [w'|], c' as [c'|]; [|simplify_eq; done..].
  destruct (match metric_direction m' with ABOVE => dltb w' c' | BELOW => dltb c' w' end) eqn:B; [|done].
  simplify_eq. split; [done|]. intros v _ Hc. destruct (metric_direction m); cbn [crossed] in *.
  - by apply (dltb_trans w' c' v).
  - by apply (dltb_trans v c' w').
Qed.

Lemma latest_version_ge (rows : list Threshold) (t : Threshold) :
  t ∈ rows -> th_version t <= latest_version rows (th_city t) (th_metric t).
Proof.
  intros Ht. unfold latest_version.
  assert (t ∈ List.filter (for_key (th_city t) (th_metric t)) rows) as H.
  { apply elem_of_filter_b. split; [done|]. unfold for_key. by rewrite Z.eqb_refl, bool_decide_true. }
  revert H. generalize (List.filter (for_key (th_city t) (th_metric t)) rows) as l.
  induction l as [|x l IH]; [intros H; by apply not_elem_of_nil in H|].
  rewrite fmap_cons. cbn [foldr]. intros [->|H]%elem_of_cons; [lia|]. specialize (IH H). lia.
Qed.

(** The rows after the current version was closed. *)
Definition closed_rows (rows : list Threshold) (city : Z) (metric : string) (now : Z) : list Threshold :=
  match active_threshold rows city metric with
  | Some c => (fun t => if th_id t =? th_id c then close_threshold now t else t) <$> rows
  | None => rows
  end.

Lemma closed_rows_elem (rows : list Threshold) (city : Z) (metric : string) (now : Z) (a : Threshold) :
  versions_ok rows -> a ∈ closed_rows rows city metric now ->
  exists a0, a0 ∈ rows /\ th_id a = th_id a0 /\ th_city a = th_city a0 /\ th_metric a = th_metric a0 /\
    th_version a = th_version a0 /\ warn_value a = warn_value a0 /\ critical_value a = critical_value a0 /\
    (th_active a = true -> a = a0) /\ (a = a0 \/ a = close_threshold now a0) /\
    (th_city a = city -> th_metric a = metric -> th_active a = false).
Proof.
  intros (Hn & Hu & _). unfold closed_rows.
  destruct (active_threshold rows city metric) as [c|] eqn:E; unfold active_threshold in E.
  - apply find_some in E as [Hc%list_elem_of_In Hk]. apply andb_true_iff in Hk as [Hk Hca].
    unfold for_key in Hk. apply andb_true_iff in Hk as [Hk1%Z.eqb_eq Hk2%bool_decide_eq_true].
    intros (a0 & -> & Ha)%list_elem_of_fmap. exists a0. destruct (th_id a0 =? th_id c) eqn:I.
    { repeat split; try done. by right. }
    repeat split; try done; [by left|]. intros H1 H2. apply not_true_iff_false. intros Hact. bool_cases.
    apply I. f_equal. apply Hu; [done|done|congruence|congruence|by left].
  - intros Ha. exists a. rewrite find_none_iff in E. specialize (E a Ha). repeat split; try done; [by left|].
    intros H1 H2. unfold for_key in E. rewrite H1, H2, Z.eqb_refl, bool_decide_true in E by done. done.
Qed.

Lemma closed_rows_ids (rows : list Threshold) (city : Z) (metric : string) (now : Z) :
  th_id <$> closed_rows rows city metric now = th_id <$> rows.
Proof.
  unfold closed_rows. destruct (active_threshold _ _ _) as [c|]; [|done].
  rewrite <- list_fmap_compose. apply list_fmap_ext. intros i x _. cbn. by destruct (_ =? _).
Qed.

Lemma write_keeps_versions (rows : list Threshold) (fresh city : Z) (metric : string) (warn critical : pynum)
    (window : option string) (now : Z) (rows' : list Threshold) (row : Threshold) :
  versions_ok rows -> fresh ∉ th_id <$> rows ->
  write_threshold_version rows fresh city metric warn critical window now = Ok (rows', row) ->
  versions_ok rows'.
Proof.
  intros Hok Hf H. unfold write_threshold_version in H. apply res_bind_ok in H as ([[[m w] c] win] & Hv & H).
  apply validate_nested in Hv as [Hm Hnest]. fold (closed_rows rows city metric now) in H.
  injection H as <- <-. set (row := {| th_id := fresh |}).
  pose proof (fun a => closed_rows_elem rows city metric now a Hok) as Hel.
  pose proof Hok as (Hn & Hu & Hne). split; [|split].
  - rewrite fmap_app, closed_rows_ids. apply NoDup_app. split; [done|]. split; [|apply NoDup_singleton].
    intros x Hx Hx'. apply list_elem_of_singleton in Hx'. subst x. done.
  - assert (forall a, a ∈ closed_rows rows city metric now -> th_city a = city -> th_metric a = metric ->
      th_active a = false /\ th_version a <> th_version row) as Hnew.
    { intros a Ha H1 H2. destruct (Hel a Ha) as (a0 & Ha0 & _ & E1 & E2 & E3 & _ & _ & _ & _ & Hina).
      split; [by apply Hina|]. cbn [th_version row]. pose proof (latest_version_ge rows a0 Ha0) as Hge.
      rewrite <- E1, <- E2, H1, H2 in Hge. lia. }
    intros a b [Ha|Ha%list_elem_of_singleton]%elem_of_app [Hb|Hb%list_elem_of_singleton]%elem_of_app E1 E2 Hab.
    + destruct (Hel a Ha) as (a0 & Ha0 & I1 & C1 & M1 & V1 & _ & _ & Act1 & D1 & _).
      destruct (Hel b Hb) as (b0 & Hb0 & I2 & C2 & M2 & V2 & _ & _ & Act2 & D2 & _).
      assert (a0 = b0) as ->.
      { apply Hu; [done|done|congruence|congruence|].
        destruct Hab as [[A1 A2]|V]; [left; rewrite <- (Act1 A1), <- (Act2 A2); done|right; congruence]. }
      assert (forall i j, (th_id <$> closed_rows rows city metric now) !! i = Some (th_id b0) ->
        (th_id <$> closed_rows rows city metric now) !! j = Some (th_id b0) -> i = j) as Hids.
      { intros i j. rewrite closed_rows_ids. by apply NoDup_lookup. }
      apply list_elem_of_lookup_1 in Ha as [i Hi], Hb as [j Hj].
      assert (i = j) as -> by (apply Hids; rewrite list_lookup_fmap; [rewrite Hi|rewrite Hj]; cbn; by rewrite ?I1, ?I2).
      congruence.
    + subst b. destruct (Hnew a Ha E1 E2) as [HA HV]. destruct Hab as [[A _]|V]; congruence.
    + subst a. destruct (Hnew b Hb (eq_sym E1) (eq_sym E2)) as [HA HV]. destruct Hab as [[_ A]|V]; congruence.
    + by subst.
  - apply Forall_app. split.
    + apply Forall_forall. intros a Ha m' v Hm'. destruct (Hel a Ha) as (a0 & Ha0 & _ & _ & M & _ & W & C & _).
      rewrite W, C. rewrite Forall_forall in Hne. apply (Hne a0 Ha0). by rewrite <- M.
    + apply Forall_singleton. intros m' v Hm' Hw Hc. cbn [th_metric row] in Hm'.
      rewrite Hm in Hm'. injection Hm' as <-. by apply Hnest.
Qed.

(** Threshold history: whatever versions are written, a city's metric has at most one
    active threshold, no two versions share a number, the version just written is the active
    one, and a value that crosses the critical line also crosses the warning line. *)
Theorem threshold_versions (rows : list Threshold) :
  rtc threshold_step [] rows ->
  (forall a b, a ∈ rows -> b ∈ rows -> th_city a = th_city b -> th_metric a = th_metric b ->
     (th_active a = true /\ th_active b = true) \/ th_version a = th_version b -> a = b) /\
  Forall nested rows /\
  forall fresh city metric warn critical window now rows' row,
    fresh ∉ th_id <$> rows ->
    write_threshold_version rows fresh city metric warn critical window now = Ok (rows', row) ->
    active_threshold rows' city metric = Some row /\
    forall a, a ∈ rows' -> for_key city metric a = true -> th_version a <= th_version row.
Proof.
  intros Hr. assert (versions_ok rows) as Hok.
  { remember [] as r0 eqn:E. assert (versions_ok r0) as H0 by (subst; split; [by apply NoDup_nil|split; [set_solver|done]]).
    clear E. induction Hr as [|x y z Hxy _ IH]; [done|]. apply IH. destruct Hxy. by eapply write_keeps_versions. }
  split; [apply Hok|]. split; [apply Hok|].
  intros fresh city metric warn critical window now rows' row Hf Hw.
  pose proof (write_keeps_versions _ _ _ _ _ _ _ _ _ _ Hok Hf Hw) as Hok'.
  unfold write_threshold_version in Hw. apply res_bind_ok in Hw as ([[[m w] c] win] & _ & Hw).
  fold (closed_rows rows city metric now) in Hw. injection Hw as <- <-. set (row := {| th_id := fresh |}) in *.
  assert (for_key city metric row = true) as Hk by (unfold for_key; cbn; by rewrite Z.eqb_refl, bool_decide_true).
  assert (row ∈ closed_rows rows city metric now ++ [row]) as Hin by set_solver.
  destruct Hok' as (Hn' & Hu' & _). split.
  - unfold active_threshold. destruct (List.find _ _) as [x|] eqn:E.
    + apply find_some in E as [Hx%list_elem_of_In Hxk]. apply andb_true_iff in Hxk as [Hxk Hxa].
      unfold for_key in Hxk. apply andb_true_iff in Hxk as [H1%Z.eqb_eq H2%bool_decide_eq_true].
      f_equal. apply Hu'; [done|done|done|done|by left].
    + rewrite find_none_iff in E. specialize (E row Hin). by rewrite Hk in E.
  - intros a [Ha|Ha%list_elem_of_singleton]%elem_of_app Hka; [|subst; lia].
    destruct (closed_rows_elem rows city metric now a Hok Ha) as (a0 & Ha0 & _ & E1 & E2 & E3 & _).
    unfold for_key in Hka. apply andb_true_iff in Hka as [H1%Z.eqb_eq H2%bool_decide_eq_true].
    pose proof (latest_version_ge rows a0 Ha0) as Hge. rewrite <- E1, <- E2, H1, H2 in Hge. cbn. lia.
Qed.

Lemma threshold_versions_witness :
  exists rows row, write_threshold_version [] 1 30 "sos_open" PyNone (PyInt 0) None 9 = Ok (rows, row) /\
    rtc threshold_step [] rows /\ active_threshold rows 30 "sos_open" = Some row /\ Forall nested rows.
Proof.
  destruct (write_threshold_version [] 1 30 "sos_open" PyNone (PyInt 0) None 9) as [[rows row]|] eqn:E;
    [|vm_compute in E; discriminate E].
  exists rows, row. split; [reflexivity|].
  assert (rtc threshold_step [] rows) as Hr by (apply rtc_once; eapply step_write; [|exact E]; intros H; by apply not_elem_of_nil in H).
  split; [exact Hr|]. split.
  - refine (proj1 (proj2 (proj2 (threshold_versions [] (rtc_refl _ _))) 1 30 "sos_open"%string PyNone (PyInt 0) None 9 rows row _ E)).
    intros H. by apply not_elem_of_nil in H.
  - exact (proj1 (proj2 (threshold_versions rows Hr))).
Defined.
