(* ===== verification/Store.v ===== *)
(** * Store: the money tables

    The rows the payment, settlement and promotion code reads and writes:
    [servers/rider/models.py] (Wallet, WalletTransaction, [get_wallet]),
    [servers/payments/models.py] (TripSettlement, TransactionHistory, PlatformExpense) and
    [servers/promotions/models.py] (Campaign, LedgerEntry, with [ride.PromoRedemption]).
    One state [Db] is passed through every operation; an operation that raises returns no
    state, which is the rollback of its transaction.  Tables whose rows are only ever added
    are lists in insertion order; a unique column makes an insertion raise. *)

From S2P Require Import Prelude PyDecimal PyText Countries Models Money Commission Alerts.
#[local] Open Scope Z_scope.

(** ** Wallets and their ledger *)

Inductive wallet_scope := SCOPE_RIDER | SCOPE_DRIVER.

#[global] Instance wallet_scope_eq_dec : EqDecision wallet_scope.
Proof. solve_decision. Defined.

#[global] Instance wallet_scope_countable : Countable wallet_scope.
Proof.
  refine (inj_countable' (fun s => match s with SCOPE_RIDER => true | SCOPE_DRIVER => false end)
    (fun b => if b then SCOPE_RIDER else SCOPE_DRIVER) _). by intros [].
Defined.

Record Wallet := { balance_minor : Z; wallet_currency : string }.

Inductive txn_type := credit | debit.

#[global] Instance txn_type_eq_dec : EqDecision txn_type.
Proof. solve_decision. Defined.

Inductive txn_status := Pending | Completed | Failed.

#[global] Instance txn_status_eq_dec : EqDecision txn_status.
Proof. solve_decision. Defined.

(** [WalletTransaction]. *)
Record Txn := {
  txn_id : Z;
  txn_user : Z;
  txn_currency : string;
  amount_minor : Z;
  txn_type_of : txn_type;
  txn_status_of : txn_status;
  txn_purpose : string;
  txn_reference : string;
  txn_key : option string;
  txn_created : Z
}.

(** What a row adds to its owner's balance. *)
Definition signed_minor (t : Txn) : Z :=
  match txn_type_of t with credit => amount_minor t | debit => - amount_minor t end.

(** ** Settlements, history and expenses *)

(** [TripSettlement]. *)
Record TripSettlement := {
  ts_trip : Z;
  ts_driver : Z;
  ts_wallet_txn : option Z;
  ts_currency : string;
  gross_fare_minor : Z;
  ts_commission_percent : dec;
  commission_amount_minor : Z;
  driver_net_minor : Z;
  tax_collected_minor : option Z;
  regulatory_fee_collected_minor : option Z;
  ts_payment_method : payment;
  settled_at : Z;
  ts_version : Z
}.

(** [TransactionHistory]. *)
Record History := {
  th_trip : Z; th_rider : Z; th_driver : Z; th_currency : string; th_amount : Z;
  th_method : payment; th_type : txn_type
}.

(** [PlatformExpense]. *)
Record Expense := { ex_key : string; ex_trip : Z; ex_amount : Z; ex_currency : string }.

(** ** Promotions *)

Inductive campaign_state := Draft | PendingApproval | Scheduled | LIVE | Paused | EXHAUSTED | Ended | Cancelled.

#[global] Instance campaign_state_eq_dec : EqDecision campaign_state.
Proof. solve_decision. Defined.

(** The keys of a campaign's [config] the budget reads. *)
Record CampaignConfig := {
  discount_type : string;
  discount_flat_minor : option Z;
  reward_minor : option Z;
  referrer_reward_minor : option Z;
  referee_reward_minor : option Z;
  new_riders_only : bool;
  auto_apply : bool
}.

Record Campaign := {
  campaign_kind : string;
  campaign_name : string;
  campaign_state_of : campaign_state;
  campaign_country : string;
  campaign_node : option GeoNode;
  campaign_place : option Place;
  campaign_currency : string;
  budget_minor : option Z;
  committed_minor : Z;
  spent_minor : Z;
  overshoot_minor : Z;
  starts_at : option Z;
  ends_at : option Z;
  exhausted_at : option Z;
  campaign_promo : option Z;
  is_legacy : bool;
  config : CampaignConfig
}.

Inductive redemption_state := STATE_COMMITTED | STATE_SETTLED | STATE_RELEASED | STATE_LEGACY.

#[global] Instance redemption_state_eq_dec : EqDecision redemption_state.
Proof. solve_decision. Defined.

(** [PromoRedemption]. *)
Record Redemption := {
  rd_id : Z;
  rd_promo : Z;
  rd_user : Z;
  rd_trip : option Z;
  rd_campaign : option Z;
  discount_amount_minor : Z;
  rd_currency : string;
  rd_state : redemption_state
}.

(** [promotions.LedgerEntry]. *)
Record PromoEntry := {
  pe_kind : string; pe_campaign : Z; pe_user : Z; pe_trip : option Z; pe_amount : Z;
  pe_currency : string; pe_txn : option Z; pe_key : string
}.

(** ** The state *)

Record Db := {
  clock : Z;
  next_id : Z;
  wallets : gmap (Z * wallet_scope) Wallet;
  txns : list Txn;
  settlements : list TripSettlement;
  histories : list History;
  expenses : list Expense;
  campaigns : gmap Z Campaign;
  redemptions : list Redemption;
  redemption_counts : gmap Z Z;
  promo_entries : list PromoEntry;
  alert_table : AlertTable
}.

Definition empty_db (now : Z) : Db := {|
  clock := now; next_id := 1; wallets := ∅; txns := []; settlements := []; histories := []; expenses := [];
  campaigns := ∅; redemptions := []; redemption_counts := ∅; promo_entries := []; alert_table := no_alerts |}.

(** Writing one table. *)
Definition set_wallets (w : gmap (Z * wallet_scope) Wallet) (db : Db) : Db :=
  {| clock := clock db; next_id := next_id db; wallets := w; txns := txns db; settlements := settlements db;
     histories := histories db; expenses := expenses db; campaigns := campaigns db;
     redemptions := redemptions db; redemption_counts := redemption_counts db;
     promo_entries := promo_entries db; alert_table := alert_table db |}.

Definition set_txns (n : Z) (l : list Txn) (db : Db) : Db :=
  {| clock := clock db; next_id := n; wallets := wallets db; txns := l; settlements := settlements db;
     histories := histories db; expenses := expenses db; campaigns := campaigns db;
     redemptions := redemptions db; redemption_counts := redemption_counts db;
     promo_entries := promo_entries db; alert_table := alert_table db |}.

Definition set_settlements (l : list TripSettlement) (db : Db) : Db :=
  {| clock := clock db; next_id := next_id db; wallets := wallets db; txns := txns db; settlements := l;
     histories := histories db; expenses := expenses db; campaigns := campaigns db;
     redemptions := redemptions db; redemption_counts := redemption_counts db;
     promo_entries := promo_entries db; alert_table := alert_table db |}.

Definition set_histories (l : list History) (db : Db) : Db :=
  {| clock := clock db; next_id := next_id db; wallets := wallets db; txns := txns db;
     settlements := settlements db; histories := l; expenses := expenses db; campaigns := campaigns db;
     redemptions := redemptions db; redemption_counts := redemption_counts db;
     promo_entries := promo_entries db; alert_table := alert_table db |}.

Definition set_expenses (l : list Expense) (db : Db) : Db :=
  {| clock := clock db; next_id := next_id db; wallets := wallets db; txns := txns db;
     settlements := settlements db; histories := histories db; expenses := l; campaigns := campaigns db;
     redemptions := redemptions db; redemption_counts := redemption_counts db;
     promo_entries := promo_entries db; alert_table := alert_table db |}.

Definition set_campaigns (m : gmap Z Campaign) (db : Db) : Db :=
  {| clock := clock db; next_id := next_id db; wallets := wallets db; txns := txns db;
     settlements := settlements db; histories := histories db; expenses := expenses db; campaigns := m;
     redemptions := redemptions db; redemption_counts := redemption_counts db;
     promo_entries := promo_entries db; alert_table := alert_table db |}.

Definition set_redemptions (l : list Redemption) (c : gmap Z Z) (db : Db) : Db :=
  {| clock := clock db; next_id := next_id db; wallets := wallets db; txns := txns db;
     settlements := settlements db; histories := histories db; expenses := expenses db;
     campaigns := campaigns db; redemptions := l; redemption_counts := c;
     promo_entries := promo_entries db; alert_table := alert_table db |}.

Definition set_promo_entries (l : list PromoEntry) (db : Db) : Db :=
  {| clock := clock db; next_id := next_id db; wallets := wallets db; txns := txns db;
     settlements := settlements db; histories := histories db; expenses := expenses db;
     campaigns := campaigns db; redemptions := redemptions db; redemption_counts := redemption_counts db;
     promo_entries := l; alert_table := alert_table db |}.

Definition set_alerts (t : AlertTable) (db : Db) : Db :=
  {| clock := clock db; next_id := next_id db; wallets := wallets db; txns := txns db;
     settlements := settlements db; histories := histories db; expenses := expenses db;
     campaigns := campaigns db; redemptions := redemptions db; redemption_counts := redemption_counts db;
     promo_entries := promo_entries db; alert_table := t |}.

(** What the operations may raise. *)
Inductive db_error :=
| IntegrityError
| DoesNotExist
| TypeError
| MoneyFailed (e : money_error)
| CommissionFailed (e : commission_error)
| Refused (code : string)
| Unavailable (code : string).

Definition lift_money {A : Type} (m : res money_error A) : res db_error A := map_err MoneyFailed m.

(** ** Operations *)

(** [get_wallet]: the wallet, created empty in rupees when there is none. *)
Definition wallet_of (db : Db) (user : Z) (s : wallet_scope) : Wallet :=
  default {| balance_minor := 0; wallet_currency := "INR" |} (wallets db !! (user, s)).

Definition get_wallet (user : Z) (s : wallet_scope) (db : Db) : Wallet * Db :=
  (wallet_of db user s, set_wallets (<[(user, s) := wallet_of db user s]> (wallets db)) db).

(** [wallet.balance_minor = b; wallet.save(update_fields=['balance_minor'])] *)
Definition save_balance (user : Z) (s : wallet_scope) (b : Z) (db : Db) : Db :=
  set_wallets (<[(user, s) := {| balance_minor := b; wallet_currency := wallet_currency (wallet_of db user s) |}]>
    (wallets db)) db.

(** [WalletTransaction.objects.create(...)], of status completed: the unique key refuses a
    second row with the same one. *)
Definition create_txn (user : Z) (currency : string) (amount : Z) (ty : txn_type)
    (purpose reference key : string) (db : Db) : res db_error (Z * Db) :=
  if existsb (fun t => bool_decide (txn_key t = Some key)) (txns db) then Err IntegrityError
  else Ok (next_id db, set_txns (next_id db + 1) (txns db ++ [{|
    txn_id := next_id db; txn_user := user; txn_currency := currency; amount_minor := amount;
    txn_type_of := ty; txn_status_of := Completed; txn_purpose := purpose; txn_reference := reference;
    txn_key := Some key; txn_created := clock db |}]) db).

(** [TripSettlement.objects.create(...)]: [(trip, version)] is unique. *)
Definition create_settlement (s : TripSettlement) (db : Db) : res db_error Db :=
  if existsb (fun x => (ts_trip x =? ts_trip s) && (ts_version x =? ts_version s)) (settlements db)
  then Err IntegrityError
  else Ok (set_settlements (settlements db ++ [s]) db).

(** [TripSettlement.objects.filter(trip=trip).order_by('-version').first()] *)
Definition current_settlement (db : Db) (trip : Z) : option TripSettlement :=
  best_by (fun a b => ts_version b <? ts_version a)
    (List.filter (fun s => ts_trip s =? trip) (settlements db)).

(** ** Keys *)

(** [f'TRIP_{trip.id}'] and [f'TRIP_{trip.id}_<suffix>']. *)
Definition trip_ref (trip : Z) : string := ("TRIP_" +:+ number trip)%string.
Definition trip_key (trip : Z) (suffix : string) : string :=
  ("TRIP_" +:+ number trip +:+ "_" +:+ suffix)%string.

(** ** The ledger of a user *)

(** Everything the ledger says happened to a user's money, over both scopes. *)
Definition ledger_total (db : Db) (user : Z) : Z :=
  zsum signed_minor (List.filter (fun t => (txn_user t =? user) && bool_decide (txn_status_of t = Completed)) (txns db)).

Definition driver_balance (db : Db) (user : Z) : Z := balance_minor (wallet_of db user SCOPE_DRIVER).

(** A trip's rows on one user's ledger. *)
Definition trip_rows (db : Db) (user trip : Z) : list Txn :=
  List.filter (fun t => (txn_user t =? user) && bool_decide (txn_reference t = trip_ref trip)
    && bool_decide (txn_status_of t = Completed)) (txns db).

(** ** Lemmas: keys *)

Lemma trip_ref_inj (a b : Z) : trip_ref a = trip_ref b -> a = b.
Proof.
  intros H%(f_equal chars). unfold trip_ref in H. rewrite !chars_append in H. apply app_inv_head in H.
  apply (number_inj a b [] []); [done|done|]. by rewrite !app_nil_r.
Qed.

Lemma trip_key_inj (a b : Z) (s t : string) : trip_key a s = trip_key b t -> a = b /\ s = t.
Proof.
  intros H%(f_equal chars). unfold trip_key in H. rewrite !chars_append in H. apply app_inv_head in H.
  apply number_inj in H as [-> H]; [|intros c Hc; cbn in Hc; injection Hc as <-; done..].
  split; [done|]. apply app_inv_head in H. by apply chars_inj.
Qed.

(** ** Lemmas: one write at a time *)

Lemma zsum_filter_app {A : Type} (f : A -> Z) (P : A -> bool) (l : list A) (x : A) :
  zsum f (List.filter P (l ++ [x])) = zsum f (List.filter P l) + (if P x then f x else 0).
Proof. rewrite List.filter_app, zsum_app. cbn [List.filter]. destruct (P x); cbn; lia. Qed.

Lemma create_txn_ok (u : Z) (c : string) (n : Z) (ty : txn_type) (p r k : string) (db db' : Db) (i : Z) :
  create_txn u c n ty p r k db = Ok (i, db') ->
  (forall t, t ∈ txns db -> txn_key t <> Some k) /\ i = next_id db /\
  db' = set_txns (next_id db + 1) (txns db ++ [{|
    txn_id := next_id db; txn_user := u; txn_currency := c; amount_minor := n;
    txn_type_of := ty; txn_status_of := Completed; txn_purpose := p; txn_reference := r;
    txn_key := Some k; txn_created := clock db |}]) db.
Proof.
  unfold create_txn. destruct (existsb _ _) eqn:E; [done|]. intros [= <- <-]. split; [|done].
  intros t Ht Hk. apply not_true_iff_false in E. apply E, existsb_exists. exists t.
  split; [by apply list_elem_of_In|]. by apply bool_decide_eq_true.
Qed.

Lemma create_txn_refused (u : Z) (c : string) (n : Z) (ty : txn_type) (p r k : string) (db : Db) (t : Txn) :
  t ∈ txns db -> txn_key t = Some k -> create_txn u c n ty p r k db = Err IntegrityError.
Proof.
  intros Ht Hk. unfold create_txn. rewrite (proj2 (existsb_exists _ _)); [done|].
  exists t. split; [by apply list_elem_of_In|]. by apply bool_decide_eq_true.
Qed.

Lemma create_txn_fresh (u : Z) (c : string) (n : Z) (ty : txn_type) (p r k : string) (db : Db) :
  (forall t, t ∈ txns db -> txn_key t <> Some k) ->
  exists i db', create_txn u c n ty p r k db = Ok (i, db').
Proof.
  intros H. unfold create_txn. destruct (existsb _ _) eqn:E; [|by eexists _, _].
  apply existsb_exists in E as (t & Ht%list_elem_of_In & Hk%bool_decide_eq_true). by apply H in Ht.
Qed.

Lemma ledger_total_app (db : Db) (n u : Z) (t : Txn) :
  ledger_total (set_txns n (txns db ++ [t]) db) u
  = ledger_total db u + (if (txn_user t =? u) && bool_decide (txn_status_of t = Completed) then signed_minor t else 0).
Proof. unfold ledger_total. cbn [txns set_txns]. by rewrite zsum_filter_app. Qed.

Lemma driver_balance_save (db : Db) (u v b : Z) :
  driver_balance (save_balance u SCOPE_DRIVER b db) v = if u =? v then b else driver_balance db v.
Proof.
  unfold driver_balance, save_balance, wallet_of. cbn [wallets set_wallets]. destruct (Z.eqb_spec u v) as [->|N].
  - by rewrite lookup_insert_eq.
  - rewrite lookup_insert_ne by congruence. done.
Qed.

Lemma driver_balance_get (db : Db) (u v : Z) (s : wallet_scope) :
  driver_balance (get_wallet u s db).2 v = driver_balance db v.
Proof.
  unfold driver_balance, get_wallet. cbn [snd]. unfold wallet_of at 1. cbn [wallets set_wallets].
  destruct (decide ((u, s) = (v, SCOPE_DRIVER))) as [[= -> ->]|N].
  - by rewrite lookup_insert_eq.
  - by rewrite lookup_insert_ne by done.
Qed.

(** [conserves db db']: between the two states every user's driver balance moved by exactly
    what their ledger recorded. *)
Definition conserves (db db' : Db) : Prop :=
  forall u, driver_balance db' u - driver_balance db u = ledger_total db' u - ledger_total db u.

#[global] Instance conserves_preorder : PreOrder conserves.
Proof. split; [by intros db u; lia|]. intros a b c H1 H2 u. specialize (H1 u). specialize (H2 u). lia. Qed.

(** A write that touches neither wallets nor ledger rows. *)
Definition same_money (db db' : Db) : Prop := wallets db' = wallets db /\ txns db' = txns db.

Lemma same_money_conserves (db db' : Db) : same_money db db' -> conserves db db'.
Proof. intros [Hw Ht] u. unfold driver_balance, wallet_of, ledger_total. rewrite Hw, Ht. lia. Qed.

Lemma get_wallet_conserves (u : Z) (s : wallet_scope) (db : Db) : conserves db (get_wallet u s db).2.
Proof. intros v. rewrite driver_balance_get. change (ledger_total (get_wallet u s db).2 v) with (ledger_total db v). lia. Qed.

(** The pattern of every money movement: one ledger row, and its amount on the balance. *)
Lemma movement_conserves (u : Z) (c : string) (n : Z) (ty : txn_type) (p r k : string) (db db' : Db) (i : Z) :
  create_txn u c n ty p r k db = Ok (i, db') ->
  conserves db (save_balance u SCOPE_DRIVER
    (driver_balance db u + match ty with credit => n | debit => - n end) db').
Proof.
  intros (_ & _ & ->)%create_txn_ok v. rewrite driver_balance_save.
  change (ledger_total (save_balance ?a ?b ?d ?e) ?f) with (ledger_total e f). rewrite ledger_total_app.
  cbn [txn_user txn_status_of]. rewrite bool_decide_true, andb_true_r by done.
  change (driver_balance (set_txns ?a ?b ?d) ?v) with (driver_balance d v).
  destruct (Z.eqb_spec u v) as [->|]; [|lia]. unfold signed_minor. cbn. destruct ty; lia.
Qed.
