(* ===== verification/Promos.v ===== *)
(** * Promos: campaign budgets and rider promotions

    Models [servers/promotions/budget.py] (reserve, settle, adjust, release, spend),
    [servers/promotions/rider_promos.py] (what the rider pays, settlement, release, operator
    end) and [servers/ride/promos.py] (discounts, preview, redemption).  Promo codes are read
    from [PromoEnv], except the redemption counter, which lives in [Db]. *)

From Stdlib Require Import QArith.
From S2P Require Import Prelude PyDecimal PyText Countries Models Money Commission Zones PromoTax Alerts Store.
#[local] Open Scope Z_scope.

(** [int(x or d)]. *)
Definition or_else (d : Z) (x : option Z) : Z :=
  match x with Some z => if z =? 0 then d else z | None => d end.

(** ** The budget *)

Definition with_budget (c : Campaign) (st : campaign_state) (committed spent over : Z) (ex : option Z) : Campaign :=
  {| campaign_kind := campaign_kind c; campaign_name := campaign_name c; campaign_state_of := st;
     campaign_country := campaign_country c; campaign_node := campaign_node c;
     campaign_place := campaign_place c; campaign_currency := campaign_currency c;
     budget_minor := budget_minor c; committed_minor := committed; spent_minor := spent;
     overshoot_minor := over; starts_at := starts_at c; ends_at := ends_at c; exhausted_at := ex;
     campaign_promo := campaign_promo c; is_legacy := is_legacy c; config := config c |}.

Definition used (c : Campaign) : Z := committed_minor c + spent_minor c.

Definition min_viable_minor (c : Campaign) : Z :=
  let cfg := config c in
  if bool_decide (campaign_kind c = "rider_promo"%string) then
    if bool_decide (discount_type cfg = "flat"%string) then Z.max 1 (or_else 1 (discount_flat_minor cfg)) else 1
  else if bool_decide (campaign_kind c = "driver_incentive"%string) then Z.max 1 (or_else 1 (reward_minor cfg))
  else if bool_decide (campaign_kind c = "referral"%string)
       then Z.max 1 (or_else 0 (referrer_reward_minor cfg) + or_else 0 (referee_reward_minor cfg))
       else 1.

Definition admits (c : Campaign) (amount : Z) : bool :=
  if negb (bool_decide (campaign_state_of c = LIVE)) then false
  else match budget_minor c with
       | None => true
       | Some b => used c + amount <=? b
       end.

Definition PROMOTION_BUDGET_EXHAUSTED : string := "promotion.budget_exhausted".
Definition PROMOTION_BUDGET_OVERSHOOT : string := "promotion.budget_overshoot".

Definition campaign_payload (i : Z) (c : Campaign) : gmap string string :=
  list_to_map [("campaign_id", number i); ("campaign_kind", campaign_kind c); ("currency", campaign_currency c);
    ("budget_minor", from_option number "None" (budget_minor c)); ("committed_minor", number (committed_minor c));
    ("spent_minor", number (spent_minor c)); ("overshoot_minor", number (overshoot_minor c))]%string.

Definition budget_alert (i : Z) (c : Campaign) (kind title : string) (sev : severity) (db : Db) : Db :=
  set_alerts (raise_alert (alert_table db) kind (truncated 200 title) sev (campaign_payload i c)
    kind (number i) (campaign_place c)).2 db.

(** [campaign.save(...)]: the check constraints refuse negative counters. *)
Definition save_campaign (i : Z) (c : Campaign) (db : Db) : res db_error Db :=
  if (committed_minor c <? 0) || (spent_minor c <? 0) then Err IntegrityError
  else Ok (set_campaigns (<[i := c]> (campaigns db)) db).

(** [_after_change]. *)
Definition after_change (i : Z) (c : Campaign) (db : Db) : res db_error Db :=
  match budget_minor c with
  | None => save_campaign i c db
  | Some b =>
    let over := used c - b in
    let raise_overshoot := (b <? used c) && (overshoot_minor c <? over) in
    let c1 := if raise_overshoot
              then with_budget c (campaign_state_of c) (committed_minor c) (spent_minor c) over (exhausted_at c)
              else c in
    let raise_exhausted := bool_decide (campaign_state_of c1 = LIVE) && (b - used c <? min_viable_minor c1) in
    let c2 := if raise_exhausted
              then with_budget c1 EXHAUSTED (committed_minor c1) (spent_minor c1) (overshoot_minor c1) (Some (clock db))
              else c1 in
    let* db := save_campaign i c2 db in
    let db := if raise_overshoot
              then budget_alert i c2 PROMOTION_BUDGET_OVERSHOOT
                     ("Campaign " +:+ campaign_name c2 +:+ " is over its budget")%string WARNING db else db in
    let db := if raise_exhausted
              then budget_alert i c2 PROMOTION_BUDGET_EXHAUSTED
                     ("Campaign " +:+ campaign_name c2 +:+ " has used its whole budget and stopped")%string INFO db
              else db in
    Ok db
  end.

Definition get_campaign (i : Z) (db : Db) : res db_error Campaign := res_opt DoesNotExist (campaigns db !! i).

Definition moved (c : Campaign) (committed spent : Z) : Campaign :=
  with_budget c (campaign_state_of c) committed spent (overshoot_minor c) (exhausted_at c).

Definition BUDGET_EXHAUSTED : string := "BUDGET_EXHAUSTED".
Definition NOT_LIVE : string := "CAMPAIGN_NOT_LIVE".

Definition reserve (i amount : Z) (db : Db) : res db_error Db :=
  let* c := get_campaign i db in
  let* _ := require (bool_decide (campaign_state_of c = LIVE)) (Refused NOT_LIVE) in
  let* _ := require (admits c amount) (Refused BUDGET_EXHAUSTED) in
  after_change i (moved c (committed_minor c + amount) (spent_minor c)) db.

Definition settle (i amount : Z) (actual : option Z) (db : Db) : res db_error Db :=
  let* c := get_campaign i db in
  after_change i (moved c (Z.max 0 (committed_minor c - amount)) (spent_minor c + default amount actual)) db.

Definition adjust_reservation (i old new : Z) (db : Db) : res db_error Db :=
  let* c := get_campaign i db in
  after_change i (moved c (Z.max 0 (committed_minor c - old + new)) (spent_minor c)) db.

(** [campaign.budget_minor - ...] raises on a campaign that has no budget. *)
Definition release (i amount : Z) (db : Db) : res db_error Db :=
  let* c := get_campaign i db in
  let committed := Z.max 0 (committed_minor c - amount) in
  let* b := res_opt TypeError (budget_minor c) in
  let remaining := b - committed - spent_minor c in
  let c1 := moved c committed (spent_minor c) in
  if bool_decide (campaign_state_of c = EXHAUSTED) && (min_viable_minor c <=? remaining)
     && match ends_at c with None => true | Some e => clock db <? e end
  then save_campaign i (with_budget c1 LIVE committed (spent_minor c) (overshoot_minor c) None) db
  else save_campaign i c1 db.

Definition spend_now (i amount : Z) (db : Db) : res db_error Db :=
  let* c := get_campaign i db in
  let* _ := require (bool_decide (campaign_state_of c = LIVE)) (Refused NOT_LIVE) in
  let* _ := require (admits c amount) (Refused BUDGET_EXHAUSTED) in
  after_change i (moved c (committed_minor c) (spent_minor c + amount)) db.

(** ** What the rider pays *)

Definition held_state (s : redemption_state) : bool :=
  match s with STATE_COMMITTED | STATE_SETTLED | STATE_LEGACY => true | STATE_RELEASED => false end.

Definition on_trip (t : Z) (r : Redemption) : bool := bool_decide (rd_trip r = Some t).

Definition held (db : Db) (t : Trip) : list Redemption :=
  List.filter (fun r => on_trip (trip_id t) r && held_state (rd_state r)) (redemptions db).

Definition is_platform_funded (t : Trip) : bool := bool_decide (end_rule t = "platform_funded"%string).

Definition discount_minor (db : Db) (t : Trip) : Z :=
  if is_platform_funded t then 0 else zsum discount_amount_minor (held db t).

Definition payable_minor (db : Db) (t : Trip) : Z :=
  Z.max 0 (trip_gross_minor t - Z.min (discount_minor db t) (trip_gross_minor t)).

Definition is_fully_covered (db : Db) (t : Trip) : bool :=
  negb (discount_minor db t =? 0) && (0 <? trip_gross_minor t) && (payable_minor db t =? 0).

(** Whether a charging path must stop: the code answers the sentence the rider sees. *)
Definition not_charged (db : Db) (t : Trip) : option string :=
  if is_platform_funded t then Some "This trip was ended by SaaradhiGo and you were not charged."%string
  else if is_fully_covered db t then Some "A promotion covered this trip, so you were not charged."%string
  else None.

(** ** Settling and releasing a trip's promo *)

Definition with_state (s : redemption_state) (r : Redemption) : Redemption :=
  {| rd_id := rd_id r; rd_promo := rd_promo r; rd_user := rd_user r; rd_trip := rd_trip r;
     rd_campaign := rd_campaign r; discount_amount_minor := discount_amount_minor r;
     rd_currency := rd_currency r; rd_state := s |}.

Definition with_amount (n : Z) (r : Redemption) : Redemption :=
  {| rd_id := rd_id r; rd_promo := rd_promo r; rd_user := rd_user r; rd_trip := rd_trip r;
     rd_campaign := rd_campaign r; discount_amount_minor := n;
     rd_currency := rd_currency r; rd_state := rd_state r |}.

Definition save_redemption (i : Z) (f : Redemption -> Redemption) (db : Db) : Db :=
  set_redemptions ((fun r => if rd_id r =? i then f r else r) <$> redemptions db) (redemption_counts db) db.

Definition committed_on (db : Db) (t : Trip) : list Redemption :=
  List.filter (fun r => on_trip (trip_id t) r && bool_decide (rd_state r = STATE_COMMITTED)) (redemptions db).

(** [LedgerEntry.save]: a positive amount and a key not used before. *)
Definition create_entry (e : PromoEntry) (db : Db) : res db_error Db :=
  if (pe_amount e <=? 0) || existsb (fun x => bool_decide (pe_key x = pe_key e)) (promo_entries db)
  then Err IntegrityError
  else Ok (set_promo_entries (promo_entries db ++ [e]) db).

Definition DISCOUNT_FUNDED : string := "promo_discount_platform_funded".

(** One redemption of [settle_trip]; the driver's user is given when there is a driver. *)
Definition settle_redemption (t : Trip) (driver_user : option Z) (is_cash : bool) (r : Redemption) (db : Db)
    : res db_error (Z * Db) :=
  match rd_campaign r with
  | None => Ok (0, db)
  | Some ci =>
    let amount := discount_amount_minor r in
    let* db := settle ci amount None db in
    let db := save_redemption (rd_id r) (with_state STATE_SETTLED) db in
    let* (txn, db) :=
      match is_cash, driver_user with
      | true, Some u =>
        let* (i, db) := create_txn u (rd_currency r) amount credit DISCOUNT_FUNDED (trip_ref (trip_id t))
                          (trip_key (trip_id t) ("PROMO_" +:+ number (rd_id r))%string) db in
        Ok (Some i, save_balance u SCOPE_DRIVER (driver_balance db u + amount) db)
      | _, _ => Ok (None, db)
      end in
    let* db := create_entry {| pe_kind := DISCOUNT_FUNDED; pe_campaign := ci; pe_user := trip_rider t;
                  pe_trip := Some (trip_id t); pe_amount := amount; pe_currency := rd_currency r;
                  pe_txn := txn; pe_key := ("promo_discount:" +:+ number (rd_id r))%string |} db in
    Ok (amount, db)
  end.

Fixpoint settle_all (t : Trip) (driver_user : option Z) (is_cash : bool) (l : list Redemption) (db : Db)
    : res db_error (Z * Db) :=
  match l with
  | [] => Ok (0, db)
  | r :: l =>
    let* (n, db) := settle_redemption t driver_user is_cash r db in
    let* (m, db) := settle_all t driver_user is_cash l db in
    Ok (n + m, db)
  end.

Definition settle_trip (t : Trip) (driver_user : option Z) (is_cash : bool) (db : Db) : res db_error (Z * Db) :=
  let rs := committed_on db t in
  if bool_decide (rs = []) || is_platform_funded t then Ok (0, db)
  else settle_all t driver_user is_cash rs db.

Definition decrement_count (promo : Z) (db : Db) : Db :=
  set_redemptions (redemptions db)
    (let n := default 0 (redemption_counts db !! promo) in
     if 0 <? n then <[promo := n - 1]> (redemption_counts db) else redemption_counts db) db.

Fixpoint release_all (l : list Redemption) (db : Db) : res db_error (Z * Db) :=
  match l with
  | [] => Ok (0, db)
  | r :: l =>
    let* db := match rd_campaign r with
               | Some ci => release ci (discount_amount_minor r) db
               | None => Ok db
               end in
    let db := decrement_count (rd_promo r) db in
    let db := save_redemption (rd_id r) (with_state STATE_RELEASED) db in
    let* (m, db) := release_all l db in
    Ok (discount_amount_minor r + m, db)
  end.

Definition release_for_trip (t : Trip) (db : Db) : res db_error (Z * Db) := release_all (committed_on db t) db.

(** ** Promo codes and their discounts *)

(** [PromoCode]; the redemption counter is in [redemption_counts]. *)
Record PromoCode := {
  pc_id : Z;
  pc_code : string;
  pc_flat : bool;
  pc_percent : dec;
  pc_flat_minor : Z;
  max_discount_minor : option Z;
  min_fare_minor : Z;
  pc_currency : string;
  pc_zone : option Z;
  pc_zone_node : option GeoNode;
  valid_from : Z;
  pc_valid_to : Z;
  max_total_redemptions : option Z;
  max_per_user : Z;
  pc_active : bool
}.

(** What promotions read besides the money tables. *)
Record PromoEnv := {
  pv_codes : list PromoCode;
  pv_completed : Z -> bool;
  pv_country_node : string -> option GeoNode;
  pv_zones : gmap Z Zone;
  pv_cards : list RateCard
}.

Definition lift_arith {A : Type} (m : res dec_error A) : res db_error A := lift_money (lift_dec m).

Definition discount_value (p : PromoCode) : res db_error dec :=
  if pc_flat p then lift_money (from_minor_Z (pc_flat_minor p) (Some (pc_currency p))) else Ok (pc_percent p).

(** [_compute_discount]. *)
Definition compute_discount (p : PromoCode) (fare : dec) : res db_error dec :=
  let* value := discount_value p in
  if pc_flat p then Ok (dmin value fare)
  else
    let* pct := lift_arith (ddiv value (Dec 10000 (-2))) in
    let* raw := lift_arith (dmul fare pct) in
    let* raw := lift_money (quantize_dec raw (Some (pc_currency p))) in
    let* raw := match max_discount_minor p with
      | None => Ok raw
      | Some m => let* top := lift_money (from_minor_Z m (Some (pc_currency p))) in Ok (dmin raw top)
      end in
    Ok (dmin raw fare).

(** [round_fare] of a value that is there. *)
Definition round_fare_dec (d : dec) (currency : string) : res db_error dec :=
  let* r := lift_money (round_fare (Some d) currency) in res_opt TypeError r.

(** [max(Decimal('0.00'), round_fare(fare - discount, currency))] *)
Definition payable_after (fare discount : dec) (currency : string) : res db_error dec :=
  let* rest := lift_arith (dsub fare discount) in
  let* r := round_fare_dec rest currency in Ok (dmax (Dec 0 (-2)) r).

Definition payable_discount (p : PromoCode) (fare : dec) : res db_error dec :=
  let* raw := compute_discount p fare in
  let* final := payable_after fare raw (pc_currency p) in
  lift_arith (dsub fare final).

(** The [tax] argument: read the zone, an inclusive quote, or an additive quote's own terms. *)
Inductive tax_arg := TaxFromZone | TaxInclusive | TaxAdditive (percent fee : dec).

Definition tax_adjust (env : PromoEnv) (now : Z) (p : PromoCode) (zone : option Zone) (fare discount : dec)
    (tax : tax_arg) : res db_error (option Adjusted) :=
  let* ctx := match tax with
    | TaxInclusive => Ok None
    | TaxAdditive pc fe => Ok (Some (pc, fe))
    | TaxFromZone => lift_money (additive_context (pv_zones env) (pv_cards env) now zone None)
    end in
  match ctx with
  | None => Ok None
  | Some (percent, fee) =>
    let* (pretax, before, fee) := lift_money (split_additive fare percent fee (Some (pc_currency p))) in
    let* a := lift_money (adjust pretax percent fee discount (Some (pc_currency p)) (Some before)) in
    Ok (Some a)
  end.

(** [_in_place]. *)
Definition starts_with (path prefix : string) : bool := String.prefix prefix path.

Definition in_place (c : Campaign) (zone : option Zone) : bool :=
  match campaign_node c with
  | None => true
  | Some node =>
    let under := match zone with
                 | None => None
                 | Some z => Some ((fun n => starts_with (node_path n) (node_path node)) <$> zone_geo_node z)
                 end in
    match node_kind_of node with
    | KCountry | KGlobal => match under with
                            | None => true
                            | Some o => default true o
                            end
    | _ => match under with
           | None => false
           | Some o => default false o
           end
    end
  end.

Definition campaign_for (db : Db) (promo : Z) : option (Z * Campaign) :=
  List.find (fun '(_, c) => bool_decide (campaign_promo c = Some promo)) (map_to_list (campaigns db)).

(** [ensure_legacy_campaign]: a code created outside the module gets a campaign without budget. *)
Definition ensure_legacy_campaign (env : PromoEnv) (p : PromoCode) (db : Db) : (Z * Campaign) * Db :=
  let node := match pc_zone p, pc_zone_node p with
    | Some _, Some n => Some n
    | _, _ => pv_country_node env (from_option country_code EmptyString
                (List.find (fun c => bool_decide (country_currency c = pc_currency p)) COUNTRIES))
    end in
  let country := match node with
    | None => EmptyString
    | Some n => match node_kind_of n, node_country n with
                | KCountry, _ => node_code n
                | _, Some k => node_code k
                | _, None => node_code n
                end
    end in
  let live := pc_active p && (valid_from p <=? clock db) && (clock db <? pc_valid_to p) in
  let c := {| campaign_kind := "rider_promo"; campaign_name := pc_code p;
    campaign_state_of := if live then LIVE else if pc_valid_to p <=? clock db then Ended else Paused;
    campaign_country := String.substring 0 2 country; campaign_node := node; campaign_place := None;
    campaign_currency := pc_currency p; budget_minor := None; committed_minor := 0; spent_minor := 0;
    overshoot_minor := 0; starts_at := Some (valid_from p); ends_at := Some (pc_valid_to p);
    exhausted_at := None; campaign_promo := Some (pc_id p); is_legacy := true;
    config := {| discount_type := if pc_flat p then "flat" else "percent"; discount_flat_minor := Some (pc_flat_minor p);
      reward_minor := None; referrer_reward_minor := None; referee_reward_minor := None;
      new_riders_only := false; auto_apply := false |} |} in
  let i := next_id db in
  ((i, c), set_txns (i + 1) (txns db) (set_campaigns (<[i := c]> (campaigns db)) db)).

Definition PROMO_NOT_FOUND : string := "PROMO_NOT_FOUND".

(** [preview_refusal]: [None] when the campaign behind the code admits the discount. *)
Definition preview_refusal (env : PromoEnv) (db : Db) (p : PromoCode) (user : Z) (discount : dec) (zone : option Zone)
    : res db_error (option string) :=
  match campaign_for db (pc_id p) with
  | None => Ok None
  | Some (_, c) =>
    if negb (bool_decide (campaign_state_of c = LIVE)) then Ok (Some PROMO_NOT_FOUND)
    else if negb (in_place c zone) then Ok (Some "PROMO_WRONG_ZONE"%string)
    else if new_riders_only (config c) && pv_completed env user then Ok (Some "PROMO_NEW_RIDERS_ONLY"%string)
    else
      let* minor := lift_money (to_minor_dec discount (Some (pc_currency p))) in
      Ok (if negb (admits c minor) then Some "PROMO_BUDGET_EXHAUSTED"%string else None)
  end.

(** [reserve_for_redemption]: the campaign reserved against, or why not. *)
Definition reserve_for_redemption (env : PromoEnv) (p : PromoCode) (user : Z) (discount : dec)
    (zone : option Zone) (db : Db) : res db_error ((Z + string) * Db) :=
  let '((i, c), db) := match campaign_for db (pc_id p) with
    | Some ic => (ic, db)
    | None => ensure_legacy_campaign env p db
    end in
  if negb (bool_decide (campaign_state_of c = LIVE)) then Ok (inr PROMO_NOT_FOUND, db)
  else if negb (in_place c zone) then Ok (inr "PROMO_WRONG_ZONE"%string, db)
  else if new_riders_only (config c) && pv_completed env user then Ok (inr "PROMO_NEW_RIDERS_ONLY"%string, db)
  else
    let* minor := lift_money (to_minor_dec discount (Some (pc_currency p))) in
    match reserve i minor db with
    | Ok db => Ok (inl i, db)
    | Err (Refused code) =>
      Ok (inr (if bool_decide (code = BUDGET_EXHAUSTED) then "PROMO_BUDGET_EXHAUSTED"%string else PROMO_NOT_FOUND), db)
    | Err e => Err e
    end.

(** ** Preview and redemption *)

(** [code__iexact] compares without case; the code the rider typed is stripped. *)
Definition code_matches (text : option string) (p : PromoCode) : bool :=
  bool_decide (upper (pc_code p) = upper (strip (default EmptyString text))).

Record PromoResult := { pr_code : string; discount_amount : dec; final_fare : dec; pr_tax : option dec }.

(** The refusal rules both operations share, in their order. *)
Definition window_refusal (p : PromoCode) (at_ : Z) : option string :=
  if at_ <? valid_from p then Some "PROMO_NOT_YET_VALID"%string
  else if pc_valid_to p <=? at_ then Some "PROMO_EXPIRED"%string else None.

Definition zone_refusal (p : PromoCode) (zone : option Zone) : option string :=
  match pc_zone p with
  | Some pz => if negb (pz =? 0) &&
                  match zone with None => true | Some z => negb (zone_id z =? pz) end
               then Some "PROMO_WRONG_ZONE"%string else None
  | None => None
  end.

Definition user_count (db : Db) (p : PromoCode) (user : Z) : Z :=
  Z.of_nat (length (List.filter (fun r => (rd_promo r =? pc_id p) && (rd_user r =? user)
    && negb (bool_decide (rd_state r = STATE_RELEASED))) (redemptions db))).

Definition redemption_count (db : Db) (p : PromoCode) : Z := default 0 (redemption_counts db !! pc_id p).

Definition limit_refusal (db : Db) (p : PromoCode) (user : Z) : option string :=
  if max_per_user p <=? user_count db p user then Some "PROMO_USER_LIMIT"%string
  else match max_total_redemptions p with
       | Some m => if m <=? redemption_count db p then Some "PROMO_LIMIT_REACHED"%string else None
       | None => None
       end.

Definition fare_refusal (p : PromoCode) (fare : dec) : res db_error (option string) :=
  let* least := lift_money (from_minor_Z (min_fare_minor p) (Some (pc_currency p))) in
  Ok (if dltb fare least then Some "PROMO_MIN_FARE"%string else None).

Definition refusals (db : Db) (p : PromoCode) (user : Z) (fare : dec) (zone : option Zone) (at_ : Z)
    : res db_error (option string) :=
  match window_refusal p at_ with
  | Some r => Ok (Some r)
  | None =>
    match zone_refusal p zone with
    | Some r => Ok (Some r)
    | None =>
      let* f := fare_refusal p fare in
      match f with
      | Some r => Ok (Some r)
      | None => Ok (limit_refusal db p user)
      end
    end
  end.

(** The discount and what is left to pay, before and after rounding. *)
Definition priced (env : PromoEnv) (p : PromoCode) (zone : option Zone) (fare : dec) (tax : tax_arg) (now : Z)
    : res db_error (dec * option Adjusted) :=
  let* discount := compute_discount p fare in
  let* adj := tax_adjust env now p zone fare discount tax in
  Ok (match adj with Some a => adj_discount a | None => discount end, adj).

Definition finished (p : PromoCode) (fare discount : dec) (adj : option Adjusted) : res db_error (dec * dec) :=
  let* final := payable_after fare discount (pc_currency p) in
  match adj with
  | Some a => Ok (discount, adj_payable a)
  | None => let* d := lift_arith (dsub fare final) in Ok (d, final)
  end.

Definition apply_promo (env : PromoEnv) (db : Db) (code : option string) (user : Z) (fare : dec)
    (zone : option Zone) (tax : tax_arg) (at_ : Z) : res db_error (PromoResult + string) :=
  match List.find (fun p => code_matches code p && pc_active p) (pv_codes env) with
  | None => Ok (inr PROMO_NOT_FOUND)
  | Some p =>
    let* r := refusals db p user fare zone at_ in
    match r with
    | Some why => Ok (inr why)
    | None =>
      let* (discount, adj) := priced env p zone fare tax (clock db) in
      let* refusal := preview_refusal env db p user discount zone in
      match refusal with
      | Some why => Ok (inr why)
      | None =>
        let* (discount, final) := finished p fare discount adj in
        let* two := lift_money (quantize_dec discount (Some (pc_currency p))) in
        Ok (inl {| pr_code := pc_code p; discount_amount := two; final_fare := final; pr_tax := adj_tax <$> adj |})
      end
    end
  end.

(** The trip's own fare drops by the tax no longer charged. *)
Definition with_estimate (n : Z) (t : Trip) : Trip :=
  {| trip_id := trip_id t; trip_rider := trip_rider t; trip_driver := trip_driver t; trip_zone := trip_zone t;
     trip_pickup := trip_pickup t; trip_vehicle_type := trip_vehicle_type t; trip_vehicle_vt := trip_vehicle_vt t;
     trip_requested_at := trip_requested_at t; trip_currency := trip_currency t;
     estimated_fare_minor := Some n; final_fare_minor := final_fare_minor t;
     payment_method := payment_method t; end_rule := end_rule t;
     commission_percent_snapshot := commission_percent_snapshot t;
     commission_rule_id := commission_rule_id t; commission_rule_version := commission_rule_version t |}.

Definition relieved_trip (p : PromoCode) (t : Trip) (adj : option Adjusted) : res db_error Trip :=
  match adj with
  | Some a =>
    if dltb (of_Z 0) (adj_relief a) then
      let* relief := lift_money (to_minor_dec (adj_relief a) (Some (pc_currency p))) in
      Ok (with_estimate (Z.max 0 (default 0 (estimated_fare_minor t) - relief)) t)
    else Ok t
  | None => Ok t
  end.

Definition insert_redemption (p : PromoCode) (user trip minor campaign : Z) (db : Db) : Db :=
  let i := next_id db in
  set_redemptions (redemptions db ++ [{| rd_id := i; rd_promo := pc_id p; rd_user := user; rd_trip := Some trip;
      rd_campaign := Some campaign; discount_amount_minor := minor; rd_currency := pc_currency p;
      rd_state := STATE_COMMITTED |}])
    (<[pc_id p := redemption_count db p + 1]> (redemption_counts db))
    (set_txns (i + 1) (txns db) db).

Definition redeem_promo (env : PromoEnv) (code : option string) (user : Z) (t : Trip) (fare : dec)
    (zone : option Zone) (tax : tax_arg) (at_ : Z) (db : Db)
    : res db_error ((PromoResult * Trip + string) * Db) :=
  match List.find (code_matches code) (pv_codes env) with
  | None => Ok (inr PROMO_NOT_FOUND, db)
  | Some p =>
    if negb (pc_active p) then Ok (inr PROMO_NOT_FOUND, db)
    else
    let* r := refusals db p user fare zone at_ in
    match r with
    | Some why => Ok (inr why, db)
    | None =>
      let* (discount, adj) := priced env p zone fare tax (clock db) in
      let* (discount, final) := finished p fare discount adj in
      let* (reserved, db) := reserve_for_redemption env p user discount zone db in
      match reserved with
      | inr why => Ok (inr why, db)
      | inl campaign =>
        let* two := lift_money (quantize_dec discount (Some (pc_currency p))) in
        let* minor := lift_money (to_minor_dec two (Some (pc_currency p))) in
        let db := insert_redemption p user (trip_id t) minor campaign db in
        let* t := relieved_trip p t adj in
        Ok (inl ({| pr_code := pc_code p; discount_amount := two; final_fare := final; pr_tax := adj_tax <$> adj |}, t), db)
      end
    end
  end.

(** ** Booking *)

(** [find_auto_promo]: the live auto-applied promo with the largest discount. *)
Fixpoint best_auto (env : PromoEnv) (db : Db) (user : Z) (fare : dec) (zone : option Zone) (tax : tax_arg)
    (l : list Campaign) (best : option PromoResult) : res db_error (option PromoResult) :=
  match l with
  | [] => Ok best
  | c :: l =>
    let code := p ← campaign_promo c; List.find (fun q => pc_id q =? p) (pv_codes env) in
    match code with
    | Some p =>
      if bool_decide (campaign_kind c = "rider_promo"%string) && bool_decide (campaign_state_of c = LIVE)
         && negb (is_legacy c) && auto_apply (config c) then
        let* r := apply_promo env db (Some (pc_code p)) user fare zone tax (clock db) in
        best_auto env db user fare zone tax l
          match r with
          | inl x => match best with
                     | None => Some x
                     | Some b => if dltb (discount_amount b) (discount_amount x) then Some x else Some b
                     end
          | inr _ => best
          end
      else best_auto env db user fare zone tax l best
    | None => best_auto env db user fare zone tax l best
    end
  end.

Definition find_auto_promo (env : PromoEnv) (db : Db) (user : Z) (fare : dec) (zone : option Zone) (tax : tax_arg)
    : res db_error (option string) :=
  let* b := best_auto env db user fare zone tax (snd <$> map_to_list (campaigns db)) None in
  Ok (pr_code <$> b).

(** [book]: a code the rider asked for that cannot be applied refuses the booking. *)
Definition book (env : PromoEnv) (code : option string) (user : Z) (t : Trip) (fare : dec)
    (zone : option Zone) (tax : tax_arg) (db : Db) : res db_error (option PromoResult * Trip * Db) :=
  let typed := strip (default EmptyString code) in
  let asked := negb (bool_decide (typed = EmptyString)) in
  let* chosen := if asked then Ok (Some typed) else find_auto_promo env db user fare zone tax in
  match chosen with
  | None => Ok (None, t, db)
  | Some c =>
    let* (r, db) := redeem_promo env (Some c) user t fare zone tax (clock db) db in
    match r with
    | inl (x, t) => Ok (Some x, t, db)
    | inr why => if asked then Err (Refused why) else Ok (None, t, db)
    end
  end.

(** ** The promo of a trip an operator ends *)

Definition code_of (env : PromoEnv) (r : Redemption) : res db_error PromoCode :=
  res_opt DoesNotExist (List.find (fun p => pc_id p =? rd_promo r) (pv_codes env)).

(** [operator_end_discount_minor_one]. *)
Definition operator_end_one (env : PromoEnv) (capped : Z) (r : Redemption) : res db_error Z :=
  let* p := code_of env r in
  let* fare := lift_money (from_minor_Z capped (Some (pc_currency p))) in
  let* d := payable_discount p fare in
  lift_money (to_minor_dec d (Some (pc_currency p))).

Fixpoint operator_end_sum (env : PromoEnv) (capped : Z) (l : list Redemption) : res db_error Z :=
  match l with
  | [] => Ok 0
  | r :: l => let* n := operator_end_one env capped r in
              let* m := operator_end_sum env capped l in Ok (n + m)
  end.

Definition operator_end_discount_minor (env : PromoEnv) (db : Db) (t : Trip) (capped : Z) : res db_error Z :=
  let* total := operator_end_sum env capped (held db t) in Ok (Z.min total capped).

Fixpoint rework (env : PromoEnv) (capped : Z) (budget : option Z) (l : list Redemption) (db : Db) : res db_error Db :=
  match l with
  | [] => Ok db
  | r :: l =>
    let* one := operator_end_one env capped r in
    let new := Z.min one capped in
    let '(new, budget) := match budget with
      | Some b => (Z.min new b, Some (b - Z.min new b))
      | None => (new, None)
      end in
    let* db := match rd_campaign r with
      | Some ci => if new =? discount_amount_minor r then Ok db
                   else adjust_reservation ci (discount_amount_minor r) new db
      | None => Ok db
      end in
    rework env capped budget l (save_redemption (rd_id r) (with_amount new) db)
  end.

Definition apply_operator_end (env : PromoEnv) (t : Trip) (capped : Z) (platform_funded : bool)
    (plan_discount : option Z) (db : Db) : res db_error (Z * Db) :=
  if platform_funded then release_for_trip t db
  else
    let* db := rework env capped plan_discount (committed_on db t) db in
    Ok (discount_minor db t, db).

(** ** Lemmas: one campaign write *)

(** What a budget operation leaves alone: everything but its campaign and the alerts. *)
Record budget_only (i : Z) (c' : Campaign) (db db' : Db) : Prop := {
  bo_campaigns : campaigns db' = <[i := c']> (campaigns db);
  bo_wallets : wallets db' = wallets db;
  bo_txns : txns db' = txns db;
  bo_next : next_id db' = next_id db;
  bo_redemptions : redemptions db' = redemptions db;
  bo_counts : redemption_counts db' = redemption_counts db;
  bo_entries : promo_entries db' = promo_entries db;
  bo_settlements : settlements db' = settlements db;
  bo_clock : clock db' = clock db
}.

(** The counters after an operation that asked for [committed] and [spent]. *)
Record counted (c c' : Campaign) (committed spent : Z) : Prop := {
  ct_committed : committed_minor c' = committed;
  ct_spent : spent_minor c' = spent;
  ct_nonneg : 0 <= committed /\ 0 <= spent;
  ct_budget : budget_minor c' = budget_minor c;
  ct_promo : campaign_promo c' = campaign_promo c;
  ct_over : overshoot_minor c <= overshoot_minor c';
  ct_cap : forall b, budget_minor c = Some b -> used c' <= b + overshoot_minor c' \/ used c' <= b;
  ct_quiet : forall b, budget_minor c = Some b -> used c' <= b -> overshoot_minor c' = overshoot_minor c;
  ct_free : budget_minor c = None -> overshoot_minor c' = overshoot_minor c
}.

Lemma save_campaign_ok (i : Z) (c : Campaign) (db db' : Db) :
  save_campaign i c db = Ok db' ->
  0 <= committed_minor c /\ 0 <= spent_minor c /\ db' = set_campaigns (<[i := c]> (campaigns db)) db.
Proof.
  unfold save_campaign. destruct (_ || _) eqn:E; [done|]. intros [= <-].
  apply orb_false_iff in E as [? ?]. bool_cases. done.
Qed.

Lemma after_change_ok (i : Z) (c0 c : Campaign) (db db' : Db) :
  budget_minor c = budget_minor c0 -> overshoot_minor c = overshoot_minor c0 -> campaign_promo c = campaign_promo c0 ->
  after_change i c db = Ok db' ->
  exists c', counted c0 c' (committed_minor c) (spent_minor c) /\ budget_only i c' db db'.
Proof.
  intros Hb Ho Hp. unfold after_change. destruct (budget_minor c) as [b|] eqn:Eb.
  - set (c1 := if (b <? used c) && (overshoot_minor c <? used c - b) then _ else c).
    set (c2 := if _ && _ then with_budget c1 _ _ _ _ _ else c1). intros H.
    apply res_bind_ok in H as (db1 & (Hc & Hs & ->)%save_campaign_ok & H). injection H as <-.
    assert (committed_minor c1 = committed_minor c /\ spent_minor c1 = spent_minor c /\
      budget_minor c1 = Some b /\ campaign_promo c1 = campaign_promo c /\ overshoot_minor c <= overshoot_minor c1 /\
      (used c <= b + overshoot_minor c1 \/ used c <= b) /\ (used c <= b -> overshoot_minor c1 = overshoot_minor c))
      as (E1 & E2 & E3 & E4 & E5 & E6 & E7).
    { unfold c1. destruct (_ && _) eqn:B; cbn; [bool_cases; repeat split; try done; lia|].
      repeat split; try done. apply andb_false_iff in B as [B|B]; bool_cases; lia. }
    assert (committed_minor c2 = committed_minor c1 /\ spent_minor c2 = spent_minor c1 /\
      budget_minor c2 = budget_minor c1 /\ campaign_promo c2 = campaign_promo c1 /\
      overshoot_minor c2 = overshoot_minor c1) as (F1 & F2 & F3 & F4 & F5) by (unfold c2; clearbody c1; by destruct (_ && _)).
    exists c2. unfold used in *. split.
    + split; [congruence|congruence|lia|congruence|congruence|lia| | |congruence];
        intros b' [= <-]%(eq_trans Hb); unfold used; rewrite F1, F2, E1, E2, F5; [done|]. intros Hu. rewrite <- Ho. by apply E7.
    + destruct (_ && _), (_ && _); by split.
  - intros (Hc & Hs & ->)%save_campaign_ok. exists c. split; [|by split].
    split; try done; try lia; try congruence; intros b Hb'; congruence.
Qed.

Lemma moved_after (i : Z) (c : Campaign) (m s : Z) (db db' : Db) :
  after_change i (moved c m s) db = Ok db' ->
  exists c', counted c c' m s /\ budget_only i c' db db'.
Proof. by apply (after_change_ok i c (moved c m s)). Qed.

Lemma get_campaign_ok (i : Z) (db : Db) (c : Campaign) : get_campaign i db = Ok c <-> campaigns db !! i = Some c.
Proof. unfold get_campaign. destruct (campaigns db !! i); cbn; split; congruence. Qed.

Lemma reserve_ok (i n : Z) (db db' : Db) :
  reserve i n db = Ok db' ->
  exists c c', campaigns db !! i = Some c /\ campaign_state_of c = LIVE /\
    (forall b, budget_minor c = Some b -> used c + n <= b) /\
    counted c c' (committed_minor c + n) (spent_minor c) /\ budget_only i c' db db'.
Proof.
  unfold reserve. intros H. apply res_bind_ok in H as (c & Hc%get_campaign_ok & H).
  apply res_bind_ok in H as (u & Hl%require_ok & H). apply res_bind_ok in H as (u' & Ha%require_ok & H).
  apply bool_decide_eq_true in Hl. destruct (moved_after _ _ _ _ _ _ H) as (c' & Hct & Hbo).
  exists c, c'. split; [done|]. split; [done|]. split; [|by split].
  intros b Hb. unfold admits in Ha. rewrite Hl, bool_decide_true in Ha by done. cbn in Ha. rewrite Hb in Ha. by bool_cases.
Qed.

Lemma settle_ok (i n : Z) (a : option Z) (db db' : Db) :
  settle i n a db = Ok db' ->
  exists c c', campaigns db !! i = Some c /\
    counted c c' (Z.max 0 (committed_minor c - n)) (spent_minor c + default n a) /\ budget_only i c' db db'.
Proof.
  unfold settle. intros H. apply res_bind_ok in H as (c & Hc%get_campaign_ok & H).
  destruct (moved_after _ _ _ _ _ _ H) as (c' & Hct & Hbo). by exists c, c'.
Qed.

Lemma adjust_ok (i old new : Z) (db db' : Db) :
  adjust_reservation i old new db = Ok db' ->
  exists c c', campaigns db !! i = Some c /\
    counted c c' (Z.max 0 (committed_minor c - old + new)) (spent_minor c) /\ budget_only i c' db db'.
Proof.
  unfold adjust_reservation. intros H. apply res_bind_ok in H as (c & Hc%get_campaign_ok & H).
  destruct (moved_after _ _ _ _ _ _ H) as (c' & Hct & Hbo). by exists c, c'.
Qed.

Lemma release_ok (i n : Z) (db db' : Db) :
  release i n db = Ok db' ->
  exists c c' b, campaigns db !! i = Some c /\ budget_minor c = Some b /\ budget_minor c' = Some b /\
    committed_minor c' = Z.max 0 (committed_minor c - n) /\ spent_minor c' = spent_minor c /\
    overshoot_minor c' = overshoot_minor c /\ campaign_promo c' = campaign_promo c /\ budget_only i c' db db'.
Proof.
  unfold release. intros H. apply res_bind_ok in H as (c & Hc%get_campaign_ok & H).
  apply res_bind_ok in H as (b & Hb & H). destruct (budget_minor c) as [b'|] eqn:Eb; [|done]. injection Hb as ->.
  exists c. destruct (_ && _); apply save_campaign_ok in H as (_ & _ & ->).
  - exists (with_budget c LIVE (Z.max 0 (committed_minor c - n)) (spent_minor c) (overshoot_minor c) None), b.
    by repeat split.
  - exists (moved c (Z.max 0 (committed_minor c - n)) (spent_minor c)), b. by repeat split.
Qed.

Lemma create_entry_ok (x : PromoEntry) (db db' : Db) :
  create_entry x db = Ok db' ->
  0 < pe_amount x /\ (forall y, y ∈ promo_entries db -> pe_key y <> pe_key x) /\
  db' = set_promo_entries (promo_entries db ++ [x]) db.
Proof.
  unfold create_entry. destruct (_ || _) eqn:E; [done|]. intros [= <-].
  apply orb_false_iff in E as [H1 H2]. bool_cases. split; [done|]. split; [|done].
  intros y Hy Hk. apply not_true_iff_false in H2. apply H2, existsb_exists. exists y.
  split; [by apply list_elem_of_In|]. by apply bool_decide_eq_true.
Qed.

(** What settling one redemption does to the promotion tables and to the money tables. *)
Lemma settle_redemption_ok (t : Trip) (du : option Z) (cash : bool) (r : Redemption) (db db' : Db) (n : Z) :
  settle_redemption t du cash r db = Ok (n, db') ->
  match rd_campaign r with
  | None => n = 0 /\ db' = db
  | Some i => n = discount_amount_minor r /\ 0 < n /\
      exists c c', campaigns db !! i = Some c /\
        counted c c' (Z.max 0 (committed_minor c - n)) (spent_minor c + n) /\
        campaigns db' = <[i := c']> (campaigns db) /\
        redemptions db' = (fun x => if rd_id x =? rd_id r then with_state STATE_SETTLED x else x) <$> redemptions db /\
        redemption_counts db' = redemption_counts db /\ next_id db <= next_id db' /\ conserves db db' /\
        settlements db' = settlements db /\
        (forall k, (exists y, y ∈ txns db /\ txn_key y = Some k) -> exists y, y ∈ txns db' /\ txn_key y = Some k) /\
        (forall u, driver_balance db' u = driver_balance db u +
           (if cash && bool_decide (du = Some u) then n else 0))
  end.
Proof.
  unfold settle_redemption. destruct (rd_campaign r) as [i|]; [|by intros [= <- <-]]. intros H.
  apply res_bind_ok in H as (db1 & (c & c' & Hc & Hct & Hbo)%settle_ok & H). cbn [default] in Hct.
  apply res_bind_ok in H as ([txn db2] & Hm & H).
  apply res_bind_ok in H as (db3 & (Hpos & _ & ->)%create_entry_ok & H). injection H as <- <-. cbn in Hpos.
  split; [done|]. split; [done|]. exists c, c'. split; [done|]. split; [done|].
  set (db1' := save_redemption (rd_id r) (with_state STATE_SETTLED) db1) in *.
  assert (conserves db db1' /\ forall u, driver_balance db1' u = driver_balance db u) as [Hcons Hbal].
  { split; [apply same_money_conserves; split; by destruct Hbo|].
    intros u. unfold driver_balance, wallet_of. cbn. by destruct Hbo as [_ -> _ _ _ _ _ _ _]. }
  assert (txns db1' = txns db) as Ht by by destruct Hbo.
  assert (campaigns db2 = campaigns db1' /\ redemptions db2 = redemptions db1' /\ next_id db1' <= next_id db2 /\
    redemption_counts db2 = redemption_counts db1' /\ settlements db2 = settlements db1' /\ conserves db1' db2 /\
    (forall y, y ∈ txns db1' -> y ∈ txns db2) /\
    forall u, driver_balance db2 u = driver_balance db1' u + (if cash && bool_decide (du = Some u) then discount_amount_minor r else 0))
    as (G1 & G2 & G3 & G4 & G5 & G6 & G7 & G8).
  { destruct cash, du as [u|]; try (injection Hm as <- <-; repeat split; try done; try reflexivity; intros v; cbn; rewrite ?bool_decide_false by done; lia).
    apply res_bind_ok in Hm as ([j db4] & Htx & Hm). injection Hm as <- <-.
    pose proof (movement_conserves _ _ _ _ _ _ _ _ _ _ Htx) as Hmc.
    destruct (create_txn_ok _ _ _ _ _ _ _ _ _ _ Htx) as (_ & _ & E4).
    assert (driver_balance db4 u = driver_balance db1' u) as Eb by by rewrite E4. rewrite Eb.
    split; [by rewrite E4|]. split; [by rewrite E4|]. split; [rewrite E4; cbn; lia|].
    split; [by rewrite E4|]. split; [by rewrite E4|]. split; [exact Hmc|]. split.
    - intros y Hy. rewrite E4. cbn. set_solver.
    - intros v. rewrite driver_balance_save. cbn [andb].
      destruct (Z.eqb_spec u v) as [->|Hne]; [by rewrite bool_decide_true|].
      rewrite bool_decide_false by congruence. rewrite E4. change (driver_balance (set_txns _ _ ?d) v) with (driver_balance d v). lia. }
  destruct Hbo as [B1 B2 B3 B4 B5 B6 B7 B8 B9].
  split; [cbn; rewrite G1; done|]. split; [cbn; rewrite G2; cbn; by rewrite B5|].
  split; [cbn; rewrite G4; done|]. split; [cbn in *; lia|]. split.
  { etrans; [exact Hcons|]. etrans; [exact G6|]. by apply same_money_conserves. }
  split; [cbn; rewrite G5; done|]. split.
  - intros k (y & Hy & Hk). exists y. split; [|done]. cbn. apply G7. by rewrite Ht.
  - intros u. rewrite <- Hbal. apply G8.
Qed.

(** The redemptions a list of work is about. *)

Lemma save_redemption_elem (db : Db) (i : Z) (f : Redemption -> Redemption) (l : list Redemption) (x : Redemption) :
  x ∈ redemptions db -> rd_id x <> i ->
  x ∈ ((fun y => if rd_id y =? i then f y else y) <$> redemptions db).
Proof.
  intros Hx Hi. apply list_elem_of_fmap. exists x. split; [|done].
  by destruct (Z.eqb_spec (rd_id x) i).
Qed.

Definition pending (l : list Redemption) (db : Db) : Prop :=
  base.NoDup (rd_id <$> l) /\ forall r, r ∈ l -> r ∈ redemptions db /\ rd_state r = STATE_COMMITTED.

Lemma pending_cons (r : Redemption) (l : list Redemption) (db db' : Db) (f : Redemption -> Redemption) :
  pending (r :: l) db ->
  redemptions db' = (fun y => if rd_id y =? rd_id r then f y else y) <$> redemptions db -> pending l db'.
Proof.
  intros [Hn Hl] Hr. rewrite fmap_cons in Hn. apply NoDup_cons in Hn as [Hnot Hn]. split; [done|].
  intros x Hx. destruct (Hl x ltac:(set_solver)) as [Hin Hs]. split; [|done]. rewrite Hr.
  apply (save_redemption_elem db (rd_id r) f l); [done|]. intros E. apply Hnot. rewrite <- E.
  apply list_elem_of_fmap. by exists x.
Qed.

Lemma sublist_nodup (P : Redemption -> bool) (l : list Redemption) :
  base.NoDup (rd_id <$> l) -> base.NoDup (rd_id <$> List.filter P l).
Proof.
  induction l as [|x l IH]; [done|]. rewrite fmap_cons. intros [Hx Hn]%NoDup_cons. cbn [List.filter].
  destruct (P x); [|by apply IH]. rewrite fmap_cons. apply NoDup_cons. split; [|by apply IH].
  intros (y & Hy & Hin)%list_elem_of_fmap. apply Hx. apply list_elem_of_fmap. exists y. split; [done|].
  by apply elem_of_filter_b in Hin as [? _].
Qed.

Lemma pending_tail (r : Redemption) (l : list Redemption) (db : Db) : pending (r :: l) db -> pending l db.
Proof.
  intros [Hn Hl]. rewrite fmap_cons in Hn. apply NoDup_cons in Hn as [_ Hn]. split; [done|].
  intros x Hx. apply Hl. set_solver.
Qed.

Lemma pending_head (r : Redemption) (l : list Redemption) (db : Db) :
  pending (r :: l) db -> r ∈ redemptions db /\ rd_state r = STATE_COMMITTED.
Proof. intros [_ H]. apply H. set_solver. Qed.

(** * Properties *)

Definition demo_campaign (budget : option Z) : Campaign := {|
  campaign_kind := "rider_promo"; campaign_name := "WELCOME"; campaign_state_of := LIVE; campaign_country := "IN";
  campaign_node := None; campaign_place := None; campaign_currency := "INR"; budget_minor := budget;
  committed_minor := 0; spent_minor := 0; overshoot_minor := 0; starts_at := None; ends_at := None;
  exhausted_at := None; campaign_promo := Some 1; is_legacy := false;
  config := {| discount_type := "percent"; discount_flat_minor := None; reward_minor := None;
    referrer_reward_minor := None; referee_reward_minor := None; new_riders_only := false; auto_apply := false |} |}.

Definition demo_promo (percent : Z) : PromoCode := {|
  pc_id := 1; pc_code := "WELCOME"; pc_flat := false; pc_percent := Dec percent (-2); pc_flat_minor := 0;
  max_discount_minor := Some 10000; min_fare_minor := 0; pc_currency := "INR"; pc_zone := None; pc_zone_node := None;
  valid_from := 0; pc_valid_to := 100; max_total_redemptions := None; max_per_user := 5; pc_active := true |}.

Definition demo_env (percent : Z) : PromoEnv := {|
  pv_codes := [demo_promo percent]; pv_completed := fun _ => false; pv_country_node := fun _ => None;
  pv_zones := ∅; pv_cards := [] |}.

Definition demo_promo_db (budget : option Z) : Db := {|
  clock := 10; next_id := 2; wallets := ∅; txns := []; settlements := []; histories := []; expenses := [];
  campaigns := <[1 := demo_campaign budget]> ∅; redemptions := []; redemption_counts := ∅; promo_entries := [];
  alert_table := no_alerts |}.

Definition demo_redeemed (percent : Z) (budget : option Z) : res db_error ((PromoResult * Trip + string) * Db) :=
  redeem_promo (demo_env percent) (Some " welcome "%string) 5 demo_trip (Dec 14200 (-2)) (Some demo_zone) TaxInclusive 10
    (demo_promo_db budget).

(** A code that was wrapped in a campaign without budget cannot be given back: releasing
    the promo of a trip whose first reservation is against such a campaign raises, so the
    reservation of a cancelled trip stays committed and its operator end fails. *)
Theorem release_without_budget_raises (env : PromoEnv) (t : Trip) (db : Db) (r : Redemption) (l : list Redemption)
    (i : Z) (c : Campaign) (capped : Z) (plan : option Z) :
  committed_on db t = r :: l -> rd_campaign r = Some i -> campaigns db !! i = Some c -> budget_minor c = None ->
  release_for_trip t db = Err TypeError /\ apply_operator_end env t capped true plan db = Err TypeError.
Proof.
  intros Hl Hi Hc Hb. assert (release_for_trip t db = Err TypeError) as H.
  { unfold release_for_trip. rewrite Hl. cbn [release_all]. rewrite Hi. unfold release, get_campaign. rewrite Hc.
    cbn [res_opt res_bind]. by rewrite Hb. }
  by split.
Qed.

Lemma release_without_budget_raises_witness :
  exists db r l, redeem_promo (demo_env 5000) (Some "welcome"%string) 5 demo_trip (Dec 14200 (-2)) (Some demo_zone)
      TaxInclusive 10 (empty_db 10) = Ok (r, db) /\
    committed_on db demo_trip = l /\ length l = 1%nat /\ release_for_trip demo_trip db = Err TypeError.
Proof.
  destruct (redeem_promo (demo_env 5000) (Some "welcome"%string) 5 demo_trip (Dec 14200 (-2)) (Some demo_zone)
      TaxInclusive 10 (empty_db 10)) as [[r db]|] eqn:E; [|vm_compute in E; discriminate E].
  exists db, r, (committed_on db demo_trip). split; [reflexivity|]. split; [reflexivity|].
  vm_compute in E. injection E as <- <-. split; [vm_compute; reflexivity|].
  refine (proj1 (release_without_budget_raises (demo_env 5000) demo_trip _ _ _ _ _ 0 None _ _ _ _));
    vm_compute; reflexivity.
Defined.

(** A discount that rounded to nothing blocks its trip's promo settlement: a committed
    redemption of a campaign with an amount of zero (a percentage of a whole-rupee fare can
    give one) makes [settle_trip] raise, whatever else the trip holds. *)
Theorem zero_discount_never_settles (t : Trip) (du : option Z) (cash : bool) (db : Db) (r : Redemption) (i : Z) :
  r ∈ committed_on db t -> rd_campaign r = Some i -> discount_amount_minor r <= 0 ->
  is_platform_funded t = false ->
  is_ok (settle_trip t du cash db) = false.
Proof.
  intros Hr Hi Hz Hpf. unfold settle_trip. rewrite Hpf, orb_false_r.
  rewrite bool_decide_false by (intros E; rewrite E in Hr; by apply not_elem_of_nil in Hr).
  set (l := committed_on db t) in *. clearbody l. revert db Hr. induction l as [|x l IH]; intros db Hr; [by apply not_elem_of_nil in Hr|].
  cbn [settle_all]. destruct (settle_redemption t du cash x db) as [[n db1]|] eqn:E; [|done]. cbn [res_bind].
  apply elem_of_cons in Hr as [<-|Hr].
  - apply settle_redemption_ok in E. rewrite Hi in E. destruct E as (-> & Hpos & _). lia.
  - specialize (IH db1 Hr). by destruct (settle_all t du cash l db1) as [[m db2]|].
Qed.

Lemma zero_discount_never_settles_witness :
  exists r db, demo_redeemed 30 (Some 20000) = Ok (r, db) /\
    map discount_amount_minor (committed_on db demo_trip) = [0] /\
    is_ok (settle_trip demo_trip (Some 9) true db) = false.
Proof.
  destruct (demo_redeemed 30 (Some 20000)) as [[r db]|] eqn:E; [|vm_compute in E; discriminate E].
  exists r, db. split; [reflexivity|]. vm_compute in E. injection E as <- <-. split; [vm_compute; reflexivity|].
  refine (zero_discount_never_settles demo_trip (Some 9) true _
    {| rd_id := 2; rd_promo := 1; rd_user := 5; rd_trip := Some 81; rd_campaign := Some 1;
       discount_amount_minor := 0; rd_currency := "INR"; rd_state := STATE_COMMITTED |} 1 _ _ _ _).
  - vm_compute. apply list_elem_of_singleton. reflexivity.
  - reflexivity.
  - cbn. lia.
  - vm_compute; reflexivity.
Defined.
