(* ===== verification/Settlement.v ===== *)
(** * Settlement: paying the driver for a trip

    Models [servers/driver/utils.py] ([settlement_amounts], [credit_driver_wallet],
    [settle_or_defer], [settle_paid_by_platform], [reverse_trip_earnings]) and
    [servers/payments/unsettled.py] (the alert of a trip no rule governs, and its retry).
    [SettleEnv] holds what settling reads and never writes: commission rules, zones, rate
    cards, the user of a driver, the split a fare snapshot recorded. *)

From Stdlib Require Import QArith.
From S2P Require Import Prelude PyDecimal PyText Countries Models Money Commission Zones PromoTax Alerts Store Promos.
#[local] Open Scope Z_scope.

Record SettleEnv := {
  se_rules : list CommissionRule;
  se_zones : gmap Z Zone;
  se_cards : list RateCard;
  se_user_of : Z -> Z;
  se_stored : Z -> option (Z * option Z);
  se_active : GeoNode -> bool;
  se_lookup : ZoneLookup
}.

(** ** The arithmetic *)

Record Amounts := {
  am_gross : Z;
  am_tax : option Z;
  am_fee : option Z;
  am_rate : dec;
  am_commission : Z;
  am_net : Z
}.

Definition split_input (env : SettleEnv) (db : Db) (t : Trip) : SplitInput := {|
  si_zones := se_zones env; si_cards := se_cards env; si_now := clock db;
  si_stored := se_stored env (trip_id t); si_discount := discount_minor db t |}.

Definition commission_rate (env : SettleEnv) (t : Trip) : res db_error dec :=
  map_err CommissionFailed (@commission_percent_for_trip (se_lookup env) (se_rules env) t).

Definition settlement_amounts (env : SettleEnv) (db : Db) (t : Trip) : res db_error Amounts :=
  let currency := Some (currency_for_trip (Some t)) in
  let gross := trip_gross_minor t in
  let* passthrough := lift_money (settlement_split (split_input env db t) t gross currency) in
  let '(gross, tax, fee) := match passthrough with
    | Some s => (pretax_minor s, Some (tax_minor s), Some (fee_minor s))
    | None => (gross, None, None)
    end in
  let* rate := commission_rate env t in
  let* g := lift_money (from_minor_Z gross currency) in
  let* commission := lift_money (percent_minor g rate HUNDRED currency) in
  Ok {| am_gross := gross; am_tax := tax; am_fee := fee; am_rate := rate;
        am_commission := commission; am_net := gross - commission |}.

(** ** The ledger lines *)

Definition PURPOSE_TAX_COLLECTED : string := "tax_collected".
Definition PURPOSE_FEE_COLLECTED : string := "regulatory_fee_collected".
Definition PURPOSE_FARE_COLLECTED_BY_PLATFORM : string := "fare_collected_by_platform".
Definition PURPOSE_TRIP_REFUND_REVERSAL : string := "trip_refund_reversal".

Definition TRIP_LEDGER_PURPOSES : list string :=
  ["trip_earnings"; "trip_commission"; PURPOSE_TAX_COLLECTED; PURPOSE_FEE_COLLECTED;
   "promo_discount_platform_funded"; PURPOSE_FARE_COLLECTED_BY_PLATFORM; "platform_funded_trip_end"]%string.

(** [trip.payment_method or 'online'] *)
Definition method_or_online (t : Trip) : payment :=
  match payment_method t with
  | Some Cash => Cash
  | Some (OtherMethod m) => OtherMethod (if truthy (Some m) then m else "online")
  | None => OtherMethod "online"
  end.

(** The tax or fee line of a cash trip; nothing is written for nothing. *)
Definition passthrough_line (user : Z) (currency : string) (trip : Z) (amount : option Z) (purpose suffix : string)
    (db : Db) : res db_error Db :=
  match amount with
  | Some n =>
    if n =? 0 then Ok db
    else let* (_, db) := create_txn user currency n debit purpose (trip_ref trip) (trip_key trip suffix) db in Ok db
  | None => Ok db
  end.

(** Everything up to the settlement row, in one transaction; [None] is the duplicate, which
    the earning key refuses and the code suppresses. *)
Definition write_settlement (env : SettleEnv) (t : Trip) (driver : Z) (a : Amounts) (db : Db)
    : res db_error (option Db * Db) :=
  let user := se_user_of env driver in
  let currency := currency_for_trip (Some t) in
  let '(wallet, db) := get_wallet user SCOPE_DRIVER db in
  let '(amount, ty, purpose, balance) :=
    if is_cash t
    then (am_commission a, debit, "trip_commission"%string,
          balance_minor wallet - am_commission a - (default 0 (am_tax a) + default 0 (am_fee a)))
    else (am_net a, credit, "trip_earnings"%string, balance_minor wallet + am_net a) in
  match create_txn user currency amount ty purpose (trip_ref (trip_id t)) (trip_key (trip_id t) "EARNING") db with
  | Err IntegrityError => Ok (None, db)
  | Err e => Err e
  | Ok (txn, db) =>
    let db := save_balance user SCOPE_DRIVER balance db in
    let* db :=
      if is_cash t then
        let* db := passthrough_line user currency (trip_id t) (am_tax a) PURPOSE_TAX_COLLECTED "TAX" db in
        passthrough_line user currency (trip_id t) (am_fee a) PURPOSE_FEE_COLLECTED "FEE" db
      else Ok db in
    let db := set_histories (histories db ++ [{| th_trip := trip_id t; th_rider := trip_rider t; th_driver := driver;
      th_currency := currency; th_amount := amount; th_method := method_or_online t; th_type := ty |}]) db in
    let* db := create_settlement {| ts_trip := trip_id t; ts_driver := driver; ts_wallet_txn := Some txn;
      ts_currency := currency; gross_fare_minor := am_gross a; ts_commission_percent := am_rate a;
      commission_amount_minor := am_commission a; driver_net_minor := am_net a;
      tax_collected_minor := am_tax a; regulatory_fee_collected_minor := am_fee a;
      ts_payment_method := method_or_online t; settled_at := clock db; ts_version := 1 |} db in
    Ok (Some db, db)
  end.

(** ** Alerts *)

Definition trip_city (t : Trip) : option GeoNode :=
  z ← trip_zone t; n ← zone_geo_node z; city_node_of n.

Definition city_place (env : SettleEnv) (t : Trip) : option Place :=
  (fun n => {| place_kind := node_kind_of n; place_active := se_active env n |}) <$> trip_city t.

Definition trip_payload (t : Trip) : gmap string string :=
  list_to_map [("trip_id", number (trip_id t)); ("city", from_option node_code "None" (trip_city t))]%string.

Definition FINANCE_PROMO_SETTLEMENT_FAILED : string := "finance.promo_settlement_failed".
Definition SETTLEMENT_NO_COMMISSION_RULE : string := "settlement.no_commission_rule".
Definition SOURCE_TYPE : string := "trip_settlement".

Definition raise_promo_failed (env : SettleEnv) (t : Trip) (db : Db) : Db :=
  set_alerts (raise_alert (alert_table db) FINANCE_PROMO_SETTLEMENT_FAILED
    (truncated 200 ("Trip " +:+ number (trip_id t) +:+ ": the promo could not be settled")%string)
    CRITICAL (trip_payload t) "promo_settlement" (number (trip_id t)) (city_place env t)).2 db.

Definition raise_unsettled_alert (env : SettleEnv) (t : Trip) (db : Db) : Db :=
  set_alerts (raise_alert (alert_table db) SETTLEMENT_NO_COMMISSION_RULE
    ("Trip " +:+ number (trip_id t) +:+ " cannot be settled: no commission rule")%string
    CRITICAL (trip_payload t) SOURCE_TYPE (number (trip_id t)) (city_place env t)).2 db.

(** ** Settling *)

(** The promotion part runs in a savepoint: its failure is reported and undone, never the
    settlement. *)
Definition settle_promo (env : SettleEnv) (t : Trip) (user : Z) (db : Db) : Db :=
  match settle_trip t (Some user) (is_cash t) db with
  | Ok (_, db') => db'
  | Err _ => raise_promo_failed env t db
  end.

Definition credit_driver_wallet (env : SettleEnv) (t : Trip) (db : Db) : res db_error Db :=
  match trip_driver t with
  | None => Ok db
  | Some driver =>
    if is_platform_funded t then Ok db
    else
      let* a := settlement_amounts env db t in
      let* (written, db) := write_settlement env t driver a db in
      match written with
      | None => Ok db
      | Some db => Ok (settle_promo env t (se_user_of env driver) db)
      end
  end.

Definition settle_or_defer (env : SettleEnv) (t : Trip) (db : Db) : res db_error (bool * Db) :=
  match credit_driver_wallet env t db with
  | Ok db => Ok (true, db)
  | Err (CommissionFailed _) => Ok (false, raise_unsettled_alert env t db)
  | Err e => Err e
  end.

Definition credit_fare_collected_by_platform (env : SettleEnv) (t : Trip) (amount : Z) (currency : string) (db : Db)
    : res db_error (option Z * Db) :=
  match trip_driver t with
  | None => Ok (None, db)
  | Some driver =>
    if amount <=? 0 then Ok (None, db)
    else
      let user := se_user_of env driver in
      let '(wallet, db) := get_wallet user SCOPE_DRIVER db in
      match create_txn user currency amount credit PURPOSE_FARE_COLLECTED_BY_PLATFORM
              (trip_ref (trip_id t)) (trip_key (trip_id t) "COLLECTED") db with
      | Err IntegrityError => Ok (None, db)
      | Err e => Err e
      | Ok (txn, db) => Ok (Some txn, save_balance user SCOPE_DRIVER (balance_minor wallet + amount) db)
      end
  end.

Definition settle_paid_by_platform (env : SettleEnv) (t : Trip) (amount : Z) (currency : option string) (db : Db)
    : res db_error (option Z * Db) :=
  let db := match trip_driver t with
            | Some driver => (get_wallet (se_user_of env driver) SCOPE_DRIVER db).2
            | None => db
            end in
  match current_settlement db (trip_id t) with
  | None => let* (_, db) := settle_or_defer env t db in Ok (None, db)
  | Some cur =>
    if negb (bool_decide (ts_payment_method cur = Cash)) then Ok (None, db)
    else
      let currency := match currency with
                      | Some c => if truthy (Some c) then c else ts_currency cur
                      | None => ts_currency cur
                      end in
      let* (txn, db) := credit_fare_collected_by_platform env t amount currency db in
      match txn with
      | None => Ok (None, db)
      | Some i =>
        let* db := create_settlement {| ts_trip := trip_id t; ts_driver := ts_driver cur; ts_wallet_txn := Some i;
          ts_currency := ts_currency cur; gross_fare_minor := gross_fare_minor cur;
          ts_commission_percent := ts_commission_percent cur;
          commission_amount_minor := commission_amount_minor cur; driver_net_minor := driver_net_minor cur;
          tax_collected_minor := tax_collected_minor cur;
          regulatory_fee_collected_minor := regulatory_fee_collected_minor cur;
          ts_payment_method := method_or_online t; settled_at := settled_at cur;
          ts_version := ts_version cur + 1 |} db in
        Ok (Some i, db)
      end
  end.

(** What the driver's ledger says the trip left them. *)
Definition trip_net (db : Db) (user trip : Z) : Z :=
  zsum signed_minor (List.filter (fun x => bool_decide (txn_purpose x ∈ TRIP_LEDGER_PURPOSES)) (trip_rows db user trip)).

Definition reverse_trip_earnings (env : SettleEnv) (t : Trip) (db : Db) : res db_error (option Z * Db) :=
  match trip_driver t with
  | None => Ok (None, db)
  | Some driver =>
    let user := se_user_of env driver in
    let '(wallet, db) := get_wallet user SCOPE_DRIVER db in
    let net := trip_net db user (trip_id t) in
    if net <=? 0 then Ok (None, db)
    else match create_txn user (wallet_currency wallet) net debit PURPOSE_TRIP_REFUND_REVERSAL
                 (trip_ref (trip_id t)) (trip_key (trip_id t) "REFUND_REVERSAL") db with
         | Err IntegrityError => Ok (None, db)
         | Err e => Err e
         | Ok (txn, db) => Ok (Some txn, save_balance user SCOPE_DRIVER (balance_minor wallet - net) db)
         end
  end.

(** ** Retrying unsettled trips *)

Definition is_settled (db : Db) (trip : Z) : bool := existsb (fun s => ts_trip s =? trip) (settlements db).

Definition unsettled_open (trip : Z) (a : Alert) : bool :=
  bool_decide (alert_kind a = SETTLEMENT_NO_COMMISSION_RULE) && open_for SOURCE_TYPE (number trip) a.

Definition resolve_unsettled_alert (trip : Z) (why : string) (db : Db) : bool * Db :=
  match List.find (unsettled_open trip) (reverse (alerts (alert_table db))) with
  | None => (false, db)
  | Some a => let '(ok, t) := acknowledge (alert_table db) (alert_id a) None ("cleared: " +:+ why)%string (clock db) in
              (ok, set_alerts t db)
  end.

Definition retry_trip (env : SettleEnv) (t : Trip) (db : Db) : res db_error (bool * Db) :=
  if is_settled db (trip_id t)
  then Ok (true, (resolve_unsettled_alert (trip_id t) "the trip is already settled" db).2)
  else
    let* (settled, db) := settle_or_defer env t db in
    Ok (settled, if settled then (resolve_unsettled_alert (trip_id t) "the trip was settled" db).2 else db).

(** ** Lemmas: what settling writes *)

(** Rows a settlement adds: completed rows of the trip, on the driver's ledger. *)
Definition trip_line (user trip : Z) (x : Txn) : Prop :=
  txn_user x = user /\ txn_status_of x = Completed /\ txn_reference x = trip_ref trip.

Lemma ledger_total_lines (db db' : Db) (user trip : Z) (l : list Txn) (v : Z) :
  txns db' = txns db ++ l -> Forall (trip_line user trip) l ->
  ledger_total db' v = ledger_total db v + (if user =? v then zsum signed_minor l else 0).
Proof.
  intros Ht Hl. unfold ledger_total. rewrite Ht, List.filter_app, zsum_app. f_equal. clear Ht.
  induction Hl as [|x l (Hu & Hs & _) _ IH]; [cbn; by destruct (user =? v)|]. cbn [List.filter].
  rewrite Hu, Hs, (bool_decide_true (Completed = Completed)), andb_true_r by done.
  destruct (user =? v); [|exact IH]. cbn [zsum foldr]. unfold zsum in IH. lia.
Qed.

(** Rows appended to the ledger, and nothing else changed that a settlement looks at. *)
Record ledger_frame (l : list Txn) (db db' : Db) : Prop := {
  lf_txns : txns db' = txns db ++ l;
  lf_wallets : wallets db' = wallets db;
  lf_settlements : settlements db' = settlements db;
  lf_redemptions : redemptions db' = redemptions db;
  lf_clock : clock db' = clock db
}.

Lemma ledger_frame_app (l k : list Txn) (a b c : Db) :
  ledger_frame l a b -> ledger_frame k b c -> ledger_frame (l ++ k) a c.
Proof. intros [H1 H2 H3 H4 H5] [K1 K2 K3 K4 K5]. split; [by rewrite K1, H1, app_assoc|congruence..]. Qed.

Lemma create_txn_frame (u : Z) (c : string) (n : Z) (ty : txn_type) (p r k : string) (db db' : Db) (i : Z) :
  create_txn u c n ty p r k db = Ok (i, db') ->
  i = next_id db /\ ledger_frame [{|
    txn_id := next_id db; txn_user := u; txn_currency := c; amount_minor := n;
    txn_type_of := ty; txn_status_of := Completed; txn_purpose := p; txn_reference := r;
    txn_key := Some k; txn_created := clock db |}] db db'.
Proof. intros (_ & -> & ->)%create_txn_ok. by repeat split. Qed.

Lemma passthrough_line_ok (u : Z) (c : string) (trip : Z) (a : option Z) (p s : string) (db db' : Db) :
  passthrough_line u c trip a p s db = Ok db' ->
  exists l, ledger_frame l db db' /\ Forall (trip_line u trip) l /\ zsum signed_minor l = - default 0 a /\
    Forall (fun x => txn_purpose x = p) l.
Proof.
  assert (ledger_frame [] db db) as Hid by (split; [by rewrite app_nil_r|done..]).
  unfold passthrough_line. destruct a as [n|]; [|by intros [= <-]; exists []].
  destruct (Z.eqb_spec n 0) as [->|]; [by intros [= <-]; exists []|].
  intros H. apply res_bind_ok in H as ([i db1] & [_ Hf]%create_txn_frame & H). injection H as <-.
  eexists. split; [exact Hf|]. split; [by apply Forall_singleton|].
  split; [cbn; unfold signed_minor; cbn; lia|]. by apply Forall_singleton.
Qed.

Definition settlement_row (t : Trip) (driver txn now : Z) (a : Amounts) : TripSettlement := {|
  ts_trip := trip_id t; ts_driver := driver; ts_wallet_txn := Some txn; ts_currency := currency_for_trip (Some t);
  gross_fare_minor := am_gross a; ts_commission_percent := am_rate a; commission_amount_minor := am_commission a;
  driver_net_minor := am_net a; tax_collected_minor := am_tax a; regulatory_fee_collected_minor := am_fee a;
  ts_payment_method := method_or_online t; settled_at := now; ts_version := 1 |}.

(** What the settlement moves on the driver's balance, before any promo. *)
Definition settlement_delta (t : Trip) (a : Amounts) : Z :=
  if is_cash t then - (am_commission a + default 0 (am_tax a) + default 0 (am_fee a)) else am_net a.

Definition has_key (db : Db) (k : string) : Prop := exists x, x ∈ txns db /\ txn_key x = Some k.

Definition own_purpose (x : Txn) : Prop := txn_purpose x ∈ TRIP_LEDGER_PURPOSES.

Ltac own := unfold own_purpose; first [eapply bool_decide_eq_true_1 | idtac]; vm_compute; reflexivity.

Lemma create_settlement_ok (s : TripSettlement) (db db' : Db) :
  create_settlement s db = Ok db' ->
  db' = set_settlements (settlements db ++ [s]) db /\
  forall x, x ∈ settlements db -> ts_trip x = ts_trip s -> ts_version x <> ts_version s.
Proof.
  unfold create_settlement. destruct (existsb _ _) eqn:E; [done|]. intros [= <-]. split; [done|].
  intros x Hx H1 H2. apply not_true_iff_false in E. apply E, existsb_exists. exists x.
  split; [by apply list_elem_of_In|]. by rewrite H1, H2, !Z.eqb_refl.
Qed.

Lemma create_txn_dup (u : Z) (c : string) (n : Z) (ty : txn_type) (p r k : string) (db : Db) (e : db_error) :
  create_txn u c n ty p r k db = Err e -> e = IntegrityError /\ has_key db k.
Proof.
  unfold create_txn. destruct (existsb _ _) eqn:E; [|done]. intros [= <-]. split; [done|].
  apply existsb_exists in E as (x & Hx%list_elem_of_In & Hk%bool_decide_eq_true). by exists x.
Qed.

(** The state the settlement row, the history row and the balance are written on. *)
Definition settled_frame (user : Z) (t : Trip) (driver : Z) (a : Amounts) (l : list Txn) (db db1 : Db) : Prop :=
  txns db1 = txns db ++ l /\ settlements db1 = settlements db ++ [settlement_row t driver (next_id db) (clock db) a] /\
  redemptions db1 = redemptions db /\ clock db1 = clock db /\
  exists c, wallets db1 = <[(user, SCOPE_DRIVER) := {| balance_minor := driver_balance db user + settlement_delta t a;
    wallet_currency := c |}]> (<[(user, SCOPE_DRIVER) := wallet_of db user SCOPE_DRIVER]> (wallets db)).

Lemma finish_settlement (user : Z) (t : Trip) (driver txn now : Z) (a : Amounts) (l k : list Txn) (h : list History) (b : Z)
    (db0 db1 db2 db3 db4 : Db) :
  ledger_frame l db0 db1 -> db2 = save_balance user SCOPE_DRIVER b db1 -> ledger_frame k db2 db3 ->
  create_settlement (settlement_row t driver txn now a) (set_histories h db3) = Ok db4 ->
  txns db4 = txns db0 ++ l ++ k /\ settlements db4 = settlements db0 ++ [settlement_row t driver txn now a] /\
  redemptions db4 = redemptions db0 /\ clock db4 = clock db0 /\
  (exists c, wallets db4 = <[(user, SCOPE_DRIVER) := {| balance_minor := b; wallet_currency := c |}]> (wallets db0)) /\
  forall x, x ∈ settlements db0 -> ts_trip x = trip_id t -> ts_version x <> 1.
Proof.
  intros [L1 L2 L3 L4 L5] -> [K1 K2 K3 K4 K5] (-> & Hv)%create_settlement_ok.
  cbn in K1, K2, K3, K4, K5, Hv. cbn.
  split; [by rewrite K1, L1, app_assoc|]. split; [by rewrite K3, L3|]. split; [congruence|]. split; [congruence|].
  split; [eexists; by rewrite K2, L2|]. intros x Hx Ht. apply (Hv x); [by rewrite K3, L3|done].
Qed.

Lemma write_settlement_ok (env : SettleEnv) (t : Trip) (driver : Z) (a : Amounts) (db db' : Db) (w : option Db) :
  let user := se_user_of env driver in
  write_settlement env t driver a db = Ok (w, db') ->
  match w with
  | None => has_key db (trip_key (trip_id t) "EARNING") /\ db' = (get_wallet user SCOPE_DRIVER db).2
  | Some db1 => db1 = db' /\
      exists l, Forall (trip_line user (trip_id t)) l /\ Forall own_purpose l /\
        zsum signed_minor l = settlement_delta t a /\
        (exists x l', l = x :: l' /\ txn_key x = Some (trip_key (trip_id t) "EARNING")) /\
        (forall x, x ∈ settlements db -> ts_trip x = trip_id t -> ts_version x <> 1) /\
        settled_frame user t driver a l db db1
  end.
Proof.
  cbv zeta. unfold write_settlement. set (user := se_user_of env driver).
  destruct (get_wallet user SCOPE_DRIVER db) as [wallet db0] eqn:Ew.
  assert (wallet = wallet_of db user SCOPE_DRIVER) as -> by (by injection Ew).
  assert (db0 = (get_wallet user SCOPE_DRIVER db).2) as Edb0 by (by rewrite Ew).
  change (balance_minor (wallet_of db user SCOPE_DRIVER)) with (driver_balance db user).
  assert (txns db0 = txns db /\ next_id db0 = next_id db /\ settlements db0 = settlements db /\
    redemptions db0 = redemptions db /\ clock db0 = clock db /\
    wallets db0 = <[(user, SCOPE_DRIVER) := wallet_of db user SCOPE_DRIVER]> (wallets db)) as (T0 & N0 & S0 & R0 & C0 & W0)
    by (by rewrite Edb0). clear Edb0 Ew.
  assert (forall e, has_key db0 e -> has_key db e) as Hkey by (unfold has_key; by rewrite T0).
  unfold settled_frame, settlement_delta. destruct (is_cash t).
  - intros H. destruct (create_txn _ _ _ _ _ _ _ db0) as [[txn db1]|err] eqn:Et.
    2:{ apply create_txn_dup in Et as [-> Hk]. injection H as <- <-. split; [by apply Hkey|].
        unfold get_wallet; cbn [snd]. destruct db0; cbn in *. subst. by destruct db. }
    apply create_txn_frame in Et as (-> & Hf).
    apply res_bind_ok in H as (db2 & H2 & H). apply res_bind_ok in H2 as (db3 & H3 & H4).
    apply passthrough_line_ok in H3 as (l3 & Hf3 & Hl3 & Hz3 & Hp3).
    apply passthrough_line_ok in H4 as (l4 & Hf4 & Hl4 & Hz4 & Hp4).
    apply res_bind_ok in H as (db5 & H5 & H). injection H as <- <-. split; [done|].
    pose proof (ledger_frame_app _ _ _ _ _ Hf3 Hf4) as Hf34.
    assert (clock db2 = clock db) as Hck by (rewrite (lf_clock _ _ _ Hf34), <- C0; exact (lf_clock _ _ _ Hf)).
    destruct (finish_settlement _ t driver (next_id db0) (clock db2) a _ _ _ _ _ _ _ _ _ Hf eq_refl Hf34 H5)
      as (F1 & F2 & F3 & F4 & [c F5] & F6).
    set (row := {| txn_id := next_id db0 |}) in *. exists (row :: l3 ++ l4).
    split; [by constructor; [|apply Forall_app]|]. split.
    { constructor; [own|]. apply Forall_app. split; (eapply Forall_impl; [eassumption|]); intros x Hx; unfold own_purpose; rewrite Hx; own. }
    split.
    { cbn [zsum foldr]. fold (zsum signed_minor (l3 ++ l4)). rewrite zsum_app, Hz3, Hz4. unfold signed_minor. cbn. lia. }
    split; [by exists row, (l3 ++ l4)|]. split; [by rewrite <- S0|].
    rewrite F1, F2, F3, F4, F5, T0, S0, R0, C0, N0, W0, Hck. repeat split. exists c. repeat f_equal. lia.
  - intros H. destruct (create_txn _ _ _ _ _ _ _ db0) as [[txn db1]|err] eqn:Et.
    2:{ apply create_txn_dup in Et as [-> Hk]. injection H as <- <-. split; [by apply Hkey|].
        unfold get_wallet; cbn [snd]. destruct db0; cbn in *. subst. by destruct db. }
    apply create_txn_frame in Et as (-> & Hf). cbn [res_bind] in H.
    apply res_bind_ok in H as (db5 & H5 & H). injection H as <- <-. split; [done|].
    assert (ledger_frame [] (save_balance user SCOPE_DRIVER (driver_balance db user + am_net a) db1)
      (save_balance user SCOPE_DRIVER (driver_balance db user + am_net a) db1)) as Hid by (split; [by rewrite app_nil_r|done..]).
    assert (clock db1 = clock db) as Hck by (rewrite <- C0; exact (lf_clock _ _ _ Hf)).
    destruct (finish_settlement _ t driver (next_id db0) (clock db1) a _ _ _ _ _ _ _ _ _ Hf eq_refl Hid H5)
      as (F1 & F2 & F3 & F4 & [c F5] & F6).
    set (row := {| txn_id := next_id db0 |}) in *. exists [row].
    split; [by apply Forall_singleton|]. split; [by apply Forall_singleton; own|].
    split; [cbn; unfold signed_minor; cbn; lia|]. split; [by exists row, []|]. split; [by rewrite <- S0|].
    rewrite F1, F2, F3, F4, F5, T0, S0, R0, C0, N0, W0, Hck. repeat split. by exists c.
Qed.

Lemma get_wallet_present (u : Z) (s : wallet_scope) (db : Db) (w : Wallet) :
  wallets db !! (u, s) = Some w -> (get_wallet u s db).2 = db.
Proof.
  intros H. unfold get_wallet, wallet_of. cbn [snd]. rewrite H. cbn. rewrite insert_id by done. by destruct db.
Qed.

Lemma wallet_after_get (u : Z) (s : wallet_scope) (db : Db) :
  wallets (get_wallet u s db).2 !! (u, s) = Some (wallet_of db u s).
Proof. cbn. by rewrite lookup_insert_eq. Qed.

Lemma settlement_moves (env : SettleEnv) (t : Trip) (driver : Z) (a : Amounts) (db db' db1 : Db) :
  write_settlement env t driver a db = Ok (Some db1, db') ->
  conserves db db1 /\
  (forall u, driver_balance db1 u = driver_balance db u + (if se_user_of env driver =? u then settlement_delta t a else 0)) /\
  settlements db1 = settlements db ++ [settlement_row t driver (next_id db) (clock db) a] /\
  redemptions db1 = redemptions db /\ clock db1 = clock db /\ has_key db1 (trip_key (trip_id t) "EARNING") /\
  is_Some (wallets db1 !! (se_user_of env driver, SCOPE_DRIVER)) /\
  (forall k, has_key db k -> has_key db1 k) /\
  (forall x, x ∈ settlements db -> ts_trip x = trip_id t -> ts_version x <> 1).
Proof.
  intros H. apply write_settlement_ok in H as (_ & l & Hl & _ & Hz & (x & l' & Hx & Hk) & Hv & Ht & Hs & Hr & Hc & [c Hw]).
  set (user := se_user_of env driver) in *.
  assert (forall u, driver_balance db1 u = driver_balance db u + (if user =? u then settlement_delta t a else 0)) as Hb.
  { intros u. unfold driver_balance, wallet_of. rewrite Hw. destruct (Z.eqb_spec user u) as [->|Hne].
    - by rewrite lookup_insert_eq.
    - rewrite !lookup_insert_ne by congruence. lia. }
  split; [|split; [exact Hb|]].
  { intros u. rewrite Hb, (ledger_total_lines db db1 user (trip_id t) l u Ht Hl), Hz. destruct (user =? u); lia. }
  do 3 (split; [done|]). split; [|split; [|split]].
  - exists x. split; [|done]. rewrite Ht, Hx. set_solver.
  - rewrite Hw. by rewrite lookup_insert_eq.
  - intros k (y & Hy & Hyk). exists y. split; [|done]. rewrite Ht. set_solver.
  - done.
Qed.

Lemma conserves_trans (a b c : Db) : conserves a b -> conserves b c -> conserves a c.
Proof. intros. by etrans. Qed.

(** What the promotion part moves. *)
Lemma settle_all_money (t : Trip) (du : option Z) (cash : bool) (l : list Redemption) (db db' : Db) (n : Z) :
  settle_all t du cash l db = Ok (n, db') ->
  conserves db db' /\ settlements db' = settlements db /\ (forall k, has_key db k -> has_key db' k) /\
  (forall u, driver_balance db' u = driver_balance db u + (if cash && bool_decide (du = Some u) then n else 0)).
Proof.
  revert db n. induction l as [|r l IH]; intros db n; cbn [settle_all].
  { intros [= <- <-]. split; [reflexivity|]. repeat split; try done. intros u. destruct (_ && _); lia. }
  intros H. apply res_bind_ok in H as ([n1 db1] & H1%settle_redemption_ok & H).
  apply res_bind_ok in H as ([m db2] & H2 & H). injection H as <- <-.
  destruct (IH db1 m H2) as (C2 & S2 & K2 & B2).
  assert (conserves db db1 /\ settlements db1 = settlements db /\ (forall k, has_key db k -> has_key db1 k) /\
    forall u, driver_balance db1 u = driver_balance db u + (if cash && bool_decide (du = Some u) then n1 else 0)) as (C1 & S1 & K1 & B1).
  { destruct (rd_campaign r) as [i|].
    - destruct H1 as (-> & _ & c & c' & _ & _ & _ & _ & _ & _ & HC & HS & HK & HB). done.
    - destruct H1 as [-> ->]. split; [reflexivity|]. repeat split; try done. intros u. destruct (_ && _); lia. }
  split; [by eapply conserves_trans|]. split; [congruence|]. split; [by auto|].
  intros u. rewrite B2, B1. destruct (_ && _); lia.
Qed.

Lemma settle_trip_money (t : Trip) (du : option Z) (cash : bool) (db db' : Db) (n : Z) :
  settle_trip t du cash db = Ok (n, db') ->
  conserves db db' /\ settlements db' = settlements db /\ (forall k, has_key db k -> has_key db' k) /\
  (forall u, driver_balance db' u = driver_balance db u + (if cash && bool_decide (du = Some u) then n else 0)).
Proof.
  unfold settle_trip. destruct (_ || _); [|by apply settle_all_money].
  intros [= <- <-]. split; [reflexivity|]. repeat split; try done. intros u. destruct (_ && _); lia.
Qed.

Lemma settle_promo_money (env : SettleEnv) (t : Trip) (user : Z) (db : Db) :
  conserves db (settle_promo env t user db) /\ settlements (settle_promo env t user db) = settlements db /\
  (forall k, has_key db k -> has_key (settle_promo env t user db) k).
Proof.
  unfold settle_promo. destruct (settle_trip _ _ _ _) as [[n db']|] eqn:E.
  - by apply settle_trip_money in E as (? & ? & ? & _).
  - split; [by apply same_money_conserves|]. done.
Qed.

(** The two ways a settlement ends. *)
Lemma credit_driver_wallet_ok (env : SettleEnv) (t : Trip) (driver : Z) (db db' : Db) :
  trip_driver t = Some driver -> is_platform_funded t = false -> credit_driver_wallet env t db = Ok db' ->
  exists a, settlement_amounts env db t = Ok a /\
    ((has_key db (trip_key (trip_id t) "EARNING") /\ db' = (get_wallet (se_user_of env driver) SCOPE_DRIVER db).2) \/
     (exists db1, write_settlement env t driver a db = Ok (Some db1, db1) /\ db' = settle_promo env t (se_user_of env driver) db1)).
Proof.
  intros Hd Hp. unfold credit_driver_wallet. rewrite Hd, Hp. intros H.
  apply res_bind_ok in H as (a & Ha & H). apply res_bind_ok in H as ([w db0] & Hw & H).
  exists a. split; [done|]. pose proof (write_settlement_ok _ _ _ _ _ _ _ Hw) as Hok.
  destruct w as [db1|].
  - destruct Hok as (<- & _). injection H as <-. right. by exists db1.
  - destruct Hok as (Hk & ->). injection H as <-. by left.
Qed.

Lemma credit_conserves (env : SettleEnv) (t : Trip) (db db' : Db) :
  credit_driver_wallet env t db = Ok db' -> conserves db db'.
Proof.
  intros H. destruct (trip_driver t) as [d|] eqn:Ed; [|unfold credit_driver_wallet in H; rewrite Ed in H; injection H as <-; reflexivity].
  destruct (is_platform_funded t) eqn:Ep; [unfold credit_driver_wallet in H; rewrite Ed, Ep in H; injection H as <-; reflexivity|].
  destruct (credit_driver_wallet_ok env t d db db' Ed Ep H) as (a & _ & [[_ ->]|(db1 & Hw & ->)]).
  - apply get_wallet_conserves.
  - eapply conserves_trans; [by eapply settlement_moves|]. apply settle_promo_money.
Qed.

Lemma settle_or_defer_conserves (env : SettleEnv) (t : Trip) (db db' : Db) (b : bool) :
  settle_or_defer env t db = Ok (b, db') -> conserves db db'.
Proof.
  unfold settle_or_defer. destruct (credit_driver_wallet env t db) as [db1|[]] eqn:E; try done; intros [= _ <-].
  - by eapply credit_conserves.
  - by apply same_money_conserves.
Qed.

Lemma movement_after_get (env : SettleEnv) (u : Z) (c : string) (n : Z) (ty : txn_type) (p r k : string) (db db' : Db) (i b : Z) :
  create_txn u c n ty p r k (get_wallet u SCOPE_DRIVER db).2 = Ok (i, db') ->
  b = driver_balance db u + match ty with credit => n | debit => - n end ->
  conserves db (save_balance u SCOPE_DRIVER b db').
Proof.
  intros H ->. eapply conserves_trans; [apply (get_wallet_conserves u SCOPE_DRIVER)|].
  rewrite <- (driver_balance_get db u u SCOPE_DRIVER). by eapply movement_conserves.
Qed.

Lemma collected_conserves (env : SettleEnv) (t : Trip) (n : Z) (c : string) (db db' : Db) (x : option Z) :
  credit_fare_collected_by_platform env t n c db = Ok (x, db') -> conserves db db'.
Proof.
  unfold credit_fare_collected_by_platform. destruct (trip_driver t) as [d|]; [|by intros [= _ <-]].
  destruct (n <=? 0); [by intros [= _ <-]|].
  destruct (get_wallet _ _ db) as [w db0] eqn:Ew.
  assert (db0 = (get_wallet (se_user_of env d) SCOPE_DRIVER db).2) as -> by (by rewrite Ew).
  assert (w = wallet_of db (se_user_of env d) SCOPE_DRIVER) as -> by (by injection Ew).
  destruct (create_txn _ _ _ _ _ _ _ _) as [[i db1]|[]] eqn:Et; try done; intros [= _ <-].
  - eapply movement_after_get; [exact env|exact Et|]. unfold driver_balance. cbv iota. lia.
  - apply get_wallet_conserves.
Qed.

Lemma reverse_conserves (env : SettleEnv) (t : Trip) (db db' : Db) (x : option Z) :
  reverse_trip_earnings env t db = Ok (x, db') -> conserves db db'.
Proof.
  unfold reverse_trip_earnings. destruct (trip_driver t) as [d|]; [|by intros [= _ <-]].
  destruct (get_wallet _ _ db) as [w db0] eqn:Ew.
  assert (db0 = (get_wallet (se_user_of env d) SCOPE_DRIVER db).2) as -> by (by rewrite Ew).
  assert (w = wallet_of db (se_user_of env d) SCOPE_DRIVER) as -> by (by injection Ew).
  destruct (_ <=? 0); [intros [= _ <-]; apply get_wallet_conserves|].
  destruct (create_txn _ _ _ _ _ _ _ _) as [[i db1]|[]] eqn:Et; try done; intros [= _ <-].
  - eapply movement_after_get; [exact env|exact Et|]. unfold driver_balance. cbv iota. cbn [get_wallet snd]. lia.
  - apply get_wallet_conserves.
Qed.

Lemma paid_conserves (env : SettleEnv) (t : Trip) (n : Z) (c : option string) (db db' : Db) (x : option Z) :
  settle_paid_by_platform env t n c db = Ok (x, db') -> conserves db db'.
Proof.
  unfold settle_paid_by_platform. set (db0 := match trip_driver t with Some _ => _ | None => db end).
  assert (conserves db db0) as H0 by (unfold db0; destruct (trip_driver t); [apply get_wallet_conserves|reflexivity]).
  destruct (current_settlement db0 (trip_id t)) as [cur|].
  - destruct (negb _); [by intros [= _ <-]|]. intros H. apply res_bind_ok in H as ([y db1] & H1%collected_conserves & H).
    pose proof (conserves_trans _ _ _ H0 H1) as H2. destruct y as [i|]; [|by injection H as _ <-].
    apply res_bind_ok in H as (db2 & (-> & _)%create_settlement_ok & H). injection H as _ <-.
    eapply conserves_trans; [exact H2|]. by apply same_money_conserves.
  - intros H. apply res_bind_ok in H as ([b db1] & H1%settle_or_defer_conserves & H). injection H as _ <-.
    by eapply conserves_trans.
Qed.

Lemma retry_conserves (env : SettleEnv) (t : Trip) (db db' : Db) (b : bool) :
  retry_trip env t db = Ok (b, db') -> conserves db db'.
Proof.
  assert (forall d why, conserves d (resolve_unsettled_alert (trip_id t) why d).2) as Hr.
  { intros d why. apply same_money_conserves. unfold resolve_unsettled_alert. destruct (List.find _ _); [|done].
    by destruct (acknowledge _ _ _ _ _). }
  unfold retry_trip. destruct (is_settled db (trip_id t)); [by intros [= _ <-]|]. intros H.
  apply res_bind_ok in H as ([s db1] & H1%settle_or_defer_conserves & H). injection H as _ <-.
  destruct s; [|done]. by eapply conserves_trans.
Qed.

(** ** Lemmas: settling twice *)

Definition driver_wallet_exists (db : Db) (u : Z) : Prop := is_Some (wallets db !! (u, SCOPE_DRIVER)).

(** What settling one redemption leaves alone. *)
Lemma settle_redemption_frame (t : Trip) (u : Z) (cash : bool) (r : Redemption) (db db' : Db) (n : Z) :
  settle_redemption t (Some u) cash r db = Ok (n, db') ->
  clock db' = clock db /\ (driver_wallet_exists db u -> driver_wallet_exists db' u) /\
  (db' = db \/ redemptions db' = (fun x => if rd_id x =? rd_id r then with_state STATE_SETTLED x else x) <$> redemptions db).
Proof.
  unfold settle_redemption. destruct (rd_campaign r) as [i|]; [|by intros [= <- <-]; auto]. intros H.
  apply res_bind_ok in H as (db3 & (c & c' & _ & _ & [B1 B2 B3 B4 B5 B6 B7 B8 B9])%settle_ok & H).
  apply res_bind_ok in H as ([x db4] & H4 & H). apply res_bind_ok in H as (db5 & (_ & _ & ->)%create_entry_ok & H).
  injection H as _ <-. unfold driver_wallet_exists. destruct cash.
  - apply res_bind_ok in H4 as ([j db6] & (_ & _ & ->)%create_txn_ok & H4). injection H4 as _ <-. cbn.
    rewrite B5, lookup_insert_eq. split; [done|]. split; [by eauto|]. by right.
  - injection H4 as _ <-. cbn. rewrite B2, B5. split; [done|]. split; [done|]. by right.
Qed.

(** Settling a held promo keeps it held, at the same amount. *)
Lemma discount_after_settle (db db' : Db) (r : Redemption) (t0 : Trip) :
  base.NoDup (rd_id <$> redemptions db) -> r ∈ redemptions db -> rd_state r = STATE_COMMITTED ->
  redemptions db' = (fun x => if rd_id x =? rd_id r then with_state STATE_SETTLED x else x) <$> redemptions db ->
  discount_minor db' t0 = discount_minor db t0 /\ rd_id <$> redemptions db' = rd_id <$> redemptions db.
Proof.
  intros Hn Hr Hs Hm. split.
  - unfold discount_minor. destruct (is_platform_funded t0); [done|]. unfold held.
    set (g := fun x => if on_trip (trip_id t0) x && held_state (rd_state x) then discount_amount_minor x else 0).
    assert (forall l, zsum discount_amount_minor (List.filter (fun x => on_trip (trip_id t0) x && held_state (rd_state x)) l) = zsum g l) as Hf.
    { induction l as [|x l IH]; [done|]. cbn [List.filter zsum foldr]. unfold g at 1.
      destruct (_ && _); cbn [zsum foldr]; unfold zsum in IH; lia. }
    rewrite !Hf, Hm. rewrite (zsum_update rd_id g (with_state STATE_SETTLED) _ r Hn Hr). unfold g, on_trip. cbn.
    rewrite Hs. cbn. lia.
  - rewrite Hm, <- list_fmap_compose. apply list_fmap_ext. intros i x _. cbn. by destruct (_ =? _).
Qed.

Lemma settle_all_frame (t : Trip) (u : Z) (cash : bool) (l : list Redemption) (db db' : Db) (n : Z) (t0 : Trip) :
  base.NoDup (rd_id <$> redemptions db) -> pending l db -> settle_all t (Some u) cash l db = Ok (n, db') ->
  discount_minor db' t0 = discount_minor db t0 /\ clock db' = clock db /\
  (driver_wallet_exists db u -> driver_wallet_exists db' u).
Proof.
  revert db n. induction l as [|r l IH]; intros db n Hn Hp; cbn [settle_all]; [by intros [= <- <-]|]. intros H.
  apply res_bind_ok in H as ([n1 db1] & H1 & H). apply res_bind_ok in H as ([m db2] & H2 & H). injection H as <- <-.
  apply settle_redemption_frame in H1 as (Hc & Hw & Hrd). destruct (pending_head _ _ _ Hp) as [Hr Hs].
  assert (discount_minor db1 t0 = discount_minor db t0 /\ base.NoDup (rd_id <$> redemptions db1) /\ pending l db1) as (Hd & Hn1 & Hp1).
  { destruct Hrd as [->|Hrd]; [split; [done|]; split; [done|by eapply pending_tail]|].
    destruct (discount_after_settle db db1 r t0 Hn Hr Hs Hrd) as [Hd Hids]. split; [done|]. split; [by rewrite Hids|].
    by eapply pending_cons. }
  destruct (IH db1 m Hn1 Hp1 H2) as (Hd2 & Hc2 & Hw2). split; [congruence|]. split; [congruence|]. auto.
Qed.

Lemma pending_committed (db : Db) (t : Trip) : base.NoDup (rd_id <$> redemptions db) -> pending (committed_on db t) db.
Proof.
  intros H. split; [by apply sublist_nodup|]. intros r [Hr Hc]%elem_of_filter_b.
  apply andb_true_iff in Hc as [_ Hc%bool_decide_eq_true]. done.
Qed.

Lemma settle_promo_frame (env : SettleEnv) (t : Trip) (u : Z) (db : Db) :
  base.NoDup (rd_id <$> redemptions db) ->
  discount_minor (settle_promo env t u db) t = discount_minor db t /\ clock (settle_promo env t u db) = clock db /\
  (driver_wallet_exists db u -> driver_wallet_exists (settle_promo env t u db) u).
Proof.
  intros Hn. unfold settle_promo, settle_trip. destruct (_ || _); [done|].
  destruct (settle_all _ _ _ _ _) as [[n db']|] eqn:E; [|done].
  by eapply settle_all_frame; [|apply pending_committed|exact E].
Qed.

Lemma settlement_amounts_frame (env : SettleEnv) (db db' : Db) (t : Trip) :
  discount_minor db' t = discount_minor db t -> clock db' = clock db ->
  settlement_amounts env db' t = settlement_amounts env db t.
Proof. intros Hd Hc. unfold settlement_amounts, split_input. by rewrite Hd, Hc. Qed.

Lemma write_settlement_dup (env : SettleEnv) (t : Trip) (driver : Z) (a : Amounts) (db : Db) :
  has_key db (trip_key (trip_id t) "EARNING") ->
  write_settlement env t driver a db = Ok (None, (get_wallet (se_user_of env driver) SCOPE_DRIVER db).2).
Proof.
  intros (x & Hx & Hk). unfold write_settlement. destruct (get_wallet _ _ db) as [w db0] eqn:Ew.
  assert (txns db0 = txns db) as Ht by (injection Ew as _ <-; done).
  assert (x ∈ txns db0) as Hx0 by (by rewrite Ht).
  destruct (is_cash t); by rewrite (create_txn_refused _ _ _ _ _ _ _ db0 x).
Qed.

(** ** Lemmas: paying through the platform *)

Lemma paid_some (env : SettleEnv) (t : Trip) (d n : Z) (c : option string) (db db' : Db) (i : Z) :
  trip_driver t = Some d -> settle_paid_by_platform env t n c db = Ok (Some i, db') ->
  driver_balance db' (se_user_of env d) = driver_balance db (se_user_of env d) + n.
Proof.
  intros Hd. unfold settle_paid_by_platform. rewrite Hd.
  set (db0 := (get_wallet (se_user_of env d) SCOPE_DRIVER db).2).
  assert (driver_balance db0 (se_user_of env d) = driver_balance db (se_user_of env d)) as Hb0 by apply driver_balance_get.
  destruct (current_settlement db0 (trip_id t)) as [cur|].
  - destruct (negb _); [done|]. intros H. apply res_bind_ok in H as ([y db1] & H1 & H). destruct y as [j|]; [|done].
    apply res_bind_ok in H as (db2 & (-> & _)%create_settlement_ok & H). injection H as _ <-.
    change (driver_balance (set_settlements _ ?x) ?u) with (driver_balance x u).
    unfold credit_fare_collected_by_platform in H1. rewrite Hd in H1. destruct (n <=? 0); [done|].
    destruct (get_wallet _ _ db0) as [w db3] eqn:Ew.
    assert (w = wallet_of db0 (se_user_of env d) SCOPE_DRIVER) as -> by (by injection Ew).
    destruct (create_txn _ _ _ _ _ _ _ _) as [[k db4]|[]] eqn:Et; try done. injection H1 as _ <-.
    rewrite driver_balance_save, Z.eqb_refl. rewrite <- Hb0. done.
  - intros H. apply res_bind_ok in H as ([b db1] & _ & H). done.
Qed.

Lemma is_cash_delta (t : Trip) (a : Amounts) :
  is_cash t = true -> settlement_delta t a = - (am_commission a + default 0 (am_tax a) + default 0 (am_fee a)).
Proof. intros H. unfold settlement_delta. by rewrite H. Qed.

Lemma amounts_net (env : SettleEnv) (db : Db) (t : Trip) (a : Amounts) :
  settlement_amounts env db t = Ok a -> am_net a = am_gross a - am_commission a.
Proof.
  unfold settlement_amounts. intros H. apply res_bind_ok in H as (s & _ & H).
  destruct (match s with Some _ => _ | None => _ end) as [[g tx] fe].
  apply res_bind_ok in H as (r & _ & H). apply res_bind_ok in H as (gd & _ & H).
  apply res_bind_ok in H as (m & _ & H). by injection H as <-.
Qed.

(** Every operation of this file. *)
Inductive money_step (env : SettleEnv) : Db -> Db -> Prop :=
| step_credit t db db' : credit_driver_wallet env t db = Ok db' -> money_step env db db'
| step_defer t db b db' : settle_or_defer env t db = Ok (b, db') -> money_step env db db'
| step_collected t n c db x db' : credit_fare_collected_by_platform env t n c db = Ok (x, db') -> money_step env db db'
| step_paid t n c db x db' : settle_paid_by_platform env t n c db = Ok (x, db') -> money_step env db db'
| step_reverse t db x db' : reverse_trip_earnings env t db = Ok (x, db') -> money_step env db db'
| step_retry t db b db' : retry_trip env t db = Ok (b, db') -> money_step env db db'.

Lemma money_step_conserves (env : SettleEnv) (db db' : Db) : money_step env db db' -> conserves db db'.
Proof.
  destruct 1; eauto using credit_conserves, settle_or_defer_conserves, collected_conserves, paid_conserves,
    reverse_conserves, retry_conserves.
Qed.

(** * Properties *)

(** The arithmetic of a settlement is exact: it never fails on a trip whose commission is
    known, the commission is the driver's pre-tax fare times the rate, rounded half up once,
    fare, tax and fee add up to what the trip charged, and commission and net to the fare. *)
Theorem settlement_amounts_exact (env : SettleEnv) (db : Db) (t : Trip) (p : dec) :
  commission_rate env t = Ok p -> pct_ok p -> (dval p <= 100)%Q ->
  0 <= trip_gross_minor t < 10 ^ 18 -> (forall r, r ∈ redemptions db -> 0 <= discount_amount_minor r) ->
  cards_ok (se_cards env) -> (forall z, trip_zone t = Some z -> zone_ok z) ->
  exists a, settlement_amounts env db t = Ok a /\
    am_gross a + default 0 (am_tax a) + default 0 (am_fee a) = trip_gross_minor t /\
    0 <= am_gross a /\ 0 <= default 0 (am_tax a) /\ 0 <= default 0 (am_fee a) /\
    am_commission a = rhu (share (am_gross a) p) /\ am_commission a + am_net a = am_gross a /\
    0 <= am_commission a <= am_gross a.
Proof.
  intros Hp Hok H100 Hg Hamt Hcards Hzone.
  assert (exponent (Some (currency_for_trip (Some t))) = Ok 2) as Hexp by apply currency_for_trip_exponent.
  assert (0 <= discount_minor db t) as Hd.
  { unfold discount_minor. destruct (is_platform_funded t); [lia|]. apply zsum_nonneg.
    intros r [Hr _]%elem_of_filter_b. by apply Hamt. }
  assert (forall g, 0 <= g < 10 ^ 18 -> 0 <= rhu (share g p) <= g) as Hbound.
  { intros g H. split; [apply rhu_nonneg, share_nonneg; [lia|done]|].
    rewrite <- (rhu_Z g) at 2. apply rhu_mono, share_le; [lia|done|done]. }
  destruct (settlement_split_sums (split_input env db t) t (trip_gross_minor t) (Some (currency_for_trip (Some t))))
    as (r & Hr & _ & Hs); [apply currency_for_trip_supported|lia|done|done|done|].
  unfold settlement_amounts. rewrite Hr. cbn [lift_money map_err res_bind]. rewrite Hp.
  set (g := match r with Some s => pretax_minor s | None => trip_gross_minor t end).
  assert (0 <= g < 10 ^ 18) as Hgb by (unfold g; destruct r as [s|]; [destruct (Hs s eq_refl) as (?&?&?&?); lia|lia]).
  assert (lift_money (from_minor_Z g (Some (currency_for_trip (Some t)))) = Ok (Dec g (-2))) as Hfm.
  { unfold lift_money. rewrite (proj1 (from_minor_Z_spec g _ 2 ltac:(unfold prec; lia) Hexp)). done. }
  assert (lift_money (percent_minor (Dec g (-2)) p HUNDRED (Some (currency_for_trip (Some t)))) = Ok (rhu (share g p))) as Hpm.
  { unfold lift_money. change HUNDRED with (Dec (10 ^ (2 + 0)) (- 0)).
    rewrite percent_minor_spec by (done || lia || (unfold amount_ok; lia)). done. }
  specialize (Hbound g Hgb).
  destruct r as [s|]; unfold g in *; cbn [res_bind]; rewrite Hfm; cbn [res_bind]; rewrite Hpm; cbn [res_bind];
    (eexists; split; [done|]); cbn; [destruct (Hs s eq_refl) as (?&?&?&?)|]; repeat split; lia.
Qed.

Definition demo_settle_env : SettleEnv := {|
  se_rules := demo_table; se_zones := <[1 := demo_zone]> ∅; se_cards := []; se_user_of := fun d => d + 100;
  se_stored := fun _ => None; se_active := fun _ => true;
  se_lookup := {| find_zone_for_point := fun _ => None |} |}.

Definition cash_trip : Trip := demo_trip.

Definition online_trip : Trip := {|
  trip_id := 81; trip_rider := 5; trip_driver := Some 9; trip_zone := Some demo_zone;
  trip_pickup := (0%Q, 0%Q); trip_vehicle_type := Some 7; trip_vehicle_vt := None;
  trip_requested_at := 10; trip_currency := "INR"; estimated_fare_minor := Some 13568;
  final_fare_minor := None; payment_method := Some (OtherMethod "online"); end_rule := EmptyString;
  commission_percent_snapshot := None; commission_rule_id := None; commission_rule_version := None |}.

Lemma settlement_amounts_exact_witness :
  exists a, settlement_amounts demo_settle_env (empty_db 10) cash_trip = Ok a /\ am_commission a = 1628 /\ am_net a = 11940 /\
    am_gross a + default 0 (am_tax a) + default 0 (am_fee a) = trip_gross_minor cash_trip /\
    am_commission a + am_net a = am_gross a.
Proof.
  destruct (settlement_amounts_exact demo_settle_env (empty_db 10) cash_trip (Dec 1200 (-2))) as (a & H1 & H2 & _ & _ & _ & _ & H3 & _).
  - vm_compute; reflexivity.
  - split; cbn; lia.
  - vm_compute. discriminate.
  - vm_compute. split; [discriminate|reflexivity].
  - intros r Hr. by apply not_elem_of_nil in Hr.
  - intros c Hc. by apply not_elem_of_nil in Hc.
  - intros z Hz. injection Hz as <-. split; [cbn; lia|right; vm_compute; reflexivity].
  - exists a. split; [exact H1|]. vm_compute in H1. injection H1 as <-. split; [reflexivity|]. split; [reflexivity|].
    split; [exact H2|exact H3].
Defined.

(** C10. The balance is the ledger: every settlement operation moves each driver's balance by
    exactly what it writes on that driver's ledger, so a balance that starts equal to its
    ledger stays equal to it, whatever is settled, paid, deferred, retried or reversed. *)
Theorem balance_is_the_ledger (env : SettleEnv) (db0 db : Db) :
  rtc (money_step env) db0 db ->
  forall u, driver_balance db0 u = ledger_total db0 u -> driver_balance db u = ledger_total db u.
Proof.
  intros Hr u H0. assert (conserves db0 db) as Hc.
  { induction Hr as [|x y z Hxy _ IH]; [reflexivity|]. eapply conserves_trans; [by eapply money_step_conserves|].
    apply IH. specialize (money_step_conserves env x y Hxy u). lia. }
  specialize (Hc u). lia.
Qed.

Definition settled_db (t : Trip) : Db :=
  match credit_driver_wallet demo_settle_env t (empty_db 10) with Ok db => db | Err _ => empty_db 10 end.

Lemma settled_db_ok (t : Trip) :
  is_ok (credit_driver_wallet demo_settle_env t (empty_db 10)) = true ->
  credit_driver_wallet demo_settle_env t (empty_db 10) = Ok (settled_db t).
Proof. unfold settled_db. by destruct (credit_driver_wallet _ _ _). Qed.

Lemma balance_is_the_ledger_witness :
  driver_balance (settled_db cash_trip) 109 = -1628 /\ driver_balance (settled_db cash_trip) 109 = ledger_total (settled_db cash_trip) 109.
Proof.
  split; [vm_compute; reflexivity|]. apply (balance_is_the_ledger demo_settle_env (empty_db 10)).
  - apply rtc_once. eapply step_credit. apply (settled_db_ok cash_trip). vm_compute; reflexivity.
  - vm_compute; reflexivity.
Defined.

(** Settling is idempotent: once a trip with a driver has been settled, settling it again
    succeeds and changes nothing at all, however its payment method reads by then. *)
Theorem settling_again_changes_nothing (env : SettleEnv) (t : Trip) (db db' : Db) :
  base.NoDup (rd_id <$> redemptions db) ->
  credit_driver_wallet env t db = Ok db' -> credit_driver_wallet env t db' = Ok db'.
Proof.
  intros Hn H. destruct (trip_driver t) as [d|] eqn:Ed; [|unfold credit_driver_wallet; by rewrite Ed].
  destruct (is_platform_funded t) eqn:Ep; [unfold credit_driver_wallet; by rewrite Ed, Ep|].
  destruct (credit_driver_wallet_ok env t d db db' Ed Ep H) as (a & Ha & Hcase).
  assert (has_key db' (trip_key (trip_id t) "EARNING") /\ driver_wallet_exists db' (se_user_of env d) /\
    settlement_amounts env db' t = Ok a) as (Hk & [w Hw] & Ha').
  { destruct Hcase as [[Hk ->]|(db1 & Hw & ->)].
    - split; [done|]. split; [by eexists; apply wallet_after_get|]. rewrite <- Ha. by apply settlement_amounts_frame.
    - destruct (settlement_moves _ _ _ _ _ _ _ Hw) as (_ & _ & _ & Hrd & Hcl & Hk & Hwal & _).
      destruct (settle_promo_frame env t (se_user_of env d) db1) as (F1 & F2 & F3); [by rewrite Hrd|].
      split; [by apply settle_promo_money|]. split; [by apply F3|]. rewrite <- Ha.
      apply settlement_amounts_frame; [|congruence]. rewrite F1. unfold discount_minor, held. by rewrite Hrd. }
  unfold credit_driver_wallet. rewrite Ed, Ep, Ha'. cbn [res_bind].
  rewrite (write_settlement_dup env t d a db' Hk). cbn [res_bind]. f_equal. by eapply get_wallet_present.
Qed.

Lemma settling_again_changes_nothing_witness :
  credit_driver_wallet demo_settle_env online_trip (empty_db 10) = Ok (settled_db online_trip) /\
  driver_balance (settled_db online_trip) 109 = 11940 /\
  credit_driver_wallet demo_settle_env online_trip (settled_db online_trip) = Ok (settled_db online_trip).
Proof.
  assert (credit_driver_wallet demo_settle_env online_trip (empty_db 10) = Ok (settled_db online_trip)) as H
    by (apply settled_db_ok; vm_compute; reflexivity).
  split; [exact H|]. split; [vm_compute; reflexivity|].
  apply (settling_again_changes_nothing demo_settle_env online_trip (empty_db 10)); [apply NoDup_nil_2|exact H].
Defined.

(** C2. However a trip is paid, the driver ends with its net.  A cash driver keeps what the
    rider hands over (the fare less the promo discount, tax and fee included) and the balance
    takes the rest; if the same trip is then paid through the platform, the balance itself
    ends at the net, exactly as an online trip leaves it. *)
Theorem driver_always_nets_the_trip (env : SettleEnv) (t : Trip) (d : Z) (db : Db) (a : Amounts) (db1 db2 : Db) (n : Z) :
  let user := se_user_of env d in
  let charged := am_gross a + default 0 (am_tax a) + default 0 (am_fee a) in
  trip_driver t = Some d -> is_platform_funded t = false -> settlement_amounts env db t = Ok a ->
  write_settlement env t d a db = Ok (Some db1, db1) -> settle_trip t (Some user) (is_cash t) db1 = Ok (n, db2) ->
  credit_driver_wallet env t db = Ok db2 /\
  (is_cash t = true -> driver_balance db2 user + (charged - n) = driver_balance db user + am_net a) /\
  (is_cash t = false -> driver_balance db2 user = driver_balance db user + am_net a) /\
  (is_cash t = true -> forall paid currency i db3,
     trip_id paid = trip_id t -> trip_driver paid = Some d ->
     settle_paid_by_platform env paid (charged - n) currency db2 = Ok (Some i, db3) ->
     driver_balance db3 user = driver_balance db user + am_net a).
Proof.
  intros user charged Hd Hp Ha Hw Hs. pose proof (amounts_net _ _ _ _ Ha) as Hnet.
  destruct (settlement_moves _ _ _ _ _ _ _ Hw) as (_ & Hb & _). specialize (Hb user). rewrite Z.eqb_refl in Hb.
  destruct (settle_trip_money _ _ _ _ _ _ Hs) as (_ & _ & _ & Hb2). specialize (Hb2 user).
  rewrite (bool_decide_true (Some user = Some user)), andb_true_r in Hb2 by done.
  assert (is_cash t = true -> driver_balance db2 user + (charged - n) = driver_balance db user + am_net a) as Hcash.
  { intros Hc. rewrite Hc in Hb2. rewrite (is_cash_delta t a Hc) in Hb. unfold charged. lia. }
  split; [|split; [exact Hcash|split]].
  - unfold credit_driver_wallet. rewrite Hd, Hp, Ha. cbn [res_bind]. rewrite Hw. cbn [res_bind].
    unfold settle_promo. fold user. by rewrite Hs.
  - intros Hc. rewrite Hc in Hb2. unfold settlement_delta in Hb. rewrite Hc in Hb. lia.
  - intros Hc paid currency i db3 _ Hpd H3. apply (paid_some _ _ d) in H3; [|done]. fold user in H3. specialize (Hcash Hc). lia.
Qed.

Lemma driver_always_nets_the_trip_witness :
  let db2 := settled_db cash_trip in
  driver_balance db2 109 = -1628 /\
  exists i db3, settle_paid_by_platform demo_settle_env online_trip 13568 None db2 = Ok (Some i, db3) /\
    driver_balance db3 109 = 11940.
Proof.
  intros db2.
  destruct (settlement_amounts demo_settle_env (empty_db 10) cash_trip) as [a|] eqn:Ea; [|vm_compute in Ea; discriminate Ea].
  destruct (write_settlement demo_settle_env cash_trip 9 a (empty_db 10)) as [[[db1|] db1']|] eqn:Ew;
    [|vm_compute in Ea; injection Ea as <-; vm_compute in Ew; discriminate Ew..].
  assert (db1' = db1) as -> by (vm_compute in Ea; injection Ea as <-; vm_compute in Ew; injection Ew as <- <-; reflexivity).
  assert (settle_trip cash_trip (Some 109) true db1 = Ok (0, db1)) as Es
    by (vm_compute in Ea; injection Ea as <-; vm_compute in Ew; injection Ew as <-; vm_compute; reflexivity).
  assert (am_gross a + default 0 (am_tax a) + default 0 (am_fee a) = 13568 /\ am_net a = 11940) as [Hg Hn]
    by (vm_compute in Ea; injection Ea as <-; split; reflexivity).
  destruct (driver_always_nets_the_trip demo_settle_env cash_trip 9 (empty_db 10) a db1 db1 0) as (H1 & H2 & _ & H4);
    [reflexivity | vm_compute; reflexivity | exact Ea | exact Ew | exact Es |].
  assert (db2 = db1) as -> by (unfold db2, settled_db; rewrite H1; reflexivity).
  split.
  { specialize (H2 ltac:(vm_compute; reflexivity)). rewrite Hg, Hn in H2.
    change (driver_balance (empty_db 10) (se_user_of demo_settle_env 9)) with 0 in H2.
    change (se_user_of demo_settle_env 9) with 109 in H2. lia. }
  destruct (settle_paid_by_platform demo_settle_env online_trip 13568 None db1) as [[[i|] db3]|] eqn:E3;
    [|vm_compute in Ea; injection Ea as <-; vm_compute in Ew; injection Ew as <-; vm_compute in E3; discriminate E3..].
  exists i, db3. split; [reflexivity|].
  specialize (H4 ltac:(vm_compute; reflexivity) online_trip None i db3 eq_refl eq_refl).
  rewrite Hg in H4. specialize (H4 E3). rewrite Hn in H4. exact H4.
Defined.

(** A refunded trip is taken back once.  The reversal debits exactly what the trip's lines
    left the driver, only when that is positive, and asking again takes nothing more. *)
Theorem refund_reversal_once (env : SettleEnv) (t : Trip) (d : Z) (db db' : Db) (x : option Z) :
  let user := se_user_of env d in
  trip_driver t = Some d -> reverse_trip_earnings env t db = Ok (x, db') ->
  (forall i, x = Some i -> 0 < trip_net db user (trip_id t) /\
     driver_balance db' user = driver_balance db user - trip_net db user (trip_id t)) /\
  (x = None -> driver_balance db' user = driver_balance db user /\ txns db' = txns db) /\
  reverse_trip_earnings env t db' = Ok (None, db').
Proof.
  intros user Hd. unfold reverse_trip_earnings. rewrite Hd. fold user.
  destruct (get_wallet user SCOPE_DRIVER db) as [w db0] eqn:Ew.
  assert (w = wallet_of db user SCOPE_DRIVER) as -> by (by injection Ew).
  assert (db0 = (get_wallet user SCOPE_DRIVER db).2) as E0 by (by rewrite Ew).
  assert (driver_balance db0 user = driver_balance db user) as Hb0 by (rewrite E0; apply driver_balance_get).
  assert (trip_net db0 user (trip_id t) = trip_net db user (trip_id t)) as Hn0 by (by rewrite E0).
  assert (wallets db0 !! (user, SCOPE_DRIVER) = Some (wallet_of db user SCOPE_DRIVER)) as Hw0 by (rewrite E0; apply wallet_after_get).
  assert (txns db0 = txns db) as Ht0 by (by rewrite E0). rewrite Hn0.
  destruct (Z.leb_spec (trip_net db user (trip_id t)) 0) as [Hle|Hgt].
  { intros [= <- <-]. split; [done|]. split; [done|].
    pose proof (get_wallet_present user SCOPE_DRIVER db0 _ Hw0) as Hp.
    destruct (get_wallet user SCOPE_DRIVER db0) as [w1 db1]. cbn in Hp. subst db1. rewrite Hn0.
    by rewrite (proj2 (Z.leb_le _ _)). }
  destruct (create_txn _ _ _ _ _ _ _ db0) as [[i db1]|err] eqn:Et.
  - pose proof Et as (_ & _ & E1)%create_txn_ok. intros [= <- <-]. set (db' := save_balance _ _ _ _).
    assert (driver_balance db' user = driver_balance db user - trip_net db user (trip_id t)) as Hb'.
    { unfold db'. rewrite driver_balance_save, Z.eqb_refl. done. }
    split; [by intros j [= <-]|]. split; [done|].
    assert (is_Some (wallets db' !! (user, SCOPE_DRIVER))) as [w' Hw'] by (unfold db'; cbn; rewrite lookup_insert_eq; by eexists).
    pose proof (get_wallet_present user SCOPE_DRIVER db' _ Hw') as Hp.
    destruct (get_wallet user SCOPE_DRIVER db') as [w1 db2]. cbn in Hp. subst db2.
    assert (trip_net db' user (trip_id t) = trip_net db user (trip_id t)) as ->.
    { unfold trip_net, trip_rows, db'. rewrite E1. cbn [txns save_balance set_wallets set_txns].
      rewrite Ht0, List.filter_app, List.filter_app, zsum_app. cbn [List.filter]. destruct (_ && _); cbn [List.filter txn_purpose];
        [change (bool_decide (PURPOSE_TRIP_REFUND_REVERSAL ∈ TRIP_LEDGER_PURPOSES)) with false|]; cbn; lia. }
    rewrite (proj2 (Z.leb_gt _ _) Hgt).
    rewrite (create_txn_refused _ _ _ _ _ _ _ db' {| txn_id := next_id db0; txn_user := user;
       txn_currency := wallet_currency (wallet_of db user SCOPE_DRIVER); amount_minor := trip_net db user (trip_id t);
       txn_type_of := debit; txn_status_of := Completed; txn_purpose := PURPOSE_TRIP_REFUND_REVERSAL;
       txn_reference := trip_ref (trip_id t); txn_key := Some (trip_key (trip_id t) "REFUND_REVERSAL");
       txn_created := clock db0 |}); [done| |done].
    unfold db'. rewrite E1. cbn. apply elem_of_app. right. by apply list_elem_of_singleton.
  - pose proof Et as [-> (y & Hy & Hk)]%create_txn_dup. intros [= <- <-]. split; [done|]. split; [done|].
    pose proof (get_wallet_present user SCOPE_DRIVER db0 _ Hw0) as Hp.
    destruct (get_wallet user SCOPE_DRIVER db0) as [w1 db2]. cbn in Hp. subst db2. rewrite Hn0.
    rewrite (proj2 (Z.leb_gt _ _) Hgt). by rewrite (create_txn_refused _ _ _ _ _ _ _ db0 y Hy Hk).
Qed.

Lemma refund_reversal_once_witness :
  exists x db', reverse_trip_earnings demo_settle_env online_trip (settled_db online_trip) = Ok (x, db') /\
    driver_balance db' 109 = 0 /\ reverse_trip_earnings demo_settle_env online_trip db' = Ok (None, db').
Proof.
  destruct (reverse_trip_earnings demo_settle_env online_trip (settled_db online_trip)) as [[x db']|] eqn:E;
    [|vm_compute in E; discriminate E].
  exists x, db'. split; [reflexivity|].
  destruct (refund_reversal_once demo_settle_env online_trip 9 (settled_db online_trip) db' x eq_refl E) as (_ & _ & H3).
  split; [vm_compute in E; injection E as _ <-; vm_compute; reflexivity|exact H3].
Defined.

(** A trip no commission rule governs is deferred and not lost: nothing is written on any
    wallet, ledger or settlement, and one critical alert stays open for it. *)
Theorem deferral_is_loud (env : SettleEnv) (t : Trip) (db db' : Db) :
  table_ok (alert_table db) -> settle_or_defer env t db = Ok (false, db') ->
  wallets db' = wallets db /\ txns db' = txns db /\ settlements db' = settlements db /\ histories db' = histories db /\
  exists a, find_open (alert_table db') SOURCE_TYPE (number (trip_id t)) = Some a /\ alert_severity a = CRITICAL.
Proof.
  intros [_ Hk]. unfold settle_or_defer. destruct (credit_driver_wallet env t db) as [|[]] eqn:E; try done.
  intros [= <-]. do 4 (split; [done|]). unfold raise_unsettled_alert. cbn [alert_table set_alerts].
  destruct (raise_alert_open (alert_table db) SETTLEMENT_NO_COMMISSION_RULE
    ("Trip " +:+ number (trip_id t) +:+ " cannot be settled: no commission rule")%string CRITICAL (trip_payload t)
    SOURCE_TYPE (number (trip_id t)) (city_place env t)) as (a & Ha & Hs & _).
  - done.
  - done.
  - intros Hz. apply (f_equal chars) in Hz. unfold number in Hz. rewrite chars_of_chars in Hz.
    destruct (digits_of_digits (Z.abs (trip_id t)) (Z.abs_nonneg _)) as [_ Hne].
    destruct (trip_id t <? 0), (digits_of (Z.abs (trip_id t))); done.
  - done.
  - exists a. split; [done|]. destruct (alert_severity a); cbn in Hs; [lia|lia|done].
Qed.

Definition ruleless_env : SettleEnv := {|
  se_rules := []; se_zones := ∅; se_cards := []; se_user_of := fun d => d + 100; se_stored := fun _ => None;
  se_active := fun _ => true; se_lookup := {| find_zone_for_point := fun _ => None |} |}.

Lemma deferral_is_loud_witness :
  exists db', settle_or_defer ruleless_env online_trip (empty_db 10) = Ok (false, db') /\ txns db' = [] /\
    exists a, find_open (alert_table db') SOURCE_TYPE "81" = Some a /\ alert_severity a = CRITICAL.
Proof.
  destruct (settle_or_defer ruleless_env online_trip (empty_db 10)) as [[[] db']|] eqn:E;
    [vm_compute in E; discriminate E| |vm_compute in E; discriminate E].
  exists db'. split; [reflexivity|].
  destruct (deferral_is_loud ruleless_env online_trip (empty_db 10) db') as (_ & H2 & _ & _ & H5); [|exact E|].
  - split; [intros st sid _ _; cbn; lia|]. split; [apply NoDup_nil_2|]. intros a Ha. by apply not_elem_of_nil in Ha.
  - split; [exact H2|exact H5].
Defined.
