(* ===== verification/Payouts.v ===== *)
(** * Payouts: a driver's money on its way out

    [WithdrawalRequest] of [servers/driver/models.py] and everything that moves it: the
    driver's request ([driver/views.py]), the weekly run's [_create_one]
    ([payments/weekly_payout.py]), release by a checker ([approvals/executors.py]), reject
    and retry ([payments/payout_actions.py]), the dispatch to the provider
    ([driver/services.py]), the provider's webhooks ([payments/views.py],
    [payout_conflict.py], [payout_reversal.py]) and the driver balance adjustment that
    settles a conflict ([payments/finance_executors.py]).

    The provider is an argument: what it answers to one call, and which events it sends.
    Texts for people (failure reasons, titles of amounts) and the timestamps of a row are
    left out, audit rows too.  Amounts of a request arrive in minor units. *)

From S2P Require Import Prelude PyDecimal PyText Countries Models Money Commission Alerts Store.
#[local] Open Scope string_scope.
#[local] Open Scope Z_scope.

(** ** Rows *)

Inductive wd_status :=
| WPending | WApproved | WRejected | WProcessed | WCompleted | WFailed | WUnresolved | WReversed | WConflict.

#[global] Instance wd_status_eq_dec : EqDecision wd_status.
Proof. solve_decision. Defined.

Record Withdrawal := {
  wd_id : Z;
  wd_driver : Z;
  wd_amount : Z;
  wd_currency : string;
  wd_method : string;
  wd_status_of : wd_status;
  wd_reference : option string;
  wd_payout_status : option string;
  wd_failures : Z;
  wd_fee : Z;
  wd_origin : string
}.

(** [OPEN_STATUSES] of the weekly run. *)
Definition OPEN_STATUSES : list wd_status := [WPending; WApproved; WProcessed; WUnresolved; WConflict].

(** [RecoveryDebt], of a driver. *)
Record Debt := {
  debt_id : Z;
  debt_user : Z;
  debt_request : Z;
  debt_amount : Z;
  debt_recovered : Z;
  debt_uncollected : Z;
  debt_currency : string;
  debt_closed : option Z
}.

Definition remaining_minor (d : Debt) : Z :=
  match debt_closed d with
  | Some _ => 0
  | None => Z.max 0 (debt_amount d - debt_recovered d - debt_uncollected d)
  end.

(** The columns of [PayoutCountryConfig] read here. *)
Record Config := {
  cf_country : string;
  cf_currency : string;
  cf_fee_percent : dec;
  cf_minimum : Z;
  cf_recovery_max : Z
}.

(** The [TransactionHistory] rows of a withdrawal. *)
Record PayoutHistory := {
  ph_withdrawal : Z;
  ph_transaction : option string;
  ph_payment : string;
  ph_status : string
}.

Record PState := {
  p_db : Db;
  p_wds : list Withdrawal;
  p_next : Z;
  p_debts : list Debt;
  p_history : list PayoutHistory;
  p_last : gmap Z Z
}.

(** What the code reads and does not write here. *)
Record PayEnv := {
  pv_user : Z -> Z;
  pv_upi : Z -> option string;
  pv_bank : Z -> bool;
  pv_contact : Z -> bool;
  pv_country : Z -> option string;
  pv_config : string -> option Config;
  pv_on_hold : Z -> Z -> bool;
  pv_held : Z -> string -> Z;
  pv_currency : Z -> string;
  pv_provider : string -> option string;
  pv_city : Z -> option Place
}.

Definition set_db (db : Db) (s : PState) : PState :=
  {| p_db := db; p_wds := p_wds s; p_next := p_next s; p_debts := p_debts s; p_history := p_history s;
     p_last := p_last s |}.

Definition set_wds (l : list Withdrawal) (s : PState) : PState :=
  {| p_db := p_db s; p_wds := l; p_next := p_next s; p_debts := p_debts s; p_history := p_history s;
     p_last := p_last s |}.

Definition find_wd (s : PState) (i : Z) : option Withdrawal := List.find (fun w => wd_id w =? i) (p_wds s).

(** [withdrawal.x = ...; withdrawal.save(update_fields=[...])]: the instance in hand and the
    named columns of the stored row. *)
Definition write (f : Withdrawal -> Withdrawal) (w : Withdrawal) (s : PState) : Withdrawal * PState :=
  (f w, set_wds (List.map (fun x => if wd_id x =? wd_id w then f x else x) (p_wds s)) s).

Definition with_status (st : wd_status) (w : Withdrawal) : Withdrawal :=
  {| wd_id := wd_id w; wd_driver := wd_driver w; wd_amount := wd_amount w; wd_currency := wd_currency w;
     wd_method := wd_method w; wd_status_of := st; wd_reference := wd_reference w;
     wd_payout_status := wd_payout_status w; wd_failures := wd_failures w; wd_fee := wd_fee w;
     wd_origin := wd_origin w |}.

Definition with_payout_status (ps : string) (w : Withdrawal) : Withdrawal :=
  {| wd_id := wd_id w; wd_driver := wd_driver w; wd_amount := wd_amount w; wd_currency := wd_currency w;
     wd_method := wd_method w; wd_status_of := wd_status_of w; wd_reference := wd_reference w;
     wd_payout_status := Some ps; wd_failures := wd_failures w; wd_fee := wd_fee w; wd_origin := wd_origin w |}.

Definition with_failures (n : Z) (w : Withdrawal) : Withdrawal :=
  {| wd_id := wd_id w; wd_driver := wd_driver w; wd_amount := wd_amount w; wd_currency := wd_currency w;
     wd_method := wd_method w; wd_status_of := wd_status_of w; wd_reference := wd_reference w;
     wd_payout_status := wd_payout_status w; wd_failures := n; wd_fee := wd_fee w; wd_origin := wd_origin w |}.

Definition with_reference (r : string) (w : Withdrawal) : Withdrawal :=
  {| wd_id := wd_id w; wd_driver := wd_driver w; wd_amount := wd_amount w; wd_currency := wd_currency w;
     wd_method := wd_method w; wd_status_of := wd_status_of w; wd_reference := Some r;
     wd_payout_status := wd_payout_status w; wd_failures := wd_failures w; wd_fee := wd_fee w;
     wd_origin := wd_origin w |}.

Definition set_alerts_of (f : AlertTable -> AlertTable) (s : PState) : PState :=
  set_db (set_alerts (f (alert_table (p_db s))) (p_db s)) s.

(** ** Fees, holds and recoveries *)

(** [withdrawal_fee]: the percentage, half up to a whole minor unit. *)
Definition withdrawal_fee (cf : Config) (amount : Z) : res db_error Z :=
  if dleb (cf_fee_percent cf) (of_Z 0) || (amount =? 0) then Ok 0
  else map_err MoneyFailed (map_err ArithmeticError (
    let* p := dmul (of_Z amount) (cf_fee_percent cf) in
    let* q := ddiv p (of_Z 100) in
    quantize_int_half_up q)).

(** [open_debts], oldest first. *)
Definition open_debts (s : PState) (user : Z) : list Debt :=
  List.filter (fun d => (debt_user d =? user) && bool_decide (debt_closed d = None)) (p_debts s).

Fixpoint take_from (debts : list Debt) (left : Z) : list (Debt * Z) :=
  match debts with
  | [] => []
  | d :: r =>
    let take := Z.min (remaining_minor d) left in
    if 0 <? take then (d, take) :: take_from r (left - take) else take_from r left
  end.

(** [plan_deduction] *)
Definition plan_deduction (s : PState) (user payout floor percent : Z) : Z * list (Debt * Z) :=
  let debts := List.filter (fun d => 0 <? remaining_minor d) (open_debts s user) in
  if match debts with [] => true | _ => payout <=? 0 end then (0, [])
  else
    let cap := Z.min (payout * percent / 100) (Z.max 0 (payout - Z.max 0 floor)) in
    let plan := take_from debts cap in
    (zsum snd plan, plan).

Definition recovered (d : Debt) (amount now : Z) : Debt :=
  let paid := {| debt_id := debt_id d; debt_user := debt_user d; debt_request := debt_request d;
                 debt_amount := debt_amount d; debt_recovered := debt_recovered d + amount;
                 debt_uncollected := debt_uncollected d; debt_currency := debt_currency d;
                 debt_closed := debt_closed d |} in
  if remaining_minor paid <=? 0
  then {| debt_id := debt_id d; debt_user := debt_user d; debt_request := debt_request d;
          debt_amount := debt_amount d; debt_recovered := debt_recovered d + amount;
          debt_uncollected := debt_uncollected d; debt_currency := debt_currency d; debt_closed := Some now |}
  else paid.

Definition recovery_key (debt wd : Z) : string := "recovery_" +:+ number debt +:+ "_w" +:+ number wd.

(** [apply_deduction]: a ledger line for each debt; the caller lowers the balance.  The check
    constraint keeps [recovered] within the debt. *)
Fixpoint apply_deduction (user wd : Z) (plan : list (Debt * Z)) (s : PState) : res db_error PState :=
  match plan with
  | [] => Ok s
  | (d, amount) :: r =>
    let* (_, db) := create_txn user (debt_currency d) amount debit "reward_recovery"
                      ("RECOVERY_" +:+ number (debt_request d)) (recovery_key (debt_id d) wd) (p_db s) in
    let d' := recovered d amount (clock db) in
    let* _ := require (debt_recovered d' <=? debt_amount d') IntegrityError in
    apply_deduction user wd r
      {| p_db := db; p_wds := p_wds s; p_next := p_next s;
         p_debts := List.map (fun x => if debt_id x =? debt_id d then d' else x) (p_debts s);
         p_history := p_history s; p_last := p_last s |}
  end.

(** ** Asking for money *)

Definition withdrawal_reference (i : Z) : string := "withdrawal_" +:+ number i.

(** The debit of a withdrawal: a [WalletTransaction] of status pending. *)
Definition create_pending_debit (user : Z) (currency : string) (amount : Z) (reference key : string) (db : Db) :
  res db_error Db :=
  if existsb (fun t => bool_decide (txn_key t = Some key)) (txns db) then Err IntegrityError
  else Ok (set_txns (next_id db + 1) (txns db ++ [{|
    txn_id := next_id db; txn_user := user; txn_currency := currency; amount_minor := amount;
    txn_type_of := debit; txn_status_of := Pending; txn_purpose := "withdrawal"; txn_reference := reference;
    txn_key := Some key; txn_created := clock db |}]) db).

Definition new_withdrawal (s : PState) (driver amount : Z) (currency origin : string) (fee : Z) : Withdrawal :=
  {| wd_id := p_next s; wd_driver := driver; wd_amount := amount; wd_currency := currency; wd_method := "upi";
     wd_status_of := WPending; wd_reference := None; wd_payout_status := None; wd_failures := 0; wd_fee := fee;
     wd_origin := origin |}.

(** The row, its debit, the balance, and the recoveries of the plan: what both ways of asking
    write.  [token] is the random part of the key. *)
Definition write_withdrawal (user : Z) (w : Withdrawal) (txn_currency token : string) (gross : Z)
    (plan : list (Debt * Z)) (s : PState) : res db_error PState :=
  let key := withdrawal_reference (wd_id w) +:+ "_" +:+ token in
  let* db := create_pending_debit user txn_currency (wd_amount w) (withdrawal_reference (wd_id w)) key (p_db s) in
  let db := save_balance user SCOPE_DRIVER (driver_balance db user - gross) db in
  apply_deduction user (wd_id w) plan
    {| p_db := db; p_wds := p_wds s ++ [w]; p_next := p_next s + 1; p_debts := p_debts s;
       p_history := p_history s; p_last := p_last s |}.

Definition driver_has (s : PState) (driver : Z) (l : list wd_status) : bool :=
  existsb (fun w => (wd_driver w =? driver) && bool_decide (wd_status_of w ∈ l)) (p_wds s).

Definition has_open_conflict (s : PState) (driver : Z) : bool := driver_has s driver [WConflict].

(** [_create_one] of the weekly run: [None] where the driver no longer qualifies. *)
Definition create_one (env : PayEnv) (driver : Z) (cf : Config) (token : string) (s : PState) :
  res db_error (option Withdrawal * PState) :=
  let user := pv_user env driver in
  let floor := Z.max 1 (cf_minimum cf) in
  match wallets (p_db s) !! (user, SCOPE_DRIVER) with
  | None => Ok (None, s)
  | Some wallet =>
    if negb (bool_decide (wallet_currency wallet = cf_currency cf)) || (balance_minor wallet <? floor) then Ok (None, s)
    else if negb (bool_decide (pv_country env driver = Some (cf_country cf))) then Ok (None, s)
    else if driver_has s driver OPEN_STATUSES then Ok (None, s)
    else if pv_on_hold env driver (clock (p_db s)) then Ok (None, s)
    else
      let gross := balance_minor wallet - pv_held env user (cf_currency cf) in
      if gross <? floor then Ok (None, s)
      else
        let '(deduct, plan) := plan_deduction s user gross floor (cf_recovery_max cf) in
        let amount := gross - deduct in
        let* fee := withdrawal_fee cf amount in
        if amount <=? fee then Ok (None, s)
        else
          let w := new_withdrawal s driver amount (cf_currency cf) "scheduled" fee in
          let* s' := write_withdrawal user w (cf_currency cf) token gross plan s in
          Ok (Some w, s')
  end.

Definition DAYS (n : Z) : Z := n * 86400.

(** [is_withdrawal_blocked]: seven days after the last confirmed withdrawal. *)
Definition is_withdrawal_blocked (s : PState) (driver : Z) : bool :=
  match p_last s !! driver with Some t => clock (p_db s) <? t + DAYS 7 | None => false end.

(** [has_payout_handle], [has_payout_destination] *)
Definition has_payout_handle (env : PayEnv) (driver : Z) : bool := pv_contact env driver || pv_bank env driver.

Definition has_payout_destination (env : PayEnv) (driver : Z) : bool :=
  negb (bool_decide (strip (default EmptyString (pv_upi env driver)) = EmptyString)) || has_payout_handle env driver.

(** [driver_withdrawal_request].  A refusal leaves at most an empty wallet behind, which reads
    like none. *)
Definition driver_withdrawal_request (env : PayEnv) (driver amount : Z) (token : string) (s : PState) :
  res db_error (Withdrawal * PState) :=
  let user := pv_user env driver in
  match pv_country env driver ≫= pv_config env with
  | None => Err (Refused "WITHDRAWALS_NOT_AVAILABLE")
  | Some cf =>
    let* _ := require (negb (pv_on_hold env driver (clock (p_db s)) || has_open_conflict s driver)) (Refused "PAYOUT_ON_HOLD") in
    let* _ := require (has_payout_destination env driver) (Refused "PAYOUT_DETAILS_MISSING") in
    let* _ := require (negb (is_withdrawal_blocked s driver)) (Refused "WITHDRAWAL_BLOCKED") in
    let* _ := require (0 <? amount) (Refused "VALIDATION_ERROR") in
    let '(wallet, db) := get_wallet user SCOPE_DRIVER (p_db s) in
    let s := set_db db s in
    let free := Z.max 0 (balance_minor wallet - pv_held env user (wallet_currency wallet)) in
    let* _ := require ((cf_minimum cf <=? amount) && (amount <=? free)) (Refused "INSUFFICIENT_BALANCE") in
    let '(deduct, plan) := plan_deduction s user amount (cf_minimum cf) (cf_recovery_max cf) in
    let* fee := withdrawal_fee cf (amount - deduct) in
    let* _ := require (fee <? amount - deduct) (Refused "AMOUNT_BELOW_FEE") in
    let w := new_withdrawal s driver (amount - deduct) (pv_currency env user) "driver" fee in
    let* s' := write_withdrawal user w (pv_currency env user) token amount plan s in
    Ok (w, s')
  end.

(** ** Coming back to the wallet *)

(** [payout_actions._reject_locked] on a locked, pending row. *)
Definition reject_reference (i : Z) : string := "refund_rejected_withdrawal_" +:+ number i.

(** Whether a completed credit of that purpose and reference exists. *)
Definition credited (db : Db) (purpose reference : string) : bool :=
  existsb (fun t => bool_decide (txn_reference t = reference) && bool_decide (txn_purpose t = purpose) &&
                    bool_decide (txn_type_of t = credit) && bool_decide (txn_status_of t = Completed)) (txns db).

(** Credit the amount once: a wallet that is missing raises, a credit that exists is kept. *)
Definition credit_once (env : PayEnv) (user amount : Z) (purpose reference : string) (s : PState) : res db_error PState :=
  match wallets (p_db s) !! (user, SCOPE_DRIVER) with
  | None => Err DoesNotExist
  | Some _ =>
    if credited (p_db s) purpose reference then Ok s
    else
      let* (_, db) := create_txn user (pv_currency env user) amount credit purpose reference reference (p_db s) in
      Ok (set_db (save_balance user SCOPE_DRIVER (driver_balance db user + amount) db) s)
  end.

Definition reject_one (env : PayEnv) (i : Z) (s : PState) : res db_error (Withdrawal * PState) :=
  match find_wd s i with
  | None => Err (Refused "NOT_FOUND")
  | Some w =>
    let* _ := require (bool_decide (wd_status_of w = WPending)) (Refused "INVALID_STATUS") in
    let* s := map_err (fun e => match e with DoesNotExist => Refused "WALLET_NOT_FOUND" | e => e end)
                (credit_once env (pv_user env (wd_driver w)) (wd_amount w) "refund_rejected_withdrawal" (reject_reference i) s) in
    Ok (write (with_status WRejected) w s)
  end.

(** [retry_attempts]: the human retries are counted by the prefix of their debits' keys. *)
Definition retry_prefix (i : Z) : string := "withdrawal_retry_" +:+ number i +:+ "_".

Definition has_prefix (p : string) (k : option string) : bool :=
  match k with Some k => String.prefix p k | None => false end.

Definition retry_attempts (db : Db) (i : Z) : Z :=
  Z.of_nat (length (List.filter (fun t => has_prefix (retry_prefix i) (txn_key t)) (txns db))).

Definition failed_refund (i attempts : Z) : string :=
  if attempts =? 0 then "refund_withdrawal_" +:+ number i
  else "refund_withdrawal_" +:+ number i +:+ "_r" +:+ number attempts.

Definition failed_refund_reference (db : Db) (i : Z) : string := failed_refund i (retry_attempts db i).

(** [refund_failed_withdrawal] of the dispatch and [refund_failed_payout] of the webhook. *)
Definition refund_failed (env : PayEnv) (w : Withdrawal) (s : PState) : res db_error PState :=
  credit_once env (pv_user env (wd_driver w)) (wd_amount w) "refund_failed_withdrawal"
    (failed_refund_reference (p_db s) (wd_id w)) s.

(** [retry_failed] up to the dispatch: the amount leaves the wallet again.  [approved_before]
    says whether the audit log holds the release by a checker ([was_approved]). *)
Definition retry_failed (env : PayEnv) (approved_before : bool) (i : Z) (s : PState) : res db_error (Withdrawal * PState) :=
  match find_wd s i with
  | None => Err (Refused "NOT_FOUND")
  | Some w =>
    let user := pv_user env (wd_driver w) in
    let* _ := require (bool_decide (wd_status_of w = WFailed)) (Refused "NOT_FAILED") in
    let* _ := require approved_before (Refused "NOT_APPROVED") in
    let* _ := require (negb (truthy (wd_reference w))) (Refused "PAYOUT_HAS_REFERENCE") in
    let* _ := require (match wallets (p_db s) !! (user, SCOPE_DRIVER) with
                       | Some wallet => wd_amount w <=? balance_minor wallet | None => false end)
                (Refused "WALLET_BALANCE_TOO_LOW") in
    let attempt := retry_attempts (p_db s) i + 1 in
    let* db := create_pending_debit user (pv_currency env user) (wd_amount w) (withdrawal_reference i)
                 (retry_prefix i +:+ number attempt) (p_db s) in
    let db := save_balance user SCOPE_DRIVER (driver_balance db user - wd_amount w) db in
    Ok (write (fun w => with_failures 0 (with_status WApproved w)) w (set_db db s))
  end.

(** ** Release by a checker *)

Inductive approve_answer := NotPending | NoDestination | Released (w : Withdrawal).

(** [executors._approve_one] *)
Definition approve_one (env : PayEnv) (i : Z) (s : PState) : approve_answer * PState :=
  match find_wd s i with
  | None => (NotPending, s)
  | Some w =>
    if negb (bool_decide (wd_status_of w = WPending)) then (NotPending, s)
    else if negb (has_payout_destination env (wd_driver w)) then (NoDestination, s)
    else if has_open_conflict s (wd_driver w) then (NotPending, s)
    else let '(w, s) := write (with_status WApproved) w s in (Released w, s)
  end.

(** ** Dispatch *)

(** [payout_rails] *)
Definition RAILS : list string := ["INR"].
Definition AWAITING_RAIL : string := "awaiting_rail".
Definition has_rail (currency : string) : bool := bool_decide (upper currency ∈ RAILS).

Definition hold (w : Withdrawal) (s : PState) : Withdrawal * PState := write (with_payout_status AWAITING_RAIL) w s.

(** [validate_upi_id_advanced], its verdict. *)
Definition is_letter (c : Ascii.ascii) : bool :=
  ((65 <=? code c) && (code c <=? 90)) || ((97 <=? code c) && (code c <=? 122)).

Definition is_name_char (c : Ascii.ascii) : bool :=
  is_letter c || is_digit c || (code c =? 46) || (code c =? 45) || (code c =? 95).

Definition UPI_PROVIDERS : list string :=
  ["upi"; "okicici"; "okaxis"; "okhdfcbank"; "oksbi"; "ybl"; "axl"; "ibl"; "sbi"; "hdfc"; "icici"; "axis"; "kotak";
   "paytm"; "phonepe"].

Definition UPI_TEST_NAMES : list string := ["test"; "demo"; "mock"; "example"; "success"; "failure"; "invalid"].

Fixpoint span_name (l : list Ascii.ascii) : list Ascii.ascii * list Ascii.ascii :=
  match l with
  | c :: r => if is_name_char c then let '(d, t) := span_name r in (c :: d, t) else ([], l)
  | [] => ([], [])
  end.

Definition validate_upi (upi : string) : bool :=
  let '(name, rest) := span_name (strip_chars (chars upi)) in
  match rest with
  | [] => false
  | at_sign :: provider =>
    (code at_sign =? 64) && forallb is_letter provider &&
    (2 <=? length name)%nat && (length name <=? 256)%nat && (2 <=? length provider)%nat && (length provider <=? 64)%nat &&
    bool_decide (of_chars (lower_char <$> provider) ∈ UPI_PROVIDERS) &&
    negb (bool_decide (of_chars (lower_char <$> name) ∈ UPI_TEST_NAMES))
  end.

(** The reference of ours that [create_upi_payout] sends as the transfer id. *)
Definition payout_reference (w : Withdrawal) : string :=
  withdrawal_reference (wd_id w) +:+ "_driver_" +:+ number (wd_driver w).

(** What the provider answers to one [create_upi_payout]: [Taken] with the payout's id and
    status, a definite no, no answer after the request went out, or any other exception. *)
Inductive answer :=
| Taken (payout_id : option string) (status : option string)
| Declined
| NoAnswer
| Raised.

(** How [initiate_upi_payout] ends. *)
Inductive initiated := Initiated (ok : bool) | DispatchUnknown.

Definition failed_try (called : bool) (w : Withdrawal) (s : PState) : initiated * bool * Withdrawal * PState :=
  let '(w, s) := write (with_failures (wd_failures w + 1)) w s in (Initiated false, called, w, s).

Definition MAX_RETRIES : Z := 1.

(** [initiate_upi_payout] on the instance [w]; it also says whether the provider was called. *)
Definition initiate_upi_payout (env : PayEnv) (ans : answer) (w : Withdrawal) (s : PState) :
  initiated * bool * Withdrawal * PState :=
  let currency := normalize_currency (Some (if truthy (Some (wd_currency w)) then wd_currency w
                    else pv_currency env (pv_user env (wd_driver w)))) None in
  match pv_upi env (wd_driver w) with
  | None => failed_try false w s
  | Some upi =>
    if negb (bool_decide (currency = "INR")) || bool_decide (upi = EmptyString) || negb (validate_upi upi)
    then failed_try false w s
    else if truthy (wd_reference w) then (Initiated true, false, w, s)
    else if MAX_RETRIES <=? wd_failures w then (Initiated false, false, w, s)
    else match pv_provider env currency with
    | None => failed_try false w s
    | Some _ =>
      match ans with
      | Taken (Some payout_id) status =>
        if bool_decide (payout_id = EmptyString) then failed_try true w s
        else
          let '(w, s) := write (fun w => with_failures 0 (with_status WProcessed
                           (with_payout_status (default "created" status) (with_reference payout_id w)))) w s in
          (Initiated true, true, w, s)
      | Taken None _ | Declined | Raised => failed_try true w s
      | NoAnswer => (DispatchUnknown, true, w, s)
      end
    end
  end.

(** The failure is saved, then the refund; when the refund raises, the outer handler saves the
    failure and tries the refund once more, and then gives up. *)
Definition fail_and_refund (env : PayEnv) (w : Withdrawal) (s : PState) : Withdrawal * PState :=
  let '(w, s) := write (with_status WFailed) w s in
  match refund_failed env w s with
  | Ok s' => (w, s')
  | Err _ => match refund_failed env w s with Ok s' => (w, s') | Err _ => (w, s) end
  end.

(** What [trigger_payout_creation] does with the answer of [initiate_upi_payout]. *)
Definition finish_dispatch (env : PayEnv) (r : initiated) (w : Withdrawal) (s : PState) : bool * Withdrawal * PState :=
  match r with
  | DispatchUnknown => let '(w, s) := write (with_status WUnresolved) w s in (false, w, s)
  | Initiated true => let '(w, s) := write (with_status WProcessed) w s in (true, w, s)
  | Initiated false => let '(w, s) := fail_and_refund env w s in (false, w, s)
  end.

Definition trigger_payout_creation (env : PayEnv) (ans : answer) (w : Withdrawal) (s : PState) : bool * Withdrawal * PState :=
  if negb (bool_decide (wd_status_of w ∈ [WApproved; WProcessed])) then (false, w, s)
  else if negb (has_rail (wd_currency w)) then let '(w, s) := hold w s in (false, w, s)
  else if bool_decide (wd_method w = "upi") then
    let '(r, _, w, s) := initiate_upi_payout env ans w s in finish_dispatch env r w s
  else let '(w, s) := fail_and_refund env w s in (false, w, s).

(** The same dispatch in its separate transactions, none of them under a lock: the guards and
    the call to the provider with the first save, the save of the outcome, and the refund of
    a failure. *)
Inductive Flight :=
| Loaded (w : Withdrawal)
| Called (r : initiated) (w : Withdrawal)
| Refunding (w : Withdrawal).

Definition call_provider (env : PayEnv) (ans : answer) (w : Withdrawal) (s : PState) : option Flight * PState :=
  if negb (bool_decide (wd_status_of w ∈ [WApproved; WProcessed])) then (None, s)
  else if negb (has_rail (wd_currency w)) then (None, (hold w s).2)
  else if bool_decide (wd_method w = "upi") then
    let '(r, _, w, s) := initiate_upi_payout env ans w s in (Some (Called r w), s)
  else let '(w, s) := write (with_status WFailed) w s in (Some (Refunding w), s).

Definition save_outcome (r : initiated) (w : Withdrawal) (s : PState) : option Flight * PState :=
  match r with
  | DispatchUnknown => (None, (write (with_status WUnresolved) w s).2)
  | Initiated true => (None, (write (with_status WProcessed) w s).2)
  | Initiated false => let '(w, s) := write (with_status WFailed) w s in (Some (Refunding w), s)
  end.

(** The refund, and once more when it raises. *)
Definition give_back (env : PayEnv) (w : Withdrawal) (s : PState) : PState :=
  match refund_failed env w s with
  | Ok s' => s'
  | Err _ => match refund_failed env w s with Ok s' => s' | Err _ => s end
  end.

(** [execute_payout]: every id is released on its own, then dispatched; the provider's answer
    is looked up by withdrawal. *)
Record PayoutResult := {
  approved_ids : list Z; skipped_ids : list Z; triggered_ids : list Z; held_ids : list Z
}.

Fixpoint approve_all (env : PayEnv) (ids : list Z) (s : PState) : list Withdrawal * list Z * bool * PState :=
  match ids with
  | [] => ([], [], false, s)
  | i :: r =>
    match approve_one env i s with
    | (Released w, s) => let '(ws, sk, nd, s) := approve_all env r s in (w :: ws, sk, nd, s)
    | (NotPending, s) => let '(ws, sk, nd, s) := approve_all env r s in (ws, i :: sk, nd, s)
    | (NoDestination, s) => let '(ws, sk, _, s) := approve_all env r s in (ws, i :: sk, true, s)
    end
  end.

Fixpoint dispatch_all (env : PayEnv) (ans : Z -> answer) (ws : list Withdrawal) (s : PState) : list Z * list Z * PState :=
  match ws with
  | [] => ([], [], s)
  | w :: r =>
    let '(_, w, s) := trigger_payout_creation env (ans (wd_id w)) w s in
    let '(t, h, s) := dispatch_all env ans r s in
    if bool_decide (wd_payout_status w = Some AWAITING_RAIL) then (t, wd_id w :: h, s) else (wd_id w :: t, h, s)
  end.

Inductive payout_target := Single (i : Z) | Batch (ids : list Z).

Definition execute_payout (env : PayEnv) (ans : Z -> answer) (target : payout_target) (s : PState) :
  res db_error PayoutResult * PState :=
  let ids := match target with Single i => [i] | Batch l => l end in
  let single := match target with Single _ => true | Batch _ => false end in
  let '(ws, sk, no_destination, s) := approve_all env ids s in
  if single && no_destination then (Err (Refused "PAYOUT_DETAILS_MISSING"), s)
  else if single && match ws with [] => true | _ => false end then (Err (Refused "WITHDRAWAL_NOT_PENDING"), s)
  else
    let '(t, h, s) := dispatch_all env ans ws s in
    (Ok {| approved_ids := wd_id <$> ws; skipped_ids := sk; triggered_ids := t; held_ids := h |}, s).

(** [payout_rails.release_awaiting_rail]: dispatch what waited for a rail. *)
Definition release_awaiting_rail (env : PayEnv) (ans : Z -> answer) (s : PState) : list Z * PState :=
  let held := List.filter (fun w => bool_decide (wd_status_of w = WApproved) &&
                bool_decide (wd_payout_status w = Some AWAITING_RAIL)) (p_wds s) in
  let ready := List.filter (fun w => has_rail (wd_currency w)) held in
  (wd_id <$> ready, foldl (fun s w => (trigger_payout_creation env (ans (wd_id w)) w s).2) s ready).

(** ** What the provider reports *)

(** A payout webhook, its body verified and read. *)
Record Hook := {
  hk_event : string;
  hk_transfer_id : option string;
  hk_payout_id : option string;
  hk_cf_transfer_id : option string;
  hk_reference_id : option string;
  hk_status : option string
}.

Inductive hook_answer := Skipped | AlreadyProcessed | ConflictFrozen | HookOk.

(** [a or b] *)
Definition or_else (s : option string) (d : string) : string := if truthy s then default d s else d.
Definition either (a b : option string) : option string := if truthy a then a else b.

Definition hook_payout_id (h : Hook) : option string := either (hk_transfer_id h) (hk_payout_id h).
Definition hook_reference (h : Hook) : option string := either (hk_cf_transfer_id h) (hk_reference_id h).

(** [int(text.split('_')[1])] of a text that starts with [withdrawal_]. *)
Fixpoint upto_underscore (l : list Ascii.ascii) : list Ascii.ascii :=
  match l with [] => [] | c :: r => if code c =? 95 then [] else c :: upto_underscore r end.

Definition py_int (l : list Ascii.ascii) : option Z :=
  let '(sg, d) := take_sign (strip_chars l) in
  match span_digits d with ((_ :: _) as d, []) => Some (sg * digits_val d) | _ => None end.

Definition id_in_reference (r : string) : option Z :=
  if String.prefix "withdrawal_" r then py_int (upto_underscore (drop 11 (chars r))) else None.

Definition by_reference (s : PState) (r : option string) : option Withdrawal :=
  if truthy r then List.find (fun w => bool_decide (wd_reference w = r)) (reverse (p_wds s)) else None.

(** How the webhook finds its withdrawal. *)
Definition find_withdrawal (s : PState) (h : Hook) : option Withdrawal :=
  match by_reference s (hook_payout_id h) with
  | Some w => Some w
  | None =>
    match by_reference s (hook_reference h) with
    | Some w => Some w
    | None => if truthy (hook_reference h) then mbind (find_wd s) (mbind id_in_reference (hook_reference h)) else None
    end
  end.

(** [TransactionHistory.objects.get_or_create(...)]: two rows that match raise. *)
Definition history_once (matches : PayoutHistory -> bool) (row : PayoutHistory) (s : PState) : res db_error PState :=
  match List.filter matches (p_history s) with
  | [] => Ok {| p_db := p_db s; p_wds := p_wds s; p_next := p_next s; p_debts := p_debts s;
                p_history := p_history s ++ [row]; p_last := p_last s |}
  | [_] => Ok s
  | _ => Err (Refused "MultipleObjectsReturned")
  end.

(** [str(x)] of a text or None. *)
Definition str_of (x : option string) : string := default "None" x.

Definition FINANCE_PAYOUT_CONFLICT : string := "finance.payout_conflict".
Definition FINANCE_PAYOUT_REVERSED : string := "finance.payout_reversed".
Definition CONFLICT_SOURCE : string := "withdrawal_conflict".
Definition REVERSED_SOURCE : string := "withdrawal_reversed".

(** The alert of one withdrawal; of its payload the place, the provider and the status
    before are left out. *)
Definition raise_payout_alert (env : PayEnv) (kind source : string) (sev : severity) (extra : list (string * string))
    (w : Withdrawal) (s : PState) : PState :=
  set_alerts_of (fun t => (raise_alert t kind ("Payout " +:+ number (wd_id w)) sev
    (list_to_map (app extra [("withdrawal_id", number (wd_id w)); ("driver_id", number (wd_driver w));
                  ("amount_minor", number (wd_amount w)); ("currency", wd_currency w);
                  ("payout_reference_id", default EmptyString (wd_reference w))]))
    source (number (wd_id w)) (pv_city env (wd_driver w))).2) s.

(** [payout_conflict.freeze], [reverse_conflict], [clear_alert] *)
Definition freeze (env : PayEnv) (status payout_id : option string) (w : Withdrawal) (s : PState) : PState :=
  let '(w, s) := write (fun w => with_status WConflict (with_payout_status (or_else status "success") w)) w s in
  raise_payout_alert env FINANCE_PAYOUT_CONFLICT CONFLICT_SOURCE CRITICAL
    [("payout_id", or_else payout_id EmptyString)] w s.

Definition clear_conflict_alert (i : Z) (why : string) (s : PState) : PState :=
  set_alerts_of (fun t => {|
    alerts := List.map (fun a => if open_for CONFLICT_SOURCE (number i) a
                                 then close_alert None ("cleared: " +:+ why) (clock (p_db s)) a else a) (alerts t);
    alert_next := alert_next t |}) s.

Definition reverse_conflict (status : option string) (w : Withdrawal) (s : PState) : PState :=
  let '(w, s) := write (fun w => with_status WFailed (with_payout_status (or_else status "reversed") w)) w s in
  clear_conflict_alert (wd_id w) "the provider reversed the payout; the refund stands" s.

(** [payout_reversal.reverse_paid_payout]: the credit is a line of its own, written once. *)
Definition reversed_reference (i : Z) : string := "refund_reversed_withdrawal_" +:+ number i.

Definition reverse_paid_payout (env : PayEnv) (status : option string) (w : Withdrawal) (s : PState) : PState :=
  let user := pv_user env (wd_driver w) in
  let '(wallet, db) := get_wallet user SCOPE_DRIVER (p_db s) in
  let s := set_db db s in
  let key := reversed_reference (wd_id w) in
  match create_txn user (wd_currency w) (wd_amount w) credit "refund_reversed_withdrawal" key key db with
  | Err _ => s
  | Ok (_, db) =>
    let s := set_db (save_balance user SCOPE_DRIVER (balance_minor wallet + wd_amount w) db) s in
    let '(w, s) := write (fun w => with_status WReversed (with_payout_status (or_else status "reversed") w)) w s in
    raise_payout_alert env FINANCE_PAYOUT_REVERSED REVERSED_SOURCE WARNING [] w s
  end.

(** The webhook for a payout that failed or came back before it was paid: the row, the
    refund and the history line. *)
Definition fail_payout (env : PayEnv) (h : Hook) (payout_status history_status : string) (w : Withdrawal) (s : PState) :
  res db_error PState :=
  let '(w, s) := write (fun x => with_failures (wd_failures w + 1) (with_status WFailed (with_payout_status payout_status x))) w s in
  let* s := refund_failed env w s in
  let payment := str_of (hook_payout_id h) in
  history_once (fun r => (ph_withdrawal r =? wd_id w) && bool_decide (ph_payment r = payment))
    {| ph_withdrawal := wd_id w; ph_transaction := None; ph_payment := payment; ph_status := history_status |} s.

(** The webhook for a payout that was paid. *)
Definition pay_payout (h : Hook) (w : Withdrawal) (s : PState) : res db_error PState :=
  let '(w, s) := write (fun w => with_status WCompleted (with_payout_status (or_else (hk_status h) "success") w)) w s in
  let s := {| p_db := p_db s; p_wds := p_wds s; p_next := p_next s; p_debts := p_debts s; p_history := p_history s;
              p_last := <[wd_driver w := clock (p_db s)]> (p_last s) |} in
  let tx := str_of (either (hook_reference h) (hook_payout_id h)) in
  history_once (fun r => (ph_withdrawal r =? wd_id w) && bool_decide (ph_transaction r = Some tx))
    {| ph_withdrawal := wd_id w; ph_transaction := Some tx; ph_payment := str_of (hook_payout_id h);
       ph_status := "completed" |} s.

(** [_handle_cashfree_payout_webhook] *)
Definition handle_payout_webhook (env : PayEnv) (h : Hook) (s : PState) : res db_error (hook_answer * PState) :=
  if negb (truthy (hook_payout_id h)) && negb (truthy (hook_reference h)) then Ok (Skipped, s)
  else match find_withdrawal s h with
  | None => Ok (Skipped, s)
  | Some w =>
    let st := wd_status_of w in
    if bool_decide (hk_event h ∈ ["TRANSFER_SUCCESS"; "PAYOUT_SUCCESS"]) then
      if bool_decide (st ∈ [WCompleted; WReversed; WConflict]) then Ok (AlreadyProcessed, s)
      else if bool_decide (st ∈ [WFailed; WRejected]) then Ok (ConflictFrozen, freeze env (hk_status h) (hook_payout_id h) w s)
      else let* s := pay_payout h w s in Ok (HookOk, s)
    else if bool_decide (hk_event h ∈ ["TRANSFER_FAILED"; "PAYOUT_FAILED"]) then
      if bool_decide (st ∈ [WCompleted; WFailed; WConflict; WReversed]) then Ok (AlreadyProcessed, s)
      else let* s := fail_payout env h (or_else (hk_status h) "failed") "failed" w s in Ok (HookOk, s)
    else if bool_decide (hk_event h = "PAYOUT_PENDING") then
      if bool_decide (st ∈ [WCompleted; WFailed]) then Ok (HookOk, s)
      else Ok (HookOk, (write (with_payout_status (or_else (hk_status h) "pending")) w s).2)
    else if bool_decide (hk_event h ∈ ["TRANSFER_REVERSED"; "PAYOUT_REVERSED"]) then
      if bool_decide (st = WCompleted) then Ok (HookOk, reverse_paid_payout env (hk_status h) w s)
      else if bool_decide (st = WConflict) then Ok (HookOk, reverse_conflict (hk_status h) w s)
      else if bool_decide (st ∈ [WFailed; WReversed]) then Ok (AlreadyProcessed, s)
      else let* s := fail_payout env h (or_else (hk_status h) "reversed") "reversed" w s in Ok (HookOk, s)
    else Ok (HookOk, s)
  end.

(** ** The balance adjustment that settles a conflict *)

(** The payload of a driver balance adjustment, and its request. *)
Record Adjustment := {
  ad_request : Z;
  ad_driver : option Z;
  ad_amount : Z;
  ad_direction : string;
  ad_currency : string;
  ad_withdrawal : option Z
}.

Definition adjustment_key (i : Z) : string := "adjustment_" +:+ number i.

(** [check_resolution] then [resolve_paid]; an id of 0 names no payout. *)
Definition check_resolution (driver : Z) (a : Adjustment) (i : Z) (s : PState) : res db_error Withdrawal :=
  match List.find (fun w => (wd_id w =? i) && (wd_driver w =? driver)) (p_wds s) with
  | None => Err (Refused "PAYOUT_NOT_FOUND")
  | Some w =>
    let* _ := require (bool_decide (wd_status_of w = WConflict)) (Refused "PAYOUT_NOT_IN_CONFLICT") in
    let* _ := require (bool_decide (ad_direction a = "debit") && (ad_amount a =? wd_amount w) &&
                       bool_decide (ad_currency a = wd_currency w)) (Refused "RESOLUTION_MISMATCH") in
    Ok w
  end.

Definition conflict_payout_id (i : Z) (s : PState) : option string :=
  match List.find (fun a => bool_decide (alert_source_type a = CONFLICT_SOURCE) && bool_decide (alert_source_id a = number i))
          (reverse (alerts (alert_table (p_db s)))) with
  | Some a => alert_payload a !! "payout_id"
  | None => None
  end.

Definition resolve_paid (w : Withdrawal) (s : PState) : PState :=
  let '(w, s) := write (with_status WCompleted) w s in
  let seen := conflict_payout_id (wd_id w) s in
  let s := {| p_db := p_db s; p_wds := p_wds s; p_next := p_next s; p_debts := p_debts s;
              p_history := p_history s ++ [{| ph_withdrawal := wd_id w; ph_transaction := None;
                ph_payment := or_else seen (or_else (wd_reference w) EmptyString); ph_status := "completed" |}];
              p_last := p_last s |} in
  clear_conflict_alert (wd_id w) "resolved as paid" s.

(** [execute_driver_adjustment]; the answer says whether it had already run. *)
Definition execute_driver_adjustment (env : PayEnv) (known : Z -> bool) (a : Adjustment) (s : PState) :
  res db_error (bool * PState) :=
  let named := match ad_withdrawal a with Some i => negb (i =? 0) | None => false end in
  let* _ := require ((0 <? ad_amount a) && bool_decide (ad_direction a ∈ ["credit"; "debit"])) (Refused "BAD_ADJUSTMENT") in
  match ad_driver a with
  | None => Err (Refused "DRIVER_NOT_FOUND")
  | Some driver =>
    let* _ := require (known driver) (Refused "DRIVER_NOT_FOUND") in
    let user := pv_user env driver in
    match wallets (p_db s) !! (user, SCOPE_DRIVER) with
    | None => Err (Refused "WALLET_NOT_FOUND")
    | Some wallet =>
      if existsb (fun t => bool_decide (txn_key t = Some (adjustment_key (ad_request a)))) (txns (p_db s)) then Ok (true, s)
      else
        let* _ := require (bool_decide (wallet_currency wallet = ad_currency a)) (Refused "CURRENCY_CHANGED") in
        let is_debit := bool_decide (ad_direction a = "debit") in
        let* _ := require (negb (is_debit && (balance_minor wallet - ad_amount a <? 0) && negb named))
                    (Refused "BALANCE_WOULD_GO_NEGATIVE") in
        let key := adjustment_key (ad_request a) in
        let* (_, db) := create_txn user (wallet_currency wallet) (ad_amount a) (if is_debit then debit else credit)
                          "adjustment" key key (p_db s) in
        let db := save_balance user SCOPE_DRIVER
                    (balance_minor wallet + (if is_debit then - ad_amount a else ad_amount a)) db in
        let s := set_db db s in
        match ad_withdrawal a with
        | Some i => if i =? 0 then Ok (false, s)
                    else let* w := check_resolution driver a i s in Ok (false, resolve_paid w s)
        | None => Ok (false, s)
        end
    end
  end.
