(* ===== verification/PayoutSafety.v ===== *)
(** * PayoutSafety: no withdrawal is paid twice, refunded twice or lost

    The invariant of the operations of [Payouts] and what it gives: whatever the operators,
    the provider and the driver do, a driver's balance, the withdrawals that are out and the
    recoveries taken always add up to the same. *)

From S2P Require Import Prelude PyDecimal PyText Countries Models Money Commission Alerts Store Payouts.
#[local] Open Scope string_scope.
#[local] Open Scope list_scope.
#[local] Open Scope Z_scope.

(** ** Keys *)

Lemma chars_eq (a b : string) : a = b -> (chars a ++ [])%list = (chars b ++ [])%list.
Proof. by intros ->. Qed.

Lemma number_eq_app (a b : Z) (x y : string) :
  (forall c, head (chars x) = Some c -> is_digit c = false) -> (forall c, head (chars y) = Some c -> is_digit c = false) ->
  number a +:+ x = number b +:+ y -> a = b /\ x = y.
Proof.
  intros Hx Hy H%(f_equal chars). rewrite !chars_append in H. apply number_inj in H as [-> H]; [|done..].
  split; [done|by apply chars_inj].
Qed.

Lemma append_cancel (p x y : string) : p +:+ x = p +:+ y -> x = y.
Proof. intros H%(f_equal chars). rewrite !chars_append in H. apply app_inv_head in H. by apply chars_inj. Qed.

Lemma append_nil_r (x : string) : x +:+ EmptyString = x.
Proof. apply chars_inj. by rewrite chars_append, app_nil_r. Qed.

Ltac no_digit := let c := fresh in let H := fresh in intros c H; cbn in H; first [discriminate H | injection H as <-; reflexivity].

Lemma number_alone (a b : Z) : number a = number b -> a = b.
Proof.
  intros H. rewrite <- (append_nil_r (number a)), <- (append_nil_r (number b)) in H.
  by apply number_eq_app in H as [-> _]; [|no_digit|no_digit].
Qed.

Definition refund_tail (n : Z) : string := if n =? 0 then EmptyString else "_r" +:+ number n.

Lemma failed_refund_tail (i n : Z) : failed_refund i n = "refund_withdrawal_" +:+ number i +:+ refund_tail n.
Proof. unfold failed_refund, refund_tail. destruct (n =? 0); [|done]. by rewrite append_nil_r. Qed.

Lemma failed_refund_inj (i j n m : Z) : failed_refund i n = failed_refund j m -> i = j /\ n = m.
Proof.
  rewrite !failed_refund_tail. intros H%append_cancel. apply number_eq_app in H as [-> H].
  - split; [done|]. unfold refund_tail in H. destruct (Z.eqb_spec n 0), (Z.eqb_spec m 0); try done; [by subst|].
    apply append_cancel in H. by apply number_alone.
  - unfold refund_tail. destruct (n =? 0); no_digit.
  - unfold refund_tail. destruct (m =? 0); no_digit.
Qed.

Lemma reject_reference_inj (i j : Z) : reject_reference i = reject_reference j -> i = j.
Proof. unfold reject_reference. intros H%append_cancel. by apply number_alone. Qed.

Lemma reversed_reference_inj (i j : Z) : reversed_reference i = reversed_reference j -> i = j.
Proof. unfold reversed_reference. intros H%append_cancel. by apply number_alone. Qed.

Lemma prefix_split (p k : string) : String.prefix p k = true -> exists r, chars k = (chars p ++ r)%list.
Proof.
  revert k. induction p as [|a p IH]; intros k H; [by exists (chars k)|].
  destruct k as [|b k]; cbn in H; [done|]. destruct (Ascii.ascii_dec a b) as [->|]; [|done].
  destruct (IH k H) as [r Hr]. exists r. unfold chars in *. cbn. by rewrite Hr.
Qed.

Lemma prefix_refl (p r : string) : String.prefix p (p +:+ r) = true.
Proof.
  induction p as [|a p IH]; [by destruct r|]. change (String a p +:+ r) with (String a (p +:+ r)). simpl.
  destruct (Ascii.ascii_dec a a) as [_|N]; [exact IH|by destruct N].
Qed.

Lemma retry_prefix_inj (i j : Z) (x : string) :
  String.prefix (retry_prefix i) (retry_prefix j +:+ x) = true -> i = j.
Proof.
  intros [r Hr]%prefix_split. unfold retry_prefix in Hr. rewrite !chars_append in Hr. rewrite <- !app_assoc in Hr.
  apply app_inv_head in Hr. by apply number_inj in Hr as [-> _]; [|no_digit|no_digit].
Qed.

(** A key that says nothing about withdrawal [i]. *)
Record quiet (k : string) (i : Z) : Prop := {
  quiet_failed : forall n, failed_refund i n <> k;
  quiet_reject : reject_reference i <> k;
  quiet_reversed : reversed_reference i <> k;
  quiet_retry : String.prefix (retry_prefix i) k = false
}.

Lemma prefix_false_head (p k : string) : (forall r, chars k <> (chars p ++ r)%list) -> String.prefix p k = false.
Proof. intros H. apply not_true_iff_false. intros [r Hr]%prefix_split. by apply (H r). Qed.

Ltac not_retry := apply prefix_false_head; let r := fresh in intros r; unfold retry_prefix;
  rewrite !chars_append; cbn; discriminate.

Lemma quiet_debit (j : Z) (tok : string) (i : Z) : quiet (withdrawal_reference j +:+ "_" +:+ tok) i.
Proof.
  split; [intros n; rewrite failed_refund_tail; cbn; discriminate|cbn; discriminate|cbn; discriminate|].
  apply prefix_false_head. intros r Hr. unfold withdrawal_reference, retry_prefix in Hr. rewrite !chars_append in Hr.
  rewrite <- !app_assoc in Hr.
  assert (H : (chars (number j) ++ (chars "_" ++ chars tok) = chars "retry_" ++ chars (number i) ++ chars "_" ++ r)%list).
  { cbn in Hr |- *. by injection Hr. }
  clear Hr. unfold number in H at 1. rewrite chars_of_chars in H.
  destruct (digits_of_digits (Z.abs j) (Z.abs_nonneg j)) as [Hd Hne]. destruct (j <? 0); [by cbn in H|].
  destruct (digits_of (Z.abs j)) as [|c l]; [done|]. apply Forall_cons in Hd as [Hd _]. cbn in H.
  injection H as -> _. by vm_compute in Hd.
Qed.

Lemma quiet_recovery (d w i : Z) : quiet (recovery_key d w) i.
Proof. split; [intros n; rewrite failed_refund_tail; cbn; discriminate|cbn; discriminate|cbn; discriminate|]. unfold recovery_key. not_retry. Qed.

Lemma quiet_adjustment (r i : Z) : quiet (adjustment_key r) i.
Proof. split; [intros n; rewrite failed_refund_tail; cbn; discriminate|cbn; discriminate|cbn; discriminate|]. unfold adjustment_key. not_retry. Qed.

Lemma quiet_failed_refund (j n i : Z) : i <> j -> quiet (failed_refund j n) i.
Proof.
  intros Hne. split.
  - intros m H. by apply failed_refund_inj in H as [-> _].
  - rewrite failed_refund_tail. cbn. discriminate.
  - rewrite failed_refund_tail. cbn. discriminate.
  - rewrite failed_refund_tail. not_retry.
Qed.

Lemma quiet_reject_reference (j i : Z) : i <> j -> quiet (reject_reference j) i.
Proof.
  intros Hne. split.
  - intros m. rewrite failed_refund_tail. cbn. discriminate.
  - intros H. by apply reject_reference_inj in H.
  - cbn. discriminate.
  - unfold reject_reference. not_retry.
Qed.

Lemma quiet_reversed_reference (j i : Z) : i <> j -> quiet (reversed_reference j) i.
Proof.
  intros Hne. split.
  - intros m. rewrite failed_refund_tail. cbn. discriminate.
  - cbn. discriminate.
  - intros H. by apply reversed_reference_inj in H.
  - unfold reversed_reference. not_retry.
Qed.

Lemma quiet_retry_key (j n i : Z) : i <> j -> quiet (retry_prefix j +:+ number n) i.
Proof.
  intros Hne. split.
  - intros m. rewrite failed_refund_tail. cbn. discriminate.
  - cbn. discriminate.
  - cbn. discriminate.
  - apply not_true_is_false. intros H%retry_prefix_inj. by apply Hne.
Qed.

(** ** The invariant *)

Definition key_used (db : Db) (k : string) : Prop := exists t, t ∈ txns db /\ txn_key t = Some k.

(** Asked for and neither back in the wallet nor known to be paid. *)
Definition IN_TRANSIT : list wd_status := [WPending; WApproved; WProcessed; WUnresolved].

(** What a row and the ledger know of each other. *)
Record row_ok (db : Db) (w : Withdrawal) : Prop := {
  ro_failed : forall n, key_used db (failed_refund (wd_id w) n) ->
    n <= retry_attempts db (wd_id w) /\ (n = retry_attempts db (wd_id w) -> wd_status_of w ∉ IN_TRANSIT);
  ro_reject : key_used db (reject_reference (wd_id w)) -> wd_status_of w = WRejected;
  ro_reversed : key_used db (reversed_reference (wd_id w)) -> wd_status_of w = WReversed;
  ro_reference : wd_status_of w ∈ [WPending; WRejected] -> truthy (wd_reference w) = false
}.

Definition REFUND_PURPOSES : list string := ["refund_failed_withdrawal"; "refund_rejected_withdrawal"].

Definition purpose_ok (t : Txn) : Prop :=
  txn_purpose t ∈ REFUND_PURPOSES -> txn_key t = Some (txn_reference t).

Record payout_inv (env : PayEnv) (s : PState) : Prop := {
  pi_ids : base.NoDup (wd_id <$> p_wds s);
  pi_next : forall w, w ∈ p_wds s -> wd_id w < p_next s;
  pi_debts : base.NoDup (debt_id <$> p_debts s);
  pi_rows : forall w, w ∈ p_wds s -> row_ok (p_db s) w;
  pi_wallets : forall w, w ∈ p_wds s -> is_Some (wallets (p_db s) !! (pv_user env (wd_driver w), SCOPE_DRIVER));
  pi_fresh : forall i, (forall w, w ∈ p_wds s -> wd_id w <> i) ->
    (forall n, ~ key_used (p_db s) (failed_refund i n)) /\ ~ key_used (p_db s) (reject_reference i) /\
    ~ key_used (p_db s) (reversed_reference i);
  pi_purpose : forall t, t ∈ txns (p_db s) -> purpose_ok t
}.

(** ** A driver's wealth *)

Definition out_minor (w : Withdrawal) : Z :=
  if bool_decide (wd_status_of w ∈ WCompleted :: IN_TRANSIT) then wd_amount w else 0.

(** The balance, the withdrawals that are out, and the recoveries taken. *)
Definition wealth (env : PayEnv) (s : PState) (u : Z) : Z :=
  driver_balance (p_db s) u +
  zsum (fun w => if pv_user env (wd_driver w) =? u then out_minor w else 0) (p_wds s) +
  zsum (fun d => if debt_user d =? u then debt_recovered d else 0) (p_debts s).

(** ** Lemmas: rows by id *)

Lemma zsum_update_map {A : Type} (key : A -> Z) (f : A -> Z) (g : A -> A) (x : A) (l : list A) :
  base.NoDup (key <$> l) -> x ∈ l ->
  zsum f (List.map (fun y => if key y =? key x then g y else y) l) = zsum f l - f x + f (g x).
Proof. exact (zsum_update key f g l x). Qed.

Lemma map_keys {A : Type} (key : A -> Z) (g : A -> A) (i : Z) (l : list A) :
  (forall y, key (g y) = key y) -> key <$> List.map (fun y => if key y =? i then g y else y) l = key <$> l.
Proof. intros Hg. induction l as [|y l IH]; [done|]. cbn. f_equal; [|exact IH]. destruct (key y =? i); [apply Hg|done]. Qed.

Lemma elem_of_update {A : Type} (key : A -> Z) (g : A -> A) (i : Z) (l : list A) (z : A) :
  z ∈ List.map (fun y => if key y =? i then g y else y) l ->
  exists y, y ∈ l /\ ((key y = i /\ z = g y) \/ (key y <> i /\ z = y)).
Proof.
  rewrite list_elem_of_In, in_map_iff. intros (y & <- & Hy). exists y. split; [by apply list_elem_of_In|].
  destruct (Z.eqb_spec (key y) i); [by left|by right].
Qed.

Lemma find_wd_elem (s : PState) (i : Z) (w : Withdrawal) : find_wd s i = Some w -> w ∈ p_wds s /\ wd_id w = i.
Proof. intros [Hin Hi]%find_some. split; [by apply list_elem_of_In|by apply Z.eqb_eq]. Qed.

Lemma same_id (s : PState) (v w : Withdrawal) :
  base.NoDup (wd_id <$> p_wds s) -> v ∈ p_wds s -> w ∈ p_wds s -> wd_id v = wd_id w -> v = w.
Proof.
  generalize (p_wds s). induction l as [|x l IH]; [by intros _ ?%not_elem_of_nil|].
  rewrite fmap_cons. intros [Hx Hn]%NoDup_cons Hv Hw He.
  apply elem_of_cons in Hv as [-> | Hv], Hw as [-> | Hw]; [done| | |by apply IH].
  - exfalso. apply Hx. rewrite He. by apply list_elem_of_fmap_2.
  - exfalso. apply Hx. rewrite <- He. by apply list_elem_of_fmap_2.
Qed.

(** ** Lemmas: rows and new ledger lines *)

Lemma used_app (db db' : Db) (l : list Txn) (k : string) :
  txns db' = txns db ++ l -> key_used db' k <-> key_used db k \/ (exists t, t ∈ l /\ txn_key t = Some k).
Proof. intros E. unfold key_used. rewrite E. setoid_rewrite elem_of_app. naive_solver. Qed.

Lemma attempts_app (db db' : Db) (l : list Txn) (i : Z) :
  txns db' = txns db ++ l ->
  retry_attempts db' i = retry_attempts db i +
    Z.of_nat (length (List.filter (fun t => has_prefix (retry_prefix i) (txn_key t)) l)).
Proof. intros E. unfold retry_attempts. rewrite E, List.filter_app, length_app. lia. Qed.

(** New lines that say nothing about [i]. *)
Definition quiet_lines (l : list Txn) (i : Z) : Prop :=
  Forall (fun t => exists k, txn_key t = Some k /\ quiet k i) l.

Lemma quiet_attempts (db db' : Db) (l : list Txn) (i : Z) :
  txns db' = txns db ++ l -> quiet_lines l i -> retry_attempts db' i = retry_attempts db i.
Proof.
  intros E Hq. rewrite (attempts_app db db' l i E), filter_none; [cbn; lia|].
  eapply Forall_impl; [exact Hq|]. intros t (k & -> & Hk). apply Hk.
Qed.

Lemma quiet_used (db db' : Db) (l : list Txn) (i : Z) (k : string) :
  txns db' = txns db ++ l -> quiet_lines l i ->
  (exists n, k = failed_refund i n) \/ k = reject_reference i \/ k = reversed_reference i ->
  key_used db' k -> key_used db k.
Proof.
  intros E Hq Hk Hu. apply (used_app _ _ _ _ E) in Hu as [|(t & Ht & Hkt)]; [done|]. exfalso.
  unfold quiet_lines in Hq. rewrite Forall_forall in Hq. destruct (Hq t Ht) as (k' & Hk' & [Q1 Q2 Q3 _]).
  rewrite Hkt in Hk'. injection Hk' as <-. destruct Hk as [[n ->]|[-> | ->]]; [by apply (Q1 n)|done|done].
Qed.

Lemma row_ok_quiet (db db' : Db) (l : list Txn) (w : Withdrawal) :
  txns db' = txns db ++ l -> quiet_lines l (wd_id w) -> row_ok db w -> row_ok db' w.
Proof.
  intros E Hq [R1 R2 R3 R4]. split; [| | |done].
  - intros n Hu. rewrite (quiet_attempts _ _ _ _ E Hq). apply R1. eapply quiet_used; [done..| |done]. left. by exists n.
  - intros Hu. apply R2. eapply quiet_used; [done..| |done]. by right; left.
  - intros Hu. apply R3. eapply quiet_used; [done..| |done]. by right; right.
Qed.

(** One row changed and some lines written about it: the invariant needs only that row. *)
Lemma inv_change (env : PayEnv) (s s' : PState) (w : Withdrawal) (f : Withdrawal -> Withdrawal) (l : list Txn) :
  payout_inv env s -> w ∈ p_wds s ->
  p_wds s' = List.map (fun x => if wd_id x =? wd_id w then f x else x) (p_wds s) -> p_next s' = p_next s ->
  p_debts s' = p_debts s -> txns (p_db s') = txns (p_db s) ++ l ->
  (forall j, j <> wd_id w -> quiet_lines l j) -> Forall purpose_ok l ->
  (forall x, is_Some (wallets (p_db s) !! x) -> is_Some (wallets (p_db s') !! x)) ->
  (forall x, wd_id (f x) = wd_id x /\ wd_driver (f x) = wd_driver x) ->
  row_ok (p_db s') (f w) -> payout_inv env s'.
Proof.
  intros [I1 I2 I3 I4 I5 I6 I7] Hw Ew En Ed Et Hq Hp Hwal Hf Hrow.
  assert (Hrows : forall z, z ∈ p_wds s' -> exists y, y ∈ p_wds s /\ wd_id z = wd_id y /\ wd_driver z = wd_driver y /\ row_ok (p_db s') z).
  { intros z Hz. rewrite Ew in Hz. apply elem_of_update in Hz as (y & Hy & [[Hi ->]|[Hi ->]]); exists y.
    - destruct (Hf y) as [-> ->]. split_and!; [done..|]. by rewrite (same_id s y w I1 Hy Hw Hi).
    - split_and!; [done..|]. eapply row_ok_quiet; [done|by apply Hq|by apply I4]. }
  split.
  - rewrite Ew, map_keys; [done|]. intros y. by apply Hf.
  - intros z Hz. destruct (Hrows z Hz) as (y & Hy & -> & _). rewrite En. by apply I2.
  - by rewrite Ed.
  - intros z Hz. by destruct (Hrows z Hz) as (y & _ & _ & _ & ?).
  - intros z Hz. destruct (Hrows z Hz) as (y & Hy & _ & -> & _). by apply Hwal, I5.
  - intros i Hi. assert (Hi' : forall v, v ∈ p_wds s -> wd_id v <> i).
    { intros v Hv E. apply (Hi (if wd_id v =? wd_id w then f v else v)).
      - rewrite Ew. apply list_elem_of_In, in_map_iff. exists v. split; [done|by apply list_elem_of_In].
      - destruct (wd_id v =? wd_id w); [|done]. by rewrite (proj1 (Hf v)). }
    assert (Hqi : quiet_lines l i) by (apply Hq; intros E; by apply (Hi' w)).
    destruct (I6 i Hi') as (F1 & F2 & F3). split_and!.
    + intros n Hu. apply (F1 n). eapply quiet_used; [done..| |done]. left. by exists n.
    + intros Hu. apply F2. eapply quiet_used; [done..| |done]. by right; left.
    + intros Hu. apply F3. eapply quiet_used; [done..| |done]. by right; right.
  - intros t. rewrite Et, elem_of_app. intros [Ht|Ht]; [by apply I7|]. rewrite Forall_forall in Hp. by apply Hp.
Qed.

Lemma wealth_change (env : PayEnv) (s s' : PState) (w : Withdrawal) (f : Withdrawal -> Withdrawal) (u : Z) :
  payout_inv env s -> w ∈ p_wds s ->
  p_wds s' = List.map (fun x => if wd_id x =? wd_id w then f x else x) (p_wds s) -> p_debts s' = p_debts s ->
  wd_driver (f w) = wd_driver w ->
  wealth env s' u = wealth env s u + (driver_balance (p_db s') u - driver_balance (p_db s) u) +
    (if pv_user env (wd_driver w) =? u then out_minor (f w) - out_minor w else 0).
Proof.
  intros I Hw Ew Ed Hd. unfold wealth. rewrite Ew, Ed, (zsum_update_map wd_id) by (done || apply I). rewrite Hd.
  destruct (pv_user env (wd_driver w) =? u); lia.
Qed.

(** ** Lemmas: the operations on one row *)

(** What an operation must keep. *)
Definition keeps (env : PayEnv) (s s' : PState) : Prop :=
  payout_inv env s' /\ forall u, wealth env s' u = wealth env s u.

Lemma keeps_refl (env : PayEnv) (s : PState) : payout_inv env s -> keeps env s s.
Proof. by split. Qed.

Lemma keeps_trans (env : PayEnv) (a b c : PState) : keeps env a b -> (payout_inv env b -> keeps env b c) -> keeps env a c.
Proof. intros [Hb Wb] H. destruct (H Hb) as [Hc Wc]. split; [done|]. intros u. by rewrite Wc. Qed.

Lemma failed_not_retry (i j n : Z) : String.prefix (retry_prefix i) (failed_refund j n) = false.
Proof. rewrite failed_refund_tail. not_retry. Qed.

(** One row changed; the lines about it move the balance by what leaves or enters [out]. *)
Lemma keeps_change (env : PayEnv) (s s' : PState) (w : Withdrawal) (f : Withdrawal -> Withdrawal) (l : list Txn) :
  payout_inv env s -> w ∈ p_wds s ->
  p_wds s' = List.map (fun x => if wd_id x =? wd_id w then f x else x) (p_wds s) -> p_next s' = p_next s ->
  p_debts s' = p_debts s -> txns (p_db s') = txns (p_db s) ++ l ->
  (forall j, j <> wd_id w -> quiet_lines l j) -> Forall purpose_ok l ->
  (forall x, is_Some (wallets (p_db s) !! x) -> is_Some (wallets (p_db s') !! x)) ->
  (forall x, wd_id (f x) = wd_id x /\ wd_driver (f x) = wd_driver x) ->
  row_ok (p_db s') (f w) ->
  (forall u, driver_balance (p_db s') u = driver_balance (p_db s) u +
     if pv_user env (wd_driver w) =? u then out_minor w - out_minor (f w) else 0) ->
  keeps env s s'.
Proof.
  intros I Hw Ew En Ed Et Hq Hp Hwal Hf Hrow Hbal. split; [by eapply inv_change|]. intros u.
  rewrite (wealth_change env s s' w f u) by (done || by apply Hf). rewrite Hbal.
  destruct (pv_user env (wd_driver w) =? u); lia.
Qed.

Lemma write_elem (f : Withdrawal -> Withdrawal) (w : Withdrawal) (s : PState) :
  w ∈ p_wds s -> f w ∈ p_wds (write f w s).2.
Proof.
  intros Hw. cbn. apply list_elem_of_In, in_map_iff. exists w. rewrite Z.eqb_refl. split; [done|by apply list_elem_of_In].
Qed.

(** No money: only the row changes. *)
Lemma keeps_write (env : PayEnv) (s : PState) (w : Withdrawal) (f : Withdrawal -> Withdrawal) :
  payout_inv env s -> w ∈ p_wds s -> (forall x, wd_id (f x) = wd_id x /\ wd_driver (f x) = wd_driver x) ->
  row_ok (p_db s) (f w) -> out_minor (f w) = out_minor w ->
  keeps env s (write f w s).2 /\ (write f w s).1 ∈ p_wds (write f w s).2.
Proof.
  intros I Hw Hf Hr Ho. split.
  - eapply (keeps_change env s _ w f []); try done; [by rewrite app_nil_r|intros j _; apply Forall_nil_2|]. intros u. rewrite Ho. cbn. destruct (_ =? u); lia.
  - by apply write_elem.
Qed.

(** A row whose status changes without any line: what [row_ok] asks of the new one. *)
Lemma row_ok_write (db : Db) (w v : Withdrawal) :
  row_ok db w -> wd_id v = wd_id w ->
  (wd_status_of v ∈ IN_TRANSIT -> wd_status_of w ∈ IN_TRANSIT) ->
  (wd_status_of w = WRejected -> wd_status_of v = WRejected) ->
  (wd_status_of w = WReversed -> wd_status_of v = WReversed) ->
  (wd_status_of v ∈ [WPending; WRejected] -> truthy (wd_reference v) = false) -> row_ok db v.
Proof.
  intros [R1 R2 R3 R4] Hi Ht H1 H2 H3. split; rewrite ?Hi; [| | |done].
  - intros n Hu. destruct (R1 n Hu) as [Hn Hs]. split; [done|]. intros E Hin. by apply (Hs E), Ht.
  - intros Hu. by apply H1, R2.
  - intros Hu. by apply H2, R3.
Qed.

(** ** Lemmas: crediting the wallet *)

Lemma create_fresh (u : Z) (c : string) (n : Z) (ty : txn_type) (p r k : string) (db : Db) :
  ~ key_used db k -> exists t,
    create_txn u c n ty p r k db = Ok (next_id db, set_txns (next_id db + 1) (txns db ++ [t]) db) /\
    txn_key t = Some k /\ txn_purpose t = p /\ txn_reference t = r.
Proof.
  intros H. destruct (create_txn_fresh u c n ty p r k db) as (i & db' & E).
  { intros t Ht Hk. apply H. by exists t. }
  rewrite E. destruct (create_txn_ok _ _ _ _ _ _ _ _ _ _ E) as (_ & -> & ->). by eexists.
Qed.

Lemma not_credited (db : Db) (p k : string) :
  (forall t, t ∈ txns db -> purpose_ok t) -> p ∈ REFUND_PURPOSES -> ~ key_used db k -> credited db p k = false.
Proof.
  intros Hp Hin Hk. apply not_true_is_false. intros (t & Ht & H)%existsb_exists. apply list_elem_of_In in Ht.
  apply andb_true_iff in H as [H _]. apply andb_true_iff in H as [H _].
  apply andb_true_iff in H as [Hr%bool_decide_eq_true Hpu%bool_decide_eq_true].
  apply Hk. exists t. split; [done|]. rewrite (Hp t Ht); [by rewrite Hr|]. by rewrite Hpu.
Qed.

Lemma saved_wallets (u : Z) (b : Z) (db : Db) x :
  is_Some (wallets db !! x) -> is_Some (wallets (save_balance u SCOPE_DRIVER b db) !! x).
Proof.
  intros H. unfold save_balance. cbn [wallets set_wallets].
  destruct (decide ((u, SCOPE_DRIVER) = x)) as [<-|N]; [rewrite lookup_insert_eq; by eexists|by rewrite lookup_insert_ne].
Qed.

Lemma credit_once_ok (env : PayEnv) (u n : Z) (p k : string) (s : PState) :
  (forall t, t ∈ txns (p_db s) -> purpose_ok t) -> p ∈ REFUND_PURPOSES -> ~ key_used (p_db s) k ->
  is_Some (wallets (p_db s) !! (u, SCOPE_DRIVER)) ->
  exists t db, credit_once env u n p k s = Ok (set_db db s) /\ txns db = txns (p_db s) ++ [t] /\
    txn_key t = Some k /\ purpose_ok t /\
    (forall x, is_Some (wallets (p_db s) !! x) -> is_Some (wallets db !! x)) /\
    (forall v, driver_balance db v = driver_balance (p_db s) v + if u =? v then n else 0).
Proof.
  intros Hp Hin Hk [wal Hw]. destruct (create_fresh u (pv_currency env u) n credit p k k (p_db s) Hk) as (t & E & T1 & T2 & T3).
  unfold credit_once. rewrite Hw, (not_credited _ _ _ Hp Hin Hk), E. cbn [res_bind].
  eexists t, _. split; [reflexivity|]. split; [done|]. split; [done|]. split; [by unfold purpose_ok; rewrite T1, T3|].
  split; [intros x Hx; by apply saved_wallets|]. intros v. rewrite driver_balance_save.
  change (driver_balance (set_txns ?a ?b ?d) ?v) with (driver_balance d v). destruct (Z.eqb_spec u v) as [->|]; lia.
Qed.

Lemma quiet_one (t : Txn) (k : string) (j : Z) : txn_key t = Some k -> quiet k j -> quiet_lines [t] j.
Proof. intros Ht Hq. constructor; [by exists k|constructor]. Qed.

Lemma used_one (db db' : Db) (t : Txn) (k k' : string) :
  txns db' = txns db ++ [t] -> txn_key t = Some k -> key_used db' k' -> key_used db k' \/ k = k'.
Proof.
  intros E Hk Hu. apply (used_app _ _ _ _ E) in Hu as [|(x & ->%list_elem_of_singleton & Hx)]; [by left|right].
  rewrite Hk in Hx. by injection Hx.
Qed.

Lemma attempts_one (db db' : Db) (t : Txn) (k : string) (i : Z) :
  txns db' = txns db ++ [t] -> txn_key t = Some k ->
  retry_attempts db' i = retry_attempts db i + if String.prefix (retry_prefix i) k then 1 else 0.
Proof. intros E Hk. rewrite (attempts_app _ _ _ _ E). cbn. rewrite Hk. cbn. destruct (String.prefix _ k); cbn; lia. Qed.

(** A payout that did not go through: the row fails and the amount is back, once. *)
Lemma keeps_fail (env : PayEnv) (s : PState) (w : Withdrawal) (f : Withdrawal -> Withdrawal) :
  payout_inv env s -> w ∈ p_wds s -> wd_status_of w ∈ IN_TRANSIT ->
  (forall x, wd_id (f x) = wd_id x /\ wd_driver (f x) = wd_driver x) -> wd_amount (f w) = wd_amount w ->
  wd_status_of (f w) = WFailed ->
  exists s', refund_failed env (f w) (write f w s).2 = Ok s' /\ keeps env s s' /\ f w ∈ p_wds s' /\
    p_history s' = p_history s.
Proof.
  intros I Hw Hst Hf Ha Hs. destruct (Hf w) as [Hi Hd].
  pose proof (pi_rows _ _ I w Hw) as [R1 R2 R3 R4].
  set (k := failed_refund_reference (p_db s) (wd_id w)).
  assert (Hk : ~ key_used (p_db s) k).
  { intros Hu. destruct (R1 _ Hu) as [_ Hn]. by apply Hn. }
  destruct (credit_once_ok env (pv_user env (wd_driver w)) (wd_amount w) "refund_failed_withdrawal" k (write f w s).2)
    as (t & db & E & Et & T1 & T2 & Hwal & Hbal);
    [apply (pi_purpose _ _ I)|by apply list_elem_of_here|done|by apply (pi_wallets _ _ I)|].
  assert (Hnr : String.prefix (retry_prefix (wd_id w)) k = false) by apply failed_not_retry.
  exists (set_db db (write f w s).2). split; [|split; [|split; [|done]]].
  - unfold refund_failed. rewrite Hi, Hd, Ha. exact E.
  - eapply (keeps_change env s _ w f [t]); try done.
    + intros j Hj. eapply quiet_one; [done|]. by apply quiet_failed_refund.
    + by constructor.
    + split; rewrite ?Hi; cbn [p_db set_db].
      * intros n Hu. rewrite (attempts_one _ _ _ _ _ Et T1), Hnr, Z.add_0_r. rewrite Hs.
        split; [|intros _; by vm_compute; set_solver].
        destruct (used_one _ _ _ _ _ Et T1 Hu) as [Hu'|[_ <-]%failed_refund_inj]; [by apply R1|apply Z.le_refl].
      * intros Hu. destruct (used_one _ _ _ _ _ Et T1 Hu) as [Hu'|E']; [|by unfold k, failed_refund_reference in E'; rewrite failed_refund_tail in E'].
        rewrite (R2 Hu') in Hst. exfalso. by vm_compute in Hst; set_solver.
      * intros Hu. destruct (used_one _ _ _ _ _ Et T1 Hu) as [Hu'|E']; [|by unfold k, failed_refund_reference in E'; rewrite failed_refund_tail in E'].
        rewrite (R3 Hu') in Hst. exfalso. by vm_compute in Hst; set_solver.
      * rewrite Hs. intros Hin. set_solver.
    + intros u. cbn [p_db set_db]. rewrite Hbal. change (p_db (write f w s).2) with (p_db s).
      unfold out_minor. rewrite Hs, Ha.
      rewrite (bool_decide_eq_true_2 (wd_status_of w ∈ _)) by by apply elem_of_cons; right.
      rewrite (bool_decide_eq_false_2 (WFailed ∈ _)) by (unfold IN_TRANSIT; set_solver).
      destruct (_ =? u); lia.
  - by apply (write_elem f w s).
Qed.

(** ** Lemmas: reject, retry, release *)

Lemma keeps_reject (env : PayEnv) (i : Z) (s s' : PState) (w' : Withdrawal) :
  payout_inv env s -> reject_one env i s = Ok (w', s') -> keeps env s s'.
Proof.
  intros I. unfold reject_one. destruct (find_wd s i) as [w|] eqn:Ef; [|done].
  apply find_wd_elem in Ef as [Hw Hi]. intros H.
  apply res_bind_ok in H as ([] & Hp & H). apply require_ok, bool_decide_eq_true in Hp.
  pose proof (pi_rows _ _ I w Hw) as [R1 R2 R3 R4].
  assert (Hk : ~ key_used (p_db s) (reject_reference i)).
  { rewrite <- Hi. intros Hu. rewrite (R2 Hu) in Hp. done. }
  destruct (credit_once_ok env (pv_user env (wd_driver w)) (wd_amount w) "refund_rejected_withdrawal" (reject_reference i) s)
    as (t & db & E & Et & T1 & T2 & Hwal & Hbal);
    [apply (pi_purpose _ _ I)|by vm_compute; set_solver|done|by apply (pi_wallets _ _ I)|].
  rewrite E in H. cbn [map_err res_bind] in H. injection H as _ <-.
  eapply (keeps_change env s _ w (with_status WRejected) [t]); try done.
  - intros j Hj. eapply quiet_one; [done|]. apply quiet_reject_reference. congruence.
  - by constructor.
  - split; cbn [p_db set_db set_wds with_status wd_id wd_status_of].
    + intros n Hu. assert (Hnr : String.prefix (retry_prefix (wd_id w)) (reject_reference i) = false)
        by (unfold reject_reference; not_retry).
      rewrite (attempts_one _ _ _ _ _ Et T1), Hnr, Z.add_0_r.
      split; [|intros _; by vm_compute; set_solver].
      destruct (used_one _ _ _ _ _ Et T1 Hu) as [Hu'|E']; [by apply R1|by rewrite failed_refund_tail in E'].
    + done.
    + intros Hu. destruct (used_one _ _ _ _ _ Et T1 Hu) as [Hu'|E']; [|done]. rewrite (R3 Hu') in Hp. done.
    + intros _. apply R4. rewrite Hp. apply list_elem_of_here.
  - intros u. cbn [p_db set_db set_wds]. rewrite Hbal. unfold out_minor. cbn [with_status wd_status_of wd_amount].
    rewrite Hp. rewrite (bool_decide_eq_true_2 (WPending ∈ _)), (bool_decide_eq_false_2 (WRejected ∈ _))
      by (unfold IN_TRANSIT; set_solver). destruct (_ =? u); lia.
Qed.

Lemma pending_debit_ok (u : Z) (c : string) (n : Z) (r k : string) (db db' : Db) :
  create_pending_debit u c n r k db = Ok db' ->
  exists t, db' = set_txns (next_id db + 1) (txns db ++ [t]) db /\ txn_key t = Some k /\ txn_purpose t = "withdrawal".
Proof. unfold create_pending_debit. destruct (existsb _ _); [done|]. intros [= <-]. by eexists. Qed.

Lemma purpose_other (t : Txn) : txn_purpose t ∉ REFUND_PURPOSES -> purpose_ok t.
Proof. intros H Hin. done. Qed.

Lemma keeps_retry (env : PayEnv) (ap : bool) (i : Z) (s s' : PState) (w' : Withdrawal) :
  payout_inv env s -> retry_failed env ap i s = Ok (w', s') -> keeps env s s'.
Proof.
  intros I. unfold retry_failed. destruct (find_wd s i) as [w|] eqn:Ef; [|done].
  apply find_wd_elem in Ef as [Hw Hi]. intros H.
  apply res_bind_ok in H as ([] & Hp & H). apply require_ok, bool_decide_eq_true in Hp.
  do 3 apply res_bind_ok in H as (? & _ & H).
  apply res_bind_ok in H as (db & Hd & H). injection H as _ <-.
  apply pending_debit_ok in Hd as (t & -> & T1 & T2).
  pose proof (pi_rows _ _ I w Hw) as [R1 R2 R3 R4]. rewrite <- Hi in T1.
  eapply (keeps_change env s _ w (fun w => with_failures 0 (with_status WApproved w)) [t]); try done.
  - intros j Hj. eapply quiet_one; [exact T1|]. by apply quiet_retry_key.
  - constructor; [|constructor]. apply purpose_other. rewrite T2. by vm_compute; set_solver.
  - intros y Hy. by apply saved_wallets.
  - assert (Et : txns (p_db (write (fun w => with_failures 0 (with_status WApproved w)) w
        (set_db (save_balance (pv_user env (wd_driver w)) SCOPE_DRIVER
          (driver_balance (set_txns (next_id (p_db s) + 1) (txns (p_db s) ++ [t]) (p_db s)) (pv_user env (wd_driver w)) - wd_amount w)
          (set_txns (next_id (p_db s) + 1) (txns (p_db s) ++ [t]) (p_db s))) s)).2) = txns (p_db s) ++ [t]) by done.
    set (s' := (write _ w _).2) in *. split; cbn [with_failures with_status wd_id wd_status_of].
    + intros n Hu. rewrite (attempts_one _ _ _ _ _ Et T1), prefix_refl.
      destruct (used_one _ _ _ _ _ Et T1 Hu) as [Hu'|E']; [|by rewrite failed_refund_tail in E'].
      destruct (R1 n Hu') as [Hn _]. lia.
    + intros Hu. destruct (used_one _ _ _ _ _ Et T1 Hu) as [Hu'|E']; [|done]. rewrite (R2 Hu') in Hp. done.
    + intros Hu. destruct (used_one _ _ _ _ _ Et T1 Hu) as [Hu'|E']; [|done]. rewrite (R3 Hu') in Hp. done.
    + set_solver.
  - intros u. cbn [p_db set_db set_wds write snd]. rewrite driver_balance_save.
    change (driver_balance (set_txns ?a ?b ?d) ?v) with (driver_balance d v).
    unfold out_minor. cbn [with_failures with_status wd_status_of wd_amount]. rewrite Hp.
    rewrite (bool_decide_eq_false_2 (WFailed ∈ _)), (bool_decide_eq_true_2 (WApproved ∈ _)) by (unfold IN_TRANSIT; set_solver).
    destruct (Z.eqb_spec (pv_user env (wd_driver w)) u) as [->|]; lia.
Qed.

Lemma keeps_approve (env : PayEnv) (i : Z) (s : PState) : payout_inv env s -> keeps env s (approve_one env i s).2.
Proof.
  intros I. unfold approve_one. destruct (find_wd s i) as [w|] eqn:Ef; [|by apply keeps_refl].
  apply find_wd_elem in Ef as [Hw Hi]. destruct (bool_decide (wd_status_of w = WPending)) eqn:Ep; [|by apply keeps_refl].
  apply bool_decide_eq_true in Ep. cbn [negb]. destruct (has_payout_destination _ _); [|by apply keeps_refl].
  destruct (has_open_conflict _ _); [by apply keeps_refl|]. cbn [negb].
  apply (keeps_write env s w (with_status WApproved) I Hw); [done| |].
  - apply (row_ok_write _ w); [by apply (pi_rows _ _ I)|done|rewrite Ep; by vm_compute; set_solver|congruence|congruence|].
    cbn. set_solver.
  - unfold out_minor. cbn. rewrite Ep. by rewrite !bool_decide_eq_true_2 by (unfold IN_TRANSIT; set_solver).
Qed.

(** ** Lemmas: dispatch *)

Lemma status_apart (st : wd_status) (l k : list wd_status) :
  forallb (fun x => negb (bool_decide (x ∈ k))) l = true -> st ∈ l -> st ∈ k -> False.
Proof.
  intros H Hl Hk. rewrite forallb_forall in H. specialize (H st (proj1 (list_elem_of_In _ _) Hl)).
  by rewrite bool_decide_eq_true_2 in H.
Qed.

(** Moving a row within what is in transit. *)
Lemma keeps_transit (env : PayEnv) (s : PState) (w : Withdrawal) (f : Withdrawal -> Withdrawal) :
  payout_inv env s -> w ∈ p_wds s -> wd_status_of w ∈ IN_TRANSIT ->
  (forall x, wd_id (f x) = wd_id x /\ wd_driver (f x) = wd_driver x) -> wd_amount (f w) = wd_amount w ->
  (wd_status_of (f w) = wd_status_of w /\ wd_reference (f w) = wd_reference w \/
   wd_status_of (f w) ∈ [WApproved; WProcessed; WUnresolved]) ->
  keeps env s (write f w s).2 /\ f w ∈ p_wds (write f w s).2.
Proof.
  intros I Hw Hst Hf Ha Hs.
  assert (Hst' : wd_status_of (f w) ∈ IN_TRANSIT).
  { destruct Hs as [[-> _]|Hs]; [done|]. unfold IN_TRANSIT. set_solver. }
  split; [|by apply write_elem]. apply keeps_write; [done|done|done| |].
  - apply (row_ok_write _ w); [by apply (pi_rows _ _ I)|by apply Hf|done| | |].
    + intros E. rewrite E in Hst. unfold IN_TRANSIT in Hst. set_solver.
    + intros E. rewrite E in Hst. unfold IN_TRANSIT in Hst. set_solver.
    + destruct Hs as [[-> ->]|Hs]; [by apply (pi_rows _ _ I w Hw)|]. intros Hin. exfalso. by eapply status_apart; [|exact Hs|exact Hin].
  - unfold out_minor. rewrite Ha. by rewrite !bool_decide_eq_true_2 by (apply elem_of_cons; by right).
Qed.

Lemma keeps_fail_and_refund (env : PayEnv) (s : PState) (w : Withdrawal) :
  payout_inv env s -> w ∈ p_wds s -> wd_status_of w ∈ IN_TRANSIT -> keeps env s (fail_and_refund env w s).2.
Proof.
  intros I Hw Hst. unfold fail_and_refund.
  destruct (keeps_fail env s w (with_status WFailed) I Hw Hst) as (s' & E & K & _); [done..|].
  unfold write in *. cbn [fst snd] in E. rewrite E. exact K.
Qed.

Definition sendable (w : Withdrawal) : Prop := wd_status_of w ∈ [WApproved; WProcessed].

Lemma sendable_transit (w : Withdrawal) : sendable w -> wd_status_of w ∈ IN_TRANSIT.
Proof. unfold sendable, IN_TRANSIT. set_solver. Qed.

Lemma keeps_failed_try (env : PayEnv) (called : bool) (s : PState) (w : Withdrawal) :
  payout_inv env s -> w ∈ p_wds s -> sendable w ->
  let '(_, _, w1, s1) := failed_try called w s in keeps env s s1 /\ w1 ∈ p_wds s1 /\ sendable w1.
Proof.
  intros I Hw Hs. cbn.
  destruct (keeps_transit env s w (with_failures (wd_failures w + 1)) I Hw (sendable_transit _ Hs)) as [K Hin];
    [done|done|by left|]. by split_and!.
Qed.

Lemma keeps_initiate (env : PayEnv) (ans : answer) (s : PState) (w : Withdrawal) :
  payout_inv env s -> w ∈ p_wds s -> sendable w ->
  let '(_, _, w1, s1) := initiate_upi_payout env ans w s in keeps env s s1 /\ w1 ∈ p_wds s1 /\ sendable w1.
Proof.
  intros I Hw Hs. assert (Hstay : keeps env s s /\ w ∈ p_wds s /\ sendable w) by (split_and!; [by apply keeps_refl|done..]).
  pose proof (fun c => keeps_failed_try env c s w I Hw Hs) as Htry. unfold initiate_upi_payout.
  destruct (pv_upi env (wd_driver w)) as [upi|]; [|apply (Htry false)].
  destruct (_ || _ || _); [apply (Htry false)|]. destruct (truthy (wd_reference w)); [exact Hstay|].
  destruct (_ <=? _); [exact Hstay|]. destruct (pv_provider _ _); [|apply (Htry false)].
  destruct ans as [[payout_id|] status| | |]; [|apply (Htry true)|apply (Htry true)|exact Hstay|apply (Htry true)].
  destruct (bool_decide (payout_id = EmptyString)); [apply (Htry true)|]. cbn.
  match goal with |- keeps _ _ (set_wds (List.map (fun x => if _ then @?f x else x) _) _) /\ _ =>
    destruct (keeps_transit env s w f I Hw (sendable_transit _ Hs)) as [K Hin]; [done|done|right; cbn; set_solver|] end.
  split; [exact K|]. split; [exact Hin|]. unfold sendable. cbn. set_solver.
Qed.

Lemma keeps_trigger (env : PayEnv) (ans : answer) (s : PState) (w : Withdrawal) :
  payout_inv env s -> w ∈ p_wds s -> keeps env s (trigger_payout_creation env ans w s).2.
Proof.
  intros I Hw. unfold trigger_payout_creation.
  destruct (bool_decide (wd_status_of w ∈ [WApproved; WProcessed])) eqn:Es; [|by apply keeps_refl].
  apply bool_decide_eq_true in Es. cbn [negb]. destruct (has_rail (wd_currency w)); cbn [negb].
  - destruct (bool_decide (wd_method w = "upi")).
    + pose proof (keeps_initiate env ans s w I Hw Es) as Hini.
      destruct (initiate_upi_payout env ans w s) as [[[r c] w1] s1]. destruct Hini as (K & Hw1 & Hs1).
      eapply keeps_trans; [exact K|]. intros I1. unfold finish_dispatch. destruct r as [[]|].
      * apply (keeps_transit env s1 w1 (with_status WProcessed) I1 Hw1 (sendable_transit _ Hs1)); [done|done|right; cbn; set_solver].
      * pose proof (keeps_fail_and_refund env s1 w1 I1 Hw1 (sendable_transit _ Hs1)) as Kf. by destruct (fail_and_refund env w1 s1).
      * apply (keeps_transit env s1 w1 (with_status WUnresolved) I1 Hw1 (sendable_transit _ Hs1)); [done|done|right; cbn; set_solver].
    + pose proof (keeps_fail_and_refund env s w I Hw (sendable_transit _ Es)) as Kf. by destruct (fail_and_refund env w s).
  - apply (keeps_transit env s w (with_payout_status AWAITING_RAIL) I Hw (sendable_transit _ Es)); [done|done|by left].
Qed.

(** ** Lemmas: webhooks *)

(** Nothing the invariant looks at changed. *)
Lemma keeps_same (env : PayEnv) (s s' : PState) :
  payout_inv env s -> wallets (p_db s') = wallets (p_db s) -> txns (p_db s') = txns (p_db s) ->
  p_wds s' = p_wds s -> p_next s' = p_next s -> p_debts s' = p_debts s -> keeps env s s'.
Proof.
  intros [I1 I2 I3 I4 I5 I6 I7] Ew Et Ewd En Ed. split.
  - split; rewrite ?Ewd, ?En, ?Ed, ?Ew, ?Et; try done.
    + intros w Hw. eapply (row_ok_quiet (p_db s) _ []); [by rewrite app_nil_r|apply Forall_nil_2|by apply I4].
    + intros i Hi. destruct (I6 i Hi) as (F1 & F2 & F3). unfold key_used in *. rewrite Et. by split_and!.
  - intros u. unfold wealth, driver_balance, wallet_of. by rewrite Ew, Ewd, Ed.
Qed.

(** The provider's own ids are not texts of ours. *)
Definition provider_ids (h : Hook) : Prop :=
  forall r, hook_reference h = Some r -> String.prefix "withdrawal_" r = false.

Lemma by_reference_elem (s : PState) (r : option string) (w : Withdrawal) :
  by_reference s r = Some w -> w ∈ p_wds s /\ truthy (wd_reference w) = true.
Proof.
  unfold by_reference. destruct (truthy r) eqn:Er; [|done]. intros [Hin Hr]%find_some.
  apply bool_decide_eq_true in Hr. split; [|by rewrite Hr].
  apply list_elem_of_In in Hin. by rewrite elem_of_reverse in Hin.
Qed.

Lemma find_withdrawal_sent (s : PState) (h : Hook) (w : Withdrawal) :
  provider_ids h -> find_withdrawal s h = Some w -> w ∈ p_wds s /\ truthy (wd_reference w) = true.
Proof.
  intros Hp. unfold find_withdrawal. destruct (by_reference s (hook_payout_id h)) eqn:E1; [intros [= <-]; by eapply by_reference_elem|].
  destruct (by_reference s (hook_reference h)) eqn:E2; [intros [= <-]; by eapply by_reference_elem|].
  destruct (truthy (hook_reference h)); [|done]. destruct (hook_reference h) as [r|] eqn:Er; [|done].
  cbn. unfold id_in_reference. by rewrite (Hp r Er).
Qed.

Lemma history_keeps (env : PayEnv) (m : PayoutHistory -> bool) (row : PayoutHistory) (s s' : PState) :
  payout_inv env s -> history_once m row s = Ok s' -> keeps env s s'.
Proof.
  intros I. unfold history_once. destruct (List.filter m (p_history s)) as [|? [|]]; intros [= <-].
  - by apply keeps_same.
  - by apply keeps_refl.
Qed.

Lemma keeps_fail_payout (env : PayEnv) (h : Hook) (ps hs : string) (s s' : PState) (w : Withdrawal) :
  payout_inv env s -> w ∈ p_wds s -> wd_status_of w ∈ IN_TRANSIT ->
  fail_payout env h ps hs w s = Ok s' -> keeps env s s'.
Proof.
  intros I Hw Hst. unfold fail_payout.
  destruct (keeps_fail env s w (fun x => with_failures (wd_failures w + 1) (with_status WFailed (with_payout_status ps x))) I Hw Hst)
    as (s1 & E & K & _); [done..|]. unfold write in *. cbn [fst snd] in E. rewrite E. cbn [res_bind]. intros H.
  eapply keeps_trans; [exact K|]. intros I1. by eapply history_keeps.
Qed.

Lemma keeps_freeze (env : PayEnv) (st pid : option string) (s : PState) (w : Withdrawal) :
  payout_inv env s -> w ∈ p_wds s -> wd_status_of w = WFailed -> keeps env s (freeze env st pid w s).
Proof.
  intros I Hw Hst. unfold freeze. cbn [write].
  eapply (keeps_trans env s (write (fun w => with_status WConflict (with_payout_status (or_else st "success") w)) w s).2).
  - apply keeps_write; [done|done|done| |unfold out_minor; cbn; by rewrite Hst].
    apply (row_ok_write _ w); [by apply (pi_rows _ _ I)|done|intros H; exfalso; by eapply (status_apart _ _ [WConflict]); [|exact H|apply list_elem_of_here]|congruence|congruence|].
    intros H. exfalso. by eapply (status_apart _ _ [WConflict]); [|exact H|apply list_elem_of_here].
  - intros I1. by apply keeps_same.
Qed.

Lemma keeps_reverse_conflict (env : PayEnv) (st : option string) (s : PState) (w : Withdrawal) :
  payout_inv env s -> w ∈ p_wds s -> wd_status_of w = WConflict -> keeps env s (reverse_conflict st w s).
Proof.
  intros I Hw Hst. unfold reverse_conflict. cbn [write].
  eapply (keeps_trans env s (write (fun w => with_status WFailed (with_payout_status (or_else st "reversed") w)) w s).2).
  - apply keeps_write; [done|done|done| |unfold out_minor; cbn; by rewrite Hst].
    apply (row_ok_write _ w); [by apply (pi_rows _ _ I)|done|intros H; exfalso; by eapply (status_apart _ _ [WFailed]); [|exact H|apply list_elem_of_here]|congruence|congruence|].
    intros H. exfalso. by eapply (status_apart _ _ [WFailed]); [|exact H|apply list_elem_of_here].
  - intros I1. by apply keeps_same.
Qed.

Lemma keeps_pay (env : PayEnv) (h : Hook) (s s' : PState) (w : Withdrawal) :
  payout_inv env s -> w ∈ p_wds s -> wd_status_of w ∈ IN_TRANSIT -> pay_payout h w s = Ok s' -> keeps env s s'.
Proof.
  intros I Hw Hst. unfold pay_payout. cbn [write]. intros H.
  eapply (keeps_trans env s (write (fun w => with_status WCompleted (with_payout_status (or_else (hk_status h) "success") w)) w s).2).
  - apply keeps_write; [done|done|done| |].
    + apply (row_ok_write _ w); [by apply (pi_rows _ _ I)|done|done| | |].
      * intros E. exfalso. rewrite E in Hst. by eapply (status_apart _ _ [WRejected]); [|exact Hst|apply list_elem_of_here].
      * intros E. exfalso. rewrite E in Hst. by eapply (status_apart _ _ [WReversed]); [|exact Hst|apply list_elem_of_here].
      * intros E. exfalso. by eapply (status_apart _ _ [WCompleted]); [|exact E|apply list_elem_of_here].
    + unfold out_minor. cbn. rewrite !bool_decide_eq_true_2; [done|by apply elem_of_cons; right|apply list_elem_of_here].
  - intros I1. eapply keeps_trans; [|intros I2; by eapply history_keeps]. by apply keeps_same.
Qed.

Lemma keeps_reverse_paid (env : PayEnv) (st : option string) (s : PState) (w : Withdrawal) :
  payout_inv env s -> w ∈ p_wds s -> wd_status_of w = WCompleted -> keeps env s (reverse_paid_payout env st w s).
Proof.
  intros I Hw Hst. pose proof (pi_rows _ _ I w Hw) as [R1 R2 R3 R4].
  assert (Hk : ~ key_used (p_db s) (reversed_reference (wd_id w))) by (intros Hu; rewrite (R3 Hu) in Hst; done).
  unfold reverse_paid_payout. cbn [get_wallet]. set (u0 := pv_user env (wd_driver w)).
  set (db0 := set_wallets _ (p_db s)).
  destruct (create_fresh u0 (wd_currency w) (wd_amount w) credit "refund_reversed_withdrawal" (reversed_reference (wd_id w))
              (reversed_reference (wd_id w)) db0) as (t & E & T1 & T2 & T3); [done|].
  change (p_db (set_db db0 s)) with db0. rewrite E. cbn [write].
  eapply (keeps_change env s _ w (fun w => with_status WReversed (with_payout_status (or_else st "reversed") w)) [t]); try done.
  - intros j Hj. eapply quiet_one; [exact T1|]. by apply quiet_reversed_reference.
  - constructor; [|constructor]. apply purpose_other. rewrite T2. by vm_compute; set_solver.
  - intros y Hy. refine (saved_wallets u0 _ (set_txns (next_id db0 + 1) (txns db0 ++ [t]) db0) y _).
    unfold db0. cbn [wallets set_txns set_wallets].
    destruct (decide ((u0, SCOPE_DRIVER) = y)) as [<-|N]; [rewrite lookup_insert_eq; by eexists|by rewrite lookup_insert_ne].
  - cbn [raise_payout_alert set_alerts_of p_db set_db set_alerts].
    match goal with |- row_ok ?d _ => set (db1 := d) end.
    assert (Et : txns db1 = txns (p_db s) ++ [t]) by done.
    split; cbn [with_status with_payout_status wd_id wd_status_of].
    + intros n Hu. assert (Hnr : String.prefix (retry_prefix (wd_id w)) (reversed_reference (wd_id w)) = false)
        by (unfold reversed_reference; not_retry).
      rewrite (attempts_one _ _ _ _ _ Et T1), Hnr, Z.add_0_r.
      split; [|intros _ Hin; by eapply (status_apart _ _ [WReversed]); [|exact Hin|apply list_elem_of_here]].
      destruct (used_one _ _ _ _ _ Et T1 Hu) as [Hu'|E']; [by apply R1|by rewrite failed_refund_tail in E'].
    + intros Hu. destruct (used_one _ _ _ _ _ Et T1 Hu) as [Hu'|E']; [|done]. rewrite (R2 Hu') in Hst. done.
    + done.
    + intros Hin. exfalso. by eapply (status_apart _ _ [WReversed]); [|exact Hin|apply list_elem_of_here].
  - intros u. cbn [raise_payout_alert set_alerts_of p_db set_db set_alerts].
    change (driver_balance (set_alerts ?a ?d) ?v) with (driver_balance d v). cbn [p_db set_db set_wds].
    rewrite driver_balance_save. change (driver_balance (set_txns ?a ?b ?d) ?v) with (driver_balance d v).
    assert (driver_balance db0 u = driver_balance (p_db s) u) as -> by apply (driver_balance_get (p_db s) u0 u SCOPE_DRIVER).
    unfold out_minor. cbn [with_status with_payout_status wd_status_of wd_amount]. rewrite Hst.
    rewrite (bool_decide_eq_true_2 (WCompleted ∈ _)) by apply list_elem_of_here.
    rewrite (bool_decide_eq_false_2 (WReversed ∈ _)).
    2: { intros Hin. by eapply (status_apart _ _ [WReversed]); [|exact Hin|apply list_elem_of_here]. }
    fold u0. destruct (Z.eqb_spec u0 u) as [<-|]; [|lia]. unfold driver_balance. lia.
Qed.

Lemma status_rest (st : wd_status) (l : list wd_status) :
  st ∉ l -> forallb (fun x => bool_decide (x ∈ l ++ IN_TRANSIT))
    [WPending; WApproved; WRejected; WProcessed; WCompleted; WFailed; WUnresolved; WReversed; WConflict] = true ->
  st ∈ IN_TRANSIT.
Proof.
  intros Hn H. rewrite forallb_forall in H.
  assert (Hin : st ∈ l ++ IN_TRANSIT).
  { apply (bool_decide_eq_true_1 _), H. destruct st; cbn; tauto. }
  by apply elem_of_app in Hin as [|].
Qed.

Lemma keeps_webhook (env : PayEnv) (h : Hook) (s s' : PState) (a : hook_answer) :
  payout_inv env s -> provider_ids h -> handle_payout_webhook env h s = Ok (a, s') -> keeps env s s'.
Proof.
  intros I Hp. pose proof (keeps_refl env s I) as K. unfold handle_payout_webhook.
  destruct (_ && _); [by intros [= _ <-]|]. destruct (find_withdrawal s h) as [w|] eqn:Ef; [|by intros [= _ <-]].
  destruct (find_withdrawal_sent s h w Hp Ef) as [Hw Href].
  assert (Hnr : wd_status_of w ∉ [WPending; WRejected]).
  { intros Hin. by rewrite (ro_reference _ _ (pi_rows _ _ I w Hw) Hin) in Href. }
  destruct (bool_decide (hk_event h ∈ ["TRANSFER_SUCCESS"; _])).
  - destruct (bool_decide (wd_status_of w ∈ [WCompleted; WReversed; WConflict])) eqn:E1; [by intros [= _ <-]|].
    apply bool_decide_eq_false in E1. destruct (bool_decide (wd_status_of w ∈ [WFailed; WRejected])) eqn:E2.
    + apply bool_decide_eq_true in E2. intros [= _ <-]. apply keeps_freeze; [done|done|]. clear -E2 Hnr. set_solver.
    + apply bool_decide_eq_false in E2. intros H. apply res_bind_ok in H as (s1 & H1 & [= _ <-]).
      eapply keeps_pay; [done|done| |done].
      apply (status_rest _ [WCompleted; WReversed; WConflict; WFailed; WRejected]); [clear -E1 E2; set_solver|by vm_compute].
  - destruct (bool_decide (hk_event h ∈ ["TRANSFER_FAILED"; _])).
    + destruct (bool_decide (wd_status_of w ∈ [WCompleted; WFailed; WConflict; WReversed])) eqn:E1; [by intros [= _ <-]|].
      apply bool_decide_eq_false in E1. intros H. apply res_bind_ok in H as (s1 & H1 & [= _ <-]).
      eapply keeps_fail_payout; [done|done| |done].
      apply (status_rest _ [WCompleted; WFailed; WConflict; WReversed; WPending; WRejected]); [clear -E1 Hnr; set_solver|by vm_compute].
    + destruct (bool_decide (hk_event h = "PAYOUT_PENDING")).
      * destruct (bool_decide (wd_status_of w ∈ [WCompleted; WFailed])); [by intros [= _ <-]|]. intros [= _ <-].
        apply (keeps_write env s w (with_payout_status (or_else (hk_status h) "pending"))); [done|done|done| |done].
        apply (row_ok_write _ w); [by apply (pi_rows _ _ I)|done..|]. apply (pi_rows _ _ I w Hw).
      * destruct (bool_decide (hk_event h ∈ _)); [|by intros [= _ <-]].
        destruct (bool_decide (wd_status_of w = WCompleted)) eqn:E1.
        { apply bool_decide_eq_true in E1. intros [= _ <-]. by apply keeps_reverse_paid. }
        destruct (bool_decide (wd_status_of w = WConflict)) eqn:E2.
        { apply bool_decide_eq_true in E2. intros [= _ <-]. by apply keeps_reverse_conflict. }
        destruct (bool_decide (wd_status_of w ∈ [WFailed; WReversed])) eqn:E3; [by intros [= _ <-]|].
        apply bool_decide_eq_false in E1, E2, E3. intros H. apply res_bind_ok in H as (s1 & H1 & [= _ <-]).
        eapply keeps_fail_payout; [done|done| |done].
        apply (status_rest _ [WCompleted; WConflict; WFailed; WReversed; WPending; WRejected]); [clear -E1 E2 E3 Hnr; set_solver|by vm_compute].
Qed.

(** ** Lemmas: what other code writes, and new withdrawals *)

(** Lines that are about no withdrawal. *)
Definition foreign_lines (l : list Txn) : Prop := (forall i, quiet_lines l i) /\ Forall purpose_ok l.

Lemma inv_outside (env : PayEnv) (s s' : PState) (l : list Txn) :
  payout_inv env s -> p_wds s' = p_wds s -> p_next s' = p_next s -> debt_id <$> p_debts s' = debt_id <$> p_debts s ->
  txns (p_db s') = txns (p_db s) ++ l -> foreign_lines l ->
  (forall x, is_Some (wallets (p_db s) !! x) -> is_Some (wallets (p_db s') !! x)) -> payout_inv env s'.
Proof.
  intros [I1 I2 I3 I4 I5 I6 I7] Ew En Ed Et [Hq Hp] Hwal. split; rewrite ?Ew, ?En, ?Ed; try done.
  - intros w Hw. eapply row_ok_quiet; [exact Et|apply Hq|by apply I4].
  - intros w Hw. by apply Hwal, I5.
  - intros i Hi. destruct (I6 i Hi) as (F1 & F2 & F3). split_and!.
    + intros n Hu. apply (F1 n). eapply quiet_used; [exact Et|apply (Hq i)| |done]. left. by exists n.
    + intros Hu. apply F2. eapply quiet_used; [exact Et|apply (Hq i)| |done]. by right; left.
    + intros Hu. apply F3. eapply quiet_used; [exact Et|apply (Hq i)| |done]. by right; right.
  - intros t. rewrite Et, elem_of_app. intros [Ht|Ht]; [by apply I7|]. rewrite Forall_forall in Hp. by apply Hp.
Qed.

Lemma foreign_one (t : Txn) (k : string) :
  txn_key t = Some k -> (forall i, quiet k i) -> txn_purpose t ∉ REFUND_PURPOSES -> foreign_lines [t].
Proof.
  intros Hk Hq Hp. split; [intros i; by eapply quiet_one|]. apply Forall_singleton. by apply purpose_other.
Qed.

(** The new row and its debit. *)
Lemma inv_add (env : PayEnv) (s s' : PState) (w : Withdrawal) (t : Txn) (k : string) :
  payout_inv env s -> p_wds s' = p_wds s ++ [w] -> p_next s' = p_next s + 1 -> p_debts s' = p_debts s ->
  txns (p_db s') = txns (p_db s) ++ [t] -> txn_key t = Some k -> (forall i, quiet k i) -> txn_purpose t ∉ REFUND_PURPOSES ->
  (forall x, is_Some (wallets (p_db s) !! x) -> is_Some (wallets (p_db s') !! x)) ->
  is_Some (wallets (p_db s) !! (pv_user env (wd_driver w), SCOPE_DRIVER)) ->
  wd_id w = p_next s -> wd_reference w = None -> payout_inv env s'.
Proof.
  intros I Ew En Ed Et Hk Hq Hp Hwal Hwe Hi Hr. destruct (foreign_one t k Hk Hq Hp) as [Hl1 Hl2].
  pose proof I as [I1 I2 I3 I4 I5 I6 I7].
  assert (Hfresh : forall v, v ∈ p_wds s -> wd_id v <> wd_id w).
  { intros v Hv E. specialize (I2 v Hv). lia. }
  assert (Hq' : forall k', (exists n, k' = failed_refund (wd_id w) n) \/ k' = reject_reference (wd_id w) \/
            k' = reversed_reference (wd_id w) -> ~ key_used (p_db s') k').
  { intros k' Hk' Hu. destruct (I6 (wd_id w) Hfresh) as (F1 & F2 & F3).
    apply (quiet_used _ _ _ _ _ Et (Hl1 (wd_id w)) Hk') in Hu.
    destruct Hk' as [[n ->]|[-> | ->]]; [by apply (F1 n)|done|done]. }
  split; rewrite ?Ed; try done.
  - rewrite Ew, fmap_app. apply NoDup_app. split_and!; [done| |apply NoDup_singleton].
    intros i Hin ->%list_elem_of_singleton. apply list_elem_of_fmap in Hin as (v & E & Hv). by apply (Hfresh v Hv).
  - intros v. rewrite Ew, elem_of_app, list_elem_of_singleton, En. intros [Hv | ->]; [specialize (I2 v Hv); lia|lia].
  - intros v. rewrite Ew, elem_of_app, list_elem_of_singleton. intros [Hv | ->].
    + eapply row_ok_quiet; [exact Et|apply Hl1|by apply I4].
    + split; [| | |by rewrite Hr].
      * intros n Hu. exfalso. eapply Hq'; [|exact Hu]. left. by exists n.
      * intros Hu. exfalso. eapply Hq'; [|exact Hu]. by right; left.
      * intros Hu. exfalso. eapply Hq'; [|exact Hu]. by right; right.
  - intros v. rewrite Ew, elem_of_app, list_elem_of_singleton. intros [Hv | ->]; apply Hwal; [by apply I5|done].
  - intros i Hni. assert (Hni' : forall v, v ∈ p_wds s -> wd_id v <> i) by (intros v Hv; apply Hni; rewrite Ew; set_solver).
    destruct (I6 i Hni') as (F1 & F2 & F3). split_and!.
    + intros n Hu. apply (F1 n). eapply quiet_used; [exact Et|apply (Hl1 i)| |done]. left. by exists n.
    + intros Hu. apply F2. eapply quiet_used; [exact Et|apply (Hl1 i)| |done]. by right; left.
    + intros Hu. apply F3. eapply quiet_used; [exact Et|apply (Hl1 i)| |done]. by right; right.
  - intros x. rewrite Et, elem_of_app. intros [Hx|Hx]; [by apply I7|]. rewrite Forall_forall in Hl2. by apply Hl2.
Qed.

(** ** Lemmas: recoveries *)

Lemma zsum_snd_nil : zsum (snd : Debt * Z -> Z) [] = 0.
Proof. done. Qed.

(** A plan over rows that are there. *)
Definition plan_ok (s : PState) (user : Z) (plan : list (Debt * Z)) : Prop :=
  base.NoDup ((fun e => debt_id e.1) <$> plan) /\ Forall (fun e => e.1 ∈ p_debts s /\ debt_user e.1 = user) plan.

Lemma recovered_fields (d : Debt) (n now : Z) :
  debt_id (recovered d n now) = debt_id d /\ debt_user (recovered d n now) = debt_user d /\
  debt_recovered (recovered d n now) = debt_recovered d + n.
Proof. unfold recovered. by destruct (_ <=? 0). Qed.

Lemma deduction_keeps (env : PayEnv) (user i : Z) (plan : list (Debt * Z)) (s s' : PState) :
  payout_inv env s -> plan_ok s user plan -> apply_deduction user i plan s = Ok s' ->
  payout_inv env s' /\ forall u, wealth env s' u = wealth env s u + if user =? u then zsum snd plan else 0.
Proof.
  revert s. induction plan as [|[d n] plan IH]; intros s I [Hnd Hin]; cbn [apply_deduction].
  { intros [= <-]. split; [done|]. intros u. cbn. destruct (user =? u); lia. }
  intros H. apply res_bind_ok in H as ([tid db] & Hc & H). apply res_bind_ok in H as (? & _ & H).
  apply create_txn_ok in Hc as (_ & _ & ->). rewrite fmap_cons in Hnd. apply NoDup_cons in Hnd as [Hd Hnd].
  apply Forall_cons in Hin as [[Hdin Hdu] Hin]. cbn [fst snd] in *.
  set (g := recovered d n _) in *. assert (debt_id g = debt_id d /\ debt_user g = debt_user d /\ debt_recovered g = debt_recovered d + n) as (G1 & G2 & G3)
    by apply recovered_fields.
  set (s1 := {| p_db := _ |}) in H.
  assert (Ed : p_debts s1 = List.map (fun x => if debt_id x =? debt_id d then g else x) (p_debts s)) by done.
  assert (Hids : debt_id <$> p_debts s1 = debt_id <$> p_debts s).
  { rewrite Ed. generalize (p_debts s). induction l as [|y l IHl]; [done|]. cbn. f_equal; [|exact IHl].
    destruct (Z.eqb_spec (debt_id y) (debt_id d)) as [->|]; [exact G1|done]. }
  assert (I1 : payout_inv env s1).
  { eapply (inv_outside env s s1); [done|done|done|done|done| |done].
    eapply foreign_one; [done|intros j; apply quiet_recovery|]. by vm_compute; set_solver. }
  assert (W1 : forall u, wealth env s1 u = wealth env s u + if user =? u then n else 0).
  { intros u. unfold wealth. rewrite Ed.
    change (p_wds s1) with (p_wds s). change (driver_balance (p_db s1) u) with (driver_balance (p_db s) u).
    rewrite (zsum_update_map debt_id _ (fun _ => g) d); [|apply (pi_debts _ _ I)|done].
    rewrite G2, Hdu, G3. destruct (user =? u); lia. }
  destruct (IH s1 I1) as [I2 W2]; [|exact H|].
  - split; [done|]. rewrite Forall_forall in Hin |- *. intros e He. destruct (Hin e He) as [Hein Heu].
    split; [|done]. rewrite Ed. apply list_elem_of_In, in_map_iff. exists e.1. split; [|by apply list_elem_of_In].
    rewrite (proj2 (Z.eqb_neq _ _)); [done|]. intros E. apply Hd. rewrite <- E.
    by apply (list_elem_of_fmap_2 (fun e => debt_id e.1)).
  - split; [done|]. intros u. rewrite W2, W1.
    change (zsum snd ((d, n) :: plan)) with (n + zsum snd plan). destruct (user =? u); lia.
Qed.

Lemma take_from_sub (l : list Debt) (n : Z) :
  (fun e : Debt * Z => e.1) <$> take_from l n `sublist_of` l.
Proof.
  revert n. induction l as [|d l IH]; intros n; cbn; [constructor|].
  destruct (0 <? _); cbn; [by apply sublist_skip|by apply sublist_cons].
Qed.

Lemma filter_sub {A} (P : A -> bool) (l : list A) : List.filter P l `sublist_of` l.
Proof. induction l as [|x l IH]; cbn; [constructor|]. destruct (P x); [by apply sublist_skip|by apply sublist_cons]. Qed.

Lemma plan_deduction_ok (env : PayEnv) (s : PState) (user payout floor percent n : Z) (plan : list (Debt * Z)) :
  payout_inv env s -> plan_deduction s user payout floor percent = (n, plan) ->
  plan_ok s user plan /\ n = zsum snd plan.
Proof.
  intros I. unfold plan_deduction.
  set (l := List.filter _ (open_debts s user)). destruct (match l with [] => true | _ => payout <=? 0 end).
  { intros [= <- <-]. split; [|done]. split; [apply NoDup_nil_2|apply Forall_nil_2]. }
  set (cap := Z.min _ _). intros [= <- <-]. split; [|done].
  pose proof (take_from_sub l cap) as Hs.
  assert (Hl : l `sublist_of` p_debts s) by (etransitivity; apply filter_sub).
  split.
  - change (base.NoDup ((fun e : Debt * Z => debt_id e.1) <$> take_from l cap)).
    rewrite (list_fmap_compose (fun e : Debt * Z => e.1) debt_id).
    eapply sublist_NoDup; [apply (pi_debts _ _ I)|]. apply fmap_sublist. by etransitivity.
  - apply Forall_forall. intros e He. assert (Hel : e.1 ∈ l).
    { eapply elem_of_sublist; [|exact Hs]. by apply (list_elem_of_fmap_2 (fun e : Debt * Z => e.1)). }
    split; [by eapply elem_of_sublist|]. unfold l in Hel. apply elem_of_filter_b in Hel as [Hel _].
    apply elem_of_filter_b in Hel as [_ Hel]. by apply andb_true_iff in Hel as [Hu%Z.eqb_eq _].
Qed.

Lemma keeps_write_withdrawal (env : PayEnv) (s s' : PState) (w : Withdrawal) (cur tok : string) (gross : Z) (plan : list (Debt * Z)) :
  payout_inv env s -> wd_id w = p_next s -> wd_reference w = None -> wd_status_of w = WPending ->
  is_Some (wallets (p_db s) !! (pv_user env (wd_driver w), SCOPE_DRIVER)) ->
  plan_ok s (pv_user env (wd_driver w)) plan -> wd_amount w + zsum snd plan = gross ->
  write_withdrawal (pv_user env (wd_driver w)) w cur tok gross plan s = Ok s' -> keeps env s s'.
Proof.
  intros I Hi Hr Hs Hwal Hplan Hsum H. unfold write_withdrawal in H. apply res_bind_ok in H as (db & Hd & H).
  apply pending_debit_ok in Hd as (t & -> & T1 & T2). set (user := pv_user env (wd_driver w)) in *.
  set (s1 := {| p_db := _ |}) in H.
  assert (I1 : payout_inv env s1).
  { eapply (inv_add env s s1 w t); try done.
    - intros i. apply quiet_debit.
    - rewrite T2. by vm_compute; set_solver.
    - intros x Hx. by apply saved_wallets. }
  destruct (deduction_keeps env user (wd_id w) plan s1 s' I1) as [I2 W2]; [|done|].
  { exact Hplan. }
  split; [done|]. intros u. rewrite W2. unfold wealth. cbn [s1 p_db p_wds p_debts].
  rewrite zsum_app, driver_balance_save. change (driver_balance (set_txns ?a ?b ?d) ?v) with (driver_balance d v).
  cbn [zsum foldr]. unfold out_minor at 2. rewrite Hs, bool_decide_eq_true_2 by (apply elem_of_cons; right; apply list_elem_of_here).
  fold user. destruct (Z.eqb_spec user u) as [<-|]; lia.
Qed.

(** ** Lemmas: asking for money *)

Lemma keeps_create (env : PayEnv) (driver : Z) (cf : Config) (tok : string) (s s' : PState) (o : option Withdrawal) :
  payout_inv env s -> create_one env driver cf tok s = Ok (o, s') -> keeps env s s'.
Proof.
  intros I. pose proof (keeps_refl env s I) as K. unfold create_one.
  destruct (wallets (p_db s) !! _) as [wal|] eqn:Ew; [|by intros [= _ <-]].
  repeat match goal with |- (if ?b then Ok (None, s) else _) = _ -> _ => destruct b; [by intros [= _ <-]|] end.
  destruct (plan_deduction s _ _ _ _) as [n plan] eqn:Ep.
  destruct (plan_deduction_ok env _ _ _ _ _ _ _ I Ep) as [Hplan ->].
  intros H. apply res_bind_ok in H as (fee & _ & H). destruct (_ <=? fee); [by injection H as _ <-|].
  apply res_bind_ok in H as (s1 & H & [= _ <-]).
  set (w := new_withdrawal _ _ _ _ _ _) in H. change (pv_user env driver) with (pv_user env (wd_driver w)) in H.
  eapply keeps_write_withdrawal; [..|exact H]; try done; try (by eexists); cbn; lia.
Qed.

Lemma keeps_request (env : PayEnv) (driver amount : Z) (tok : string) (s s' : PState) (w : Withdrawal) :
  payout_inv env s -> driver_withdrawal_request env driver amount tok s = Ok (w, s') -> keeps env s s'.
Proof.
  intros I. unfold driver_withdrawal_request. destruct (mbind _ _) as [cf|]; [|done]. intros H.
  do 4 apply res_bind_ok in H as (? & _ & H). cbn [get_wallet] in H. set (db := set_wallets _ _) in H.
  assert (K0 : keeps env s (set_db db s)).
  { assert (Hwal : forall y, is_Some (wallets (p_db s) !! y) -> is_Some (wallets db !! y)).
    { intros y Hy. unfold db. cbn [wallets set_wallets].
      destruct (decide ((pv_user env driver, SCOPE_DRIVER) = y)) as [<-|N]; [rewrite lookup_insert_eq; by eexists|by rewrite lookup_insert_ne]. }
    split.
    - eapply (inv_outside env s _ []); try done; [by rewrite app_nil_r|]. split; [intros i|]; apply Forall_nil_2.
    - intros u. unfold wealth. cbn [p_db set_db p_wds p_debts].
      assert (driver_balance db u = driver_balance (p_db s) u) as ->; [|done].
      apply (driver_balance_get (p_db s) (pv_user env driver) u SCOPE_DRIVER). }
  eapply keeps_trans; [exact K0|]. intros I1. apply res_bind_ok in H as (? & _ & H).
  destruct (plan_deduction _ _ _ _ _) as [n plan] eqn:Ep.
  destruct (plan_deduction_ok env _ _ _ _ _ _ _ I1 Ep) as [Hplan ->].
  apply res_bind_ok in H as (fee & _ & H). apply res_bind_ok in H as (? & _ & H).
  apply res_bind_ok in H as (s1 & H & [= _ <-]).
  set (w0 := new_withdrawal _ _ _ _ _ _) in H. change (pv_user env driver) with (pv_user env (wd_driver w0)) in H.
  eapply keeps_write_withdrawal; [..|exact H]; try done.
  - cbn [p_db set_db]. unfold db. cbn [wallets set_wallets wd_driver new_withdrawal]. rewrite lookup_insert_eq. by eexists.
  - cbn. lia.
Qed.

(** ** Lemmas: the adjustment *)

Lemma keeps_resolution (env : PayEnv) (known : Z -> bool) (a : Adjustment) (i : Z) (s s' : PState) (d : bool) :
  payout_inv env s -> ad_withdrawal a = Some i -> i <> 0 ->
  execute_driver_adjustment env known a s = Ok (d, s') -> keeps env s s'.
Proof.
  intros I Hi Hi0 H. unfold execute_driver_adjustment in H. rewrite Hi, (proj2 (Z.eqb_neq i 0) Hi0) in H.
  apply res_bind_ok in H as (? & _ & H). destruct (ad_driver a) as [driver|]; [|done].
  apply res_bind_ok in H as (? & _ & H). destruct (wallets (p_db s) !! _) as [wal|] eqn:Ew; [|done].
  destruct (existsb _ _); [injection H as _ <-; by apply keeps_refl|].
  apply res_bind_ok in H as (? & _ & H). apply res_bind_ok in H as (? & _ & H).
  apply res_bind_ok in H as ([tid db] & Hc & H). apply res_bind_ok in H as (w & Hr & [= _ <-]).
  apply create_txn_ok in Hc as (_ & _ & ->). unfold check_resolution in Hr.
  destruct (List.find _ _) as [v|] eqn:Ef; [|done]. apply res_bind_ok in Hr as (? & Hst & Hr).
  apply res_bind_ok in Hr as (? & Ham & [= ->]). apply require_ok, bool_decide_eq_true in Hst.
  apply require_ok in Ham. apply andb_true_iff in Ham as [Ham _]. apply andb_true_iff in Ham as [Hdir Ham].
  apply Z.eqb_eq in Ham. rewrite Hdir. apply find_some in Ef as [Hw%list_elem_of_In Ef].
  apply andb_true_iff in Ef as [_ Hdr%Z.eqb_eq]. change (w ∈ p_wds s) in Hw. subst driver.
  unfold resolve_paid. cbn [write]. set (t := {| txn_id := _ |}).
  eapply (keeps_change env s _ w (with_status WCompleted) [t]); try done.
  - intros j _. eapply quiet_one; [done|]. apply quiet_adjustment.
  - apply Forall_singleton, purpose_other. by vm_compute; set_solver.
  - intros y Hy. refine (saved_wallets _ _ (set_txns (next_id (p_db s) + 1) (txns (p_db s) ++ [t]) (p_db s)) y _). exact Hy.
  - match goal with |- row_ok ?x _ => assert (Et : txns x = txns (p_db s) ++ [t]) by done end.
    eapply (row_ok_quiet (p_db s) _ [t]); [exact Et|eapply quiet_one; [done|apply quiet_adjustment]|].
    apply (row_ok_write _ w); [by apply (pi_rows _ _ I)|done| |congruence|congruence|].
    + intros Hin. exfalso. by eapply (status_apart _ _ [WCompleted]); [|exact Hin|apply list_elem_of_here].
    + intros Hin. exfalso. by eapply (status_apart _ _ [WCompleted]); [|exact Hin|apply list_elem_of_here].
  - intros u. cbn [clear_conflict_alert set_alerts_of p_db set_db].
    change (driver_balance (set_alerts ?x ?y) ?v) with (driver_balance y v). cbn [p_db set_db set_wds].
    rewrite driver_balance_save. change (driver_balance (set_txns ?x ?b ?y) ?v) with (driver_balance y v).
    unfold out_minor. cbn [with_status wd_status_of wd_amount]. rewrite Hst.
    rewrite (bool_decide_eq_true_2 (WCompleted ∈ _)) by apply list_elem_of_here.
    rewrite (bool_decide_eq_false_2 (WConflict ∈ _)).
    2: { intros Hin. by eapply (status_apart _ _ [WConflict]); [|exact Hin|apply list_elem_of_here]. }
    destruct (Z.eqb_spec (pv_user env (wd_driver w)) u) as [<-|]; [|lia].
    unfold driver_balance, wallet_of. rewrite Ew. cbn. lia.
Qed.

(** ** The steps *)

(** What operators, drivers, the beat and the provider do to withdrawals. *)
Inductive payout_step (env : PayEnv) : PState -> PState -> Prop :=
| step_request driver amount tok s w s' :
    driver_withdrawal_request env driver amount tok s = Ok (w, s') -> payout_step env s s'
| step_scheduled driver cf tok s o s' : create_one env driver cf tok s = Ok (o, s') -> payout_step env s s'
| step_approve i s : payout_step env s (approve_one env i s).2
| step_reject i s w s' : reject_one env i s = Ok (w, s') -> payout_step env s s'
| step_retry ap i s w s' : retry_failed env ap i s = Ok (w, s') -> payout_step env s s'
| step_dispatch i ans s w : find_wd s i = Some w -> payout_step env s (trigger_payout_creation env ans w s).2
| step_webhook h s a s' : provider_ids h -> handle_payout_webhook env h s = Ok (a, s') -> payout_step env s s'
| step_resolve known a i s d s' :
    ad_withdrawal a = Some i -> i <> 0 -> execute_driver_adjustment env known a s = Ok (d, s') -> payout_step env s s'.

(** Anything else that writes the ledger: settlements, rewards, plain adjustments, debts. *)
Inductive outside_step (env : PayEnv) : PState -> PState -> Prop :=
| step_outside s s' l :
    p_wds s' = p_wds s -> p_next s' = p_next s -> base.NoDup (debt_id <$> p_debts s') ->
    txns (p_db s') = txns (p_db s) ++ l -> foreign_lines l ->
    (forall x, is_Some (wallets (p_db s) !! x) -> is_Some (wallets (p_db s') !! x)) -> outside_step env s s'.

Definition world_step (env : PayEnv) (s s' : PState) : Prop := payout_step env s s' \/ outside_step env s s'.

(** Before the first withdrawal. *)
Definition no_payouts (s : PState) : Prop :=
  p_wds s = [] /\ base.NoDup (debt_id <$> p_debts s) /\ foreign_lines (txns (p_db s)).

Lemma payout_step_keeps (env : PayEnv) (s s' : PState) : payout_inv env s -> payout_step env s s' -> keeps env s s'.
Proof.
  intros I H. destruct H as [driver amount tok s w s' H|driver cf tok s o s' H|i s|i s w s' H|ap i s w s' H|i ans s w H|h s a s' Hp H|known a i s d s' Hi Hi0 H].
  - by eapply keeps_request.
  - by eapply keeps_create.
  - by apply keeps_approve.
  - by eapply keeps_reject.
  - by eapply keeps_retry.
  - apply keeps_trigger; [done|]. by apply find_wd_elem in H as [H _].
  - by eapply keeps_webhook.
  - by eapply keeps_resolution.
Qed.

Lemma no_payouts_inv (env : PayEnv) (s : PState) : no_payouts s -> payout_inv env s.
Proof.
  intros (Hw & Hd & Hq & Hp). split; rewrite ?Hw; try done; try (by intros w ?%not_elem_of_nil).
  - apply NoDup_nil_2.
  - intros i _. assert (Hu : forall k, key_used (p_db s) k -> exists t k', t ∈ txns (p_db s) /\ txn_key t = Some k /\ k = k' /\ quiet k' i).
    { intros k (t & Ht & Hk). specialize (Hq i). unfold quiet_lines in Hq. rewrite Forall_forall in Hq.
      destruct (Hq t Ht) as (k' & Hk' & Hqk). rewrite Hk in Hk'. injection Hk' as <-. by exists t, k. }
    split_and!; [intros n H|intros H|intros H]; destruct (Hu _ H) as (t & k' & _ & _ & <- & [Q1 Q2 Q3 _]);
      [by apply (Q1 n)|done|done].
  - intros t Ht. rewrite Forall_forall in Hp. by apply Hp.
Qed.

Lemma outside_step_inv (env : PayEnv) (s s' : PState) : payout_inv env s -> outside_step env s s' -> payout_inv env s'.
Proof.
  intros I H. destruct H as [s s' l Ew En Hd Et Hf Hwal].
  pose proof (inv_outside env s {| p_db := p_db s'; p_wds := p_wds s'; p_next := p_next s'; p_debts := p_debts s;
    p_history := p_history s'; p_last := p_last s' |} l I Ew En eq_refl Et Hf Hwal) as [J1 J2 J3 J4 J5 J6 J7].
  by split.
Qed.

Lemma world_inv (env : PayEnv) (s0 s : PState) : no_payouts s0 -> rtc (world_step env) s0 s -> payout_inv env s.
Proof.
  intros H Hr. apply (no_payouts_inv env) in H. induction Hr as [|x y z [Hxy|Hxy] _ IH]; [done| |].
  - apply IH. by apply payout_step_keeps in Hxy as [? _].
  - apply IH. by eapply outside_step_inv.
Qed.

(** ** One call to the provider for each release *)

(** Whether dispatching this instance reaches the provider. *)
Definition dispatch_calls (env : PayEnv) (ans : answer) (w : Withdrawal) (s : PState) : bool :=
  bool_decide (wd_status_of w ∈ [WApproved; WProcessed]) && has_rail (wd_currency w) && bool_decide (wd_method w = "upi") &&
  (initiate_upi_payout env ans w s).1.1.2.

(** The provider has been asked: there is a reference, or the row is past sending. *)
Definition spent (w : Withdrawal) : bool :=
  truthy (wd_reference w) || negb (bool_decide (wd_status_of w ∈ [WPending; WApproved; WProcessed])).

Definition spent_id (s : PState) (i : Z) : Prop := forall w, w ∈ p_wds s -> wd_id w = i -> spent w = true.

Lemma spent_no_call (env : PayEnv) (ans : answer) (w : Withdrawal) (s : PState) :
  spent w = true -> dispatch_calls env ans w s = false.
Proof.
  unfold spent, dispatch_calls. intros H. destruct (bool_decide (wd_status_of w ∈ [WApproved; WProcessed])) eqn:E; [|done].
  apply bool_decide_eq_true in E. rewrite (bool_decide_eq_true_2 (wd_status_of w ∈ [WPending; _; _])) in H
    by (apply elem_of_cons; by right).
  rewrite orb_false_r in H. destruct (has_rail _); [|done]. destruct (bool_decide (_ = "upi")); [|done]. cbn [andb].
  unfold initiate_upi_payout. destruct (pv_upi env (wd_driver w)) as [upi|]; [|done]. destruct (_ || _ || _); [done|].
  by rewrite H.
Qed.

(** Rows whose payout was asked for stay so. *)
Definition keeps_spent (s s' : PState) : Prop :=
  (forall i, i < p_next s -> spent_id s i -> spent_id s' i) /\ p_next s <= p_next s'.

Lemma keeps_spent_trans (a b c : PState) : keeps_spent a b -> keeps_spent b c -> keeps_spent a c.
Proof. intros [H1 N1] [H2 N2]. split; [|lia]. intros i Hi H. apply H2; [lia|]. by apply H1. Qed.

Lemma keeps_spent_same (s s' : PState) : p_wds s' = p_wds s -> p_next s' = p_next s -> keeps_spent s s'.
Proof. intros E N. split; [|lia]. intros i _ H w. rewrite E. apply H. Qed.

Lemma keeps_spent_write (f : Withdrawal -> Withdrawal) (w : Withdrawal) (s : PState) :
  (forall x, wd_id (f x) = wd_id x) -> (forall x, x ∈ p_wds s -> wd_id x = wd_id w -> spent x = true -> spent (f x) = true) ->
  keeps_spent s (write f w s).2.
Proof.
  intros Hf Hs. split; [|done]. intros i _ H z Hz Hi. cbn in Hz. apply elem_of_update in Hz as (y & Hy & [[Hyi ->]|[Hyi ->]]); [|by apply H].
  apply Hs; [done|done|]. apply H; [done|]. by rewrite Hf in Hi.
Qed.

(** A row that is past sending stays so, whatever its new status is among these. *)
Definition PAST : list wd_status := [WRejected; WCompleted; WFailed; WUnresolved; WReversed; WConflict].

Lemma spent_past (w : Withdrawal) : wd_status_of w ∈ PAST -> spent w = true.
Proof.
  intros H. unfold spent. rewrite bool_decide_eq_false_2; [by rewrite orb_true_r|]. intros Hin.
  by eapply (status_apart _ PAST); [|exact H|exact Hin].
Qed.

Lemma credit_once_wds (env : PayEnv) (u n : Z) (p k : string) (s s' : PState) :
  credit_once env u n p k s = Ok s' -> p_wds s' = p_wds s.
Proof.
  unfold credit_once. destruct (wallets (p_db s) !! _); [|done]. destruct (credited _ _ _); [by intros [= <-]|].
  intros H. apply res_bind_ok in H as ([? ?] & _ & [= <-]). done.
Qed.

Lemma fail_and_refund_wds (env : PayEnv) (w : Withdrawal) (s : PState) :
  p_wds (fail_and_refund env w s).2 = p_wds (write (with_status WFailed) w s).2.
Proof.
  unfold fail_and_refund. cbn [write]. destruct (refund_failed _ _ _) as [s1|] eqn:E1; [|destruct (refund_failed _ _ _) as [s1|]; done].
  cbn [snd]. unfold refund_failed in E1. by rewrite (credit_once_wds _ _ _ _ _ _ _ E1).
Qed.

Lemma credit_once_next (env : PayEnv) (u n : Z) (p k : string) (s s' : PState) :
  credit_once env u n p k s = Ok s' -> p_next s' = p_next s.
Proof.
  unfold credit_once. destruct (wallets (p_db s) !! _); [|done]. destruct (credited _ _ _); [by intros [= <-]|].
  intros H. apply res_bind_ok in H as ([? ?] & _ & [= <-]). done.
Qed.

Lemma fail_and_refund_next (env : PayEnv) (w : Withdrawal) (s : PState) : p_next (fail_and_refund env w s).2 = p_next s.
Proof.
  unfold fail_and_refund. cbn [write]. destruct (refund_failed _ _ _) as [s1|] eqn:E1; [|destruct (refund_failed _ _ _) as [s1|]; done].
  cbn [snd]. unfold refund_failed in E1. by rewrite (credit_once_next _ _ _ _ _ _ _ E1).
Qed.

(** After a call, the row that was dispatched is spent. *)
Lemma called_is_spent (env : PayEnv) (ans : answer) (w : Withdrawal) (s : PState) :
  base.NoDup (wd_id <$> p_wds s) -> w ∈ p_wds s -> dispatch_calls env ans w s = true ->
  spent_id (trigger_payout_creation env ans w s).2 (wd_id w).
Proof.
  intros Hnd Hw. unfold dispatch_calls, trigger_payout_creation.
  destruct (bool_decide (wd_status_of w ∈ [WApproved; WProcessed])); [|done]. cbn [andb negb].
  destruct (has_rail _); [|done]. destruct (bool_decide (_ = "upi")); [|done]. cbn [andb negb].
  assert (Hall : forall (s0 : PState) (v : Withdrawal) st, wd_id v = wd_id w -> st ∈ PAST -> spent_id (write (with_status st) v s0).2 (wd_id w)).
  { intros s0 v st Hv Hst z Hz Hi. cbn in Hz. apply elem_of_update in Hz as (y & Hy & [[Hyi ->]|[Hyi ->]]); [|congruence].
    by apply spent_past. }
  assert (Hfail : forall (s0 : PState) (v : Withdrawal), wd_id v = wd_id w -> spent_id (fail_and_refund env v s0).2 (wd_id w)).
  { intros s0 v Hv z. rewrite fail_and_refund_wds. apply (Hall s0 v WFailed Hv). by vm_compute; set_solver. }
  assert (Htry : forall c, (failed_try c w s).1.1.2 = true ->
    spent_id (let '(r, _, w1, s1) := failed_try c w s in finish_dispatch env r w1 s1).2 (wd_id w)).
  { intros c _. unfold failed_try. cbn [write].
    match goal with |- spent_id (finish_dispatch _ _ ?v ?t).2 _ => pose proof (Hfail t v eq_refl) as H; unfold finish_dispatch;
      destruct (fail_and_refund env v t) end. exact H. }
  unfold initiate_upi_payout. destruct (pv_upi env (wd_driver w)) as [upi|]; [|by apply Htry].
  destruct (_ || _ || _); [by apply Htry|]. destruct (truthy (wd_reference w)); [done|]. destruct (_ <=? _); [done|].
  destruct (pv_provider _ _); [|by apply Htry].
  destruct ans as [[pid|] st| | |]; [|by apply Htry|by apply Htry| |by apply Htry].
  - destruct (bool_decide (pid = EmptyString)) eqn:Ep; [by apply Htry|]. apply bool_decide_eq_false in Ep. intros _.
    cbn. intros z Hz Hi. apply elem_of_update in Hz as (y & Hy & [[Hyi ->]|[Hyi ->]]); [|congruence].
    apply elem_of_update in Hy as (x & Hx & [[Hxi ->]|[Hxi ->]]); [|cbn in *; congruence].
    unfold spent. cbn. by rewrite bool_decide_eq_false_2.
  - intros _. apply Hall; [done|]. by vm_compute; set_solver.
Qed.

Lemma keeps_spent_past (st : wd_status) (w : Withdrawal) (s : PState) : st ∈ PAST -> keeps_spent s (write (with_status st) w s).2.
Proof. intros H. apply keeps_spent_write; [done|]. intros x _ _ _. by apply spent_past. Qed.

Lemma keeps_spent_fail (env : PayEnv) (w : Withdrawal) (s : PState) : keeps_spent s (fail_and_refund env w s).2.
Proof.
  eapply keeps_spent_trans; [apply (keeps_spent_past WFailed w); by vm_compute; set_solver|].
  apply keeps_spent_same; [apply fail_and_refund_wds|by rewrite fail_and_refund_next].
Qed.

Lemma keeps_spent_try (env : PayEnv) (called : bool) (w : Withdrawal) (s : PState) :
  keeps_spent s (let '(r, _, w1, s1) := failed_try called w s in finish_dispatch env r w1 s1).2.
Proof.
  unfold failed_try. cbn [write]. eapply keeps_spent_trans; [apply (keeps_spent_write (with_failures (wd_failures w + 1)) w); done|].
  match goal with |- keeps_spent _ (finish_dispatch _ _ ?v ?t).2 => pose proof (keeps_spent_fail env v t) as H; unfold finish_dispatch;
    destruct (fail_and_refund env v t) end. exact H.
Qed.

Lemma unsent_needs_reference (w : Withdrawal) : spent w = true -> wd_status_of w ∈ [WPending; WApproved; WProcessed] -> truthy (wd_reference w) = true.
Proof. unfold spent. intros H Hs. rewrite (bool_decide_eq_true_2 _ Hs) in H. by rewrite orb_false_r in H. Qed.

Lemma spent_reference (w : Withdrawal) : truthy (wd_reference w) = true -> spent w = true.
Proof. unfold spent. by intros ->. Qed.

Lemma keeps_spent_trigger (env : PayEnv) (ans : answer) (w : Withdrawal) (s : PState) :
  base.NoDup (wd_id <$> p_wds s) -> w ∈ p_wds s -> keeps_spent s (trigger_payout_creation env ans w s).2.
Proof.
  intros Hnd Hw. unfold trigger_payout_creation. destruct (negb _); [by apply keeps_spent_same|].
  destruct (negb _); [by apply keeps_spent_write|].
  destruct (bool_decide _); [|pose proof (keeps_spent_fail env w s) as H; by destruct (fail_and_refund _ _ _)].
  unfold initiate_upi_payout. destruct (pv_upi env (wd_driver w)) as [upi|]; [|apply keeps_spent_try].
  destruct (_ || _ || _); [apply keeps_spent_try|]. destruct (truthy (wd_reference w)) eqn:Er.
  { cbn [finish_dispatch]. apply keeps_spent_write; [done|]. intros x Hx Hi _. rewrite (same_id s x w); [|done..]. by apply spent_reference. }
  destruct (_ <=? _); [pose proof (keeps_spent_fail env w s) as H; cbn [finish_dispatch]; by destruct (fail_and_refund _ _ _)|].
  destruct (pv_provider _ _); [|apply keeps_spent_try].
  destruct ans as [[pid|] st| | |]; [|apply keeps_spent_try..| |apply keeps_spent_try].
  - destruct (bool_decide (pid = EmptyString)) eqn:Ep; [apply keeps_spent_try|]. apply bool_decide_eq_false in Ep.
    assert (Ht : truthy (Some pid) = true) by (unfold truthy; by rewrite bool_decide_eq_false_2).
    split; [|done]. intros i _ H z Hz Hi. cbn in Hz. apply elem_of_update in Hz as (y & Hy & [[Hyi ->]|[Hyi ->]]).
    + apply elem_of_update in Hy as (x & Hx & [[Hxi ->]|[Hxi ->]]); [by apply spent_reference|cbn in *; congruence].
    + apply elem_of_update in Hy as (x & Hx & [[Hxi ->]|[Hxi ->]]); [by apply spent_reference|by apply H].
  - cbn [finish_dispatch]. apply keeps_spent_past. by vm_compute; set_solver.
Qed.

Lemma apply_deduction_rest (user i : Z) (plan : list (Debt * Z)) (s s' : PState) :
  apply_deduction user i plan s = Ok s' -> p_wds s' = p_wds s /\ p_next s' = p_next s.
Proof.
  revert s. induction plan as [|[d n] r IH]; intros s; [by intros [= <-]|]. cbn [apply_deduction]. intros H.
  apply res_bind_ok in H as ([? db] & _ & H). apply res_bind_ok in H as (? & _ & H). by apply IH in H.
Qed.

Lemma keeps_spent_add (user : Z) (w : Withdrawal) (cur tok : string) (gross : Z) (plan : list (Debt * Z))
    (s s' : PState) :
  wd_id w = p_next s -> write_withdrawal user w cur tok gross plan s = Ok s' -> keeps_spent s s'.
Proof.
  intros Hid H. unfold write_withdrawal in H. apply res_bind_ok in H as (db & _ & H).
  apply apply_deduction_rest in H as [E N]. eapply keeps_spent_trans; [|exact (keeps_spent_same _ _ E N)].
  split; cbn; [|lia]. intros i Hi Hs z Hz Hzi. cbn in Hz. apply elem_of_app in Hz as [Hz|Hz]; [by apply Hs|].
  apply list_elem_of_singleton in Hz as ->. lia.
Qed.

Lemma refund_same (env : PayEnv) (w : Withdrawal) (s s' : PState) : refund_failed env w s = Ok s' -> keeps_spent s s'.
Proof.
  unfold refund_failed. intros H. apply keeps_spent_same; [by eapply credit_once_wds|by eapply credit_once_next].
Qed.

Lemma history_same (m : PayoutHistory -> bool) (row : PayoutHistory) (s s' : PState) : history_once m row s = Ok s' -> keeps_spent s s'.
Proof.
  unfold history_once. destruct (List.filter m (p_history s)) as [|? [|]]; intros [= <-]; by apply keeps_spent_same.
Qed.

Lemma keeps_spent_fail_payout (env : PayEnv) (h : Hook) (ps hs : string) (w : Withdrawal) (s s' : PState) :
  fail_payout env h ps hs w s = Ok s' -> keeps_spent s s'.
Proof.
  unfold fail_payout. cbn [write]. intros H. apply res_bind_ok in H as (s1 & H1 & H2).
  eapply keeps_spent_trans; [|eapply keeps_spent_trans; [by eapply refund_same|by eapply history_same]].
  apply (keeps_spent_write (fun x => with_failures (wd_failures w + 1) (with_status WFailed (with_payout_status ps x)))); [done|].
  intros x _ _ _. apply spent_past. cbn. by vm_compute; set_solver.
Qed.

Lemma keeps_spent_close (f : Withdrawal -> Withdrawal) (st : wd_status) (w : Withdrawal) (s s' : PState) :
  (forall x, wd_id (f x) = wd_id x /\ wd_status_of (f x) = st) -> st ∈ PAST ->
  p_wds s' = p_wds (write f w s).2 -> p_next s' = p_next s -> keeps_spent s s'.
Proof.
  intros Hf Hst E N. eapply keeps_spent_trans; [|by apply keeps_spent_same; [exact E|rewrite N]].
  apply keeps_spent_write; [intros x; by apply Hf|]. intros x _ _ _. apply spent_past. by rewrite (proj2 (Hf x)).
Qed.

Lemma keeps_spent_webhook (env : PayEnv) (h : Hook) (s s' : PState) (a : hook_answer) :
  handle_payout_webhook env h s = Ok (a, s') -> keeps_spent s s'.
Proof.
  assert (Hsame : forall t, keeps_spent t t) by (intros t; by apply keeps_spent_same).
  unfold handle_payout_webhook. destruct (_ && _); [by intros [= _ <-]|]. destruct (find_withdrawal s h) as [w|]; [|by intros [= _ <-]].
  destruct (bool_decide (hk_event h ∈ _)).
  { destruct (bool_decide _); [by intros [= _ <-]|]. destruct (bool_decide _).
    - intros [= _ <-]. unfold freeze. cbn [write].
      apply (keeps_spent_close (fun w => with_status WConflict (with_payout_status (or_else (hk_status h) "success") w)) WConflict w); try done; by vm_compute; set_solver.
    - intros H. apply res_bind_ok in H as (s1 & H & [= _ <-]). unfold pay_payout in H. cbn [write] in H.
      eapply keeps_spent_trans; [|by eapply history_same].
      apply (keeps_spent_close (fun w => with_status WCompleted (with_payout_status (or_else (hk_status h) "success") w)) WCompleted w); try done; by vm_compute; set_solver. }
  destruct (bool_decide (hk_event h ∈ _)).
  { destruct (bool_decide _); [by intros [= _ <-]|]. intros H. apply res_bind_ok in H as (s1 & H & [= _ <-]). by eapply keeps_spent_fail_payout. }
  destruct (bool_decide _).
  { destruct (bool_decide _); intros [= _ <-]; [done|]. by apply keeps_spent_write. }
  destruct (bool_decide _); [|by intros [= _ <-]].
  destruct (bool_decide _).
  { intros [= _ <-]. unfold reverse_paid_payout. destruct (get_wallet _ _ _) as [wallet db].
    destruct (create_txn _ _ _ _ _ _ _ _) as [[? db']|]; [|by apply keeps_spent_same]. cbn [write].
    apply (keeps_spent_close (fun w => with_status WReversed (with_payout_status (or_else (hk_status h) "reversed") w)) WReversed w); try done; by vm_compute; set_solver. }
  destruct (bool_decide _).
  { intros [= _ <-]. unfold reverse_conflict. cbn [write].
    apply (keeps_spent_close (fun w => with_status WFailed (with_payout_status (or_else (hk_status h) "reversed") w)) WFailed w); try done; by vm_compute; set_solver. }
  destruct (bool_decide _); [by intros [= _ <-]|]. intros H. apply res_bind_ok in H as (s1 & H & [= _ <-]). by eapply keeps_spent_fail_payout.
Qed.

Lemma keeps_spent_request (env : PayEnv) (driver amount : Z) (tok : string) (s s' : PState) (w : Withdrawal) :
  driver_withdrawal_request env driver amount tok s = Ok (w, s') -> keeps_spent s s'.
Proof.
  unfold driver_withdrawal_request. destruct (pv_country env driver ≫= pv_config env) as [cf|]; [|done]. intros H.
  do 4 apply res_bind_ok in H as (? & _ & H). destruct (get_wallet _ _ _) as [wallet db].
  apply res_bind_ok in H as (? & _ & H). destruct (plan_deduction _ _ _ _ _) as [deduct plan].
  apply res_bind_ok in H as (fee & _ & H). apply res_bind_ok in H as (? & _ & H).
  apply res_bind_ok in H as (s1 & H & [= _ <-]). eapply keeps_spent_trans; [|by eapply keeps_spent_add; [|exact H]].
  by apply keeps_spent_same.
Qed.

Lemma keeps_spent_create (env : PayEnv) (driver : Z) (cf : Config) (tok : string) (s s' : PState) (o : option Withdrawal) :
  create_one env driver cf tok s = Ok (o, s') -> keeps_spent s s'.
Proof.
  assert (Hsame : keeps_spent s s) by (by apply keeps_spent_same).
  unfold create_one. destruct (wallets (p_db s) !! _) as [wal|]; [|by intros [= _ <-]].
  do 4 (destruct (_ : bool); [by intros [= _ <-]|]). destruct (_ <? _); [by intros [= _ <-]|].
  destruct (plan_deduction _ _ _ _ _) as [deduct plan]. intros H. apply res_bind_ok in H as (fee & _ & H).
  destruct (_ <=? _); [by injection H as _ <-|]. apply res_bind_ok in H as (s1 & H & [= _ <-]).
  by eapply keeps_spent_add; [|exact H].
Qed.

Lemma keeps_spent_approve (env : PayEnv) (i : Z) (s : PState) : payout_inv env s -> keeps_spent s (approve_one env i s).2.
Proof.
  intros I. unfold approve_one. destruct (find_wd s i) as [w|] eqn:Ew; [|by apply keeps_spent_same].
  destruct (bool_decide (wd_status_of w = WPending)) eqn:Es; [|by apply keeps_spent_same]. cbn [negb].
  destruct (negb _); [by apply keeps_spent_same|]. destruct (has_open_conflict _ _); [by apply keeps_spent_same|].
  apply keeps_spent_write; [done|]. intros x Hx Hi Hs. apply find_wd_elem in Ew as [Hw _]. apply bool_decide_eq_true in Es.
  rewrite (same_id s x w (pi_ids _ _ I) Hx Hw Hi) in Hs. exfalso.
  assert (Hp : wd_status_of w ∈ [WPending; WRejected]) by (rewrite Es; apply list_elem_of_here).
  pose proof (ro_reference _ _ (pi_rows _ _ I w Hw) Hp) as Hr.
  rewrite unsent_needs_reference in Hr; [done|done|]. rewrite Es. apply list_elem_of_here.
Qed.

Lemma keeps_spent_reject (env : PayEnv) (i : Z) (s s' : PState) (w' : Withdrawal) : reject_one env i s = Ok (w', s') -> keeps_spent s s'.
Proof.
  unfold reject_one. destruct (find_wd s i) as [w|]; [|done]. intros H. apply res_bind_ok in H as (? & _ & H).
  apply res_bind_ok in H as (s1 & H & [= _ <-]). destruct (credit_once _ _ _ _ _ _) as [s2|] eqn:E; [|done]. injection H as <-.
  eapply keeps_spent_trans; [apply keeps_spent_same; [by eapply credit_once_wds|by eapply credit_once_next]|].
  apply (keeps_spent_past WRejected w). by vm_compute; set_solver.
Qed.

Lemma retry_others (env : PayEnv) (ap : bool) (i : Z) (s s' : PState) (w' : Withdrawal) : retry_failed env ap i s = Ok (w', s') ->
  (forall z, z ∈ p_wds s' -> z ∈ p_wds s \/ wd_id z = i) /\ p_next s <= p_next s'.
Proof.
  unfold retry_failed. destruct (find_wd s i) as [w|] eqn:Ew; [|done]. intros H. do 4 apply res_bind_ok in H as (? & _ & H).
  apply res_bind_ok in H as (db & _ & [= _ <-]). split; [|done]. intros z Hz. cbn in Hz.
  apply find_wd_elem in Ew as [_ <-]. apply elem_of_update in Hz as (y & Hy & [[Hi ->]|[_ ->]]); [by right|by left].
Qed.

Lemma keeps_spent_resolution (env : PayEnv) (known : Z -> bool) (a : Adjustment) (s s' : PState) (d : bool) :
  execute_driver_adjustment env known a s = Ok (d, s') -> keeps_spent s s'.
Proof.
  unfold execute_driver_adjustment. intros H. apply res_bind_ok in H as (? & _ & H). destruct (ad_driver a) as [driver|]; [|done].
  apply res_bind_ok in H as (? & _ & H). destruct (wallets (p_db s) !! _) as [wal|]; [|done].
  destruct (existsb _ _); [injection H as _ <-; by apply keeps_spent_same|].
  apply res_bind_ok in H as (? & _ & H). apply res_bind_ok in H as (? & _ & H). apply res_bind_ok in H as ([tid db] & _ & H).
  destruct (ad_withdrawal a) as [i|]; [|injection H as _ <-; by apply keeps_spent_same].
  destruct (i =? 0); [injection H as _ <-; by apply keeps_spent_same|].
  apply res_bind_ok in H as (w & _ & [= _ <-]). unfold resolve_paid. cbn [write].
  apply (keeps_spent_close (with_status WCompleted) WCompleted w); try done; by vm_compute; set_solver.
Qed.

(** A step that is not the human retry of the payout [i]. *)
Definition unretried_step (env : PayEnv) (i : Z) (s s' : PState) : Prop :=
  world_step env s s' /\ forall ap w, retry_failed env ap i s <> Ok (w, s').

Lemma keeps_spent_step (env : PayEnv) (i : Z) (s s' : PState) :
  payout_inv env s -> unretried_step env i s s' -> i < p_next s -> spent_id s i -> i < p_next s' /\ spent_id s' i.
Proof.
  intros I [[H|H] Hno] Hi Hs.
  2: { destruct H as [s s' l Ew En _ _ _ _]. apply (keeps_spent_same s s') in Ew as [K N]; [|done]. split; [lia|by apply K]. }
  assert (Huse : forall t, keeps_spent s t -> i < p_next t /\ spent_id t i).
  { intros t [K N]. split; [lia|by apply K]. }
  destruct H as [driver amount tok s w s' H|driver cf tok s o s' H|j s|j s w s' H|ap j s w s' H|j ans s w H|h s a s' Hp H|known a j s d s' Hj Hj0 H].
  - apply Huse. by eapply keeps_spent_request.
  - apply Huse. by eapply keeps_spent_create.
  - by apply Huse, keeps_spent_approve.
  - apply Huse. by eapply keeps_spent_reject.
  - destruct (decide (j = i)) as [->|Hne]; [by destruct (Hno ap w)|]. apply retry_others in H as [K N].
    split; [lia|]. intros z Hz Hzi. apply K in Hz as [Hz|Hz]; [by apply Hs|congruence].
  - apply Huse. apply find_wd_elem in H as [H _]. apply keeps_spent_trigger; [apply (pi_ids _ _ I)|done].
  - apply Huse. by eapply keeps_spent_webhook.
  - apply Huse. by eapply keeps_spent_resolution.
Qed.

(** C9. *)
Theorem provider_called_once (env : PayEnv) (s0 s s2 : PState) (i : Z) (ans ans2 : answer) (w w2 : Withdrawal) :
  no_payouts s0 -> rtc (world_step env) s0 s -> find_wd s i = Some w -> dispatch_calls env ans w s = true ->
  rtc (unretried_step env i) (trigger_payout_creation env ans w s).2 s2 -> find_wd s2 i = Some w2 ->
  dispatch_calls env ans2 w2 s2 = false.
Proof.
  intros H0 Hr Hw Hc Hr2 Hw2. pose proof (world_inv _ _ _ H0 Hr) as I. apply find_wd_elem in Hw2 as [Hw2 Hi2].
  apply spent_no_call. assert (Hstep : payout_step env s (trigger_payout_creation env ans w s).2) by (by eapply step_dispatch).
  apply find_wd_elem in Hw as [Hw <-]. pose proof (called_is_spent env ans w s (pi_ids _ _ I) Hw Hc) as Hs.
  apply payout_step_keeps in Hstep as [I2 _]; [|done].
  assert (Hi : wd_id w < p_next (trigger_payout_creation env ans w s).2).
  { destruct (keeps_spent_trigger env ans w s (pi_ids _ _ I) Hw) as [_ N]. pose proof (pi_next _ _ I w Hw). lia. }
  enough (spent_id s2 (wd_id w)) by auto. clear Hw2. induction Hr2 as [x|x y z Hxy _ IH]; [done|].
  destruct (keeps_spent_step _ _ _ _ I2 Hxy Hi Hs) as [Hi' Hs']. apply IH; try done.
  destruct Hxy as [[Hxy|Hxy] _]; [by apply payout_step_keeps in Hxy as [? _]|by eapply outside_step_inv].
Qed.

(** ** Dispatches in flight *)

(** No operation takes a withdrawal away or changes whose it is and how much. *)
Definition same_payout (v w : Withdrawal) : Prop :=
  wd_id w = wd_id v /\ wd_driver w = wd_driver v /\ wd_amount w = wd_amount v.

Definition rows_kept (s s' : PState) : Prop :=
  forall v, v ∈ p_wds s -> exists w, w ∈ p_wds s' /\ same_payout v w.

Lemma kept_same (s s' : PState) : p_wds s' = p_wds s -> rows_kept s s'.
Proof. intros E v Hv. exists v. rewrite E. by split_and!. Qed.

Lemma kept_trans (a b c : PState) : rows_kept a b -> rows_kept b c -> rows_kept a c.
Proof.
  intros H1 H2 v Hv. destruct (H1 v Hv) as (w & Hw & (A1 & A2 & A3)). destruct (H2 w Hw) as (x & Hx & (B1 & B2 & B3)).
  exists x. split; [done|]. split_and!; congruence.
Qed.

Lemma kept_write (f : Withdrawal -> Withdrawal) (w : Withdrawal) (s s' : PState) :
  (forall x, same_payout x (f x)) -> p_wds s' = p_wds (write f w s).2 -> rows_kept s s'.
Proof.
  intros Hf E v Hv. exists (if wd_id v =? wd_id w then f v else v). split.
  - rewrite E. cbn. apply list_elem_of_In, in_map_iff. exists v. split; [done|by apply list_elem_of_In].
  - destruct (wd_id v =? wd_id w); [apply Hf|done].
Qed.

Lemma kept_add (user : Z) (w : Withdrawal) (cur tok : string) (gross : Z) (plan : list (Debt * Z)) (s s' : PState) :
  write_withdrawal user w cur tok gross plan s = Ok s' -> rows_kept s s'.
Proof.
  unfold write_withdrawal. intros H. apply res_bind_ok in H as (db & _ & H).
  apply apply_deduction_rest in H as [E _]. intros v Hv. exists v. rewrite E. split; [|done]. cbn. set_solver.
Qed.

Lemma kept_fail (env : PayEnv) (w : Withdrawal) (s : PState) : rows_kept s (fail_and_refund env w s).2.
Proof. apply (kept_write (with_status WFailed) w); [done|apply fail_and_refund_wds]. Qed.

Lemma kept_try (env : PayEnv) (called : bool) (w : Withdrawal) (s : PState) :
  rows_kept s (failed_try called w s).2.
Proof. by apply (kept_write (with_failures (wd_failures w + 1)) w). Qed.

Lemma kept_initiate (env : PayEnv) (ans : answer) (w : Withdrawal) (s : PState) :
  rows_kept s (initiate_upi_payout env ans w s).2.
Proof.
  unfold initiate_upi_payout. destruct (pv_upi _ _); [|by apply kept_try]. destruct (_ || _ || _); [by apply kept_try|].
  destruct (truthy (wd_reference w)); [by apply kept_same|]. destruct (_ <=? _); [by apply kept_same|].
  destruct (pv_provider _ _); [|by apply kept_try].
  destruct ans as [[pid|] st| | |]; [|by apply kept_try|by apply kept_try|by apply kept_same|by apply kept_try].
  destruct (bool_decide (pid = _)); [by apply kept_try|]. cbn [write snd].
  match goal with |- rows_kept _ (set_wds (List.map (fun x => if _ then @?f x else x) _) _) => by apply (kept_write f w) end.
Qed.

Lemma kept_trigger (env : PayEnv) (ans : answer) (w : Withdrawal) (s : PState) :
  rows_kept s (trigger_payout_creation env ans w s).2.
Proof.
  unfold trigger_payout_creation. destruct (negb _); [by apply kept_same|].
  destruct (negb _); [by apply (kept_write (with_payout_status AWAITING_RAIL) w)|].
  destruct (bool_decide _); [|pose proof (kept_fail env w s) as H; by destruct (fail_and_refund _ _ _)].
  pose proof (kept_initiate env ans w s) as Hi. destruct (initiate_upi_payout env ans w s) as [[[r c] w1] s1]. cbn in Hi.
  eapply kept_trans; [exact Hi|]. destruct r as [[]|]; cbn [finish_dispatch].
  - by apply (kept_write (with_status WProcessed) w1).
  - pose proof (kept_fail env w1 s1) as H. by destruct (fail_and_refund _ _ _).
  - by apply (kept_write (with_status WUnresolved) w1).
Qed.

Lemma kept_history (m : PayoutHistory -> bool) (row : PayoutHistory) (s s' : PState) :
  history_once m row s = Ok s' -> rows_kept s s'.
Proof. intros H. apply kept_same. unfold history_once in H. by destruct (List.filter m (p_history s)) as [|? [|]]; simplify_eq. Qed.

Lemma kept_fail_payout (env : PayEnv) (h : Hook) (ps hs : string) (w : Withdrawal) (s s' : PState) :
  fail_payout env h ps hs w s = Ok s' -> rows_kept s s'.
Proof.
  unfold fail_payout. cbn [write]. intros H. apply res_bind_ok in H as (s1 & H1 & H2).
  eapply kept_trans; [|by eapply kept_history].
  apply (kept_write (fun x => with_failures (wd_failures w + 1) (with_status WFailed (with_payout_status ps x))) w); [done|].
  unfold refund_failed in H1. by rewrite (credit_once_wds _ _ _ _ _ _ _ H1).
Qed.

Lemma kept_webhook (env : PayEnv) (h : Hook) (s s' : PState) (a : hook_answer) :
  handle_payout_webhook env h s = Ok (a, s') -> rows_kept s s'.
Proof.
  unfold handle_payout_webhook. destruct (_ && _); [intros [= _ <-]; by apply kept_same|].
  destruct (find_withdrawal s h) as [w|]; [|intros [= _ <-]; by apply kept_same].
  destruct (bool_decide (hk_event h ∈ _)).
  { destruct (bool_decide _); [intros [= _ <-]; by apply kept_same|]. destruct (bool_decide _).
    - intros [= _ <-]. by apply (kept_write (fun w => with_status WConflict (with_payout_status (or_else (hk_status h) "success") w)) w).
    - intros H. apply res_bind_ok in H as (s1 & H & [= _ <-]). unfold pay_payout in H. cbn [write] in H.
      eapply kept_trans; [|by eapply kept_history].
      by apply (kept_write (fun w => with_status WCompleted (with_payout_status (or_else (hk_status h) "success") w)) w). }
  destruct (bool_decide (hk_event h ∈ _)).
  { destruct (bool_decide _); [intros [= _ <-]; by apply kept_same|]. intros H. apply res_bind_ok in H as (s1 & H & [= _ <-]).
    by eapply kept_fail_payout. }
  destruct (bool_decide _).
  { destruct (bool_decide _); intros [= _ <-]; [by apply kept_same|].
    by apply (kept_write (with_payout_status (or_else (hk_status h) "pending")) w). }
  destruct (bool_decide _); [|intros [= _ <-]; by apply kept_same].
  destruct (bool_decide _).
  { intros [= _ <-]. unfold reverse_paid_payout. destruct (get_wallet _ _ _) as [wallet db].
    destruct (create_txn _ _ _ _ _ _ _ _) as [[? db']|]; [|by apply kept_same].
    by apply (kept_write (fun w => with_status WReversed (with_payout_status (or_else (hk_status h) "reversed") w)) w). }
  destruct (bool_decide _).
  { intros [= _ <-]. by apply (kept_write (fun w => with_status WFailed (with_payout_status (or_else (hk_status h) "reversed") w)) w). }
  destruct (bool_decide _); [intros [= _ <-]; by apply kept_same|]. intros H. apply res_bind_ok in H as (s1 & H & [= _ <-]).
  by eapply kept_fail_payout.
Qed.

Lemma kept_step (env : PayEnv) (s s' : PState) : payout_step env s s' -> rows_kept s s'.
Proof.
  destruct 1 as [driver amount tok s w s' H|driver cf tok s o s' H|i s|i s w s' H|ap i s w s' H|i ans s w H|h s a s' Hp H|known a i s d s' Hi Hi0 H].
  - unfold driver_withdrawal_request in H. destruct (mbind _ _) as [cf|]; [|done].
    do 4 apply res_bind_ok in H as (? & _ & H). destruct (get_wallet _ _ _) as [wallet db].
    apply res_bind_ok in H as (? & _ & H). destruct (plan_deduction _ _ _ _ _) as [deduct plan].
    apply res_bind_ok in H as (fee & _ & H). apply res_bind_ok in H as (? & _ & H).
    apply res_bind_ok in H as (s1 & H & [= _ <-]). by apply kept_add in H.
  - unfold create_one in H. destruct (wallets (p_db s) !! _) as [wal|]; [|injection H as _ <-; by apply kept_same].
    repeat match type of H with (if ?b then Ok (None, s) else _) = _ => destruct b; [injection H as _ <-; by apply kept_same|] end.
    destruct (plan_deduction _ _ _ _ _) as [deduct plan]. apply res_bind_ok in H as (fee & _ & H).
    destruct (_ <=? fee); [injection H as _ <-; by apply kept_same|].
    apply res_bind_ok in H as (s1 & H & [= _ <-]). by apply kept_add in H.
  - unfold approve_one. destruct (find_wd s i) as [w|]; [|by apply kept_same]. repeat (case_match; [by apply kept_same|]).
    by apply (kept_write (with_status WApproved) w).
  - unfold reject_one in H. destruct (find_wd s i) as [v|]; [|done]. apply res_bind_ok in H as (? & _ & H).
    apply res_bind_ok in H as (s1 & H & [= _ <-]). destruct (credit_once _ _ _ _ _ _) as [s2|] eqn:E; [|done]. injection H as <-.
    apply (kept_write (with_status WRejected) v); [done|]. cbn. by rewrite (credit_once_wds _ _ _ _ _ _ _ E).
  - unfold retry_failed in H. destruct (find_wd s i) as [v|]; [|done]. do 4 apply res_bind_ok in H as (? & _ & H).
    apply res_bind_ok in H as (db & _ & [= _ <-]). by apply (kept_write (fun w => with_failures 0 (with_status WApproved w)) v).
  - apply kept_trigger.
  - by eapply kept_webhook.
  - unfold execute_driver_adjustment in H. apply res_bind_ok in H as (? & _ & H). destruct (ad_driver a) as [driver|]; [|done].
    apply res_bind_ok in H as (? & _ & H). destruct (wallets (p_db s) !! _) as [wal|]; [|done].
    destruct (existsb _ _); [injection H as _ <-; by apply kept_same|].
    do 2 apply res_bind_ok in H as (? & _ & H). apply res_bind_ok in H as ([tid db] & _ & H). rewrite Hi, (proj2 (Z.eqb_neq i 0) Hi0) in H.
    apply res_bind_ok in H as (w & _ & [= _ <-]). by apply (kept_write (with_status WCompleted) w).
Qed.

(** The flight that is left, as a list. *)
Definition left_over (o : option Flight) : list Flight := match o with Some f => [f] | None => [] end.

(** The dispatches under way, beside the state. *)
Record Books := { bk_state : PState; bk_flights : list Flight }.

Definition flight_row (f : Flight) : Withdrawal := match f with Loaded w | Called _ w | Refunding w => w end.

(** What a failed dispatch has still to give back. *)
Definition owed (f : Flight) : Z := match f with Refunding w => wd_amount w | _ => 0 end.

(** A driver's wealth, with the refunds that are on their way to the wallet. *)
Definition holdings (env : PayEnv) (b : Books) (u : Z) : Z :=
  wealth env (bk_state b) u +
  zsum (fun f => if pv_user env (wd_driver (flight_row f)) =? u then owed f else 0) (bk_flights b).

(** Nobody settled the payout since the dispatch last looked: a save still finds it on its
    way, and a refund finds it not on its way and not refunded for this attempt. *)
Definition undisturbed (s : PState) (f : Flight) : Prop :=
  match f with
  | Loaded w | Called _ w => exists v, v ∈ p_wds s /\ wd_id v = wd_id w /\ wd_status_of v ∈ IN_TRANSIT
  | Refunding w =>
      (exists v, v ∈ p_wds s /\ wd_id v = wd_id w /\ wd_status_of v ∉ IN_TRANSIT) /\
      ~ key_used (p_db s) (failed_refund_reference (p_db s) (wd_id w))
  end.

(** One transaction of a dispatch: whose it is, and whether it was undisturbed.  A process may
    die between any two; what it still owed is then lost. *)
Inductive flight_act (env : PayEnv) (b : Books) : Withdrawal -> Prop -> Books -> Prop :=
| act_load i w :
    find_wd (bk_state b) i = Some w ->
    flight_act env b w True {| bk_state := bk_state b; bk_flights := Loaded w :: bk_flights b |}
| act_call ans w l1 l2 o s' :
    bk_flights b = l1 ++ Loaded w :: l2 -> call_provider env ans w (bk_state b) = (o, s') ->
    flight_act env b w (undisturbed (bk_state b) (Loaded w)) {| bk_state := s'; bk_flights := l1 ++ left_over o ++ l2 |}
| act_save r w l1 l2 o s' :
    bk_flights b = l1 ++ Called r w :: l2 -> save_outcome r w (bk_state b) = (o, s') ->
    flight_act env b w (undisturbed (bk_state b) (Called r w)) {| bk_state := s'; bk_flights := l1 ++ left_over o ++ l2 |}
| act_refund w l1 l2 :
    bk_flights b = l1 ++ Refunding w :: l2 ->
    flight_act env b w (undisturbed (bk_state b) (Refunding w))
      {| bk_state := give_back env w (bk_state b); bk_flights := l1 ++ l2 |}
| act_die f l1 l2 :
    bk_flights b = l1 ++ f :: l2 ->
    flight_act env b (flight_row f) (owed f = 0) {| bk_state := bk_state b; bk_flights := l1 ++ l2 |}.

(** Runs in which no dispatch was disturbed; everything else may happen in any order. *)
Inductive calm_step (env : PayEnv) : Books -> Books -> Prop :=
| calm_operation s s' fl :
    payout_step env s s' -> calm_step env {| bk_state := s; bk_flights := fl |} {| bk_state := s'; bk_flights := fl |}
| calm_outside s s' fl :
    outside_step env s s' ->
    calm_step env {| bk_state := s; bk_flights := fl |} {| bk_state := s'; bk_flights := fl |}
| calm_flight b w ok b' : flight_act env b w ok b' -> ok -> calm_step env b b'.

Record books_ok (env : PayEnv) (b : Books) : Prop := {
  bo_state : payout_inv env (bk_state b);
  bo_flights : forall f, f ∈ bk_flights b -> exists v, v ∈ p_wds (bk_state b) /\ same_payout v (flight_row f)
}.

(** *** One save *)

(** A save by an instance is a save by the row it stands for. *)
Lemma stale_write (f : Withdrawal -> Withdrawal) (v w : Withdrawal) (s : PState) :
  wd_id w = wd_id v -> (write f w s).2 = (write f v s).2.
Proof. intros E. unfold write. cbn. by rewrite E. Qed.

Lemma write_wealth (env : PayEnv) (s : PState) (v w : Withdrawal) (f : Withdrawal -> Withdrawal) (u : Z) :
  payout_inv env s -> v ∈ p_wds s -> same_payout v w -> (forall x, same_payout x (f x)) ->
  wealth env (write f w s).2 u =
  wealth env s u + (if pv_user env (wd_driver w) =? u then out_minor (f v) - out_minor v else 0).
Proof.
  intros I Hv (Hi & Hd & _) Hf. rewrite (stale_write f v w s Hi), Hd.
  rewrite (wealth_change env s _ v f u I Hv); [cbn [write snd p_db set_wds]; lia|done|done|by apply Hf].
Qed.

Lemma out_minor_cases (v : Withdrawal) : out_minor v = wd_amount v \/ out_minor v = 0.
Proof. unfold out_minor. case_bool_decide; auto. Qed.

Lemma out_in_transit (v : Withdrawal) : wd_status_of v ∈ IN_TRANSIT -> out_minor v = wd_amount v.
Proof. intros H. unfold out_minor. by rewrite bool_decide_eq_true_2 by (apply elem_of_cons; by right). Qed.

(** The row of an id is one. *)
Lemma row_of_instance (env : PayEnv) (s : PState) (v x w : Withdrawal) :
  payout_inv env s -> v ∈ p_wds s -> x ∈ p_wds s -> same_payout v w -> wd_id x = wd_id w -> x = v.
Proof. intros I Hv Hx (Hi & _) Hxw. apply (same_id s); [apply I|done|done|congruence]. Qed.

Lemma failed_inv (env : PayEnv) (s : PState) (v : Withdrawal) :
  payout_inv env s -> v ∈ p_wds s -> wd_status_of v ∈ IN_TRANSIT -> payout_inv env (write (with_status WFailed) v s).2.
Proof.
  intros I Hv Hst. eapply (inv_change env s _ v (with_status WFailed) []); try done;
    [by rewrite app_nil_r|intros j _; apply Forall_nil_2|].
  apply (row_ok_write _ v); [by apply (pi_rows _ _ I)|done| | | |].
  - intros H. exfalso. by eapply (status_apart _ _ [WFailed]); [|exact H|apply list_elem_of_here].
  - intros E. exfalso. rewrite E in Hst. by eapply (status_apart _ _ [WRejected]); [|exact Hst|apply list_elem_of_here].
  - intros E. exfalso. rewrite E in Hst. by eapply (status_apart _ _ [WReversed]); [|exact Hst|apply list_elem_of_here].
  - intros H. exfalso. by eapply (status_apart _ _ [WFailed]); [|exact H|apply list_elem_of_here].
Qed.

(** What a save may do to the state: nothing, a column that is not the status, the status of
    a payout on its way, or the failure. *)
Inductive saved_as (w : Withdrawal) (s : PState) : Withdrawal -> PState -> Prop :=
| as_nothing : saved_as w s w s
| as_column f : (forall x, same_payout x (f x) /\ wd_status_of (f x) = wd_status_of x /\ wd_reference (f x) = wd_reference x) ->
    saved_as w s (f w) (write f w s).2
| as_sent f : (forall x, same_payout x (f x) /\ wd_status_of (f x) ∈ [WApproved; WProcessed; WUnresolved]) ->
    saved_as w s (f w) (write f w s).2.

Lemma initiate_saves (env : PayEnv) (ans : answer) (w : Withdrawal) (s : PState) :
  saved_as w s (initiate_upi_payout env ans w s).1.2 (initiate_upi_payout env ans w s).2.
Proof.
  assert (Htry : forall c, saved_as w s (failed_try c w s).1.2 (failed_try c w s).2).
  { intros c. by apply (as_column w s (with_failures (wd_failures w + 1))). }
  unfold initiate_upi_payout. destruct (pv_upi _ _); [|apply Htry]. destruct (_ || _ || _); [apply Htry|].
  destruct (truthy (wd_reference w)); [apply as_nothing|]. destruct (_ <=? _); [apply as_nothing|].
  destruct (pv_provider _ _); [|apply Htry].
  destruct ans as [[pid|] st| | |]; [|apply Htry|apply Htry|apply as_nothing|apply Htry].
  destruct (bool_decide (pid = _)); [apply Htry|]. cbn [write fst snd].
  match goal with |- saved_as _ _ _ (set_wds (List.map (fun x => if _ then @?f x else x) _) _) =>
    apply (as_sent w s f) end.
  intros x. split; [done|]. cbn. set_solver.
Qed.

Lemma saved_effect (env : PayEnv) (s s1 : PState) (v w w1 : Withdrawal) (u : Z) :
  payout_inv env s -> v ∈ p_wds s -> same_payout v w -> saved_as w s w1 s1 ->
  same_payout w w1 /\ rows_kept s s1 /\
  (wealth env s1 u = wealth env s u \/
   pv_user env (wd_driver w) = u /\ wealth env s1 u = wealth env s u + wd_amount w) /\
  (wd_status_of v ∈ IN_TRANSIT -> payout_inv env s1 /\ wealth env s1 u = wealth env s u).
Proof.
  intros I Hv Hs Hsave. pose proof Hs as (Hi & Hd & Ha). destruct Hsave as [|f Hf|f Hf].
  - split_and!; [done..|by apply kept_same|by left|done].
  - assert (Hw : wealth env (write f w s).2 u = wealth env s u).
    { rewrite (write_wealth env s v w f u I Hv Hs); [|intros x; by apply Hf].
      destruct (Hf v) as ((_ & _ & Hfa) & Hfs & _). unfold out_minor. rewrite Hfs, Hfa. destruct (_ =? _); lia. }
    split; [by apply Hf|]. split; [apply (kept_write f w); [intros x; by apply Hf|done]|]. split; [by left|].
    intros Hst. split; [|done]. rewrite (stale_write f v w s Hi).
    destruct (keeps_transit env s v f I Hv Hst) as [[I1 _] _]; [|by apply Hf|left; split; by apply Hf|done].
    intros x. destruct (Hf x) as ((? & ? & _) & _). by split.
  - assert (Hw : wealth env (write f w s).2 u =
      wealth env s u + (if pv_user env (wd_driver w) =? u then wd_amount v - out_minor v else 0)).
    { rewrite (write_wealth env s v w f u I Hv Hs); [|intros x; by apply Hf].
      destruct (Hf v) as ((_ & _ & Hfa) & Hfs). rewrite (out_in_transit (f v)), Hfa; [done|]. unfold IN_TRANSIT. set_solver. }
    split; [by apply Hf|]. split; [apply (kept_write f w); [intros x; by apply Hf|done]|]. split.
    + rewrite Hw. destruct (Z.eqb_spec (pv_user env (wd_driver w)) u); [|left; lia].
      destruct (out_minor_cases v) as [-> | ->]; [left; lia|right; split; [done|lia]].
    + intros Hst. split; [|rewrite Hw, (out_in_transit v Hst); destruct (_ =? _); lia]. rewrite (stale_write f v w s Hi).
      destruct (keeps_transit env s v f I Hv Hst) as [[I1 _] _]; [|by apply Hf|right; by apply Hf|done].
      intros x. destruct (Hf x) as ((? & ? & _) & _). by split.
Qed.

(** The save of a failure: the amount is owed from then on. *)
Lemma failure_effect (env : PayEnv) (s : PState) (v w : Withdrawal) (u : Z) :
  payout_inv env s -> v ∈ p_wds s -> same_payout v w ->
  let s1 := (write (with_status WFailed) w s).2 in
  let now_owed := if pv_user env (wd_driver w) =? u then wd_amount w else 0 in
  (wealth env s1 u + now_owed = wealth env s u \/
   pv_user env (wd_driver w) = u /\ wealth env s1 u + now_owed = wealth env s u + wd_amount w) /\
  (wd_status_of v ∈ IN_TRANSIT -> payout_inv env s1 /\ wealth env s1 u + now_owed = wealth env s u).
Proof.
  intros I Hv Hs s1 now_owed. pose proof Hs as (Hi & Hd & Ha).
  assert (Hw : wealth env s1 u = wealth env s u + (if pv_user env (wd_driver w) =? u then - out_minor v else 0)).
  { unfold s1. rewrite (write_wealth env s v w _ u I Hv Hs) by done. assert (out_minor (with_status WFailed v) = 0) as -> by done.
    destruct (_ =? _); lia. }
  rewrite Hw. unfold now_owed. split.
  - destruct (Z.eqb_spec (pv_user env (wd_driver w)) u); [|left; lia].
    destruct (out_minor_cases v) as [-> | ->]; [left; lia|right; split; [done|lia]].
  - intros Hst. rewrite (out_in_transit v Hst). split; [|destruct (_ =? _); lia].
    unfold s1. rewrite (stale_write _ v w s Hi). by apply failed_inv.
Qed.

(** The refund: at most once for an attempt. *)
Lemma refund_effect (env : PayEnv) (s : PState) (v w : Withdrawal) (u : Z) :
  payout_inv env s -> v ∈ p_wds s -> same_payout v w ->
  let s1 := give_back env w s in
  let was_owed := if pv_user env (wd_driver w) =? u then wd_amount w else 0 in
  p_wds s1 = p_wds s /\
  (wealth env s1 u = wealth env s u \/ wealth env s1 u = wealth env s u + was_owed) /\
  (wd_status_of v ∉ IN_TRANSIT -> ~ key_used (p_db s) (failed_refund_reference (p_db s) (wd_id w)) ->
   payout_inv env s1 /\ wealth env s1 u = wealth env s u + was_owed).
Proof.
  intros I Hv Hs s1 was_owed. pose proof Hs as (Hi & Hd & Ha). set (k := failed_refund_reference (p_db s) (wd_id w)).
  assert (E0 : s1 = match refund_failed env w s with Ok s' => s' | Err _ => s end).
  { unfold s1, give_back. by destruct (refund_failed env w s). }
  assert (Hwds : p_wds s1 = p_wds s).
  { rewrite E0. destruct (refund_failed env w s) eqn:E; [|done]. unfold refund_failed in E. by apply credit_once_wds in E. }
  split; [done|].
  assert (Hwal : is_Some (wallets (p_db s) !! (pv_user env (wd_driver w), SCOPE_DRIVER))) by (rewrite Hd; by apply (pi_wallets _ _ I)).
  assert (Hfresh : ~ key_used (p_db s) k -> exists t db, s1 = set_db db s /\ txns db = txns (p_db s) ++ [t] /\ txn_key t = Some k /\
    purpose_ok t /\ (forall x, is_Some (wallets (p_db s) !! x) -> is_Some (wallets db !! x)) /\
    forall y, driver_balance db y = driver_balance (p_db s) y + if pv_user env (wd_driver w) =? y then wd_amount w else 0).
  { intros Hk. destruct (credit_once_ok env (pv_user env (wd_driver w)) (wd_amount w) "refund_failed_withdrawal" k s)
      as (t & db & E & H); [apply (pi_purpose _ _ I)|by apply list_elem_of_here|done|done|].
    exists t, db. split; [|exact H]. rewrite E0. unfold refund_failed. fold k. by rewrite E. }
  assert (Hsome : wealth env s1 u = wealth env s u \/ wealth env s1 u = wealth env s u + was_owed).
  { rewrite E0. unfold refund_failed, credit_once. destruct (wallets (p_db s) !! _); [|by left].
    destruct (credited _ _ _); [by left|]. destruct (create_txn _ _ _ _ _ _ _ _) as [[tid db]|] eqn:E; [|by left]. cbn [res_bind].
    apply create_txn_ok in E as (_ & _ & ->). right. unfold wealth. cbn [p_db set_db p_wds p_debts].
    rewrite driver_balance_save. change (driver_balance (set_txns ?a ?b ?d) ?x) with (driver_balance d x). unfold was_owed.
    destruct (Z.eqb_spec (pv_user env (wd_driver w)) u) as [->|]; lia. }
  split; [exact Hsome|]. intros Hst Hk. destruct (Hfresh Hk) as (t & db & E & Et & T1 & T2 & Hw & Hbal). rewrite E. split.
  - pose proof (pi_rows _ _ I v Hv) as [R1 R2 R3 R4].
    eapply (inv_change env s _ v (fun x => x) [t]); try done.
    + cbn. rewrite <- (List.map_id (p_wds s)) at 1. apply List.map_ext. intros x. by destruct (wd_id x =? wd_id v).
    + intros j Hj. eapply quiet_one; [exact T1|]. apply quiet_failed_refund. congruence.
    + by constructor.
    + cbn [p_db set_db]. assert (Hnr : String.prefix (retry_prefix (wd_id v)) k = false) by apply failed_not_retry. split.
      * intros n Hu. rewrite (attempts_one _ _ _ _ _ Et T1), Hnr, Z.add_0_r. split; [|by intros _].
        destruct (used_one _ _ _ _ _ Et T1 Hu) as [Hu'|[Hid <-]%failed_refund_inj]; [by apply R1|by rewrite Hi].
      * intros Hu. destruct (used_one _ _ _ _ _ Et T1 Hu) as [Hu'|E']; [by apply R2|].
        by unfold k, failed_refund_reference in E'; rewrite failed_refund_tail in E'.
      * intros Hu. destruct (used_one _ _ _ _ _ Et T1 Hu) as [Hu'|E']; [by apply R3|].
        by unfold k, failed_refund_reference in E'; rewrite failed_refund_tail in E'.
      * done.
  - unfold wealth. cbn [p_db set_db p_wds p_debts]. rewrite Hbal. unfold was_owed. lia.
Qed.

Lemma zsum_cons {A : Type} (f : A -> Z) (x : A) (l : list A) : zsum f (x :: l) = f x + zsum f l.
Proof. done. Qed.

(** *** One transaction of a dispatch *)

Definition flights_owe (env : PayEnv) (u : Z) (l : list Flight) : Z :=
  zsum (fun f => if pv_user env (wd_driver (flight_row f)) =? u then owed f else 0) l.

Lemma flights_owe_app (env : PayEnv) (u : Z) (l k : list Flight) :
  flights_owe env u (l ++ k) = flights_owe env u l + flights_owe env u k.
Proof. apply zsum_app. Qed.

Lemma flights_owe_one (env : PayEnv) (u : Z) (f : Flight) :
  flights_owe env u [f] = if pv_user env (wd_driver (flight_row f)) =? u then owed f else 0.
Proof. unfold flights_owe. cbn. destruct (_ =? _); lia. Qed.

Lemma flights_owe_zero (env : PayEnv) (u : Z) (f : Flight) : owed f = 0 -> flights_owe env u [f] = 0.
Proof. intros Hz. rewrite flights_owe_one, Hz. by destruct (_ =? _). Qed.

(** What one transaction of the flight [f] does: the new state, and the flight that is left. *)
Record act_ok (env : PayEnv) (u : Z) (s : PState) (f : Flight) (s1 : PState) (o : option Flight) : Prop := {
  ac_rows : rows_kept s s1;
  ac_next : forall g, g ∈ left_over o -> same_payout (flight_row f) (flight_row g);
  ac_cases : let change := wealth env s1 u + flights_owe env u (left_over o) - (wealth env s u + flights_owe env u [f]) in
    change = 0 \/
    pv_user env (wd_driver (flight_row f)) = u /\ (change = wd_amount (flight_row f) \/ change = - wd_amount (flight_row f));
  ac_calm : undisturbed s f -> payout_inv env s1 /\
    wealth env s1 u + flights_owe env u (left_over o) = wealth env s u + flights_owe env u [f]
}.

Section acts.

Context (env : PayEnv) (u : Z) (s : PState) (v w : Withdrawal).
Context (I : payout_inv env s) (Hv : v ∈ p_wds s) (Hs : same_payout v w).

(** An undisturbed save finds the row in transit. *)
Lemma transit_row (P : Prop) :
  (exists x, x ∈ p_wds s /\ wd_id x = wd_id w /\ wd_status_of x ∈ IN_TRANSIT) -> (wd_status_of v ∈ IN_TRANSIT -> P) -> P.
Proof. intros (x & Hx & Hxi & Hst) H. apply H. by rewrite <- (row_of_instance env s v x w I Hv Hx Hs Hxi). Qed.

Lemma act_saved (f : Flight) (w1 : Withdrawal) (s1 : PState) (o : option Flight) :
  flight_row f = w -> owed f = 0 ->
  (undisturbed s f -> exists x, x ∈ p_wds s /\ wd_id x = wd_id w /\ wd_status_of x ∈ IN_TRANSIT) ->
  saved_as w s w1 s1 -> (forall g, g ∈ left_over o -> flight_row g = w1 /\ owed g = 0) -> act_ok env u s f s1 o.
Proof.
  intros Hf Hz Hun Hsave Ho. destruct (saved_effect env s s1 v w w1 u I Hv Hs Hsave) as (Hw1 & Hk & Hcase & Hcalm).
  assert (Hnone : flights_owe env u (left_over o) = 0).
  { destruct o as [g|]; [|done]. apply flights_owe_zero. by destruct (Ho g) as [_ ->]; [apply list_elem_of_here|]. }
  pose proof (flights_owe_zero env u f Hz) as Hzero.
  split.
  - done.
  - intros g Hg. destruct (Ho g Hg) as [-> _]. by rewrite Hf.
  - cbn zeta. rewrite Hnone, Hzero, Hf. destruct Hcase as [->|[? ->]]; [left; lia|right; split; [done|left; lia]].
  - intros Hc. rewrite Hnone, Hzero. apply (transit_row _ (Hun Hc)). intros Hst. destruct (Hcalm Hst) as [? ->]. split; [done|lia].
Qed.

Lemma act_failed (f : Flight) :
  flight_row f = w -> owed f = 0 ->
  (undisturbed s f -> exists x, x ∈ p_wds s /\ wd_id x = wd_id w /\ wd_status_of x ∈ IN_TRANSIT) ->
  act_ok env u s f (write (with_status WFailed) w s).2 (Some (Refunding (with_status WFailed w))).
Proof.
  intros Hf Hz Hun. destruct (failure_effect env s v w u I Hv Hs) as [Hcase Hcalm].
  pose proof (flights_owe_zero env u f Hz) as Hzero.
  split.
  - by apply (kept_write (with_status WFailed) w).
  - intros g ->%list_elem_of_singleton. by rewrite Hf.
  - cbn zeta. rewrite Hzero, Hf. cbn [left_over]. rewrite flights_owe_one. cbn [flight_row owed with_status wd_driver wd_amount].
    destruct Hcase as [H|[? H]]; rewrite H; [left; lia|right; split; [done|left; lia]].
  - intros Hc. rewrite Hzero. cbn [left_over]. rewrite flights_owe_one. cbn [flight_row owed with_status wd_driver wd_amount].
    apply (transit_row _ (Hun Hc)). intros Hst. destruct (Hcalm Hst) as [? H]. split; [done|]. rewrite H. lia.
Qed.

Lemma act_call_ok (ans : answer) (o : option Flight) (s1 : PState) :
  call_provider env ans w s = (o, s1) -> act_ok env u s (Loaded w) s1 o.
Proof.
  unfold call_provider. destruct (negb _).
  { intros [= <- <-]. eapply act_saved; [done|done|exact (fun H => H)|apply as_nothing|by intros g ?%not_elem_of_nil]. }
  destruct (negb _).
  { intros [= <- <-]. eapply act_saved; [done|done|exact (fun H => H)| |by intros g ?%not_elem_of_nil].
    by apply (as_column w s (with_payout_status AWAITING_RAIL)). }
  destruct (bool_decide _).
  - pose proof (initiate_saves env ans w s) as Hi. destruct (initiate_upi_payout env ans w s) as [[[r c] w1] s2].
    intros [= <- <-]. eapply act_saved; [done|done|exact (fun H => H)|exact Hi|]. by intros g ->%list_elem_of_singleton.
  - intros [= <- <-]. by apply act_failed.
Qed.

Lemma act_save_ok (r : initiated) (o : option Flight) (s1 : PState) :
  save_outcome r w s = (o, s1) -> act_ok env u s (Called r w) s1 o.
Proof.
  destruct r as [[]|]; intros [= <- <-].
  - eapply act_saved; [done|done|exact (fun H => H)| |by intros g ?%not_elem_of_nil].
    apply (as_sent w s (with_status WProcessed)). intros x. split; [done|]. cbn. set_solver.
  - by apply act_failed.
  - eapply act_saved; [done|done|exact (fun H => H)| |by intros g ?%not_elem_of_nil].
    apply (as_sent w s (with_status WUnresolved)). intros x. split; [done|]. cbn. set_solver.
Qed.

Lemma act_refund_ok : act_ok env u s (Refunding w) (give_back env w s) None.
Proof.
  destruct (refund_effect env s v w u I Hv Hs) as (Hwds & Hcase & Hcalm). split.
  - by apply kept_same.
  - by intros g ?%not_elem_of_nil.
  - cbn zeta. rewrite flights_owe_one. cbn [left_over flight_row owed]. change (flights_owe env u []) with 0.
    destruct (Z.eqb_spec (pv_user env (wd_driver w)) u), Hcase as [-> | ->];
      [right; split; [done|right; lia]|left; lia|left; lia|left; lia].
  - intros [(x & Hx & Hxi & Hst) Hk]. rewrite flights_owe_one. cbn [left_over flight_row owed].
    change (flights_owe env u []) with 0. rewrite (row_of_instance env s v x w I Hv Hx Hs Hxi) in Hst.
    destruct (Hcalm Hst Hk) as [? ->]. split; [done|lia].
Qed.

End acts.

(** The bookkeeping around one transaction. *)
Lemma act_books (env : PayEnv) (b : Books) (f : Flight) (l1 l2 : list Flight) (o : option Flight) (s1 : PState) :
  books_ok env b -> bk_flights b = l1 ++ f :: l2 -> (forall u, act_ok env u (bk_state b) f s1 o) ->
  let b1 := {| bk_state := s1; bk_flights := l1 ++ left_over o ++ l2 |} in
  (undisturbed (bk_state b) f -> books_ok env b1 /\ forall u, holdings env b1 u = holdings env b u) /\
  forall u, holdings env b1 u = holdings env b u \/
    pv_user env (wd_driver (flight_row f)) = u /\
    (holdings env b1 u = holdings env b u + wd_amount (flight_row f) \/
     holdings env b1 u = holdings env b u - wd_amount (flight_row f)).
Proof.
  intros [I Hfl] Hl Hact b1.
  assert (Hhold : forall u, holdings env b1 u - holdings env b u =
    wealth env s1 u + flights_owe env u (left_over o) - (wealth env (bk_state b) u + flights_owe env u [f])).
  { intros u. unfold holdings. rewrite Hl. fold (flights_owe env u (l1 ++ f :: l2)) (flights_owe env u (bk_flights b1)).
    cbn [b1 bk_flights bk_state]. change (f :: l2) with ([f] ++ l2). rewrite !flights_owe_app. lia. }
  split.
  - intros Hun. split; [split|].
    + by apply (ac_calm _ _ _ _ _ _ (Hact 0)).
    + cbn [b1 bk_state bk_flights]. intros g Hg.
      assert (Hold : exists v, v ∈ p_wds (bk_state b) /\ same_payout v (flight_row g)).
      { apply elem_of_app in Hg as [Hg|[Hg|Hg]%elem_of_app]; [apply Hfl; rewrite Hl; set_solver| |apply Hfl; rewrite Hl; set_solver].
        destruct (Hfl f) as (v & Hv & A1 & A2 & A3); [rewrite Hl; set_solver|].
        destruct (ac_next _ _ _ _ _ _ (Hact 0) g Hg) as (B1 & B2 & B3). exists v. split; [done|]. split_and!; congruence. }
      destruct Hold as (v & Hv & A1 & A2 & A3). destruct (ac_rows _ _ _ _ _ _ (Hact 0) v Hv) as (x & Hx & B1 & B2 & B3).
      exists x. split; [done|]. split_and!; congruence.
    + intros u. specialize (Hhold u). pose proof (proj2 (ac_calm _ _ _ _ _ _ (Hact u) Hun)). lia.
  - intros u. specialize (Hhold u). destruct (ac_cases _ _ _ _ _ _ (Hact u)) as [H|[H [H'|H']]]; [left; lia|right..];
      (split; [done|]); [left; lia|right; lia].
Qed.

Lemma flight_act_ok (env : PayEnv) (b b1 : Books) (w : Withdrawal) (ok : Prop) :
  books_ok env b -> flight_act env b w ok b1 ->
  (ok -> books_ok env b1 /\ forall u, holdings env b1 u = holdings env b u) /\
  forall u, holdings env b1 u = holdings env b u \/
    pv_user env (wd_driver w) = u /\
    (holdings env b1 u = holdings env b u + wd_amount w \/ holdings env b1 u = holdings env b u - wd_amount w).
Proof.
  intros Hok H. pose proof Hok as [I Hfl]. destruct H as [i w Hf|ans w l1 l2 o s' Hl Hc|r w l1 l2 o s' Hl Hc|w l1 l2 Hl|f l1 l2 Hl].
  - assert (E : forall u, holdings env {| bk_state := bk_state b; bk_flights := Loaded w :: bk_flights b |} u = holdings env b u).
    { intros u. unfold holdings. cbn [bk_state bk_flights]. rewrite zsum_cons. cbn [flight_row owed]. destruct (_ =? _); lia. }
    split; [|intros u; left; apply E]. intros _. split; [|exact E]. split; [exact I|]. cbn.
    intros g [->|Hg]%elem_of_cons; [|by apply Hfl]. exists w. by apply find_wd_elem in Hf as [Hf _].
  - destruct (Hfl (Loaded w)) as (v & Hv & Hs); [rewrite Hl; set_solver|].
    apply (act_books env b (Loaded w) l1 l2 o s' Hok Hl). intros u. by eapply act_call_ok.
  - destruct (Hfl (Called r w)) as (v & Hv & Hs); [rewrite Hl; set_solver|].
    apply (act_books env b (Called r w) l1 l2 o s' Hok Hl). intros u. by eapply act_save_ok.
  - destruct (Hfl (Refunding w)) as (v & Hv & Hs); [rewrite Hl; set_solver|].
    apply (act_books env b (Refunding w) l1 l2 None _ Hok Hl). intros u. by eapply act_refund_ok.
  - assert (E : forall u, holdings env {| bk_state := bk_state b; bk_flights := l1 ++ l2 |} u =
      holdings env b u - if pv_user env (wd_driver (flight_row f)) =? u then owed f else 0).
    { intros u. unfold holdings. rewrite Hl. cbn [bk_state bk_flights]. rewrite !zsum_app, zsum_cons. lia. }
    split.
    + intros Hz. split; [split; [exact I|]; cbn; intros g Hg; apply Hfl; rewrite Hl; set_solver|].
      intros u. rewrite E, Hz. destruct (_ =? _); lia.
    + intros u. rewrite E. destruct (Z.eqb_spec (pv_user env (wd_driver (flight_row f))) u); [|left; lia].
      destruct f; cbn [owed flight_row]; [left; lia|left; lia|right; split; [done|right; lia]].
Qed.

Lemma calm_books (env : PayEnv) (s0 : PState) (b : Books) :
  no_payouts s0 -> rtc (calm_step env) {| bk_state := s0; bk_flights := [] |} b -> books_ok env b.
Proof.
  intros H0 Hr. assert (Hok : books_ok env {| bk_state := s0; bk_flights := [] |}).
  { split; [by apply no_payouts_inv|]. by intros f ?%not_elem_of_nil. }
  assert (Hkeep : forall s s' fl, books_ok env {| bk_state := s; bk_flights := fl |} -> payout_inv env s' -> rows_kept s s' ->
    books_ok env {| bk_state := s'; bk_flights := fl |}).
  { intros s s' fl [_ Hfl] I' Hk. split; [done|]. intros f Hf. destruct (Hfl f Hf) as (v & Hv & A1 & A2 & A3).
    destruct (Hk v Hv) as (x & Hx & B1 & B2 & B3). exists x. split; [done|]. split_and!; congruence. }
  induction Hr as [|x y z Hxy _ IH]; [done|]. apply IH. clear IH. destruct Hxy as [s s' fl H|s s' fl H|b w ok b' H Hgood].
  - apply (Hkeep s); [done| |by eapply kept_step]. by apply payout_step_keeps in H as [? _]; [|apply Hok].
  - apply (Hkeep s); [done| |by destruct H; apply kept_same]. by eapply outside_step_inv; [apply Hok|].
  - by apply (proj1 (flight_act_ok env b b' w ok Hok H) Hgood).
Qed.

(** C8. Money is conserved while payouts are dispatched.  A dispatch is what the code makes
    it, separate transactions without a lock (the row read, the call with its first save,
    the save of the outcome, the refund of a failure), and any number of them run between
    requests, weekly runs, approvals, rejections, retries, webhooks, conflict decisions and
    other ledger writes.  As long as no dispatch is disturbed, each of these operations and
    each transaction of a dispatch leaves every driver's balance, plus what is out on
    withdrawals, plus the recoveries taken, plus the refunds still owed by failed
    dispatches, exactly as it was.  A transaction that is disturbed (it finds that its
    payout was settled, or refunded, since the row was read, or the process dies owing a
    refund) changes it for that driver alone, and by exactly the amount of that withdrawal
    or not at all; [failure_between_saves] is such a run. *)
Theorem payouts_conserve_money (env : PayEnv) (s0 : PState) (b : Books) (u : Z) :
  no_payouts s0 -> rtc (calm_step env) {| bk_state := s0; bk_flights := [] |} b ->
  (forall s', payout_step env (bk_state b) s' -> holdings env {| bk_state := s'; bk_flights := bk_flights b |} u = holdings env b u) /\
  forall w undist b', flight_act env b w undist b' ->
    (undist -> holdings env b' u = holdings env b u) /\
    (holdings env b' u = holdings env b u \/
     pv_user env (wd_driver w) = u /\
     (holdings env b' u = holdings env b u + wd_amount w \/ holdings env b' u = holdings env b u - wd_amount w)).
Proof.
  intros H0 Hr. pose proof (calm_books env s0 b H0 Hr) as Hok. split.
  - intros s' Hs. apply payout_step_keeps in Hs as [_ Hs]; [|apply Hok]. unfold holdings. cbn [bk_state bk_flights]. by rewrite Hs.
  - intros w ok b' Hact. destruct (flight_act_ok env b b' w ok Hok Hact) as [H1 H2]. split; [|apply H2].
    intros Hgood. by apply (H1 Hgood).
Qed.

(** The three transactions with nothing between them are the dispatch. *)
Lemma dispatch_in_three (env : PayEnv) (ans : answer) (w : Withdrawal) (s : PState) :
  (trigger_payout_creation env ans w s).2 =
  match call_provider env ans w s with
  | (Some (Called r w1), s1) =>
      match save_outcome r w1 s1 with (Some (Refunding w2), s2) => give_back env w2 s2 | (_, s2) => s2 end
  | (Some (Refunding w1), s1) => give_back env w1 s1
  | (_, s1) => s1
  end.
Proof.
  assert (Hfail : forall v t, (fail_and_refund env v t).2 = give_back env (with_status WFailed v) (write (with_status WFailed) v t).2).
  { intros v t. unfold fail_and_refund, give_back. cbn [write snd fst].
    match goal with |- context [refund_failed ?a ?b ?c] => destruct (refund_failed a b c) eqn:E end; [done|]. by rewrite ?E. }
  assert (Hsnd : forall (b : bool) v t, (let '(w', s') := fail_and_refund env v t in (b, w', s')).2 = (fail_and_refund env v t).2)
    by (intros b v t; by destruct (fail_and_refund env v t)).
  unfold trigger_payout_creation, call_provider. destruct (negb _); [done|]. destruct (negb _); [done|].
  destruct (bool_decide _).
  - destruct (initiate_upi_payout env ans w s) as [[[r c] w1] s1]. destruct r as [[]|]; unfold finish_dispatch, save_outcome; [done| |done].
    rewrite Hsnd. apply Hfail.
  - rewrite Hsnd. apply Hfail.
Qed.

(** ** A release is a sequence of these steps *)

Lemma find_write (f : Withdrawal -> Withdrawal) (w : Withdrawal) (s : PState) (j : Z) :
  (forall x, wd_id (f x) = wd_id x) ->
  find_wd (write f w s).2 j = (fun x => if j =? wd_id w then f x else x) <$> find_wd s j.
Proof.
  intros Hf. unfold find_wd. cbn. induction (p_wds s) as [|x l IH]; [done|]. cbn.
  destruct (Z.eqb_spec (wd_id x) (wd_id w)) as [E|E].
  - rewrite Hf. destruct (Z.eqb_spec (wd_id x) j) as [<-|]; [cbn; by rewrite E, Z.eqb_refl|done].
  - destruct (Z.eqb_spec (wd_id x) j) as [<-|]; [cbn; by rewrite (proj2 (Z.eqb_neq _ _) E)|done].
Qed.

(** Only rows of the id [i] differ. *)
Definition only_row (i : Z) (s s' : PState) : Prop := forall j, j <> i -> find_wd s' j = find_wd s j.

Lemma only_row_write (f : Withdrawal -> Withdrawal) (w : Withdrawal) (s : PState) :
  (forall x, wd_id (f x) = wd_id x) -> only_row (wd_id w) s (write f w s).2.
Proof. intros Hf j Hj. rewrite find_write by done. rewrite (proj2 (Z.eqb_neq _ _) Hj). by destruct (find_wd s j). Qed.

Lemma only_row_fail (env : PayEnv) (w : Withdrawal) (s : PState) : only_row (wd_id w) s (fail_and_refund env w s).2.
Proof. intros j Hj. unfold find_wd at 1. rewrite fail_and_refund_wds. by apply (only_row_write (with_status WFailed) w s). Qed.

Lemma only_row_try (env : PayEnv) (called : bool) (w : Withdrawal) (s : PState) :
  only_row (wd_id w) s (let '(r, _, w1, s1) := failed_try called w s in finish_dispatch env r w1 s1).2.
Proof.
  intros j Hj. unfold failed_try. cbn [write]. rewrite <- (only_row_write (with_failures (wd_failures w + 1)) w s (fun _ => eq_refl) j Hj).
  match goal with |- find_wd (finish_dispatch _ _ ?v ?t).2 _ = _ => pose proof (only_row_fail env v t j Hj) as H; unfold finish_dispatch;
    destruct (fail_and_refund env v t) end. exact H.
Qed.

Lemma only_row_trigger (env : PayEnv) (ans : answer) (w : Withdrawal) (s : PState) :
  only_row (wd_id w) s (trigger_payout_creation env ans w s).2.
Proof.
  unfold trigger_payout_creation. destruct (negb _); [done|]. destruct (negb _); [by apply only_row_write|].
  destruct (bool_decide _); [|pose proof (only_row_fail env w s) as H; by destruct (fail_and_refund _ _ _)].
  unfold initiate_upi_payout. destruct (pv_upi env (wd_driver w)) as [upi|]; [|apply only_row_try].
  destruct (_ || _ || _); [apply only_row_try|]. destruct (truthy (wd_reference w)); [by apply (only_row_write (with_status WProcessed))|].
  destruct (_ <=? _); [pose proof (only_row_fail env w s) as H; cbn [finish_dispatch]; by destruct (fail_and_refund _ _ _)|].
  destruct (pv_provider _ _); [|apply only_row_try].
  destruct ans as [[pid|] st| | |]; [|apply only_row_try..| |apply only_row_try].
  - destruct (bool_decide (pid = EmptyString)); [apply only_row_try|]. intros j Hj. cbn [finish_dispatch write snd].
    set (f := fun w => with_failures 0 (with_status WProcessed
      (with_payout_status (default "created" st) (with_reference pid w)))). rewrite <- (only_row_write f w s (fun _ => eq_refl) j Hj).
    exact (only_row_write (with_status WProcessed) (f w) (write f w s).2 (fun _ => eq_refl) j Hj).
  - by apply (only_row_write (with_status WUnresolved)).
Qed.

(** The released instances are the stored rows, one for each id. *)
Definition in_hand (s : PState) (ws : list Withdrawal) : Prop :=
  base.NoDup (wd_id <$> ws) /\ Forall (fun w => find_wd s (wd_id w) = Some w) ws.

Lemma approve_one_other (env : PayEnv) (i j : Z) (s : PState) (w : Withdrawal) :
  find_wd s j = Some w -> wd_status_of w <> WPending -> find_wd (approve_one env i s).2 j = Some w.
Proof.
  intros Hj Hs. unfold approve_one. destruct (find_wd s i) as [v|] eqn:Ei; [|done].
  destruct (bool_decide (wd_status_of v = WPending)) eqn:Ep; [|done]. cbn [negb]. apply bool_decide_eq_true in Ep.
  destruct (negb _); [done|]. destruct (has_open_conflict _ _); [done|].
  apply find_wd_elem in Ei as Hv. destruct Hv as [_ <-]. change (find_wd (write (with_status WApproved) v s).2 j = Some w).
  rewrite find_write by done. rewrite Hj. cbn.
  destruct (Z.eqb_spec j (wd_id v)) as [->|]; [congruence|done].
Qed.

Lemma approve_all_other (env : PayEnv) (ids : list Z) (j : Z) (s : PState) (w : Withdrawal) :
  find_wd s j = Some w -> wd_status_of w <> WPending -> find_wd (approve_all env ids s).2 j = Some w.
Proof.
  revert s. induction ids as [|i r IH]; intros s Hj Hs; [done|]. cbn.
  pose proof (approve_one_other env i j s w Hj Hs) as H. destruct (approve_one env i s) as [[| |v] s1]; specialize (IH s1 H Hs);
    by destruct (approve_all env r s1) as [[[? ?] ?] ?].
Qed.

Lemma approve_all_pending (env : PayEnv) (ids : list Z) (s : PState) :
  Forall (fun w => exists v, find_wd s (wd_id w) = Some v /\ wd_status_of v = WPending) (approve_all env ids s).1.1.1.
Proof.
  revert s. induction ids as [|i r IH]; intros s; [by constructor|]. cbn. pose proof (fun t => IH t) as IH'.
  destruct (approve_one env i s) as [a s1] eqn:E. specialize (IH' s1).
  assert (Hback : forall j v, find_wd s1 j = Some v -> wd_status_of v = WPending -> exists v', find_wd s j = Some v' /\ wd_status_of v' = WPending).
  { intros j v Hj Hp. unfold approve_one in E. destruct (find_wd s i) as [x|] eqn:Ei; [|injection E as _ <-; by eauto].
    destruct (negb _); [injection E as _ <-; by eauto|]. destruct (negb _); [injection E as _ <-; by eauto|].
    destruct (has_open_conflict _ _); [injection E as _ <-; by eauto|]. injection E as _ <-.
    change (set_wds _ s) with (write (with_status WApproved) x s).2 in Hj. rewrite find_write in Hj by done.
    destruct (find_wd s j) as [y|]; [|done]. cbn in Hj. destruct (j =? wd_id x); [by injection Hj as <-|]. injection Hj as <-. by eauto. }
  assert (Hr : Forall (fun w => exists v, find_wd s (wd_id w) = Some v /\ wd_status_of v = WPending) (approve_all env r s1).1.1.1).
  { eapply Forall_impl; [exact IH'|]. intros w (v & Hv & Hp). by eapply Hback. }
  destruct a as [| |w]; destruct (approve_all env r s1) as [[[? ?] ?] ?]; try done.
  constructor; [|done]. unfold approve_one in E. destruct (find_wd s i) as [x|] eqn:Ei; [|done].
  destruct (bool_decide (wd_status_of x = WPending)) eqn:Ep; [|done]. cbn [negb] in E. destruct (negb _); [done|].
  destruct (has_open_conflict _ _); [done|]. injection E as <- _. cbn. apply bool_decide_eq_true in Ep.
  apply find_wd_elem in Ei as Hx. destruct Hx as [_ <-]. by eauto.
Qed.

Lemma approve_one_released (env : PayEnv) (i : Z) (s s' : PState) (w : Withdrawal) :
  approve_one env i s = (Released w, s') -> wd_id w = i /\ find_wd s' i = Some w /\ wd_status_of w = WApproved.
Proof.
  unfold approve_one. destruct (find_wd s i) as [x|] eqn:Ei; [|done]. destruct (negb _); [done|]. destruct (negb _); [done|].
  destruct (has_open_conflict _ _); [done|]. intros [= <- <-]. apply find_wd_elem in Ei as Hx. destruct Hx as [_ <-].
  split_and!; [done| |done]. change (set_wds _ s) with (write (with_status WApproved) x s).2. rewrite find_write by done.
  by rewrite Ei, Z.eqb_refl.
Qed.

Lemma approve_all_in_hand (env : PayEnv) (ids : list Z) (s : PState) :
  in_hand (approve_all env ids s).2 (approve_all env ids s).1.1.1 /\ rtc (payout_step env) s (approve_all env ids s).2.
Proof.
  revert s. induction ids as [|i r IH]; intros s; [by repeat constructor|]. cbn. pose proof (step_approve env i s) as Hstep.
  destruct (approve_one env i s) as [a s1] eqn:E. cbn in Hstep. destruct (IH s1) as [[Hn Hf] Hr].
  pose proof (approve_all_pending env r s1) as Hp. pose proof (approve_all_other env r i s1) as Ho.
  destruct a as [| |w]; destruct (approve_all env r s1) as [[[ws ?] ?] s2]; cbn in *;
    (split; [|by eapply rtc_l]); [by split..|].
  apply approve_one_released in E as (<- & Hw & Hst). split.
  - rewrite fmap_cons. constructor; [|done]. intros (v & Hv & Hin)%list_elem_of_fmap. rewrite Forall_forall in Hp.
    destruct (Hp v Hin) as (x & Hx & Hxp). rewrite <- Hv, Hw in Hx. injection Hx as <-. congruence.
  - constructor; [|done]. apply Ho; [done|congruence].
Qed.

Lemma dispatch_all_steps (env : PayEnv) (ans : Z -> answer) (ws : list Withdrawal) (s : PState) :
  in_hand s ws -> rtc (payout_step env) s (dispatch_all env ans ws s).2.
Proof.
  revert s. induction ws as [|w r IH]; intros s [Hn Hf]; [done|]. cbn. apply Forall_cons in Hf as [Hw Hf].
  rewrite fmap_cons in Hn. apply NoDup_cons in Hn as [Hi Hn].
  pose proof (step_dispatch env (wd_id w) (ans (wd_id w)) s w Hw) as Hstep. pose proof (only_row_trigger env (ans (wd_id w)) w s) as Ho.
  destruct (trigger_payout_creation _ _ _ _) as [[? w1] s1]. cbn in Hstep, Ho.
  assert (Hh : in_hand s1 r).
  { split; [done|]. rewrite Forall_forall in *. intros v Hv. rewrite Ho; [by apply Hf|]. intros He. apply Hi.
    apply list_elem_of_fmap. by exists v. }
  apply IH in Hh. destruct (dispatch_all env ans r s1) as [[? ?] s2]. destruct (bool_decide _); by eapply rtc_l.
Qed.

(** A release by a checker, alone or in a batch, is a sequence of approvals and dispatches
    of stored rows, whatever the ids and the answers: an id that is named twice is released
    once. *)
Theorem release_is_steps (env : PayEnv) (ans : Z -> answer) (target : payout_target) (s : PState) :
  rtc (payout_step env) s (execute_payout env ans target s).2.
Proof.
  unfold execute_payout. destruct (approve_all_in_hand env (match target with Single i => [i] | Batch l => l end) s) as [Hh Hr].
  destruct (approve_all _ _ _) as [[[ws sk] nd] s1]. cbn in Hh, Hr.
  destruct (_ && nd); [done|]. destruct (_ && _); [done|]. pose proof (dispatch_all_steps env ans ws s1 Hh) as Hd.
  destruct (dispatch_all env ans ws s1) as [[? ?] s2]. by etrans.
Qed.

(** ** What a recovery may take *)

Lemma remaining_nonneg (d : Debt) : 0 <= remaining_minor d.
Proof. unfold remaining_minor. destruct (debt_closed d); lia. Qed.

Lemma take_from_spec (l : list Debt) (cap : Z) : 0 <= cap ->
  Forall (fun p => 0 < p.2 <= remaining_minor p.1) (take_from l cap) /\
  zsum snd (take_from l cap) = Z.min cap (zsum remaining_minor l) /\ (take_from l cap).*1 `sublist_of` l.
Proof.
  revert cap. induction l as [|d r IH]; intros cap Hc; cbn [take_from].
  - split_and!; [done|cbn; lia|done].
  - pose proof (remaining_nonneg d). assert (0 <= zsum remaining_minor r) by (apply zsum_nonneg; intros; apply remaining_nonneg).
    destruct (Z.ltb_spec 0 (Z.min (remaining_minor d) cap)).
    + destruct (IH (cap - Z.min (remaining_minor d) cap)) as (I1 & I2 & I3); [lia|].
      split_and!; [constructor; [cbn; lia|done]|rewrite !zsum_cons, I2; cbn [snd]; lia|by apply sublist_skip].
    + destruct (IH cap Hc) as (I1 & I2 & I3). split_and!; [done|rewrite I2, zsum_cons; lia|by apply sublist_cons].
Qed.

(** What a payout loses to old debts: never more than the market's share of it, never
    below the floor, and never more than each debt has left; within that, everything that
    is owed, the oldest debts first. *)
Theorem deduction_bounded (s : PState) (user payout floor percent : Z) : 0 <= percent -> floor <= payout -> 0 < payout ->
  let '(deduct, plan) := plan_deduction s user payout floor percent in
  let owed := List.filter (fun d => 0 <? remaining_minor d) (open_debts s user) in
  let cap := Z.min (payout * percent / 100) (payout - Z.max 0 floor) in
  0 <= deduct /\ deduct * 100 <= payout * percent /\ floor <= payout - deduct /\
  deduct = zsum snd plan /\ deduct = Z.min cap (zsum remaining_minor owed) /\
  Forall (fun p => 0 < p.2 <= remaining_minor p.1) plan /\ plan.*1 `sublist_of` owed.
Proof.
  intros Hp Hf H0. unfold plan_deduction. cbn zeta. set (owed := List.filter _ _).
  assert (Hq : 0 <= payout * percent / 100) by (apply Z.div_pos; nia).
  pose proof (Z.mul_div_le (payout * percent) 100 ltac:(lia)).
  destruct owed as [|d r] eqn:E.
  { cbn. split_and!; try done; try lia. }
  rewrite (proj2 (Z.leb_gt payout 0)) by done.
  assert (Hm : Z.max 0 (payout - Z.max 0 floor) = payout - Z.max 0 floor) by lia. rewrite Hm.
  destruct (take_from_spec (d :: r) (Z.min (payout * percent / 100) (payout - Z.max 0 floor))) as (F1 & F2 & F3); [lia|].
  assert (0 <= zsum remaining_minor (d :: r)) by (apply zsum_nonneg; intros; apply remaining_nonneg).
  rewrite F2. split_and!; try done; try lia.
Qed.

(** ** A webhook delivered twice *)

Lemma find_map {A : Type} (P : A -> bool) (g : A -> A) (l : list A) :
  (forall x, P (g x) = P x) -> List.find P (List.map g l) = g <$> List.find P l.
Proof. intros H. induction l as [|x l IH]; [done|]. cbn. rewrite H. by destruct (P x). Qed.

Lemma find_withdrawal_write (f : Withdrawal -> Withdrawal) (w : Withdrawal) (s s' : PState) (h : Hook) :
  (forall x, wd_id (f x) = wd_id x /\ wd_reference (f x) = wd_reference x) -> p_wds s' = p_wds (write f w s).2 ->
  find_withdrawal s' h = (fun x => if wd_id x =? wd_id w then f x else x) <$> find_withdrawal s h.
Proof.
  intros Hf E. set (g := fun x => if wd_id x =? wd_id w then f x else x).
  assert (Hg : forall x, wd_id (g x) = wd_id x /\ wd_reference (g x) = wd_reference x).
  { intros x. unfold g. destruct (_ =? _); [apply Hf|done]. }
  assert (Hr : forall r, by_reference s' r = g <$> by_reference s r).
  { intros r. unfold by_reference. destruct (truthy r); [|done]. rewrite E.
    change (p_wds (write f w s).2) with (List.map g (p_wds s)).
    rewrite <- find_map by (intros x; by rewrite (proj2 (Hg x))). f_equal. unfold reverse. by rewrite <- !rev_alt, List.map_rev. }
  assert (Hi : forall i, find_wd s' i = g <$> find_wd s i).
  { intros i. unfold find_wd. rewrite E. change (p_wds (write f w s).2) with (List.map g (p_wds s)).
    apply find_map. intros x. by rewrite (proj1 (Hg x)). }
  unfold find_withdrawal. rewrite !Hr. destruct (by_reference s (hook_payout_id h)); [done|]. cbn.
  destruct (by_reference s (hook_reference h)); [done|]. cbn. destruct (truthy (hook_reference h)); [|done].
  destruct (hook_reference h ≫= id_in_reference) as [i|]; [|done]. cbn. apply Hi.
Qed.

Lemma find_withdrawal_id (s : PState) (h : Hook) (w : Withdrawal) : find_withdrawal s h = Some w -> w ∈ p_wds s.
Proof.
  unfold find_withdrawal. destruct (by_reference s (hook_payout_id h)) eqn:E1; [intros [= <-]; by apply by_reference_elem in E1 as []|].
  destruct (by_reference s (hook_reference h)) eqn:E2; [intros [= <-]; by apply by_reference_elem in E2 as []|].
  destruct (truthy _); [|done]. destruct (hook_reference h ≫= id_in_reference); [|done]. cbn. intros H. by apply find_wd_elem in H as [].
Qed.

Lemma refund_wds (env : PayEnv) (w : Withdrawal) (s s' : PState) : refund_failed env w s = Ok s' -> p_wds s' = p_wds s.
Proof. apply credit_once_wds. Qed.

Lemma history_wds (m : PayoutHistory -> bool) (row : PayoutHistory) (s s' : PState) : history_once m row s = Ok s' -> p_wds s' = p_wds s.
Proof. unfold history_once. destruct (List.filter m (p_history s)) as [|? [|]]; by intros [= <-]. Qed.

(** The events that close a payout, with the statuses in which each is old news. *)
Definition old_news (event : string) (st : wd_status) : bool :=
  if bool_decide (event ∈ ["TRANSFER_SUCCESS"; "PAYOUT_SUCCESS"]) then bool_decide (st ∈ [WCompleted; WReversed; WConflict])
  else if bool_decide (event ∈ ["TRANSFER_FAILED"; "PAYOUT_FAILED"]) then bool_decide (st ∈ [WCompleted; WFailed; WConflict; WReversed])
  else negb (bool_decide (event = "PAYOUT_PENDING")) && bool_decide (event ∈ ["TRANSFER_REVERSED"; "PAYOUT_REVERSED"]) &&
       bool_decide (st ∈ [WFailed; WReversed]).

Lemma hook_again (env : PayEnv) (h : Hook) (w : Withdrawal) (s : PState) :
  find_withdrawal s h = Some w -> old_news (hk_event h) (wd_status_of w) = true -> exists b, handle_payout_webhook env h s = Ok (b, s).
Proof.
  unfold old_news, handle_payout_webhook. intros -> H. destruct (negb _ && negb _); [by eexists|].
  destruct (bool_decide (hk_event h ∈ _)); [rewrite H; by eexists|].
  destruct (bool_decide (hk_event h ∈ _)); [rewrite H; by eexists|].
  destruct (bool_decide (hk_event h = _)); [done|]. destruct (bool_decide (hk_event h ∈ _)); [|done]. cbn in H.
  apply bool_decide_eq_true in H as Hs. rewrite (bool_decide_eq_false_2 (wd_status_of w = WCompleted)).
  2: { intros E. rewrite E in Hs. by eapply (status_apart _ _ [WCompleted]); [|exact Hs|apply list_elem_of_here]. }
  rewrite (bool_decide_eq_false_2 (wd_status_of w = WConflict)).
  2: { intros E. rewrite E in Hs. by eapply (status_apart _ _ [WConflict]); [|exact Hs|apply list_elem_of_here]. }
  rewrite H. by eexists.
Qed.

(** After the row of the hook was given a status in which the event is old news. *)
Lemma hook_closed (env : PayEnv) (h : Hook) (f : Withdrawal -> Withdrawal) (st : wd_status) (w : Withdrawal) (s s' : PState) :
  find_withdrawal s h = Some w -> (forall x, wd_id (f x) = wd_id x /\ wd_reference (f x) = wd_reference x) ->
  p_wds s' = p_wds (write f w s).2 -> wd_status_of (f w) = st -> old_news (hk_event h) st = true ->
  exists b, handle_payout_webhook env h s' = Ok (b, s').
Proof.
  intros Hw Hf E Hst Hn. apply (hook_again env h (f w)); [|by rewrite Hst].
  rewrite (find_withdrawal_write f w s s' h Hf E), Hw. cbn. by rewrite Z.eqb_refl.
Qed.

Lemma fail_payout_wds (env : PayEnv) (h : Hook) (ps hs : string) (w : Withdrawal) (s s' : PState) :
  fail_payout env h ps hs w s = Ok s' ->
  p_wds s' = p_wds (write (fun x => with_failures (wd_failures w + 1) (with_status WFailed (with_payout_status ps x))) w s).2.
Proof.
  unfold fail_payout. cbn [write]. intros H. apply res_bind_ok in H as (s1 & H1 & H2). by rewrite (history_wds _ _ _ _ H2), (refund_wds _ _ _ _ H1).
Qed.

Lemma hook_reversed (env : PayEnv) (h : Hook) (w : Withdrawal) (s : PState) :
  find_withdrawal s h = Some w -> wd_status_of w = WCompleted ->
  bool_decide (hk_event h ∈ ["TRANSFER_SUCCESS"; "PAYOUT_SUCCESS"]) = false ->
  bool_decide (hk_event h ∈ ["TRANSFER_FAILED"; "PAYOUT_FAILED"]) = false -> bool_decide (hk_event h = "PAYOUT_PENDING") = false ->
  bool_decide (hk_event h ∈ ["TRANSFER_REVERSED"; "PAYOUT_REVERSED"]) = true ->
  let s' := reverse_paid_payout env (hk_status h) w s in exists b, handle_payout_webhook env h s' = Ok (b, s').
Proof.
  intros Ew Ec Es Ef Ep Er s'. subst s'. unfold reverse_paid_payout. cbn [get_wallet].
  set (db0 := set_wallets _ (p_db s)). set (u := pv_user env (wd_driver w)). set (key := reversed_reference (wd_id w)).
  destruct (create_txn u (wd_currency w) (wd_amount w) credit "refund_reversed_withdrawal" key key db0) as [[tid db']|e] eqn:Ect.
  - cbn [write]. set (f := fun w => with_status WReversed (with_payout_status (or_else (hk_status h) "reversed") w)).
    eapply (hook_closed env h f WReversed); [exact Ew|done|done|done|]. unfold old_news. rewrite Es, Ef, Ep, Er. by vm_compute.
  - unfold handle_payout_webhook. destruct (_ && _); [by eexists|]. change (find_withdrawal (set_db db0 s) h) with (find_withdrawal s h).
    rewrite Ew, Es, Ef, Ep, Er, (bool_decide_eq_true_2 _ Ec). exists HookOk. do 2 f_equal. unfold reverse_paid_payout. cbn [get_wallet].
    change (p_db (set_db db0 s)) with db0. fold u key.
    assert (Hdb : set_wallets (<[(u, SCOPE_DRIVER) := wallet_of db0 u SCOPE_DRIVER]> (wallets db0)) db0 = db0).
    { unfold db0. unfold set_wallets. cbn. f_equal. fold u. unfold wallet_of. cbn. by rewrite lookup_insert_eq, insert_insert_eq. }
    rewrite Hdb, Ect. done.
Qed.

Lemma hook_pending (env : PayEnv) (h : Hook) (w : Withdrawal) (s : PState) :
  find_withdrawal s h = Some w -> bool_decide (hk_event h ∈ ["TRANSFER_SUCCESS"; "PAYOUT_SUCCESS"]) = false ->
  bool_decide (hk_event h ∈ ["TRANSFER_FAILED"; "PAYOUT_FAILED"]) = false -> bool_decide (hk_event h = "PAYOUT_PENDING") = true ->
  bool_decide (wd_status_of w ∈ [WCompleted; WFailed]) = false ->
  let s' := (write (with_payout_status (or_else (hk_status h) "pending")) w s).2 in exists b, handle_payout_webhook env h s' = Ok (b, s').
Proof.
  set (f := with_payout_status (or_else (hk_status h) "pending")). intros Ew Es Ef Ep Ec s'. unfold handle_payout_webhook.
  destruct (_ && _); [by eexists|]. rewrite (find_withdrawal_write f w s s' h (fun _ => conj eq_refl eq_refl) eq_refl), Ew. cbn [fmap option_fmap option_map].
  rewrite Z.eqb_refl, Es, Ef, Ep. change (wd_status_of (f w)) with (wd_status_of w). rewrite Ec. exists HookOk.
  enough (E : (write f (f w) s').2 = s') by exact (f_equal (fun x => Ok (HookOk, x)) E). subst s'. unfold write, set_wds. cbn. f_equal.
  rewrite List.map_map. apply List.map_ext. intros x. destruct (wd_id x =? wd_id w) eqn:Ei; cbn; by rewrite Ei.
Qed.

(** A webhook the provider delivers again is answered and changes nothing: neither the
    row, nor the ledger, nor the history, nor an alert. *)
Theorem webhook_twice (env : PayEnv) (h : Hook) (s s1 : PState) (a : hook_answer) :
  handle_payout_webhook env h s = Ok (a, s1) -> exists b, handle_payout_webhook env h s1 = Ok (b, s1).
Proof.
  intros H. pose proof H as H'. unfold handle_payout_webhook in H.
  destruct (negb (truthy (hook_payout_id h)) && negb (truthy (hook_reference h))) eqn:E0; [injection H as _ <-; by eexists|].
  destruct (find_withdrawal s h) as [w|] eqn:Ew; [|injection H as _ <-; by eexists].
  destruct (bool_decide (hk_event h ∈ _)) eqn:Es.
  { assert (Hn : forall st, st ∈ [WCompleted; WReversed; WConflict] -> old_news (hk_event h) st = true).
    { intros st Hst. unfold old_news. rewrite Es. by apply bool_decide_eq_true_2. }
    destruct (bool_decide (wd_status_of w ∈ _)); [injection H as _ <-; by eexists|]. destruct (bool_decide (wd_status_of w ∈ _)).
    - injection H as _ <-. eapply (hook_closed env h (fun w => with_status WConflict (with_payout_status (or_else (hk_status h) "success") w)) WConflict);
        [exact Ew|done|done|done|]. apply Hn. by vm_compute; set_solver.
    - apply res_bind_ok in H as (s2 & H & [= _ <-]). unfold pay_payout in H. cbn [write] in H.
      eapply (hook_closed env h (fun w => with_status WCompleted (with_payout_status (or_else (hk_status h) "success") w)) WCompleted);
        [exact Ew|done|by rewrite (history_wds _ _ _ _ H)|done|]. apply Hn. by vm_compute; set_solver. }
  destruct (bool_decide (hk_event h ∈ ["TRANSFER_FAILED"; "PAYOUT_FAILED"])) eqn:Ef.
  { destruct (bool_decide (wd_status_of w ∈ _)); [injection H as _ <-; by eexists|]. apply res_bind_ok in H as (s2 & H & [= _ <-]).
    eapply (hook_closed env h _ WFailed); [exact Ew| |by eapply fail_payout_wds| |]; [done|done|]. unfold old_news. rewrite Es, Ef. by vm_compute. }
  destruct (bool_decide (hk_event h = "PAYOUT_PENDING")) eqn:Ep.
  { destruct (bool_decide (wd_status_of w ∈ _)) eqn:Ec; [injection H as _ <-; by eexists|]. injection H as _ <-.
    by apply hook_pending. }
  destruct (bool_decide (hk_event h ∈ ["TRANSFER_REVERSED"; "PAYOUT_REVERSED"])) eqn:Er; [|injection H as _ <-; by eexists].
  assert (Hn : forall st, st ∈ [WFailed; WReversed] -> old_news (hk_event h) st = true).
  { intros st Hst. unfold old_news. rewrite Es, Ef, Ep, Er. by apply bool_decide_eq_true_2. }
  destruct (bool_decide (wd_status_of w = WCompleted)) eqn:Ec.
  { injection H as _ <-. apply bool_decide_eq_true in Ec. by apply hook_reversed. }
  destruct (bool_decide (wd_status_of w = WConflict)).
  { injection H as _ <-. eapply (hook_closed env h (fun w => with_status WFailed (with_payout_status (or_else (hk_status h) "reversed") w)) WFailed);
      [exact Ew|done|done|done|]. apply Hn. by vm_compute; set_solver. }
  destruct (bool_decide (wd_status_of w ∈ _)); [injection H as _ <-; by eexists|]. apply res_bind_ok in H as (s2 & H & [= _ <-]).
  eapply (hook_closed env h _ WFailed); [exact Ew| |by eapply fail_payout_wds| |]; [done|done|]. apply Hn. by vm_compute; set_solver.
Qed.

(** ** Two gaps between the webhook and the dispatch *)

(** A failure the provider reports between the save of the reference and the save of the
    status is refunded and then forgotten: the second save makes the refunded payout one
    that is on its way, and the driver has its amount twice. *)
Theorem failure_between_saves (env : PayEnv) (s0 s s1 s2 : PState) (w w1 : Withdrawal) (ans : answer) (h : Hook) (u : Z) :
  no_payouts s0 -> rtc (world_step env) s0 s -> w ∈ p_wds s -> sendable w ->
  initiate_upi_payout env ans w s = (Initiated true, true, w1, s1) ->
  hk_event h ∈ ["TRANSFER_FAILED"; "PAYOUT_FAILED"] -> provider_ids h -> find_withdrawal s1 h = Some w1 ->
  handle_payout_webhook env h s1 = Ok (HookOk, s2) ->
  wealth env (finish_dispatch env (Initiated true) w1 s2).2 u =
  wealth env s u + (if pv_user env (wd_driver w1) =? u then wd_amount w1 else 0).
Proof.
  intros H0 Hr Hw Hs Hi Hev Hp Hf Hh. pose proof (world_inv _ _ _ H0 Hr) as I.
  pose proof (keeps_initiate env ans s w I Hw Hs) as K. rewrite Hi in K. destruct K as ([I1 W1] & Hw1 & Hs1).
  destruct (keeps_webhook env h s1 s2 HookOk I1 Hp Hh) as [I2 W2].
  assert (Hrows : p_wds s2 = p_wds (write (fun x => with_failures (wd_failures w1 + 1) (with_status WFailed
    (with_payout_status (or_else (hk_status h) "failed") x))) w1 s1).2).
  { unfold handle_payout_webhook in Hh. destruct (negb _ && negb _); [done|]. rewrite Hf in Hh.
    rewrite (bool_decide_eq_false_2 (hk_event h ∈ ["TRANSFER_SUCCESS"; "PAYOUT_SUCCESS"])) in Hh.
    2: { intros H. apply elem_of_cons in Hev as [E|[E|[]%not_elem_of_nil]%elem_of_cons]; rewrite E in H; by vm_compute in H; set_solver. }
    rewrite (bool_decide_eq_true_2 _ Hev) in Hh. destruct (bool_decide (wd_status_of w1 ∈ _)); [done|].
    apply res_bind_ok in Hh as (s3 & Hh & [= <-]). by apply fail_payout_wds in Hh. }
  set (f := fun x => with_failures (wd_failures w1 + 1) (with_status WFailed (with_payout_status (or_else (hk_status h) "failed") x))) in Hrows.
  set (v := f w1). assert (Hv : v ∈ p_wds s2) by (rewrite Hrows; exact (write_elem f w1 s1 Hw1)).
  cbn [finish_dispatch]. cbn [write snd]. rewrite (wealth_change env s2 _ v (with_status WProcessed) u I2 Hv); try done.
  rewrite W2, W1. cbn [p_db set_wds]. unfold out_minor.
  change (bool_decide (wd_status_of (with_status WProcessed v) ∈ WCompleted :: IN_TRANSIT)) with true.
  change (bool_decide (wd_status_of v ∈ WCompleted :: IN_TRANSIT)) with false. cbn.
  destruct (pv_user env (wd_driver w1) =? u); lia.
Qed.

Lemma id_in_reference_of (i : Z) (r : string) : 0 <= i -> id_in_reference (withdrawal_reference i +:+ "_" +:+ r) = Some i.
Proof.
  intros Hi. destruct (digits_of_digits i Hi) as [Hd Hne]. unfold id_in_reference, withdrawal_reference.
  change (("withdrawal_" +:+ number i) +:+ "_" +:+ r) with ("withdrawal_" +:+ (number i +:+ "_" +:+ r)).
  rewrite prefix_refl, !chars_append. unfold number. rewrite (proj2 (Z.ltb_ge i 0) Hi), Z.abs_eq, chars_of_chars by done.
  change (drop 11 _) with (digits_of i ++ chr 95 :: chars r)%list.
  assert (Hu : upto_underscore (digits_of i ++ chr 95 :: chars r) = digits_of i).
  { clear Hne. induction Hd as [|c l Hc _ IH]; [done|]. cbn [app upto_underscore].
    apply digit_not in Hc as (_ & Hc & _). by rewrite Hc, IH. }
  rewrite Hu. unfold py_int. rewrite strip_chars_id by (eapply Forall_impl; [exact Hd|]; by intros c [Hc _]%digit_not).
  destruct (digits_of i) as [|c l] eqn:E; [done|]. apply Forall_cons in Hd as Hcl. destruct Hcl as [Hc _].
  cbn [take_sign]. apply digit_not in Hc as Hcs. rewrite !decide_False by apply Hcs.
  rewrite <- (app_nil_r (c :: l)), span_digits_app by done. rewrite <- E, digits_val_of by done. f_equal. lia.
Qed.

(** A payout whose answer was lost keeps no reference, and the webhook that reports it
    finds no row, though the transfer id it carries names the row. *)
Theorem lost_answer_lost_webhook (env : PayEnv) (w : Withdrawal) (s : PState) (h : Hook) :
  dispatch_calls env NoAnswer w s = true -> 0 <= wd_id w -> hook_payout_id h = Some (payout_reference w) -> provider_ids h ->
  (forall x, x ∈ p_wds s -> wd_reference x <> Some (payout_reference w) /\ (truthy (wd_reference x) = true -> wd_reference x <> hook_reference h)) ->
  let s' := (trigger_payout_creation env NoAnswer w s).2 in
  handle_payout_webhook env h s' = Ok (Skipped, s') /\ id_in_reference (payout_reference w) = Some (wd_id w).
Proof.
  intros Hc Hi Hh Hp Hno s'. split; [|by apply id_in_reference_of].
  assert (Hs' : s' = (write (with_status WUnresolved) w s).2).
  { subst s'. unfold dispatch_calls in Hc. unfold trigger_payout_creation. destruct (bool_decide (wd_status_of w ∈ _)); [|done].
    destruct (has_rail _); [|done]. destruct (bool_decide (wd_method w = _)); [|done]. cbn [andb negb] in *. unfold initiate_upi_payout in *.
    destruct (pv_upi env (wd_driver w)) as [upi|]; [|done]. destruct (_ || _ || _); [done|].
    destruct (truthy (wd_reference w)); [done|]. destruct (_ <=? _); [done|]. by destruct (pv_provider _ _). }
  assert (Hn : find_withdrawal s h = None).
  { unfold find_withdrawal. assert (Hb : forall r, (forall x, x ∈ p_wds s -> truthy (wd_reference x) = true -> wd_reference x <> r) -> by_reference s r = None).
    { intros r Hr. destruct (by_reference s r) as [x|] eqn:E; [|done]. exfalso. apply by_reference_elem in E as Hx. destruct Hx as [Hx Ht].
      apply (Hr x Hx Ht). unfold by_reference in E. destruct (truthy r); [|done]. apply find_some in E as [_ E]. by apply bool_decide_eq_true in E. }
    rewrite Hb by (intros x Hx _; rewrite Hh; by apply Hno). rewrite Hb by (intros x Hx; by apply Hno).
    destruct (truthy (hook_reference h)); [|done]. destruct (hook_reference h) as [r|] eqn:Er; [|done]. cbn.
    unfold id_in_reference. by rewrite (Hp r Er). }
  unfold handle_payout_webhook. rewrite Hs', (find_withdrawal_write (with_status WUnresolved) w s _ h (fun _ => conj eq_refl eq_refl) eq_refl), Hn.
  by destruct (negb _ && negb _).
Qed.

(** ** A market with one driver *)

Definition demo_config : Config := {|
  cf_country := "IN"; cf_currency := "INR"; cf_fee_percent := of_Z 2; cf_minimum := 10000; cf_recovery_max := 50 |}.

Definition demo_market : PayEnv := {|
  pv_user := fun d => d + 100; pv_upi := fun _ => Some "ravi.k@okaxis"; pv_bank := fun _ => false; pv_contact := fun _ => true;
  pv_country := fun _ => Some "IN"; pv_config := fun c => if bool_decide (c = "IN") then Some demo_config else None;
  pv_on_hold := fun _ _ => false; pv_held := fun _ _ => 0; pv_currency := fun _ => "INR";
  pv_provider := fun _ => Some "cashfree"; pv_city := fun _ => None |}.

Definition demo_wallets : gmap (Z * wallet_scope) Wallet :=
  {[ (107, SCOPE_DRIVER) := {| balance_minor := 90000; wallet_currency := "INR" |} ]}.

(** Driver 7 with 900.00 and a debt of 300.00. *)
Definition demo_start : PState := {|
  p_db := set_wallets demo_wallets (empty_db 1700000000); p_wds := []; p_next := 1;
  p_debts := [{| debt_id := 3; debt_user := 107; debt_request := 12; debt_amount := 30000; debt_recovered := 0;
                 debt_uncollected := 0; debt_currency := "INR"; debt_closed := None |}];
  p_history := []; p_last := ∅ |}.

Definition demo_asked : PState :=
  match driver_withdrawal_request demo_market 7 80000 "t1" demo_start with Ok (_, s) => s | Err _ => demo_start end.

Definition demo_approved : PState := (approve_one demo_market 1 demo_asked).2.

Definition demo_payout : Withdrawal := {|
  wd_id := 1; wd_driver := 7; wd_amount := 50000; wd_currency := "INR"; wd_method := "upi"; wd_status_of := WApproved;
  wd_reference := None; wd_payout_status := None; wd_failures := 0; wd_fee := 1000; wd_origin := "driver" |}.

Definition demo_hook (event transfer provider : string) : Hook := {|
  hk_event := event; hk_transfer_id := Some transfer; hk_payout_id := None; hk_cf_transfer_id := Some provider;
  hk_reference_id := None; hk_status := None |}.

Lemma demo_no_payouts : no_payouts demo_start.
Proof. split_and!; [done|by apply NoDup_singleton|]. by split; [intros i; apply Forall_nil_2|apply Forall_nil_2]. Qed.

Lemma demo_asked_step : payout_step demo_market demo_start demo_asked.
Proof. apply (step_request demo_market 7 80000 "t1" _ {| wd_id := 1; wd_driver := 7; wd_amount := 50000; wd_currency := "INR"; wd_method := "upi";
    wd_status_of := WPending; wd_reference := None; wd_payout_status := None; wd_failures := 0; wd_fee := 1000; wd_origin := "driver" |}).
  vm_compute. reflexivity. Qed.

Lemma demo_approved_reach : rtc (world_step demo_market) demo_start demo_approved.
Proof.
  apply (rtc_l _ _ demo_asked); [left; apply demo_asked_step|].
  apply rtc_once. left. exact (step_approve demo_market 1 demo_asked).
Qed.

Ltac demo := vm_compute; reflexivity.

(** The release of the payout, read and sent: the provider took it, and the outcome has not
    been saved yet. *)
Definition demo_flight : Books :=
  let '(o, s) := call_provider demo_market (Taken (Some "cf_9") None) demo_payout demo_approved in
  {| bk_state := s; bk_flights := left_over o |}.

Lemma payouts_conserve_money_witness :
  holdings demo_market demo_flight 107 = 90000 /\
  (exists w l b', bk_flights demo_flight = Called (Initiated true) w :: l /\
     b' = {| bk_state := (save_outcome (Initiated true) w (bk_state demo_flight)).2; bk_flights := l |} /\
     holdings demo_market b' 107 = holdings demo_market demo_flight 107).
Proof.
  split; [demo|]. destruct demo_flight as [s fl] eqn:Ed.
  assert (Hreach : rtc (calm_step demo_market) {| bk_state := demo_start; bk_flights := [] |} {| bk_state := s; bk_flights := fl |}).
  { rewrite <- Ed. eapply rtc_l; [apply calm_operation, demo_asked_step|].
    eapply rtc_l; [apply calm_operation, (step_approve demo_market 1 demo_asked)|].
    assert (Hin : demo_payout ∈ p_wds demo_approved) by (assert (H : p_wds demo_approved = [demo_payout]) by demo; rewrite H; apply list_elem_of_here).
    eapply rtc_l; [eapply calm_flight; [apply (act_load demo_market {| bk_state := demo_approved; bk_flights := [] |} 1 demo_payout); demo|exact I]|].
    unfold demo_flight. destruct (call_provider demo_market (Taken (Some "cf_9") None) demo_payout demo_approved) as [o s1] eqn:E.
    apply rtc_once. eapply calm_flight.
    - replace (left_over o) with ([] ++ left_over o ++ []) by apply app_nil_r.
      by eapply (act_call demo_market {| bk_state := demo_approved; bk_flights := [Loaded demo_payout] |} _ demo_payout [] []).
    - exists demo_payout. split; [exact Hin|]. split; [reflexivity|]. apply (bool_decide_unpack _). vm_compute. exact Logic.I. }
  assert (Efl : exists w, fl = [Called (Initiated true) w]) by (vm_compute in Ed; injection Ed as _ <-; by eexists).
  destruct Efl as [w ->]. exists w, [], {| bk_state := (save_outcome (Initiated true) w s).2; bk_flights := [] |}.
  split; [reflexivity|]. split; [reflexivity|].
  destruct (payouts_conserve_money demo_market demo_start {| bk_state := s; bk_flights := [Called (Initiated true) w] |} 107
              demo_no_payouts Hreach) as [_ H].
  refine (proj1 (H w _ _ (act_save demo_market {| bk_state := s; bk_flights := [Called (Initiated true) w] |} (Initiated true) w [] [] None _ eq_refl eq_refl)) _).
  vm_compute in Ed. injection Ed as <- <-. eexists. split; [apply list_elem_of_here|]. split; [reflexivity|].
  apply (bool_decide_unpack _). vm_compute. exact Logic.I.
Defined.

Lemma provider_called_once_witness :
  dispatch_calls demo_market (Taken (Some "cf_9") None) demo_payout demo_approved = true /\
  (let s := (trigger_payout_creation demo_market (Taken (Some "cf_9") None) demo_payout demo_approved).2 in
   exists w, find_wd s 1 = Some w /\ wd_status_of w = WProcessed /\ dispatch_calls demo_market NoAnswer w s = false).
Proof.
  split; [demo|]. cbn zeta. eexists. split; [demo|]. split; [reflexivity|].
  apply (provider_called_once demo_market demo_start demo_approved
    (trigger_payout_creation demo_market (Taken (Some "cf_9") None) demo_payout demo_approved).2 1 (Taken (Some "cf_9") None) NoAnswer demo_payout);
    [apply demo_no_payouts|apply demo_approved_reach|demo|demo|apply rtc_refl|demo].
Defined.

Lemma webhook_twice_witness : exists b s,
  handle_payout_webhook demo_market (demo_hook "TRANSFER_FAILED" "x" "cf_9")
    (trigger_payout_creation demo_market (Taken (Some "cf_9") None) demo_payout demo_approved).2 = Ok (HookOk, s) /\
  driver_balance (p_db s) 107 = 60000 /\ handle_payout_webhook demo_market (demo_hook "TRANSFER_FAILED" "x" "cf_9") s = Ok (b, s).
Proof.
  set (s0 := (trigger_payout_creation demo_market (Taken (Some "cf_9") None) demo_payout demo_approved).2).
  set (h := demo_hook "TRANSFER_FAILED" "x" "cf_9").
  assert (E : exists s, handle_payout_webhook demo_market h s0 = Ok (HookOk, s) /\ driver_balance (p_db s) 107 = 60000).
  { eexists. split; demo. }
  destruct E as (s & E & B). destruct (webhook_twice demo_market h s0 s HookOk E) as [b Hb]. exists b, s. by split_and!.
Defined.

Lemma deduction_bounded_witness : (plan_deduction demo_start 107 80000 10000 50).1 = 30000 /\
  (plan_deduction demo_start 107 40000 10000 50).1 * 100 <= 40000 * 50.
Proof.
  split; [demo|]. pose proof (deduction_bounded demo_start 107 40000 10000 50 ltac:(lia) ltac:(lia) ltac:(lia)) as H.
  destruct (plan_deduction demo_start 107 40000 10000 50) as [n plan]. by destruct H as (_ & H & _).
Defined.

Lemma failure_between_saves_witness : exists w1 s1 s2,
  initiate_upi_payout demo_market (Taken (Some "cf_9") None) demo_payout demo_approved = (Initiated true, true, w1, s1) /\
  handle_payout_webhook demo_market (demo_hook "TRANSFER_FAILED" "x" "cf_9") s1 = Ok (HookOk, s2) /\
  wealth demo_market (finish_dispatch demo_market (Initiated true) w1 s2).2 107 = wealth demo_market demo_approved 107 + 50000.
Proof.
  set (h := demo_hook "TRANSFER_FAILED" "x" "cf_9").
  destruct (initiate_upi_payout demo_market (Taken (Some "cf_9") None) demo_payout demo_approved) as [[[r c] w1] s1] eqn:E.
  assert (Er : r = Initiated true /\ c = true /\ find_withdrawal s1 h = Some w1 /\
               exists s2, handle_payout_webhook demo_market h s1 = Ok (HookOk, s2)).
  { vm_compute in E. injection E as <- <- <- <-. split_and!; try reflexivity. eexists. demo. }
  destruct Er as (-> & -> & Hf & s2 & Hh). exists w1, s1, s2. split_and!; [done..|].
  assert (Hw : pv_user demo_market (wd_driver w1) =? 107 = true /\ wd_amount w1 = 50000) by (vm_compute in E; by injection E as <- <-).
  rewrite (failure_between_saves demo_market demo_start demo_approved s1 s2 demo_payout w1 (Taken (Some "cf_9") None) h 107);
    [by rewrite (proj1 Hw), (proj2 Hw)|apply demo_no_payouts|apply demo_approved_reach| | |exact E| | |exact Hf|exact Hh].
  - change demo_payout with demo_payout. assert (H : p_wds demo_approved = [demo_payout]) by demo. rewrite H. apply list_elem_of_here.
  - apply list_elem_of_here.
  - apply list_elem_of_here.
  - by intros r [= <-].
Defined.

Lemma lost_answer_lost_webhook_witness :
  let s := (trigger_payout_creation demo_market NoAnswer demo_payout demo_approved).2 in
  (wd_status_of <$> p_wds s) = [WUnresolved] /\
  handle_payout_webhook demo_market (demo_hook "TRANSFER_SUCCESS" "withdrawal_1_driver_7" "cf_9") s = Ok (Skipped, s).
Proof.
  split; [demo|]. apply (lost_answer_lost_webhook demo_market demo_payout demo_approved (demo_hook "TRANSFER_SUCCESS" "withdrawal_1_driver_7" "cf_9"));
    [demo|done|demo|by intros r [= <-]|].
  assert (H : p_wds demo_approved = [demo_payout]) by demo. rewrite H. intros x ->%list_elem_of_singleton. by split.
Defined.
