(* ===== verification/Drivers.v ===== *)
(** * Drivers: standing, presence, fatigue and cancellations

    Models who may drive: the eligibility gate of [servers/driver/qa_eligibility.py], the
    KYC gate of [servers/driver/serializers.py], suspension and approval in
    [servers/driver/admin_drivers.py], [servers/driver/admin_views.py] and
    [servers/driver/tasks.py], going online and offline in [servers/consumers.py], and the
    fatigue cap and cancellation penalty of [servers/driver/fatigue.py].

    A [Fleet] is the database rows these read and write.  A handler that holds a driver
    instance across other requests takes that instance as an argument of its own, apart
    from the row the table holds by then: two theorems at the end are about that gap.
    Instants are microseconds, dates are day numbers, names are ASCII. *)

From S2P Require Import Prelude PyDecimal PyText.
#[local] Open Scope string_scope.
#[local] Open Scope list_scope.
#[local] Open Scope Z_scope.

Definition SECOND : Z := 1000000.

(** ** Rows *)

(** What a driver has on file: the account's name, the licence, the documents of the active
    vehicle ([insurance_expiry], [permit_expiry], [fitness_expiry], [puc_expiry]). *)
Record Papers := {
  full_name : string;
  license_doc : bool;
  license_expiry : option Z;
  rc_doc : bool;
  vehicle_expiries : list (option Z)
}.

Record DriverRow := {
  dr_user : Z;
  dr_user_active : bool;
  dr_approved : bool;
  dr_qa : bool;
  dr_status : string;
  dr_doc_status : string;
  dr_vehicle : option Z;
  dr_papers : Papers;
  dr_lockout : option Z;
  dr_trips : Z;
  dr_ratings : dec
}.

(** [DriverSuspension]: active while nothing lifted it. *)
Record Suspension := {
  su_id : Z;
  su_driver : Z;
  su_reason : string;
  su_previous_approved : bool;
  su_lifted : option Z
}.

(** [DriverSession]. *)
Record Session := {
  se_id : Z;
  se_driver : Z;
  started_at : Z;
  ended_at : option Z;
  duration_seconds : Z;
  end_reason : string
}.

(** [DriverCancellation]. *)
Record Cancellation := { dc_driver : Z; dc_trip : Z; dc_reason : string; dc_note : string; dc_created : Z }.

Record Fleet := {
  fl_next : Z;
  fl_rows : gmap Z DriverRow;
  fl_suspensions : list Suspension;
  fl_sessions : list Session;
  fl_cancels : list Cancellation
}.

Definition set_rows (m : gmap Z DriverRow) (f : Fleet) : Fleet :=
  {| fl_next := fl_next f; fl_rows := m; fl_suspensions := fl_suspensions f; fl_sessions := fl_sessions f;
     fl_cancels := fl_cancels f |}.

Definition set_suspensions (n : Z) (l : list Suspension) (f : Fleet) : Fleet :=
  {| fl_next := n; fl_rows := fl_rows f; fl_suspensions := l; fl_sessions := fl_sessions f;
     fl_cancels := fl_cancels f |}.

Definition set_sessions (n : Z) (l : list Session) (f : Fleet) : Fleet :=
  {| fl_next := n; fl_rows := fl_rows f; fl_suspensions := fl_suspensions f; fl_sessions := l;
     fl_cancels := fl_cancels f |}.

Definition set_cancels (l : list Cancellation) (f : Fleet) : Fleet :=
  {| fl_next := fl_next f; fl_rows := fl_rows f; fl_suspensions := fl_suspensions f;
     fl_sessions := fl_sessions f; fl_cancels := l |}.

(** [UPDATE driver SET ... WHERE id = d]: a row that does not exist is not updated. *)
Definition update_row (d : Z) (g : DriverRow -> DriverRow) (f : Fleet) : Fleet :=
  set_rows (alter g d (fl_rows f)) f.

Definition with_standing (approved : bool) (status : string) (r : DriverRow) : DriverRow :=
  {| dr_user := dr_user r; dr_user_active := dr_user_active r; dr_approved := approved; dr_qa := dr_qa r;
     dr_status := status; dr_doc_status := dr_doc_status r; dr_vehicle := dr_vehicle r; dr_papers := dr_papers r;
     dr_lockout := dr_lockout r; dr_trips := dr_trips r; dr_ratings := dr_ratings r |}.

Definition with_driver_status (status : string) (r : DriverRow) : DriverRow := with_standing (dr_approved r) status r.

Definition with_documents (doc_status : string) (r : DriverRow) : DriverRow :=
  {| dr_user := dr_user r; dr_user_active := dr_user_active r; dr_approved := dr_approved r; dr_qa := dr_qa r;
     dr_status := dr_status r; dr_doc_status := doc_status; dr_vehicle := dr_vehicle r; dr_papers := dr_papers r;
     dr_lockout := dr_lockout r; dr_trips := dr_trips r; dr_ratings := dr_ratings r |}.

Definition with_lockout (until : option Z) (r : DriverRow) : DriverRow :=
  {| dr_user := dr_user r; dr_user_active := dr_user_active r; dr_approved := dr_approved r; dr_qa := dr_qa r;
     dr_status := dr_status r; dr_doc_status := dr_doc_status r; dr_vehicle := dr_vehicle r;
     dr_papers := dr_papers r; dr_lockout := until; dr_trips := dr_trips r; dr_ratings := dr_ratings r |}.

Definition with_ratings (d : dec) (r : DriverRow) : DriverRow :=
  {| dr_user := dr_user r; dr_user_active := dr_user_active r; dr_approved := dr_approved r; dr_qa := dr_qa r;
     dr_status := dr_status r; dr_doc_status := dr_doc_status r; dr_vehicle := dr_vehicle r;
     dr_papers := dr_papers r; dr_lockout := dr_lockout r; dr_trips := dr_trips r; dr_ratings := d |}.

(** [total_trips = F('total_trips') + 1] *)
Definition one_more_trip (r : DriverRow) : DriverRow :=
  {| dr_user := dr_user r; dr_user_active := dr_user_active r; dr_approved := dr_approved r; dr_qa := dr_qa r;
     dr_status := dr_status r; dr_doc_status := dr_doc_status r; dr_vehicle := dr_vehicle r;
     dr_papers := dr_papers r; dr_lockout := dr_lockout r; dr_trips := dr_trips r + 1; dr_ratings := dr_ratings r |}.

Definition with_login (active : bool) (r : DriverRow) : DriverRow :=
  {| dr_user := dr_user r; dr_user_active := active; dr_approved := dr_approved r; dr_qa := dr_qa r;
     dr_status := dr_status r; dr_doc_status := dr_doc_status r; dr_vehicle := dr_vehicle r;
     dr_papers := dr_papers r; dr_lockout := dr_lockout r; dr_trips := dr_trips r; dr_ratings := dr_ratings r |}.

(** ** Eligibility *)

(** [qa_simulation_allowed] of the settings [ENVIRONMENT] and [IS_PRODUCTION]. *)
Definition qa_simulation_allowed (environment : option string) (is_production : option bool) : bool :=
  bool_decide (lower (strip (default EmptyString environment)) = "qa") && negb (default true is_production).

Definition may_operate (qa : bool) (r : DriverRow) : bool := dr_approved r || (dr_qa r && qa).

Definition is_blocked (r : DriverRow) : bool := bool_decide (lower (strip (dr_status r)) = "blocked").

Definition is_dispatchable (qa : bool) (r : DriverRow) : bool := negb (is_blocked r) && may_operate qa r.

(** [dispatchable_driver_ids]: the query compares the status without trimming it. *)
Definition dispatchable_driver_ids (qa : bool) (f : Fleet) (ids : list Z) : list Z :=
  List.filter (fun i => match fl_rows f !! i with
                        | Some r => negb (bool_decide (lower (dr_status r) = "blocked")) && may_operate qa r
                        | None => false
                        end) ids.

Definition eligibility_label (r : DriverRow) : string :=
  if dr_approved r then "approved" else if dr_qa r then "qa-simulated" else "not-eligible".

(** ** The KYC gate *)

Definition is_alpha (c : Ascii.ascii) : bool :=
  ((65 <=? code c) && (code c <=? 90)) || ((97 <=? code c) && (code c <=? 122)).

(** Space, or one of [NAME_PUNCTUATION] [. ' -], or a letter. *)
Definition driver_name_char (c : Ascii.ascii) : bool :=
  (code c =? 32) || (code c =? 46) || (code c =? 39) || (code c =? 45) || is_alpha c.

Definition is_valid_driver_name (value : string) : bool :=
  let name := chars (strip value) in
  negb ((Z.of_nat (length name) <? 2) || negb (existsb is_alpha name)) && forallb driver_name_char name.

Inductive kyc_refusal :=
| LicenseExpired
| DocumentsMissing (fields : list string).

Definition missing_if (b : bool) (field : string) : list string := if b then [field] else [].

(** [KYCApprovalSerializer.validate]: [None] is a valid payload. *)
Definition kyc_validate (today : Z) (r : DriverRow) (approved : option bool) : option kyc_refusal :=
  if negb (bool_decide (approved = Some true)) then None
  else
    let p := dr_papers r in
    match license_expiry p with
    | Some e =>
      if e <=? today then Some LicenseExpired
      else
        let missing := missing_if (negb (is_valid_driver_name (full_name p))) "full_name"
          ++ missing_if (negb (license_doc p)) "license_doc"
          ++ match dr_vehicle r with
             | None => ["active_vehicle"]
             | Some _ => missing_if (negb (rc_doc p)) "active_vehicle.rc_doc"
             end in
        if bool_decide (missing = []) then None else Some (DocumentsMissing missing)
    | None =>
      Some (DocumentsMissing (missing_if (negb (is_valid_driver_name (full_name p))) "full_name"
          ++ missing_if (negb (license_doc p)) "license_doc" ++ ["license_expiry"]
          ++ match dr_vehicle r with
             | None => ["active_vehicle"]
             | Some _ => missing_if (negb (rc_doc p)) "active_vehicle.rc_doc"
             end))
    end.

Definition passes_gate (today : Z) (r : DriverRow) : bool :=
  bool_decide (kyc_validate today r (Some true) = None).

#[global] Instance kyc_refusal_eq_dec : EqDecision kyc_refusal.
Proof. solve_decision. Defined.

(** ** Suspension *)

Definition is_active (s : Suspension) : bool := bool_decide (su_lifted s = None).

(** [DriverSuspension.objects.filter(driver=d, lifted_at__isnull=True).first()] *)
Definition active_suspension (d : Z) (f : Fleet) : option Suspension :=
  List.find (fun s => (su_driver s =? d) && is_active s) (fl_suspensions f).

(** The insertion; [driver_one_active_suspension] refuses a second active row. *)
Definition insert_suspension (d : Z) (reason : string) (previous : bool) (f : Fleet) : option (Suspension * Fleet) :=
  match active_suspension d f with
  | Some _ => None
  | None =>
    let s := {| su_id := fl_next f; su_driver := d; su_reason := reason; su_previous_approved := previous;
                su_lifted := None |} in
    Some (s, set_suspensions (fl_next f + 1) (fl_suspensions f ++ [s]) f)
  end.

Definition lift_suspension (i now : Z) (f : Fleet) : Fleet :=
  set_suspensions (fl_next f) ((fun s => if su_id s =? i then
      {| su_id := su_id s; su_driver := su_driver s; su_reason := su_reason s;
         su_previous_approved := su_previous_approved s; su_lifted := Some now |} else s) <$> fl_suspensions f) f.

Inductive suspend_outcome := Suspended | AlreadySuspended | SuspendNotFound.

Definition operator_suspend (d : Z) (reason : string) (f : Fleet) : suspend_outcome * Fleet :=
  match fl_rows f !! d with
  | None => (SuspendNotFound, f)
  | Some r =>
    match active_suspension d f with
    | Some _ => (AlreadySuspended, f)
    | None =>
      match insert_suspension d reason (dr_approved r) f with
      | None => (AlreadySuspended, f)
      | Some (_, f) => (Suspended, update_row d (with_standing false "blocked") f)
      end
    end
  end.

Inductive reinstate_outcome :=
| Reinstated (approved back_to_review : bool)
| NotSuspended (approved : bool)
| Permanent (approved : bool)
| ReinstateNotFound.

Definition operator_reinstate (d now today : Z) (f : Fleet) : reinstate_outcome * Fleet :=
  match fl_rows f !! d with
  | None => (ReinstateNotFound, f)
  | Some r =>
    match active_suspension d f with
    | None => (NotSuspended (dr_approved r), f)
    | Some s =>
      if bool_decide (su_reason s = "deactivated") then (Permanent (dr_approved r), f)
      else
        let restored := su_previous_approved s && passes_gate today r in
        (Reinstated restored (su_previous_approved s && negb restored),
         update_row d (with_standing restored "off") (lift_suspension (su_id s) now f))
    end
  end.

Inductive deactivate_refusal := NOT_FOUND | ALREADY_DEACTIVATED | DuplicateSuspension.

(** The executor of an approved deactivation request. *)
Definition execute_deactivate (d now : Z) (f : Fleet) : res deactivate_refusal Fleet :=
  match fl_rows f !! d with
  | None => Err NOT_FOUND
  | Some r =>
    let current := active_suspension d f in
    if match current with Some s => bool_decide (su_reason s = "deactivated") && negb (dr_user_active r) | None => false end
    then Err ALREADY_DEACTIVATED
    else
      let previous := match current with Some s => su_previous_approved s | None => dr_approved r end in
      let f := match current with Some s => lift_suspension (su_id s) now f | None => f end in
      let* (_, f) := res_opt DuplicateSuspension (insert_suspension d "deactivated" previous f) in
      Ok (update_row d (fun r => with_login false (with_standing false "blocked" r)) f)
  end.

(** ** The expiry sweep *)

Definition before (today : Z) (e : option Z) : bool := match e with Some e => e <? today | None => false end.

Definition has_expired (today : Z) (r : DriverRow) : bool :=
  before today (license_expiry (dr_papers r)) ||
  match dr_vehicle r with Some _ => existsb (before today) (vehicle_expiries (dr_papers r)) | None => false end.

Definition block_expired_driver_licenses (today : Z) (f : Fleet) : Fleet :=
  set_rows ((fun r => if has_expired today r && negb (bool_decide (dr_status r = "blocked"))
                      then with_standing false "blocked" r else r) <$> fl_rows f) f.

(** ** Approval *)

Inductive approve_outcome :=
| Approved
| Unchanged
| DriverSuspended
| DocumentsRejected
| ChecklistIncomplete
| GateRefused (why : kyc_refusal)
| ApproveNotFound.

(** [admin_approve_driver], under the row's lock; [rejected] and [missing] are what the
    document reviews and the country's checklist say of the driver. *)
Definition admin_approve_driver (d today : Z) (rejected missing : bool) (f : Fleet) : approve_outcome * Fleet :=
  match fl_rows f !! d with
  | None => (ApproveNotFound, f)
  | Some r =>
    if dr_approved r && bool_decide (dr_doc_status r = "approved") then (Unchanged, f)
    else match active_suspension d f with
    | Some _ => (DriverSuspended, f)
    | None =>
      if rejected then (DocumentsRejected, f)
      else if missing then (ChecklistIncomplete, f)
      else match kyc_validate today r (Some true) with
      | Some why => (GateRefused why, f)
      | None => (Approved, update_row d (fun r => with_documents "approved" (with_standing true (dr_status r) r)) f)
      end
    end
  end.

Definition STATUS_CHOICES : list string := ["online"; "off"; "active"; "on ride"; "off ride"; "blocked"].

Inductive patch_refusal := PatchInvalid (why : option kyc_refusal) | PatchSuspended | PatchNotFound.

(** [update_kyc_status_admin] reads the driver, checks, and writes, with no transaction and no
    lock: three steps. *)
Definition patch_check (today : Z) (d : Z) (loaded : DriverRow) (approved : option bool) (status : option string)
    (f : Fleet) : res patch_refusal unit :=
  if match status with Some s => negb (bool_decide (s ∈ STATUS_CHOICES)) | None => false end
  then Err (PatchInvalid None)
  else match kyc_validate today loaded approved with
  | Some why => Err (PatchInvalid (Some why))
  | None =>
    if bool_decide (approved = Some true) && bool_decide (is_Some (active_suspension d f)) then Err PatchSuspended
    else Ok tt
  end.

(** [serializer.save()] writes every column of the instance loaded at the start. *)
Definition patch_save (d : Z) (loaded : DriverRow) (approved : option bool) (status : option string) (f : Fleet) : Fleet :=
  let r := with_standing (default (dr_approved loaded) approved) (default (dr_status loaded) status) loaded in
  let r := match approved with
           | Some b => with_documents (if b then "approved" else "rejected") r
           | None => r
           end in
  update_row d (fun _ => r) f.

(** The request when nothing runs between its steps. *)
Definition update_kyc_status_admin (today d : Z) (approved : option bool) (status : option string) (f : Fleet)
    : res patch_refusal Fleet :=
  match fl_rows f !! d with
  | None => Err PatchNotFound
  | Some loaded =>
    let* _ := patch_check today d loaded approved status f in
    Ok (patch_save d loaded approved status f)
  end.

(** ** The fatigue cap *)

Definition FATIGUE_CAP_SECONDS : Z := 12 * 3600.
Definition FATIGUE_WINDOW_SECONDS : Z := 24 * 3600.
Definition FATIGUE_LOCKOUT_SECONDS : Z := 8 * 3600.
Definition CANCEL_WINDOW_SECONDS : Z := 24 * 3600.
Definition CANCEL_PENALTY_THRESHOLD : Z := 3.
Definition CANCEL_LOCKOUT_SECONDS : Z := 60 * 60.
Definition CANCEL_RATING_PENALTY : dec := Dec 10 (-2).

(** The sessions the query keeps. *)
Definition in_window (d now window_start : Z) (s : Session) : bool :=
  (se_driver s =? d) && (started_at s <? now) &&
  match ended_at s with None => true | Some e => window_start <? e end.

(** [int((seg_end - seg_start).total_seconds())], nothing for an empty segment. *)
Definition segment_seconds (now window_start : Z) (s : Session) : Z :=
  let seg_start := Z.max (started_at s) window_start in
  let seg_end := default now (ended_at s) in
  if seg_end <=? seg_start then 0 else (seg_end - seg_start) / SECOND.

Definition compute_active_seconds_24h (d now : Z) (f : Fleet) : Z :=
  let window_start := now - FATIGUE_WINDOW_SECONDS * SECOND in
  zsum (segment_seconds now window_start) (List.filter (in_window d now window_start) (fl_sessions f)).

Record FatigueStatus := {
  locked : bool;
  fatigue_reason : string;
  locked_until : option Z;
  active_seconds_24h : Z;
  minutes_until_cap : Z
}.

(** [get_fatigue_status] of an instance: a breach of the cap stamps the row. *)
Definition get_fatigue_status (d : Z) (driver : DriverRow) (now : Z) (f : Fleet) : FatigueStatus * Fleet :=
  let active := compute_active_seconds_24h d now f in
  if match dr_lockout driver with Some u => now <? u | None => false end
  then ({| locked := true; fatigue_reason := "lockout"; locked_until := dr_lockout driver;
           active_seconds_24h := active; minutes_until_cap := 0 |}, f)
  else if FATIGUE_CAP_SECONDS <=? active
  then let until := now + FATIGUE_LOCKOUT_SECONDS * SECOND in
       ({| locked := true; fatigue_reason := "cap_reached"; locked_until := Some until;
           active_seconds_24h := active; minutes_until_cap := 0 |}, update_row d (with_lockout (Some until)) f)
  else ({| locked := false; fatigue_reason := EmptyString; locked_until := None; active_seconds_24h := active;
           minutes_until_cap := Z.max 0 ((FATIGUE_CAP_SECONDS - active) / 60) |}, f).

Definition is_locked_out (d : Z) (driver : DriverRow) (now : Z) (f : Fleet) : bool :=
  locked (get_fatigue_status d driver now f).1.

(** ** Sessions *)

(** The open session that started last. *)
Definition open_session (d : Z) (f : Fleet) : option Session :=
  best_by (fun a b => started_at b <? started_at a)
    (List.filter (fun s => (se_driver s =? d) && bool_decide (ended_at s = None)) (fl_sessions f)).

Definition record_session_start (d now : Z) (f : Fleet) : Session * Fleet :=
  match open_session d f with
  | Some s => (s, f)
  | None =>
    let s := {| se_id := fl_next f; se_driver := d; started_at := now; ended_at := None; duration_seconds := 0;
                end_reason := EmptyString |} in
    (s, set_sessions (fl_next f + 1) (fl_sessions f ++ [s]) f)
  end.

Definition closed (now : Z) (reason : string) (s : Session) : Session :=
  let e := if now <=? started_at s then started_at s else now in
  {| se_id := se_id s; se_driver := se_driver s; started_at := started_at s; ended_at := Some e;
     duration_seconds := (e - started_at s) / SECOND; end_reason := reason |}.

Definition record_session_end (d now : Z) (reason : string) (f : Fleet) : option Session * Fleet :=
  match open_session d f with
  | None => (None, f)
  | Some s =>
    (Some (closed now reason s),
     set_sessions (fl_next f) ((fun x => if se_id x =? se_id s then closed now reason s else x) <$> fl_sessions f) f)
  end.

(** ** Presence *)

(** [_active_the_driver], with the instance the socket loaded: [false] is the refusal. *)
Definition active_the_driver (d : Z) (driver : DriverRow) (now : Z) (f : Fleet) : bool * Fleet :=
  let '(st, f) := get_fatigue_status d driver now f in
  if locked st then (false, f)
  else (true, (record_session_start d now (update_row d (with_driver_status "online") f)).2).

Inductive connect_outcome := Connected | NotEligible.

(** [DriverLocationConsumer.connect], up to the answer of [_active_the_driver], which it drops. *)
Definition connect_driver (qa : bool) (d : Z) (driver : DriverRow) (now : Z) (f : Fleet) : connect_outcome * Fleet :=
  if negb (may_operate qa driver) then (NotEligible, f)
  else (Connected, (active_the_driver d driver now f).2).

(** [_deactive_the_driver]: never over a block. *)
Definition deactive_the_driver (d now : Z) (f : Fleet) : Fleet :=
  let f := update_row d (fun r => if bool_decide (lower (dr_status r) = "blocked") then r
                                  else with_driver_status "off" r) f in
  (record_session_end d now "offline" f).2.

(** ** The cancellation penalty *)

Record CancelPenalty := { recent_count : Z; penalty_locked : bool; penalty_until : option Z; rating_delta : dec }.

Definition max_dec (a b : dec) : dec := if dltb a b then b else a.

Definition recent_cancels (d since : Z) (l : list Cancellation) : Z :=
  Z.of_nat (length (List.filter (fun c => (dc_driver c =? d) && (since <=? dc_created c)) l)).

Definition apply_cancellation_penalty (d : Z) (driver : DriverRow) (trip : Z) (reason note : string) (now : Z)
    (f : Fleet) : CancelPenalty * Fleet :=
  let f := set_cancels (fl_cancels f ++ [{| dc_driver := d; dc_trip := trip; dc_reason := reason; dc_note := note;
                                           dc_created := now |}]) f in
  let n := recent_cancels d (now - CANCEL_WINDOW_SECONDS * SECOND) (fl_cancels f) in
  if CANCEL_PENALTY_THRESHOLD <=? n then
    let until := now + CANCEL_LOCKOUT_SECONDS * SECOND in
    let lockout := match dr_lockout driver with
                   | None => Some until
                   | Some cur => if cur <? until then Some until else Some cur
                   end in
    let ratings := match dsub (dr_ratings driver) CANCEL_RATING_PENALTY with
                   | Ok x => max_dec (Dec 0 (-2)) x
                   | Err _ => dr_ratings driver
                   end in
    ({| recent_count := n; penalty_locked := true; penalty_until := Some until; rating_delta := CANCEL_RATING_PENALTY |},
     update_row d (fun r => with_ratings ratings (with_lockout lockout r)) f)
  else ({| recent_count := n; penalty_locked := false; penalty_until := None; rating_delta := Dec 0 (-2) |}, f).
