(* ===== verification/DriverSafety.v ===== *)
(** * DriverSafety: what holds of every driver, whoever acts when

    The invariant of [Drivers.Fleet] under every interleaving of suspensions, approvals,
    sweeps, sockets, fatigue checks and cancellations, with the console's unlocked patch as
    the three steps it is ([road_step]); the bounds of the fatigue cap; and three gaps
    between what the code says and does. *)

From S2P Require Import Prelude PyDecimal PyText Drivers.
#[local] Open Scope string_scope.
#[local] Open Scope list_scope.
#[local] Open Scope Z_scope.

(** ** Steps *)

(** One request, with the clock before and after it.  A socket acts on an instance it
    loaded at any time; the handlers that read the driver in their own transaction act on
    the row.  [step_patch] is a patch of the console that nothing interrupts; [road_step],
    further down, takes it apart. *)
Inductive fleet_step (qa : bool) : Z * Fleet -> Z * Fleet -> Prop :=
| step_tick now now' f : now <= now' -> fleet_step qa (now, f) (now', f)
| step_suspend now f d reason : fleet_step qa (now, f) (now, (operator_suspend d reason f).2)
| step_reinstate now f d today : fleet_step qa (now, f) (now, (operator_reinstate d now today f).2)
| step_deactivate now f d f' : execute_deactivate d now f = Ok f' -> fleet_step qa (now, f) (now, f')
| step_sweep now f today : fleet_step qa (now, f) (now, block_expired_driver_licenses today f)
| step_approve now f d today rejected missing :
    fleet_step qa (now, f) (now, (admin_approve_driver d today rejected missing f).2)
| step_patch now f d today approved status f' :
    update_kyc_status_admin today d approved status f = Ok f' -> fleet_step qa (now, f) (now, f')
| step_connect now f d r : fl_rows f !! d = Some r -> fleet_step qa (now, f) (now, (connect_driver qa d r now f).2)
| step_disconnect now f d : fleet_step qa (now, f) (now, deactive_the_driver d now f)
| step_fatigue now f d r : fl_rows f !! d = Some r -> fleet_step qa (now, f) (now, (get_fatigue_status d r now f).2)
| step_cancel now f d r trip reason note :
    fl_rows f !! d = Some r -> fleet_step qa (now, f) (now, (apply_cancellation_penalty d r trip reason note now f).2)
| step_trip now f d : fleet_step qa (now, f) (now, update_row d one_more_trip f).

Definition fresh (rows : gmap Z DriverRow) : Fleet :=
  {| fl_next := 1; fl_rows := rows; fl_suspensions := []; fl_sessions := []; fl_cancels := [] |}.

(** ** Suspensions *)

Definition active_rows (f : Fleet) : list Suspension := List.filter is_active (fl_suspensions f).

Section standing.

(** The suspensions excused: those under which the driver may have been approved. *)
Context (excused : Suspension -> Prop).

Record standing_ok (f : Fleet) : Prop := {
  ok_one : base.NoDup (su_driver <$> active_rows f);
  ok_off : forall s, s ∈ active_rows f ->
    exists r, fl_rows f !! su_driver s = Some r /\ (dr_approved r = false \/ excused s);
  ok_key : base.NoDup (su_id <$> fl_suspensions f);
  ok_fresh : forall s, s ∈ fl_suspensions f -> su_id s < fl_next f
}.

Lemma active_suspension_none (d : Z) (f : Fleet) :
  active_suspension d f = None <-> forall s, s ∈ active_rows f -> su_driver s <> d.
Proof.
  unfold active_suspension, active_rows. split.
  - intros H s [Hs Ha]%elem_of_filter_b. pose proof (List.find_none _ _ H s) as Hn. cbn in Hn.
    rewrite Ha, andb_true_r in Hn. apply Z.eqb_neq. apply Hn. by apply list_elem_of_In.
  - intros H. destruct (List.find _ _) as [s|] eqn:E; [|done]. apply find_some in E as [Hs E]. bool_cases.
    exfalso. apply (H s); [|done]. apply elem_of_filter_b. split; [by apply list_elem_of_In|done].
Qed.

Lemma active_suspension_some (d : Z) (f : Fleet) (s : Suspension) :
  active_suspension d f = Some s -> s ∈ active_rows f /\ su_driver s = d.
Proof.
  unfold active_suspension, active_rows. intros [Hs E]%find_some. bool_cases.
  split; [|done]. apply elem_of_filter_b. split; [by apply list_elem_of_In|done].
Qed.

(** Writing a row keeps the invariant when no suspension of that driver is active, or when
    the write approves nobody. *)
Lemma standing_update (d : Z) (g : DriverRow -> DriverRow) (f : Fleet) :
  standing_ok f ->
  active_suspension d f = None \/ (forall r, fl_rows f !! d = Some r -> dr_approved r = false -> dr_approved (g r) = false) ->
  standing_ok (update_row d g f).
Proof.
  intros [H1 H2 H3 H4] Hg. split; [exact H1| |exact H3|exact H4]. intros s Hs. destruct (H2 s Hs) as (r & Hr & Ha). cbn.
  destruct (decide (su_driver s = d)) as [<-|Hne].
  - rewrite lookup_alter_eq, Hr. exists (g r). split; [done|]. destruct Hg as [Hn|Hg].
    + exfalso. apply (proj1 (active_suspension_none _ f) Hn s Hs). done.
    + destruct Ha as [Ha|Ha]; [left; by apply Hg|by right].
  - rewrite lookup_alter_ne by done. by exists r.
Qed.

Lemma active_lift (i now : Z) (f : Fleet) :
  active_rows (lift_suspension i now f) = List.filter (fun s => negb (su_id s =? i)) (active_rows f).
Proof.
  unfold active_rows, lift_suspension. cbn. induction (fl_suspensions f) as [|s l IH]; [done|].
  rewrite fmap_cons. cbn [List.filter]. destruct (Z.eqb_spec (su_id s) i) as [E|E].
  - unfold is_active at 1. cbn. rewrite IH. destruct (is_active s); [|done]. cbn.
    by rewrite (proj2 (Z.eqb_eq _ _) E).
  - destruct (is_active s); cbn; [|exact IH]. rewrite (proj2 (Z.eqb_neq _ _) E). cbn. by rewrite IH.
Qed.

Lemma NoDup_filter_b {A B} (g : A -> B) (P : A -> bool) (l : list A) :
  base.NoDup (g <$> l) -> base.NoDup (g <$> List.filter P l).
Proof.
  induction l as [|x l IH]; [done|]. rewrite fmap_cons. intros [Hx Hn]%NoDup_cons. cbn.
  destruct (P x); [|by apply IH]. rewrite fmap_cons. apply NoDup_cons. split; [|by apply IH].
  intros (y & E & [Hy _]%elem_of_filter_b)%list_elem_of_fmap. apply Hx. apply list_elem_of_fmap. by exists y.
Qed.

(** Lifting the active suspension of a driver leaves none of that driver's active. *)
Lemma standing_lift (d now : Z) (s : Suspension) (f : Fleet) :
  standing_ok f -> active_suspension d f = Some s ->
  standing_ok (lift_suspension (su_id s) now f) /\ active_suspension d (lift_suspension (su_id s) now f) = None.
Proof.
  intros [H1 H2 H3 H4] [Hs <-]%active_suspension_some. split; [split|].
  - rewrite active_lift. by apply NoDup_filter_b.
  - rewrite active_lift. intros x [Hx _]%elem_of_filter_b. by apply H2.
  - cbn. rewrite <- list_fmap_compose. erewrite list_fmap_ext; [exact H3|]. intros j x _. cbn. by destruct (su_id x =? su_id s).
  - cbn. intros x (y & -> & Hy)%list_elem_of_fmap. specialize (H4 y Hy). by destruct (su_id y =? su_id s).
  - apply active_suspension_none. rewrite active_lift. intros x [Hx Hne]%elem_of_filter_b Hd.
    assert (x = s) as ->; [|by rewrite Z.eqb_refl in Hne].
    clear -H1 Hx Hs Hd. induction (active_rows f) as [|y l IH]; [by apply not_elem_of_nil in Hx|].
    rewrite fmap_cons in H1. apply NoDup_cons in H1 as [Hy Hn].
    apply elem_of_cons in Hx as [->|Hx], Hs as [->|Hs]; [done| | |by apply IH].
    + exfalso. apply Hy. apply list_elem_of_fmap. by exists s.
    + exfalso. apply Hy. apply list_elem_of_fmap. by exists x.
Qed.

Lemma standing_insert (d : Z) (reason : string) (b : bool) (f : Fleet) (s : Suspension) (f' : Fleet) (g : DriverRow -> DriverRow) :
  standing_ok f -> is_Some (fl_rows f !! d) -> insert_suspension d reason b f = Some (s, f') ->
  (forall r, dr_approved (g r) = false) -> standing_ok (update_row d g f').
Proof.
  intros [H1 H2 H3 H4] [r Hr] H Hg. unfold insert_suspension in H. destruct (active_suspension d f) eqn:E; [done|].
  injection H as <- <-. pose proof (proj1 (active_suspension_none d f) E) as Hn.
  unfold active_rows in *. split; unfold active_rows; cbn [fl_suspensions update_row set_rows set_suspensions fl_rows];
    rewrite ?List.filter_app; cbn.
  - rewrite fmap_app. apply NoDup_app. split; [done|]. split; [|apply NoDup_singleton].
    intros x (y & -> & Hy)%list_elem_of_fmap Hx. cbn in Hx. apply list_elem_of_singleton in Hx. by apply (Hn y Hy).
  - intros x [Hx|Hx]%elem_of_app.
    + rewrite lookup_alter_ne by (intros Heq; by apply (Hn x Hx)). by apply H2.
    + apply list_elem_of_singleton in Hx as ->. cbn. rewrite lookup_alter_eq, Hr. exists (g r). split; [done|]. left. apply Hg.
  - rewrite fmap_app. apply NoDup_app. split; [done|]. split; [|apply NoDup_singleton].
    intros x (y & -> & Hy)%list_elem_of_fmap Hx. cbn in Hx. apply list_elem_of_singleton in Hx. specialize (H4 y Hy). lia.
  - intros x [Hx|Hx]%elem_of_app; [specialize (H4 x Hx); lia|]. apply list_elem_of_singleton in Hx as ->. cbn. lia.
Qed.

(** Writes that touch neither table, or only sessions and cancellations. *)
Lemma standing_same (f f' : Fleet) :
  standing_ok f -> fl_suspensions f' = fl_suspensions f -> fl_rows f' = fl_rows f -> fl_next f <= fl_next f' -> standing_ok f'.
Proof.
  intros [H1 H2 H3 H4] Es Er En. split; unfold active_rows in *; rewrite Es, ?Er; try done.
  intros s Hs. specialize (H4 s Hs). lia.
Qed.

Lemma standing_fatigue (d : Z) (r : DriverRow) (now : Z) (f : Fleet) :
  standing_ok f -> standing_ok (get_fatigue_status d r now f).2.
Proof.
  intros H. unfold get_fatigue_status. destruct (match dr_lockout r with Some _ => _ | None => _ end); [done|].
  destruct (_ <=? _); [|done]. apply standing_update; [done|]. by right.
Qed.

Lemma standing_start (d now : Z) (f : Fleet) : standing_ok f -> standing_ok (record_session_start d now f).2.
Proof. intros H. unfold record_session_start. destruct (open_session d f); [done|]. eapply standing_same; [done..|cbn; lia]. Qed.

Lemma standing_end (d now : Z) (reason : string) (f : Fleet) :
  standing_ok f -> standing_ok (record_session_end d now reason f).2.
Proof. intros H. unfold record_session_end. destruct (open_session d f); [|done]. by eapply standing_same. Qed.

Lemma standing_connect (qa : bool) (d : Z) (r : DriverRow) (now : Z) (f : Fleet) :
  standing_ok f -> standing_ok (connect_driver qa d r now f).2.
Proof.
  intros H. unfold connect_driver. destruct (negb _); [done|]. unfold active_the_driver. cbn.
  pose proof (standing_fatigue d r now f H) as Hf. destruct (get_fatigue_status d r now f) as [st f'].
  destruct (locked st); [done|]. cbn in *. apply standing_start, standing_update; [done|]. by right.
Qed.

Lemma standing_suspend (d : Z) (reason : string) (f : Fleet) :
  standing_ok f -> standing_ok (operator_suspend d reason f).2.
Proof.
  intros H. unfold operator_suspend. destruct (fl_rows f !! d) as [r|] eqn:Er; [|done].
  destruct (active_suspension d f); [done|]. destruct (insert_suspension _ _ _ f) as [[s f']|] eqn:E; [|done].
  eapply standing_insert; [done|by rewrite Er|exact E|done].
Qed.

Lemma standing_reinstate (d now today : Z) (f : Fleet) :
  standing_ok f -> standing_ok (operator_reinstate d now today f).2.
Proof.
  intros H. unfold operator_reinstate. destruct (fl_rows f !! d) as [r|] eqn:Er; [|done].
  destruct (active_suspension d f) as [s|] eqn:Es; [|done]. destruct (bool_decide _); [done|].
  destruct (standing_lift d now s f H Es) as [H' Hn]. apply standing_update; [done|]. by left.
Qed.

Lemma standing_deactivate (d now : Z) (f f' : Fleet) :
  standing_ok f -> execute_deactivate d now f = Ok f' -> standing_ok f'.
Proof.
  intros H He. unfold execute_deactivate in He. destruct (fl_rows f !! d) as [r|] eqn:Er; [|done].
  set (b := match active_suspension d f with Some s => _ | None => false end) in He. destruct b; [done|].
  apply res_bind_ok in He as ([s f1] & He & Hf). injection Hf as <-.
  destruct (insert_suspension _ _ _ _) as [[x y]|] eqn:E; [|done]. injection He as -> ->.
  eapply standing_insert; [|..|exact E|done].
  - destruct (active_suspension d f) as [s0|] eqn:Es; [|done]. by apply (standing_lift d now s0 f H Es).
  - destruct (active_suspension d f); cbn; rewrite Er; by eexists.
Qed.

Lemma standing_sweep (today : Z) (f : Fleet) : standing_ok f -> standing_ok (block_expired_driver_licenses today f).
Proof.
  intros [H1 H2 H3 H4]. split; [exact H1| |exact H3|exact H4]. intros s Hs. destruct (H2 s Hs) as (r & Hr & Ha). cbn.
  rewrite lookup_fmap, Hr. cbn. eexists. split; [done|]. destruct Ha as [Ha|Ha]; [left|by right]. by destruct (_ && _).
Qed.

Lemma standing_approve (d today : Z) (rejected missing : bool) (f : Fleet) :
  standing_ok f -> standing_ok (admin_approve_driver d today rejected missing f).2.
Proof.
  intros H. unfold admin_approve_driver. destruct (fl_rows f !! d) as [r|]; [|done].
  destruct (dr_approved r && _); [done|]. destruct (active_suspension d f) eqn:E; [done|].
  destruct rejected, missing; try done. destruct (kyc_validate today r (Some true)); [done|].
  apply standing_update; [done|]. by left.
Qed.

Lemma standing_patch (today d : Z) (approved : option bool) (status : option string) (f f' : Fleet) :
  standing_ok f -> update_kyc_status_admin today d approved status f = Ok f' -> standing_ok f'.
Proof.
  intros H He. unfold update_kyc_status_admin in He. destruct (fl_rows f !! d) as [r|] eqn:Er; [|done].
  apply res_bind_ok in He as ([] & Hc & He). injection He as <-. unfold patch_save.
  apply standing_update; [done|]. unfold patch_check in Hc.
  destruct (match status with Some _ => _ | None => false end); [done|]. destruct (kyc_validate today r approved); [done|].
  destruct approved as [[]|]; cbn in Hc.
  - left. destruct (bool_decide_reflect (is_Some (active_suspension d f))) as [|Hn]; [done|].
    destruct (active_suspension d f); [|done]. exfalso. by apply Hn.
  - right. intros r' _ _. done.
  - right. intros r' Hr' Ha. rewrite Er in Hr'. by injection Hr' as ->.
Qed.

Lemma standing_disconnect (d now : Z) (f : Fleet) : standing_ok f -> standing_ok (deactive_the_driver d now f).
Proof.
  intros H. unfold deactive_the_driver. apply standing_end, standing_update; [done|].
  right. intros r _ Ha. by destruct (bool_decide _).
Qed.

Lemma standing_cancel (d : Z) (r : DriverRow) (trip : Z) (reason note : string) (now : Z) (f : Fleet) :
  standing_ok f -> standing_ok (apply_cancellation_penalty d r trip reason note now f).2.
Proof.
  intros H. unfold apply_cancellation_penalty. cbn. destruct (_ <=? _); cbn [snd].
  - apply standing_update; [by eapply standing_same|]. by right.
  - by eapply standing_same.
Qed.

Lemma standing_step (qa : bool) (x y : Z * Fleet) : fleet_step qa x y -> standing_ok x.2 -> standing_ok y.2.
Proof.
  destruct 1; cbn; intros Hok.
  - done.
  - by apply standing_suspend.
  - by apply standing_reinstate.
  - by eapply standing_deactivate.
  - by apply standing_sweep.
  - by apply standing_approve.
  - by eapply standing_patch.
  - by apply standing_connect.
  - by apply standing_disconnect.
  - by apply standing_fatigue.
  - by apply standing_cancel.
  - apply standing_update; [done|]. by right.
Qed.

Lemma standing_fresh (rows : gmap Z DriverRow) : standing_ok (fresh rows).
Proof. split; [constructor| |constructor|]; intros s Hs; by apply not_elem_of_nil in Hs. Qed.

End standing.

Lemma rtc_invariant {A} (R : A -> A -> Prop) (P : A -> Prop) :
  (forall x y, R x y -> P x -> P y) -> forall x y, rtc R x y -> P x -> P y.
Proof. intros H x y Hr. induction Hr; eauto. Qed.

(** Nothing is excused while the console's patch runs uninterrupted. *)
Notation standing_strict := (standing_ok (fun _ => False)).

Lemma standing_reachable (qa : bool) (rows : gmap Z DriverRow) (t0 now : Z) (f : Fleet) :
  rtc (fleet_step qa) (t0, fresh rows) (now, f) -> standing_strict f.
Proof.
  intros Hr. apply (rtc_invariant (fleet_step qa) (fun x => standing_strict x.2) (standing_step _ qa) _ _ Hr), standing_fresh.
Qed.

(** ** Sessions *)

Definition sessions_of (d : Z) (f : Fleet) : list Session := List.filter (fun s => se_driver s =? d) (fl_sessions f).

(** In the order they were opened, each session starts after the one before ended, and
    only the last may be open. *)
Fixpoint spaced (lo now : Z) (l : list Session) : Prop :=
  match l with
  | [] => True
  | s :: r =>
    lo <= started_at s <= now /\
    match ended_at s with
    | Some e => started_at s <= e <= now /\ spaced e now r
    | None => r = []
    end
  end.

Record sessions_ok (now : Z) (f : Fleet) : Prop := {
  ok_ids : base.NoDup (se_id <$> fl_sessions f);
  ok_next : forall s, s ∈ fl_sessions f -> se_id s < fl_next f;
  ok_spaced : forall d, exists lo, spaced lo now (sessions_of d f)
}.

Lemma spaced_later (now now' : Z) (l : list Session) (lo : Z) : now <= now' -> spaced lo now l -> spaced lo now' l.
Proof.
  intros Hn. revert lo. induction l as [|s l IH]; intros lo; [done|]. cbn. intros [H1 H2]. split; [lia|].
  destruct (ended_at s) as [e|]; [|done]. destruct H2 as [H2 H3]. split; [lia|]. by apply IH.
Qed.

Lemma spaced_app (lo now : Z) (l : list Session) (s : Session) :
  spaced lo now l -> Forall (fun x => is_Some (ended_at x)) l -> started_at s = now -> ended_at s = None -> lo <= now ->
  spaced lo now (l ++ [s]).
Proof.
  revert lo. induction l as [|x l IH]; intros lo Hs Hf Hst He Hlo; cbn.
  - rewrite He. split; [lia|done].
  - cbn in Hs. destruct Hs as [H1 H2]. apply Forall_cons in Hf as [[e Hx] Hf]. rewrite Hx in *. destruct H2 as [H2 H3].
    split; [done|]. split; [done|]. apply IH; try done. lia.
Qed.

(** The cap counts disjoint pieces of the window. *)
Lemma spaced_seconds (now ws : Z) (l : list Session) (lo : Z) :
  spaced lo now l ->
  0 <= zsum (segment_seconds now ws) l /\ zsum (segment_seconds now ws) l * SECOND <= Z.max 0 (now - Z.max lo ws).
Proof.
  assert (forall a b, a < b -> 0 <= (b - a) / SECOND /\ (b - a) / SECOND * SECOND <= b - a) as Hd.
  { unfold SECOND. intros a b H. split; [apply Z.div_pos; lia|]. pose proof (Z.mul_div_le (b - a) 1000000 ltac:(lia)). lia. }
  revert lo. induction l as [|s l IH]; intros lo; [cbn; lia|]. cbn [spaced zsum foldr]. intros [H1 H2].
  unfold segment_seconds at 1 3. destruct (ended_at s) as [e|]; cbn [default from_option id].
  - destruct H2 as [H2 H3]. destruct (IH e H3) as [H4 H5]. unfold zsum in *.
    destruct (Z.leb_spec e (Z.max (started_at s) ws)) as [Hle|Hgt]; [lia|].
    destruct (Hd (Z.max (started_at s) ws) e Hgt). lia.
  - subst l. cbn. destruct (Z.leb_spec now (Z.max (started_at s) ws)) as [Hle|Hgt]; [lia|].
    destruct (Hd (Z.max (started_at s) ws) now Hgt). lia.
Qed.

Lemma spaced_close (now : Z) (reason : string) (i lo : Z) (l : list Session) :
  spaced lo now l -> (forall x, x ∈ l -> se_id x = i -> ended_at x = None) ->
  spaced lo now ((fun x => if se_id x =? i then closed now reason x else x) <$> l).
Proof.
  revert lo. induction l as [|s l IH]; intros lo Hs Hi; [done|]. rewrite fmap_cons.
  destruct Hs as [H1 H2]. assert (forall x, x ∈ l -> se_id x = i -> ended_at x = None) as Hi' by (intros; apply Hi; [by right|done]).
  destruct (Z.eqb_spec (se_id s) i) as [E|E]; cbn [spaced].
  - rewrite (Hi s) in H2 by (by left || done). subst l. cbn. split; [done|].
    destruct (Z.leb_spec now (started_at s)); split; done || lia.
  - split; [done|]. destruct (ended_at s); [|by rewrite H2]. destruct H2 as [H2 H3]. split; [done|]. by apply IH.
Qed.

Lemma filter_map_keep {A} (g : A -> A) (P : A -> bool) (l : list A) :
  (forall x, P (g x) = P x) -> List.filter P (g <$> l) = g <$> List.filter P l.
Proof.
  intros H. induction l as [|x l IH]; [done|]. rewrite fmap_cons. cbn. rewrite H, IH. by destruct (P x).
Qed.

Lemma nodup_key_eq {A} (key : A -> Z) (l : list A) (x y : A) :
  base.NoDup (key <$> l) -> x ∈ l -> y ∈ l -> key x = key y -> x = y.
Proof.
  intros Hn Hx Hy E. induction l as [|z l IH]; [by apply not_elem_of_nil in Hx|].
  rewrite fmap_cons in Hn. apply NoDup_cons in Hn as [Hz Hn].
  apply elem_of_cons in Hx as [->|Hx], Hy as [->|Hy]; [done| | |by apply IH];
    exfalso; apply Hz; apply list_elem_of_fmap; eauto.
Qed.

Lemma open_session_some (d : Z) (f : Fleet) (s : Session) :
  open_session d f = Some s -> s ∈ sessions_of d f /\ ended_at s = None.
Proof.
  unfold open_session. intros [Hs E]%best_by_elem%elem_of_filter_b. bool_cases.
  apply bool_decide_eq_true in H0. split; [|done]. apply elem_of_filter_b. split; [done|]. by apply Z.eqb_eq.
Qed.

Lemma open_session_none (d : Z) (f : Fleet) :
  open_session d f = None -> Forall (fun x => is_Some (ended_at x)) (sessions_of d f).
Proof.
  unfold open_session, sessions_of. intros H%best_by_none. apply Forall_forall. intros x [Hx Hd]%elem_of_filter_b.
  destruct (ended_at x) eqn:E; [by eexists|]. exfalso.
  assert (x ∈ List.filter (fun s => (se_driver s =? d) && bool_decide (ended_at s = None)) (fl_sessions f)) as Hin.
  { apply elem_of_filter_b. split; [done|]. by rewrite Hd, E. }
  rewrite H in Hin. by apply not_elem_of_nil in Hin.
Qed.

Lemma sessions_start (d now : Z) (f : Fleet) :
  sessions_ok now f -> sessions_ok now (record_session_start d now f).2.
Proof.
  intros [H1 H2 H3]. unfold record_session_start. destruct (open_session d f) as [s|] eqn:E; [by split|].
  apply open_session_none in E. split; cbn.
  - rewrite fmap_app. apply NoDup_app. split; [done|]. split; [|apply NoDup_singleton].
    intros x (s & -> & Hs)%list_elem_of_fmap [Hx|Hx]%elem_of_cons; [|by apply not_elem_of_nil in Hx].
    specialize (H2 s Hs). cbn in Hx. lia.
  - intros s [Hs|Hs]%elem_of_app; [specialize (H2 s Hs); lia|]. apply list_elem_of_singleton in Hs as ->. cbn. lia.
  - intros d'. destruct (H3 d') as [lo Hlo]. unfold sessions_of in *. cbn. rewrite List.filter_app. cbn.
    destruct (Z.eqb_spec d d') as [->|Hne].
    + exists (Z.min lo now). apply spaced_app; try done; [|lia].
      clear -Hlo. destruct (List.filter _ _) as [|s l]; [done|]. cbn in *. destruct Hlo as [H1 H2]. split; [lia|done].
    + exists lo. by rewrite app_nil_r.
Qed.

Lemma sessions_end (d now : Z) (reason : string) (f : Fleet) :
  sessions_ok now f -> sessions_ok now (record_session_end d now reason f).2.
Proof.
  intros [H1 H2 H3]. unfold record_session_end. destruct (open_session d f) as [s|] eqn:E; [|by split].
  apply open_session_some in E as [Hs He]. unfold sessions_of in Hs. apply elem_of_filter_b in Hs as [Hs Hd]. apply Z.eqb_eq in Hd.
  set (g := fun x => if se_id x =? se_id s then closed now reason s else x).
  assert (forall x, x ∈ fl_sessions f -> g x = (fun x => if se_id x =? se_id s then closed now reason x else x) x) as Hg.
  { intros x Hx. unfold g. destruct (Z.eqb_spec (se_id x) (se_id s)) as [Ex|]; [|done].
    by rewrite (nodup_key_eq se_id _ x s H1 Hx Hs Ex). }
  assert (g <$> fl_sessions f = (fun x => if se_id x =? se_id s then closed now reason x else x) <$> fl_sessions f) as Heq.
  { apply list_fmap_ext. intros i x Hx. apply Hg. by eapply list_elem_of_lookup_2. }
  cbn [snd]. fold g. rewrite Heq. split; cbn.
  - rewrite <- list_fmap_compose. erewrite list_fmap_ext; [exact H1|]. intros i x _. cbn. by destruct (se_id x =? se_id s).
  - intros x (y & -> & Hy)%list_elem_of_fmap. specialize (H2 y Hy). by destruct (se_id y =? se_id s).
  - intros d'. destruct (H3 d') as [lo Hlo]. exists lo. unfold sessions_of in *. cbn.
    rewrite filter_map_keep by (intros x; by destruct (se_id x =? se_id s)).
    apply spaced_close; [done|]. intros x [Hx _]%elem_of_filter_b Ex.
    by rewrite (nodup_key_eq se_id _ x s H1 Hx Hs Ex).
Qed.

Lemma sessions_same (now : Z) (f f' : Fleet) :
  sessions_ok now f -> fl_sessions f' = fl_sessions f -> fl_next f <= fl_next f' -> sessions_ok now f'.
Proof.
  intros [H1 H2 H3] Es En. split; unfold sessions_of in *; rewrite ?Es; [done| |done].
  intros s Hs. specialize (H2 s Hs). lia.
Qed.

(** The requests that keep the sessions: everything but a socket. *)
Definition same_sessions (f f' : Fleet) : Prop := fl_sessions f' = fl_sessions f /\ fl_next f <= fl_next f'.

Lemma fatigue_sessions (d : Z) (r : DriverRow) (now : Z) (f : Fleet) : same_sessions f (get_fatigue_status d r now f).2.
Proof.
  unfold get_fatigue_status. destruct (match dr_lockout r with Some _ => _ | None => _ end); [by split|].
  destruct (_ <=? _); by split.
Qed.

Lemma insert_sessions (d : Z) (reason : string) (b : bool) (f : Fleet) (s : Suspension) (f' : Fleet) :
  insert_suspension d reason b f = Some (s, f') -> same_sessions f f'.
Proof.
  unfold insert_suspension. destruct (active_suspension d f); [done|]. intros E. injection E as <- <-. split; cbn; [done|lia].
Qed.

Lemma admin_sessions (qa : bool) (x y : Z * Fleet) :
  fleet_step qa x y ->
  match x, y with
  | (now, f), (now', f') =>
    same_sessions f f' /\ now <= now' \/
    (exists d r, fl_rows f !! d = Some r /\ f' = (connect_driver qa d r now f).2 /\ now' = now) \/
    (exists d, f' = deactive_the_driver d now f /\ now' = now)
  end.
Proof.
  assert (forall f : Fleet, same_sessions f f) as Hrefl by (intros; split; [done|lia]).
  destruct 1.
  - left; split; [|lia]. done.
  - left; split; [|lia]. unfold operator_suspend. destruct (fl_rows f !! d); [|done]. destruct (active_suspension d f); [done|].
    destruct (insert_suspension _ _ _ f) as [[s f']|] eqn:E; [|done]. apply (insert_sessions _ _ _ _ _ _ E).
  - left; split; [|lia]. unfold operator_reinstate. destruct (fl_rows f !! d); [|done]. destruct (active_suspension d f); [|done].
    destruct (bool_decide _); [done|]. by split.
  - left; split; [|lia]. unfold execute_deactivate in H. destruct (fl_rows f !! d); [|done].
    set (b := match active_suspension d f with Some s => _ | None => false end) in H. destruct b; [done|].
    apply res_bind_ok in H as ([s f1] & H & Hf). injection Hf as <-.
    destruct (insert_suspension _ _ _ _) as [[x y]|] eqn:E; [|done]. injection H as -> ->.
    apply insert_sessions in E. by destruct (active_suspension d f).
  - left; split; [|lia]. by split.
  - left; split; [|lia]. unfold admin_approve_driver. destruct (fl_rows f !! d); [|done]. destruct (dr_approved _ && _); [done|].
    destruct (active_suspension d f); [done|]. destruct rejected, missing; try done.
    by destruct (kyc_validate _ _ _).
  - left; split; [|lia]. unfold update_kyc_status_admin in H. destruct (fl_rows f !! d); [|done].
    apply res_bind_ok in H as (? & _ & H). by injection H as <-.
  - right; left. by exists d, r.
  - right; right. by exists d.
  - left; split; [|lia]. apply fatigue_sessions.
  - left; split; [|lia]. unfold apply_cancellation_penalty. cbn. by destruct (_ <=? _); split.
  - left; split; [|lia]. by split.
Qed.

Lemma sessions_step (qa : bool) (x y : Z * Fleet) : fleet_step qa x y -> sessions_ok x.1 x.2 -> sessions_ok y.1 y.2.
Proof.
  intros H%admin_sessions Hok. destruct x as [now f], y as [now' f']. cbn in *.
  destruct H as [[[Es En] Hn]|[(d & r & _ & -> & ->)|(d & -> & ->)]].
  - destruct Hok as [H1 H2 H3]. apply (sessions_same now' f); [|done|done]. split; [done|done|].
    intros d. destruct (H3 d) as [lo Hlo]. exists lo. by apply (spaced_later now).
  - unfold connect_driver. destruct (negb _); [done|]. unfold active_the_driver. cbn.
    destruct (fatigue_sessions d r now f) as [Es En]. destruct (get_fatigue_status d r now f) as [st f1]. cbn in *.
    destruct (locked st); cbn; [by apply (sessions_same now f)|]. apply sessions_start. by apply (sessions_same now f).
  - unfold deactive_the_driver. apply sessions_end. by apply (sessions_same now f).
Qed.

Lemma sessions_fresh (now : Z) (rows : gmap Z DriverRow) : sessions_ok now (fresh rows).
Proof. split; [constructor| |]; [intros s Hs; by apply not_elem_of_nil in Hs|]. intros d. by exists 0. Qed.

Lemma sessions_reachable (qa : bool) (rows : gmap Z DriverRow) (t0 now : Z) (f : Fleet) :
  rtc (fleet_step qa) (t0, fresh rows) (now, f) -> sessions_ok now f.
Proof.
  intros Hr. by apply (rtc_invariant (fleet_step qa) (fun x => sessions_ok x.1 x.2) (sessions_step qa) _ _ Hr), sessions_fresh.
Qed.

Lemma spaced_filter (now ws lo : Z) (l : list Session) (P : Session -> bool) :
  spaced lo now l -> exists lo', lo <= lo' /\ spaced lo' now (List.filter P l).
Proof.
  revert lo. induction l as [|s l IH]; intros lo Hs; [by exists lo|]. destruct Hs as [H1 H2]. cbn.
  destruct (ended_at s) as [e|] eqn:Ee.
  - destruct H2 as [H2 H3]. destruct (IH e H3) as (lo' & Hl & Hs). destruct (P s).
    + exists (started_at s). split; [lia|]. cbn. rewrite Ee. split; [lia|]. split; [done|].
      clear -Hl Hs. destruct (List.filter P l) as [|x r]; [done|]. cbn in *. destruct Hs as [Hx Hs]. split; [lia|done].
    + exists lo'. split; [lia|done].
  - subst l. cbn. destruct (P s); [|by exists lo]. exists (started_at s). split; [lia|]. cbn. rewrite Ee. split; [lia|done].
Qed.

Lemma active_bounds (now d : Z) (f : Fleet) :
  sessions_ok now f -> 0 <= compute_active_seconds_24h d now f <= FATIGUE_WINDOW_SECONDS.
Proof.
  intros [_ _ H3]. destruct (H3 d) as [lo Hlo]. unfold compute_active_seconds_24h.
  set (ws := now - FATIGUE_WINDOW_SECONDS * SECOND).
  assert (List.filter (in_window d now ws) (fl_sessions f) =
    List.filter (fun s => (started_at s <? now) && match ended_at s with None => true | Some e => ws <? e end) (sessions_of d f)) as ->.
  { unfold sessions_of. rewrite filter_filter. apply List.filter_ext. intros s. unfold in_window. by rewrite andb_assoc. }
  destruct (spaced_filter now ws lo _ (fun s => (started_at s <? now) && match ended_at s with None => true | Some e => ws <? e end) Hlo)
    as (lo' & _ & Hs).
  destruct (spaced_seconds now ws _ lo' Hs) as [Ha Hb]. unfold ws, SECOND, FATIGUE_WINDOW_SECONDS in *. split; [done|]. lia.
Qed.

(** ** Lockouts *)

(** The driver is locked out at least until [t]. *)
Definition locked_to (t d : Z) (f : Fleet) : Prop :=
  exists r u, fl_rows f !! d = Some r /\ dr_lockout r = Some u /\ t <= u.

Lemma locked_update (t d d' : Z) (g : DriverRow -> DriverRow) (f : Fleet) :
  locked_to t d f -> (forall r u, fl_rows f !! d = Some r -> d = d' -> dr_lockout r = Some u -> t <= u ->
    exists u', dr_lockout (g r) = Some u' /\ t <= u') ->
  locked_to t d (update_row d' g f).
Proof.
  intros (r & u & Hr & Hu & Ht) Hg. unfold locked_to. cbn. destruct (decide (d = d')) as [<-|Hne].
  - rewrite lookup_alter_eq, Hr. destruct (Hg r u Hr eq_refl Hu Ht) as (u' & Hu' & Ht'). by exists (g r), u'.
  - rewrite lookup_alter_ne by done. by exists r, u.
Qed.

Lemma locked_same (t d : Z) (f f' : Fleet) : locked_to t d f -> fl_rows f' = fl_rows f -> locked_to t d f'.
Proof. intros H E. unfold locked_to in *. by rewrite E. Qed.

Lemma locked_fatigue (t d d' : Z) (r : DriverRow) (now : Z) (f : Fleet) :
  fl_rows f !! d' = Some r -> locked_to t d f -> locked_to t d (get_fatigue_status d' r now f).2.
Proof.
  intros Hr H. unfold get_fatigue_status. destruct (match dr_lockout r with Some _ => _ | None => _ end) eqn:El; [done|].
  destruct (_ <=? _); [|done]. apply locked_update; [done|]. intros r' u Hr' <- Hu Ht. rewrite Hr in Hr'. injection Hr' as <-.
  rewrite Hu in El. bool_cases. eexists. split; [done|]. unfold FATIGUE_LOCKOUT_SECONDS, SECOND. lia.
Qed.

Ltac keep_lockout := intros ? ? _ _ Hu Ht; eexists; split; [exact Hu|exact Ht].

Lemma locked_step (qa : bool) (t d : Z) (x y : Z * Fleet) : fleet_step qa x y -> locked_to t d x.2 -> locked_to t d y.2.
Proof.
  destruct 1; cbn; intros Hl.
  - done.
  - unfold operator_suspend. destruct (fl_rows f !! d0); [|done]. destruct (active_suspension d0 f) eqn:Ea; [done|].
    unfold insert_suspension. rewrite Ea. cbn. apply locked_update; [done|keep_lockout].
  - unfold operator_reinstate. destruct (fl_rows f !! d0); [|done]. destruct (active_suspension d0 f); [|done].
    destruct (bool_decide _); [done|]. apply locked_update; [done|keep_lockout].
  - unfold execute_deactivate in H. destruct (fl_rows f !! d0); [|done].
    set (b := match active_suspension d0 f with Some s => _ | None => false end) in H. destruct b; [done|].
    apply res_bind_ok in H as ([s f1] & H & Hf). injection Hf as <-. apply locked_update; [|keep_lockout].
    unfold insert_suspension in H. destruct (active_suspension d0 _) eqn:Ea in H; [done|]. injection H as _ <-.
    by destruct (active_suspension d0 f).
  - destruct Hl as (r & u & Hr & Hu & Ht). unfold locked_to. cbn. rewrite lookup_fmap, Hr. cbn.
    eexists _, u. split; [done|]. split; [|done]. by destruct (_ && _).
  - unfold admin_approve_driver. destruct (fl_rows f !! d0); [|done]. destruct (dr_approved _ && _); [done|].
    destruct (active_suspension d0 f); [done|]. destruct rejected, missing; try done.
    destruct (kyc_validate _ _ _); [done|]. apply locked_update; [done|keep_lockout].
  - unfold update_kyc_status_admin in H. destruct (fl_rows f !! d0) as [r|] eqn:Er; [|done].
    apply res_bind_ok in H as (? & _ & H). injection H as <-. apply locked_update; [done|].
    intros r' u Hr' <- Hu Ht. rewrite Er in Hr'. injection Hr' as <-. exists u. split; [|done]. by destruct approved.
  - unfold connect_driver. destruct (negb _); [done|]. unfold active_the_driver. cbn.
    pose proof (locked_fatigue t d d0 r now f H Hl) as Hf. destruct (get_fatigue_status d0 r now f) as [st f1].
    destruct (locked st); [done|]. cbn in *. unfold record_session_start.
    apply (locked_same _ _ (update_row d0 (with_driver_status "online") f1)); [apply locked_update; [done|keep_lockout]|].
    by destruct (open_session d0 _).
  - unfold deactive_the_driver. set (f1 := update_row d0 _ f).
    assert (locked_to t d f1) as H1.
    { apply locked_update; [done|]. intros r u _ _ Hu Ht. exists u. split; [|done]. by destruct (bool_decide _). }
    unfold record_session_end. destruct (open_session d0 f1); [|done]. by eapply locked_same.
  - by apply locked_fatigue.
  - unfold apply_cancellation_penalty. cbn. destruct (_ <=? _); cbn [snd]; [|by eapply locked_same].
    apply locked_update; [by eapply locked_same|]. intros r' u Hr' <- Hu Ht. cbn in Hr'. rewrite H in Hr'.
    injection Hr' as <-. cbn. rewrite Hu. destruct (Z.ltb_spec u (now + CANCEL_LOCKOUT_SECONDS * SECOND)); eexists; split; done || lia.
  - apply locked_update; [done|keep_lockout].
Qed.

Lemma locked_out_before (t d now : Z) (r : DriverRow) (f : Fleet) :
  locked_to t d f -> fl_rows f !! d = Some r -> now < t -> is_locked_out d r now f = true.
Proof.
  intros (r' & u & Hr & Hu & Ht) Hr' Hn. rewrite Hr in Hr'. injection Hr' as ->. unfold is_locked_out, get_fatigue_status.
  rewrite Hu. by rewrite (proj2 (Z.ltb_lt _ _)) by lia.
Qed.

(** ** Deactivation *)

Definition gone (d : Z) (f : Fleet) : Prop :=
  (exists s, active_suspension d f = Some s /\ su_reason s = "deactivated"%string) /\
  (exists r, fl_rows f !! d = Some r /\ dr_user_active r = false).

Lemma deactivated_update (d d' : Z) (g : DriverRow -> DriverRow) (f : Fleet) :
  gone d f -> (forall r, d = d' -> fl_rows f !! d = Some r -> dr_user_active r = false -> dr_user_active (g r) = false) ->
  gone d (update_row d' g f).
Proof.
  intros [Hs (r & Hr & Ha)] Hg. split; [done|]. cbn. destruct (decide (d = d')) as [<-|Hne].
  - rewrite lookup_alter_eq, Hr. exists (g r). split; [done|by apply Hg].
  - rewrite lookup_alter_ne by done. by exists r.
Qed.

Lemma deactivated_same (d : Z) (f f' : Fleet) :
  gone d f -> fl_rows f' = fl_rows f -> fl_suspensions f' = fl_suspensions f -> gone d f'.
Proof. intros H Er Es. unfold gone, active_suspension in *. by rewrite Er, Es. Qed.

Lemma active_suspension_app (d : Z) (f : Fleet) (n : Z) (s x : Suspension) :
  active_suspension d f = Some s -> active_suspension d (set_suspensions n (fl_suspensions f ++ [x]) f) = Some s.
Proof.
  unfold active_suspension. cbn. induction (fl_suspensions f) as [|y l IH]; [done|]. cbn. by destruct (_ && _).
Qed.

(** Lifting another suspension keeps this one. *)
Lemma active_suspension_lift (d i now : Z) (f : Fleet) (s : Suspension) :
  base.NoDup (su_driver <$> active_rows f) -> active_suspension d f = Some s -> su_id s <> i ->
  active_suspension d (lift_suspension i now f) = Some s.
Proof.
  intros Hn Hs Hi. destruct (active_suspension_some d f s Hs) as [Hin Hd].
  destruct (active_suspension d (lift_suspension i now f)) as [x|] eqn:E.
  - apply active_suspension_some in E as [Hx Hxd]. rewrite active_lift in Hx. apply elem_of_filter_b in Hx as [Hx _].
    f_equal. by apply (nodup_key_eq su_driver (active_rows f)); [..|by rewrite Hxd].
  - exfalso. apply (proj1 (active_suspension_none d _) E s); [|done]. rewrite active_lift.
    apply elem_of_filter_b. split; [done|]. by rewrite (proj2 (Z.eqb_neq _ _)).
Qed.

Lemma deactivated_lift (d d' now : Z) (f : Fleet) (s' : Suspension) :
  standing_strict f -> gone d f -> active_suspension d' f = Some s' -> d <> d' ->
  gone d (lift_suspension (su_id s') now f).
Proof.
  intros Hok [(s & Hs & Hr) Hrow] Hs' Hne. split; [|exact Hrow]. exists s. split; [|done].
  apply active_suspension_lift; [by destruct Hok|done|].
  intros E. apply active_suspension_some in Hs as [Hs Hd], Hs' as [Hs' Hd'].
  apply elem_of_filter_b in Hs as [Hs _], Hs' as [Hs' _].
  rewrite (nodup_key_eq su_id _ s s' (ok_key _ f Hok) Hs Hs' E) in Hd. congruence.
Qed.

Lemma deactivated_insert (d d' : Z) (reason : string) (b : bool) (f : Fleet) (x : Suspension) (f' : Fleet) :
  gone d f -> insert_suspension d' reason b f = Some (x, f') -> gone d f'.
Proof.
  intros [(s & Hs & Hr) Hrow] H. unfold insert_suspension in H. destruct (active_suspension d' f); [done|].
  injection H as <- <-. split; [|exact Hrow]. exists s. split; [by apply active_suspension_app|done].
Qed.

Ltac keep_login := intros ? _ _ ?; done.

Lemma deactivated_step (qa : bool) (d : Z) (x y : Z * Fleet) :
  fleet_step qa x y -> standing_strict x.2 -> gone d x.2 -> gone d y.2.
Proof.
  destruct 1; cbn; intros Hok Hd.
  - done.
  - unfold operator_suspend. destruct (fl_rows f !! d0); [|done]. destruct (active_suspension d0 f) eqn:Ea; [done|].
    destruct (insert_suspension _ _ _ f) as [[s f']|] eqn:E; [|done].
    apply deactivated_update; [by eapply deactivated_insert|keep_login].
  - unfold operator_reinstate. destruct (fl_rows f !! d0); [|done]. destruct (active_suspension d0 f) as [s|] eqn:Es; [|done].
    destruct (bool_decide_reflect (su_reason s = "deactivated")) as [|Hr]; [done|].
    apply deactivated_update; [|keep_login]. apply (deactivated_lift d d0); [done..|].
    intros <-. destruct Hd as [(s' & Hs' & Hr') _]. rewrite Es in Hs'. by injection Hs' as ->.
  - unfold execute_deactivate in H. destruct (fl_rows f !! d0) as [r0|] eqn:Er0; [|done].
    destruct (decide (d = d0)) as [<-|Hne].
    { exfalso. destruct Hd as [(s & Hs & Hr) (r & Hr' & Ha)]. rewrite Er0 in Hr'. injection Hr' as ->.
      rewrite Hs, Hr, Ha in H. done. }
    set (b := match active_suspension d0 f with Some s => _ | None => false end) in H. destruct b; [done|].
    apply res_bind_ok in H as ([s f1] & H & Hf). injection Hf as <-.
    destruct (insert_suspension _ _ _ _) as [[x y]|] eqn:E; [|done]. injection H as -> ->.
    apply deactivated_update; [|intros r E'; congruence]. eapply deactivated_insert; [|exact E].
    destruct (active_suspension d0 f) as [s0|] eqn:Es; [|done]. by apply (deactivated_lift d d0).
  - destruct Hd as [Hs (r & Hr & Ha)]. split; [done|]. cbn. rewrite lookup_fmap, Hr. cbn. eexists. split; [done|]. by destruct (_ && _).
  - unfold admin_approve_driver. destruct (fl_rows f !! d0); [|done]. destruct (dr_approved _ && _); [done|].
    destruct (active_suspension d0 f); [done|]. destruct rejected, missing; try done.
    destruct (kyc_validate _ _ _); [done|]. apply deactivated_update; [done|keep_login].
  - unfold update_kyc_status_admin in H. destruct (fl_rows f !! d0) as [r|] eqn:Er; [|done].
    apply res_bind_ok in H as (? & _ & H). injection H as <-. apply deactivated_update; [done|].
    intros r' <- Hr' Ha. rewrite Er in Hr'. injection Hr' as <-. by destruct approved.
  - unfold connect_driver. destruct (negb _); [done|]. unfold active_the_driver, get_fatigue_status. cbn.
    destruct (match dr_lockout r with Some _ => _ | None => _ end); [done|].
    destruct (_ <=? _); cbn; [apply deactivated_update; [done|keep_login]|]. unfold record_session_start.
    apply (deactivated_same _ (update_row d0 (with_driver_status "online") f)); [apply deactivated_update; [done|keep_login]| |];
      by destruct (open_session d0 _).
  - unfold deactive_the_driver. set (f1 := update_row d0 _ f).
    assert (gone d f1) as H1.
    { apply deactivated_update; [done|]. intros r _ _ Ha. by destruct (bool_decide _). }
    unfold record_session_end. destruct (open_session d0 f1); [|done]. by eapply deactivated_same.
  - unfold get_fatigue_status. destruct (match dr_lockout r with Some _ => _ | None => _ end); [done|].
    destruct (_ <=? _); [apply deactivated_update; [done|keep_login]|done].
  - unfold apply_cancellation_penalty. cbn. destruct (_ <=? _); cbn [snd]; [|by eapply deactivated_same].
    apply deactivated_update; [by eapply deactivated_same|keep_login].
  - apply deactivated_update; [done|keep_login].
Qed.

Lemma insert_active (d : Z) (reason : string) (b : bool) (f : Fleet) (s : Suspension) (f' : Fleet) :
  insert_suspension d reason b f = Some (s, f') ->
  active_suspension d f' = Some s /\ su_reason s = reason /\ fl_rows f' = fl_rows f.
Proof.
  unfold insert_suspension. destruct (active_suspension d f) eqn:E; [done|]. intros H. injection H as <- <-.
  split; [|done]. unfold active_suspension in *. cbn. rewrite find_app by done. cbn. by rewrite Z.eqb_refl.
Qed.

Lemma deactivate_deactivates (d now : Z) (f f' : Fleet) : execute_deactivate d now f = Ok f' -> gone d f'.
Proof.
  intros H. unfold execute_deactivate in H. destruct (fl_rows f !! d) as [r|] eqn:Er; [|done].
  set (b := match active_suspension d f with Some s => _ | None => false end) in H. destruct b; [done|].
  apply res_bind_ok in H as ([s f1] & H & Hf). injection Hf as <-.
  destruct (insert_suspension _ _ _ _) as [[x y]|] eqn:E; [|done]. injection H as -> ->.
  destruct (insert_active _ _ _ _ _ _ E) as (Ha & Hr & Hrow). split; [by exists s|]. cbn. rewrite Hrow.
  - destruct (active_suspension d f); cbn; rewrite lookup_alter_eq, Er; by eexists.
Qed.

(** ** The patch of the console, step by step *)

(** A request of [update_kyc_status_admin] that has read its driver: the row as it was, the
    first number not yet handed out then, and whether the checks have passed. *)
Record Patch := {
  pa_driver : Z;
  pa_row : DriverRow;
  pa_approved : option bool;
  pa_status : option string;
  pa_seen : Z;
  pa_checked : bool
}.

Definition passed (p : Patch) : Patch :=
  {| pa_driver := pa_driver p; pa_row := pa_row p; pa_approved := pa_approved p; pa_status := pa_status p;
     pa_seen := pa_seen p; pa_checked := true |}.

(** A patch that was saved: its driver, and the next number when it read and when it wrote.
    Suspensions are numbered from the same counter, so the two say what was opened in
    between. *)
Record Saved := { sv_driver : Z; sv_read : Z; sv_written : Z }.

Record Road := { rd_now : Z; rd_fleet : Fleet; rd_open : list Patch; rd_saved : list Saved }.

(** Every request of [fleet_step], and the three unlocked steps of a patch, of which any
    number may be under way. *)
Inductive road_step (qa : bool) : Road -> Road -> Prop :=
| road_request now f now' f' o l :
    fleet_step qa (now, f) (now', f') ->
    road_step qa {| rd_now := now; rd_fleet := f; rd_open := o; rd_saved := l |}
                 {| rd_now := now'; rd_fleet := f'; rd_open := o; rd_saved := l |}
| road_load now f o l d r approved status :
    fl_rows f !! d = Some r ->
    road_step qa {| rd_now := now; rd_fleet := f; rd_open := o; rd_saved := l |}
                 {| rd_now := now; rd_fleet := f; rd_saved := l;
                    rd_open := {| pa_driver := d; pa_row := r; pa_approved := approved; pa_status := status;
                                  pa_seen := fl_next f; pa_checked := false |} :: o |}
| road_check now f o1 p o2 l today :
    patch_check today (pa_driver p) (pa_row p) (pa_approved p) (pa_status p) f = Ok tt ->
    road_step qa {| rd_now := now; rd_fleet := f; rd_open := o1 ++ p :: o2; rd_saved := l |}
                 {| rd_now := now; rd_fleet := f; rd_open := o1 ++ passed p :: o2; rd_saved := l |}
| road_save now f o1 p o2 l :
    pa_checked p = true ->
    road_step qa {| rd_now := now; rd_fleet := f; rd_open := o1 ++ p :: o2; rd_saved := l |}
                 {| rd_now := now; rd_fleet := patch_save (pa_driver p) (pa_row p) (pa_approved p) (pa_status p) f;
                    rd_open := o1 ++ o2;
                    rd_saved := {| sv_driver := pa_driver p; sv_read := pa_seen p; sv_written := fl_next f |} :: l |}
| road_refuse now f o1 p o2 l :
    road_step qa {| rd_now := now; rd_fleet := f; rd_open := o1 ++ p :: o2; rd_saved := l |}
                 {| rd_now := now; rd_fleet := f; rd_open := o1 ++ o2; rd_saved := l |}.

Definition quiet (now : Z) (f : Fleet) : Road := {| rd_now := now; rd_fleet := f; rd_open := []; rd_saved := [] |}.

(** A patch of the driver read before this suspension was opened and was saved after. *)
Definition overtaken (l : list Saved) (s : Suspension) : Prop :=
  exists v, v ∈ l /\ sv_driver v = su_driver s /\ sv_read v <= su_id s < sv_written v.

(** What a request adds to the active suspensions is numbered from the counter. *)
Definition grows (f f' : Fleet) : Prop :=
  fl_next f <= fl_next f' /\ forall s, s ∈ active_rows f' -> s ∈ active_rows f \/ fl_next f <= su_id s.

Lemma grows_same (f f' : Fleet) : fl_suspensions f' = fl_suspensions f -> fl_next f <= fl_next f' -> grows f f'.
Proof. intros E Hn. split; [done|]. unfold active_rows. rewrite E. by left. Qed.

Lemma grows_lift (i now : Z) (f : Fleet) : grows f (lift_suspension i now f).
Proof. split; [done|]. rewrite active_lift. intros s [Hs _]%elem_of_filter_b. by left. Qed.

Lemma grows_insert (d : Z) (reason : string) (b : bool) (f f' : Fleet) (s : Suspension) :
  insert_suspension d reason b f = Some (s, f') -> grows f f'.
Proof.
  unfold insert_suspension. destruct (active_suspension d f); [done|]. intros H. injection H as <- <-.
  split; [cbn; lia|]. unfold active_rows. cbn. rewrite List.filter_app. cbn.
  intros x [Hx|Hx]%elem_of_app; [by left|]. apply list_elem_of_singleton in Hx as ->. right. done.
Qed.

Lemma grows_trans (f f' f'' : Fleet) : grows f f' -> grows f' f'' -> grows f f''.
Proof. intros [Hn H] [Hn' H']. split; [lia|]. intros s [Hs|Hs]%H'; [by apply H|right; lia]. Qed.

Lemma grows_fatigue (d : Z) (r : DriverRow) (now : Z) (f : Fleet) : grows f (get_fatigue_status d r now f).2.
Proof. unfold get_fatigue_status. repeat case_match; by apply grows_same. Qed.

Lemma request_grows (qa : bool) (x y : Z * Fleet) : fleet_step qa x y -> grows x.2 y.2.
Proof.
  destruct 1; cbn; try by apply grows_same.
  - unfold operator_suspend. destruct (fl_rows f !! d); [|by apply grows_same].
    destruct (active_suspension d f); [by apply grows_same|].
    destruct (insert_suspension _ _ _ f) as [[s f']|] eqn:E; [|by apply grows_same].
    eapply grows_trans; [by eapply grows_insert|by apply grows_same].
  - unfold operator_reinstate. destruct (fl_rows f !! d); [|by apply grows_same].
    destruct (active_suspension d f) as [s|]; [|by apply grows_same].
    destruct (bool_decide _); [by apply grows_same|]. eapply grows_trans; [apply grows_lift|by apply grows_same].
  - unfold execute_deactivate in H. destruct (fl_rows f !! d); [|done].
    set (b := match active_suspension d f with Some s => _ | None => false end) in H. destruct b; [done|].
    apply res_bind_ok in H as ([s f1] & H & Hf). injection Hf as <-.
    destruct (insert_suspension _ _ _ _) as [[x y]|] eqn:E; [|done]. injection H as -> ->.
    apply grows_trans with f1; [|by apply grows_same]. eapply grows_trans; [|by eapply grows_insert].
    destruct (active_suspension d f); [apply grows_lift|by apply grows_same].
  - unfold admin_approve_driver. repeat case_match; by apply grows_same.
  - unfold update_kyc_status_admin in H. destruct (fl_rows f !! d); [|done].
    apply res_bind_ok in H as ([] & _ & H). injection H as <-. by apply grows_same.
  - unfold connect_driver. destruct (negb _); [by apply grows_same|]. unfold active_the_driver. cbn.
    pose proof (grows_fatigue d r now f) as Hf. destruct (get_fatigue_status d r now f) as [st f'].
    destruct (locked st); [done|]. cbn in *. apply grows_trans with f'; [done|]. unfold record_session_start.
    destruct (open_session _ _); apply grows_same; cbn; lia || done.
  - unfold deactive_the_driver, record_session_end. destruct (open_session _ _); by apply grows_same.
  - apply grows_fatigue.
  - unfold apply_cancellation_penalty. cbn. destruct (_ <=? _); apply grows_same; cbn; lia || done.
Qed.

(** What holds of a patch that is under way. *)
Definition patch_ok (f : Fleet) (l : list Saved) (p : Patch) : Prop :=
  pa_seen p <= fl_next f /\
  forall s, s ∈ active_rows f -> su_driver s = pa_driver p -> su_id s < pa_seen p ->
    (dr_approved (pa_row p) = false \/ overtaken l s) /\ (pa_checked p = true -> pa_approved p <> Some true).

Record road_ok (r : Road) : Prop := {
  ro_standing : standing_ok (overtaken (rd_saved r)) (rd_fleet r);
  ro_open : forall p, p ∈ rd_open r -> patch_ok (rd_fleet r) (rd_saved r) p
}.

Lemma overtaken_more (v : Saved) (l : list Saved) (s : Suspension) : overtaken l s -> overtaken (v :: l) s.
Proof. intros (x & Hx & H). exists x. split; [by apply list_elem_of_further|done]. Qed.

Lemma patch_grows (f f' : Fleet) (l l' : list Saved) (p : Patch) :
  grows f f' -> (forall s, overtaken l s -> overtaken l' s) -> patch_ok f l p -> patch_ok f' l' p.
Proof.
  intros [Hn Hg] Hl [Hs Hp]. split; [lia|]. intros s Ha Hd Hi. destruct (Hg s Ha) as [Ha'|]; [|lia].
  destruct (Hp s Ha' Hd Hi) as [[?|?] ?]; auto.
Qed.

Lemma standing_more (l l' : list Saved) (f : Fleet) :
  (forall s, overtaken l s -> overtaken l' s) -> standing_ok (overtaken l) f -> standing_ok (overtaken l') f.
Proof.
  intros Hl [H1 H2 H3 H4]. split; try done. intros s Hs. destruct (H2 s Hs) as (r & Hr & [Ha|Ha]); exists r; auto.
Qed.

(** A save may approve only over suspensions it could not have seen. *)
Lemma save_standing (f : Fleet) (l : list Saved) (p : Patch) :
  standing_ok (overtaken l) f -> patch_ok f l p -> pa_checked p = true ->
  standing_ok (overtaken ({| sv_driver := pa_driver p; sv_read := pa_seen p; sv_written := fl_next f |} :: l))
    (patch_save (pa_driver p) (pa_row p) (pa_approved p) (pa_status p) f).
Proof.
  intros Hst [_ Hp] Hc. eapply standing_more in Hst; [|intros s; apply overtaken_more].
  destruct Hst as [H1 H2 H3 H4]. split; [exact H1| |exact H3|exact H4].
  intros s Hs. destruct (H2 s Hs) as (r & Hr & Ha). cbn.
  destruct (decide (su_driver s = pa_driver p)) as [Hd|Hne]; [|rewrite lookup_alter_ne by done; by exists r].
  rewrite <- Hd, lookup_alter_eq, Hr. eexists. split; [done|].
  destruct (Z.lt_ge_cases (su_id s) (pa_seen p)) as [Hlt|Hge].
  - destruct (Hp s Hs Hd Hlt) as [[Hrow|Hrow] Hnot]; [left|right; by apply overtaken_more].
    destruct (pa_approved p) as [[]|]; [by destruct (Hnot Hc)|done|done].
  - right. eexists. split; [apply list_elem_of_here|]. split; [done|]. cbn. split; [done|].
    apply H4. by apply elem_of_filter_b in Hs as [Hs _].
Qed.

Lemma road_step_ok (qa : bool) (x y : Road) : road_step qa x y -> road_ok x -> road_ok y.
Proof.
  destruct 1 as [now f now' f' o l Hs|now f o l d r approved status Hr|now f o1 p o2 l today Hc|now f o1 p o2 l Hc
    |now f o1 p o2 l]; intros [Hst Hop]; cbn in *.
  - split; cbn; [by apply (standing_step _ qa (now, f) (now', f') Hs)|]. intros p Hp.
    eapply patch_grows; [exact (request_grows qa _ _ Hs)|done|by apply Hop].
  - split; [done|]. cbn. intros p [->|Hp]%elem_of_cons; [|by apply Hop]. split; [done|]. cbn.
    intros s Hs Hd _. split; [|done]. destruct (ok_off _ f Hst s Hs) as (r' & Hr' & Ha).
    rewrite Hd, Hr in Hr'. by injection Hr' as <-.
  - split; [done|]. cbn. intros q [Hq|[->|Hq]%elem_of_cons]%elem_of_app; [apply Hop; set_solver| |apply Hop; set_solver].
    destruct (Hop p) as [Hn Hp]; [set_solver|]. split; [done|]. intros s Hs Hd Hi.
    destruct (Hp s Hs Hd Hi) as [? _]. split; [done|]. cbn. intros _ E. unfold patch_check in Hc. rewrite E in Hc.
    destruct (match pa_status p with Some _ => _ | None => false end); [done|]. destruct (kyc_validate _ _ _); [done|].
    rewrite bool_decide_eq_true_2 in Hc by done. cbn in Hc. case_bool_decide as Hsus; [done|].
    apply (proj1 (active_suspension_none (pa_driver p) f)) with s in Hs; [done|].
    destruct (active_suspension (pa_driver p) f); [|done]. exfalso. by apply Hsus.
  - split; cbn; [apply save_standing; [done|apply Hop; set_solver|done]|]. intros q Hq.
    eapply patch_grows; [by apply (grows_same f)|by intros; apply overtaken_more|]. apply Hop. set_solver.
  - split; [done|]. cbn. intros q Hq. apply Hop. set_solver.
Qed.

Lemma road_reachable (qa : bool) (rows : gmap Z DriverRow) (t0 : Z) (r : Road) :
  rtc (road_step qa) (quiet t0 (fresh rows)) r -> road_ok r.
Proof.
  intros Hr. apply (rtc_invariant (road_step qa) road_ok (road_step_ok qa) _ _ Hr).
  split; [apply standing_fresh|]. intros p Hp. by apply not_elem_of_nil in Hp.
Qed.

(** * Properties *)

(** C40. A suspended driver is off the road: under every interleaving of suspensions,
    reinstatements, deactivations, expiry sweeps, approvals, sockets, fatigue checks and
    cancellations with the separate reads, checks and saves of any number of the console's
    patches, a driver has at most one active suspension, and while one is active the driver
    is not approved, and outside the QA simulation no dispatch list holds them and their
    socket is refused.  The one exception is named: a patch of that driver that had read
    the row before this suspension was opened was saved after it
    ([approval_overwrites_suspension] is such a run). *)
Theorem suspended_is_off_the_road (qa : bool) (rows : gmap Z DriverRow) (t0 : Z) (r : Road) :
  rtc (road_step qa) (quiet t0 (fresh rows)) r ->
  base.NoDup (su_driver <$> active_rows (rd_fleet r)) /\
  forall s, s ∈ active_rows (rd_fleet r) ->
    overtaken (rd_saved r) s \/
    exists row, fl_rows (rd_fleet r) !! su_driver s = Some row /\ dr_approved row = false /\
      (dr_qa row && qa = false ->
         is_dispatchable qa row = false /\ (forall ids, su_driver s ∉ dispatchable_driver_ids qa (rd_fleet r) ids) /\
         forall t, connect_driver qa (su_driver s) row t (rd_fleet r) = (NotEligible, rd_fleet r)).
Proof.
  intros Hr. destruct (road_reachable qa rows t0 r Hr) as [[H1 H2 _ _] _]. split; [done|].
  intros s Hs. destruct (H2 s Hs) as (row & Hrow & [Ha|Ha]); [right|by left].
  exists row. split; [done|]. split; [done|]. intros Hq.
  assert (may_operate qa row = false) as Hm by (unfold may_operate; by rewrite Ha, Hq). split; [|split].
  - unfold is_dispatchable. by rewrite Hm, andb_false_r.
  - intros ids [_ H]%elem_of_filter_b. by rewrite Hrow, Hm, andb_false_r in H.
  - intros t. unfold connect_driver. by rewrite Hm.
Qed.

Definition demo_papers : Papers := {|
  full_name := "Asha Rao"; license_doc := true; license_expiry := Some 21000; rc_doc := true;
  vehicle_expiries := [Some 21000; None; None; None] |}.

Definition demo_driver_row : DriverRow := {|
  dr_user := 109; dr_user_active := true; dr_approved := true; dr_qa := false; dr_status := "off";
  dr_doc_status := "approved"; dr_vehicle := Some 5; dr_papers := demo_papers; dr_lockout := None;
  dr_trips := 0; dr_ratings := Dec 450 (-2) |}.

Definition demo_fleet : Fleet := fresh {[ 9 := demo_driver_row ]}.

Definition demo_suspended : Fleet := (operator_suspend 9 "conduct" demo_fleet).2.

(** A patch was read, the driver is suspended, and the patch has not been saved. *)
Definition demo_road : Road :=
  {| rd_now := 0; rd_fleet := demo_suspended; rd_saved := [];
     rd_open := [{| pa_driver := 9; pa_row := demo_driver_row; pa_approved := None; pa_status := Some "off";
                    pa_seen := 1; pa_checked := false |}] |}.

Lemma suspended_is_off_the_road_witness :
  (su_driver <$> active_rows (rd_fleet demo_road)) = [9] /\
  forall s, s ∈ active_rows (rd_fleet demo_road) ->
    exists row, fl_rows (rd_fleet demo_road) !! su_driver s = Some row /\ dr_approved row = false.
Proof.
  split; [vm_compute; reflexivity|].
  destruct (suspended_is_off_the_road false {[ 9 := demo_driver_row ]} 0 demo_road) as [_ H].
  - eapply rtc_l; [apply (road_load false 0 demo_fleet [] [] 9 demo_driver_row None (Some "off")); vm_compute; reflexivity|].
    apply rtc_once. apply road_request. apply (step_suspend false 0 demo_fleet 9 "conduct").
  - intros s Hs. destruct (H s Hs) as [(v & Hv & _)|(row & Hr & Ha & _)]; [by apply not_elem_of_nil in Hv|].
    exists row. split; [exact Hr|exact Ha].
Defined.

(** The fatigue cap counts each second once: whatever sockets open and close, in any
    order, a driver's counted time is between zero and the 24 hours of the window, so the
    gate answers between zero and 720 minutes left, and refuses exactly when a lockout is
    running or 12 hours are counted. *)
Theorem fatigue_counts_each_second_once (qa : bool) (rows : gmap Z DriverRow) (t0 now d : Z) (r : DriverRow) (f : Fleet) :
  rtc (fleet_step qa) (t0, fresh rows) (now, f) ->
  let st := (get_fatigue_status d r now f).1 in
  0 <= active_seconds_24h st <= FATIGUE_WINDOW_SECONDS /\
  0 <= minutes_until_cap st <= 720 /\
  (locked st = false <-> (forall u, dr_lockout r = Some u -> u <= now) /\ active_seconds_24h st < FATIGUE_CAP_SECONDS).
Proof.
  intros Hr st. pose proof (active_bounds now d f (sessions_reachable qa rows t0 now f Hr)) as Hb.
  unfold st, get_fatigue_status. destruct (dr_lockout r) as [u|].
  - destruct (Z.ltb_spec now u) as [Hl|Hl]; cbn [fst active_seconds_24h minutes_until_cap locked].
    + split; [done|]. split; [lia|]. split; [done|]. intros [Hu _]. specialize (Hu u eq_refl). lia.
    + destruct (Z.leb_spec FATIGUE_CAP_SECONDS (compute_active_seconds_24h d now f)) as [Hc|Hc];
        cbn [fst active_seconds_24h minutes_until_cap locked]; (split; [done|]).
      * split; [lia|]. split; [done|]. intros [_ H]. lia.
      * split; [|split; [intros _; split; [intros u' E; injection E as <-; lia|lia]|done]].
        unfold FATIGUE_CAP_SECONDS in *. Z.to_euclidean_division_equations. lia.
  - destruct (Z.leb_spec FATIGUE_CAP_SECONDS (compute_active_seconds_24h d now f)) as [Hc|Hc];
      cbn [fst active_seconds_24h minutes_until_cap locked]; (split; [done|]).
    + split; [lia|]. split; [done|]. intros [_ H]. lia.
    + split; [|split; [intros _; split; [done|lia]|done]].
      unfold FATIGUE_CAP_SECONDS in *. Z.to_euclidean_division_equations. lia.
Qed.

Definition demo_online : Fleet := (connect_driver false 9 demo_driver_row 0 demo_fleet).2.

Lemma fatigue_counts_each_second_once_witness :
  0 <= compute_active_seconds_24h 9 (13 * 3600 * SECOND) demo_online <= FATIGUE_WINDOW_SECONDS /\
  compute_active_seconds_24h 9 (13 * 3600 * SECOND) demo_online = 13 * 3600.
Proof.
  split; [|vm_compute; reflexivity].
  apply (fatigue_counts_each_second_once false {[ 9 := demo_driver_row ]} 0 (13 * 3600 * SECOND) 9 demo_driver_row demo_online).
  eapply rtc_l; [apply (step_connect false 0 demo_fleet 9 demo_driver_row); reflexivity|].
  apply rtc_once. apply (step_tick false 0 (13 * 3600 * SECOND)). unfold SECOND. lia.
Defined.

(** The third cancellation in 24 hours locks the driver out: the gate refuses them for the
    following hour, whatever else any operator, socket or sweep does to them meanwhile. *)
Theorem third_cancel_locks_out (qa : bool) (d trip now now' : Z) (reason note : string) (r r' : DriverRow) (f f' : Fleet) :
  fl_rows f !! d = Some r -> 2 <= recent_cancels d (now - CANCEL_WINDOW_SECONDS * SECOND) (fl_cancels f) ->
  rtc (fleet_step qa) (now, (apply_cancellation_penalty d r trip reason note now f).2) (now', f') ->
  now' < now + 3600 * SECOND -> fl_rows f' !! d = Some r' ->
  penalty_locked (apply_cancellation_penalty d r trip reason note now f).1 = true /\
  is_locked_out d r' now' f' = true /\ (active_the_driver d r' now' f').1 = false.
Proof.
  intros Hr Hn Hs Hlt Hr'.
  assert (CANCEL_PENALTY_THRESHOLD <= recent_cancels d (now - CANCEL_WINDOW_SECONDS * SECOND)
    (fl_cancels f ++ [{| dc_driver := d; dc_trip := trip; dc_reason := reason; dc_note := note; dc_created := now |}])) as H3.
  { unfold recent_cancels in *. rewrite List.filter_app, length_app. cbn. rewrite Z.eqb_refl.
    rewrite (proj2 (Z.leb_le _ _)) by (unfold CANCEL_WINDOW_SECONDS, SECOND; lia). cbn. unfold CANCEL_PENALTY_THRESHOLD. lia. }
  assert (penalty_locked (apply_cancellation_penalty d r trip reason note now f).1 = true /\
    locked_to (now + 3600 * SECOND) d (apply_cancellation_penalty d r trip reason note now f).2) as [Hp Hl].
  { unfold apply_cancellation_penalty. cbn [fl_cancels set_cancels]. rewrite (proj2 (Z.leb_le _ _) H3). cbn. split; [done|].
    unfold locked_to. cbn. rewrite lookup_alter_eq, Hr. cbn.
    destruct (dr_lockout r) as [u|]; [destruct (Z.ltb_spec u (now + CANCEL_LOCKOUT_SECONDS * SECOND))|];
      (eexists _, _; split; [done|]; split; [done|]; unfold CANCEL_LOCKOUT_SECONDS in *; lia). }
  assert (locked_to (now + 3600 * SECOND) d f') as Hl'.
  { apply (rtc_invariant (fleet_step qa) (fun x => locked_to (now + 3600 * SECOND) d x.2) (locked_step qa _ d) _ _ Hs Hl). }
  pose proof (locked_out_before _ d now' r' f' Hl' Hr' Hlt) as Ho. split; [done|]. split; [done|].
  unfold is_locked_out in Ho. unfold active_the_driver. destruct (get_fatigue_status d r' now' f') as [st g].
  cbn in Ho. by rewrite Ho.
Qed.

Definition demo_two_cancels : Fleet :=
  set_cancels [{| dc_driver := 9; dc_trip := 1; dc_reason := "other"; dc_note := EmptyString; dc_created := 0 |};
               {| dc_driver := 9; dc_trip := 2; dc_reason := "other"; dc_note := EmptyString; dc_created := 0 |}] demo_fleet.

Definition demo_third : Fleet := (apply_cancellation_penalty 9 demo_driver_row 3 "personal" EmptyString SECOND demo_two_cancels).2.

Lemma third_cancel_locks_out_witness :
  exists r', fl_rows demo_third !! 9 = Some r' /\ dr_ratings r' = Dec 440 (-2) /\ is_locked_out 9 r' SECOND demo_third = true.
Proof.
  eexists. split; [vm_compute; reflexivity|]. split; [reflexivity|].
  eapply (third_cancel_locks_out false 9 3 SECOND SECOND "personal" EmptyString demo_driver_row _ demo_two_cancels demo_third).
  - reflexivity.
  - vm_compute. discriminate.
  - apply rtc_refl.
  - unfold SECOND. lia.
  - vm_compute. reflexivity.
Defined.

(** Deactivation is permanent: once it has run, no operation of [fleet_step] (a patch of the
    console included, when it runs uninterrupted) approves the driver, lifts the suspension
    or opens the account again. *)
Theorem deactivation_is_permanent (qa : bool) (rows : gmap Z DriverRow) (t0 now now' d : Z) (f f1 f' : Fleet) :
  rtc (fleet_step qa) (t0, fresh rows) (now, f) -> execute_deactivate d now f = Ok f1 ->
  rtc (fleet_step qa) (now, f1) (now', f') ->
  exists s r, active_suspension d f' = Some s /\ su_reason s = "deactivated"%string /\
    fl_rows f' !! d = Some r /\ dr_approved r = false /\ dr_user_active r = false.
Proof.
  intros H0 Hd Hs. pose proof (standing_deactivate _ d now f f1 (standing_reachable qa rows t0 now f H0) Hd) as Hok.
  assert (standing_strict f' /\ gone d f') as [Hok' [(s & Hs' & Hr) (r & Hrow & Ha)]].
  { apply (rtc_invariant (fleet_step qa) (fun x => standing_strict x.2 /\ gone d x.2)) with (x := (now, f1)) (y := (now', f')).
    - intros x y Hxy [H1 H2]. split; [by eapply standing_step|by eapply deactivated_step].
    - done.
    - split; [done|by eapply deactivate_deactivates]. }
  destruct (active_suspension_some d f' s Hs') as [Hin Hsd]. destruct (ok_off _ f' Hok' s Hin) as (r' & Hr' & [Happ|[]]).
  rewrite Hsd, Hrow in Hr'. injection Hr' as <-. by exists s, r.
Qed.

Definition demo_gone : Fleet := match execute_deactivate 9 0 demo_fleet with Ok f => f | Err _ => demo_fleet end.

Lemma deactivation_is_permanent_witness :
  exists s r, active_suspension 9 demo_gone = Some s /\ su_reason s = "deactivated"%string /\
    fl_rows demo_gone !! 9 = Some r /\ dr_approved r = false /\ dr_user_active r = false.
Proof.
  apply (deactivation_is_permanent false {[ 9 := demo_driver_row ]} 0 0 0 9 demo_fleet demo_gone demo_gone).
  - apply rtc_refl.
  - vm_compute. reflexivity.
  - apply rtc_refl.
Defined.

(** Approval can lift a suspension it was meant to respect: [update_kyc_status_admin] checks
    for a suspension and then writes every column of the driver it loaded before, with no
    lock, so a suspension that commits in between is overwritten: it stays on record as
    active while the driver is approved again with their old status. *)
Theorem approval_overwrites_suspension (d today : Z) (reason : string) (r : DriverRow) (f : Fleet) :
  fl_rows f !! d = Some r -> patch_check today d r (Some true) None f = Ok tt ->
  let f1 := (operator_suspend d reason f).2 in
  let f2 := patch_save d r (Some true) None f1 in
  is_Some (active_suspension d f1) /\ is_Some (active_suspension d f2) /\
  exists r2, fl_rows f2 !! d = Some r2 /\ dr_status r2 = dr_status r /\ forall qa, may_operate qa r2 = true.
Proof.
  intros Hr Hc. assert (active_suspension d f = None) as Hn.
  { unfold patch_check in Hc. destruct (kyc_validate today r (Some true)); [done|]. cbn in Hc.
    destruct (bool_decide_reflect (is_Some (active_suspension d f))) as [|H]; [done|].
    destruct (active_suspension d f); [|done]. exfalso. by apply H. }
  intros f1 f2. subst f1 f2. unfold operator_suspend. rewrite Hr, Hn.
  destruct (insert_suspension d reason (dr_approved r) f) as [[s f']|] eqn:E;
    [|unfold insert_suspension in E; by rewrite Hn in E].
  destruct (insert_active _ _ _ _ _ _ E) as (Ha & _ & Hrow). cbn [snd].
  unfold patch_save, active_suspension, update_row in *. cbn. rewrite Ha. split; [by eexists|]. split; [by eexists|].
  rewrite lookup_alter_eq, lookup_alter_eq, Hrow, Hr. cbn. eexists. split; [done|]. split; [done|]. done.
Qed.

Lemma approval_overwrites_suspension_witness :
  exists f2 r2, is_Some (active_suspension 9 f2) /\ fl_rows f2 !! 9 = Some r2 /\ may_operate false r2 = true /\
    f2 = patch_save 9 demo_driver_row (Some true) None (operator_suspend 9 "fraud" demo_fleet).2.
Proof.
  destruct (approval_overwrites_suspension 9 20000 "fraud" demo_driver_row demo_fleet) as (_ & H & r2 & Hr & _ & Hm);
    [reflexivity|vm_compute; reflexivity|].
  eexists _, r2. split; [exact H|]. split; [exact Hr|]. split; [apply Hm|reflexivity].
Defined.

(** Connecting lifts the block of a QA test driver: the socket writes the status "online" over
    "blocked", and the status was the only thing that kept a suspended test driver out of
    dispatch. *)
Lemma connect_lifts_qa_block (d now : Z) (r : DriverRow) (f : Fleet) :
  fl_rows f !! d = Some r -> dr_qa r = true -> dr_status r = "blocked"%string ->
  locked (get_fatigue_status d r now f).1 = false ->
  is_dispatchable true r = false /\
  exists r', fl_rows (connect_driver true d r now f).2 !! d = Some r' /\ is_dispatchable true r' = true.
Proof.
  intros Hr Hq Hb Hl. split; [unfold is_dispatchable, is_blocked; by rewrite Hb|].
  unfold connect_driver. assert (may_operate true r = true) as -> by (unfold may_operate; by rewrite Hq, orb_true_r).
  unfold active_the_driver, get_fatigue_status in *. cbn.
  destruct (match dr_lockout r with Some _ => _ | None => _ end); [done|]. destruct (_ <=? _); [done|]. cbn.
  unfold record_session_start. exists (with_driver_status "online" r). split.
  - destruct (open_session d _); cbn; by rewrite lookup_alter_eq, Hr.
  - unfold is_dispatchable, is_blocked, may_operate. cbn. by rewrite Hq, orb_true_r.
Qed.

(** A locked-out driver connects all the same: the refusal of [_active_the_driver] is dropped. *)
Lemma locked_out_driver_connects (qa : bool) (d now u : Z) (r : DriverRow) (f : Fleet) :
  may_operate qa r = true -> dr_lockout r = Some u -> now < u -> connect_driver qa d r now f = (Connected, f).
Proof.
  intros Hm Hu Hn. unfold connect_driver. rewrite Hm. unfold active_the_driver, get_fatigue_status. cbn.
  rewrite Hu, (proj2 (Z.ltb_lt _ _) Hn). done.
Qed.

(** A reconnection hides driving time: the new socket finds the session open, the old
    socket's disconnect closes it, and nothing after that is counted: 14 hours later the gate
    sees two minutes. *)
Lemma reconnect_hides_driving_time :
  let f1 := (connect_driver false 9 demo_driver_row 0 demo_fleet).2 in
  let f2 := (connect_driver false 9 demo_driver_row (60 * SECOND) f1).2 in
  let f3 := deactive_the_driver 9 (120 * SECOND) f2 in
  let st := (get_fatigue_status 9 demo_driver_row (14 * 3600 * SECOND) f3).1 in
  active_seconds_24h st = 120 /\ locked st = false.
Proof. split; vm_compute; reflexivity. Qed.
