(* ===== verification/Trips.v ===== *)
(** * Trips: the life of a ride

    Models booking, dispatch acceptance and the trip state machine: [_create_trip],
    [_accept_trip], [_update_trip_status], [_confirm_cash_payment] and the command ladder of
    [TripStatusConsumer.receive] in [servers/consumers.py]; the cancellations of
    [servers/ride/views.py], [servers/ride/tasks.py] and [servers/ride/admin_trips.py];
    the payment written at completion and the refund of a cancelled trip in
    [servers/ride/utils.py]; and [wallet_payment] of [base/utils.py].

    A [World] is the money tables of Store, the drivers of Drivers, the trips and their
    payments.  Every operation is one database transaction on it; the row locks the code
    takes are what makes that faithful.  What a gateway or the database answers is an
    argument: [gateway_answer] of [create_refund], and [commit], whether the transaction
    commits.  Pushes, notices, sockets and the Redis copies are left out. *)

From S2P Require Import Prelude PyDecimal PyText Countries Models Money Commission Zones PromoTax Alerts Store.
From S2P Require Import Promos Settlement Drivers.
#[local] Open Scope string_scope.
#[local] Open Scope list_scope.
#[local] Open Scope Z_scope.

(** ** Rows *)

Inductive trip_status := TRequested | TAccepted | TReached | TInProgress | TCompleted | TCancelled.

#[global] Instance trip_status_eq_dec : EqDecision trip_status.
Proof. solve_decision. Defined.

(** A trip: the columns of Models.Trip and those only its life cycle reads or writes. *)
Record LiveTrip := {
  lt_trip : Trip;
  lt_status : trip_status;
  lt_vehicle : option Z;
  lt_otp : option string;
  accepted_at : option Z;
  reached_at : option Z;
  trip_started_at : option Z;
  completed_at : option Z;
  cancelled_at : option Z;
  cancelled_by : string;
  cancellation_reason : string;
  cancellation_fee : Z;
  payment_status : option string;
  client_request_id : option string
}.

Definition lt_driver (t : LiveTrip) : option Z := trip_driver (lt_trip t).
Definition lt_rider (t : LiveTrip) : Z := trip_rider (lt_trip t).

Inductive pay_status := PayPending | PayProcessing | PayCompleted | PayFailed | PayRefunded.

#[global] Instance pay_status_eq_dec : EqDecision pay_status.
Proof. solve_decision. Defined.

(** What became of a late capture: [PaymentOrder.REFUND_CHOICES]. *)
Inductive late_state := REFUND_NONE | REFUND_PENDING | REFUND_DONE | REFUND_MANUAL.

#[global] Instance late_state_eq_dec : EqDecision late_state.
Proof. solve_decision. Defined.

(** [Payment]; [pm_late] is the note [late_paid] keeps in the metadata: the gateway and the
    state of the refund. *)
Record PaymentRow := {
  pm_id : Z; pm_trip : Z; pm_user : Z; pm_amount : Z; pm_method : string; pm_currency : string;
  pm_status : pay_status; pm_gateway : string; pm_gateway_payment : option string;
  pm_order : option string; pm_cf_order : option string; pm_cf_payment : option string;
  pm_replaced_by : option Z; pm_late : option (string * late_state); pm_created : Z
}.

(** [PaymentOrder]. *)
Record OrderRow := {
  po_id : Z; po_payment : Z; po_order : string; po_provider : string;
  po_late_payment : string; po_late_refund : late_state; po_refund_id : string
}.

Inductive action_kind := REFUND | ADJUSTMENT.

#[global] Instance action_kind_eq_dec : EqDecision action_kind.
Proof. solve_decision. Defined.

Inductive action_status := ACT_COMPLETED | ACT_PENDING_GATEWAY | ACT_RECORDED.

#[global] Instance action_status_eq_dec : EqDecision action_status.
Proof. solve_decision. Defined.

(** [TripMoneyAction]. *)
Record MoneyAction := {
  ma_trip : Z; ma_kind : action_kind; ma_amount : Z; ma_currency : string; ma_method : string;
  ma_status : action_status
}.

(** A row of [TransactionHistory] the payment code writes, with its type. *)
Record RiderHistory := {
  rh_trip : Z; rh_rider : Z; rh_driver : Z; rh_amount : Z; rh_currency : string; rh_method : string;
  rh_gateway_payment : option string; rh_kind : string
}.

(** A refund the payment provider has accepted: nothing in the database can undo it. *)
Record GatewayRefund := { gr_payment : string; gr_amount : Z; gr_currency : string }.

Record World := {
  w_db : Db;
  w_fleet : Fleet;
  w_trips : gmap Z LiveTrip;
  w_next : Z;
  w_payments : list PaymentRow;
  w_actions : list MoneyAction;
  w_paid : list RiderHistory;
  w_refunds : list GatewayRefund;
  w_attempts : gmap Z (Z * Z);
  w_orders : list OrderRow
}.

Definition with_db (db : Db) (w : World) : World :=
  {| w_db := db; w_fleet := w_fleet w; w_trips := w_trips w; w_next := w_next w; w_payments := w_payments w;
     w_actions := w_actions w; w_paid := w_paid w; w_refunds := w_refunds w; w_attempts := w_attempts w;
     w_orders := w_orders w |}.

Definition set_fleet (f : Fleet) (w : World) : World :=
  {| w_db := w_db w; w_fleet := f; w_trips := w_trips w; w_next := w_next w; w_payments := w_payments w;
     w_actions := w_actions w; w_paid := w_paid w; w_refunds := w_refunds w; w_attempts := w_attempts w;
     w_orders := w_orders w |}.

Definition set_trips (n : Z) (m : gmap Z LiveTrip) (w : World) : World :=
  {| w_db := w_db w; w_fleet := w_fleet w; w_trips := m; w_next := n; w_payments := w_payments w;
     w_actions := w_actions w; w_paid := w_paid w; w_refunds := w_refunds w; w_attempts := w_attempts w;
     w_orders := w_orders w |}.

Definition set_payments (l : list PaymentRow) (w : World) : World :=
  {| w_db := w_db w; w_fleet := w_fleet w; w_trips := w_trips w; w_next := w_next w; w_payments := l;
     w_actions := w_actions w; w_paid := w_paid w; w_refunds := w_refunds w; w_attempts := w_attempts w;
     w_orders := w_orders w |}.

Definition set_actions (l : list MoneyAction) (w : World) : World :=
  {| w_db := w_db w; w_fleet := w_fleet w; w_trips := w_trips w; w_next := w_next w; w_payments := w_payments w;
     w_actions := l; w_paid := w_paid w; w_refunds := w_refunds w; w_attempts := w_attempts w;
     w_orders := w_orders w |}.

Definition set_paid (l : list RiderHistory) (w : World) : World :=
  {| w_db := w_db w; w_fleet := w_fleet w; w_trips := w_trips w; w_next := w_next w; w_payments := w_payments w;
     w_actions := w_actions w; w_paid := l; w_refunds := w_refunds w; w_attempts := w_attempts w;
     w_orders := w_orders w |}.

Definition set_refunds (l : list GatewayRefund) (w : World) : World :=
  {| w_db := w_db w; w_fleet := w_fleet w; w_trips := w_trips w; w_next := w_next w; w_payments := w_payments w;
     w_actions := w_actions w; w_paid := w_paid w; w_refunds := l; w_attempts := w_attempts w;
     w_orders := w_orders w |}.

Definition set_attempts (m : gmap Z (Z * Z)) (w : World) : World :=
  {| w_db := w_db w; w_fleet := w_fleet w; w_trips := w_trips w; w_next := w_next w; w_payments := w_payments w;
     w_actions := w_actions w; w_paid := w_paid w; w_refunds := w_refunds w; w_attempts := m;
     w_orders := w_orders w |}.

Definition set_orders (l : list OrderRow) (w : World) : World :=
  {| w_db := w_db w; w_fleet := w_fleet w; w_trips := w_trips w; w_next := w_next w; w_payments := w_payments w;
     w_actions := w_actions w; w_paid := w_paid w; w_refunds := w_refunds w; w_attempts := w_attempts w;
     w_orders := l |}.

Definition now (w : World) : Z := clock (w_db w).

Definition save_trip (i : Z) (t : LiveTrip) (w : World) : World := set_trips (w_next w) (<[i := t]> (w_trips w)) w.

(** What the operations read and never write: the settlement and promotion tables, whether
    QA simulation is honoured, the rewards held for review on a rider's wallet, and the name
    of a country's payment provider. *)
Record TripEnv := {
  te_settle : SettleEnv;
  te_promo : PromoEnv;
  te_qa : bool;
  te_held : Z -> string -> Z;
  te_provider : Trip -> string
}.

(** ** Writing columns of a trip *)

Definition with_trip_status (s : trip_status) (t : LiveTrip) : LiveTrip :=
  {| lt_trip := lt_trip t; lt_status := s; lt_vehicle := lt_vehicle t; lt_otp := lt_otp t;
     accepted_at := accepted_at t; reached_at := reached_at t; trip_started_at := trip_started_at t;
     completed_at := completed_at t; cancelled_at := cancelled_at t; cancelled_by := cancelled_by t;
     cancellation_reason := cancellation_reason t; cancellation_fee := cancellation_fee t;
     payment_status := payment_status t; client_request_id := client_request_id t |}.

(** The stamps of [_update_trip_status]. *)
Definition stamped_reached (at_ : Z) (t : LiveTrip) : LiveTrip :=
  {| lt_trip := lt_trip t; lt_status := TReached; lt_vehicle := lt_vehicle t; lt_otp := lt_otp t;
     accepted_at := accepted_at t; reached_at := Some at_; trip_started_at := trip_started_at t;
     completed_at := completed_at t; cancelled_at := cancelled_at t; cancelled_by := cancelled_by t;
     cancellation_reason := cancellation_reason t; cancellation_fee := cancellation_fee t;
     payment_status := payment_status t; client_request_id := client_request_id t |}.

Definition stamped_started (at_ : Z) (t : LiveTrip) : LiveTrip :=
  {| lt_trip := lt_trip t; lt_status := TInProgress; lt_vehicle := lt_vehicle t; lt_otp := lt_otp t;
     accepted_at := accepted_at t; reached_at := reached_at t; trip_started_at := Some at_;
     completed_at := completed_at t; cancelled_at := cancelled_at t; cancelled_by := cancelled_by t;
     cancellation_reason := cancellation_reason t; cancellation_fee := cancellation_fee t;
     payment_status := payment_status t; client_request_id := client_request_id t |}.

Definition stamped_completed (at_ : Z) (t : LiveTrip) : LiveTrip :=
  {| lt_trip := lt_trip t; lt_status := TCompleted; lt_vehicle := lt_vehicle t; lt_otp := lt_otp t;
     accepted_at := accepted_at t; reached_at := reached_at t; trip_started_at := trip_started_at t;
     completed_at := Some at_; cancelled_at := cancelled_at t; cancelled_by := cancelled_by t;
     cancellation_reason := cancellation_reason t; cancellation_fee := cancellation_fee t;
     payment_status := payment_status t; client_request_id := client_request_id t |}.

Definition stamped_cancelled (at_ : Z) (by_ reason : string) (t : LiveTrip) : LiveTrip :=
  {| lt_trip := lt_trip t; lt_status := TCancelled; lt_vehicle := lt_vehicle t; lt_otp := lt_otp t;
     accepted_at := accepted_at t; reached_at := reached_at t; trip_started_at := trip_started_at t;
     completed_at := completed_at t; cancelled_at := Some at_; cancelled_by := by_;
     cancellation_reason := reason; cancellation_fee := cancellation_fee t;
     payment_status := payment_status t; client_request_id := client_request_id t |}.

Definition with_payment_status (s : string) (t : LiveTrip) : LiveTrip :=
  {| lt_trip := lt_trip t; lt_status := lt_status t; lt_vehicle := lt_vehicle t; lt_otp := lt_otp t;
     accepted_at := accepted_at t; reached_at := reached_at t; trip_started_at := trip_started_at t;
     completed_at := completed_at t; cancelled_at := cancelled_at t; cancelled_by := cancelled_by t;
     cancellation_reason := cancellation_reason t; cancellation_fee := cancellation_fee t;
     payment_status := Some s; client_request_id := client_request_id t |}.

Definition with_fee (fee : Z) (t : LiveTrip) : LiveTrip :=
  {| lt_trip := lt_trip t; lt_status := lt_status t; lt_vehicle := lt_vehicle t; lt_otp := lt_otp t;
     accepted_at := accepted_at t; reached_at := reached_at t; trip_started_at := trip_started_at t;
     completed_at := completed_at t; cancelled_at := cancelled_at t; cancelled_by := cancelled_by t;
     cancellation_reason := cancellation_reason t; cancellation_fee := fee;
     payment_status := payment_status t; client_request_id := client_request_id t |}.

(** What the payment screens move on a trip. *)
Definition paid_by (m : option payment) (ps : option string) (t : LiveTrip) : LiveTrip :=
  let r := lt_trip t in
  {| lt_trip := {| trip_id := trip_id r; trip_rider := trip_rider r; trip_driver := trip_driver r; trip_zone := trip_zone r;
       trip_pickup := trip_pickup r; trip_vehicle_type := trip_vehicle_type r; trip_vehicle_vt := trip_vehicle_vt r;
       trip_requested_at := trip_requested_at r; trip_currency := trip_currency r;
       estimated_fare_minor := estimated_fare_minor r; final_fare_minor := final_fare_minor r; payment_method := m;
       end_rule := end_rule r; commission_percent_snapshot := commission_percent_snapshot r;
       commission_rule_id := commission_rule_id r; commission_rule_version := commission_rule_version r |};
     lt_status := lt_status t; lt_vehicle := lt_vehicle t; lt_otp := lt_otp t; accepted_at := accepted_at t;
     reached_at := reached_at t; trip_started_at := trip_started_at t; completed_at := completed_at t;
     cancelled_at := cancelled_at t; cancelled_by := cancelled_by t; cancellation_reason := cancellation_reason t;
     cancellation_fee := cancellation_fee t; payment_status := ps; client_request_id := client_request_id t |}.

(** The columns of a booking and of an assignment. *)
Definition booked_as (i rider at_ : Z) (t : Trip) : Trip :=
  {| trip_id := i; trip_rider := rider; trip_driver := None; trip_zone := trip_zone t;
     trip_pickup := trip_pickup t; trip_vehicle_type := trip_vehicle_type t; trip_vehicle_vt := trip_vehicle_vt t;
     trip_requested_at := at_; trip_currency := trip_currency t; estimated_fare_minor := estimated_fare_minor t;
     final_fare_minor := None; payment_method := payment_method t; end_rule := EmptyString;
     commission_percent_snapshot := commission_percent_snapshot t; commission_rule_id := commission_rule_id t;
     commission_rule_version := commission_rule_version t |}.

Definition driven_by (d : Z) (t : Trip) : Trip :=
  {| trip_id := trip_id t; trip_rider := trip_rider t; trip_driver := Some d; trip_zone := trip_zone t;
     trip_pickup := trip_pickup t; trip_vehicle_type := trip_vehicle_type t; trip_vehicle_vt := trip_vehicle_vt t;
     trip_requested_at := trip_requested_at t; trip_currency := trip_currency t;
     estimated_fare_minor := estimated_fare_minor t; final_fare_minor := final_fare_minor t;
     payment_method := payment_method t; end_rule := end_rule t;
     commission_percent_snapshot := commission_percent_snapshot t; commission_rule_id := commission_rule_id t;
     commission_rule_version := commission_rule_version t |}.

Definition assigned (d : Z) (vehicle : option Z) (otp : string) (at_ : Z) (t : LiveTrip) : LiveTrip :=
  {| lt_trip := driven_by d (lt_trip t); lt_status := TAccepted; lt_vehicle := vehicle; lt_otp := Some otp;
     accepted_at := Some at_; reached_at := reached_at t; trip_started_at := trip_started_at t;
     completed_at := completed_at t; cancelled_at := cancelled_at t; cancelled_by := cancelled_by t;
     cancellation_reason := cancellation_reason t; cancellation_fee := cancellation_fee t;
     payment_status := payment_status t; client_request_id := client_request_id t |}.

(** ** Answers *)

Inductive cmd_error :=
| TripNotFound
| AlreadyAccepted
| NoLongerAvailable (s : trip_status)
| NoDriverProfile
| ProfileNotApproved
| AccountBlocked
| NoActiveVehicle
| FatigueLocked
| AlreadyOnRide
| InvalidTransition (from to : trip_status)
| TripIsAlready (s : trip_status)
| InvalidOtp
| NotCompleted (s : trip_status)
| AlreadyPaid
| NoCashPayment
| NoLongerCash
| Raised (e : option db_error).

Inductive cmd_result :=
| Success (message : string)
| Taken (e : cmd_error)
| Failure (reason : option string) (current : option trip_status) (e : cmd_error).

Definition succeeded (r : cmd_result) : bool := match r with Success _ => true | _ => false end.

(** ['OTP' in error]: the one sentence that says it. *)
Definition mentions_otp (r : cmd_result) : bool := match r with Failure _ _ InvalidOtp => true | _ => false end.

(** ** Booking *)

Definition find_booking (rider : Z) (key : string) (w : World) : option Z :=
  fst <$> List.find (fun '(_, t) => (lt_rider t =? rider) && bool_decide (client_request_id t = Some key))
            (map_to_list (w_trips w)).

Inductive booking := Booked (i : Z) | Reused (i : Z) | BookingRefused (code : string) | BookingFailed.

(** [client_request_id or None] *)
Definition given_key (key : option string) : option string := if truthy key then key else None.

(** The insertion: [trip_unique_client_request_per_rider] refuses a second trip with the key,
    and the handler answers the first; the promotion is part of the transaction. *)
Definition insert_trip (env : TripEnv) (rider : Z) (key : option string) (body : Trip) (code : option string)
    (fare : dec) (tax : tax_arg) (w : World) : booking * World :=
  match (k ← given_key key; find_booking rider k w) with
  | Some i => (Reused i, w)
  | None =>
    let i := w_next w in
    match book (te_promo env) code rider (booked_as i rider (now w) body) fare (trip_zone body) tax (w_db w) with
    | Err (Refused why) => (BookingRefused why, w)
    | Err _ => (BookingFailed, w)
    | Ok (_, t, db) =>
      (Booked i, set_trips (i + 1) (<[i := {| lt_trip := t; lt_status := TRequested; lt_vehicle := None; lt_otp := None;
         accepted_at := None; reached_at := None; trip_started_at := None; completed_at := None; cancelled_at := None;
         cancelled_by := EmptyString; cancellation_reason := EmptyString; cancellation_fee := 0; payment_status := None;
         client_request_id := given_key key |}]> (w_trips w)) (with_db db w))
    end
  end.

(** [_create_trip] from a validated and priced request: the lookup first, then the insertion. *)
Definition create_trip (env : TripEnv) (rider : Z) (key : option string) (body : Trip) (code : option string)
    (fare : dec) (tax : tax_arg) (w : World) : booking * World :=
  match (k ← given_key key; find_booking rider k w) with
  | Some i => (Reused i, w)
  | None => insert_trip env rider key body code fare tax w
  end.

(** ** Accepting *)

Definition DRIVER_ACTIVE_TRIP_STATUSES : list trip_status := [TAccepted; TReached; TInProgress].

Definition active_for (d : Z) (t : LiveTrip) : bool :=
  bool_decide (lt_driver t = Some d) && bool_decide (lt_status t ∈ DRIVER_ACTIVE_TRIP_STATUSES).

Definition driver_active_trip_ids (d : Z) (exclude : option Z) (w : World) : list Z :=
  fst <$> List.filter (fun '(i, t) => active_for d t && negb (bool_decide (Some i = exclude))) (map_to_list (w_trips w)).

(** [_accept_trip] by the user's driver profile, if any.  A refusal by the fatigue gate still
    commits the lockout it stamped. *)
Definition accept_trip (env : TripEnv) (driver : option Z) (i : Z) (otp : string) (w : World) : cmd_result * World :=
  match w_trips w !! i with
  | None => (Failure None None TripNotFound, w)
  | Some t =>
    if bool_decide (is_Some (lt_driver t)) then (Taken AlreadyAccepted, w)
    else if negb (bool_decide (lt_status t = TRequested)) then (Taken (NoLongerAvailable (lt_status t)), w)
    else match (d ← driver; r ← fl_rows (w_fleet w) !! d; Some (d, r)) with
    | None => (Failure None None NoDriverProfile, w)
    | Some (d, r) =>
      if negb (may_operate (te_qa env) r) then (Failure None None ProfileNotApproved, w)
      else if is_blocked r then (Failure None None AccountBlocked, w)
      else if bool_decide (dr_vehicle r = None) then (Failure None None NoActiveVehicle, w)
      else
        let '(st, f) := get_fatigue_status d r (now w) (w_fleet w) in
        let w := set_fleet f w in
        if locked st then (Failure None None FatigueLocked, w)
        else if negb (bool_decide (driver_active_trip_ids d (Some i) w = []))
        then (Failure (Some "driver_already_on_trip") None AlreadyOnRide, w)
        else (Success "Trip accepted", save_trip i (assigned d (dr_vehicle r) otp (now w) t) w)
    end
  end.

(** ** Paying from the rider's wallet *)

Inductive wallet_result := WalletPaid (duplicate : bool) | WalletRefused.

(** [CurrencyStampedModel.save] of a ledger row about a trip: a blank or default currency gives
    way to the one the trip is stamped with. *)
Definition stamped_currency (given : string) (trip : Trip) : string :=
  if (negb (truthy (Some given)) || bool_decide (given = DEFAULT_CURRENCY)) && truthy (Some (trip_currency trip))
  then normalize_currency (Some (trip_currency trip)) None else given.

(** [wallet_payment] for [trip] of [amount], a decimal in major units.  What it raises inside
    it answers. *)
Definition wallet_payment (env : TripEnv) (user : Z) (amount : dec) (purpose key : string) (trip : Trip) (db : Db)
    : wallet_result * Db :=
  if dleb amount (of_Z 0) then (WalletRefused, db)
  else if existsb (fun x => bool_decide (txn_key x = Some key)) (txns db) then (WalletPaid true, db)
  else match wallets db !! (user, SCOPE_RIDER) with
  | None => (WalletRefused, db)
  | Some wallet =>
    match to_minor_dec amount (Some (wallet_currency wallet)) with
    | Err _ => (WalletRefused, db)
    | Ok m =>
      if balance_minor wallet - te_held env user (wallet_currency wallet) <? m then (WalletRefused, db)
      else match create_txn user (stamped_currency (wallet_currency wallet) trip) m debit purpose
                   (trip_ref (trip_id trip)) key
                   (save_balance user SCOPE_RIDER (balance_minor wallet - m) db) with
           | Ok (_, db) => (WalletPaid false, db)
           | Err _ => (WalletRefused, db)
           end
    end
  end.

(** ** The payment of a completed trip *)

Definition payments_of (i : Z) (w : World) : list PaymentRow := List.filter (fun p => pm_trip p =? i) (w_payments w).

(** [Payment.objects.create]: the amount is stored in the minor unit of the row's currency;
    one completed payment per trip. *)
Definition create_payment (t : LiveTrip) (amount : dec) (method : string) (status : pay_status) (gateway : string)
    (w : World) : res db_error World :=
  let currency := currency_for_trip (Some (lt_trip t)) in
  let* m := lift_money (to_minor_dec amount (Some currency)) in
  if bool_decide (status = PayCompleted) && existsb (fun p => bool_decide (pm_status p = PayCompleted)) (payments_of (trip_id (lt_trip t)) w)
  then Err IntegrityError
  else Ok (set_payments (w_payments w ++ [{| pm_id := Z.of_nat (length (w_payments w)); pm_trip := trip_id (lt_trip t);
         pm_user := lt_rider t; pm_amount := m; pm_method := method; pm_currency := currency; pm_status := status;
         pm_gateway := gateway; pm_gateway_payment := None; pm_order := None; pm_cf_order := None; pm_cf_payment := None;
         pm_replaced_by := None; pm_late := None; pm_created := now w |}]) w).

Definition settled_world (env : TripEnv) (t : LiveTrip) (w : World) : res db_error World :=
  let* (_, db) := settle_or_defer (te_settle env) (lt_trip t) (w_db w) in Ok (with_db db w).

Definition wallet_paid_history (t : LiveTrip) (amount : dec) (w : World) : res db_error World :=
  match lt_driver t with
  | None => Ok w
  | Some d =>
    let currency := currency_for_trip (Some (lt_trip t)) in
    let* m := lift_money (to_minor_dec amount (Some currency)) in
    Ok (set_paid (w_paid w ++ [{| rh_trip := trip_id (lt_trip t); rh_rider := lt_rider t; rh_driver := d; rh_amount := m;
          rh_currency := currency; rh_method := "wallet"; rh_gateway_payment := None; rh_kind := "payment" |}]) w)
  end.

(** [trip.payment_method or 'deferred'] *)
Definition method_name (t : Trip) : string :=
  match payment_method t with
  | None => "deferred"
  | Some Cash => "cash"
  | Some (OtherMethod m) => if truthy (Some m) then m else "deferred"
  end.

Definition create_payment_on_complete (env : TripEnv) (t : LiveTrip) (w : World) : res db_error (LiveTrip * World) :=
  let tr := lt_trip t in
  if negb (bool_decide (payments_of (trip_id tr) w = [])) then Ok (t, w)
  else
    let* amount := lift_money (from_minor_Z (payable_minor (w_db w) tr) (Some (currency_for_trip (Some tr)))) in
    if deqb amount (of_Z 0) then
      if negb (discount_minor (w_db w) tr =? 0) && (0 <? trip_gross_minor tr) then
        let t := with_payment_status "completed" t in
        let* w := settled_world env t w in Ok (t, w)
      else Ok (t, w)
    else
      let m := method_name tr in
      if bool_decide (m = "deferred") then
        let* w := create_payment t amount "deferred" PayPending "cashfree" w in
        Ok (with_payment_status "pending" t, w)
      else if bool_decide (m = "cash") then
        let* w := create_payment t amount "cash" PayPending "cashfree" w in
        let t := with_payment_status "pending" t in
        let* w := settled_world env t w in Ok (t, w)
      else if bool_decide (m = "wallet") then
        let '(r, db) := wallet_payment env (lt_rider t) amount "Trip payment"
                          ("trip_" +:+ number (trip_id tr) +:+ "_payment")%string tr (w_db w) in
        let w := with_db db w in
        match r with
        | WalletPaid _ =>
          let* w := create_payment t amount "wallet" PayCompleted "cashfree" w in
          let t := with_payment_status "completed" t in
          let* w := wallet_paid_history t amount w in
          let* w := settled_world env t w in Ok (t, w)
        | WalletRefused => Ok (with_payment_status "failed" t, w)
        end
      else
        let* w := create_payment t amount "online" PayPending (te_provider env tr) w in
        Ok (with_payment_status "pending" t, w).

(** ** Refunds *)

Definition paid_statuses : list string := ["completed"; "paid"; "success"].

Definition paid_minor (t : LiveTrip) (w : World) : Z :=
  let total := zsum pm_amount (List.filter (fun p => bool_decide (pm_status p = PayCompleted) &&
                 bool_decide (pm_currency p = trip_currency (lt_trip t))) (payments_of (trip_id (lt_trip t)) w)) in
  if negb (total =? 0) then total
  else if bool_decide (lower (default EmptyString (payment_status t)) ∈ paid_statuses) then trip_gross_minor (lt_trip t)
  else 0.

Definition refunded_minor (t : LiveTrip) (w : World) : Z :=
  zsum ma_amount (List.filter (fun a => (ma_trip a =? trip_id (lt_trip t)) && bool_decide (ma_kind a = REFUND) &&
    bool_decide (ma_currency a = trip_currency (lt_trip t)) &&
    bool_decide (ma_status a ∈ [ACT_COMPLETED; ACT_PENDING_GATEWAY])) (w_actions w)).

Definition refundable_minor (t : LiveTrip) (w : World) : Z := Z.max 0 (paid_minor t w - refunded_minor t w).

(** What [create_refund] answers. *)
Inductive gateway_answer := Issued | NotIssued | GatewayRaised.

Definition with_pay_status (s : pay_status) (p : PaymentRow) : PaymentRow :=
  {| pm_id := pm_id p; pm_trip := pm_trip p; pm_user := pm_user p; pm_amount := pm_amount p; pm_method := pm_method p;
     pm_currency := pm_currency p; pm_status := s; pm_gateway := pm_gateway p; pm_gateway_payment := pm_gateway_payment p;
     pm_order := pm_order p; pm_cf_order := pm_cf_order p; pm_cf_payment := pm_cf_payment p;
     pm_replaced_by := pm_replaced_by p; pm_late := pm_late p; pm_created := pm_created p |}.

Definition save_payment (i : Z) (s : pay_status) (w : World) : World :=
  set_payments ((fun p => if pm_id p =? i then with_pay_status s p else p) <$> w_payments w) w.

Definition paid_online (i : Z) (w : World) : option PaymentRow :=
  List.find (fun p => bool_decide (pm_method p = "online") && bool_decide (pm_status p = PayCompleted))
    (reverse (payments_of i w)).

(** [process_refund_on_cancel]: [None] is an exception of the gateway. *)
Definition process_refund_on_cancel (gateway : gateway_answer) (t : LiveTrip) (w : World)
    : option (option Z * LiveTrip * World) :=
  match paid_online (trip_id (lt_trip t)) w with
  | None => Some (None, t, w)
  | Some p =>
    match pm_gateway_payment p with
    | Some ref =>
      if negb (truthy (Some ref)) then Some (None, t, w)
      else
        let refund := Z.min (pm_amount p) (refundable_minor t w) in
        if refund <=? 0 then Some (None, t, w)
        else match gateway with
        | GatewayRaised => None
        | NotIssued => Some (None, t, w)
        | Issued =>
          let w := set_refunds (w_refunds w ++ [{| gr_payment := ref; gr_amount := refund; gr_currency := pm_currency p |}]) w in
          Some (Some refund, with_payment_status "refunded" t, save_payment (pm_id p) PayRefunded w)
        end
    | None => Some (None, t, w)
    end
  end.

(** A transaction that does not commit leaves nothing but the refunds the provider took. *)
Definition committed (commit : bool) (before after : World) : World :=
  if commit then after else set_refunds (w_refunds after) before.

(** ** The state machine *)

(** [allowed_transitions.get(status_code)] *)
Definition allowed_transitions (s : trip_status) : option (list trip_status) :=
  match s with
  | TReached => Some [TAccepted]
  | TInProgress => Some [TAccepted; TReached]
  | TCompleted => Some [TInProgress]
  | TCancelled => Some [TRequested; TAccepted; TReached; TInProgress]
  | _ => None
  end.

Definition transition_error (s current : trip_status) : option cmd_result :=
  match allowed_transitions s with
  | Some from =>
    if bool_decide (current ∈ from) then None
    else Some (Failure (Some (if bool_decide (current = s) then "already_in_target_state" else "invalid_transition"))
                 (Some current) (InvalidTransition current s))
  | None => None
  end.

(** [str(x)] of an optional text. *)
Definition py_str (x : option string) : string := default "None" x.

(** A trip is counted for its driver when it completes. *)
Definition count_trip (t : LiveTrip) (w : World) : World :=
  match lt_driver t with
  | Some d => set_fleet (update_row d one_more_trip (w_fleet w)) w
  | None => w
  end.

(** What follows the commit of a cancellation: the promotion is released in a transaction of
    its own, and what that raises becomes the answer. *)
Definition released (t : LiveTrip) (r : cmd_result) (w : World) : cmd_result * World :=
  match release_for_trip (lt_trip t) (w_db w) with
  | Ok (_, db) => (r, with_db db w)
  | Err e => (Failure None None (Raised (Some e)), w)
  end.

(** [_update_trip_status] *)
Definition update_trip_status (env : TripEnv) (i : Z) (s : trip_status) (otp_input : option string)
    (by_ reason : string) (gateway : gateway_answer) (commit : bool) (w : World) : cmd_result * World :=
  match w_trips w !! i with
  | None => (Failure None None TripNotFound, w)
  | Some t =>
    let current := lt_status t in
    match transition_error s current with
    | Some r => (r, w)
    | None =>
      if bool_decide (s = TCancelled) && bool_decide (current ∈ [TCompleted; TCancelled]) then
        (Failure (Some (if bool_decide (current = TCancelled) then "already_in_target_state" else "trip_already_completed"))
           (Some current) (TripIsAlready current), w)
      else if bool_decide (s = TInProgress) && negb (bool_decide (py_str (lt_otp t) = py_str otp_input)) then
        (Failure (Some "invalid_otp") (Some current) InvalidOtp, w)
      else
        match s with
        | TReached =>
          (if commit then Success "Trip reached" else Failure None None (Raised None),
           committed commit w (save_trip i (stamped_reached (now w) t) w))
        | TInProgress =>
          (if commit then Success "Trip in_progress" else Failure None None (Raised None),
           committed commit w (save_trip i (stamped_started (now w) t) w))
        | TCompleted =>
          match create_payment_on_complete env (stamped_completed (now w) t) w with
          | Err e => (Failure None None (Raised (Some e)), w)
          | Ok (t, w') =>
            (if commit then Success "Trip completed" else Failure None None (Raised None),
             committed commit w (save_trip i t (count_trip t w')))
          end
        | TCancelled =>
          let by_ := if truthy (Some by_) then by_ else "system" in
          match process_refund_on_cancel gateway (stamped_cancelled (now w) by_ reason t) w with
          | None => (Failure None None (Raised None), w)
          | Some (_, t, w') =>
            let w'' := committed commit w (save_trip i t w') in
            if commit then released t (Success "Trip cancelled") w''
            else (Failure None None (Raised None), w'')
          end
        | _ =>
          (if commit then Success "Trip updated" else Failure None None (Raised None),
           committed commit w (save_trip i (with_trip_status s t) w))
        end
    end
  end.

(** ** Cash *)

Definition last_cash (i : Z) (w : World) : option PaymentRow :=
  List.find (fun p => bool_decide (pm_method p = "cash")) (reverse (payments_of i w)).

(** [_confirm_cash_payment] *)
Definition confirm_cash_payment (env : TripEnv) (i : Z) (w : World) : cmd_result * World :=
  match w_trips w !! i with
  | None => (Failure None None TripNotFound, w)
  | Some t =>
    if negb (bool_decide (lt_status t = TCompleted)) then (Failure None None (NotCompleted (lt_status t)), w)
    else if negb (is_cash (lt_trip t)) && bool_decide (payment_status t = Some "completed")
    then (Failure None None AlreadyPaid, w)
    else match last_cash (trip_id (lt_trip t)) w with
    | None => (Failure None None NoCashPayment, w)
    | Some p =>
      if bool_decide (pm_status p = PayFailed) then (Failure None None NoLongerCash, w)
      else if bool_decide (pm_status p = PayCompleted) then (Success "Cash payment already confirmed", w)
      else if existsb (fun q => bool_decide (pm_status q = PayCompleted)) (payments_of (trip_id (lt_trip t)) w)
      then (Failure None None (Raised (Some IntegrityError)), w)
      else
        let t := with_payment_status "completed" t in
        match settled_world env t (save_trip i t (save_payment (pm_id p) PayCompleted w)) with
        | Ok w => (Success "Cash payment confirmed", w)
        | Err e => (Failure None None (Raised (Some e)), w)
        end
    end
  end.

(** ** Cancelling from the apps *)

Definition valid_driver_reasons : list string := ["no_show"; "vehicle_issue"; "safety"; "personal"; "other"].
Definition valid_rider_reasons : list string := ["no_show"; "wrong_location"; "too_long"; "safety"; "other"].

(** [(f'{reason}: {note}'.strip(': ') if note else reason)[:255]]; the reason is never blank
    when there is a note to a driver's, and a rider's may be. *)
Definition strip_colon (l : list Ascii.ascii) : list Ascii.ascii :=
  let sep c := (code c =? 58) || (code c =? 32) in
  let fix drop l := match l with c :: r => if sep c then drop r else l | [] => [] end in
  rev (drop (rev (drop l))).

Definition reason_text (reason note : string) : string :=
  truncated 255 (if truthy (Some note) then of_chars (strip_colon (chars (reason +:+ ": " +:+ note)%string)) else reason).

Inductive cancel_answer :=
| Cancelled (refund : option Z) (penalty : option CancelPenalty)
| INVALID_REASON
| FORBIDDEN
| INVALID_STATE (s : trip_status)
| CANCEL_NOT_FOUND
| CancelError.

Definition driver_cancel_trip (env : TripEnv) (user i : Z) (reason note : string) (w : World) : cancel_answer * World :=
  let reason := strip reason in
  let note := strip note in
  if negb (bool_decide (reason ∈ valid_driver_reasons)) then (INVALID_REASON, w)
  else match w_trips w !! i with
  | None => (CANCEL_NOT_FOUND, w)
  | Some t =>
    match lt_driver t with
    | None => (FORBIDDEN, w)
    | Some d =>
      if negb (se_user_of (te_settle env) d =? user) then (FORBIDDEN, w)
      else if negb (bool_decide (lt_status t ∈ [TAccepted; TReached])) then (INVALID_STATE (lt_status t), w)
      else match fl_rows (w_fleet w) !! d with
        | None => (CancelError, w)
        | Some r =>
          let w := save_trip i (stamped_cancelled (now w) "driver" (reason_text reason note) t) w in
          let '(p, f) := apply_cancellation_penalty d r i reason note (now w) (w_fleet w) in
          (Cancelled None (Some p), set_fleet f w)
        end
    end
  end.

Definition rider_cancel_trip (user i : Z) (reason note : string) (gateway : gateway_answer) (commit : bool) (w : World)
    : cancel_answer * World :=
  let reason := strip reason in
  let note := strip note in
  if truthy (Some reason) && negb (bool_decide (reason ∈ valid_rider_reasons)) then (INVALID_REASON, w)
  else match w_trips w !! i with
  | None => (CANCEL_NOT_FOUND, w)
  | Some t =>
    if negb (lt_rider t =? user) then (FORBIDDEN, w)
    else if bool_decide (lt_status t ∈ [TCompleted; TCancelled]) then (INVALID_STATE (lt_status t), w)
    else if negb (bool_decide (lt_status t ∈ [TRequested; TAccepted; TReached; TInProgress]))
    then (INVALID_STATE (lt_status t), w)
    else match process_refund_on_cancel gateway (stamped_cancelled (now w) "rider" (reason_text reason note) t) w with
         | None => (CancelError, w)
         | Some (refund, t, w') =>
           (if commit then Cancelled refund None else CancelError, committed commit w (save_trip i t w'))
         end
  end.

(** ** Cancelling by the system and by operators *)

Inductive auto_cancel := AutoCancelled | StandsDown (s : option trip_status) | AutoNotFound.

Definition auto_cancel_trip (i : Z) (w : World) : auto_cancel * World :=
  match w_trips w !! i with
  | None => (AutoNotFound, w)
  | Some t =>
    if bool_decide (is_Some (lt_driver t)) then (StandsDown None, w)
    else if bool_decide (lt_status t ∈ [TCompleted; TCancelled; TAccepted; TReached; TInProgress])
    then (StandsDown (Some (lt_status t)), w)
    else (AutoCancelled, save_trip i (stamped_cancelled (now w) "system" "no_driver_accepted" t) w)
  end.

Definition CANCELLABLE_STATUSES : list trip_status := [TRequested; TAccepted; TReached].

Inductive operator_outcome := OpCancelled | AlreadyCancelled | NotCancellable | OpNotFound.

(** [operator_cancel]; the stale panel's release also gives an online payment back, and a
    gateway failure does not stop it. *)
Definition operator_cancel (i : Z) (reason_code note : string) (waive_fee stale_release : bool) (gateway : gateway_answer)
    (w : World) : operator_outcome * World :=
  match w_trips w !! i with
  | None => (OpNotFound, w)
  | Some t =>
    if bool_decide (lt_status t = TCancelled) && bool_decide (cancelled_by t = "admin") then (AlreadyCancelled, w)
    else if negb (bool_decide (lt_status t ∈ CANCELLABLE_STATUSES)) then (NotCancellable, w)
    else
      let t := stamped_cancelled (now w) "admin"
                 (truncated 255 (if truthy (Some note) then (reason_code +:+ ": " +:+ note)%string else reason_code)) t in
      let t := if waive_fee && negb (cancellation_fee t =? 0) then with_fee 0 t else t in
      let w := save_trip i t w in
      if stale_release then
        match process_refund_on_cancel gateway t w with
        | Some (_, t, w) => (OpCancelled, save_trip i t w)
        | None => (OpCancelled, w)
        end
      else (OpCancelled, w)
  end.

(** ** The sockets *)

Definition TRIP_OTP_MAX_ATTEMPTS : Z := 5.
Definition TRIP_OTP_ATTEMPT_TTL_SECONDS : Z := 5 * 60.

Inductive participation := PRider | PAssignedDriver | PCandidateDriver | PNone.

#[global] Instance participation_eq_dec : EqDecision participation.
Proof. solve_decision. Defined.

(** A user of the trip socket and their driver profile, if any. *)
Record SocketUser := { us_id : Z; us_driver : option Z }.

(** [_resolve_participation] *)
Definition resolve_participation (env : TripEnv) (u : SocketUser) (i : Z) (w : World) : participation :=
  match w_trips w !! i with
  | None => PNone
  | Some t =>
    if lt_rider t =? us_id u then PRider
    else match us_driver u with
    | None => PNone
    | Some d =>
      match lt_driver t with
      | Some a => if a =? d then PAssignedDriver else PNone
      | None =>
        if negb (bool_decide (lt_status t = TRequested)) then PNone
        else match fl_rows (w_fleet w) !! d with
             | None => PNone
             | Some r => if negb (may_operate (te_qa env) r) || is_blocked r then PNone else PCandidateDriver
             end
      end
    end
  end.

Definition is_assigned_driver (u : SocketUser) (i : Z) (w : World) : bool :=
  match w_trips w !! i with
  | Some t => match lt_driver t, us_driver u with Some a, Some d => a =? d | _, _ => false end
  | None => false
  end.

Definition is_rider (u : SocketUser) (i : Z) (w : World) : bool :=
  match w_trips w !! i with Some t => lt_rider t =? us_id u | None => false end.

(** [cache.get(key, 0)] and [cache.set(key, n, ttl)] *)
Definition attempts (i : Z) (w : World) : Z :=
  match w_attempts w !! i with Some (n, expires) => if now w <? expires then n else 0 | None => 0 end.

Definition set_attempt_count (i n : Z) (w : World) : World :=
  set_attempts (<[i := (n, now w + TRIP_OTP_ATTEMPT_TTL_SECONDS * SECOND)]> (w_attempts w)) w.

Inductive command :=
| Ping
| Accept (new_otp : string)
| Reached
| Start (otp : option string)
| Complete
| ConfirmCash
| Cancel (reason : string)
| Unknown (action : string).

(** What the acting socket is told: an acknowledgement, or a refusal and its reason. *)
Inductive reply :=
| Pong
| Committed (r : cmd_result)
| AlreadyDone (s : option trip_status)
| TripTaken
| Rejected (reason : string)
| Refusal (r : cmd_result).

Definition ack (r : cmd_result) : reply :=
  match r with
  | Success _ => Committed r
  | Failure reason s _ => if bool_decide (reason = Some "already_in_target_state"%string) then AlreadyDone s else Refusal r
  | Taken _ => TripTaken
  end.

(** [TripStatusConsumer.receive], the command ladder.  The participation is the socket's own,
    decided when it connected. *)
Definition start_ride (env : TripEnv) (i : Z) (otp : option string) (gateway : gateway_answer) (commit : bool) (w : World)
    : reply * World :=
  if negb (truthy otp) then (Rejected "otp_required", w)
  else
    let n := attempts i w in
    if TRIP_OTP_MAX_ATTEMPTS <=? n then (Rejected "otp_attempts_exhausted", w)
    else
      let '(r, w) := update_trip_status env i TInProgress otp EmptyString EmptyString gateway commit w in
      (ack r, if mentions_otp r then set_attempt_count i (n + 1) w
                 else if succeeded r then set_attempts (delete i (w_attempts w)) w else w).

Definition receive (env : TripEnv) (u : SocketUser) (part : participation) (i : Z) (c : command) (gateway : gateway_answer)
    (commit : bool) (w : World) : reply * World :=
  let run s := let '(r, w) := update_trip_status env i s None EmptyString EmptyString gateway commit w in (ack r, w) in
  match c with
  | Ping => (Pong, w)
  | Unknown _ => (Rejected "unknown_command", w)
  | Accept otp =>
    if negb (bool_decide (part ∈ [PCandidateDriver; PAssignedDriver])) then (Rejected "not_a_driver", w)
    else let '(r, w) := accept_trip env (us_driver u) i otp w in (ack r, w)
  | Reached => if is_assigned_driver u i w then run TReached else (Rejected "not_assigned_driver", w)
  | Start otp =>
    if is_assigned_driver u i w then start_ride env i otp gateway commit w else (Rejected "not_assigned_driver", w)
  | Complete => if is_assigned_driver u i w then run TCompleted else (Rejected "not_assigned_driver", w)
  | ConfirmCash =>
    if is_assigned_driver u i w then let '(r, w) := confirm_cash_payment env i w in (ack r, w)
    else (Rejected "not_assigned_driver", w)
  | Cancel reason =>
    if negb (is_rider u i w || is_assigned_driver u i w) then (Rejected "not_authorised_to_cancel", w)
    else
      let '(r, w) := update_trip_status env i TCancelled None (if is_rider u i w then "rider" else "driver")
                       (truncated 255 reason) gateway commit w in
      (ack r, w)
  end.
