(* ===== verification/OperatorEnd.v ===== *)
(** * OperatorEnd: an operator ends a started trip

    Models [servers/ride/operator_end.py] (the metered fare, the tax on what is charged, the
    plan of a release and its application), the release handler of
    [servers/ride/admin_stale.py], and the wallet credit of [servers/rider/credits.py] a
    refund may use.  The distance driven, the minutes and the booked surge are a [Telemetry]:
    the code reads them from the recorded trail and the clock in floating point. *)

From Stdlib Require Import QArith.
From S2P Require Import Prelude PyDecimal PyText Countries Models Money Commission Zones PromoTax Alerts Store.
From S2P Require Import Promos Settlement Drivers Trips.
#[local] Open Scope string_scope.
#[local] Open Scope list_scope.
#[local] Open Scope Z_scope.

(** ** Reason codes *)

Inductive end_rule_kind := STANDARD | PLATFORM_FUNDED.

#[global] Instance end_rule_kind_eq_dec : EqDecision end_rule_kind.
Proof. solve_decision. Defined.

Definition REASON_CODES : list (string * end_rule_kind) :=
  [("driver_unresponsive", STANDARD); ("trip_abandoned", STANDARD); ("other", STANDARD);
   ("safety_incident", PLATFORM_FUNDED); ("platform_fault", PLATFORM_FUNDED)].

Definition rule_for (code : string) : option end_rule_kind :=
  snd <$> List.find (fun x => bool_decide (x.1 = code)) REASON_CODES.

Definition rule_text (r : end_rule_kind) : string :=
  match r with STANDARD => "standard" | PLATFORM_FUNDED => "platform_funded" end.

(** ** The metered fare *)

Record Telemetry := { tm_distance : dec; tm_minutes : dec; tm_surge : dec }.

Record Metered := {
  mt_total : dec; mt_pretax : dec; mt_additive : bool; mt_percent : dec; mt_fee : dec; mt_min_applied : bool
}.

Definition metered_with (c : RateCard) (zone : option Zone) (currency : string) (tm : Telemetry) : res db_error Metered :=
  let* distance_fare := lift_arith (dmul (per_km_fare c) (tm_distance tm)) in
  let* time_fare := lift_arith (dmul (per_min_fare c) (tm_minutes tm)) in
  let* x := lift_arith (dadd (base_fare c) distance_fare) in
  let* pre_surge := lift_arith (dadd x time_fare) in
  let* subtotal := if deqb (tm_surge tm) (Dec 100 (-2)) then Ok pre_surge else lift_arith (dmul pre_surge (tm_surge tm)) in
  let min_applied := dltb subtotal (min_fare c) in
  let* total := round_fare_dec (if min_applied then min_fare c else subtotal) currency in
  match zone with
  | Some z =>
    if is_additive zone then
      let percent := or_zero (gst_percent c) in
      let* fee := lift_money (quantize_dec (or_zero (zone_per_trip_fee z)) (Some currency)) in
      let* p := lift_money (percent_of total percent HUNDRED) in
      let* tax := lift_money (quantize_dec p (Some currency)) in
      let* y := lift_arith (dadd total tax) in
      let* all := lift_arith (dadd y fee) in
      Ok {| mt_total := all; mt_pretax := total; mt_additive := true; mt_percent := percent; mt_fee := fee;
            mt_min_applied := min_applied |}
    else Ok {| mt_total := total; mt_pretax := total; mt_additive := false; mt_percent := of_Z 0; mt_fee := of_Z 0;
               mt_min_applied := min_applied |}
  | None => Ok {| mt_total := total; mt_pretax := total; mt_additive := false; mt_percent := of_Z 0; mt_fee := of_Z 0;
                  mt_min_applied := min_applied |}
  end.

Definition trip_card (env : TripEnv) (t : Trip) : option RateCard :=
  @rate_card_for_trip (se_zones (te_settle env)) (se_cards (te_settle env)) (se_lookup (te_settle env)) None t.

Definition metered_fare (env : TripEnv) (t : Trip) (tm : Telemetry) : res db_error Metered :=
  match trip_card env t with
  | None => Err (Unavailable "fare_card_unavailable")
  | Some c => metered_with c (trip_zone t) (currency_for_trip (Some t)) tm
  end.

(** [(base, tax, fee)]; the total is their sum. *)
Definition tax_on_charged (pretax percent fee cap : dec) (currency : option string) : res money_error (dec * dec * dec) :=
  let* p := percent_of pretax percent HUNDRED in
  let* tax := quantize_dec p currency in
  let* x := lift_dec (dadd pretax tax) in
  let* all := lift_dec (dadd x fee) in
  if dleb all cap then Ok (pretax, tax, fee)
  else
    let fee_c := dmin fee cap in
    let* room := lift_dec (dsub cap fee_c) in
    let* pd := lift_dec (ddiv percent HUNDRED) in
    let* divisor := lift_dec (dadd (of_Z 1) pd) in
    let* g := lift_dec (ddiv room divisor) in
    let* b := quantize_dec g currency in
    let base := dmin b room in
    let* tax := lift_dec (dsub room base) in
    Ok (base, tax, fee_c).

(** ** The plan *)

Record Plan := {
  pl_reason : string;
  pl_rule : end_rule_kind;
  pl_currency : string;
  uncapped_minor : Z;
  upfront_minor : Z;
  capped_minor : Z;
  rider_pays_minor : Z;
  pl_commission : option Z;
  driver_earnings_minor : option Z;
  promo_discount_minor : Z;
  rider_pays_after_promo_minor : Z;
  pl_pretax : option Z;
  pl_tax : option Z;
  pl_fee : option Z;
  regulatory_fee_expense_minor : Z;
  tax_relief_minor : Z;
  earnings_base_minor : option Z
}.

(** The pre-tax part of the upfront price: what the quote recorded, else worked back out. *)
Definition upfront_pretax_minor (env : TripEnv) (t : Trip) (m : Metered) (upfront : Z) (currency : option string)
    : res money_error Z :=
  match se_stored (te_settle env) (trip_id t) with
  | Some (pretax, _) => Ok pretax
  | None =>
    let* u := from_minor_Z upfront currency in
    let* (pretax, _, _) := split_additive u (mt_percent m) (mt_fee m) currency in
    to_minor_dec pretax currency
  end.

(** The fare of an additive market split on the capped price, under each rule. *)
Definition plan_split (rule : end_rule_kind) (m : Metered) (capped : Z) (currency : option string)
    : res money_error (option (Z * Z * Z) * Z) :=
  if negb (mt_additive m) then Ok (None, 0)
  else match rule with
  | PLATFORM_FUNDED => let* e := to_minor_dec (mt_fee m) currency in Ok (Some (0, 0, 0), e)
  | STANDARD =>
    let* cap := from_minor_Z capped currency in
    let* (b, tax, fee) := tax_on_charged (mt_pretax m) (mt_percent m) (mt_fee m) cap currency in
    let* bm := to_minor_dec b currency in
    let* tm := to_minor_dec tax currency in
    let* fm := to_minor_dec fee currency in
    Ok (Some (bm, tm, fm), 0)
  end.

(** The promo of a standard end in an additive market lowers the taxable amount: the discount,
    the relief, the full charge and the tax. *)
Definition plan_promo (rule : end_rule_kind) (m : Metered) (promo capped : Z) (split : option (Z * Z * Z))
    (currency : option string) : res money_error (Z * Z * Z * option (Z * Z * Z)) :=
  match rule, split with
  | STANDARD, Some (pretax, tax, fee) =>
    if promo =? 0 then Ok (promo, 0, capped, split)
    else
      let* p := from_minor_Z pretax currency in
      let* f := from_minor_Z fee currency in
      let* d := from_minor_Z promo currency in
      let* b := from_minor_Z tax currency in
      let* adj := adjust p (mt_percent m) f d currency (Some b) in
      let* discount := to_minor_dec (adj_discount adj) currency in
      let* relief := to_minor_dec (adj_relief adj) currency in
      let* full := to_minor_dec (adj_full adj) currency in
      let* tax := to_minor_dec (adj_tax adj) currency in
      Ok (discount, relief, full, Some (pretax, tax, fee))
  | _, _ => Ok (promo, 0, capped, split)
  end.

Definition plan_commission (env : TripEnv) (t : Trip) (base : Z) (currency : option string) : res db_error (option Z) :=
  match commission_rate (te_settle env) t with
  | Ok percent =>
    let* g := lift_money (from_minor_Z base currency) in
    let* c := lift_money (percent_minor g percent HUNDRED currency) in Ok (Some c)
  | Err (CommissionFailed _) => Ok None
  | Err e => Err e
  end.

Definition build_plan (env : TripEnv) (db : Db) (t : Trip) (reason : string) (tm : Telemetry) : res db_error Plan :=
  let* rule := res_opt (Unavailable "INVALID_REASON_CODE") (rule_for reason) in
  let* upfront := res_opt (Unavailable "no_upfront_price") (estimated_fare_minor t) in
  let currency := currency_for_trip (Some t) in
  let* m := metered_fare env t tm in
  let* uncapped := lift_money (to_minor_dec (mt_total m) (Some currency)) in
  let capped := Z.min uncapped upfront in
  let* (split, expense) := lift_money (plan_split rule m capped (Some currency)) in
  let* promo := match rule with
                | STANDARD => operator_end_discount_minor (te_promo env) db t capped
                | PLATFORM_FUNDED => Ok 0
                end in
  let* (promo, relief, full, split') := lift_money (plan_promo rule m promo capped split (Some currency)) in
  let* base := match rule with
    | PLATFORM_FUNDED =>
      if mt_additive m then
        let* a := lift_money (to_minor_dec (mt_pretax m) (Some currency)) in
        let* b := lift_money (upfront_pretax_minor env t m upfront (Some currency)) in Ok (Some (Z.min a b))
      else Ok (Some capped)
    | STANDARD => Ok (fst <$> (fst <$> split))
    end in
  let* commission := plan_commission env t (default full base) (Some currency) in
  if bool_decide (rule = PLATFORM_FUNDED) && bool_decide (commission = None) then Err (Unavailable "commission_not_configured")
  else Ok {|
    pl_reason := reason; pl_rule := rule; pl_currency := currency; uncapped_minor := uncapped; upfront_minor := upfront;
    capped_minor := capped; rider_pays_minor := match rule with PLATFORM_FUNDED => 0 | STANDARD => full end;
    pl_commission := commission; driver_earnings_minor := (fun c => default full base - c) <$> commission;
    promo_discount_minor := promo;
    rider_pays_after_promo_minor := match rule with PLATFORM_FUNDED => 0 | STANDARD => full - promo end;
    pl_pretax := fst <$> (fst <$> split'); pl_tax := snd <$> (fst <$> split'); pl_fee := snd <$> split';
    regulatory_fee_expense_minor := expense; tax_relief_minor := relief; earnings_base_minor := base |}.

(** ** The wallet credit of a refund *)

Definition CREDIT_CAP : dec := Dec 200000 (-2).

(** [_rider_currency] *)
Definition rider_currency (user : Z) (db : Db) : string :=
  match wallets db !! (user, SCOPE_RIDER) with
  | Some w => if truthy (Some (wallet_currency w)) then wallet_currency w else DEFAULT_CURRENCY
  | None => DEFAULT_CURRENCY
  end.

Inductive credit_result := CreditIssued (txn : Z) | CreditDuplicate (txn : Z) | CreditRefused (reason : string).

(** [issue_refund_credit] of an amount in major units, with [_issue_credit]. *)
Definition issue_refund_credit (t : Trip) (amount : dec) (key : string) (db : Db) : res db_error (credit_result * Db) :=
  let user := trip_rider t in
  match quantize_dec amount (Some (rider_currency user db)) with
  | Err _ => Ok (CreditRefused "invalid_amount", db)
  | Ok v =>
    if dleb v (of_Z 0) then Ok (CreditRefused "invalid_amount", db)
    else
      let '(wallet, db) := get_wallet user SCOPE_RIDER db in
      let currency := Some (wallet_currency wallet) in
      let* current := lift_money (from_minor_Z (balance_minor wallet) currency) in
      let* projected := lift_arith (dadd current v) in
      if dltb CREDIT_CAP projected then Ok (CreditRefused "cap_exceeded", db)
      else
        let row_currency := if truthy (Some (trip_currency t)) then normalize_currency (Some (trip_currency t)) None
                            else wallet_currency wallet in
        let* m := lift_money (to_minor_dec v (Some row_currency)) in
        match create_txn user row_currency m credit "refund" (trip_ref (trip_id t)) key db with
        | Ok (i, db) =>
          let* b := lift_money (to_minor_dec projected currency) in
          Ok (CreditIssued i, save_balance user SCOPE_RIDER b db)
        | Err _ =>
          match List.find (fun x => bool_decide (txn_key x = Some key) && (txn_user x =? user)) (txns db) with
          | Some x => Ok (CreditDuplicate (txn_id x), db)
          | None => Err IntegrityError
          end
        end
  end.

(** ** Applying the plan *)

Definition ended_trip (p : Plan) (t : Trip) : Trip :=
  {| trip_id := trip_id t; trip_rider := trip_rider t; trip_driver := trip_driver t; trip_zone := trip_zone t;
     trip_pickup := trip_pickup t; trip_vehicle_type := trip_vehicle_type t; trip_vehicle_vt := trip_vehicle_vt t;
     trip_requested_at := trip_requested_at t; trip_currency := trip_currency t;
     estimated_fare_minor := estimated_fare_minor t; final_fare_minor := Some (rider_pays_minor p);
     payment_method := payment_method t; end_rule := rule_text (pl_rule p);
     commission_percent_snapshot := commission_percent_snapshot t; commission_rule_id := commission_rule_id t;
     commission_rule_version := commission_rule_version t |}.

Definition ended (at_ : Z) (p : Plan) (t : LiveTrip) : LiveTrip :=
  {| lt_trip := ended_trip p (lt_trip t); lt_status := TCompleted; lt_vehicle := lt_vehicle t; lt_otp := lt_otp t;
     accepted_at := accepted_at t; reached_at := reached_at t; trip_started_at := trip_started_at t;
     completed_at := Some at_; cancelled_at := cancelled_at t; cancelled_by := cancelled_by t;
     cancellation_reason := cancellation_reason t; cancellation_fee := cancellation_fee t;
     payment_status := payment_status t; client_request_id := client_request_id t |}.

(** [_snapshot]: the split the settlement reads from now on. *)
Definition with_snapshot_split (i : Z) (p : Plan) (env : TripEnv) : TripEnv :=
  let s := te_settle env in
  {| te_settle := {| se_rules := se_rules s; se_zones := se_zones s; se_cards := se_cards s; se_user_of := se_user_of s;
       se_stored := fun j => if j =? i then match pl_pretax p with Some x => Some (x, pl_fee p) | None => se_stored s j end
                             else se_stored s j;
       se_active := se_active s; se_lookup := se_lookup s |};
     te_promo := te_promo env; te_qa := te_qa env; te_held := te_held env; te_provider := te_provider env |}.

Definition has_online_payment (i : Z) (w : World) : bool :=
  existsb (fun p => bool_decide (pm_status p = PayCompleted) && bool_decide (pm_method p = "online")) (payments_of i w).

Definition prepaid_minor (i : Z) (w : World) : Z :=
  zsum pm_amount (List.filter (fun p => bool_decide (pm_status p = PayCompleted) && bool_decide (pm_method p ∈ ["online"; "wallet"]))
    (payments_of i w)).

(** [_refund_prepaid]: what was paid beyond [keep] goes back, through the gateway, the rider's
    wallet, or as a refund the platform owes. *)
Definition refund_prepaid (gateway : gateway_answer) (p : Plan) (keep : Z) (t : LiveTrip) (w : World)
    : res db_error (Z * LiveTrip * World) :=
  let i := trip_id (lt_trip t) in
  let owed := prepaid_minor i w - keep in
  if owed <=? 0 then Ok (0, t, w)
  else
    let online := has_online_payment i w in
    let taken := if (keep =? 0) && online then
        match process_refund_on_cancel gateway t w with
        | Some (Some _, t, w) => Some (t, w)
        | _ => None
        end else None in
    match taken with
    | Some (t, w) => Ok (owed, t, w)
    | None =>
      let* (meth, st, w) :=
        if online then Ok ("gateway", ACT_PENDING_GATEWAY, w)
        else
          let* amount := lift_money (from_minor_Z owed (Some (pl_currency p))) in
          let* (r, db) := issue_refund_credit (lt_trip t) amount ("trip_operator_end_refund:" +:+ number i)%string (w_db w) in
          Ok match r with
             | CreditRefused _ => ("gateway", ACT_PENDING_GATEWAY, with_db db w)
             | _ => ("wallet_credit", ACT_COMPLETED, with_db db w)
             end in
      Ok (owed, t, set_actions (w_actions w ++ [{| ma_trip := i; ma_kind := REFUND; ma_amount := owed;
            ma_currency := pl_currency p; ma_method := meth; ma_status := st |}]) w)
    end.

Definition PLATFORM_FUNDED_LEDGER_PURPOSE : string := "platform_funded_trip_end".

(** [_credit_driver] *)
Definition credit_driver (env : TripEnv) (t : Trip) (p : Plan) (db : Db) : res db_error (option Z * Db) :=
  match trip_driver t, driver_earnings_minor p with
  | Some d, Some n =>
    if n =? 0 then Ok (None, db)
    else
      let key := trip_key (trip_id t) "PLATFORM_FUNDED" in
      match List.find (fun x => bool_decide (txn_key x = Some key)) (txns db) with
      | Some x => Ok (Some (txn_id x), db)
      | None =>
        let user := se_user_of (te_settle env) d in
        let '(wallet, db) := get_wallet user SCOPE_DRIVER db in
        let* (i, db) := create_txn user (pl_currency p) n credit PLATFORM_FUNDED_LEDGER_PURPOSE (trip_ref (trip_id t)) key db in
        Ok (Some i, save_balance user SCOPE_DRIVER (balance_minor wallet + n) db)
      end
  | _, _ => Ok (None, db)
  end.

(** [_book_regulatory_fee]: [get_or_create] on the key. *)
Definition book_regulatory_fee (t : Trip) (p : Plan) (db : Db) : Db :=
  let key := trip_key (trip_id t) "REGULATORY_FEE" in
  if (regulatory_fee_expense_minor p <=? 0) || existsb (fun x => bool_decide (ex_key x = key)) (expenses db) then db
  else set_expenses (expenses db ++ [{| ex_key := key; ex_trip := trip_id t; ex_amount := regulatory_fee_expense_minor p;
         ex_currency := pl_currency p |}]) db.

Definition FINANCE_PLATFORM_FUNDED_END : string := "finance.platform_funded_trip_end".

(** The alert; its title leaves out the city's name. *)
Definition raise_funded_alert (env : TripEnv) (t : Trip) (p : Plan) (db : Db) : Db :=
  set_alerts (raise_alert (alert_table db) FINANCE_PLATFORM_FUNDED_END
    (truncated 200 ("Trip " +:+ number (trip_id t) +:+ " ended by SaaradhiGo: the platform paid the driver")%string)
    WARNING (list_to_map [("reason_code", pl_reason p); ("currency", pl_currency p);
      ("driver_earnings_minor", from_option number "None" (driver_earnings_minor p))]%string ∪ trip_payload t)
    "trip_platform_funded_end" (number (trip_id t))
    (city_place (te_settle env) t)).2 db.

Definition settlement_exists (i : Z) (db : Db) : bool := existsb (fun s => ts_trip s =? i) (settlements db).

Definition any_completed_payment (i : Z) (w : World) : bool :=
  existsb (fun q => bool_decide (pm_status q = PayCompleted)) (payments_of i w).

(** The money of each rule, once the trip is completed. *)
Definition apply_standard (env : TripEnv) (gateway : gateway_answer) (p : Plan) (t : LiveTrip) (w : World)
    : res db_error (LiveTrip * World) :=
  let* (t, w) := create_payment_on_complete env t w in
  let* (refunded, t, w) := refund_prepaid gateway p (payable_minor (w_db w) (lt_trip t)) t w in
  if negb (settlement_exists (trip_id (lt_trip t)) (w_db w)) &&
     (is_cash (lt_trip t) || negb (refunded =? 0) || any_completed_payment (trip_id (lt_trip t)) w)
  then let* w := settled_world env t w in Ok (t, w)
  else Ok (t, w).

Definition apply_platform_funded (env : TripEnv) (gateway : gateway_answer) (p : Plan) (t : LiveTrip) (w : World)
    : res db_error (LiveTrip * World) :=
  let* (_, t, w) := refund_prepaid gateway p 0 t w in
  let t := if bool_decide (payment_status t = Some "refunded") then t else with_payment_status "waived" t in
  let* (_, db) := credit_driver env (lt_trip t) p (w_db w) in
  Ok (t, with_db (raise_funded_alert env (lt_trip t) p (book_regulatory_fee (lt_trip t) p db)) w).

Definition apply_plan (env : TripEnv) (gateway : gateway_answer) (i : Z) (t : LiveTrip) (p : Plan) (w : World)
    : res db_error World :=
  let env := with_snapshot_split i p env in
  let t := ended (now w) p t in
  let* (_, db) := apply_operator_end (te_promo env) (lt_trip t) (capped_minor p) (bool_decide (pl_rule p = PLATFORM_FUNDED))
                    (if tax_relief_minor p =? 0 then None else Some (promo_discount_minor p)) (w_db w) in
  let w := count_trip t (with_db db (save_trip i t w)) in
  let* (t, w) := match pl_rule p with
                 | STANDARD => apply_standard env gateway p t w
                 | PLATFORM_FUNDED => apply_platform_funded env gateway p t w
                 end in
  Ok (save_trip i t w).

(** ** The release handler *)

Inductive release_answer :=
| Released_ok (case_ : string) (plan : option Plan)
| Refuse (code : string)
| ReleaseError (e : db_error).

Definition CANCEL_CODE : string := "operator_released_stale".

(** [admin_stale_release_driver], given whether the trip looks stale, what reconciling the
    driver's Redis marker answered, and the request's reason code.  An error rolls the
    transaction back; a refund the provider had taken by then is not followed further. *)
Definition release_driver (env : TripEnv) (i : Z) (stale : bool) (marker : string) (reason_code : string) (tm : Telemetry)
    (gateway : gateway_answer) (w : World) : release_answer * World :=
  match w_trips w !! i with
  | None => (Refuse "NOT_FOUND", w)
  | Some t =>
    if bool_decide (lt_driver t = None) then (Refuse "no_driver_assigned", w)
    else if truthy (Some (end_rule (lt_trip t))) then (Refuse "already_ended", w)
    else if bool_decide (lt_status t ∈ [TCompleted; TCancelled]) then
      (if bool_decide (marker = "unavailable") then Refuse "driver_state_unavailable"
       else if bool_decide (marker = "ok") then Refuse "nothing_to_release" else Released_ok "A" None, w)
    else if negb stale then (Refuse "trip_active", w)
    else if bool_decide (lt_status t = TInProgress) then
      match rule_for reason_code with
      | None => (Refuse "INVALID_REASON_CODE", w)
      | Some _ =>
        match build_plan env (w_db w) (lt_trip t) reason_code tm with
        | Err (Unavailable code) => (Refuse code, w)
        | Err e => (ReleaseError e, w)
        | Ok p =>
          match apply_plan env gateway i t p w with
          | Ok w => (Released_ok "C" (Some p), w)
          | Err e => (ReleaseError e, w)
          end
        end
      end
    else if negb (bool_decide (lt_status t ∈ [TAccepted; TReached])) then (Refuse "not_releasable", w)
    else
      let '(o, w) := operator_cancel i CANCEL_CODE EmptyString true true gateway w in
      (match o with OpCancelled => Released_ok "B" None | _ => Refuse "not_releasable" end, w)
  end.
