(* ===== verification/Rewards.v ===== *)
(** * Rewards: what campaigns pay at once, and raising a budget

    The reward of a driver's incentive ([_pay_reward] of [promotions/incentives.py]), the two
    rewards of a referral ([pay] and [_credit] of [promotions/referrals.py], with
    [issue_promo_credit] of [rider/credits.py]), and the increase of a budget from the request
    to its executor ([propose_budget_increase] and [execute_budget_increase] of
    [promotions/workflow.py]).  Progress, abuse signals and notices are left out. *)

From S2P Require Import Prelude PyDecimal PyText Countries Models Money Commission Zones PromoTax Alerts Store Promos Settlement Drivers Trips OperatorEnd.
#[local] Open Scope string_scope.
#[local] Open Scope Z_scope.

(** What paying a reward reads besides the tables: the role of a user, and the currency of the
    wallet of theirs that the database lists first. *)
Record RewardEnv := {
  rw_role : Z -> string;
  rw_first : Z -> Db -> option string
}.

Definition INCENTIVE_REWARD : string := "incentive_reward".
Definition REFERRAL_REWARD : string := "referral_reward".

(** [CurrencyStampedModel.save] of a ledger row that names no trip. *)
Definition stamped_by_wallet (first : option string) (given : string) : string :=
  if negb (truthy (Some given)) || bool_decide (given = DEFAULT_CURRENCY) then
    match first with
    | Some c => if truthy (Some c) then normalize_currency (Some c) None
                else if truthy (Some given) then given else DEFAULT_CURRENCY
    | None => if truthy (Some given) then given else DEFAULT_CURRENCY
    end
  else given.

(** A credit to the wallet of a driver. *)
Definition reward_driver (env : RewardEnv) (user : Z) (currency : string) (n : Z) (purpose reference key : string) (db : Db)
    : res db_error (Z * Db) :=
  let '(wallet, db) := get_wallet user SCOPE_DRIVER db in
  let* (j, db) := create_txn user (stamped_by_wallet (rw_first env user db) currency) n credit purpose reference key db in
  Ok (j, save_balance user SCOPE_DRIVER (balance_minor wallet + n) db).

(** [_pay_reward] for the driver [d] with the account [user]: [false] when the budget refuses and
    the progress stays unfunded.  The campaign's row was read before. *)
Definition pay_reward (env : RewardEnv) (i : Z) (c : Campaign) (d user : Z) (db : Db) : res db_error (bool * Db) :=
  let reward := or_else 0 (reward_minor (config c)) in
  match spend_now i reward db with
  | Err (Refused _) => Ok (false, db)
  | Err e => Err e
  | Ok db =>
    let key := "incentive:" +:+ number i +:+ ":" +:+ number d in
    let* (j, db) := reward_driver env user (campaign_currency c) reward INCENTIVE_REWARD ("INCENTIVE_" +:+ number i) key db in
    let* db := create_entry {| pe_kind := INCENTIVE_REWARD; pe_campaign := i; pe_user := user; pe_trip := None;
                 pe_amount := reward; pe_currency := campaign_currency c; pe_txn := Some j; pe_key := key |} db in
    Ok (true, db)
  end.

(** [issue_promo_credit], with [_issue_credit]. *)
Definition issue_promo_credit (env : RewardEnv) (user : Z) (amount : dec) (campaign key : string) (db : Db)
    : res db_error (credit_result * Db) :=
  match quantize_dec amount (Some (rider_currency user db)) with
  | Err _ => Ok (CreditRefused "invalid_amount", db)
  | Ok v =>
    if dleb v (of_Z 0) then Ok (CreditRefused "invalid_amount", db)
    else
      let '(wallet, db) := get_wallet user SCOPE_RIDER db in
      let currency := Some (wallet_currency wallet) in
      let* current := lift_money (from_minor_Z (balance_minor wallet) currency) in
      let* projected := lift_arith (dadd current v) in
      if dltb CREDIT_CAP projected then Ok (CreditRefused "cap_exceeded", db)
      else
        let row_currency := stamped_by_wallet (rw_first env user db) EmptyString in
        let* m := lift_money (to_minor_dec v (Some row_currency)) in
        match create_txn user row_currency m credit ("promo:" +:+ campaign) campaign key db with
        | Ok (j, db) =>
          let* b := lift_money (to_minor_dec projected currency) in
          Ok (CreditIssued j, save_balance user SCOPE_RIDER b db)
        | Err _ =>
          match List.find (fun x => bool_decide (txn_key x = Some key) && (txn_user x =? user)) (txns db) with
          | Some x => Ok (CreditDuplicate (txn_id x), db)
          | None => Err IntegrityError
          end
        end
  end.

(** [_credit]: one side of the referral [k]; [Refused] is [_CreditRefused]. *)
Definition credit_side (env : RewardEnv) (k i : Z) (c : Campaign) (user n : Z) (who : string) (db : Db) : res db_error Db :=
  let key := "referral:" +:+ number k +:+ ":" +:+ who in
  let* (j, db) :=
    (if bool_decide (rw_role env user = "rider") then
       let* amount := lift_money (from_minor_Z n (Some (campaign_currency c))) in
       let* (r, db) := issue_promo_credit env user amount ("referral:" +:+ number i) key db in
       match r with
       | CreditIssued j | CreditDuplicate j => Ok (j, db)
       | CreditRefused why => Err (Refused why)
       end
     else reward_driver env user (campaign_currency c) n REFERRAL_REWARD ("REFERRAL_" +:+ number k) key db) in
  create_entry {| pe_kind := REFERRAL_REWARD; pe_campaign := i; pe_user := user; pe_trip := None; pe_amount := n;
    pe_currency := campaign_currency c; pe_txn := Some j; pe_key := key |} db.

Definition credit_if_any (env : RewardEnv) (k i : Z) (c : Campaign) (user n : Z) (who : string) (db : Db) : res db_error Db :=
  if 0 <? n then credit_side env k i c user n who db else Ok db.

Definition referrer_minor (c : Campaign) : Z := or_else 0 (referrer_reward_minor (config c)).
Definition referee_minor (c : Campaign) : Z := or_else 0 (referee_reward_minor (config c)).

(** [pay]: [true] when the referral is rewarded; a refusal rolls everything back and leaves it
    qualified. *)
Definition pay_referral (env : RewardEnv) (k i : Z) (c : Campaign) (referrer referee : Z) (db : Db) : res db_error (bool * Db) :=
  let total := referrer_minor c + referee_minor c in
  if total <=? 0 then Ok (true, db)
  else
    match (let* db := spend_now i total db in
           let* db := credit_if_any env k i c referrer (referrer_minor c) "referrer" db in
           credit_if_any env k i c referee (referee_minor c) "referee" db) with
    | Ok db => Ok (true, db)
    | Err (Refused _) => Ok (false, db)
    | Err e => Err e
    end.

(** ** Raising a budget *)

Definition MAX_BUDGET_MINOR : Z := 10 ^ 12.

(** [propose_budget_increase], given whether the actor may write the campaign and whether a
    request is waiting: the payload, from what to what. *)
Definition propose_budget_increase (may : bool) (reason : string) (new_budget : Z) (waiting : bool) (c : Campaign)
    : res string (Z * Z) :=
  let* _ := require may "SCOPE_NOT_HELD" in
  let* _ := require (negb (bool_decide (strip reason = EmptyString))) "REASON_REQUIRED" in
  let* _ := require ((1 <=? new_budget) && (new_budget <=? MAX_BUDGET_MINOR)) "INVALID_FIELD" in
  match budget_minor c with
  | Some b =>
    let* _ := require (negb (is_legacy c)) "CAMPAIGN_NOT_BUDGETED" in
    let* _ := require (bool_decide (campaign_state_of c ∈ [Scheduled; LIVE; Paused; EXHAUSTED])) "CAMPAIGN_WRONG_STATE" in
    let* _ := require (b <? new_budget) "BUDGET_NOT_INCREASED" in
    let* _ := require (negb waiting) "BUDGET_REQUEST_OPEN" in
    Ok (b, new_budget)
  | None => Err "CAMPAIGN_NOT_BUDGETED"
  end.

Definition with_limit (b : Z) (st : campaign_state) (ex : option Z) (c : Campaign) : Campaign :=
  {| campaign_kind := campaign_kind c; campaign_name := campaign_name c; campaign_state_of := st;
     campaign_country := campaign_country c; campaign_node := campaign_node c;
     campaign_place := campaign_place c; campaign_currency := campaign_currency c;
     budget_minor := Some b; committed_minor := committed_minor c; spent_minor := spent_minor c;
     overshoot_minor := overshoot_minor c; starts_at := starts_at c; ends_at := ends_at c; exhausted_at := ex;
     campaign_promo := campaign_promo c; is_legacy := is_legacy c; config := config c |}.

(** [execute_budget_increase], once a checker approved the payload. *)
Definition execute_budget_increase (i from_minor to_minor : Z) (db : Db) : res string Db :=
  let* c := res_opt "CAMPAIGN_GONE" (campaigns db !! i) in
  let* _ := require (negb (bool_decide (campaign_state_of c ∈ [Store.Cancelled; Ended; Draft; PendingApproval]))) "CAMPAIGN_WRONG_STATE" in
  let* _ := require (bool_decide (budget_minor c = Some from_minor)) "BUDGET_CHANGED" in
  let c' := if bool_decide (campaign_state_of c = EXHAUSTED) &&
               (min_viable_minor c <=? to_minor - committed_minor c - spent_minor c) &&
               match ends_at c with None => true | Some e => clock db <? e end
            then with_limit to_minor LIVE None c
            else with_limit to_minor (campaign_state_of c) (exhausted_at c) c in
  Ok (set_campaigns (<[i := c']> (campaigns db)) db).
