(* ===== verification/PromoSafety.v ===== *)
(** * PromoSafety: the counters of a campaign are its redemptions and rewards

    Bookings, settlements, releases, operators' ends, rewards paid at once, budgets raised and
    campaigns launched, paused and resumed, in any order: what is committed is what riders hold,
    what is spent is what the ledger of promotions says, and the budget is not passed. *)

From Stdlib Require Import QArith.
From S2P Require Import Prelude PyDecimal PyText Countries Models Money Commission Zones PromoTax Alerts Store Promos Settlement Drivers Trips OperatorEnd Rewards.
#[local] Open Scope Z_scope.

(** ** Lemmas: the redemptions behind a budget *)

Definition weight (i : Z) (r : Redemption) : Z :=
  if bool_decide (rd_campaign r = Some i) && bool_decide (rd_state r = STATE_COMMITTED)
  then discount_amount_minor r else 0.

(** What riders hold against a campaign: the committed redemptions. *)
Definition booked (db : Db) (i : Z) : Z := zsum (weight i) (redemptions db).

Definition cap_ok (ends : bool) (c : Campaign) : Prop :=
  0 <= overshoot_minor c /\ (ends = false -> overshoot_minor c = 0) /\
  forall b, budget_minor c = Some b -> used c <= b + overshoot_minor c.

(** The invariant; [ends] says whether operators may end trips. *)
Record promo_ok (ends : bool) (db : Db) : Prop := {
  po_ids : base.NoDup (rd_id <$> redemptions db);
  po_next : forall r, r ∈ redemptions db -> rd_id r < next_id db;
  po_campaign : forall r i, r ∈ redemptions db -> rd_campaign r = Some i -> is_Some (campaigns db !! i);
  po_fresh : forall i c, campaigns db !! i = Some c -> i < next_id db;
  po_nonneg : forall r, r ∈ redemptions db -> 0 <= discount_amount_minor r;
  po_committed : forall i c, campaigns db !! i = Some c -> committed_minor c = booked db i;
  po_cap : forall i c, campaigns db !! i = Some c -> cap_ok ends c
}.

Lemma promo_ok_frame (e : bool) (db db' : Db) :
  promo_ok e db -> campaigns db' = campaigns db -> redemptions db' = redemptions db -> next_id db <= next_id db' ->
  promo_ok e db'.
Proof.
  intros [H1 H2 H3 H4 H5 H6 H7] Hc Hr Hn. split; unfold booked in *; rewrite ?Hc, ?Hr; try done.
  - intros r Hin. specialize (H2 r Hin). lia.
  - intros i c Hi. specialize (H4 i c Hi). lia.
Qed.

(** One redemption changes, and its campaign's counters with it. *)
Lemma promo_update (e : bool) (db db' : Db) (r : Redemption) (f : Redemption -> Redemption) :
  promo_ok e db -> r ∈ redemptions db ->
  (forall x, rd_id (f x) = rd_id x /\ rd_campaign (f x) = rd_campaign x) ->
  0 <= discount_amount_minor (f r) ->
  redemptions db' = (fun x => if rd_id x =? rd_id r then f x else x) <$> redemptions db ->
  next_id db <= next_id db' ->
  match rd_campaign r with
  | None => campaigns db' = campaigns db
  | Some i => exists c c', campaigns db !! i = Some c /\ campaigns db' = <[i := c']> (campaigns db) /\
      committed_minor c' = committed_minor c - weight i r + weight i (f r) /\ cap_ok e c'
  end ->
  promo_ok e db'.
Proof.
  intros [H1 H2 H3 H4 H5 H6 H7] Hr Hf Hnn Hmap Hn Hc.
  assert (forall x, x ∈ redemptions db' -> exists y, y ∈ redemptions db /\ rd_id x = rd_id y /\
    rd_campaign x = rd_campaign y /\ 0 <= discount_amount_minor x) as Hel.
  { rewrite Hmap. intros x (y & -> & Hy)%list_elem_of_fmap. exists y. split; [done|].
    destruct (Z.eqb_spec (rd_id y) (rd_id r)) as [E|]; [|by auto].
    destruct (Hf y) as [-> ->]. repeat split; try done.
    apply list_elem_of_lookup_1 in Hr as [i Hi], Hy as [j Hj].
    assert ((rd_id <$> redemptions db) !! i = Some (rd_id r)) as Li by (by rewrite list_lookup_fmap, Hi).
    assert ((rd_id <$> redemptions db) !! j = Some (rd_id r)) as Lj by (by rewrite list_lookup_fmap, Hj; cbn; rewrite E).
    pose proof (NoDup_lookup _ _ _ _ H1 Li Lj). assert (y = r) as -> by congruence. done. }
  assert (forall i, booked db' i = booked db i - weight i r + weight i (f r)) as Hb.
  { intros i. unfold booked. rewrite Hmap. by apply zsum_update. }
  assert (forall i, rd_campaign r <> Some i -> booked db' i = booked db i) as Hother.
  { intros i Hi. rewrite Hb. unfold weight. destruct (Hf r) as [_ ->].
    rewrite !bool_decide_false by done. cbn. lia. }
  assert (forall i c, campaigns db' !! i = Some c -> i < next_id db /\ committed_minor c = booked db' i /\ cap_ok e c) as Hcs.
  { destruct (rd_campaign r) as [k|] eqn:Ek.
    - destruct Hc as (c & c' & Hk & -> & Hcm & Hcap). intros i c0 [[<- <-]|[Hne Hi]]%lookup_insert_Some.
      + split; [by eapply H4|]. split; [|done]. rewrite Hb, <- (H6 _ _ Hk). done.
      + split; [by eapply H4|]. split; [|by eapply H7]. rewrite Hother by congruence. by apply H6.
    - rewrite Hc. intros i c0 Hi. split; [by eapply H4|]. split; [|by eapply H7].
      rewrite Hother by done. by apply H6. }
  split.
  - rewrite Hmap, <- list_fmap_compose. erewrite list_fmap_ext; [exact H1|].
    intros k x _. cbn. destruct (_ =? _); [by apply Hf|done].
  - intros x Hx. destruct (Hel x Hx) as (y & Hy & -> & _). specialize (H2 y Hy). lia.
  - intros x i Hx. destruct (Hel x Hx) as (y & Hy & _ & -> & _). intros Hi. specialize (H3 y i Hy Hi).
    destruct (rd_campaign r) as [k|]; [|by rewrite Hc].
    destruct Hc as (c & c' & _ & -> & _). destruct (decide (k = i)) as [->|];
      [by rewrite lookup_insert_eq|by rewrite lookup_insert_ne].
  - intros i c Hi. destruct (Hcs i c Hi). lia.
  - intros x Hx. by destruct (Hel x Hx) as (y & _ & _ & _ & ?).
  - intros i c Hi. by apply Hcs.
  - intros i c Hi. by eapply Hcs.
Qed.

Lemma weight_le_booked (e : bool) (db : Db) (r : Redemption) (i : Z) :
  promo_ok e db -> r ∈ redemptions db -> weight i r <= booked db i.
Proof.
  intros [_ _ _ _ H5 _ _] Hr. unfold booked. revert H5 Hr. generalize (redemptions db) as l.
  assert (forall l, (forall x, x ∈ l -> 0 <= discount_amount_minor x) -> 0 <= zsum (weight i) l) as Hnn.
  { intros l H. apply zsum_nonneg. intros x Hx. unfold weight. destruct (_ && _); [by apply H|lia]. }
  induction l as [|x l IH]; intros H Hin; [by apply not_elem_of_nil in Hin|]. cbn [zsum foldr].
  apply elem_of_cons in Hin as [<-|Hin].
  - specialize (Hnn l ltac:(intros; apply H; set_solver)). unfold zsum in Hnn. lia.
  - specialize (IH ltac:(intros; apply H; set_solver) Hin). unfold zsum in IH.
    assert (0 <= weight i x) by (unfold weight; destruct (_ && _); [apply H; set_solver|lia]). lia.
Qed.

Lemma cap_counted (e : bool) (c c' : Campaign) (m s : Z) :
  cap_ok e c -> counted c c' m s -> (e = false -> forall b, budget_minor c = Some b -> used c' <= b) -> cap_ok e c'.
Proof.
  intros (H0 & He & Hcap) [C1 C2 C3 C4 C5 C6 C7 C8 C9] Hu. split; [lia|]. split.
  - intros E. rewrite <- (He E). destruct (budget_minor c) as [b|] eqn:Eb; [|by apply C9].
    apply (C8 b eq_refl). by apply Hu.
  - intros b Hb. rewrite C4 in Hb. destruct (C7 b Hb); lia.
Qed.

Lemma committed_pending (e : bool) (db : Db) (t : Trip) : promo_ok e db -> pending (committed_on db t) db.
Proof.
  intros H. split; [apply sublist_nodup, H|]. intros r [Hr Hc]%elem_of_filter_b.
  apply andb_true_iff in Hc as [_ Hc%bool_decide_eq_true]. done.
Qed.

Lemma weight_committed (r : Redemption) (i : Z) :
  rd_campaign r = Some i -> rd_state r = STATE_COMMITTED -> weight i r = discount_amount_minor r.
Proof. intros H1 H2. unfold weight. by rewrite !bool_decide_true. Qed.

Lemma weight_left (r : Redemption) (s : redemption_state) (i : Z) : s <> STATE_COMMITTED -> weight i (with_state s r) = 0.
Proof. intros H. unfold weight. cbn. by rewrite (bool_decide_false (s = STATE_COMMITTED)), andb_false_r. Qed.

Lemma settle_all_promo_ok (e : bool) (t : Trip) (du : option Z) (cash : bool) (l : list Redemption) (db db' : Db) (n : Z) :
  promo_ok e db -> pending l db -> settle_all t du cash l db = Ok (n, db') -> promo_ok e db'.
Proof.
  revert db n. induction l as [|r l IH]; intros db n Hok Hp; cbn [settle_all]; [by intros [= <- <-]|]. intros H.
  apply res_bind_ok in H as ([n1 db1] & H1%settle_redemption_ok & H). apply res_bind_ok in H as ([m db2] & H2 & H).
  injection H as <- <-. destruct (proj2 Hp r ltac:(set_solver)) as [Hr Hst].
  destruct (rd_campaign r) as [i|] eqn:Ei.
  - destruct H1 as (-> & _ & c & c' & Hc & Hct & Hcs & Hrd & _ & Hnx & _).
    apply (IH db1 m); [|by eapply pending_cons|done].
    pose proof (weight_le_booked e db r i Hok Hr) as Hw. rewrite (weight_committed r i Ei Hst) in Hw.
    rewrite <- (po_committed e db Hok i c Hc) in Hw.
    apply (promo_update e db db1 r (with_state STATE_SETTLED)); try done.
    + exact (po_nonneg e db Hok r Hr).
    + rewrite Ei. exists c, c'. split; [done|]. split; [done|]. split.
      * rewrite weight_committed, weight_left by done. destruct Hct as [-> _ _ _ _ _ _ _ _]. lia.
      * eapply cap_counted; [by eapply (po_cap e db Hok)|exact Hct|]. intros -> b Hb.
        destruct (po_cap false db Hok i c Hc) as (_ & Hz & Hcap). specialize (Hcap b Hb). rewrite Hz in Hcap by done.
        unfold used in *. destruct Hct as [-> -> _ _ _ _ _ _ _]. lia.
  - destruct H1 as [-> ->]. apply (IH db m); [done| |done]. split.
    + destruct Hp as [Hn _]. rewrite fmap_cons in Hn. by apply NoDup_cons in Hn as [_ Hn].
    + intros x Hx. apply (proj2 Hp). set_solver.
Qed.

Lemma release_all_promo_ok (e : bool) (l : list Redemption) (db db' : Db) (n : Z) :
  promo_ok e db -> pending l db -> release_all l db = Ok (n, db') -> promo_ok e db'.
Proof.
  revert db n. induction l as [|r l IH]; intros db n Hok Hp; cbn [release_all]; [by intros [= <- <-]|]. intros H.
  apply res_bind_ok in H as (db1 & H1 & H). apply res_bind_ok in H as ([m db2] & H2 & H). injection H as <- <-.
  destruct (pending_head _ _ _ Hp) as [Hr Hst].
  set (db1' := save_redemption (rd_id r) (with_state STATE_RELEASED) (decrement_count (rd_promo r) db1)) in *.
  assert (redemptions db1 = redemptions db /\ next_id db1 = next_id db) as [Hrd Hnx].
  { destruct (rd_campaign r) as [i|]; [|by injection H1 as <-].
    apply release_ok in H1 as (c & c' & b & _ & _ & _ & _ & _ & _ & _ & [B1 B2 B3 B4 B5 B6 B7 B8 B9]). done. }
  assert (redemptions db1' = (fun y => if rd_id y =? rd_id r then with_state STATE_RELEASED y else y) <$> redemptions db) as Hmap
    by (unfold db1'; cbn; by rewrite Hrd).
  apply (IH db1' m); [|by eapply pending_cons|done].
  apply (promo_update e db db1' r (with_state STATE_RELEASED)); try done.
  - exact (po_nonneg e db Hok r Hr).
  - unfold db1'. cbn. lia.
  - destruct (rd_campaign r) as [i|] eqn:Ei; [|by injection H1 as <-].
    apply release_ok in H1 as (c & c' & b & Hc & Hb & Hb' & Hm & Hs & Ho & _ & [B1 _ _ _ _ _ _ _ _]).
    pose proof (weight_le_booked e db r i Hok Hr) as Hw. rewrite (weight_committed r i Ei Hst) in Hw.
    rewrite <- (po_committed e db Hok i c Hc) in Hw.
    pose proof (po_nonneg e db Hok r Hr).
    exists c, c'. split; [done|]. split; [done|]. split; [rewrite weight_committed, weight_left by done; lia|].
    destruct (po_cap e db Hok i c Hc) as (H0 & He & Hcap). split; [lia|]. split; [by rewrite Ho|].
    intros b' Hb2. rewrite Hb' in Hb2. injection Hb2 as <-. specialize (Hcap b Hb). unfold used in *. lia.
Qed.

(** The code's own computation of the amount, whatever it is, is what the budget records. *)
Lemma weight_amount (r : Redemption) (n i : Z) :
  rd_campaign r = Some i -> rd_state r = STATE_COMMITTED -> weight i (with_amount n r) = n.
Proof. intros H1 H2. unfold weight. cbn. by rewrite !bool_decide_true. Qed.

Definition amounts_ok (db : Db) : Prop := forall r, r ∈ redemptions db -> 0 <= discount_amount_minor r.

Lemma save_amounts (db : Db) (r : Redemption) (n : Z) :
  r ∈ redemptions db -> amounts_ok (save_redemption (rd_id r) (with_amount n) db) -> 0 <= n.
Proof.
  intros Hr H. apply (H (with_amount n r)). cbn. apply list_elem_of_fmap. exists r. by rewrite Z.eqb_refl.
Qed.

(** The reworked amounts of a list stay in the final state. *)
Lemma rework_keeps (env : PromoEnv) (capped : Z) (l : list Redemption) (bu : option Z) (db db' : Db) (x : Redemption) :
  rework env capped bu l db = Ok db' -> x ∈ redemptions db -> rd_id x ∉ rd_id <$> l -> x ∈ redemptions db'.
Proof.
  revert bu db. induction l as [|r l IH]; intros bu db; cbn [rework]; [by intros [= <-]|]. intros H Hx Hnot.
  apply res_bind_ok in H as (one & _ & H).
  destruct (match bu with Some b => _ | None => _ end) as [new bu']. apply res_bind_ok in H as (db1 & H1 & H).
  rewrite fmap_cons in Hnot. apply not_elem_of_cons in Hnot as [Hne Hnot].
  apply (IH _ _ H); [|done]. cbn. apply (save_redemption_elem db1 (rd_id r) (with_amount new) l); [|done].
  destruct (rd_campaign r) as [i|]; [|by injection H1 as <-]. destruct (_ =? _); [by injection H1 as <-|].
  apply adjust_ok in H1 as (c & c' & _ & _ & [B1 B2 B3 B4 B5 B6 B7 B8 B9]). by rewrite B5.
Qed.

Lemma rework_promo_ok (env : PromoEnv) (capped : Z) (l : list Redemption) (bu : option Z) (db db' : Db) :
  promo_ok true db -> pending l db -> rework env capped bu l db = Ok db' -> amounts_ok db' -> promo_ok true db'.
Proof.
  revert bu db. induction l as [|r l IH]; intros bu db Hok Hp; cbn [rework]; [by intros [= <-]|]. intros H Hfin.
  apply res_bind_ok in H as (one & _ & H).
  destruct (match bu with Some b => _ | None => _ end) as [new bu']. apply res_bind_ok in H as (db1 & H1 & H).
  destruct (pending_head _ _ _ Hp) as [Hr Hst].
  set (db1' := save_redemption (rd_id r) (with_amount new) db1) in *.
  assert (redemptions db1 = redemptions db /\ next_id db1 = next_id db) as [Hrd Hnx].
  { destruct (rd_campaign r) as [i|]; [|by injection H1 as <-]. destruct (_ =? _); [by injection H1 as <-|].
    apply adjust_ok in H1 as (c & c' & _ & _ & [B1 B2 B3 B4 B5 B6 B7 B8 B9]). done. }
  assert (redemptions db1' = (fun y => if rd_id y =? rd_id r then with_amount new y else y) <$> redemptions db) as Hmap
    by (unfold db1'; cbn; by rewrite Hrd).
  assert (0 <= new) as Hnew.
  { apply (Hfin (with_amount new r)). apply (rework_keeps _ _ _ _ _ _ (with_amount new r) H).
    - rewrite Hmap. apply list_elem_of_fmap. exists r. by rewrite Z.eqb_refl.
    - destruct Hp as [Hn _]. rewrite fmap_cons in Hn. by apply NoDup_cons in Hn as [? _]. }
  apply (IH bu' db1'); [|by eapply pending_cons|done|done].
  apply (promo_update true db db1' r (with_amount new)); try done.
  - unfold db1'. cbn. lia.
  - destruct (rd_campaign r) as [i|] eqn:Ei; [|by injection H1 as <-].
    pose proof (weight_le_booked true db r i Hok Hr) as Hw. rewrite (weight_committed r i Ei Hst) in Hw.
    destruct (Z.eqb_spec new (discount_amount_minor r)) as [E|N].
    + injection H1 as <-. destruct (po_campaign true db Hok r i Hr Ei) as [c Hc].
      exists c, c. split; [done|]. split; [unfold db1'; cbn; by rewrite insert_id|].
      split; [rewrite weight_committed, weight_amount by done; lia|by eapply (po_cap true db Hok)].
    + apply adjust_ok in H1 as (c & c' & Hc & Hct & [B1 _ _ _ _ _ _ _ _]).
      rewrite <- (po_committed true db Hok i c Hc) in Hw.
      exists c, c'. split; [done|]. split; [done|]. split.
      * rewrite weight_committed, weight_amount by done. destruct Hct as [-> _ _ _ _ _ _ _ _]. lia.
      * eapply cap_counted; [by eapply (po_cap true db Hok)|exact Hct|done].
Qed.

Lemma ensure_legacy_promo_ok (e : bool) (env : PromoEnv) (p : PromoCode) (db : Db) :
  promo_ok e db -> promo_ok e (ensure_legacy_campaign env p db).2.
Proof.
  intros [H1 H2 H3 H4 H5 H6 H7]. unfold ensure_legacy_campaign. cbn [snd].
  assert (campaigns db !! next_id db = None) as Hfresh.
  { destruct (campaigns db !! next_id db) as [c|] eqn:E; [|done]. specialize (H4 _ _ E). lia. }
  split; cbn; try done.
  - intros r Hr. specialize (H2 r Hr). lia.
  - intros r i Hr Hi. destruct (H3 r i Hr Hi) as [c Hc]. specialize (H4 i c Hc).
    rewrite lookup_insert_ne by lia. by exists c.
  - intros i c [[<- <-]|[_ Hi]]%lookup_insert_Some; [lia|]. specialize (H4 i c Hi). lia.
  - intros i c [[<- <-]|[_ Hi]]%lookup_insert_Some; [|by apply H6].
    change (0 = booked db (next_id db)). unfold booked. rewrite (zsum_ext _ (fun _ => 0)); [by rewrite zsum_zero|]. intros r Hr. unfold weight.
    rewrite bool_decide_false; [done|]. intros Hi. destruct (H3 r _ Hr Hi) as [c Hc]. congruence.
  - intros i c [[<- <-]|[_ Hi]]%lookup_insert_Some; [|by eapply H7]. split; [cbn; lia|]. split; [done|]. cbn. done.
Qed.

Lemma to_minor_requantized (d q : dec) (c : option string) (m n : Z) :
  to_minor_dec d c = Ok m -> quantize_dec d c = Ok q -> to_minor_dec q c = Ok n -> n = m.
Proof.
  intros Hm Hq Hn. unfold quantize_dec in Hq. rewrite Hm in Hq. cbn [res_bind] in Hq.
  unfold to_minor_dec in Hm. apply res_bind_ok in Hm as (e & He & Hm).
  apply res_bind_ok in Hm as (s & _ & Hm). unfold lift_dec, quantize_int_half_up in Hm.
  cbv zeta in Hm. destruct (prec <? _) eqn:E; [done|]. cbn in Hm. injection Hm as Hm. rewrite Hm in E. bool_cases.
  assert (Z.abs m < 10 ^ prec) as Hb.
  { pose proof (ndigits_upper m). pose proof (Z.pow_le_mono_r 10 _ _ ltac:(lia) E). lia. }
  rewrite (proj1 (from_minor_Z_spec m c e Hb He)) in Hq. injection Hq as <-.
  rewrite (to_minor_of_minor m c e Hb He) in Hn. by injection Hn.
Qed.

Lemma insert_redemption_promo_ok (e : bool) (db0 db1 : Db) (p : PromoCode) (user trip i n : Z) (c c' : Campaign) :
  promo_ok e db0 -> campaigns db0 !! i = Some c -> 0 <= n ->
  (forall b, budget_minor c = Some b -> used c + n <= b) ->
  counted c c' (committed_minor c + n) (spent_minor c) -> budget_only i c' db0 db1 ->
  promo_ok e (insert_redemption p user trip n i db1).
Proof.
  intros Hok Hc Hn Hfit Hct Hbo. pose proof Hok as [H1 H2 H3 H4 H5 H6 H7].
  destruct Hbo as [B1 B2 B3 B4 B5 B6 B7 B8 B9].
  assert (cap_ok e c') as Hcap.
  { eapply cap_counted; [by eapply H7|exact Hct|]. intros _ b Hb. specialize (Hfit b Hb). unfold used in *.
    destruct Hct as [-> -> _ _ _ _ _ _ _]. lia. }
  assert (forall j, booked (insert_redemption p user trip n i db1) j = booked db0 j + (if bool_decide (i = j) then n else 0)) as Hb.
  { intros j. unfold booked, insert_redemption. cbn [redemptions set_redemptions]. rewrite zsum_app, B5.
    cbn [zsum foldr]. unfold weight at 2. cbn. rewrite andb_true_r.
    destruct (bool_decide_reflect (i = j)); [rewrite bool_decide_true by congruence|rewrite bool_decide_false by congruence]; lia. }
  split.
  - cbn. rewrite B5, fmap_app. apply NoDup_app. split; [done|]. split; [|apply NoDup_singleton].
    intros x (r & -> & Hr)%list_elem_of_fmap Hx. apply list_elem_of_singleton in Hx. cbn in Hx.
    specialize (H2 r Hr). lia.
  - cbn. rewrite B5, B4. intros r [Hr|Hr%list_elem_of_singleton]%elem_of_app; [specialize (H2 r Hr); lia|subst r; cbn; lia].
  - cbn. rewrite B5, B1. intros r j [Hr|Hr%list_elem_of_singleton]%elem_of_app Hj.
    + destruct (decide (i = j)) as [->|]; [by rewrite lookup_insert_eq|]. rewrite lookup_insert_ne by done. by apply (H3 r).
    + subst r. cbn in Hj. injection Hj as <-. by rewrite lookup_insert_eq.
  - cbn. rewrite B1, B4. intros j cj [[<- <-]|[_ Hj]]%lookup_insert_Some; [specialize (H4 i c Hc)|specialize (H4 j cj Hj)]; lia.
  - cbn. rewrite B5. intros r [Hr|Hr%list_elem_of_singleton]%elem_of_app; [by apply H5|by subst r].
  - intros j cj Hj. rewrite Hb. cbn in Hj. rewrite B1 in Hj. apply lookup_insert_Some in Hj as [[<- <-]|[Hne Hj]].
    + rewrite bool_decide_true by done. destruct Hct as [-> _ _ _ _ _ _ _ _]. by rewrite (H6 i c Hc).
    + rewrite bool_decide_false, (H6 j cj Hj) by done. lia.
  - intros j cj Hj. cbn in Hj. rewrite B1 in Hj. apply lookup_insert_Some in Hj as [[<- <-]|[Hne Hj]]; [done|by eapply H7].
Qed.

Lemma reserve_for_redemption_ok (e : bool) (env : PromoEnv) (p : PromoCode) (user : Z) (d : dec) (zone : option Zone)
    (db db1 : Db) (x : Z + string) :
  promo_ok e db -> reserve_for_redemption env p user d zone db = Ok (x, db1) ->
  exists db0, promo_ok e db0 /\
    match x with
    | inr _ => db1 = db0
    | inl i => exists n c c', to_minor_dec d (Some (pc_currency p)) = Ok n /\ campaigns db0 !! i = Some c /\
        (forall b, budget_minor c = Some b -> used c + n <= b) /\
        counted c c' (committed_minor c + n) (spent_minor c) /\ budget_only i c' db0 db1
    end.
Proof.
  intros Hok. unfold reserve_for_redemption.
  destruct (match campaign_for db (pc_id p) with Some ic => (ic, db) | None => _ end) as [[i c] db0] eqn:E.
  assert (promo_ok e db0) as H0.
  { destruct (campaign_for _ _) as [ic|]; [by injection E as _ <-|].
    pose proof (ensure_legacy_promo_ok e env p db Hok) as H. by rewrite E in H. }
  exists db0. split; [done|].
  destruct (negb _); [by simplify_eq|]. destruct (negb _); [by simplify_eq|]. destruct (_ && _); [by simplify_eq|].
  apply res_bind_ok in H as (n & Hn & H). destruct (to_minor_dec _ _) as [m|] eqn:Em; [|done]. injection Hn as ->.
  destruct (reserve i n db0) as [db2|err] eqn:R.
  - injection H as <- <-. apply reserve_ok in R as (c0 & c' & Hc & _ & Hfit & Hct & Hbo). by exists n, c0, c'.
  - destruct err; simplify_eq; done.
Qed.

Lemma redeem_promo_ok (e : bool) (env : PromoEnv) (code : option string) (user : Z) (t : Trip) (fare : dec)
    (zone : option Zone) (tax : tax_arg) (at_ : Z) (db db' : Db) (r : PromoResult * Trip + string) :
  promo_ok e db -> redeem_promo env code user t fare zone tax at_ db = Ok (r, db') -> amounts_ok db' -> promo_ok e db'.
Proof.
  intros Hok H Hnn. unfold redeem_promo in H. destruct (List.find _ _) as [p|]; [|by simplify_eq].
  destruct (negb _); [by simplify_eq|]. apply res_bind_ok in H as (why & _ & H).
  destruct why as [w|]; [by simplify_eq|].
  apply res_bind_ok in H as ([d adj] & _ & H). apply res_bind_ok in H as ([d' final] & _ & H).
  apply res_bind_ok in H as ([x db1] & Hr & H).
  apply (reserve_for_redemption_ok e) in Hr as (db0 & H0 & Hx); [|done].
  destruct x as [i|w]; [|by simplify_eq].
  destruct Hx as (n & c & c' & Hn & Hc & Hfit & Hct & Hbo).
  apply res_bind_ok in H as (two & Htwo & H). apply res_bind_ok in H as (minor & Hminor & H).
  apply res_bind_ok in H as (t' & _ & H). injection H as _ <-.
  destruct (quantize_dec _ _) as [q|] eqn:Eq; [|done]. injection Htwo as ->.
  destruct (to_minor_dec two _) as [m|] eqn:Em; [|done]. injection Hminor as ->.
  pose proof (to_minor_requantized _ _ _ _ _ Hn Eq Em) as ->.
  eapply insert_redemption_promo_ok; try done.
  eapply (Hnn {| rd_id := _ |}). cbn. apply elem_of_app. right. apply list_elem_of_singleton. reflexivity.
Qed.

(** ** What was spent *)

(** The settled redemptions of a campaign. *)
Definition settled_weight (i : Z) (r : Redemption) : Z :=
  if bool_decide (rd_campaign r = Some i) && bool_decide (rd_state r = STATE_SETTLED) then discount_amount_minor r else 0.

Definition settled (db : Db) (i : Z) : Z := zsum (settled_weight i) (redemptions db).

(** Its rows in the ledger of promotions: discounts, and rewards. *)
Definition entry_weight (discounts : bool) (i : Z) (e : PromoEntry) : Z :=
  if (pe_campaign e =? i) && Bool.eqb (bool_decide (pe_kind e = DISCOUNT_FUNDED)) discounts then pe_amount e else 0.

Definition discounts (db : Db) (i : Z) : Z := zsum (entry_weight true i) (promo_entries db).
Definition rewards (db : Db) (i : Z) : Z := zsum (entry_weight false i) (promo_entries db).
Definition ledger (db : Db) (i : Z) : Z := zsum (fun e => if pe_campaign e =? i then pe_amount e else 0) (promo_entries db).

Lemma ledger_split (db : Db) (i : Z) : ledger db i = discounts db i + rewards db i.
Proof.
  unfold ledger, discounts, rewards. induction (promo_entries db) as [|e l IH]; [done|]. cbn [zsum foldr]. unfold zsum in IH. rewrite IH.
  assert ((if pe_campaign e =? i then pe_amount e else 0) = entry_weight true i e + entry_weight false i e) as ->; [|lia].
  unfold entry_weight. destruct (_ =? i), (bool_decide (pe_kind e = DISCOUNT_FUNDED)); cbn; lia.
Qed.

(** The books of spending, when rewards of [owed] are taken from a budget and not yet written. *)
Record books (owed : Z -> Z) (db : Db) : Prop := {
  bk_spent : forall i c, campaigns db !! i = Some c -> spent_minor c = settled db i + rewards db i + owed i;
  bk_discounts : forall i, discounts db i = settled db i;
  bk_entries : forall e, e ∈ promo_entries db -> is_Some (campaigns db !! pe_campaign e)
}.

Definition nothing_owed : Z -> Z := fun _ => 0.

Definition owed_at (i n : Z) : Z -> Z := fun j => if i =? j then n else 0.

Lemma no_rewards (db : Db) (o : Z -> Z) (i : Z) : books o db -> campaigns db !! i = None -> rewards db i = 0.
Proof.
  intros [_ _ H] Hi. unfold rewards. rewrite (zsum_ext _ (fun _ => 0)); [apply zsum_zero|]. intros e He. unfold entry_weight.
  destruct (Z.eqb_spec (pe_campaign e) i) as [<-|]; [|done]. destruct (H e He) as [c Hc]. congruence.
Qed.

(** Nothing is spent, and a new campaign starts at nothing. *)
Lemma books_keep (o : Z -> Z) (db db' : Db) :
  books o db -> promo_entries db' = promo_entries db -> (forall j, settled db' j = settled db j) ->
  (forall j, is_Some (campaigns db !! j) -> is_Some (campaigns db' !! j)) ->
  (forall j c', campaigns db' !! j = Some c' ->
     (exists c, campaigns db !! j = Some c /\ spent_minor c' = spent_minor c) \/
     (campaigns db !! j = None /\ spent_minor c' = 0 /\ settled db j = 0 /\ o j = 0)) ->
  books o db'.
Proof.
  intros Hb He Hs Hd Hc. pose proof Hb as [B1 B2 B3].
  assert (forall j, rewards db' j = rewards db j /\ discounts db' j = discounts db j) as Hr by (intros j; unfold rewards, discounts; by rewrite He).
  split.
  - intros j c' Hj. rewrite Hs, (proj1 (Hr j)). destruct (Hc j c' Hj) as [(c & H1 & ->)|(H1 & -> & H2 & H3)]; [by apply B1|].
    rewrite (no_rewards db o j Hb H1). lia.
  - intros j. rewrite Hs, (proj2 (Hr j)). apply B2.
  - rewrite He. intros e H. by apply Hd, B3.
Qed.

Lemma books_frame (o : Z -> Z) (db db' : Db) :
  books o db -> campaigns db' = campaigns db -> redemptions db' = redemptions db -> promo_entries db' = promo_entries db -> books o db'.
Proof.
  intros Hb Hc Hr He. apply (books_keep o db); [done|done| |by rewrite Hc|rewrite Hc; eauto]. intros j. unfold settled. by rewrite Hr.
Qed.

(** A write of one campaign's row. *)
Lemma books_campaign (o : Z -> Z) (db db' : Db) (i : Z) (c c' : Campaign) :
  books o db -> campaigns db !! i = Some c -> campaigns db' = <[i := c']> (campaigns db) -> spent_minor c' = spent_minor c ->
  (forall j, settled db' j = settled db j) -> promo_entries db' = promo_entries db -> books o db'.
Proof.
  intros Hb Hi Hc Hs Hr He. apply (books_keep o db); [done|done|done| |].
  - intros j [x Hx]. rewrite Hc. destruct (decide (i = j)) as [->|]; [by rewrite lookup_insert_eq|rewrite lookup_insert_ne by done; by exists x].
  - intros j x. rewrite Hc. intros [[<- <-]|[_ Hx]]%lookup_insert_Some; left; eauto.
Qed.

(** One redemption that was committed changes. *)
Lemma settled_update (db db' : Db) (r : Redemption) (f : Redemption -> Redemption) (j : Z) :
  base.NoDup (rd_id <$> redemptions db) -> r ∈ redemptions db -> rd_state r = STATE_COMMITTED ->
  redemptions db' = (fun x => if rd_id x =? rd_id r then f x else x) <$> redemptions db ->
  settled db' j = settled db j + settled_weight j (f r).
Proof.
  intros Hn Hr Hs Hmap. unfold settled. rewrite Hmap, (zsum_update rd_id (settled_weight j) f (redemptions db) r) by done.
  unfold settled_weight at 2. rewrite Hs, (bool_decide_false (STATE_COMMITTED = STATE_SETTLED)), andb_false_r by done. lia.
Qed.

Lemma settled_released (j n : Z) (r : Redemption) :
  rd_state r = STATE_COMMITTED -> settled_weight j (with_state STATE_RELEASED r) = 0 /\ settled_weight j (with_amount n r) = 0.
Proof. intros Hs. unfold settled_weight. cbn. rewrite Hs. by rewrite !(bool_decide_false (_ = STATE_SETTLED)), !andb_false_r. Qed.

Lemma ids_update (db db' : Db) (i : Z) (f : Redemption -> Redemption) :
  (forall x, rd_id (f x) = rd_id x) -> redemptions db' = (fun x => if rd_id x =? i then f x else x) <$> redemptions db ->
  rd_id <$> redemptions db' = rd_id <$> redemptions db.
Proof. intros Hf ->. rewrite <- list_fmap_compose. apply list_fmap_ext. intros k x _. cbn. by destruct (_ =? _). Qed.

(** ** Settling, releasing and reworking keep the books *)

Lemma settle_redemption_entry (t : Trip) (du : option Z) (cash : bool) (r : Redemption) (i : Z) (db db' : Db) (n : Z) :
  settle_redemption t du cash r db = Ok (n, db') -> rd_campaign r = Some i ->
  exists e, promo_entries db' = promo_entries db ++ [e] /\ pe_campaign e = i /\ pe_kind e = DISCOUNT_FUNDED /\ pe_amount e = n.
Proof.
  unfold settle_redemption. intros H Hi. rewrite Hi in H. apply res_bind_ok in H as (db1 & (c & c' & _ & _ & Hbo)%settle_ok & H).
  apply res_bind_ok in H as ([txn db2] & Hm & H). apply res_bind_ok in H as (db3 & (_ & _ & ->)%create_entry_ok & H). injection H as <- <-.
  assert (promo_entries db2 = promo_entries db1) as E.
  { destruct cash, du as [u|]; try (by injection Hm as _ <-). apply res_bind_ok in Hm as ([j db4] & (_ & _ & ->)%create_txn_ok & Hm). by injection Hm as _ <-. }
  eexists. cbn [promo_entries set_promo_entries]. rewrite E, (bo_entries _ _ _ _ Hbo). split; [reflexivity|]. done.
Qed.

Lemma entry_added (db db' : Db) (e : PromoEntry) (d : bool) (j : Z) :
  promo_entries db' = promo_entries db ++ [e] ->
  zsum (entry_weight d j) (promo_entries db') = zsum (entry_weight d j) (promo_entries db) + entry_weight d j e.
Proof. intros ->. rewrite zsum_app. cbn. lia. Qed.

Lemma settle_one_books (o : Z -> Z) (t : Trip) (du : option Z) (cash : bool) (r : Redemption) (db db' : Db) (n : Z) :
  books o db -> base.NoDup (rd_id <$> redemptions db) -> r ∈ redemptions db -> rd_state r = STATE_COMMITTED ->
  settle_redemption t du cash r db = Ok (n, db') -> books o db' /\ (rd_campaign r = None -> db' = db) /\
    (rd_campaign r <> None -> redemptions db' = (fun x => if rd_id x =? rd_id r then with_state STATE_SETTLED x else x) <$> redemptions db).
Proof.
  intros [B1 B2 B3] Hn Hr Hs H. pose proof (settle_redemption_entry t du cash r) as Hent. pose proof (settle_redemption_ok _ _ _ _ _ _ _ H) as Hok.
  destruct (rd_campaign r) as [i|] eqn:Ei; [|by destruct Hok as [_ ->]].
  destruct (Hent i db db' n H eq_refl) as (e & He & E1 & E2 & E3). clear Hent.
  destruct Hok as (En & _ & c & c' & Hc & Hct & Hcs & Hrd & _). split; [|done].
  assert (forall j, settled db' j = settled db j + if bool_decide (i = j) then n else 0) as Hset.
  { intros j. rewrite (settled_update db db' r (with_state STATE_SETTLED) j Hn Hr Hs Hrd). unfold settled_weight. cbn. rewrite Ei, En, andb_true_r.
    destruct (bool_decide_reflect (i = j)); [by rewrite bool_decide_true by congruence|by rewrite bool_decide_false by congruence]. }
  assert (forall j, discounts db' j = discounts db j + if bool_decide (i = j) then n else 0) as Hdis.
  { intros j. unfold discounts. rewrite (entry_added db db' e true j He). unfold entry_weight at 2. rewrite E1, E2, E3, bool_decide_true by done.
    rewrite andb_true_r. destruct (Z.eqb_spec i j); [by rewrite bool_decide_true|by rewrite bool_decide_false]. }
  assert (forall j, rewards db' j = rewards db j) as Hrew.
  { intros j. unfold rewards. rewrite (entry_added db db' e false j He). unfold entry_weight at 2. rewrite E2, bool_decide_true, andb_false_r by done. lia. }
  split.
  - intros j cj. rewrite Hset, Hrew, Hcs. intros [[<- <-]|[N Hj]]%lookup_insert_Some.
    + rewrite bool_decide_true by done. rewrite (ct_spent _ _ _ _ Hct), (B1 i c Hc). lia.
    + rewrite bool_decide_false, (B1 j cj Hj) by done. lia.
  - intros j. rewrite Hset, Hdis, B2. done.
  - rewrite He, Hcs. intros x [Hx|Hx%list_elem_of_singleton]%elem_of_app.
    + destruct (B3 x Hx) as [y Hy]. destruct (decide (i = pe_campaign x)) as [<-|]; [by rewrite lookup_insert_eq|rewrite lookup_insert_ne by done; by exists y].
    + subst x. rewrite E1, lookup_insert_eq. by eexists.
Qed.

Lemma settle_all_books (o : Z -> Z) (t : Trip) (du : option Z) (cash : bool) (l : list Redemption) (db db' : Db) (n : Z) :
  books o db -> base.NoDup (rd_id <$> redemptions db) -> pending l db -> settle_all t du cash l db = Ok (n, db') -> books o db'.
Proof.
  revert db n. induction l as [|r l IH]; intros db n Hb Hn Hp; cbn [settle_all]; [by intros [= _ <-]|]. intros H.
  apply res_bind_ok in H as ([n1 db1] & H1 & H). apply res_bind_ok in H as ([m db2] & H2 & H). injection H as _ <-.
  destruct (pending_head _ _ _ Hp) as [Hr Hs]. destruct (settle_one_books o t du cash r db db1 n1 Hb Hn Hr Hs H1) as (Hb1 & H3 & H4).
  destruct (rd_campaign r) as [i|]; [|rewrite H3 in * by done; apply (IH db m); [done|done|by eapply pending_tail|done]].
  specialize (H4 ltac:(done)). apply (IH db1 m); [done| |by eapply pending_cons|done].
  by rewrite (ids_update db db1 (rd_id r) (with_state STATE_SETTLED) (fun _ => eq_refl) H4).
Qed.

(** A committed redemption is released, or counts otherwise: nothing is spent. *)
Lemma unsettled_books (o : Z -> Z) (r : Redemption) (f : Redemption -> Redemption) (db db' : Db) :
  books o db -> base.NoDup (rd_id <$> redemptions db) -> r ∈ redemptions db -> rd_state r = STATE_COMMITTED ->
  (forall j, settled_weight j (f r) = 0) -> redemptions db' = (fun x => if rd_id x =? rd_id r then f x else x) <$> redemptions db ->
  promo_entries db' = promo_entries db ->
  (campaigns db' = campaigns db \/ exists i c c', campaigns db !! i = Some c /\ campaigns db' = <[i := c']> (campaigns db) /\ spent_minor c' = spent_minor c) ->
  books o db'.
Proof.
  intros Hb Hn Hr Hs Hf Hmap He Hc.
  assert (forall j, settled db' j = settled db j) as Hset by (intros j; rewrite (settled_update db db' r f j Hn Hr Hs Hmap), Hf; lia).
  destruct Hc as [Hc|(i & c & c' & Hi & Hc & Hsp)]; [|by eapply (books_campaign o db db' i c c')].
  apply (books_keep o db); [done|done|done|by rewrite Hc|rewrite Hc; eauto].
Qed.

Lemma release_all_books (o : Z -> Z) (l : list Redemption) (db db' : Db) (n : Z) :
  books o db -> base.NoDup (rd_id <$> redemptions db) -> pending l db -> release_all l db = Ok (n, db') -> books o db'.
Proof.
  revert db n. induction l as [|r l IH]; intros db n Hb Hn Hp; cbn [release_all]; [by intros [= _ <-]|]. intros H.
  apply res_bind_ok in H as (db1 & H1 & H). apply res_bind_ok in H as ([m db2] & H2 & H). injection H as _ <-.
  destruct (pending_head _ _ _ Hp) as [Hr Hs]. set (db1' := save_redemption _ _ _) in *.
  assert (redemptions db1' = (fun y => if rd_id y =? rd_id r then with_state STATE_RELEASED y else y) <$> redemptions db /\
    promo_entries db1' = promo_entries db /\ (campaigns db1' = campaigns db \/ exists i c c', campaigns db !! i = Some c /\
      campaigns db1' = <[i := c']> (campaigns db) /\ spent_minor c' = spent_minor c)) as (E1 & E2 & E3).
  { unfold db1'. cbn. destruct (rd_campaign r) as [i|]; [|injection H1 as <-; auto].
    apply release_ok in H1 as (c & c' & b & Hc & _ & _ & _ & Hsp & _ & _ & [D1 _ _ _ D5 _ D7 _ _]). rewrite D5, D7. split; [done|]. split; [done|].
    right. by exists i, c, c'. }
  apply (IH db1' m); [|by rewrite (ids_update db db1' (rd_id r) (with_state STATE_RELEASED) (fun _ => eq_refl) E1)|by eapply pending_cons|done].
  apply (unsettled_books o r (with_state STATE_RELEASED) db); [done|done|done|done| |done|done|done]. intros j. by apply (settled_released j 0 r).
Qed.

Lemma rework_books (o : Z -> Z) (env : PromoEnv) (capped : Z) (l : list Redemption) (bu : option Z) (db db' : Db) :
  books o db -> base.NoDup (rd_id <$> redemptions db) -> pending l db -> rework env capped bu l db = Ok db' -> books o db'.
Proof.
  revert bu db. induction l as [|r l IH]; intros bu db Hb Hn Hp; cbn [rework]; [by intros [= <-]|]. intros H.
  apply res_bind_ok in H as (one & _ & H). destruct (match bu with Some b => _ | None => _ end) as [new bu'].
  apply res_bind_ok in H as (db1 & H1 & H). destruct (pending_head _ _ _ Hp) as [Hr Hs]. set (db1' := save_redemption _ _ _) in *.
  assert (redemptions db1' = (fun y => if rd_id y =? rd_id r then with_amount new y else y) <$> redemptions db /\
    promo_entries db1' = promo_entries db /\ (campaigns db1' = campaigns db \/ exists i c c', campaigns db !! i = Some c /\
      campaigns db1' = <[i := c']> (campaigns db) /\ spent_minor c' = spent_minor c)) as (E1 & E2 & E3).
  { unfold db1'. cbn. destruct (rd_campaign r) as [i|]; [|injection H1 as <-; auto]. destruct (_ =? _); [injection H1 as <-; auto|].
    apply adjust_ok in H1 as (c & c' & Hc & Hct & [D1 _ _ _ D5 _ D7 _ _]). rewrite D5, D7. split; [done|]. split; [done|].
    right. exists i, c, c'. by rewrite (ct_spent _ _ _ _ Hct). }
  apply (IH bu' db1'); [|by rewrite (ids_update db db1' (rd_id r) (with_amount new) (fun _ => eq_refl) E1)|by eapply pending_cons|done].
  apply (unsettled_books o r (with_amount new) db); [done|done|done|done| |done|done|done]. intros j. by apply (settled_released j new r).
Qed.

(** ** Booking keeps the books *)

Lemma settled_none (e : bool) (db : Db) (i : Z) : promo_ok e db -> campaigns db !! i = None -> settled db i = 0.
Proof.
  intros Hok Hi. unfold settled. rewrite (zsum_ext _ (fun _ => 0)); [apply zsum_zero|]. intros r Hr. unfold settled_weight.
  rewrite bool_decide_false; [done|]. intros E. destruct (po_campaign e db Hok r i Hr E) as [c Hc]. congruence.
Qed.

(** A campaign that appears with nothing spent. *)
Lemma books_new (e : bool) (db db' : Db) (i : Z) (c : Campaign) :
  promo_ok e db -> books nothing_owed db -> campaigns db !! i = None -> spent_minor c = 0 -> campaigns db' = <[i := c]> (campaigns db) ->
  redemptions db' = redemptions db -> promo_entries db' = promo_entries db -> books nothing_owed db'.
Proof.
  intros Hok Hb Hi Hs Hc Hr He. apply (books_keep nothing_owed db); [done|done| | |].
  - intros j. unfold settled. by rewrite Hr.
  - intros j [x Hx]. rewrite Hc, lookup_insert_ne by congruence. by exists x.
  - intros j x. rewrite Hc. intros [[<- <-]|[_ Hx]]%lookup_insert_Some; [|left; eauto]. right. split; [done|]. split; [done|].
    split; [by eapply settled_none|done].
Qed.

Lemma fresh_campaign (e : bool) (db : Db) : promo_ok e db -> campaigns db !! next_id db = None.
Proof. intros Hok. destruct (campaigns db !! next_id db) as [c|] eqn:E; [|done]. pose proof (po_fresh e db Hok _ _ E). lia. Qed.

Lemma reserve_books (o : Z -> Z) (i n : Z) (db db' : Db) : books o db -> reserve i n db = Ok db' -> books o db' /\ redemptions db' = redemptions db.
Proof.
  intros Hb (c & c' & Hc & _ & _ & Hct & [D1 _ _ _ D5 _ D7 _ _])%reserve_ok. split; [|done].
  apply (books_campaign o db db' i c c'); [done|done|done|apply Hct| |done]. intros j. unfold settled. by rewrite D5.
Qed.

Lemma reserve_for_books (e : bool) (env : PromoEnv) (p : PromoCode) (user : Z) (d : dec) (zone : option Zone) (db db1 : Db) (x : Z + string) :
  promo_ok e db -> books nothing_owed db -> reserve_for_redemption env p user d zone db = Ok (x, db1) -> books nothing_owed db1.
Proof.
  intros Hok Hb. unfold reserve_for_redemption.
  destruct (match campaign_for db (pc_id p) with Some ic => (ic, db) | None => _ end) as [[i c] db0] eqn:E.
  assert (books nothing_owed db0) as H0.
  { destruct (campaign_for _ _) as [ic|]; [by injection E as _ <-|]. unfold ensure_legacy_campaign in E. injection E as _ _ <-.
    eapply (books_new e db _ (next_id db)); [done|done|by eapply fresh_campaign| |reflexivity|done|done]. done. }
  destruct (negb _); [by intros [= _ <-]|]. destruct (negb _); [by intros [= _ <-]|]. destruct (_ && _); [by intros [= _ <-]|].
  intros H. apply res_bind_ok in H as (n & _ & H). destruct (reserve i n db0) as [db2|err] eqn:R; [|destruct err; by simplify_eq].
  injection H as _ <-. by apply (reserve_books nothing_owed i n db0).
Qed.

Lemma redeem_books (e : bool) (env : PromoEnv) (code : option string) (user : Z) (t : Trip) (fare : dec)
    (zone : option Zone) (tax : tax_arg) (at_ : Z) (db db' : Db) (r : PromoResult * Trip + string) :
  promo_ok e db -> books nothing_owed db -> redeem_promo env code user t fare zone tax at_ db = Ok (r, db') -> books nothing_owed db'.
Proof.
  intros Hok Hb H. unfold redeem_promo in H. destruct (List.find _ _) as [p|]; [|by simplify_eq].
  destruct (negb _); [by simplify_eq|]. apply res_bind_ok in H as (why & _ & H). destruct why as [w|]; [by simplify_eq|].
  apply res_bind_ok in H as ([d adj] & _ & H). apply res_bind_ok in H as ([d' final] & _ & H).
  apply res_bind_ok in H as ([x db1] & Hr & H). apply (reserve_for_books e) in Hr; [|done|done].
  destruct x as [i|w]; [|by simplify_eq]. apply res_bind_ok in H as (two & _ & H). apply res_bind_ok in H as (minor & _ & H).
  apply res_bind_ok in H as (t' & _ & H). injection H as _ <-.
  apply (books_keep nothing_owed db1); [done|done| |done|eauto]. intros j. unfold settled. cbn [redemptions insert_redemption set_redemptions].
  rewrite zsum_app. cbn. unfold settled_weight at 2. cbn. rewrite andb_false_r. lia.
Qed.

(** ** Rewards *)

(** A write that touches no promotion table. *)
Definition aside (db db' : Db) : Prop :=
  campaigns db' = campaigns db /\ redemptions db' = redemptions db /\ promo_entries db' = promo_entries db /\ next_id db <= next_id db'.

Lemma driver_credit_aside (env : RewardEnv) (user : Z) (currency : string) (n : Z) (p r k : string) (db db' : Db) (j : Z) :
  reward_driver env user currency n p r k db = Ok (j, db') -> aside db db'.
Proof.
  unfold reward_driver, get_wallet. intros H. apply res_bind_ok in H as ([i db1] & (_ & _ & ->)%create_txn_ok & H).
  injection H as _ <-. unfold aside. cbn. split_and!; [done..|lia].
Qed.

Lemma rider_credit_aside (env : RewardEnv) (user : Z) (a : dec) (c k : string) (db db' : Db) (x : credit_result) :
  issue_promo_credit env user a c k db = Ok (x, db') -> aside db db'.
Proof.
  assert (aside db db) as Hsame by (unfold aside; split_and!; [done..|lia]).
  unfold issue_promo_credit, get_wallet. destruct (quantize_dec _ _) as [v|]; [|by intros [= _ <-]]. destruct (dleb _ _); [by intros [= _ <-]|].
  cbn. intros H. apply res_bind_ok in H as (cur & _ & H). apply res_bind_ok in H as (pr & _ & H). destruct (dltb _ _); [by injection H as _ <-|].
  apply res_bind_ok in H as (m & _ & H). destruct (create_txn _ _ _ _ _ _ _ _) as [[j db1]|] eqn:E.
  - apply create_txn_ok in E as (_ & _ & ->). apply res_bind_ok in H as (b & _ & H). injection H as _ <-. unfold aside. cbn. split_and!; [done..|lia].
  - destruct (List.find _ _); [|done]. by injection H as _ <-.
Qed.

(** What one paid side of a reward does: it writes a row of [n]. *)
Definition pays (i n : Z) (db db' : Db) : Prop :=
  campaigns db' = campaigns db /\ redemptions db' = redemptions db /\ next_id db <= next_id db' /\
  exists e, promo_entries db' = promo_entries db ++ [e] /\ pe_campaign e = i /\ pe_kind e <> DISCOUNT_FUNDED /\ pe_amount e = n.

Lemma aside_entry_pays (i n : Z) (e : PromoEntry) (db db1 db' : Db) :
  aside db db1 -> create_entry e db1 = Ok db' -> pe_campaign e = i -> pe_kind e <> DISCOUNT_FUNDED -> pe_amount e = n -> pays i n db db' /\ 0 < n.
Proof.
  intros (A1 & A2 & A3 & A4) (Hp & _ & ->)%create_entry_ok E1 E2 <-. split; [|done]. unfold pays. cbn. split_and!; [done..|].
  exists e. by rewrite A3.
Qed.

Lemma credit_side_pays (env : RewardEnv) (k i : Z) (c : Campaign) (user n : Z) (who : string) (db db' : Db) :
  credit_side env k i c user n who db = Ok db' -> pays i n db db'.
Proof.
  unfold credit_side. intros H. apply res_bind_ok in H as ([j db1] & H1 & H).
  assert (aside db db1) as Ha.
  { destruct (bool_decide _); [|by eapply driver_credit_aside]. apply res_bind_ok in H1 as (a & _ & H1).
    apply res_bind_ok in H1 as ([x db2] & Hx%rider_credit_aside & H1). by destruct x; [injection H1 as _ <-..|]. }
  by eapply (aside_entry_pays i n) in H as [H _].
Qed.

Lemma pays_books (i n : Z) (o : Z -> Z) (db db' : Db) :
  books o db -> pays i n db db' -> is_Some (campaigns db !! i) -> books (fun j => o j - owed_at i n j) db'.
Proof.
  intros [B1 B2 B3] (Hc & Hr & _ & e & He & E1 & E2 & E3) Hi.
  assert (forall j, settled db' j = settled db j) as Hs by (intros j; unfold settled; by rewrite Hr).
  assert (forall j, rewards db' j = rewards db j + owed_at i n j) as Hw.
  { intros j. unfold rewards, owed_at. rewrite (entry_added db db' e false j He). unfold entry_weight at 2. rewrite E1, E3, bool_decide_false by done.
    by rewrite andb_true_r. }
  assert (forall j, discounts db' j = discounts db j) as Hd.
  { intros j. unfold discounts. rewrite (entry_added db db' e true j He). unfold entry_weight at 2. rewrite bool_decide_false by done.
    rewrite andb_false_r. lia. }
  split.
  - intros j c Hj. rewrite Hc in Hj. rewrite Hs, Hw, (B1 j c Hj). lia.
  - intros j. by rewrite Hs, Hd.
  - rewrite He, Hc. intros x [Hx|Hx%list_elem_of_singleton]%elem_of_app; [by apply B3|]. subst x. by rewrite E1.
Qed.

Lemma spend_now_ok (i n : Z) (db db' : Db) :
  spend_now i n db = Ok db' ->
  exists c c', campaigns db !! i = Some c /\ (forall b, budget_minor c = Some b -> used c + n <= b) /\
    counted c c' (committed_minor c) (spent_minor c + n) /\ budget_only i c' db db'.
Proof.
  unfold spend_now. intros H. apply res_bind_ok in H as (c & Hc%get_campaign_ok & H).
  apply res_bind_ok in H as (u & Hl%require_ok & H). apply res_bind_ok in H as (u' & Ha%require_ok & H).
  apply bool_decide_eq_true in Hl. destruct (moved_after _ _ _ _ _ _ H) as (c' & Hct & Hbo).
  exists c, c'. split; [done|]. split; [|by split].
  intros b Hb. unfold admits in Ha. rewrite Hl, bool_decide_true in Ha by done. cbn in Ha. rewrite Hb in Ha. by bool_cases.
Qed.

Lemma spend_now_books (i n : Z) (db db' : Db) :
  books nothing_owed db -> spend_now i n db = Ok db' -> books (owed_at i n) db' /\ is_Some (campaigns db' !! i).
Proof.
  intros [B1 B2 B3] (c & c' & Hc & _ & Hct & [D1 _ _ _ D5 _ D7 _ _])%spend_now_ok.
  assert (forall j, settled db' j = settled db j /\ rewards db' j = rewards db j /\ discounts db' j = discounts db j) as Hs
    by (intros j; unfold settled, rewards, discounts; by rewrite D5, D7).
  split; [split|rewrite D1, lookup_insert_eq; by eexists].
  - intros j x. destruct (Hs j) as (-> & -> & _). rewrite D1. unfold owed_at. intros [[<- <-]|[N Hx]]%lookup_insert_Some.
    + rewrite Z.eqb_refl, (ct_spent _ _ _ _ Hct), (B1 i c Hc). unfold nothing_owed. lia.
    + destruct (Z.eqb_spec i j); [done|]. rewrite (B1 j x Hx). done.
  - intros j. destruct (Hs j) as (-> & _ & ->). apply B2.
  - rewrite D7, D1. intros e He. destruct (B3 e He) as [y Hy].
    destruct (decide (i = pe_campaign e)) as [<-|]; [by rewrite lookup_insert_eq|rewrite lookup_insert_ne by done; by exists y].
Qed.

Lemma books_ext (o o' : Z -> Z) (db : Db) : (forall j, o j = o' j) -> books o db -> books o' db.
Proof. intros H [B1 B2 B3]. split; [|done|done]. intros i c Hi. rewrite <- H. by apply B1. Qed.

(** One campaign's row is written, with the same commitment and within its budget. *)
Lemma promo_write (e : bool) (db db' : Db) (i : Z) (c c' : Campaign) :
  promo_ok e db -> campaigns db !! i = Some c -> campaigns db' = <[i := c']> (campaigns db) -> redemptions db' = redemptions db ->
  next_id db <= next_id db' -> committed_minor c' = committed_minor c -> cap_ok e c' -> promo_ok e db'.
Proof.
  intros [H1 H2 H3 H4 H5 H6 H7] Hc Hcs Hr Hn Hm Hcap. split; unfold booked; rewrite ?Hr, ?Hcs; try done.
  - intros r Hin. specialize (H2 r Hin). lia.
  - intros r j Hin Hj. destruct (decide (i = j)) as [->|]; [by rewrite lookup_insert_eq|]. rewrite lookup_insert_ne by done. by apply (H3 r).
  - intros j x [[<- <-]|[_ Hj]]%lookup_insert_Some; [specialize (H4 i c Hc)|specialize (H4 j x Hj)]; lia.
  - intros j x [[<- <-]|[_ Hj]]%lookup_insert_Some; [rewrite Hm; exact (H6 i c Hc)|by apply H6].
  - intros j x [[<- <-]|[_ Hj]]%lookup_insert_Some; [done|by eapply H7].
Qed.

Lemma spend_now_promo_ok (e : bool) (i n : Z) (db db' : Db) : promo_ok e db -> spend_now i n db = Ok db' -> promo_ok e db'.
Proof.
  intros Hok (c & c' & Hc & Hfit & Hct & [D1 _ _ D4 D5 _ _ _ _])%spend_now_ok.
  eapply (promo_write e db db' i c c'); [done|done|done|done|lia|apply Hct|].
  eapply cap_counted; [by eapply (po_cap e db Hok)|exact Hct|]. intros _ b Hb. specialize (Hfit b Hb). unfold used in *.
  rewrite (ct_committed _ _ _ _ Hct), (ct_spent _ _ _ _ Hct). lia.
Qed.

Lemma pays_promo_ok (e : bool) (i n : Z) (db db' : Db) : promo_ok e db -> pays i n db db' -> promo_ok e db'.
Proof. intros Hok (H1 & H2 & H3 & _). by eapply promo_ok_frame. Qed.

(** The reward of an incentive is taken from the budget and written, or nothing is. *)
Lemma pay_reward_ok (e : bool) (env : RewardEnv) (i : Z) (c : Campaign) (d user : Z) (paid : bool) (db db' : Db) :
  promo_ok e db /\ books nothing_owed db -> pay_reward env i c d user db = Ok (paid, db') -> promo_ok e db' /\ books nothing_owed db'.
Proof.
  intros [Hok Hb]. unfold pay_reward. set (n := or_else 0 _). destruct (spend_now i n db) as [db1|err] eqn:E; [|by destruct err; try done; intros [= _ <-]].
  intros H. apply res_bind_ok in H as ([j db2] & H2%driver_credit_aside & H). apply res_bind_ok in H as (db3 & H3 & H). injection H as _ <-.
  eapply (aside_entry_pays i n) in H3 as [H3 _]; [|done..]. pose proof (spend_now_promo_ok e i n db db1 Hok E) as Hok1.
  apply (spend_now_books i n db db1 Hb) in E as [Hb1 Hi]. split; [by eapply pays_promo_ok|].
  eapply books_ext; [|by eapply pays_books]. intros k. unfold nothing_owed. lia.
Qed.

Lemma credit_if_any_ok (e : bool) (env : RewardEnv) (k i : Z) (c : Campaign) (user n : Z) (who : string) (o : Z -> Z) (db db' : Db) :
  0 <= n -> promo_ok e db -> books o db -> is_Some (campaigns db !! i) -> credit_if_any env k i c user n who db = Ok db' ->
  promo_ok e db' /\ books (fun j => o j - owed_at i n j) db' /\ is_Some (campaigns db' !! i).
Proof.
  intros Hn Hok Hb Hi. unfold credit_if_any. destruct (Z.ltb_spec 0 n) as [Hp|Hz].
  - intros H%credit_side_pays. split; [by eapply pays_promo_ok|]. split; [by apply (pays_books i n o db)|]. by destruct H as (-> & _).
  - intros [= <-]. split; [done|]. split; [|done]. eapply books_ext; [|done]. intros j. unfold owed_at. destruct (_ =? _); lia.
Qed.

(** Both rewards of a referral, or none. *)
Lemma pay_referral_ok (e : bool) (env : RewardEnv) (k i : Z) (c : Campaign) (referrer referee : Z) (paid : bool) (db db' : Db) :
  0 <= referrer_minor c -> 0 <= referee_minor c ->
  promo_ok e db /\ books nothing_owed db -> pay_referral env k i c referrer referee db = Ok (paid, db') -> promo_ok e db' /\ books nothing_owed db'.
Proof.
  intros Ha Hc [Hok Hb]. unfold pay_referral. set (a := referrer_minor c) in *. set (b := referee_minor c) in *.
  destruct (_ <=? 0); [by intros [= _ <-]|]. destruct (let* db := spend_now i (a + b) db in _) as [db3|err] eqn:E; [|by destruct err; try done; intros [= _ <-]].
  intros [= _ <-]. apply res_bind_ok in E as (db1 & E1 & E). apply res_bind_ok in E as (db2 & E2 & E3).
  pose proof (spend_now_promo_ok e i (a + b) db db1 Hok E1) as Hok1. apply (spend_now_books i (a + b) db db1 Hb) in E1 as [Hb1 Hi1].
  destruct (credit_if_any_ok e env k i c referrer a "referrer" _ db1 db2 Ha Hok1 Hb1 Hi1 E2) as (Hok2 & Hb2 & Hi2).
  destruct (credit_if_any_ok e env k i c referee b "referee" _ db2 db3 Hc Hok2 Hb2 Hi2 E3) as (Hok3 & Hb3 & _).
  split; [done|]. eapply books_ext; [|exact Hb3]. intros j. unfold owed_at, nothing_owed. cbn. destruct (i =? j); lia.
Qed.

(** A budget is only raised. *)
Lemma increase_ok (e : bool) (i x y : Z) (db db' : Db) :
  x <= y -> promo_ok e db /\ books nothing_owed db -> execute_budget_increase i x y db = Ok db' -> promo_ok e db' /\ books nothing_owed db'.
Proof.
  intros Hxy [Hok Hb]. unfold execute_budget_increase. intros H. apply res_bind_ok in H as (c & Hc & H).
  destruct (campaigns db !! i) as [c0|] eqn:Ec; [|done]. injection Hc as ->. apply res_bind_ok in H as (u & _ & H).
  apply res_bind_ok in H as (u' & Hx%require_ok & H). apply bool_decide_eq_true in Hx. set (c' := if _ && _ then _ else _) in H. injection H as <-.
  assert (committed_minor c' = committed_minor c /\ spent_minor c' = spent_minor c /\ overshoot_minor c' = overshoot_minor c /\ budget_minor c' = Some y)
    as (E1 & E2 & E3 & E4) by (unfold c'; by destruct (_ && _)). split.
  - eapply (promo_write e db _ i c c'); [done|done|reflexivity|done|cbn; lia|done|].
    destruct (po_cap e db Hok i c Ec) as (H0 & He & Hcap). unfold cap_ok, used in *. rewrite E1, E2, E3, E4. split; [done|]. split; [done|].
    intros b [= <-]. specialize (Hcap x Hx). lia.
  - by eapply (books_campaign nothing_owed db _ i c c').
Qed.

Lemma proposed_raises (may : bool) (reason : string) (n : Z) (waiting : bool) (c : Campaign) (x y : Z) :
  propose_budget_increase may reason n waiting c = Ok (x, y) -> x <= y.
Proof.
  unfold propose_budget_increase. intros H. apply res_bind_ok in H as (u1 & _ & H). apply res_bind_ok in H as (u2 & _ & H).
  apply res_bind_ok in H as (u3 & _ & H). destruct (budget_minor c) as [b|]; [|done]. apply res_bind_ok in H as (u4 & _ & H).
  apply res_bind_ok in H as (u5 & _ & H). apply res_bind_ok in H as (u6 & Hb%require_ok & H). apply res_bind_ok in H as (u7 & _ & H).
  injection H as <- <-. bool_cases. lia.
Qed.

(** ** The life of the promotion tables *)

(** The row of a campaign whose launch was approved. *)
Definition launched (c : Campaign) : Prop :=
  committed_minor c = 0 /\ spent_minor c = 0 /\ overshoot_minor c = 0 /\ forall b, budget_minor c = Some b -> 0 <= b.

(** Everything that moves a counter or a budget, campaigns launched, paused, resumed, cancelled and
    ended, other writes, and, where [ends], trips ended by an operator.  A draft is no campaign
    yet: its terms may be edited until it is launched. *)
Inductive promo_step (ends : bool) (env : PromoEnv) (rw : RewardEnv) : Db -> Db -> Prop :=
| step_redeem code user t fare zone tax at_ db r db' :
    redeem_promo env code user t fare zone tax at_ db = Ok (r, db') -> amounts_ok db' -> promo_step ends env rw db db'
| step_settle t du cash db n db' : settle_trip t du cash db = Ok (n, db') -> promo_step ends env rw db db'
| step_release t db n db' : release_for_trip t db = Ok (n, db') -> promo_step ends env rw db db'
| step_end t capped funded plan db n db' :
    ends = true -> apply_operator_end env t capped funded plan db = Ok (n, db') -> amounts_ok db' -> promo_step ends env rw db db'
| step_reward i c d user db paid db' : pay_reward rw i c d user db = Ok (paid, db') -> promo_step ends env rw db db'
| step_referral k i c referrer referee db paid db' :
    0 <= referrer_minor c -> 0 <= referee_minor c ->
    pay_referral rw k i c referrer referee db = Ok (paid, db') -> promo_step ends env rw db db'
| step_increase may reason n waiting c i x y db db' :
    propose_budget_increase may reason n waiting c = Ok (x, y) -> execute_budget_increase i x y db = Ok db' -> promo_step ends env rw db db'
| step_launch c db :
    launched c ->
    promo_step ends env rw db (set_txns (next_id db + 1) (txns db) (set_campaigns (<[next_id db := c]> (campaigns db)) db))
| step_campaign_state i c st db :
    campaigns db !! i = Some c ->
    promo_step ends env rw db (set_campaigns (<[i := with_budget c st (committed_minor c) (spent_minor c)
      (overshoot_minor c) (exhausted_at c)]> (campaigns db)) db)
| step_other db db' : aside db db' -> promo_step ends env rw db db'.

(** Campaigns nobody has used yet. *)
Definition unused (db : Db) : Prop :=
  redemptions db = [] /\ promo_entries db = [] /\ forall i c, campaigns db !! i = Some c -> i < next_id db /\ launched c.

Lemma unused_ok (e : bool) (db : Db) : unused db -> promo_ok e db /\ books nothing_owed db.
Proof.
  intros (Hr & He & Hc). split; split; unfold booked, settled, rewards, discounts; rewrite ?Hr, ?He;
    try (intros r H; by apply not_elem_of_nil in H); try (intros r i H; by apply not_elem_of_nil in H); try (by apply NoDup_nil); try done.
  - intros i c Hi. by apply (Hc i c).
  - intros i c Hi. by destruct (Hc i c Hi) as (_ & -> & _).
  - intros i c Hi. destruct (Hc i c Hi) as (_ & H1 & H2 & H3 & H4). unfold cap_ok, used. rewrite H1, H2, H3.
    split; [lia|]. split; [done|]. intros b Hb. specialize (H4 b Hb). lia.
  - intros i c Hi. by destruct (Hc i c Hi) as (_ & _ & -> & _).
Qed.

Lemma launch_ok (e : bool) (c : Campaign) (db : Db) :
  launched c -> promo_ok e db -> promo_ok e (set_txns (next_id db + 1) (txns db) (set_campaigns (<[next_id db := c]> (campaigns db)) db)).
Proof.
  intros (L1 & L2 & L3 & L4) Hok. pose proof (fresh_campaign e db Hok) as Hfresh. destruct Hok as [H1 H2 H3 H4 H5 H6 H7]. split; cbn; try done.
  - intros r Hr. specialize (H2 r Hr). lia.
  - intros r i Hr Hi. destruct (H3 r i Hr Hi) as [x Hx]. specialize (H4 i x Hx). rewrite lookup_insert_ne by lia. by exists x.
  - intros i x [[<- <-]|[_ Hi]]%lookup_insert_Some; [lia|]. specialize (H4 i x Hi). lia.
  - intros i x [[<- <-]|[_ Hi]]%lookup_insert_Some; [|by apply H6]. rewrite L1.
    change (0 = booked db (next_id db)). unfold booked. rewrite (zsum_ext _ (fun _ => 0)); [by rewrite zsum_zero|]. intros r Hr. unfold weight.
    rewrite bool_decide_false; [done|]. intros Hi. destruct (H3 r _ Hr Hi) as [y Hy]. congruence.
  - intros i x [[<- <-]|[_ Hi]]%lookup_insert_Some; [|by eapply H7]. unfold cap_ok, used. rewrite L1, L2, L3. split; [lia|]. split; [done|].
    intros b Hb. specialize (L4 b Hb). lia.
Qed.

Lemma promo_step_ok (e : bool) (env : PromoEnv) (rw : RewardEnv) (db db' : Db) :
  promo_step e env rw db db' -> promo_ok e db /\ books nothing_owed db -> promo_ok e db' /\ books nothing_owed db'.
Proof.
  intros H Hboth. pose proof Hboth as [Hok Hb]. pose proof (po_ids e db Hok) as Hn.
  destruct H as [????????? db' H Ha|t du cash db n db' H|t db n db' H|????? n db' -> H Ha|i c d user db paid db' H|k i c ra rb db paid db' Ha Hc H
    |may reason n w c i x y db db' Hp H|c db Hl|i c st db Hc|db db' (A1 & A2 & A3 & A4)].
  - split; [by eapply redeem_promo_ok|by eapply redeem_books].
  - unfold settle_trip in H. destruct (_ || _); [by simplify_eq|]. pose proof (committed_pending e db t Hok) as Hpe.
    split; [by eapply settle_all_promo_ok|by eapply settle_all_books].
  - pose proof (committed_pending e db t Hok) as Hpe. split; [by eapply release_all_promo_ok|by eapply release_all_books].
  - unfold apply_operator_end in H. destruct funded.
    + match type of H with release_for_trip ?t _ = _ => pose proof (committed_pending true db t Hok) as Hpe end.
      split; [by eapply release_all_promo_ok|by eapply release_all_books].
    + apply res_bind_ok in H as (db2 & H & Hd). injection Hd as _ <-.
      match type of H with rework _ _ _ (committed_on _ ?t) _ = _ => pose proof (committed_pending true db t Hok) as Hpe end.
      split; [by eapply rework_promo_ok|by eapply rework_books].
  - by eapply pay_reward_ok.
  - by eapply pay_referral_ok.
  - eapply increase_ok; [by eapply proposed_raises|done|exact H].
  - split; [by apply launch_ok|]. eapply (books_new e db _ (next_id db) c); [done|done|by eapply fresh_campaign|apply Hl|done..].
  - split.
    + eapply (promo_write e db _ i c); [done|done|reflexivity|done|cbn; lia|done|]. exact (po_cap e db Hok i c Hc).
    + by eapply (books_campaign nothing_owed db _ i c).
  - split; [by eapply promo_ok_frame|by eapply books_frame].
Qed.

Lemma promo_reachable (e : bool) (env : PromoEnv) (rw : RewardEnv) (db0 db : Db) :
  unused db0 -> rtc (promo_step e env rw) db0 db -> promo_ok e db /\ books nothing_owed db.
Proof. intros H0 Hr. apply (unused_ok e) in H0. induction Hr; eauto using promo_step_ok. Qed.

(** C39. A campaign's counters are its redemptions and its rewards: whatever is booked, settled,
    released, rewarded at once, launched, paused or raised, or ended by an operator, as long as no
    discount or reward is negative, the committed amount of every campaign is the sum of its
    committed redemptions; what it spent is the sum of its settled redemptions and of the rewards
    in the ledger of promotions, where its discounts are exactly the settled redemptions; what is
    used never passes the budget by more than the overshoot recorded, and as long as no operator
    ends a trip there is no overshoot: the budget is a hard cap. *)
Theorem budget_accounts_for_redemptions (ends : bool) (env : PromoEnv) (rw : RewardEnv) (db0 db : Db) (i : Z) (c : Campaign) :
  unused db0 -> rtc (promo_step ends env rw) db0 db -> campaigns db !! i = Some c ->
  committed_minor c = booked db i /\ 0 <= booked db i /\
  spent_minor c = settled db i + rewards db i /\ discounts db i = settled db i /\ spent_minor c = ledger db i /\
  forall b, budget_minor c = Some b ->
    used c <= b + overshoot_minor c /\ (ends = false -> used c <= b).
Proof.
  intros H0 Hr Hc. destruct (promo_reachable ends env rw db0 db H0 Hr) as [Hok [B1 B2 _]].
  specialize (B1 i c Hc). unfold nothing_owed in B1. split; [by apply (po_committed ends db Hok)|]. split.
  { unfold booked. apply zsum_nonneg. intros r Hin. unfold weight. destruct (_ && _); [|lia].
    by apply (po_nonneg ends db Hok). }
  split; [lia|]. split; [done|]. split; [rewrite ledger_split, B2; lia|].
  intros b Hb. destruct (po_cap ends db Hok i c Hc) as (Ho & He & Hcap). specialize (Hcap b Hb).
  split; [done|]. intros E. rewrite (He E) in Hcap. lia.
Qed.

(** ** A campaign of 200 rupees *)

Lemma demo_unused : unused (demo_promo_db (Some 20000)).
Proof.
  split; [done|]. split; [done|]. intros i c H. cbn [campaigns demo_promo_db] in H.
  apply lookup_insert_Some in H as [[<- <-]|[_ H]]; [|by rewrite lookup_empty in H].
  cbn. repeat split; try lia. intros b [= <-]. lia.
Qed.

Definition demo_rewards : RewardEnv := {| rw_role := fun _ => "driver"%string; rw_first := fun _ _ => Some "INR"%string |}.

(** A ride with a discount of 71 rupees is booked and settled: the campaign spent exactly that. *)
Lemma budget_accounts_for_redemptions_witness :
  exists r db n db' c, demo_redeemed 5000 (Some 20000) = Ok (r, db) /\ settle_trip demo_trip (Some 9) true db = Ok (n, db') /\
    campaigns db' !! 1 = Some c /\ n = 7100 /\ committed_minor c = 0 /\ spent_minor c = 7100 /\
    committed_minor c = booked db' 1 /\ spent_minor c = ledger db' 1 /\ discounts db' 1 = settled db' 1 /\ used c <= 20000.
Proof.
  destruct (demo_redeemed 5000 (Some 20000)) as [[r db]|] eqn:E; [|vm_compute in E; discriminate E].
  destruct (settle_trip demo_trip (Some 9) true db) as [[n db']|] eqn:Es.
  2:{ exfalso. vm_compute in E. injection E as _ <-. vm_compute in Es. discriminate Es. }
  destruct (campaigns db' !! 1) as [c|] eqn:Ec.
  2:{ exfalso. vm_compute in E. injection E as _ <-. vm_compute in Es. injection Es as _ <-. vm_compute in Ec. discriminate Ec. }
  exists r, db, n, db', c. split; [reflexivity|]. split; [exact Es|]. split; [exact Ec|].
  destruct (budget_accounts_for_redemptions false (demo_env 5000) demo_rewards (demo_promo_db (Some 20000)) db' 1 c)
    as (H1 & _ & _ & H2 & H3 & H4); [exact demo_unused | | exact Ec |].
  - eapply rtc_l; [|apply rtc_once; eapply step_settle; exact Es]. eapply step_redeem; [exact E|]. vm_compute in E. injection E as _ <-.
    intros x Hx. apply list_elem_of_singleton in Hx. subst x. cbn. lia.
  - assert (n = 7100 /\ committed_minor c = 0 /\ spent_minor c = 7100 /\ budget_minor c = Some 20000) as (H5 & H6 & H7 & H8).
    { vm_compute in E. injection E as _ <-. vm_compute in Es. injection Es as <- <-. vm_compute in Ec. injection Ec as <-. repeat split. }
    split; [exact H5|]. split; [exact H6|]. split; [exact H7|]. split; [exact H1|]. split; [exact H3|]. split; [exact H2|].
    exact (proj2 (H4 20000 H8) eq_refl).
Defined.

(** The reward of a driver's incentive is credited, written and spent; the next one is refused once
    the budget is used. *)
Example rewards_until_exhausted :
  let c := {| campaign_kind := "driver_incentive"; campaign_name := "TEN"; campaign_state_of := LIVE; campaign_country := "IN";
    campaign_node := None; campaign_place := None; campaign_currency := "INR"; budget_minor := Some 9000; committed_minor := 0; spent_minor := 0;
    overshoot_minor := 0; starts_at := None; ends_at := None; exhausted_at := None; campaign_promo := None; is_legacy := false;
    config := {| discount_type := EmptyString; discount_flat_minor := None; reward_minor := Some 5000; referrer_reward_minor := None;
      referee_reward_minor := None; new_riders_only := false; auto_apply := false |} |} in
  let db := set_campaigns {[ 1 := c ]} (demo_promo_db None) in
  match pay_reward demo_rewards 1 c 3 103 db with
  | Ok (true, db1) => driver_balance db1 103 = 5000 /\ ledger db1 1 = 5000 /\ campaign_state_of <$> campaigns db1 !! 1 = Some EXHAUSTED /\
      pay_reward demo_rewards 1 c 4 104 db1 = Ok (false, db1)
  | _ => False
  end.
Proof. vm_compute. done. Qed.
