(* ===== verification/Gateways.v ===== *)
(** * Gateways: which provider serves which country

    Models [servers/payments/payment_gateways/factory.py] and [integrations/payments/registry.py]:
    a provider is found by configuration only, by its name or by a country, and a country
    without one gets an unavailable gateway.  What a provider answers is an argument: the
    functions of [Gateway] are its calls, and the refusals of the unavailable one are the
    code's. *)

From S2P Require Import Prelude PyDecimal PyText Countries Models Money.
#[local] Open Scope string_scope.
#[local] Open Scope list_scope.
#[local] Open Scope Z_scope.

(** ** A gateway *)

(** The keys of [get_order_status] the callers read: [order_status], [order_amount], and
    [cf_payment_id] or [payment_id]. *)
Record OrderInfo := { oi_status : string; oi_amount : pynum; oi_payment : option string }.

Inductive status_answer := NoInfo | Info (i : OrderInfo) | StatusRaised.

(** What a refund call answers: a refund with its id, nothing, or an exception. *)
Inductive refund_answer := RefundMade (id : string) | RefundRefused | RefundRaised.

(** [BasePaymentGateway]: [gw_live] is [bool(gateway)], [gw_create_order] the order id of
    [create_order], [gw_verify] and [gw_captured] what [verify_payment_signature] and
    [ensure_captured] answer. *)
Record Gateway := {
  gw_live : bool;
  gw_name : string;
  supported_currencies : list string;
  gw_create_order : Z -> string -> option string;
  get_order_status : string -> status_answer;
  gw_verify : string -> option string -> option string -> bool;
  gw_captured : string -> option string;
  create_refund : string -> Z -> string -> refund_answer
}.

(** [UnavailableGateway]: it refuses everything. *)
Definition UnavailableGateway (provider : string) : Gateway := {|
  gw_live := false; gw_name := provider; supported_currencies := []; gw_create_order := fun _ _ => None;
  get_order_status := fun _ => NoInfo; gw_verify := fun _ _ _ => false; gw_captured := fun _ => None;
  create_refund := fun _ _ _ => RefundRefused |}.

(** ** The registry *)

Inductive kind := payments | payouts.

#[global] Instance kind_eq_dec : EqDecision kind.
Proof. solve_decision. Defined.

(** The names of [KINDS], and whether the adapter talks to its vendor. *)
Definition KINDS (k : kind) : list (string * bool) :=
  match k with
  | payments => [("cashfree", true); ("razorpay", true); ("stripe", false)]
  | payouts => [("cashfree", true); ("razorpay", true); ("stripe_connect", false)]
  end.

Definition ALIASES : list (string * string) := [("stripe-connect", "stripe_connect"); ("razorpayx", "razorpay")].

Definition alias (name : string) : string :=
  default name (snd <$> List.find (fun a => bool_decide (a.1 = name)) ALIASES).

Definition canonical (name : option string) : string := alias (lower (strip (default EmptyString name))).

Definition known (k : kind) (name : string) : bool :=
  existsb (fun e => bool_decide (e.1 = canonical (Some name))) (KINDS k).

(** ** The factory *)

(** The settings: the table of each kind by country, the legacy names of India, and the
    adapter a name builds, live when its credentials are there. *)
Record Providers := {
  ps_table : kind -> gmap string (option string);
  ps_legacy : kind -> string;
  ps_adapter : kind -> string -> Gateway
}.

Definition country_code_of (country : option string) : string := upper (strip (default EmptyString country)).

Definition provider_name_for (s : Providers) (k : kind) (country : option string) : option string :=
  let code := country_code_of country in
  if negb (truthy (Some code)) then None
  else
    let name := match ps_table s k !! code with
                | Some name => name
                | None => if bool_decide (code = "IN") then Some (ps_legacy s k) else None
                end in
    let name := lower (strip (default EmptyString name)) in
    if truthy (Some name) then Some (canonical (Some name)) else None.

(** An adapter without credentials is replaced by an unavailable gateway of its name. *)
Definition build (s : Providers) (k : kind) (name : string) : Gateway :=
  let g := ps_adapter s k (canonical (Some name)) in
  if gw_live g then g else UnavailableGateway (canonical (Some name)).

(** [_resolve]: [None] is the ValueError of an unknown explicit name. *)
Definition resolve (s : Providers) (k : kind) (name country : option string) : option Gateway :=
  if truthy name then
    let name := default EmptyString name in
    if known k name then Some (build s k name) else None
  else match provider_name_for s k country with
  | None => Some (UnavailableGateway "none")
  | Some name => if known k name then Some (build s k name) else Some (UnavailableGateway name)
  end.

Definition country_of_currency (currency : option string) : option string :=
  country_code <$> List.find (fun c => bool_decide (country_currency c = upper (strip (default EmptyString currency)))) COUNTRIES.

(** A trip's country: its zone's, else that of its currency. *)
Definition country_for_trip (t : Trip) : option string :=
  match trip_zone t with
  | Some z => if truthy (Some (zone_country z)) then Some (country_code_of (Some (zone_country z)))
              else country_of_currency (Some (currency_for_trip (Some t)))
  | None => country_of_currency (Some (currency_for_trip (Some t)))
  end.

(** [get_payment_gateway(country=country_for_trip(trip))], which is also
    [get_payment_gateway_for_payments(country_for_trip(trip))]. *)
Definition gateway_of_trip (s : Providers) (t : Trip) : Gateway :=
  default (UnavailableGateway "none") (resolve s payments None (country_for_trip t)).

(** [get_payment_gateway(name)] *)
Definition gateway_named (s : Providers) (name : string) : option Gateway := resolve s payments (Some name) None.

(** ** A country never borrows a provider *)

(** A gateway found for a country is dead, or is the adapter the table (or, for India without
    an entry, the legacy setting) names for that very country. *)
Lemma country_never_borrows (s : Providers) (k : kind) (country : option string) (g : Gateway) :
  resolve s k None country = Some g -> gw_live g = true ->
  exists name, provider_name_for s k country = Some name /\ known k name = true /\ g = ps_adapter s k (canonical (Some name)).
Proof.
  unfold resolve. cbn [truthy]. destruct (provider_name_for s k country) as [name|]; [|by intros [= <-]].
  destruct (known k name) eqn:Hk; [|by intros [= <-]]. intros [= <-] Hl. exists name. split; [done|]. split; [done|].
  unfold build in *. destruct (gw_live (ps_adapter s k (canonical (Some name)))) eqn:E; [done|]. done.
Qed.

(** A dead gateway takes no currency. *)
Lemma resolve_dead (s : Providers) (k : kind) (name country : option string) (g : Gateway) :
  resolve s k name country = Some g -> gw_live g = false -> exists p, g = UnavailableGateway p.
Proof.
  assert (forall n, gw_live (build s k n) = false -> exists p, build s k n = UnavailableGateway p) as Hb.
  { intros n. unfold build. destruct (gw_live (ps_adapter s k _)) eqn:E; [congruence|by eexists]. }
  unfold resolve. destruct (truthy name).
  - destruct (known k _); [|done]. intros [= <-]. apply Hb.
  - destruct (provider_name_for s k country) as [n|]; [|intros [= <-]; by eexists].
    destruct (known k n); intros [= <-]; [apply Hb|by eexists].
Qed.
