(* ===== verification/TripPayments.v ===== *)
(** * TripPayments: a rider pays for a finished trip

    Models [servers/payments/orders.py] (every order a payment was issued),
    [servers/payments/late_paid.py] (money captured after the trip was paid), the payment
    endpoints of [servers/payments/views.py] ([create_order], [verify_payment], the trip part
    of the success webhook, [switch_payment_method], [retry_payment], [refund_payment] and the
    poll they share), [reconcile_stuck_payments] of [servers/payments/tasks.py] and
    [servers/rider/trip_wallet_payment.py], over the [World] of Trips.

    A request is one step; the row locks the code takes are what makes that faithful.  What
    follows a commit ([transaction.on_commit]) runs after it, in a step of its own.  The
    top-ups of a wallet, the webhook inbox and the texts of answers are left out. *)

From Stdlib Require Import Ascii.
From S2P Require Import Prelude PyDecimal PyText Countries Models Money Commission Zones PromoTax Alerts Store.
From S2P Require Import Promos Settlement Drivers Trips OperatorEnd Gateways.
#[local] Open Scope string_scope.
#[local] Open Scope list_scope.
#[local] Open Scope Z_scope.

(** What the endpoints read and never write: the tables of Trips, the providers, and the riders
    who may not pay cash. *)
Record PayEnv := { pe_trip : TripEnv; pe_providers : Providers; cash_disabled_for : Z -> bool }.

(** ** Rows *)

Definition find_payment (i : Z) (w : World) : option PaymentRow := List.find (fun p => pm_id p =? i) (w_payments w).

Definition update_payment (i : Z) (f : PaymentRow -> PaymentRow) (w : World) : World :=
  set_payments ((fun p => if pm_id p =? i then f p else p) <$> w_payments w) w.

Definition find_order (o : string) (w : World) : option OrderRow :=
  List.find (fun r => bool_decide (po_order r = o)) (w_orders w).

Definition update_order (i : Z) (f : OrderRow -> OrderRow) (w : World) : World :=
  set_orders ((fun r => if po_id r =? i then f r else r) <$> w_orders w) w.

(** [Payment.objects.filter(trip_id=trip).order_by('-created_at').first()], with a further
    filter. *)
Definition latest (f : PaymentRow -> bool) (i : Z) (w : World) : option PaymentRow :=
  List.find f (reverse (payments_of i w)).

(** Columns of a payment. *)
Definition with_orders (order cf_order : option string) (p : PaymentRow) : PaymentRow :=
  {| pm_id := pm_id p; pm_trip := pm_trip p; pm_user := pm_user p; pm_amount := pm_amount p; pm_method := pm_method p;
     pm_currency := pm_currency p; pm_status := pm_status p; pm_gateway := pm_gateway p;
     pm_gateway_payment := pm_gateway_payment p; pm_order := order; pm_cf_order := cf_order;
     pm_cf_payment := pm_cf_payment p; pm_replaced_by := pm_replaced_by p; pm_late := pm_late p; pm_created := pm_created p |}.

Definition with_captured (gateway_payment cf_payment : option string) (p : PaymentRow) : PaymentRow :=
  {| pm_id := pm_id p; pm_trip := pm_trip p; pm_user := pm_user p; pm_amount := pm_amount p; pm_method := pm_method p;
     pm_currency := pm_currency p; pm_status := pm_status p; pm_gateway := pm_gateway p;
     pm_gateway_payment := gateway_payment; pm_order := pm_order p; pm_cf_order := pm_cf_order p;
     pm_cf_payment := cf_payment; pm_replaced_by := pm_replaced_by p; pm_late := pm_late p; pm_created := pm_created p |}.

Definition with_late (late : option (string * late_state)) (p : PaymentRow) : PaymentRow :=
  {| pm_id := pm_id p; pm_trip := pm_trip p; pm_user := pm_user p; pm_amount := pm_amount p; pm_method := pm_method p;
     pm_currency := pm_currency p; pm_status := pm_status p; pm_gateway := pm_gateway p;
     pm_gateway_payment := pm_gateway_payment p; pm_order := pm_order p; pm_cf_order := pm_cf_order p;
     pm_cf_payment := pm_cf_payment p; pm_replaced_by := pm_replaced_by p; pm_late := late; pm_created := pm_created p |}.

Definition with_replacement (i : Z) (p : PaymentRow) : PaymentRow :=
  {| pm_id := pm_id p; pm_trip := pm_trip p; pm_user := pm_user p; pm_amount := pm_amount p; pm_method := pm_method p;
     pm_currency := pm_currency p; pm_status := pm_status p; pm_gateway := pm_gateway p;
     pm_gateway_payment := pm_gateway_payment p; pm_order := pm_order p; pm_cf_order := pm_cf_order p;
     pm_cf_payment := pm_cf_payment p; pm_replaced_by := Some i; pm_late := pm_late p; pm_created := pm_created p |}.

(** A payment taken online again by [create_order]: its metadata is the order's. *)
Definition taken_online (amount : Z) (gateway order : string) (p : PaymentRow) : PaymentRow :=
  {| pm_id := pm_id p; pm_trip := pm_trip p; pm_user := pm_user p; pm_amount := amount; pm_method := "online";
     pm_currency := pm_currency p; pm_status := PayProcessing; pm_gateway := gateway;
     pm_gateway_payment := pm_gateway_payment p; pm_order := Some order; pm_cf_order := Some order;
     pm_cf_payment := pm_cf_payment p; pm_replaced_by := pm_replaced_by p; pm_late := None; pm_created := pm_created p |}.

(** And by [retry_payment]. *)
Definition retried (gateway : string) (order : option string) (p : PaymentRow) : PaymentRow :=
  {| pm_id := pm_id p; pm_trip := pm_trip p; pm_user := pm_user p; pm_amount := pm_amount p; pm_method := pm_method p;
     pm_currency := pm_currency p; pm_status := PayProcessing; pm_gateway := gateway;
     pm_gateway_payment := pm_gateway_payment p; pm_order := order; pm_cf_order := order;
     pm_cf_payment := pm_cf_payment p; pm_replaced_by := pm_replaced_by p; pm_late := pm_late p; pm_created := pm_created p |}.

Definition with_late_refund (taken : string) (s : late_state) (refund_id : string) (r : OrderRow) : OrderRow :=
  {| po_id := po_id r; po_payment := po_payment r; po_order := po_order r; po_provider := po_provider r;
     po_late_payment := taken; po_late_refund := s; po_refund_id := refund_id |}.

(** [Payment.objects.create(...)] with its order columns; the id of the new row. *)
Definition new_payment (t : LiveTrip) (amount : dec) (method : string) (status : pay_status) (gateway : string)
    (order : option string) (w : World) : res db_error (Z * World) :=
  let i := Z.of_nat (length (w_payments w)) in
  let* w := create_payment t amount method status gateway w in
  Ok (i, update_payment i (with_orders order order) w).

(** Saving a payment as completed: [one_completed_payment_per_trip]. *)
Definition save_completed (p : PaymentRow) (w : World) : res db_error World :=
  if existsb (fun q => bool_decide (pm_status q = PayCompleted) && negb (pm_id q =? pm_id p)) (payments_of (pm_trip p) w)
  then Err IntegrityError
  else Ok (update_payment (pm_id p) (fun _ => with_pay_status PayCompleted p) w).

(** ** Orders *)

(** [x or y] *)
Definition or_text (x y : option string) : option string := if truthy x then x else y.

Definition remember (payment : Z) (order : option string) (provider : string) (w : World) : option OrderRow * World :=
  match order with
  | None => (None, w)
  | Some o =>
    if negb (truthy (Some o)) then (None, w)
    else match find_order o w with
    | Some r => (Some r, w)
    | None =>
      let r := {| po_id := Z.of_nat (length (w_orders w)); po_payment := payment; po_order := o; po_provider := provider;
                  po_late_payment := EmptyString; po_late_refund := REFUND_NONE; po_refund_id := EmptyString |} in
      (Some r, set_orders (w_orders w ++ [r]) w)
    end
  end.

Definition names_order (o : string) (p : PaymentRow) : bool :=
  bool_decide (pm_cf_order p = Some o) || bool_decide (pm_order p = Some o).

Definition of_user (user : option Z) (p : PaymentRow) : bool :=
  match user with Some u => pm_user p =? u | None => true end.

Definition payment_for_order (order : string) (user : option Z) (w : World) : option PaymentRow :=
  if negb (truthy (Some order)) then None
  else match find_order order w with
  | Some r => p ← find_payment (po_payment r) w; if of_user user p then Some p else None
  | None => List.find (fun p => of_user user p && names_order order p) (reverse (w_payments w))
  end.

(** Every order of a payment, newest first, its own columns in front when they are new. *)
Definition order_ids (p : PaymentRow) (w : World) : list string :=
  foldl (fun ids own => match own with
                        | Some o => if truthy (Some o) && negb (bool_decide (o ∈ ids)) then o :: ids else ids
                        | None => ids
                        end)
    (reverse (po_order <$> List.filter (fun r => po_payment r =? pm_id p) (w_orders w))) [pm_order p; pm_cf_order p].

Definition own_orders (p : PaymentRow) : list (option string) := List.filter truthy [pm_order p; pm_cf_order p].

Definition is_late_capture (p : PaymentRow) (order gateway_payment : option string) : bool :=
  if negb (bool_decide (pm_status p = PayCompleted)) then false
  else if truthy order && negb (bool_decide (own_orders p = [])) && negb (bool_decide (order ∈ own_orders p)) then true
  else truthy gateway_payment && truthy (pm_gateway_payment p) && negb (bool_decide (gateway_payment = pm_gateway_payment p)).

Definition settled_by (order : string) (p : PaymentRow) : PaymentRow :=
  if truthy (Some order) then with_orders (Some order) (if truthy (pm_cf_order p) then Some order else pm_cf_order p) p else p.

(** ** Money that came too late *)

Definition superseded (p : PaymentRow) (w : World) : bool :=
  bool_decide (pm_status p ∈ [PayFailed; PayRefunded]) || bool_decide (is_Some (pm_replaced_by p)) ||
  existsb (fun q => bool_decide (pm_status q = PayCompleted) && negb (pm_id q =? pm_id p)) (payments_of (pm_trip p) w).

Definition FINANCE_PAID_AFTER_SETTLED : string := "finance.paid_after_settled".
Definition ALERT_SOURCE_TYPE : string := "payment_paid_after_settled".

(** [format(n, ',')] of the digits of a number. *)
Fixpoint grouped (l : list Ascii.ascii) : list Ascii.ascii :=
  match l with
  | [] => []
  | c :: r => c :: (if bool_decide (r <> []) && (Z.of_nat (length r) mod 3 =? 0) then ","%char :: grouped r else grouped r)
  end.

Definition symbol (code : string) : string := if bool_decide (code = "USD") then "$" else "₹".

(** [format_money]: [f'{value:,.{places}f}'] of the rounded amount, after the symbol; no
    country of the registry puts its symbol behind. *)
Definition format_money (amount : dec) (currency : option string) : res money_error string :=
  let code := normalize_currency currency None in
  let* places := exponent (Some code) in
  let* n := to_minor_dec amount (Some code) in
  let whole := Z.abs n / 10 ^ places in
  let cents := digits_of (10 ^ places + Z.abs n mod 10 ^ places) in
  Ok (symbol code +:+ of_chars ((if n <? 0 then [minus] else []) ++ grouped (digits_of whole) ++ dot :: tail cents)).

Definition late_text (s : late_state) : string :=
  match s with
  | REFUND_NONE => EmptyString
  | REFUND_PENDING => "pending"
  | REFUND_DONE => "refunded"
  | REFUND_MANUAL => "manual_refund_needed"
  end.

Definition source_id (order : option OrderRow) (payment : Z) : string :=
  match order with Some r => "order:" +:+ number (po_id r) | None => number payment end.

Definition late_payload (t : Trip) (p : PaymentRow) (gateway source : string) (order : option OrderRow) : gmap string string :=
  list_to_map [("trip_id", number (trip_id t)); ("payment_id", number (pm_id p)); ("amount_minor", number (pm_amount p));
    ("currency", pm_currency p); ("gateway", gateway); ("source", source);
    ("order_id", from_option po_order EmptyString order); ("refund", late_text REFUND_PENDING);
    ("city", from_option node_code "None" (trip_city t))].

(** What [record] leaves to do after the commit. *)
Record Callback := { cb_payment : Z; cb_order : option Z }.

(** The part of [record] that follows the look at the order: [p] is the row as the caller holds
    it, of which only the columns named are saved. *)
Definition record_late (env : PayEnv) (t : Trip) (p : PaymentRow) (gateway taken source : string) (order : option OrderRow)
    (w : World) : res db_error (option Callback * World) :=
  let w :=
    if bool_decide (pm_status p = PayCompleted) then w
    else
      let late := Some (gateway, REFUND_PENDING) in
      let fresh := truthy (Some taken) && negb (truthy (pm_gateway_payment p)) in
      update_payment (pm_id p) (fun q => with_late late (if fresh then with_captured (Some taken) (pm_cf_payment q) q else q)) w in
  let* amount := lift_money (from_minor_Z (pm_amount p) (Some (pm_currency p))) in
  let* text := lift_money (format_money amount (Some (pm_currency p))) in
  let alerts := (raise_alert (alert_table (w_db w)) FINANCE_PAID_AFTER_SETTLED
    ("Trip " +:+ number (trip_id t) +:+ ": " +:+ text +:+ " was captured again after the trip was paid; refunding")%string
    CRITICAL (late_payload t p gateway source order) ALERT_SOURCE_TYPE (source_id order (pm_id p))
    (city_place (te_settle (pe_trip env)) t)).2 in
  Ok (Some {| cb_payment := pm_id p; cb_order := po_id <$> order |}, with_db (set_alerts alerts (w_db w)) w).

(** [late_paid.record] *)
Definition record (env : PayEnv) (t : Trip) (p : PaymentRow) (gateway_name : string) (gateway_payment : option string)
    (source : string) (order_id : option string) (w : World) : res db_error (option Callback * World) :=
  let taken := default EmptyString gateway_payment in
  let gateway := if truthy (Some gateway_name) then gateway_name else pm_gateway p in
  match remember (pm_id p) (or_text order_id (or_text (pm_order p) (pm_cf_order p))) gateway w with
  | (None, w) => record_late env t p gateway taken source None w
  | (Some r, w) =>
    if negb (bool_decide (po_late_refund r = REFUND_NONE)) && (negb (truthy (Some taken)) || bool_decide (taken = po_late_payment r))
    then Ok (None, w)
    else
      let f := with_late_refund (if truthy (Some taken) then taken else po_late_payment r) REFUND_PENDING EmptyString in
      record_late env t p gateway taken source (Some (f r)) (update_order (po_id r) f w)
  end.

(** [str.replace], every occurrence from the left. *)
Fixpoint replace_chars (fuel : nat) (old new l : list Ascii.ascii) : list Ascii.ascii :=
  match fuel with
  | O => l
  | S fuel =>
    if bool_decide (take (length old) l = old) then new ++ replace_chars fuel old new (drop (length old) l)
    else match l with [] => [] | c :: r => c :: replace_chars fuel old new r end
  end.

Definition replaced (old new s : string) : string :=
  of_chars (replace_chars (S (String.length s)) (chars old) (chars new) (chars s)).

(** The alert of a late capture, open or closed, tells what became of its refund. *)
Definition told_outcome (s : late_state) (refund_id : string) (a : Alert) : Alert :=
  {| alert_id := alert_id a; alert_kind := alert_kind a; alert_severity := alert_severity a;
     alert_title := truncated 200 (replaced "; refunding"
       (if bool_decide (s = REFUND_DONE) then "; refunded in full" else "; REFUND IT MANUALLY") (alert_title a));
     alert_payload := <["refund" := late_text s]> (<["refund_id" := refund_id]> (alert_payload a));
     alert_source_type := alert_source_type a; alert_source_id := alert_source_id a;
     acknowledged_at := acknowledged_at a; acknowledged_by := acknowledged_by a; acknowledged_note := acknowledged_note a |}.

Definition tell_alert (sid : string) (s : late_state) (refund_id : string) (w : World) : World :=
  let table := alert_table (w_db w) in
  match List.find (fun a => bool_decide (alert_source_type a = ALERT_SOURCE_TYPE) && bool_decide (alert_source_id a = sid))
          (reverse (alerts table)) with
  | Some a => with_db (set_alerts (update_alert table (alert_id a) (told_outcome s refund_id)) (w_db w)) w
  | None => w
  end.

(** The gateway payment and the provider of a late capture. *)
Definition late_taken (p : PaymentRow) (order : option OrderRow) : string :=
  let on_order := from_option po_late_payment EmptyString order in
  if truthy (Some on_order) then on_order
  else if bool_decide (pm_status p = PayCompleted) then EmptyString else default EmptyString (pm_gateway_payment p).

Definition late_gateway (p : PaymentRow) (order : option OrderRow) : string :=
  let on_order := from_option po_provider EmptyString order in
  let noted := from_option fst EmptyString (pm_late p) in
  if truthy (Some on_order) then on_order else if truthy (Some noted) then noted else pm_gateway p.

(** Whether [late_paid.refund] has nothing to do. *)
Definition late_done (p : PaymentRow) (order : option OrderRow) : bool :=
  match order with
  | Some r => bool_decide (po_late_refund r = REFUND_DONE)
  | None => bool_decide (pm_status p = PayRefunded)
  end.

Definition late_ask (env : PayEnv) (p : PaymentRow) (order : option OrderRow) : refund_answer :=
  let taken := late_taken p order in
  if truthy (Some taken) then
    match resolve (pe_providers env) payments (Some (late_gateway p order)) None with
    | Some g => if gw_live g then create_refund g taken (pm_amount p) (pm_currency p) else RefundRefused
    | None => RefundRaised
    end
  else RefundRefused.

Definition outcome_of (a : refund_answer) : late_state * string :=
  match a with RefundMade id => (REFUND_DONE, id) | _ => (REFUND_MANUAL, EmptyString) end.

(** What [refund] writes once the gateway has answered. *)
Definition late_written (p : PaymentRow) (order : option OrderRow) (s : late_state) (id : string) (w : World) : World :=
  let w := match order with
           | Some r => update_order (po_id r) (fun r => with_late_refund (po_late_payment r) s id r) w
           | None => w
           end in
  let w :=
    if bool_decide (pm_status p = PayCompleted) then w
    else update_payment (pm_id p)
           (fun q => with_late (Some (from_option fst EmptyString (pm_late q), s))
                       (if bool_decide (s = REFUND_DONE) then with_pay_status PayRefunded q else q)) w in
  tell_alert (source_id order (pm_id p)) s id w.

(** [late_paid.refund]; no refund is asked of a dead gateway. *)
Definition late_refund (env : PayEnv) (cb : Callback) (w : World) : option late_state * World :=
  match find_payment (cb_payment cb) w with
  | None => (None, w)
  | Some p =>
    let order := i ← cb_order cb; List.find (fun r => po_id r =? i) (w_orders w) in
    if late_done p order then (None, w)
    else
      let a := late_ask env p order in
      let w := match a with
               | RefundMade _ => set_refunds (w_refunds w ++ [{| gr_payment := late_taken p order; gr_amount := pm_amount p;
                                                               gr_currency := pm_currency p |}]) w
               | _ => w
               end in
      let '(s, id) := outcome_of a in
      (Some s, late_written p order s id w)
  end.

Definition after_commit (env : PayEnv) (cb : option Callback) (w : World) : World :=
  match cb with Some cb => (late_refund env cb w).2 | None => w end.

(** ** Completing a payment *)

(** A history row of an amount in major units. *)
Definition history_row (t : LiveTrip) (rider driver : Z) (amount : dec) (method kind_ : string) (gateway_payment : option string)
    : res db_error RiderHistory :=
  let currency := currency_for_trip (Some (lt_trip t)) in
  let* m := lift_money (to_minor_dec amount (Some currency)) in
  Ok {| rh_trip := trip_id (lt_trip t); rh_rider := rider; rh_driver := driver; rh_amount := m; rh_currency := currency;
        rh_method := method; rh_gateway_payment := gateway_payment; rh_kind := kind_ |}.

(** [TransactionHistory.objects.create(...)] of a payment; by [get_or_create] a row of the trip
    with this gateway payment is enough. *)
Definition paid_history (t : LiveTrip) (driver : Z) (p : PaymentRow) (gateway_payment : option string) (once : bool) (w : World)
    : res db_error World :=
  if once && existsb (fun h => (rh_trip h =? trip_id (lt_trip t)) && bool_decide (rh_gateway_payment h = gateway_payment)) (w_paid w)
  then Ok w
  else
    let* amount := lift_money (from_minor_Z (pm_amount p) (Some (pm_currency p))) in
    let* h := history_row t (pm_user p) driver amount "online" "payment" gateway_payment in
    Ok (set_paid (w_paid w ++ [h]) w).

Definition paid_online_trip (t : LiveTrip) : LiveTrip := paid_by (Some (OtherMethod "online")) (Some "completed") t.

(** What every online path does once the payment is the trip's: the row, the trip, the history
    and the driver's earning, in one transaction. *)
Definition complete (env : PayEnv) (p : PaymentRow) (gateway_payment : option string) (once : bool) (w : World)
    : res db_error World :=
  let* w := save_completed p w in
  match w_trips w !! pm_trip p with
  | None => Ok w
  | Some t =>
    let t := paid_online_trip t in
    let w := save_trip (pm_trip p) t w in
    match lt_driver t with
    | None => Ok w
    | Some d =>
      let* w := paid_history t d p gateway_payment once w in
      let* (_, db) := settle_paid_by_platform (te_settle (pe_trip env)) (lt_trip t) (pm_amount p) None (w_db w) in
      Ok (with_db db w)
    end
  end.

Inductive pay_answer :=
| Settled
| AlreadySettled
| PaidAlready
| OrderNotFound
| GatewayUnavailable
| MissingFields
| BadSignature
| NotCaptured
| Skipped (reason : string)
| PaymentRaised.

(** Recording a late capture answers, and refunds it after the commit. *)
Definition too_late (env : PayEnv) (t : Trip) (p : PaymentRow) (gateway : string) (gateway_payment : option string)
    (source : string) (order : option string) (w : World) : pay_answer * World :=
  match record env t p gateway gateway_payment source order w with
  | Err _ => (PaymentRaised, w)
  | Ok (cb, w) => (PaidAlready, after_commit env cb w)
  end.

Definition answered (a : pay_answer) (w : World) (r : res db_error World) : pay_answer * World :=
  match r with Ok w' => (a, w') | Err _ => (PaymentRaised, w) end.

(** The trip of a payment: a foreign key. *)
Definition trip_of (p : PaymentRow) (w : World) : option Trip := lt_trip <$> w_trips w !! pm_trip p.

(** ** Opening a checkout *)

Inductive order_answer :=
| OrderIssued (payment : Z) (order : option string)
| TripMissing
| NotYours
| NotFinished (s : trip_status)
| NotCharged
| AlreadyCompleted
| NoFare
| NoGateway
| CurrencyRefused
| OrderFailed
| CashNotAvailable
| InvalidMethod
| NoPayment
| OrderRaised.

(** [_online_payment_currency] *)
Definition online_payment_currency (g : Gateway) (t : Trip) : option string :=
  let currency := normalize_currency (Some (currency_for_trip (Some t))) None in
  if bool_decide (currency ∈ supported_currencies g) then Some currency else None.

Definition reusable (p : PaymentRow) : bool := bool_decide (pm_status p ∈ [PayPending; PayProcessing; PayFailed]).

(** [create_order], from the checks to the rows it writes.  The view takes no lock, so that
    two requests at once may each write a pending payment; what may complete is decided under
    locks, below. *)
Definition create_order (env : PayEnv) (user i : Z) (w : World) : order_answer * World :=
  match w_trips w !! i with
  | None => (TripMissing, w)
  | Some t =>
    let tr := lt_trip t in
    if negb (trip_rider tr =? user) then (NotYours, w)
    else if negb (bool_decide (lt_status t = TCompleted)) then (NotFinished (lt_status t), w)
    else if is_platform_funded tr then (NotCharged, w)
    else if existsb (fun p => bool_decide (pm_status p = PayCompleted)) (payments_of i w) then (AlreadyCompleted, w)
    else if is_fully_covered (w_db w) tr then (NotCharged, w)
    else
      let amount_minor := payable_minor (w_db w) tr in
      match from_minor_Z amount_minor (Some (trip_currency tr)) with
      | Err _ => (OrderRaised, w)
      | Ok amount =>
        if dleb amount (of_Z 0) then (NoFare, w)
        else
          let g := gateway_of_trip (pe_providers env) tr in
          if negb (gw_live g) then (NoGateway, w)
          else match online_payment_currency g tr with
          | None => (CurrencyRefused, w)
          | Some currency =>
            match gw_create_order g amount_minor currency with
            | None => (OrderFailed, w)
            | Some o =>
              let saved := match latest (fun p => pm_user p =? user) i w with
                           | Some p =>
                             if reusable p then
                               let* m := lift_money (to_minor_dec amount (Some (pm_currency p))) in
                               Ok (pm_id p, update_payment (pm_id p) (taken_online m (gw_name g) o) w)
                             else new_payment t amount "online" PayProcessing (gw_name g) (Some o) w
                           | None => new_payment t amount "online" PayProcessing (gw_name g) (Some o) w
                           end in
              match saved with
              | Err _ => (OrderRaised, w)
              | Ok (k, w) => (OrderIssued k (Some o), (remember k (Some o) (gw_name g) w).2)
              end
            end
          end
      end
  end.

(** ** Verifying a checkout *)

Definition RAZORPAY : string := "razorpay".
Definition CASHFREE : string := "cashfree".

(** The transaction of [verify_payment], once the gateway has said yes: the row is read again
    under its lock. *)
Definition verify_locked (env : PayEnv) (k : Z) (gateway order : string) (verified : option string) (w : World)
    : pay_answer * World :=
  match find_payment k w with
  | None => (PaymentRaised, w)
  | Some p =>
    match trip_of p w with
    | None => (PaymentRaised, w)
    | Some t =>
      if is_late_capture p (Some order) verified then too_late env t p gateway verified "verify" (Some order) w
      else if bool_decide (pm_status p = PayCompleted) then (AlreadySettled, w)
      else
        let p := with_captured verified (pm_cf_payment p) p in
        if superseded p w then too_late env t p gateway verified "verify" (Some order) w
        else
          let w' := match List.find (fun q => bool_decide (pm_replaced_by q = Some k)) (w_payments w) with
                    | Some q => update_payment (pm_id q) (with_pay_status PayFailed) w
                    | None => w
                    end in
          answered Settled w (complete env (settled_by order p) None false w')
    end
  end.

(** [verify_payment] *)
Definition verify_payment (env : PayEnv) (user : Z) (order gateway_payment signature gateway : option string) (w : World)
    : pay_answer * World :=
  if negb (truthy order) then (MissingFields, w)
  else
    let o := default EmptyString order in
    match payment_for_order o (Some user) w with
    | None => (OrderNotFound, w)
    | Some p =>
      if bool_decide (pm_status p = PayCompleted) && negb (is_late_capture p order gateway_payment) then (AlreadySettled, w)
      else
        let name := if truthy (Some (pm_gateway p)) then pm_gateway p
                    else if truthy gateway then default EmptyString gateway else CASHFREE in
        match gateway_named (pe_providers env) name with
        | None => (PaymentRaised, w)
        | Some g =>
          if negb (gw_live g) then (GatewayUnavailable, w)
          else if bool_decide (gw_name g = RAZORPAY) then
            if negb (truthy gateway_payment && truthy signature) then (MissingFields, w)
            else if negb (gw_verify g o gateway_payment signature) then (BadSignature, w)
            else if negb (bool_decide (gw_captured g (default EmptyString gateway_payment) ∈ [Some "captured"; Some "refunded"]))
            then (NotCaptured, w)
            else verify_locked env (pm_id p) (gw_name g) o gateway_payment w
          else if gw_verify g o None None then verify_locked env (pm_id p) (gw_name g) o (pm_gateway_payment p) w
          else (BadSignature, update_payment (pm_id p) (with_pay_status PayFailed) w)
        end
    end.

(** ** The success webhook *)

(** The transaction of the webhook. *)
Definition webhook_locked (env : PayEnv) (k : Z) (provider order : string) (gateway_payment : option string) (w : World)
    : pay_answer * World :=
  match find_payment k w with
  | None => (PaymentRaised, w)
  | Some p =>
    match trip_of p w with
    | None => (PaymentRaised, w)
    | Some t =>
      if is_late_capture p (Some order) gateway_payment || (negb (bool_decide (pm_status p = PayCompleted)) && superseded p w)
      then too_late env t p provider gateway_payment "webhook" (Some order) w
      else if bool_decide (pm_status p = PayCompleted) then (AlreadySettled, w)
      else
        let paid := Some (py_str gateway_payment) in
        let p := with_captured paid (if bool_decide (provider = CASHFREE) then paid else pm_cf_payment p) (settled_by order p) in
        answered Settled w (complete env p paid true w)
    end
  end.

(** [_handle_cashfree_webhook] on a success event, from where the order is known to be no
    wallet top-up. *)
Definition handle_success (env : PayEnv) (g : Gateway) (order gateway_payment : option string) (w : World) : pay_answer * World :=
  if negb (truthy order) then (Skipped "no order_id", w)
  else
    let o := default EmptyString order in
    match payment_for_order o None w with
    | None => (Skipped "payment not found", w)
    | Some p =>
      if bool_decide (pm_status p = PayCompleted) && negb (is_late_capture p order gateway_payment) then (AlreadySettled, w)
      else match (if gw_live g then get_order_status g o else NoInfo) with
      | StatusRaised => (PaymentRaised, w)
      | NoInfo => (Skipped "order not PAID at gateway", w)
      | Info info =>
        if negb (bool_decide (oi_status info = "PAID")) then (Skipped "order not PAID at gateway", w)
        else match parse_input (oi_amount info) with
        | Err _ => (Skipped "malformed gateway amount", w)
        | Ok amount =>
          match to_minor_dec amount (Some (pm_currency p)) with
          | Err _ => (PaymentRaised, w)
          | Ok m =>
            if negb (pm_amount p =? m) then (Skipped "amount mismatch", w)
            else webhook_locked env (pm_id p) (gw_name g) o gateway_payment w
          end
        end
      end
    end.

(** ** Asking the gateway *)

(** The first order the gateway reports as paid; an exception skips its order. *)
Fixpoint first_paid (g : Gateway) (orders : list string) : option (string * OrderInfo) :=
  match orders with
  | [] => None
  | o :: rest =>
    match get_order_status g o with
    | Info info => if bool_decide (oi_status info = "PAID") then Some (o, info) else first_paid g rest
    | _ => first_paid g rest
    end
  end.

(** [p.cashfree_payment_id or p.gateway_payment_id or order_id] *)
Definition history_id (p : PaymentRow) (order : string) : option string :=
  or_text (pm_cf_payment p) (or_text (pm_gateway_payment p) (Some order)).

(** The transaction of the poll and of the reconciliation. *)
Definition poll_locked (env : PayEnv) (k : Z) (gateway source order : string) (info : OrderInfo) (w : World) : pay_answer * World :=
  match find_payment k w with
  | None => (PaymentRaised, w)
  | Some p =>
    match trip_of p w with
    | None => (PaymentRaised, w)
    | Some t =>
      if bool_decide (pm_status p = PayCompleted) then (AlreadySettled, w)
      else if superseded p w then too_late env t p gateway (oi_payment info) source (Some order) w
      else let p := settled_by order p in answered Settled w (complete env p (history_id p order) true w)
    end
  end.

(** Whether the trip ends up paid; [None] is an exception. *)
Definition poll_outcome (a : pay_answer) : option bool :=
  match a with Settled | AlreadySettled => Some true | PaymentRaised => None | _ => Some false end.

(** [_settle_payment_if_paid_at_gateway] *)
Definition settle_if_paid (env : PayEnv) (i : Z) (g : Gateway) (w : World) : option bool * World :=
  if negb (gw_live g) then (Some false, w)
  else match latest (fun p => negb (bool_decide (pm_status p = PayRefunded))) i w with
  | None => (Some false, w)
  | Some p =>
    if bool_decide (pm_status p = PayCompleted) then (Some true, w)
    else match first_paid g (order_ids p w) with
    | None => (Some false, w)
    | Some (o, info) => let '(a, w) := poll_locked env (pm_id p) (gw_name g) "poll" o info w in (poll_outcome a, w)
    end
  end.

(** ** Another method, another try *)

(** [switch_payment_method].  A refusal inside its transaction is an answer and not an exception:
    what was written before it stays. *)
Definition switch_locked (env : PayEnv) (t : LiveTrip) (i k : Z) (online : bool) (w : World) : order_answer * World :=
  match find_payment k w with
  | None => (OrderRaised, w)
  | Some existing =>
    if bool_decide (pm_status existing = PayCompleted) then (AlreadyCompleted, w)
    else
      let tr := lt_trip t in
      let w1 := update_payment k (with_pay_status PayFailed) w in
      match from_minor_Z (payable_minor (w_db w1) tr) (Some (currency_for_trip (Some tr))) with
      | Err _ => (OrderRaised, w)
      | Ok amount =>
        if is_platform_funded tr || (online && is_fully_covered (w_db w1) tr) then (NotCharged, w1)
        else
          let linked r :=
            match r with
            | Err _ => (OrderRaised, w)
            | Ok (n, order, w) =>
              (OrderIssued n order,
               save_trip i (paid_by (Some (if online then OtherMethod "online" else Cash)) (Some "pending") t)
                 (update_payment k (with_replacement n) w))
            end in
          if online then
            let g := gateway_of_trip (pe_providers env) tr in
            match online_payment_currency g tr with
            | None => (CurrencyRefused, w1)
            | Some currency =>
              let order := gw_create_order g (payable_minor (w_db w1) tr) currency in
              linked (let* (n, w) := new_payment t amount "online" PayPending (gw_name g) order w1 in Ok (n, order, w))
            end
          else linked (let* (n, w) := new_payment t amount "cash" PayPending CASHFREE None w1 in Ok (n, None, w))
      end
  end.

Definition switch_payment_method (env : PayEnv) (user i : Z) (new_method : string) (w : World) : order_answer * World :=
  if negb (bool_decide (new_method ∈ ["cash"; "upi"; "wallet"; "online"])) then (InvalidMethod, w)
  else if bool_decide (new_method = "cash") && cash_disabled_for env user then (CashNotAvailable, w)
  else match w_trips w !! i with
  | None => (TripMissing, w)
  | Some t =>
    if negb (bool_decide (lt_status t = TCompleted)) then (NotFinished (lt_status t), w)
    else if negb (trip_rider (lt_trip t) =? user) then (NotYours, w)
    else match latest (fun _ => true) i w with
    | None => (NoPayment, w)
    | Some existing =>
      match settle_if_paid env i (gateway_of_trip (pe_providers env) (lt_trip t)) w with
      | (None, w) => (OrderRaised, w)
      | (Some true, w) => (AlreadyCompleted, w)
      | (Some false, w) => switch_locked env t i (pm_id existing) (negb (bool_decide (new_method = "cash"))) w
      end
    end
  end.

(** [retry_payment] *)
Definition retry_locked (env : PayEnv) (t : LiveTrip) (i k : Z) (w : World) : order_answer * World :=
  match find_payment k w with
  | None => (OrderRaised, w)
  | Some p =>
    if bool_decide (pm_status p = PayCompleted) then (AlreadyCompleted, w)
    else
      let tr := lt_trip t in
      let g := gateway_of_trip (pe_providers env) tr in
      match online_payment_currency g tr with
      | None => (CurrencyRefused, w)
      | Some currency =>
        let order := gw_create_order g (payable_minor (w_db w) tr) currency in
        (OrderIssued k order,
         save_trip i (with_payment_status "processing" t) (update_payment k (retried (gw_name g) order) w))
      end
  end.

Definition retry_payment (env : PayEnv) (user i : Z) (w : World) : order_answer * World :=
  match w_trips w !! i with
  | None => (TripMissing, w)
  | Some t =>
    if negb (trip_rider (lt_trip t) =? user) then (NotYours, w)
    else match latest (fun p => bool_decide (pm_status p = PayFailed)) i w with
    | None => (NoPayment, w)
    | Some p =>
      match settle_if_paid env i (gateway_of_trip (pe_providers env) (lt_trip t)) w with
      | (None, w) => (OrderRaised, w)
      | (Some true, w) => (AlreadyCompleted, w)
      | (Some false, w) =>
        if bool_decide (is_Some (not_charged (w_db w) (lt_trip t))) then (NotCharged, w)
        else match from_minor_Z (payable_minor (w_db w) (lt_trip t)) (Some (currency_for_trip (Some (lt_trip t)))) with
             | Err _ => (OrderRaised, w)
             | Ok _ => retry_locked env t i (pm_id p) w
             end
      end
    end
  end.

(** ** The reconciliation *)

Definition RECON_GRACE_MINUTES : Z := 5.
Definition RECON_LOOKBACK_HOURS : Z := 24.
Definition RECON_BATCH_SIZE : nat := 100.

Definition stuck_payment (at_ : Z) (p : PaymentRow) : bool :=
  bool_decide (pm_status p ∈ [PayPending; PayProcessing]) &&
  (pm_created p <? at_ - RECON_GRACE_MINUTES * 60 * SECOND) && (at_ - RECON_LOOKBACK_HOURS * 3600 * SECOND <? pm_created p) &&
  truthy (pm_cf_order p).

(** One payment of the batch, as it was read; what it raises is skipped. *)
Definition reconcile_one (env : PayEnv) (w : World) (p : PaymentRow) : World :=
  match order_ids p w with
  | [] => w
  | orders =>
    match gateway_named (pe_providers env) (if truthy (Some (pm_gateway p)) then pm_gateway p else CASHFREE) with
    | None => w
    | Some g =>
      if negb (gw_live g) then w
      else match first_paid g orders with
           | None => w
           | Some (o, info) => (poll_locked env (pm_id p) (pm_gateway p) "recon" o info w).2
           end
    end
  end.

Definition reconcile_stuck_payments (env : PayEnv) (w : World) : World :=
  foldl (reconcile_one env) w (take RECON_BATCH_SIZE (List.filter (stuck_payment (now w)) (w_payments w))).

(** ** Paying from the wallet *)

(** [^(?:TRIP_)?(\d+)$] *)
Definition trip_reference (raw : string) : option Z :=
  let l := chars (strip raw) in
  let l := if bool_decide (take 5 l = chars "TRIP_") then drop 5 l else l in
  if bool_decide (l <> []) && forallb is_digit l then Some (digits_val l) else None.

(** [trip_id_from]: the first of the two fields that names a trip. *)
Definition trip_id_from (trip_id reference_id : option string) : option Z :=
  match (raw ← trip_id; trip_reference raw) with Some i => Some i | None => raw ← reference_id; trip_reference raw end.

Inductive refusal :=
| TRIP_REQUIRED | INVALID_AMOUNT | NOT_FOUND | INVALID_STATE_ | ALREADY_PAID_ | NOT_CHARGED_ | NOTHING_TO_PAY
| AMOUNT_MISMATCH | WALLET_NOT_FOUND | CURRENCY_MISMATCH | INSUFFICIENT_BALANCE.

Inductive wallet_answer := Replayed (txn : Z) | WalletCharged (txn : Z) | WalletRefusal (r : refusal) | WalletRaised.

Definition fare_key (i : Z) : string := "trip_" +:+ number i +:+ "_payment".

Definition replay (user i : Z) (db : Db) : option Txn :=
  List.find (fun x => bool_decide (txn_key x = Some (fare_key i)) && (txn_user x =? user)) (txns db).

(** What a wallet payment does to the payments the trip had: the open ones fail and the newest
    is replaced. *)
Definition closed_by_wallet (i n : Z) (w : World) : World :=
  let newest := pm_id <$> latest (fun _ => true) i w in
  set_payments ((fun p =>
    if negb (pm_trip p =? i) then p
    else
      let p' := if bool_decide (pm_status p ∈ [PayPending; PayProcessing]) then with_pay_status PayFailed p else p in
      if bool_decide (newest = Some (pm_id p)) && bool_decide (pm_replaced_by p = None) then with_replacement n p' else p')
    <$> w_payments w) w.

Definition wallet_row (t : LiveTrip) (amount : Z) (currency : string) (w : World) : PaymentRow :=
  {| pm_id := Z.of_nat (length (w_payments w)); pm_trip := trip_id (lt_trip t); pm_user := lt_rider t; pm_amount := amount;
     pm_method := "wallet"; pm_currency := currency; pm_status := PayCompleted; pm_gateway := CASHFREE;
     pm_gateway_payment := None; pm_order := None; pm_cf_order := None; pm_cf_payment := None; pm_replaced_by := None;
     pm_late := None; pm_created := now w |}.

(** The writes of [pay_trip], once nothing refuses them. *)
Definition charge_wallet (env : PayEnv) (t : LiveTrip) (i amount : Z) (currency : string) (wallet : Wallet) (w : World)
    : wallet_answer * World :=
  let user := lt_rider t in
  let tr := lt_trip t in
  match create_txn user (stamped_currency currency tr) amount debit "Trip payment" (trip_ref (trip_id tr)) (fare_key (trip_id tr))
          (save_balance user SCOPE_RIDER (balance_minor wallet - amount) (w_db w)) with
  | Err _ => (WalletRaised, w)
  | Ok (x, db) =>
    let row := wallet_row t amount currency w in
    let closed := closed_by_wallet i (pm_id row) w in
    let w1 := set_payments (w_payments closed ++ [row]) (with_db db closed) in
    let t := paid_by (Some (OtherMethod "wallet")) (Some "completed") t in
    let w1 := save_trip i t w1 in
    let settled := match ts_payment_method <$> current_settlement db (trip_id tr) with
                   | None => let* (_, db) := settle_or_defer (te_settle (pe_trip env)) (lt_trip t) db in Ok db
                   | Some m =>
                     if bool_decide (m = Cash) then
                       let* (_, db) := settle_paid_by_platform (te_settle (pe_trip env)) (lt_trip t) amount (Some currency) db in Ok db
                     else Ok db
                   end in
    match settled with
    | Ok db => (WalletCharged x, with_db db w1)
    | Err _ => (WalletRaised, w)
    end
  end.

(** [pay_trip]; the amount is what the request sent, if anything. *)
Definition pay_trip (env : PayEnv) (user : Z) (trip_id_ reference_id : option string) (amount : pynum) (w : World)
    : wallet_answer * World :=
  let sent := match amount with PyNone => false | PyStr s => truthy (Some s) | _ => true end in
  match trip_id_from trip_id_ reference_id with
  | None => (WalletRefusal TRIP_REQUIRED, w)
  | Some i =>
    if sent && negb (is_ok (parse_input amount)) then (WalletRefusal INVALID_AMOUNT, w)
    else match w_trips w !! i with
    | None => (WalletRefusal NOT_FOUND, w)
    | Some t =>
      let tr := lt_trip t in
      if negb (trip_rider tr =? user) then (WalletRefusal NOT_FOUND, w)
      else if negb (bool_decide (lt_status t = TCompleted)) then (WalletRefusal INVALID_STATE_, w)
      else match replay user (trip_id tr) (w_db w) with
      | Some x => (Replayed (txn_id x), w)
      | None =>
        if existsb (fun p => bool_decide (pm_status p = PayCompleted)) (payments_of i w) || bool_decide (payment_status t = Some "completed")
        then (WalletRefusal ALREADY_PAID_, w)
        else if bool_decide (is_Some (not_charged (w_db w) tr)) then (WalletRefusal NOT_CHARGED_, w)
        else
          let currency := currency_for_trip (Some tr) in
          let m := payable_minor (w_db w) tr in
          if m <=? 0 then (WalletRefusal NOTHING_TO_PAY, w)
          else
            let mismatch := if sent then match (let* d := parse_input amount in to_minor_dec d (Some currency)) with
                                         | Ok n => Ok (negb (n =? m))
                                         | Err e => Err e
                                         end
                            else Ok false in
            match mismatch with
            | Err _ => (WalletRaised, w)
            | Ok true => (WalletRefusal AMOUNT_MISMATCH, w)
            | Ok false =>
              match wallets (w_db w) !! (user, SCOPE_RIDER) with
              | None => (WalletRefusal WALLET_NOT_FOUND, w)
              | Some wallet =>
                if truthy (Some (wallet_currency wallet)) && negb (bool_decide (wallet_currency wallet = currency))
                then (WalletRefusal CURRENCY_MISMATCH, w)
                else if balance_minor wallet - te_held (pe_trip env) user currency <? m
                then (WalletRefusal INSUFFICIENT_BALANCE, w)
                else charge_wallet env t i m currency wallet w
              end
            end
      end
    end
  end.

(** ** The refund a rider asks for *)

Inductive refund_mode := original | credit_mode.

#[global] Instance refund_mode_eq_dec : EqDecision refund_mode.
Proof. solve_decision. Defined.

Inductive refund_result :=
| Refunded (mode : refund_mode) (amount : Z)
| RefundTripMissing
| RefundNotYours
| NotCancelledTrip
| NoOnlinePayment
| NoPaymentId
| RefundGatewayUnavailable
| AlreadyRefunded
| RefundFailed
| RefundCrashed.

(** What the provider's refund call is keyed on. *)
Definition refund_reference (gateway : string) (p : PaymentRow) : option string :=
  if bool_decide (gateway = CASHFREE) then or_text (pm_cf_order p) (pm_order p)
  else if bool_decide (gateway = RAZORPAY) then or_text (pm_gateway_payment p) (pm_order p)
  else None.

(** The credit, or, when it is refused, the original method. *)
Definition give_back (t : Trip) (p : PaymentRow) (amount : dec) (n : Z) (mode : refund_mode) (g : Gateway) (reference : string)
    (w : World) : res db_error (option refund_mode * World) :=
  let gateway w :=
    match create_refund g reference n (pm_currency p) with
    | RefundMade _ => Ok (Some original, set_refunds (w_refunds w ++ [{| gr_payment := reference; gr_amount := n; gr_currency := pm_currency p |}]) w)
    | RefundRefused => Ok (None, w)
    | RefundRaised => Err (Unavailable "gateway")
    end in
  match mode with
  | original => gateway w
  | credit_mode =>
    let* (r, db) := issue_refund_credit t amount ("refund-credit:payment=" +:+ number (pm_id p)) (w_db w) in
    let w := with_db db w in
    match r with CreditRefused _ => gateway w | _ => Ok (Some credit_mode, w) end
  end.

(** The money action, and, when nothing is left to refund, the payment, the trip and the driver. *)
Definition book_refund (env : PayEnv) (t : LiveTrip) (p : PaymentRow) (amount : dec) (n : Z) (mode : refund_mode) (w : World)
    : res db_error World :=
  let i := pm_trip p in
  let w := set_actions (w_actions w ++ [{| ma_trip := i; ma_kind := REFUND; ma_amount := n; ma_currency := pm_currency p;
             ma_method := (match mode with credit_mode => "wallet_credit" | original => "gateway" end);
             ma_status := (match mode with credit_mode => ACT_COMPLETED | original => ACT_PENDING_GATEWAY end) |}]) w in
  let full := refundable_minor t w =? 0 in
  let w := if full then save_trip i (with_payment_status "refunded" t) (save_payment (pm_id p) PayRefunded w) else w in
  match lt_driver t with
  | None => Ok w
  | Some d =>
    let* w :=
      (if full then
         let* (x, db) := reverse_trip_earnings (te_settle (pe_trip env)) (lt_trip t) (w_db w) in
         match (k ← x; List.find (fun r => txn_id r =? k) (txns db)) with
         | None => Ok (with_db db w)
         | Some r =>
           let* a := lift_money (from_minor_Z (amount_minor r) (Some (txn_currency r))) in
           let* h := history_row t (lt_rider t) d a "online" "debit" (or_text (pm_cf_payment p) (pm_gateway_payment p)) in
           Ok (set_paid (w_paid w ++ [h]) (with_db db w))
         end
       else Ok w) in
    let* h := history_row t (lt_rider t) d amount "online" "refund" (or_text (pm_cf_payment p) (pm_gateway_payment p)) in
    Ok (set_paid (w_paid w ++ [h]) w)
  end.

(** [refund_payment] *)
Definition refund_payment (env : PayEnv) (user i : Z) (mode : refund_mode) (w : World) : refund_result * World :=
  match w_trips w !! i with
  | None => (RefundTripMissing, w)
  | Some t =>
    if negb (lt_rider t =? user) then (RefundNotYours, w)
    else if negb (bool_decide (lt_status t = TCancelled)) then (NotCancelledTrip, w)
    else match paid_online i w with
    | None => (NoOnlinePayment, w)
    | Some p =>
      let name := if truthy (Some (pm_gateway p)) then pm_gateway p else CASHFREE in
      let reference := refund_reference name p in
      if negb (truthy reference) then (NoPaymentId, w)
      else match gateway_named (pe_providers env) name with
      | None => (RefundCrashed, w)
      | Some g =>
        if negb (gw_live g) then (RefundGatewayUnavailable, w)
        else
          let n := Z.min (pm_amount p) (refundable_minor t w) in
          if n <=? 0 then (AlreadyRefunded, w)
          else match from_minor_Z n (Some (pm_currency p)) with
          | Err _ => (RefundCrashed, w)
          | Ok amount =>
            match give_back (lt_trip t) p amount n mode g (default EmptyString reference) w with
            | Err _ => (RefundCrashed, w)
            | Ok (None, w') => (RefundFailed, w')
            | Ok (Some m, w') =>
              match book_refund env t p amount n m w' with
              | Ok w'' => (Refunded m n, w'')
              | Err _ => (RefundCrashed, set_refunds (w_refunds w') w)
              end
            end
          end
      end
    end
  end.
