(* ===== verification/TripSafety.v ===== *)
(** * TripSafety: what holds of every ride

    The invariants of Trips.World under every interleaving of bookings, socket commands,
    cancellations, timeouts, operators and driver requests; the life of a ride as an abstract
    machine the code refines; what completing and cancelling do to money; and the gaps
    between what the code says and does. *)

From S2P Require Import Prelude PyDecimal PyText Countries Models Money Commission Zones PromoTax Alerts Store.
From S2P Require Import Promos Settlement Drivers DriverSafety Trips OperatorEnd.
#[local] Open Scope string_scope.
#[local] Open Scope list_scope.
#[local] Open Scope Z_scope.

(** ** The clock *)

Lemma settle_all_clock (t : Trip) (du : option Z) (cash : bool) (l : list Redemption) (db db' : Db) (n : Z) :
  settle_all t du cash l db = Ok (n, db') -> clock db' = clock db.
Proof.
  revert db n. induction l as [|r l IH]; intros db n; cbn [settle_all]; [by intros [= _ <-]|]. intros H.
  apply res_bind_ok in H as ([n1 db1] & H1 & H). apply res_bind_ok in H as ([m db2] & H2 & H). injection H as _ <-.
  rewrite (IH _ _ H2). clear -H1. unfold settle_redemption in H1. destruct (rd_campaign r) as [i|]; [|by injection H1 as _ <-].
  apply res_bind_ok in H1 as (db3 & (c & c' & _ & _ & B)%settle_ok & H).
  apply res_bind_ok in H as ([x db4] & H4 & H). apply res_bind_ok in H as (db5 & (_ & _ & ->)%create_entry_ok & H).
  injection H as _ <-. destruct B as [_ _ _ _ _ _ _ _ B]. cbn.
  destruct cash, du as [u|]; try (injection H4 as _ <-; exact B).
  apply res_bind_ok in H4 as ([j db6] & (_ & _ & ->)%create_txn_ok & H4). injection H4 as _ <-. exact B.
Qed.

Lemma settle_promo_clock (env : SettleEnv) (t : Trip) (u : Z) (db : Db) : clock (settle_promo env t u db) = clock db.
Proof.
  unfold settle_promo, settle_trip. destruct (_ || _); [done|].
  destruct (settle_all _ _ _ _ _) as [[n db']|] eqn:E; [|done]. by eapply settle_all_clock.
Qed.

Lemma settle_or_defer_clock (env : SettleEnv) (t : Trip) (db db' : Db) (b : bool) :
  settle_or_defer env t db = Ok (b, db') -> clock db' = clock db.
Proof.
  unfold settle_or_defer. destruct (credit_driver_wallet env t db) as [db1|e] eqn:E.
  - intros [= _ <-]. unfold credit_driver_wallet in E. destruct (trip_driver t) as [d|]; [|by injection E as <-].
    destruct (is_platform_funded t); [by injection E as <-|].
    apply res_bind_ok in E as (a & _ & E). apply res_bind_ok in E as ([w db2] & Hw & E).
    destruct w as [db3|]; injection E as <-.
    + apply write_settlement_ok in Hw as (-> & l & _ & _ & _ & _ & _ & _ & _ & _ & Hc & _).
      by rewrite settle_promo_clock.
    + by apply write_settlement_ok in Hw as [_ ->].
  - destruct e; try done. by intros [= _ <-].
Qed.

Lemma release_all_clock (l : list Redemption) (db db' : Db) (n : Z) : release_all l db = Ok (n, db') -> clock db' = clock db.
Proof.
  revert db n. induction l as [|r l IH]; intros db n; cbn [release_all]; [by intros [= _ <-]|]. intros H.
  apply res_bind_ok in H as (db1 & H1 & H). apply res_bind_ok in H as ([m db2] & H2 & H). injection H as _ <-.
  rewrite (IH _ _ H2). cbn. destruct (rd_campaign r) as [i|]; [|by injection H1 as <-].
  apply release_ok in H1 as (c & c' & b & _ & _ & _ & _ & _ & _ & _ & B). by destruct B.
Qed.

Lemma reserve_clock (env : PromoEnv) (p : PromoCode) (user : Z) (d : dec) (zone : option Zone) (db db1 : Db) (x : Z + string) :
  reserve_for_redemption env p user d zone db = Ok (x, db1) -> clock db1 = clock db.
Proof.
  unfold reserve_for_redemption.
  destruct (match campaign_for db (pc_id p) with Some ic => (ic, db) | None => _ end) as [[i c] db0] eqn:E.
  assert (clock db0 = clock db) as H0 by (destruct (campaign_for _ _) as [ic|]; by injection E as _ _ <- || injection E as _ <-).
  intros H. rewrite <- H0.
  destruct (negb _); [by simplify_eq|]. destruct (negb _); [by simplify_eq|]. destruct (_ && _); [by simplify_eq|].
  apply res_bind_ok in H as (n & _ & H). destruct (reserve i n db0) as [db2|err] eqn:R.
  - injection H as _ <-. apply reserve_ok in R as (c0 & c' & _ & _ & _ & _ & B). by destruct B.
  - destruct err; simplify_eq; done.
Qed.

(** ** What a booking writes *)

(** The promotion moves the quoted fare of the trip it is given, and nothing else of it. *)
Definition same_ride (t t' : Trip) : Prop := exists m, t' = t \/ t' = with_estimate m t.

Lemma redeem_promo_trip (env : PromoEnv) (code : option string) (user : Z) (t t' : Trip) (fare : dec) (zone : option Zone)
    (tax : tax_arg) (at_ : Z) (db db' : Db) (r : PromoResult * Trip + string) :
  redeem_promo env code user t fare zone tax at_ db = Ok (r, db') ->
  clock db' = clock db /\ match r with inl (_, t') => same_ride t t' | inr _ => True end.
Proof.
  intros H. unfold redeem_promo in H. destruct (List.find _ _) as [p|]; [|by simplify_eq].
  destruct (negb _); [by simplify_eq|]. apply res_bind_ok in H as (why & _ & H).
  destruct why as [w|]; [by simplify_eq|].
  apply res_bind_ok in H as ([d adj] & _ & H). apply res_bind_ok in H as ([d' final] & _ & H).
  apply res_bind_ok in H as ([x db1] & Hr%reserve_clock & H). destruct x as [i|w]; [|by simplify_eq].
  apply res_bind_ok in H as (two & _ & H). apply res_bind_ok in H as (minor & _ & H).
  apply res_bind_ok in H as (t1 & Ht & H). injection H as <- <-. split; [done|].
  unfold relieved_trip in Ht. destruct adj as [a|]; [|injection Ht as <-; exists 0; by left].
  destruct (dltb _ _); [|injection Ht as <-; exists 0; by left].
  apply res_bind_ok in Ht as (m & _ & Ht). injection Ht as <-. eexists. by right.
Qed.

Lemma book_trip (env : PromoEnv) (code : option string) (user : Z) (t t' : Trip) (fare : dec) (zone : option Zone)
    (tax : tax_arg) (db db' : Db) (r : option PromoResult) :
  book env code user t fare zone tax db = Ok (r, t', db') -> clock db' = clock db /\ same_ride t t'.
Proof.
  unfold book. intros H. apply res_bind_ok in H as (chosen & _ & H).
  destruct chosen as [c|]; [|injection H as _ <- <-; split; [done|exists 0; by left]].
  apply res_bind_ok in H as ([x db1] & Hr & H). apply (redeem_promo_trip _ _ _ _ t') in Hr as [Hc Ht].
  destruct x as [[y t1]|why]; [by injection H as _ <- <-|]. destruct (negb _); [done|].
  injection H as _ <- <-. split; [done|]. exists 0. by left.
Qed.

(** ** Steps *)

Definition at_time (t : Z) (db : Db) : Db :=
  {| clock := t; next_id := next_id db; wallets := wallets db; txns := txns db; settlements := settlements db;
     histories := histories db; expenses := expenses db; campaigns := campaigns db; redemptions := redemptions db;
     redemption_counts := redemption_counts db; promo_entries := promo_entries db; alert_table := alert_table db |}.

Definition counts (f : Fleet) : gmap Z Z := dr_trips <$> fl_rows f.

(** One request: a booking, a command on a trip's socket by anybody, a cancellation, the accept
    timeout, an operator, a request of Drivers, or any other writer of the money tables and
    of a trip's payment columns; or time passing. *)
Inductive trip_step (env : TripEnv) : World -> World -> Prop :=
| ts_tick w t : now w <= t -> trip_step env w (with_db (at_time t (w_db w)) w)
| ts_book w rider key body code fare tax : trip_step env w (insert_trip env rider key body code fare tax w).2
| ts_command w u part i c gateway commit : trip_step env w (receive env u part i c gateway commit w).2
| ts_driver_cancel w user i reason note : trip_step env w (driver_cancel_trip env user i reason note w).2
| ts_rider_cancel w user i reason note gateway commit : trip_step env w (rider_cancel_trip user i reason note gateway commit w).2
| ts_timeout w i : trip_step env w (auto_cancel_trip i w).2
| ts_operator w i reason note waive stale gateway : trip_step env w (operator_cancel i reason note waive stale gateway w).2
| ts_release w i stale marker reason tm gateway : trip_step env w (release_driver env i stale marker reason tm gateway w).2
| ts_fleet w f : fleet_step (te_qa env) (now w, w_fleet w) (now w, f) -> counts f = counts (w_fleet w) ->
    trip_step env w (set_fleet f w)
| ts_money w db payments actions orders paid refunds : clock db = now w ->
    trip_step env w (set_orders orders (set_refunds refunds (set_paid paid (set_actions actions (set_payments payments (with_db db w))))))
| ts_paid w i t m ps : w_trips w !! i = Some t -> trip_step env w (save_trip i (paid_by m ps t) w).

(** ** What a step does to the trips *)

(** The columns of a trip's life; the rest is money. *)
Record Life := {
  lf_status : trip_status; lf_id : Z; lf_rider : Z; lf_driver : option Z; lf_otp : option string; lf_requested : Z;
  lf_accepted : option Z; lf_reached : option Z; lf_started : option Z; lf_completed : option Z; lf_cancelled : option Z;
  lf_key : option string
}.

Definition life (t : LiveTrip) : Life :=
  {| lf_status := lt_status t; lf_id := trip_id (lt_trip t); lf_rider := lt_rider t; lf_driver := lt_driver t;
     lf_otp := lt_otp t; lf_requested := trip_requested_at (lt_trip t); lf_accepted := accepted_at t;
     lf_reached := reached_at t; lf_started := trip_started_at t; lf_completed := completed_at t;
     lf_cancelled := cancelled_at t; lf_key := client_request_id t |}.

(** The changes one transaction may make to one trip. *)
Inductive change (w : World) (i : Z) (t : LiveTrip) : LiveTrip -> Prop :=
| ch_assigned d v otp :
    lt_status t = TRequested -> lt_driver t = None -> driver_active_trip_ids d (Some i) w = [] ->
    change w i t (assigned d v otp (now w) t)
| ch_reached : lt_status t = TAccepted -> change w i t (stamped_reached (now w) t)
| ch_started : lt_status t ∈ [TAccepted; TReached] -> change w i t (stamped_started (now w) t)
| ch_completed t' :
    lt_status t = TInProgress -> life t' = life (stamped_completed (now w) t) -> change w i t t'
| ch_cancelled by_ reason t' :
    lt_status t ∈ [TRequested; TAccepted; TReached; TInProgress] ->
    life t' = life (stamped_cancelled (now w) by_ reason t) -> change w i t t'
| ch_paid t' : life t' = life t -> change w i t t'.

Definition is_completed (t : LiveTrip) : bool := bool_decide (lt_status t = TCompleted).

(** The drivers' counters after a change. *)
Definition counted_after (t t' : LiveTrip) (m : gmap Z Z) : gmap Z Z :=
  match lt_driver t' with
  | Some d => if is_completed t' && negb (is_completed t) then alter Z.succ d m else m
  | None => m
  end.

Definition fresh_trip (w : World) (rider : Z) (key : option string) (t : LiveTrip) : Prop :=
  life t = {| lf_status := TRequested; lf_id := w_next w; lf_rider := rider; lf_driver := None; lf_otp := None;
    lf_requested := now w; lf_accepted := None; lf_reached := None; lf_started := None; lf_completed := None;
    lf_cancelled := None; lf_key := key |} /\
  forall k, key = Some k -> find_booking rider k w = None.

Inductive effect (w w' : World) : Prop :=
| ef_none : w_trips w' = w_trips w -> w_next w' = w_next w -> now w <= now w' ->
    counts (w_fleet w') = counts (w_fleet w) -> effect w w'
| ef_booked rider key t : fresh_trip w rider key t -> w_trips w' = <[w_next w := t]> (w_trips w) ->
    w_next w' = w_next w + 1 -> now w' = now w -> counts (w_fleet w') = counts (w_fleet w) -> effect w w'
| ef_changed i t t' : w_trips w !! i = Some t -> change w i t t' -> w_trips w' = <[i := t']> (w_trips w) ->
    w_next w' = w_next w -> now w' = now w -> counts (w_fleet w') = counted_after t t' (counts (w_fleet w)) -> effect w w'.

Lemma effect_refl (w : World) : effect w w.
Proof. by apply ef_none. Qed.

Lemma counts_update (d : Z) (g : DriverRow -> DriverRow) (f : Fleet) :
  (forall r, dr_trips (g r) = dr_trips r) -> counts (update_row d g f) = counts f.
Proof.
  intros H. unfold counts. cbn. apply map_eq. intros j. rewrite !lookup_fmap.
  destruct (decide (j = d)) as [->|]; [rewrite lookup_alter_eq|by rewrite lookup_alter_ne].
  destruct (fl_rows f !! d); cbn; [by rewrite H|done].
Qed.

Lemma counts_one_more (d : Z) (f : Fleet) : counts (update_row d one_more_trip f) = alter Z.succ d (counts f).
Proof.
  unfold counts. cbn. apply map_eq. intros j. rewrite lookup_fmap.
  destruct (decide (j = d)) as [->|].
  - rewrite !lookup_alter_eq, lookup_fmap. by destruct (fl_rows f !! d).
  - rewrite !lookup_alter_ne by done. by rewrite lookup_fmap.
Qed.

Lemma fatigue_counts (d : Z) (r : DriverRow) (t : Z) (f : Fleet) : counts (get_fatigue_status d r t f).2 = counts f.
Proof.
  unfold get_fatigue_status. destruct (match dr_lockout r with Some _ => _ | None => _ end); [done|].
  destruct (_ <=? _); [|done]. by apply counts_update.
Qed.

Lemma penalty_counts (d : Z) (r : DriverRow) (trip : Z) (reason note : string) (t : Z) (f : Fleet) :
  counts (apply_cancellation_penalty d r trip reason note t f).2 = counts f.
Proof.
  unfold apply_cancellation_penalty. cbn. destruct (_ <=? _); [|done]. cbn [snd]. by rewrite counts_update.
Qed.

(** ** Each operation *)

(** Writing money columns in the course of a transaction. *)
Definition money_only (w w' : World) : Prop :=
  w_trips w' = w_trips w /\ w_next w' = w_next w /\ now w' = now w /\ w_fleet w' = w_fleet w.

Lemma quiet_refl (w : World) : money_only w w.
Proof. done. Qed.

Lemma quiet_trans (a b c : World) : money_only a b -> money_only b c -> money_only a c.
Proof. unfold money_only. intros (A1 & A2 & A3 & A4) (B1 & B2 & B3 & B4). repeat split; congruence. Qed.

Lemma create_payment_quiet (t : LiveTrip) (a : dec) (m : string) (s : pay_status) (g : string) (w w' : World) :
  create_payment t a m s g w = Ok w' -> money_only w w'.
Proof.
  unfold create_payment. intros H. apply res_bind_ok in H as (n & _ & H). destruct (_ && _); [done|]. by injection H as <-.
Qed.

Lemma settled_world_quiet (env : TripEnv) (t : LiveTrip) (w w' : World) : settled_world env t w = Ok w' -> money_only w w'.
Proof.
  unfold settled_world. intros H. apply res_bind_ok in H as ([b db] & H%settle_or_defer_clock & E). by injection E as <-.
Qed.

Lemma paid_history_quiet (t : LiveTrip) (a : dec) (w w' : World) : wallet_paid_history t a w = Ok w' -> money_only w w'.
Proof.
  unfold wallet_paid_history. destruct (lt_driver t); [|by intros [= <-]]. intros H.
  apply res_bind_ok in H as (n & _ & H). by injection H as <-.
Qed.

Lemma wallet_payment_clock (env : TripEnv) (u : Z) (a : dec) (p k : string) (t : Trip) (db : Db) :
  clock (wallet_payment env u a p k t db).2 = clock db.
Proof.
  unfold wallet_payment. destruct (dleb _ _); [done|]. destruct (existsb _ _); [done|].
  destruct (wallets db !! _); [|done]. destruct (to_minor_dec _ _); [|done]. destruct (_ <? _); [done|].
  destruct (create_txn _ _ _ _ _ _ _ _) as [[i db']|] eqn:E; [|done]. by apply create_txn_ok in E as (_ & _ & ->).
Qed.

Lemma create_payment_on_complete_quiet (env : TripEnv) (t t' : LiveTrip) (w w' : World) :
  create_payment_on_complete env t w = Ok (t', w') -> money_only w w' /\ life t' = life t.
Proof.
  unfold create_payment_on_complete. destruct (negb _); [by intros [= <- <-]|]. intros H.
  apply res_bind_ok in H as (amount & _ & H). destruct (deqb _ _).
  { destruct (_ && _); [|by injection H as <- <-]. apply res_bind_ok in H as (w1 & H1%settled_world_quiet & H). by injection H as <- <-. }
  destruct (bool_decide _).
  { apply res_bind_ok in H as (w1 & H1%create_payment_quiet & H). by injection H as <- <-. }
  destruct (bool_decide _).
  { apply res_bind_ok in H as (w1 & H1%create_payment_quiet & H). apply res_bind_ok in H as (w2 & H2%settled_world_quiet & H).
    injection H as <- <-. split; [by eapply quiet_trans|done]. }
  destruct (bool_decide _).
  - pose proof (wallet_payment_clock env (lt_rider t) amount "Trip payment"
      ("trip_" +:+ number (trip_id (lt_trip t)) +:+ "_payment")%string (lt_trip t) (w_db w)) as Hc.
    destruct (wallet_payment _ _ _ _ _ _ _) as [r db]. cbn in Hc.
    assert (money_only w (with_db db w)) as H0 by done. destruct r; [|by injection H as <- <-].
    apply res_bind_ok in H as (w1 & H1%create_payment_quiet & H). apply res_bind_ok in H as (w2 & H2%paid_history_quiet & H).
    apply res_bind_ok in H as (w3 & H3%settled_world_quiet & H). injection H as <- <-.
    split; [|done]. eauto using quiet_trans.
  - apply res_bind_ok in H as (w1 & H1%create_payment_quiet & H). by injection H as <- <-.
Qed.

Lemma process_refund_quiet (g : gateway_answer) (t t' : LiveTrip) (w w' : World) (r : option Z) :
  process_refund_on_cancel g t w = Some (r, t', w') -> money_only w w' /\ life t' = life t.
Proof.
  unfold process_refund_on_cancel. destruct (paid_online _ w) as [p|]; [|by intros [= <- <- <-]].
  destruct (pm_gateway_payment p); [|by intros [= <- <- <-]]. destruct (negb _); [by intros [= <- <- <-]|].
  destruct (_ <=? _); [by intros [= <- <- <-]|]. by destruct g; intros [= <- <- <-].
Qed.

Lemma released_quiet (t : LiveTrip) (r : cmd_result) (w : World) : money_only w (released t r w).2.
Proof.
  unfold released, release_for_trip. destruct (release_all _ _) as [[n db]|e] eqn:E; [|done].
  apply release_all_clock in E. done.
Qed.

Lemma effect_quiet (w w1 w2 : World) : effect w w1 -> money_only w1 w2 -> effect w w2.
Proof.
  intros H (H1 & H2 & H3 & H4). destruct H as [E1 E2 E3 E4|rider key t E1 E2 E3 E4 E5|i t t' E1 E2 E3 E4 E5 E6].
  - apply ef_none; [congruence..|lia|congruence].
  - eapply ef_booked; [exact E1|congruence..].
  - eapply ef_changed; [exact E1|exact E2|congruence..].
Qed.

(** A transaction that saves one trip at the end. *)
Lemma effect_save (w w1 : World) (i : Z) (t t' : LiveTrip) :
  w_trips w !! i = Some t -> change w i t t' -> money_only w w1 ->
  (is_completed t' = true -> is_completed t = true) -> effect w (save_trip i t' w1).
Proof.
  intros Ht Hc (H1 & H2 & H3 & H4) Hn. eapply ef_changed; [exact Ht|exact Hc|cbn; by rewrite H1|cbn; congruence|exact H3|].
  cbn. rewrite H4. unfold counted_after. destruct (lt_driver t'); [|done].
  destruct (is_completed t') eqn:E1; [|done]. by rewrite (Hn eq_refl).
Qed.

Lemma count_trip_counts (t : LiveTrip) (w : World) :
  counts (w_fleet (count_trip t w)) = match lt_driver t with Some d => alter Z.succ d (counts (w_fleet w)) | None => counts (w_fleet w) end.
Proof. unfold count_trip. destruct (lt_driver t); [apply counts_one_more|done]. Qed.

(** A completion: the payment, the counter, the trip. *)
Lemma effect_complete (w w1 : World) (i : Z) (t t' : LiveTrip) :
  w_trips w !! i = Some t -> lt_status t = TInProgress -> life t' = life (stamped_completed (now w) t) -> money_only w w1 ->
  effect w (save_trip i t' (count_trip t' w1)).
Proof.
  intros Ht Hs Hl (H1 & H2 & H3 & H4). eapply ef_changed; [exact Ht|by apply ch_completed|..].
  - cbn. rewrite <- H1. by unfold count_trip; destruct (lt_driver t').
  - cbn. rewrite <- H2. by unfold count_trip; destruct (lt_driver t').
  - rewrite <- H3. cbn. by unfold count_trip; destruct (lt_driver t').
  - cbn. rewrite count_trip_counts, H4. unfold counted_after. destruct (lt_driver t'); [|done].
    assert (is_completed t' = true) as -> by (unfold is_completed; apply bool_decide_eq_true; by apply (f_equal lf_status) in Hl).
    unfold is_completed. by rewrite Hs.
Qed.

Lemma committed_effect (b : bool) (w w' : World) : effect w w' -> effect w (committed b w w').
Proof. intros H. destruct b; [done|]. by apply ef_none. Qed.

Lemma transition_error_none (s current : trip_status) (from : list trip_status) :
  transition_error s current = None -> allowed_transitions s = Some from -> current ∈ from.
Proof.
  unfold transition_error. intros H E. rewrite E in H. destruct (bool_decide_reflect (current ∈ from)); [done|discriminate].
Qed.

Lemma update_effect (env : TripEnv) (i : Z) (s : trip_status) (otp : option string) (by_ reason : string)
    (g : gateway_answer) (commit : bool) (w : World) :
  s ∈ [TReached; TInProgress; TCompleted; TCancelled] ->
  effect w (update_trip_status env i s otp by_ reason g commit w).2.
Proof.
  intros Hs. unfold update_trip_status. destruct (w_trips w !! i) as [t|] eqn:Ht; [|apply effect_refl].
  destruct (transition_error s (lt_status t)) eqn:Et; [apply effect_refl|].
  destruct (bool_decide _ && _); [apply effect_refl|]. destruct (bool_decide _ && _); [apply effect_refl|].
  destruct s; [exfalso; revert Hs; vm_compute; set_solver|exfalso; revert Hs; vm_compute; set_solver|..]; cbn [snd].
  - apply committed_effect. apply (effect_save w w i t); [done| |done|].
    + apply ch_reached. pose proof (transition_error_none _ _ _ Et eq_refl) as Hin. by apply list_elem_of_singleton in Hin.
    + done.
  - apply committed_effect. apply (effect_save w w i t); [done| |done|done].
    apply ch_started. exact (transition_error_none _ _ _ Et eq_refl).
  - destruct (create_payment_on_complete _ _ _) as [[t' w']|e] eqn:Ec; [|apply effect_refl].
    apply create_payment_on_complete_quiet in Ec as [Hq Hl]. apply committed_effect.
    apply effect_complete with (t := t); [done| |done|done].
    pose proof (transition_error_none _ _ _ Et eq_refl) as Hin. by apply list_elem_of_singleton in Hin.
  - destruct (process_refund_on_cancel _ _ _) as [[[r t'] w']|] eqn:Ec; [|apply effect_refl].
    apply process_refund_quiet in Ec as [Hq Hl].
    assert (effect w (save_trip i t' w')) as He.
    { apply (effect_save w w' i t); [done| |done|].
      - eapply ch_cancelled; [exact (transition_error_none _ _ _ Et eq_refl)|exact Hl].
      - unfold is_completed. apply (f_equal lf_status) in Hl. cbn in Hl. by rewrite Hl. }
    destruct commit; cbn [snd]; [|by apply (committed_effect false)].
    eapply effect_quiet; [exact He|apply released_quiet].
Qed.

Lemma accept_effect (env : TripEnv) (driver : option Z) (i : Z) (otp : string) (w : World) :
  effect w (accept_trip env driver i otp w).2.
Proof.
  unfold accept_trip. destruct (w_trips w !! i) as [t|] eqn:Ht; [|apply effect_refl].
  destruct (bool_decide_reflect (is_Some (lt_driver t))) as [|Hd]; [apply effect_refl|].
  destruct (bool_decide_reflect (lt_status t = TRequested)) as [Hs|]; cbn [negb]; [|apply effect_refl].
  destruct (d ← driver; r ← fl_rows (w_fleet w) !! d; Some (d, r)) as [[d r]|] eqn:Edr; [|apply effect_refl].
  destruct (negb _); [apply effect_refl|]. destruct (is_blocked r); [apply effect_refl|].
  destruct (bool_decide _); [apply effect_refl|].
  pose proof (fatigue_counts d r (now w) (w_fleet w)) as Hc. destruct (get_fatigue_status _ _ _ _) as [st f]. cbn in Hc.
  destruct (locked st); [by apply ef_none|].
  destruct (bool_decide_reflect (driver_active_trip_ids d (Some i) (set_fleet f w) = [])) as [Hn|]; cbn [negb snd]; [|by apply ef_none].
  assert (lt_driver t = None) as Hd' by (destruct (lt_driver t); [exfalso; apply Hd; by eexists|done]).
  eapply ef_changed; [exact Ht|by apply ch_assigned|done|done|done|].
  cbn. unfold counted_after. cbn. by rewrite Hc.
Qed.

Lemma confirm_effect (env : TripEnv) (i : Z) (w : World) : effect w (confirm_cash_payment env i w).2.
Proof.
  unfold confirm_cash_payment. destruct (w_trips w !! i) as [t|] eqn:Ht; [|apply effect_refl].
  destruct (negb _); [apply effect_refl|]. destruct (_ && _); [apply effect_refl|].
  destruct (last_cash _ w) as [p|]; [|apply effect_refl]. destruct (bool_decide _); [apply effect_refl|].
  destruct (bool_decide _); [apply effect_refl|]. destruct (existsb _ _); [apply effect_refl|].
  destruct (settled_world _ _ _) as [w'|e] eqn:Es; [|apply effect_refl]. apply settled_world_quiet in Es.
  eapply effect_quiet; [|exact Es]. apply (effect_save w (save_payment (pm_id p) PayCompleted w) i t); [done| |done|].
  - by apply ch_paid.
  - done.
Qed.

Lemma receive_effect (env : TripEnv) (u : SocketUser) (part : participation) (i : Z) (c : command) (g : gateway_answer)
    (commit : bool) (w : World) : effect w (receive env u part i c g commit w).2.
Proof.
  assert (forall s, s ∈ [TReached; TInProgress; TCompleted; TCancelled] -> forall o b r, effect w (update_trip_status env i s o b r g commit w).2)
    as Hu by (intros; by apply update_effect).
  destruct c; cbn [receive]; try apply effect_refl.
  - destruct (negb _); [apply effect_refl|]. pose proof (accept_effect env (us_driver u) i new_otp w) as H.
    by destruct (accept_trip _ _ _ _ _).
  - destruct (is_assigned_driver u i w); [|apply effect_refl].
    specialize (Hu TReached ltac:(vm_compute; set_solver) None EmptyString EmptyString). by destruct (update_trip_status _ _ _ _ _ _ _ _ _).
  - destruct (is_assigned_driver u i w); [|apply effect_refl]. unfold start_ride.
    destruct (negb _); [apply effect_refl|]. destruct (_ <=? _); [apply effect_refl|].
    specialize (Hu TInProgress ltac:(vm_compute; set_solver) otp EmptyString EmptyString).
    destruct (update_trip_status _ _ _ _ _ _ _ _ _) as [r w']. cbn in *.
    destruct (mentions_otp r); [by eapply effect_quiet; [exact Hu|]|]. destruct (succeeded r); [|done].
    by eapply effect_quiet; [exact Hu|].
  - destruct (is_assigned_driver u i w); [|apply effect_refl].
    specialize (Hu TCompleted ltac:(vm_compute; set_solver) None EmptyString EmptyString). by destruct (update_trip_status _ _ _ _ _ _ _ _ _).
  - destruct (is_assigned_driver u i w); [|apply effect_refl]. pose proof (confirm_effect env i w) as H.
    by destruct (confirm_cash_payment _ _ _).
  - destruct (negb _); [apply effect_refl|].
    specialize (Hu TCancelled ltac:(vm_compute; set_solver) None (if is_rider u i w then "rider" else "driver") (truncated 255 reason)).
    by destruct (update_trip_status _ _ _ _ _ _ _ _ _).
Qed.

Lemma insert_effect (env : TripEnv) (rider : Z) (key : option string) (body : Trip) (code : option string)
    (fare : dec) (tax : tax_arg) (w : World) : effect w (insert_trip env rider key body code fare tax w).2.
Proof.
  unfold insert_trip. destruct (k ← given_key key; find_booking rider k w) as [j|] eqn:Ek; [apply effect_refl|].
  destruct (book _ _ _ _ _ _ _ _) as [[[r t] db]|e] eqn:Eb; [|destruct e; apply effect_refl].
  apply book_trip in Eb as [Hc [m Ht]]. cbn [snd].
  eapply (ef_booked _ _ rider (given_key key)); [|done|done|exact Hc|done]. split.
  - by destruct Ht as [->| ->].
  - intros k Hk. by rewrite Hk in Ek.
Qed.

Lemma cancel_save_effect (w w1 : World) (i : Z) (t t' : LiveTrip) (by_ reason : string) :
  w_trips w !! i = Some t -> lt_status t ∈ [TRequested; TAccepted; TReached; TInProgress] ->
  life t' = life (stamped_cancelled (now w) by_ reason t) -> money_only w w1 -> effect w (save_trip i t' w1).
Proof.
  intros Ht Hs Hl Hq. apply (effect_save w w1 i t); [done|by eapply ch_cancelled|done|].
  unfold is_completed. apply (f_equal lf_status) in Hl. cbn in Hl. by rewrite Hl.
Qed.

Lemma driver_cancel_effect (env : TripEnv) (user i : Z) (reason note : string) (w : World) :
  effect w (driver_cancel_trip env user i reason note w).2.
Proof.
  unfold driver_cancel_trip. destruct (negb _); [apply effect_refl|].
  destruct (w_trips w !! i) as [t|] eqn:Ht; [|apply effect_refl]. destruct (lt_driver t) as [d|]; [|apply effect_refl].
  destruct (negb _); [apply effect_refl|]. destruct (bool_decide_reflect (lt_status t ∈ [TAccepted; TReached])) as [Hs|];
    cbn [negb]; [|apply effect_refl]. destruct (fl_rows (w_fleet w) !! d) as [r|]; [|apply effect_refl].
  pose proof (penalty_counts d r i (strip reason) (strip note) (now w) (w_fleet w)) as Hp. cbn [snd w_fleet save_trip set_trips].
  change (now (save_trip i _ w)) with (now w).
  destruct (apply_cancellation_penalty _ _ _ _ _ _ _) as [p f]. cbn in Hp. cbn [snd].
  assert (effect w (save_trip i (stamped_cancelled (now w) "driver" (reason_text (strip reason) (strip note)) t) w)) as He.
  { eapply cancel_save_effect; [done| |done|done]. revert Hs. rewrite !elem_of_cons. tauto. }
  destruct He as [E1 E2 E3 E4|rider key t0 E1 E2 E3 E4 E5|j t0 t' E1 E2 E3 E4 E5 E6].
  - apply ef_none; [exact E1|exact E2|exact E3|exact Hp].
  - eapply ef_booked; [exact E1|exact E2|exact E3|exact E4|exact Hp].
  - eapply ef_changed; [exact E1|exact E2|exact E3|exact E4|exact E5|]. cbn in E6 |- *. by rewrite Hp.
Qed.

Lemma rider_cancel_effect (user i : Z) (reason note : string) (g : gateway_answer) (commit : bool) (w : World) :
  effect w (rider_cancel_trip user i reason note g commit w).2.
Proof.
  unfold rider_cancel_trip. destruct (_ && _); [apply effect_refl|].
  destruct (w_trips w !! i) as [t|] eqn:Ht; [|apply effect_refl]. destruct (negb _); [apply effect_refl|].
  destruct (bool_decide _); [apply effect_refl|].
  destruct (bool_decide_reflect (lt_status t ∈ [TRequested; TAccepted; TReached; TInProgress])) as [Hs|]; cbn [negb]; [|apply effect_refl].
  destruct (process_refund_on_cancel _ _ _) as [[[r t'] w']|] eqn:Ec; [|apply effect_refl].
  apply process_refund_quiet in Ec as [Hq Hl]. cbn [snd]. apply committed_effect. by eapply cancel_save_effect.
Qed.

Lemma auto_cancel_effect (i : Z) (w : World) : effect w (auto_cancel_trip i w).2.
Proof.
  unfold auto_cancel_trip. destruct (w_trips w !! i) as [t|] eqn:Ht; [|apply effect_refl].
  destruct (bool_decide _); [apply effect_refl|]. destruct (bool_decide_reflect (lt_status t ∈ [TCompleted; TCancelled; TAccepted; TReached; TInProgress]))
    as [|Hs]; [apply effect_refl|].
  eapply cancel_save_effect; [done| |done|done].
  destruct (lt_status t); rewrite !elem_of_cons in *; tauto.
Qed.

Lemma operator_cancel_effect (i : Z) (reason note : string) (waive stale : bool) (g : gateway_answer) (w : World) :
  effect w (operator_cancel i reason note waive stale g w).2.
Proof.
  unfold operator_cancel. destruct (w_trips w !! i) as [t|] eqn:Ht; [|apply effect_refl].
  destruct (_ && _); [apply effect_refl|]. destruct (bool_decide_reflect (lt_status t ∈ CANCELLABLE_STATUSES)) as [Hs|];
    cbn [negb]; [|apply effect_refl].
  assert (lt_status t ∈ [TRequested; TAccepted; TReached; TInProgress]) as Hs'
    by (revert Hs; unfold CANCELLABLE_STATUSES; rewrite !elem_of_cons; tauto).
  set (reason' := truncated 255 _). set (t1 := if waive && _ then _ else _).
  assert (life t1 = life (stamped_cancelled (now w) "admin" reason' t)) as Hl by (unfold t1; by destruct (_ && _)).
  assert (effect w (save_trip i t1 w)) as H1 by (by eapply cancel_save_effect).
  destruct stale; [|exact H1].
  destruct (process_refund_on_cancel g t1 _) as [[[r t'] w']|] eqn:Ec; [|exact H1].
  apply process_refund_quiet in Ec as [(Q1 & Q2 & Q3 & Q4) Hl']. cbn [snd]. cbn in Q1, Q2, Q3, Q4.
  assert (effect w (save_trip i t' w)) as H2 by (eapply cancel_save_effect; [done|done|by rewrite Hl'|done]).
  eapply effect_quiet; [exact H2|]. repeat split; [|exact Q2|exact Q3|exact Q4]. cbn. rewrite Q1. apply insert_insert_eq.
Qed.

Lemma rework_clock (env : PromoEnv) (capped : Z) (l : list Redemption) (bu : option Z) (db db' : Db) :
  rework env capped bu l db = Ok db' -> clock db' = clock db.
Proof.
  revert bu db. induction l as [|r l IH]; intros bu db; cbn [rework]; [by intros [= <-]|]. intros H.
  apply res_bind_ok in H as (one & _ & H). destruct (match bu with Some b => _ | None => _ end) as [new bu'].
  apply res_bind_ok in H as (db1 & H1 & H). rewrite (IH _ _ H). cbn.
  destruct (rd_campaign r) as [ci|]; [|by injection H1 as <-]. destruct (_ =? _); [by injection H1 as <-|].
  apply adjust_ok in H1 as (c & c' & _ & _ & B). by destruct B.
Qed.

Lemma operator_promo_clock (env : PromoEnv) (t : Trip) (capped n : Z) (funded : bool) (plan : option Z) (db db' : Db) :
  apply_operator_end env t capped funded plan db = Ok (n, db') -> clock db' = clock db.
Proof.
  unfold apply_operator_end. destruct funded; [apply release_all_clock|]. intros H.
  apply res_bind_ok in H as (db1 & H1%rework_clock & H). by injection H as _ <-.
Qed.

Lemma refund_credit_clock (t : Trip) (a : dec) (k : string) (db db' : Db) (r : credit_result) :
  issue_refund_credit t a k db = Ok (r, db') -> clock db' = clock db.
Proof.
  unfold issue_refund_credit. destruct (quantize_dec _ _) as [v|]; [|by intros [= _ <-]].
  destruct (dleb _ _); [by intros [= _ <-]|]. cbn. intros H. apply res_bind_ok in H as (cur & _ & H).
  apply res_bind_ok in H as (pr & _ & H). destruct (dltb _ _); [by injection H as _ <-|].
  apply res_bind_ok in H as (m & _ & H). destruct (create_txn _ _ _ _ _ _ _ _) as [[j db1]|] eqn:E.
  - apply create_txn_ok in E as (_ & _ & ->). apply res_bind_ok in H as (b & _ & H). by injection H as _ <-.
  - destruct (List.find _ _); [by injection H as _ <-|done].
Qed.

Lemma refund_prepaid_quiet (g : gateway_answer) (p : Plan) (keep n : Z) (t t' : LiveTrip) (w w' : World) :
  refund_prepaid g p keep t w = Ok (n, t', w') -> money_only w w' /\ life t' = life t.
Proof.
  unfold refund_prepaid. destruct (_ <=? 0); [by intros [= _ <- <-]|].
  set (taken := if _ && _ then _ else None).
  destruct taken as [[t1 w1]|] eqn:Et.
  - intros [= _ <- <-]. unfold taken in Et. destruct (_ && _); [|done].
    destruct (process_refund_on_cancel g t w) as [[[[r|] t2] w2]|] eqn:Ep; try done. injection Et as <- <-.
    by apply process_refund_quiet in Ep.
  - intros H. apply res_bind_ok in H as ([[meth st] w1] & H1 & H). injection H as _ <- <-. split; [|done].
    assert (money_only w w1) as Hq; [|exact Hq]. destruct (has_online_payment _ w); [by injection H1 as _ _ <-|].
    apply res_bind_ok in H1 as (a & _ & H1). apply res_bind_ok in H1 as ([r db] & Hr%refund_credit_clock & H1).
    destruct r; by injection H1 as _ _ <-.
Qed.

Lemma standard_quiet (env : TripEnv) (g : gateway_answer) (p : Plan) (t t' : LiveTrip) (w w' : World) :
  apply_standard env g p t w = Ok (t', w') -> money_only w w' /\ life t' = life t.
Proof.
  unfold apply_standard. intros H. apply res_bind_ok in H as ([t1 w1] & [H1 L1]%create_payment_on_complete_quiet & H).
  apply res_bind_ok in H as ([[n t2] w2] & [H2 L2]%refund_prepaid_quiet & H).
  assert (money_only w w2 /\ life t2 = life t) as [Hq Hl] by (split; [by eapply quiet_trans|congruence]).
  destruct (_ && _); [|by injection H as <- <-]. apply res_bind_ok in H as (w3 & H3%settled_world_quiet & H).
  injection H as <- <-. split; [by eapply quiet_trans|done].
Qed.

Lemma credit_driver_clock (env : TripEnv) (t : Trip) (p : Plan) (db db' : Db) (x : option Z) :
  credit_driver env t p db = Ok (x, db') -> clock db' = clock db.
Proof.
  unfold credit_driver. destruct (trip_driver t); [|by intros [= _ <-]]. destruct (driver_earnings_minor p); [|by intros [= _ <-]].
  destruct (_ =? _); [by intros [= _ <-]|]. destruct (List.find _ _); [by intros [= _ <-]|]. cbn. intros H.
  apply res_bind_ok in H as ([j db1] & (_ & _ & ->)%create_txn_ok & H). by injection H as _ <-.
Qed.

Lemma funded_quiet (env : TripEnv) (g : gateway_answer) (p : Plan) (t t' : LiveTrip) (w w' : World) :
  apply_platform_funded env g p t w = Ok (t', w') -> money_only w w' /\ life t' = life t.
Proof.
  unfold apply_platform_funded. intros H. apply res_bind_ok in H as ([[n t1] w1] & [H1 L1]%refund_prepaid_quiet & H).
  apply res_bind_ok in H as ([x db] & H2%credit_driver_clock & H). injection H as <- <-.
  destruct H1 as (Q1 & Q2 & Q3 & Q4). split; [|by destruct (bool_decide _)].
  repeat split; [done|done| |done]. rewrite <- Q3. unfold now. cbn. rewrite <- H2.
  unfold book_regulatory_fee. by destruct (_ || _).
Qed.

Lemma apply_plan_effect (env : TripEnv) (g : gateway_answer) (i : Z) (t : LiveTrip) (p : Plan) (w w' : World) :
  w_trips w !! i = Some t -> lt_status t = TInProgress -> apply_plan env g i t p w = Ok w' -> effect w w'.
Proof.
  intros Ht Hs H. unfold apply_plan in H. apply res_bind_ok in H as ([n db] & Hdb%operator_promo_clock & H).
  apply res_bind_ok in H as ([t1 w1] & H1 & H). injection H as <-. set (t0 := ended (now w) p t) in *.
  set (w0 := count_trip t0 (with_db db (save_trip i t0 w))) in *.
  assert (effect w w0) as He.
  { unfold w0. eapply (ef_changed _ _ i t t0); [exact Ht|apply ch_completed; [exact Hs|reflexivity]|..].
    - unfold count_trip. by destruct (lt_driver t0).
    - unfold count_trip. by destruct (lt_driver t0).
    - unfold count_trip. by destruct (lt_driver t0); exact Hdb.
    - rewrite count_trip_counts. unfold counted_after. destruct (lt_driver t0); [|done].
      assert (is_completed t0 = true) as -> by done. unfold is_completed. by rewrite Hs. }
  assert (money_only w0 w1 /\ life t1 = life t0) as [(Q1 & Q2 & Q3 & Q4) Hl].
  { destruct (pl_rule p); [by eapply standard_quiet|by eapply funded_quiet]. }
  destruct He as [E1 E2 E3 E4|rider key t' E1 E2 E3 E4 E5|j t2 t' E1 E2 E3 E4 E5 E6].
  - exfalso. assert (w_trips w0 !! i = Some t0) as Hw0
      by (unfold w0, count_trip; destruct (lt_driver t0); cbn; apply lookup_insert_eq).
    rewrite E1, Ht in Hw0. injection Hw0 as Hw0. apply (f_equal lt_status) in Hw0. rewrite Hs in Hw0. done.
  - exfalso. assert (w_next w0 = w_next w) as Hn by (unfold w0, count_trip; by destruct (lt_driver t0)). lia.
  - eapply (ef_changed _ _ i t t1); [exact Ht|apply ch_completed; [exact Hs|exact Hl]|..].
    + cbn. rewrite Q1. unfold w0, count_trip. destruct (lt_driver t0); cbn; apply insert_insert_eq.
    + cbn. by rewrite Q2.
    + by rewrite <- E5, <- Q3.
    + cbn. rewrite Q4. unfold w0. rewrite count_trip_counts. unfold counted_after.
      replace (lt_driver t1) with (lt_driver t0) by (by apply (f_equal lf_driver) in Hl).
      replace (is_completed t1) with true by (symmetry; unfold is_completed; apply (f_equal lf_status) in Hl; cbn in Hl; by rewrite Hl).
      unfold is_completed. rewrite Hs. by destruct (lt_driver t0).
Qed.

Lemma release_effect (env : TripEnv) (i : Z) (stale : bool) (marker rc : string) (tm : Telemetry) (g : gateway_answer) (w : World) :
  effect w (release_driver env i stale marker rc tm g w).2.
Proof.
  unfold release_driver. destruct (w_trips w !! i) as [t|] eqn:Ht; [|apply effect_refl].
  destruct (bool_decide _); [apply effect_refl|]. destruct (truthy _); [apply effect_refl|].
  destruct (bool_decide _); [apply effect_refl|]. destruct (negb stale); [apply effect_refl|].
  destruct (bool_decide_reflect (lt_status t = TInProgress)) as [Hs|].
  - destruct (rule_for rc); [|apply effect_refl]. destruct (build_plan _ _ _ _ _) as [p|err]; [|destruct err; apply effect_refl].
    destruct (apply_plan _ _ _ _ _ _) as [w'|err] eqn:Ea; [|apply effect_refl]. by eapply apply_plan_effect.
  - destruct (negb _); [apply effect_refl|]. pose proof (operator_cancel_effect i CANCEL_CODE EmptyString true true g w) as H.
    by destruct (operator_cancel _ _ _ _ _ _ _).
Qed.

Lemma step_effect (env : TripEnv) (w w' : World) : trip_step env w w' -> effect w w'.
Proof.
  destruct 1.
  - apply ef_none; [done|done|done|done].
  - apply insert_effect.
  - apply receive_effect.
  - apply driver_cancel_effect.
  - apply rider_cancel_effect.
  - apply auto_cancel_effect.
  - apply operator_cancel_effect.
  - apply release_effect.
  - by apply ef_none.
  - apply ef_none; [done|done|unfold now; cbn; unfold now in H; lia|done].
  - apply (effect_save w w i t); [done|by apply ch_paid|done|done].
Qed.

(** ** The timeline of a trip *)

(** The stamps that are set do not go back in time, from [lo] to [hi]. *)
Fixpoint ordered (lo hi : Z) (l : list (option Z)) : Prop :=
  match l with
  | [] => lo <= hi
  | None :: r => ordered lo hi r
  | Some x :: r => lo <= x /\ ordered x hi r
  end.

Definition shape (n : Z) (l : Life) : Prop :=
  ordered (lf_requested l) n [lf_accepted l; lf_reached l; lf_started l; lf_completed l; lf_cancelled l] /\
  match lf_status l with
  | TRequested => lf_driver l = None /\ lf_otp l = None /\ lf_accepted l = None /\ lf_reached l = None /\
                  lf_started l = None /\ lf_completed l = None /\ lf_cancelled l = None
  | TAccepted => is_Some (lf_driver l) /\ is_Some (lf_otp l) /\ is_Some (lf_accepted l) /\ lf_reached l = None /\
                 lf_started l = None /\ lf_completed l = None /\ lf_cancelled l = None
  | TReached => is_Some (lf_driver l) /\ is_Some (lf_otp l) /\ is_Some (lf_accepted l) /\ is_Some (lf_reached l) /\
                lf_started l = None /\ lf_completed l = None /\ lf_cancelled l = None
  | TInProgress => is_Some (lf_driver l) /\ is_Some (lf_otp l) /\ is_Some (lf_accepted l) /\ is_Some (lf_started l) /\
                   lf_completed l = None /\ lf_cancelled l = None
  | TCompleted => is_Some (lf_driver l) /\ is_Some (lf_otp l) /\ is_Some (lf_accepted l) /\ is_Some (lf_started l) /\
                  is_Some (lf_completed l) /\ lf_cancelled l = None
  | TCancelled => lf_completed l = None /\ is_Some (lf_cancelled l) /\
                  (lf_driver l = None -> lf_accepted l = None /\ lf_reached l = None /\ lf_started l = None)
  end.

Lemma ordered_later (l : list (option Z)) (lo n n' : Z) : n <= n' -> ordered lo n l -> ordered lo n' l.
Proof. intros Hn. revert lo. induction l as [|[x|] l IH]; intros lo; cbn; [lia| |auto]. intros [H1 H2]. auto. Qed.

Lemma shape_later (n n' : Z) (l : Life) : n <= n' -> shape n l -> shape n' l.
Proof. intros Hn [H1 H2]. split; [by eapply ordered_later|done]. Qed.

Lemma change_shape (w : World) (i : Z) (t t' : LiveTrip) :
  change w i t t' -> shape (now w) (life t) -> shape (now w) (life t').
Proof.
  intros Hc [Ho Hs]. destruct t as [tr st ve otp ac re sta co ca cb rs fe ps key]. destruct Hc;
    try match goal with E : life _ = life _ |- _ => rewrite E end; unfold shape in *; cbn in *.
  - subst st. destruct Hs as (? & ? & ? & ? & ? & ? & ?). subst. cbn in *. split; [lia|]. repeat split; by eexists.
  - subst st. destruct Hs as (? & ? & [a Ha] & ? & ? & ? & ?). subst. cbn in *. split; [lia|]. repeat split; try done; by eexists.
  - assert (is_Some (trip_driver tr) /\ is_Some otp /\ is_Some ac /\ sta = None /\ co = None /\ ca = None) as (? & ? & [a Ha] & ? & ? & ?).
    { rewrite !elem_of_cons in H. destruct H as [->|[->|H]]; [| |by apply not_elem_of_nil in H]; naive_solver. }
    subst. destruct re as [r|]; cbn in *; (split; [lia|]); repeat split; try done; by eexists.
  - subst st. destruct Hs as (? & ? & [a Ha] & [s Hs] & ? & ?). subst.
    destruct re as [r|]; cbn in *; (split; [lia|]); repeat split; try done; by eexists.
  - assert (co = None /\ ca = None) as [? ?].
    { rewrite !elem_of_cons in H. destruct H as [->|[->|[->|[->|H]]]]; [..|by apply not_elem_of_nil in H]; naive_solver. }
    subst. split; [destruct ac, re, sta; cbn in *; lia|]. split; [done|]. split; [by eexists|]. intros Hd.
    rewrite !elem_of_cons in H. destruct H as [->|[->|[->|[->|H]]]]; [naive_solver| | |
      |by apply not_elem_of_nil in H]; destruct Hs as ([x Hx] & _); unfold lt_driver in *; cbn in *; congruence.
  - by split.
Qed.

(** ** The invariant *)

Definition msum (f : LiveTrip -> Z) (m : gmap Z LiveTrip) : Z := zsum (fun p => f p.2) (map_to_list m).

Lemma msum_new (f : LiveTrip -> Z) (m : gmap Z LiveTrip) (i : Z) (t : LiveTrip) :
  m !! i = None -> msum f (<[i := t]> m) = msum f m + f t.
Proof. intros H. unfold msum. rewrite (zsum_perm _ _ _ (map_to_list_insert m i t H)). cbn. unfold zsum. lia. Qed.

Lemma msum_old (f : LiveTrip -> Z) (m : gmap Z LiveTrip) (i : Z) (t t' : LiveTrip) :
  m !! i = Some t -> msum f (<[i := t']> m) = msum f m - f t + f t'.
Proof.
  intros H. rewrite <- (insert_id m i t H) at 2. rewrite <- (insert_delete_eq m i t), <- (insert_delete_eq m i t').
  rewrite !msum_new by apply lookup_delete_eq. lia.
Qed.

(** The trips a driver has completed. *)
Definition completed_by (d : Z) (t : LiveTrip) : Z := if is_completed t && bool_decide (lt_driver t = Some d) then 1 else 0.

Record world_ok (base : gmap Z Z) (w : World) : Prop := {
  wo_id : forall i t, w_trips w !! i = Some t -> trip_id (lt_trip t) = i /\ i < w_next w;
  wo_shape : forall i t, w_trips w !! i = Some t -> shape (now w) (life t);
  wo_one : forall d i j t u, w_trips w !! i = Some t -> w_trips w !! j = Some u ->
    active_for d t = true -> active_for d u = true -> i = j;
  wo_key : forall i j t u k, w_trips w !! i = Some t -> w_trips w !! j = Some u -> lt_rider t = lt_rider u ->
    client_request_id t = Some k -> client_request_id u = Some k -> i = j;
  wo_count : forall d n, base !! d = Some n -> counts (w_fleet w) !! d = Some (n + msum (completed_by d) (w_trips w))
}.

Lemma no_other_active (d i : Z) (w : World) :
  driver_active_trip_ids d (Some i) w = [] ->
  forall j t, w_trips w !! j = Some t -> active_for d t = true -> j = i.
Proof.
  unfold driver_active_trip_ids. intros H j t Ht Ha. destruct (decide (j = i)) as [|Hne]; [done|]. exfalso.
  apply fmap_nil_inv in H.
  assert ((j, t) ∈ List.filter (fun '(i0, t0) => active_for d t0 && negb (bool_decide (Some i0 = Some i))) (map_to_list (w_trips w))) as Hin.
  { apply elem_of_filter_b. split; [by apply elem_of_map_to_list|]. rewrite Ha. cbn. rewrite bool_decide_false; [done|]. congruence. }
  rewrite H in Hin. by apply not_elem_of_nil in Hin.
Qed.

Lemma find_booking_none (rider : Z) (k : string) (w : World) :
  find_booking rider k w = None ->
  forall j t, w_trips w !! j = Some t -> lt_rider t = rider -> client_request_id t <> Some k.
Proof.
  unfold find_booking. intros H j t Ht Hr Hk. destruct (List.find _ _) eqn:E in H; [done|].
  pose proof (List.find_none _ _ E (j, t)) as Hn. cbn in Hn.
  rewrite Hr, Z.eqb_refl, Hk, bool_decide_true in Hn by done. discriminate Hn.
  apply list_elem_of_In. by apply elem_of_map_to_list.
Qed.

Lemma change_keeps (w : World) (i : Z) (t t' : LiveTrip) :
  change w i t t' ->
  trip_id (lt_trip t') = trip_id (lt_trip t) /\ lt_rider t' = lt_rider t /\ client_request_id t' = client_request_id t /\
  (lt_driver t' = lt_driver t \/ lt_status t = TRequested /\ lt_driver t = None) /\
  (is_completed t = true -> is_completed t' = true).
Proof.
  assert (forall x y : LiveTrip, life x = life y -> trip_id (lt_trip x) = trip_id (lt_trip y) /\ lt_rider x = lt_rider y /\
    client_request_id x = client_request_id y /\ lt_driver x = lt_driver y /\ is_completed x = is_completed y) as Hl.
  { intros x y H. unfold is_completed. pose proof (f_equal lf_status H) as E. pose proof (f_equal lf_id H).
    pose proof (f_equal lf_rider H). pose proof (f_equal lf_driver H). pose proof (f_equal lf_key H). cbn in *.
    rewrite E. done. }
  destruct 1 as [d v otp H1 H2 H3|H1|H1|t' H1 H2|b r t' H1 H2|t' H2].
  - split; [done|]. split; [done|]. split; [done|]. split; [by right|]. unfold is_completed. by rewrite H1.
  - split; [done|]. split; [done|]. split; [done|]. split; [by left|]. unfold is_completed. by rewrite H1.
  - split; [done|]. split; [done|]. split; [done|]. split; [by left|]. unfold is_completed. intros E%bool_decide_eq_true.
    rewrite E in H1. revert H1. vm_compute. set_solver.
  - destruct (Hl _ _ H2) as (E1 & E2 & E3 & E4 & E5). rewrite E1, E2, E3, E4, E5. split_and!; [done|done|done|by left|done].
  - destruct (Hl _ _ H2) as (E1 & E2 & E3 & E4 & E5). rewrite E1, E2, E3, E4, E5. split_and!; [done|done|done|by left|].
    unfold is_completed. intros E%bool_decide_eq_true. rewrite E in H1. revert H1. vm_compute. set_solver.
  - destruct (Hl _ _ H2) as (E1 & E2 & E3 & E4 & E5). rewrite E1, E2, E3, E4, E5. split_and!; [done|done|done|by left|done].
Qed.

(** A trip that is active after a change was active before it, for the same driver, or has just
    been assigned to a driver with no other ride. *)
Lemma change_active (w : World) (i : Z) (t t' : LiveTrip) (d : Z) :
  change w i t t' -> active_for d t' = true ->
  active_for d t = true \/ driver_active_trip_ids d (Some i) w = [].
Proof.
  assert (forall x, active_for d x = true <-> lf_driver (life x) = Some d /\ lf_status (life x) ∈ DRIVER_ACTIVE_TRIP_STATUSES) as Ha.
  { intros x. unfold active_for. rewrite andb_true_iff, !bool_decide_eq_true. done. }
  destruct 1 as [d' v otp H1 H2 H3|H1|H1|t' H1 H2|b r t' H1 H2|t' H2]; rewrite !Ha.
  - cbn. intros [E _]. injection E as <-. by right.
  - cbn. intros [E _]. left. split; [done|]. rewrite H1. vm_compute. set_solver.
  - cbn. intros [E _]. left. split; [done|]. revert H1. unfold DRIVER_ACTIVE_TRIP_STATUSES. rewrite !elem_of_cons. tauto.
  - rewrite H2. cbn. intros [_ E]. exfalso. revert E. vm_compute. set_solver.
  - rewrite H2. cbn. intros [_ E]. exfalso. revert E. vm_compute. set_solver.
  - rewrite H2. cbn. by left.
Qed.

Lemma counted_msum (d n : Z) (t t' : LiveTrip) (w : World) (i : Z) (m : gmap Z Z) :
  w_trips w !! i = Some t -> change w i t t' -> (is_completed t = true -> lt_driver t' = lt_driver t) ->
  m !! d = Some (n + msum (completed_by d) (w_trips w)) ->
  counted_after t t' m !! d = Some (n + msum (completed_by d) (<[i := t']> (w_trips w))).
Proof.
  intros Ht Hc Hd Hm. rewrite (msum_old _ _ _ t t' Ht). destruct (change_keeps _ _ _ _ Hc) as (_ & _ & _ & _ & Hk).
  set (s := msum (completed_by d) (w_trips w)) in *. clearbody s.
  unfold counted_after, completed_by. destruct (is_completed t) eqn:E1.
  - rewrite (Hk eq_refl), (Hd eq_refl). cbn [andb negb]. destruct (lt_driver t); rewrite Hm; f_equal; lia.
  - destruct (is_completed t') eqn:E2; cbn [andb negb].
    + destruct (lt_driver t') as [d'|].
      * destruct (decide (d' = d)) as [->|Hne].
        -- rewrite bool_decide_true by done. rewrite lookup_alter_eq, Hm. cbn. f_equal. lia.
        -- rewrite bool_decide_false by congruence. rewrite lookup_alter_ne by done. rewrite Hm. f_equal. lia.
      * rewrite bool_decide_false by done. rewrite Hm. f_equal. lia.
    + destruct (lt_driver t'); rewrite Hm; f_equal; lia.
Qed.

Lemma effect_ok (base : gmap Z Z) (w w' : World) : effect w w' -> world_ok base w -> world_ok base w'.
Proof.
  intros He [H1 H2 H3 H4 H5].
  destruct He as [E1 E2 E3 E4|rider key t [Hl Hf] E1 E2 E3 E4|i t t' Ht Hc E1 E2 E3 E4].
  - split.
    + intros i t. rewrite E1, E2. apply H1.
    + intros i t. rewrite E1. intros Ht. by apply (shape_later (now w)), (H2 i).
    + intros d i j t u. rewrite E1. apply H3.
    + intros i j t u k. rewrite E1. apply H4.
    + intros d n Hn. rewrite E1, E4. by apply H5.
  - assert (w_trips w !! w_next w = None) as Hnone.
    { destruct (w_trips w !! w_next w) as [x|] eqn:Ex; [|done]. destruct (H1 _ _ Ex). lia. }
    assert (is_completed t = false /\ (forall d, active_for d t = false) /\ lt_rider t = rider /\ client_request_id t = key /\
      trip_id (lt_trip t) = w_next w /\ (forall d, completed_by d t = 0)) as (F1 & F2 & F3 & F4 & F5 & F6).
    { pose proof (f_equal lf_status Hl) as L1. pose proof (f_equal lf_driver Hl) as L2. pose proof (f_equal lf_rider Hl) as L3.
      pose proof (f_equal lf_key Hl) as L4. pose proof (f_equal lf_id Hl) as L5. cbn in *.
      unfold is_completed, active_for, completed_by, is_completed. rewrite L1, L2. done. }
    split.
    + intros j u. rewrite E1, E2. intros [[<- <-]|[_ Hu]]%lookup_insert_Some; [split; [done|lia]|]. destruct (H1 _ _ Hu). split; [done|lia].
    + intros j u. rewrite E1, E3. intros [[<- <-]|[_ Hu]]%lookup_insert_Some; [|by apply (H2 j)].
      rewrite Hl. unfold shape. cbn. split; [lia|done].
    + intros d j k u v. rewrite E1. intros [[<- <-]|[_ Hu]]%lookup_insert_Some [[<- <-]|[_ Hv]]%lookup_insert_Some Hau Hav;
        rewrite ?F2 in *; try done. by apply (H3 d j k u v).
    + intros j k u v q. rewrite E1. intros [[<- <-]|[_ Hu]]%lookup_insert_Some [[<- <-]|[_ Hv]]%lookup_insert_Some Hr Hku Hkv.
      * done.
      * exfalso. rewrite F4 in Hku. apply (find_booking_none rider q w (Hf q Hku) k v); congruence.
      * exfalso. rewrite F4 in Hkv. apply (find_booking_none rider q w (Hf q Hkv) j u); congruence.
      * by apply (H4 j k u v q).
    + intros d n Hn. rewrite E1, E4, msum_new, F6 by done. rewrite (H5 d n Hn). f_equal. lia.
  - destruct (change_keeps _ _ _ _ Hc) as (K1 & K2 & K3 & K4 & K5). split.
    + intros j u. rewrite E1, E2. intros [[<- <-]|[_ Hu]]%lookup_insert_Some; [rewrite K1; by apply H1|by apply H1].
    + intros j u. rewrite E1, E3. intros [[<- <-]|[_ Hu]]%lookup_insert_Some; [|by apply (H2 j)].
      eapply change_shape; [exact Hc|by apply (H2 i)].
    + assert (forall d j u, w_trips w !! j = Some u -> active_for d u = true -> active_for d t' = true -> j <> i -> False) as Hx.
      { intros d j u Hu Hau Ha Hne. destruct (change_active w i t t' d Hc Ha) as [Hat|Hn].
        - apply Hne. by apply (H3 d j i u t).
        - apply Hne. by apply (no_other_active d i w Hn j u). }
      intros d j k u v. rewrite E1. intros [[<- <-]|[Hj Hu]]%lookup_insert_Some [[<- <-]|[Hk Hv]]%lookup_insert_Some Hau Hav.
      * done.
      * exfalso. by apply (Hx d k v).
      * exfalso. by apply (Hx d j u).
      * by apply (H3 d j k u v).
    + intros j k u v q. rewrite E1.
      intros [[<- <-]|[_ Hu]]%lookup_insert_Some [[<- <-]|[_ Hv]]%lookup_insert_Some Hr Hku Hkv; rewrite ?K2, ?K3 in *;
        [done|by apply (H4 i k t v q)|by apply (H4 j i u t q)|by apply (H4 j k u v q)].
    + intros d n Hn. rewrite E1, E4. apply counted_msum; [done|done| |by apply H5].
      intros Hcmp. destruct K4 as [K4|[K4 _]]; [done|]. unfold is_completed in Hcmp. by rewrite K4 in Hcmp.
Qed.

(** A platform before its first trip: its drivers' counters are the base the count starts from. *)
Definition before_trips (db : Db) (rows : gmap Z DriverRow) : World :=
  {| w_db := db; w_fleet := fresh rows; w_trips := ∅; w_next := 1; w_payments := []; w_actions := []; w_paid := [];
     w_refunds := []; w_attempts := ∅; w_orders := [] |}.

Lemma before_trips_ok (db : Db) (rows : gmap Z DriverRow) : world_ok (dr_trips <$> rows) (before_trips db rows).
Proof.
  split; cbn; try (intros *; by rewrite lookup_empty).
  intros d n Hn. unfold counts. cbn. rewrite Hn. f_equal. unfold msum. rewrite map_to_list_empty. cbn. lia.
Qed.

Lemma world_reachable (env : TripEnv) (db : Db) (rows : gmap Z DriverRow) (w : World) :
  rtc (trip_step env) (before_trips db rows) w -> world_ok (dr_trips <$> rows) w.
Proof.
  intros Hr. eapply (rtc_invariant (trip_step env) (world_ok (dr_trips <$> rows))); [|exact Hr|apply before_trips_ok].
  intros x y Hxy. apply effect_ok. by eapply step_effect.
Qed.

(** ** The rides of a platform *)

(** A ride to the end: rider 5 books, driver 9 takes them. *)
Definition demo_trip_env : TripEnv := {|
  te_settle := demo_settle_env; te_promo := demo_env 10; te_qa := false; te_held := fun _ _ => 0;
  te_provider := fun _ => "cashfree" |}.

Definition demo_w0 : World := before_trips (empty_db 10) {[ 9 := demo_driver_row ]}.

Definition demo_booked : World := (insert_trip demo_trip_env 5 (Some "k1") cash_trip None (Dec 13568 (-2)) TaxFromZone demo_w0).2.

Definition demo_driver : SocketUser := {| us_id := 109; us_driver := Some 9 |}.

Definition demo_does (c : command) (w : World) : World :=
  (receive demo_trip_env demo_driver PCandidateDriver 1 c NotIssued true w).2.

Definition demo_accepted : World := demo_does (Accept "4321") demo_booked.
Definition demo_started : World := demo_does (Start (Some "4321")) (demo_does Reached demo_accepted).
Definition demo_completed : World := demo_does Complete demo_started.

Lemma demo_accepted_reached : rtc (trip_step demo_trip_env) demo_w0 demo_accepted.
Proof. eapply rtc_l; [apply ts_book|]. eapply rtc_l; [apply ts_command|]. apply rtc_refl. Qed.

Lemma demo_started_reached : rtc (trip_step demo_trip_env) demo_w0 demo_started.
Proof. eapply rtc_r; [eapply rtc_r; [apply demo_accepted_reached|apply ts_command]|apply ts_command]. Qed.

Lemma demo_completed_reached : rtc (trip_step demo_trip_env) demo_w0 demo_completed.
Proof. eapply rtc_r; [apply demo_started_reached|apply ts_command]. Qed.

(** C3. One ride at a time: under every interleaving of bookings, commands, cancellations,
    timeouts and operators, with the drivers going on and off the road, no driver is on two
    active trips, no rider has two trips for one request key, and a trip keeps its number. *)
Theorem one_ride_per_driver (env : TripEnv) (db : Db) (rows : gmap Z DriverRow) (w : World) :
  rtc (trip_step env) (before_trips db rows) w ->
  (forall d i j t u, w_trips w !! i = Some t -> w_trips w !! j = Some u ->
     active_for d t = true -> active_for d u = true -> i = j) /\
  (forall i j t u k, w_trips w !! i = Some t -> w_trips w !! j = Some u -> lt_rider t = lt_rider u ->
     client_request_id t = Some k -> client_request_id u = Some k -> i = j) /\
  (forall i t, w_trips w !! i = Some t -> trip_id (lt_trip t) = i /\ i < w_next w).
Proof. intros [H1 H2 H3 H4 H5]%world_reachable. done. Qed.

Lemma one_ride_per_driver_witness :
  (lt_driver <$> w_trips demo_started !! 1) = Some (Some 9) /\
  forall j u, w_trips demo_started !! j = Some u -> active_for 9 u = true -> j = 1.
Proof.
  split; [vm_compute; reflexivity|].
  destruct (one_ride_per_driver demo_trip_env (empty_db 10) {[ 9 := demo_driver_row ]} demo_started demo_started_reached) as [H _].
  intros j u Hu Ha. destruct (w_trips demo_started !! 1) as [t|] eqn:Et; [|vm_compute in Et; discriminate Et].
  refine (H 9 j 1 u t Hu Et Ha _). vm_compute in Et. injection Et as <-. vm_compute. reflexivity.
Defined.

(** The timeline of a ride: the stamps that are set never go back in time nor past the
    clock, and they are the ones of its status; an accepted ride has a driver and a code, a
    completed one has started, a cancelled one was not completed. *)
Theorem timeline_of_a_ride (env : TripEnv) (db : Db) (rows : gmap Z DriverRow) (w : World) (i : Z) (t : LiveTrip) :
  rtc (trip_step env) (before_trips db rows) w -> w_trips w !! i = Some t ->
  ordered (trip_requested_at (lt_trip t)) (now w)
    [accepted_at t; reached_at t; trip_started_at t; completed_at t; cancelled_at t] /\
  (lt_status t <> TRequested -> lt_status t <> TCancelled -> is_Some (lt_driver t) /\ is_Some (lt_otp t)) /\
  (lt_status t = TCompleted <-> is_Some (completed_at t)) /\
  (lt_status t = TCancelled <-> is_Some (cancelled_at t)).
Proof.
  intros Hr Ht. destruct (wo_shape _ _ (world_reachable _ _ _ _ Hr) i t Ht) as [Ho Hs]. split; [exact Ho|].
  destruct t as [tr st ve otp ac re sta co ca cb rs fe ps key]. cbn in *.
  destruct st; cbn in Hs; destruct_and!; subst; repeat split; try done; try (intros; by apply is_Some_None in H || done);
    intros ?; try done; destruct_and!; try done; try (by destruct H as [? ?]).
Qed.

Lemma timeline_of_a_ride_witness :
  exists t, w_trips demo_completed !! 1 = Some t /\ lt_status t = TCompleted /\ is_Some (completed_at t).
Proof.
  destruct (w_trips demo_completed !! 1) as [t|] eqn:Et; [|vm_compute in Et; discriminate Et].
  exists t. split; [reflexivity|].
  destruct (timeline_of_a_ride demo_trip_env (empty_db 10) {[ 9 := demo_driver_row ]} demo_completed 1 t demo_completed_reached Et)
    as (_ & _ & H & _).
  assert (lt_status t = TCompleted) as Hs by (vm_compute in Et; injection Et as <-; reflexivity).
  split; [exact Hs|]. apply H. exact Hs.
Defined.

(** A driver's counter is the number of rides they completed, on top of what it was: every
    completion is counted once, whichever of the two completions of the code made it, and a
    transaction that fails counts nothing. *)
Theorem rides_are_counted (env : TripEnv) (db : Db) (rows : gmap Z DriverRow) (w : World) (d : Z) (r : DriverRow) :
  rtc (trip_step env) (before_trips db rows) w -> rows !! d = Some r ->
  exists r', fl_rows (w_fleet w) !! d = Some r' /\
    dr_trips r' = dr_trips r + msum (completed_by d) (w_trips w).
Proof.
  intros Hr Hd. pose proof (wo_count _ _ (world_reachable _ _ _ _ Hr) d (dr_trips r)) as H.
  rewrite lookup_fmap, Hd in H. specialize (H eq_refl). unfold counts in H. rewrite lookup_fmap in H.
  destruct (fl_rows (w_fleet w) !! d) as [r'|] eqn:E; cbn in H; [|done]. injection H as H. by exists r'.
Qed.

Lemma rides_are_counted_witness :
  msum (completed_by 9) (w_trips demo_completed) = 1 /\
  exists r', fl_rows (w_fleet demo_completed) !! 9 = Some r' /\ dr_trips r' = dr_trips demo_driver_row + 1.
Proof.
  assert (msum (completed_by 9) (w_trips demo_completed) = 1) as Hm by (vm_compute; reflexivity).
  split; [exact Hm|]. rewrite <- Hm.
  apply (rides_are_counted demo_trip_env (empty_db 10) {[ 9 := demo_driver_row ]} demo_completed 9 demo_driver_row demo_completed_reached).
  reflexivity.
Defined.

(** ** The life of a ride, as an abstract machine *)

Record Ride := { rs_status : trip_status; rs_driver : option Z }.

#[global] Instance ride_eq_dec : EqDecision Ride.
Proof. solve_decision. Defined.

Definition ride_of (t : LiveTrip) : Ride := {| rs_status := lt_status t; rs_driver := lt_driver t |}.

Inductive ride_step : Ride -> Ride -> Prop :=
| rs_accept d : ride_step {| rs_status := TRequested; rs_driver := None |} {| rs_status := TAccepted; rs_driver := Some d |}
| rs_reach x : ride_step {| rs_status := TAccepted; rs_driver := x |} {| rs_status := TReached; rs_driver := x |}
| rs_start s x : s ∈ [TAccepted; TReached] ->
    ride_step {| rs_status := s; rs_driver := x |} {| rs_status := TInProgress; rs_driver := x |}
| rs_complete x : ride_step {| rs_status := TInProgress; rs_driver := x |} {| rs_status := TCompleted; rs_driver := x |}
| rs_cancel s x : s ∈ [TRequested; TAccepted; TReached; TInProgress] ->
    ride_step {| rs_status := s; rs_driver := x |} {| rs_status := TCancelled; rs_driver := x |}.

(** The moves a ride has left. *)
Definition moves_left (s : trip_status) : Z :=
  match s with TRequested => 4 | TAccepted => 3 | TReached => 2 | TInProgress => 1 | TCompleted | TCancelled => 0 end.

Lemma ride_step_rank (x y : Ride) : ride_step x y -> 0 <= moves_left (rs_status y) < moves_left (rs_status x).
Proof.
  destruct 1 as [d|v|s v H|v|s v H]; cbn; try lia; rewrite !elem_of_cons in H;
    [destruct H as [->|[->|H]]|destruct H as [->|[->|[->|[->|H]]]]]; cbn; try lia; by apply not_elem_of_nil in H.
Qed.

Lemma ride_step_final (x y : Ride) : moves_left (rs_status x) = 0 -> ~ ride_step x y.
Proof. intros H Hs%ride_step_rank. lia. Qed.

Lemma life_ride (t t' : LiveTrip) : life t = life t' -> ride_of t = ride_of t'.
Proof. intros H. unfold ride_of. pose proof (f_equal lf_status H) as E. pose proof (f_equal lf_driver H) as E'. cbn in *. by rewrite E, E'. Qed.

Lemma change_ride (w : World) (i : Z) (t t' : LiveTrip) :
  change w i t t' -> ride_of t' = ride_of t \/ ride_step (ride_of t) (ride_of t').
Proof.
  destruct 1 as [d v otp H1 H2 H3|H1|H1|t' H1 H2|b r t' H1 H2|t' H2].
  - right. unfold ride_of. rewrite H1, H2. apply rs_accept.
  - right. unfold ride_of. rewrite H1. apply (rs_reach (lt_driver t)).
  - right. by apply (rs_start _ (lt_driver t)).
  - right. rewrite (life_ride _ _ H2). unfold ride_of at 1. rewrite H1. apply (rs_complete (lt_driver t)).
  - right. rewrite (life_ride _ _ H2). by apply (rs_cancel _ (lt_driver t)).
  - left. by apply life_ride.
Qed.

Lemma change_requested (w : World) (i : Z) (t t' : LiveTrip) :
  change w i t t' -> trip_requested_at (lt_trip t') = trip_requested_at (lt_trip t).
Proof.
  destruct 1 as [d v otp H1 H2 H3|H1|H1|t' H1 H2|b r t' H1 H2|t' H2]; try done; by apply (f_equal lf_requested) in H2.
Qed.

(** What one step may do to one ride. *)
Definition ride_moves (t t' : LiveTrip) : Prop :=
  lt_rider t' = lt_rider t /\ client_request_id t' = client_request_id t /\
  trip_requested_at (lt_trip t') = trip_requested_at (lt_trip t) /\
  (ride_of t' = ride_of t \/ ride_step (ride_of t) (ride_of t')).

Lemma ride_moves_refl (t : LiveTrip) : ride_moves t t.
Proof. repeat split; by left. Qed.

Lemma effect_rides (base : gmap Z Z) (w w' : World) :
  world_ok base w -> effect w w' ->
  (forall i t, w_trips w !! i = Some t -> exists t', w_trips w' !! i = Some t' /\ ride_moves t t') /\
  (forall i t', w_trips w !! i = None -> w_trips w' !! i = Some t' ->
     i = w_next w /\ ride_of t' = {| rs_status := TRequested; rs_driver := None |}).
Proof.
  intros Hok [E1 E2 E3 E4|rider key t [Hl Hf] E1 E2 E3 E4|j t t' Ht Hc E1 E2 E3 E4]; rewrite E1.
  - split; [|intros i t' ->; done]. intros i t Ht. exists t. split; [done|apply ride_moves_refl].
  - split.
    + intros i u Hu. exists u. split; [|apply ride_moves_refl]. rewrite lookup_insert_ne; [done|].
      intros <-. destruct (wo_id _ _ Hok _ _ Hu). lia.
    + intros i t' Hn [[<- <-]|[_ Hu]]%lookup_insert_Some; [|congruence]. split; [done|].
      unfold ride_of. pose proof (f_equal lf_status Hl) as A. pose proof (f_equal lf_driver Hl) as B. cbn in *. by rewrite A, B.
  - split.
    + intros i u Hu. destruct (decide (i = j)) as [->|Hne].
      * exists t'. rewrite lookup_insert_eq. split; [done|]. rewrite Ht in Hu. injection Hu as <-.
        destruct (change_keeps _ _ _ _ Hc) as (_ & K1 & K2 & _). split; [done|]. split; [done|].
        split; [by eapply change_requested|by eapply change_ride].
      * exists u. rewrite lookup_insert_ne by done. split; [done|apply ride_moves_refl].
    + intros i u Hn [[<- _]|[_ Hu]]%lookup_insert_Some; congruence.
Qed.

(** C4. Rides refine their life cycle: whatever the operation, and whatever it does to money,
    what happens to one ride is nothing, or one step of the machine [ride_step]: a driver is
    given to an unassigned request and never changed, the status only moves forward, and a
    finished ride never moves; its rider, its request key and its request time stay.  New
    rides are unassigned requests under the next number. *)
Theorem rides_refine_machine (env : TripEnv) (db : Db) (rows : gmap Z DriverRow) (w w' : World) :
  rtc (trip_step env) (before_trips db rows) w -> trip_step env w w' ->
  (forall i t, w_trips w !! i = Some t -> exists t', w_trips w' !! i = Some t' /\ ride_moves t t') /\
  (forall i t', w_trips w !! i = None -> w_trips w' !! i = Some t' ->
     i = w_next w /\ ride_of t' = {| rs_status := TRequested; rs_driver := None |}).
Proof. intros Hr Hs. eapply effect_rides; [by eapply world_reachable|by eapply step_effect]. Qed.

Lemma rides_refine_machine_witness :
  exists t t', w_trips demo_started !! 1 = Some t /\ w_trips demo_completed !! 1 = Some t' /\ ride_moves t t' /\
    rs_status (ride_of t') = TCompleted.
Proof.
  destruct (rides_refine_machine demo_trip_env (empty_db 10) {[ 9 := demo_driver_row ]} demo_started demo_completed
              demo_started_reached (ts_command _ _ _ _ _ _ _ _)) as [H _].
  destruct (w_trips demo_started !! 1) as [t|] eqn:Et; [|vm_compute in Et; discriminate Et].
  destruct (H 1 t Et) as (t' & Ht' & Hm). exists t, t'. split; [reflexivity|]. split; [exact Ht'|]. split; [exact Hm|].
  vm_compute in Ht'. injection Ht' as <-. reflexivity.
Defined.

(** ** Rides end *)

Fixpoint execution (env : TripEnv) (w : World) (l : list World) : Prop :=
  match l with [] => True | w' :: r => trip_step env w w' /\ execution env w' r end.

Definition ride_at (i : Z) (w : World) : option Ride := ride_of <$> w_trips w !! i.

(** The steps of an execution at which a ride moves. *)
Fixpoint ride_changes (i : Z) (w : World) (l : list World) : Z :=
  match l with
  | [] => 0
  | w' :: r => (if bool_decide (ride_at i w' = ride_at i w) then 0 else 1) + ride_changes i w' r
  end.

Lemma changes_bounded (env : TripEnv) (base : gmap Z Z) (i : Z) (l : list World) (w : World) (t : LiveTrip) :
  world_ok base w -> execution env w l -> w_trips w !! i = Some t -> ride_changes i w l <= moves_left (lt_status t).
Proof.
  revert w t. induction l as [|w' l IH]; intros w t Hok; cbn [execution ride_changes].
  - intros _ _. destruct (lt_status t); cbn; lia.
  - intros [Hs%step_effect Hr] Ht. destruct (proj1 (effect_rides _ _ _ Hok Hs) i t Ht) as (t' & Ht' & _ & _ & _ & Hm).
    specialize (IH w' t' (effect_ok _ _ _ Hs Hok) Hr Ht'). unfold ride_at. rewrite Ht, Ht'. cbn.
    destruct Hm as [Hm|Hm%ride_step_rank]; [|cbn in Hm; case_bool_decide; lia].
    rewrite Hm, bool_decide_true by done. apply (f_equal rs_status) in Hm. cbn in Hm. rewrite <- Hm. lia.
Qed.

(** What the cancel of a rider answers for a ride that is not finished. *)
Definition reason_accepted (reason : string) : Prop :=
  strip reason = EmptyString \/ strip reason ∈ valid_rider_reasons.

Lemma refund_answers (gateway : gateway_answer) (t : LiveTrip) (w : World) :
  (exists r t' w', process_refund_on_cancel gateway t w = Some (r, t', w') /\ lt_status t' = lt_status t) \/
  gateway = GatewayRaised /\ process_refund_on_cancel gateway t w = None.
Proof.
  unfold process_refund_on_cancel. destruct (paid_online _ w) as [p|]; [|left; by eexists _, _, _].
  destruct (pm_gateway_payment p); [|left; by eexists _, _, _]. destruct (negb _); [left; by eexists _, _, _|].
  destruct (_ <=? _); [left; by eexists _, _, _|].
  destruct gateway; [left; by eexists _, _, _..|by right].
Qed.

Lemma rider_can_cancel (i : Z) (reason note : string) (gateway : gateway_answer) (w : World) (t : LiveTrip) :
  w_trips w !! i = Some t -> 0 < moves_left (lt_status t) -> reason_accepted reason ->
  (exists refund w', rider_cancel_trip (lt_rider t) i reason note gateway true w = (Cancelled refund None, w') /\
    (lt_status <$> w_trips w' !! i) = Some TCancelled) \/
  gateway = GatewayRaised /\ rider_cancel_trip (lt_rider t) i reason note gateway true w = (CancelError, w).
Proof.
  intros Ht Hr Hreason. unfold rider_cancel_trip.
  assert (truthy (Some (strip reason)) && negb (bool_decide (strip reason ∈ valid_rider_reasons)) = false) as ->.
  { destruct Hreason as [-> | Hv]; [done|]. rewrite (bool_decide_true _ Hv). apply andb_false_r. }
  rewrite Ht, Z.eqb_refl. cbn [negb].
  rewrite bool_decide_false by (destruct (lt_status t); cbn in Hr; try lia; vm_compute; set_solver).
  rewrite bool_decide_true by (destruct (lt_status t); cbn in Hr; try lia; vm_compute; set_solver). cbn [negb].
  set (t1 := stamped_cancelled _ _ _ _).
  destruct (refund_answers gateway t1 w) as [(r & t' & w' & E & Hst) | [-> E]]; rewrite E; [left|by right].
  eexists _, _. split; [reflexivity|]. cbn. by rewrite lookup_insert_eq; cbn; rewrite Hst.
Qed.

Lemma stranger_cannot_cancel (user i : Z) (reason note : string) (gateway : gateway_answer) (w : World) (t : LiveTrip) :
  w_trips w !! i = Some t -> user <> lt_rider t -> reason_accepted reason ->
  rider_cancel_trip user i reason note gateway true w = (FORBIDDEN, w).
Proof.
  intros Ht Hu Hreason. unfold rider_cancel_trip.
  assert (truthy (Some (strip reason)) && negb (bool_decide (strip reason ∈ valid_rider_reasons)) = false) as ->.
  { destruct Hreason as [-> | Hv]; [done|]. rewrite (bool_decide_true _ Hv). apply andb_false_r. }
  by rewrite Ht, (proj2 (Z.eqb_neq (lt_rider t) user)) by congruence.
Qed.

(** C16. Every ride ends: along any execution, however long and whoever acts, a ride moves at most
    four times, a finished one never; and the rider of a ride that is not finished can end
    it at any time with their own cancel, with any of the reasons of the app or none and any
    note, whatever became of its driver and whether or not the gateway issues a refund; only
    an exception of the gateway, for a ride already paid online, refuses the cancel and
    changes nothing.  Nobody else's account can use that cancel. *)
Theorem rides_end (env : TripEnv) (db : Db) (rows : gmap Z DriverRow) (w : World) (l : list World) (i : Z) (t : LiveTrip) :
  rtc (trip_step env) (before_trips db rows) w -> execution env w l -> w_trips w !! i = Some t ->
  ride_changes i w l <= moves_left (lt_status t) <= 4 /\
  (lt_status t ∈ [TCompleted; TCancelled] -> ride_changes i w l <= 0) /\
  (lt_status t ∉ [TCompleted; TCancelled] -> forall reason note gateway, reason_accepted reason ->
   ((exists refund w', rider_cancel_trip (lt_rider t) i reason note gateway true w = (Cancelled refund None, w') /\
       trip_step env w w' /\ (lt_status <$> w_trips w' !! i) = Some TCancelled) \/
    gateway = GatewayRaised /\ rider_cancel_trip (lt_rider t) i reason note gateway true w = (CancelError, w)) /\
   forall user, user <> lt_rider t -> rider_cancel_trip user i reason note gateway true w = (FORBIDDEN, w)).
Proof.
  intros Hr Hl Ht. pose proof (changes_bounded env _ i l w t (world_reachable _ _ _ _ Hr) Hl Ht) as Hm. split; [|split].
  - split; [done|]. destruct (lt_status t); cbn; lia.
  - rewrite !elem_of_cons. intros [E|[E|H]]; [rewrite E in Hm; done|rewrite E in Hm; done|by apply not_elem_of_nil in H].
  - intros Hs reason note gateway Hreason.
    assert (0 < moves_left (lt_status t)) as Hk by (destruct (lt_status t); cbn; try lia; exfalso; apply Hs; vm_compute; set_solver).
    split; [|intros user Hu; by eapply stranger_cannot_cancel].
    destruct (rider_can_cancel i reason note gateway w t Ht Hk Hreason) as [(refund & w' & E & H)|H]; [left|by right].
    exists refund, w'. split_and!; [exact E| |exact H].
    apply (f_equal snd) in E. cbn [snd] in E. rewrite <- E. apply ts_rider_cancel.
Qed.

Lemma rides_end_witness :
  ride_changes 1 demo_started [demo_completed] = 1 /\
  exists t, w_trips demo_started !! 1 = Some t /\ ride_changes 1 demo_started [demo_completed] <= moves_left (lt_status t) <= 4 /\
    rider_cancel_trip (lt_rider t + 1) 1 "too_long" "late" NotIssued true demo_started = (FORBIDDEN, demo_started).
Proof.
  split; [vm_compute; reflexivity|].
  destruct (w_trips demo_started !! 1) as [t|] eqn:Et; [|vm_compute in Et; discriminate Et].
  exists t. split; [reflexivity|].
  destruct (rides_end demo_trip_env (empty_db 10) {[ 9 := demo_driver_row ]} demo_started [demo_completed] 1 t
           demo_started_reached (conj (ts_command _ _ _ _ _ _ _ _) I) Et) as (Hm & _ & Hc).
  split; [exact Hm|]. apply Hc.
  - vm_compute in Et. injection Et as <-. apply (bool_decide_unpack _). vm_compute. exact I.
  - right. apply (bool_decide_unpack _). vm_compute. exact I.
  - lia.
Defined.
