(* ===== verification/RideCommands.v ===== *)
(** * RideCommands: what the trip socket promises

    The start code of a ride and how often it may be guessed, the answer to a command that is
    sent again, and what cancelling on the socket leaves out. *)

From S2P Require Import Prelude PyDecimal PyText Countries Models Money Commission Zones PromoTax Alerts Store.
From S2P Require Import Promos Settlement Drivers DriverSafety Trips OperatorEnd TripSafety.
#[local] Open Scope string_scope.
#[local] Open Scope list_scope.
#[local] Open Scope Z_scope.

(** ** The start of a ride *)

Lemma status_never_starts (x : cmd_result) : succeeded x = true -> mentions_otp x = false.
Proof. by destruct x. Qed.

(** The three outcomes of the start transition. *)
Lemma start_update (env : TripEnv) (i : Z) (otp : option string) (g : gateway_answer) (commit : bool) (w w' : World) (r : cmd_result) :
  update_trip_status env i TInProgress otp EmptyString EmptyString g commit w = (r, w') ->
  w_attempts w' = w_attempts w /\ now w' = now w /\
  ((succeeded r = false /\ w' = set_refunds (w_refunds w') w /\
    (mentions_otp r = true -> exists t, w_trips w !! i = Some t /\ lt_status t ∈ [TAccepted; TReached] /\ py_str (lt_otp t) <> py_str otp)) \/
   (mentions_otp r = false /\ exists t, w_trips w !! i = Some t /\ lt_status t ∈ [TAccepted; TReached] /\ py_str (lt_otp t) = py_str otp /\
    w' = save_trip i (stamped_started (now w) t) w)).
Proof.
  assert (forall x : World, x = set_refunds (w_refunds x) x) as Hid by (by intros []).
  unfold update_trip_status. destruct (w_trips w !! i) as [t|] eqn:Ht; [|intros [= <- <-]; split_and!; [done..|left; by rewrite <- Hid]].
  destruct (transition_error TInProgress (lt_status t)) as [e|] eqn:Et.
  { intros [= <- <-]. split_and!; [done..|]. left. rewrite <- Hid. unfold transition_error in Et. cbn in Et.
    destruct (bool_decide _); [done|]. injection Et as <-. split; [reflexivity|]. split; [reflexivity|]. cbn. discriminate. }
  pose proof (transition_error_none _ _ _ Et eq_refl) as Hs.
  rewrite (bool_decide_false (TInProgress = TCancelled)), (bool_decide_true (TInProgress = TInProgress)) by done. cbn [andb].
  destruct (bool_decide_reflect (py_str (lt_otp t) = py_str otp)) as [Ho|Ho]; cbn [negb].
  - destruct commit; intros [= <- <-]; (split_and!; [done..|]).
    + right. split; [done|]. by exists t.
    + left. by split_and!.
  - intros [= <- <-]. split_and!; [done..|]. left. rewrite <- Hid. split_and!; [done..|]. intros _. by exists t.
Qed.

Lemma accept_only_accepts (env : TripEnv) (driver : option Z) (i : Z) (otp : string) (w : World) (t t' : LiveTrip) :
  w_trips w !! i = Some t -> w_trips (accept_trip env driver i otp w).2 !! i = Some t' -> t' = t \/ lt_status t' = TAccepted.
Proof.
  intros Ht. assert (w_trips w !! i = Some t' -> t' = t) as Hn by congruence. unfold accept_trip. rewrite Ht.
  destruct (bool_decide _); [by left; apply Hn|]. destruct (negb _); [by left; apply Hn|].
  destruct (d ← driver; _) as [[d r]|]; [|by left; apply Hn].
  destruct (negb _); [by left; apply Hn|]. destruct (is_blocked r); [by left; apply Hn|].
  destruct (bool_decide _); [by left; apply Hn|]. destruct (get_fatigue_status _ _ _ _) as [st f].
  destruct (locked st); [by left; apply Hn|]. destruct (negb _); [by left; apply Hn|].
  cbn. rewrite lookup_insert_eq. intros [= <-]. by right.
Qed.

Lemma confirm_keeps (env : TripEnv) (i : Z) (w : World) (t : LiveTrip) :
  w_trips w !! i = Some t -> exists t', w_trips (confirm_cash_payment env i w).2 !! i = Some t' /\
    lt_status t' = lt_status t /\ lt_driver t' = lt_driver t /\ lt_rider t' = lt_rider t.
Proof.
  intros Ht. unfold confirm_cash_payment. rewrite Ht.
  destruct (negb _); [by exists t|]. destruct (_ && _); [by exists t|]. destruct (last_cash _ w) as [p|]; [|by exists t].
  destruct (bool_decide _); [by exists t|]. destruct (bool_decide _); [by exists t|]. destruct (existsb _ _); [by exists t|].
  destruct (settled_world _ _ _) as [w1|] eqn:E; [|by exists t]. apply settled_world_quiet in E as [E _]. cbn [snd].
  rewrite E. cbn. rewrite lookup_insert_eq. by eexists.
Qed.

(** A ride starts with its code: of all commands on a trip's socket only the start of its
    assigned driver puts a ride under way, with the very code the rider was shown when it was
    accepted, from an accepted or reached trip, and with fewer than five wrong codes counted. *)
Theorem ride_starts_with_its_code (env : TripEnv) (db : Db) (rows : gmap Z DriverRow) (w : World) (u : SocketUser)
    (part : participation) (i : Z) (c : command) (g : gateway_answer) (commit : bool) (t t' : LiveTrip) :
  rtc (trip_step env) (before_trips db rows) w ->
  w_trips w !! i = Some t -> lt_status t <> TInProgress ->
  w_trips (receive env u part i c g commit w).2 !! i = Some t' -> lt_status t' = TInProgress ->
  exists otp, c = Start (Some otp) /\ lt_otp t = Some otp /\ lt_status t ∈ [TAccepted; TReached] /\
    is_assigned_driver u i w = true /\ attempts i w < TRIP_OTP_MAX_ATTEMPTS.
Proof.
  intros Hr Ht Hs Ht' Hs'.
  assert (forall w1, w_trips w1 !! i = Some t' -> w1 = w -> False) as Hsame by (intros w1 H ->; congruence).
  assert (forall s o b x r w1, s ∈ [TReached; TCompleted; TCancelled] -> update_trip_status env i s o b x g commit w = (r, w1) ->
    w_trips w1 !! i = Some t' -> False) as Hother.
  { intros s o b x r w1 Hin E Hw. pose proof (update_effect env i s o b x g commit w) as He. rewrite E in He. cbn [snd] in He.
    assert (ride_moves t t') as (_ & _ & _ & Hm).
    { destruct (proj1 (effect_rides _ _ _ (world_reachable _ _ _ _ Hr) (He ltac:(revert Hin; rewrite !elem_of_cons; tauto))) i t Ht)
        as (t2 & E2 & Hm2). rewrite Hw in E2. by injection E2 as <-. }
    clear He. unfold update_trip_status in E. rewrite Ht in E.
    destruct (transition_error s (lt_status t)) as [er|] eqn:Et; [injection E as <- <-; by eapply Hsame|].
    destruct (bool_decide _ && _); [injection E as <- <-; by eapply Hsame|].
    destruct (bool_decide _ && _); [injection E as <- <-; by eapply Hsame|].
    assert (forall y w2, w_trips (committed commit w (save_trip i y w2)) !! i = Some t' -> lt_status y <> TInProgress -> False) as Hc.
    { intros y w2 H Hy. destruct commit; cbn in H; [rewrite lookup_insert_eq in H; injection H as <-; done|].
      by eapply (Hsame _ H). }
    rewrite !elem_of_cons in Hin. destruct Hin as [->|[->|[->|Hin]]]; [..|by apply not_elem_of_nil in Hin].
    - injection E as <- <-. by eapply Hc.
    - destruct (create_payment_on_complete _ _ _) as [[y w2]|] eqn:Ec; [|injection E as <- <-; by eapply Hsame].
      apply create_payment_on_complete_quiet in Ec as [_ Hl%(f_equal lf_status)]. cbn in Hl. injection E as <- <-. eapply Hc; [exact Hw|by rewrite Hl].
    - destruct (process_refund_on_cancel _ _ _) as [[[z y] w2]|] eqn:Ec; [|injection E as <- <-; by eapply Hsame].
      apply process_refund_quiet in Ec as [_ Hl%(f_equal lf_status)]. cbn in Hl.
      destruct commit.
      + apply (f_equal snd) in E. cbn [snd] in E. rewrite <- E in Hw.
        destruct (released_quiet y (Success "Trip cancelled") (committed true w (save_trip i y w2))) as [Hq _]. rewrite Hq in Hw.
        eapply (Hc y w2 Hw). by rewrite Hl.
      + injection E as <- <-. eapply (Hc y w2 Hw). by rewrite Hl. }
  destruct c; cbn [receive] in Ht'; try (by exfalso; eapply Hsame).
  - destruct (negb _); [by exfalso; eapply Hsame|]. pose proof (accept_only_accepts env (us_driver u) i new_otp w t t' Ht) as Ha.
    destruct (accept_trip _ _ _ _ _) as [r w1]. cbn [snd] in *. exfalso. destruct (Ha Ht') as [->|Hx]; congruence.
  - destruct (is_assigned_driver u i w); [|by exfalso; eapply Hsame].
    destruct (update_trip_status _ _ _ _ _ _ _ _ _) as [r w1] eqn:E. exfalso. eapply Hother; [|exact E|exact Ht'].
    vm_compute; set_solver.
  - destruct (is_assigned_driver u i w) eqn:Eu; [|by exfalso; eapply Hsame]. unfold start_ride in Ht'.
    destruct (truthy otp) eqn:Eo; cbn [negb] in Ht'; [|by exfalso; eapply Hsame].
    destruct (Z.leb_spec TRIP_OTP_MAX_ATTEMPTS (attempts i w)) as [|Hlt]; [by exfalso; eapply Hsame|].
    destruct (update_trip_status _ _ _ _ _ _ _ _ _) as [r w1] eqn:E. apply start_update in E as (_ & _ & [(_ & Heq & _)|(_ & t2 & E2 & Hin & Hcode & ->)]).
    + exfalso. apply (f_equal w_trips) in Heq. cbn in Heq. apply (Hsame w); [|done]. rewrite <- Heq. cbn [snd] in Ht'.
      destruct (mentions_otp r); [exact Ht'|]. by destruct (succeeded r).
    + rewrite Ht in E2. injection E2 as <-. destruct otp as [code|]; [|done]. exists code. split; [done|].
      assert (lt_status t <> TRequested /\ lt_status t <> TCancelled) as [N1 N2].
      { rewrite !elem_of_cons in Hin. destruct Hin as [->|[->|H]]; [done|done|by apply not_elem_of_nil in H]. }
      destruct (wo_shape _ _ (world_reachable _ _ _ _ Hr) i t Ht) as [_ Hsh].
      assert (is_Some (lt_otp t)) as [o Ho] by (destruct (lt_status t) eqn:El; cbn in Hsh; rewrite El in Hsh; naive_solver).
      rewrite Ho in Hcode |- *. cbn in Hcode. by subst.
  - destruct (is_assigned_driver u i w); [|by exfalso; eapply Hsame].
    destruct (update_trip_status _ _ _ _ _ _ _ _ _) as [r w1] eqn:E. exfalso. eapply Hother; [|exact E|exact Ht'].
    vm_compute; set_solver.
  - destruct (is_assigned_driver u i w); [|by exfalso; eapply Hsame].
    destruct (confirm_keeps env i w t Ht) as (t2 & Ht2 & E2 & _).
    destruct (confirm_cash_payment _ _ _) as [r w1]. cbn [snd] in *. exfalso. apply Hs. congruence.
  - destruct (negb _); [by exfalso; eapply Hsame|].
    destruct (update_trip_status _ _ _ _ _ _ _ _ _) as [r w1] eqn:E. exfalso. eapply Hother; [|exact E|exact Ht'].
    vm_compute; set_solver.
Qed.

Lemma ride_starts_with_its_code_witness :
  exists otp t, w_trips (demo_does Reached demo_accepted) !! 1 = Some t /\ lt_otp t = Some otp /\ otp = "4321"%string.
Proof.
  set (w := demo_does Reached demo_accepted).
  destruct (w_trips w !! 1) as [t|] eqn:Et; [|vm_compute in Et; discriminate Et].
  destruct (w_trips demo_started !! 1) as [t'|] eqn:Et'; [|vm_compute in Et'; discriminate Et'].
  destruct (ride_starts_with_its_code demo_trip_env (empty_db 10) {[ 9 := demo_driver_row ]} w demo_driver PCandidateDriver 1
              (Start (Some "4321"%string)) NotIssued true t t') as (otp & Hc & Ho & _).
  - eapply rtc_r; [apply demo_accepted_reached|apply ts_command].
  - exact Et.
  - intros H. clear Et'. vm_compute in Et. injection Et as <-. discriminate H.
  - exact Et'.
  - clear Et. vm_compute in Et'. injection Et' as <-. reflexivity.
  - exists otp, t. split; [reflexivity|]. split; [exact Ho|]. injection Hc as <-. reflexivity.
Defined.

(** ** Guessing *)

(** Start commands, each at its time: how many were told their code is wrong. *)
Definition told_wrong (a : reply) : bool := match a with Refusal r => mentions_otp r | _ => false end.

Fixpoint wrong_codes (env : TripEnv) (u : SocketUser) (part : participation) (i : Z) (g : gateway_answer) (commit : bool)
    (l : list (Z * string)) (w : World) : Z :=
  match l with
  | [] => 0
  | (t, code) :: r =>
    let '(a, w) := receive env u part i (Start (Some code)) g commit (with_db (at_time t (w_db w)) w) in
    (if told_wrong a then 1 else 0) + wrong_codes env u part i g commit r w
  end.

(** [k] codes have been told wrong so far, and the count of them does not expire before [e]. *)
Definition told_so_far (i k e : Z) (w : World) : Prop :=
  0 <= k <= TRIP_OTP_MAX_ATTEMPTS /\ (forall n x, w_attempts w !! i = Some (n, x) -> 0 <= n) /\
  (k = 0 \/ (exists n x, w_attempts w !! i = Some (n, x) /\ k <= n /\ e <= x) \/
   exists t, w_trips w !! i = Some t /\ lt_status t = TInProgress).

Lemma ack_cases (r : cmd_result) :
  ack r = Refusal r \/ (exists s, ack r = AlreadyDone s) \/ ack r = TripTaken \/ (ack r = Committed r /\ succeeded r = true).
Proof.
  destruct r as [m|e|x o e]; cbn [ack]; [by auto|by auto|]. destruct (bool_decide _); [right; left; by eexists|by left].
Qed.

Lemma told_wrong_ack (r : cmd_result) : told_wrong (ack r) = true -> mentions_otp r = true.
Proof. by destruct (ack_cases r) as [->|[[s ->]|[->|[-> _]]]]. Qed.

Lemma one_guess (env : TripEnv) (u : SocketUser) (part : participation) (i : Z) (g : gateway_answer) (commit : bool)
    (code : string) (k t0 : Z) (w w' : World) (a : reply) :
  let e := t0 + TRIP_OTP_ATTEMPT_TTL_SECONDS * SECOND in
  t0 <= now w < e -> told_so_far i k e w -> receive env u part i (Start (Some code)) g commit w = (a, w') ->
  told_so_far i (k + if told_wrong a then 1 else 0) e w'.
Proof.
  intros e Hw Hk. cbn [receive].
  destruct (is_assigned_driver u i w); [|intros [= <- <-]; cbn; by rewrite Z.add_0_r]. unfold start_ride.
  destruct (truthy (Some code)); cbn [negb]; [|intros [= <- <-]; cbn; by rewrite Z.add_0_r].
  destruct (Z.leb_spec TRIP_OTP_MAX_ATTEMPTS (attempts i w)) as [|Hlt]; [intros [= <- <-]; cbn; by rewrite Z.add_0_r|].
  destruct (update_trip_status _ _ _ _ _ _ _ _ _) as [r w1] eqn:E. pose proof (told_wrong_ack r) as Hr.
  apply start_update in E as (Ha & Hn & Hcase'). destruct Hk as (Hk & Hnn & Hcase).
  assert (0 <= attempts i w) as H0.
  { unfold attempts. destruct (w_attempts w !! i) as [[n x]|] eqn:Ex; [|lia]. destruct (_ <? _); [by eapply Hnn|lia]. }
  destruct Hcase' as [(Hf & Heq & Hm)|(Hm & t & Ht & _ & _ & Heq)].
  - rewrite Hf. destruct (mentions_otp r) eqn:Em; intros [= <- <-].
    + destruct (Hm eq_refl) as (t & Ht & Hs & _). assert (k <= attempts i w) as Hka.
      { destruct Hcase as [->|[(n & x & Hx & Hkn & Hex)|(t2 & Ht2 & Hs2)]].
        - done.
        - unfold attempts. rewrite Hx, (proj2 (Z.ltb_lt _ _)); lia.
        - exfalso. rewrite Ht in Ht2. injection Ht2 as <-. rewrite Hs2 in Hs. revert Hs. vm_compute. set_solver. }
      split; [destruct (told_wrong _); lia|]. cbn. rewrite lookup_insert_eq. split; [intros n x [= <- _]; lia|].
      right. left. eexists _, _. split; [reflexivity|]. rewrite Hn. split; [destruct (told_wrong _); lia|unfold e; lia].
    + assert (told_wrong (ack r) = false) as -> by (destruct (told_wrong (ack r)); [discriminate (Hr eq_refl)|done]).
      rewrite Z.add_0_r. split; [done|]. apply (f_equal w_trips) in Heq. cbn in Heq. rewrite Ha, Heq. done.
  - rewrite Hm. intros H. assert (told_wrong (ack r) = false) as Hw' by (destruct (told_wrong (ack r)); [rewrite Hm in Hr; discriminate (Hr eq_refl)|done]).
    injection H as <- <-. rewrite Hw', Z.add_0_r. split; [done|]. split.
    + intros n x. destruct (succeeded r); rewrite Heq; cbn; [by rewrite lookup_delete_eq|apply Hnn].
    + right. right. exists (stamped_started (now w) t). split; [|done]. destruct (succeeded r); rewrite Heq; cbn; apply lookup_insert_eq.
Qed.

Lemma wrong_codes_bounded (env : TripEnv) (u : SocketUser) (part : participation) (i : Z) (g : gateway_answer) (commit : bool)
    (t0 : Z) (l : list (Z * string)) (k : Z) (w : World) :
  let e := t0 + TRIP_OTP_ATTEMPT_TTL_SECONDS * SECOND in
  (forall x, x ∈ l -> t0 <= x.1 < e) -> told_so_far i k e w ->
  0 <= wrong_codes env u part i g commit l w <= TRIP_OTP_MAX_ATTEMPTS - k.
Proof.
  intros e. revert k w. induction l as [|[t code] l IH]; intros k w Hl Hk; cbn [wrong_codes]; [destruct Hk; lia|].
  destruct (receive _ _ _ _ _ _ _ _) as [a w1] eqn:E.
  apply (one_guess _ _ _ _ _ _ _ k t0) in E; [|apply (Hl (t, code)); set_solver|exact Hk].
  pose proof (IH _ w1 ltac:(set_solver) E). destruct (told_wrong a); lia.
Qed.

(** The start code cannot be guessed: whatever codes are sent for a ride, in whatever order,
    within five minutes of the first, at most five are told wrong; the rest are not looked at. *)
Theorem guesses_are_bounded (env : TripEnv) (u : SocketUser) (part : participation) (i : Z) (g : gateway_answer) (commit : bool)
    (t0 : Z) (l : list (Z * string)) (w : World) :
  (forall n x, w_attempts w !! i = Some (n, x) -> 0 <= n) ->
  (forall x, x ∈ l -> t0 <= x.1 < t0 + TRIP_OTP_ATTEMPT_TTL_SECONDS * SECOND) ->
  0 <= wrong_codes env u part i g commit l w <= 5.
Proof.
  intros Hn Hl. apply (wrong_codes_bounded _ _ _ _ _ _ t0 l 0 w Hl). split; [unfold TRIP_OTP_MAX_ATTEMPTS; lia|]. split; [exact Hn|by left].
Qed.

Lemma guesses_are_bounded_witness :
  let tries := [(11, "0000"); (12, "1111"); (13, "2222"); (14, "3333"); (15, "4444"); (16, "5555"); (17, "4321")]%string in
  wrong_codes demo_trip_env demo_driver PCandidateDriver 1 NotIssued true tries demo_accepted = 5 /\
  0 <= wrong_codes demo_trip_env demo_driver PCandidateDriver 1 NotIssued true tries demo_accepted <= 5.
Proof.
  split; [vm_compute; reflexivity|]. apply (guesses_are_bounded _ _ _ _ _ _ 11).
  - intros n x H. vm_compute in H. discriminate H.
  - intros x Hx. rewrite !elem_of_cons in Hx. unfold TRIP_OTP_ATTEMPT_TTL_SECONDS, SECOND.
    destruct Hx as [->|[->|[->|[->|[->|[->|[->|Hx]]]]]]]; [cbn; lia..|by apply not_elem_of_nil in Hx].
Defined.

(** ** Sending a command again *)

Lemma ack_committed (r r' : cmd_result) : ack r = Committed r' -> succeeded r = true.
Proof. by destruct (ack_cases r) as [->|[[s ->]|[->|[_ Hr]]]]. Qed.

(** Asking for the status a trip has by then. *)
Lemma update_again (env : TripEnv) (i : Z) (s : trip_status) (otp : option string) (b x : string) (g : gateway_answer)
    (commit : bool) (w : World) (t : LiveTrip) :
  s ∈ [TReached; TInProgress; TCompleted; TCancelled] -> w_trips w !! i = Some t -> lt_status t = s ->
  update_trip_status env i s otp b x g commit w =
    (Failure (Some "already_in_target_state") (Some s) (InvalidTransition s s), w).
Proof.
  intros Hs Ht E. unfold update_trip_status. rewrite Ht, E. unfold transition_error.
  rewrite !elem_of_cons in Hs. destruct Hs as [->|[->|[->|[->|Hs]]]]; [reflexivity..|by apply not_elem_of_nil in Hs].
Qed.

(** What a transition that succeeds leaves: the trip in the status asked for. *)
Lemma update_done (env : TripEnv) (i : Z) (s : trip_status) (otp : option string) (b x : string) (g : gateway_answer)
    (w w' : World) (r : cmd_result) :
  s ∈ [TReached; TInProgress; TCompleted; TCancelled] ->
  update_trip_status env i s otp b x g true w = (r, w') -> succeeded r = true ->
  exists t t', w_trips w !! i = Some t /\ w_trips w' !! i = Some t' /\ lt_status t' = s /\
    lt_driver t' = lt_driver t /\ lt_rider t' = lt_rider t.
Proof.
  intros Hs. unfold update_trip_status. destruct (w_trips w !! i) as [t|] eqn:Ht; [|by intros [= <- <-]].
  destruct (transition_error _ _) as [e|] eqn:Et.
  { intros [= <- <-]. unfold transition_error in Et. destruct (allowed_transitions s); [|done].
    destruct (bool_decide _); [done|]. by injection Et as <-. }
  destruct (bool_decide _ && _); [by intros [= <- <-]|]. destruct (bool_decide _ && _); [by intros [= <- <-]|].
  rewrite !elem_of_cons in Hs. destruct Hs as [->|[->|[->|[->|Hs]]]]; [..|by apply not_elem_of_nil in Hs]; cbn [committed].
  - intros [= <- <-] _. exists t. eexists. cbn. rewrite lookup_insert_eq. by split_and!.
  - intros [= <- <-] _. exists t. eexists. cbn. rewrite lookup_insert_eq. by split_and!.
  - destruct (create_payment_on_complete _ _ _) as [[y w2]|] eqn:Ec; [|by intros [= <- <-]].
    apply create_payment_on_complete_quiet in Ec as [_ Hl]. intros [= <- <-] _. exists t. exists y.
    pose proof (f_equal lf_status Hl). pose proof (f_equal lf_driver Hl). pose proof (f_equal lf_rider Hl). cbn in *.
    rewrite lookup_insert_eq. by split_and!.
  - destruct (process_refund_on_cancel _ _ _) as [[[z y] w2]|] eqn:Ec; [|by intros [= <- <-]].
    apply process_refund_quiet in Ec as [_ Hl]. intros E _. exists t. exists y.
    pose proof (f_equal lf_status Hl). pose proof (f_equal lf_driver Hl). pose proof (f_equal lf_rider Hl). cbn in *.
    apply (f_equal snd) in E. cbn [snd] in E. rewrite <- E.
    destruct (released_quiet y (Success "Trip cancelled") (save_trip i y w2)) as [Hq _]. rewrite Hq. cbn.
    rewrite lookup_insert_eq. by split_and!.
Qed.

Lemma assigned_after (u : SocketUser) (i : Z) (w w' : World) (t t' : LiveTrip) :
  w_trips w !! i = Some t -> w_trips w' !! i = Some t' -> lt_driver t' = lt_driver t -> lt_rider t' = lt_rider t ->
  is_assigned_driver u i w' = is_assigned_driver u i w /\ is_rider u i w' = is_rider u i w.
Proof. intros H1 H2 H3 H4. unfold is_assigned_driver, is_rider. by rewrite H1, H2, H3, H4. Qed.

Lemma accept_again (env : TripEnv) (driver : option Z) (i : Z) (otp otp' : string) (w w' : World) (r : cmd_result) :
  accept_trip env driver i otp w = (r, w') -> succeeded r = true -> accept_trip env driver i otp' w' = (Taken AlreadyAccepted, w').
Proof.
  unfold accept_trip. destruct (w_trips w !! i) as [t|]; [|by intros [= <- <-]].
  destruct (bool_decide _); [by intros [= <- <-]|]. destruct (negb _); [by intros [= <- <-]|].
  destruct (d ← driver; _) as [[d row]|]; [|by intros [= <- <-]]. destruct (negb _); [by intros [= <- <-]|].
  destruct (is_blocked row); [by intros [= <- <-]|]. destruct (bool_decide _); [by intros [= <- <-]|].
  destruct (get_fatigue_status _ _ _ _) as [st f]. destruct (locked st); [by intros [= <- <-]|].
  destruct (negb _); [by intros [= <- <-]|]. intros [= <- <-] _. cbn. rewrite lookup_insert_eq. reflexivity.
Qed.

Lemma find_fmap {A : Type} (f : A -> bool) (h : A -> A) (l : list A) (x : A) :
  (forall y, f (h y) = f y) -> List.find f l = Some x -> List.find f (h <$> l) = Some (h x).
Proof. intros Hf. induction l as [|y l IH]; cbn; [done|]. rewrite Hf. destruct (f y); [by intros [= <-]|done]. Qed.

Lemma filter_fmap_same {A : Type} (f : A -> bool) (h : A -> A) (l : list A) :
  (forall y, f (h y) = f y) -> List.filter f (h <$> l) = h <$> List.filter f l.
Proof. intros Hf. induction l as [|y l IH]; cbn; [done|]. rewrite Hf. destruct (f y); cbn; by rewrite IH. Qed.

Definition paid_row (k : Z) (s : pay_status) (p : PaymentRow) : PaymentRow := if pm_id p =? k then with_pay_status s p else p.

Lemma last_cash_saved (j k : Z) (s : pay_status) (w : World) (p : PaymentRow) :
  last_cash j w = Some p -> last_cash j (save_payment k s w) = Some (paid_row k s p).
Proof.
  unfold last_cash, payments_of, save_payment. cbn [w_payments set_payments]. intros H. change (fun p0 => if pm_id p0 =? k then _ else _) with (paid_row k s).
  rewrite filter_fmap_same by (intros y; unfold paid_row; by destruct (pm_id y =? k)). rewrite <- fmap_reverse.
  apply find_fmap; [|exact H]. intros y. unfold paid_row. by destruct (pm_id y =? k).
Qed.

Lemma confirm_again (env : TripEnv) (i : Z) (w w' : World) (r : cmd_result) :
  confirm_cash_payment env i w = (r, w') -> succeeded r = true ->
  exists r', confirm_cash_payment env i w' = (r', w').
Proof.
  unfold confirm_cash_payment at 1. destruct (w_trips w !! i) as [t|] eqn:Ht; [|by intros [= <- <-]].
  destruct (bool_decide_reflect (lt_status t = TCompleted)) as [Hs|]; cbn [negb]; [|by intros [= <- <-]].
  destruct (_ && _) eqn:Ep; [by intros [= <- <-]|]. destruct (last_cash _ w) as [p|] eqn:El; [|by intros [= <- <-]].
  destruct (bool_decide (pm_status p = PayFailed)) eqn:Ef; [by intros [= <- <-]|].
  destruct (bool_decide_reflect (pm_status p = PayCompleted)) as [Hc|].
  { intros [= <- <-] _. unfold confirm_cash_payment. rewrite Ht, Hs, El, Hc, Ep. cbn. by eexists. }
  destruct (existsb _ _); [by intros [= <- <-]|].
  destruct (settled_world _ _ _) as [w1|] eqn:E; [|by intros [= <- <-]]. intros [= <- <-] _.
  assert (w_payments w1 = w_payments (save_payment (pm_id p) PayCompleted w)) as Hp.
  { unfold settled_world in E. apply res_bind_ok in E as ([b db] & _ & E). injection E as <-. done. }
  apply settled_world_quiet in E as [Hq _].
  unfold confirm_cash_payment. rewrite Hq. cbn [w_trips save_trip set_trips]. rewrite lookup_insert_eq. cbn [lt_status with_payment_status lt_trip].
  rewrite Hs, (bool_decide_true (TCompleted = TCompleted)) by done. cbn [negb].
  assert (last_cash (trip_id (lt_trip t)) w1 = Some (paid_row (pm_id p) PayCompleted p)) as ->.
  { rewrite <- (last_cash_saved _ (pm_id p) PayCompleted w p El). unfold last_cash, payments_of. by rewrite Hp. }
  unfold paid_row. rewrite Z.eqb_refl. rewrite (bool_decide_false (pm_status _ = PayFailed)), (bool_decide_true (pm_status _ = PayCompleted)) by done.
  match goal with |- context [if ?b then _ else _] => destruct b end; by eexists.
Qed.

(** A command may be sent again: once a command has been acknowledged as committed, the same
    command changes nothing more, whatever the gateway or the database would say the second
    time.  A transition or a cancellation is answered with the status it already reached; an
    acceptance is not: its own driver is told that the trip was taken. *)
Theorem retries_change_nothing (env : TripEnv) (u : SocketUser) (part : participation) (i : Z) (c : command)
    (g g' : gateway_answer) (commit' : bool) (w w' : World) (r : cmd_result) :
  receive env u part i c g true w = (Committed r, w') ->
  exists a, receive env u part i c g' commit' w' = (a, w') /\
    match c with
    | Accept _ => a = TripTaken
    | Reached | Start _ | Complete | Cancel _ => exists s, a = AlreadyDone (Some s)
    | _ => True
    end.
Proof.
  destruct c as [|otp| |otp| | |reason|x]; cbn [receive]; try done.
  - destruct (negb _); [done|]. destruct (accept_trip _ _ _ _ _) as [r1 w1] eqn:E. intros [= Ha%ack_committed <-].
    rewrite (accept_again _ _ _ _ otp _ _ _ E Ha). by eexists.
  - destruct (is_assigned_driver u i w) eqn:Eu; [|done]. destruct (update_trip_status _ _ _ _ _ _ _ _ _) as [r1 w1] eqn:E.
    intros [= Ha%ack_committed <-]. apply update_done in E as (t & t' & Ht & Ht' & Hs & Hd & Hr); [|vm_compute; set_solver|done].
    rewrite (proj1 (assigned_after u i w w1 t t' Ht Ht' Hd Hr)), Eu.
    rewrite (update_again env i TReached _ _ _ _ _ w1 t' ltac:(vm_compute; set_solver) Ht' Hs). eexists. split; [done|by eexists].
  - destruct (is_assigned_driver u i w) eqn:Eu; [|done]. unfold start_ride. destruct (truthy otp) eqn:Eo; cbn [negb]; [|done].
    destruct (_ <=? _) eqn:El; [done|]. destruct (update_trip_status _ _ _ _ _ _ _ _ _) as [r1 w1] eqn:E.
    intros [= Ha%ack_committed Hw]. rewrite (status_never_starts _ Ha), Ha in Hw.
    apply update_done in E as (t & t' & Ht & Ht' & Hs & Hd & Hr); [|vm_compute; set_solver|done].
    assert (w_trips w' !! i = Some t') as Ht2 by (by rewrite <- Hw).
    rewrite (proj1 (assigned_after u i w w' t t' Ht Ht2 Hd Hr)), Eu.
    assert (attempts i w' = 0) as -> by (rewrite <- Hw; unfold attempts; cbn; by rewrite lookup_delete_eq). cbn [Z.leb].
    rewrite (update_again env i TInProgress _ _ _ _ _ w' t' ltac:(vm_compute; set_solver) Ht2 Hs). cbn. eexists. split; [done|by eexists].
  - destruct (is_assigned_driver u i w) eqn:Eu; [|done]. destruct (update_trip_status _ _ _ _ _ _ _ _ _) as [r1 w1] eqn:E.
    intros [= Ha%ack_committed <-]. apply update_done in E as (t & t' & Ht & Ht' & Hs & Hd & Hr); [|vm_compute; set_solver|done].
    rewrite (proj1 (assigned_after u i w w1 t t' Ht Ht' Hd Hr)), Eu.
    rewrite (update_again env i TCompleted _ _ _ _ _ w1 t' ltac:(vm_compute; set_solver) Ht' Hs). eexists. split; [done|by eexists].
  - destruct (is_assigned_driver u i w) eqn:Eu; [|done]. destruct (confirm_cash_payment _ _ _) as [r1 w1] eqn:E.
    intros [= Ha%ack_committed <-]. assert (is_assigned_driver u i w1 = true) as ->.
    { unfold is_assigned_driver at 1 in Eu. destruct (w_trips w !! i) as [t|] eqn:Ht; [|done].
      destruct (confirm_keeps env i w t Ht) as (t2 & Ht2 & _ & E2 & E3). rewrite E in Ht2. cbn [snd] in Ht2.
      rewrite (proj1 (assigned_after u i w w1 t t2 Ht Ht2 E2 E3)). unfold is_assigned_driver. by rewrite Ht. }
    destruct (confirm_again _ _ _ _ _ E Ha) as [r2 ->]. by eexists.
  - destruct (is_rider u i w || is_assigned_driver u i w) eqn:Eu; cbn [negb]; [|done].
    destruct (update_trip_status _ _ _ _ _ _ _ _ _) as [r1 w1] eqn:E.
    intros [= Ha%ack_committed <-]. apply update_done in E as (t & t' & Ht & Ht' & Hs & Hd & Hr); [|vm_compute; set_solver|done].
    destruct (assigned_after u i w w1 t t' Ht Ht' Hd Hr) as [-> ->]. rewrite Eu. cbn [negb].
    rewrite (update_again env i TCancelled _ _ _ _ _ w1 t' ltac:(vm_compute; set_solver) Ht' Hs). eexists. split; [done|by eexists].
Qed.

Lemma retries_change_nothing_witness :
  (exists s, (receive demo_trip_env demo_driver PAssignedDriver 1 Complete GatewayRaised false demo_completed).1 = AlreadyDone (Some s)) /\
  (receive demo_trip_env demo_driver PCandidateDriver 1 (Accept "4321") NotIssued true demo_accepted) = (TripTaken, demo_accepted).
Proof.
  split.
  - destruct (retries_change_nothing demo_trip_env demo_driver PCandidateDriver 1 Complete NotIssued GatewayRaised false
                demo_started demo_completed (Success "Trip completed")) as (a & H & s & Ha); [vm_compute; reflexivity|].
    exists s. etransitivity; [exact (f_equal fst H)|]. exact Ha.
  - destruct (retries_change_nothing demo_trip_env demo_driver PCandidateDriver 1 (Accept "4321") NotIssued NotIssued true
                demo_booked demo_accepted (Success "Trip accepted")) as (a & H & Ha); [vm_compute; reflexivity|].
    etransitivity; [exact H|]. by rewrite Ha.
Defined.

(** ** Cancelling on the socket *)

Lemma refund_not_issued (t : LiveTrip) (w : World) : process_refund_on_cancel NotIssued t w = Some (None, t, w).
Proof.
  unfold process_refund_on_cancel. destruct (paid_online _ w) as [p|]; [|done].
  destruct (pm_gateway_payment p); [|done]. destruct (negb _); [done|]. by destruct (_ <=? _).
Qed.

(** The cancellation rules of the driver's app hold in its REST handler only: that handler
    refuses a ride under way and counts every cancellation towards the lockout; the socket's
    cancel ends the same ride under way, for any reason, and the driver's record, their rating
    and their lockout stay as they were. *)
Theorem socket_cancel_escapes_penalty (env : TripEnv) (u : SocketUser) (part : participation) (i d : Z) (reason : string)
    (w : World) (t : LiveTrip) :
  w_trips w !! i = Some t -> lt_driver t = Some d -> us_driver u = Some d -> lt_rider t <> us_id u -> lt_status t = TInProgress ->
  (forall user reason' note, (driver_cancel_trip env user i reason' note w).1 ∈ [INVALID_REASON; FORBIDDEN; INVALID_STATE TInProgress] /\
     (driver_cancel_trip env user i reason' note w).2 = w) /\
  let w' := (receive env u part i (Cancel reason) NotIssued true w).2 in
  w_fleet w' = w_fleet w /\
  exists t', w_trips w' !! i = Some t' /\ lt_status t' = TCancelled /\ cancelled_by t' = "driver"%string.
Proof.
  intros Ht Hd Hu Hne Hs. split.
  - intros user reason' note. unfold driver_cancel_trip. destruct (negb _); [cbn; split; [set_solver|done]|].
    rewrite Ht, Hd. destruct (negb _); [cbn; split; [set_solver|done]|]. rewrite Hs, bool_decide_false by (vm_compute; set_solver).
    cbn. split; [set_solver|done].
  - cbn [receive]. assert (is_assigned_driver u i w = true) as -> by (unfold is_assigned_driver; rewrite Ht, Hd, Hu; apply Z.eqb_refl).
    assert (is_rider u i w = false) as -> by (unfold is_rider; rewrite Ht; by apply Z.eqb_neq).
    cbn [orb negb]. unfold update_trip_status. rewrite Ht, Hs. cbn. rewrite refund_not_issued.
    set (t1 := stamped_cancelled _ _ _ _). pose proof (released_quiet t1 (Success "Trip cancelled") (save_trip i t1 w)) as (Q1 & _ & _ & Q4).
    destruct (released _ _ _) as [r w']. cbn in *. split; [exact Q4|]. exists t1. cbn [fst snd]. split; [|done]. etransitivity; [exact (f_equal (lookup i) Q1)|]. apply lookup_insert_eq.
Qed.

Lemma socket_cancel_escapes_penalty_witness :
  let w' := (receive demo_trip_env demo_driver PAssignedDriver 1 (Cancel "bored") NotIssued true demo_started).2 in
  fl_cancels (w_fleet w') = [] /\ exists t', w_trips w' !! 1 = Some t' /\ lt_status t' = TCancelled /\ cancelled_by t' = "driver"%string.
Proof.
  intros w'. destruct (w_trips demo_started !! 1) as [t|] eqn:Et; [|vm_compute in Et; discriminate Et].
  destruct (socket_cancel_escapes_penalty demo_trip_env demo_driver PAssignedDriver 1 9 "bored" demo_started t Et) as (_ & H1 & H2).
  - vm_compute in Et. injection Et as <-. reflexivity.
  - reflexivity.
  - intros H. vm_compute in Et. injection Et as <-. discriminate H.
  - vm_compute in Et. injection Et as <-. reflexivity.
  - split; [|exact H2]. fold w' in H1. rewrite H1. vm_compute. reflexivity.
Defined.
