(* ===== verification/RideMoney.v ===== *)
(** * RideMoney: what rides do to money

    The charge on a rider's wallet, the payment of a completed ride, refunds and the rollback
    they outlive, and the bounds of an operator's end. *)

From S2P Require Import Prelude PyDecimal PyText Countries Models Money Commission Zones PromoTax Alerts Store.
From S2P Require Import Promos Settlement Drivers DriverSafety Trips OperatorEnd TripSafety.
#[local] Open Scope string_scope.
#[local] Open Scope list_scope.
#[local] Open Scope Z_scope.

(** ** The rider's wallet *)

Lemma existsb_key (k : string) (l : list Txn) :
  existsb (fun x => bool_decide (txn_key x = Some k)) l = true <-> exists x, x ∈ l /\ txn_key x = Some k.
Proof.
  rewrite existsb_exists. split; intros (x & H & E); exists x.
  - split; [by apply list_elem_of_In|by apply bool_decide_eq_true in E].
  - split; [by apply list_elem_of_In|by apply bool_decide_eq_true].
Qed.

(** A wallet pays once and never below what is held: a payment either changes nothing, or
    takes exactly the amount in the wallet's minor units from a balance that covers it and
    the rewards under review, with one completed debit of that amount in the ledger under its
    key; and under that key nothing is ever taken again. *)
Theorem wallet_pays_once (env : TripEnv) (user : Z) (amount : dec) (purpose key : string) (t : Trip) (db db' : Db) (r : wallet_result) :
  wallet_payment env user amount purpose key t db = (r, db') ->
  (r <> WalletPaid false -> db' = db) /\
  (r = WalletPaid false -> exists wallet m txn,
     wallets db !! (user, SCOPE_RIDER) = Some wallet /\ to_minor_dec amount (Some (wallet_currency wallet)) = Ok m /\
     m + te_held env user (wallet_currency wallet) <= balance_minor wallet /\
     balance_minor <$> wallets db' !! (user, SCOPE_RIDER) = Some (balance_minor wallet - m) /\
     txns db' = txns db ++ [txn] /\ txn_user txn = user /\ signed_minor txn = - m /\ txn_key txn = Some key) /\
  (forall amount' purpose' t', r = WalletPaid false ->
     exists x, wallet_payment env user amount' purpose' key t' db' = (x, db') /\ x <> WalletPaid false).
Proof.
  unfold wallet_payment at 1. destruct (dleb amount (of_Z 0)); [intros [= <- <-]; done|].
  destruct (existsb _ _); [intros [= <- <-]; done|].
  destruct (wallets db !! (user, SCOPE_RIDER)) as [wallet|] eqn:Ew; [|intros [= <- <-]; done].
  destruct (to_minor_dec amount (Some (wallet_currency wallet))) as [m|] eqn:Em; [|intros [= <- <-]; done].
  destruct (Z.ltb_spec (balance_minor wallet - te_held env user (wallet_currency wallet)) m) as [|Hb]; [intros [= <- <-]; done|].
  destruct (create_txn _ _ _ _ _ _ _ _) as [[i db1]|] eqn:E; [|intros [= <- <-]; done].
  apply create_txn_ok in E as (_ & _ & ->). intros [= <- <-]. split; [done|]. split.
  - intros _. eexists wallet, m, _. split; [done|]. split; [done|]. split; [lia|]. split.
    { cbn. by rewrite lookup_insert_eq. }
    split; [reflexivity|]. split; [reflexivity|]. split; reflexivity.
  - intros amount' purpose' t' _. unfold wallet_payment. destruct (dleb amount' _); [by eexists|].
    rewrite (proj2 (existsb_key key _)); [by eexists|]. eexists. cbn. split; [apply elem_of_app; right; apply list_elem_of_singleton; reflexivity|].
    done.
Qed.

(** Rider 5 with 200.00 in their wallet, of which 20.00 is under review. *)
Definition demo_wallet_env : TripEnv := {|
  te_settle := demo_settle_env; te_promo := demo_env 10; te_qa := false; te_held := fun _ _ => 2000;
  te_provider := fun _ => "cashfree" |}.

Definition demo_rich (currency : string) : Db :=
  set_wallets {[ (5, SCOPE_RIDER) := {| balance_minor := 20000; wallet_currency := currency |} ]} (empty_db 10).

Lemma wallet_pays_once_witness :
  let r := wallet_payment demo_wallet_env 5 (Dec 13568 (-2)) "Trip payment" "trip_80_payment" cash_trip (demo_rich "INR") in
  r.1 = WalletPaid false /\
  exists wallet m, wallets (demo_rich "INR") !! (5, SCOPE_RIDER) = Some wallet /\ m = 13568 /\
    balance_minor <$> wallets r.2 !! (5, SCOPE_RIDER) = Some (balance_minor wallet - m).
Proof.
  intros r. assert (r.1 = WalletPaid false) as H1 by (vm_compute; reflexivity). split; [exact H1|].
  destruct (wallet_pays_once demo_wallet_env 5 (Dec 13568 (-2)) "Trip payment" "trip_80_payment" cash_trip (demo_rich "INR") r.2 r.1
              (surjective_pairing r)) as (_ & H & _).
  destruct (H H1) as (wallet & m & txn & Hw & Hm & _ & Hb & _). exists wallet, m. split; [exact Hw|]. split; [|exact Hb].
  vm_compute in Hw. injection Hw as <-. vm_compute in Hm. injection Hm as <-. reflexivity.
Defined.

(** The amount is taken in the units of whatever currency the wallet is in: 135.68 rupees are
    paid with 135.68 dollars, and the ledger row says dollars. *)
Lemma wallet_pays_other_currency :
  let r := wallet_payment demo_wallet_env 5 (Dec 13568 (-2)) "Trip payment" "trip_80_payment" cash_trip (demo_rich "USD") in
  trip_currency cash_trip = "INR"%string /\ r.1 = WalletPaid false /\
  wallets r.2 !! (5, SCOPE_RIDER) = Some {| balance_minor := 6432; wallet_currency := "USD" |} /\
  (txn_currency <$> txns r.2) = ["USD"%string].
Proof. vm_compute. done. Qed.

(** ** The payment of a completed ride *)

Lemma create_payment_row (t : LiveTrip) (m : Z) (meth : string) (s : pay_status) (g : string) (w w' : World) :
  bigint m -> create_payment t (Dec m (-2)) meth s g w = Ok w' ->
  w' = set_payments (w_payments w ++ [{| pm_id := Z.of_nat (length (w_payments w)); pm_trip := trip_id (lt_trip t);
         pm_user := lt_rider t; pm_amount := m; pm_method := meth; pm_currency := currency_for_trip (Some (lt_trip t));
         pm_status := s; pm_gateway := g; pm_gateway_payment := None; pm_order := None; pm_cf_order := None;
         pm_cf_payment := None; pm_replaced_by := None; pm_late := None; pm_created := now w |}]) w.
Proof.
  intros Hm. unfold create_payment. rewrite (to_minor_of_minor m _ 2) by auto with sgo. cbn [lift_money map_err res_bind].
  destruct (_ && _); [done|]. by intros [= <-].
Qed.

Lemma settled_payments (env : TripEnv) (t : LiveTrip) (w w' : World) :
  settled_world env t w = Ok w' -> w_payments w' = w_payments w.
Proof. unfold settled_world. intros H. apply res_bind_ok in H as ([b db] & _ & H). by injection H as <-. Qed.

Lemma history_payments (t : LiveTrip) (a : dec) (w w' : World) :
  wallet_paid_history t a w = Ok w' -> w_payments w' = w_payments w.
Proof.
  unfold wallet_paid_history. destruct (lt_driver t); [|by intros [= <-]]. intros H.
  apply res_bind_ok in H as (n & _ & H). by injection H as <-.
Qed.

(** What completing adds to the payments of a trip that had none. *)
Inductive charged (t : LiveTrip) (payable : Z) (t' : LiveTrip) : list PaymentRow -> Prop :=
| charged_nothing : payable = 0 -> charged t payable t' []
| charged_refused : method_name (lt_trip t) = "wallet"%string -> payment_status t' = Some "failed"%string -> charged t payable t' []
| charged_once p :
    payable <> 0 -> pm_trip p = trip_id (lt_trip t) -> pm_user p = lt_rider t -> pm_amount p = payable ->
    pm_currency p = currency_for_trip (Some (lt_trip t)) ->
    pm_method p = (if bool_decide (method_name (lt_trip t) ∈ ["deferred"; "cash"; "wallet"]) then method_name (lt_trip t) else "online")%string ->
    pm_status p = (if bool_decide (method_name (lt_trip t) = "wallet") then PayCompleted else PayPending) ->
    payment_status t' = Some (if bool_decide (method_name (lt_trip t) = "wallet") then "completed" else "pending")%string ->
    charged t payable t' [p].

(** A completed ride is charged its fare, once: completing adds at most one payment, of
    exactly the payable fare in minor units (the fare less the promotion, through decimals
    and back), in the currency of the trip and to its rider; a wallet payment is complete and
    any other is pending; a trip that already has a payment is charged nothing more. *)
Theorem completion_charges_the_fare (env : TripEnv) (t t' : LiveTrip) (w w' : World) :
  bigint (payable_minor (w_db w) (lt_trip t)) -> create_payment_on_complete env t w = Ok (t', w') ->
  (payments_of (trip_id (lt_trip t)) w <> [] -> t' = t /\ w' = w) /\
  (payments_of (trip_id (lt_trip t)) w = [] -> exists l,
     w_payments w' = w_payments w ++ l /\ charged t (payable_minor (w_db w) (lt_trip t)) t' l).
Proof.
  intros Hm. unfold create_payment_on_complete. set (tr := lt_trip t). set (m := payable_minor (w_db w) tr) in *.
  destruct (bool_decide_reflect (payments_of (trip_id tr) w = [])) as [Hn|Hn]; cbn [negb];
    [|intros [= <- <-]; split; [done|intros; done]].
  intros H. split; [done|]. intros _. revert H.
  rewrite (proj1 (from_minor_Z_spec m _ 2 (bigint_prec _ Hm) (currency_for_trip_exponent (Some tr)))).
  cbn [lift_money map_err res_bind].
  assert (deqb (Dec m (- (2))) (of_Z 0) = (m =? 0)) as ->.
  { unfold deqb, dcompare, coef_at, of_Z. cbn [coef dexp]. change (Z.min (- (2)) 0) with (-2). rewrite Z.mul_1_r.
    cbn. unfold Z.eqb. destruct m; reflexivity. }
  change (- (2)) with (-2).
  destruct (Z.eqb_spec m 0) as [H0|H0].
  { destruct (_ && _).
    - intros H. apply res_bind_ok in H as (w1 & H1%settled_payments & H). injection H as <- <-. exists [].
      rewrite app_nil_r. split; [done|by apply charged_nothing].
    - intros [= <- <-]. exists []. rewrite app_nil_r. split; [done|by apply charged_nothing]. }
  destruct (bool_decide_reflect (method_name tr = "deferred"%string)) as [Ed|Ed].
  { intros H. apply res_bind_ok in H as (w1 & H1%create_payment_row & H); [|done]. injection H as <- <-. subst w1.
    eexists. split; [reflexivity|]. apply charged_once; try done; cbn; fold tr; by rewrite Ed. }
  destruct (bool_decide_reflect (method_name tr = "cash"%string)) as [Ec|Ec].
  { intros H. apply res_bind_ok in H as (w1 & H1%create_payment_row & H); [|done].
    apply res_bind_ok in H as (w2 & H2%settled_payments & H). injection H as <- <-. subst w1.
    eexists. split; [rewrite H2; reflexivity|]. apply charged_once; try done; cbn; fold tr; by rewrite Ec. }
  destruct (bool_decide_reflect (method_name tr = "wallet"%string)) as [Ew|Ew].
  - destruct (wallet_payment _ _ _ _ _ _ _) as [r db]. destruct r.
    + intros H. apply res_bind_ok in H as (w1 & H1%create_payment_row & H); [|done].
      apply res_bind_ok in H as (w2 & H2%history_payments & H). apply res_bind_ok in H as (w3 & H3%settled_payments & H).
      injection H as <- <-. eexists. rewrite H3, H2, H1. split; [reflexivity|]. apply charged_once; try done; cbn; fold tr; by rewrite Ew.
    + intros [= <- <-]. exists []. rewrite app_nil_r. split; [done|by apply charged_refused].
  - intros H. apply res_bind_ok in H as (w1 & H1%create_payment_row & H); [|done]. injection H as <- <-. subst w1.
    eexists. split; [reflexivity|].
    apply charged_once; try done; cbn; fold tr; rewrite ?(bool_decide_false (method_name tr = "wallet"%string)) by done; try done.
    rewrite bool_decide_false; [done|]. rewrite !elem_of_cons. intros [?|[?|[?|?%not_elem_of_nil]]]; done.
Qed.

Definition demo_riding : LiveTrip :=
  match w_trips demo_started !! 1 with Some t => stamped_completed 20 t | None => with_payment_status "none" (with_fee 0 (stamped_completed 20
    {| lt_trip := cash_trip; lt_status := TInProgress; lt_vehicle := None; lt_otp := None; accepted_at := None; reached_at := None;
       trip_started_at := None; completed_at := None; cancelled_at := None; cancelled_by := EmptyString; cancellation_reason := EmptyString;
       cancellation_fee := 0; payment_status := None; client_request_id := None |})) end.

Lemma completion_charges_the_fare_witness :
  exists t' w' l, create_payment_on_complete demo_trip_env demo_riding demo_started = Ok (t', w') /\
    w_payments w' = w_payments demo_started ++ l /\ charged demo_riding 13568 t' l.
Proof.
  destruct (create_payment_on_complete demo_trip_env demo_riding demo_started) as [[t' w']|] eqn:E; [|vm_compute in E; discriminate E].
  destruct (completion_charges_the_fare demo_trip_env demo_riding t' demo_started w') as [_ H].
  - unfold bigint. vm_compute. split; congruence.
  - exact E.
  - destruct (H ltac:(vm_compute; reflexivity)) as (l & Hl & Hc). exists t', w', l. split; [reflexivity|]. split; [exact Hl|].
    exact Hc.
Defined.

(** ** Refunds *)

Lemma find_in {A : Type} (f : A -> bool) (l : list A) (x : A) : List.find f l = Some x -> x ∈ l /\ f x = true.
Proof. intros [H1 H2]%find_some. split; [by apply list_elem_of_In|exact H2]. Qed.

Lemma paid_online_in (i : Z) (w : World) (p : PaymentRow) :
  paid_online i w = Some p -> p ∈ payments_of i w /\ pm_method p = "online"%string /\ pm_status p = PayCompleted.
Proof.
  intros [Hin Hf]%find_in. apply andb_true_iff in Hf as [H1%bool_decide_eq_true H2%bool_decide_eq_true].
  split; [|done]. by apply elem_of_reverse.
Qed.

Lemma payments_saved (i k : Z) (s : pay_status) (w : World) (q : PaymentRow) :
  q ∈ payments_of i (save_payment k s w) ->
  exists p, p ∈ payments_of i w /\ q = (if pm_id p =? k then with_pay_status s p else p).
Proof.
  unfold payments_of, save_payment. cbn [w_payments set_payments]. intros [Hq Hi]%elem_of_filter_b.
  apply list_elem_of_fmap in Hq as (p & -> & Hp). exists p. split; [|done]. apply elem_of_filter_b. split; [done|].
  destruct (pm_id p =? k); exact Hi.
Qed.

#[local] Ltac nothing_refunded := intros [= <- <- <-]; split; [done|by intros n [=]].

(** A cancelled ride is refunded once and never beyond what was paid: the refund is positive,
    at most its payment, and with every refund already made at most what the trip was paid;
    the payment it came from is marked refunded, nothing else of the database moves, and,
    since a trip has one completed payment, cancelling again finds nothing to give back. *)
Theorem refund_within_payment (g : gateway_answer) (t t' : LiveTrip) (w w' : World) (r : option Z) :
  let i := trip_id (lt_trip t) in
  (forall p q, p ∈ payments_of i w -> q ∈ payments_of i w -> pm_status p = PayCompleted -> pm_status q = PayCompleted -> p = q) ->
  process_refund_on_cancel g t w = Some (r, t', w') ->
  (r = None -> t' = t /\ w' = w) /\
  (forall n, r = Some n -> g = Issued /\ exists p ref,
     p ∈ payments_of i w /\ pm_gateway_payment p = Some ref /\ 0 < n <= pm_amount p /\
     n + refunded_minor t w <= paid_minor t w /\
     w_refunds w' = w_refunds w ++ [{| gr_payment := ref; gr_amount := n; gr_currency := pm_currency p |}] /\
     w_db w' = w_db w /\ w_actions w' = w_actions w /\
     forall g', process_refund_on_cancel g' t' w' = Some (None, t', w')).
Proof.
  intros i Hone. unfold process_refund_on_cancel at 1. fold i. destruct (paid_online i w) as [p|] eqn:Ep; [|nothing_refunded].
  destruct (paid_online_in _ _ _ Ep) as (Hin & Hm & Hs).
  destruct (pm_gateway_payment p) as [ref|] eqn:Eg; [|nothing_refunded].
  destruct (negb _); [nothing_refunded|]. destruct (Z.leb_spec (Z.min (pm_amount p) (refundable_minor t w)) 0) as [|Hpos];
    [nothing_refunded|].
  destruct g; [|nothing_refunded|done]. intros [= <- <- <-]. split; [done|]. intros n [= <-]. split; [done|].
  exists p, ref. split; [done|]. split; [done|]. split; [lia|]. split; [unfold refundable_minor in *; lia|].
  split; [done|]. split; [done|]. split; [done|]. intros g'. unfold process_refund_on_cancel. cbn [lt_trip with_payment_status]. fold i.
  set (w2 := save_payment _ _ _). assert (paid_online i w2 = None) as ->; [|done].
  destruct (paid_online i w2) as [q|] eqn:Eq; [|done]. exfalso. destruct (paid_online_in _ _ _ Eq) as (Hq & _ & Hqs).
  apply payments_saved in Hq as (p' & Hp' & ->). change (payments_of i _) with (payments_of i w) in Hp'.
  destruct (Z.eqb_spec (pm_id p') (pm_id p)) as [|Hne]; [done|]. apply Hne. f_equal. by apply Hone.
Qed.

(** The same ride, paid online when it was accepted. *)
Definition demo_paid : World :=
  set_payments [{| pm_id := 0; pm_trip := 1; pm_user := 5; pm_amount := 13568; pm_method := "online"; pm_currency := "INR";
    pm_status := PayCompleted; pm_gateway := "cashfree"; pm_gateway_payment := Some "cf_1"; pm_order := Some "o1"; pm_cf_order := Some "o1";
    pm_cf_payment := Some "cf_1"; pm_replaced_by := None; pm_late := None; pm_created := 10 |}] demo_accepted.

Definition demo_cancelled : LiveTrip :=
  match w_trips demo_paid !! 1 with Some t => stamped_cancelled 20 "rider" "too_long" t | None => demo_riding end.

Lemma refund_within_payment_witness :
  exists t' w', process_refund_on_cancel Issued demo_cancelled demo_paid = Some (Some 13568, t', w') /\
    process_refund_on_cancel Issued t' w' = Some (None, t', w').
Proof.
  destruct (process_refund_on_cancel Issued demo_cancelled demo_paid) as [[[r t'] w']|] eqn:E; [|vm_compute in E; discriminate E].
  assert (r = Some 13568) as Hr by (vm_compute in E; injection E as <- _ _; reflexivity).
  destruct (refund_within_payment Issued demo_cancelled t' demo_paid w' r) as [_ H].
  - intros p q Hp Hq _ _. apply elem_of_filter_b in Hp as [Hp _], Hq as [Hq _]. cbn in Hp, Hq.
    apply list_elem_of_singleton in Hp as ->, Hq as ->. reflexivity.
  - exact E.
  - destruct (H 13568 Hr) as (_ & p & ref & _ & _ & _ & _ & _ & _ & _ & Hagain). exists t', w'. rewrite Hr. split; [reflexivity|].
    apply Hagain.
Defined.

(** A refund outlives its rollback: the provider is asked inside the transaction, so when the
    cancellation does not commit the ride and its payment stand as before while the refund
    was made, and the rider who cancels again is refunded a second time.  The docstring of
    the state machine says a rolled-back transaction leaves nothing behind at the gateway. *)
Theorem refund_outlives_rollback (user i : Z) (reason note : string) (w w2 : World) (n : Z) :
  rider_cancel_trip user i reason note Issued true w = (Cancelled (Some n) None, w2) ->
  let '(a1, w1) := rider_cancel_trip user i reason note Issued false w in
  let '(a2, w3) := rider_cancel_trip user i reason note Issued true w1 in
  a1 = CancelError /\ w_trips w1 = w_trips w /\ w_payments w1 = w_payments w /\
  a2 = Cancelled (Some n) None /\ w_trips w3 = w_trips w2 /\ 0 < n /\
  zsum gr_amount (w_refunds w3) = zsum gr_amount (w_refunds w) + 2 * n.
Proof.
  unfold rider_cancel_trip. destruct (truthy _ && _); [done|]. destruct (w_trips w !! i) as [t|] eqn:Ht; [|done].
  destruct (negb _) eqn:E1; [done|]. destruct (bool_decide (lt_status t ∈ [TCompleted; TCancelled])) eqn:E2; [done|].
  destruct (negb (bool_decide (lt_status t ∈ [TRequested; TAccepted; TReached; TInProgress]))) eqn:E3; [done|].
  set (t1 := stamped_cancelled _ _ _ _).
  destruct (process_refund_on_cancel Issued t1 w) as [[[r t2] w']|] eqn:Er; [|done]. intros [= -> <-]. cbn [committed].
  cbn [w_trips set_refunds]. rewrite Ht, E1, E2, E3. change (now (set_refunds _ w)) with (now w). fold t1.
  revert Er. unfold process_refund_on_cancel. change (paid_online ?j (set_refunds ?l w)) with (paid_online j w).
  destruct (paid_online _ w) as [p|]; [|done]. destruct (pm_gateway_payment p) as [ref|]; [|done].
  destruct (negb (truthy (Some ref))); [done|]. change (refundable_minor t1 (set_refunds ?l w)) with (refundable_minor t1 w).
  destruct (Z.leb_spec (Z.min (pm_amount p) (refundable_minor t1 w)) 0); [done|]. intros [= Hn <- <-].
  split_and!; [done|done|done|by rewrite Hn|done|lia|]. cbn -[zsum Z.mul Z.min]. rewrite !zsum_app. cbn -[Z.mul Z.min]. lia.
Qed.

Lemma refund_outlives_rollback_witness :
  zsum gr_amount (w_refunds (rider_cancel_trip 5 1 "too_long" EmptyString Issued true
    (rider_cancel_trip 5 1 "too_long" EmptyString Issued false demo_paid).2).2) = 2 * 13568.
Proof.
  destruct (rider_cancel_trip 5 1 "too_long" EmptyString Issued true demo_paid) as [a w2] eqn:E.
  assert (a = Cancelled (Some 13568) None) as -> by (vm_compute in E; injection E as <- _; reflexivity).
  pose proof (refund_outlives_rollback 5 1 "too_long" EmptyString demo_paid w2 13568 E) as H.
  destruct (rider_cancel_trip 5 1 "too_long" EmptyString Issued false demo_paid) as [a1 w1] eqn:E1.
  cbn [snd]. destruct (rider_cancel_trip 5 1 "too_long" EmptyString Issued true w1) as [a3 w3] eqn:E3.
  destruct H as (_ & _ & _ & _ & _ & _ & H). cbn [snd]. etransitivity; [exact H|]. vm_compute. reflexivity.
Defined.
