(* ===== verification/EndSafety.v ===== *)
(** * EndSafety: an operator's end of a ride is final and bounded

    What a release does to the ride and to the driver's wallet, and the bounds of its plan:
    the rider never pays above the upfront price, the parts of the charge add up to it, and
    the driver's earnings and the commission share their base. *)

From S2P Require Import Prelude PyDecimal PyText Countries Models Money Commission Zones PromoTax Alerts Store.
From S2P Require Import Promos Settlement Drivers DriverSafety Trips OperatorEnd TripSafety RideMoney.
#[local] Open Scope string_scope.
#[local] Open Scope list_scope.
#[local] Open Scope Z_scope.

(** ** What the steps of an end leave alone *)

Lemma release_all_money (l : list Redemption) (db db' : Db) (n : Z) :
  release_all l db = Ok (n, db') -> same_money db db'.
Proof.
  revert db n. induction l as [|r l IH]; intros db n; cbn [release_all]; [by intros [= _ <-]|]. intros H.
  apply res_bind_ok in H as (db1 & H1 & H). apply res_bind_ok in H as ([m db2] & H2 & H). injection H as _ <-.
  destruct (IH _ _ H2) as [Hw Ht]. cbn in Hw, Ht.
  assert (same_money db db1) as [Hw1 Ht1].
  { destruct (rd_campaign r) as [i|]; [|by injection H1 as <-].
    apply release_ok in H1 as (c & c' & b & _ & _ & _ & _ & _ & _ & _ & B). by destruct B. }
  split; congruence.
Qed.

Lemma payment_keeps_trip (env : TripEnv) (t t' : LiveTrip) (w w' : World) :
  create_payment_on_complete env t w = Ok (t', w') -> lt_trip t' = lt_trip t.
Proof.
  unfold create_payment_on_complete. destruct (negb _); [by intros [= <- <-]|]. intros H.
  apply res_bind_ok in H as (amount & _ & H). destruct (deqb _ _).
  { destruct (_ && _); [|by injection H as <- <-]. apply res_bind_ok in H as (w1 & _ & H). by injection H as <- <-. }
  destruct (bool_decide _); [apply res_bind_ok in H as (w1 & _ & H); by injection H as <- <-|].
  destruct (bool_decide _).
  { apply res_bind_ok in H as (w1 & _ & H). apply res_bind_ok in H as (w2 & _ & H). by injection H as <- <-. }
  destruct (bool_decide _); [|apply res_bind_ok in H as (w1 & _ & H); by injection H as <- <-].
  destruct (wallet_payment _ _ _ _ _ _ _) as [r db]. destruct r; [|by injection H as <- <-].
  apply res_bind_ok in H as (w1 & _ & H). apply res_bind_ok in H as (w2 & _ & H). apply res_bind_ok in H as (w3 & _ & H).
  by injection H as <- <-.
Qed.

Lemma refund_keeps_trip (g : gateway_answer) (t t' : LiveTrip) (w w' : World) (r : option Z) :
  process_refund_on_cancel g t w = Some (r, t', w') -> lt_trip t' = lt_trip t /\ w_db w' = w_db w.
Proof.
  unfold process_refund_on_cancel. destruct (paid_online _ w) as [p|]; [|by intros [= <- <- <-]].
  destruct (pm_gateway_payment p); [|by intros [= <- <- <-]]. destruct (negb _); [by intros [= <- <- <-]|].
  destruct (_ <=? _); [by intros [= <- <- <-]|]. by destruct g; intros [= <- <- <-].
Qed.

(** Drivers' balances stay, and the only ledger rows added have the key [k]. *)
Record rider_side (k : string) (db db' : Db) : Prop := {
  rs_balance : forall u, driver_balance db' u = driver_balance db u;
  rs_rows : forall x, x ∈ txns db' -> x ∈ txns db \/ txn_key x = Some k
}.

Lemma rider_side_refl (k : string) (db : Db) : rider_side k db db.
Proof. split; [done|]. intros x Hx. by left. Qed.

Lemma driver_balance_rider (db : Db) (u v b : Z) : driver_balance (save_balance u SCOPE_RIDER b db) v = driver_balance db v.
Proof. unfold driver_balance, save_balance, wallet_of. cbn [wallets set_wallets]. by rewrite lookup_insert_ne. Qed.

Lemma credit_rider_side (t : Trip) (a : dec) (k : string) (db db' : Db) (r : credit_result) :
  issue_refund_credit t a k db = Ok (r, db') -> rider_side k db db'.
Proof.
  unfold issue_refund_credit. destruct (quantize_dec _ _) as [v|]; [|intros [= _ <-]; apply rider_side_refl].
  destruct (dleb _ _); [intros [= _ <-]; apply rider_side_refl|].
  pose proof (fun u => driver_balance_get db (trip_rider t) u SCOPE_RIDER) as Hg.
  assert (txns (get_wallet (trip_rider t) SCOPE_RIDER db).2 = txns db) as Hx by done.
  destruct (get_wallet (trip_rider t) SCOPE_RIDER db) as [wallet db0]. cbn [snd] in Hg, Hx. intros H.
  apply res_bind_ok in H as (cur & _ & H). apply res_bind_ok in H as (pr & _ & H).
  destruct (dltb _ _); [injection H as _ <-; split; [done|intros x; rewrite Hx; by left]|].
  apply res_bind_ok in H as (m & _ & H). destruct (create_txn _ _ _ _ _ _ _ _) as [[j db1]|] eqn:E.
  - apply create_txn_ok in E as (_ & _ & ->). apply res_bind_ok in H as (b & _ & H). injection H as _ <-. split.
    + intros u. rewrite driver_balance_rider. apply Hg.
    + intros x. cbn. rewrite Hx, elem_of_app, list_elem_of_singleton. intros [H| ->]; [by left|by right].
  - destruct (List.find _ _); [|done]. injection H as _ <-. split; [done|intros x; rewrite Hx; by left].
Qed.

Definition refund_key (i : Z) : string := ("trip_operator_end_refund:" +:+ number i)%string.

Lemma prepaid_rider_side (g : gateway_answer) (p : Plan) (keep n : Z) (t t' : LiveTrip) (w w' : World) :
  refund_prepaid g p keep t w = Ok (n, t', w') ->
  lt_trip t' = lt_trip t /\ rider_side (refund_key (trip_id (lt_trip t))) (w_db w) (w_db w').
Proof.
  unfold refund_prepaid. destruct (_ <=? 0); [intros [= _ <- <-]; split; [done|apply rider_side_refl]|].
  set (taken := if _ && _ then _ else None). destruct taken as [[t1 w1]|] eqn:Et.
  - intros [= _ <- <-]. unfold taken in Et. destruct (_ && _); [|done].
    destruct (process_refund_on_cancel g t w) as [[[[r|] t2] w2]|] eqn:Ep; try done. injection Et as <- <-.
    apply refund_keeps_trip in Ep as [E1 E2]. split; [done|]. rewrite E2. apply rider_side_refl.
  - intros H. apply res_bind_ok in H as ([[meth st] w1] & H1 & H). injection H as _ <- <-. split; [done|].
    change (w_db (set_actions ?l w1)) with (w_db w1).
    destruct (has_online_payment _ w); [injection H1 as _ _ <-; apply rider_side_refl|].
    apply res_bind_ok in H1 as (a & _ & H1). apply res_bind_ok in H1 as ([r db] & Hr%credit_rider_side & H1).
    destruct r; injection H1 as _ _ <-; exact Hr.
Qed.

(** The credit to the driver: once per key. *)
Lemma credit_driver_ok (env : TripEnv) (t : Trip) (p : Plan) (d n : Z) (db db' : Db) (x : option Z) :
  trip_driver t = Some d -> driver_earnings_minor p = Some n ->
  (forall r, r ∈ txns db -> txn_key r <> Some (trip_key (trip_id t) "PLATFORM_FUNDED")) ->
  credit_driver env t p db = Ok (x, db') ->
  forall u, driver_balance db' u = driver_balance db u + if u =? se_user_of (te_settle env) d then n else 0.
Proof.
  intros Hd Hn Hk. unfold credit_driver. rewrite Hd, Hn. destruct (Z.eqb_spec n 0) as [->|_].
  { intros [= _ <-] u. destruct (_ =? _); lia. }
  destruct (List.find _ _) as [r|] eqn:Ef.
  { apply find_in in Ef as [Hr He%bool_decide_eq_true]. by apply Hk in Hr. }
  set (user := se_user_of (te_settle env) d).
  pose proof (fun u => driver_balance_get db user u SCOPE_DRIVER) as Hg.
  assert (balance_minor (get_wallet user SCOPE_DRIVER db).1 = driver_balance db user) as Hb by done.
  destruct (get_wallet user SCOPE_DRIVER db) as [wallet db0]. cbn [fst snd] in Hg, Hb. intros H u.
  apply res_bind_ok in H as ([i db1] & (_ & _ & ->)%create_txn_ok & H). injection H as _ <-.
  rewrite driver_balance_save. change (driver_balance (set_txns ?a ?b ?c) ?v) with (driver_balance c v).
  rewrite (Z.eqb_sym u). destruct (Z.eqb_spec user u) as [<-|]; [lia|]. rewrite Hg. lia.
Qed.

Lemma fee_and_alert_money (env : TripEnv) (t : Trip) (p : Plan) (db : Db) (u : Z) :
  driver_balance (raise_funded_alert env t p (book_regulatory_fee t p db)) u = driver_balance db u.
Proof.
  unfold raise_funded_alert. change (driver_balance (set_alerts ?a ?b) u) with (driver_balance b u).
  unfold book_regulatory_fee. by destruct (_ || _).
Qed.

(** ** A release is final *)

Lemma standard_keeps_trip (env : TripEnv) (g : gateway_answer) (p : Plan) (t t' : LiveTrip) (w w' : World) :
  apply_standard env g p t w = Ok (t', w') -> lt_trip t' = lt_trip t.
Proof.
  unfold apply_standard. intros H. apply res_bind_ok in H as ([t1 w1] & H1%payment_keeps_trip & H).
  apply res_bind_ok in H as ([[n t2] w2] & [H2 _]%prepaid_rider_side & H).
  destruct (_ && _); [|injection H as <- _; congruence]. apply res_bind_ok in H as (w3 & _ & H). injection H as <- _. congruence.
Qed.

Lemma funded_money (env : TripEnv) (g : gateway_answer) (p : Plan) (t t' : LiveTrip) (w w' : World) :
  apply_platform_funded env g p t w = Ok (t', w') ->
  lt_trip t' = lt_trip t /\
  forall d n, trip_driver (lt_trip t) = Some d -> driver_earnings_minor p = Some n ->
    (forall r, r ∈ txns (w_db w) -> txn_key r <> Some (trip_key (trip_id (lt_trip t)) "PLATFORM_FUNDED")) ->
    forall u, driver_balance (w_db w') u = driver_balance (w_db w) u + if u =? se_user_of (te_settle env) d then n else 0.
Proof.
  unfold apply_platform_funded. intros H. apply res_bind_ok in H as ([[m t1] w1] & [E1 [B1 R1]]%prepaid_rider_side & H).
  set (t2 := if bool_decide _ then t1 else _) in H. assert (lt_trip t2 = lt_trip t) as E2 by (unfold t2; by destruct (bool_decide _)).
  apply res_bind_ok in H as ([x db] & H2 & H). injection H as <- <-. split; [done|]. intros d n Hd Hn Hk u.
  cbn [w_db with_db]. rewrite fee_and_alert_money.
  rewrite (credit_driver_ok env (lt_trip t2) p d n (w_db w1) db x); [|by rewrite E2|done| |exact H2].
  - rewrite B1. done.
  - intros r Hr. rewrite E2. destruct (R1 r Hr) as [Hr'|Hr']; [by apply Hk|]. rewrite Hr'. by intros [=].
Qed.

(** What applying a plan leaves. *)
Lemma apply_plan_result (env : TripEnv) (g : gateway_answer) (i : Z) (t : LiveTrip) (p : Plan) (w w' : World) :
  apply_plan env g i t p w = Ok w' ->
  (exists t', w_trips w' !! i = Some t' /\ lt_status t' = TCompleted /\ lt_trip t' = ended_trip p (lt_trip t)) /\
  (pl_rule p = PLATFORM_FUNDED -> forall d n, lt_driver t = Some d -> driver_earnings_minor p = Some n ->
     (forall r, r ∈ txns (w_db w) -> txn_key r <> Some (trip_key (trip_id (lt_trip t)) "PLATFORM_FUNDED")) ->
     forall u, driver_balance (w_db w') u = driver_balance (w_db w) u + if u =? se_user_of (te_settle env) d then n else 0).
Proof.
  unfold apply_plan. intros H. apply res_bind_ok in H as ([n db] & Hp & H).
  apply res_bind_ok in H as ([t1 w1] & H1 & H). injection H as <-. set (t0 := ended (now w) p t) in *.
  set (w0 := count_trip t0 _) in *.
  assert (w_db w0 = db) as Hdb by (unfold w0, count_trip; by destruct (lt_driver t0)).
  assert (lt_trip t1 = lt_trip t0 /\ lt_status t1 = TCompleted) as [Et Es].
  { split; [destruct (pl_rule p); [by eapply standard_keeps_trip|by apply funded_money in H1 as [? _]]|].
    assert (life t1 = life t0) as Hl by (destruct (pl_rule p); [by eapply standard_quiet|by eapply funded_quiet]).
    by apply (f_equal lf_status) in Hl. }
  split; [exists t1; cbn; rewrite lookup_insert_eq; done|].
  intros Hr d k Hd Hk Hn u. rewrite Hr in H1. rewrite Hr, bool_decide_true in Hp by done.
  apply release_all_money in Hp as [Hw Hx]. cbn [save_trip set_trips w_db].
  destruct (funded_money _ _ _ _ _ _ _ H1) as [_ Hb].
  rewrite (Hb d k); [|exact Hd|exact Hk|rewrite Hdb, Hx; exact Hn]. rewrite Hdb.
  unfold driver_balance at 1, wallet_of. rewrite Hw. done.
Qed.

(** A release is final, and pays the driver once: a started ride an operator ends is complete
    at the price of the plan; under a platform-funded reason the rider pays nothing and the
    driver's balance, and no other, moves by exactly the earnings of the plan; and every
    later release of the ride is refused and changes nothing. *)
Theorem release_is_final (env : TripEnv) (i : Z) (stale : bool) (marker rc : string) (tm : Telemetry) (g : gateway_answer)
    (w w' : World) (t : LiveTrip) (p : Plan) :
  w_trips w !! i = Some t -> release_driver env i stale marker rc tm g w = (Released_ok "C" (Some p), w') ->
  (exists t', w_trips w' !! i = Some t' /\ lt_status t' = TCompleted /\
     final_fare_minor (lt_trip t') = Some (rider_pays_minor p) /\ end_rule (lt_trip t') = rule_text (pl_rule p)) /\
  (pl_rule p = PLATFORM_FUNDED -> rider_pays_minor p = 0 /\
     exists d n, lt_driver t = Some d /\ driver_earnings_minor p = Some n /\
     ((forall r, r ∈ txns (w_db w) -> txn_key r <> Some (trip_key (trip_id (lt_trip t)) "PLATFORM_FUNDED")) ->
      forall u, driver_balance (w_db w') u = driver_balance (w_db w) u + if u =? se_user_of (te_settle env) d then n else 0)) /\
  (forall stale' marker' rc' tm' g', release_driver env i stale' marker' rc' tm' g' w' = (Refuse "already_ended", w')).
Proof.
  intros Ht. unfold release_driver at 1. rewrite Ht. destruct (lt_driver t) as [d|] eqn:Ed; [|done].
  rewrite bool_decide_false by done. destruct (truthy _); [done|].
  destruct (bool_decide _); [by repeat case_match|]. destruct (negb stale); [done|].
  destruct (bool_decide_reflect (lt_status t = TInProgress)) as [Hs|].
  2: { destruct (negb _); [done|]. destruct (operator_cancel _ _ _ _ _ _ _) as [o w2]. by destruct o. }
  destruct (rule_for rc) as [rule|] eqn:Erc; [|done]. destruct (build_plan _ _ _ _ _) as [q|e] eqn:Eb; [|by destruct e].
  destruct (apply_plan _ _ _ _ _ _) as [w2|] eqn:Ea; [|done]. intros [= -> ->].
  destruct (apply_plan_result _ _ _ _ _ _ _ Ea) as [(t' & Ht' & Hs' & Et') Hmoney].
  split; [exists t'; rewrite Et'; done|]. split.
  - intros Hr. unfold build_plan in Eb. apply res_bind_ok in Eb as (rule' & Erule & Eb). apply res_bind_ok in Eb as (upfront & _ & Eb).
    apply res_bind_ok in Eb as (m & _ & Eb). apply res_bind_ok in Eb as (unc & _ & Eb).
    apply res_bind_ok in Eb as ([split expense] & _ & Eb). apply res_bind_ok in Eb as (promo & _ & Eb).
    apply res_bind_ok in Eb as ([[[pr rel] full] split'] & _ & Eb). apply res_bind_ok in Eb as (base & _ & Eb).
    apply res_bind_ok in Eb as (comm & _ & Eb). destruct (_ && _) eqn:Ec; [done|]. injection Eb as <-. cbn in Hr |- *. subst rule'.
    split; [done|]. destruct comm as [c|]; [|done]. exists d. eexists. split; [done|]. split; [reflexivity|].
    intros Hn. by apply Hmoney.
  - intros stale' marker' rc' tm' g'. unfold release_driver. rewrite Ht'.
    assert (lt_driver t' = Some d) as Hd' by (unfold lt_driver; rewrite Et'; exact Ed).
    rewrite Hd', bool_decide_false by done. rewrite Et'. unfold ended_trip. cbn [end_rule]. by destruct (pl_rule p).
Qed.

(** ** Minor units in, minor units out *)

Lemma ndigits_abs (z : Z) : ndigits z <= prec -> Z.abs z < 10 ^ prec.
Proof. intros H. eapply Z.lt_le_trans; [apply ndigits_upper|]. apply Z.pow_le_mono_r; lia. Qed.

Lemma quantize_shape (d v : dec) (c : option string) :
  exponent c = Ok 2 -> quantize_dec d c = Ok v -> exists n, v = Dec n (-2) /\ Z.abs n < 10 ^ prec.
Proof.
  intros He H. unfold quantize_dec in H. apply res_bind_ok in H as (m & Hm & H). exists m.
  assert (Z.abs m < 10 ^ prec) as Hb.
  { unfold to_minor_dec in Hm. rewrite He in Hm. cbn [res_bind] in Hm. apply res_bind_ok in Hm as (x & _ & Hm).
    rewrite quantize_int_half_up_spec in Hm. destruct (Z.ltb_spec prec (ndigits (rhu (dval x)))); [done|].
    injection Hm as <-. by apply ndigits_abs. }
  split; [|done]. rewrite (proj1 (from_minor_Z_spec m c 2 Hb He)) in H. by injection H as <-.
Qed.

Lemma dec2_least (a b : Z) : dmin (Dec a (-2)) (Dec b (-2)) = Dec (Z.min a b) (-2).
Proof. unfold dmin, dltb. rewrite dec2_compare. destruct (Z.compare_spec b a); f_equal; lia. Qed.

Lemma dec2_leb (a b : Z) : dleb (Dec a (-2)) (Dec b (-2)) = (a <=? b).
Proof. unfold dleb. rewrite dec2_compare. unfold Z.leb. by destruct (a ?= b). Qed.

Section Bounds.
Context (c : option string) (Hc : exponent c = Ok 2) (p : dec) (Hp : pct_ok p).

(** What is charged is split exactly: the taxed fare and the fee when they fit under the cap,
    else the cap. *)
Lemma charged_split (x f cap : Z) :
  0 <= x < 10 ^ 17 -> 0 <= f < 10 ^ 17 -> 0 <= cap < 10 ^ 17 ->
  exists b tx fc, tax_on_charged (Dec x (-2)) p (Dec f (-2)) (Dec cap (-2)) c = Ok (Dec b (-2), Dec tx (-2), Dec fc (-2)) /\
    0 <= b /\ 0 <= tx /\ 0 <= fc /\ b + tx + fc = Z.min (x + tax_on p x + f) cap.
Proof.
  intros Hx Hf Hcap. unfold tax_on_charged.
  pose proof (taxed_quantize c Hc p Hp x ltac:(unfold amount_ok; lia)) as Ht.
  pose proof (tax_on_nonneg p Hp x ltac:(lia)) as Ht0. pose proof (tax_on_bound p Hp x ltac:(lia)) as Ht1.
  destruct (percent_of _ _ _) as [y|]; [|done]. cbn [res_bind] in Ht |- *. rewrite Ht. cbn [res_bind].
  rewrite dec2_add by (unfold prec; lia). cbn [lift_dec map_err res_bind].
  rewrite dec2_add by (unfold prec; lia). cbn [lift_dec map_err res_bind]. rewrite dec2_leb.
  destruct (Z.leb_spec (x + tax_on p x + f) cap) as [H|H].
  - exists x, (tax_on p x), f. split; [done|]. lia.
  - rewrite dec2_least, dec2_sub by (unfold prec; lia). cbn [lift_dec map_err res_bind].
    destruct (backed_out c Hc p Hp (cap - Z.min f cap)) as (pd & v & q & g & -> & Hadd & Hq & Hqu & Hg); [lia|].
    cbn [lift_dec map_err res_bind]. rewrite Hadd. cbn [lift_dec map_err res_bind]. rewrite Hq. cbn [lift_dec map_err res_bind].
    rewrite Hqu. cbn [res_bind]. rewrite dec2_least, dec2_sub by (unfold prec; lia). cbn [lift_dec map_err res_bind].
    eexists _, _, _. split; [done|]. lia.
Qed.

(** The tax after a discount is never more than before it. *)
Lemma adjust_split (b tx fc d : Z) :
  0 <= b < 10 ^ 17 -> 0 <= tx < 10 ^ 17 -> 0 <= fc < 10 ^ 17 -> 0 <= d < 10 ^ 17 ->
  exists tx', 0 <= tx' <= tx /\
    adjust (Dec b (-2)) p (Dec fc (-2)) (Dec d (-2)) c (Some (Dec tx (-2))) = Ok {|
      adj_taxable := dmax (of_Z 0) (Dec (b - d) (-2)); adj_tax := Dec tx' (-2); adj_tax_before := Dec tx (-2);
      adj_full := Dec (b + tx' + fc) (-2); adj_discount := Dec (Z.min d (b + tx' + fc)) (-2);
      adj_payable := Dec (b + tx' + fc - Z.min d (b + tx' + fc)) (-2); adj_relief := Dec (tx - tx') (-2);
      adj_pretax := Dec b (-2); adj_fee := Dec fc (-2) |}.
Proof.
  intros Hb Ht Hf Hd. unfold adjust. cbn [res_bind]. rewrite dec2_sub by (unfold prec; lia). cbn [lift_dec map_err res_bind].
  assert (exists q, 0 <= q /\ (let* y := percent_of (dmax (of_Z 0) (Dec (b - d) (-2))) p HUNDRED in quantize_dec y c) = Ok (Dec q (-2)))
    as (q & Hq0 & Hq).
  { assert (dltb (of_Z 0) (Dec (b - d) (-2)) = (0 <? b - d)) as Hlt.
    { unfold dltb, dcompare, coef_at, of_Z, Z.ltb. cbn [coef dexp]. change (Z.min 0 (-2)) with (-2). rewrite Z.mul_1_r. done. }
    unfold dmax. rewrite Hlt. destruct (Z.ltb_spec 0 (b - d)) as [H|H].
    - exists (tax_on p (b - d)). split; [apply tax_on_nonneg; [done|lia]|]. by apply taxed_quantize; [..|unfold amount_ok; lia].
    - exists 0. split; [done|]. destruct Hp as [[P1 P2] [P3 P4]]. unfold percent_of, dmul, of_Z. cbn [coef dexp]. rewrite Z.mul_0_l.
      rewrite fix_ctx_fits by (split; cbn [coef dexp]; [done|unfold Etiny, Etop, Emin, Emax, prec; lia]).
      cbn [lift_dec map_err res_bind]. unfold ddiv, HUNDRED, of_Z. cbn [coef dexp]. cbn [Z.eqb].
      rewrite fix_ctx_fits by (split; cbn [coef dexp]; [done|unfold Etiny, Etop, Emin, Emax, prec; lia]).
      cbn [lift_dec map_err res_bind]. apply quantize_zero; [done|lia]. }
  destruct (percent_of _ p HUNDRED) as [y|]; [|done]. cbn [res_bind] in Hq |- *. rewrite Hq. cbn [res_bind].
  rewrite dec2_least. exists (Z.min q tx). split; [lia|].
  rewrite dec2_add by (unfold prec; lia). cbn [lift_dec map_err res_bind].
  rewrite dec2_add by (unfold prec; lia). cbn [lift_dec map_err res_bind].
  rewrite dec2_least, dec2_sub by (unfold prec; lia). cbn [lift_dec map_err res_bind].
  rewrite dec2_sub by (unfold prec; lia). done.
Qed.
End Bounds.

(** ** The metered fare *)

Lemma lift_money_ok {A : Type} (m : res money_error A) (a : A) : lift_money m = Ok a <-> m = Ok a.
Proof. destruct m; cbn; split; congruence. Qed.

Lemma round_fare_shape (d v : dec) (currency : string) :
  exponent (Some currency) = Ok 2 -> round_fare_dec d currency = Ok v -> exists n, v = Dec n (-2) /\ Z.abs n < 10 ^ prec.
Proof.
  intros He H. unfold round_fare_dec in H. apply res_bind_ok in H as (r & H%lift_money_ok & Hr).
  destruct r as [r|]; [|done]. injection Hr as <-. unfold round_fare in H. destruct (whole_unit_fare currency).
  - apply res_bind_ok in H as (n & _ & H). apply res_bind_ok in H as (q & Hq & H). injection H as <-. by eapply quantize_shape.
  - apply res_bind_ok in H as (q & Hq & H). injection H as <-. by eapply quantize_shape.
Qed.

(** The metered fare is in minor units: the taxed fare and the fee of an additive market. *)
Lemma metered_shape (env : TripEnv) (t : Trip) (tm : Telemetry) (m : Metered) :
  metered_fare env t tm = Ok m -> pct_ok (mt_percent m) ->
  0 <= coef (mt_pretax m) < 10 ^ 17 -> 0 <= coef (mt_fee m) < 10 ^ 17 ->
  mt_pretax m = Dec (coef (mt_pretax m)) (-2) /\
  (mt_additive m = true -> mt_fee m = Dec (coef (mt_fee m)) (-2)) /\
  mt_total m = Dec (coef (mt_pretax m) +
    if mt_additive m then tax_on (mt_percent m) (coef (mt_pretax m)) + coef (mt_fee m) else 0) (-2).
Proof.
  unfold metered_fare. destruct (trip_card env t) as [card|]; [|done].
  pose proof (currency_for_trip_exponent (Some t)) as He. set (cur := currency_for_trip (Some t)) in *.
  unfold metered_with. intros H.
  do 5 (apply res_bind_ok in H as (? & _ & H)). apply res_bind_ok in H as (total & (n & -> & Hn)%round_fare_shape & H); [|done].
  destruct (trip_zone t) as [z|]; [|injection H as <-; cbn; intros _ _ _; split; [done|]; split; [done|by rewrite Z.add_0_r]].
  destruct (is_additive (Some z)); [|injection H as <-; cbn; intros _ _ _; split; [done|]; split; [done|by rewrite Z.add_0_r]].
  apply res_bind_ok in H as (fee & Hfee%lift_money_ok & H). apply quantize_shape in Hfee as (f & -> & Hf); [|done].
  apply res_bind_ok in H as (y & Hy%lift_money_ok & H). apply res_bind_ok in H as (tax & Htax%lift_money_ok & H).
  apply res_bind_ok in H as (u & Hu & H). apply res_bind_ok in H as (all & Hall & H). injection H as <-. cbn. intros Hp H1 H2.
  pose proof (taxed_quantize _ He _ Hp n ltac:(unfold amount_ok; lia)) as Hq. rewrite Hy in Hq. cbn [res_bind] in Hq.
  rewrite Hq in Htax. injection Htax as <-.
  pose proof (tax_on_nonneg _ Hp n ltac:(lia)). pose proof (tax_on_bound _ Hp n ltac:(lia)).
  rewrite dec2_add in Hu by (unfold prec; lia). injection Hu as <-.
  rewrite dec2_add in Hall by (unfold prec; lia). injection Hall as <-. split; [done|]. split; [done|]. f_equal. lia.
Qed.

(** ** The plan *)

Lemma to_minor_two (n : Z) (c : option string) : exponent c = Ok 2 -> Z.abs n < 10 ^ prec -> to_minor_dec (Dec n (-2)) c = Ok n.
Proof. intros He Hn. by apply to_minor_dec2. Qed.

Lemma from_minor_two (n : Z) (c : option string) : exponent c = Ok 2 -> Z.abs n < 10 ^ prec -> from_minor_Z n c = Ok (Dec n (-2)).
Proof. intros He Hn. by rewrite (proj1 (from_minor_Z_spec n c 2 Hn He)). Qed.

(** The charge of a standard end in an additive market: split, then lowered by its promotion. *)
Lemma standard_split (m : Metered) (capped : Z) (c : option string) :
  exponent c = Ok 2 -> mt_additive m = true -> pct_ok (mt_percent m) ->
  mt_pretax m = Dec (coef (mt_pretax m)) (-2) -> mt_fee m = Dec (coef (mt_fee m)) (-2) ->
  0 <= coef (mt_pretax m) < 10 ^ 17 -> 0 <= coef (mt_fee m) < 10 ^ 17 ->
  0 <= capped < 10 ^ 17 -> capped <= coef (mt_pretax m) + tax_on (mt_percent m) (coef (mt_pretax m)) + coef (mt_fee m) ->
  exists b tx fc, plan_split STANDARD m capped c = Ok (Some (b, tx, fc), 0) /\ 0 <= b /\ 0 <= tx /\ 0 <= fc /\ b + tx + fc = capped.
Proof.
  intros He Ha Hp Ex Ef Hx Hf Hcap Hle. unfold plan_split. rewrite Ha. cbn [negb].
  rewrite from_minor_two by (done || (unfold prec; lia)). cbn [res_bind]. rewrite Ex, Ef.
  destruct (charged_split c He (mt_percent m) Hp (coef (mt_pretax m)) (coef (mt_fee m)) capped Hx Hf Hcap)
    as (b & tx & fc & -> & Hb & Ht & Hc & Hs). cbn [res_bind].
  rewrite Z.min_r in Hs by lia. rewrite !to_minor_two by (done || (unfold prec; lia)). cbn [res_bind]. by exists b, tx, fc.
Qed.

Lemma standard_promo (m : Metered) (promo capped b tx fc : Z) (c : option string) :
  exponent c = Ok 2 -> pct_ok (mt_percent m) -> 0 <= b -> 0 <= tx -> 0 <= fc -> b + tx + fc = capped -> capped < 10 ^ 17 ->
  0 <= promo <= capped ->
  exists d rel full tx', plan_promo STANDARD m promo capped (Some (b, tx, fc)) c = Ok (d, rel, full, Some (b, tx', fc)) /\
    0 <= tx' /\ 0 <= rel /\ 0 <= d <= full /\ b + tx' + fc = full /\ full + rel = capped.
Proof.
  intros He Hp Hb Ht Hf Hs Hcap Hd. unfold plan_promo. destruct (Z.eqb_spec promo 0) as [->|Hn].
  - exists 0, 0, capped, tx. split; [done|]. lia.
  - rewrite !from_minor_two by (done || (unfold prec; lia)). cbn [res_bind].
    destruct (adjust_split c He (mt_percent m) Hp b tx fc promo ltac:(lia) ltac:(lia) ltac:(lia) ltac:(lia)) as (tx' & Htx & ->).
    cbn [res_bind adj_discount adj_relief adj_full adj_tax]. rewrite !to_minor_two by (done || (unfold prec; lia)). cbn [res_bind].
    eexists _, _, _, _. split; [done|]. lia.
Qed.

(** C20. An operator's end never overcharges: the price is the lower of what was metered and the
    upfront price; what the rider pays, before and after the promotion, is never negative
    and never above it; nothing under a platform-funded reason; in an additive market the
    taxable part, the tax and the fee of a standard end add up to the charge, and the charge
    and the tax relief to the capped price; and the driver's earnings and the commission
    are exactly their base. *)
Theorem plan_never_overcharges (env : TripEnv) (db : Db) (t : Trip) (rc : string) (tm : Telemetry) (m : Metered) (up : Z) (p : Plan) :
  build_plan env db t rc tm = Ok p -> metered_fare env t tm = Ok m -> estimated_fare_minor t = Some up ->
  0 <= up < 10 ^ 17 -> pct_ok (mt_percent m) -> 0 <= coef (mt_pretax m) < 10 ^ 17 -> 0 <= coef (mt_fee m) < 10 ^ 17 ->
  (forall capped n, 0 <= capped -> operator_end_discount_minor (te_promo env) db t capped = Ok n -> 0 <= n) ->
  capped_minor p = Z.min (uncapped_minor p) up /\
  0 <= rider_pays_after_promo_minor p <= rider_pays_minor p /\ rider_pays_minor p <= capped_minor p /\
  (pl_rule p = PLATFORM_FUNDED -> rider_pays_minor p = 0) /\
  (pl_rule p = STANDARD -> rider_pays_minor p + tax_relief_minor p = capped_minor p /\ 0 <= tax_relief_minor p /\
     rider_pays_minor p = rider_pays_after_promo_minor p + promo_discount_minor p /\
     forall b, pl_pretax p = Some b -> exists tx fc, pl_tax p = Some tx /\ pl_fee p = Some fc /\ b + tx + fc = rider_pays_minor p) /\
  (forall e, driver_earnings_minor p = Some e -> exists c, pl_commission p = Some c /\
     e + c = default (rider_pays_minor p) (earnings_base_minor p)).
Proof.
  intros H Hm Hup Hu Hp Hx Hf Hd. destruct (metered_shape _ _ _ _ Hm Hp Hx Hf) as (Ex & Ef & Et).
  pose proof (currency_for_trip_exponent (Some t)) as He.
  unfold build_plan in H. apply res_bind_ok in H as (rule & _ & H). rewrite Hup, Hm in H. cbn [res_opt res_bind] in H.
  set (cur := Some (currency_for_trip (Some t))) in *.
  apply res_bind_ok in H as (unc & Hunc%lift_money_ok & H).
  assert (0 <= unc /\ unc = coef (mt_pretax m) +
    if mt_additive m then tax_on (mt_percent m) (coef (mt_pretax m)) + coef (mt_fee m) else 0) as [Hunc0 Eunc].
  { pose proof (tax_on_nonneg _ Hp (coef (mt_pretax m)) ltac:(lia)). pose proof (tax_on_bound _ Hp (coef (mt_pretax m)) ltac:(lia)).
    rewrite Et in Hunc. rewrite to_minor_two in Hunc by (done || (unfold prec; destruct (mt_additive m); lia)).
    injection Hunc as <-. split; [destruct (mt_additive m); lia|done]. }
  set (capped := Z.min unc up) in *.
  apply res_bind_ok in H as ([split expense] & Hsplit%lift_money_ok & H). apply res_bind_ok in H as (promo & Hpromo & H).
  apply res_bind_ok in H as ([[[d rel] full] split'] & Hadj%lift_money_ok & H). apply res_bind_ok in H as (base & Hbase & H).
  apply res_bind_ok in H as (comm & _ & H). destruct (_ && _); [done|]. injection H as <-. cbn.
  assert (forall e, (fun c : Z => default full base - c) <$> comm = Some e -> exists c, comm = Some c /\ e + c = default full base) as Hearn.
  { intros e He'. destruct comm as [c|]; [|done]. injection He' as <-. exists c. split; [done|]. lia. }
  destruct rule.
  - assert (exists tx0, 0 <= d <= full /\ full + rel = capped /\ 0 <= rel /\
      (split' = None \/ exists b fc, split' = Some (b, tx0, fc) /\ b + tx0 + fc = full)) as (tx0 & D1 & D2 & D3 & D4).
    { assert (0 <= promo <= capped) as Hpr.
      { split; [apply (Hd capped); [lia|exact Hpromo]|]. unfold operator_end_discount_minor in Hpromo.
        apply res_bind_ok in Hpromo as (total & _ & Hpromo). injection Hpromo as <-. lia. }
      destruct (mt_additive m) eqn:Ea.
      - destruct (standard_split m capped cur He Ea Hp Ex (Ef eq_refl) Hx Hf ltac:(lia) ltac:(lia)) as (b & tx & fc & E & ? & ? & ? & ?).
        rewrite E in Hsplit. injection Hsplit as <- <-.
        destruct (standard_promo m promo capped b tx fc cur He Hp) as (d0 & rel0 & full0 & tx' & E' & ? & ? & ? & ? & ?); [lia..|].
        rewrite E' in Hadj. injection Hadj as <- <- <- <-. exists tx'. split; [done|]. split; [done|]. split; [done|]. right. by exists b, fc.
      - unfold plan_split in Hsplit. rewrite Ea in Hsplit. injection Hsplit as <- <-. cbn in Hadj. injection Hadj as <- <- <- <-.
        exists 0. split; [lia|]. split; [lia|]. split; [lia|]. by left. }
    split; [done|]. split; [lia|]. split; [lia|]. split; [done|]. split.
    + intros _. split; [lia|]. split; [lia|]. split; [lia|]. intros b Hb.
      destruct D4 as [->|(b' & fc & -> & Hs)]; [done|]. injection Hb as <-. by exists tx0, fc.
    + destruct base; [exact Hearn|]. exact Hearn.
  - split; [done|]. split; [lia|]. split; [lia|]. split; [done|]. split; [done|].
    assert (exists x, base = Some x) as [x ->].
    { destruct (mt_additive m); [|injection Hbase as <-; by eexists].
      apply res_bind_ok in Hbase as (a & _ & Hbase). apply res_bind_ok in Hbase as (b & _ & Hbase). injection Hbase as <-. by eexists. }
    exact Hearn.
Qed.

(** A ride in New York, ended by an operator after 5 km and 20 minutes. *)
Definition us_rule : CommissionRule := {|
  rule_id := 9; rule_country := "US"; rule_geo_node := None; rule_vehicle_type := None; rule_kind_of := Percentage;
  rule_percent := Dec 2000 (-2); rule_status_of := Active; rule_version := 1; rule_from := 0; rule_to := None |}.

Definition us_env : TripEnv := {|
  te_settle := {| se_rules := [us_rule]; se_zones := <[2 := us_zone]> ∅; se_cards := [us_card]; se_user_of := fun d => d + 100;
                  se_stored := fun _ => None; se_active := fun _ => true;
                  se_lookup := {| find_zone_for_point := fun _ => None |} |};
  te_promo := demo_env 10; te_qa := false; te_held := fun _ _ => 0; te_provider := fun _ => "razorpay" |}.

Definition us_telemetry : Telemetry := {| tm_distance := Dec 500 (-2); tm_minutes := Dec 200 (-1); tm_surge := Dec 100 (-2) |}.

Definition us_riding : World :=
  set_trips 83 {[ 82 := {| lt_trip := us_trip; lt_status := TInProgress; lt_vehicle := Some 5; lt_otp := Some "4321";
    accepted_at := Some 10; reached_at := None; trip_started_at := Some 10; completed_at := None; cancelled_at := None;
    cancelled_by := EmptyString; cancellation_reason := EmptyString; cancellation_fee := 0; payment_status := None;
    client_request_id := None |} ]} demo_w0.

Lemma plan_never_overcharges_witness :
  exists p, build_plan us_env (empty_db 10) us_trip "trip_abandoned" us_telemetry = Ok p /\
    uncapped_minor p = 2507 /\ rider_pays_minor p = 2288 /\ rider_pays_minor p <= capped_minor p.
Proof.
  destruct (build_plan us_env (empty_db 10) us_trip "trip_abandoned" us_telemetry) as [p|] eqn:E; [|vm_compute in E; discriminate E].
  destruct (metered_fare us_env us_trip us_telemetry) as [m|] eqn:Em; [|vm_compute in Em; discriminate Em].
  destruct (plan_never_overcharges us_env (empty_db 10) us_trip "trip_abandoned" us_telemetry m 2288 p E Em) as (_ & _ & H & _).
  - reflexivity.
  - lia.
  - vm_compute in Em. injection Em as <-. split; cbn; lia.
  - vm_compute in Em. injection Em as <-. cbn. lia.
  - vm_compute in Em. injection Em as <-. cbn. lia.
  - intros capped n Hc Hn. vm_compute in Hn. destruct capped; injection Hn as <-; lia.
  - exists p. split; [reflexivity|]. vm_compute in E. injection E as <-. split; [reflexivity|]. split; [reflexivity|exact H].
Defined.

Lemma release_is_final_witness :
  exists p w', release_driver us_env 82 true "ok" "safety_incident" us_telemetry NotIssued us_riding = (Released_ok "C" (Some p), w') /\
    driver_earnings_minor p = Some 1479 /\ driver_balance (w_db w') 109 = 1479 /\
    release_driver us_env 82 true "ok" "safety_incident" us_telemetry NotIssued w' = (Refuse "already_ended", w').
Proof.
  destruct (release_driver us_env 82 true "ok" "safety_incident" us_telemetry NotIssued us_riding) as [a w'] eqn:E.
  assert (exists p, a = Released_ok "C" (Some p) /\ pl_rule p = PLATFORM_FUNDED /\ driver_earnings_minor p = Some 1479) as (p & Ha & Hr & He).
  { clear -E. vm_compute in E. injection E as <- _. eexists. split; [reflexivity|]. split; reflexivity. }
  rewrite Ha in E. exists p, w'. rewrite Ha. split; [reflexivity|]. split; [exact He|].
  assert (exists t, w_trips us_riding !! 82 = Some t /\ lt_driver t = Some 9) as (t & Et & Ed).
  { clear. eexists. split; [vm_compute; reflexivity|reflexivity]. }
  destruct (release_is_final us_env 82 true "ok" "safety_incident" us_telemetry NotIssued us_riding w' t p Et E) as (_ & Hm & Hf).
  split; [|apply Hf]. destruct (Hm Hr) as (_ & d & n & Hd & Hn & Hb). rewrite He in Hn. injection Hn as <-.
  rewrite Ed in Hd. injection Hd as <-. etransitivity; [apply Hb|].
  - change (txns (w_db us_riding)) with (@nil Txn). intros r Hin. destruct (not_elem_of_nil _ Hin).
  - change (driver_balance (w_db us_riding) 109) with 0. reflexivity.
Defined.
