(* ===== verification/PaymentSafety.v ===== *)
(** * PaymentSafety: what the payment endpoints keep

    The frame of every endpoint of TripPayments, the step relation that interleaves them, and
    what holds whatever riders, providers and tasks do: rides are left alone, a trip has one
    completed payment, and captured money either settles its trip or goes back. *)

From S2P Require Import Prelude PyDecimal PyText Countries Models Money Commission Zones PromoTax Alerts Store.
From S2P Require Import Promos Settlement Drivers Trips OperatorEnd Gateways TripPayments TripSafety RideMoney.
#[local] Open Scope string_scope.
#[local] Open Scope list_scope.
#[local] Open Scope Z_scope.

(** ** Frames *)

(** Only money moved: nothing a ride is made of. *)
Record pay_frame (w w' : World) : Prop := {
  pf_fleet : w_fleet w' = w_fleet w;
  pf_trips : w_trips w' = w_trips w;
  pf_next : w_next w' = w_next w;
  pf_attempts : w_attempts w' = w_attempts w;
  pf_now : now w' = now w
}.

#[global] Instance pay_frame_preorder : PreOrder pay_frame.
Proof.
  split; [by intros w|]. intros a b c [A1 A2 A3 A4 A5] [B1 B2 B3 B4 B5]. split; congruence.
Qed.

Create HintDb pay.
#[export] Hint Extern 1 (pay_frame ?w ?w) => reflexivity : pay.

Lemma frame_step (env : TripEnv) (w w' : World) : pay_frame w w' -> trip_step env w w'.
Proof.
  intros [H1 H2 H3 H4 H5].
  assert (w' = set_orders (w_orders w') (set_refunds (w_refunds w') (set_paid (w_paid w') (set_actions (w_actions w')
                 (set_payments (w_payments w') (with_db (w_db w') w)))))) as ->.
  { destruct w, w'. cbn in *. unfold set_orders, set_refunds, set_paid, set_actions, set_payments, with_db. cbn. congruence. }
  by apply ts_money.
Qed.

Definition rides (env : TripEnv) : World -> World -> Prop := rtc (trip_step env).

Lemma rides_frame (env : TripEnv) (w w' : World) : pay_frame w w' -> rides env w w'.
Proof. intros H. apply rtc_once. by apply frame_step. Qed.

Lemma rides_save (env : TripEnv) (i : Z) (t : LiveTrip) (m : option payment) (ps : option string) (w : World) :
  w_trips w !! i = Some t -> rides env w (save_trip i (paid_by m ps t) w).
Proof. intros H. apply rtc_once. by apply (ts_paid env w i t m ps). Qed.

Lemma status_paid_by (s : string) (t : LiveTrip) : with_payment_status s t = paid_by (payment_method (lt_trip t)) (Some s) t.
Proof. by destruct t as [[]]. Qed.

(** ** The clock *)

Lemma get_wallet_clock (u : Z) (s : wallet_scope) (db : Db) : clock (get_wallet u s db).2 = clock db.
Proof. done. Qed.

Lemma create_txn_clock (u : Z) (c : string) (n : Z) (ty : txn_type) (p r k : string) (db db' : Db) (i : Z) :
  create_txn u c n ty p r k db = Ok (i, db') -> clock db' = clock db.
Proof. by intros (_ & _ & ->)%create_txn_ok. Qed.

Lemma collected_clock (env : SettleEnv) (t : Trip) (n : Z) (c : string) (db db' : Db) (x : option Z) :
  credit_fare_collected_by_platform env t n c db = Ok (x, db') -> clock db' = clock db.
Proof.
  unfold credit_fare_collected_by_platform. destruct (trip_driver t) as [d|]; [|by intros [= _ <-]].
  destruct (n <=? 0); [by intros [= _ <-]|]. destruct (get_wallet (se_user_of env d) SCOPE_DRIVER db) as [wal db0] eqn:E0.
  assert (clock db0 = clock db) as <- by (by injection E0 as _ <-).
  destruct (create_txn _ _ _ _ _ _ _ _) as [[i db1]|e] eqn:E.
  - apply create_txn_clock in E. by intros [= _ <-].
  - destruct e; try done; by intros [= _ <-].
Qed.

Lemma paid_clock (env : SettleEnv) (t : Trip) (n : Z) (c : option string) (db db' : Db) (x : option Z) :
  settle_paid_by_platform env t n c db = Ok (x, db') -> clock db' = clock db.
Proof.
  unfold settle_paid_by_platform. set (db0 := match trip_driver t with Some _ => _ | None => db end).
  assert (clock db0 = clock db) as <- by (unfold db0; by destruct (trip_driver t)).
  destruct (current_settlement db0 (trip_id t)) as [cur|].
  - destruct (negb _); [by intros [= _ <-]|]. intros H. apply res_bind_ok in H as ([y db1] & H1%collected_clock & H).
    destruct y as [i|]; [|by injection H as _ <-]. apply res_bind_ok in H as (db2 & (-> & _)%create_settlement_ok & H).
    by injection H as _ <-.
  - intros H. apply res_bind_ok in H as ([b db1] & H1%settle_or_defer_clock & H). by injection H as _ <-.
Qed.

Lemma reverse_clock (env : SettleEnv) (t : Trip) (db db' : Db) (x : option Z) :
  reverse_trip_earnings env t db = Ok (x, db') -> clock db' = clock db.
Proof.
  unfold reverse_trip_earnings. destruct (trip_driver t) as [d|]; [|by intros [= _ <-]].
  destruct (get_wallet (se_user_of env d) SCOPE_DRIVER db) as [wal db0] eqn:E. assert (clock db0 = clock db) as <- by (by injection E as _ <-).
  destruct (_ <=? 0); [by intros [= _ <-]|]. destruct (create_txn _ _ _ _ _ _ _ _) as [[i db1]|e] eqn:E1.
  - apply create_txn_clock in E1. by intros [= _ <-].
  - destruct e; try done; by intros [= _ <-].
Qed.

(** ** Small moves *)

Definition completed_row (p : PaymentRow) : Prop := pm_status p = PayCompleted.

(** Every endpoint is a sequence of these. *)
Inductive pay_move : World -> World -> Prop :=
| mv_money w w' : pay_frame w w' -> w_payments w' = w_payments w -> w_orders w' = w_orders w -> pay_move w w'
| mv_trip w i t m ps : w_trips w !! i = Some t -> pay_move w (save_trip i (paid_by m ps t) w)
| mv_rows w f :
    (forall p, p ∈ w_payments w -> pm_id (f p) = pm_id p /\ pm_trip (f p) = pm_trip p /\ (completed_row (f p) -> completed_row p)) ->
    pay_move w (set_payments (f <$> w_payments w) w)
| mv_done w p p' :
    find_payment (pm_id p) w = Some p -> pm_id p' = pm_id p -> pm_trip p' = pm_trip p ->
    (forall q, q ∈ w_payments w -> pm_trip q = pm_trip p -> completed_row q -> pm_id q = pm_id p) ->
    pay_move w (update_payment (pm_id p) (fun _ => p') w)
| mv_new w p :
    pm_id p = Z.of_nat (length (w_payments w)) -> is_Some (w_trips w !! pm_trip p) ->
    (completed_row p -> forall q, q ∈ w_payments w -> pm_trip q = pm_trip p -> ~ completed_row q) ->
    pay_move w (set_payments (w_payments w ++ [p]) w)
| mv_order w r : po_id r = Z.of_nat (length (w_orders w)) -> find_order (po_order r) w = None ->
    is_Some (find_payment (po_payment r) w) -> pay_move w (set_orders (w_orders w ++ [r]) w)
| mv_orders w k f : (forall r, po_id (f r) = po_id r /\ po_order (f r) = po_order r /\ po_payment (f r) = po_payment r) ->
    pay_move w (update_order k f w).

Definition moves : World -> World -> Prop := rtc pay_move.

Lemma move_rides (env : TripEnv) (w w' : World) : pay_move w w' -> rides env w w'.
Proof. destruct 1; [by apply rides_frame|by apply rides_save|apply rides_frame; split; done..]. Qed.

Lemma moves_rides (env : TripEnv) (w w' : World) : moves w w' -> rides env w w'.
Proof. induction 1 as [|x y z H _ IH]; [constructor|]. etransitivity; [by eapply move_rides|done]. Qed.

(** ** What the payment tables are *)

Record pay_ok (w : World) : Prop := {
  ok_trips : forall i t, w_trips w !! i = Some t -> trip_id (lt_trip t) = i;
  ok_ids : pm_id <$> w_payments w = seqZ 0 (Z.of_nat (length (w_payments w)));
  ok_fk : forall p, p ∈ w_payments w -> is_Some (w_trips w !! pm_trip p);
  ok_one : forall p q, p ∈ w_payments w -> q ∈ w_payments w -> pm_trip p = pm_trip q ->
             completed_row p -> completed_row q -> p = q;
  ok_order_ids : po_id <$> w_orders w = seqZ 0 (Z.of_nat (length (w_orders w)));
  ok_order_names : base.NoDup (po_order <$> w_orders w);
  ok_order_fk : forall r, r ∈ w_orders w -> is_Some (find_payment (po_payment r) w)
}.

Lemma find_some_in {A : Type} (f : A -> bool) (l : list A) (x : A) : x ∈ l -> f x = true -> is_Some (List.find f l).
Proof.
  intros Hx Hf. destruct (List.find f l) eqn:E; [by eexists|]. exfalso.
  rewrite (find_none _ _ E x) in Hf; [done|by apply list_elem_of_In].
Qed.

Lemma payment_ids_nodup (w : World) : pay_ok w -> base.NoDup (pm_id <$> w_payments w).
Proof. intros H. rewrite (ok_ids _ H). apply NoDup_seqZ. Qed.

Lemma order_ids_nodup (w : World) : pay_ok w -> base.NoDup (po_id <$> w_orders w).
Proof. intros H. rewrite (ok_order_ids _ H). apply NoDup_seqZ. Qed.

Lemma find_payment_in (k : Z) (w : World) (p : PaymentRow) : find_payment k w = Some p -> p ∈ w_payments w /\ pm_id p = k.
Proof. intros [H1 H2%Z.eqb_eq]%find_in. done. Qed.

Lemma find_payment_row (w : World) (p : PaymentRow) : pay_ok w -> p ∈ w_payments w -> find_payment (pm_id p) w = Some p.
Proof.
  intros Hok Hp. destruct (find_some_in (fun q => pm_id q =? pm_id p) _ p Hp ltac:(apply Z.eqb_refl)) as [q Hq].
  unfold find_payment. rewrite Hq. apply find_in in Hq as [Hin E%Z.eqb_eq]. f_equal.
  by apply (unique_rows pm_id _ _ _ (payment_ids_nodup w Hok)).
Qed.

Lemma find_payment_map (k : Z) (f : PaymentRow -> PaymentRow) (w : World) :
  (forall p, p ∈ w_payments w -> pm_id (f p) = pm_id p) ->
  find_payment k (set_payments (f <$> w_payments w) w) = f <$> find_payment k w.
Proof.
  unfold find_payment. cbn [w_payments set_payments]. induction (w_payments w) as [|p l IH]; [done|]. intros H.
  cbn. rewrite H by (by left). destruct (pm_id p =? k); [done|]. apply IH. intros q Hq. apply H. by right.
Qed.

Lemma find_payment_update (k j : Z) (f : PaymentRow -> PaymentRow) (w : World) :
  (forall p, p ∈ w_payments w -> pm_id p = j -> pm_id (f p) = j) ->
  find_payment k (update_payment j f w) = (fun p => if pm_id p =? j then f p else p) <$> find_payment k w.
Proof. intros H. apply find_payment_map. intros p Hp. destruct (Z.eqb_spec (pm_id p) j); [|done]. rewrite H; done. Qed.

Lemma find_payment_app (k : Z) (w : World) (p : PaymentRow) (q : PaymentRow) :
  find_payment k w = Some q -> find_payment k (set_payments (w_payments w ++ [p]) w) = Some q.
Proof.
  unfold find_payment. cbn [w_payments set_payments]. induction (w_payments w) as [|x l IH]; [done|]. cbn.
  by destruct (pm_id x =? k).
Qed.

Lemma move_ok (w w' : World) : pay_move w w' -> pay_ok w -> pay_ok w'.
Proof.
  destruct 1 as [w w' [F1 F2 F3 F4 F5] Hp Ho|w i t m ps Ht|w f Hf|w p p' Hp Hid Htr Hone|w p Hid Htr Hone|w r Hid Hn Hfk|w k f Hf];
    intros [K1 K2 K3 K4 K5 K6 K7].
  - split; rewrite ?Hp, ?Ho, ?F2; try done. intros r Hr. unfold find_payment. rewrite Hp. by apply K7.
  - split; cbn; try done; cbn.
    + intros j t' [[<- <-]|[_ Hj]]%lookup_insert_Some; [by apply (K1 i t)|by apply K1].
    + intros p Hp. destruct (decide (pm_trip p = i)) as [->|N]; [rewrite lookup_insert_eq; by eexists|].
      rewrite lookup_insert_ne by done. by apply K3.
  - assert (forall p, p ∈ f <$> w_payments w -> exists q, p = f q /\ q ∈ w_payments w) as Hin by (intros p; apply list_elem_of_fmap).
    split; cbn; try done; cbn.
    + rewrite length_fmap, <- K2. rewrite <- list_fmap_compose. apply list_fmap_ext. intros n p Hp. apply Hf. by eapply list_elem_of_lookup_2.
    + intros p (q & -> & Hq)%Hin. destruct (Hf q Hq) as (_ & -> & _). by apply K3.
    + intros p q (p0 & -> & Hp)%Hin (q0 & -> & Hq)%Hin Ht Cp Cq. destruct (Hf p0 Hp) as (_ & E1 & C1), (Hf q0 Hq) as (_ & E2 & C2).
      f_equal. apply K4; try done; [congruence|by apply C1|by apply C2].
    + intros r Hr. change (is_Some (find_payment (po_payment r) (set_payments (f <$> w_payments w) w))).
      rewrite find_payment_map by (intros p Hp; apply Hf, Hp). apply fmap_is_Some. by apply K7.
  - destruct (find_payment_in _ _ _ Hp) as [Hin _].
    assert (forall x, x ∈ (fun q => if pm_id q =? pm_id p then p' else q) <$> w_payments w ->
              x = p' \/ (x ∈ w_payments w /\ pm_id x <> pm_id p)) as Hcase.
    { intros x (q & -> & Hq)%list_elem_of_fmap. destruct (Z.eqb_spec (pm_id q) (pm_id p)); [by left|by right]. }
    split; cbn; try done; cbn.
    + rewrite length_fmap, <- K2. rewrite <- list_fmap_compose. apply list_fmap_ext. intros n q _. cbn.
      destruct (Z.eqb_spec (pm_id q) (pm_id p)); [congruence|done].
    + intros x [->|[Hx _]]%Hcase; [rewrite Htr; by apply K3|by apply K3].
    + intros x y [->|[Hx Nx]]%Hcase [->|[Hy Ny]]%Hcase Ht Cx Cy; [done| | |by apply K4].
      * exfalso. apply Ny, Hone; [done|congruence|done].
      * exfalso. apply Nx, Hone; [done|congruence|done].
    + intros r Hr. change (is_Some (find_payment (po_payment r) (update_payment (pm_id p) (fun _ => p') w))).
      rewrite find_payment_update by (intros q _ _; exact Hid). apply fmap_is_Some. by apply K7.
  - assert (forall x, x ∈ w_payments w ++ [p] -> x ∈ w_payments w \/ x = p) as Hcase.
    { intros x [?|Hx%list_elem_of_singleton]%elem_of_app; [by left|by right]. }
    split; cbn; try done; cbn.
    + rewrite fmap_app, K2, length_app. cbn. rewrite Hid. rewrite Nat.add_1_r, seqZ_S. done.
    + intros x [Hx|Hx]%Hcase; [by apply K3|by subst x].
    + intros x y [Hx|Hx]%Hcase [Hy|Hy]%Hcase Ht Cx Cy; [by apply K4| | |by subst x y].
      * subst y. exfalso. by apply (Hone Cy x Hx).
      * subst x. exfalso. by apply (Hone Cx y Hy).
    + intros r Hr. destruct (K7 r Hr) as [q Hq]. exists q. by apply find_payment_app.
  - split; cbn; try done; cbn.
    + rewrite fmap_app, K5, length_app. cbn. rewrite Hid. rewrite Nat.add_1_r, seqZ_S. done.
    + rewrite fmap_app. apply NoDup_app. split; [done|]. split; [|apply NoDup_singleton].
      intros o (r0 & -> & Hr0)%list_elem_of_fmap Ho%list_elem_of_singleton.
      destruct (find_some_in (fun r => bool_decide (po_order r = po_order r0)) _ r0 Hr0) as [y Hy]; [by apply bool_decide_eq_true|].
      unfold find_order in Hn. rewrite <- Ho, Hy in Hn. done.
    + intros r0 [Hr|Hr%list_elem_of_singleton]%elem_of_app; [by apply K7|by subst r0].
  - assert (po_id <$> w_orders (update_order k f w) = po_id <$> w_orders w) as E1.
    { cbn. rewrite <- list_fmap_compose. apply list_fmap_ext. intros n r _. cbn. destruct (po_id r =? k); [apply Hf|done]. }
    assert (po_order <$> w_orders (update_order k f w) = po_order <$> w_orders w) as E2.
    { cbn. rewrite <- list_fmap_compose. apply list_fmap_ext. intros n r _. cbn. destruct (po_id r =? k); [apply Hf|done]. }
    split; try done; cbn -[update_order].
    + rewrite E1. cbn. by rewrite length_fmap.
    + by rewrite E2.
    + intros r (r0 & -> & Hr)%list_elem_of_fmap. destruct (K7 r0 Hr) as [q Hq]. exists q.
      destruct (po_id r0 =? k); [|exact Hq]. destruct (Hf r0) as (_ & _ & ->). exact Hq.
Qed.

Lemma moves_ok (w w' : World) : moves w w' -> pay_ok w -> pay_ok w'.
Proof. induction 1; eauto using move_ok. Qed.

(** ** Every endpoint is made of them *)

Lemma moves_money (w w' : World) : pay_frame w w' -> w_payments w' = w_payments w -> w_orders w' = w_orders w -> moves w w'.
Proof. intros. apply rtc_once. by apply mv_money. Qed.

Lemma moves_db (db : Db) (w : World) : clock db = now w -> moves w (with_db db w).
Proof. intros H. by apply moves_money. Qed.

Lemma moves_update (k : Z) (f : PaymentRow -> PaymentRow) (w : World) :
  (forall p, pm_id (f p) = pm_id p /\ pm_trip (f p) = pm_trip p /\ (completed_row (f p) -> completed_row p)) ->
  moves w (update_payment k f w).
Proof. intros Hf. apply rtc_once, mv_rows. intros p _. destruct (pm_id p =? k); [apply Hf|done]. Qed.

Lemma moves_status (k : Z) (s : pay_status) (w : World) : s <> PayCompleted -> moves w (update_payment k (with_pay_status s) w).
Proof. intros Hs. apply moves_update. intros p. split; [done|]. split; [done|]. by intros H%(fun H => Hs H). Qed.

Lemma moves_order_update (k : Z) (f : OrderRow -> OrderRow) (w : World) :
  (forall r, po_id (f r) = po_id r /\ po_order (f r) = po_order r /\ po_payment (f r) = po_payment r) -> moves w (update_order k f w).
Proof. intros. by apply rtc_once, mv_orders. Qed.

Lemma remember_spec (k : Z) (o : option string) (g : string) (w : World) (r : option OrderRow) (w' : World) :
  is_Some (find_payment k w) -> remember k o g w = (r, w') ->
  moves w w' /\ w_payments w' = w_payments w /\ w_db w' = w_db w /\ w_trips w' = w_trips w /\ w_refunds w' = w_refunds w /\
  match o with
  | Some o => if truthy (Some o) then exists row, r = Some row /\ find_order o w' = Some row /\
                (find_order o w = Some row /\ w' = w \/ find_order o w = None /\ po_late_refund row = REFUND_NONE /\ po_payment row = k)
              else r = None /\ w' = w
  | None => r = None /\ w' = w
  end.
Proof.
  intros Hk. unfold remember. destruct o as [o|]; [|by intros [= <- <-]].
  destruct (truthy (Some o)) eqn:Ho; cbn [negb]; [|by intros [= <- <-]].
  destruct (find_order o w) as [row|] eqn:Ef; intros [= <- <-].
  - do 5 (split; [done|]). exists row. split; [done|]. split; [done|]. by left.
  - split; [apply rtc_once; by apply mv_order|]. do 4 (split; [done|]). eexists. split; [done|]. split; [|by right].
    unfold find_order in *. cbn. rewrite find_app by exact Ef. cbn. by rewrite bool_decide_true.
Qed.

Lemma raise_alert_frame (a : AlertTable) (w : World) : pay_frame w (with_db (set_alerts a (w_db w)) w).
Proof. done. Qed.

Lemma record_late_moves (env : PayEnv) (t : Trip) (p : PaymentRow) (g taken src : string) (o : option OrderRow) (w w' : World)
    (cb : option Callback) : record_late env t p g taken src o w = Ok (cb, w') -> moves w w'.
Proof.
  unfold record_late. set (w1 := if bool_decide (pm_status p = PayCompleted) then w else _).
  assert (moves w w1) as H1.
  { unfold w1. destruct (bool_decide _); [done|]. apply moves_update. intros q. by destruct (_ && _). }
  intros H. apply res_bind_ok in H as (a & _ & H). apply res_bind_ok in H as (tx & _ & H). injection H as _ <-.
  etransitivity; [exact H1|]. by apply moves_db.
Qed.

Lemma record_moves (env : PayEnv) (t : Trip) (p : PaymentRow) (g : string) (gp : option string) (src : string) (o : option string)
    (w w' : World) (cb : option Callback) :
  is_Some (find_payment (pm_id p) w) -> record env t p g gp src o w = Ok (cb, w') -> moves w w'.
Proof.
  intros Hp. unfold record. destruct (remember _ _ _ w) as [r w1] eqn:Er. apply remember_spec in Er as (H1 & _); [|done].
  destruct r as [r|]; [|intros H; etransitivity; [exact H1|by eapply record_late_moves]].
  destruct (_ && _); [by intros [= _ <-]|]. intros H. etransitivity; [exact H1|].
  etransitivity; [|by eapply record_late_moves]. by apply moves_order_update.
Qed.

Lemma tell_alert_frame (sid : string) (s : late_state) (i : string) (w : World) :
  pay_frame w (tell_alert sid s i w) /\ w_payments (tell_alert sid s i w) = w_payments w /\
  w_orders (tell_alert sid s i w) = w_orders w /\ w_refunds (tell_alert sid s i w) = w_refunds w /\
  wallets (w_db (tell_alert sid s i w)) = wallets (w_db w) /\ txns (w_db (tell_alert sid s i w)) = txns (w_db w) /\
  settlements (w_db (tell_alert sid s i w)) = settlements (w_db w).
Proof. unfold tell_alert. by destruct (List.find _ _). Qed.

Lemma late_written_moves (p : PaymentRow) (o : option OrderRow) (s : late_state) (i : string) (w : World) :
  moves w (late_written p o s i w).
Proof.
  unfold late_written. set (w1 := match o with Some _ => _ | None => w end).
  assert (moves w w1) as H1 by (unfold w1; destruct o; [by apply moves_order_update|done]).
  set (w2 := if bool_decide (pm_status p = PayCompleted) then w1 else _).
  assert (moves w1 w2) as H2.
  { unfold w2. destruct (bool_decide (pm_status p = PayCompleted)); [done|]. apply moves_update. intros q. by destruct (bool_decide (s = REFUND_DONE)). }
  etransitivity; [exact H1|]. etransitivity; [exact H2|]. destruct (tell_alert_frame (source_id o (pm_id p)) s i w2) as (F & E1 & E2 & _).
  by apply moves_money.
Qed.

Lemma late_refund_moves (env : PayEnv) (cb : Callback) (w : World) : moves w (late_refund env cb w).2.
Proof.
  unfold late_refund. destruct (find_payment _ w) as [p|]; [|done]. set (o := _ ← cb_order cb; _).
  destruct (late_done p o); [done|]. destruct (late_ask env p o) as [i| |] eqn:Ea; cbn [outcome_of snd]; [|apply late_written_moves..].
  etransitivity; [|apply late_written_moves]. by apply moves_money.
Qed.

Lemma after_commit_moves (env : PayEnv) (cb : option Callback) (w : World) : moves w (after_commit env cb w).
Proof. destruct cb as [cb|]; [apply late_refund_moves|done]. Qed.

Lemma too_late_moves (env : PayEnv) (t : Trip) (p : PaymentRow) (g : string) (gp : option string) (src : string) (o : option string)
    (w : World) : is_Some (find_payment (pm_id p) w) -> moves w (too_late env t p g gp src o w).2.
Proof.
  intros Hp. unfold too_late. destruct (record _ _ _ _ _ _ _ w) as [[cb w']|e] eqn:E; [|done]. cbn [snd].
  etransitivity; [by eapply record_moves|apply after_commit_moves].
Qed.

Lemma history_frame (t : LiveTrip) (d : Z) (p : PaymentRow) (gp : option string) (once : bool) (w w' : World) :
  paid_history t d p gp once w = Ok w' -> exists l, w' = set_paid l w.
Proof.
  unfold paid_history. destruct (_ && _); [intros [= <-]; exists (w_paid w); by destruct w|]. intros H.
  apply res_bind_ok in H as (a & _ & H). apply res_bind_ok in H as (h & _ & H). injection H as <-. by eexists.
Qed.

Lemma others_completed (p : PaymentRow) (w : World) :
  existsb (fun q => bool_decide (pm_status q = PayCompleted) && negb (pm_id q =? pm_id p)) (payments_of (pm_trip p) w) = false ->
  forall q, q ∈ w_payments w -> pm_trip q = pm_trip p -> completed_row q -> pm_id q = pm_id p.
Proof.
  intros H q Hq Ht Hc. destruct (Z.eq_dec (pm_id q) (pm_id p)) as [|N]; [done|]. exfalso.
  apply not_true_iff_false in H. apply H, existsb_exists. exists q. split.
  - apply list_elem_of_In, elem_of_filter_b. split; [done|by apply Z.eqb_eq].
  - rewrite bool_decide_true by done. by rewrite (proj2 (Z.eqb_neq _ _) N).
Qed.

(** Completing a payment: what was saved, and what the driver was settled. *)
Lemma complete_ok (env : PayEnv) (p : PaymentRow) (gp : option string) (once : bool) (w w' : World) :
  complete env p gp once w = Ok w' ->
  (forall q, q ∈ w_payments w -> pm_trip q = pm_trip p -> completed_row q -> pm_id q = pm_id p) /\
  exists l, let w1 := update_payment (pm_id p) (fun _ => with_pay_status PayCompleted p) w in
  match w_trips w !! pm_trip p with
  | None => w' = w1
  | Some t =>
    let t := paid_online_trip t in
    match lt_driver t with
    | None => w' = save_trip (pm_trip p) t w1
    | Some d => exists x db, settle_paid_by_platform (te_settle (pe_trip env)) (lt_trip t) (pm_amount p) None (w_db w) = Ok (x, db) /\
                  w' = with_db db (set_paid l (save_trip (pm_trip p) t w1))
    end
  end.
Proof.
  unfold complete, save_completed. destruct (existsb _ _) eqn:Ex; [done|]. cbn [res_bind].
  intros H. split; [by apply others_completed|]. revert H. set (w1 := update_payment (pm_id p) _ w).
  change (w_trips w1) with (w_trips w). destruct (w_trips w !! pm_trip p) as [t|]; [|intros [= <-]; by exists []].
  destruct (lt_driver (paid_online_trip t)) as [d|]; [|intros [= <-]; by exists []].
  intros H. apply res_bind_ok in H as (w2 & [l ->]%history_frame & H). apply res_bind_ok in H as ([x db] & Hs & H).
  injection H as <-. exists l, x, db. split; [exact Hs|done].
Qed.

Lemma complete_moves (env : PayEnv) (p p0 : PaymentRow) (gp : option string) (once : bool) (w w' : World) :
  find_payment (pm_id p) w = Some p0 -> pm_trip p = pm_trip p0 -> complete env p gp once w = Ok w' -> moves w w'.
Proof.
  intros Hp Ht [Hone [l H]]%complete_ok. destruct (find_payment_in _ _ _ Hp) as [Hin Hid].
  assert (moves w (update_payment (pm_id p) (fun _ => with_pay_status PayCompleted p) w)) as H1.
  { apply rtc_once. rewrite <- Hid. apply mv_done; [by rewrite Hid|done|done|].
    intros q Hq Htq Hc. rewrite Hid. apply Hone; [done|congruence|done]. }
  cbn zeta in H. destruct (w_trips w !! pm_trip p) as [t|] eqn:Et; [|by subst w'].
  assert (moves w (save_trip (pm_trip p) (paid_online_trip t) (update_payment (pm_id p) (fun _ => with_pay_status PayCompleted p) w))) as H2
    by (etransitivity; [exact H1|apply rtc_once; by apply mv_trip]).
  destruct (lt_driver (paid_online_trip t)) as [d|]; [|by subst w'].
  destruct H as (x & db & Hs%paid_clock & ->). etransitivity; [exact H2|]. by apply moves_money.
Qed.

Lemma trip_of_some (p : PaymentRow) (w : World) (t : Trip) :
  trip_of p w = Some t -> exists l, w_trips w !! pm_trip p = Some l /\ t = lt_trip l.
Proof. unfold trip_of. intros (l & ? & ?)%fmap_Some. by exists l. Qed.

Lemma answered_moves (a : pay_answer) (w : World) (r : res db_error World) :
  (forall w', r = Ok w' -> moves w w') -> moves w (answered a w r).2.
Proof. intros H. destruct r as [w'|]; cbn; [by apply H|done]. Qed.

Lemma settled_by_row (o : string) (p : PaymentRow) : pm_id (settled_by o p) = pm_id p /\ pm_trip (settled_by o p) = pm_trip p /\
  pm_amount (settled_by o p) = pm_amount p /\ pm_status (settled_by o p) = pm_status p /\
  pm_gateway_payment (settled_by o p) = pm_gateway_payment p.
Proof. unfold settled_by. by destruct (truthy _). Qed.

Lemma verify_locked_moves (env : PayEnv) (k : Z) (g o : string) (v : option string) (w : World) :
  moves w (verify_locked env k g o v w).2.
Proof.
  unfold verify_locked. destruct (find_payment k w) as [p|] eqn:Ep; [|done]. destruct (find_payment_in _ _ _ Ep) as [_ Hid].
  destruct (trip_of p w) as [t|]; [|done].
  assert (is_Some (find_payment (pm_id p) w)) as Hs by (rewrite Hid, Ep; by eexists).
  destruct (is_late_capture _ _ _); [by apply too_late_moves|]. destruct (bool_decide _); [done|].
  destruct (superseded _ w); [by apply too_late_moves|]. set (p' := settled_by o _).
  assert (pm_id p' = pm_id p /\ pm_trip p' = pm_trip p) as [Hi Ht].
  { unfold p'. destruct (settled_by_row o (with_captured v (pm_cf_payment p) p)) as (-> & -> & _). done. }
  destruct (List.find _ _) as [q|] eqn:Eq.
  - set (w1 := update_payment (pm_id q) (with_pay_status PayFailed) w).
    assert (moves w w1) as H1 by (by apply moves_status).
    unfold answered. destruct (complete _ _ _ _ w1) as [w'|] eqn:Ec; cbn [snd]; [|done]. etransitivity; [exact H1|].
    apply (complete_moves env p' (if pm_id p =? pm_id q then with_pay_status PayFailed p else p) None false); [| |exact Ec].
    + assert (find_payment (pm_id p) w = Some p) as Ep' by (by rewrite Hid). unfold w1. rewrite Hi, find_payment_update by done.
      by rewrite Ep'.
    + by destruct (pm_id p =? pm_id q).
  - apply answered_moves. intros w' H. eapply (complete_moves env p' p); [by rewrite Hi, Hid|exact Ht|exact H].
Qed.

Lemma webhook_locked_moves (env : PayEnv) (k : Z) (g o : string) (v : option string) (w : World) :
  moves w (webhook_locked env k g o v w).2.
Proof.
  unfold webhook_locked. destruct (find_payment k w) as [p|] eqn:Ep; [|done]. destruct (find_payment_in _ _ _ Ep) as [_ Hid].
  destruct (trip_of p w) as [t|]; [|done].
  assert (is_Some (find_payment (pm_id p) w)) as Hs by (rewrite Hid, Ep; by eexists).
  destruct (_ || _); [by apply too_late_moves|]. destruct (bool_decide (pm_status p = PayCompleted)); [done|].
  apply answered_moves. intros w' H. destruct (settled_by_row o p) as (Hi & Ht & _).
  revert H. set (p' := with_captured _ _ _). intros H.
  apply (complete_moves env p' p (Some (py_str v)) true); [change (find_payment (pm_id (settled_by o p)) w = Some p); by rewrite Hi, Hid|exact Ht|exact H].
Qed.

Lemma poll_locked_moves (env : PayEnv) (k : Z) (g src o : string) (info : OrderInfo) (w : World) :
  moves w (poll_locked env k g src o info w).2.
Proof.
  unfold poll_locked. destruct (find_payment k w) as [p|] eqn:Ep; [|done]. destruct (find_payment_in _ _ _ Ep) as [_ Hid].
  destruct (trip_of p w) as [t|]; [|done]. destruct (bool_decide _); [done|].
  destruct (superseded p w); [apply too_late_moves; rewrite Hid, Ep; by eexists|].
  apply answered_moves. intros w' H. destruct (settled_by_row o p) as (Hi & Ht & _).
  refine (complete_moves env _ p _ _ w w' _ Ht H). by rewrite Hi, Hid.
Qed.

Lemma verify_payment_moves (env : PayEnv) (u : Z) (o gp sg gn : option string) (w : World) :
  moves w (verify_payment env u o gp sg gn w).2.
Proof.
  unfold verify_payment. destruct (negb _); [done|]. destruct (payment_for_order _ _ w) as [p|]; [|done].
  destruct (_ && _); [done|]. destruct (gateway_named _ _) as [g|]; [|done]. destruct (negb (gw_live g)); [done|].
  destruct (bool_decide (gw_name g = RAZORPAY)).
  - destruct (negb _); [done|]. destruct (negb (gw_verify _ _ _ _)); [done|]. destruct (negb _); [done|]. apply verify_locked_moves.
  - destruct (gw_verify _ _ _ _); [apply verify_locked_moves|by apply moves_status].
Qed.

Lemma handle_success_moves (env : PayEnv) (g : Gateway) (o gp : option string) (w : World) : moves w (handle_success env g o gp w).2.
Proof.
  unfold handle_success. destruct (negb _); [done|]. destruct (payment_for_order _ _ w) as [p|]; [|done].
  destruct (_ && _); [done|]. destruct (if gw_live g then _ else _) as [|info|]; try done. destruct (negb _); [done|].
  destruct (parse_input _) as [a|]; [|done]. destruct (to_minor_dec _ _) as [m|]; [|done]. destruct (negb _); [done|].
  apply webhook_locked_moves.
Qed.

Lemma settle_if_paid_moves (env : PayEnv) (i : Z) (g : Gateway) (w : World) : moves w (settle_if_paid env i g w).2.
Proof.
  unfold settle_if_paid. destruct (negb _); [done|]. destruct (latest _ i w) as [p|]; [|done]. destruct (bool_decide _); [done|].
  destruct (first_paid g _) as [[o info]|]; [|done]. pose proof (poll_locked_moves env (pm_id p) (gw_name g) "poll" o info w) as H.
  by destruct (poll_locked _ _ _ _ _ _ w).
Qed.

Lemma reconcile_one_moves (env : PayEnv) (w : World) (p : PaymentRow) : moves w (reconcile_one env w p).
Proof.
  unfold reconcile_one. destruct (order_ids p w); [done|]. destruct (gateway_named _ _) as [g|]; [|done].
  destruct (negb _); [done|]. destruct (first_paid g _) as [[o info]|]; [|done]. apply poll_locked_moves.
Qed.

Lemma reconcile_moves (env : PayEnv) (w : World) : moves w (reconcile_stuck_payments env w).
Proof.
  unfold reconcile_stuck_payments. generalize (take RECON_BATCH_SIZE (List.filter (stuck_payment (now w)) (w_payments w))). intros l.
  revert w. induction l as [|p l IH]; intros w; [done|]. cbn. etransitivity; [apply reconcile_one_moves|apply IH].
Qed.

Lemma create_payment_new (t : LiveTrip) (a : dec) (m : string) (s : pay_status) (g : string) (w w' : World) :
  create_payment t a m s g w = Ok w' ->
  exists row, w' = set_payments (w_payments w ++ [row]) w /\ pm_id row = Z.of_nat (length (w_payments w)) /\
    pm_trip row = trip_id (lt_trip t) /\ pm_status row = s /\ pm_method row = m /\ pm_user row = lt_rider t.
Proof.
  unfold create_payment. intros H. apply res_bind_ok in H as (n & _ & H). destruct (_ && _); [done|]. injection H as <-.
  eexists. split; [done|]. done.
Qed.

Lemma new_payment_ok (t : LiveTrip) (i : Z) (a : dec) (m : string) (s : pay_status) (g : string) (o : option string) (w w' : World) (n : Z) :
  pay_ok w -> w_trips w !! i = Some t -> s <> PayCompleted -> new_payment t a m s g o w = Ok (n, w') ->
  moves w w' /\ is_Some (find_payment n w') /\ n = Z.of_nat (length (w_payments w)).
Proof.
  intros Hok Ht Hs. unfold new_payment. intros H. apply res_bind_ok in H as (w1 & (row & -> & Hid & Htr & Hst & _)%create_payment_new & H).
  injection H as <- <-. set (w1 := set_payments (w_payments w ++ [row]) w).
  assert (is_Some (find_payment (Z.of_nat (length (w_payments w))) w1)) as Hf.
  { apply (find_some_in _ _ row); [|by apply Z.eqb_eq]. cbn. apply elem_of_app. right. by apply list_elem_of_singleton. }
  split; [|split; [|done]].
  - etransitivity; [apply rtc_once, mv_new; [exact Hid| |]|by apply moves_update].
    + rewrite Htr, (ok_trips _ Hok i t Ht), Ht. by eexists.
    + unfold completed_row. congruence.
  - rewrite find_payment_update by done. by apply fmap_is_Some.
Qed.

Lemma latest_in (f : PaymentRow -> bool) (i : Z) (w : World) (p : PaymentRow) :
  latest f i w = Some p -> p ∈ w_payments w /\ pm_trip p = i /\ f p = true.
Proof.
  intros [H Hf]%find_in. rewrite elem_of_reverse in H. apply elem_of_filter_b in H as [H Ht%Z.eqb_eq]. done.
Qed.

Lemma row_found (w : World) (p : PaymentRow) : p ∈ w_payments w -> is_Some (find_payment (pm_id p) w).
Proof. intros H. apply (find_some_in _ _ p H). apply Z.eqb_refl. Qed.

Lemma create_order_moves (env : PayEnv) (u i : Z) (w : World) : pay_ok w -> moves w (create_order env u i w).2.
Proof.
  intros Hok. unfold create_order. destruct (w_trips w !! i) as [t|] eqn:Et; [|done].
  do 5 (match goal with |- moves _ (if ?b then _ else _).2 => destruct b; [done|] end).
  destruct (from_minor_Z _ _) as [a|]; [|done].
  do 2 (match goal with |- moves _ (if ?b then _ else _).2 => destruct b; [done|] end).
  destruct (online_payment_currency _ _) as [c|]; [|done]. destruct (gw_create_order _ _ _) as [o|]; [|done].
  set (g := gw_name _). set (saved := match latest _ i w with Some _ => _ | None => _ end).
  assert (forall k w', saved = Ok (k, w') -> moves w w' /\ is_Some (find_payment k w')) as Hs.
  { assert (forall k w', new_payment t a "online" PayProcessing g (Some o) w = Ok (k, w') -> moves w w' /\ is_Some (find_payment k w')) as Hn.
    { intros k w' H. by apply (new_payment_ok t i) in H as (H1 & H2 & _). }
    intros k w'. unfold saved. destruct (latest _ i w) as [p|] eqn:El; [|apply Hn].
    destruct (reusable p); [|apply Hn]. intros H. apply res_bind_ok in H as (m & _ & H). injection H as <- <-.
    split; [by apply moves_update|]. rewrite find_payment_update by done. apply fmap_is_Some, row_found.
    by apply latest_in in El as [? _]. }
  destruct saved as [[k w']|]; [|done]. destruct (Hs k w' eq_refl) as [H1 H2]. cbn [snd].
  destruct (remember k (Some o) g w') as [r w2] eqn:Er. apply remember_spec in Er as (H3 & _); [|done]. by etransitivity.
Qed.

Lemma moves_save (i : Z) (t : LiveTrip) (m : option payment) (ps : option string) (w w' : World) :
  moves w w' -> w_trips w' !! i = Some t -> moves w (save_trip i (paid_by m ps t) w').
Proof. intros H Ht. etransitivity; [exact H|]. by apply rtc_once, mv_trip. Qed.

(** The first transaction of a switch or a retry settles the trip when it changes it at all. *)
Lemma complete_trips (env : PayEnv) (p : PaymentRow) (gp : option string) (once : bool) (w w' : World) :
  complete env p gp once w = Ok w' -> w_trips w' = w_trips w \/
  exists t, w_trips w !! pm_trip p = Some t /\ w_trips w' = <[pm_trip p := paid_online_trip t]> (w_trips w).
Proof.
  intros [_ [l H]]%complete_ok. cbn zeta in H. destruct (w_trips w !! pm_trip p) as [t|]; [|left; by subst w'].
  right. exists t. split; [done|]. destruct (lt_driver _); [destruct H as (x & db & _ & ->)|subst w']; done.
Qed.

Lemma record_late_trips (env : PayEnv) (t : Trip) (p : PaymentRow) (g taken src : string) (o : option OrderRow) (w w' : World)
    (cb : option Callback) : record_late env t p g taken src o w = Ok (cb, w') -> w_trips w' = w_trips w.
Proof.
  unfold record_late. intros H. apply res_bind_ok in H as (a & _ & H). apply res_bind_ok in H as (tx & _ & H). injection H as _ <-.
  by destruct (bool_decide _).
Qed.

Lemma remember_trips (k : Z) (o : option string) (g : string) (w : World) : w_trips (remember k o g w).2 = w_trips w.
Proof. unfold remember. destruct o; [|done]. destruct (negb _); [done|]. by destruct (find_order _ _). Qed.

Lemma late_written_trips (p : PaymentRow) (o : option OrderRow) (s : late_state) (i : string) (w : World) :
  w_trips (late_written p o s i w) = w_trips w.
Proof.
  unfold late_written. destruct (tell_alert_frame (source_id o (pm_id p)) s i
    (if bool_decide (pm_status p = PayCompleted) then match o with Some r => update_order (po_id r) (fun r => with_late_refund (po_late_payment r) s i r) w | None => w end
     else update_payment (pm_id p) (fun q => with_late (Some (from_option fst EmptyString (pm_late q), s))
        (if bool_decide (s = REFUND_DONE) then with_pay_status PayRefunded q else q))
        (match o with Some r => update_order (po_id r) (fun r => with_late_refund (po_late_payment r) s i r) w | None => w end))) as ([_ F _ _ _] & _).
  rewrite F. by destruct (bool_decide _), o.
Qed.

Lemma too_late_trips (env : PayEnv) (t : Trip) (p : PaymentRow) (g : string) (gp : option string) (src : string) (o : option string)
    (w : World) : w_trips (too_late env t p g gp src o w).2 = w_trips w.
Proof.
  unfold too_late. destruct (record _ _ _ _ _ _ _ w) as [[cb w']|e] eqn:E; [|done]. cbn [snd].
  assert (w_trips w' = w_trips w) as <-.
  { revert E. unfold record. pose proof (remember_trips (pm_id p) (or_text o (or_text (pm_order p) (pm_cf_order p)))
      (if truthy (Some g) then g else pm_gateway p) w) as Hr.
    destruct (remember _ _ _ w) as [[r|] w1]; cbn in Hr.
    - destruct (_ && _); [by intros [= _ <-]|]. intros H%record_late_trips. by rewrite H.
    - intros H%record_late_trips. by rewrite H. }
  destruct cb as [cb|]; [|done]. cbn. unfold late_refund. destruct (find_payment _ w') as [q|]; [|done].
  destruct (late_done _ _); [done|]. destruct (late_ask _ _ _); cbn [outcome_of snd]; by rewrite late_written_trips.
Qed.

Lemma poll_unsettled_trips (env : PayEnv) (k : Z) (g src o : string) (info : OrderInfo) (w : World) :
  (poll_locked env k g src o info w).1 <> Settled -> w_trips (poll_locked env k g src o info w).2 = w_trips w.
Proof.
  unfold poll_locked. destruct (find_payment k w) as [p|]; [|done]. destruct (trip_of p w) as [t|]; [|done].
  destruct (bool_decide _); [done|]. destruct (superseded p w); [by rewrite too_late_trips|].
  by destruct (complete _ _ _ _ w).
Qed.

Lemma settle_if_paid_false (env : PayEnv) (i : Z) (g : Gateway) (w w' : World) :
  settle_if_paid env i g w = (Some false, w') -> moves w w' /\ w_trips w' = w_trips w.
Proof.
  intros H. split; [pose proof (settle_if_paid_moves env i g w) as M; by rewrite H in M|]. revert H.
  unfold settle_if_paid. destruct (negb _); [by intros [= <-]|]. destruct (latest _ i w) as [p|]; [|by intros [= <-]].
  destruct (bool_decide _); [done|]. destruct (first_paid g _) as [[o info]|]; [|by intros [= <-]].
  pose proof (poll_unsettled_trips env (pm_id p) (gw_name g) "poll" o info w) as H.
  destruct (poll_locked _ _ _ _ _ _ w) as [a w1]. cbn in H. intros [= Ha <-]. apply H. by intros ->.
Qed.

Lemma switch_locked_moves (env : PayEnv) (t : LiveTrip) (i k : Z) (online : bool) (w : World) :
  pay_ok w -> w_trips w !! i = Some t -> moves w (switch_locked env t i k online w).2.
Proof.
  intros Hok Ht. unfold switch_locked. destruct (find_payment k w) as [p|]; [|done]. destruct (bool_decide _); [done|].
  set (w1 := update_payment k (with_pay_status PayFailed) w). assert (moves w w1) as H1 by (by apply moves_status).
  destruct (from_minor_Z _ _) as [a|]; [|done]. destruct (_ || _); [exact H1|].
  pose proof (moves_ok _ _ H1 Hok) as Hok1.
  assert (forall m g o order n w2, new_payment t a m PayPending g o w1 = Ok (n, w2) ->
    moves w (save_trip i (paid_by order (Some "pending") t) (update_payment k (with_replacement n) w2))) as Hn.
  { intros m g o order n w2 H. assert (w_trips w2 = w_trips w) as Htr.
    { unfold new_payment in H. apply res_bind_ok in H as (w3 & (row & -> & _)%create_payment_new & H). injection H as _ <-. done. }
    apply (new_payment_ok t i) in H as (H2 & _); [|done..]. apply moves_save; [|cbn; by rewrite Htr].
    etransitivity; [exact H1|]. etransitivity; [exact H2|]. by apply moves_update. }
  destruct online.
  - destruct (online_payment_currency _ _) as [c|]; [|exact H1].
    destruct (new_payment _ _ _ _ _ _ w1) as [[n w2]|] eqn:E; cbn [res_bind snd]; [|done]. by eapply Hn.
  - destruct (new_payment _ _ _ _ _ _ w1) as [[n w2]|] eqn:E; cbn [res_bind snd]; [|done]. by eapply Hn.
Qed.

Lemma switch_moves (env : PayEnv) (u i : Z) (m : string) (w : World) : pay_ok w -> moves w (switch_payment_method env u i m w).2.
Proof.
  intros Hok. unfold switch_payment_method. destruct (negb _); [done|]. destruct (_ && _); [done|].
  destruct (w_trips w !! i) as [t|] eqn:Et; [|done]. destruct (negb _); [done|]. destruct (negb _); [done|].
  destruct (latest _ i w) as [p|]; [|done].
  destruct (settle_if_paid env i _ w) as [r w1] eqn:Es.
  assert (moves w w1) as H1 by (pose proof (settle_if_paid_moves env i (gateway_of_trip (pe_providers env) (lt_trip t)) w) as H; by rewrite Es in H).
  destruct r as [[]|]; [exact H1| |exact H1]. apply settle_if_paid_false in Es as [_ Htr].
  etransitivity; [exact H1|]. apply switch_locked_moves; [by eapply moves_ok|by rewrite Htr].
Qed.

Lemma retry_moves (env : PayEnv) (u i : Z) (w : World) : moves w (retry_payment env u i w).2.
Proof.
  unfold retry_payment. destruct (w_trips w !! i) as [t|] eqn:Et; [|done]. destruct (negb _); [done|].
  destruct (latest _ i w) as [p|]; [|done].
  destruct (settle_if_paid env i _ w) as [r w1] eqn:Es.
  assert (moves w w1) as H1 by (pose proof (settle_if_paid_moves env i (gateway_of_trip (pe_providers env) (lt_trip t)) w) as H; by rewrite Es in H).
  destruct r as [[]|]; [exact H1| |exact H1]. apply settle_if_paid_false in Es as [_ Htr].
  destruct (bool_decide _); [exact H1|]. destruct (from_minor_Z _ _); [|exact H1]. etransitivity; [exact H1|].
  unfold retry_locked. destruct (find_payment _ w1) as [q|]; [|done]. destruct (bool_decide _); [done|].
  destruct (online_payment_currency _ _) as [c|]; [|done]. cbn [snd]. rewrite status_paid_by.
  apply moves_save; [by apply moves_update|cbn; by rewrite Htr].
Qed.

Lemma closed_moves (i n : Z) (w : World) : moves w (closed_by_wallet i n w).
Proof.
  apply rtc_once. unfold closed_by_wallet. apply mv_rows. intros p _. destruct (negb _); [done|].
  destruct (bool_decide (pm_status p ∈ _)), (_ && _); done.
Qed.

Lemma not_completed (i : Z) (w : World) :
  existsb (fun p => bool_decide (pm_status p = PayCompleted)) (payments_of i w) = false ->
  forall q, q ∈ w_payments w -> pm_trip q = i -> ~ completed_row q.
Proof.
  intros H q Hq Ht Hc. apply not_true_iff_false in H. apply H, existsb_exists. exists q. split; [|by apply bool_decide_eq_true].
  apply list_elem_of_In, elem_of_filter_b. split; [done|by apply Z.eqb_eq].
Qed.

Lemma closed_row (i n : Z) (w : World) (q : PaymentRow) :
  q ∈ w_payments (closed_by_wallet i n w) ->
  exists p, p ∈ w_payments w /\ pm_id q = pm_id p /\ pm_trip q = pm_trip p /\ (completed_row q -> completed_row p).
Proof.
  cbn. intros (p & -> & Hp)%list_elem_of_fmap. exists p. split; [done|]. destruct (negb _); [done|].
  destruct (bool_decide (pm_status p ∈ _)), (_ && _); done.
Qed.

Lemma charge_moves (env : PayEnv) (t : LiveTrip) (i m : Z) (c : string) (wal : Wallet) (w : World) :
  pay_ok w -> w_trips w !! i = Some t -> existsb (fun p => bool_decide (pm_status p = PayCompleted)) (payments_of i w) = false ->
  moves w (charge_wallet env t i m c wal w).2.
Proof.
  intros Hok Ht Hnone. unfold charge_wallet. destruct (create_txn _ _ _ _ _ _ _ _) as [[x db]|] eqn:Ex; [|done].
  apply create_txn_clock in Ex. cbn in Ex.
  set (row := wallet_row t m c w). set (closed := closed_by_wallet i (pm_id row) w).
  set (w1 := set_payments (w_payments closed ++ [row]) (with_db db closed)).
  set (settled := match _ with Some m => _ | None => _ end).
  assert (forall db', settled = Ok db' -> clock db' = clock db) as Hc.
  { intros db'. unfold settled. destruct (ts_payment_method <$> _) as [pm|].
    - destruct (bool_decide _); [|by intros [= <-]]. intros H. apply res_bind_ok in H as ([y d] & H%paid_clock & E). by injection E as <-.
    - intros H. apply res_bind_ok in H as ([y d] & H%settle_or_defer_clock & E). by injection E as <-. }
  destruct settled as [db'|]; [|done]. specialize (Hc db' eq_refl). cbn [snd].
  assert (moves w closed) as H1 by apply closed_moves.
  assert (moves closed w1) as H2.
  { etransitivity; [by apply (moves_db db)|]. apply rtc_once. apply (mv_new (with_db db closed) row).
    - cbn. unfold closed. cbn. by rewrite length_fmap.
    - cbn. rewrite (ok_trips _ Hok i t Ht). change (w_trips closed) with (w_trips w). rewrite Ht. by eexists.
    - intros _ q Hq Htq Hcq. apply closed_row in Hq as (p & Hp & _ & Et & Cp). cbn in Htq. rewrite (ok_trips _ Hok i t Ht) in Htq.
      apply (not_completed i w Hnone p Hp); [congruence|by apply Cp]. }
  etransitivity; [exact H1|]. etransitivity; [exact H2|].
  etransitivity; [apply (moves_save i t (Some (OtherMethod "wallet")) (Some "completed") w1 w1); [done|exact Ht]|].
  apply moves_db. unfold now. cbn. congruence.
Qed.

Lemma pay_trip_moves (env : PayEnv) (u : Z) (a b : option string) (n : pynum) (w : World) :
  pay_ok w -> moves w (pay_trip env u a b n w).2.
Proof.
  intros Hok. unfold pay_trip. destruct (trip_id_from a b) as [i|]; [|done]. destruct (_ && _); [done|].
  destruct (w_trips w !! i) as [t|] eqn:Et; [|done]. do 2 (destruct (negb _); [done|]). destruct (replay _ _ _); [done|].
  destruct (existsb _ (payments_of i w)) eqn:Ec; [done|]. cbn [orb]. destruct (bool_decide (payment_status t = _)); [done|].
  destruct (bool_decide _); [done|]. destruct (_ <=? 0); [done|]. 
  match goal with |- moves _ (match ?x with Ok _ => _ | Err _ => _ end).2 => destruct x as [[]|]; try done end.
  destruct (wallets _ !! _) as [wal|]; [|done]. destruct (_ && _); [done|]. destruct (_ <? _); [done|]. by apply charge_moves.
Qed.

Lemma refund_book_moves (env : PayEnv) (t : LiveTrip) (p : PaymentRow) (a : dec) (n : Z) (md : refund_mode) (w w' : World) :
  w_trips w !! pm_trip p = Some t -> book_refund env t p a n md w = Ok w' -> moves w w'.
Proof.
  intros Ht. unfold book_refund. set (w1 := set_actions _ w). set (full := refundable_minor t w1 =? 0).
  set (w2 := if full then _ else w1).
  assert (moves w w2) as H2.
  { assert (moves w w1) as H1 by (by apply moves_money). unfold w2. destruct full; [|exact H1]. rewrite status_paid_by.
    apply moves_save; [|exact Ht]. etransitivity; [exact H1|]. by apply (moves_status (pm_id p) PayRefunded w1). }
  destruct (lt_driver t) as [d|]; [|by intros [= <-]]. intros H. apply res_bind_ok in H as (w3 & H3 & H).
  apply res_bind_ok in H as (h & _ & H). injection H as <-. etransitivity; [exact H2|]. etransitivity; [|by apply (moves_money w3)].
  destruct full; [|by injection H3 as <-]. apply res_bind_ok in H3 as ([x db] & H1%reverse_clock & H3).
  destruct (k ← x; _) as [r|]; [|injection H3 as <-; by apply moves_db].
  apply res_bind_ok in H3 as (y & _ & H3). apply res_bind_ok in H3 as (z & _ & H3). injection H3 as <-. by apply moves_money.
Qed.

Lemma give_back_moves (t : Trip) (p : PaymentRow) (a : dec) (n : Z) (md : refund_mode) (g : Gateway) (r : string) (w w' : World)
    (x : option refund_mode) : give_back t p a n md g r w = Ok (x, w') -> moves w w' /\ w_trips w' = w_trips w.
Proof.
  unfold give_back. intros H.
  assert (forall w0, (match create_refund g r n (pm_currency p) with
    | RefundMade _ => Ok (Some original, set_refunds (w_refunds w0 ++ [{| gr_payment := r; gr_amount := n; gr_currency := pm_currency p |}]) w0)
    | RefundRefused => Ok (None, w0) | RefundRaised => Err (Unavailable "gateway") end) = Ok (x, w') ->
    moves w0 w' /\ w_trips w' = w_trips w0) as Hg.
  { intros w0. destruct (create_refund _ _ _ _); intros E; [|by injection E as _ <-|done].
    injection E as _ <-. split; [by apply moves_money|done]. }
  destruct md; [by apply Hg|]. apply res_bind_ok in H as ([c db] & Hc%refund_credit_clock & H).
  assert (moves w (with_db db w)) as H1 by (by apply moves_db).
  destruct c; [by injection H as _ <-|by injection H as _ <-|]. apply Hg in H as [H2 H3]. split; [by etransitivity|exact H3].
Qed.

Lemma refund_moves (env : PayEnv) (u i : Z) (md : refund_mode) (w : World) : moves w (refund_payment env u i md w).2.
Proof.
  unfold refund_payment. destruct (w_trips w !! i) as [t|] eqn:Et; [|done]. do 2 (destruct (negb _); [done|]).
  destruct (paid_online i w) as [p|] eqn:Ep; [|done]. apply paid_online_in in Ep as (Hp & _).
  apply elem_of_filter_b in Hp as [_ Hi%Z.eqb_eq]. destruct (negb _); [done|]. destruct (gateway_named _ _) as [g|]; [|done].
  destruct (negb _); [done|]. destruct (_ <=? 0); [done|]. destruct (from_minor_Z _ _) as [a|]; [|done].
  destruct (give_back _ _ _ _ _ _ _ w) as [[x w']|] eqn:Eg; [|done]. apply give_back_moves in Eg as [H1 Htr].
  destruct x as [m|]; [|exact H1]. destruct (book_refund _ _ _ _ _ _ w') as [w2|] eqn:Eb; cbn [snd]; [|by apply moves_money].
  etransitivity; [exact H1|]. eapply refund_book_moves; [|exact Eb]. by rewrite Htr, Hi.
Qed.

(** The driver's confirmation of cash, as Trips has it. *)
Lemma confirm_moves (env : TripEnv) (i : Z) (w : World) : pay_ok w -> moves w (confirm_cash_payment env i w).2.
Proof.
  intros Hok. unfold confirm_cash_payment. destruct (w_trips w !! i) as [t|] eqn:Et; [|done]. destruct (negb _); [done|]. destruct (_ && _); [done|].
  destruct (last_cash _ w) as [p|] eqn:El; [|done]. do 2 (destruct (bool_decide _); [done|]).
  destruct (existsb _ _) eqn:Ex; [done|]. set (w1 := save_payment (pm_id p) PayCompleted w).
  unfold last_cash in El. apply find_in in El as [Hp _]. rewrite elem_of_reverse in Hp. apply elem_of_filter_b in Hp as [Hp Htr%Z.eqb_eq].
  assert (moves w w1) as H1.
  { assert (w1 = update_payment (pm_id p) (fun _ => with_pay_status PayCompleted p) w) as ->.
    { unfold w1, save_payment, update_payment. f_equal. apply list_fmap_ext. intros n q Hq. destruct (Z.eqb_spec (pm_id q) (pm_id p)); [|done].
      f_equal. apply (unique_rows pm_id (w_payments w)); [by apply payment_ids_nodup|by eapply list_elem_of_lookup_2|done|done]. }
    apply rtc_once, mv_done; [by apply find_payment_row|done|done|]. intros q Hq Hqt Hc. exfalso.
    apply (not_completed _ w Ex q Hq); [congruence|exact Hc]. }
  assert (with_payment_status "completed" t = paid_by (payment_method (lt_trip t)) (Some "completed") t) as -> by apply status_paid_by.
  destruct (settled_world _ _ _) as [w2|] eqn:Es; [|done]. cbn [snd]. unfold settled_world in Es.
  apply res_bind_ok in Es as ([b db] & Hc%settle_or_defer_clock & Es). injection Es as <-.
  etransitivity; [exact (moves_save i t (payment_method (lt_trip t)) (Some "completed") w w1 H1 Et)|]. by apply moves_db.
Qed.

(** ** The payment endpoints interleaved *)

(** One request, webhook, task or callback, with whatever the gateways answer. *)
Inductive pay_step (env : PayEnv) : World -> World -> Prop :=
| py_order w user i : pay_step env w (create_order env user i w).2
| py_verify w user o gp sg gn : pay_step env w (verify_payment env user o gp sg gn w).2
| py_webhook w g o gp : pay_step env w (handle_success env g o gp w).2
| py_switch w user i m : pay_step env w (switch_payment_method env user i m w).2
| py_retry w user i : pay_step env w (retry_payment env user i w).2
| py_reconcile w : pay_step env w (reconcile_stuck_payments env w)
| py_wallet w user a b n : pay_step env w (pay_trip env user a b n w).2
| py_refund w user i m : pay_step env w (refund_payment env user i m w).2
| py_late w cb : pay_step env w (late_refund env cb w).2
| py_cash w i : pay_step env w (confirm_cash_payment (pe_trip env) i w).2.

Lemma step_moves (env : PayEnv) (w w' : World) : pay_step env w w' -> pay_ok w -> moves w w'.
Proof.
  destruct 1; intros Hok.
  - by apply create_order_moves.
  - apply verify_payment_moves.
  - apply handle_success_moves.
  - by apply switch_moves.
  - apply retry_moves.
  - apply reconcile_moves.
  - by apply pay_trip_moves.
  - apply refund_moves.
  - apply late_refund_moves.
  - by apply confirm_moves.
Qed.

Lemma steps_moves (env : PayEnv) (w w' : World) : rtc (pay_step env) w w' -> pay_ok w -> moves w w' /\ pay_ok w'.
Proof.
  induction 1 as [w|x y z Hxy _ IH]; intros Hok; [by split|]. pose proof (step_moves _ _ _ Hxy Hok) as H1.
  destruct (IH (moves_ok _ _ H1 Hok)) as [H2 H3]. split; [by etransitivity|exact H3].
Qed.

(** What no payment touches: the rides, the drivers, the clock. *)
Lemma move_lives (w w' : World) : pay_move w w' ->
  w_fleet w' = w_fleet w /\ now w' = now w /\ forall i, life <$> w_trips w' !! i = life <$> w_trips w !! i.
Proof.
  destruct 1 as [w w' [F1 F2 F3 F4 F5] _ _|w i t m ps Ht|w f Hf|w p p' Hp Hid Htr Hone|w p Hid Htr Hone|w r Hid Hn Hfk|w k f Hf];
    (split; [try done|split; [try done|]]); intros j; try done.
  - by rewrite F2.
  - cbn. destruct (decide (j = i)) as [->|N]; [by rewrite lookup_insert_eq, Ht|by rewrite lookup_insert_ne].
Qed.

Lemma moves_lives (w w' : World) : moves w w' ->
  w_fleet w' = w_fleet w /\ now w' = now w /\ forall i, life <$> w_trips w' !! i = life <$> w_trips w !! i.
Proof.
  induction 1 as [w|x y z H _ (I1 & I2 & I3)]; [done|]. apply move_lives in H as (H1 & H2 & H3).
  split; [congruence|]. split; [congruence|]. intros i. by rewrite I3, H3.
Qed.

(** ** Late captures *)

Lemma find_payment_other (k j : Z) (f : PaymentRow -> PaymentRow) (w : World) :
  (forall p, pm_id (f p) = pm_id p) -> k <> j -> find_payment k (update_payment j f w) = find_payment k w.
Proof.
  intros Hf N. rewrite find_payment_update by (intros; by rewrite Hf). destruct (find_payment k w) as [p|] eqn:E; [|done].
  cbn. destruct (find_payment_in _ _ _ E) as [_ ->]. by rewrite (proj2 (Z.eqb_neq _ _) N).
Qed.

Lemma record_late_shape (env : PayEnv) (t : Trip) (p : PaymentRow) (g taken src : string) (o : option OrderRow) (w w' : World)
    (cb : option Callback) : record_late env t p g taken src o w = Ok (cb, w') ->
  cb = Some {| cb_payment := pm_id p; cb_order := po_id <$> o |} /\ w_orders w' = w_orders w /\ w_refunds w' = w_refunds w /\
  (exists al, w_db w' = set_alerts al (w_db w)) /\ (forall k, k <> pm_id p -> find_payment k w' = find_payment k w) /\
  forall k q, find_payment k w = Some q -> exists q', find_payment k w' = Some q' /\ pm_amount q' = pm_amount q /\
    pm_currency q' = pm_currency q /\ pm_status q' = pm_status q /\ pm_trip q' = pm_trip q /\
    (completed_row p -> q' = q) /\ pm_id q' = pm_id q /\ pm_user q' = pm_user q /\
    pm_order q' = pm_order q /\ pm_cf_order q' = pm_cf_order q /\ pm_replaced_by q' = pm_replaced_by q.
Proof.
  unfold record_late. intros H. apply res_bind_ok in H as (a & _ & H). apply res_bind_ok in H as (tx & _ & H). injection H as <- <-.
  split; [done|]. split; [by destruct (bool_decide _)|]. split; [by destruct (bool_decide _)|].
  split; [eexists; cbn; by destruct (bool_decide _)|]. split.
  { intros k N. change (find_payment k (with_db ?d ?x)) with (find_payment k x). destruct (bool_decide _); [done|].
    apply find_payment_other; [by intros q; destruct (_ && _)|done]. }
  intros k q Hq.
  destruct (bool_decide_reflect (pm_status p = PayCompleted)) as [Hc|Hc]; [by exists q|].
  eexists. split.
  { change (find_payment k (with_db ?d ?x)) with (find_payment k x). rewrite find_payment_update by (intros x _ Hx; by destruct (_ && _)).
    rewrite Hq. reflexivity. }
  cbn. destruct (pm_id q =? pm_id p); [|done]. destruct (_ && _); cbn; repeat split; try done; intros Hcp; by destruct Hc.
Qed.

(** Columns a late capture leaves on a payment. *)
Record kept_row (p q : PaymentRow) : Prop := {
  kr_id : pm_id q = pm_id p; kr_trip : pm_trip q = pm_trip p; kr_user : pm_user q = pm_user p;
  kr_amount : pm_amount q = pm_amount p; kr_currency : pm_currency q = pm_currency p;
  kr_order : pm_order q = pm_order p; kr_cf_order : pm_cf_order q = pm_cf_order p; kr_replaced : pm_replaced_by q = pm_replaced_by p;
  kr_status : pm_status q = pm_status p \/ (pm_status p <> PayCompleted /\ pm_status q = PayRefunded);
  kr_done : completed_row p -> q = p
}.

#[global] Instance kept_row_refl : Reflexive kept_row.
Proof. intros p. split; try done. by left. Qed.

Lemma find_update_order (o : string) (k : Z) (f : OrderRow -> OrderRow) (w : World) :
  (forall r, po_order (f r) = po_order r) ->
  find_order o (update_order k f w) = (fun r => if po_id r =? k then f r else r) <$> find_order o w.
Proof.
  intros Hf. unfold find_order, update_order. cbn [w_orders set_orders]. induction (w_orders w) as [|r l IH]; [done|].
  cbn. destruct (po_id r =? k) eqn:E; rewrite ?Hf; destruct (bool_decide (po_order r = o)); cbn; rewrite ?E; done.
Qed.

Lemma order_by_id (w : World) (o : string) (r : OrderRow) :
  base.NoDup (po_id <$> w_orders w) -> find_order o w = Some r -> List.find (fun x => po_id x =? po_id r) (w_orders w) = Some r.
Proof.
  intros Hn Hr. apply find_in in Hr as [Hin _].
  destruct (find_some_in (fun x => po_id x =? po_id r) _ r Hin ltac:(apply Z.eqb_refl)) as [y Hy]. rewrite Hy.
  apply find_in in Hy as [Hy E%Z.eqb_eq]. f_equal. by apply (unique_rows po_id (w_orders w)).
Qed.

(** What [late_paid.refund] leaves when it had something to do: the order says refunded exactly
    when the provider has taken the refund of the whole amount. *)
Lemma late_refund_spec (env : PayEnv) (p : PaymentRow) (o : string) (r : OrderRow) (w : World) :
  find_payment (pm_id p) w = Some p -> find_order o w = Some r -> base.NoDup (po_id <$> w_orders w) ->
  po_late_refund r <> REFUND_DONE ->
  let w' := (late_refund env {| cb_payment := pm_id p; cb_order := Some (po_id r) |} w).2 in
  w_trips w' = w_trips w /\ (exists al, w_db w' = set_alerts al (w_db w)) /\
  (forall k, k <> pm_id p -> find_payment k w' = find_payment k w) /\
  (exists q, find_payment (pm_id p) w' = Some q /\ kept_row p q) /\
  exists r', find_order o w' = Some r' /\ po_payment r' = po_payment r /\ po_late_payment r' = po_late_payment r /\
    (po_late_refund r' = REFUND_DONE /\
       w_refunds w' = w_refunds w ++ [{| gr_payment := late_taken p (Some r); gr_amount := pm_amount p; gr_currency := pm_currency p |}] \/
     po_late_refund r' = REFUND_MANUAL /\ w_refunds w' = w_refunds w).
Proof.
  intros Hp Ho Hn Hd w'. unfold w', late_refund. cbn [cb_payment cb_order]. rewrite Hp. cbn [mbind option_bind].
  rewrite (order_by_id w o r Hn Ho). 
  assert (late_done p (Some r) = false) as -> by (cbn; by rewrite bool_decide_false).
  set (a := late_ask env p (Some r)).
  set (w1 := match a with RefundMade _ => _ | _ => w end).
  destruct (outcome_of a) as [s i] eqn:Es. cbn [snd].
  assert (w_trips w1 = w_trips w /\ w_db w1 = w_db w /\ find_payment (pm_id p) w1 = Some p /\ find_order o w1 = Some r) as (T1 & D1 & P1 & O1)
    by (unfold w1; by destruct a).
  split; [rewrite late_written_trips; exact T1|].
  unfold late_written. cbv zeta. set (w2 := update_order _ _ w1).
  set (w3 := if bool_decide (pm_status p = PayCompleted) then w2 else _).
  destruct (tell_alert_frame (source_id (Some r) (pm_id p)) s i w3) as (_ & P4 & O4 & R4 & _).
  assert (exists al, w_db (tell_alert (source_id (Some r) (pm_id p)) s i w3) = set_alerts al (w_db w3)) as [al Hal].
  { unfold tell_alert. destruct (List.find _ _); [by eexists|]. exists (alert_table (w_db w3)). by destruct (w_db w3). }
  split; [exists al; rewrite Hal; unfold w3; rewrite <- D1; by destruct (bool_decide _)|]. split; [|split].
  - intros k N. unfold find_payment. rewrite P4. change (find_payment k w3 = find_payment k w).
    assert (find_payment k w2 = find_payment k w) as <- by (unfold w2, w1; by destruct a).
    unfold w3. destruct (bool_decide _); [done|]. apply find_payment_other; [by intros q; destruct (bool_decide _)|done].
  - unfold find_payment. rewrite P4. change (exists q, find_payment (pm_id p) w3 = Some q /\ kept_row p q).
    unfold w3. destruct (bool_decide_reflect (pm_status p = PayCompleted)) as [Hc|Hc].
    + exists p. split; [exact P1|reflexivity].
    + eexists. split; [rewrite find_payment_update by (intros x _ Hx; by destruct (bool_decide _));
        change (find_payment (pm_id p) w2) with (find_payment (pm_id p) w1); rewrite P1; reflexivity|].
      cbn. rewrite Z.eqb_refl. split; cbn; destruct (bool_decide (s = REFUND_DONE)); cbn; try done; auto; by intros ?%Hc.
  - unfold find_order. rewrite O4, R4.
    change (List.find (fun r0 => bool_decide (po_order r0 = o)) (w_orders w3)) with (find_order o w3).
    assert (find_order o w3 = find_order o w2) as -> by (unfold w3; by destruct (bool_decide _)).
    assert (w_refunds w3 = w_refunds w1) as -> by (unfold w3; by destruct (bool_decide _)).
    unfold w2. rewrite find_update_order, O1 by done. eexists. split; [reflexivity|]. rewrite Z.eqb_refl. cbn.
    split; [done|]. split; [done|]. unfold w1. destruct a; injection Es as <- <-; [by left|by right..].
Qed.

(** A late capture on order [o] of the payment [p]: nothing is settled, and the order's row says
    what became of the money. *)
Record late_return (p : PaymentRow) (o : string) (gp : option string) (w w' : World) : Prop := {
  lr_trips : w_trips w' = w_trips w;
  lr_db : exists al, w_db w' = set_alerts al (w_db w);
  lr_others : forall k, k <> pm_id p -> find_payment k w' = find_payment k w;
  lr_row : exists q, find_payment (pm_id p) w' = Some q /\ kept_row p q;
  lr_order : exists r, find_order o w' = Some r /\
    po_payment r = from_option po_payment (pm_id p) (find_order o w) /\
    (truthy gp = true -> po_late_payment r = default EmptyString gp) /\
    (w' = w /\ po_late_refund r <> REFUND_NONE \/
     po_late_refund r = REFUND_DONE /\
       (exists ref, w_refunds w' = w_refunds w ++ [{| gr_payment := ref; gr_amount := pm_amount p; gr_currency := pm_currency p |}]) \/
     po_late_refund r = REFUND_MANUAL /\ w_refunds w' = w_refunds w)
}.

Lemma too_late_spec (env : PayEnv) (t : Trip) (p p0 : PaymentRow) (g : string) (gp : option string) (src o : string)
    (w w' : World) (a : pay_answer) :
  pay_ok w -> truthy (Some o) = true -> find_payment (pm_id p) w = Some p0 -> pm_status p = pm_status p0 ->
  too_late env t p g gp src (Some o) w = (a, w') ->
  a = PaymentRaised /\ w' = w \/ a = PaidAlready /\ late_return p0 o gp w w'.
Proof.
  intros Hok Ho Hp Hst. destruct (find_payment_in _ _ _ Hp) as [_ Hid]. unfold too_late.
  destruct (record env t p g gp src (Some o) w) as [[cb w3]|e] eqn:Er; [|by intros [= <- <-]; left]. intros [= <- <-]. right. split; [done|].
  pose proof Er as Hm. apply record_moves in Hm; [|rewrite Hp; by eexists]. pose proof (moves_ok _ _ Hm Hok) as Hok3.
  revert Er. unfold record, or_text at 1. rewrite Ho.
  destruct (remember (pm_id p) (Some o) _ w) as [r w1] eqn:Em.
  apply remember_spec in Em as (_ & P1 & D1 & T1 & R1 & Hr); [|rewrite Hp; by eexists]. rewrite Ho in Hr.
  destruct Hr as (row & -> & Hrow & Hcase). set (taken := default EmptyString gp).
  assert (po_payment row = from_option po_payment (pm_id p0) (find_order o w)) as Hpay.
  { destruct Hcase as [[-> ->]|(-> & _ & ->)]; [done|]. cbn. congruence. }
  destruct (negb _ && _) eqn:Ehand.
  { intros [= <- <-]. apply andb_true_iff in Ehand as [Hl%negb_true_iff%bool_decide_eq_false Ht].
    destruct Hcase as [[Hf ->]|(_ & Hl' & _)]; [|done]. cbn [after_commit]. split; [done| |done| |].
    - exists (alert_table (w_db w)). by destruct (w_db w).
    - exists p0. rewrite Hid. split; [exact Hp|reflexivity].
    - exists row. split; [done|]. split; [done|]. split; [|by left].
      intros Htr. assert (truthy (Some taken) = true) as Hk by (unfold taken; by destruct gp). rewrite Hk in Ht. by apply bool_decide_eq_true in Ht. }
  set (f := with_late_refund _ REFUND_PENDING EmptyString). intros Hl.
  pose proof (record_late_trips _ _ _ _ _ _ _ _ _ _ Hl) as T3.
  apply record_late_shape in Hl as (-> & O3 & R3 & [al D3] & Hoth & Hrows).
  assert (find_payment (pm_id p) (update_order (po_id row) f w1) = Some p0) as Hp1.
  { rewrite <- Hp. unfold find_payment. cbn [w_payments update_order set_orders]. by rewrite P1. }
  destruct (Hrows _ _ Hp1) as (p3 & Hp3 & A1 & A2 & A3 & A4 & A5 & A6 & A7 & A8 & A9 & A10).
  assert (find_order o w3 = Some (f row)) as Ho3.
  { unfold find_order. rewrite O3. change (find_order o (update_order (po_id row) f w1) = Some (f row)).
    rewrite find_update_order by done. rewrite Hrow. cbn. by rewrite Z.eqb_refl. }
  assert (pm_id p3 = pm_id p) as Hid3 by congruence.
  destruct (late_refund_spec env p3 o (f row) w3) as (T4 & [al2 D4] & Hoth4 & (q & Hq & Kq) & (r & Hfr & Hpr & Htk & Hend));
    [by rewrite Hid3|exact Ho3|by apply order_ids_nodup|done|].
  cbn [after_commit fmap option_fmap option_map].
  rewrite Hid3 in *. change (po_id (f row)) with (po_id row) in *. split.
  - rewrite T4, T3. cbn. exact T1.
  - exists al2. rewrite D4, D3. cbn. by rewrite D1.
  - intros k N. rewrite Hid in N. rewrite Hoth4, Hoth by done. unfold find_payment. cbn [w_payments update_order set_orders]. by rewrite P1.
  - exists q. rewrite Hid. split; [exact Hq|]. destruct Kq as [K1 K2 K3 K4 K5 K6 K7 K8 K9 K10].
    assert (completed_row p0 -> p3 = p0) as Hdone by (intros Hc; apply A5; unfold completed_row in *; congruence).
    split; try congruence. intros Hc. specialize (Hdone Hc). subst p3. by apply K10.
  - exists r. split; [exact Hfr|]. split; [rewrite Hpr; exact Hpay|]. split.
    + intros Htr. assert (truthy (Some taken) = true) as Hk by (unfold taken; by destruct gp). rewrite Htk. unfold f.
      cbn [po_late_payment with_late_refund]. by rewrite Hk.
    + right. assert (w_refunds w3 = w_refunds w) as E3 by (rewrite R3; exact R1). rewrite A1, A2, E3 in Hend.
      destruct Hend as [[E H]|[E H]]; [left|right; done]. split; [exact E|]. eexists. exact H.
Qed.
