(* ===== verification/PaidOnce.v ===== *)
(** * PaidOnce: a trip is paid once

    What riders and finance may rely on when a trip is paid: captured money settles the trip or
    goes back, a webhook may come twice, the wallet is charged exactly, refunds stay within
    what was paid; and where the endpoints lose track of a payment. *)

From S2P Require Import Prelude PyDecimal PyText Countries Models Money Commission Zones PromoTax Alerts Store.
From S2P Require Import Promos Settlement Drivers Trips OperatorEnd Gateways TripPayments TripSafety RideMoney PaymentSafety.
#[local] Open Scope string_scope.
#[local] Open Scope list_scope.
#[local] Open Scope Z_scope.

(** ** A ride to be paid *)

(** The tables of a world, checked row by row. *)
Definition tables_ok (w : World) : bool :=
  forallb (fun e => trip_id (lt_trip e.2) =? e.1) (map_to_list (w_trips w)) &&
  bool_decide (pm_id <$> w_payments w = seqZ 0 (Z.of_nat (length (w_payments w)))) &&
  forallb (fun p => bool_decide (is_Some (w_trips w !! pm_trip p))) (w_payments w) &&
  forallb (fun p => forallb (fun q =>
    negb ((pm_trip p =? pm_trip q) && bool_decide (pm_status p = PayCompleted) && bool_decide (pm_status q = PayCompleted)) ||
    (pm_id p =? pm_id q)) (w_payments w)) (w_payments w) &&
  bool_decide (po_id <$> w_orders w = seqZ 0 (Z.of_nat (length (w_orders w)))) &&
  bool_decide (base.NoDup (po_order <$> w_orders w)) &&
  forallb (fun r => bool_decide (is_Some (List.find (fun p => pm_id p =? po_payment r) (w_payments w)))) (w_orders w).

Lemma tables_ok_pay (w : World) : tables_ok w = true -> pay_ok w.
Proof.
  unfold tables_ok. intros [[[[[[H1 H2%bool_decide_eq_true]%andb_true_iff H3]%andb_true_iff H4]%andb_true_iff
    H5%bool_decide_eq_true]%andb_true_iff H6%bool_decide_eq_true]%andb_true_iff H7]%andb_true_iff.
  rewrite forallb_forall in H1, H3, H4, H7. split; try done.
  - intros i t Ht. apply elem_of_map_to_list, list_elem_of_In, H1 in Ht. by apply Z.eqb_eq in Ht.
  - intros p Hp%list_elem_of_In%H3. by apply bool_decide_eq_true in Hp.
  - intros p q Hp Hq Et Cp Cq. apply (unique_rows pm_id (w_payments w)); [rewrite H2; apply NoDup_seqZ|done|done|].
    apply list_elem_of_In in Hp, Hq. specialize (H4 p Hp). rewrite forallb_forall in H4. specialize (H4 q Hq).
    rewrite (proj2 (Z.eqb_eq _ _) Et), (bool_decide_true (pm_status p = _)), (bool_decide_true (pm_status q = _)) in H4 by done.
    by apply Z.eqb_eq in H4.
  - intros r Hr%list_elem_of_In%H7. by apply bool_decide_eq_true in Hr.
Qed.

(** A provider that names an order by its amount and has captured the orders [paid]. *)
Definition demo_gateway (paid : list string) (name : string) : Gateway := {|
  gw_live := true; gw_name := name; supported_currencies := ["INR"]; gw_create_order := fun n _ => Some ("o" +:+ number n)%string;
  get_order_status := fun o => Info {| oi_status := if bool_decide (o ∈ paid) then "PAID" else "ACTIVE"; oi_amount := PyStr "135.68";
                                       oi_payment := None |};
  gw_verify := fun o _ _ => bool_decide (o ∈ paid); gw_captured := fun _ => Some "captured";
  create_refund := fun _ _ _ => RefundMade "r1" |}.

(** Rides of India are paid at [provider], if it is a name at all. *)
Definition demo_pay_env (provider : string) (paid : list string) : PayEnv := {|
  pe_trip := demo_trip_env;
  pe_providers := {| ps_table := fun _ => ∅; ps_legacy := fun _ => provider; ps_adapter := fun _ => demo_gateway paid |};
  cash_disabled_for := fun _ => false |}.

(** The ride of rider 5 is over and has a cash payment; the rider asks to pay it online. *)
Definition demo_env_paid : PayEnv := demo_pay_env CASHFREE ["o13568"].
Definition demo_ordered : World := (create_order demo_env_paid 5 1 demo_completed).2.

Lemma demo_completed_pay : pay_ok demo_completed.
Proof. apply tables_ok_pay. vm_compute. reflexivity. Qed.

Lemma demo_ordered_pay : pay_ok demo_ordered.
Proof. apply tables_ok_pay. vm_compute. reflexivity. Qed.

(** ** Payments interleaved *)

(** C6. A trip is paid once: starting from sound tables, however riders, webhooks, tasks and
    drivers interleave and whatever the providers answer, no trip ever has two completed
    payments, every order belongs to exactly one payment and every payment to a trip. *)
Theorem one_payment_per_trip (env : PayEnv) (w w' : World) :
  pay_ok w -> rtc (pay_step env) w w' ->
  (forall p q, p ∈ w_payments w' -> q ∈ w_payments w' -> pm_trip p = pm_trip q -> completed_row p -> completed_row q -> p = q) /\
  (forall r s, r ∈ w_orders w' -> s ∈ w_orders w' -> po_order r = po_order s -> r = s) /\
  (forall p, p ∈ w_payments w' -> is_Some (w_trips w' !! pm_trip p)) /\
  (forall r, r ∈ w_orders w' -> exists p, p ∈ w_payments w' /\ pm_id p = po_payment r).
Proof.
  intros Hok H. destruct (steps_moves _ _ _ H Hok) as [_ K]. split; [apply (ok_one _ K)|]. split; [|split; [apply (ok_fk _ K)|]].
  - intros r s Hr Hs. by apply (unique_rows po_order (w_orders w')); [apply (ok_order_names _ K)|..].
  - intros r Hr. destruct (ok_order_fk _ K r Hr) as [p Hp%find_payment_in]. by exists p.
Qed.

Lemma one_payment_per_trip_witness :
  let w := (handle_success demo_env_paid (demo_gateway ["o13568"] CASHFREE) (Some "o13568") (Some "p1") demo_ordered).2 in
  existsb (fun p => bool_decide (pm_status p = PayCompleted)) (w_payments w) = true /\
  forall p q, p ∈ w_payments w -> q ∈ w_payments w -> pm_trip p = pm_trip q -> completed_row p -> completed_row q -> p = q.
Proof.
  cbv zeta. split; [vm_compute; reflexivity|].
  refine (proj1 (one_payment_per_trip demo_env_paid demo_completed _ demo_completed_pay _)).
  eapply rtc_l; [exact (py_order demo_env_paid demo_completed 5 1)|]. apply rtc_once. exact (py_webhook demo_env_paid demo_ordered _ _ _).
Defined.

(** Paying never touches a ride: every interleaving of the payment endpoints is, for the
    rides, a run of the trip life cycle that moves no ride, no driver and not the clock: it
    refines the step relation of the rides, and the life of every ride is the one it had. *)
Theorem payments_keep_rides (env : PayEnv) (w w' : World) :
  pay_ok w -> rtc (pay_step env) w w' ->
  rtc (trip_step (pe_trip env)) w w' /\ w_fleet w' = w_fleet w /\ now w' = now w /\
  forall i, life <$> w_trips w' !! i = life <$> w_trips w !! i.
Proof.
  intros Hok H. destruct (steps_moves _ _ _ H Hok) as [M _]. split; [by apply moves_rides|]. by apply moves_lives.
Qed.

Lemma payments_keep_rides_witness :
  let w := (pay_trip demo_env_paid 5 (Some "TRIP_1") None PyNone demo_ordered).2 in
  rtc (trip_step demo_trip_env) demo_completed w /\ life <$> w_trips w !! 1 = life <$> w_trips demo_completed !! 1.
Proof.
  cbv zeta. set (w := (pay_trip _ _ _ _ _ _).2).
  destruct (payments_keep_rides demo_env_paid demo_completed w demo_completed_pay) as (H & _ & _ & L).
  - eapply rtc_l; [exact (py_order demo_env_paid demo_completed 5 1)|]. apply rtc_once. exact (py_wallet demo_env_paid demo_ordered _ _ _ _).
  - split; [exact H|apply L].
Defined.

(** ** A capture *)

(** The capture of order [o] settles the trip of [p]: the payment is completed by it, the trip
    is paid, and the driver is settled exactly once for it. *)
Record settled_once (env : PayEnv) (p : PaymentRow) (o : string) (w w' : World) : Prop := {
  so_open : superseded p w = false;
  so_row : exists q, find_payment (pm_id p) w' = Some q /\ completed_row q /\ pm_order q = Some o /\ pm_amount q = pm_amount p /\
             pm_trip q = pm_trip p;
  so_trip : forall t, w_trips w !! pm_trip p = Some t -> w_trips w' !! pm_trip p = Some (paid_online_trip t) /\
              match lt_driver t with
              | Some _ => exists x, settle_paid_by_platform (te_settle (pe_trip env)) (lt_trip (paid_online_trip t)) (pm_amount p) None (w_db w)
                                    = Ok (x, w_db w')
              | None => w_db w' = w_db w
              end;
  so_refunds : w_refunds w' = w_refunds w
}.

Inductive captured (env : PayEnv) (p : PaymentRow) (o : string) (gp : option string) (w w' : World) : pay_answer -> Prop :=
| cap_before : completed_row p -> w' = w -> captured env p o gp w w' AlreadySettled
| cap_settled : settled_once env p o w w' -> captured env p o gp w w' Settled
| cap_late : completed_row p \/ superseded p w = true -> late_return p o gp w w' -> captured env p o gp w w' PaidAlready
| cap_raised : w' = w -> captured env p o gp w w' PaymentRaised.

Lemma complete_settles (env : PayEnv) (p p0 : PaymentRow) (o : string) (gp : option string) (once : bool) (w w0 w' : World) :
  complete env p gp once w0 = Ok w' -> find_payment (pm_id p) w0 = Some p0 ->
  w_trips w0 = w_trips w -> w_db w0 = w_db w -> w_refunds w0 = w_refunds w ->
  superseded p w = false -> pm_order p = Some o -> settled_once env p o w w'.
Proof.
  intros [_ [l H]]%complete_ok Hp Ht Hd Hr Hs Ho. cbn zeta in H. rewrite Ht, Hd in H.
  set (w1 := update_payment (pm_id p) (fun _ => with_pay_status PayCompleted p) w0) in *.
  assert (find_payment (pm_id p) w1 = Some (with_pay_status PayCompleted p)) as Hf.
  { unfold w1. rewrite find_payment_update by done. rewrite Hp. cbn. destruct (find_payment_in _ _ _ Hp) as [_ ->]. by rewrite Z.eqb_refl. }
  assert (forall x, w_payments x = w_payments w1 -> exists q, find_payment (pm_id p) x = Some q /\ completed_row q /\ pm_order q = Some o /\
             pm_amount q = pm_amount p /\ pm_trip q = pm_trip p) as Hrow.
  { intros x Hx. eexists. unfold find_payment. rewrite Hx. split; [exact Hf|done]. }
  destruct (w_trips w !! pm_trip p) as [t|] eqn:Et.
  - assert (lt_driver (paid_online_trip t) = lt_driver t) as Hdr by done. rewrite Hdr in H. destruct (lt_driver t) as [d|] eqn:Ed.
    + destruct H as (x & db & Hset & ->). split; [done|by apply Hrow| |exact Hr].
      intros t' Ht'. rewrite Et in Ht'. injection Ht' as <-. split; [apply lookup_insert_eq|]. rewrite Ed. exists x. exact Hset.
    + subst w'. split; [done|by apply Hrow| |exact Hr]. intros t' Ht'. rewrite Et in Ht'. injection Ht' as <-. split; [apply lookup_insert_eq|]. by rewrite Ed.
  - subst w'. split; [done|by apply Hrow| |exact Hr]. intros t' Ht'. congruence.
Qed.

Lemma settled_by_order (o : string) (p : PaymentRow) : truthy (Some o) = true -> pm_order (settled_by o p) = Some o.
Proof. unfold settled_by. intros ->. done. Qed.

Lemma superseded_settled (o : string) (p : PaymentRow) (w : World) : superseded (settled_by o p) w = superseded p w.
Proof. unfold settled_by. by destruct (truthy _). Qed.

Lemma settled_once_row (env : PayEnv) (p p' : PaymentRow) (o : string) (w w' : World) :
  pm_id p' = pm_id p -> pm_trip p' = pm_trip p -> pm_amount p' = pm_amount p -> superseded p' w = superseded p w ->
  settled_once env p' o w w' -> settled_once env p o w w'.
Proof. intros H1 H2 H3 H4 [A1 A2 A3 A4]. split; [congruence| | |done]; rewrite <- ?H1, <- ?H2, <- ?H3; done. Qed.

Lemma captured_completes (env : PayEnv) (p p' : PaymentRow) (o : string) (gp hist : option string) (once : bool) (w w0 : World)
    (r : res db_error World) :
  r = complete env p' hist once w0 -> is_Some (find_payment (pm_id p') w0) ->
  w_trips w0 = w_trips w -> w_db w0 = w_db w -> w_refunds w0 = w_refunds w ->
  pm_id p' = pm_id p -> pm_trip p' = pm_trip p -> pm_amount p' = pm_amount p ->
  superseded p' w = superseded p w -> superseded p w = false -> pm_order p' = Some o ->
  captured env p o gp w (answered Settled w r).2 (answered Settled w r).1.
Proof.
  intros -> [p0 Hp] Ht Hd Hr H1 H2 H3 H4 Hs Ho. unfold answered. destruct (complete _ _ _ _ w0) as [w'|] eqn:E; cbn; [|by apply cap_raised].
  apply cap_settled. eapply settled_once_row; [exact H1|exact H2|exact H3|exact H4|].
  eapply complete_settles; [exact E|exact Hp|exact Ht|exact Hd|exact Hr|congruence|exact Ho].
Qed.

Lemma captured_late (env : PayEnv) (t : Trip) (p p0 : PaymentRow) (g : string) (gp : option string) (src o : string) (w : World) :
  pay_ok w -> truthy (Some o) = true -> find_payment (pm_id p) w = Some p0 -> pm_status p = pm_status p0 ->
  completed_row p0 \/ superseded p0 w = true ->
  captured env p0 o gp w (too_late env t p g gp src (Some o) w).2 (too_late env t p g gp src (Some o) w).1.
Proof.
  intros Hok Ho Hp Hst Hc. destruct (too_late _ _ _ _ _ _ _ w) as [a w'] eqn:E.
  destruct (too_late_spec env t p p0 g gp src o w w' a Hok Ho Hp Hst E) as [[-> ->]|[-> H]]; [by apply cap_raised|by apply cap_late].
Qed.

(** C5. Captured money settles its trip once or goes back: whoever reports that the order of a
    payment was captured (the rider's verification, the webhook, the poll or the
    reconciliation), either the payment was settled before, or the handler raises and is
    rolled back, and nothing moves; or no payment stood for the trip, and this one now does,
    with the trip paid and the driver settled exactly for it; or the trip was paid otherwise,
    and then nothing is settled, the order says so, and the whole amount was refunded by the
    provider or is left to a person. *)
Theorem captured_is_settled_or_returned (env : PayEnv) (k : Z) (p : PaymentRow) (g src o : string) (gp : option string) (info : OrderInfo)
    (w : World) :
  pay_ok w -> truthy (Some o) = true -> find_payment k w = Some p ->
  (let '(a, w') := webhook_locked env k g o gp w in captured env p o gp w w' a) /\
  (let '(a, w') := verify_locked env k g o gp w in captured env p o gp w w' a) /\
  (let '(a, w') := poll_locked env k g src o info w in captured env p o (oi_payment info) w w' a).
Proof.
  intros Hok Ho Hp. destruct (find_payment_in _ _ _ Hp) as [Hin Hid].
  destruct (ok_fk _ Hok p Hin) as [l Hl]. assert (trip_of p w = Some (lt_trip l)) as Ht by (unfold trip_of; by rewrite Hl).
  assert (find_payment (pm_id p) w = Some p) as Hp' by (by rewrite Hid).
  destruct (settled_by_row o p) as (S1 & S2 & S3 & S4 & S5).
  assert (is_late_capture p (Some o) gp = true -> completed_row p) as Hlate.
  { unfold is_late_capture. destruct (bool_decide_reflect (pm_status p = PayCompleted)); done. }
  split; [|split].
  - unfold webhook_locked. rewrite Hp, Ht.
    destruct (is_late_capture p (Some o) gp || _) eqn:El.
    { pose proof (captured_late env (lt_trip l) p p g gp "webhook" o w Hok Ho Hp' eq_refl) as H.
      destruct (too_late _ _ _ _ _ _ _ w). apply H. apply orb_true_iff in El as [El|[_ El]%andb_true_iff]; [left; by apply Hlate|by right]. }
    apply orb_false_iff in El as [_ El]. destruct (bool_decide_reflect (pm_status p = PayCompleted)) as [Hc|Hc]; [by apply cap_before|].
    cbn [negb andb] in El. set (p' := with_captured _ _ _).
    pose proof (captured_completes env p p' o gp (Some (py_str gp)) true w w _ eq_refl) as H.
    destruct (answered _ _ _). apply H; try done; unfold p'; cbn [pm_id pm_trip pm_amount pm_order with_captured].
    + rewrite S1, Hp'. by eexists.
    + change (superseded (settled_by o p) w = superseded p w). apply superseded_settled.
    + by apply settled_by_order.
  - unfold verify_locked. rewrite Hp, Ht. destruct (is_late_capture p (Some o) gp) eqn:El.
    { pose proof (captured_late env (lt_trip l) p p g gp "verify" o w Hok Ho Hp' eq_refl) as H.
      destruct (too_late _ _ _ _ _ _ _ w). apply H. left. by apply Hlate. }
    destruct (bool_decide_reflect (pm_status p = PayCompleted)) as [Hc|Hc]; [by apply cap_before|]. cbv zeta.
    set (pv := with_captured gp (pm_cf_payment p) p). assert (superseded pv w = superseded p w) as Hsup by done. rewrite Hsup.
    destruct (superseded p w) eqn:Es.
    { pose proof (captured_late env (lt_trip l) pv p g gp "verify" o w Hok Ho Hp' eq_refl (or_intror Es)) as H.
      by destruct (too_late _ _ _ _ _ _ _ w). }
    destruct (settled_by_row o pv) as (V1 & V2 & V3 & _).
    set (w0 := match List.find _ _ with Some q => _ | None => w end).
    pose proof (captured_completes env p (settled_by o pv) o gp None false w w0 _ eq_refl) as H.
    destruct (answered _ _ _). apply H; try done; try (unfold w0; by destruct (List.find _ _)).
    + rewrite V1. unfold w0. destruct (List.find _ _) as [q|]; [|by eexists].
      rewrite find_payment_update by done. apply fmap_is_Some. by eexists.
    + rewrite superseded_settled. reflexivity.
    + by apply settled_by_order.
  - unfold poll_locked. rewrite Hp, Ht. destruct (bool_decide_reflect (pm_status p = PayCompleted)) as [Hc|Hc]; [by apply cap_before|].
    destruct (superseded p w) eqn:Es.
    { pose proof (captured_late env (lt_trip l) p p g (oi_payment info) src o w Hok Ho Hp' eq_refl (or_intror Es)) as H.
      by destruct (too_late _ _ _ _ _ _ _ w). }
    pose proof (captured_completes env p (settled_by o p) o (oi_payment info) (history_id (settled_by o p) o) true w w _ eq_refl) as H.
    destruct (answered _ _ _). apply H; try done.
    + rewrite S1, Hp'. by eexists.
    + apply superseded_settled.
    + by apply settled_by_order.
Qed.

Lemma captured_is_settled_or_returned_witness :
  exists p, find_payment 0 demo_ordered = Some p /\
    let '(a, w) := webhook_locked demo_env_paid 0 CASHFREE "o13568" (Some "p1") demo_ordered in
    a = Settled /\ captured demo_env_paid p "o13568" (Some "p1") demo_ordered w a.
Proof.
  destruct (find_payment 0 demo_ordered) as [p|] eqn:E; [|exfalso; vm_compute in E; discriminate]. exists p. split; [reflexivity|].
  destruct (captured_is_settled_or_returned demo_env_paid 0 p CASHFREE "webhook" "o13568" (Some "p1")
    {| oi_status := "PAID"; oi_amount := PyNone; oi_payment := None |} demo_ordered demo_ordered_pay eq_refl E) as [H _].
  destruct (webhook_locked _ _ _ _ _ _) as [a w] eqn:Ea. split; [|exact H].
  assert (a = (webhook_locked demo_env_paid 0 CASHFREE "o13568" (Some "p1") demo_ordered).1) as -> by (rewrite Ea; reflexivity).
  vm_compute. reflexivity.
Defined.

(** ** The same webhook again *)

Lemma find_fmap_same {A : Type} (f : A -> bool) (h : A -> A) (l : list A) :
  (forall x, x ∈ l -> f (h x) = f x) -> List.find f (h <$> l) = h <$> List.find f l.
Proof.
  induction l as [|x l IH]; [done|]. intros H. cbn. rewrite H by (by left). destruct (f x); [done|]. apply IH.
  intros y Hy. apply H. by right.
Qed.

Lemma payment_for_order_in (o : string) (w : World) (p : PaymentRow) :
  pay_ok w -> payment_for_order o None w = Some p ->
  p ∈ w_payments w /\ find_payment (pm_id p) w = Some p /\ truthy (Some o) = true /\
  from_option po_payment (pm_id p) (find_order o w) = pm_id p.
Proof.
  intros Hok. unfold payment_for_order. destruct (truthy (Some o)) eqn:Ho; cbn [negb]; [|done].
  destruct (find_order o w) as [r|] eqn:Er.
  - intros H. cbn [mbind option_bind] in H. destruct (find_payment (po_payment r) w) as [q|] eqn:Eq; [|done]. cbn in H. injection H as <-.
    destruct (find_payment_in _ _ _ Eq) as [Hin Hid]. split; [done|]. split; [by apply find_payment_row|]. by split.
  - intros [H _]%find_in. rewrite elem_of_reverse in H. split; [done|]. split; [by apply find_payment_row|]. by split.
Qed.

Lemma late_again (env : PayEnv) (t : Trip) (p : PaymentRow) (g : string) (gp : option string) (src o : string) (w : World) (r : OrderRow) :
  truthy (Some o) = true -> find_order o w = Some r -> po_late_refund r <> REFUND_NONE ->
  (truthy gp = true -> po_late_payment r = default EmptyString gp) ->
  too_late env t p g gp src (Some o) w = (PaidAlready, w).
Proof.
  intros Ho Hr Hl Hgp. unfold too_late, record, or_text at 1. rewrite Ho.
  assert (forall x, remember (pm_id p) (Some o) x w = (Some r, w)) as Hrem by (intros x; unfold remember; rewrite Ho; cbn [negb]; by rewrite Hr).
  rewrite Hrem.
  rewrite bool_decide_false by done. cbn [negb andb].
  destruct (truthy gp) eqn:Egp.
  - rewrite (Hgp eq_refl), bool_decide_true, orb_true_r by done. done.
  - assert (truthy (Some (default EmptyString gp)) = false) as -> by (by destruct gp). done.
Qed.

(** Reporting a capture again from where the first report left the world. *)
Lemma webhook_locked_again (env : PayEnv) (p q : PaymentRow) (g o : string) (gp : option string) (w w' : World) (a : pay_answer) :
  pay_ok w -> truthy (Some o) = true -> find_payment (pm_id p) w = Some p -> is_Some (trip_of p w) ->
  late_return p o gp w w' -> completed_row p /\ is_late_capture p (Some o) gp = true \/ ~ completed_row p /\ superseded p w = true ->
  find_payment (pm_id p) w' = Some q ->
  webhook_locked env (pm_id p) g o gp w' = (PaidAlready, w') /\
  (completed_row p -> q = p) /\ (~ completed_row p -> ~ completed_row q).
Proof.
  intros Hok Ho Hp [t Ht] [L1 _ Loth (q' & Hq' & K) (r & Hr & _ & Hgp & Hend)] Hcase Hq. rewrite Hq' in Hq. injection Hq as ->.
  assert (po_late_refund r <> REFUND_NONE) as Hl by (destruct Hend as [[_ H]|[[H _]|[H _]]]; congruence).
  destruct K as [K1 K2 K3 K4 K5 K6 K7 K8 K9 K10].
  assert (~ completed_row p -> ~ completed_row q) as Hn by (unfold completed_row; destruct K9 as [->|[? ->]]; done).
  split; [|done]. unfold webhook_locked. rewrite Hq'. unfold trip_of. rewrite K2, L1. unfold trip_of in Ht. rewrite Ht.
  assert (is_late_capture q (Some o) gp || (negb (bool_decide (pm_status q = PayCompleted)) && superseded q w') = true) as ->.
  { destruct Hcase as [[Hc Hlc]|[Hc Hs]]; [rewrite (K10 Hc), Hlc; done|]. apply orb_true_iff. right.
    rewrite (bool_decide_false (pm_status q = PayCompleted)) by (by apply Hn). cbn. unfold superseded in *.
    rewrite K8, K2. apply orb_true_iff in Hs as [Hs|Hs].
    - apply orb_true_iff in Hs as [Hs%bool_decide_eq_true| ->]; [|by rewrite orb_true_r].
      rewrite bool_decide_true; [done|]. destruct K9 as [->|[_ ->]]; [done|set_solver].
    - apply existsb_exists in Hs as (x & Hx%list_elem_of_In & Hb). rewrite (proj2 (existsb_exists _ _)); [by rewrite orb_true_r|].
      exists x. rewrite K1. split; [|exact Hb]. apply andb_true_iff in Hb as [_ Hid%negb_true_iff%Z.eqb_neq].
      apply elem_of_filter_b in Hx as [Hx Htx]. apply list_elem_of_In, elem_of_filter_b. split; [|exact Htx].
      pose proof (find_payment_row w x Hok Hx) as Hfx. rewrite <- (Loth (pm_id x) Hid) in Hfx. by apply find_payment_in in Hfx as [? _]. }
  by apply (late_again env t q g gp "webhook" o w' r).
Qed.

Lemma names_settled (o : string) (p : PaymentRow) (gp cf : option string) :
  truthy (Some o) = true -> names_order o (with_pay_status PayCompleted (with_captured gp cf (settled_by o p))) = true.
Proof. unfold names_order, settled_by. intros ->. cbn. apply orb_true_iff. right. by apply bool_decide_eq_true. Qed.

Lemma completed_orders (env : PayEnv) (p : PaymentRow) (gp : option string) (once : bool) (w w' : World) :
  complete env p gp once w = Ok w' ->
  w_orders w' = w_orders w /\ w_payments w' = w_payments (update_payment (pm_id p) (fun _ => with_pay_status PayCompleted p) w).
Proof.
  intros [_ [l H]]%complete_ok. cbn zeta in H. destruct (w_trips w !! pm_trip p) as [t|]; [|by subst w'].
  destruct (lt_driver _); [destruct H as (x & db & _ & ->)|subst w']; done.
Qed.

Lemma settled_is_not_late (o : string) (p : PaymentRow) (gp cf : option string) :
  truthy (Some o) = true ->
  is_late_capture (with_pay_status PayCompleted (with_captured (Some (py_str gp)) cf (settled_by o p))) (Some o) gp = false.
Proof.
  intros Ho. unfold is_late_capture. cbn [pm_status with_pay_status pm_gateway_payment with_captured]. rewrite bool_decide_true by done. cbn [negb].
  assert (Some o ∈ own_orders (with_pay_status PayCompleted (with_captured (Some (py_str gp)) cf (settled_by o p)))) as Hin.
  { unfold own_orders. apply elem_of_filter_b. split; [|exact Ho]. cbn [pm_order pm_cf_order with_pay_status with_captured].
    rewrite settled_by_order by exact Ho. by left. }
  rewrite (bool_decide_true (Some o ∈ _)) by exact Hin. rewrite andb_false_r. destruct gp as [x|]; [|done]. cbn [py_str default].
  change (id x) with x. rewrite (bool_decide_true (Some x = Some x)) by done. by rewrite andb_false_r.
Qed.

(** C22. A webhook may be delivered again: whatever a success report did, settling the trip,
    recording a late capture and refunding it, or nothing, the same report again changes
    nothing at all, so nobody is charged, paid or refunded twice. *)
Theorem webhook_redelivered (env : PayEnv) (g : Gateway) (o gp : option string) (w w' : World) (a : pay_answer) :
  pay_ok w -> handle_success env g o gp w = (a, w') -> a <> PaymentRaised -> (handle_success env g o gp w').2 = w'.
Proof.
  intros Hok H Ha. assert (w' = w -> (handle_success env g o gp w').2 = w') as Hsame by (intros ->; by rewrite H).
  revert H. unfold handle_success at 1. destruct (truthy o) eqn:Ho; cbn [negb]; [|by intros [= _ <-]; apply Hsame].
  destruct o as [o|]; [|done]. change (default EmptyString (Some o)) with o.
  destruct (payment_for_order o None w) as [p|] eqn:Ep; [|by intros [= _ <-]; apply Hsame].
  destruct (payment_for_order_in o w p Hok Ep) as (Hin & Hf & _ & Hpay).
  destruct (ok_fk _ Hok p Hin) as [l Hl]. assert (trip_of p w = Some (lt_trip l)) as Ht by (unfold trip_of; by rewrite Hl).
  destruct (bool_decide (pm_status p = PayCompleted) && negb (is_late_capture p (Some o) gp)) eqn:E1; [by intros [= _ <-]; apply Hsame|].
  destruct (if gw_live g then get_order_status g o else NoInfo) as [|info|] eqn:Est; [by intros [= _ <-]; apply Hsame| |by intros [= <- _]].
  destruct (negb (bool_decide (oi_status info = "PAID"))) eqn:E2; [by intros [= _ <-]; apply Hsame|].
  destruct (parse_input (oi_amount info)) as [am|] eqn:E3; [|by intros [= _ <-]; apply Hsame].
  destruct (to_minor_dec am (Some (pm_currency p))) as [m|] eqn:E4; [|by intros [= <- _]].
  destruct (negb (pm_amount p =? m)) eqn:E5; [by intros [= _ <-]; apply Hsame|]. intros H.
  assert (is_late_capture p (Some o) gp = true -> completed_row p) as Hlate.
  { unfold is_late_capture. destruct (bool_decide_reflect (pm_status p = PayCompleted)); done. }
  pose proof H as Hw. unfold webhook_locked in H. rewrite Hf, Ht in H.
  destruct (is_late_capture p (Some o) gp || (negb (bool_decide (pm_status p = PayCompleted)) && superseded p w)) eqn:El.
  - destruct (too_late_spec env (lt_trip l) p p (gw_name g) gp "webhook" o w w' a Hok Ho Hf eq_refl H) as [[-> _]|[-> L]]; [done|].
    pose proof (lr_row _ _ _ _ _ L) as (q & Hq & K). pose proof (lr_order _ _ _ _ _ L) as (r & Hr & Hrp & Hgp & Hend). rewrite Hpay in Hrp.
    unfold handle_success. rewrite Ho. cbn [negb]. change (default EmptyString (Some o)) with o.
    assert (payment_for_order o None w' = Some q) as ->.
    { unfold payment_for_order. rewrite Ho, Hr, Hrp. cbn. rewrite Hq. done. }
    assert (completed_row p /\ is_late_capture p (Some o) gp = true \/ ~ completed_row p /\ superseded p w = true) as Hcase.
    { apply orb_true_iff in El as [El|[Ec El]%andb_true_iff]; [left; split; [by apply Hlate|done]|right].
      by apply negb_true_iff, bool_decide_eq_false in Ec. }
    destruct (webhook_locked_again env p q (gw_name g) o gp w w' PaidAlready Hok Ho Hf ltac:(rewrite Ht; by eexists) L Hcase Hq) as (Hagain & Hc & Hn).
    assert (bool_decide (pm_status q = PayCompleted) && negb (is_late_capture q (Some o) gp) = false) as ->.
    { destruct Hcase as [[C Lc]|[C _]]; [rewrite (Hc C), Lc; by rewrite andb_false_r|]. by rewrite bool_decide_false by (by apply Hn). }
    rewrite Est, E2, E3, (kr_currency _ _ K), E4, (kr_amount _ _ K), E5, (kr_id _ _ K), Hagain. done.
  - destruct (bool_decide_reflect (pm_status p = PayCompleted)) as [Hc|Hc].
    { injection H as _ <-. by apply Hsame. }
    unfold answered in H. destruct (complete _ _ _ _ w) as [w2|] eqn:Ec; [|by injection H as <- _]. injection H as _ <-.
    destruct (completed_orders _ _ _ _ _ _ Ec) as [O2 P2].
    set (cf := if bool_decide (gw_name g = CASHFREE) then _ else _) in *.
    set (p' := with_captured (Some (py_str gp)) cf (settled_by o p)) in *. destruct (settled_by_row o p) as (S1 & _).
    assert (pm_id p' = pm_id p) as Hid' by exact S1. rewrite Hid' in P2.
    set (done_ := with_pay_status PayCompleted p') in *.
    assert (find_payment (pm_id p) w2 = Some done_) as Hf2.
    { unfold find_payment. rewrite P2. change (find_payment (pm_id p) (update_payment (pm_id p) (fun _ => done_) w) = Some done_).
      rewrite find_payment_update by done. rewrite Hf. cbn. by rewrite Z.eqb_refl. }
    unfold handle_success. rewrite Ho. cbn [negb]. change (default EmptyString (Some o)) with o.
    assert (payment_for_order o None w2 = Some done_) as ->.
    { unfold payment_for_order in *. rewrite Ho in *. unfold find_order in *. rewrite O2. cbn [negb] in *.
      destruct (List.find _ (w_orders w)) as [r|] eqn:Er; [cbn in Hpay; rewrite Hpay; cbn; by rewrite Hf2|].
      rewrite P2. cbn [w_payments update_payment set_payments]. rewrite <- fmap_reverse.
      rewrite find_fmap_same, Ep; [cbn; by rewrite Z.eqb_refl|].
      intros x Hx. rewrite elem_of_reverse in Hx. cbn. destruct (Z.eqb_spec (pm_id x) (pm_id p)) as [E|]; [|done].
      assert (x = p) as -> by (by apply (unique_rows pm_id (w_payments w)); [apply payment_ids_nodup|..]).
      unfold done_, p'. rewrite names_settled by exact Ho. apply find_in in Ep as [_ Ep]. cbn in Ep. by rewrite Ep. }
    unfold done_, p'. rewrite settled_is_not_late by exact Ho. cbn [pm_status with_pay_status]. by rewrite bool_decide_true.
Qed.

Lemma webhook_redelivered_witness :
  let g := demo_gateway ["o13568"] CASHFREE in
  let '(a, w) := handle_success demo_env_paid g (Some "o13568") (Some "p1") demo_ordered in
  a = Settled /\ (handle_success demo_env_paid g (Some "o13568") (Some "p1") w).2 = w.
Proof.
  cbv zeta. destruct (handle_success _ _ _ _ demo_ordered) as [a w] eqn:E.
  assert (a = Settled) as Ha.
  { replace a with (handle_success demo_env_paid (demo_gateway ["o13568"] CASHFREE) (Some "o13568") (Some "p1") demo_ordered).1
      by (rewrite E; reflexivity). vm_compute. reflexivity. }
  split; [exact Ha|]. apply (webhook_redelivered demo_env_paid _ _ _ demo_ordered w a demo_ordered_pay E). rewrite Ha. discriminate.
Defined.

(** ** The rider's wallet *)

(** Settling a driver: no rider's wallet moves and the ledger only grows. *)
Definition driver_side (db db' : Db) : Prop :=
  (forall u, wallets db' !! (u, SCOPE_RIDER) = wallets db !! (u, SCOPE_RIDER)) /\ exists l, txns db' = txns db ++ l.

#[global] Instance driver_side_preorder : PreOrder driver_side.
Proof.
  split; [intros db; split; [done|exists []; by rewrite app_nil_r]|].
  intros a b c [H1 [l H2]] [K1 [k K2]]. split; [intros u; by rewrite K1|]. exists (l ++ k). by rewrite K2, H2, app_assoc.
Qed.

Lemma get_driver_side (u : Z) (db : Db) : driver_side db (get_wallet u SCOPE_DRIVER db).2.
Proof. split; [intros v; cbn; by rewrite lookup_insert_ne|]. exists []. by rewrite app_nil_r. Qed.

Lemma save_driver_side (u b : Z) (db : Db) : driver_side db (save_balance u SCOPE_DRIVER b db).
Proof. split; [intros v; cbn; by rewrite lookup_insert_ne|]. exists []. by rewrite app_nil_r. Qed.

Lemma txn_side (u : Z) (c : string) (n : Z) (ty : txn_type) (p r k : string) (db db' : Db) (i : Z) :
  create_txn u c n ty p r k db = Ok (i, db') -> driver_side db db'.
Proof. intros (_ & _ & ->)%create_txn_ok. split; [done|]. by eexists. Qed.

Lemma same_side (db db' : Db) : wallets db' = wallets db -> txns db' = txns db -> driver_side db db'.
Proof. intros H1 H2. split; [by rewrite H1|]. exists []. by rewrite H2, app_nil_r. Qed.

Lemma settle_all_side (t : Trip) (du : option Z) (cash : bool) (l : list Redemption) (db db' : Db) (n : Z) :
  settle_all t du cash l db = Ok (n, db') -> driver_side db db'.
Proof.
  revert db db' n. induction l as [|r l IH]; intros db db' n; cbn [settle_all]; [by intros [= _ <-]|]. intros H.
  apply res_bind_ok in H as ([n1 db1] & H1 & H). apply res_bind_ok in H as ([m db2] & H2%IH & H). injection H as _ <-.
  etransitivity; [|exact H2]. unfold settle_redemption in H1. destruct (rd_campaign r) as [i|]; [|by injection H1 as _ <-].
  apply res_bind_ok in H1 as (db3 & (c & c' & _ & _ & B)%settle_ok & H1).
  apply res_bind_ok in H1 as ([x db4] & H4 & H1). apply res_bind_ok in H1 as (db5 & (_ & _ & ->)%create_entry_ok & H1).
  injection H1 as _ <-. transitivity db4; [|by apply same_side].
  assert (driver_side db (save_redemption (rd_id r) (with_state STATE_SETTLED) db3)) as H3
    by (apply same_side; cbn; [apply (bo_wallets _ _ _ _ B)|apply (bo_txns _ _ _ _ B)]).
  etransitivity; [exact H3|]. destruct cash, du as [u|]; try (by injection H4 as _ <-).
  apply res_bind_ok in H4 as ([j db6] & H4%txn_side & E). injection E as _ <-. etransitivity; [exact H4|]. apply save_driver_side.
Qed.

Lemma settle_promo_side (env : SettleEnv) (t : Trip) (u : Z) (db : Db) : driver_side db (settle_promo env t u db).
Proof.
  unfold settle_promo, settle_trip. destruct (_ || _); [done|]. destruct (settle_all _ _ _ _ _) as [[n db']|] eqn:E; [|by apply same_side].
  by eapply settle_all_side.
Qed.

Lemma settle_or_defer_side (env : SettleEnv) (t : Trip) (db db' : Db) (b : bool) : settle_or_defer env t db = Ok (b, db') -> driver_side db db'.
Proof.
  unfold settle_or_defer. destruct (credit_driver_wallet env t db) as [db1|e] eqn:E.
  - intros [= _ <-]. unfold credit_driver_wallet in E. destruct (trip_driver t) as [d|]; [|by injection E as <-].
    destruct (is_platform_funded t); [by injection E as <-|].
    apply res_bind_ok in E as (a & _ & E). apply res_bind_ok in E as ([w db2] & Hw & E).
    destruct w as [db3|]; injection E as <-.
    + apply write_settlement_ok in Hw. destruct Hw as (-> & l & _ & _ & _ & _ & _ & F).
      etransitivity; [|apply settle_promo_side]. destruct F as (Ht & _ & _ & _ & [c Hwal]).
      split; [intros v; by rewrite Hwal, !lookup_insert_ne|]. by eexists.
    + apply write_settlement_ok in Hw. destruct Hw as [_ ->]. apply get_driver_side.
  - destruct e; try done. intros [= _ <-]. by apply same_side.
Qed.

Lemma paid_side (env : SettleEnv) (t : Trip) (n : Z) (c : option string) (db db' : Db) (x : option Z) :
  settle_paid_by_platform env t n c db = Ok (x, db') -> driver_side db db'.
Proof.
  unfold settle_paid_by_platform. set (db0 := match trip_driver t with Some _ => _ | None => db end).
  assert (driver_side db db0) as H0 by (unfold db0; destruct (trip_driver t); [apply get_driver_side|done]). intros H.
  etransitivity; [exact H0|]. destruct (current_settlement db0 (trip_id t)) as [cur|].
  - destruct (negb _); [by injection H as _ <-|]. apply res_bind_ok in H as ([y db1] & H1 & H).
    assert (driver_side db0 db1) as Hs.
    { revert H1. unfold credit_fare_collected_by_platform. destruct (trip_driver t) as [d|]; [|by intros [= _ <-]].
      destruct (n <=? 0); [by intros [= _ <-]|]. destruct (get_wallet (se_user_of env d) SCOPE_DRIVER db0) as [wal db2] eqn:E0.
      assert (driver_side db0 db2) as H2 by (injection E0 as _ <-; apply get_driver_side).
      destruct (create_txn _ _ _ _ _ _ _ db2) as [[i db3]|e] eqn:E.
      - intros [= _ <-]. etransitivity; [exact H2|]. apply txn_side in E. etransitivity; [exact E|]. apply save_driver_side.
      - destruct e; try done. intros [= _ <-]. exact H2. }
    destruct y as [i|]; [|by injection H as _ <-]. apply res_bind_ok in H as (db2 & (-> & _)%create_settlement_ok & H).
    injection H as _ <-. etransitivity; [exact Hs|]. by apply same_side.
  - apply res_bind_ok in H as ([b db1] & H1%settle_or_defer_side & H). by injection H as _ <-.
Qed.

(** What a wallet payment of trip [i] leaves: the wallet and its ledger, and the trip's
    payments. *)
Record wallet_paid (w : World) (user i m x : Z) (t : LiveTrip) (wal : Wallet) (w' : World) : Prop := {
  wp_balance : wallets (w_db w') !! (user, SCOPE_RIDER) =
    Some {| balance_minor := balance_minor wal - m; wallet_currency := wallet_currency wal |};
  wp_others : forall v, v <> user -> wallets (w_db w') !! (v, SCOPE_RIDER) = wallets (w_db w) !! (v, SCOPE_RIDER);
  wp_ledger : exists r l, txns (w_db w') = txns (w_db w) ++ r :: l /\ txn_id r = x /\ txn_user r = user /\ amount_minor r = m /\
    txn_type_of r = debit /\ txn_key r = Some (fare_key (trip_id (lt_trip t)));
  wp_trip : w_trips w' !! i = Some (paid_by (Some (OtherMethod "wallet")) (Some "completed") t);
  wp_payments : exists p, p ∈ w_payments w' /\ pm_trip p = i /\ completed_row p /\ pm_amount p = m /\ pm_method p = "wallet";
  wp_closed : forall q, q ∈ w_payments w' -> pm_trip q = i -> pm_status q <> PayPending /\ pm_status q <> PayProcessing
}.

Lemma charge_wallet_spec (env : PayEnv) (t : LiveTrip) (user i m x : Z) (c : string) (wal : Wallet) (w w' : World) :
  w_trips w !! i = Some t -> trip_id (lt_trip t) = i -> lt_rider t = user -> wallets (w_db w) !! (user, SCOPE_RIDER) = Some wal ->
  charge_wallet env t i m c wal w = (WalletCharged x, w') -> wallet_paid w user i m x t wal w'.
Proof.
  intros Ht Hi Hu Hwal. unfold charge_wallet. rewrite Hu, Hi.
  destruct (create_txn _ _ _ _ _ _ _ _) as [[y db]|] eqn:Ex; [|done]. apply create_txn_ok in Ex as (_ & Ey & Edb).
  set (row := wallet_row t m c w). set (closed := closed_by_wallet i (pm_id row) w).
  set (settled := match _ with Some m => _ | None => _ end).
  assert (forall db', settled = Ok db' -> driver_side db db') as Hside.
  { intros db'. unfold settled. destruct (ts_payment_method <$> _) as [pm|].
    - destruct (bool_decide _); [|by intros [= <-]]. intros H. apply res_bind_ok in H as ([z d] & H%paid_side & E). by injection E as <-.
    - intros H. apply res_bind_ok in H as ([z d] & H%settle_or_defer_side & E). by injection E as <-. }
  destruct settled as [db'|]; [|done]. destruct (Hside db' eq_refl) as [Sw [l Sl]]. intros [= <- <-].
  assert (wallets db = wallets (save_balance user SCOPE_RIDER (balance_minor wal - m) (w_db w))) as Ewal by (by rewrite Edb).
  unfold save_balance in Ewal. cbn [wallets set_wallets] in Ewal.
  split; cbn [w_db w_trips w_payments with_db save_trip set_payments].
  - rewrite Sw, Ewal, lookup_insert_eq. unfold wallet_of. by rewrite Hwal.
  - intros v Hv. rewrite Sw, Ewal, lookup_insert_ne; [done|]. congruence.
  - rewrite Sl, Edb. cbn. eexists _, l. rewrite <- app_assoc. rewrite Ey, Hi. done.
  - apply lookup_insert_eq.
  - exists row. split; [apply elem_of_app; right; by apply list_elem_of_singleton|]. by rewrite <- Hi.
  - intros q [Hq|Hq%list_elem_of_singleton]%elem_of_app Hqi; [|by subst q]. cbn in Hq. apply list_elem_of_fmap in Hq as (p & -> & Hp).
    destruct (Z.eqb_spec (pm_trip p) i) as [|N]; cbn [negb] in *; [|done].
    destruct (bool_decide_reflect (pm_status p ∈ [PayPending; PayProcessing])) as [H|H]; destruct (_ && _); cbn; try done; set_solver.
Qed.

(** C21. The wallet pays exactly the fare, once: a successful payment takes from the rider's
    wallet, and from nobody else's, exactly what the rider owes, which the balance covers
    beyond what is held, in the wallet's own currency; it writes one debit, completes one
    payment and closes every other; and paying again answers the first debit and changes
    nothing. *)
Theorem wallet_pays_exactly (env : PayEnv) (user x : Z) (a b : option string) (n : pynum) (w w' : World) :
  pay_ok w -> pay_trip env user a b n w = (WalletCharged x, w') ->
  exists i t wal, let m := payable_minor (w_db w) (lt_trip t) in let currency := currency_for_trip (Some (lt_trip t)) in
    trip_id_from a b = Some i /\ w_trips w !! i = Some t /\ lt_rider t = user /\ lt_status t = TCompleted /\
    wallets (w_db w) !! (user, SCOPE_RIDER) = Some wal /\
    0 < m <= balance_minor wal - te_held (pe_trip env) user currency /\
    (truthy (Some (wallet_currency wal)) = true -> wallet_currency wal = currency) /\
    wallet_paid w user i m x t wal w' /\
    pay_trip env user a b n w' = (Replayed x, w').
Proof.
  intros Hok. unfold pay_trip. destruct (trip_id_from a b) as [i|]; [|done]. destruct (_ && _) eqn:E0; [done|].
  destruct (w_trips w !! i) as [t|] eqn:Et; [|done]. destruct (Z.eqb_spec (trip_rider (lt_trip t)) user) as [Eu|]; cbn [negb]; [|done].
  destruct (bool_decide_reflect (lt_status t = TCompleted)) as [Es|]; cbn [negb]; [|done].
  destruct (replay _ _ _) as [r0|] eqn:Er; [done|]. destruct (_ || _); [done|]. destruct (bool_decide _); [done|]. cbv zeta.
  destruct (Z.leb_spec (payable_minor (w_db w) (lt_trip t)) 0) as [|Hm]; [done|].
  match goal with |- match ?x with Ok _ => _ | Err _ => _ end = _ -> _ => destruct x as [[]|]; try done end.
  destruct (wallets (w_db w) !! (user, SCOPE_RIDER)) as [wal|] eqn:Ew; [|done].
  destruct (truthy (Some (wallet_currency wal)) && _) eqn:Ec; [done|]. destruct (Z.ltb_spec (balance_minor wal - te_held (pe_trip env) user
    (currency_for_trip (Some (lt_trip t)))) (payable_minor (w_db w) (lt_trip t))) as [|Hb]; [done|]. intros H.
  assert (trip_id (lt_trip t) = i) as Hi by (by apply (ok_trips _ Hok)).
  pose proof (charge_wallet_spec _ _ user _ _ _ _ _ _ _ Et Hi Eu Ew H) as S.
  exists i, t, wal. cbv zeta. split; [done|]. split; [done|]. split; [done|]. split; [done|]. split; [done|]. split; [lia|].
  split; [|split; [exact S|]].
  - intros Htr. rewrite Htr in Ec. by apply negb_false_iff, bool_decide_eq_true in Ec.
  - rewrite (wp_trip _ _ _ _ _ _ _ _ S). cbn [lt_trip paid_by lt_status trip_rider trip_id]. rewrite Eu, Z.eqb_refl, Es. cbn [negb].
    destruct (wp_ledger _ _ _ _ _ _ _ _ S) as (r & l & El & <- & Hru & _ & _ & Hrk).
    assert (replay user (trip_id (lt_trip t)) (w_db w') = Some r) as ->.
    { unfold replay in *. rewrite El. rewrite find_app by exact Er. cbn. rewrite Hru, Z.eqb_refl, andb_true_r.
      by rewrite bool_decide_true. }
    done.
Qed.

(** Rider 5 has 200.00 rupees. *)
Definition demo_with_wallet : World :=
  let db := w_db demo_completed in
  with_db (set_wallets (<[(5, SCOPE_RIDER) := {| balance_minor := 20000; wallet_currency := "INR" |}]> (wallets db)) db) demo_completed.

Lemma wallet_pays_exactly_witness :
  let '(a, w) := pay_trip demo_env_paid 5 (Some " TRIP_1 ") None (PyStr "135.68") demo_with_wallet in
  exists x, a = WalletCharged x /\ pay_trip demo_env_paid 5 (Some " TRIP_1 ") None (PyStr "135.68") w = (Replayed x, w) /\
    wallets (w_db w) !! (5, SCOPE_RIDER) = Some {| balance_minor := 6432; wallet_currency := "INR" |}.
Proof.
  destruct (pay_trip _ _ _ _ _ demo_with_wallet) as [a w] eqn:E.
  assert (exists x, a = WalletCharged x) as [x Hx].
  { exists (next_id (w_db demo_with_wallet)). transitivity (pay_trip demo_env_paid 5 (Some " TRIP_1 ") None (PyStr "135.68") demo_with_wallet).1;
      [rewrite E; reflexivity|]. vm_compute. reflexivity. }
  exists x. split; [exact Hx|]. rewrite Hx in E.
  assert (pay_ok demo_with_wallet) as Hok by (apply tables_ok_pay; vm_compute; reflexivity).
  destruct (wallet_pays_exactly demo_env_paid 5 x _ None _ demo_with_wallet w Hok E) as (i & t & wal & _ & _ & _ & _ & Hw & _ & _ & P & R).
  split; [exact R|]. replace w with (pay_trip demo_env_paid 5 (Some " TRIP_1 ") None (PyStr "135.68") demo_with_wallet).2 by (rewrite E; reflexivity).
  vm_compute. reflexivity.
Defined.

(** ** The refund a rider asks for *)

Lemma filter_unique {A : Type} (f : A -> bool) (l : list A) (x : A) :
  base.NoDup l -> x ∈ l -> f x = true -> (forall y, y ∈ l -> f y = true -> y = x) -> List.filter f l = [x].
Proof.
  intros Hn Hx Hf Hu. induction l as [|z l IH]; [by apply not_elem_of_nil in Hx|]. apply NoDup_cons in Hn as [Hz Hn].
  assert (forall k, (forall y, y ∈ k -> f y = true -> y = x) -> x ∉ k -> List.filter f k = []) as Hnil.
  { clear. intros k. induction k as [|y k IH]; [done|]. intros H N. cbn. destruct (f y) eqn:E; [|apply IH; [|set_solver]].
    - exfalso. apply N. rewrite <- (H y); [by left|by left|done].
    - intros u Hu. apply H. by right. }
  cbn. apply elem_of_cons in Hx as [<-|Hx].
  - rewrite Hf. f_equal. apply Hnil; [|done]. intros y Hy. apply Hu. by right.
  - destruct (f z) eqn:E; [exfalso; apply Hz; rewrite (Hu z); [done|by left|done]|]. apply IH; [done|done|].
    intros y Hy. apply Hu. by right.
Qed.

(** A trip whose one completed payment is in its own currency was paid exactly that. *)
Lemma paid_by_one (w : World) (t : LiveTrip) (p : PaymentRow) :
  pay_ok w -> p ∈ payments_of (trip_id (lt_trip t)) w -> completed_row p -> pm_currency p = trip_currency (lt_trip t) -> 0 < pm_amount p ->
  paid_minor t w = pm_amount p.
Proof.
  intros Hok Hp Hc Hcur Hm. unfold paid_minor. rewrite (filter_unique _ _ p).
  - cbn. rewrite Z.add_0_r. destruct (Z.eqb_spec (pm_amount p) 0); [lia|done].
  - apply NoDup_ListNoDup, List.NoDup_filter, NoDup_ListNoDup, (NoDup_fmap_1 pm_id). by apply payment_ids_nodup.
  - done.
  - rewrite !bool_decide_true by done. done.
  - apply elem_of_filter_b in Hp as [Hp Ht%Z.eqb_eq]. intros q [Hq Hqt%Z.eqb_eq]%elem_of_filter_b [Hqc%bool_decide_eq_true _]%andb_true_iff.
    apply (ok_one _ Hok q p); [exact Hq|exact Hp|congruence|exact Hqc|exact Hc].
Qed.

Lemma give_back_ok (t : Trip) (p : PaymentRow) (a : dec) (n : Z) (md m : refund_mode) (g : Gateway) (r : string) (w w' : World) :
  give_back t p a n md g r w = Ok (Some m, w') ->
  w_payments w' = w_payments w /\ w_trips w' = w_trips w /\ w_actions w' = w_actions w /\ w_orders w' = w_orders w /\
  match m with
  | original => w_refunds w' = w_refunds w ++ [{| gr_payment := r; gr_amount := n; gr_currency := pm_currency p |}]
  | credit_mode => md = credit_mode /\ w_refunds w' = w_refunds w
  end.
Proof.
  unfold give_back. destruct md.
  - destruct (create_refund _ _ _ _); [|done..]. by intros [= <- <-].
  - intros H. apply res_bind_ok in H as ([c db] & _ & H). destruct c; [by injection H as <- <-|by injection H as <- <-|].
    destruct (create_refund _ _ _ _); [|done..]. by injection H as <- <-.
Qed.

Lemma book_refund_full (env : PayEnv) (t : LiveTrip) (p : PaymentRow) (a : dec) (n : Z) (m : refund_mode) (w w' : World) :
  let i := trip_id (lt_trip t) in
  pm_trip p = i -> pm_currency p = trip_currency (lt_trip t) -> paid_minor t w = refunded_minor t w + n ->
  book_refund env t p a n m w = Ok w' ->
  w_payments w' = w_payments (save_payment (pm_id p) PayRefunded w) /\ w_trips w' = <[i := with_payment_status "refunded" t]> (w_trips w) /\
  w_refunds w' = w_refunds w.
Proof.
  intros i Hi Hc Hpaid. unfold book_refund. set (act := {| ma_trip := _ |}).
  assert (refundable_minor t (set_actions (w_actions w ++ [act]) w) = 0) as ->.
  { unfold refundable_minor, refunded_minor. cbn [w_actions set_actions]. rewrite List.filter_app, zsum_app. cbn [List.filter].
    change (paid_minor t (set_actions _ w)) with (paid_minor t w).
    assert (ma_trip act =? trip_id (lt_trip t) = true) as -> by (by apply Z.eqb_eq).
    rewrite (bool_decide_true (ma_kind act = REFUND)), (bool_decide_true (ma_currency act = _)) by done.
    rewrite (bool_decide_true (ma_status act ∈ _)) by (unfold act; cbn; destruct m; set_solver). cbn. unfold refunded_minor in Hpaid. lia. }
  rewrite Z.eqb_refl. destruct (lt_driver t) as [d|]; [|intros [= <-]; by rewrite Hi]. intros H. apply res_bind_ok in H as (w3 & H3 & H).
  apply res_bind_ok in H as (h & _ & H). injection H as <-. cbn [w_payments w_trips w_refunds set_paid].
  apply res_bind_ok in H3 as ([x db] & _ & H3). destruct (k ← x; _) as [r|]; [|injection H3 as <-; by rewrite Hi].
  apply res_bind_ok in H3 as (y & _ & H3). apply res_bind_ok in H3 as (z & _ & H3). injection H3 as <-. by rewrite Hi.
Qed.

(** A rider who asks for a refund gets the rest of what they paid, once: the ride is their
    own and cancelled, the refund is positive and, with everything refunded before, exactly
    the payment; at the provider it is asked once, by its amount and currency; the payment and
    the ride end as refunded, and asking again, in either mode, finds nothing and changes
    nothing. *)
Theorem refund_gives_the_rest (env : PayEnv) (user i n : Z) (md m : refund_mode) (w w' : World) :
  pay_ok w -> (forall a, a ∈ w_actions w -> 0 <= ma_amount a) ->
  (forall p t, paid_online i w = Some p -> w_trips w !! i = Some t -> pm_currency p = trip_currency (lt_trip t)) ->
  refund_payment env user i md w = (Refunded m n, w') ->
  exists t p, w_trips w !! i = Some t /\ lt_rider t = user /\ lt_status t = TCancelled /\ paid_online i w = Some p /\
    0 < n /\ n + refunded_minor t w = pm_amount p /\
    match m with
    | original => exists ref, w_refunds w' = w_refunds w ++ [{| gr_payment := ref; gr_amount := n; gr_currency := pm_currency p |}]
    | credit_mode => md = credit_mode /\ w_refunds w' = w_refunds w
    end /\
    find_payment (pm_id p) w' = Some (with_pay_status PayRefunded p) /\
    w_trips w' !! i = Some (with_payment_status "refunded" t) /\
    forall md', refund_payment env user i md' w' = (NoOnlinePayment, w').
Proof.
  intros Hok Hpos Hcur. unfold refund_payment at 1. destruct (w_trips w !! i) as [t|] eqn:Et; [|done].
  destruct (Z.eqb_spec (lt_rider t) user) as [Eu|]; cbn [negb]; [|done].
  destruct (bool_decide_reflect (lt_status t = TCancelled)) as [Es|]; cbn [negb]; [|done].
  destruct (paid_online i w) as [p|] eqn:Ep; [|done]. destruct (paid_online_in _ _ _ Ep) as (Hp & Hm & Hst).
  specialize (Hcur p t eq_refl eq_refl). pose proof (ok_trips _ Hok i t Et) as Hi.
  destruct (negb _); [done|]. destruct (gateway_named _ _) as [g|]; [|done]. destruct (negb _); [done|].
  destruct (Z.leb_spec (Z.min (pm_amount p) (refundable_minor t w)) 0) as [|Hn]; [done|].
  assert (paid_minor t w = pm_amount p) as Hpaid by (apply paid_by_one; [done|by rewrite Hi|done|done|lia]).
  assert (0 <= refunded_minor t w) as Hr0.
  { unfold refunded_minor. apply zsum_nonneg. intros a [Ha _]%elem_of_filter_b. by apply Hpos. }
  assert (Z.min (pm_amount p) (refundable_minor t w) = pm_amount p - refunded_minor t w) as En by (unfold refundable_minor in *; lia).
  rewrite En in *. destruct (from_minor_Z _ _) as [a|]; [|done].
  destruct (give_back _ _ _ _ _ _ _ w) as [[[m'|] w1]|] eqn:Eg; try done. apply give_back_ok in Eg as (P1 & T1 & A1 & O1 & R1).
  destruct (book_refund _ _ _ _ _ _ w1) as [w2|] eqn:Eb; [|done]. intros [= -> <- <-].
  assert (pm_trip p = i) as Htr by (by apply elem_of_filter_b in Hp as [_ ?%Z.eqb_eq]).
  apply book_refund_full in Eb as (P2 & T2 & R2); [|congruence|exact Hcur|].
  2:{ unfold paid_minor, refunded_minor, payments_of in *. rewrite P1, A1. lia. }
  rewrite Hi, T1 in T2.
  assert (w_payments w2 = w_payments (save_payment (pm_id p) PayRefunded w)) as P3 by (rewrite P2; unfold save_payment; cbn; by rewrite P1).
  exists t, p. do 4 (split; [done|]). split; [lia|]. split; [lia|]. split.
  { rewrite R2. destruct m; [by eexists|done]. }
  split; [|split; [by rewrite T2, lookup_insert_eq|]].
  - unfold find_payment. rewrite P3. change (find_payment (pm_id p) (update_payment (pm_id p) (with_pay_status PayRefunded) w) = Some (with_pay_status PayRefunded p)).
    rewrite find_payment_update by done. apply elem_of_filter_b in Hp as [Hp _]. rewrite (find_payment_row w p Hok Hp). cbn. by rewrite Z.eqb_refl.
  - intros md'. unfold refund_payment. rewrite T2, lookup_insert_eq. 
    change (lt_rider (with_payment_status "refunded" t)) with (lt_rider t). change (lt_status (with_payment_status "refunded" t)) with (lt_status t).
    rewrite Eu, Z.eqb_refl, bool_decide_true by done. cbn [negb].
    assert (paid_online i w2 = None) as ->; [|done].
    destruct (paid_online i w2) as [q|] eqn:Eq; [|done]. exfalso. destruct (paid_online_in _ _ _ Eq) as (Hq & _ & Hqs).
    unfold payments_of in Hq. rewrite P3 in Hq. apply (payments_saved i) in Hq as (p' & Hp' & ->).
    revert Hqs. destruct (Z.eqb_spec (pm_id p') (pm_id p)) as [|Hne]; [done|]. intros Hqs. apply Hne. f_equal.
    apply elem_of_filter_b in Hp as [Hp _], Hp' as [Hp' Ht'%Z.eqb_eq]. apply (ok_one _ Hok p' p); [exact Hp'|exact Hp|congruence|exact Hqs|exact Hst].
Qed.

(** The ride was paid online and is cancelled. *)
Definition demo_cancelled_world : World := save_trip 1 demo_cancelled demo_paid.

Lemma refund_gives_the_rest_witness :
  let '(a, w) := refund_payment demo_env_paid 5 1 credit_mode demo_cancelled_world in
  a = Refunded credit_mode 13568 /\ refund_payment demo_env_paid 5 1 original w = (NoOnlinePayment, w).
Proof.
  destruct (refund_payment _ _ _ _ demo_cancelled_world) as [a w] eqn:E.
  assert (a = Refunded credit_mode 13568) as Ha.
  { transitivity (refund_payment demo_env_paid 5 1 credit_mode demo_cancelled_world).1; [rewrite E; reflexivity|]. vm_compute. reflexivity. }
  split; [exact Ha|]. rewrite Ha in E.
  destruct (refund_gives_the_rest demo_env_paid 5 1 13568 credit_mode credit_mode demo_cancelled_world w) as (t & p & _ & _ & _ & _ & _ & _ & _ & _ & _ & H).
  - apply tables_ok_pay. vm_compute. reflexivity.
  - assert (w_actions demo_cancelled_world = []) as -> by (vm_compute; reflexivity). intros x Hx%not_elem_of_nil. destruct Hx.
  - assert (pm_currency <$> paid_online 1 demo_cancelled_world = Some "INR"%string) as Hc by (vm_compute; reflexivity).
    assert ((fun t => trip_currency (lt_trip t)) <$> w_trips demo_cancelled_world !! 1 = Some "INR"%string) as Hd by (vm_compute; reflexivity).
    intros p t Hp Ht. rewrite Hp in Hc. rewrite Ht in Hd. cbn in Hc, Hd. congruence.
  - exact E.
  - apply H.
Defined.

(** ** Where a payment is lost *)

Lemma payments_of_map (i : Z) (f : PaymentRow -> PaymentRow) (w : World) :
  (forall p, pm_trip (f p) = pm_trip p) -> payments_of i (set_payments (f <$> w_payments w) w) = f <$> payments_of i w.
Proof.
  intros Hf. unfold payments_of. cbn [w_payments set_payments]. induction (w_payments w) as [|p l IH]; [done|].
  cbn. rewrite Hf. destruct (_ =? _); cbn; by rewrite IH.
Qed.

Lemma online_words (m : string) : m ∈ ["upi"; "wallet"; "online"] -> m ∈ ["cash"; "upi"; "wallet"; "online"] /\ m <> "cash".
Proof. set_solver. Qed.

(** A refused switch loses the cash: when the ride's country has no live provider, asking to
    pay online answers a refusal from inside the transaction, which commits: the pending
    payment is left failed with nothing in its place, so that the driver, who is handed the
    cash, can no longer confirm it.  The refusal reads as if nothing had happened. *)
Theorem refused_switch_loses_cash (env : PayEnv) (user i : Z) (m : string) (t : LiveTrip) (p : PaymentRow) (w : World) :
  pay_ok w -> w_trips w !! i = Some t -> lt_rider t = user -> lt_status t = TCompleted -> payment_status t <> Some "completed" ->
  m ∈ ["upi"; "wallet"; "online"] -> gw_live (gateway_of_trip (pe_providers env) (lt_trip t)) = false ->
  latest (fun _ => true) i w = Some p -> pm_status p <> PayCompleted -> pm_method p = "cash" ->
  is_ok (from_minor_Z (payable_minor (w_db w) (lt_trip t)) (Some (currency_for_trip (Some (lt_trip t))))) = true ->
  not_charged (w_db w) (lt_trip t) = None ->
  let '(a, w') := switch_payment_method env user i m w in
  a = CurrencyRefused /\ w' = update_payment (pm_id p) (with_pay_status PayFailed) w /\
  confirm_cash_payment (pe_trip env) i w' = (Failure None None NoLongerCash, w').
Proof.
  intros Hok Ht Hu Hs Hps Hm Hg Hl Hp Hcash Hamount Hnot. unfold switch_payment_method.
  destruct (online_words m Hm) as [Hall Hmc]. rewrite (bool_decide_true (m ∈ _)) by exact Hall.
  rewrite (bool_decide_false (m = "cash")) by done. cbn [negb andb]. rewrite Ht, Hs, bool_decide_true by done. cbn [negb].
  unfold lt_rider in Hu. rewrite Hu, Z.eqb_refl. cbn [negb]. rewrite Hl. unfold settle_if_paid. rewrite Hg. cbn [negb].
  destruct (latest_in _ _ _ _ Hl) as (Hin & Hti & _). unfold switch_locked. rewrite (find_payment_row w p Hok Hin).
  rewrite bool_decide_false by done. cbv zeta. set (w1 := update_payment (pm_id p) (with_pay_status PayFailed) w).
  change (w_db w1) with (w_db w). destruct (from_minor_Z _ _) as [a|]; [|done].
  assert (is_platform_funded (lt_trip t) || (true && is_fully_covered (w_db w) (lt_trip t)) = false) as ->.
  { unfold not_charged in Hnot. destruct (is_platform_funded _); [done|]. by destruct (is_fully_covered _ _). }
  assert (online_payment_currency (gateway_of_trip (pe_providers env) (lt_trip t)) (lt_trip t) = None) as ->.
  { unfold gateway_of_trip in *. destruct (resolve _ _ _ _) as [g|] eqn:Er; cbn [default] in *; [|done]. change (id g) with g in *.
    apply resolve_dead in Er as [x ->]; [done|exact Hg]. }
  split; [done|]. split; [done|]. unfold confirm_cash_payment. change (w_trips w1) with (w_trips w). rewrite Ht, Hs.
  rewrite (bool_decide_false (payment_status t = _)) by done. rewrite andb_false_r, (ok_trips _ Hok i t Ht), bool_decide_true by done. cbn [negb].
  assert (last_cash i w1 = Some (with_pay_status PayFailed p)) as ->; [|done].
  unfold last_cash, w1, update_payment. rewrite payments_of_map by (intros q; by destruct (_ =? _)). rewrite <- fmap_reverse.
  unfold latest in Hl. destruct (reverse (payments_of i w)) as [|q l]; [done|]. cbn in Hl. injection Hl as ->. cbn.
  rewrite Z.eqb_refl. cbn. by rewrite bool_decide_true.
Qed.

Definition demo_no_provider : PayEnv := demo_pay_env EmptyString [].

Lemma refused_switch_loses_cash_witness :
  let w := (switch_payment_method demo_no_provider 5 1 "online" demo_completed).2 in
  confirm_cash_payment (pe_trip demo_no_provider) 1 w = (Failure None None NoLongerCash, w).
Proof.
  destruct (w_trips demo_completed !! 1) as [t|] eqn:Et; [|exfalso; vm_compute in Et; discriminate].
  destruct (latest (fun _ => true) 1 demo_completed) as [p|] eqn:Ep; [|exfalso; vm_compute in Ep; discriminate].
  pose proof (refused_switch_loses_cash demo_no_provider 5 1 "online" t p demo_completed demo_completed_pay Et) as H.
  destruct (switch_payment_method _ _ _ _ demo_completed) as [a w]. cbv zeta. cbn [snd].
  vm_compute in Et. vm_compute in Ep. injection Et as <-. injection Ep as <-.
  apply H; try (vm_compute; reflexivity); try (vm_compute; discriminate). right; right; left.
Defined.

(** Reports on a payment whose row is failed settle nothing. *)
Lemma failed_never_settles (env : PayEnv) (p : PaymentRow) (g src o : string) (gp : option string) (info : OrderInfo) (w : World) :
  pay_ok w -> truthy (Some o) = true -> find_payment (pm_id p) w = Some p -> pm_status p = PayFailed ->
  (let '(a, w') := webhook_locked env (pm_id p) g o gp w in
   (a = PaidAlready \/ a = PaymentRaised) /\ w_trips w' = w_trips w /\ exists al, w_db w' = set_alerts al (w_db w)) /\
  (let '(a, w') := poll_locked env (pm_id p) g src o info w in
   (a = PaidAlready \/ a = PaymentRaised) /\ w_trips w' = w_trips w /\ exists al, w_db w' = set_alerts al (w_db w)).
Proof.
  intros Hok Ho Hp Hs. destruct (find_payment_in _ _ _ Hp) as [Hin _]. destruct (ok_fk _ Hok p Hin) as [l Hl].
  assert (trip_of p w = Some (lt_trip l)) as Ht by (unfold trip_of; by rewrite Hl).
  assert (superseded p w = true) as Hsup by (unfold superseded; rewrite (bool_decide_true (pm_status p ∈ _)); [done|rewrite Hs; left]).
  assert (bool_decide (pm_status p = PayCompleted) = false) as Hn by (apply bool_decide_eq_false; rewrite Hs; discriminate).
  assert (forall gp' src', let '(a, w') := too_late env (lt_trip l) p g gp' src' (Some o) w in
    (a = PaidAlready \/ a = PaymentRaised) /\ w_trips w' = w_trips w /\ exists al, w_db w' = set_alerts al (w_db w)) as H.
  { intros gp' src'. destruct (too_late _ _ _ _ _ _ _ w) as [a w'] eqn:E.
    destruct (too_late_spec env (lt_trip l) p p g gp' src' o w w' a Hok Ho Hp eq_refl E) as [[-> ->]|[-> L]].
    - split; [by right|]. split; [done|]. exists (alert_table (w_db w)). by destruct (w_db w).
    - split; [by left|]. split; [apply (lr_trips _ _ _ _ _ L)|apply (lr_db _ _ _ _ _ L)]. }
  split.
  - unfold webhook_locked. rewrite Hp, Ht, Hn, Hsup. cbn [negb andb]. rewrite orb_true_r. apply H.
  - unfold poll_locked. rewrite Hp, Ht, Hn, Hsup. apply H.
Qed.

(** Verifying too early loses the payment: a verification the provider does not confirm fails
    the payment it is asked about, and for good.  A completed payment asked about by another
    of its orders stops being completed, with its driver settled and its ride shown as paid;
    and whatever capture the webhook, the poll or the reconciliation then report, on any of
    its orders, settles nothing any more.  A comment of the retry says that such a capture
    would settle the trip through the failed row. *)
Theorem early_verify_loses_payment (env : PayEnv) (user : Z) (o : string) (gp sg gn : option string) (g : Gateway) (p : PaymentRow) (w : World) :
  pay_ok w -> payment_for_order o (Some user) w = Some p -> (completed_row p -> is_late_capture p (Some o) gp = true) ->
  truthy (Some (pm_gateway p)) = true -> gateway_named (pe_providers env) (pm_gateway p) = Some g -> gw_live g = true ->
  gw_name g <> RAZORPAY -> gw_verify g o None None = false ->
  let '(a, w') := verify_payment env user (Some o) gp sg gn w in
  a = BadSignature /\ find_payment (pm_id p) w' = Some (with_pay_status PayFailed p) /\ w_trips w' = w_trips w /\ w_db w' = w_db w /\
  (completed_row p -> forall q, q ∈ w_payments w' -> pm_trip q = pm_trip p -> ~ completed_row q) /\
  forall name src o' gp' info, truthy (Some o') = true ->
    (let '(b, w2) := webhook_locked env (pm_id p) name o' gp' w' in
     b <> Settled /\ w_trips w2 = w_trips w /\ settlements (w_db w2) = settlements (w_db w)) /\
    (let '(b, w2) := poll_locked env (pm_id p) name src o' info w' in
     b <> Settled /\ w_trips w2 = w_trips w /\ settlements (w_db w2) = settlements (w_db w)).
Proof.
  intros Hok Hfor Hlate Hgw Hg Hlive Hname Hv. unfold verify_payment.
  destruct (truthy (Some o)) eqn:Ho; [|unfold payment_for_order in Hfor; by rewrite Ho in Hfor]. cbn [negb].
  change (default EmptyString (Some o)) with o. rewrite Hfor.
  assert (bool_decide (pm_status p = PayCompleted) && negb (is_late_capture p (Some o) gp) = false) as ->.
  { destruct (bool_decide_reflect (pm_status p = PayCompleted)) as [C|]; [by rewrite (Hlate C)|done]. }
  rewrite Hgw, Hg, Hlive, (bool_decide_false (gw_name g = _)), Hv by done. cbn [negb]. set (w' := update_payment _ _ w).
  assert (p ∈ w_payments w) as Hin.
  { unfold payment_for_order in Hfor. rewrite Ho in Hfor. cbn [negb] in Hfor. destruct (find_order o w) as [r|].
    - cbn in Hfor. destruct (find_payment (po_payment r) w) as [q|] eqn:Eq; [|done]. cbn in Hfor. destruct (pm_user q =? user); [|done].
      injection Hfor as ->. by apply find_payment_in in Eq as [? _].
    - apply find_in in Hfor as [H _]. by rewrite elem_of_reverse in H. }
  pose proof (find_payment_row w p Hok Hin) as Hf.
  assert (find_payment (pm_id p) w' = Some (with_pay_status PayFailed p)) as Hf'.
  { unfold w'. rewrite find_payment_update by done. rewrite Hf. cbn. by rewrite Z.eqb_refl. }
  split; [done|]. split; [exact Hf'|]. split; [done|]. split; [done|]. split.
  - intros Hc q (q0 & -> & Hq)%list_elem_of_fmap. destruct (Z.eqb_spec (pm_id q0) (pm_id p)) as [|N]; [done|]. intros Ht Hcq.
    apply N. f_equal. apply (ok_one _ Hok q0 p); done.
  - intros name src o' gp' info Ho'. assert (pay_ok w') as Hok' by (eapply moves_ok; [by apply (moves_status (pm_id p) PayFailed w)|exact Hok]).
    destruct (failed_never_settles env (with_pay_status PayFailed p) name src o' gp' info w' Hok' Ho' Hf' eq_refl) as [H1 H2].
    change (pm_id (with_pay_status PayFailed p)) with (pm_id p) in *. split.
    + destruct (webhook_locked _ _ _ _ _ _) as [b w2]. destruct H1 as ([->| ->] & -> & al & ->); done.
    + destruct (poll_locked _ _ _ _ _ _ _) as [b w2]. destruct H2 as ([->| ->] & -> & al & ->); done.
Qed.

(** Nothing has been captured yet. *)
Definition demo_env_unpaid : PayEnv := demo_pay_env CASHFREE [].

Lemma early_verify_loses_payment_witness :
  exists p, payment_for_order "o13568" (Some 5) demo_ordered = Some p /\
  let '(a, w) := verify_payment demo_env_unpaid 5 (Some "o13568") None None None demo_ordered in
  a = BadSignature /\ (webhook_locked demo_env_unpaid (pm_id p) CASHFREE "o13568" (Some "p1") w).1 <> Settled.
Proof.
  destruct (payment_for_order "o13568" (Some 5) demo_ordered) as [p|] eqn:Ep; [|exfalso; vm_compute in Ep; discriminate].
  exists p. split; [reflexivity|].
  pose proof (early_verify_loses_payment demo_env_unpaid 5 "o13568" None None None (demo_gateway [] CASHFREE) p demo_ordered demo_ordered_pay Ep) as H.
  destruct (verify_payment _ _ _ _ _ _ demo_ordered) as [a w].
  vm_compute in Ep. injection Ep as <-.
  destruct (H ltac:(vm_compute; discriminate) eq_refl ltac:(vm_compute; reflexivity) eq_refl ltac:(discriminate) ltac:(vm_compute; reflexivity))
    as (H1 & _ & _ & _ & _ & H2).
  split; [exact H1|]. destruct (H2 CASHFREE EmptyString "o13568" (Some "p1") {| oi_status := EmptyString; oi_amount := PyNone; oi_payment := None |} eq_refl) as [H3 _].
  destruct (webhook_locked _ _ _ _ _ w). apply H3.
Defined.

(** A retry forgets the order it replaces: it writes the new order over the old one on the
    failed payment and remembers neither, so a rider who pays the first checkout after all is
    told that no payment is known, by webhook and verification alike; and when the failed
    payment had been replaced by a switch, the new order can never settle it.  The table of
    orders promises that a capture on any order ever issued settles the trip. *)
Theorem retry_forgets_order (env : PayEnv) (user i k : Z) (o : string) (o' : option string) (p : PaymentRow) (w w' : World) :
  pay_ok w -> (forall t, w_trips w !! i = Some t -> settle_if_paid env i (gateway_of_trip (pe_providers env) (lt_trip t)) w = (Some false, w)) ->
  retry_payment env user i w = (OrderIssued k o', w') ->
  find_payment k w = Some p -> find_order o w = None -> o' <> Some o ->
  (forall q, q ∈ w_payments w -> names_order o q = true -> q = p) ->
  w_orders w' = w_orders w /\ (exists q, find_payment k w' = Some q /\ pm_order q = o' /\ (is_Some (pm_replaced_by p) -> superseded q w' = true)) /\
  (forall u, payment_for_order o u w' = None) /\
  forall g gp, (handle_success env g (Some o) gp w').2 = w'.
Proof.
  intros Hok Hset. unfold retry_payment. destruct (w_trips w !! i) as [t|] eqn:Et; [|done]. destruct (negb _); [done|].
  destruct (latest _ i w) as [p0|] eqn:El; [|done]. rewrite (Hset t eq_refl). destruct (bool_decide _); [done|].
  destruct (from_minor_Z _ _) as [a|]; [|done]. unfold retry_locked. destruct (find_payment (pm_id p0) w) as [p1|] eqn:Ep; [|done].
  destruct (bool_decide _); [done|]. destruct (online_payment_currency _ _) as [c|]; [|done]. set (g0 := gateway_of_trip _ _).
  intros [= Ek Eo <-]. intros Hf Hno Hne Huniq. rewrite <- Ek, Ep in Hf. injection Hf as ->.
  destruct (find_payment_in _ _ _ Ep) as [Hin Hid]. rewrite Eo.
  set (w2 := save_trip i _ _). assert (find_payment k w2 = Some (retried (gw_name g0) o' p)) as Hf2.
  { change (find_payment k (update_payment (pm_id p0) (retried (gw_name g0) o') w) = Some (retried (gw_name g0) o' p)).
    rewrite find_payment_update by done. rewrite <- Ek, Ep. cbn. by rewrite Hid, Z.eqb_refl. }
  assert (forall u, payment_for_order o u w2 = None) as Hlost.
  { intros u. unfold payment_for_order. destruct (negb _); [done|]. change (find_order o w2) with (find_order o w). rewrite Hno.
    destruct (List.find _ _) as [q|] eqn:Eq; [|done]. exfalso. apply find_in in Eq as [Hq [_ Hn]%andb_true_iff].
    rewrite elem_of_reverse in Hq. cbn in Hq. apply list_elem_of_fmap in Hq as (q0 & -> & Hq).
    destruct (Z.eqb_spec (pm_id q0) (pm_id p0)) as [E|N].
    - unfold names_order in Hn. cbn in Hn. rewrite !bool_decide_false in Hn by done. done.
    - apply N. rewrite <- Hid. f_equal. by apply Huniq. }
  split; [done|]. split; [|split; [exact Hlost|]].
  - eexists. split; [exact Hf2|]. split; [done|]. intros Hr. unfold superseded. cbn [pm_replaced_by retried].
    rewrite (bool_decide_true (is_Some _)) by exact Hr. by rewrite orb_true_r.
  - intros g gp. unfold handle_success. destruct (negb _); [done|]. change (default EmptyString (Some o)) with o. by rewrite Hlost.
Qed.

(** The rider has switched to paying online and verified too early; the provider names its next
    order otherwise. *)
Definition demo_switched : World :=
  (verify_payment demo_env_unpaid 5 (Some "o13568") None None None (switch_payment_method demo_env_unpaid 5 1 "online" demo_completed).2).2.

Definition demo_env_again : PayEnv := {|
  pe_trip := demo_trip_env;
  pe_providers := {| ps_table := fun _ => ∅; ps_legacy := fun _ => CASHFREE; ps_adapter := fun _ name => {|
    gw_live := true; gw_name := name; supported_currencies := ["INR"]; gw_create_order := fun _ _ => Some "again";
    get_order_status := fun _ => NoInfo; gw_verify := fun _ _ _ => false; gw_captured := fun _ => None;
    create_refund := fun _ _ _ => RefundRefused |} |};
  cash_disabled_for := fun _ => false |}.

Lemma retry_forgets_order_witness :
  let w := (retry_payment demo_env_again 5 1 demo_switched).2 in
  payment_for_order "o13568" None demo_switched <> None /\ payment_for_order "o13568" None w = None.
Proof.
  split; [vm_compute; discriminate|]. destruct (retry_payment demo_env_again 5 1 demo_switched) as [a w] eqn:E. cbn [snd].
  assert (a = OrderIssued 1 (Some "again")) as Ha.
  { transitivity (retry_payment demo_env_again 5 1 demo_switched).1; [rewrite E; reflexivity|]. vm_compute. reflexivity. }
  rewrite Ha in E. destruct (find_payment 1 demo_switched) as [p|] eqn:Ep; [|exfalso; vm_compute in Ep; discriminate].
  destruct (w_trips demo_switched !! 1) as [t|] eqn:Et; [|exfalso; vm_compute in Et; discriminate].
  destruct (retry_forgets_order demo_env_again 5 1 1 "o13568" (Some "again") p demo_switched w) as (_ & _ & H & _).
  - apply tables_ok_pay. vm_compute. reflexivity.
  - intros t' Ht'. rewrite Et in Ht'. injection Ht' as <-. vm_compute in Et. injection Et as <-. vm_compute. reflexivity.
  - exact E.
  - exact Ep.
  - vm_compute. reflexivity.
  - discriminate.
  - assert (List.filter (names_order "o13568") (w_payments demo_switched) = [p]) as Hl
      by (vm_compute in Ep; injection Ep as <-; vm_compute; reflexivity).
    intros q Hq Hn. apply list_elem_of_singleton. rewrite <- Hl. apply elem_of_filter_b. split; [exact Hq|exact Hn].
  - apply H.
Defined.
