(* ===== verification/RefundBooks.v ===== *)
(** * RefundBooks: who else writes that money was given back

    Besides the console two operations write a refund of a trip: the rider's own request
    ([refund_payment]) and an operator's end of a ride that was paid in advance
    ([refund_prepaid], called by [release_driver]).  What they write, and how far it goes. *)

From Stdlib Require Import Ascii.
From S2P Require Import Prelude PyDecimal PyText Countries Models Money Commission PromoTax Alerts Store Drivers Promos Settlement Trips OperatorEnd TripSafety RideMoney EndSafety.
From S2P Require Import Gateways TripPayments PaymentSafety PaidOnce.
#[local] Open Scope string_scope.
#[local] Open Scope list_scope.
#[local] Open Scope Z_scope.

(** ** The books *)

Definition ids_ok (w : World) : Prop := forall i t, w_trips w !! i = Some t -> trip_id (lt_trip t) = i.

(** No trip is new, and none changes its number or its currency. *)
Definition same_rides (w w' : World) : Prop :=
  forall i t', w_trips w' !! i = Some t' ->
    exists t, w_trips w !! i = Some t /\ trip_id (lt_trip t') = trip_id (lt_trip t) /\ trip_currency (lt_trip t') = trip_currency (lt_trip t).

(** A refund that the totals of [t] count. *)
Definition counts_for (t : LiveTrip) (a : MoneyAction) : bool :=
  (ma_trip a =? trip_id (lt_trip t)) && bool_decide (ma_kind a = REFUND) && bool_decide (ma_currency a = trip_currency (lt_trip t)) &&
  bool_decide (ma_status a ∈ [ACT_COMPLETED; ACT_PENDING_GATEWAY]).

(** What one operation does to the books: at most one money action more, a refund of the trip
    [i], that leaves the refunds of [i] within what was paid for it before or after. *)
Record gives_back (i : Z) (w w' : World) : Prop := {
  gb_rides : same_rides w w';
  gb_actions : w_actions w' = w_actions w \/ exists a, w_actions w' = w_actions w ++ [a] /\ ma_trip a = i /\
    forall t t', w_trips w !! i = Some t -> w_trips w' !! i = Some t' -> counts_for t' a = true ->
      refunded_minor t' w' <= paid_minor t w \/ refunded_minor t' w' <= paid_minor t' w'
}.

Lemma same_rides_refl (w w' : World) : w_trips w' = w_trips w -> same_rides w w'.
Proof. intros E i t. rewrite E. eauto. Qed.

Lemma same_rides_save (w w' : World) (i : Z) (t t' : LiveTrip) :
  w_trips w !! i = Some t -> w_trips w' = <[i := t']> (w_trips w) -> trip_id (lt_trip t') = trip_id (lt_trip t) ->
  trip_currency (lt_trip t') = trip_currency (lt_trip t) -> same_rides w w'.
Proof. intros Ht E E1 E2 j x. rewrite E. intros [[<- <-]|[_ H]]%lookup_insert_Some; eauto. Qed.

Lemma same_rides_ids (w w' : World) : same_rides w w' -> ids_ok w -> ids_ok w'.
Proof. intros H Hw i t (x & Hx & E & _)%H. rewrite E. by apply Hw. Qed.

Lemma gives_nothing (i : Z) (w w' : World) : same_rides w w' -> w_actions w' = w_actions w -> gives_back i w w'.
Proof. split; [done|by left]. Qed.

(** The totals see the actions, and of the trip its number and currency. *)
Lemma refunded_same (t t' : LiveTrip) (w w' : World) :
  trip_id (lt_trip t') = trip_id (lt_trip t) -> trip_currency (lt_trip t') = trip_currency (lt_trip t) -> w_actions w' = w_actions w ->
  refunded_minor t' w' = refunded_minor t w.
Proof. intros E1 E2 E3. unfold refunded_minor. by rewrite E1, E2, E3. Qed.

Lemma refunded_more (t t' : LiveTrip) (a : MoneyAction) (w w' : World) :
  trip_id (lt_trip t') = trip_id (lt_trip t) -> trip_currency (lt_trip t') = trip_currency (lt_trip t) -> w_actions w' = w_actions w ++ [a] ->
  refunded_minor t' w' = refunded_minor t w + if counts_for t' a then ma_amount a else 0.
Proof.
  intros E1 E2 E3. unfold refunded_minor, counts_for. rewrite E1, E2, E3, List.filter_app, zsum_app. cbn [List.filter].
  destruct (_ && _); cbn; lia.
Qed.

(** An operation keeps every trip within its high-water mark. *)
Lemma gives_back_within (i : Z) (w w' : World) (peak : Z -> Z) :
  ids_ok w -> gives_back i w w' ->
  (forall j t, w_trips w !! j = Some t -> paid_minor t w <= peak j /\ refunded_minor t w <= Z.max 0 (peak j)) ->
  forall j t', w_trips w' !! j = Some t' -> refunded_minor t' w' <= Z.max 0 (Z.max (peak j) (paid_minor t' w')).
Proof.
  intros Hids [Hr Ha] Hp j t' Ht'. destruct (Hr j t' Ht') as (t & Ht & E1 & E2). destruct (Hp j t Ht) as [P1 P2].
  destruct Ha as [Ha|(a & Ha & Hi & Hle)]; [rewrite (refunded_same t t' w w') by done; lia|].
  destruct (counts_for t' a) eqn:C; [|rewrite (refunded_more t t' a w w'), C by done; lia].
  assert (i = j) as ->.
  { unfold counts_for in C. apply andb_true_iff in C as [C _]. apply andb_true_iff in C as [C _]. apply andb_true_iff in C as [C%Z.eqb_eq _].
    rewrite <- Hi, C, E1. by apply Hids. }
  destruct (Hle t t' Ht Ht' C); lia.
Qed.

(** ** The refund a rider asks for *)

Lemma book_refund_books (env : PayEnv) (t : LiveTrip) (p : PaymentRow) (a : dec) (n : Z) (m : refund_mode) (w w' : World) :
  book_refund env t p a n m w = Ok w' ->
  (w_trips w' = w_trips w \/ w_trips w' = <[pm_trip p := with_payment_status "refunded" t]> (w_trips w)) /\
  exists act, w_actions w' = w_actions w ++ [act] /\ ma_trip act = pm_trip p /\ ma_amount act = n.
Proof.
  unfold book_refund. set (act := {| ma_trip := _ |}). set (w1 := set_actions _ w). set (full := refundable_minor t w1 =? 0).
  set (w2 := if full then _ else w1).
  assert ((w_trips w2 = w_trips w \/ w_trips w2 = <[pm_trip p := with_payment_status "refunded" t]> (w_trips w)) /\
    w_actions w2 = w_actions w ++ [act]) as [H1 H2] by (unfold w2; destruct full; (split; [auto|done])).
  assert (exists act', w_actions w2 = w_actions w ++ [act'] /\ ma_trip act' = pm_trip p /\ ma_amount act' = n) as H3 by (by exists act).
  destruct (lt_driver t) as [d|]; [|by intros [= <-]]. intros H. apply res_bind_ok in H as (w3 & H4 & H).
  apply res_bind_ok in H as (h & _ & H). injection H as <-. cbn [w_trips w_actions set_paid].
  assert (w_trips w3 = w_trips w2 /\ w_actions w3 = w_actions w2) as [-> ->]; [|done].
  destruct full; [|by injection H4 as <-]. apply res_bind_ok in H4 as ([x db] & _ & H4).
  destruct (k ← x; _) as [r|]; [|by injection H4 as <-].
  apply res_bind_ok in H4 as (y & _ & H4). apply res_bind_ok in H4 as (z & _ & H4). by injection H4 as <-.
Qed.

Lemma give_back_books (t : Trip) (p : PaymentRow) (a : dec) (n : Z) (md : refund_mode) (g : Gateway) (r : string) (w w' : World)
    (x : option refund_mode) :
  give_back t p a n md g r w = Ok (x, w') -> w_trips w' = w_trips w /\ w_actions w' = w_actions w /\ w_payments w' = w_payments w.
Proof.
  unfold give_back. destruct md; intros H; [by destruct (create_refund _ _ _ _); (done || injection H as _ <-)|].
  apply res_bind_ok in H as ([c db] & _ & H). destruct c; [by injection H as _ <-|by injection H as _ <-|].
  by destruct (create_refund _ _ _ _); (done || injection H as _ <-).
Qed.

(** A rider gets back what is left of what was paid, at most. *)
Lemma rider_refund_gives (env : PayEnv) (u i : Z) (md : refund_mode) (w : World) :
  ids_ok w -> gives_back i w (refund_payment env u i md w).2.
Proof.
  intros Hids. assert (forall l, gives_back i w (set_refunds l w)) as Hcrash by (intros l; by apply gives_nothing; [apply same_rides_refl|]).
  assert (gives_back i w w) as Hsame by (by apply gives_nothing; [apply same_rides_refl|]).
  unfold refund_payment. destruct (w_trips w !! i) as [t|] eqn:Et; [|done]. do 2 (destruct (negb _); [done|]).
  destruct (paid_online i w) as [p|] eqn:Ep; [|done]. apply paid_online_in in Ep as (Hp & _). apply elem_of_filter_b in Hp as [_ Hi%Z.eqb_eq].
  destruct (negb _); [done|]. destruct (gateway_named _ _) as [g|]; [|done]. destruct (negb _); [done|].
  destruct (Z.leb_spec (Z.min (pm_amount p) (refundable_minor t w)) 0) as [|Hn]; [done|]. set (n := Z.min _ _) in *.
  destruct (from_minor_Z _ _) as [a|]; [|done].
  destruct (give_back _ _ _ _ _ _ _ w) as [[x w1]|] eqn:Eg; [|done]. apply give_back_books in Eg as (T1 & A1 & P1).
  destruct x as [m|]; [|by apply gives_nothing; [apply same_rides_refl|]].
  destruct (book_refund _ _ _ _ _ _ w1) as [w2|] eqn:Eb; [|apply Hcrash]. cbn [snd].
  apply book_refund_books in Eb as (T2 & act & A2 & E1 & E2). rewrite T1, Hi in T2. split.
  - destruct T2 as [T2|T2]; [by apply same_rides_refl|]. by eapply (same_rides_save w w2 i t).
  - right. exists act. rewrite A2, A1. split; [done|]. split; [congruence|]. intros t0 t' H0 Ht' C. rewrite Et in H0. injection H0 as <-. left.
    assert (lt_trip t' = lt_trip t) as E.
    { destruct T2 as [T2|T2]; rewrite T2 in Ht'; [by rewrite Et in Ht'; injection Ht' as <-|].
      rewrite lookup_insert_eq in Ht'. by injection Ht' as <-. }
    rewrite (refunded_more t t' act w w2), C, E2; [|by rewrite E|by rewrite E|by rewrite A2, A1]. unfold n, refundable_minor in *. lia.
Qed.

(** ** The end of a ride by an operator *)

Lemma cancel_refund_books (g : gateway_answer) (t t' : LiveTrip) (w w' : World) (r : option Z) :
  process_refund_on_cancel g t w = Some (r, t', w') -> w_actions w' = w_actions w.
Proof.
  unfold process_refund_on_cancel. destruct (paid_online _ w) as [p|]; [|by intros [= _ _ <-]].
  destruct (pm_gateway_payment p); [|by intros [= _ _ <-]]. destruct (negb _); [by intros [= _ _ <-]|].
  destruct (_ <=? _); [by intros [= _ _ <-]|]. by destruct g; intros [= _ _ <-].
Qed.

Lemma create_payment_actions (t : LiveTrip) (a : dec) (m : string) (s : pay_status) (g : string) (w w' : World) :
  create_payment t a m s g w = Ok w' -> w_actions w' = w_actions w.
Proof. unfold create_payment. intros H. apply res_bind_ok in H as (n & _ & H). destruct (_ && _); [done|]. by injection H as <-. Qed.

Lemma settled_books (env : TripEnv) (t : LiveTrip) (w w' : World) :
  settled_world env t w = Ok w' -> w_actions w' = w_actions w /\ w_payments w' = w_payments w.
Proof. unfold settled_world. intros H. apply res_bind_ok in H as ([b db] & _ & H). by injection H as <-. Qed.

Lemma paid_history_actions (t : LiveTrip) (a : dec) (w w' : World) : wallet_paid_history t a w = Ok w' -> w_actions w' = w_actions w.
Proof.
  unfold wallet_paid_history. destruct (lt_driver t); [|by intros [= <-]]. intros H. apply res_bind_ok in H as (n & _ & H). by injection H as <-.
Qed.

Lemma payment_on_complete_actions (env : TripEnv) (t t' : LiveTrip) (w w' : World) :
  create_payment_on_complete env t w = Ok (t', w') -> w_actions w' = w_actions w.
Proof.
  unfold create_payment_on_complete. destruct (negb _); [by intros [= _ <-]|]. intros H. apply res_bind_ok in H as (amount & _ & H).
  destruct (deqb _ _).
  { destruct (_ && _); [|by injection H as _ <-]. apply res_bind_ok in H as (w1 & [H1 _]%settled_books & H). by injection H as _ <-. }
  destruct (bool_decide _); [apply res_bind_ok in H as (w1 & H1%create_payment_actions & H); by injection H as _ <-|].
  destruct (bool_decide _).
  { apply res_bind_ok in H as (w1 & H1%create_payment_actions & H). apply res_bind_ok in H as (w2 & [H2 _]%settled_books & H).
    injection H as _ <-. congruence. }
  destruct (bool_decide _); [|apply res_bind_ok in H as (w1 & H1%create_payment_actions & H); by injection H as _ <-].
  destruct (wallet_payment _ _ _ _ _ _ _) as [r db]. destruct r; [|by injection H as _ <-].
  apply res_bind_ok in H as (w1 & H1%create_payment_actions & H). apply res_bind_ok in H as (w2 & H2%paid_history_actions & H).
  apply res_bind_ok in H as (w3 & [H3 _]%settled_books & H). injection H as _ <-. cbn in H1. congruence.
Qed.

(** What is written of money returned: nothing, or one refund of at most what was paid in advance. *)
Definition returns_prepaid (i : Z) (w w' : World) : Prop :=
  w_actions w' = w_actions w \/
  exists a, w_actions w' = w_actions w ++ [a] /\ ma_trip a = i /\ 0 < ma_amount a <= prepaid_minor i w'.

Lemma prepaid_returned (g : gateway_answer) (p : Plan) (keep n : Z) (t t' : LiveTrip) (w w' : World) :
  0 <= keep -> refund_prepaid g p keep t w = Ok (n, t', w') -> returns_prepaid (trip_id (lt_trip t)) w w'.
Proof.
  intros Hk. unfold refund_prepaid. destruct (Z.leb_spec (prepaid_minor (trip_id (lt_trip t)) w - keep) 0) as [|Ho]; [intros [= _ _ <-]; by left|].
  set (taken := if _ && _ then _ else None). destruct taken as [[t1 w1]|] eqn:Et.
  - intros [= _ _ <-]. left. unfold taken in Et. destruct (_ && _); [|done].
    destruct (process_refund_on_cancel g t w) as [[[[r|] t2] w2]|] eqn:Ep; try done. injection Et as _ <-. by eapply cancel_refund_books.
  - intros H. apply res_bind_ok in H as ([[meth st] w1] & H1 & H). injection H as _ _ <-. right. eexists.
    assert (w_actions w1 = w_actions w /\ w_payments w1 = w_payments w) as [E1 E2].
    { destruct (has_online_payment _ w); [by injection H1 as _ _ <-|].
      apply res_bind_ok in H1 as (a & _ & H1). apply res_bind_ok in H1 as ([r db] & _ & H1). by destruct r; injection H1 as _ _ <-. }
    cbn [w_actions set_actions]. rewrite E1. split; [reflexivity|]. split; [done|]. cbn [ma_amount].
    unfold prepaid_minor, payments_of in *. cbn [w_payments set_actions]. rewrite E2. lia.
Qed.

Lemma returns_same (i : Z) (w0 w1 w w' : World) :
  w_actions w1 = w_actions w0 -> w_actions w' = w_actions w -> w_payments w' = w_payments w ->
  returns_prepaid i w1 w -> returns_prepaid i w0 w'.
Proof.
  intros E1 E2 E3 [H|(a & H & Hi & Hn)]; [left; congruence|right]. exists a. split; [congruence|]. split; [done|].
  unfold prepaid_minor, payments_of in *. by rewrite E3.
Qed.

Lemma plan_returns (env : TripEnv) (g : gateway_answer) (i : Z) (t : LiveTrip) (p : Plan) (w w' : World) :
  apply_plan env g i t p w = Ok w' ->
  returns_prepaid (trip_id (lt_trip t)) w w' /\ exists t', w_trips w' = <[i := t']> (w_trips w) /\ lt_trip t' = ended_trip p (lt_trip t).
Proof.
  unfold apply_plan. intros H. apply res_bind_ok in H as ([n db] & _ & H). apply res_bind_ok in H as ([t1 w1] & H1 & H). injection H as <-.
  set (t0 := ended (now w) p t) in *. set (w0 := count_trip t0 _) in *.
  assert (w_actions w0 = w_actions w /\ w_trips w0 = <[i := t0]> (w_trips w)) as [A0 T0] by (unfold w0, count_trip; by destruct (lt_driver t0)).
  change (trip_id (lt_trip t)) with (trip_id (lt_trip t0)). destruct (pl_rule p).
  - assert (money_only w0 w1) as (T1 & _) by (by eapply standard_quiet). pose proof (standard_keeps_trip _ _ _ _ _ _ _ H1) as E1.
    split; [|exists t1; cbn; rewrite T1, T0, insert_insert_eq; split; [done|exact E1]].
    unfold apply_standard in H1. apply res_bind_ok in H1 as ([t2 w2] & H2 & H1).
    pose proof (payment_keeps_trip _ _ _ _ _ H2) as E2. apply payment_on_complete_actions in H2.
    apply res_bind_ok in H1 as ([[m t3] w3] & H3%prepaid_returned & H1); [|unfold payable_minor; lia]. rewrite E2 in H3.
    destruct (_ && _).
    + apply res_bind_ok in H1 as (w4 & [A4 P4]%settled_books & H1). injection H1 as _ <-.
      apply (returns_same _ w w2 w3); [congruence|done|done|exact H3].
    + injection H1 as _ <-. apply (returns_same _ w w2 w3); [congruence|done|done|exact H3].
  - assert (money_only w0 w1) as (T1 & _) by (by eapply funded_quiet). pose proof (proj1 (funded_money _ _ _ _ _ _ _ H1)) as E1.
    split; [|exists t1; cbn; rewrite T1, T0, insert_insert_eq; split; [done|exact E1]].
    unfold apply_platform_funded in H1. apply res_bind_ok in H1 as ([[m t3] w3] & H3%prepaid_returned & H1); [|done].
    apply res_bind_ok in H1 as ([x db'] & _ & H1). injection H1 as _ <-. by apply (returns_same _ w w0 w3).
Qed.

(** The completed payments of the trip are in its currency and not negative. *)
Definition paid_in_order (i : Z) (w : World) : Prop :=
  forall q t, q ∈ payments_of i w -> completed_row q -> w_trips w !! i = Some t -> 0 <= pm_amount q /\ pm_currency q = trip_currency (lt_trip t).

Lemma prepaid_is_paid (i : Z) (t : LiveTrip) (w : World) :
  paid_in_order i w -> w_trips w !! i = Some t -> trip_id (lt_trip t) = i -> 0 < prepaid_minor i w -> prepaid_minor i w <= paid_minor t w.
Proof.
  intros Hp Ht Hi. unfold paid_minor, prepaid_minor. rewrite Hi.
  set (f := fun p : PaymentRow => bool_decide (pm_status p = PayCompleted) && bool_decide (pm_method p ∈ ["online"; "wallet"])).
  set (h := fun p : PaymentRow => bool_decide (pm_status p = PayCompleted) && bool_decide (pm_currency p = trip_currency (lt_trip t))).
  assert (forall l, (forall q, q ∈ l -> completed_row q -> 0 <= pm_amount q /\ pm_currency q = trip_currency (lt_trip t)) ->
    zsum pm_amount (List.filter f l) <= zsum pm_amount (List.filter h l)) as Hle.
  { induction l as [|q l IH]; [done|]. intros H. specialize (IH (fun x Hx => H x (list_elem_of_further _ _ _ Hx))). cbn [List.filter].
    destruct (bool_decide_reflect (pm_status q = PayCompleted)) as [C|C]; [|unfold f, h; by rewrite (bool_decide_false _ C)].
    destruct (H q (list_elem_of_here _ _) C) as [H1 H2]. assert (h q = true) as -> by (unfold h; by rewrite !bool_decide_true).
    change (q :: List.filter h l) with ([q] ++ List.filter h l). rewrite zsum_app. destruct (f q); cbn -[List.filter zsum]; change (zsum pm_amount [q]) with (pm_amount q + 0); [|lia].
    change (q :: List.filter f l) with ([q] ++ List.filter f l). rewrite zsum_app. change (zsum pm_amount [q]) with (pm_amount q + 0). lia. }
  specialize (Hle (payments_of i w) (fun q Hq Hc => Hp q t Hq Hc Ht)). intros H0.
  destruct (Z.eqb_spec (zsum pm_amount (List.filter h (payments_of i w))) 0); cbn [negb]; lia.
Qed.

(** An operator's end returns no more than was paid, unless money had been given back before:
    [refund_prepaid] compares what was paid in advance with the fare, never with the refunds. *)
Lemma release_gives (env : TripEnv) (i : Z) (stale : bool) (marker rc : string) (tm : Telemetry) (g : gateway_answer) (w : World) :
  let w' := (release_driver env i stale marker rc tm g w).2 in
  ids_ok w -> (forall t, w_trips w !! i = Some t -> refunded_minor t w = 0) -> paid_in_order i w' -> gives_back i w w'.
Proof.
  intros w' Hids H0 Hp. assert (gives_back i w w) as Hsame by (by apply gives_nothing; [apply same_rides_refl|]).
  revert Hp. unfold w'. clear w'. unfold release_driver. destruct (w_trips w !! i) as [t|] eqn:Ht; [|done].
  destruct (bool_decide _); [done|]. destruct (truthy _); [done|]. destruct (bool_decide _); [done|]. destruct (negb stale); [done|].
  destruct (bool_decide (lt_status t = TInProgress)).
  - destruct (rule_for rc); [|done]. destruct (build_plan _ _ _ _ _) as [p|err]; [|by destruct err].
    destruct (apply_plan _ _ _ _ _ _) as [w'|err] eqn:Ea; [|done]. cbn [snd]. intros Hp.
    destruct (plan_returns _ _ _ _ _ _ _ Ea) as [Hret (t' & Et & El)]. rewrite (Hids _ _ Ht) in Hret.
    split; [by eapply (same_rides_save w w' i t t'); [| |rewrite El..]|].
    destruct Hret as [?|(a & Ha & Hi & Hn)]; [by left|right]. exists a. split; [done|]. split; [done|]. intros x t1 Hx Ht1 C. right.
    rewrite Ht in Hx. injection Hx as <-. assert (t1 = t') as -> by (rewrite Et, lookup_insert_eq in Ht1; by injection Ht1).
    rewrite (refunded_more t t' a w w'), C, (H0 t eq_refl) by (done || by rewrite El).
    pose proof (prepaid_is_paid i t' w' Hp Ht1 ltac:(rewrite El; by apply Hids)). lia.
  - destruct (negb _); [done|]. intros _.
    assert (gives_back i w (operator_cancel i CANCEL_CODE EmptyString true true g w).2) as Hc; [|by destruct (operator_cancel _ _ _ _ _ _ _)].
    unfold operator_cancel. rewrite Ht. destruct (_ && _); [done|]. destruct (negb _); [done|]. set (t1 := if _ && _ then _ else _).
    assert (lt_trip t1 = lt_trip t) as E1 by (unfold t1; by destruct (_ && _)).
    destruct (process_refund_on_cancel g t1 _) as [[[r t2] w2]|] eqn:Ep; cbn [snd].
    + pose proof (cancel_refund_books _ _ _ _ _ _ Ep) as Ea. pose proof (refund_keeps_trip _ _ _ _ _ _ Ep) as [E2 _].
      apply process_refund_quiet in Ep as [(T2 & _) _]. apply gives_nothing; [|exact Ea].
      apply (same_rides_save w _ i t t2); [done| |by rewrite E2, E1..]. cbn. rewrite T2. apply insert_insert_eq.
    + apply gives_nothing; [|done]. by apply (same_rides_save w _ i t t1); [| |rewrite E1..].
Qed.

(** ** An end after a refund *)

(** A ride on the road that was paid 20 dollars in advance, 15 of which were given back. *)
Definition prepaid_riding : World :=
  set_actions [{| ma_trip := 82; ma_kind := REFUND; ma_amount := 1500; ma_currency := "USD"; ma_method := "gateway"; ma_status := ACT_PENDING_GATEWAY |}]
  (set_payments [{| pm_id := 0; pm_trip := 82; pm_user := 5; pm_amount := 2000; pm_method := "online"; pm_currency := "USD";
    pm_status := PayCompleted; pm_gateway := "cashfree"; pm_gateway_payment := Some "cf_1"; pm_order := Some "o1"; pm_cf_order := Some "o1";
    pm_cf_payment := Some "cf_1"; pm_replaced_by := None; pm_late := None; pm_created := 10 |}] us_riding).

(** The end looks at what was paid in advance only: of a ride whose rider has 15 of 20 dollars back
    it books the whole 20 as owed once more.  Payments are taken for completed rides, so no ride
    on the road is in this state; [release_gives] excludes it by name. *)
Lemma end_ignores_refunds :
  let w' := (release_driver us_env 82 true "ok" "safety_incident" us_telemetry NotIssued prepaid_riding).2 in
  exists t t', w_trips prepaid_riding !! 82 = Some t /\ w_trips w' !! 82 = Some t' /\
    paid_minor t prepaid_riding = 2000 /\ refunded_minor t prepaid_riding = 1500 /\
    paid_minor t' w' = 2000 /\ refunded_minor t' w' = 3500.
Proof. eexists _, _. split; [vm_compute; reflexivity|]. split; [vm_compute; reflexivity|]. vm_compute. done. Qed.
