(* ===== verification/Fares.v ===== *)
(** * Fares: what a ride is quoted

    Models [quote_fare] of [servers/pricing/services.py] on the zones, cards, night window and
    surge of Zones.  The clock, the hour in a zone, the vehicle classes and what Redis counted
    are the environment. *)

From Stdlib Require Import QArith Lqa.
From S2P Require Import Prelude PyDecimal PyText Countries Models Money Commission Zones PromoTax.
#[local] Open Scope string_scope.
#[local] Open Scope list_scope.
#[local] Open Scope Z_scope.

(** ** The environment *)

(** [pr_hour_of z] is the hour now in the time zone of zone [z]; [pr_counts] what Redis says
    of the drivers and riders around the pickup. *)
Record PricingEnv := {
  pr_zones : gmap Z Zone;
  pr_cards : list RateCard;
  pr_lookup : ZoneLookup;
  pr_vehicle_types : list (Z * string);
  pr_allow_default : bool;
  pr_hour_of : Z -> Z;
  pr_counts : option (Z * Z);
  pr_now : Z
}.

(** ** The result *)

Record Adjustment := { adj_code : string; adj_label : string; adj_amount : dec }.

Record Quote := {
  total_fare : dec;
  q_currency : string;
  q_tax_mode : string;
  q_tax_percent : dec;
  q_tax_label : string;
  tax_amount : dec;
  per_trip_fee : dec;
  q_distance_unit : string;
  q_base : dec;
  distance_fare : dec;
  time_fare : dec;
  fare_adjustments : list Adjustment;
  surge_multiplier : dec;
  night_surge_applied : bool;
  min_fare_applied : bool;
  q_vehicle_type : string;
  q_zone_code : string;
  rate_card_version : option Z;
  q_source : string
}.

Inductive quote_error := VehicleTypeRequired | PricingUnavailable | FareRaised (e : money_error).

Definition fare_raised {A : Type} (m : res money_error A) : res quote_error A := map_err FareRaised m.

(** ** The inputs *)

(** [max(Decimal(str(x)), Decimal('0'))] *)
Definition at_least_zero (d : dec) : dec := if dltb d (of_Z 0) then of_Z 0 else d.

(** One measure that is no number makes both zero.  Measures are finite: an infinite one is not
    modelled. *)
Definition trip_measures (distance_km duration_min : pynum) : dec * dec :=
  match parse_input distance_km, parse_input duration_min with
  | Ok km, Ok minutes => (at_least_zero km, at_least_zero minutes)
  | _, _ => (of_Z 0, of_Z 0)
  end.

(** [VehicleType.objects.filter(type__iexact=...).first()] *)
Definition vehicle_type_named (env : PricingEnv) (name : string) : option Z :=
  fst <$> List.find (fun v => bool_decide (lower v.2 = lower name)) (pr_vehicle_types env).

(** What prices the ride: the card, or the last-resort defaults. *)
Record Rates := {
  rt_base : dec; rt_per_km : dec; rt_per_min : dec; rt_min_fare : dec; rt_night : dec; rt_cap : dec
}.

Definition DEFAULTS : Rates := {|
  rt_base := Dec 3000 (-2); rt_per_km := Dec 1200 (-2); rt_per_min := Dec 200 (-2); rt_min_fare := Dec 5000 (-2);
  rt_night := Dec 100 (-2); rt_cap := Dec 150 (-2) |}.

Definition card_rates (c : RateCard) : Rates := {|
  rt_base := base_fare c; rt_per_km := per_km_fare c; rt_per_min := per_min_fare c; rt_min_fare := min_fare c;
  rt_night := night_surge_multiplier c; rt_cap := surge_cap_multiplier c |}.

(** ** The metered fare *)

Definition ONE : dec := Dec 100 (-2).

Record Metering := {
  mg_distance : dec; mg_time : dec; mg_pre_surge : dec; mg_subtotal : dec; mg_multiplier : dec; mg_min_applied : bool
}.

(** [base_fare + distance_fare + time_fare] *)
Definition metered_lines (r : Rates) (km minutes : dec) : res dec_error (dec * dec * dec) :=
  let* d := dmul (rt_per_km r) km in
  let* t := dmul (rt_per_min r) minutes in
  let* x := dadd (rt_base r) d in
  let* pre := dadd x t in
  Ok (d, t, pre).

(** Night and demand multiply the subtotal and the multiplier; above the cap the fare is taken
    from the cap; below the minimum it is the minimum. *)
Definition metering (r : Rates) (night : bool) (dyn km minutes : dec) : res dec_error Metering :=
  let* (d, t, pre) := metered_lines r km minutes in
  let* (sub, mult) := if night then let* s := dmul pre (rt_night r) in let* m := dmul ONE (rt_night r) in Ok (s, m)
                      else Ok (pre, ONE) in
  let* (sub, mult) := if deqb dyn ONE then Ok (sub, mult)
                      else let* s := dmul sub dyn in let* m := dmul mult dyn in Ok (s, m) in
  let* (sub, mult) := if dltb (rt_cap r) mult then let* s := dmul pre (rt_cap r) in Ok (s, rt_cap r) else Ok (sub, mult) in
  let low := dltb sub (rt_min_fare r) in
  Ok {| mg_distance := d; mg_time := t; mg_pre_surge := pre; mg_subtotal := if low then rt_min_fare r else sub;
        mg_multiplier := mult; mg_min_applied := low |}.

(** ** The lines of the quote *)

(** The uplifts that break the sum by design, each rounded once. *)
Definition uplifts (r : Rates) (m : Metering) (currency : string) : res money_error (list Adjustment) :=
  let* surge :=
    if deqb (mg_multiplier m) ONE then Ok []
    else
      let* x := lift_dec (dmul (mg_pre_surge m) (mg_multiplier m)) in
      let* y := lift_dec (dsub x (mg_pre_surge m)) in
      let* a := quantize_dec y (Some currency) in
      Ok [{| adj_code := "surge"; adj_label := "Busy-time surcharge"; adj_amount := a |}] in
  let* floor :=
    if mg_min_applied m then
      let* x := lift_dec (dmul (mg_pre_surge m) (mg_multiplier m)) in
      let* y := lift_dec (dsub (rt_min_fare r) x) in
      let* a := quantize_dec y (Some currency) in
      Ok [{| adj_code := "minimum_fare"; adj_label := "Minimum fare adjustment"; adj_amount := a |}]
    else Ok [] in
  Ok (surge ++ floor).

(** [sum(amounts, Decimal('0.00'))] *)
Definition dsum (l : list dec) : res dec_error dec :=
  foldl (fun acc d => let* x := acc in dadd x d) (Ok (Dec 0 (-2))) l.

(** What is left to the total is named rounding. *)
Definition rounding_line (total base_r dist_r time_r : dec) (adjustments : list Adjustment) : res dec_error (list Adjustment) :=
  let* x := dadd base_r dist_r in
  let* y := dadd x time_r in
  let* s := dsum (adj_amount <$> adjustments) in
  let* explained := dadd y s in
  let* residual := dsub total explained in
  Ok (if deqb residual (Dec 0 (-2)) then adjustments
      else adjustments ++ [{| adj_code := "rounding"; adj_label := "Rounding"; adj_amount := residual |}]).

Definition zone_tax_mode_of (zone : option Zone) : string :=
  let mode := from_option zone_tax_mode EmptyString zone in if truthy (Some mode) then mode else "inclusive".

(** The tax on top of the fare, or the tax already in it; the total, and the lines it adds. *)
Definition market (zone : option Zone) (percent fee total : dec) (tax_label fee_label currency : string)
    : res money_error (dec * dec * list Adjustment) :=
  if bool_decide (zone_tax_mode_of zone = "additive") then
    let* p := percent_of total percent HUNDRED in
    let* tax := quantize_dec p (Some currency) in
    let* x := lift_dec (dadd total tax) in
    let* all := lift_dec (dadd x fee) in
    Ok (all, tax,
        (if deqb tax (Dec 0 (-2)) then [] else [{| adj_code := "tax"; adj_label := tax_label; adj_amount := tax |}]) ++
        (if deqb fee (Dec 0 (-2)) then [] else [{| adj_code := "per_trip_fee"; adj_label := fee_label; adj_amount := fee |}]))
  else if coef percent =? 0 then Ok (total, Dec 0 (-2), [])
  else
    let* y := lift_dec (dmul total percent) in
    let* z := lift_dec (dadd (Dec 10000 (-2)) percent) in
    let* v := lift_dec (ddiv y z) in
    let* tax := quantize_dec v (Some currency) in
    Ok (total, tax, []).

Definition zone_currency_of (zone : option Zone) : string :=
  let given := from_option zone_currency EmptyString zone in
  if truthy (Some given) then given else country_currency (get_country (zone_country <$> zone)).

Definition round_fare_of (d : dec) (currency : string) : res money_error dec :=
  let* r := round_fare (Some d) currency in Ok (default (of_Z 0) r).

(** Everything from the rates on. *)
Definition build_quote (zone : option Zone) (card : option RateCard) (r : Rates) (night : bool) (dyn km minutes : dec)
    (vehicle_type : string) : res money_error Quote :=
  let country := get_country (zone_country <$> zone) in
  let currency := zone_currency_of zone in
  let unit := from_option zone_distance_unit EmptyString zone in
  let* m := lift_dec (metering r night dyn km minutes) in
  let* metered := round_fare_of (mg_subtotal m) currency in
  let* base_r := quantize_dec (rt_base r) (Some currency) in
  let* dist_r := quantize_dec (mg_distance m) (Some currency) in
  let* time_r := quantize_dec (mg_time m) (Some currency) in
  let* ups := uplifts r m currency in
  let* lines := lift_dec (rounding_line metered base_r dist_r time_r ups) in
  let percent := or_zero (from_option gst_percent (Dec 500 (-2)) card) in
  let* fee := quantize_dec (or_zero (from_option zone_per_trip_fee (of_Z 0) zone)) (Some currency) in
  let fee_label := from_option zone_fee_label EmptyString zone in
  let* (total, tax, extra) :=
    market zone percent fee metered (country_tax_label country)
      (if truthy (Some fee_label) then fee_label else "Regulatory fee") currency in
  let* shown_percent := lift_dec (quantize_half_even (-3) percent) in
  let* shown_surge := lift_dec (quantize_half_even (-2) (mg_multiplier m)) in
  Ok {| total_fare := total; q_currency := currency; q_tax_mode := zone_tax_mode_of zone; q_tax_percent := shown_percent;
        q_tax_label := country_tax_label country; tax_amount := tax; per_trip_fee := fee;
        q_distance_unit := if truthy (Some unit) then unit else country_distance_unit country;
        q_base := base_r; distance_fare := dist_r; time_fare := time_r; fare_adjustments := lines ++ extra;
        surge_multiplier := shown_surge; night_surge_applied := night; min_fare_applied := mg_min_applied m;
        q_vehicle_type := vehicle_type; q_zone_code := from_option zone_code EmptyString zone;
        rate_card_version := card_version <$> card;
        q_source := match card with Some _ => "db" | None => "default" end |}.

(** [quote_fare] *)
Definition quote_fare (env : PricingEnv) (distance_km duration_min : pynum) (vehicle_type : string) (pickup : option (Q * Q))
    : res quote_error Quote :=
  if negb (truthy (Some vehicle_type)) then Err VehicleTypeRequired
  else
    let '(km, minutes) := trip_measures distance_km duration_min in
    let vt := vehicle_type_named env vehicle_type in
    let zone := p ← pickup; @find_zone_for_point (pr_lookup env) p in
    let card := z ← zone; v ← vt; get_active_rate_card (pr_zones env) (pr_cards env) z v (pr_now env) in
    if negb (bool_decide (is_Some card)) && negb (pr_allow_default env) then Err PricingUnavailable
    else
      let r := from_option card_rates DEFAULTS card in
      let night := match card with
                   | Some c => dltb ONE (rt_night r) && is_night_now c (pr_hour_of env (card_zone c))
                   | None => false
                   end in
      fare_raised (build_quote zone card r night (compute_surge_multiplier pickup (rt_cap r) (pr_counts env)) km minutes vehicle_type).
