(* ===== verification/FarePromises.v ===== *)
(** * FarePromises: what a quote promises

    For the magnitudes the columns of a fare card allow, the decimal arithmetic of Fares is
    exact, so a quote is the tariff rounded once and its lines add up to it. *)

From Stdlib Require Import QArith Qminmax Lqa.
From S2P Require Import Prelude PyDecimal PyText Countries Models Money Commission Zones PromoTax Fares.
#[local] Open Scope string_scope.
#[local] Open Scope list_scope.
#[local] Open Scope Z_scope.

(** ** Decimals on a grid *)

(** [d] has at most [k] decimals and, at that scale, a coefficient below [b]. *)
Definition at_scale (k b : Z) (d : dec) : Prop := - k <= dexp d <= 0 /\ Z.abs (coef_at (- k) d) < b.

Lemma at_scale_coef (k b : Z) (d : dec) : at_scale k b d -> Z.abs (coef d) < b.
Proof.
  intros [He Hc]. unfold coef_at in Hc. rewrite Z.abs_mul in Hc.
  pose proof (pow10_pos (dexp d - - k) ltac:(lia)). rewrite (Z.abs_eq (10 ^ _)) in Hc by lia. nia.
Qed.

Lemma at_scale_fits (k b : Z) (d : dec) : at_scale k b d -> b <= 10 ^ prec -> k <= 100 -> fits d.
Proof.
  intros H Hb Hk. pose proof (at_scale_coef _ _ _ H). destruct H as [He _]. split; [lia|]. unfold Etiny, Etop, Emin, Emax, prec. lia.
Qed.

Lemma at_scale_exact (k b : Z) (d : dec) : at_scale k b d -> b <= 10 ^ prec -> k <= 100 -> exact d.
Proof. intros H Hb Hk. pose proof (at_scale_coef _ _ _ H). destruct H as [He _]. split; lia. Qed.

Lemma at_scale_weaken (k l b c : Z) (d : dec) : at_scale k b d -> k <= l -> b * 10 ^ (l - k) <= c -> at_scale l c d.
Proof.
  intros [He Hc] Hk Hb. split; [lia|]. unfold coef_at in *. replace (dexp d - - l) with ((dexp d - - k) + (l - k)) by lia.
  rewrite Z.pow_add_r, Z.mul_assoc, Z.abs_mul by lia. pose proof (pow10_pos (l - k) ltac:(lia)). rewrite (Z.abs_eq (10 ^ (l - k))) by lia. nia.
Qed.

Lemma at_scale_mul (k l b c : Z) (x y : dec) :
  at_scale k b x -> at_scale l c y -> b * c <= 10 ^ prec -> k + l <= 100 ->
  exists d, dmul x y = Ok d /\ (dval d == dval x * dval y)%Q /\ at_scale (k + l) (b * c) d.
Proof.
  intros Hx Hy Hb Hk. pose proof Hx as [Hxe Hxc]. pose proof Hy as [Hye Hyc].
  assert (at_scale (k + l) (b * c) (Dec (coef x * coef y) (dexp x + dexp y))) as Hs.
  { split; cbn [coef dexp]; [lia|]. unfold coef_at in *. cbn [coef dexp].
    replace (dexp x + dexp y - - (k + l)) with ((dexp x - - k) + (dexp y - - l)) by lia. rewrite Z.pow_add_r by lia.
    replace (coef x * coef y * (10 ^ (dexp x - - k) * 10 ^ (dexp y - - l)))
      with ((coef x * 10 ^ (dexp x - - k)) * (coef y * 10 ^ (dexp y - - l))) by ring. rewrite Z.abs_mul. nia. }
  destruct (dmul_exact x y (at_scale_fits _ _ _ Hs Hb Hk)) as [-> Hv]. eexists. split; [done|]. split; [exact Hv|exact Hs].
Qed.

Lemma at_scale_add (k b c : Z) (x y : dec) :
  at_scale k b x -> at_scale k c y -> b + c <= 10 ^ prec -> k <= 100 ->
  exists d, dadd x y = Ok d /\ (dval d == dval x + dval y)%Q /\ at_scale k (b + c) d.
Proof.
  intros [Hxe Hxc] [Hye Hyc] Hb Hk. set (e := Z.min (dexp x) (dexp y)).
  assert (at_scale k (b + c) (Dec (coef_at e x + coef_at e y) e)) as Hs.
  { split; cbn [coef dexp]; [lia|].
    assert (coef_at (- k) (Dec (coef_at e x + coef_at e y) e) = coef_at (- k) x + coef_at (- k) y) as ->; [|lia].
    unfold coef_at. cbn [coef dexp]. rewrite Z.mul_add_distr_r, <- !Z.mul_assoc, <- !Z.pow_add_r by lia. do 3 f_equal; lia. }
  destruct (dadd_exact x y) as (d & E & Hv & He); [exact (at_scale_fits _ _ _ Hs Hb Hk)|]. exists d. split; [done|]. split; [done|].
  unfold dadd in E. fold e in E. rewrite (fix_ctx_fits _ (at_scale_fits _ _ _ Hs Hb Hk)) in E. injection E as <-. exact Hs.
Qed.

Lemma at_scale_neg (k b : Z) (d : dec) : at_scale k b d -> at_scale k b (dneg d).
Proof. intros [He Hc]. split; [done|]. unfold coef_at, dneg in *. cbn [coef dexp] in *. by rewrite Z.mul_opp_l, Z.abs_opp. Qed.

Lemma at_scale_sub (k b c : Z) (x y : dec) :
  at_scale k b x -> at_scale k c y -> b + c <= 10 ^ prec -> k <= 100 ->
  exists d, dsub x y = Ok d /\ (dval d == dval x - dval y)%Q /\ at_scale k (b + c) d.
Proof.
  intros Hx Hy Hb Hk. unfold dsub. destruct (at_scale_add k b c x (dneg y) Hx (at_scale_neg _ _ _ Hy) Hb Hk) as (d & -> & Hv & Hs).
  exists d. split; [done|]. split; [|done]. rewrite Hv, dval_dneg. reflexivity.
Qed.

Lemma at_scale_val (k b : Z) (d : dec) : at_scale k b d -> 0 <= k -> (- inject_Z b < dval d < inject_Z b)%Q.
Proof.
  intros H Hk. pose proof (at_scale_coef _ _ _ H) as Hc. destruct H as [[He1 He2] _]. unfold dval.
  assert (0 < Qpower 10 (dexp d) <= 1)%Q as [Hp1 Hp2].
  { split; [apply p10_pos|]. change 1%Q with (p10 0). replace 0 with (dexp d + (- dexp d)) by lia. fold (p10 (dexp d)). rewrite p10_add.
    pose proof (p10_pos (dexp d)). assert (1 <= p10 (- dexp d))%Q; [|nra]. rewrite p10_Z by lia.
    change 1%Q with (inject_Z 1). rewrite <- Zle_Qle. pose proof (pow10_pos (- dexp d) ltac:(lia)). lia. }
  assert (- inject_Z b < inject_Z (coef d) < inject_Z b)%Q as [H1 H2].
  { change (- inject_Z b)%Q with (inject_Z (- b)). rewrite <- !Zlt_Qlt. lia. }
  split; nra.
Qed.

(** Rounded once, to the minor unit. *)
Definition minor (q : Q) : Z := rhu (q * 100)%Q.

#[global] Instance minor_proper : Proper (Qeq ==> eq) minor.
Proof. intros a b H. unfold minor. apply rhu_proper. by rewrite H. Qed.

Lemma minor_mono (p q : Q) : (p <= q)%Q -> minor p <= minor q.
Proof. intros H. apply rhu_mono. nra. Qed.

Lemma minor_nonneg (q : Q) : (0 <= q)%Q -> 0 <= minor q.
Proof. intros H. apply rhu_nonneg. nra. Qed.

Lemma minor_bounds (q : Q) : (q * 100 - (1 # 2) <= inject_Z (minor q) <= q * 100 + (1 # 2))%Q.
Proof. apply rhu_bounds. Qed.

Lemma minor_small (q : Q) (b : Z) : 0 <= b -> (- inject_Z b < q < inject_Z b)%Q -> Z.abs (minor q) <= b * 100.
Proof.
  intros Hb [H1 H2].
  assert (minor q <= b * 100) as U.
  { rewrite <- (rhu_Z (b * 100)). apply rhu_mono. rewrite inject_Z_mult. change (inject_Z 100) with 100%Q. nra. }
  assert (- (b * 100) <= minor q) as L; [|lia].
  rewrite <- (rhu_Z (- (b * 100))). apply rhu_mono. rewrite inject_Z_opp, inject_Z_mult. change (inject_Z 100) with 100%Q. nra.
Qed.

(** The bound on the coefficient, in minor units. *)
Lemma minor_at_scale (k b c : Z) (d : dec) : at_scale k b d -> 2 <= k -> b <= c * 10 ^ (k - 2) -> Z.abs (minor (dval d)) <= c.
Proof.
  intros [He Hc] Hk Hb. pose proof (coef_at_val (- k) d ltac:(lia)) as V. pose proof (pow10_pos (k - 2) ltac:(lia)) as P.
  assert (dval d * 100 * inject_Z (10 ^ (k - 2)) == inject_Z (coef_at (- k) d))%Q as W.
  { rewrite <- V. pose proof (p10_sub (- 2) (k - 2) ltac:(lia)) as S. replace (- 2 - (k - 2)) with (- k) in S by lia.
    change (p10 (- 2)) with (1 # 100)%Q in S.
    transitivity (inject_Z (coef_at (- k) d) * (p10 (- k) * inject_Z (10 ^ (k - 2))) * 100)%Q; [ring|]. rewrite S. ring. }
  assert (0 < inject_Z (10 ^ (k - 2)))%Q as P' by (change 0%Q with (inject_Z 0); by rewrite <- Zlt_Qlt).
  assert (inject_Z (- c) <= dval d * 100 <= inject_Z c)%Q as [L U].
  { split; apply (Qmult_le_r _ _ _ P'); rewrite W, <- inject_Z_mult, <- Zle_Qle; lia. }
  apply rhu_mono in L, U. rewrite rhu_Z in L, U. unfold minor. lia.
Qed.

Lemma quantize_at_scale (k b : Z) (d : dec) (c : option string) :
  at_scale k b d -> 2 <= k <= 100 -> b < 10 ^ prec -> exponent c = Ok 2 -> quantize_dec d c = Ok (Dec (minor (dval d)) (-2)).
Proof.
  intros H Hk Hb Hc. pose proof (at_scale_coef _ _ _ H) as Hb0. pose proof (pow10_pos (k - 2) ltac:(lia)) as P.
  rewrite (quantize_dec_spec d c 2); [done|by apply (at_scale_exact k b); [|lia|lia]|done|].
  change (minor_spec 2 (dval d)) with (minor (dval d)). pose proof (minor_at_scale k b b d H ltac:(lia) ltac:(nia)). lia.
Qed.

Lemma minor_of_scale2 (b : Z) (d : dec) : at_scale 2 b d -> (inject_Z (minor (dval d)) == dval d * 100)%Q.
Proof.
  intros [He _]. pose proof (coef_at_val (- 2) d ltac:(lia)) as V. change (p10 (- 2)) with (1 # 100)%Q in V.
  assert (dval d * 100 == inject_Z (coef_at (- 2) d))%Q as W by (rewrite <- V; ring).
  unfold minor. rewrite (rhu_proper _ _ W), rhu_Z. by rewrite W.
Qed.

Lemma at_scale_minor (n b : Z) : Z.abs n < b -> at_scale 2 b (Dec n (-2)).
Proof. intros H. split; cbn; [lia|]. unfold coef_at. cbn. lia. Qed.

Lemma at_scale_of_Z (n b : Z) : Z.abs n * 100 < b -> at_scale 2 b (of_Z n).
Proof. intros H. split; cbn; [lia|]. unfold coef_at, of_Z. cbn [coef dexp]. rewrite Z.abs_mul. exact H. Qed.

Lemma dval_minor (n : Z) : (dval (Dec n (-2)) == inject_Z n / 100)%Q.
Proof. rewrite dval_Dec. change (p10 (-2)) with (1 # 100)%Q. field. Qed.

(** ** The tariff *)

(** The columns of a fare card, to the hundredth: prices below a million, multipliers below a hundred. *)
Record rates_ok (r : Rates) : Prop := {
  ro_base : at_scale 2 (10 ^ 8) (rt_base r) /\ (0 <= dval (rt_base r))%Q;
  ro_per_km : at_scale 2 (10 ^ 8) (rt_per_km r) /\ (0 <= dval (rt_per_km r))%Q;
  ro_per_min : at_scale 2 (10 ^ 8) (rt_per_min r) /\ (0 <= dval (rt_per_min r))%Q;
  ro_min_fare : at_scale 2 (10 ^ 8) (rt_min_fare r) /\ (0 <= dval (rt_min_fare r))%Q;
  ro_night : at_scale 2 (10 ^ 4) (rt_night r) /\ (0 <= dval (rt_night r))%Q;
  ro_cap : at_scale 2 (10 ^ 4) (rt_cap r) /\ (0 <= dval (rt_cap r))%Q
}.

(** Kilometres and minutes with at most six decimals, below 10 000; a surge of the tiers, or a cap. *)
Definition measure_ok (d : dec) : Prop := at_scale 6 (10 ^ 10) d /\ (0 <= dval d)%Q.
Definition surge_ok (d : dec) : Prop := at_scale 2 151 d /\ (0 <= dval d)%Q.

Section Tariff.
Context (r : Rates) (night : bool) (dyn km minutes : dec).

Definition pre_surge_q : Q := (dval (rt_base r) + dval (rt_per_km r) * dval km + dval (rt_per_min r) * dval minutes)%Q.
Definition multiplier_q : Q := Qmin ((if night then dval (rt_night r) else 1) * dval dyn) (dval (rt_cap r)).
Definition metered_q : Q := Qmax (pre_surge_q * multiplier_q) (dval (rt_min_fare r)).

Record metered_as (m : Metering) : Prop := {
  ma_distance : (dval (mg_distance m) == dval (rt_per_km r) * dval km)%Q /\ at_scale 8 (10 ^ 18) (mg_distance m);
  ma_time : (dval (mg_time m) == dval (rt_per_min r) * dval minutes)%Q /\ at_scale 8 (10 ^ 18) (mg_time m);
  ma_pre : (dval (mg_pre_surge m) == pre_surge_q)%Q /\ at_scale 8 (3 * 10 ^ 18) (mg_pre_surge m);
  ma_multiplier : (dval (mg_multiplier m) == multiplier_q)%Q /\ at_scale 6 (2 * 10 ^ 8) (mg_multiplier m);
  ma_subtotal : (dval (mg_subtotal m) == metered_q)%Q /\ at_scale 12 (5 * 10 ^ 24) (mg_subtotal m);
  ma_min : mg_min_applied m = true <-> (pre_surge_q * multiplier_q < dval (rt_min_fare r))%Q
}.

Context (Hr : rates_ok r) (Hkm : measure_ok km) (Hmin : measure_ok minutes) (Hdyn : surge_ok dyn).

Lemma metered_lines_ok : exists d t pre, metered_lines r km minutes = Ok (d, t, pre) /\
  (dval d == dval (rt_per_km r) * dval km)%Q /\ at_scale 8 (10 ^ 18) d /\
  (dval t == dval (rt_per_min r) * dval minutes)%Q /\ at_scale 8 (10 ^ 18) t /\
  (dval pre == pre_surge_q)%Q /\ at_scale 8 (3 * 10 ^ 18) pre.
Proof.
  unfold metered_lines. destruct (ro_per_km _ Hr) as [A1 _], (ro_per_min _ Hr) as [A2 _], (ro_base _ Hr) as [A3 _], Hkm as [K1 _], Hmin as [K2 _].
  destruct (at_scale_mul 2 6 _ _ _ _ A1 K1 ltac:(vm_compute; discriminate) ltac:(lia)) as (d & -> & Vd & Sd). cbn [res_bind].
  destruct (at_scale_mul 2 6 _ _ _ _ A2 K2 ltac:(vm_compute; discriminate) ltac:(lia)) as (t & -> & Vt & St). cbn [res_bind].
  assert (at_scale 8 (10 ^ 14) (rt_base r)) as A3' by (eapply at_scale_weaken; [exact A3|lia|vm_compute; discriminate]).
  destruct (at_scale_add 8 _ _ _ _ A3' Sd ltac:(vm_compute; discriminate) ltac:(lia)) as (x & -> & Vx & Sx). cbn [res_bind].
  destruct (at_scale_add 8 _ _ _ _ Sx St ltac:(vm_compute; discriminate) ltac:(lia)) as (pre & -> & Vp & Sp). cbn [res_bind].
  exists d, t, pre. split; [done|]. split; [done|]. split; [exact Sd|]. split; [done|]. split; [exact St|]. split.
  - rewrite Vp, Vx, Vd, Vt. reflexivity.
  - eapply at_scale_weaken; [exact Sp|lia|vm_compute; discriminate].
Qed.

Lemma one_scale : at_scale 2 101 ONE.
Proof. split; vm_compute; [split; discriminate|reflexivity]. Qed.

Lemma metering_ok : exists m, metering r night dyn km minutes = Ok m /\ metered_as m.
Proof.
  unfold metering. destruct metered_lines_ok as (d & t & pre & -> & Vd & Sd & Vt & St & Vp & Sp). cbn [res_bind].
  destruct (ro_night _ Hr) as [N1 N2], (ro_cap _ Hr) as [C1 C2], (ro_min_fare _ Hr) as [F1 F2], Hdyn as [D1 D2].
  set (step1 := if night then _ else Ok (pre, ONE)).
  assert (exists s1 m1, step1 = Ok (s1, m1) /\ (dval s1 == pre_surge_q * (if night then dval (rt_night r) else 1))%Q /\
    (dval m1 == if night then dval (rt_night r) else 1)%Q /\ at_scale 10 (3 * 10 ^ 22) s1 /\ at_scale 4 (101 * 10 ^ 4) m1) as
    (s1 & m1 & E1 & Vs1 & Vm1 & Ss1 & Sm1).
  { unfold step1. destruct night.
    - destruct (at_scale_mul 8 2 _ _ _ _ Sp N1 ltac:(vm_compute; discriminate) ltac:(lia)) as (s & -> & Vs & Ss). cbn [res_bind].
      destruct (at_scale_mul 2 2 _ _ _ _ one_scale N1 ltac:(vm_compute; discriminate) ltac:(lia)) as (m & -> & Vm & Sm). cbn [res_bind].
      exists s, m. split; [done|]. split; [by rewrite Vs, Vp|]. split; [rewrite Vm; change (dval ONE) with (100 * (1 # 100))%Q; ring|].
      split; [eapply at_scale_weaken; [exact Ss|lia|vm_compute; discriminate]|exact Sm].
    - exists pre, ONE. split; [done|]. split; [rewrite Vp; ring|]. split; [reflexivity|].
      split; [eapply at_scale_weaken; [exact Sp|lia|vm_compute; discriminate]|
              eapply at_scale_weaken; [exact one_scale|lia|vm_compute; discriminate]]. }
  rewrite E1. clearbody step1. cbn [res_bind]. set (step2 := if deqb dyn ONE then _ else _).
  assert (exists s2 m2, step2 = Ok (s2, m2) /\ (dval s2 == pre_surge_q * ((if night then dval (rt_night r) else 1) * dval dyn))%Q /\
    (dval m2 == (if night then dval (rt_night r) else 1) * dval dyn)%Q /\ at_scale 12 (5 * 10 ^ 24) s2 /\ at_scale 6 (2 * 10 ^ 8) m2) as
    (s2 & m2 & E2 & Vs2 & Vm2 & Ss2 & Sm2).
  { unfold step2. destruct (deqb dyn ONE) eqn:E.
    - apply deqb_spec in E. change (dval ONE) with (100 * (1 # 100))%Q in E. exists s1, m1. split; [done|].
      split; [rewrite Vs1, E; ring|]. split; [rewrite Vm1, E; ring|].
      split; [eapply at_scale_weaken; [exact Ss1|lia|vm_compute; discriminate]|
              eapply at_scale_weaken; [exact Sm1|lia|vm_compute; discriminate]].
    - destruct (at_scale_mul 10 2 _ _ _ _ Ss1 D1 ltac:(vm_compute; discriminate) ltac:(lia)) as (s & -> & Vs & Ss). cbn [res_bind].
      destruct (at_scale_mul 4 2 _ _ _ _ Sm1 D1 ltac:(vm_compute; discriminate) ltac:(lia)) as (m & -> & Vm & Sm). cbn [res_bind].
      exists s, m. split; [done|]. split; [rewrite Vs, Vs1; ring|]. split; [by rewrite Vm, Vm1|].
      split; [eapply at_scale_weaken; [exact Ss|lia|vm_compute; discriminate]|
              eapply at_scale_weaken; [exact Sm|lia|vm_compute; discriminate]]. }
  rewrite E2. clearbody step2. cbn [res_bind]. set (step3 := if dltb (rt_cap r) m2 then _ else _).
  assert (exists s3 m3, step3 = Ok (s3, m3) /\ (dval s3 == pre_surge_q * multiplier_q)%Q /\ (dval m3 == multiplier_q)%Q /\
    at_scale 12 (5 * 10 ^ 24) s3 /\ at_scale 6 (2 * 10 ^ 8) m3) as (s3 & m3 & E3 & Vs3 & Vm3 & Ss3 & Sm3).
  { unfold step3. destruct (dltb (rt_cap r) m2) eqn:E.
    - apply dltb_spec in E. assert (multiplier_q == dval (rt_cap r))%Q as M.
      { unfold multiplier_q. apply Q.min_r. rewrite <- Vm2. by apply Qlt_le_weak. }
      destruct (at_scale_mul 8 2 _ _ _ _ Sp C1 ltac:(vm_compute; discriminate) ltac:(lia)) as (s & -> & Vs & Ss). cbn [res_bind].
      exists s, (rt_cap r). split; [done|]. split; [by rewrite Vs, Vp, M|]. split; [by rewrite M|].
      split; [eapply at_scale_weaken; [exact Ss|lia|vm_compute; discriminate]|
              eapply at_scale_weaken; [exact C1|lia|vm_compute; discriminate]].
    - assert (multiplier_q == dval m2)%Q as M.
      { unfold multiplier_q. rewrite <- Vm2. apply Q.min_l. apply Qnot_lt_le. intros H%dltb_spec. congruence. }
      exists s2, m2. split; [done|]. split; [by rewrite M, Vs2, Vm2|]. split; [by rewrite M|]. by split. }
  rewrite E3. clearbody step3. cbn [res_bind]. eexists. split; [done|]. split; cbn [mg_distance mg_time mg_pre_surge mg_multiplier mg_subtotal mg_min_applied].
  - by split.
  - by split.
  - by split.
  - by split.
  - destruct (dltb s3 (rt_min_fare r)) eqn:E.
    + apply dltb_spec in E. rewrite Vs3 in E. split; [unfold metered_q; rewrite Q.max_r; [reflexivity|by apply Qlt_le_weak]|].
      eapply at_scale_weaken; [exact F1|lia|vm_compute; discriminate].
    + split; [|done]. unfold metered_q. rewrite Q.max_l; [done|]. rewrite <- Vs3. apply Qnot_lt_le. intros H%dltb_spec. congruence.
  - rewrite dltb_spec, Vs3. reflexivity.
Qed.
End Tariff.

(** ** The amount charged, and the lines *)

(** What a fare of [q] major units costs: rounded once, to whole rupees in India. *)
Definition charge (currency : string) (q : Q) : Z := if whole_unit_fare currency then 100 * rhu q else minor q.

#[global] Instance charge_proper (c : string) : Proper (Qeq ==> eq) (charge c).
Proof. intros a b H. unfold charge. destruct (whole_unit_fare c); by rewrite H. Qed.

Lemma charge_near (c : string) (q : Q) :
  (q * 100 - (if whole_unit_fare c then 50 else 1 # 2) <= inject_Z (charge c q) <= q * 100 + (if whole_unit_fare c then 50 else 1 # 2))%Q.
Proof.
  unfold charge. destruct (whole_unit_fare c); [|apply rhu_bounds]. rewrite inject_Z_mult. change (inject_Z 100) with 100%Q.
  pose proof (rhu_bounds q). lra.
Qed.

Lemma charge_nonneg (c : string) (q : Q) : (0 <= q)%Q -> 0 <= charge c q.
Proof. intros H. unfold charge. destruct (whole_unit_fare c); [pose proof (rhu_nonneg q H); lia|by apply minor_nonneg]. Qed.

Lemma rhu_of_minor (q : Q) (c : Z) : Z.abs (minor q) <= 100 * c -> Z.abs (rhu q) <= c + 1.
Proof.
  intros H. pose proof (minor_bounds q) as [A B]. pose proof (rhu_bounds q) as [C D].
  assert (inject_Z (- (100 * c)) <= inject_Z (minor q) <= inject_Z (100 * c))%Q as [L U] by (rewrite <- !Zle_Qle; lia).
  rewrite inject_Z_opp, inject_Z_mult in L. rewrite inject_Z_mult in U. change (inject_Z 100) with 100%Q in *.
  assert (inject_Z (- (c + 2)) < inject_Z (rhu q) < inject_Z (c + 2))%Q as [L' U'].
  { rewrite inject_Z_opp, inject_Z_plus. change (inject_Z 2) with 2%Q. lra. }
  rewrite <- Zlt_Qlt in L', U'. lia.
Qed.

Lemma round_fare_ok (cur : string) (d : dec) :
  at_scale 12 (5 * 10 ^ 24) d -> exponent (Some cur) = Ok 2 ->
  round_fare_of d cur = Ok (Dec (charge cur (dval d)) (-2)) /\ Z.abs (charge cur (dval d)) <= 10 ^ 18.
Proof.
  intros H Hc. pose proof (minor_at_scale 12 _ (5 * 10 ^ 14) d H ltac:(lia) ltac:(vm_compute; discriminate)) as M.
  unfold round_fare_of, round_fare, charge. destruct (whole_unit_fare cur).
  - pose proof (rhu_of_minor (dval d) (5 * 10 ^ 12) M) as R. rewrite quantize_int_half_up_spec.
    assert (prec <? ndigits (rhu (dval d)) = false) as ->.
    { apply Z.ltb_ge. apply ndigits_le; [done|]. unfold prec. lia. }
    cbn [lift_dec map_err res_bind]. rewrite (quantize_at_scale 2 (10 ^ 20)); [|apply at_scale_of_Z; lia|lia|done|done]. cbn [res_bind default].
    assert (minor (dval (of_Z (rhu (dval d)))) = 100 * rhu (dval d)) as ->; [|by split; [|lia]].
    unfold minor. rewrite <- (rhu_Z (100 * rhu (dval d))). apply rhu_proper. rewrite dval_of_Z, inject_Z_mult. change (inject_Z 100) with 100%Q. ring.
  - rewrite (quantize_at_scale 12 _ _ _ H); [|lia|done|done]. cbn [res_bind default]. split; [done|lia].
Qed.

(** The amounts of a list of lines, in minor units. *)
Definition lines_are (l : list Adjustment) (amounts : list Z) : Prop := (adj_amount <$> l) = (fun n => Dec n (-2)) <$> amounts.

Lemma lines_are_app (l1 l2 : list Adjustment) (a1 a2 : list Z) : lines_are l1 a1 -> lines_are l2 a2 -> lines_are (l1 ++ l2) (a1 ++ a2).
Proof. unfold lines_are. intros H1 H2. by rewrite !fmap_app, H1, H2. Qed.

Lemma dsum_minor (amounts : list Z) (acc b : Z) :
  Forall (fun n => Z.abs n <= b) amounts -> Z.abs acc + Z.of_nat (length amounts) * b < 10 ^ prec ->
  foldl (fun acc d => let* x := acc in dadd x d) (Ok (Dec acc (-2))) ((fun n => Dec n (-2)) <$> amounts)
  = Ok (Dec (acc + zsum id amounts) (-2)).
Proof.
  intros H. revert acc. induction H as [|n l Hn _ IH]; intros acc Hb; [cbn; by rewrite Z.add_0_r|].
  rewrite fmap_cons. cbn [foldl res_bind length] in *. rewrite Nat2Z.inj_succ, Z.mul_succ_l in Hb.
  assert (0 <= Z.of_nat (length l) * b) by nia. rewrite dec2_add by lia. rewrite IH by lia. unfold zsum, id. cbn [foldr].
  by rewrite Z.add_assoc.
Qed.

Section Lines.
Context (cur : string) (Hcur : exponent (Some cur) = Ok 2).

Lemma quantized (k b : Z) (d : dec) (q : Q) :
  at_scale k b d -> (dval d == q)%Q -> 2 <= k <= 100 -> b < 10 ^ prec ->
  quantize_dec d (Some cur) = Ok (Dec (minor q) (-2)).
Proof. intros H E Hk Hb. rewrite (quantize_at_scale k b) by done. by rewrite E. Qed.

Definition no_rounding (l : list Adjustment) : Prop := Forall (fun a => adj_code a <> "rounding") l.

(** The surge line and the line up to the minimum. *)
Lemma uplifts_ok (r : Rates) (night : bool) (dyn km minutes : dec) (m : Metering) :
  rates_ok r -> metered_as r night dyn km minutes m ->
  let pre := pre_surge_q r km minutes in let mult := multiplier_q r night dyn in
  let surge := minor (pre * mult - pre) in
  let floor := if mg_min_applied m then minor (dval (rt_min_fare r) - pre * mult) else 0 in
  exists ups amounts, uplifts r m cur = Ok ups /\ lines_are ups amounts /\ zsum id amounts = surge + floor /\
    (length amounts <= 2)%nat /\ Forall (fun n => Z.abs n <= 10 ^ 18) amounts /\ no_rounding ups.
Proof.
  intros Hr [_ _ [Vp Sp] [Vm Sm] _ _] pre mult surge floor. unfold uplifts.
  destruct (at_scale_mul 8 6 _ _ _ _ Sp Sm ltac:(vm_compute; discriminate) ltac:(lia)) as (x & Ex & Vx & Sx). change (8 + 6) with 14 in Sx.
  rewrite Vp, Vm in Vx. fold pre mult in Vx, Vp, Vm.
  assert (at_scale 14 (3 * 10 ^ 24) (mg_pre_surge m)) as Sp' by (eapply at_scale_weaken; [exact Sp|lia|vm_compute; discriminate]).
  assert (at_scale 14 (10 ^ 20) (rt_min_fare r)) as Sf by (eapply at_scale_weaken; [exact (proj1 (ro_min_fare _ Hr))|lia|vm_compute; discriminate]).
  destruct (at_scale_sub 14 _ _ _ _ Sx Sp' ltac:(vm_compute; discriminate) ltac:(lia)) as (y & Ey & Vy & Sy).
  destruct (at_scale_sub 14 _ _ _ _ Sf Sx ltac:(vm_compute; discriminate) ltac:(lia)) as (z & Ez & Vz & Sz).
  rewrite Vx in Vy, Vz. rewrite Vp in Vy.
  pose proof (minor_at_scale 14 _ (10 ^ 18) y Sy ltac:(lia) ltac:(vm_compute; discriminate)) as By. rewrite Vy in By. fold surge in By.
  pose proof (minor_at_scale 14 _ (10 ^ 18) z Sz ltac:(lia) ltac:(vm_compute; discriminate)) as Bz. rewrite Vz in Bz.
  pose proof (quantized 14 _ y _ Sy Vy ltac:(lia) ltac:(vm_compute; reflexivity)) as Qy.
  pose proof (quantized 14 _ z _ Sz Vz ltac:(lia) ltac:(vm_compute; reflexivity)) as Qz. fold surge in Qy.
  rewrite Ex. cbn [lift_dec map_err res_bind]. rewrite Ey, Ez. cbn [lift_dec map_err res_bind]. rewrite Qy, Qz. cbn [res_bind].
  set (first := if deqb (mg_multiplier m) ONE then _ else _).
  assert (exists l1 a1, first = Ok l1 /\ lines_are l1 a1 /\ zsum id a1 = surge /\ (length a1 <= 1)%nat /\ Forall (fun n => Z.abs n <= 10 ^ 18) a1 /\ no_rounding l1)
    as (l1 & a1 & -> & L1 & Z1 & N1 & F1 & C1).
  { unfold first. destruct (deqb (mg_multiplier m) ONE) eqn:E.
    - exists [], []. repeat split; [|cbn; lia|constructor|constructor]. apply deqb_spec in E. rewrite Vm in E. unfold surge.
      transitivity (minor 0); [done|]. apply minor_proper. rewrite E. change (dval ONE) with (100 * (1 # 100))%Q. ring.
    - eexists _, [surge]. split; [done|]. split; [done|]. split; [cbn; unfold id; lia|]. split; [done|].
      split; [by constructor|]. by repeat constructor. }
  cbn [res_bind]. unfold floor. destruct (mg_min_applied m).
  - eexists _, (a1 ++ [_]). split; [done|]. split; [by apply lines_are_app|]. split; [rewrite zsum_app; cbn; unfold id in *; lia|].
    split; [rewrite length_app; cbn; lia|]. split; (apply Forall_app; split; [done|by repeat constructor]).
  - exists (l1 ++ []), a1. split; [done|]. rewrite app_nil_r. split; [exact L1|]. split; [lia|]. split; [lia|]. by split.
Qed.

(** The rounding line is what is left; with it the lines add up to the fare. *)
Lemma rounding_line_ok (total b d t : Z) (ups : list Adjustment) (amounts : list Z) :
  lines_are ups amounts -> (length amounts <= 2)%nat -> Forall (fun n => Z.abs n <= 10 ^ 18) amounts ->
  Z.abs total <= 10 ^ 18 -> Z.abs b <= 10 ^ 18 -> Z.abs d <= 10 ^ 18 -> Z.abs t <= 10 ^ 18 ->
  let residual := total - (b + d + t + zsum id amounts) in
  exists lines, rounding_line (Dec total (-2)) (Dec b (-2)) (Dec d (-2)) (Dec t (-2)) ups = Ok lines /\
    lines_are lines (amounts ++ if residual =? 0 then [] else [residual]) /\
    (no_rounding ups -> forall a, a ∈ lines -> adj_code a = "rounding" -> adj_amount a = Dec residual (-2)).
Proof.
  intros HL HN HF Ht Hb Hd Hm residual. unfold rounding_line, dsum. rewrite HL.
  assert (Z.abs (zsum id amounts) <= 2 * 10 ^ 18) as Hs.
  { destruct amounts as [|x [|y [|]]]; cbn in HN |- *; [lia| | |lia]; decompose_Forall; unfold id; lia. }
  rewrite dec2_add by (unfold prec; lia). cbn [res_bind]. rewrite dec2_add by (unfold prec; lia). cbn [res_bind].
  rewrite (dsum_minor amounts 0 (10 ^ 18)); [|done|unfold prec; lia]. cbn [res_bind]. rewrite Z.add_0_l.
  rewrite dec2_add by (unfold prec; lia). cbn [res_bind]. rewrite dec2_sub by (unfold prec; lia). cbn [res_bind].
  fold residual. rewrite dec2_eqb. destruct (Z.eqb_spec residual 0) as [E|E].
  - exists ups. split; [done|]. rewrite app_nil_r. split; [exact HL|]. intros N a Ha C. by destruct (proj1 (Forall_forall _ _) N a Ha).
  - eexists. split; [done|]. split; [by apply lines_are_app|].
    intros N a Ha C. apply elem_of_app in Ha as [Ha|Ha]; [|by apply list_elem_of_singleton in Ha as ->]. by destruct (proj1 (Forall_forall _ _) N a Ha).
Qed.
End Lines.

(** ** The market *)

Definition additive_zone (zone : option Zone) : Prop := zone_tax_mode_of zone = "additive".

(** A line of zero is left out. *)
Definition line_of (n : Z) : list Z := if n =? 0 then [] else [n].

Lemma line_of_sum (n : Z) : zsum id (line_of n) = n.
Proof. unfold line_of. destruct (Z.eqb_spec n 0) as [->|]; [done|]. cbn. unfold id. lia. Qed.

Section Market.
Context (zone : option Zone) (p : dec) (tax_label fee_label cur : string).
Context (Hcur : exponent (Some cur) = Ok 2) (Hp : pct_ok p).

Lemma market_additive (F f : Z) :
  additive_zone zone -> 0 <= F <= 10 ^ 18 -> 0 <= f < 10 ^ 18 ->
  exists lines, market zone p (Dec f (-2)) (Dec F (-2)) tax_label fee_label cur
    = Ok (Dec (F + tax_on p F + f) (-2), Dec (tax_on p F) (-2), lines) /\
    lines_are lines (line_of (tax_on p F) ++ line_of f) /\ no_rounding lines.
Proof.
  intros HA HF Hf. unfold market. rewrite (bool_decide_eq_true_2 _ HA).
  pose proof (taxed_quantize (Some cur) Hcur p Hp F ltac:(unfold amount_ok; lia)) as Ht.
  destruct (percent_of _ _ _) as [x|]; [|done]. cbn [res_bind] in *. rewrite Ht. cbn [res_bind].
  pose proof (tax_on_nonneg p Hp F ltac:(lia)). pose proof (tax_on_bound p Hp F ltac:(lia)).
  rewrite dec2_add by (unfold prec; lia). cbn [lift_dec map_err res_bind]. rewrite dec2_add by (unfold prec; lia). cbn [lift_dec map_err res_bind].
  eexists. split; [done|]. unfold line_of. rewrite !dec2_eqb. split.
  - apply lines_are_app; [by destruct (tax_on p F =? 0)|by destruct (f =? 0)].
  - apply Forall_app. split; [destruct (tax_on p F =? 0)|destruct (f =? 0)]; by repeat constructor.
Qed.

(** The tax that is already in the fare, to the minor unit. *)
Definition tax_in (F tax : Z) : Prop :=
  0 <= tax <= F /\ (- (100 + dval p) < inject_Z tax * (100 + dval p) - inject_Z F * dval p < 100 + dval p)%Q.

Lemma tax_of_quotient (F : Z) (d v : dec) :
  0 <= F <= 10 ^ 18 -> (dval v == 100 + dval p)%Q -> (0 <= dval d)%Q ->
  (inject_Z F * (1 # 100) * dval p * (1 - 3 * ulp) <= dval d * dval v <= inject_Z F * (1 # 100) * dval p * (1 + 3 * ulp))%Q ->
  tax_in F (minor (dval d)).
Proof.
  intros HF Hv Hd H. rewrite Hv in H. destruct (pct_val p Hp) as [P0 P1]. unfold ulp in H. unfold tax_in.
  assert (0 <= inject_Z F <= 1000000000000000000)%Q as [F0 F1].
  { change 0%Q with (inject_Z 0). change 1000000000000000000%Q with (inject_Z (10 ^ 18)). rewrite <- !Zle_Qle. lia. }
  set (q := dval d) in *. set (X := inject_Z F) in *. set (w := dval p) in *. pose proof (minor_bounds q) as [M1 M2].
  assert (0 <= X * w <= 1000000000000000000 * w)%Q as [XW0 XW1] by (split; nra).
  assert (X * w - (1 # 100000000) * w <= (q * 100) * (100 + w) <= X * w + (1 # 100000000) * w)%Q as [G1 G2] by (split; nra).
  assert (q * 100 <= X)%Q as QX.
  { apply (Qmult_le_r _ _ (100 + w)); [lra|]. destruct H as [_ H]. apply Qle_trans with (X * w * (1 + (15 # 10000000000000000000000000000)))%Q; [lra|]. nra. }
  split.
  - split; [by apply minor_nonneg|]. rewrite <- (rhu_Z F). by apply rhu_mono.
  - set (T := inject_Z (minor q)) in *.
    assert ((q * 100 - (1 # 2)) * (100 + w) <= T * (100 + w))%Q as B1 by (apply Qmult_le_compat_r; lra).
    assert (T * (100 + w) <= (q * 100 + (1 # 2)) * (100 + w))%Q as B2 by (apply Qmult_le_compat_r; lra).
    split; lra.
Qed.

Lemma market_inclusive (F : Z) (fee : dec) :
  ~ additive_zone zone -> 0 <= F <= 10 ^ 18 ->
  exists tax, market zone p fee (Dec F (-2)) tax_label fee_label cur = Ok (Dec F (-2), Dec tax (-2), []) /\ tax_in F tax.
Proof.
  intros HA HF. unfold market. rewrite (bool_decide_eq_false_2 _ HA). pose proof Hp as [Hc He]. destruct (pct_val p Hp) as [P0 P1].
  destruct (Z.eqb_spec (coef p) 0) as [E|N].
  { exists 0. split; [done|]. split; [lia|]. unfold dval. rewrite E. change (inject_Z 0) with 0%Q. split; lra. }
  destruct (dmul_exact (Dec F (-2)) p) as [-> Vy].
  { split; cbn [coef dexp]; [unfold prec; nia|unfold Etiny, Etop, Emin, Emax, prec; lia]. }
  cbn [lift_dec map_err res_bind]. set (y := Dec (coef (Dec F (-2)) * coef p) (dexp (Dec F (-2)) + dexp p)) in *.
  assert (at_scale 3 (10 ^ 10) p) as Sp.
  { split; [lia|]. unfold coef_at. set (k := 10 ^ _).
    assert (0 < k <= 1000) as Hk by (split; [apply pow10_pos; lia|apply (Z.pow_le_mono_r 10 _ 3); lia]).
    rewrite Z.abs_eq by nia. apply Z.le_lt_trans with (coef p * 1000); [nia|lia]. }
  assert (at_scale 3 (10 ^ 6) (Dec 10000 (-2))) as S100 by (split; vm_compute; [split; discriminate|reflexivity]).
  destruct (at_scale_add 3 _ _ _ _ S100 Sp ltac:(vm_compute; discriminate) ltac:(lia)) as (v & -> & Vv & Sv). cbn [lift_dec map_err res_bind].
  change (dval (Dec 10000 (-2))) with (10000 * (1 # 100))%Q in Vv. assert (dval v == 100 + dval p)%Q as Vv' by (rewrite Vv; ring).
  destruct (Z.eq_dec F 0) as [->|NF].
  - assert (ddiv y v = Ok (Dec 0 (dexp y - dexp v))) as ->.
    { unfold ddiv. assert (coef v <> 0) as Nv.
      { intros Z0. unfold dval at 1 in Vv'. rewrite Z0 in Vv'. change (inject_Z 0) with 0%Q in Vv'. lra. }
      rewrite (proj2 (Z.eqb_neq _ _) Nv). change (coef y) with 0. cbn [Z.mul Z.eqb]. apply fix_ctx_fits. destruct Sv as [Ev _].
      split; cbn [coef dexp]; [done|]. unfold y. cbn [dexp]. unfold Etiny, Etop, Emin, Emax, prec. lia. }
    cbn [lift_dec map_err res_bind]. rewrite quantize_zero; [|done|destruct Sv as [Ev _]; unfold y; cbn [dexp]; lia]. cbn [res_bind].
    exists 0. split; [done|]. split; [lia|]. change (inject_Z 0) with 0%Q. split; lra.
  - assert (small y) as Sy by (split; unfold y; cbn [coef dexp]; [unfold prec; nia|lia]).
    assert (small v) as Sv'.
    { pose proof (at_scale_coef _ _ _ Sv) as Cv. destruct Sv as [Ev _]. split; [|lia]. split; [|unfold prec; lia].
      rewrite Zlt_Qlt. change (inject_Z 0) with 0%Q. apply Qnot_le_lt. intros L. unfold dval at 1 in Vv'. pose proof (p10_pos (dexp v)). unfold p10 in *. nra. }
    destruct (ddiv_close y v Sy Sv') as (d & -> & Hd & Hc1 & He1). cbn [lift_dec map_err res_bind].
    assert (0 <= dval d)%Q as D0.
    { unfold dval. apply Qmult_le_0_compat; [change 0%Q with (inject_Z 0); rewrite <- Zle_Qle; lia|apply Qlt_le_weak, p10_pos]. }
    assert (tax_in F (minor (dval d))) as HT.
    { apply (tax_of_quotient F d v); [done..|]. rewrite Vy in Hd. rewrite dval_minor in Hd. unfold Qdiv in Hd. exact Hd. }
    exists (minor (dval d)). split; [|done]. rewrite (quantize_dec_spec d _ 2); [done|split; lia|done|].
    change (minor_spec 2 (dval d)) with (minor (dval d)). destruct HT as [? _]. unfold prec. lia.
Qed.
End Market.

(** ** The whole quote *)

Lemma round_half_even_abs (n d : Z) : 0 < d -> Z.abs (round_half_even n d) <= Z.abs n + 1.
Proof.
  intros Hd. unfold round_half_even. assert (0 <= Z.abs n / d <= Z.abs n) as H.
  { split; [apply Z.div_pos; lia|]. apply Z.div_le_upper_bound; nia. }
  repeat case_match; lia.
Qed.

Lemma quantize_half_even_ok (k b j : Z) (d : dec) :
  at_scale k b d -> 0 <= j <= k -> b < 10 ^ prec -> exists x, quantize_half_even (- j) d = Ok x.
Proof.
  intros H Hj Hb. pose proof (at_scale_coef _ _ _ H) as Hc. destruct H as [He Hs]. unfold quantize_half_even.
  set (c := if - j <=? dexp d then _ else _). assert (Z.abs c <= b) as Hcb.
  { unfold c, coef_at in *. destruct (Z.leb_spec (- j) (dexp d)) as [L|L].
    - pose proof (pow10_pos (dexp d - - j) ltac:(lia)). assert (10 ^ (dexp d - - j) <= 10 ^ (dexp d - - k)) by (apply Z.pow_le_mono_r; lia).
      rewrite Z.abs_mul in *. rewrite (Z.abs_eq (10 ^ _)) in * by lia. nia.
    - pose proof (round_half_even_abs (coef d) (10 ^ (- j - dexp d)) (pow10_pos (- j - dexp d) ltac:(lia))). lia. }
  rewrite (proj2 (Z.ltb_ge _ _)); [by eexists|]. apply ndigits_le; [done|lia].
Qed.

Lemma country_currency_ok (code : option string) : exponent (Some (country_currency (get_country code))) = Ok 2.
Proof.
  unfold get_country. destruct (truthy code); [|done]. destruct (registry_get (norm_code code)) as [c|] eqn:E; [|done]. cbn [default].
  apply find_some in E as [H _]. destruct H as [<-|[<-|[]]]; done.
Qed.

Definition zone_row_ok (zone : option Zone) : Prop := forall z, zone = Some z -> zone_ok z.

Lemma zone_currency_ok (zone : option Zone) : zone_row_ok zone -> exponent (Some (zone_currency_of zone)) = Ok 2.
Proof.
  intros H. unfold zone_currency_of. destruct (truthy _) eqn:E; [|apply country_currency_ok].
  destruct zone as [z|]; [|done]. cbn [from_option] in *. destruct (H z eq_refl) as [_ [E0|S]]; [by rewrite E0 in E|by apply exponent_supported].
Qed.

Definition quote_percent (card : option RateCard) : dec := or_zero (from_option gst_percent (Dec 500 (-2)) card).
Definition quote_fee (zone : option Zone) : Z := minor (dval (or_zero (from_option zone_per_trip_fee (of_Z 0) zone))).

Lemma zone_fee_ok (zone : option Zone) (c : option string) :
  zone_row_ok zone -> exponent c = Ok 2 ->
  quantize_dec (or_zero (from_option zone_per_trip_fee (of_Z 0) zone)) c = Ok (Dec (quote_fee zone) (-2)) /\ 0 <= quote_fee zone < 10 ^ 18.
Proof.
  intros H Hc. unfold quote_fee. set (d := or_zero _).
  assert (0 <= coef d < 10 ^ 15 /\ -4 <= dexp d <= 0) as [D1 D2].
  { unfold d, or_zero. destruct zone as [z|]; cbn [from_option]; [|cbn; lia]. destruct (H z eq_refl) as [[Z1 Z2] _]. destruct (_ =? 0); cbn; lia. }
  assert (at_scale 4 (10 ^ 19) d) as S.
  { split; [lia|]. unfold coef_at. set (k := 10 ^ _). assert (0 < k <= 10000) by (split; [apply pow10_pos; lia|apply (Z.pow_le_mono_r 10 _ 4); lia]).
    rewrite Z.abs_eq by nia. apply Z.le_lt_trans with (coef d * 10000); [nia|lia]. }
  split; [apply (quantize_at_scale 4 (10 ^ 19)); [exact S|lia|unfold prec; lia|exact Hc]|].
  pose proof (minor_at_scale 4 _ (10 ^ 17) d S ltac:(lia) ltac:(vm_compute; discriminate)). split; [|lia].
  apply minor_nonneg. unfold dval. apply Qmult_le_0_compat; [change 0%Q with (inject_Z 0); rewrite <- Zle_Qle; lia|apply Qlt_le_weak, p10_pos].
Qed.

Section Whole.
Context (zone : option Zone) (card : option RateCard) (r : Rates) (night : bool) (dyn km minutes : dec) (vehicle_type : string).

Definition quote_fare_minor : Z := charge (zone_currency_of zone) (metered_q r night dyn km minutes).

(** What the quote says, in minor units. *)
Record quote_says (q : Quote) (tax : Z) (lines : list Z) : Prop := {
  qs_currency : q_currency q = zone_currency_of zone;
  qs_tax : tax_amount q = Dec tax (-2);
  qs_fee : per_trip_fee q = Dec (quote_fee zone) (-2);
  qs_base : q_base q = Dec (minor (dval (rt_base r))) (-2);
  qs_distance : distance_fare q = Dec (minor (dval (rt_per_km r) * dval km)) (-2);
  qs_time : time_fare q = Dec (minor (dval (rt_per_min r) * dval minutes)) (-2);
  qs_additive : additive_zone zone ->
    tax = tax_on (quote_percent card) quote_fare_minor /\ total_fare q = Dec (quote_fare_minor + tax + quote_fee zone) (-2);
  qs_inclusive : ~ additive_zone zone -> tax_in (quote_percent card) quote_fare_minor tax /\ total_fare q = Dec quote_fare_minor (-2);
  qs_lines : lines_are (fare_adjustments q) lines;
  qs_sum : total_fare q = Dec (coef (q_base q) + coef (distance_fare q) + coef (time_fare q) + zsum id lines) (-2);
  qs_rounding : forall a, a ∈ fare_adjustments q -> adj_code a = "rounding" ->
    Z.abs (coef (adj_amount a)) <= if whole_unit_fare (zone_currency_of zone) then 52 else 2
}.

Context (Hzone : zone_row_ok zone) (Hpct : pct_ok (quote_percent card)).
Context (Hr : rates_ok r) (Hkm : measure_ok km) (Hmin : measure_ok minutes) (Hdyn : surge_ok dyn).

Lemma metered_floor (m : Metering) :
  metered_as r night dyn km minutes m ->
  (metered_q r night dyn km minutes == pre_surge_q r km minutes * multiplier_q r night dyn
     + if mg_min_applied m then dval (rt_min_fare r) - pre_surge_q r km minutes * multiplier_q r night dyn else 0)%Q.
Proof.
  intros [_ _ _ _ _ Hm]. unfold metered_q. set (pm := (pre_surge_q r km minutes * multiplier_q r night dyn)%Q) in *. destruct (mg_min_applied m).
  - rewrite Q.max_r by (apply Qlt_le_weak, Hm; done). ring.
  - rewrite Q.max_l; [ring|]. apply Qnot_lt_le. intros L%Hm. done.
Qed.

Lemma metered_nonneg : (0 <= metered_q r night dyn km minutes)%Q.
Proof. unfold metered_q. apply Qle_trans with (dval (rt_min_fare r)); [apply Hr|apply Q.le_max_r]. Qed.

(** Four of the five lines are rounded, and the fare: what is left is less than that. *)
Lemma residual_small (m : Metering) (cur : string) :
  metered_as r night dyn km minutes m ->
  let pm := (pre_surge_q r km minutes * multiplier_q r night dyn)%Q in
  let floor := if mg_min_applied m then minor (dval (rt_min_fare r) - pm) else 0 in
  Z.abs (charge cur (metered_q r night dyn km minutes)
         - (minor (dval (rt_base r)) + minor (dval (rt_per_km r) * dval km) + minor (dval (rt_per_min r) * dval minutes)
            + (minor (pm - pre_surge_q r km minutes) + floor))) <= if whole_unit_fare cur then 52 else 2.
Proof.
  intros Hm pm floor. pose proof (metered_floor m Hm) as E. fold pm in E.
  pose proof (charge_near cur (metered_q r night dyn km minutes)) as C.
  pose proof (minor_of_scale2 _ _ (proj1 (ro_base _ Hr))) as B.
  pose proof (minor_bounds (dval (rt_per_km r) * dval km)) as D. pose proof (minor_bounds (dval (rt_per_min r) * dval minutes)) as T.
  pose proof (minor_bounds (pm - pre_surge_q r km minutes)) as S.
  set (fq := if mg_min_applied m then (dval (rt_min_fare r) - pm)%Q else 0%Q) in *.
  assert (fq * 100 - (1 # 2) <= inject_Z floor <= fq * 100 + (1 # 2))%Q as F.
  { unfold fq, floor. destruct (mg_min_applied m); [apply minor_bounds|split; vm_compute; discriminate]. }
  set (mq := metered_q r night dyn km minutes) in *. set (c := charge cur mq) in *. set (d := minor (dval (rt_per_km r) * dval km)) in *. set (t := minor (dval (rt_per_min r) * dval minutes)) in *.
  set (u := minor (pm - pre_surge_q r km minutes)) in *. set (b := minor (dval (rt_base r))) in *. set (residual := c - (b + d + t + (u + floor))).
  unfold pre_surge_q in S. clearbody c d t u b floor fq mq pm.
  assert (inject_Z residual == inject_Z c - (inject_Z b + inject_Z d + inject_Z t + (inject_Z u + inject_Z floor)))%Q as R.
  { unfold residual, Z.sub. rewrite inject_Z_plus, inject_Z_opp, !inject_Z_plus. reflexivity. }
  assert (inject_Z (- ((if whole_unit_fare cur then 52 else 2) + 1)) < inject_Z residual < inject_Z ((if whole_unit_fare cur then 52 else 2) + 1))%Q as [L U].
  { rewrite R, inject_Z_opp, inject_Z_plus. destruct (whole_unit_fare cur); [change (inject_Z 52) with 52%Q|change (inject_Z 2) with 2%Q];
      change (inject_Z 1) with 1%Q; lra. }
  rewrite <- Zlt_Qlt in L, U. lia.
Qed.

Lemma quote_fare_bounds : 0 <= quote_fare_minor <= 10 ^ 18.
Proof.
  unfold quote_fare_minor. split; [apply charge_nonneg, metered_nonneg|].
  destruct (metering_ok r night dyn km minutes Hr Hkm Hmin Hdyn) as (m & _ & Hm). destruct (ma_subtotal _ _ _ _ _ _ Hm) as [V S].
  destruct (round_fare_ok _ _ S (zone_currency_ok zone Hzone)) as [_ B]. rewrite (charge_proper _ _ _ V) in B. lia.
Qed.

(** The market, whichever it is: the total is the fare and the lines added. *)
Lemma market_ok (tax_label fee_label : string) :
  exists total tax lines extra,
    market zone (quote_percent card) (Dec (quote_fee zone) (-2)) (Dec quote_fare_minor (-2)) tax_label fee_label (zone_currency_of zone)
      = Ok (Dec total (-2), Dec tax (-2), lines) /\
    lines_are lines extra /\ no_rounding lines /\ total = quote_fare_minor + zsum id extra /\
    (additive_zone zone -> tax = tax_on (quote_percent card) quote_fare_minor /\ total = quote_fare_minor + tax + quote_fee zone) /\
    (~ additive_zone zone -> tax_in (quote_percent card) quote_fare_minor tax /\ total = quote_fare_minor).
Proof.
  pose proof quote_fare_bounds as HF. pose proof (zone_currency_ok zone Hzone) as Hc.
  destruct (zone_fee_ok zone _ Hzone Hc) as [_ Hf]. destruct (decide (zone_tax_mode_of zone = "additive")) as [HA|HA].
  - destruct (market_additive zone (quote_percent card) tax_label fee_label _ Hc Hpct _ _ HA HF Hf) as (lines & E & L & N).
    eexists _, _, lines, _. split; [exact E|]. split; [exact L|]. split; [exact N|]. split; [rewrite zsum_app, !line_of_sum; lia|]. by split.
  - destruct (market_inclusive zone (quote_percent card) tax_label fee_label _ Hc Hpct _ (Dec (quote_fee zone) (-2)) HA HF) as (tax & E & T).
    eexists _, tax, [], []. split; [exact E|]. split; [done|]. split; [constructor|]. split; [cbn; lia|]. by split.
Qed.

Lemma build_quote_ok : exists q tax lines,
  build_quote zone card r night dyn km minutes vehicle_type = Ok q /\ quote_says q tax lines.
Proof.
  pose proof (zone_currency_ok zone Hzone) as Hc. destruct (zone_fee_ok zone _ Hzone Hc) as [Ef _]. pose proof quote_fare_bounds as HF.
  destruct (metering_ok r night dyn km minutes Hr Hkm Hmin Hdyn) as (m & Em & Hm).
  pose proof Hm as [[Vd Sd] [Vt St] _ [Vm Sm] [Vs Ss] _]. pose proof (proj1 (ro_base _ Hr)) as Sb.
  destruct (round_fare_ok _ _ Ss Hc) as [Er _]. rewrite (charge_proper _ _ _ Vs) in Er. fold quote_fare_minor in Er.
  pose proof (quantize_at_scale 2 _ _ _ Sb ltac:(lia) ltac:(by vm_compute) Hc) as Eb.
  pose proof (quantized _ Hc 8 _ _ _ Sd Vd ltac:(lia) ltac:(by vm_compute)) as Ed.
  pose proof (quantized _ Hc 8 _ _ _ St Vt ltac:(lia) ltac:(by vm_compute)) as Et.
  destruct (uplifts_ok _ Hc r night dyn km minutes m Hr Hm) as (ups & amounts & Eu & Lu & Zu & Nu & Fu & Cu).
  pose proof (minor_at_scale 2 _ (10 ^ 18) _ Sb ltac:(lia) ltac:(by vm_compute)) as Bb.
  pose proof (minor_at_scale 8 _ (10 ^ 18) _ Sd ltac:(lia) ltac:(by vm_compute)) as Bd. rewrite Vd in Bd.
  pose proof (minor_at_scale 8 _ (10 ^ 18) _ St ltac:(lia) ltac:(by vm_compute)) as Bt. rewrite Vt in Bt.
  destruct (rounding_line_ok quote_fare_minor _ _ _ ups amounts Lu Nu Fu ltac:(lia) Bb Bd Bt) as (lines & El & Ll & Cl).
  pose proof (residual_small m (zone_currency_of zone) Hm) as Rs. cbn zeta in Rs. rewrite <- Zu in Rs. fold quote_fare_minor in Rs.
  assert (exists x, quantize_half_even (-3) (quote_percent card) = Ok x) as (x & Ex).
  { apply (quantize_half_even_ok 3 (10 ^ 11) 3); [|lia|by vm_compute]. destruct Hpct as [P1 P2]. split; [lia|]. unfold coef_at. set (k := 10 ^ _).
    assert (0 < k <= 1000) by (split; [apply pow10_pos; lia|apply (Z.pow_le_mono_r 10 _ 3); lia]). rewrite Z.abs_eq by nia.
    apply Z.le_lt_trans with (coef (quote_percent card) * 1000); [nia|lia]. }
  destruct (quantize_half_even_ok 6 _ 2 _ Sm ltac:(lia) ltac:(by vm_compute)) as (y & Ey). change (- (2)) with (-2) in Ey.
  set (fl := if truthy (Some (from_option zone_fee_label EmptyString zone)) then from_option zone_fee_label EmptyString zone else "Regulatory fee").
  destruct (market_ok (country_tax_label (get_country (zone_country <$> zone))) fl) as (total & tax & mlines & extra & Emk & Lm & Cm & Tm & Am & Im).
  unfold build_quote. rewrite Em. cbn [lift_dec map_err res_bind]. rewrite Er. cbn [res_bind]. rewrite Eb, Ed, Et. cbn [res_bind]. rewrite Eu. cbn [res_bind].
  rewrite El. cbn [lift_dec map_err res_bind]. rewrite Ef. cbn [res_bind]. fold (quote_percent card). fold fl. rewrite Emk. cbn [res_bind]. rewrite Ex, Ey.
  cbn [lift_dec map_err res_bind]. match type of Ll with lines_are _ ?l => eexists _, tax, (l ++ extra) end. split; [reflexivity|].
  split; cbn [q_currency tax_amount per_trip_fee q_base distance_fare time_fare total_fare fare_adjustments coef]; try done.
  - intros HA. destruct (Am HA) as [-> ->]. done.
  - intros HA. destruct (Im HA) as [? ->]. done.
  - by apply lines_are_app.
  - rewrite Tm, !zsum_app. set (residual := _ - _) in *.
    assert (zsum id (if residual =? 0 then [] else [residual]) = residual) as -> by apply line_of_sum. unfold residual. f_equal. lia.
  - intros a [Ha|Ha]%elem_of_app C; [|by destruct (proj1 (Forall_forall _ _) Cm a Ha)]. rewrite (Cl Cu a Ha C). exact Rs.
Qed.
End Whole.

(** ** [quote_fare] on the tables *)

(** What [quote_fare] looks up. *)
Definition quote_zone (env : PricingEnv) (pickup : option (Q * Q)) : option Zone := p ← pickup; @find_zone_for_point (pr_lookup env) p.

Definition quote_card (env : PricingEnv) (vehicle_type : string) (pickup : option (Q * Q)) : option RateCard :=
  z ← quote_zone env pickup; v ← vehicle_type_named env vehicle_type; get_active_rate_card (pr_zones env) (pr_cards env) z v (pr_now env).

Definition quote_night (env : PricingEnv) (card : option RateCard) : bool :=
  match card with Some c => dltb ONE (night_surge_multiplier c) && is_night_now c (pr_hour_of env (card_zone c)) | None => false end.

Definition quote_surge (env : PricingEnv) (card : option RateCard) (pickup : option (Q * Q)) : dec :=
  compute_surge_multiplier pickup (rt_cap (from_option card_rates DEFAULTS card)) (pr_counts env).

(** What the pricing tables hold. *)
Record tables_priced (env : PricingEnv) : Prop := {
  tp_cards : forall c, c ∈ pr_cards env -> rates_ok (card_rates c) /\ pct_ok (gst_percent c);
  tp_zones : forall p z, @find_zone_for_point (pr_lookup env) p = Some z -> zone_ok z
}.

Section Tables.
Context (env : PricingEnv) (Henv : tables_priced env) (vehicle_type : string) (pickup : option (Q * Q)).

Let zone := quote_zone env pickup.
Let card := quote_card env vehicle_type pickup.
Let r := from_option card_rates DEFAULTS card.

Lemma quote_zone_ok : zone_row_ok zone.
Proof. intros z H. unfold zone, quote_zone in H. destruct pickup as [p|]; [|done]. by apply (tp_zones env Henv p). Qed.

Lemma quote_card_elem (c : RateCard) : card = Some c -> c ∈ pr_cards env.
Proof.
  unfold card, quote_card. destruct (quote_zone env pickup) as [z|]; [|done]. destruct (vehicle_type_named env vehicle_type) as [v|]; [|done].
  apply get_active_rate_card_elem.
Qed.

Lemma defaults_ok : rates_ok DEFAULTS.
Proof. split; (split; [split; vm_compute; [split; discriminate|reflexivity]|vm_compute; discriminate]). Qed.

Lemma quote_rates_ok : rates_ok r /\ pct_ok (quote_percent card).
Proof.
  unfold r, quote_percent. pose proof quote_card_elem as H. destruct card as [c|]; cbn [from_option].
  - destruct (tp_cards env Henv c (H c eq_refl)) as [? P]. split; [done|]. by apply or_zero_pct.
  - split; [apply defaults_ok|]. split; cbn; lia.
Qed.

Lemma surge_tier_ok (supply demand : Z) : surge_ok (surge_tier supply demand).
Proof. unfold surge_tier. repeat case_match; (split; [split; vm_compute; [split; discriminate|reflexivity]|vm_compute; discriminate]). Qed.

Lemma surge_below (d e : dec) (b : Z) : at_scale 2 b d -> surge_ok e -> (0 <= dval d)%Q -> (dval d < dval e)%Q -> surge_ok d.
Proof.
  intros [He _] [[Ee Be] _] H0 H. split; [|done]. split; [done|].
  pose proof (coef_at_val (- 2) d ltac:(lia)) as V. pose proof (coef_at_val (- 2) e ltac:(lia)) as W. change (p10 (- 2)) with (1 # 100)%Q in V, W.
  assert (inject_Z 0 <= inject_Z (coef_at (- 2) d) < inject_Z (coef_at (- 2) e))%Q as [L U] by (change (inject_Z 0) with 0%Q; lra).
  rewrite <- Zle_Qle in L. rewrite <- Zlt_Qlt in U. change (Z.opp 2) with (-2) in *. lia.
Qed.

Lemma quote_surge_ok : surge_ok (quote_surge env card pickup).
Proof.
  unfold quote_surge. fold r. destruct quote_rates_ok as [[_ _ _ _ _ [C1 C2]] _]. unfold compute_surge_multiplier.
  assert (surge_ok ONE) as H1 by (split; [split; vm_compute; [split; discriminate|reflexivity]|vm_compute; discriminate]).
  destruct pickup as [p|]; [|exact H1]. destruct (pr_counts env) as [[supply demand]|]; [|exact H1].
  destruct (dltb (rt_cap r) _) eqn:E; [|apply surge_tier_ok]. apply dltb_spec in E.
  exact (surge_below _ _ _ C1 (surge_tier_ok supply demand) C2 E).
Qed.

Lemma quote_fare_says (distance_km duration_min : pynum) :
  truthy (Some vehicle_type) = true -> is_Some card \/ pr_allow_default env = true ->
  measure_ok (trip_measures distance_km duration_min).1 -> measure_ok (trip_measures distance_km duration_min).2 ->
  exists q tax lines, quote_fare env distance_km duration_min vehicle_type pickup = Ok q /\
    quote_says zone card r (quote_night env card) (quote_surge env card pickup) (trip_measures distance_km duration_min).1
      (trip_measures distance_km duration_min).2 q tax lines.
Proof.
  intros Hv Hc Hk Hm. destruct quote_rates_ok as [Hr Hp].
  destruct (build_quote_ok zone card r (quote_night env card) (quote_surge env card pickup) _ _ vehicle_type quote_zone_ok Hp Hr Hk Hm quote_surge_ok)
    as (q & tax & lines & E & S). exists q, tax, lines. split; [|exact S].
  unfold quote_fare. rewrite Hv. cbn [negb]. destruct (trip_measures distance_km duration_min) as [km minutes]. cbn [fst snd] in *.
  fold (quote_zone env pickup). fold zone. change (z ← zone; v ← vehicle_type_named env vehicle_type; _) with card.
  assert (negb (bool_decide (is_Some card)) && negb (pr_allow_default env) = false) as ->.
  { destruct Hc as [H| ->]; [by rewrite (bool_decide_eq_true_2 _ H)|apply andb_false_r]. }
  fold r. unfold fare_raised.
  assert (match card with Some c => dltb ONE (rt_night r) && is_night_now c (pr_hour_of env (card_zone c)) | None => false end = quote_night env card) as ->.
  { unfold quote_night, r. by destruct card. }
  unfold quote_surge in E. fold r in E. by rewrite E.
Qed.
End Tables.

(** The quote of a pickup in a zone with a card is built from them. *)
Lemma quote_fare_built (env : PricingEnv) (distance_km duration_min : pynum) (vehicle_type : string) (pickup : option (Q * Q))
    (z : Zone) (c : RateCard) (q : Quote) :
  quote_zone env pickup = Some z -> quote_card env vehicle_type pickup = Some c ->
  quote_fare env distance_km duration_min vehicle_type pickup = Ok q ->
  let '(km, minutes) := trip_measures distance_km duration_min in
  build_quote (Some z) (Some c) (card_rates c) (quote_night env (Some c)) (quote_surge env (Some c) pickup) km minutes vehicle_type = Ok q.
Proof.
  intros Hz Hc. unfold quote_fare. destruct (truthy _); [|done]. cbn [negb]. destruct (trip_measures _ _) as [km minutes].
  fold (quote_zone env pickup). unfold quote_card in Hc. rewrite Hc, Hz. cbn [is_Some].
  rewrite (bool_decide_eq_true_2 (is_Some (Some c))) by by eexists. cbn [negb andb from_option].
  unfold fare_raised. destruct (build_quote _ _ _ _ _ _ _ _) as [x|e] eqn:E; [|done]. cbn [map_err]. by intros [= <-].
Qed.
