(* ===== verification/QuotePromises.v ===== *)
(** * QuotePromises: the quote, from the tables to the settlement

    The properties of [quote_fare]: what it charges, that its lines add up, that a longer ride
    costs no less, and that the settlement takes a quoted total apart again. *)

From Stdlib Require Import QArith Qminmax Lqa.
From S2P Require Import Prelude PyDecimal PyText Countries Models Money Commission Zones PromoTax Fares FarePromises.
#[local] Open Scope string_scope.
#[local] Open Scope list_scope.
#[local] Open Scope Z_scope.

(** ** The tariff of a pickup *)

(** The fare, in minor units, before an additive market adds its tax and fee. *)
Definition tariff (env : PricingEnv) (vehicle_type : string) (pickup : option (Q * Q)) (km minutes : dec) : Z :=
  let card := quote_card env vehicle_type pickup in
  quote_fare_minor (quote_zone env pickup) (from_option card_rates DEFAULTS card) (quote_night env card) (quote_surge env card pickup) km minutes.

(** A request [quote_fare] answers: a class, a card or the defaults, and measures in range. *)
Record quotable (env : PricingEnv) (distance_km duration_min : pynum) (vehicle_type : string) (pickup : option (Q * Q)) : Prop := {
  qb_tables : tables_priced env;
  qb_class : truthy (Some vehicle_type) = true;
  qb_card : is_Some (quote_card env vehicle_type pickup) \/ pr_allow_default env = true;
  qb_distance : measure_ok (trip_measures distance_km duration_min).1;
  qb_duration : measure_ok (trip_measures distance_km duration_min).2
}.

(** ** Lemmas *)

Lemma quotable_says (env : PricingEnv) (distance_km duration_min : pynum) (vehicle_type : string) (pickup : option (Q * Q)) :
  quotable env distance_km duration_min vehicle_type pickup ->
  let card := quote_card env vehicle_type pickup in
  exists q tax lines, quote_fare env distance_km duration_min vehicle_type pickup = Ok q /\
    quote_says (quote_zone env pickup) card (from_option card_rates DEFAULTS card) (quote_night env card) (quote_surge env card pickup)
      (trip_measures distance_km duration_min).1 (trip_measures distance_km duration_min).2 q tax lines.
Proof. intros [H1 H2 H3 H4 H5] card. by apply quote_fare_says. Qed.

Section Monotone.
Context (r : Rates) (night : bool) (dyn km km' minutes minutes' : dec).
Context (Hr : rates_ok r) (Hdyn : surge_ok dyn) (Hkm : (dval km <= dval km')%Q) (Hmin : (dval minutes <= dval minutes')%Q).

Lemma multiplier_nonneg : (0 <= multiplier_q r night dyn)%Q.
Proof.
  unfold multiplier_q. apply Q.min_glb; [|apply Hr]. destruct (ro_night _ Hr) as [_ N], Hdyn as [_ D]. destruct night; [|lra]. by apply Qmult_le_0_compat.
Qed.

Lemma metered_mono : (metered_q r night dyn km minutes <= metered_q r night dyn km' minutes')%Q.
Proof.
  unfold metered_q. apply Q.max_le_compat_r. apply Qmult_le_compat_r; [|apply multiplier_nonneg]. unfold pre_surge_q.
  destruct (ro_per_km _ Hr) as [_ A], (ro_per_min _ Hr) as [_ B].
  assert (dval (rt_per_km r) * dval km <= dval (rt_per_km r) * dval km')%Q by (rewrite !(Qmult_comm (dval (rt_per_km r))); by apply Qmult_le_compat_r).
  assert (dval (rt_per_min r) * dval minutes <= dval (rt_per_min r) * dval minutes')%Q by (rewrite !(Qmult_comm (dval (rt_per_min r))); by apply Qmult_le_compat_r).
  lra.
Qed.
End Monotone.

Lemma charge_mono (c : string) (p q : Q) : (p <= q)%Q -> charge c p <= charge c q.
Proof. intros H. unfold charge. destruct (whole_unit_fare c); [|by apply minor_mono]. pose proof (rhu_mono _ _ H). lia. Qed.

Lemma dval_minor_le (a b : Z) : a <= b -> (dval (Dec a (-2)) <= dval (Dec b (-2)))%Q.
Proof. intros H. rewrite !dval_minor. apply Qmult_le_compat_r; [by rewrite <- Zle_Qle|discriminate]. Qed.

Lemma additive_some (zone : option Zone) : additive_zone zone -> exists z, zone = Some z /\ is_additive zone = true.
Proof.
  unfold additive_zone, zone_tax_mode_of, is_additive. destruct zone as [z|]; cbn [from_option]; [|done].
  intros H. exists z. split; [done|]. by rewrite H.
Qed.

(** The tax context the settlement finds is the one of the quote. *)
Lemma quote_context (env : PricingEnv) (vehicle_type : string) (pickup : option (Q * Q)) :
  tables_priced env -> additive_zone (quote_zone env pickup) -> is_Some (quote_card env vehicle_type pickup) ->
  additive_context (pr_zones env) (pr_cards env) (pr_now env) (quote_zone env pickup) (vehicle_type_named env vehicle_type)
  = Ok (Some (quote_percent (quote_card env vehicle_type pickup), Dec (quote_fee (quote_zone env pickup)) (-2))).
Proof.
  intros Henv HA [c Hc]. pose proof (quote_zone_ok env Henv vehicle_type pickup) as Hz.
  destruct (additive_some _ HA) as (z & Ez & Ha). rewrite Hc. unfold quote_card in Hc. unfold additive_context. rewrite Ha, Ez in *. cbn [negb].
  destruct (vehicle_type_named env vehicle_type) as [v|]; [|done].
  change (get_active_rate_card (pr_zones env) (pr_cards env) z v (pr_now env) = Some c) in Hc. rewrite Hc.
  destruct (zone_fee_ok (Some z) (Some (if truthy (Some (zone_currency z)) then zone_currency z else "USD")) Hz) as [E _].
  { destruct (truthy _) eqn:T; [|done]. destruct (Hz z eq_refl) as [_ [E0|S]]; [by rewrite E0 in T|by apply exponent_supported]. }
  cbn [from_option] in E. rewrite E. done.
Qed.

(** ** Properties *)

(** C12. What a ride is quoted.  Whenever the tables price the pickup, the quote is made, and its
    total is the tariff: base, distance and time, times the night and demand multipliers up to
    the card's cap, at least the minimum fare, rounded once, to whole rupees in India.  In an
    additive market the tax on that fare and the flat fee are added; otherwise the total is that
    fare and the tax reported is the part of it that is tax, to the minor unit. *)
Theorem quote_is_the_tariff (env : PricingEnv) (distance_km duration_min : pynum) (vehicle_type : string) (pickup : option (Q * Q)) :
  quotable env distance_km duration_min vehicle_type pickup ->
  exists q tax, quote_fare env distance_km duration_min vehicle_type pickup = Ok q /\
    let zone := quote_zone env pickup in
    let percent := quote_percent (quote_card env vehicle_type pickup) in
    let fare := tariff env vehicle_type pickup (trip_measures distance_km duration_min).1 (trip_measures distance_km duration_min).2 in
    q_currency q = zone_currency_of zone /\ tax_amount q = Dec tax (-2) /\ per_trip_fee q = Dec (quote_fee zone) (-2) /\
    (additive_zone zone -> tax = tax_on percent fare /\ total_fare q = Dec (fare + tax + quote_fee zone) (-2)) /\
    (~ additive_zone zone -> tax_in percent fare tax /\ total_fare q = Dec fare (-2)).
Proof. intros H. destruct (quotable_says _ _ _ _ _ H) as (q & tax & lines & E & []). exists q, tax. by split_and!. Qed.

(** C28. A quote adds up.  Base, distance and time and the named lines are amounts of minor units
    whose sum is exactly the total, and what the quote calls rounding is at most two minor
    units, or 52 paise where fares are whole rupees. *)
Theorem quote_lines_add_up (env : PricingEnv) (distance_km duration_min : pynum) (vehicle_type : string) (pickup : option (Q * Q)) :
  quotable env distance_km duration_min vehicle_type pickup ->
  exists q base distance time lines, quote_fare env distance_km duration_min vehicle_type pickup = Ok q /\
    q_base q = Dec base (-2) /\ distance_fare q = Dec distance (-2) /\ time_fare q = Dec time (-2) /\
    (adj_amount <$> fare_adjustments q) = (fun n => Dec n (-2)) <$> lines /\
    total_fare q = Dec (base + distance + time + zsum id lines) (-2) /\
    forall a, a ∈ fare_adjustments q -> adj_code a = "rounding" ->
      Z.abs (coef (adj_amount a)) <= if whole_unit_fare (q_currency q) then 52 else 2.
Proof.
  intros H. destruct (quotable_says _ _ _ _ _ H) as (q & tax & lines & E & []).
  eexists q, _, _, _, lines. split; [exact E|]. rewrite qs_base, qs_distance, qs_time in qs_sum |- *. by rewrite qs_currency.
Qed.

(** A longer ride costs no less: with the same pickup, class, tables, hour and demand, more
    kilometres and more minutes never quote a smaller total. *)
Theorem longer_ride_costs_no_less (env : PricingEnv) (km km' minutes minutes' : pynum) (vehicle_type : string) (pickup : option (Q * Q)) (q q' : Quote) :
  quotable env km minutes vehicle_type pickup -> quotable env km' minutes' vehicle_type pickup ->
  (dval (trip_measures km minutes).1 <= dval (trip_measures km' minutes').1)%Q ->
  (dval (trip_measures km minutes).2 <= dval (trip_measures km' minutes').2)%Q ->
  quote_fare env km minutes vehicle_type pickup = Ok q -> quote_fare env km' minutes' vehicle_type pickup = Ok q' ->
  (dval (total_fare q) <= dval (total_fare q'))%Q.
Proof.
  intros H H' Hk Hm E E'. destruct (quotable_says _ _ _ _ _ H) as (q0 & tax & lines & E0 & S). rewrite E in E0. injection E0 as <-.
  destruct (quotable_says _ _ _ _ _ H') as (q0 & tax' & lines' & E0 & S'). rewrite E' in E0. injection E0 as <-.
  destruct (quote_rates_ok env (qb_tables _ _ _ _ _ H) vehicle_type pickup) as [Hr Hp].
  pose proof (quote_surge_ok env (qb_tables _ _ _ _ _ H) vehicle_type pickup) as Hd.
  set (card := quote_card env vehicle_type pickup) in *. set (zone := quote_zone env pickup) in *.
  pose proof (charge_mono (zone_currency_of zone) _ _ (metered_mono _ (quote_night env card) _ _ _ _ _ Hr Hd Hk Hm)) as L.
  fold (quote_fare_minor zone (from_option card_rates DEFAULTS card) (quote_night env card) (quote_surge env card pickup)
          (trip_measures km minutes).1 (trip_measures km minutes).2) in L.
  fold (quote_fare_minor zone (from_option card_rates DEFAULTS card) (quote_night env card) (quote_surge env card pickup)
          (trip_measures km' minutes').1 (trip_measures km' minutes').2) in L.
  destruct (decide (zone_tax_mode_of zone = "additive")) as [A|A].
  - destruct (qs_additive _ _ _ _ _ _ _ _ _ _ S A) as [-> ->], (qs_additive _ _ _ _ _ _ _ _ _ _ S' A) as [-> ->].
    pose proof (tax_on_mono _ Hp _ _ L). apply dval_minor_le. lia.
  - destruct (qs_inclusive _ _ _ _ _ _ _ _ _ _ S A) as [_ ->], (qs_inclusive _ _ _ _ _ _ _ _ _ _ S' A) as [_ ->]. by apply dval_minor_le.
Qed.

(** C29. The settlement takes a quoted total apart.  When a ride in an additive market is charged
    what it was quoted, with no discount and the tables unchanged, the split the settlement works
    out of that one number is exactly the fare, the tax and the fee of the quote. *)
Theorem settlement_recovers_the_quote (env : PricingEnv) (distance_km duration_min : pynum) (vehicle_type : string) (pickup : option (Q * Q))
    (q : Quote) (t : Trip) (i : SplitInput) :
  quotable env distance_km duration_min vehicle_type pickup ->
  additive_zone (quote_zone env pickup) -> is_Some (quote_card env vehicle_type pickup) ->
  trip_zone t = quote_zone env pickup -> trip_vehicle_type t = vehicle_type_named env vehicle_type ->
  si_zones i = pr_zones env -> si_cards i = pr_cards env -> si_now i = pr_now env -> si_stored i = None -> si_discount i = 0 ->
  quote_fare env distance_km duration_min vehicle_type pickup = Ok q -> coef (total_fare q) < 10 ^ 18 ->
  settlement_split i t (coef (total_fare q)) (Some (q_currency q)) = Ok (Some {|
    pretax_minor := tariff env vehicle_type pickup (trip_measures distance_km duration_min).1 (trip_measures distance_km duration_min).2;
    tax_minor := coef (tax_amount q); fee_minor := coef (per_trip_fee q) |}).
Proof.
  intros H HA Hcard Tz Tv I1 I2 I3 I4 I5 E HB. destruct (quotable_says _ _ _ _ _ H) as (q0 & tax & lines & E0 & S). rewrite E in E0. injection E0 as <-.
  pose proof (qb_tables _ _ _ _ _ H) as Henv. destruct (quote_rates_ok env Henv vehicle_type pickup) as [Hr Hp].
  pose proof (quote_zone_ok env Henv vehicle_type pickup) as Hz. pose proof (zone_currency_ok _ Hz) as Hc.
  destruct (zone_fee_ok _ _ Hz Hc) as [_ Hf].
  pose proof (quote_fare_bounds (quote_zone env pickup) _ (quote_night env (quote_card env vehicle_type pickup)) _ _ _ Hz Hr
                (qb_distance _ _ _ _ _ H) (qb_duration _ _ _ _ _ H) (quote_surge_ok env Henv vehicle_type pickup)) as HF.
  destruct (qs_additive _ _ _ _ _ _ _ _ _ _ S HA) as [Ht Hq]. rewrite (qs_tax _ _ _ _ _ _ _ _ _ _ S), (qs_fee _ _ _ _ _ _ _ _ _ _ S), (qs_currency _ _ _ _ _ _ _ _ _ _ S).
  unfold tariff. rewrite Hq in HB |- *. cbn [coef] in *. subst tax. set (x := quote_fare_minor _ _ _ _ _ _) in *. set (f := quote_fee _) in *.
  set (p := quote_percent _) in *. pose proof (tax_on_nonneg p Hp x ltac:(lia)) as T0.
  unfold settlement_split. rewrite Tz, Tv, I1, I2, I3, I4, I5. destruct (additive_some _ HA) as (z & _ & ->). cbn [negb].
  rewrite (quote_context env vehicle_type pickup Henv HA Hcard). cbn [res_bind]. fold f p.
  rewrite to_minor_dec2 by (done || (unfold prec; lia)). cbn [res_bind]. rewrite (Z.min_l f) by lia. replace (x + tax_on p x + f - f) with (x + tax_on p x) by lia.
  destruct (Z.leb_spec (x + tax_on p x) 0) as [L|L]; [do 3 f_equal; lia|].
  rewrite Z.sub_0_r, (proj1 (from_minor_Z_spec (x + tax_on p x) _ 2 ltac:(unfold prec; lia) Hc)). cbn [res_bind]. change (- (2)) with (-2).
  rewrite (split_nofee_spec _ Hc p Hp x) by lia. cbn [res_bind]. rewrite !to_minor_dec2 by (done || (unfold prec; lia)). cbn [res_bind]. by rewrite Z.add_0_r.
Qed.

(** ** A demonstration: two cities *)

Definition demo_hyderabad : Zone := {|
  zone_id := 1; zone_code := "IN-HYD"; zone_country := "in"; zone_parent := None; zone_priority := 10; zone_currency := "INR";
  zone_distance_unit := "km"; zone_tax_mode := "inclusive"; zone_per_trip_fee := Dec 0 (-2); zone_fee_label := EmptyString;
  zone_geo_node := None; zone_is_active := true |}.

Definition demo_hyderabad_card : RateCard := {|
  card_zone := 1; card_vehicle_type := 7; base_fare := Dec 3000 (-2); per_km_fare := Dec 1250 (-2); per_min_fare := Dec 175 (-2);
  min_fare := Dec 5000 (-2); night_surge_multiplier := Dec 125 (-2); night_surge_start_hour := 23; night_surge_end_hour := 5;
  surge_cap_multiplier := Dec 150 (-2); gst_percent := Dec 5000 (-3); effective_from := 0; effective_to := None; card_version := 1;
  card_is_active := true |}.

(** Five riders for one driver; the pickup's latitude tells the city. *)
Definition demo_pricing : PricingEnv := {|
  pr_zones := <[1 := demo_hyderabad]> {[2 := us_zone]}; pr_cards := [demo_hyderabad_card; us_card];
  pr_lookup := {| find_zone_for_point p := Some (if Qle_bool 30 p.1 then us_zone else demo_hyderabad) |};
  pr_vehicle_types := [(7, "Auto")]; pr_allow_default := false; pr_hour_of := fun _ => 12; pr_counts := Some (1, 5); pr_now := 10 |}.

Definition in_hyderabad : option (Q * Q) := Some (17.4, 78.5)%Q.
Definition in_new_york : option (Q * Q) := Some (40.7, -74.0)%Q.

Ltac rates_tac := split; (split; [split; vm_compute; [split; discriminate|reflexivity]|vm_compute; discriminate]).
Ltac measure_tac := split; [split; vm_compute; [split; discriminate|reflexivity]|vm_compute; discriminate].

Lemma demo_tables : tables_priced demo_pricing.
Proof.
  split.
  - intros c [->|[->|[]%elem_of_nil]%elem_of_cons]%elem_of_cons.
    + split; [rates_tac|split; vm_compute; split; discriminate || reflexivity].
    + split; [rates_tac|split; vm_compute; split; discriminate || reflexivity].
  - intros p z [= <-]. destruct (Qle_bool 30 p.1); (split; [vm_compute; repeat split; discriminate|right; vm_compute; reflexivity]).
Qed.

Ltac quotable_tac := split; [exact demo_tables|reflexivity|left; eexists; vm_compute; reflexivity|measure_tac|measure_tac].

Lemma demo_hyderabad_ride : quotable demo_pricing (PyFloat "19.09") (PyFloat "51.26") "auto" in_hyderabad.
Proof. quotable_tac. Qed.

Lemma demo_longer_ride : quotable demo_pricing (PyFloat "19.4") (PyInt 52) "auto" in_hyderabad.
Proof. quotable_tac. Qed.

Lemma demo_new_york_ride : quotable demo_pricing (PyFloat "8.125") (PyFloat "21.5") "auto" in_new_york.
Proof. quotable_tac. Qed.

(** Five riders for a driver: half as much again, and the rounding is 51 paise. *)
Lemma quote_is_the_tariff_witness :
  (exists q, quote_fare demo_pricing (PyFloat "19.09") (PyFloat "51.26") "auto" in_hyderabad = Ok q /\ total_fare q = Dec 53700 (-2) /\
     (adj_code <$> fare_adjustments q) = ["surge"; "rounding"] /\ (adj_amount <$> fare_adjustments q) = [Dec 17917 (-2); Dec (-51) (-2)]) /\
  exists q tax, quote_fare demo_pricing (PyFloat "19.09") (PyFloat "51.26") "auto" in_hyderabad = Ok q /\
    let zone := quote_zone demo_pricing in_hyderabad in
    let percent := quote_percent (quote_card demo_pricing "auto" in_hyderabad) in
    let fare := tariff demo_pricing "auto" in_hyderabad (trip_measures (PyFloat "19.09") (PyFloat "51.26")).1 (trip_measures (PyFloat "19.09") (PyFloat "51.26")).2 in
    q_currency q = zone_currency_of zone /\ tax_amount q = Dec tax (-2) /\ per_trip_fee q = Dec (quote_fee zone) (-2) /\
    (additive_zone zone -> tax = tax_on percent fare /\ total_fare q = Dec (fare + tax + quote_fee zone) (-2)) /\
    (~ additive_zone zone -> tax_in percent fare tax /\ total_fare q = Dec fare (-2)).
Proof.
  split; [eexists; split; [vm_compute; reflexivity|]; repeat split; reflexivity|].
  apply (quote_is_the_tariff demo_pricing (PyFloat "19.09") (PyFloat "51.26") "auto" in_hyderabad), demo_hyderabad_ride.
Defined.

Lemma quote_lines_add_up_witness :
  exists q base distance time lines, quote_fare demo_pricing (PyFloat "19.09") (PyFloat "51.26") "auto" in_hyderabad = Ok q /\
    q_base q = Dec base (-2) /\ distance_fare q = Dec distance (-2) /\ time_fare q = Dec time (-2) /\
    (adj_amount <$> fare_adjustments q) = (fun n => Dec n (-2)) <$> lines /\
    total_fare q = Dec (base + distance + time + zsum id lines) (-2) /\
    forall a, a ∈ fare_adjustments q -> adj_code a = "rounding" ->
      Z.abs (coef (adj_amount a)) <= if whole_unit_fare (q_currency q) then 52 else 2.
Proof. apply (quote_lines_add_up demo_pricing (PyFloat "19.09") (PyFloat "51.26") "auto" in_hyderabad), demo_hyderabad_ride. Defined.

Lemma longer_ride_costs_no_less_witness : exists q q',
  quote_fare demo_pricing (PyFloat "19.09") (PyFloat "51.26") "auto" in_hyderabad = Ok q /\
  quote_fare demo_pricing (PyFloat "19.4") (PyInt 52) "auto" in_hyderabad = Ok q' /\ (dval (total_fare q) <= dval (total_fare q'))%Q.
Proof.
  eexists _, _. split; [vm_compute; reflexivity|]. split; [vm_compute; reflexivity|].
  eapply (longer_ride_costs_no_less demo_pricing (PyFloat "19.09") (PyFloat "19.4") (PyFloat "51.26") (PyInt 52) "auto" in_hyderabad _ _
    demo_hyderabad_ride demo_longer_ride); [vm_compute; discriminate|vm_compute; discriminate|vm_compute; reflexivity|vm_compute; reflexivity].
Defined.

Definition demo_split_input : SplitInput := {|
  si_zones := pr_zones demo_pricing; si_cards := pr_cards demo_pricing; si_now := pr_now demo_pricing; si_stored := None; si_discount := 0 |}.

Lemma settlement_recovers_the_quote_witness : exists q,
  quote_fare demo_pricing (PyFloat "8.125") (PyFloat "21.5") "auto" in_new_york = Ok q /\
  settlement_split demo_split_input us_trip (coef (total_fare q)) (Some (q_currency q)) = Ok (Some {|
    pretax_minor := tariff demo_pricing "auto" in_new_york (trip_measures (PyFloat "8.125") (PyFloat "21.5")).1 (trip_measures (PyFloat "8.125") (PyFloat "21.5")).2;
    tax_minor := coef (tax_amount q); fee_minor := coef (per_trip_fee q) |}).
Proof.
  eexists. split; [vm_compute; reflexivity|].
  eapply (settlement_recovers_the_quote demo_pricing (PyFloat "8.125") (PyFloat "21.5") "auto" in_new_york _ us_trip demo_split_input
    demo_new_york_ride); try reflexivity. eexists; vm_compute; reflexivity.
Defined.
