(* ===== verification/FareCards.v ===== *)
(** * FareCards: how a fare card changes, and what a change would cost

    Models [servers/pricing/fare_card_workflow.py] and [RateCard.new_version] of
    [servers/pricing/models.py]: the checks of a proposal, the two executors an approved request
    runs, and the rider-fare preview.  The approval itself is the component of Approvals; here a
    proposal ends in the payload it hands over.  Instants are microseconds. *)

From Stdlib Require Import QArith Lqa.
From S2P Require Import Prelude PyDecimal PyText Countries Models Money Commission Zones PromoTax Fares.
#[local] Open Scope string_scope.
#[local] Open Scope list_scope.
#[local] Open Scope Z_scope.

(** ** The rows *)

(** A stored card: its id, its columns, its notes. *)
Record CardRow := { cr_id : Z; cr_card : RateCard; cr_notes : string }.

Inductive card_event := RateCardVersionCreated (id version : Z) (before : option Z) | RateCardRetired (id version : Z).

Record FareDb := {
  fd_rows : list CardRow;
  fd_next : Z;
  fd_zones : gmap Z Zone;
  fd_vehicle_types : list (Z * string);
  fd_audit : list card_event
}.

(** [VALUE_FIELDS]. *)
Record CardValues := {
  v_base_fare : dec; v_per_km_fare : dec; v_per_min_fare : dec; v_min_fare : dec;
  v_night_multiplier : dec; v_night_start : Z; v_night_end : Z; v_surge_cap : dec; v_gst_percent : dec
}.

Definition card_values (c : RateCard) : CardValues := {|
  v_base_fare := base_fare c; v_per_km_fare := per_km_fare c; v_per_min_fare := per_min_fare c; v_min_fare := min_fare c;
  v_night_multiplier := night_surge_multiplier c; v_night_start := night_surge_start_hour c; v_night_end := night_surge_end_hour c;
  v_surge_cap := surge_cap_multiplier c; v_gst_percent := gst_percent c |}.

(** A new card of a zone and class carrying these values. *)
Definition card_of (zone vt : Z) (v : CardValues) (from : Z) (version : Z) : RateCard := {|
  card_zone := zone; card_vehicle_type := vt; base_fare := v_base_fare v; per_km_fare := v_per_km_fare v; per_min_fare := v_per_min_fare v;
  min_fare := v_min_fare v; night_surge_multiplier := v_night_multiplier v; night_surge_start_hour := v_night_start v;
  night_surge_end_hour := v_night_end v; surge_cap_multiplier := v_surge_cap v; gst_percent := v_gst_percent v; effective_from := from;
  effective_to := None; card_version := version; card_is_active := true |}.

(** Writing the window of a card, and retiring it. *)
Definition with_effective_to (e : option Z) (c : RateCard) : RateCard := {|
  card_zone := card_zone c; card_vehicle_type := card_vehicle_type c; base_fare := base_fare c; per_km_fare := per_km_fare c;
  per_min_fare := per_min_fare c; min_fare := min_fare c; night_surge_multiplier := night_surge_multiplier c;
  night_surge_start_hour := night_surge_start_hour c; night_surge_end_hour := night_surge_end_hour c;
  surge_cap_multiplier := surge_cap_multiplier c; gst_percent := gst_percent c; effective_from := effective_from c;
  effective_to := e; card_version := card_version c; card_is_active := card_is_active c |}.

Definition retired (e : option Z) (c : RateCard) : RateCard := {|
  card_zone := card_zone c; card_vehicle_type := card_vehicle_type c; base_fare := base_fare c; per_km_fare := per_km_fare c;
  per_min_fare := per_min_fare c; min_fare := min_fare c; night_surge_multiplier := night_surge_multiplier c;
  night_surge_start_hour := night_surge_start_hour c; night_surge_end_hour := night_surge_end_hour c;
  surge_cap_multiplier := surge_cap_multiplier c; gst_percent := gst_percent c; effective_from := effective_from c;
  effective_to := e; card_version := card_version c; card_is_active := false |}.

Definition update_card (id : Z) (f : RateCard -> RateCard) (l : list CardRow) : list CardRow :=
  (fun r => if cr_id r =? id then {| cr_id := cr_id r; cr_card := f (cr_card r); cr_notes := cr_notes r |} else r) <$> l.

(** ** Proposing *)

Inductive card_refusal :=
| InvalidFare (field : string)
| ReasonRequired
| NewerVersionExists (version : option Z)
| TargetGone
| CardChanged
| CardNotActive.

(** [check_values]. *)
Definition check_values (v : CardValues) : res card_refusal unit :=
  let negative d := dltb d (of_Z 0) in
  if negative (v_base_fare v) then Err (InvalidFare "base_fare")
  else if negative (v_per_km_fare v) then Err (InvalidFare "per_km_fare")
  else if negative (v_per_min_fare v) then Err (InvalidFare "per_min_fare")
  else if negative (v_min_fare v) then Err (InvalidFare "min_fare")
  else if dltb (v_surge_cap v) (of_Z 1) then Err (InvalidFare "surge_cap_multiplier")
  else if negative (v_night_multiplier v) then Err (InvalidFare "night_surge_multiplier")
  else Ok tt.

(** [order_by('-effective_from', '-version').first()] of the open cards of a class. *)
Definition open_card (zone vt : Z) (c : RateCard) : bool :=
  (card_zone c =? zone) && (card_vehicle_type c =? vt) && card_is_active c && bool_decide (effective_to c = None).

Definition current_card (zone vt : Z) (rows : list CardRow) : option CardRow :=
  best_by (fun a b => card_better (cr_card a) (cr_card b)) (List.filter (fun r => open_card zone vt (cr_card r)) rows).

Inductive card_payload :=
| CreateCard (zone vt : Z) (values : CardValues) (from : Z) (notes : string) (base : option Z)
| RetireCard (card : Z).

Definition propose_new_version (now zone vt : Z) (values : CardValues) (base : option Z) (from : option Z) (notes reason : string)
    (db : FareDb) : res card_refusal card_payload :=
  let* _ := check_values values in
  if negb (truthy (Some (strip reason))) then Err ReasonRequired
  else
    let newest := current_card zone vt (fd_rows db) in
    if negb (bool_decide (cr_id <$> newest = base)) then Err (NewerVersionExists ((fun r => card_version (cr_card r)) <$> newest))
    else Ok (CreateCard zone vt values (default now from) notes base).

Definition propose_retire (card : Z) (reason : string) : res card_refusal card_payload :=
  if negb (truthy (Some (strip reason))) then Err ReasonRequired else Ok (RetireCard card).

(** ** Executing *)

(** [RateCard.new_version]: the successor is saved, then the window of the current card is
    closed at the instant it opens. *)
Definition new_version (current : CardRow) (id : Z) (v : CardValues) (from : Z) (notes : string) (rows : list CardRow) : list CardRow :=
  let c := cr_card current in
  let version := (if card_version c =? 0 then 1 else card_version c) + 1 in
  let successor := {| cr_id := id; cr_card := card_of (card_zone c) (card_vehicle_type c) v from version; cr_notes := notes |} in
  update_card (cr_id current) (with_effective_to (Some from)) (rows ++ [successor]).

Definition ONE_SECOND : Z := 1000000.

(** When the new card takes effect: not before the approval, and after the card it supersedes. *)
Definition takes_effect (now from : Z) (current : option CardRow) : Z :=
  let eff := Z.max from now in
  match current with
  | Some r => if eff <=? effective_from (cr_card r) then Z.max now (effective_from (cr_card r) + ONE_SECOND) else eff
  | None => eff
  end.

Definition execute_create (now zone vt : Z) (values : CardValues) (from : Z) (notes : string) (base : option Z) (db : FareDb)
    : res card_refusal (Z * FareDb) :=
  if negb (bool_decide (is_Some (fd_zones db !! zone))) || negb (existsb (fun v => v.1 =? vt) (fd_vehicle_types db)) then Err TargetGone
  else
    let current := current_card zone vt (fd_rows db) in
    if negb (bool_decide (cr_id <$> current = base)) then Err CardChanged
    else
      let eff := takes_effect now from current in
      let id := fd_next db in
      let '(rows, version) := match current with
        | Some r => (new_version r id values eff (if truthy (Some notes) then notes else cr_notes r) (fd_rows db),
                     (if card_version (cr_card r) =? 0 then 1 else card_version (cr_card r)) + 1)
        | None => (fd_rows db ++ [{| cr_id := id; cr_card := card_of zone vt values eff 1; cr_notes := notes |}], 1)
        end in
      Ok (id, {| fd_rows := rows; fd_next := id + 1; fd_zones := fd_zones db; fd_vehicle_types := fd_vehicle_types db;
                 fd_audit := fd_audit db ++ [RateCardVersionCreated id version (cr_id <$> current)] |}).

Definition execute_retire (now card : Z) (db : FareDb) : res card_refusal (Z * FareDb) :=
  match List.find (fun r => cr_id r =? card) (fd_rows db) with
  | None => Err CardNotActive
  | Some r =>
    if negb (card_is_active (cr_card r)) then Err CardNotActive
    else
      let closed := match effective_to (cr_card r) with Some e => Z.min now e | None => now end in
      Ok (card, {| fd_rows := update_card card (retired (Some closed)) (fd_rows db); fd_next := fd_next db; fd_zones := fd_zones db;
                   fd_vehicle_types := fd_vehicle_types db; fd_audit := fd_audit db ++ [RateCardRetired card (card_version (cr_card r))] |})
  end.

(** [execute]: the registered executor of an approved request. *)
Definition execute (now : Z) (p : card_payload) (db : FareDb) : res card_refusal (Z * FareDb) :=
  match p with
  | CreateCard zone vt values from notes base => execute_create now zone vt values from notes base db
  | RetireCard card => execute_retire now card db
  end.

(** ** The rider-fare preview *)

Record PreviewQuote := {
  pv_total : dec; pv_currency : string; pv_night_applied : bool; pv_min_fare_applied : bool; pv_surge : dec
}.

(** The metered part of [quote_from_values]: subtotal, surge, and whether night and the minimum applied. *)
Definition metered_from_values (v : CardValues) (km minutes : dec) (night : bool) : res dec_error (dec * dec * bool * bool) :=
  let subtotal_of := (let* d := dmul (v_per_km_fare v) km in
                      let* x := dadd (v_base_fare v) d in
                      let* t := dmul (v_per_min_fare v) minutes in dadd x t) in
  let* pre := subtotal_of in
  let night_applied := night && dltb ONE (v_night_multiplier v) in
  let* (sub, surge) := if night_applied then let* s := dmul pre (v_night_multiplier v) in let* m := dmul ONE (v_night_multiplier v) in Ok (s, m)
                       else Ok (pre, ONE) in
  let* (sub, surge) := if dltb (v_surge_cap v) surge then let* again := subtotal_of in let* s := dmul again (v_surge_cap v) in Ok (s, v_surge_cap v)
                       else Ok (sub, surge) in
  let low := dltb sub (v_min_fare v) in
  Ok (if low then v_min_fare v else sub, surge, night_applied, low).

(** [quote_from_values]: a quote for these values, with no demand surge. *)
Definition quote_from_values (zone : Zone) (v : CardValues) (km minutes : dec) (night : bool) : res money_error PreviewQuote :=
  let* m := lift_dec (metered_from_values v km minutes night) in
  let '(sub, surge, night_applied, low) := m in
  let currency := zone_currency_of (Some zone) in
  let* total := round_fare_of sub currency in
  let* fee := quantize_dec (or_zero (zone_per_trip_fee zone)) (Some currency) in
  let* total :=
    if bool_decide (zone_tax_mode_of (Some zone) = "additive") then
      let* p := percent_of total (or_zero (v_gst_percent v)) HUNDRED in
      let* tax := quantize_dec p (Some currency) in
      let* x := lift_dec (dadd total tax) in lift_dec (dadd x fee)
    else Ok total in
  Ok {| pv_total := total; pv_currency := currency; pv_night_applied := night_applied; pv_min_fare_applied := low; pv_surge := surge |}.

Record PreviewRow := {
  pr_distance_km : Z; pr_minutes : Z; pr_period : string; old_minor : option Z; new_minor : Z; change_minor : option Z; pr_night : bool
}.

Definition SAMPLE_KM : list Z := [3; 8; 15].
Definition MINUTES_PER_KM : Z := 3.

Definition preview_row (zone : Zone) (old : option CardValues) (new : CardValues) (km : Z) (period : string) (night : bool)
    : res money_error (string * PreviewRow) :=
  let minutes := km * MINUTES_PER_KM in
  let* before := match old with
    | None => Ok None
    | Some v => let* q := quote_from_values zone v (of_Z km) (of_Z minutes) night in Ok (Some q)
    end in
  let* q := quote_from_values zone new (of_Z km) (of_Z minutes) night in
  let currency := pv_currency q in
  let* was := match before with
    | None => Ok None
    | Some b => let* m := to_minor_dec (pv_total b) (Some currency) in Ok (Some m)
    end in
  let* will := to_minor_dec (pv_total q) (Some currency) in
  Ok (currency, {| pr_distance_km := km; pr_minutes := minutes; pr_period := period; old_minor := was; new_minor := will;
                   change_minor := (fun m => will - m) <$> was; pr_night := pv_night_applied q |}).

(** [preview_fares]: every distance off-peak and at night, and the currency of the last. *)
Fixpoint preview_rows (zone : Zone) (old : option CardValues) (new : CardValues) (samples : list (Z * (string * bool)))
    : res money_error (option string * list PreviewRow) :=
  match samples with
  | [] => Ok (None, [])
  | (km, (period, night)) :: rest =>
    let* (currency, row) := preview_row zone old new km period night in
    let* (last, rows) := preview_rows zone old new rest in
    Ok (Some (default currency last), row :: rows)
  end.

Definition preview_fares (zone : Zone) (old : option CardValues) (new : CardValues) (distances : list Z)
    : res money_error (option string * list PreviewRow) :=
  preview_rows zone old new (d ← distances; (fun p => (d, p)) <$> [("off_peak", false); ("night", true)]).
