(* ===== verification/FareCardSafety.v ===== *)
(** * FareCardSafety: what a change of fare card does

    The preview is the quote; a class has one card at a time, and a new price begins at its date
    without moving an earlier one, as long as no scheduled card is retired. *)

From Stdlib Require Import QArith Lqa.
From S2P Require Import Prelude PyDecimal PyText Countries Models Money Commission Zones PromoTax Fares FarePromises QuotePromises FareCards.
#[local] Open Scope string_scope.
#[local] Open Scope list_scope.
#[local] Open Scope Z_scope.

(** ** Lemmas: the preview *)

(** The metered part of the two computations is the same. *)
Lemma preview_metering (c : RateCard) (n : bool) (dyn km minutes : dec) (m : Metering) :
  deqb dyn ONE = true ->
  metering (card_rates c) (dltb ONE (night_surge_multiplier c) && n) dyn km minutes = Ok m ->
  metered_from_values (card_values c) km minutes n
  = Ok (mg_subtotal m, mg_multiplier m, dltb ONE (night_surge_multiplier c) && n, mg_min_applied m).
Proof.
  intros Hd Hm. unfold metered_from_values. cbn [card_values v_per_km_fare v_base_fare v_per_min_fare v_min_fare v_night_multiplier v_surge_cap].
  unfold metering, metered_lines in Hm. cbn [card_rates rt_base rt_per_km rt_per_min rt_min_fare rt_night rt_cap] in Hm. rewrite Hd in Hm.
  destruct (dmul (per_km_fare c) km) as [d|]; [|done]. cbn [res_bind] in *. destruct (dmul (per_min_fare c) minutes) as [t|]; [|done].
  cbn [res_bind] in *. destruct (dadd (base_fare c) d) as [x|]; [|done]. cbn [res_bind] in *.
  destruct (dadd x t) as [pre|]; [|done]. cbn [res_bind] in *. rewrite (andb_comm n).
  set (night := dltb ONE (night_surge_multiplier c) && n) in *.
  assert (forall sub mult, (let* (sub, mult) := if dltb (surge_cap_multiplier c) mult then let* s := dmul pre (surge_cap_multiplier c) in Ok (s, surge_cap_multiplier c)
                            else Ok (sub, mult) in
           let low := dltb sub (min_fare c) in
           Ok {| mg_distance := d; mg_time := t; mg_pre_surge := pre; mg_subtotal := if low then min_fare c else sub; mg_multiplier := mult; mg_min_applied := low |}) = Ok m ->
         (let* (sub, surge) := if dltb (surge_cap_multiplier c) mult then let* s := dmul pre (surge_cap_multiplier c) in Ok (s, surge_cap_multiplier c)
                               else Ok (sub, mult) in
          let low := dltb sub (min_fare c) in Ok (if low then min_fare c else sub, surge, night, low))
         = Ok (mg_subtotal m, mg_multiplier m, night, mg_min_applied m)) as H.
  { intros sub mult. destruct (dltb _ mult); [destruct (dmul pre (surge_cap_multiplier c)) as [w|]; cbn [res_bind]; [|done]|cbn [res_bind]]; by intros [= <-]. }
  clearbody night. destruct night; [|by apply H].
  destruct (dmul pre (night_surge_multiplier c)) as [s|]; [|done]. cbn [res_bind] in *.
  destruct (dmul ONE (night_surge_multiplier c)) as [u|]; [|done]. by apply H.
Qed.

Lemma preview_of_build (z : Zone) (c : RateCard) (n : bool) (dyn km minutes : dec) (vehicle_type : string) (q : Quote) :
  deqb dyn ONE = true ->
  build_quote (Some z) (Some c) (card_rates c) (dltb ONE (night_surge_multiplier c) && n) dyn km minutes vehicle_type = Ok q ->
  exists p, quote_from_values z (card_values c) km minutes n = Ok p /\ pv_total p = total_fare q /\ pv_currency p = q_currency q /\
    pv_night_applied p = night_surge_applied q /\ pv_min_fare_applied p = min_fare_applied q.
Proof.
  intros Hd. unfold build_quote. destruct (metering _ _ _ _ _) as [m|] eqn:Em; [|done]. cbn [lift_dec map_err res_bind].
  unfold quote_from_values. rewrite (preview_metering c n dyn km minutes m Hd Em). cbn [lift_dec map_err res_bind].
  cbn [card_values v_gst_percent v_night_multiplier v_base_fare from_option] in *. destruct (round_fare_of _ _) as [total|]; [|done]. cbn [res_bind].
  do 3 (destruct (quantize_dec _ _); [|done]; cbn [res_bind]). destruct (uplifts _ _ _); [|done]. cbn [res_bind].
  destruct (rounding_line _ _ _ _ _); [|done]. cbn [lift_dec map_err res_bind].
  destruct (quantize_dec (or_zero (zone_per_trip_fee z)) _) as [fee|]; [|done]. cbn [res_bind]. unfold market.
  destruct (bool_decide _); cbn [res_bind].
  - destruct (percent_of _ _ _) as [p|]; [|done]. cbn [res_bind]. destruct (quantize_dec p _) as [tax|]; [|done]. cbn [res_bind].
    destruct (dadd total tax) as [x|]; [|done]. cbn [lift_dec map_err res_bind]. destruct (dadd x fee) as [all|]; [|done]. cbn [lift_dec map_err res_bind].
    do 2 (destruct (quantize_half_even _ _); [|done]; cbn [lift_dec map_err res_bind]). intros [= <-]. eexists. split; [done|].
    done.
  - set (inclusive := if coef _ =? 0 then _ else _). destruct inclusive as [[[total' tax] extra]|] eqn:Ei; [|done]. cbn [res_bind].
    assert (total' = total) as ->.
    { unfold inclusive in Ei. destruct (coef _ =? 0); [by injection Ei|]. destruct (dmul _ _); [|done]. cbn [lift_dec map_err res_bind] in Ei.
      destruct (dadd _ _); [|done]. cbn [lift_dec map_err res_bind] in Ei. destruct (ddiv _ _); [|done]. cbn [lift_dec map_err res_bind] in Ei.
      destruct (quantize_dec _ _); [|done]. by injection Ei. }
    do 2 (destruct (quantize_half_even _ _); [|done]; cbn [lift_dec map_err res_bind]). intros [= <-]. eexists. split; [done|].
    done.
Qed.

(** ** Lemmas: the rows *)

Definition row_applies (zone vt t : Z) (r : CardRow) : bool := card_applies zone vt t (cr_card r).

Definition row_open (zone vt : Z) (r : CardRow) : bool := open_card zone vt (cr_card r).

Lemma row_open_applies (zone vt t : Z) (r : CardRow) :
  row_open zone vt r = true -> effective_from (cr_card r) <= t -> row_applies zone vt t r = true.
Proof.
  unfold row_open, open_card, row_applies, card_applies. intros H L. rewrite !andb_true_iff, bool_decide_eq_true in H. destruct H as [[[-> ->] ->] ->].
  by rewrite (proj2 (Z.leb_le _ _) L).
Qed.

Lemma current_card_open (zone vt : Z) (rows : list CardRow) (r : CardRow) :
  current_card zone vt rows = Some r -> r ∈ rows /\ row_open zone vt r = true.
Proof. unfold current_card. intros H. by apply best_by_elem, elem_of_filter_b in H. Qed.

Lemma current_card_none (zone vt : Z) (rows : list CardRow) (r : CardRow) :
  current_card zone vt rows = None -> r ∈ rows -> row_open zone vt r = false.
Proof.
  unfold current_card. intros H%best_by_none Hr. apply not_true_iff_false. intros Ho.
  assert (r ∈ @nil CardRow) as Hn by (rewrite <- H; by apply elem_of_filter_b). by apply not_elem_of_nil in Hn.
Qed.

Lemma elem_of_update_card (id : Z) (f : RateCard -> RateCard) (l : list CardRow) (r : CardRow) :
  r ∈ update_card id f l ->
  (r ∈ l /\ cr_id r <> id) \/ exists r0, r0 ∈ l /\ cr_id r0 = id /\ r = {| cr_id := cr_id r0; cr_card := f (cr_card r0); cr_notes := cr_notes r0 |}.
Proof.
  unfold update_card. intros (r0 & -> & H)%list_elem_of_fmap. destruct (Z.eqb_spec (cr_id r0) id) as [E|E]; [right; by exists r0|by left].
Qed.

Lemma update_card_keeps (id : Z) (f : RateCard -> RateCard) (l : list CardRow) (r : CardRow) : r ∈ l -> cr_id r <> id -> r ∈ update_card id f l.
Proof. intros H N. apply list_elem_of_fmap. exists r. split; [by rewrite (proj2 (Z.eqb_neq _ _) N)|done]. Qed.

Lemma update_card_ids (id : Z) (f : RateCard -> RateCard) (l : list CardRow) : cr_id <$> update_card id f l = cr_id <$> l.
Proof. unfold update_card. rewrite <- list_fmap_compose. apply list_fmap_ext. intros _ r _. cbn. by destruct (cr_id r =? id). Qed.

(** ** The history of the cards *)

Definition card_state : Type := Z * FareDb.

(** Time passes, an approved request is executed.  A retired card is one that has started. *)
Inductive card_step : card_state -> card_state -> Prop :=
| step_time (now later : Z) (db : FareDb) : now <= later -> card_step (now, db) (later, db)
| step_create (now zone vt : Z) (values : CardValues) (from : Z) (notes : string) (base : option Z) (id : Z) (db db' : FareDb) :
    execute now (CreateCard zone vt values from notes base) db = Ok (id, db') -> card_step (now, db) (now, db')
| step_retire (now card : Z) (r : CardRow) (db db' : FareDb) :
    r ∈ fd_rows db -> cr_id r = card -> effective_from (cr_card r) <= now ->
    execute now (RetireCard card) db = Ok (card, db') -> card_step (now, db) (now, db').

Definition one_at_a_time (rows : list CardRow) : Prop := forall zone vt t r r',
  r ∈ rows -> r' ∈ rows -> row_applies zone vt t r = true -> row_applies zone vt t r' = true -> r = r'.

Record cards_inv (s : card_state) : Prop := {
  ci_ids : base.NoDup (cr_id <$> fd_rows s.2);
  ci_next : forall r, r ∈ fd_rows s.2 -> cr_id r < fd_next s.2;
  ci_one : one_at_a_time (fd_rows s.2);
  ci_over : forall zone vt, (forall r, r ∈ fd_rows s.2 -> row_open zone vt r = false) ->
    forall t r, r ∈ fd_rows s.2 -> s.1 <= t -> row_applies zone vt t r = false
}.

(** The successor takes the class over: nothing else applies from its date on. *)
Definition successor (zone vt id eff version : Z) (values : CardValues) (notes : string) : CardRow :=
  {| cr_id := id; cr_card := card_of zone vt values eff version; cr_notes := notes |}.

Lemma successor_applies (zone vt id eff version z v t : Z) (values : CardValues) (notes : string) :
  row_applies z v t (successor zone vt id eff version values notes) = true <-> z = zone /\ v = vt /\ eff <= t.
Proof. unfold row_applies, card_applies. cbn. rewrite !andb_true_iff, !Z.eqb_eq, Z.leb_le. naive_solver. Qed.

Lemma row_applies_true (zone vt t : Z) (r : CardRow) :
  row_applies zone vt t r = true <->
  card_zone (cr_card r) = zone /\ card_vehicle_type (cr_card r) = vt /\ card_is_active (cr_card r) = true /\ effective_from (cr_card r) <= t /\
  match effective_to (cr_card r) with None => True | Some e => t < e end.
Proof.
  unfold row_applies, card_applies. rewrite !andb_true_iff, !Z.eqb_eq, Z.leb_le. destruct (effective_to _) as [e|]; [rewrite Z.ltb_lt|]; naive_solver.
Qed.

Lemma row_open_true (zone vt : Z) (r : CardRow) :
  row_open zone vt r = true <->
  card_zone (cr_card r) = zone /\ card_vehicle_type (cr_card r) = vt /\ card_is_active (cr_card r) = true /\ effective_to (cr_card r) = None.
Proof. unfold row_open, open_card. rewrite !andb_true_iff, !Z.eqb_eq, bool_decide_eq_true. naive_solver. Qed.

Definition closed_at (eff : Z) (r : CardRow) : CardRow :=
  {| cr_id := cr_id r; cr_card := with_effective_to (Some eff) (cr_card r); cr_notes := cr_notes r |}.

Lemma takes_effect_spec (now from : Z) (current : option CardRow) :
  now <= takes_effect now from current /\ forall r, current = Some r -> effective_from (cr_card r) < takes_effect now from current.
Proof.
  unfold takes_effect, ONE_SECOND. destruct current as [r|]; [|split; [lia|done]].
  destruct (Z.leb_spec (Z.max from now) (effective_from (cr_card r))); (split; [lia|intros ? [= <-]; lia]).
Qed.

Lemma closed_applies (eff zone vt t : Z) (r : CardRow) :
  effective_to (cr_card r) = None -> row_applies zone vt t (closed_at eff r) = true <-> row_applies zone vt t r = true /\ t < eff.
Proof. intros H. rewrite !row_applies_true. cbn. rewrite H. naive_solver. Qed.

(** What the executor of a new card leaves. *)
Section Created.
Context (now zone vt : Z) (values : CardValues) (from : Z) (notes : string) (base : option Z) (id : Z) (db db' : FareDb).
Context (H : execute_create now zone vt values from notes base db = Ok (id, db')).

Let current := current_card zone vt (fd_rows db).
Let eff := takes_effect now from current.

Lemma created_shape : exists version notes',
  id = fd_next db /\ cr_id <$> current = base /\ fd_next db' = id + 1 /\ fd_zones db' = fd_zones db /\
  fd_rows db' = match current with
    | Some r => update_card (cr_id r) (with_effective_to (Some eff)) (fd_rows db ++ [successor zone vt id eff version values notes'])
    | None => fd_rows db ++ [successor zone vt id eff version values notes']
    end.
Proof.
  unfold execute_create in H. destruct (negb _ || negb _); [done|]. fold current in H. destruct (bool_decide _) eqn:E; [|done].
  apply bool_decide_eq_true in E. cbn [negb] in H. fold eff in H. destruct current as [r|] eqn:C; injection H as <- <-; eexists _, _.
  - split_and!; [done..|]. unfold new_version, successor. cbn [fd_rows].
    apply current_card_open in C as [_ (-> & -> & _)%row_open_true]. reflexivity.
  - by split_and!.
Qed.

Context (Hids : base.NoDup (cr_id <$> fd_rows db)) (Hnext : forall r, r ∈ fd_rows db -> cr_id r < fd_next db).

Lemma created_rows : exists version notes', forall r, r ∈ fd_rows db' <->
  r = successor zone vt id eff version values notes' \/
  (r ∈ fd_rows db /\ current <> Some r) \/ exists c, current = Some c /\ r = closed_at eff c.
Proof.
  destruct created_shape as (version & notes' & -> & _ & _ & _ & ->). exists version, notes'. intros r. destruct current as [c|] eqn:C.
  - pose proof (current_card_open _ _ _ _ C) as [Hc _]. pose proof (Hnext c Hc) as Nc. split.
    + intros [[Hr N]|(r0 & Hr & E & ->)]%elem_of_update_card.
      * apply elem_of_app in Hr as [Hr|Hr%list_elem_of_singleton]; [|by left]. right; left. split; [done|]. intros [= ->]. done.
      * right; right. exists c. split; [done|]. apply elem_of_app in Hr as [Hr|Hr%list_elem_of_singleton].
        -- assert (r0 = c) as -> by (by apply (unique_rows cr_id (fd_rows db))). done.
        -- subst r0. cbn in E. lia.
    + intros [->|[[Hr N]|(c' & [= <-] & ->)]].
      * apply update_card_keeps; [apply elem_of_app; right; by apply list_elem_of_singleton|cbn; lia].
      * apply update_card_keeps; [apply elem_of_app; by left|]. intros E. apply N. f_equal. by apply (unique_rows cr_id (fd_rows db)).
      * apply list_elem_of_fmap. exists c. split; [by rewrite Z.eqb_refl|]. apply elem_of_app. by left.
  - rewrite elem_of_app, list_elem_of_singleton. naive_solver.
Qed.
End Created.

(** ** Lemmas: the invariant *)

Lemma create_inv (now zone vt : Z) (values : CardValues) (from : Z) (notes : string) (base : option Z) (id : Z) (db db' : FareDb) :
  cards_inv (now, db) -> execute_create now zone vt values from notes base db = Ok (id, db') -> cards_inv (now, db').
Proof.
  intros [Hids Hnext Hone Hover] E. cbn [fst snd] in *.
  destruct (created_rows _ _ _ _ _ _ _ _ _ _ E Hids Hnext) as (version & notes' & Hrows).
  destruct (created_shape _ _ _ _ _ _ _ _ _ _ E) as (v0 & n0 & -> & _ & En & _ & Es).
  set (cur := current_card zone vt (fd_rows db)) in *. set (eff := takes_effect now from cur) in *.
  destruct (takes_effect_spec now from cur) as [Heff Hlt]. fold eff in Heff, Hlt.
  assert (forall r z v t, r ∈ fd_rows db -> cur <> Some r -> row_applies z v t r = true -> z = zone -> v = vt -> eff <= t -> False) as Hfree.
  { intros r z v t Hr Nr Ha -> -> Ht. destruct cur as [c|] eqn:C.
    - pose proof (current_card_open _ _ _ _ C) as [Hc Ho]. pose proof (Hlt c eq_refl). apply Nr. f_equal.
      apply (Hone zone vt t c r Hc Hr); [by apply row_open_applies; [|lia]|done].
    - rewrite (Hover zone vt (fun r' => current_card_none _ _ _ r' C) t r Hr ltac:(lia)) in Ha. done. }
  split; cbn [fst snd].
  - rewrite Es. assert (base.NoDup (cr_id <$> fd_rows db ++ [successor zone vt (fd_next db) eff v0 values n0])) as HN.
    { rewrite fmap_app. apply NoDup_app. split; [done|]. split; [|apply NoDup_singleton].
      intros x (r & -> & Hr)%list_elem_of_fmap Hx%list_elem_of_singleton. pose proof (Hnext r Hr). cbn in Hx. lia. }
    destruct cur; [by rewrite update_card_ids|exact HN].
  - rewrite En. intros r [->|[[Hr _]|(c & C & ->)]]%Hrows; [cbn; lia|pose proof (Hnext r Hr); lia|].
    pose proof (Hnext c (proj1 (current_card_open _ _ _ _ C))). cbn. lia.
  - intros z v t r r' Hr Hr' Ha Ha'. apply Hrows in Hr. apply Hrows in Hr'.
    destruct Hr as [->|[[Hr Nr]|(c & C & ->)]], Hr' as [->|[[Hr' Nr']|(c' & C' & ->)]]; rewrite ?successor_applies in *.
    + done.
    + destruct Ha as (-> & -> & Ht). destruct (Hfree r' zone vt t); done.
    + pose proof (current_card_open _ _ _ _ C') as [_ (_ & _ & _ & O)%row_open_true]. apply closed_applies in Ha' as [_ L]; [|done]. lia.
    + destruct Ha' as (-> & -> & Ht). destruct (Hfree r zone vt t); done.
    + by apply (Hone z v t).
    + pose proof (current_card_open _ _ _ _ C') as [Hc (_ & _ & _ & O)%row_open_true]. apply closed_applies in Ha' as [Ha' _]; [|done].
      destruct Nr. rewrite C'. f_equal. symmetry. by apply (Hone z v t).
    + pose proof (current_card_open _ _ _ _ C) as [_ (_ & _ & _ & O)%row_open_true]. apply closed_applies in Ha as [_ L]; [|done]. lia.
    + pose proof (current_card_open _ _ _ _ C) as [Hc (_ & _ & _ & O)%row_open_true]. apply closed_applies in Ha as [Ha _]; [|done].
      destruct Nr'. rewrite C. f_equal. by apply (Hone z v t).
    + rewrite C in C'. by injection C' as ->.
  - intros z v Hno t r Hr Ht.
    assert (z = zone -> v = vt -> False) as Hz.
    { intros -> ->. pose proof (Hno _ (proj2 (Hrows _) (or_introl eq_refl))) as F. unfold row_open, open_card in F. cbn in F.
      by rewrite !Z.eqb_refl in F. }
    apply Hrows in Hr as [->|[[Hr Nr]|(c & C & ->)]].
    + apply not_true_iff_false. intros (? & ? & _)%successor_applies. auto.
    + apply Hover; [|done|done]. intros r' Hr'. destruct (row_open z v r') eqn:O; [|done]. rewrite <- O. apply Hno, Hrows. right; left. split; [done|].
      intros C. apply row_open_true in O as (<- & <- & _). apply current_card_open in C as [_ (E1 & E2 & _)%row_open_true]. auto.
    + apply not_true_iff_false. intros (<- & <- & _)%row_applies_true. apply current_card_open in C as [_ (E1 & E2 & _)%row_open_true]. auto.
Qed.

(** A retired card applies to nothing, and is no open card. *)
Lemma retired_shape (now card id : Z) (db db' : FareDb) :
  execute_retire now card db = Ok (id, db') ->
  exists r e, r ∈ fd_rows db /\ cr_id r = card /\ id = card /\ card_is_active (cr_card r) = true /\
    fd_next db' = fd_next db /\ fd_zones db' = fd_zones db /\ fd_rows db' = update_card card (retired e) (fd_rows db).
Proof.
  unfold execute_retire. destruct (List.find _ _) as [r|] eqn:F; [|done]. apply find_some in F as [Hr%list_elem_of_In Er%Z.eqb_eq].
  destruct (card_is_active (cr_card r)) eqn:A; [|done]. cbn [negb]. intros [= <- <-]. by eexists r, _.
Qed.

Lemma retired_rows (card : Z) (e : option Z) (l : list CardRow) (r : CardRow) :
  r ∈ update_card card (retired e) l ->
  (r ∈ l /\ cr_id r <> card) \/ (cr_id r = card /\ forall zone vt t, row_applies zone vt t r = false /\ row_open zone vt r = false).
Proof.
  intros [H|(r0 & _ & <- & ->)]%elem_of_update_card; [by left|right]. split; [done|]. intros zone vt t.
  unfold row_applies, card_applies, row_open, open_card. cbn. by rewrite !andb_false_r.
Qed.

Lemma retire_inv (now card id : Z) (r : CardRow) (db db' : FareDb) :
  cards_inv (now, db) -> r ∈ fd_rows db -> cr_id r = card -> effective_from (cr_card r) <= now ->
  execute_retire now card db = Ok (id, db') -> cards_inv (now, db').
Proof.
  intros [Hids Hnext Hone Hover] Hr Er Hf E. cbn [fst snd] in *. destruct (retired_shape _ _ _ _ _ E) as (_ & e & _ & _ & _ & _ & En & _ & Es).
  split; cbn [fst snd]; rewrite Es.
  - by rewrite update_card_ids.
  - rewrite En. intros x Hx%elem_of_update_card. destruct Hx as [[Hx _]|(x0 & Hx & _ & ->)]; [by apply Hnext|exact (Hnext x0 Hx)].
  - intros z v t x y Hx Hy Ha Hb. apply retired_rows in Hx as [[Hx _]|[_ Hx]]; [|by rewrite (proj1 (Hx z v t)) in Ha].
    apply retired_rows in Hy as [[Hy _]|[_ Hy]]; [|by rewrite (proj1 (Hy z v t)) in Hb]. by apply (Hone z v t).
  - intros z v Hno t x Hx Ht. apply retired_rows in Hx as [[Hx Nx]|[_ Hx]]; [|by apply Hx]. apply not_true_iff_false. intros Ha.
    destruct (row_open z v r) eqn:O.
    + apply Nx. rewrite <- Er. f_equal. apply (Hone z v t x r Hx Hr Ha). apply row_open_applies; [done|lia].
    + rewrite Hover in Ha; [done| |done|done]. intros y Hy. destruct (Z.eq_dec (cr_id y) card) as [Ey|Ny].
      * assert (y = r) as -> by (apply (unique_rows cr_id (fd_rows db)); congruence). exact O.
      * apply Hno. by apply update_card_keeps.
Qed.

Definition no_cards (db : FareDb) : Prop := fd_rows db = [].

Lemma cards_inv_run (s s' : card_state) : no_cards s.2 -> rtc card_step s s' -> cards_inv s'.
Proof.
  intros H0 Hr. assert (cards_inv s) as Hs.
  { unfold no_cards in H0. split; rewrite H0; [constructor|intros r Hr'|intros z v t r r' Hr'|intros z v _ t r Hr']; by apply not_elem_of_nil in Hr'. }
  clear H0. induction Hr as [|x y z Hxy _ IH]; [done|]. apply IH. destruct Hxy as [now later db L|now zone vt values from notes base id db db' E|now card r db db' Hr Er Hf E].
  - destruct Hs as [H1 H2 H3 H4]. split; [done..|]. intros zone vt Hno t r Hr' Ht. cbn [fst snd] in *. apply H4; [done|done|lia].
  - by eapply create_inv.
  - by eapply retire_inv.
Qed.

(** ** Lemmas: prices before and after a change *)

(** Cards that price alike and rank alike. *)
Definition same_price (a b : RateCard) : Prop :=
  card_values a = card_values b /\ effective_from a = effective_from b /\ card_version a = card_version b.

(** The prices of the card found, if any. *)
Definition priced_by (c : option RateCard) : option CardValues := option_map card_values c.

#[global] Instance same_price_refl : Reflexive same_price.
Proof. by intros a. Qed.

Lemma best_same_price (l k : list RateCard) : Forall2 same_price l k -> option_Forall2 same_price (best_by card_better l) (best_by card_better k).
Proof.
  induction 1 as [|a b l k H _ IH]; cbn [best_by]; [constructor|].
  destruct IH as [x y Hxy|]; [|by constructor]. destruct H as (V & F & W), Hxy as (V' & F' & W').
  unfold card_better. rewrite F, F', W, W'. destruct (_ || _); by constructor.
Qed.

(** What is open keeps pricing until the instant it is closed at. *)
Lemma closed_prices (zone vt t eff cid : Z) (l : list CardRow) :
  t < eff -> (forall r, r ∈ l -> cr_id r = cid -> effective_to (cr_card r) = None) ->
  Forall2 same_price (List.filter (card_applies zone vt t) (cr_card <$> l))
    (List.filter (card_applies zone vt t) (cr_card <$> update_card cid (with_effective_to (Some eff)) l)).
Proof.
  intros Ht. induction l as [|r l IH]; intros Ho; [constructor|]. assert (Forall2 same_price _ _) as IH' by (apply IH; set_solver). clear IH.
  unfold update_card in *. rewrite !fmap_cons. cbn [List.filter]. destruct (Z.eqb_spec (cr_id r) cid) as [E|E].
  - assert (card_applies zone vt t (with_effective_to (Some eff) (cr_card r)) = card_applies zone vt t (cr_card r)) as Ea.
    { apply eq_true_iff_eq. pose proof (closed_applies eff zone vt t r (Ho r ltac:(set_solver) E)) as H.
      unfold row_applies, closed_at in H. cbn [cr_card] in H. rewrite H. naive_solver. }
    cbn [cr_card]. rewrite Ea. destruct (card_applies zone vt t (cr_card r)); [by constructor|done].
  - destruct (card_applies zone vt t (cr_card r)); [by constructor|done].
Qed.

Lemma not_yet (zone vt t : Z) (l : list CardRow) (r : CardRow) :
  t < effective_from (cr_card r) -> List.filter (card_applies zone vt t) (cr_card <$> l ++ [r]) = List.filter (card_applies zone vt t) (cr_card <$> l).
Proof.
  intros H. rewrite fmap_app, List.filter_app. cbn [fmap list_fmap List.filter].
  assert (card_applies zone vt t (cr_card r) = false) as ->; [|by rewrite app_nil_r].
  apply not_true_iff_false. intros (_ & _ & _ & L & _)%row_applies_true. lia.
Qed.

Lemma walk_values (zones : gmap Z Zone) (cards cards' : list RateCard) (vt t : Z) :
  (forall z, priced_by (card_at cards z vt t) = priced_by (card_at cards' z vt t)) ->
  forall f seen cursor, option_map priced_by (card_walk zones cards f vt t seen cursor) = option_map priced_by (card_walk zones cards' f vt t seen cursor).
Proof.
  intros H f. induction f as [|f IH]; intros seen cursor; [done|]. cbn [card_walk]. destruct cursor as [z|]; [|done].
  destruct (decide _); [done|]. specialize (H (zone_id z)).
  destruct (card_at cards (zone_id z) vt t) as [c|], (card_at cards' (zone_id z) vt t) as [c'|]; cbn in H |- *; [by rewrite H|discriminate H|discriminate H|apply IH].
Qed.

Lemma active_values (zones : gmap Z Zone) (cards cards' : list RateCard) (z : Zone) (vt t : Z) :
  (forall z, priced_by (card_at cards z vt t) = priced_by (card_at cards' z vt t)) ->
  priced_by (get_active_rate_card zones cards z vt t) = priced_by (get_active_rate_card zones cards' z vt t).
Proof.
  intros H. unfold get_active_rate_card. pose proof (walk_values zones cards cards' vt t H (card_fuel zones) ∅ (Some z)) as W.
  destruct (card_walk zones cards _ _ _ _ _) as [c|], (card_walk zones cards' _ _ _ _ _) as [c'|]; try done. cbn in W |- *. by injection W.
Qed.

Lemma card_at_values (zone vt t : Z) (cards cards' : list RateCard) :
  Forall2 same_price (List.filter (card_applies zone vt t) cards) (List.filter (card_applies zone vt t) cards') ->
  priced_by (card_at cards zone vt t) = priced_by (card_at cards' zone vt t).
Proof. intros H%best_same_price. unfold card_at. destruct H as [x y (V & _)|]; [|done]. cbn. by rewrite V. Qed.

(** The card in force is the one row that applies. *)
Lemma card_at_only (rows : list CardRow) (r : CardRow) (zone vt t : Z) :
  one_at_a_time rows -> r ∈ rows -> row_applies zone vt t r = true -> card_at (cr_card <$> rows) zone vt t = Some (cr_card r).
Proof.
  intros Hone Hr Ha. unfold card_at. destruct (best_by _ _) as [c|] eqn:E.
  - apply best_by_elem, elem_of_filter_b in E as [(r' & -> & Hr')%list_elem_of_fmap Hc]. by rewrite (Hone zone vt t r r').
  - exfalso. apply best_by_none in E. assert (cr_card r ∈ @nil RateCard) as Hn; [|by apply not_elem_of_nil in Hn].
    rewrite <- E. apply elem_of_filter_b. split; [by apply list_elem_of_fmap_2|done].
Qed.

Lemma card_at_none (rows : list CardRow) (zone vt t : Z) :
  (forall r, r ∈ rows -> row_applies zone vt t r = false) -> card_at (cr_card <$> rows) zone vt t = None.
Proof.
  intros H. unfold card_at. destruct (best_by _ _) as [c|] eqn:E; [|done]. exfalso.
  apply best_by_elem, elem_of_filter_b in E as [(r & -> & Hr)%list_elem_of_fmap Hc]. specialize (H r Hr). unfold row_applies in H. congruence.
Qed.

Lemma created_prices (now zone vt : Z) (values : CardValues) (from : Z) (notes : string) (base : option Z) (id : Z) (db db' : FareDb) (z v t : Z) :
  cards_inv (now, db) -> execute_create now zone vt values from notes base db = Ok (id, db') ->
  t < takes_effect now from (current_card zone vt (fd_rows db)) ->
  priced_by (card_at (cr_card <$> fd_rows db') z v t) = priced_by (card_at (cr_card <$> fd_rows db) z v t).
Proof.
  intros [Hids Hnext _ _] E Ht. cbn [fst snd] in *. destruct (created_shape _ _ _ _ _ _ _ _ _ _ E) as (version & notes' & -> & _ & _ & _ & Es).
  set (cur := current_card zone vt (fd_rows db)) in *. set (eff := takes_effect now from cur) in *. rewrite Es. symmetry. apply card_at_values.
  destruct cur as [c|] eqn:C.
  - pose proof (current_card_open _ _ _ _ C) as [Hc (_ & _ & _ & O)%row_open_true]. pose proof (Hnext c Hc) as Nc.
    assert (update_card (cr_id c) (with_effective_to (Some eff)) (fd_rows db ++ [successor zone vt (fd_next db) eff version values notes'])
            = update_card (cr_id c) (with_effective_to (Some eff)) (fd_rows db) ++ [successor zone vt (fd_next db) eff version values notes']) as ->.
    { unfold update_card. rewrite fmap_app. f_equal. cbn. destruct (Z.eqb_spec (fd_next db) (cr_id c)); [lia|done]. }
    rewrite not_yet by exact Ht. apply closed_prices; [done|]. intros r Hr Er. by assert (r = c) as -> by (by apply (unique_rows cr_id (fd_rows db))).
  - rewrite not_yet by exact Ht. reflexivity.
Qed.

(** ** Properties *)

(** C30. The preview is the quote.  When no demand surge applies, previewing the fare of the card
    that prices a pickup, for the same measures and the hour it is there, gives the total,
    currency and flags of the quote a rider would be shown. *)
Theorem preview_is_the_quote (env : PricingEnv) (distance_km duration_min : pynum) (vehicle_type : string) (pickup : option (Q * Q))
    (z : Zone) (c : RateCard) (q : Quote) :
  quote_zone env pickup = Some z -> quote_card env vehicle_type pickup = Some c -> deqb (quote_surge env (Some c) pickup) ONE = true ->
  quote_fare env distance_km duration_min vehicle_type pickup = Ok q ->
  let '(km, minutes) := trip_measures distance_km duration_min in
  exists p, quote_from_values z (card_values c) km minutes (is_night_now c (pr_hour_of env (card_zone c))) = Ok p /\
    pv_total p = total_fare q /\ pv_currency p = q_currency q /\
    pv_night_applied p = night_surge_applied q /\ pv_min_fare_applied p = min_fare_applied q.
Proof.
  intros Hz Hc Hd H. apply (quote_fare_built env distance_km duration_min vehicle_type pickup z c) in H; [|done|done].
  destruct (trip_measures _ _) as [km minutes]. exact (preview_of_build z c _ _ km minutes vehicle_type q Hd H).
Qed.

(** C31. One card at a time.  Starting without cards, however requests to create and to retire are
    executed one after the other as time goes by, as long as no card is retired before it has
    started, at every moment at most one active card of a zone and vehicle class is in force.
    (A new card locks the card it replaces; the first card of a zone and class finds none to
    lock, and no constraint backs it, so two of those executed at once are not covered.) *)
Theorem one_card_at_a_time (s s' : card_state) (zone vt t : Z) (r r' : CardRow) :
  no_cards s.2 -> rtc card_step s s' -> r ∈ fd_rows s'.2 -> r' ∈ fd_rows s'.2 ->
  row_applies zone vt t r = true -> row_applies zone vt t r' = true -> r = r'.
Proof. intros H0 Hr. exact (ci_one _ (cards_inv_run _ _ H0 Hr) zone vt t r r'). Qed.

(** A new price starts at its date.  The card an approved request creates takes effect no
    earlier than the approval; at every moment before it, in every zone and class, the card the
    resolver finds has the prices it had; and from then on it is the card of its class. *)
Theorem new_price_from_its_date (s : card_state) (now zone vt : Z) (values : CardValues) (from : Z) (notes : string) (base : option Z)
    (id : Z) (db db' : FareDb) :
  no_cards s.2 -> rtc card_step s (now, db) -> execute now (CreateCard zone vt values from notes base) db = Ok (id, db') ->
  let eff := takes_effect now from (current_card zone vt (fd_rows db)) in
  now <= eff /\
  (forall z v t, t < eff -> priced_by (get_active_rate_card (fd_zones db') (cr_card <$> fd_rows db') z v t)
                          = priced_by (get_active_rate_card (fd_zones db) (cr_card <$> fd_rows db) z v t)) /\
  (forall t, eff <= t -> priced_by (card_at (cr_card <$> fd_rows db') zone vt t) = Some values).
Proof.
  intros H0 Hr E eff. pose proof (cards_inv_run _ _ H0 Hr) as Hi. pose proof (create_inv _ _ _ _ _ _ _ _ _ _ Hi E) as Hi'.
  destruct (takes_effect_spec now from (current_card zone vt (fd_rows db))) as [Heff _]. split; [exact Heff|]. split.
  - intros z v t Ht. destruct (created_shape _ _ _ _ _ _ _ _ _ _ E) as (_ & _ & _ & _ & _ & -> & _). apply active_values. intros z'.
    by apply (created_prices _ _ _ _ _ _ _ _ _ _ _ _ _ Hi E).
  - intros t Ht. destruct (created_rows _ _ _ _ _ _ _ _ _ _ E (ci_ids _ Hi) (ci_next _ Hi)) as (version & notes' & Hrows).
    rewrite (card_at_only (fd_rows db') _ zone vt t (ci_one _ Hi') (proj2 (Hrows _) (or_introl eq_refl))); [by destruct values|].
    by apply successor_applies.
Qed.

(** A retired card is forgotten for the past too.  Executing a retirement takes the card out
    of force at every moment, those it priced rides at included: at any moment at which it was
    the card of its zone and class, that zone has no card of the class afterwards. *)
Theorem retired_card_loses_its_rides (s : card_state) (now card : Z) (r : CardRow) (db db' : FareDb) (zone vt t : Z) :
  no_cards s.2 -> rtc card_step s (now, db) -> r ∈ fd_rows db -> cr_id r = card ->
  execute now (RetireCard card) db = Ok (card, db') -> row_applies zone vt t r = true ->
  card_at (cr_card <$> fd_rows db) zone vt t = Some (cr_card r) /\ card_at (cr_card <$> fd_rows db') zone vt t = None.
Proof.
  intros H0 Hrun Hr Er E Ha. pose proof (cards_inv_run _ _ H0 Hrun) as [_ _ Hone _]. cbn [fst snd] in *. split; [by apply card_at_only|].
  destruct (retired_shape _ _ _ _ _ E) as (_ & e & _ & _ & _ & _ & _ & _ & ->). apply card_at_none. intros x Hx.
  apply retired_rows in Hx as [[Hx Nx]|[_ Hx]]; [|apply Hx]. apply not_true_iff_false. intros Hb. apply Nx. rewrite <- Er. f_equal. by apply (Hone zone vt t).
Qed.

(** ** A demonstration *)

Definition demo_values : CardValues := card_values demo_hyderabad_card.

Definition dearer : CardValues := {|
  v_base_fare := Dec 3500 (-2); v_per_km_fare := Dec 1400 (-2); v_per_min_fare := Dec 200 (-2); v_min_fare := Dec 6000 (-2);
  v_night_multiplier := Dec 125 (-2); v_night_start := 23; v_night_end := 5; v_surge_cap := Dec 150 (-2); v_gst_percent := Dec 5000 (-3) |}.

Definition demo_cards : FareDb := {|
  fd_rows := []; fd_next := 1; fd_zones := {[1 := demo_hyderabad]}; fd_vehicle_types := [(7, "Auto")]; fd_audit := [] |}.

Definition run_card (now : Z) (p : card_payload) (db : FareDb) : FareDb := match execute now p db with Ok (_, db') => db' | Err _ => db end.

Definition first_card : card_payload := CreateCard 1 7 demo_values 0 "launch" None.
Definition dearer_card (from : Z) (base : option Z) : card_payload := CreateCard 1 7 dearer from EmptyString base.

(** A card of the first day, and a dearer one scheduled for the hundredth. *)
Definition demo_first : FareDb := run_card 1 first_card demo_cards.
Definition demo_scheduled : FareDb := run_card 10 (dearer_card 100 (Some 1)) demo_first.

Lemma demo_first_run : rtc card_step (1, demo_cards) (10, demo_first).
Proof.
  eapply rtc_l; [exact (step_create 1 1 7 demo_values 0 "launch" None 1 demo_cards demo_first eq_refl)|].
  eapply rtc_l; [exact (step_time 1 10 demo_first ltac:(lia))|]. apply rtc_refl.
Qed.

Lemma demo_scheduled_run : rtc card_step (1, demo_cards) (20, demo_scheduled).
Proof.
  transitivity (10, demo_first); [exact demo_first_run|].
  eapply rtc_l; [exact (step_create 10 1 7 dearer 100 EmptyString (Some 1) 2 demo_first demo_scheduled eq_refl)|].
  eapply rtc_l; [exact (step_time 10 20 demo_scheduled ltac:(lia))|]. apply rtc_refl.
Qed.

(** Retiring a scheduled card.  The card it was to supersede is not opened again: from the
    scheduled date on the class has no card, and because no card is open the next request
    creates one beside it, so that two active cards of the class are in force at once, both
    of version 1. *)
Theorem scheduled_retire_leaves_two_cards : exists retired again r r',
  execute 20 (RetireCard 2) demo_scheduled = Ok (2, retired) /\
  card_at (cr_card <$> fd_rows retired) 1 7 150 = None /\
  execute 30 (dearer_card 30 None) retired = Ok (3, again) /\
  r ∈ fd_rows again /\ r' ∈ fd_rows again /\ cr_id r <> cr_id r' /\ row_applies 1 7 50 r = true /\ row_applies 1 7 50 r' = true /\
  card_version (cr_card r) = 1 /\ card_version (cr_card r') = 1.
Proof.
  eexists _, _, _, _. split; [vm_compute; reflexivity|]. split; [vm_compute; reflexivity|]. split; [vm_compute; reflexivity|].
  split; [apply list_elem_of_here|]. split; [do 2 apply list_elem_of_further; apply list_elem_of_here|]. by vm_compute.
Qed.

Lemma one_card_at_a_time_witness : exists r, r ∈ fd_rows demo_scheduled /\ row_applies 1 7 50 r = true /\
  forall r', r' ∈ fd_rows demo_scheduled -> row_applies 1 7 50 r' = true -> r = r'.
Proof.
  eexists. split; [apply list_elem_of_here|]. split; [vm_compute; reflexivity|]. intros r' Hr' Ha.
  apply (one_card_at_a_time (1, demo_cards) (20, demo_scheduled) 1 7 50); [reflexivity|exact demo_scheduled_run|apply list_elem_of_here|exact Hr'|vm_compute; reflexivity|exact Ha].
Defined.

Lemma new_price_from_its_date_witness :
  let eff := takes_effect 10 100 (current_card 1 7 (fd_rows demo_first)) in
  eff = 100 /\ 10 <= eff /\
  (forall z v t, t < eff -> priced_by (get_active_rate_card (fd_zones demo_scheduled) (cr_card <$> fd_rows demo_scheduled) z v t)
                          = priced_by (get_active_rate_card (fd_zones demo_first) (cr_card <$> fd_rows demo_first) z v t)) /\
  (forall t, eff <= t -> priced_by (card_at (cr_card <$> fd_rows demo_scheduled) 1 7 t) = Some dearer).
Proof.
  split; [reflexivity|]. apply (new_price_from_its_date (1, demo_cards) 10 1 7 dearer 100 EmptyString (Some 1) 2 demo_first demo_scheduled);
    [reflexivity|exact demo_first_run|reflexivity].
Defined.

Lemma retired_card_loses_its_rides_witness : exists r db', r ∈ fd_rows demo_first /\ execute 10 (RetireCard 1) demo_first = Ok (1, db') /\
  card_at (cr_card <$> fd_rows demo_first) 1 7 5 = Some (cr_card r) /\ card_at (cr_card <$> fd_rows db') 1 7 5 = None.
Proof.
  eexists _, (run_card 10 (RetireCard 1) demo_first). split; [apply list_elem_of_here|]. split; [reflexivity|].
  apply (retired_card_loses_its_rides (1, demo_cards) 10 1 _ demo_first (run_card 10 (RetireCard 1) demo_first) 1 7 5);
    [reflexivity|exact demo_first_run|apply list_elem_of_here|reflexivity|reflexivity|reflexivity].
Defined.

(** A quiet night in Hyderabad: no demand, and the hour is inside the window. *)
Definition quiet_pricing : PricingEnv := {|
  pr_zones := pr_zones demo_pricing; pr_cards := pr_cards demo_pricing; pr_lookup := pr_lookup demo_pricing;
  pr_vehicle_types := pr_vehicle_types demo_pricing; pr_allow_default := false; pr_hour_of := fun _ => 2; pr_counts := Some (4, 4); pr_now := 10 |}.

Lemma preview_is_the_quote_witness : exists q, quote_fare quiet_pricing (PyInt 8) (PyInt 24) "auto" in_hyderabad = Ok q /\
  total_fare q = Dec 21500 (-2) /\
  exists p, quote_from_values demo_hyderabad demo_values (of_Z 8) (of_Z 24) true = Ok p /\
    pv_total p = total_fare q /\ pv_currency p = q_currency q /\ pv_night_applied p = night_surge_applied q /\ pv_min_fare_applied p = min_fare_applied q.
Proof.
  eexists. split; [vm_compute; reflexivity|]. split; [reflexivity|].
  apply (preview_is_the_quote quiet_pricing (PyInt 8) (PyInt 24) "auto" in_hyderabad demo_hyderabad demo_hyderabad_card); vm_compute; reflexivity.
Defined.
