(* ===== verification/Bookings.v ===== *)
(** * Bookings: the quote a rider books at

    Models the fare quotes of [servers/ride/quotes.py] and the booking that uses them,
    [RideRequestConsumer._create_trip] of [servers/consumers.py]: the lookup of an earlier
    booking, the service area, the quote, the price, the commission snapshot and the insertion,
    which is [insert_trip] of Trips. *)

From Stdlib Require Import QArith.
From S2P Require Import Prelude PyDecimal PyText Countries Models Money Commission Zones PromoTax Alerts Store.
From S2P Require Import Promos Settlement Drivers Trips Fares.
#[local] Open Scope string_scope.
#[local] Open Scope list_scope.
#[local] Open Scope Z_scope.

Definition point : Type := Q * Q.

(** ** Quotes *)

(** What the cache holds under a quote's id. *)
Record StoredQuote := {
  sq_fare : Quote;
  sq_rider : option Z;
  sq_pickup : point;
  sq_drop : point;
  sq_vehicle_type : string;
  sq_validated : pynum * pynum;
  sq_expires_at : Z
}.

(** The environment: what prices a ride at an instant, the distance in metres between two
    points, the validated route of two points (Google's, or the great circle), whether the city
    of a zone takes bookings, the commission rules, the quote ids. *)
Record BookEnv := {
  be_pricing : Z -> PricingEnv;
  be_trip : TripEnv;
  be_metres : point -> point -> Q;
  be_route : point -> point -> option (pynum * pynum);
  be_gate : option Zone -> option string;
  be_rules : list CommissionRule;
  be_uuid : Z -> string
}.

Record BookState := { bk_quotes : gmap string StoredQuote; bk_issued : Z; bk_world : World }.

Definition DEFAULT_VALID_SECONDS : Z := 300.
Definition MOVE_TOLERANCE_M : Q := 50.

(** [POLICIES[country]['quote_valid_seconds']]. *)
Definition policy_seconds (country : string) : option Z :=
  if bool_decide (country = "IN") || bool_decide (country = "US") then Some 300 else None.

Definition valid_seconds (country : option string) : Z :=
  match policy_seconds (upper (default EmptyString country)) with
  | Some n => if n =? 0 then DEFAULT_VALID_SECONDS else n
  | None => DEFAULT_VALID_SECONDS
  end.

(** [_country_of]: the country of the zone the fare names. *)
Definition country_of_fare (env : PricingEnv) (fare : Quote) : option string :=
  if truthy (Some (q_zone_code fare))
  then (fun p => zone_country p.2) <$> List.find (fun p => bool_decide (zone_code p.2 = q_zone_code fare)) (map_to_list (pr_zones env))
  else None.

(** [issue] *)
Definition issue (env : BookEnv) (fare : Quote) (rider : option Z) (pickup drop : point) (validated : pynum * pynum) (s : BookState)
    : (string * Z) * BookState :=
  let at_ := now (bk_world s) in
  let expires := at_ + valid_seconds (country_of_fare (be_pricing env at_) fare) * SECOND in
  let id := be_uuid env (bk_issued s) in
  ((id, expires),
   {| bk_quotes := <[id := {| sq_fare := fare; sq_rider := rider; sq_pickup := pickup; sq_drop := drop;
                             sq_vehicle_type := lower (q_vehicle_type fare); sq_validated := validated; sq_expires_at := expires |}]> (bk_quotes s);
      bk_issued := bk_issued s + 1; bk_world := bk_world s |}).

Inductive refusal_reason := Expired | Moved.

(** [cache.get]: an entry past its time is not there. *)
Definition cached (id : string) (s : BookState) : option StoredQuote :=
  q ← bk_quotes s !! id; if now (bk_world s) <? sq_expires_at q then Some q else None.

Definition further_than (limit d : Q) : bool := negb (Qle_bool d limit).

(** [check] *)
Definition check (env : BookEnv) (id : option string) (rider : Z) (pickup drop : point) (vehicle_type : option string) (s : BookState)
    : res refusal_reason StoredQuote :=
  match (i ← (if truthy id then id else None); cached i s) with
  | None => Err Expired
  | Some q =>
    if match sq_rider q with Some r => negb (r =? rider) | None => false end then Err Expired
    else if further_than MOVE_TOLERANCE_M (be_metres env pickup (sq_pickup q)) || further_than MOVE_TOLERANCE_M (be_metres env drop (sq_drop q))
    then Err Moved
    else if truthy vehicle_type && negb (bool_decide (lower (default EmptyString vehicle_type) = sq_vehicle_type q)) then Err Moved
    else Ok q
  end.

(** ** The booking *)

Record RideRequest := {
  rr_pickup : point;
  rr_drop : point;
  rr_vehicle_type : option string;
  rr_payment : option payment;
  rr_key : option string;
  rr_promo : option string;
  rr_quote : option string
}.

Inductive ride_booking :=
| RideBooking (b : booking)
| AreaRefused (code : string)
| QuoteExpired (why : refusal_reason) (fresh_id : string) (expires : Z) (fresh : Quote)
| RideFailed.

(** [validate_service_area_detail]: a code is told to the rider only when the city is closed. *)
Definition area_refusal (env : BookEnv) (pickup drop : point) (at_ : Z) : option (option string) :=
  let lookup := @find_zone_for_point (pr_lookup (be_pricing env at_)) in
  if bool_decide (lookup pickup = None) || bool_decide (lookup drop = None) then Some None
  else Some <$> be_gate env (lookup pickup).

(** [estimate_amount] *)
Definition estimate (env : BookEnv) (rq : RideRequest) (validated : pynum * pynum) (at_ : Z) : res quote_error Quote :=
  quote_fare (be_pricing env at_) validated.1 validated.2 (default EmptyString (rr_vehicle_type rq)) (Some (rr_pickup rq)).

(** The row the booking inserts, and the tax its promotion is worked out with. *)
Definition booked_body (env : BookEnv) (rq : RideRequest) (fare_minor at_ : Z) : Trip :=
  let pricing := be_pricing env at_ in
  let zone := @find_zone_for_point (pr_lookup pricing) (rr_pickup rq) in
  let vt := if truthy (rr_vehicle_type rq) then vehicle_type_named pricing (default EmptyString (rr_vehicle_type rq)) else None in
  with_snapshot (snapshot_for_booking (be_rules env) zone vt at_)
    {| trip_id := 0; trip_rider := 0; trip_driver := None; trip_zone := zone; trip_pickup := rr_pickup rq; trip_vehicle_type := vt;
       trip_vehicle_vt := None; trip_requested_at := at_; trip_currency := EmptyString; estimated_fare_minor := Some fare_minor;
       final_fare_minor := None; payment_method := rr_payment rq; end_rule := EmptyString; commission_percent_snapshot := None;
       commission_rule_id := None; commission_rule_version := None |}.

Definition promo_tax (fare : Quote) : tax_arg :=
  if bool_decide (q_tax_mode fare = "additive") then TaxAdditive (q_tax_percent fare) (per_trip_fee fare) else TaxInclusive.

(** From the price on: the trip row and its promotion, in one transaction. *)
Definition book_at (env : BookEnv) (rider : Z) (rq : RideRequest) (fare : Quote) (s : BookState) : ride_booking * BookState :=
  let at_ := now (bk_world s) in
  let zone := @find_zone_for_point (pr_lookup (be_pricing env at_)) (rr_pickup rq) in
  match to_minor_dec (total_fare fare) (Some (currency_for_zone zone)) with
  | Err _ => (RideFailed, s)
  | Ok fare_minor =>
    let '(b, w) := insert_trip (be_trip env) rider (rr_key rq) (booked_body env rq fare_minor at_) (rr_promo rq) (total_fare fare) (promo_tax fare) (bk_world s) in
    (RideBooking b, {| bk_quotes := bk_quotes s; bk_issued := bk_issued s; bk_world := w |})
  end.

(** [_create_trip] *)
Definition create_ride (env : BookEnv) (rider : Z) (rq : RideRequest) (s : BookState) : ride_booking * BookState :=
  let at_ := now (bk_world s) in
  match (k ← given_key (rr_key rq); find_booking rider k (bk_world s)) with
  | Some i => (RideBooking (Reused i), s)
  | None =>
    match area_refusal env (rr_pickup rq) (rr_drop rq) at_ with
    | Some (Some code) => (AreaRefused code, s)
    | Some None => (RideFailed, s)
    | None =>
      match be_route env (rr_pickup rq) (rr_drop rq) with
      | None => (RideFailed, s)
      | Some validated =>
        match (if truthy (rr_quote rq) then Some (check env (rr_quote rq) rider (rr_pickup rq) (rr_drop rq) (rr_vehicle_type rq) s) else None) with
        | Some (Err why) =>
          match estimate env rq validated at_ with
          | Err _ => (RideFailed, s)
          | Ok fresh =>
            let '((id, expires), s') := issue env fresh (Some rider) (rr_pickup rq) (rr_drop rq) validated s in
            (QuoteExpired why id expires fresh, s')
          end
        | Some (Ok quote) =>
          match estimate env rq validated at_ with
          | Err _ => (RideFailed, s)
          | Ok _ => book_at env rider rq (sq_fare quote) s
          end
        | None =>
          match estimate env rq validated at_ with
          | Err _ => (RideFailed, s)
          | Ok fare => book_at env rider rq fare s
          end
        end
      end
    end
  end.
