(* ===== verification/BookingSafety.v ===== *)
(** * BookingSafety: the quote is the price

    A ride booked from a valid quote is booked at that quote; a refused quote books nothing and
    gives one that can be booked; and bookings are the bookings of the life of rides. *)

From Stdlib Require Import QArith.
From stdpp Require Import pretty.
From S2P Require Import Prelude PyDecimal PyText Countries Models Money Commission Zones PromoTax Alerts Store.
From S2P Require Import Promos Settlement Drivers Trips TripSafety Fares FarePromises QuotePromises Bookings.
#[local] Open Scope string_scope.
#[local] Open Scope list_scope.
#[local] Open Scope Z_scope.

(** ** The life of the quotes *)

(** A rider is shown a fare, somebody books, or anything else happens to the rides. *)
Inductive book_step (env : BookEnv) : BookState -> BookState -> Prop :=
| bs_quote s fare rider pickup drop validated : book_step env s (issue env fare rider pickup drop validated s).2
| bs_book s rider rq : book_step env s (create_ride env rider rq s).2
| bs_ride s w : trip_step (be_trip env) (bk_world s) w ->
    book_step env s {| bk_quotes := bk_quotes s; bk_issued := bk_issued s; bk_world := w |}.

Definition no_quotes (w : World) : BookState := {| bk_quotes := ∅; bk_issued := 0; bk_world := w |}.

(** What holds of a platform whose quote ids are unique and whose map puts a point at itself. *)
Class GoodBooking (env : BookEnv) : Prop := {
  gb_uuid : forall i j, be_uuid env i = be_uuid env j -> i = j;
  gb_given : forall i, be_uuid env i <> EmptyString;
  gb_metres : forall p, (be_metres env p p <= MOVE_TOLERANCE_M)%Q
}.

(** ** Lemmas *)

Section Quotes.
Context (env : BookEnv) `{GoodBooking env}.

Definition quotes_ok (s : BookState) : Prop := forall id q, bk_quotes s !! id = Some q -> exists k, id = be_uuid env k /\ k < bk_issued s.

(** Booking issues a quote, or books, or does nothing; it never takes a quote away. *)
Inductive booked_from (s : BookState) : BookState -> Prop :=
| bf_none : booked_from s s
| bf_issue fare rider pickup drop validated : booked_from s (issue env fare rider pickup drop validated s).2
| bf_insert rider rq fare : booked_from s (book_at env rider rq fare s).2.

Lemma create_ride_does (rider : Z) (rq : RideRequest) (s : BookState) : booked_from s (create_ride env rider rq s).2.
Proof.
  unfold create_ride. destruct (_ ← _; _); [constructor|]. destruct (area_refusal _ _ _ _) as [[|]|]; [constructor..|].
  destruct (be_route _ _ _) as [validated|]; [|constructor].
  destruct (if truthy _ then _ else _) as [[q|why]|]; (destruct (estimate _ _ _ _) as [fare|]; [|constructor]).
  - apply bf_insert.
  - destruct (issue _ _ _ _ _ _ _) as [[id expires] s'] eqn:E. cbn [snd]. replace s' with (issue env fare (Some rider) (rr_pickup rq) (rr_drop rq) validated s).2 by by rewrite E.
    apply bf_issue.
  - apply bf_insert.
Qed.

Lemma book_at_world (rider : Z) (rq : RideRequest) (fare : Quote) (s : BookState) :
  let s' := (book_at env rider rq fare s).2 in
  bk_quotes s' = bk_quotes s /\ bk_issued s' = bk_issued s /\ rtc (trip_step (be_trip env)) (bk_world s) (bk_world s').
Proof.
  unfold book_at. destruct (to_minor_dec _ _) as [n|]; [|by split_and!; [..|apply rtc_refl]].
  destruct (insert_trip _ _ _ _ _ _ _ _) as [b w] eqn:E. cbn. split_and!; [done..|]. apply rtc_once.
  replace w with (insert_trip (be_trip env) rider (rr_key rq) (booked_body env rq n (now (bk_world s))) (rr_promo rq) (total_fare fare) (promo_tax fare) (bk_world s)).2
    by by rewrite E. apply ts_book.
Qed.

Lemma step_world (s s' : BookState) : book_step env s s' -> rtc (trip_step (be_trip env)) (bk_world s) (bk_world s').
Proof.
  intros [s0 *|s0 rider rq|s0 w Hw]; [apply rtc_refl| |by apply rtc_once].
  destruct (create_ride_does rider rq s0); [apply rtc_refl|apply rtc_refl|apply book_at_world].
Qed.

Lemma issue_keeps (s : BookState) fare rider pickup drop validated :
  quotes_ok s -> let s' := (issue env fare rider pickup drop validated s).2 in
  quotes_ok s' /\ (forall id q, bk_quotes s !! id = Some q -> bk_quotes s' !! id = Some q).
Proof.
  intros Hs s'. split.
  - intros id q Hq. cbn in Hq. apply lookup_insert_Some in Hq as [[<- _]|[_ Hq]]; [exists (bk_issued s); split; [done|cbn; lia]|].
    destruct (Hs id q Hq) as (k & -> & Hk). exists k. split; [done|cbn; lia].
  - intros id q Hq. cbn. rewrite lookup_insert_ne; [done|]. intros E. destruct (Hs id q Hq) as (k & -> & Hk). apply gb_uuid in E. lia.
Qed.

Lemma step_keeps (s s' : BookState) :
  book_step env s s' -> quotes_ok s -> quotes_ok s' /\ (forall id q, bk_quotes s !! id = Some q -> bk_quotes s' !! id = Some q).
Proof.
  intros [s0 *|s0 rider rq|s0 w Hw] Hs; [by apply issue_keeps| |by split].
  destruct (create_ride_does rider rq s0) as [|*|rider' rq' fare]; [by split|by apply issue_keeps|].
  destruct (book_at_world rider' rq' fare s0) as (E1 & E2 & _). unfold quotes_ok. rewrite E1, E2. by split.
Qed.

Lemma run_keeps (s s' : BookState) :
  rtc (book_step env) s s' -> quotes_ok s -> quotes_ok s' /\ (forall id q, bk_quotes s !! id = Some q -> bk_quotes s' !! id = Some q).
Proof.
  induction 1 as [s|s s1 s2 H1 _ IH]; intros Hs; [by split|]. destruct (step_keeps _ _ H1 Hs) as [H1' K1]. destruct (IH H1') as [H2' K2]. split; [done|]. auto.
Qed.

Lemma no_quotes_ok (w : World) : quotes_ok (no_quotes w).
Proof. intros id q Hq. cbn in Hq. by rewrite lookup_empty in Hq. Qed.

Lemma further_self (p : point) : further_than MOVE_TOLERANCE_M (be_metres env p p) = false.
Proof. unfold further_than. apply negb_false_iff, Qle_bool_iff, gb_metres. Qed.

(** A quote that is kept, unexpired, and asked for by its rider for its trip is bookable. *)
Lemma check_kept (s : BookState) (id : string) (q : StoredQuote) (rider : Z) (vehicle_type : option string) :
  bk_quotes s !! id = Some q -> id <> EmptyString -> now (bk_world s) < sq_expires_at q ->
  (sq_rider q = None \/ sq_rider q = Some rider) ->
  (truthy vehicle_type = true -> lower (default EmptyString vehicle_type) = sq_vehicle_type q) ->
  check env (Some id) rider (sq_pickup q) (sq_drop q) vehicle_type s = Ok q.
Proof.
  intros Hq Hid Ht Hr Hv. unfold check. assert (truthy (Some id) = true) as ->.
  { unfold truthy. by rewrite bool_decide_eq_false_2. }
  cbn [mbind option_bind]. unfold cached. rewrite Hq. cbn [mbind option_bind]. rewrite (proj2 (Z.ltb_lt _ _) Ht). rewrite !further_self. cbn [orb].
  assert (match sq_rider q with Some r => negb (r =? rider) | None => false end = false) as ->.
  { destruct Hr as [->| ->]; [done|by rewrite Z.eqb_refl]. }
  destruct (truthy vehicle_type); [|done]. rewrite Hv by done. by rewrite bool_decide_eq_true_2.
Qed.
End Quotes.

Lemma quote_fare_vehicle (env : PricingEnv) (km minutes : pynum) (vehicle_type : string) (pickup : option point) (q : Quote) :
  quote_fare env km minutes vehicle_type pickup = Ok q -> q_vehicle_type q = vehicle_type.
Proof.
  unfold quote_fare. destruct (truthy _); [|done]. cbn [negb]. destruct (trip_measures _ _) as [a b]. destruct (_ && _); [done|].
  unfold fare_raised. destruct (build_quote _ _ _ _ _ _ _ _) as [x|] eqn:E; [|done]. cbn [map_err]. intros [= <-]. unfold build_quote in E.
  repeat (apply res_bind_ok in E as (? & _ & E)).
  repeat match type of E with (let '(_, _) := ?x in _) = _ => destruct x end. repeat (apply res_bind_ok in E as (? & _ & E)). by injection E as <-.
Qed.

Lemma valid_seconds_pos (c : option string) : 0 < valid_seconds c.
Proof. unfold valid_seconds, policy_seconds. by destruct (_ || _). Qed.

(** A booking that went through was inserted with the row and the price [book_at] gave. *)
Lemma book_at_booked (env : BookEnv) (rider i : Z) (rq : RideRequest) (fare : Quote) (s s' : BookState) :
  book_at env rider rq fare s = (RideBooking (Booked i), s') ->
  exists n promo t db, to_minor_dec (total_fare fare)
      (Some (currency_for_zone (@find_zone_for_point (pr_lookup (be_pricing env (now (bk_world s)))) (rr_pickup rq)))) = Ok n /\
    book (te_promo (be_trip env)) (rr_promo rq) rider (booked_as i rider (now (bk_world s)) (booked_body env rq n (now (bk_world s))))
      (total_fare fare) (trip_zone (booked_body env rq n (now (bk_world s)))) (promo_tax fare) (w_db (bk_world s)) = Ok (promo, t, db) /\
    lt_trip <$> w_trips (bk_world s') !! i = Some t.
Proof.
  unfold book_at. destruct (to_minor_dec _ _) as [n|]; [|done]. destruct (insert_trip _ _ _ _ _ _ _ _) as [b w] eqn:E. intros [= -> <-].
  exists n. unfold insert_trip in E. destruct (_ ← _; _); [done|].
  destruct (book _ _ _ _ _ _ _ _) as [[[promo t] db]|[]] eqn:B; try done. injection E as <- <-. exists promo, t, db. split; [done|]. split; [exact B|].
  cbn. by rewrite lookup_insert_eq.
Qed.

Lemma book_at_not_refused (env : BookEnv) (rider : Z) (rq : RideRequest) (fare fresh : Quote) (s s' : BookState) (why : refusal_reason) (id : string) (expires : Z) :
  book_at env rider rq fare s <> (QuoteExpired why id expires fresh, s').
Proof. unfold book_at. destruct (to_minor_dec _ _) as [n|]; [|done]. by destruct (insert_trip _ _ _ _ _ _ _ _) as [b w]. Qed.

Lemma book_without_promo (env : PromoEnv) (code : option string) (user : Z) (t t' : Trip) (fare : dec) (zone : option Zone) (tax : tax_arg) (db db' : Db) :
  book env code user t fare zone tax db = Ok (None, t', db') -> t' = t.
Proof.
  unfold book. intros H. apply res_bind_ok in H as (chosen & _ & H). destruct chosen as [c|]; [|by injection H].
  apply res_bind_ok in H as ([x db1] & _ & H). destruct x as [[y t1]|why]; [done|]. destruct (negb _); [done|]. by injection H.
Qed.

(** ** Properties *)

(** Bookings are the bookings of the life of rides: whatever riders are quoted, book and are
    refused, and whatever else happens, the rides and the money are in a state the steps of a
    ride's life reach, so everything proved of those holds of a platform that books by quote. *)
Theorem bookings_are_rides (env : BookEnv) (w : World) (s : BookState) :
  rtc (book_step env) (no_quotes w) s -> rtc (trip_step (be_trip env)) w (bk_world s).
Proof.
  intros Hr. change w with (bk_world (no_quotes w)). induction Hr as [s|s s1 s2 H1 _ IH]; [apply rtc_refl|].
  etrans; [by apply (step_world env)|exact IH].
Qed.

(** C11. The quote is the price.  A rider is shown a fare; other riders are quoted and book, rides
    go on, prices change; before the quote expires its rider (or, when a guest was shown it,
    anybody) books the same trip and class with it.  If the ride is booked, the trip is stored
    with exactly the quoted total, or with what the promotion applied to that total makes of it. *)
Theorem the_quote_is_the_price (env : BookEnv) (w : World) (s0 s1 s2 s3 : BookState) (fare : Quote) (who : option Z) (rider : Z)
    (pickup drop : point) (validated : pynum * pynum) (id : string) (expires i : Z) (rq : RideRequest) :
  GoodBooking env -> rtc (book_step env) (no_quotes w) s0 ->
  issue env fare who pickup drop validated s0 = ((id, expires), s1) -> (who = None \/ who = Some rider) ->
  rtc (book_step env) s1 s2 -> now (bk_world s2) < expires ->
  rr_quote rq = Some id -> rr_pickup rq = pickup -> rr_drop rq = drop ->
  lower (default EmptyString (rr_vehicle_type rq)) = lower (q_vehicle_type fare) ->
  create_ride env rider rq s2 = (RideBooking (Booked i), s3) ->
  exists n promo t, lt_trip <$> w_trips (bk_world s3) !! i = Some t /\
    to_minor_dec (total_fare fare) (Some (currency_for_zone (trip_zone t))) = Ok n /\
    (promo = None -> estimated_fare_minor t = Some n) /\
    exists body db, estimated_fare_minor body = Some n /\
      book (te_promo (be_trip env)) (rr_promo rq) rider body (total_fare fare) (trip_zone body) (promo_tax fare) (w_db (bk_world s2)) = Ok (promo, t, db).
Proof.
  intros HG H0 E Hw Hr Ht Hq <- <- Hv. pose proof (proj1 (run_keeps env _ _ H0 (no_quotes_ok env w))) as Hs0.
  pose proof (proj1 (issue_keeps env s0 fare who (rr_pickup rq) (rr_drop rq) validated Hs0)) as Hs1. rewrite E in Hs1. cbn [snd] in Hs1.
  unfold issue in E. injection E as <- <- <-. set (q := Build_StoredQuote _ _ _ _ _ _ _) in Hr.
  assert (check env (Some (be_uuid env (bk_issued s0))) rider (rr_pickup rq) (rr_drop rq) (rr_vehicle_type rq) s2 = Ok q) as Hc.
  { apply (check_kept env s2 _ q rider (rr_vehicle_type rq)); [|apply gb_given|exact Ht|exact Hw|intros _; exact Hv].
    apply (proj2 (run_keeps env _ _ Hr Hs1)). cbn. apply lookup_insert_eq. }
  unfold create_ride. destruct (_ ← _; _); [done|]. destruct (area_refusal _ _ _ _) as [[|]|]; [done..|]. destruct (be_route _ _ _); [|done].
  rewrite Hq, Hc. assert (truthy (Some (be_uuid env (bk_issued s0))) = true) as ->.
  { unfold truthy. rewrite bool_decide_eq_false_2; [done|]. apply gb_given. }
  destruct (estimate _ _ _ _); [|done]. intros (n & promo & t & db & En & B & Et)%book_at_booked. cbn [sq_fare q] in *.
  exists n, promo, t. split; [exact Et|].
  split; [by destruct (book_trip _ _ _ _ _ _ _ _ _ _ _ B) as [_ (m & [->| ->])]|].
  split; [intros ->; by rewrite (book_without_promo _ _ _ _ _ _ _ _ _ _ B)|].
  eexists _, db. split; [|exact B]. reflexivity.
Qed.

(** C32. A refused quote books nothing.  When a booking is refused because its quote expired or its
    trip moved, the rides and the money are untouched, the fare answered is the fare of the trip
    asked for now, and the quote it comes with can be booked at once for that trip. *)
Theorem refused_quote_books_nothing (env : BookEnv) (rider : Z) (rq : RideRequest) (s s' : BookState) (why : refusal_reason)
    (id : string) (expires : Z) (fresh : Quote) :
  GoodBooking env -> create_ride env rider rq s = (QuoteExpired why id expires fresh, s') ->
  bk_world s' = bk_world s /\ now (bk_world s) < expires /\
  check env (rr_quote rq) rider (rr_pickup rq) (rr_drop rq) (rr_vehicle_type rq) s = Err why /\
  (exists validated, be_route env (rr_pickup rq) (rr_drop rq) = Some validated /\ estimate env rq validated (now (bk_world s)) = Ok fresh) /\
  exists q, check env (Some id) rider (rr_pickup rq) (rr_drop rq) (rr_vehicle_type rq) s' = Ok q /\ sq_fare q = fresh.
Proof.
  intros HG. unfold create_ride. destruct (_ ← _; _); [done|]. destruct (area_refusal _ _ _ _) as [[|]|]; [done..|].
  destruct (be_route _ _ _) as [validated|]; [|done].
  destruct (truthy (rr_quote rq)); [|destruct (estimate _ _ _ _); [intros X; by apply book_at_not_refused in X|done]].
  destruct (check _ _ _ _ _ _ _) as [q|why'] eqn:Hc; [destruct (estimate _ _ _ _); [intros X; by apply book_at_not_refused in X|done]|].
  destruct (estimate env rq validated _) as [fare|] eqn:Ee; [|done]. unfold issue. intros [= -> <- <- -> <-].
  pose proof (valid_seconds_pos (country_of_fare (be_pricing env (now (bk_world s))) fresh)) as Hv.
  split; [done|]. split; [unfold SECOND; lia|]. split; [done|]. split; [by exists validated|].
  refine (ex_intro _ (Build_StoredQuote fresh (Some rider) (rr_pickup rq) (rr_drop rq) (lower (q_vehicle_type fresh)) validated
           (now (bk_world s) + valid_seconds (country_of_fare (be_pricing env (now (bk_world s))) fresh) * SECOND)) (conj _ eq_refl)).
  apply (check_kept env _ _ (Build_StoredQuote fresh (Some rider) (rr_pickup rq) (rr_drop rq) (lower (q_vehicle_type fresh)) validated _)).
  - cbn. apply lookup_insert_eq.
  - apply gb_given.
  - cbn. unfold SECOND. lia.
  - by right.
  - intros _. cbn. unfold estimate in Ee. by rewrite (quote_fare_vehicle _ _ _ _ _ _ Ee).
Qed.

(** ** A demonstration *)

(** The same tables with every card of the city retired. *)
Definition unpriced (env : PricingEnv) : PricingEnv := {|
  pr_zones := pr_zones env; pr_cards := []; pr_lookup := pr_lookup env; pr_vehicle_types := pr_vehicle_types env; pr_allow_default := false;
  pr_hour_of := pr_hour_of env; pr_counts := pr_counts env; pr_now := pr_now env |}.

Definition quiet_prices : PricingEnv := {|
  pr_zones := pr_zones demo_pricing; pr_cards := pr_cards demo_pricing; pr_lookup := pr_lookup demo_pricing;
  pr_vehicle_types := pr_vehicle_types demo_pricing; pr_allow_default := false; pr_hour_of := pr_hour_of demo_pricing; pr_counts := None;
  pr_now := pr_now demo_pricing |}.

(** Demand raises the price after a minute, and the cards are gone after two. *)
Definition demo_booking : BookEnv := {|
  be_pricing t := if 120 * SECOND <? t then unpriced demo_pricing else if 60 * SECOND <? t then demo_pricing else quiet_prices;
  be_trip := demo_trip_env;
  be_metres p q := if Qeq_bool p.1 q.1 && Qeq_bool p.2 q.2 then 0%Q else 1000%Q;
  be_route _ _ := Some (PyFloat "8.13", PyFloat "21.5");
  be_gate _ := None;
  be_rules := [];
  be_uuid i := "quote-" +:+ pretty i |}.

#[global] Instance demo_booking_good : GoodBooking demo_booking.
Proof.
  split.
  - intros i j E. cbn [be_uuid demo_booking] in E. apply (inj (String.append "quote-")) in E. by apply (inj pretty) in E.
  - done.
  - intros p. cbn. rewrite (proj2 (Qeq_bool_iff p.1 p.1) (Qeq_refl _)), (proj2 (Qeq_bool_iff p.2 p.2) (Qeq_refl _)). discriminate.
Qed.

Definition demo_from : point := (17.4, 78.5)%Q.
Definition demo_to : point := (17.5, 78.4)%Q.

Definition demo_request (quote : option string) : RideRequest := {|
  rr_pickup := demo_from; rr_drop := demo_to; rr_vehicle_type := Some "Auto"; rr_payment := Some Cash; rr_key := Some "k9"; rr_promo := None;
  rr_quote := quote |}.

Definition demo_quoted : res quote_error Quote := estimate demo_booking (demo_request None) (PyFloat "8.13", PyFloat "21.5") 10.

(** The fare shown to rider 5, and the platform as it stands a minute and a half later. *)
Definition demo_shown (fare : Quote) : BookState :=
  (issue demo_booking fare (Some 5) demo_from demo_to (PyFloat "8.13", PyFloat "21.5") (no_quotes demo_w0)).2.

Definition wait_until (t : Z) (s : BookState) : BookState :=
  {| bk_quotes := bk_quotes s; bk_issued := bk_issued s; bk_world := with_db (at_time t (w_db (bk_world s))) (bk_world s) |}.

Lemma wait_step (t : Z) (s : BookState) : now (bk_world s) <= t -> book_step demo_booking s (wait_until t s).
Proof. intros H. apply (bs_ride demo_booking s), (ts_tick demo_trip_env _ t H). Qed.

Definition demo_fare : Quote :=
  Eval vm_compute in match demo_quoted as r return match r with Ok _ => Quote | Err _ => unit end with Ok q => q | Err _ => tt end.

Definition demo_later : BookState := wait_until (90 * SECOND) (demo_shown demo_fare).
Definition demo_booked_at_quote : BookState := (create_ride demo_booking 5 (demo_request (Some "quote-0")) demo_later).2.

Lemma demo_books : create_ride demo_booking 5 (demo_request (Some "quote-0")) demo_later = (RideBooking (Booked 1), demo_booked_at_quote).
Proof. vm_compute. reflexivity. Qed.

(** Priced again at booking it would be 254 rupees; the ride is booked at the 169 shown. *)
Lemma the_quote_is_the_price_witness :
  demo_quoted = Ok demo_fare /\
  (let* q := estimate demo_booking (demo_request None) (PyFloat "8.13", PyFloat "21.5") (90 * SECOND) in Ok (total_fare q)) = Ok (Dec 25400 (-2)) /\
  exists n promo t, lt_trip <$> w_trips (bk_world demo_booked_at_quote) !! 1 = Some t /\
    to_minor_dec (total_fare demo_fare) (Some (currency_for_zone (trip_zone t))) = Ok n /\
    (promo = None -> estimated_fare_minor t = Some n) /\
    exists body db, estimated_fare_minor body = Some n /\
      book (te_promo (be_trip demo_booking)) None 5 body (total_fare demo_fare) (trip_zone body) (promo_tax demo_fare) (w_db (bk_world demo_later)) = Ok (promo, t, db).
Proof.
  split; [vm_compute; reflexivity|]. split; [vm_compute; reflexivity|].
  apply (the_quote_is_the_price demo_booking demo_w0 (no_quotes demo_w0) (demo_shown demo_fare) demo_later demo_booked_at_quote demo_fare (Some 5) 5
    demo_from demo_to (PyFloat "8.13", PyFloat "21.5") "quote-0" (10 + 300 * SECOND) 1 (demo_request (Some "quote-0")));
    [exact demo_booking_good|apply rtc_refl|vm_compute; reflexivity|by right|apply rtc_once, wait_step; vm_compute; discriminate|vm_compute; reflexivity|
     reflexivity|reflexivity|reflexivity|reflexivity|exact demo_books].
Defined.

Lemma bookings_are_rides_witness : rtc (trip_step demo_trip_env) demo_w0 (bk_world demo_booked_at_quote).
Proof.
  apply (bookings_are_rides demo_booking demo_w0 demo_booked_at_quote).
  eapply rtc_l; [exact (bs_quote demo_booking (no_quotes demo_w0) demo_fare (Some 5) demo_from demo_to (PyFloat "8.13", PyFloat "21.5"))|].
  eapply rtc_l; [exact (wait_step (90 * SECOND) (demo_shown demo_fare) ltac:(vm_compute; discriminate))|].
  eapply rtc_l; [exact (bs_book demo_booking demo_later 5 (demo_request (Some "quote-0")))|]. apply rtc_refl.
Defined.

(** A quote nobody was given: refused, with the fare of the minute. *)
Definition demo_refused : ride_booking * BookState := create_ride demo_booking 5 (demo_request (Some "quote-9")) demo_later.

Lemma refused_quote_books_nothing_witness : exists id expires fresh,
  demo_refused.1 = QuoteExpired Expired id expires fresh /\ total_fare fresh = Dec 25400 (-2) /\
  bk_world demo_refused.2 = bk_world demo_later /\ now (bk_world demo_later) < expires /\
  exists q, check demo_booking (Some id) 5 demo_from demo_to (Some "Auto") demo_refused.2 = Ok q /\ sq_fare q = fresh.
Proof.
  eexists _, _, _. split; [vm_compute; reflexivity|]. split; [reflexivity|].
  edestruct (refused_quote_books_nothing demo_booking 5 (demo_request (Some "quote-9")) demo_later demo_refused.2 Expired) as (H1 & H2 & _ & _ & H3);
    [exact demo_booking_good|vm_compute; reflexivity|]. split; [exact H1|]. split; [exact H2|exact H3].
Defined.

(** A valid quote can still fail.  The booking prices the trip again to record its demand, and
    when the class is no longer priced that fails the booking: two minutes on, with the quote
    valid for three more and its rider asking for its trip, the ride is not booked. *)
Theorem valid_quote_can_fail :
  let s := wait_until (121 * SECOND) (demo_shown demo_fare) in
  (exists q, check demo_booking (Some "quote-0") 5 demo_from demo_to (Some "Auto") s = Ok q /\ sq_fare q = demo_fare) /\
  create_ride demo_booking 5 (demo_request (Some "quote-0")) s = (RideFailed, s).
Proof. split; [eexists; split; vm_compute; reflexivity|vm_compute; reflexivity]. Qed.
