(* ===== verification/SafetyConfig.v ===== *)
(** * SafetyConfig: the safety timers and thresholds of a country

    Models [servers/safety/config.py] and [SafetyCountryConfig] of [servers/safety/models.py]:
    one active version per country, no default and no fallback, validation, and edits that open
    the next version.  The table is the list of all versions in creation order; who edited and the
    audit row are left out. *)

From Stdlib Require Import Ascii.
From S2P Require Import Prelude PyText Countries Json.
#[local] Open Scope string_scope.
#[local] Open Scope list_scope.
#[local] Open Scope Z_scope.

(** ** Data *)

(** The bounds of an edit, in the order they are checked. *)
Definition LIMITS : list (string * (Z * Z)) := [
  ("sos_ack_minutes", (1, 120)); ("incident_assign_minutes", (1, 1440));
  ("long_stop_minutes", (1, 720)); ("long_stop_radius_m", (5, 5000));
  ("stop_exempt_radius_m", (0, 5000)); ("long_stop_incident_minutes", (1, 1440));
  ("eta_overrun_percent", (1, 1000)); ("eta_overrun_minutes", (1, 1440));
  ("eta_overrun_incident_percent", (1, 2000)); ("eta_overrun_incident_minutes", (1, 2880));
  ("route_deviation_meters", (10, 50000)); ("route_deviation_minutes", (1, 720));
  ("min_safety_officers", (0, 500)); ("stuck_overrun_percent", (110, 1000));
  ("stuck_no_location_minutes", (2, 240)); ("stuck_not_started_minutes", (5, 480))].

Record EmergencyNumber := { en_label : string; en_number : string }.

#[global] Instance emergency_number_eq_dec : EqDecision EmergencyNumber.
Proof. solve_decision. Defined.

(** [SafetyCountryConfig]; the number columns are a map, a null one is not in it. *)
Record SafetyCountryConfig := {
  sc_country : string;
  sc_version : Z;
  sc_active : bool;
  sc_valid_from : Z;
  sc_valid_to : option Z;
  sc_reason : string;
  sc_values : gmap string Z;
  sc_numbers : list EmergencyNumber
}.

(** [config.<field>] where the code only asks whether it is set: null and zero are both off. *)
Definition setting (c : SafetyCountryConfig) (field : string) : option Z :=
  match sc_values c !! field with Some n => if n =? 0 then None else Some n | None => None end.

Inductive config_error :=
| INVALID_NUMBERS | INVALID_VALUE (field : string) | UNKNOWN_COUNTRY | REASON_REQUIRED | VersionTaken.

#[global] Instance config_error_eq_dec : EqDecision config_error.
Proof. solve_decision. Defined.

(** ** Reading *)

Definition active_for (code : string) (c : SafetyCountryConfig) : bool :=
  bool_decide (sc_country c = code) && sc_active c.

Definition config_for (rows : list SafetyCountryConfig) (country : option string) : option SafetyCountryConfig :=
  let code := norm_code country in
  if bool_decide (code = EmptyString) then None else List.find (active_for code) rows.

(** [active_configs], as the function the callers use it as: [configs.get(code)]. *)
Definition active_configs (rows : list SafetyCountryConfig) (code : string) : option SafetyCountryConfig :=
  List.find (active_for code) rows.

(** [_shortest]: the shortest timer any active config sets. *)
Definition shortest (rows : list SafetyCountryConfig) (field : string) : option Z :=
  match omap (fun c => if sc_active c then setting c field else None) rows with
  | [] => None
  | x :: l => Some (foldr Z.min x l)
  end.

(** ** Validation *)

(** [int(text)] on a stripped text: a sign, and digits that single underscores may separate. *)
Fixpoint int_digits (acc : Z) (after_digit : bool) (l : list ascii) : option Z :=
  match l with
  | [] => if after_digit then Some acc else None
  | c :: r => if is_digit c then int_digits (10 * acc + digit_val c) true r
              else if after_digit && (code c =? 95) then int_digits acc false r else None
  end.

Definition int_text (s : string) : option Z :=
  let '(sg, l) := take_sign (chars (strip s)) in (fun n => sg * n) <$> int_digits 0 false l.

Section Values.
(** [str] of a list or of a dict. *)
Context (py_repr : json -> string).

Definition py_str (j : json) : string :=
  match j with
  | JNull => "None" | JBool true => "True" | JBool false => "False"
  | JInt z => number z | JStr s => s | JList _ | JObj _ => py_repr j
  end.

Definition clean_value (name : string) (low high : Z) (raw : json) (values : gmap string Z) : res config_error (gmap string Z) :=
  match raw with
  | JNull | JStr EmptyString => Ok (delete name values)
  | JBool _ => Err (INVALID_VALUE name)
  | _ => match int_text (py_str raw) with
         | Some n => if (low <=? n) && (n <=? high) then Ok (<[name := n]> values) else Err (INVALID_VALUE name)
         | None => Err (INVALID_VALUE name)
         end
  end.

Definition clean_values (data : payload_dict) (current : option SafetyCountryConfig) : res config_error (gmap string Z) :=
  foldl (fun acc e => let* values := acc in
           match dict_get data e.1 with
           | None => Ok values
           | Some raw => clean_value e.1 e.2.1 e.2.2 raw values
           end) (Ok (from_option sc_values ∅ current)) LIMITS.

(** The [_NUMBER] pattern. *)
Definition dialable (s : string) : bool :=
  let ok c := is_digit c || bool_decide (c ∈ chars "+*#() -") in
  (2 <=? len (chars s)) && (len (chars s) <=? 20) && forallb ok (chars s).

(** [str(row.get(key) or '').strip()] *)
Definition text_field (row : payload_dict) (key : string) : string :=
  match dict_get row key with Some v => if json_truthy v then strip (py_str v) else EmptyString | None => EmptyString end.

Definition clean_number (row : json) : res config_error EmergencyNumber :=
  match row with
  | JObj d =>
    let label := String.substring 0 40 (text_field d "label") in
    let number := text_field d "number" in
    if bool_decide (label = EmptyString) || negb (dialable number) then Err INVALID_NUMBERS
    else Ok {| en_label := label; en_number := number |}
  | _ => Err INVALID_NUMBERS
  end.

Definition clean_numbers (raw : json) : res config_error (option (list EmergencyNumber)) :=
  match raw with
  | JNull => Ok None
  | JList rows =>
    if (8 <? length rows)%nat then Err INVALID_NUMBERS
    else let* l := foldr (fun r acc => let* n := clean_number r in let* l := acc in Ok (n :: l)) (Ok []) rows in Ok (Some l)
  | _ => Err INVALID_NUMBERS
  end.

(** ** Editing *)

Definition not_below (values : gmap string Z) (field incident_field : string) : bool :=
  let on f := match values !! f with Some n => if n =? 0 then None else Some n | None => None end in
  match on field, on incident_field with
  | Some line, Some incident => line <=? incident
  | _, _ => true
  end.

Definition incident_lines_make_sense (values : gmap string Z) : res config_error unit :=
  let* _ := require (not_below values "long_stop_minutes" "long_stop_incident_minutes") (INVALID_VALUE "long_stop_incident_minutes") in
  let* _ := require (not_below values "eta_overrun_percent" "eta_overrun_incident_percent") (INVALID_VALUE "eta_overrun_incident_percent") in
  require (not_below values "eta_overrun_minutes" "eta_overrun_incident_minutes") (INVALID_VALUE "eta_overrun_incident_minutes").

Definition closed_version (now : Z) (c : SafetyCountryConfig) : SafetyCountryConfig :=
  {| sc_country := sc_country c; sc_version := sc_version c; sc_active := false; sc_valid_from := sc_valid_from c;
     sc_valid_to := Some now; sc_reason := sc_reason c; sc_values := sc_values c; sc_numbers := sc_numbers c |}.

Definition same_version (c d : SafetyCountryConfig) : bool :=
  bool_decide (sc_country c = sc_country d) && (sc_version c =? sc_version d).

(** [change_config]: the row in force afterwards, whether it is new, and the table.  A version number
    that is taken is the [IntegrityError] of [safety_config_version_unique]. *)
Definition change_config (rows : list SafetyCountryConfig) (country : option string) (data : payload_dict) (reason : option string) (now : Z)
    : res config_error (SafetyCountryConfig * bool * list SafetyCountryConfig) :=
  let code := norm_code country in
  let* _ := require (is_supported_country country) UNKNOWN_COUNTRY in
  let reason := strip (default EmptyString reason) in
  let* _ := require (negb (bool_decide (reason = EmptyString))) REASON_REQUIRED in
  let current := List.find (active_for code) rows in
  let* values := clean_values data current in
  let* _ := incident_lines_make_sense values in
  let* numbers := match dict_get data "emergency_numbers" with Some raw => clean_numbers raw | None => Ok None end in
  let numbers := default (from_option sc_numbers [] current) numbers in
  let next version rows :=
    let row := {| sc_country := code; sc_version := version; sc_active := true; sc_valid_from := now; sc_valid_to := None;
                  sc_reason := String.substring 0 2000 reason; sc_values := values; sc_numbers := numbers |} in
    if existsb (same_version row) rows then Err VersionTaken else Ok (row, true, rows ++ [row]) in
  match current with
  | None => next 1 rows
  | Some c =>
    if bool_decide (values = sc_values c) && bool_decide (numbers = sc_numbers c) then Ok (c, false, rows)
    else next (sc_version c + 1) ((fun d => if same_version c d then closed_version now d else d) <$> rows)
  end.
End Values.
