(* ===== verification/Incidents.v ===== *)
(** * Incidents: alarms and the case files around them

    Models [servers/sos] (the alarm, where it is routed, its transitions), [servers/safety]'s
    [models.py], [services.py] and [scope.py] (incidents, their links and timeline, who sees them),
    the writes of [admin_views.py], and the escalation sweep of [escalation.py].  Accounts and the
    geography are the tables of Access, alerts the table of Alerts.

    The tables are one [SafetyDb].  Trips, drivers and riders are read only and part of the
    environment.  A handler first checks a case it read ([seen]) and then writes under a lock, in
    the state of that moment; the two may differ.  Where the code writes from a row it read
    without a lock, the read is an argument of its own ([Reads]).  A transaction is one step, at
    its commit.  Left out: the JSON [data] of a timeline entry, audit rows, pushes and answers'
    bodies. *)

From Stdlib Require Import Ascii QArith.
From stdpp Require Import sorting.
From S2P Require Import Prelude PyDecimal PyText Countries Models Access Alerts SafetyConfig.
#[local] Open Scope string_scope.
#[local] Open Scope list_scope.
#[local] Open Scope Z_scope.

(** ** Vocabulary *)

Inductive incident_severity := Critical | High | Medium | Low.

Definition SEVERITY_RANK (s : incident_severity) : Z :=
  match s with Critical => 0 | High => 1 | Medium => 2 | Low => 3 end.

Inductive incident_status := Opened | Investigating | ActionTaken | Closed.

Inductive incident_source := SrcSos | SrcTicket | SrcSignal | SrcManual.

Inductive anchor_source :=
| AnchorTrip | AnchorSos | AnchorDriverHome | AnchorRider | AnchorRiderCountry | AnchorUnanchored.

Inductive link_kind := LinkDriver | LinkRider | LinkTrip | LinkTicket | LinkSos.

Inductive update_kind :=
| UOpened | UNote | UStatus | UAssigned | ULink | UUnlink
| UAction | USos | USignal | UEscalated | UPolice | UClosed.

Inductive sos_status := SosOpen | SosAcknowledged | SosResolved | SosFalseAlarm.

Inductive sos_anchor := SosTrip | SosGps | SosHomeCity | SosUnanchored.

#[global] Instance incident_severity_eq_dec : EqDecision incident_severity.
Proof. solve_decision. Defined.
#[global] Instance incident_status_eq_dec : EqDecision incident_status.
Proof. solve_decision. Defined.
#[global] Instance incident_source_eq_dec : EqDecision incident_source.
Proof. solve_decision. Defined.
#[global] Instance anchor_source_eq_dec : EqDecision anchor_source.
Proof. solve_decision. Defined.
#[global] Instance link_kind_eq_dec : EqDecision link_kind.
Proof. solve_decision. Defined.
#[global] Instance update_kind_eq_dec : EqDecision update_kind.
Proof. solve_decision. Defined.
#[global] Instance sos_status_eq_dec : EqDecision sos_status.
Proof. solve_decision. Defined.
#[global] Instance sos_anchor_eq_dec : EqDecision sos_anchor.
Proof. solve_decision. Defined.

(** ** Rows *)

(** [SafetyIncident]; [in_anchor] is the key of a [GeoNode]. *)
Record Incident := {
  in_category : string;
  in_severity : incident_severity;
  in_status : incident_status;
  in_source : incident_source;
  in_title : string;
  in_trip : option Z;
  in_anchor : option Z;
  in_anchor_source : anchor_source;
  in_country : string;
  in_assigned : option Z;
  in_opened_by : option Z;
  in_opened_at : Z;
  in_closed_at : option Z;
  in_outcome : string;
  in_summary : string;
  in_police_at : option Z;
  in_police_reference : string;
  in_escalated_at : option Z
}.

Record IncidentLink := { lk_incident : Z; lk_kind : link_kind; lk_target : Z; lk_by : option Z }.

(** [SafetyIncidentUpdate]; no actor is the label [system], no status a blank one. *)
Record IncidentUpdate := {
  up_incident : Z;
  up_kind : update_kind;
  up_actor : option Z;
  up_from : option incident_status;
  up_to : option incident_status;
  up_note : string;
  up_key : string;
  up_at : Z
}.

(** [SOSEvent] *)
Record SosEvent := {
  so_user : option Z;
  so_initiated_by : string;
  so_trip : option Z;
  so_type : string;
  so_status : sos_status;
  so_lat : option Q;
  so_lng : option Q;
  so_note : string;
  so_mistake_at : option Z;
  so_anchor : option Z;
  so_anchor_source : sos_anchor;
  so_incident : option Z;
  so_escalated_at : option Z;
  so_created : Z
}.

Record SosUpdate := { su_event : Z; su_actor : option Z; su_status : sos_status; su_note : string; su_at : Z }.

(** [SafetySignal]; what was measured is a number of minutes and, for an overrun, its percentage. *)
Inductive signal_kind := LongStop | EtaOverrun | RouteDeviation.

#[global] Instance signal_kind_eq_dec : EqDecision signal_kind.
Proof. solve_decision. Defined.

Record SignalMeasure := { me_minutes : Q; me_percent : Q; me_since : Z }.

Record Signal := {
  sg_kind : signal_kind;
  sg_trip : Z;
  sg_country : string;
  sg_anchor : option Z;
  sg_measured : SignalMeasure;
  sg_version : Z;
  sg_incident : option Z;
  sg_created : Z;
  sg_updated : Z;
  sg_dismissed : option (Z * Z * string)
}.

(** The tables; primary keys are handed out by the counters. *)
Record SafetyDb := {
  incidents : gmap Z Incident;
  incident_next : Z;
  links : list IncidentLink;
  updates : list IncidentUpdate;
  sos_events : gmap Z SosEvent;
  sos_next : Z;
  sos_updates : list SosUpdate;
  signals : gmap Z Signal;
  signal_next : Z;
  sf_alerts : AlertTable
}.

(** What the module reads of other parts: [se_trips] the trips, [se_driver_of] a user's driver
    profile and [se_driver_user] a driver's account, [se_home_city] a driver's and
    [se_rider_home] a rider's, the window of [trip_window_start], the zones at a point
    ([zones_containing_point]), and what an operator may see of other tables ([_target]). *)
Record SafetyEnv := {
  se_access : AccessDb;
  se_configs : list SafetyCountryConfig;
  se_trips : gmap Z Trip;
  se_driver_of : Z -> option Z;
  se_driver_user : Z -> Z;
  se_home_city : Z -> option Z;
  se_is_rider : Z -> bool;
  se_rider_home : Z -> option Z;
  se_phone : Z -> option string;
  se_trip_window : Z;
  se_zones_at : option Q -> option Q -> list Zone;
  se_sees : User -> link_kind -> Z -> bool
}.

(** The reads of a transaction that lock nothing, each of a moment of its own: the open case of a
    trip, that case again when a creation lost the race, the case of an alarm that is being moved,
    and the alarms or links of a case. *)
Record Reads := { rd_open : SafetyDb; rd_winner : SafetyDb; rd_case : Z -> SafetyDb; rd_alarms : SafetyDb }.

(** All of them at the moment of the writes. *)
Definition reads_now (s : SafetyDb) : Reads := {| rd_open := s; rd_winner := s; rd_case := fun _ => s; rd_alarms := s |}.

(** ** Writing a row *)

Definition set_incidents (m : gmap Z Incident) (s : SafetyDb) : SafetyDb :=
  {| incidents := m; incident_next := incident_next s; links := links s; updates := updates s; sos_events := sos_events s;
     sos_next := sos_next s; sos_updates := sos_updates s; signals := signals s; signal_next := signal_next s; sf_alerts := sf_alerts s |}.

Definition set_links (l : list IncidentLink) (s : SafetyDb) : SafetyDb :=
  {| incidents := incidents s; incident_next := incident_next s; links := l; updates := updates s; sos_events := sos_events s;
     sos_next := sos_next s; sos_updates := sos_updates s; signals := signals s; signal_next := signal_next s; sf_alerts := sf_alerts s |}.

Definition push_update (u : IncidentUpdate) (s : SafetyDb) : SafetyDb :=
  {| incidents := incidents s; incident_next := incident_next s; links := links s; updates := updates s ++ [u]; sos_events := sos_events s;
     sos_next := sos_next s; sos_updates := sos_updates s; signals := signals s; signal_next := signal_next s; sf_alerts := sf_alerts s |}.

Definition set_events (m : gmap Z SosEvent) (s : SafetyDb) : SafetyDb :=
  {| incidents := incidents s; incident_next := incident_next s; links := links s; updates := updates s; sos_events := m;
     sos_next := sos_next s; sos_updates := sos_updates s; signals := signals s; signal_next := signal_next s; sf_alerts := sf_alerts s |}.

Definition push_sos_update (u : SosUpdate) (s : SafetyDb) : SafetyDb :=
  {| incidents := incidents s; incident_next := incident_next s; links := links s; updates := updates s; sos_events := sos_events s;
     sos_next := sos_next s; sos_updates := sos_updates s ++ [u]; signals := signals s; signal_next := signal_next s; sf_alerts := sf_alerts s |}.

Definition set_signals (m : gmap Z Signal) (s : SafetyDb) : SafetyDb :=
  {| incidents := incidents s; incident_next := incident_next s; links := links s; updates := updates s; sos_events := sos_events s;
     sos_next := sos_next s; sos_updates := sos_updates s; signals := m; signal_next := signal_next s; sf_alerts := sf_alerts s |}.

Definition set_alerts (t : AlertTable) (s : SafetyDb) : SafetyDb :=
  {| incidents := incidents s; incident_next := incident_next s; links := links s; updates := updates s; sos_events := sos_events s;
     sos_next := sos_next s; sos_updates := sos_updates s; signals := signals s; signal_next := signal_next s; sf_alerts := t |}.

Definition insert_incident (x : Incident) (s : SafetyDb) : SafetyDb :=
  {| incidents := <[incident_next s := x]> (incidents s); incident_next := incident_next s + 1; links := links s; updates := updates s;
     sos_events := sos_events s; sos_next := sos_next s; sos_updates := sos_updates s; signals := signals s;
     signal_next := signal_next s; sf_alerts := sf_alerts s |}.

Definition insert_event (x : SosEvent) (s : SafetyDb) : SafetyDb :=
  {| incidents := incidents s; incident_next := incident_next s; links := links s; updates := updates s;
     sos_events := <[sos_next s := x]> (sos_events s); sos_next := sos_next s + 1; sos_updates := sos_updates s; signals := signals s;
     signal_next := signal_next s; sf_alerts := sf_alerts s |}.

Definition insert_signal (x : Signal) (s : SafetyDb) : SafetyDb :=
  {| incidents := incidents s; incident_next := incident_next s; links := links s; updates := updates s;
     sos_events := sos_events s; sos_next := sos_next s; sos_updates := sos_updates s; signals := <[signal_next s := x]> (signals s);
     signal_next := signal_next s + 1; sf_alerts := sf_alerts s |}.

Definition update_incident (i : Z) (f : Incident -> Incident) (s : SafetyDb) : SafetyDb :=
  set_incidents (alter f i (incidents s)) s.

Definition update_event (e : Z) (f : SosEvent -> SosEvent) (s : SafetyDb) : SafetyDb :=
  set_events (alter f e (sos_events s)) s.

Definition with_severity (v : incident_severity) (x : Incident) : Incident :=
  {| in_category := in_category x; in_severity := v; in_status := in_status x; in_source := in_source x; in_title := in_title x;
     in_trip := in_trip x; in_anchor := in_anchor x; in_anchor_source := in_anchor_source x; in_country := in_country x;
     in_assigned := in_assigned x; in_opened_by := in_opened_by x; in_opened_at := in_opened_at x; in_closed_at := in_closed_at x;
     in_outcome := in_outcome x; in_summary := in_summary x; in_police_at := in_police_at x;
     in_police_reference := in_police_reference x; in_escalated_at := in_escalated_at x |}.

Definition with_status (v : incident_status) (x : Incident) : Incident :=
  {| in_category := in_category x; in_severity := in_severity x; in_status := v; in_source := in_source x; in_title := in_title x;
     in_trip := in_trip x; in_anchor := in_anchor x; in_anchor_source := in_anchor_source x; in_country := in_country x;
     in_assigned := in_assigned x; in_opened_by := in_opened_by x; in_opened_at := in_opened_at x; in_closed_at := in_closed_at x;
     in_outcome := in_outcome x; in_summary := in_summary x; in_police_at := in_police_at x;
     in_police_reference := in_police_reference x; in_escalated_at := in_escalated_at x |}.

Definition with_assigned (v : option Z) (x : Incident) : Incident :=
  {| in_category := in_category x; in_severity := in_severity x; in_status := in_status x; in_source := in_source x; in_title := in_title x;
     in_trip := in_trip x; in_anchor := in_anchor x; in_anchor_source := in_anchor_source x; in_country := in_country x;
     in_assigned := v; in_opened_by := in_opened_by x; in_opened_at := in_opened_at x; in_closed_at := in_closed_at x;
     in_outcome := in_outcome x; in_summary := in_summary x; in_police_at := in_police_at x;
     in_police_reference := in_police_reference x; in_escalated_at := in_escalated_at x |}.

Definition with_police (now : Z) (reference : string) (x : Incident) : Incident :=
  {| in_category := in_category x; in_severity := in_severity x; in_status := in_status x; in_source := in_source x; in_title := in_title x;
     in_trip := in_trip x; in_anchor := in_anchor x; in_anchor_source := in_anchor_source x; in_country := in_country x;
     in_assigned := in_assigned x; in_opened_by := in_opened_by x; in_opened_at := in_opened_at x; in_closed_at := in_closed_at x;
     in_outcome := in_outcome x; in_summary := in_summary x; in_police_at := Some now;
     in_police_reference := truncated 120 reference; in_escalated_at := in_escalated_at x |}.

Definition with_closed (now : Z) (outcome summary : string) (x : Incident) : Incident :=
  {| in_category := in_category x; in_severity := in_severity x; in_status := Closed; in_source := in_source x; in_title := in_title x;
     in_trip := in_trip x; in_anchor := in_anchor x; in_anchor_source := in_anchor_source x; in_country := in_country x;
     in_assigned := in_assigned x; in_opened_by := in_opened_by x; in_opened_at := in_opened_at x; in_closed_at := Some now;
     in_outcome := outcome; in_summary := summary; in_police_at := in_police_at x;
     in_police_reference := in_police_reference x; in_escalated_at := in_escalated_at x |}.

Definition with_escalated (now : Z) (x : Incident) : Incident :=
  {| in_category := in_category x; in_severity := in_severity x; in_status := in_status x; in_source := in_source x; in_title := in_title x;
     in_trip := in_trip x; in_anchor := in_anchor x; in_anchor_source := in_anchor_source x; in_country := in_country x;
     in_assigned := in_assigned x; in_opened_by := in_opened_by x; in_opened_at := in_opened_at x; in_closed_at := in_closed_at x;
     in_outcome := in_outcome x; in_summary := in_summary x; in_police_at := in_police_at x;
     in_police_reference := in_police_reference x; in_escalated_at := Some now |}.

Definition set_event (st : sos_status) (mistake : option Z) (incident escalated : option Z) (x : SosEvent) : SosEvent :=
  {| so_user := so_user x; so_initiated_by := so_initiated_by x; so_trip := so_trip x; so_type := so_type x; so_status := st;
     so_lat := so_lat x; so_lng := so_lng x; so_note := so_note x; so_mistake_at := mistake; so_anchor := so_anchor x;
     so_anchor_source := so_anchor_source x; so_incident := incident; so_escalated_at := escalated; so_created := so_created x |}.

Definition with_sos_status (st : sos_status) (x : SosEvent) : SosEvent := set_event st (so_mistake_at x) (so_incident x) (so_escalated_at x) x.
Definition with_mistake (now : Z) (x : SosEvent) : SosEvent := set_event (so_status x) (Some now) (so_incident x) (so_escalated_at x) x.
Definition with_incident (i : Z) (x : SosEvent) : SosEvent := set_event (so_status x) (so_mistake_at x) (Some i) (so_escalated_at x) x.
Definition with_sos_escalated (now : Z) (x : SosEvent) : SosEvent := set_event (so_status x) (so_mistake_at x) (so_incident x) (Some now) x.

(** ** Where it is *)

Definition node_of (env : SafetyEnv) (n : option Z) : option GeoRow := i ← n; nodes (se_access env) !! i.

(** [country_of_node] of [servers/support/sla.py]: the first part of the path that is a country. *)
Fixpoint path_parts (word : list ascii) (l : list ascii) : list string :=
  match l with
  | [] => [of_chars (rev word)]
  | c :: r => if bool_decide (c = "/"%char) then of_chars (rev word) :: path_parts [] r else path_parts (c :: word) r
  end.

Definition country_of_node (node : option GeoRow) : string :=
  match node with
  | None => EmptyString
  | Some n => default EmptyString (List.find (fun p => bool_decide (is_Some (registry_get p))) (path_parts [] (chars (g_path n))))
  end.

Definition trip_node (trip : option Trip) : option Z := t ← trip; z ← trip_zone t; node_id <$> zone_geo_node z.

(** [anchor_nodes] of [servers/rider/scope.py]; a place may be listed more than once. *)
Definition anchor_nodes (env : SafetyEnv) (rider : Z) : list (Z * GeoRow) :=
  let recent := omap (fun p : Z * Trip => if (trip_rider p.2 =? rider) && (se_trip_window env <=? trip_requested_at p.2)
                                          then trip_node (Some p.2) else None) (map_to_list (se_trips env)) in
  let ids := recent ++ from_option (fun c => [c]) [] (se_rider_home env rider) in
  if bool_decide (ids = [])
  then match country_of_phone (chars <$> se_phone env rider) with
       | None => []
       | Some c => from_option (fun p => [p]) [] (List.find (fun p : Z * GeoRow =>
                     bool_decide (g_kind p.2 = KCountry) && bool_decide (g_code p.2 = country_code c)) (map_to_list (nodes (se_access env))))
       end
  else omap (fun i => (fun n => (i, n)) <$> nodes (se_access env) !! i) ids.

(** [sorted(nodes, key=lambda n: (-len(n.path), n.code))[0]] *)
Definition deeper (a b : Z * GeoRow) : bool :=
  (String.length (g_path b.2) <? String.length (g_path a.2))%nat ||
  ((String.length (g_path b.2) =? String.length (g_path a.2))%nat && String.ltb (g_code a.2) (g_code b.2)).

Definition rider_anchor (env : SafetyEnv) (rider : Z) : option Z * anchor_source :=
  if negb (se_is_rider env rider) then (None, AnchorUnanchored)
  else match best_by deeper (anchor_nodes env rider) with
       | None => (None, AnchorUnanchored)
       | Some best => (Some best.1, if bool_decide (g_kind best.2 = KCountry) then AnchorRiderCountry else AnchorRider)
       end.

Definition resolve_incident_anchor (env : SafetyEnv) (trip : option Trip) (sos : option SosEvent) (driver rider : option Z)
    : option Z * anchor_source :=
  match trip_node trip with
  | Some n => (Some n, AnchorTrip)
  | None =>
    match sos with
    | Some e => match so_anchor e with Some n => (Some n, AnchorSos) | None => (None, AnchorUnanchored) end
    | None =>
      match (d ← driver; se_home_city env d) with
      | Some n => (Some n, AnchorDriverHome)
      | None => match rider with Some u => rider_anchor env u | None => (None, AnchorUnanchored) end
      end
    end
  end.

Definition country_for (env : SafetyEnv) (node : option Z) (trip : option Trip) (user : option Z) : string :=
  let code := country_of_node (node_of env node) in
  if negb (bool_decide (code = EmptyString)) then code
  else let zone := upper (from_option zone_country EmptyString (t ← trip; trip_zone t)) in
    if bool_decide (is_Some (registry_get zone)) then zone
    else match (u ← user; phone ← se_phone env u; country_of_phone (Some (chars phone))) with
         | Some c => country_code c
         | None => EmptyString
         end.

(** ** Timeline and links *)

Definition add_update (i : Z) (kind : update_kind) (actor : option Z) (from to : option incident_status) (note key : string) (now : Z)
    (s : SafetyDb) : SafetyDb :=
  push_update {| up_incident := i; up_kind := kind; up_actor := actor; up_from := from; up_to := to;
                 up_note := truncated 10000 note; up_key := truncated 120 key; up_at := now |} s.

Definition is_link (i : Z) (kind : link_kind) (target : Z) (l : IncidentLink) : bool :=
  (lk_incident l =? i) && bool_decide (lk_kind l = kind) && (lk_target l =? target).

(** [_add_link] ([get_or_create]): whether it was created. *)
Definition add_link (i : Z) (kind : link_kind) (target : Z) (actor : option Z) (s : SafetyDb) : bool * SafetyDb :=
  if existsb (is_link i kind target) (links s) then (false, s)
  else (true, set_links (links s ++ [{| lk_incident := i; lk_kind := kind; lk_target := target; lk_by := actor |}]) s).

Definition linked (i : Z) (kind : link_kind) (target : Z) (actor : option Z) (s : SafetyDb) : SafetyDb := (add_link i kind target actor s).2.

Definition linked_opt (i : Z) (kind : link_kind) (target : option Z) (actor : option Z) (s : SafetyDb) : SafetyDb :=
  match target with Some x => linked i kind x actor s | None => s end.

(** The three halves of [_link_people] and of the end of [open_incident]. *)
Definition link_trip (i : Z) (trip : option Trip) (actor : option Z) (s : SafetyDb) : SafetyDb :=
  match trip with
  | Some t => linked_opt i LinkDriver (trip_driver t) actor
                (linked i LinkRider (trip_rider t) actor (linked i LinkTrip (trip_id t) actor s))
  | None => s
  end.

Definition link_user (env : SafetyEnv) (i : Z) (user actor : option Z) (s : SafetyDb) : SafetyDb :=
  match user with
  | Some u => match se_driver_of env u with
              | Some d => linked i LinkDriver d actor s
              | None => if se_is_rider env u then linked i LinkRider u actor s else s
              end
  | None => s
  end.

Definition link_rider (env : SafetyEnv) (i : Z) (rider actor : option Z) (s : SafetyDb) : SafetyDb :=
  match rider with Some u => if se_is_rider env u then linked i LinkRider u actor s else s | None => s end.

Definition link_people (env : SafetyEnv) (i : Z) (trip : option Trip) (user actor : option Z) (s : SafetyDb) : SafetyDb :=
  link_user env i user actor (link_trip i trip actor s).

(** ** Opening *)

Definition is_live (x : Incident) : bool := negb (bool_decide (in_status x = Closed)).

Definition live_on (trip : Z) (x : Incident) : bool := bool_decide (in_trip x = Some trip) && is_live x.

Definition later_incident (a b : Z * Incident) : bool := in_opened_at b.2 <? in_opened_at a.2.

Definition open_incident_for_trip (trip : option Trip) (s : SafetyDb) : option (Z * Incident) :=
  t ← trip; best_by later_incident (List.filter (fun p : Z * Incident => live_on (trip_id t) p.2) (map_to_list (incidents s))).

Definition source_code (x : incident_source) : string :=
  match x with SrcSos => "sos" | SrcTicket => "support_ticket" | SrcSignal => "signal" | SrcManual => "manual" end.

Definition raise_severity (i : Z) (x : Incident) (severity : incident_severity) (reason : string) (now : Z) (s : SafetyDb) : SafetyDb :=
  if SEVERITY_RANK severity <? SEVERITY_RANK (in_severity x)
  then add_update i UNote None None None reason EmptyString now (update_incident i (with_severity severity) s)
  else s.

(** The arguments of [open_incident]; a ticket is its id and its user. *)
Record Opening := {
  op_source : incident_source;
  op_category : string;
  op_severity : incident_severity;
  op_title : string;
  op_trip : option Trip;
  op_sos : option SosEvent;
  op_driver : option Z;
  op_rider : option Z;
  op_ticket : option (Z * Z);
  op_actor : option Z;
  op_note : string
}.

(** The case that is joined, with the severity of the row that was read. *)
Definition join_incident (o : Opening) (p : Z * Incident) (now : Z) (s : SafetyDb) : Z * bool * SafetyDb :=
  (p.1, false, raise_severity p.1 p.2 (op_severity o) ("Severity raised by " +:+ source_code (op_source o) +:+ ".") now s).

(** The incident and whether it was created.  The open case of the trip is looked for without a
    lock; the unique index on it refuses a second one when the row is written, and the
    transaction then joins the winner, or raises (None) if there is no winner any more. *)
Definition open_incident (env : SafetyEnv) (o : Opening) (rd : Reads) (now : Z) (s : SafetyDb) : option (Z * bool * SafetyDb) :=
  match open_incident_for_trip (op_trip o) (rd_open rd) with
  | Some p => Some (join_incident o p now s)
  | None =>
    match open_incident_for_trip (op_trip o) s with
    | Some _ => (fun p => join_incident o p now s) <$> open_incident_for_trip (op_trip o) (rd_winner rd)
    | None =>
      let '(node, source) := resolve_incident_anchor env (op_trip o) (op_sos o) (op_driver o) (op_rider o) in
      let person := match op_rider o with
        | Some u => Some u
        | None => match op_driver o with Some d => Some (se_driver_user env d) | None => snd <$> op_ticket o end
        end in
      let i := incident_next s in
      let s := insert_incident
        {| in_category := op_category o; in_severity := op_severity o; in_status := Opened; in_source := op_source o;
           in_title := truncated 200 (op_title o); in_trip := trip_id <$> op_trip o; in_anchor := node; in_anchor_source := source;
           in_country := country_for env node (op_trip o) person; in_assigned := None; in_opened_by := op_actor o; in_opened_at := now;
           in_closed_at := None; in_outcome := EmptyString; in_summary := EmptyString; in_police_at := None;
           in_police_reference := EmptyString; in_escalated_at := None |} s in
      let s := add_update i UOpened (op_actor o) None (Some Opened) (op_note o) EmptyString now s in
      let s := link_people env i (op_trip o) None (op_actor o) s in
      let s := link_rider env i (op_rider o) (op_actor o) (linked_opt i LinkDriver (op_driver o) (op_actor o) s) in
      Some (i, true, linked_opt i LinkTicket (fst <$> op_ticket o) (op_actor o) s)
    end
  end.

(** ** Alarms *)

Definition SOS_MAPPING : list (string * (string * incident_severity)) := [
  ("panic", ("other", Critical)); ("medical", ("medical", Critical)); ("accident", ("accident", Critical));
  ("harassment", ("harassment", High)); ("vehicle_breakdown", ("other", Medium)); ("other", ("other", High))].

Definition sos_mapping (type : string) : string * incident_severity := default ("other", High) (table_get SOS_MAPPING type).

Definition trip_of (env : SafetyEnv) (trip : option Z) : option Trip := t ← trip; se_trips env !! t.

(** [attach_sos]; None when opening the case raised. *)
Definition attach_sos (env : SafetyEnv) (e : Z) (x : SosEvent) (rd : Reads) (now : Z) (s : SafetyDb) : option SafetyDb :=
  let '(category, severity) := sos_mapping (so_type x) in
  let trip := trip_of env (so_trip x) in
  let rider := u ← so_user x; if se_is_rider env u then Some u else None in
  let title := "SOS (" +:+ so_type x +:+ ")" +:+ match so_trip x with Some t => " on trip " +:+ number t | None => EmptyString end in
  r ← open_incident env
    {| op_source := SrcSos; op_category := category; op_severity := severity; op_title := title; op_trip := trip; op_sos := Some x;
       op_driver := u ← so_user x; se_driver_of env u; op_rider := rider; op_ticket := None; op_actor := None; op_note := EmptyString |} rd now s;
  let '(i, created, s) := (r : Z * bool * SafetyDb) in
  let s := update_event e (with_incident i) s in
  let s := linked i LinkSos e None s in
  let s := link_people env i trip (so_user x) None s in
  Some (add_update i USos None None None
    ("SOS #" +:+ number e +:+ " (" +:+ so_type x +:+ ") raised" +:+
     (if created then EmptyString else ": joined the open incident for this trip")) EmptyString now s).

(** [attach_sos_safely]: an exception inside, if there is one, leaves the tables as they were. *)
Definition attach_sos_safely (fails : bool) (env : SafetyEnv) (e : Z) (rd : Reads) (now : Z) (s : SafetyDb) : bool * SafetyDb :=
  match sos_events s !! e with
  | Some x => if fails then (false, s) else match attach_sos env e x rd now s with Some s' => (true, s') | None => (false, s) end
  | None => (false, s)
  end.

Definition sos_active (st : sos_status) : bool := bool_decide (st = SosOpen) || bool_decide (st = SosAcknowledged).

(** A pass with nothing beside it. *)
Definition backfill_sos_incidents (fails : Z -> bool) (env : SafetyEnv) (now : Z) (limit : nat) (s : SafetyDb) : Z * SafetyDb :=
  let rows := take limit (merge_sort Z.le (fst <$> List.filter (fun p : Z * SosEvent => bool_decide (so_incident p.2 = None) && sos_active (so_status p.2))
                                             (map_to_list (sos_events s)))) in
  foldl (fun '(n, s) e => let '(ok, s) := attach_sos_safely (fails e) env e (reads_now s) now s in ((if ok then n + 1 else n), s)) (0, s) rows.

(** [resolve_anchor] of [servers/sos/anchoring.py] *)
Definition resolve_anchor (env : SafetyEnv) (trip : option Trip) (lat lng : option Q) (user : option Z) : option Z * sos_anchor :=
  match trip_node trip with
  | Some n => (Some n, SosTrip)
  | None =>
    match (if bool_decide (lat = None) || bool_decide (lng = None) then None
           else head (omap (fun z => node_id <$> zone_geo_node z) (se_zones_at env lat lng))) with
    | Some n => (Some n, SosGps)
    | None => match (u ← user; d ← se_driver_of env u; se_home_city env d) with
              | Some n => (Some n, SosHomeCity)
              | None => (None, SosUnanchored)
              end
    end
  end.

Definition SOS_UNANCHORED : string := "sos_unanchored".
Definition SAFETY_SOS_ESCALATED : string := "safety_sos_escalated".
Definition SAFETY_INCIDENT_UNASSIGNED : string := "safety_incident_unassigned".
Definition SAFETY_SIGNAL : string := "safety_signal".

Definition payload (l : list (string * string)) : gmap string string := list_to_map l.

Definition py_bool (b : bool) : string := if b then "True" else "False".

Definition place_of (env : SafetyEnv) (node : option Z) : option Place :=
  (fun n => {| place_kind := g_kind n; place_active := bool_decide (g_status n = ACTIVE) |}) <$> node_of env node.

Definition raise_on (kind title : string) (sev : severity) (data : list (string * string)) (st sid : string) (city : option Place)
    (s : SafetyDb) : SafetyDb :=
  set_alerts (raise_alert (sf_alerts s) kind title sev (payload data) st sid city).2 s.

Definition clear_on (st : string) (sid : Z) (note : string) (kinds : list string) (now : Z) (s : SafetyDb) : SafetyDb :=
  set_alerts (clear_alerts (sf_alerts s) st (number sid) note kinds now).2 s.

Definition alert_unanchored (e : Z) (x : SosEvent) (s : SafetyDb) : SafetyDb :=
  raise_on SOS_UNANCHORED "An SOS could not be routed to a city" CRITICAL
    [("sos_id", number e); ("initiated_by", so_initiated_by x); ("event_type", so_type x);
     ("has_location", py_bool (negb (bool_decide (so_lat x = None)) && negb (bool_decide (so_lng x = None))))]
    "sos_event" (number e) None s.

(** [SOSEvent.save] of a new row whose anchor is not given. *)
Definition save_event (fails : bool) (env : SafetyEnv) (x : SosEvent) (rd : Reads) (now : Z) (s : SafetyDb) : Z * SafetyDb :=
  let e := sos_next s in
  let s := insert_event x s in
  let s := if bool_decide (so_anchor_source x = SosUnanchored) then alert_unanchored e x s else s in
  (e, (attach_sos_safely fails env e rd now s).2).

Definition SOS_DEDUPE_WINDOW_SECONDS : Z := 120.
Definition SECOND : Z := 1000000.
Definition MINUTE : Z := 60 * SECOND.

Definition EVENT_TYPES : list string := ["panic"; "vehicle_breakdown"; "medical"; "harassment"; "accident"; "other"].

Record SosRequest := {
  sr_user : Z;
  sr_role : string;
  sr_type : option string;
  sr_trip : option Z;
  sr_lat : option Q;
  sr_lng : option Q;
  sr_note : string
}.

Inductive sos_answer := InvalidRole | TripNotFound | RepeatOf (e : Z) | Recorded (e : Z).

Definition later_event (a b : Z * SosEvent) : bool := so_created b.2 <? so_created a.2.

Definition event_type_of (rq : SosRequest) : string :=
  let t := truncated 32 (if truthy (sr_type rq) then default EmptyString (sr_type rq) else "panic") in
  if bool_decide (t ∈ EVENT_TYPES) then t else "panic".

(** The caller's own trip, as its rider or its driver. *)
Definition own_trip (env : SafetyEnv) (user : Z) (trip : Z) : option Trip :=
  t ← se_trips env !! trip;
  if (trip_rider t =? user) || match trip_driver t with Some d => se_driver_user env d =? user | None => false end then Some t else None.

Definition repeats (rq : SosRequest) (trip : option Z) (type : string) (now : Z) (x : SosEvent) : bool :=
  bool_decide (so_user x = Some (sr_user rq)) && bool_decide (so_trip x = trip) && bool_decide (so_type x = type) &&
  bool_decide (so_status x = SosOpen) && (now - SOS_DEDUPE_WINDOW_SECONDS * SECOND <=? so_created x).

(** [raise_sos] *)
Definition raise_sos (fails : bool) (env : SafetyEnv) (rq : SosRequest) (rd : Reads) (now : Z) (s : SafetyDb) : sos_answer * SafetyDb :=
  if negb (bool_decide (sr_role rq ∈ ["rider"; "driver"])) then (InvalidRole, s)
  else
    let asked := match sr_trip rq with Some t => if t =? 0 then None else Some t | None => None end in
    let trip := t ← asked; own_trip env (sr_user rq) t in
    if negb (bool_decide (asked = None)) && bool_decide (trip_id <$> trip = None) then (TripNotFound, s)
    else
      let type := event_type_of rq in
      match best_by later_event (List.filter (fun p : Z * SosEvent => repeats rq (trip_id <$> trip) type now p.2) (map_to_list (sos_events s))) with
      | Some p => (RepeatOf p.1, s)
      | None =>
        let '(anchor, source) := resolve_anchor env trip (sr_lat rq) (sr_lng rq) (Some (sr_user rq)) in
        let '(e, s) := save_event fails env
          {| so_user := Some (sr_user rq); so_initiated_by := sr_role rq; so_trip := trip_id <$> trip; so_type := type; so_status := SosOpen;
             so_lat := sr_lat rq; so_lng := sr_lng rq; so_note := truncated 10000 (sr_note rq); so_mistake_at := None; so_anchor := anchor;
             so_anchor_source := source; so_incident := None; so_escalated_at := None; so_created := now |} rd now s in
        (Recorded e, s)
      end.

(** ** Who sees a case *)

Definition CAPABILITY : string := "safety.respond".

Definition holds (db : AccessDb) (u : User) (permission : string) (node : option GeoRow) : bool :=
  match granted db u permission node with Ok g => g.1 | Err _ => false end.

(** [unrestricted] of [servers/rider/scope.py] *)
Definition unrestricted (db : AccessDb) (u : User) : bool :=
  (negb (strict_mode db) && negb (is_migrated db u)) || bool_decide (scope_paths db u = None).

(** The scope paths, None for everywhere. *)
Definition paths_of (db : AccessDb) (u : User) (node : option GeoRow) : option (list string) :=
  match node with
  | Some n => Some [g_path n]
  | None => if unrestricted db u then None else Some (default [] (scope_paths db u))
  end.

(** [_ancestor_prefixes] *)
Definition ancestor_prefixes (path : string) : list string :=
  let parts := List.filter (fun p => negb (bool_decide (p = EmptyString))) (path_parts [] (chars path)) in
  let lead := if bool_decide (head (chars path) = Some "/"%char) then "/" else EmptyString in
  (fun i => lead +:+ String.concat "/" (take (S i) parts) +:+ "/") <$> seq 0 (length parts).

(** The filter of [incidents_visible_to] *)
Definition sees_incident (env : SafetyEnv) (u : User) (node : option GeoRow) (x : Incident) : bool :=
  match paths_of (se_access env) u node with
  | None => true
  | Some [] => false
  | Some paths =>
    bool_decide (in_anchor_source x = AnchorUnanchored) ||
    match node_of env (in_anchor x) with
    | Some n => existsb (fun p => String.prefix p (g_path n)) paths ||
                (bool_decide (in_anchor_source x = AnchorRiderCountry) && existsb (fun p => bool_decide (g_path n ∈ ancestor_prefixes p)) paths)
    | None => false
    end
  end.

Definition related (a b : string) : bool := String.prefix b a || String.prefix a b.

Definition incident_may (env : SafetyEnv) (u : User) (permission : string) (x : Incident) : bool :=
  let db := se_access env in
  match in_anchor x with
  | None => holds db u permission None
  | Some i =>
    let node := nodes db !! i in
    if negb (bool_decide (in_anchor_source x = AnchorRiderCountry)) then holds db u permission node
    else if u_superuser u || unrestricted db u then holds db u permission None
    else if negb (strict_mode db) && negb (is_migrated db u) then holds db u permission None
    else existsb (fun a => bool_decide (permission ∈ r_permissions a.1) &&
                           match node with Some n => related (g_path n) (g_path a.2) | None => false end) (active_assignments db u)
  end.

(** [_operators_holding]: the accounts with an active assignment that carries the permission there. *)
Definition operators_holding (db : AccessDb) (permission : string) (node : option GeoRow) : list User :=
  List.filter (fun u => u_active u && u_staff u && negb (u_break_glass u) &&
    existsb (fun a => (as_admin a =? uid u) && as_active a &&
      match joined db a with
      | Some (r, n) => r_active r && bool_decide (permission ∈ r_permissions r) &&
                       (bool_decide (node = None) || covers n node)
      | None => false
      end) (assignment_rows db)) (snd <$> map_to_list (users db)).

Definition responders_for (db : AccessDb) (node : option GeoRow) : list User := operators_holding db CAPABILITY node.

Definition eligible_responder (env : SafetyEnv) (candidate : option User) (x : Incident) : bool :=
  match candidate with
  | Some u => u_active u && is_operator (Some u) && negb (u_break_glass u) && incident_may env u CAPABILITY x
  | None => false
  end.

(** The queue of [scoped(user, SOSEvent)]. *)
Definition sees_event (env : SafetyEnv) (u : User) (x : SosEvent) : bool :=
  let path n := g_path <$> node_of env n in
  negb (bool_decide (length (scoped (se_access env) u [x]
    (fun x => [path (so_anchor x); path (trip_node (trip_of env (so_trip x)))])
    (fun x => bool_decide (so_anchor_source x = SosUnanchored))) = 0%nat)).

(** ** Working an alarm *)

Definition sos_status_text (st : sos_status) : string :=
  match st with SosOpen => "open" | SosAcknowledged => "acknowledged" | SosResolved => "resolved" | SosFalseAlarm => "false alarm" end.

Definition events_of (i : Z) (s : SafetyDb) : list (Z * SosEvent) :=
  List.filter (fun p : Z * SosEvent => bool_decide (so_incident p.2 = Some i)) (map_to_list (sos_events s)).

(** [_clear_sos_alerts] *)
Definition clear_sos_alerts (e : Z) (incident : option Z) (now : Z) (s : SafetyDb) : SafetyDb :=
  let s := clear_on "sos_event" e "Taken by a responder" [] now s in
  match incident with
  | Some i => if existsb (fun p : Z * SosEvent => bool_decide (so_status p.2 = SosOpen)) (events_of i s) then s
              else clear_on "safety_incident" i "Taken by a responder" [SAFETY_SOS_ESCALATED; SOS_UNANCHORED] now s
  | None => s
  end.

(** Another case of the same trip is open: the unique index refuses to make this one live. *)
Definition trip_taken (i : Z) (s : SafetyDb) : bool :=
  match (x ← incidents s !! i; in_trip x) with
  | Some t => existsb (fun p : Z * Incident => negb (p.1 =? i) && live_on t p.2) (map_to_list (incidents s))
  | None => false
  end.

(** The status of the case is the one of the row that was read ([seen]), which nothing locks; the
    save writes the column whatever it is by then.  None when the index refuses it. *)
Definition note_on_sos_transition (e : Z) (incident : option Z) (st : sos_status) (actor : option Z) (note : string) (seen : SafetyDb) (now : Z)
    (s : SafetyDb) : option SafetyDb :=
  let s := if bool_decide (st = SosOpen) then s else clear_sos_alerts e incident now s in
  match incident with
  | None => Some s
  | Some i =>
    let s := add_update i USos actor None None ("SOS alert " +:+ sos_status_text st +:+ (if truthy (Some note) then ": " +:+ note else EmptyString))
               EmptyString now s in
    if bool_decide (st = SosAcknowledged) && bool_decide (in_status <$> incidents seen !! i = Some Opened)
    then if trip_taken i s then None
         else Some (add_update i UStatus actor (Some Opened) (Some Investigating) "SOS acknowledged" EmptyString now
                      (update_incident i (with_status Investigating) s))
    else Some s
  end.

Inductive transition_answer := NoEvent | Unchanged | AlreadyResolved | Moved | Raised.

(** [_apply_transition]; a refused save undoes it and is answered as an error. *)
Definition apply_transition (e : Z) (target : sos_status) (actor : option Z) (note : string) (refuse_if_resolved : bool) (seen : SafetyDb) (now : Z)
    (s : SafetyDb) : transition_answer * SafetyDb :=
  match sos_events s !! e with
  | None => (NoEvent, s)
  | Some x =>
    if bool_decide (so_status x = target) then (Unchanged, s)
    else if refuse_if_resolved && bool_decide (so_status x = SosResolved) then (AlreadyResolved, s)
    else
      match note_on_sos_transition e (so_incident x) target actor note seen now
              (push_sos_update {| su_event := e; su_actor := actor; su_status := target; su_note := note; su_at := now |}
                (update_event e (with_sos_status target) s)) with
      | Some s' => (Moved, s')
      | None => (Raised, s)
      end
  end.

Inductive refusal := NotFound | Denied | IncidentClosed | BadInput (code : string) | Conflict (code : string) | InternalError.

#[global] Instance refusal_eq_dec : EqDecision refusal.
Proof. solve_decision. Defined.

(** [_admin_transition], behind the permission class of its three endpoints. *)
Definition admin_transition (env : SafetyEnv) (u : User) (e : Z) (target : sos_status) (note : string) (seen case : SafetyDb) (now : Z)
    (s : SafetyDb) : res refusal bool * SafetyDb :=
  let note := truncated 10000 note in
  if negb (holds (se_access env) u CAPABILITY None) then (Err Denied, s)
  else match sos_events seen !! e with
  | None => (Err NotFound, s)
  | Some x =>
    if negb (sees_event env u x) then (Err NotFound, s)
    else if bool_decide (target = SosFalseAlarm) && bool_decide (strip note = EmptyString) then (Err (BadInput "REASON_REQUIRED"), s)
    else match apply_transition e target (Some (uid u)) note false case now s with
         | (NoEvent, s) => (Err NotFound, s)
         | (AlreadyResolved, s) => (Err (Conflict "SOS_ALREADY_RESOLVED"), s)
         | (Unchanged, s) => (Ok false, s)
         | (Moved, s) => (Ok true, s)
         | (Raised, s) => (Err InternalError, s)
         end
  end.

Definition RAISER_MISTAKE_NOTE : string :=
  "Rider reports false alarm: the person who raised this alert says it was a mistake. An operator must confirm.".

(** [raiser_mistake_sos]: whether the report is on record. *)
Definition raiser_mistake_sos (user e : Z) (case : SafetyDb) (now : Z) (s : SafetyDb) : res refusal bool * SafetyDb :=
  match sos_events s !! e with
  | None => (Err NotFound, s)
  | Some x =>
    if negb (bool_decide (so_user x = Some user)) then (Err NotFound, s)
    else match so_status x with
    | SosResolved => (Err (Conflict "SOS_ALREADY_RESOLVED"), s)
    | SosFalseAlarm => (Ok false, s)
    | st =>
      if bool_decide (so_mistake_at x = None)
      then match note_on_sos_transition e (so_incident x) st (Some user) RAISER_MISTAKE_NOTE case now
                   (push_sos_update {| su_event := e; su_actor := Some user; su_status := st; su_note := RAISER_MISTAKE_NOTE; su_at := now |}
                     (update_event e (with_mistake now) s)) with
           | Some s' => (Ok true, s')
           | None => (Err InternalError, s)
           end
      else (Ok true, s)
    end
  end.

(** ** Working a case *)

(** The ids of [close_blockers]. *)
Definition close_blockers (i : Z) (s : SafetyDb) : list Z :=
  fst <$> List.filter (fun p : Z * SosEvent => sos_active (so_status p.2)) (events_of i s).

Definition close_incident (i : Z) (x : Incident) (actor : option Z) (summary outcome : string) (now : Z) (s : SafetyDb) : SafetyDb :=
  let s := update_incident i (with_closed now outcome summary) s in
  let s := add_update i UClosed actor (Some (in_status x)) (Some Closed) summary EmptyString now s in
  let s := clear_on "safety_incident" i "Case closed" [] now s in
  foldl (fun s e => clear_on "sos_event" e "Case closed" [] now s) s (fst <$> events_of i s).

Definition actor_label (u : User) : string := truncated 255 (u_label u).

Definition assign (i : Z) (assignee : option User) (actor : option Z) (now : Z) (s : SafetyDb) : SafetyDb :=
  let s := update_incident i (with_assigned (uid <$> assignee)) s in
  let s := add_update i UAssigned actor None None
             (match assignee with Some u => "Assigned to " +:+ actor_label u | None => "Unassigned" end) EmptyString now s in
  match assignee with
  | Some u => clear_on "safety_incident" i ("Assigned to " +:+ actor_label u) [SAFETY_INCIDENT_UNASSIGNED] now s
  | None => s
  end.

Definition refer_to_police (i : Z) (x : Incident) (actor : option Z) (reference note : string) (now : Z) (s : SafetyDb) : SafetyDb :=
  let s := update_incident i (with_police now reference) s in
  let s := match in_status x with
    | Opened | Investigating =>
      add_update i UStatus actor (Some (in_status x)) (Some ActionTaken) "Referred to police" EmptyString now
        (update_incident i (with_status ActionTaken) s)
    | _ => s
    end in
  add_update i UPolice actor None None (if truthy (Some note) then note else "Marked as referred to police") EmptyString now s.

Definition link_kind_code (k : link_kind) : string :=
  match k with LinkDriver => "driver" | LinkRider => "rider" | LinkTrip => "trip" | LinkTicket => "ticket" | LinkSos => "sos" end.

Definition link_added (i : Z) (kind : link_kind) (target : Z) (actor : option Z) (now : Z) (s : SafetyDb) : bool * SafetyDb :=
  let '(created, s) := add_link i kind target actor s in
  (created, if created then add_update i ULink actor None None ("Linked " +:+ link_kind_code kind +:+ " " +:+ number target) EmptyString now s else s).

Definition link_removed (i : Z) (kind : link_kind) (target : Z) (actor : option Z) (now : Z) (s : SafetyDb) : bool * SafetyDb :=
  if existsb (is_link i kind target) (links s)
  then (true, add_update i UUnlink actor None None ("Unlinked " +:+ link_kind_code kind +:+ " " +:+ number target) EmptyString now
                (set_links (List.filter (fun l => negb (is_link i kind target l)) (links s)) s))
  else (false, s).

Definition unlink_allowed (kind : link_kind) (x : Incident) (target : Z) : bool :=
  match kind with
  | LinkSos => false
  | LinkTrip => negb (bool_decide (in_trip x = Some target))
  | _ => true
  end.

(** [open_from_ticket] *)
Definition open_from_ticket (env : SafetyEnv) (ticket user : Z) (trip : option Trip) (actor : Z) (note : string) (rd : Reads) (now : Z) (s : SafetyDb)
    : option (Z * bool * SafetyDb) :=
  r ← open_incident env
    {| op_source := SrcTicket; op_category := "other"; op_severity := High; op_title := "Safety ticket " +:+ number ticket; op_trip := trip;
       op_sos := None; op_driver := se_driver_of env user; op_rider := if se_is_rider env user then Some user else None;
       op_ticket := Some (ticket, user); op_actor := Some actor; op_note := note |} rd now s;
  let '(i, created, s) := (r : Z * bool * SafetyDb) in
  if (created : bool) then Some (i, created, s)
  else Some (i, created, add_update i ULink (Some actor) None None ("Support ticket " +:+ number ticket +:+ " escalated into this incident") EmptyString now
                      (linked i LinkTicket ticket (Some actor) s)).

Definition signal_text (k : signal_kind) : string :=
  match k with LongStop => "Long stop" | EtaOverrun => "ETA overrun" | RouteDeviation => "Route deviation" end.

Definition signal_code (k : signal_kind) : string :=
  match k with LongStop => "long_stop" | EtaOverrun => "eta_overrun" | RouteDeviation => "route_deviation" end.

(** [open_from_signal] *)
Definition open_from_signal (env : SafetyEnv) (g : Signal) (t : Trip) (rd : Reads) (now : Z) (s : SafetyDb) : option (Z * bool * SafetyDb) :=
  r ← open_incident env
    {| op_source := SrcSignal; op_category := signal_code (sg_kind g); op_severity := High;
       op_title := signal_text (sg_kind g) +:+ " on trip " +:+ number (trip_id t); op_trip := Some t;
       op_sos := None; op_driver := trip_driver t; op_rider := None; op_ticket := None; op_actor := None; op_note := EmptyString |} rd now s;
  let '(i, created, s) := (r : Z * bool * SafetyDb) in
  Some (i, created, add_update i USignal None None None (signal_text (sg_kind g) +:+ " detected") EmptyString now s).

(** ** The console's writes *)

(** [_text] of [servers/ride/admin_trips.py] *)
Definition text_of (name : string) (required : bool) (limit : nat) (raw : option string) : res refusal string :=
  let value := strip (default EmptyString raw) in
  if required && bool_decide (value = EmptyString) then Err (BadInput (upper name +:+ "_REQUIRED"))
  else if (limit <? String.length value)%nat then Err (BadInput "TOO_LONG") else Ok value.

Definition MAX_NOTE : nat := 5000.

Definition OUTCOME_CODES : list string := ["no_action"; "warning"; "driver_suspended"; "rider_blocked"; "police_referral"; "other"].

(** [_incident_for], behind the permission class. *)
Definition incident_for (env : SafetyEnv) (u : User) (i : Z) (writable : bool) (seen : SafetyDb) : res refusal Incident :=
  let* _ := require (holds (se_access env) u CAPABILITY None) Denied in
  let* x := res_opt NotFound (incidents seen !! i) in
  let* _ := require (sees_incident env u None x) NotFound in
  let* _ := require (incident_may env u CAPABILITY x) Denied in
  let* _ := require (negb writable || is_live x) IncidentClosed in
  Ok x.

(** The answer of a handler and the tables after it. *)
Notation outcome_of := (res refusal bool * SafetyDb)%type.

(** [transaction.atomic] around a body that starts by locking the case. *)
Definition locked (i : Z) (s : SafetyDb) (body : Incident -> outcome_of) : outcome_of :=
  match incidents s !! i with None => (Err NotFound, s) | Some x => body x end.

Definition locked_live (i : Z) (s : SafetyDb) (body : Incident -> outcome_of) : outcome_of :=
  locked i s (fun x => if is_live x then body x else (Err IncidentClosed, s)).

(** A handler: the checks that may refuse, then the writes. *)
Definition after {A : Type} (checks : res refusal A) (s : SafetyDb) (k : A -> outcome_of) : outcome_of :=
  match checks with Err e => (Err e, s) | Ok a => k a end.

Inductive assignee_target := Me | Nobody | Person (id : Z).

Definition safety_assign (env : SafetyEnv) (u : User) (i : Z) (target : assignee_target) (seen : SafetyDb) (now : Z) (s : SafetyDb) : outcome_of :=
  after (let* x := incident_for env u i true seen in
         match target with
         | Nobody => Ok None
         | _ => let person := match target with Person id => users (se_access env) !! id | _ => Some u end in
                let* _ := require (eligible_responder env person x) (BadInput "ASSIGNEE_NOT_ELIGIBLE") in Ok person
         end) s
    (fun person => locked_live i s (fun x =>
       if bool_decide (in_assigned x = uid <$> person) then (Ok false, s) else (Ok true, assign i person (Some (uid u)) now s))).

Definition safety_note (env : SafetyEnv) (u : User) (i : Z) (body key : option string) (seen : SafetyDb) (now : Z) (s : SafetyDb) : outcome_of :=
  after (let* _ := incident_for env u i true seen in text_of "body" true MAX_NOTE body) s
    (fun text =>
       let key := truncated 120 (strip (default EmptyString key)) in
       if truthy (Some key) && existsb (fun p => (up_incident p =? i) && bool_decide (up_key p = key)) (updates s) then (Ok false, s)
       else (Ok true, add_update i UNote (Some (uid u)) None None text key now s)).

Definition safety_set_status (env : SafetyEnv) (u : User) (i : Z) (wanted : incident_status) (note : option string) (seen : SafetyDb) (now : Z)
    (s : SafetyDb) : outcome_of :=
  after (let* _ := incident_for env u i true seen in
         let* text := text_of "note" false MAX_NOTE note in
         let* _ := require (negb (bool_decide (wanted = Closed))) (BadInput "USE_CLOSE") in Ok text) s
    (fun text => locked_live i s (fun x =>
       if bool_decide (in_status x = wanted) then (Ok false, s)
       else (Ok true, add_update i UStatus (Some (uid u)) (Some (in_status x)) (Some wanted) text EmptyString now
                        (update_incident i (with_status wanted) s)))).

(** [_target]: what the caller may link. *)
Definition target_of (env : SafetyEnv) (u : User) (kind : link_kind) (id : Z) (seen : SafetyDb) : res refusal unit :=
  require (match kind with
           | LinkSos => match sos_events seen !! id with Some x => sees_event env u x | None => false end
           | _ => se_sees env u kind id
           end) (BadInput "TARGET_NOT_FOUND").

(** The alarm is free, or already of this case. *)
Definition sos_is_free (e : Z) (i : option Z) (seen : SafetyDb) : bool :=
  match sos_events seen !! e with
  | Some x => bool_decide (so_incident x = None) || bool_decide (so_incident x = i)
  | None => true
  end.

Definition safety_link (env : SafetyEnv) (u : User) (i : Z) (kind : link_kind) (id : Z) (seen : SafetyDb) (now : Z) (s : SafetyDb) : outcome_of :=
  after (let* _ := incident_for env u i true seen in
         let* _ := target_of env u kind id seen in
         require (negb (bool_decide (kind = LinkSos)) || sos_is_free id (Some i) seen) (Conflict "SOS_HAS_INCIDENT")) s
    (fun _ => locked_live i s (fun _ =>
       let '(created, s) := link_added i kind id (Some (uid u)) now s in
       (Ok created, if bool_decide (kind = LinkSos) then update_event id (with_incident i) s else s))).

Definition safety_unlink (env : SafetyEnv) (u : User) (i : Z) (kind : link_kind) (id : Z) (seen : SafetyDb) (now : Z) (s : SafetyDb) : outcome_of :=
  after (let* x := incident_for env u i true seen in require (unlink_allowed kind x id) (Conflict "UNLINK_REFUSED")) s
    (fun _ => locked_live i s (fun _ => let '(removed, s) := link_removed i kind id (Some (uid u)) now s in (Ok removed, s))).

(** [_after_action]: what a suspension or a block taken from a case leaves on it. *)
Definition after_action (i : Z) (actor : Z) (summary : string) (now : Z) (s : SafetyDb) : SafetyDb :=
  match incidents s !! i with
  | None => s
  | Some x =>
    let s := add_update i UAction (Some actor) None None summary EmptyString now s in
    match in_status x with
    | Opened | Investigating =>
      add_update i UStatus (Some actor) (Some (in_status x)) (Some ActionTaken) summary EmptyString now (update_incident i (with_status ActionTaken) s)
    | _ => s
    end
  end.

Definition safety_refer_police (env : SafetyEnv) (u : User) (i : Z) (reference note : option string) (seen : SafetyDb) (now : Z) (s : SafetyDb)
    : outcome_of :=
  after (let* _ := incident_for env u i true seen in
         let* reference := text_of "reference" false 120 reference in
         let* note := text_of "note" false MAX_NOTE note in Ok (reference, note)) s
    (fun t => locked_live i s (fun x =>
       if bool_decide (in_police_at x = None) then (Ok true, refer_to_police i x (Some (uid u)) t.1 t.2 now s) else (Ok false, s))).

Definition outcome_text (outcome : option string) : res refusal string :=
  let* outcome := text_of "outcome" true 20 outcome in
  let* _ := require (bool_decide (outcome ∈ OUTCOME_CODES)) (BadInput "INVALID_OUTCOME") in Ok outcome.

Definition safety_close (env : SafetyEnv) (u : User) (i : Z) (summary outcome : option string) (seen : SafetyDb) (now : Z) (s : SafetyDb) : outcome_of :=
  after (let* _ := incident_for env u i false seen in
         let* summary := text_of "summary" true MAX_NOTE summary in
         let* outcome := outcome_text outcome in Ok (summary, outcome)) s
    (fun t => locked i s (fun x =>
       if negb (is_live x)
       then (if bool_decide (in_summary x = t.1) && bool_decide (in_outcome x = t.2) then Ok false else Err IncidentClosed, s)
       else if negb (bool_decide (close_blockers i s = [])) then (Err (Conflict "SOS_STILL_ACTIVE"), s)
       else (Ok true, close_incident i x (Some (uid u)) t.1 t.2 now s))).

(** [_transition_active_sos]: the alarms moved, of those the case had when they were listed; a
    refusal of one undoes them all. *)
Definition transition_active_sos (i : Z) (target : sos_status) (actor : option Z) (note : string) (only_open : bool) (rd : Reads) (now : Z)
    (s : SafetyDb) : res refusal (list Z * SafetyDb) :=
  let wanted st := if only_open then bool_decide (st = SosOpen) else sos_active st in
  foldl (fun acc (p : Z * SosEvent) =>
           let* (moved, s) := acc in
           match apply_transition p.1 target actor note false (rd_case rd p.1) now s with
           | (Unchanged, s) | (Moved, s) => Ok (moved ++ [p.1], s)
           | _ => Err (BadInput "SOS_TRANSITION_REFUSED")
           end) (Ok ([], s)) (List.filter (fun p : Z * SosEvent => wanted (so_status p.2)) (events_of i (rd_alarms rd))).

Definition safety_acknowledge (env : SafetyEnv) (u : User) (i : Z) (seen : SafetyDb) (rd : Reads) (now : Z) (s : SafetyDb) : outcome_of :=
  after (let* x := incident_for env u i true seen in
         let* t := transition_active_sos i SosAcknowledged (Some (uid u)) EmptyString true rd now s in Ok (x, t)) s
    (fun '(before, (moved, s')) =>
       match incidents s' !! i with
       | None => (Err NotFound, s)
       | Some x =>
         let opened := bool_decide (in_status x = Opened) in
         let st := if opened then Investigating else in_status x in
         (Ok (negb (bool_decide (moved = [])) || negb (bool_decide (in_status before = st))),
          if opened then add_update i UStatus (Some (uid u)) (Some Opened) (Some Investigating) "Acknowledged" EmptyString now
                           (update_incident i (with_status Investigating) s')
          else s')
       end).

(** [_finish]: it does not look again whether the case was closed meanwhile. *)
Definition finish (env : SafetyEnv) (u : User) (i : Z) (target : sos_status) (outcome summary : string) (seen : SafetyDb) (rd : Reads) (now : Z)
    (s : SafetyDb) : outcome_of :=
  after (let* _ := incident_for env u i true seen in transition_active_sos i target (Some (uid u)) summary false rd now s) s
    (fun '(_, s') =>
       match incidents s' !! i with
       | None => (Err NotFound, s)
       | Some x => if negb (bool_decide (close_blockers i s' = [])) then (Err (Conflict "SOS_STILL_ACTIVE"), s')
                   else (Ok true, close_incident i x (Some (uid u)) summary outcome now s')
       end).

Definition safety_resolve (env : SafetyEnv) (u : User) (i : Z) (summary outcome : option string) (seen : SafetyDb) (rd : Reads) (now : Z) (s : SafetyDb) : outcome_of :=
  after (let* summary := text_of "summary" true MAX_NOTE summary in let* outcome := outcome_text outcome in Ok (summary, outcome)) s
    (fun t => finish env u i SosResolved t.2 t.1 seen rd now s).

Definition safety_false_alarm (env : SafetyEnv) (u : User) (i : Z) (reason : option string) (seen : SafetyDb) (rd : Reads) (now : Z) (s : SafetyDb) : outcome_of :=
  after (text_of "reason" true MAX_NOTE reason) s
    (fun reason => finish env u i SosFalseAlarm "no_action" ("False alarm: " +:+ reason) seen rd now s).

(** A case opened by hand ([_create_incident]); a ticket comes with its user. *)
Record CaseRequest := {
  cq_category : option string;
  cq_severity : option incident_severity;
  cq_title : option string;
  cq_note : option string;
  cq_trip : option Z;
  cq_driver : option Z;
  cq_rider : option Z;
  cq_ticket : option (Z * Z);
  cq_sos : option Z
}.

Definition CATEGORY_CODES : list string :=
  ["assault"; "harassment"; "accident"; "medical"; "dangerous_driving"; "route_deviation"; "long_stop"; "eta_overrun"; "lost_contact"; "other"].

Definition target_opt (env : SafetyEnv) (u : User) (kind : link_kind) (id : option Z) (seen : SafetyDb) : res refusal unit :=
  match id with Some i => target_of env u kind i seen | None => Ok tt end.

Definition create_incident (env : SafetyEnv) (u : User) (rq : CaseRequest) (seen : SafetyDb) (rd : Reads) (now : Z) (s : SafetyDb) : outcome_of :=
  after (let* _ := require (holds (se_access env) u CAPABILITY None) Denied in
         let* category := text_of "category" true 20 (cq_category rq) in
         let* severity := res_opt (BadInput "INVALID_SEVERITY") (cq_severity rq) in
         let* title := text_of "title" true 200 (cq_title rq) in
         let* note := text_of "note" false MAX_NOTE (cq_note rq) in
         let* _ := require (bool_decide (category ∈ CATEGORY_CODES)) (BadInput "INVALID_CATEGORY") in
         let* _ := target_opt env u LinkTrip (cq_trip rq) seen in
         let* _ := target_opt env u LinkDriver (cq_driver rq) seen in
         let* _ := target_opt env u LinkRider (cq_rider rq) seen in
         let* _ := target_opt env u LinkTicket (fst <$> cq_ticket rq) seen in
         let* _ := target_opt env u LinkSos (cq_sos rq) seen in
         let* _ := require (match cq_sos rq with Some e => sos_is_free e None seen | None => true end) (Conflict "SOS_HAS_INCIDENT") in
         Ok (category, severity, title, note)) s
    (fun '(category, severity, title, note) =>
       let actor := Some (uid u) in
       match open_incident env
         {| op_source := SrcManual; op_category := category; op_severity := severity; op_title := title; op_trip := trip_of env (cq_trip rq);
            op_sos := e ← cq_sos rq; sos_events seen !! e; op_driver := cq_driver rq; op_rider := cq_rider rq; op_ticket := cq_ticket rq;
            op_actor := actor; op_note := note |} rd now s with
       | None => (Err InternalError, s)
       | Some (i, created, s) =>
       let s := if (created : bool) then s
                else add_update i UNote actor None None (if truthy (Some note) then note else "Opened by hand: " +:+ title) EmptyString now s in
       let s := match cq_sos rq with
         | Some e => (link_added i LinkSos e actor now (update_event e (with_incident i) s)).2
         | None => s
         end in
       (Ok created, s)
       end).

(** What [safety_escalate_ticket] reads of a ticket: whether the caller sees it and may reply are
    the rules of the support module. *)
Record TicketView := { tv_id : Z; tv_user : Z; tv_trip : option Z; tv_is_safety : bool; tv_seen : bool; tv_may_reply : bool }.

Definition safety_escalate_ticket (env : SafetyEnv) (u : User) (tk : TicketView) (note : option string) (rd : Reads) (now : Z) (s : SafetyDb)
    : res refusal (Z * bool) * SafetyDb :=
  let seen := rd_alarms rd in
  match (let* _ := require (tv_seen tk) NotFound in
         let* _ := require (tv_may_reply tk) Denied in
         let* _ := require (tv_is_safety tk) (Conflict "NOT_A_SAFETY_TICKET") in
         text_of "note" false MAX_NOTE note) with
  | Err e => (Err e, s)
  | Ok text =>
    match List.find (fun l => bool_decide (lk_kind l = LinkTicket) && (lk_target l =? tv_id tk) &&
                              match incidents seen !! lk_incident l with Some x => is_live x | None => false end) (links seen) with
    | Some l => (Ok (lk_incident l, false), s)
    | None =>
      match open_from_ticket env (tv_id tk) (tv_user tk) (trip_of env (tv_trip tk)) (uid u)
        (if truthy (Some text) then text else "Escalated from support ticket " +:+ number (tv_id tk)) rd now s with
      | Some (i, created, s') => (Ok (i, created), s')
      | None => (Err InternalError, s)
      end
    end
  end.

(** [signals_visible_to] and [safety_dismiss_signal] *)
Definition sees_signal (env : SafetyEnv) (u : User) (node : option GeoRow) (g : Signal) : bool :=
  match paths_of (se_access env) u node with
  | None => true
  | Some [] => false
  | Some paths => bool_decide (sg_anchor g = None) ||
                  match node_of env (sg_anchor g) with Some n => existsb (fun p => String.prefix p (g_path n)) paths | None => false end
  end.

Definition dismissed (d : Z * Z * string) (g : Signal) : Signal :=
  {| sg_kind := sg_kind g; sg_trip := sg_trip g; sg_country := sg_country g; sg_anchor := sg_anchor g; sg_measured := sg_measured g;
     sg_version := sg_version g; sg_incident := sg_incident g; sg_created := sg_created g; sg_updated := sg_updated g; sg_dismissed := Some d |}.

Definition safety_dismiss_signal (env : SafetyEnv) (u : User) (k : Z) (reason : option string) (seen : SafetyDb) (now : Z) (s : SafetyDb) : outcome_of :=
  after (let* _ := require (holds (se_access env) u CAPABILITY None) Denied in
         let* g := res_opt NotFound (signals seen !! k) in
         let* _ := require (sees_signal env u None g) NotFound in
         let* _ := require (holds (se_access env) u CAPABILITY (node_of env (sg_anchor g))) Denied in
         text_of "reason" true 2000 reason) s
    (fun reason =>
       match signals s !! k with
       | None => (Err NotFound, s)
       | Some g =>
         if negb (bool_decide (sg_dismissed g = None)) then (Ok false, s)
         else
           let s := set_signals (<[k := dismissed (now, uid u, reason) g]> (signals s)) s in
           (Ok true, match sg_incident g with
                     | Some i => add_update i UNote (Some (uid u)) None None (signal_text (sg_kind g) +:+ " signal dismissed: " +:+ reason) EmptyString now s
                     | None => s
                     end)
       end).

(** ** The escalation sweep *)

Definition BATCH : nat := 200.

(** [refs.incident_ref] *)
Definition incident_ref (i : Z) (s : SafetyDb) : string :=
  let raised := match incidents s !! i with Some x => bool_decide (in_source x = SrcSos) | None => false end in
  (if raised || existsb (fun l => (lk_incident l =? i) && bool_decide (lk_kind l = LinkSos)) (links s) then "SOS-" else "INC-") +:+ number i.

(** [escalate_sos] on the row [x] the sweep read; the conditional update decides. *)
Definition escalate_sos (env : SafetyEnv) (e : Z) (x : SosEvent) (minutes : Z) (country : string) (now : Z) (s : SafetyDb) : bool * SafetyDb :=
  match sos_events s !! e with
  | None => (false, s)
  | Some row =>
    if negb (bool_decide (so_status row = SosOpen) && bool_decide (so_escalated_at row = None)) then (false, s)
    else
      let s := update_event e (with_sos_escalated now) s in
      let name := match so_incident x with Some i => incident_ref i s | None => "An SOS" end in
      let title := name +:+ " not acknowledged after " +:+ number minutes +:+ " min" in
      let data := [("sos_id", number e); ("incident_id", from_option number "None" (so_incident x));
                   ("ref", if bool_decide (so_incident x = None) then "None" else name); ("minutes", number minutes); ("country", country)] in
      (true, match so_incident x with
             | Some i =>
               let s := raise_on SAFETY_SOS_ESCALATED title CRITICAL data "safety_incident" (number i) (place_of env (so_anchor x)) s in
               let s := clear_on "sos_event" e ("Merged into the alert for " +:+ name) [] now s in
               add_update i UEscalated None None None ("SOS not acknowledged after " +:+ number minutes +:+ " minutes: escalated") EmptyString now s
             | None => raise_on SAFETY_SOS_ESCALATED title CRITICAL data "sos_event" (number e) (place_of env (so_anchor x)) s
             end)
  end.

Definition escalate_incident (env : SafetyEnv) (i : Z) (x : Incident) (minutes : Z) (country : string) (now : Z) (s : SafetyDb) : bool * SafetyDb :=
  match incidents s !! i with
  | None => (false, s)
  | Some row =>
    if negb (bool_decide (in_escalated_at row = None) && bool_decide (in_assigned row = None) && bool_decide (in_severity row = Critical) && is_live row)
    then (false, s)
    else
      let s := update_incident i (with_escalated now) s in
      let name := incident_ref i s in
      let s := raise_on SAFETY_INCIDENT_UNASSIGNED (name +:+ ": critical, nobody assigned after " +:+ number minutes +:+ " min") CRITICAL
                 [("incident_id", number i); ("ref", name); ("minutes", number minutes); ("country", country)]
                 "safety_incident" (number i) (place_of env (in_anchor x)) s in
      (true, add_update i UEscalated None None None ("Critical and unassigned for " +:+ number minutes +:+ " minutes: escalated") EmptyString now s)
  end.

(** The alarms and the cases a sweep looks at, oldest first, at most [BATCH] of each. *)
Definition older_event (a b : Z * SosEvent) : Prop := so_created a.2 <= so_created b.2.
Definition older_incident (a b : Z * Incident) : Prop := in_opened_at a.2 <= in_opened_at b.2.

#[global] Instance older_event_dec : RelDecision older_event.
Proof. intros a b. unfold older_event. apply _. Defined.
#[global] Instance older_incident_dec : RelDecision older_incident.
Proof. intros a b. unfold older_incident. apply _. Defined.

Definition overdue_events (cutoff : Z) (s : SafetyDb) : list (Z * SosEvent) :=
  take BATCH (merge_sort older_event (List.filter (fun p : Z * SosEvent =>
    bool_decide (so_status p.2 = SosOpen) && bool_decide (so_escalated_at p.2 = None) && (so_created p.2 <=? cutoff)) (map_to_list (sos_events s)))).

Definition overdue_incidents (cutoff : Z) (s : SafetyDb) : list (Z * Incident) :=
  take BATCH (merge_sort older_incident (List.filter (fun p : Z * Incident =>
    bool_decide (in_severity p.2 = Critical) && bool_decide (in_assigned p.2 = None) && bool_decide (in_escalated_at p.2 = None) &&
    (in_opened_at p.2 <=? cutoff) && is_live p.2) (map_to_list (incidents s)))).

(** The timer of a country, if it has passed. *)
Definition timer_passed (env : SafetyEnv) (country field : string) (since now : Z) : option Z :=
  c ← active_configs (se_configs env) country; minutes ← setting c field;
  if now - minutes * MINUTE <? since then None else Some minutes.

Definition sweep_event (env : SafetyEnv) (now : Z) (acc : Z * SafetyDb) (p : Z * SosEvent) : Z * SafetyDb :=
  let country := country_for env (so_anchor p.2) (trip_of env (so_trip p.2)) (so_user p.2) in
  match timer_passed env country "sos_ack_minutes" (so_created p.2) now with
  | Some minutes => let '(won, s) := escalate_sos env p.1 p.2 minutes country now acc.2 in ((if won then acc.1 + 1 else acc.1), s)
  | None => acc
  end.

Definition sweep_incident (env : SafetyEnv) (now : Z) (acc : Z * SafetyDb) (p : Z * Incident) : Z * SafetyDb :=
  match timer_passed env (in_country p.2) "incident_assign_minutes" (in_opened_at p.2) now with
  | Some minutes => let '(won, s) := escalate_incident env p.1 p.2 minutes (in_country p.2) now acc.2 in ((if won then acc.1 + 1 else acc.1), s)
  | None => acc
  end.

(** [sweep]: how many alarms were given a case, how many alarms and cases were escalated. *)
Definition sweep (fails : Z -> bool) (env : SafetyEnv) (now : Z) (s : SafetyDb) : Z * Z * Z * SafetyDb :=
  let '(backfilled, s) := backfill_sos_incidents fails env now 50 s in
  let '(alarms, s) := match shortest (se_configs env) "sos_ack_minutes" with
    | Some minutes => foldl (sweep_event env now) (0, s) (overdue_events (now - minutes * MINUTE) s)
    | None => (0, s)
    end in
  let '(cases, s) := match shortest (se_configs env) "incident_assign_minutes" with
    | Some minutes => foldl (sweep_incident env now) (0, s) (overdue_incidents (now - minutes * MINUTE) s)
    | None => (0, s)
    end in
  (backfilled, alarms, cases, s).
