(* ===== verification/SafetyWatch.v ===== *)
(** * SafetyWatch: what the safety module notices by itself

    Models [servers/safety/geometry.py] (the encoded polyline), [detection.py] (long stops,
    overruns and route deviations of the rides under way, and their promotion to a case) and
    [coverage.py] (the guard on live cities without a safety officer).

    Instants are microseconds.  Coordinates are rationals; distances on the globe
    ([haversine_metres], [distance_to_polyline_m]) and Python's rounding of a float to one decimal
    are arguments.  The comparisons of [detection] are on times of whole microseconds and integer
    thresholds, where the floats of the code decide as the rationals here. *)

From Stdlib Require Import Ascii QArith.
From stdpp Require Import sorting.
From S2P Require Import Prelude PyDecimal PyText Countries Models Access Alerts SafetyConfig Incidents.
#[local] Open Scope string_scope.
#[local] Open Scope list_scope.
#[local] Open Scope Z_scope.

(** ** The encoded polyline *)

(** The loop of [decode_polyline]: [second] is the axis, [mid] inside a number.  Coordinates are
    the integers the code divides by 1e5.  A text that ends inside a point is no polyline. *)
Fixpoint decode_run (second mid : bool) (shift result lat lng : Z) (acc : list (Z * Z)) (l : list ascii) : list (Z * Z) :=
  match l with
  | [] => if second || mid then [] else rev acc
  | c :: r =>
    let byte := code c - 63 in
    let result := Z.lor result (Z.shiftl (Z.land byte 31) shift) in
    if byte <? 32
    then let delta := if Z.odd result then Z.lnot (Z.shiftr result 1) else Z.shiftr result 1 in
         if second then decode_run false false 0 0 lat (lng + delta) ((lat, lng + delta) :: acc) r
         else decode_run true false 0 0 (lat + delta) lng acc r
    else decode_run second true (shift + 5) result lat lng acc r
  end.

Definition decode_polyline (encoded : string) : list (Z * Z) := decode_run false false 0 0 0 0 [] (chars encoded).

(** ** What is watched *)

Definition place : Type := Q * Q.

(** A trip as [_candidate_trips] loads it, with its last kept point. *)
Record RunningTrip := {
  rt_trip : Trip;
  rt_in_progress : bool;
  rt_started_at : option Z;
  rt_estimate : option dec;
  rt_pickup : place;
  rt_drop : place;
  rt_seen_at : option Z;
  rt_route : string;
  rt_last : option (Z * place)
}.

(** [wa_points] are a trip's kept points, oldest first. *)
Record WatchEnv := {
  wa_safety : SafetyEnv;
  wa_metres : place -> place -> Q;
  wa_off_route : place -> list (Z * Z) -> Q;
  wa_round : Q -> Q;
  wa_alive_seconds : Z;
  wa_trips : list RunningTrip;
  wa_points : Z -> list (Z * place)
}.

Definition HORIZON : Z := 24 * 60 * MINUTE.
Definition MAX_TRIPS : nat := 2000.
Definition MAX_DEVIATION_POINTS : nat := 200.

Definition started_before (a b : RunningTrip) : Prop := default 0 (rt_started_at a) <= default 0 (rt_started_at b).

#[global] Instance started_before_dec : RelDecision started_before.
Proof. intros a b. unfold started_before. apply _. Defined.

Definition candidate_trips (env : WatchEnv) (now : Z) : list RunningTrip :=
  take MAX_TRIPS (merge_sort started_before (List.filter (fun t =>
    rt_in_progress t && negb (bool_decide (rt_started_at t = None)) && (now - HORIZON <=? trip_requested_at (rt_trip t))) (wa_trips env))).

Definition minutes_of (micros : Z) : Q := (inject_Z micros / inject_Z MINUTE)%Q.

Definition at_least (q : Q) (n : Z) : bool := Qle_bool (inject_Z n) q.

(** [measure_eta_overrun]; [Err] is a trap of [Decimal]. *)
Definition measure_eta_overrun (env : WatchEnv) (t : RunningTrip) (c : SafetyCountryConfig) (now : Z) : res dec_error (option SignalMeasure) :=
  match setting c "eta_overrun_percent", setting c "eta_overrun_minutes", rt_estimate t, rt_started_at t with
  | Some percent, Some minutes, Some estimate, Some started =>
    if dleb estimate (of_Z 0) then Ok None
    else
      let* elapsed := ddiv (Dec (now - started) (-6)) (of_Z 60) in
      let* over := dsub elapsed estimate in
      let* ratio := ddiv over estimate in
      let* over_percent := dmul ratio (of_Z 100) in
      if dltb over (of_Z minutes) || dltb over_percent (of_Z percent) then Ok None
      else Ok (Some {| me_minutes := wa_round env (dval over); me_percent := wa_round env (dval over_percent); me_since := started |})
  | _, _, _, _ => Ok None
  end.

Definition near_ends (env : WatchEnv) (t : RunningTrip) (p : place) (radius : Z) : bool :=
  Qle_bool (wa_metres env p (rt_pickup t)) (inject_Z radius) || Qle_bool (wa_metres env p (rt_drop t)) (inject_Z radius).

(** The driver was seen lately enough for where they are to mean something. *)
Definition alive (env : WatchEnv) (t : RunningTrip) (now : Z) : bool :=
  match rt_seen_at t with Some seen => now - seen <=? wa_alive_seconds env * SECOND | None => false end.

(** The walk back from the newest point while it stays inside the circle. *)
Fixpoint stopped_since (env : WatchEnv) (here : place) (radius since : Z) (newest_first : list (Z * place)) : Z :=
  match newest_first with
  | [] => since
  | (at_, p) :: r =>
    if Qle_bool (wa_metres env here p) (inject_Z radius) then stopped_since env here radius (Z.min since at_) r else since
  end.

Definition measure_long_stop (env : WatchEnv) (t : RunningTrip) (c : SafetyCountryConfig) (now : Z) (recent : list (Z * place))
    : option SignalMeasure :=
  match setting c "long_stop_minutes", setting c "long_stop_radius_m", rt_last t, rt_started_at t with
  | Some minutes, Some radius, Some (last, here), Some started =>
    if negb (alive env t now) then None
    else if now - started <? minutes * MINUTE then None
    else if match setting c "stop_exempt_radius_m" with Some exempt => near_ends env t here exempt | None => false end then None
    else
      let since := stopped_since env here radius last (rev recent) in
      if at_least (minutes_of (now - since)) minutes
      then Some {| me_minutes := wa_round env (minutes_of (now - since)); me_percent := 0; me_since := since |}
      else None
  | _, _, _, _ => None
  end.

Definition route_deviation_candidate (t : RunningTrip) (c : SafetyCountryConfig) : bool :=
  truthy (Some (rt_route t)) && negb (bool_decide (setting c "route_deviation_meters" = None)) &&
  negb (bool_decide (setting c "route_deviation_minutes" = None)) && negb (bool_decide (rt_last t = None)).

(** The walk back from the newest point while it is off the route. *)
Fixpoint off_route_since (env : WatchEnv) (line : list (Z * Z)) (metres : Z) (since : option Z) (newest_first : list (Z * place)) : option Z :=
  match newest_first with
  | [] => since
  | (at_, p) :: r =>
    if Qle_bool (wa_off_route env p line) (inject_Z metres) then since else off_route_since env line metres (Some at_) r
  end.

Definition measure_route_deviation (env : WatchEnv) (t : RunningTrip) (c : SafetyCountryConfig) (now : Z) (recent : list (Z * place))
    : option SignalMeasure :=
  match setting c "route_deviation_meters", setting c "route_deviation_minutes", rt_last t with
  | Some metres, Some minutes, Some last =>
    if negb (route_deviation_candidate t c) then None
    else if negb (alive env t now) then None
    else
      let line := decode_polyline (rt_route t) in
      if (length line <? 2)%nat then None
      else
        let points := if match List.last recent last with (at_, _) => bool_decide (recent = []) || (at_ <? last.1) end then recent ++ [last] else recent in
        match off_route_since env line metres None (take MAX_DEVIATION_POINTS (rev points)) with
        | None => None
        | Some since =>
          if negb (Qle_bool (minutes_of (now - since)) (inject_Z minutes))
          then Some {| me_minutes := wa_round env (minutes_of (now - since)); me_percent := 0; me_since := since |}
          else None
        end
  | _, _, _ => None
  end.

(** ** Signals *)

(** [_incident_line], on the rounded numbers. *)
Definition incident_line (k : signal_kind) (m : SignalMeasure) (c : SafetyCountryConfig) : bool :=
  match k with
  | LongStop => match setting c "long_stop_incident_minutes" with Some line => at_least (me_minutes m) line | None => false end
  | EtaOverrun =>
    match setting c "eta_overrun_incident_percent", setting c "eta_overrun_incident_minutes" with
    | Some percent, Some minutes => at_least (me_percent m) percent && at_least (me_minutes m) minutes
    | _, _ => false
    end
  | RouteDeviation => false
  end.

Definition signal_in (i : Z) (g : Signal) : Signal :=
  {| sg_kind := sg_kind g; sg_trip := sg_trip g; sg_country := sg_country g; sg_anchor := sg_anchor g; sg_measured := sg_measured g;
     sg_version := sg_version g; sg_incident := Some i; sg_created := sg_created g; sg_updated := sg_updated g; sg_dismissed := sg_dismissed g |}.

Definition remeasured (m : SignalMeasure) (version now : Z) (g : Signal) : Signal :=
  {| sg_kind := sg_kind g; sg_trip := sg_trip g; sg_country := sg_country g; sg_anchor := sg_anchor g; sg_measured := m;
     sg_version := version; sg_incident := sg_incident g; sg_created := sg_created g; sg_updated := now; sg_dismissed := sg_dismissed g |}.

(** [_promote]; the signal's row is locked and read again.  The measured values in the alert's payload
    are left out. *)
Definition promote (env : SafetyEnv) (k : Z) (t : Trip) (rd : Reads) (now : Z) (s : SafetyDb) : bool * SafetyDb :=
  match signals s !! k with
  | None => (false, s)
  | Some g =>
    if negb (bool_decide (sg_incident g = None)) || negb (bool_decide (sg_dismissed g = None)) then (false, s)
    else
      match open_from_signal env g t rd now s with
      | None => (false, s)
      | Some (i, _, s) =>
      let s := set_signals (<[k := signal_in i g]> (signals s)) s in
      (true, raise_on SAFETY_SIGNAL (incident_ref i s +:+ ": " +:+ signal_text (sg_kind g) +:+ " on T-" +:+ number (sg_trip g)) WARNING
               [("signal_id", number k); ("incident_id", number i); ("kind", signal_code (sg_kind g)); ("trip_id", number (sg_trip g))]
               "safety_incident" (number i) (place_of env (sg_anchor g)) s)
      end
  end.

Definition signal_of (trip : Z) (k : signal_kind) (s : SafetyDb) : option (Z * Signal) :=
  List.find (fun p : Z * Signal => (sg_trip p.2 =? trip) && bool_decide (sg_kind p.2 = k)) (map_to_list (signals s)).

(** One finding of a pass: the signal is created or measured again, and promoted at its line. *)
Definition record_finding (env : SafetyEnv) (t : Trip) (c : SafetyCountryConfig) (reads : SafetyDb -> Reads) (now : Z) (s : SafetyDb)
    (found : signal_kind * SignalMeasure) : SafetyDb :=
  let '(k, m) := found in
  let '(key, open_, s) := match signal_of (trip_id t) k s with
    | None =>
      let node := trip_node (Some t) in
      (signal_next s, true, insert_signal {| sg_kind := k; sg_trip := trip_id t; sg_country := country_for env node (Some t) None; sg_anchor := node;
         sg_measured := m; sg_version := sc_version c; sg_incident := None; sg_created := now; sg_updated := now; sg_dismissed := None |} s)
    | Some (key, g) =>
      if bool_decide (sg_dismissed g = None) then (key, true, set_signals (<[key := remeasured m (sc_version c) now g]> (signals s)) s)
      else (key, false, s)
    end in
  if open_ && incident_line k m c then (promote env key t (reads s) now s).2 else s.

Definition option_of {E A : Type} (r : res E (option A)) : option A := match r with Ok o => o | Err _ => None end.

(** The config a trip is judged by. *)
Definition config_of (env : WatchEnv) (t : RunningTrip) : option SafetyCountryConfig :=
  let node := trip_node (Some (rt_trip t)) in
  active_configs (se_configs (wa_safety env)) (country_for (wa_safety env) node (Some (rt_trip t)) None).

(** The points of a trip since the horizon of a pass: twice the longest line of the trips looked at. *)
Definition recent_points (env : WatchEnv) (field : string) (looked : list (RunningTrip * SafetyCountryConfig)) (t : RunningTrip) (now : Z)
    : list (Z * place) :=
  if bool_decide (trip_id (rt_trip t) ∈ (fun p => trip_id (rt_trip p.1)) <$> looked)
  then let longest := foldr Z.max 0 ((fun p => default 0 (setting p.2 field)) <$> looked) in
       List.filter (fun p : Z * place => now - 2 * longest * MINUTE <=? p.1) (wa_points env (trip_id (rt_trip t)))
  else [].

Definition findings (env : WatchEnv) (judged : list (RunningTrip * SafetyCountryConfig)) (t : RunningTrip) (c : SafetyCountryConfig) (now : Z)
    : res dec_error (list (signal_kind * SignalMeasure)) :=
  let parked := List.filter (fun p => negb (bool_decide (setting p.2 "long_stop_minutes" = None)) && negb (bool_decide (rt_last p.1 = None)) &&
                                      negb (bool_decide (rt_seen_at p.1 = None))) judged in
  let deviating := List.filter (fun p => route_deviation_candidate p.1 p.2) judged in
  let found k o := from_option (fun m => [(k, m)]) [] o in
  let* overrun := measure_eta_overrun env t c now in
  Ok (found LongStop (measure_long_stop env t c now (recent_points env "long_stop_minutes" parked t now)) ++ found EtaOverrun overrun ++
      found RouteDeviation (measure_route_deviation env t c now (recent_points env "route_deviation_minutes" deviating t now))).

(** [evaluate]: one pass.  A trap of [Decimal] ends it after the trips before. *)
Definition evaluate (env : WatchEnv) (now : Z) (s : SafetyDb) : SafetyDb :=
  let judged := omap (fun t => (fun c => (t, c)) <$> config_of env t) (candidate_trips env now) in
  (foldl (fun '(ok, s) p =>
     if negb ok then (ok, s)
     else match findings env judged p.1 p.2 now with
          | Ok l => (true, foldl (record_finding (wa_safety env) (rt_trip p.1) p.2 reads_now now) s l)
          | Err _ => (false, s)
          end) (true, s) judged).2.

(** ** Coverage *)

Definition COVERING_ROLE : string := "safety_officer".
Definition COVERAGE_SOURCE : string := "safety_coverage".

(** [GeoNode.country]: up the parents, of which there are at most [tree_depth]. *)
Fixpoint country_above (fuel : nat) (t : GeoTable) (n : GeoRow) : option GeoRow :=
  if bool_decide (g_kind n = KCountry) then Some n
  else match fuel, g_parent n with
       | S f, Some p => match t !! p with Some up => country_above f t up | None => None end
       | _, _ => None
       end.

Definition country_code_of (db : AccessDb) (n : GeoRow) : option string := g_code <$> country_above tree_depth (nodes db) n.

(** The admins whose safety officer assignment covers a place, each once. *)
Definition officers_covering (db : AccessDb) (n : GeoRow) : list Z :=
  remove_dups (omap (fun a =>
    match joined db a, users db !! as_admin a with
    | Some (r, scope), Some u =>
      if as_active a && r_active r && bool_decide (r_code r = COVERING_ROLE) && u_active u && u_staff u && negb (u_break_glass u) &&
         bool_decide (CAPABILITY ∈ r_permissions r) && covers scope (Some n)
      then Some (as_admin a) else None
    | _, _ => None
    end) (assignment_rows db)).

Record Coverage := { cv_count : Z; cv_minimum : option Z; cv_country : option string }.

Definition coverage (env : SafetyEnv) (n : GeoRow) : Coverage :=
  let code := country_code_of (se_access env) n in
  let config := c ← (if truthy code then code else None); active_configs (se_configs env) c in
  {| cv_count := Z.of_nat (length (officers_covering (se_access env) n));
     cv_minimum := c ← config; sc_values c !! "min_safety_officers"; cv_country := code |}.

Definition covered (c : Coverage) : bool := match cv_minimum c with Some m => m <=? cv_count c | None => false end.

Definition live_cities (db : AccessDb) : list GeoRow :=
  List.filter (fun n => bool_decide (g_kind n = KCity) && bool_decide (g_status n = ACTIVE)) (snd <$> map_to_list (nodes db)).

Definition gap_alert (a : Alert) : bool := bool_decide (alert_kind a = SAFETY_COVERAGE_GAP) && is_open a.

(** [sweep] of [coverage.py]; the alerts open before the pass are read once. *)
Definition coverage_sweep (env : SafetyEnv) (now : Z) (t : AlertTable) : AlertTable :=
  let open_ := List.filter gap_alert (alerts t) in
  let gaps := List.filter (fun n => negb (covered (coverage env n))) (live_cities (se_access env)) in
  let t := foldl (fun t n =>
    if existsb (fun a => bool_decide (alert_source_id a = g_code n)) open_ then t
    else
      let c := coverage env n in
      let why := match cv_minimum c with None => "not configured" | Some m => number (cv_count c) +:+ " of " +:+ number m end in
      (raise_alert t SAFETY_COVERAGE_GAP (truncated 200 (g_name n +:+ ": no safety cover (" +:+ why +:+ ")")) CRITICAL
         (payload [("city", g_code n); ("country", default "None" (cv_country c)); ("officers", number (cv_count c));
                   ("minimum", from_option number "None" (cv_minimum c)); ("configured", py_bool (negb (bool_decide (cv_minimum c = None))))])
         COVERAGE_SOURCE (g_code n) (Some {| place_kind := g_kind n; place_active := bool_decide (g_status n = ACTIVE) |})).2) t gaps in
  foldl (fun t a => if bool_decide (alert_source_id a ∈ g_code <$> gaps) then t
                    else (acknowledge t (alert_id a) None "cleared: coverage restored or city no longer live" now).2) t open_.
