(* ===== verification/IncidentSafety.v ===== *)
(** * IncidentSafety: what the incident module promises

    Every operation of Incidents is a sequence of small moves of its tables ([moves]); the
    invariants are proved of the moves.  [safety_step] puts the operations of riders, drivers,
    operators and sweeps in any order, each with an environment of its own and with readings
    taken at any earlier moment of the run ([Centre]); [leeway] names the ways in which a
    reading may be overtaken before it is written. *)

From Stdlib Require Import Ascii QArith.
From stdpp Require Import sorting relations.
From S2P Require Import Prelude PyDecimal PyText Countries Models Access Alerts SafetyConfig Incidents SafetyWatch.
#[local] Open Scope string_scope.
#[local] Open Scope list_scope.
#[local] Open Scope Z_scope.

Create HintDb safety.

(** ** Moves *)

(** What may happen to a case without opening or closing it. *)
Record gentle (x y : Incident) : Prop := {
  ge_trip : in_trip y = in_trip x;
  ge_opened : in_opened_at y = in_opened_at x;
  ge_source : in_source y = in_source x;
  ge_closed : in_status y = Closed <-> in_status x = Closed;
  ge_severity : SEVERITY_RANK (in_severity y) <= SEVERITY_RANK (in_severity x);
  ge_marker : in_escalated_at x = None \/ in_escalated_at y = in_escalated_at x
}.

(** What may happen to an alarm: it does not come back once it is over. *)
Record calm (x y : SosEvent) : Prop := {
  ca_user : so_user y = so_user x;
  ca_trip : so_trip y = so_trip x;
  ca_type : so_type y = so_type x;
  ca_created : so_created y = so_created x;
  ca_incident : so_incident y = so_incident x;
  ca_active : sos_active (so_status y) = true -> sos_active (so_status x) = true;
  ca_marker : so_escalated_at x = None \/ so_escalated_at y = so_escalated_at x
}.

(** What a run may contain: an operator takes up an alarm that was over; an alarm joins a case that
    was closed since it was read; a severity is written over another one written since the case was
    read; a case is set to work that was closed since it was read. *)
Record leeway := { lw_returns : bool; lw_closed : bool; lw_regraded : bool; lw_reopens : bool }.

Definition anything : leeway := {| lw_returns := true; lw_closed := true; lw_regraded := true; lw_reopens := true |}.

Inductive move (b : leeway) : SafetyDb -> SafetyDb -> Prop :=
| mv_note u s : move b s (push_update u s)
| mv_sos_note u s : move b s (push_sos_update u s)
| mv_link l s : move b s (set_links (links s ++ [l]) s)
| mv_unlink i k t s : k <> LinkSos -> move b s (set_links (List.filter (fun l => negb (is_link i k t l)) (links s)) s)
| mv_alerts t s : move b s (set_alerts t s)
| mv_signals m s : move b s (set_signals m s)
| mv_signal x s : move b s (insert_signal x s)
| mv_case i f s : (forall x, incidents s !! i = Some x -> gentle x (f x)) -> move b s (update_incident i f s)
| mv_close i now o t s : close_blockers i s = [] -> move b s (update_incident i (with_closed now o t) s)
| mv_open x s :
    is_live x = true -> (forall t j y, in_trip x = Some t -> incidents s !! j = Some y -> live_on t y = false) ->
    move b s (insert_incident x s)
| mv_raise x s : so_incident x = None -> move b s (insert_event x s)
| mv_event e f s : (forall x, sos_events s !! e = Some x -> calm x (f x)) -> move b s (update_event e f s)
| mv_regrade i v s : lw_regraded b = true -> move b s (update_incident i (with_severity v) s)
| mv_reopen i s : lw_reopens b = true -> trip_taken i s = false -> move b s (update_incident i (with_status Investigating) s)
| mv_back e s : lw_returns b = true -> move b s (update_event e (with_sos_status SosAcknowledged) s)
| mv_attach e i a x s :
    incidents s !! i = Some x -> (lw_closed b = false -> is_live x = true) ->
    move b s (linked i LinkSos e a (update_event e (with_incident i) s)).

Definition moves (b : leeway) : SafetyDb -> SafetyDb -> Prop := rtc (move b).

Lemma moved (b : leeway) (s s1 s2 : SafetyDb) : moves b s s1 -> move b s1 s2 -> moves b s s2.
Proof. apply rtc_r. Qed.

Lemma no_move (b : leeway) (s : SafetyDb) : moves b s s.
Proof. apply rtc_refl. Qed.

#[export] Hint Resolve no_move : safety.

Section Moves.
Context (b : leeway).

Lemma update_moves s s1 i k a f t n key now : moves b s s1 -> moves b s (add_update i k a f t n key now s1).
Proof. intros H. eapply moved; [exact H|]. apply mv_note. Qed.

Lemma linked_moves s s1 i k t a : moves b s s1 -> moves b s (linked i k t a s1).
Proof.
  intros H. unfold linked, add_link. destruct (existsb _ _); [exact H|]. cbn [snd].
  eapply moved; [exact H|]. apply mv_link.
Qed.

Lemma linked_opt_moves s s1 i k t a : moves b s s1 -> moves b s (linked_opt i k t a s1).
Proof. intros H. destruct t; [by apply linked_moves|exact H]. Qed.

Lemma trip_moves s s1 i t a : moves b s s1 -> moves b s (link_trip i t a s1).
Proof. intros H. destruct t; [by apply linked_opt_moves; do 2 apply linked_moves|exact H]. Qed.

Lemma user_moves env s s1 i u a : moves b s s1 -> moves b s (link_user env i u a s1).
Proof. intros H. destruct u as [u|]; [|exact H]. cbn. destruct (se_driver_of env u); [|destruct (se_is_rider env u)]; [by apply linked_moves..|exact H]. Qed.

Lemma rider_moves env s s1 i u a : moves b s s1 -> moves b s (link_rider env i u a s1).
Proof. intros H. destruct u as [u|]; [|exact H]. cbn. destruct (se_is_rider env u); [by apply linked_moves|exact H]. Qed.

Lemma people_moves env s s1 i t u a : moves b s s1 -> moves b s (link_people env i t u a s1).
Proof. intros H. by apply user_moves, trip_moves. Qed.

Lemma alert_moves s s1 kind title sev data st sid city : moves b s s1 -> moves b s (raise_on kind title sev data st sid city s1).
Proof. intros H. eapply moved; [exact H|]. apply mv_alerts. Qed.

Lemma clear_moves s s1 st sid n ks now : moves b s s1 -> moves b s (clear_on st sid n ks now s1).
Proof. intros H. eapply moved; [exact H|]. apply mv_alerts. Qed.

Lemma case_moves s s1 i f : moves b s s1 -> (forall x, incidents s1 !! i = Some x -> gentle x (f x)) -> moves b s (update_incident i f s1).
Proof. intros H Hf. eapply moved; [exact H|]. by apply mv_case. Qed.

Lemma event_moves s s1 e f : moves b s s1 -> (forall x, sos_events s1 !! e = Some x -> calm x (f x)) -> moves b s (update_event e f s1).
Proof. intros H Hf. eapply moved; [exact H|]. by apply mv_event. Qed.

Lemma sos_note_moves s s1 u : moves b s s1 -> moves b s (push_sos_update u s1).
Proof. intros H. eapply moved; [exact H|]. apply mv_sos_note. Qed.
End Moves.

#[export] Hint Resolve update_moves linked_moves linked_opt_moves people_moves rider_moves trip_moves alert_moves clear_moves sos_note_moves : safety.

(** ** Gentle changes *)

Lemma gentle_status (x : Incident) (st : incident_status) : (st = Closed <-> in_status x = Closed) -> gentle x (with_status st x).
Proof. intros H. split; cbn; [done..|exact H|lia|by right]. Qed.

Lemma gentle_severity (x : Incident) (v : incident_severity) : SEVERITY_RANK v <= SEVERITY_RANK (in_severity x) -> gentle x (with_severity v x).
Proof. intros H. split; cbn; [done..|exact H|by right]. Qed.

Lemma gentle_assigned (x : Incident) (v : option Z) : gentle x (with_assigned v x).
Proof. split; cbn; [done..|lia|by right]. Qed.

Lemma gentle_police (x : Incident) (now : Z) (r : string) : gentle x (with_police now r x).
Proof. split; cbn; [done..|lia|by right]. Qed.

Lemma gentle_escalated (x : Incident) (now : Z) : in_escalated_at x = None -> gentle x (with_escalated now x).
Proof. intros H. split; cbn; [done..|lia|by left]. Qed.

Lemma calm_escalated (x : SosEvent) (now : Z) : so_escalated_at x = None -> calm x (with_sos_escalated now x).
Proof. intros H. split; cbn; [done..|by left]. Qed.

Lemma calm_mistake (x : SosEvent) (now : Z) : calm x (with_mistake now x).
Proof. split; cbn; [done..|by right]. Qed.

Lemma calm_status (x : SosEvent) (st : sos_status) : (sos_active st = true -> sos_active (so_status x) = true) -> calm x (with_sos_status st x).
Proof. intros H. split; cbn; [done..|exact H|by right]. Qed.

Lemma is_live_status (x : Incident) : is_live x = true <-> in_status x <> Closed.
Proof. unfold is_live. by rewrite negb_true_iff, bool_decide_eq_false. Qed.

(** ** Opening a case *)

Lemma open_case_found (t : option Trip) (s : SafetyDb) (i : Z) (x : Incident) :
  open_incident_for_trip t s = Some (i, x) -> exists t', t = Some t' /\ incidents s !! i = Some x /\ live_on (trip_id t') x = true.
Proof.
  unfold open_incident_for_trip. intros (t' & -> & H%best_by_elem)%bind_Some. exists t'. split; [done|].
  apply elem_of_filter_b in H as [H1 H2]. by rewrite elem_of_map_to_list in H1.
Qed.

Lemma open_case_none (t : Trip) (s : SafetyDb) (i : Z) (x : Incident) :
  open_incident_for_trip (Some t) s = None -> incidents s !! i = Some x -> live_on (trip_id t) x = false.
Proof.
  cbn. intros H%best_by_none Hx. destruct (live_on (trip_id t) x) eqn:E; [|done].
  assert (Hin : (i, x) ∈ List.filter (fun p : Z * Incident => live_on (trip_id t) p.2) (map_to_list (incidents s)))
    by (apply elem_of_filter_b; split; [by apply elem_of_map_to_list|done]).
  rewrite H in Hin. by apply elem_of_nil in Hin.
Qed.

Lemma live_on_live (t : Z) (x : Incident) : live_on t x = true -> is_live x = true.
Proof. unfold live_on. by intros [_ H]%andb_true_iff. Qed.

(** Adding links leaves every other table alone. *)
Definition more_links (s s1 : SafetyDb) : Prop := exists l, s1 = set_links (links s ++ l) s.

Lemma more_links_refl (s : SafetyDb) : more_links s s.
Proof. exists []. rewrite app_nil_r. by destruct s. Qed.

Section MoreLinks.
Context (s s1 : SafetyDb) (H : more_links s s1).

Lemma linked_more i k t a : more_links s (linked i k t a s1).
Proof.
  unfold linked, add_link. destruct (existsb _ _); [exact H|]. destruct H as [l ->]. cbn [snd links set_links].
  rewrite <- app_assoc. by eexists.
Qed.
End MoreLinks.

#[export] Hint Resolve more_links_refl linked_more : safety.

Section MoreFrom.
Context (s s1 : SafetyDb) (H : more_links s s1).

Lemma linked_opt_more i k t a : more_links s (linked_opt i k t a s1).
Proof. destruct t; [by apply linked_more|exact H]. Qed.

Lemma rider_more env i u a : more_links s (link_rider env i u a s1).
Proof. destruct u as [u|]; [|exact H]. cbn. destruct (se_is_rider env u); [by apply linked_more|exact H]. Qed.

Lemma trip_more i t a : more_links s (link_trip i t a s1).
Proof. destruct t; [cbn; destruct (trip_driver _); cbn; auto with safety|exact H]. Qed.

Lemma people_more env i t u a : more_links s (link_people env i t u a s1).
Proof.
  pose proof (trip_more i t a) as H1. unfold link_people, link_user. destruct u as [u|]; [|exact H1].
  destruct (se_driver_of env u); [|destruct (se_is_rider env u)]; auto with safety.
Qed.
End MoreFrom.

#[export] Hint Resolve linked_opt_more rider_more trip_more people_more : safety.

(** *** The case an opening joins *)

(** The row that is read: before, or after a lost race. *)
Definition case_read (t : option Trip) (rd : Reads) (s : SafetyDb) : option (Z * Incident) :=
  match open_incident_for_trip t (rd_open rd) with
  | Some p => Some p
  | None => match open_incident_for_trip t s with Some _ => open_incident_for_trip t (rd_winner rd) | None => None end
  end.

(** It is still live; it still has the severity that was read. *)
Definition still_live (t : option Trip) (rd : Reads) (s : SafetyDb) : Prop :=
  forall p y, case_read t rd s = Some p -> incidents s !! p.1 = Some y -> is_live y = true.

Definition still_graded (t : option Trip) (rd : Reads) (s : SafetyDb) : Prop :=
  forall p y, case_read t rd s = Some p -> incidents s !! p.1 = Some y -> in_severity y = in_severity p.2.

(** A reading of an earlier moment: its cases still exist, on the same trips. *)
Definition known (s seen : SafetyDb) : Prop :=
  forall i x, incidents seen !! i = Some x -> exists y, incidents s !! i = Some y /\ in_trip y = in_trip x.

Record fits (b : leeway) (t : option Trip) (rd : Reads) (s : SafetyDb) : Prop := {
  ft_open : known s (rd_open rd);
  ft_winner : known s (rd_winner rd);
  ft_live : lw_closed b = false -> still_live t rd s;
  ft_graded : lw_regraded b = false -> still_graded t rd s
}.

Lemma open_case_same (t : option Trip) (s s1 : SafetyDb) : incidents s1 = incidents s -> open_incident_for_trip t s1 = open_incident_for_trip t s.
Proof. intros E. unfold open_incident_for_trip. by rewrite E. Qed.

Lemma fits_same (b : leeway) (t : option Trip) (rd : Reads) (s s1 : SafetyDb) : incidents s1 = incidents s -> fits b t rd s -> fits b t rd s1.
Proof.
  intros E [H1 H2 H3 H4].
  assert (Ec : case_read t rd s1 = case_read t rd s) by (unfold case_read; by rewrite (open_case_same t s s1 E)).
  split; unfold known, still_live, still_graded in *; rewrite ?Ec, E; done.
Qed.

Lemma known_refl (s : SafetyDb) : known s s.
Proof. intros i x Hx. by exists x. Qed.

(** A reading of the moment of the writes is never overtaken. *)
Lemma case_read_now (t : option Trip) (s : SafetyDb) : case_read t (reads_now s) s = open_incident_for_trip t s.
Proof. unfold case_read. cbn. by destruct (open_incident_for_trip t s). Qed.

Lemma now_live (t : option Trip) (s : SafetyDb) : still_live t (reads_now s) s.
Proof.
  intros [i x] y. rewrite case_read_now. intros (t' & _ & Hx & Hl)%open_case_found Hy. cbn in *.
  replace y with x by congruence. by eapply live_on_live.
Qed.

Lemma now_graded (t : option Trip) (s : SafetyDb) : still_graded t (reads_now s) s.
Proof. intros [i x] y. rewrite case_read_now. intros (t' & _ & Hx & _)%open_case_found Hy. cbn in *. congruence. Qed.

Lemma fits_now (b : leeway) (t : option Trip) (s : SafetyDb) : fits b t (reads_now s) s.
Proof. split; [apply known_refl|apply known_refl|intros _; apply now_live|intros _; apply now_graded]. Qed.

Lemma case_read_found (t : option Trip) (rd : Reads) (s : SafetyDb) (i : Z) (x : Incident) :
  known s (rd_open rd) -> known s (rd_winner rd) -> case_read t rd s = Some (i, x) ->
  exists t' y, t = Some t' /\ in_trip x = Some (trip_id t') /\ incidents s !! i = Some y /\ in_trip y = in_trip x.
Proof.
  intros H1 H2 Hc.
  assert (H : exists z, known s z /\ open_incident_for_trip t z = Some (i, x)).
  { unfold case_read in Hc. destruct (open_incident_for_trip t (rd_open rd)) as [p|] eqn:E.
    - injection Hc as ->. by exists (rd_open rd).
    - destruct (open_incident_for_trip t s); [|done]. by exists (rd_winner rd). }
  destruct H as (z & Hz & (t' & Ht & Hx & Hl)%open_case_found). destruct (Hz i x Hx) as (y & Hy & Hty).
  unfold live_on in Hl. apply andb_true_iff in Hl as [Hl%bool_decide_eq_true _]. by exists t', y.
Qed.

Lemma raise_severity_spec (b : leeway) (i : Z) (x y : Incident) (v : incident_severity) (r : string) (now : Z) (s : SafetyDb) :
  incidents s !! i = Some y -> (lw_regraded b = false -> in_severity y = in_severity x) ->
  moves b s (raise_severity i x v r now s) /\
  sos_events (raise_severity i x v r now s) = sos_events s /\
  exists z, incidents (raise_severity i x v r now s) !! i = Some z /\ in_status z = in_status y /\ in_trip z = in_trip y /\
            (in_severity y = in_severity x -> SEVERITY_RANK (in_severity z) <= SEVERITY_RANK v).
Proof.
  intros Hy Hg. unfold raise_severity. destruct (_ <? _) eqn:E; [apply Z.ltb_lt in E|apply Z.ltb_ge in E].
  - split; [|split; [done|]].
    + apply update_moves. destruct (lw_regraded b) eqn:Eb; [eapply moved; [apply no_move|by apply mv_regrade]|].
      apply case_moves; [apply no_move|]. intros z Hz. replace z with y by congruence. apply gentle_severity. rewrite (Hg eq_refl). lia.
    + exists (with_severity v y). cbn. rewrite lookup_alter_eq, Hy. repeat split. intros _. lia.
  - split; [apply no_move|]. split; [done|]. exists y. repeat split; [done|]. intros ->. lia.
Qed.

(** The case of an opening: it exists and is of the trip; if the case that was read is still live, it
    is live; if its severity is the one that was read, it is at least as severe as asked. *)
Lemma open_incident_spec (b : leeway) (env : SafetyEnv) (o : Opening) (rd : Reads) (now : Z) (s s' : SafetyDb) (i : Z) (created : bool) :
  open_incident env o rd now s = Some (i, created, s') -> fits b (op_trip o) rd s ->
  moves b s s' /\ sos_events s' = sos_events s /\
  exists x, incidents s' !! i = Some x /\ (still_live (op_trip o) rd s -> is_live x = true) /\
            (forall t, op_trip o = Some t -> in_trip x = Some (trip_id t)) /\
            (still_graded (op_trip o) rd s -> SEVERITY_RANK (in_severity x) <= SEVERITY_RANK (op_severity o)).
Proof.
  intros H [H1 H2 H3 H4].
  assert (Hjoin : forall p, case_read (op_trip o) rd s = Some p -> join_incident o p now s = (i, created, s') ->
    moves b s s' /\ sos_events s' = sos_events s /\
    exists x, incidents s' !! i = Some x /\ (still_live (op_trip o) rd s -> is_live x = true) /\
            (forall t, op_trip o = Some t -> in_trip x = Some (trip_id t)) /\
            (still_graded (op_trip o) rd s -> SEVERITY_RANK (in_severity x) <= SEVERITY_RANK (op_severity o))).
  { intros [j x] Hp [= <- <- <-]. cbn [fst snd].
    destruct (case_read_found _ _ _ _ _ H1 H2 Hp) as (t & y & Ht & Htx & Hy & Hty).
    destruct (raise_severity_spec b j x y (op_severity o) ("Severity raised by " +:+ source_code (op_source o) +:+ ".") now s Hy)
      as (G1 & G2 & z & Hz & Hst & Htr & Hsev); [intros Hb; by apply (H4 Hb (j, x) y)|].
    split; [done|]. split; [done|]. exists z. split; [done|]. split; [|split].
    - intros Hl. rewrite is_live_status, Hst, <- is_live_status. by apply (Hl (j, x) y).
    - intros t' Ht'. congruence.
    - intros Hg. apply Hsev. by apply (Hg (j, x) y). }
  unfold open_incident in H. unfold case_read in Hjoin.
  destruct (open_incident_for_trip (op_trip o) (rd_open rd)) as [p|] eqn:Eo; [apply (inj Some) in H; by apply (Hjoin p)|].
  destruct (open_incident_for_trip (op_trip o) s) as [q|] eqn:Es.
  { destruct (open_incident_for_trip (op_trip o) (rd_winner rd)) as [p|]; [|done]. apply (inj Some) in H. by apply (Hjoin p). }
  clear Hjoin. destruct (resolve_incident_anchor _ _ _ _ _) as [node src]. injection H as <- <- <-.
  match goal with |- context [insert_incident ?r s] => set (row := r) end.
  set (s1 := add_update _ UOpened _ _ _ _ _ _ _).
  assert (Hin : incidents s1 !! incident_next s = Some row) by (unfold s1; cbn; by rewrite lookup_insert_eq).
  assert (Hm : moves b s s1).
  { apply update_moves. eapply moved; [apply no_move|]. apply mv_open; [done|]. intros t j y Ht Hy. unfold row in Ht. cbn in Ht.
    destruct (op_trip o) as [t'|] eqn:Et; [|done]. cbn in Ht. injection Ht as <-. by apply (open_case_none t' s j). }
  split; [auto 8 with safety|]. match goal with |- context [sos_events ?z] => assert (Hl : more_links s1 z) by auto 8 with safety end.
  destruct Hl as [l ->]. split; [done|]. exists row. split; [exact Hin|]. split; [done|]. split; [|done].
  intros t Ht. unfold row. cbn. by rewrite Ht.
Qed.

(** ** What the moves keep *)

Record cases_ok (s : SafetyDb) : Prop := {
  co_fresh : forall i x, incidents s !! i = Some x -> i < incident_next s;
  co_event_fresh : forall e x, sos_events s !! e = Some x -> e < sos_next s;
  co_one : forall t i j x y, incidents s !! i = Some x -> incidents s !! j = Some y -> live_on t x = true -> live_on t y = true -> i = j;
  co_linked : forall e x i, sos_events s !! e = Some x -> so_incident x = Some i ->
                is_Some (incidents s !! i) /\ existsb (is_link i LinkSos e) (links s) = true
}.

(** No alarm that still needs somebody sits behind a closed case. *)
Definition no_hidden_alarm (s : SafetyDb) : Prop :=
  forall i y e x, incidents s !! i = Some y -> in_status y = Closed -> sos_events s !! e = Some x -> so_incident x = Some i ->
  sos_active (so_status x) = false.

Lemma alter_some {A : Type} (f : A -> A) (i j : Z) (m : gmap Z A) (y : A) :
  alter f i m !! j = Some y -> exists x, m !! j = Some x /\ ((j = i /\ y = f x) \/ (j <> i /\ y = x)).
Proof.
  destruct (decide (j = i)) as [->|Hn].
  - rewrite lookup_alter_eq. intros (x & Hx & ->)%fmap_Some. exists x. by split; [|left].
  - rewrite lookup_alter_ne by done. intros H. exists y. by split; [|right].
Qed.

Lemma alter_is_some {A : Type} (f : A -> A) (i j : Z) (m : gmap Z A) : is_Some (m !! j) -> is_Some (alter f i m !! j).
Proof.
  intros [x Hx]. destruct (decide (j = i)) as [->|]; [rewrite lookup_alter_eq, Hx; by eexists|rewrite lookup_alter_ne by done; by eexists].
Qed.

Lemma live_on_gentle (t : Z) (x y : Incident) : gentle x y -> live_on t y = live_on t x.
Proof.
  intros H. unfold live_on, is_live. rewrite (ge_trip _ _ H). f_equal. f_equal. apply bool_decide_ext. apply (ge_closed _ _ H).
Qed.

Lemma link_filter (i j e t : Z) (k : link_kind) (l : list IncidentLink) :
  k <> LinkSos -> existsb (is_link i LinkSos e) l = true -> existsb (is_link i LinkSos e) (List.filter (fun x => negb (is_link j k t x)) l) = true.
Proof.
  intros Hk (x & Hin & Hx)%existsb_exists. apply existsb_exists. exists x. split; [|done]. apply filter_In. split; [done|].
  unfold is_link in *. apply andb_true_iff in Hx as [[_ Hx%bool_decide_eq_true]%andb_true_iff _].
  destruct (bool_decide_reflect (lk_kind x = k)); [congruence|]. by rewrite andb_false_r.
Qed.

Lemma linked_has (i : Z) (k : link_kind) (t : Z) (a : option Z) (s : SafetyDb) : existsb (is_link i k t) (links (linked i k t a s)) = true.
Proof.
  unfold linked, add_link. destruct (existsb _ (links s)) eqn:E; cbn [snd links set_links]; [done|]. rewrite existsb_app. cbn. unfold is_link. cbn.
  rewrite !Z.eqb_refl, bool_decide_true by done. by rewrite orb_true_r.
Qed.

Lemma more_links_has (s s1 : SafetyDb) (P : IncidentLink -> bool) : more_links s s1 -> existsb P (links s) = true -> existsb P (links s1) = true.
Proof. intros [l ->] H. cbn. by rewrite existsb_app, H. Qed.

Lemma blockers_none (i : Z) (s : SafetyDb) (e : Z) (x : SosEvent) :
  close_blockers i s = [] -> sos_events s !! e = Some x -> so_incident x = Some i -> sos_active (so_status x) = false.
Proof.
  unfold close_blockers, events_of. intros H%fmap_nil_inv He Hi. destruct (sos_active (so_status x)) eqn:E; [|done].
  assert (Hin : (e, x) ∈ List.filter (fun p : Z * SosEvent => sos_active (so_status p.2))
                  (List.filter (fun p : Z * SosEvent => bool_decide (so_incident p.2 = Some i)) (map_to_list (sos_events s)))).
  { apply elem_of_filter_b. split; [|done]. apply elem_of_filter_b. split; [by apply elem_of_map_to_list|]. by apply bool_decide_eq_true. }
  rewrite H in Hin. by apply elem_of_nil in Hin.
Qed.

(** A change of one case that neither moves it to another trip nor makes it live again. *)
Lemma case_keeps_ok (i : Z) (f : Incident -> Incident) (s : SafetyDb) :
  (forall x t, incidents s !! i = Some x -> live_on t (f x) = true -> live_on t x = true) -> cases_ok s -> cases_ok (update_incident i f s).
Proof.
  intros Hf [Hfr He H1 Hl]. split; cbn.
  - intros j y (x & Hx & _)%alter_some. by eapply Hfr.
  - exact He.
  - intros t j k y z (x & Hx & Ej)%alter_some (x' & Hx' & Ek)%alter_some Ly Lz.
    apply (H1 t j k x x' Hx Hx').
    + destruct Ej as [[-> ->]|[_ ->]]; eauto.
    + destruct Ek as [[-> ->]|[_ ->]]; eauto.
  - intros e x j Hx Hj. destruct (Hl e x j Hx Hj) as [Hs Hk]. split; [by apply alter_is_some|done].
Qed.

(** A change of one alarm that leaves it on its case. *)
Lemma event_keeps_ok (e : Z) (f : SosEvent -> SosEvent) (s : SafetyDb) :
  (forall x, sos_events s !! e = Some x -> so_incident (f x) = so_incident x) -> cases_ok s -> cases_ok (update_event e f s).
Proof.
  intros Hf [Hfr He H1 Hl]. split; cbn; [done| |done|].
  - intros j y (x & Hx & _)%alter_some. by eapply He.
  - intros j y i (x & Hx & E)%alter_some Hi. apply (Hl j x i Hx). destruct E as [[-> ->]|[_ ->]]; [|done]. by rewrite <- (Hf x Hx).
Qed.

Lemma trip_taken_none (i t : Z) (s : SafetyDb) (x : Incident) :
  trip_taken i s = false -> incidents s !! i = Some x -> in_trip x = Some t ->
  forall j y, j <> i -> incidents s !! j = Some y -> live_on t y = false.
Proof.
  unfold trip_taken. intros H Hx Ht j y Hj Hy. rewrite Hx in H. cbn in H. rewrite Ht in H. cbn in H.
  destruct (live_on t y) eqn:E; [|done]. rewrite <- not_true_iff_false in H. destruct H. apply existsb_exists. exists (j, y).
  split; [apply list_elem_of_In; by apply elem_of_map_to_list|]. cbn. by rewrite E, (proj2 (Z.eqb_neq j i) Hj).
Qed.

(** A case that becomes live again while no other case of its trip is. *)
Lemma reopen_keeps_ok (i : Z) (s : SafetyDb) : trip_taken i s = false -> cases_ok s -> cases_ok (update_incident i (with_status Investigating) s).
Proof.
  intros Ht [Hfr He H1 Hl]. split; cbn.
  - intros j y (x & Hx & _)%alter_some. by eapply Hfr.
  - exact He.
  - intros t j k y z (x & Hx & Ej)%alter_some (x' & Hx' & Ek)%alter_some Ly Lz.
    assert (Hmine : forall w, live_on t (with_status Investigating w) = true -> in_trip w = Some t)
      by (intros w [Hw%bool_decide_eq_true _]%andb_true_iff; exact Hw).
    destruct Ej as [[-> ->]|[Hj ->]], Ek as [[-> ->]|[Hk ->]]; [done| | |by apply (H1 t j k x x')].
    + exfalso. by rewrite (trip_taken_none i t s x Ht Hx (Hmine x Ly) k x' Hk Hx') in Lz.
    + exfalso. by rewrite (trip_taken_none i t s x' Ht Hx' (Hmine x' Lz) j x Hj Hx) in Ly.
  - intros e x j Hx Hj. destruct (Hl e x j Hx Hj) as [Hs Hk]. split; [by apply alter_is_some|done].
Qed.

Lemma case_move_ok (b : leeway) (s s' : SafetyDb) : move b s s' -> cases_ok s -> cases_ok s'.
Proof.
  intros Hm Hok. pose proof Hok as [Hfr He H1 Hl]. destruct Hm as [ | | l | i k t | | | | i f s Hg | i now o t s Hb | x s Hx Ht | x s Hx | e f s Hc | i v s Hb | i s Hb Ht | e s Hb | e i a x s Hx Hlive].
  - by split.
  - by split.
  - split; [done..|]. intros e x i Hx Hi. destruct (Hl e x i Hx Hi) as [Hs Hk]. split; [done|]. cbn. by rewrite existsb_app, Hk.
  - split; [done..|]. intros e x j Hx Hi. destruct (Hl e x j Hx Hi) as [Hs Hk]. split; [done|]. by apply link_filter.
  - by split.
  - by split.
  - by split.
  - apply case_keeps_ok; [|done]. intros x t Hx. by rewrite (live_on_gentle t x (f x) (Hg x Hx)).
  - apply case_keeps_ok; [|done]. intros x t' _. unfold live_on, is_live. cbn. by rewrite andb_false_r.
  - split; cbn; [|done| |].
    + intros i y. destruct (decide (i = incident_next s)) as [->|Hn]; [lia|]. rewrite lookup_insert_ne by done. intros Hy%Hfr. lia.
    + assert (Hnew : forall t i y, incidents s !! i = Some y -> live_on t y = true -> live_on t x = true -> False).
      { intros t i y Hy Ly Lx. unfold live_on in Lx. apply andb_true_iff in Lx as [Lx%bool_decide_eq_true _].
        by rewrite (Ht t i y Lx Hy) in Ly. }
      intros t i j y z Hy Hz Ly Lz. rewrite lookup_insert_Some in Hy, Hz.
      destruct Hy as [[<- <-]|[_ Hy]], Hz as [[<- <-]|[_ Hz]]; [done|exfalso; eauto..|by apply (H1 t i j y z)].
    + intros e y i Hy Hi. destruct (Hl e y i Hy Hi) as [Hs Hk]. split; [|done].
      destruct (decide (i = incident_next s)) as [->|]; [rewrite lookup_insert_eq; by eexists|by rewrite lookup_insert_ne].
  - split; cbn; [done| |done|].
    + intros i y. destruct (decide (i = sos_next s)) as [->|Hn]; [lia|]. rewrite lookup_insert_ne by done. intros Hy%He. lia.
    + intros e y i Hy Hi. destruct (decide (e = sos_next s)) as [->|Hn]; [rewrite lookup_insert_eq in Hy; congruence|].
      rewrite lookup_insert_ne in Hy by done. by apply (Hl e y i).
  - apply event_keeps_ok; [|done]. intros x Hx. by apply ca_incident, Hc.
  - by apply case_keeps_ok.
  - by apply reopen_keeps_ok.
  - by apply event_keeps_ok.
  - destruct (linked_more (update_event e (with_incident i) s) (update_event e (with_incident i) s) (more_links_refl _) i LinkSos e a) as [l Hlk].
    pose proof (linked_has i LinkSos e a (update_event e (with_incident i) s)) as Hhas. rewrite Hlk in *. split; cbn; [done| |done|].
    + intros j y (z & Hz & _)%alter_some. by eapply He.
    + intros j y k (z & Hz & E)%alter_some Hk. destruct E as [[-> ->]|[Hn ->]].
      * cbn in Hk. injection Hk as <-. split; [by eexists|exact Hhas].
      * destruct (Hl j z k Hz Hk) as [Hs Hkl]. split; [done|]. by rewrite existsb_app, Hkl.
Qed.

Lemma case_moves_ok (b : leeway) (s s' : SafetyDb) : moves b s s' -> cases_ok s -> cases_ok s'.
Proof. induction 1 as [|s s1 s' H _ IH]; [done|]. intros Hok. by eapply IH, case_move_ok. Qed.

Lemma quiet_move (b : leeway) (s s' : SafetyDb) :
  lw_returns b = false -> lw_closed b = false -> move b s s' -> cases_ok s -> no_hidden_alarm s -> no_hidden_alarm s'.
Proof.
  intros Hr Hcl0 Hm [Hfr He H1 Hl] Hq. destruct Hm as [ | | | | | | | i f s Hg | i now o t s Hb | y s Hy Ht | x s Hx | e f s Hc | i v s Hb | i s Hb Ht | e s Hb | e i a y s Hy Hlive]; try exact Hq.
  - intros j y e x (z & Hz & E)%alter_some Hcl Hx Hi. apply (Hq j z e x Hz); [|done..].
    destruct E as [[-> ->]|[_ ->]]; [|done]. by apply (ge_closed _ _ (Hg z Hz)).
  - intros j y e x (z & Hz & E)%alter_some Hcl Hx Hi. destruct E as [[-> ->]|[_ ->]]; [by apply (blockers_none i s e x Hb)|by apply (Hq j z e x)].
  - intros j z e x Hz Hcl Hx Hi. cbn in Hz. destruct (decide (j = incident_next s)) as [->|Hn].
    + rewrite lookup_insert_eq in Hz. injection Hz as <-. apply is_live_status in Hy. congruence.
    + rewrite lookup_insert_ne in Hz by done. by apply (Hq j z e x).
  - intros j y e z Hy Hcl Hz Hi. cbn in Hz. destruct (decide (e = sos_next s)) as [->|Hn]; [rewrite lookup_insert_eq in Hz; congruence|].
    rewrite lookup_insert_ne in Hz by done. by apply (Hq j y e z).
  - intros j y k z Hy Hcl (x & Hx & E)%alter_some Hi. destruct E as [[-> ->]|[_ ->]]; [|by apply (Hq j y k x)].
    destruct (Hc x Hx) as [_ _ _ _ Hci Hca _]. destruct (sos_active (so_status (f x))) eqn:Ea; [|done].
    rewrite (Hq j y e x Hy Hcl Hx) in Hca by congruence. by specialize (Hca eq_refl).
  - intros j y e x (z & Hz & E)%alter_some Hcl Hx Hi. apply (Hq j z e x Hz); [|done..]. by destruct E as [[-> ->]|[_ ->]].
  - intros j y e x (z & Hz & E)%alter_some Hcl Hx Hi. destruct E as [[-> ->]|[_ ->]]; [done|by apply (Hq j z e x)].
  - congruence.
  - destruct (linked_more (update_event e (with_incident i) s) (update_event e (with_incident i) s) (more_links_refl _) i LinkSos e a) as [l Hlk].
    rewrite Hlk. intros j z k x Hz Hcl (w & Hw & E)%alter_some Hi. cbn in Hz. destruct E as [[-> ->]|[_ ->]]; [|by apply (Hq j z k w)].
    cbn in Hi. injection Hi as <-. replace z with y in Hcl by congruence. by apply is_live_status in Hlive.
Qed.

Lemma quiet_moves (b : leeway) (s s' : SafetyDb) :
  lw_returns b = false -> lw_closed b = false -> moves b s s' -> cases_ok s -> no_hidden_alarm s -> no_hidden_alarm s'.
Proof.
  intros Hr Hc. induction 1 as [|s s1 s' H _ IH]; [done|]. intros Hok Hq. apply IH; [by eapply case_move_ok|by eapply quiet_move].
Qed.

(** ** What never goes back *)

(** What every operation keeps of a case, and what it keeps unless a reading was overtaken. *)
Record case_kept (x y : Incident) : Prop := {
  ck_trip : in_trip y = in_trip x;
  ck_opened : in_opened_at y = in_opened_at x;
  ck_source : in_source y = in_source x;
  ck_marker : is_Some (in_escalated_at x) -> in_escalated_at y = in_escalated_at x
}.

Record case_grew (x y : Incident) : Prop := {
  cg_kept : case_kept x y;
  cg_closed : in_status x = Closed -> in_status y = Closed;
  cg_severity : SEVERITY_RANK (in_severity y) <= SEVERITY_RANK (in_severity x)
}.

Record alarm_grew (x y : SosEvent) : Prop := {
  ag_user : so_user y = so_user x;
  ag_trip : so_trip y = so_trip x;
  ag_type : so_type y = so_type x;
  ag_created : so_created y = so_created x;
  ag_incident : is_Some (so_incident x) -> is_Some (so_incident y);
  ag_marker : is_Some (so_escalated_at x) -> so_escalated_at y = so_escalated_at x
}.

#[global] Instance case_kept_preorder : PreOrder case_kept.
Proof.
  split; [by split|]. intros x y z [A1 A2 A3 A4] [B1 B2 B3 B4]. split; try congruence.
  intros H. rewrite B4; [by apply A4|by rewrite A4].
Qed.

#[global] Instance case_grew_preorder : PreOrder case_grew.
Proof.
  split; [by split|]. intros x y z [A1 A2 A3] [B1 B2 B3]. split; [by transitivity y|auto|lia].
Qed.

#[global] Instance alarm_grew_preorder : PreOrder alarm_grew.
Proof.
  split; [by split|]. intros x y z [A1 A2 A3 A4 A5 A6] [B1 B2 B3 B4 B5 B6]. split; try congruence; [auto|].
  intros H. rewrite B6; [by apply A6|by rewrite A6].
Qed.

(** Nothing is deleted, the timelines only get longer, and rows only grow ([R] for the cases). *)
Record later (R : Incident -> Incident -> Prop) (s s' : SafetyDb) : Prop := {
  la_cases : forall i x, incidents s !! i = Some x -> exists y, incidents s' !! i = Some y /\ R x y;
  la_alarms : forall e x, sos_events s !! e = Some x -> exists y, sos_events s' !! e = Some y /\ alarm_grew x y;
  la_timeline : updates s `prefix_of` updates s';
  la_history : sos_updates s `prefix_of` sos_updates s'
}.

#[global] Instance later_preorder (R : Incident -> Incident -> Prop) : PreOrder R -> PreOrder (later R).
Proof.
  intros HR. split.
  - intros s. split; [intros i x Hx; by exists x|intros i x Hx; by exists x|done|done].
  - intros s1 s2 s3 [A1 A2 A3 A4] [B1 B2 B3 B4]. split; [| |by etrans|by etrans].
    + intros i x (y & Hy & Gy)%A1. destruct (B1 i y Hy) as (z & Hz & Gz). exists z. split; [done|by etrans].
    + intros i x (y & Hy & Gy)%A2. destruct (B2 i y Hy) as (z & Hz & Gz). exists z. split; [done|by etrans].
Qed.

Lemma alter_grew {A : Type} (R : A -> A -> Prop) `{!Reflexive R} (f : A -> A) (i : Z) (m : gmap Z A) :
  (forall x, m !! i = Some x -> R x (f x)) -> forall j x, m !! j = Some x -> exists y, alter f i m !! j = Some y /\ R x y.
Proof.
  intros Hf j x Hx. destruct (decide (j = i)) as [->|].
  - exists (f x). by rewrite lookup_alter_eq, Hx; auto.
  - exists x. by rewrite lookup_alter_ne.
Qed.

Lemma insert_grew {A : Type} (R : A -> A -> Prop) `{!Reflexive R} (k : Z) (a : A) (m : gmap Z A) :
  (forall i x, m !! i = Some x -> i < k) -> forall j x, m !! j = Some x -> exists y, <[k := a]> m !! j = Some y /\ R x y.
Proof. intros Hk j x Hx. exists x. split; [|done]. rewrite lookup_insert_ne; [done|]. intros ->. specialize (Hk j x Hx). lia. Qed.

Lemma same_grew {A : Type} (R : A -> A -> Prop) `{!Reflexive R} (m : gmap Z A) : forall j x, m !! j = Some x -> exists y, m !! j = Some y /\ R x y.
Proof. intros j x Hx. by exists x. Qed.

Lemma gentle_grew (x y : Incident) : gentle x y -> case_grew x y.
Proof. intros [A1 A2 A3 A4 A5 A6]. split; [split; try done|tauto|done]. intros [t Ht]. destruct A6; congruence. Qed.

Lemma calm_grew (x y : SosEvent) : calm x y -> alarm_grew x y.
Proof. intros [A1 A2 A3 A4 A5 A6 A7]. split; try done; [by rewrite A5|]. intros [t Ht]. destruct A7; congruence. Qed.

Section Later.
Context (R : Incident -> Incident -> Prop) `{!PreOrder R} (b : leeway).
Context (Hgentle : forall x y, gentle x y -> R x y) (Hclosed : forall x now o t, R x (with_closed now o t x)).
Context (Hgraded : lw_regraded b = true -> forall x v, R x (with_severity v x)).
Context (Hreopen : lw_reopens b = true -> forall x, R x (with_status Investigating x)).

Lemma move_later (s s' : SafetyDb) : move b s s' -> cases_ok s -> later R s s'.
Proof.
  intros Hm [Hfr He _ _].
  assert (K : forall z, (forall i x, incidents s !! i = Some x -> exists y, incidents z !! i = Some y /\ R x y) ->
                (forall e x, sos_events s !! e = Some x -> exists y, sos_events z !! e = Some y /\ alarm_grew x y) ->
                updates z = updates s -> sos_updates z = sos_updates s -> later R s z).
  { intros z H1 H2 H3 H4. split; [done|done|by rewrite H3|by rewrite H4]. }
  destruct Hm as [u|u|l|i k t ? Hk|t|m|x|i f ? Hg|i now o t ? Hb|x ? Hx Ht|x ? Hx|e f ? Hc|i v ? Hb|i ? Hb Ht|e ? Hb|e i a y ? Hy Hl].
  1, 2: by split; cbn; [apply (same_grew _)|apply (same_grew _)|try by apply prefix_app_r..].
  all: apply K; cbn; try done; try apply (same_grew _).
  - apply (alter_grew _). intros x Hx. by apply Hgentle, Hg.
  - apply (alter_grew _). intros x Hx. apply Hclosed.
  - by apply (insert_grew _).
  - by apply (insert_grew _).
  - apply (alter_grew _). intros x Hx. by apply calm_grew, Hc.
  - apply (alter_grew _). intros x Hx. by apply Hgraded.
  - apply (alter_grew _). intros x Hx. by apply Hreopen.
  - apply (alter_grew _). intros x Hx. by split.
  - unfold linked, add_link. destruct (existsb _ _); apply (same_grew _).
  - assert (H : sos_events (linked i LinkSos e a (update_event e (with_incident i) s)) = alter (with_incident i) e (sos_events s))
      by (unfold linked, add_link; by destruct (existsb _ _)).
    rewrite H. apply (alter_grew _). intros x Hx. by split.
  - unfold linked, add_link. by destruct (existsb _ _).
  - unfold linked, add_link. by destruct (existsb _ _).
Qed.

Lemma moves_later (s s' : SafetyDb) : moves b s s' -> cases_ok s -> later R s s'.
Proof.
  induction 1 as [|s s1 s' H _ IH]; intros Hok; [reflexivity|].
  transitivity s1; [by apply move_later|]. by eapply IH, case_move_ok.
Qed.
End Later.

Lemma moves_kept (b : leeway) (s s' : SafetyDb) : moves b s s' -> cases_ok s -> later case_kept s s'.
Proof.
  apply (moves_later _ b).
  - by intros x y [K _ _]%gentle_grew.
  - intros. by split.
  - intros. by split.
  - intros. by split.
Qed.

Lemma moves_grew (b : leeway) (s s' : SafetyDb) :
  lw_regraded b = false -> lw_reopens b = false -> moves b s s' -> cases_ok s -> later case_grew s s'.
Proof.
  intros Hg Hr. apply (moves_later _ b); [exact gentle_grew|intros; by split; [split|..]|congruence|congruence].
Qed.

Lemma kept_known (s seen : SafetyDb) : later case_kept seen s -> known s seen.
Proof. intros H i x Hx. destruct (la_cases _ _ _ H i x Hx) as (y & Hy & K). exists y. split; [done|]. apply (ck_trip _ _ K). Qed.

(** ** The operations are moves *)

Lemma linked_events (i : Z) (k : link_kind) (t : Z) (a : option Z) (s : SafetyDb) : sos_events (linked i k t a s) = sos_events s.
Proof. unfold linked, add_link. by destruct (existsb _ _). Qed.

Lemma linked_incidents (i : Z) (k : link_kind) (t : Z) (a : option Z) (s : SafetyDb) : incidents (linked i k t a s) = incidents s.
Proof. unfold linked, add_link. by destruct (existsb _ _). Qed.

(** The case of an alarm that was attached. *)
Record attached (env : SafetyEnv) (e : Z) (x : SosEvent) (s : SafetyDb) : Prop := {
  at_case : exists i y, sos_events s !! e = Some (with_incident i x) /\ incidents s !! i = Some y /\ is_live y = true /\
              SEVERITY_RANK (in_severity y) <= SEVERITY_RANK (sos_mapping (so_type x)).2 /\
              (forall t, trip_of env (so_trip x) = Some t -> in_trip y = Some (trip_id t)) /\ existsb (is_link i LinkSos e) (links s) = true
}.

(** What is sure of it whatever became of the case since it was read. *)
Definition filed (env : SafetyEnv) (e : Z) (x : SosEvent) (s : SafetyDb) : Prop :=
  exists i y, sos_events s !! e = Some (with_incident i x) /\ incidents s !! i = Some y /\
    (forall t, trip_of env (so_trip x) = Some t -> in_trip y = Some (trip_id t)) /\ existsb (is_link i LinkSos e) (links s) = true.

Lemma attach_sos_spec (b : leeway) (env : SafetyEnv) (e : Z) (x : SosEvent) (rd : Reads) (now : Z) (s s' : SafetyDb) :
  sos_events s !! e = Some x -> attach_sos env e x rd now s = Some s' -> fits b (trip_of env (so_trip x)) rd s ->
  moves b s s' /\ filed env e x s' /\
  (still_live (trip_of env (so_trip x)) rd s -> still_graded (trip_of env (so_trip x)) rd s -> attached env e x s') /\
  (forall d, d <> e -> sos_events s' !! d = sos_events s !! d).
Proof.
  intros Hx Hs' Hfits. unfold attach_sos in Hs'. destruct (sos_mapping (so_type x)) as [cat sev] eqn:Em.
  apply bind_Some in Hs' as ([[i created] s1] & Eo & Hs'). apply (inj Some) in Hs' as <-.
  apply (open_incident_spec b) in Eo as (Hm & Hev & y & Hy & Hlive & Htrip & Hsev); [|done]. cbn in Hlive, Htrip, Hsev.
  set (s2 := linked i LinkSos e None (update_event e (with_incident i) s1)).
  assert (Hm2 : moves b s s2).
  { eapply moved; [exact Hm|]. eapply mv_attach; [exact Hy|]. intros Hb. apply Hlive. by apply (ft_live _ _ _ _ Hfits). }
  assert (Hl : more_links s2 (link_people env i (trip_of env (so_trip x)) (so_user x) None s2)) by auto with safety.
  split; [auto 6 with safety|].
  assert (Hev2 : sos_events s2 = alter (with_incident i) e (sos_events s)) by (unfold s2; rewrite linked_events; cbn; by rewrite Hev).
  assert (Hin2 : incidents s2 = incidents s1) by (unfold s2; by rewrite linked_incidents).
  destruct Hl as [l ->]. unfold add_update, push_update, set_links. cbn [sos_events incidents links].
  assert (He : alter (with_incident i) e (sos_events s) !! e = Some (with_incident i x)) by (by rewrite lookup_alter_eq, Hx).
  assert (Hk : existsb (is_link i LinkSos e) (links s2 ++ l) = true) by (rewrite existsb_app; unfold s2; by rewrite linked_has).
  split; [|split].
  - exists i, y. cbn [sos_events incidents links]. by rewrite Hev2, Hin2.
  - intros Hsl Hsg. split. exists i, y. cbn [sos_events incidents links]. rewrite Hev2, Hin2, Em. repeat split; try done; auto.
  - intros d Hd. by rewrite Hev2, lookup_alter_ne.
Qed.

(** Whatever is read, the attempt leaves the other alarms alone, and this one as it was or on a case. *)
Lemma attach_safely_spec (b : leeway) (fails : bool) (env : SafetyEnv) (e : Z) (x : SosEvent) (rd : Reads) (now : Z) (s : SafetyDb) :
  sos_events s !! e = Some x -> fits b (trip_of env (so_trip x)) rd s ->
  let s' := (attach_sos_safely fails env e rd now s).2 in
  moves b s s' /\ (s' = s \/ fails = false /\ filed env e x s') /\ (forall d, d <> e -> sos_events s' !! d = sos_events s !! d).
Proof.
  intros Hx Hf. unfold attach_sos_safely. rewrite Hx. destruct fails; [split; [apply no_move|by split; [left|]]|].
  destruct (attach_sos env e x rd now s) as [s'|] eqn:E; [|split; [apply no_move|by split; [left|]]].
  destruct (attach_sos_spec b _ _ _ _ _ _ _ Hx E Hf) as (H1 & H2 & _ & H3). cbn [snd]. split; [done|]. split; [by right|done].
Qed.

(** The reading finds a case that is as it was, or finds none because there is none. *)
Definition timely (t : option Trip) (rd : Reads) (s : SafetyDb) : Prop :=
  still_live t rd s /\ still_graded t rd s /\ (case_read t rd s = None -> open_incident_for_trip t s = None).

Lemma now_timely (t : option Trip) (s : SafetyDb) : timely t (reads_now s) s.
Proof. split; [apply now_live|]. split; [apply now_graded|]. by rewrite case_read_now. Qed.

Lemma open_timely (env : SafetyEnv) (o : Opening) (rd : Reads) (now : Z) (s : SafetyDb) :
  timely (op_trip o) rd s -> is_Some (open_incident env o rd now s).
Proof.
  intros (_ & _ & H). unfold open_incident, case_read in *. destruct (open_incident_for_trip (op_trip o) (rd_open rd)); [by eexists|].
  destruct (open_incident_for_trip (op_trip o) s); [|by destruct (resolve_incident_anchor _ _ _ _ _); eexists].
  destruct (open_incident_for_trip (op_trip o) (rd_winner rd)); [by eexists|by specialize (H eq_refl)].
Qed.

Lemma attach_timely (env : SafetyEnv) (e : Z) (x : SosEvent) (rd : Reads) (now : Z) (s : SafetyDb) :
  timely (trip_of env (so_trip x)) rd s -> is_Some (attach_sos env e x rd now s).
Proof.
  intros H. unfold attach_sos. destruct (sos_mapping _) as [cat sev].
  match goal with |- context [open_incident env ?o rd now s] => destruct (open_timely env o rd now s H) as [[[i c] s1] ->] end.
  by eexists.
Qed.

Lemma attach_safely_timely (env : SafetyEnv) (e : Z) (x : SosEvent) (rd : Reads) (now : Z) (s : SafetyDb) :
  sos_events s !! e = Some x -> known s (rd_open rd) -> known s (rd_winner rd) -> timely (trip_of env (so_trip x)) rd s ->
  attached env e x (attach_sos_safely false env e rd now s).2.
Proof.
  intros Hx H1 H2 Ht. unfold attach_sos_safely. rewrite Hx. destruct (attach_timely env e x rd now s Ht) as [s' E]. rewrite E. cbn [snd].
  destruct Ht as (Hl & Hg & _). by apply (attach_sos_spec anything _ _ _ _ _ _ _ Hx E); [split|..].
Qed.

Lemma attach_safely_moves (b : leeway) (fails : bool) (env : SafetyEnv) (e : Z) (rd : Reads) (now : Z) (s s1 : SafetyDb) :
  (forall x, sos_events s1 !! e = Some x -> fits b (trip_of env (so_trip x)) rd s1) ->
  moves b s s1 -> moves b s (attach_sos_safely fails env e rd now s1).2.
Proof.
  intros Hf H. destruct (sos_events s1 !! e) as [x|] eqn:Ex; [|unfold attach_sos_safely; by rewrite Ex].
  transitivity s1; [exact H|]. by apply (attach_safely_spec b fails env e x rd now s1 Ex), Hf.
Qed.

Lemma save_event_moves (b : leeway) (fails : bool) (env : SafetyEnv) (x : SosEvent) (rd : Reads) (now : Z) (s : SafetyDb) :
  so_incident x = None -> fits b (trip_of env (so_trip x)) rd s -> moves b s (save_event fails env x rd now s).2.
Proof.
  intros Hx Hf. unfold save_event. cbn [snd].
  assert (H : moves b s (insert_event x s)) by (eapply moved; [apply no_move|]; by apply mv_raise).
  assert (Hl : forall s1, sos_events s1 = <[sos_next s := x]> (sos_events s) -> incidents s1 = incidents s ->
    forall y, sos_events s1 !! sos_next s = Some y -> fits b (trip_of env (so_trip y)) rd s1).
  { intros s1 He Hi y Hy. rewrite He, lookup_insert_eq in Hy. injection Hy as <-. by apply (fits_same b _ rd s). }
  apply attach_safely_moves; [|destruct (bool_decide _); [by apply alert_moves|exact H]].
  destruct (bool_decide _); by apply Hl.
Qed.

Lemma clear_sos_moves (b : leeway) (e : Z) (i : option Z) (now : Z) (s s1 : SafetyDb) : moves b s s1 -> moves b s (clear_sos_alerts e i now s1).
Proof. intros H. unfold clear_sos_alerts. destruct i as [i|]; [destruct (existsb _ _)|]; auto with safety. Qed.

#[export] Hint Resolve clear_sos_moves : safety.

(** The case of the alarm was not closed since it was read, or such a case may be set to work. *)
Definition punctual (b : leeway) (incident : option Z) (seen s : SafetyDb) : Prop :=
  lw_reopens b = false -> forall i y, incident = Some i -> in_status <$> incidents seen !! i = Some Opened ->
  incidents s !! i = Some y -> is_live y = true.

Lemma clear_sos_incidents (e : Z) (i : option Z) (now : Z) (s : SafetyDb) : incidents (clear_sos_alerts e i now s) = incidents s.
Proof. unfold clear_sos_alerts. destruct i as [i|]; [|done]. by destruct (existsb _ _). Qed.

(** The two outcomes of the note on the case: only the timeline, or the case is set to work. *)
Lemma note_cases_spec (e : Z) (incident : option Z) (st : sos_status) (a : option Z) (n : string) (seen : SafetyDb) (now : Z) (s s' : SafetyDb) :
  note_on_sos_transition e incident st a n seen now s = Some s' ->
  sos_events s' = sos_events s /\
  (incidents s' = incidents s \/
   exists i, incident = Some i /\ st = SosAcknowledged /\ in_status <$> incidents seen !! i = Some Opened /\ trip_taken i s = false /\
             incidents s' = alter (with_status Investigating) i (incidents s)).
Proof.
  unfold note_on_sos_transition. set (s1 := if bool_decide (st = SosOpen) then s else clear_sos_alerts e incident now s).
  assert (Hi : incidents s1 = incidents s) by (unfold s1; destruct (bool_decide _); [done|apply clear_sos_incidents]).
  assert (He : sos_events s1 = sos_events s).
  { unfold s1, clear_sos_alerts. destruct (bool_decide _); [done|]. destruct incident as [i|]; [|done]. by destruct (existsb _ _). }
  destruct incident as [i|]; [|intros [= <-]; split; [done|by left]].
  destruct (_ && _) eqn:E; [|intros [= <-]; split; [done|by left]]. apply andb_true_iff in E as [E1%bool_decide_eq_true E2%bool_decide_eq_true].
  unfold trip_taken. cbn [add_update push_update incidents]. rewrite Hi. fold (trip_taken i s). destruct (trip_taken i s) eqn:Et; [done|].
  intros [= <-]. split; [done|]. right. exists i. cbn. by rewrite Hi.
Qed.

Lemma transition_note_moves (b : leeway) (e : Z) (i : option Z) (st : sos_status) (a : option Z) (n : string) (seen : SafetyDb) (now : Z)
    (s s1 s' : SafetyDb) :
  note_on_sos_transition e i st a n seen now s1 = Some s' -> (st = SosAcknowledged -> punctual b i seen s1) -> moves b s s1 -> moves b s s'.
Proof.
  intros Hn Hp H. unfold note_on_sos_transition in Hn. set (s2 := if bool_decide (st = SosOpen) then s1 else clear_sos_alerts e i now s1) in Hn.
  assert (H1 : moves b s s2) by (unfold s2; destruct (bool_decide _); auto with safety).
  assert (Hi : incidents s2 = incidents s1) by (unfold s2; destruct (bool_decide _); [done|apply clear_sos_incidents]).
  clearbody s2. destruct i as [i|]; [|by injection Hn as <-].
  destruct (_ && _) eqn:E; [|injection Hn as <-; auto with safety].
  apply andb_true_iff in E as [E1%bool_decide_eq_true E2%bool_decide_eq_true].
  destruct (trip_taken _ _) eqn:Et; [done|]. apply (inj Some) in Hn as <-. apply update_moves.
  destruct (lw_reopens b) eqn:Eb; [eapply moved; [apply update_moves, H1|by apply mv_reopen]|].
  apply case_moves; [auto with safety|]. cbn. rewrite Hi. intros y Hy. apply gentle_status.
  assert (Hl : is_live y = true) by (by apply (Hp E1 Eb i y)). apply is_live_status in Hl. split; [done|]. intros E. by destruct Hl.
Qed.

(** A transition is a move of the strict kind unless it takes up an alarm that was over. *)
Definition brings_back (s : SafetyDb) (e : Z) (target : sos_status) : Prop :=
  sos_active target = true /\ exists x, sos_events s !! e = Some x /\ sos_active (so_status x) = false.

Definition no_return (b : leeway) (s : SafetyDb) (e : Z) (target : sos_status) : Prop := lw_returns b = false -> ~ brings_back s e target.

Definition punctual_for (b : leeway) (e : Z) (seen s : SafetyDb) : Prop :=
  forall x, sos_events s !! e = Some x -> punctual b (so_incident x) seen s.

Lemma transition_moves (b : leeway) (e : Z) (target : sos_status) (a : option Z) (n : string) (r : bool) (seen : SafetyDb) (now : Z) (s s1 : SafetyDb) :
  target <> SosOpen -> no_return b s1 e target -> (target = SosAcknowledged -> punctual_for b e seen s1) ->
  moves b s s1 -> moves b s (apply_transition e target a n r seen now s1).2.
Proof.
  intros Ht Hb Hp H. unfold apply_transition. destruct (sos_events s1 !! e) as [x|] eqn:Ex; [|exact H].
  destruct (bool_decide _); [exact H|]. destruct (r && _); [exact H|].
  destruct (note_on_sos_transition _ _ _ _ _ _ _ _) as [s2|] eqn:En; [|exact H]. cbn [snd].
  eapply transition_note_moves; [exact En|intros E; by apply (Hp E x)|]. apply sos_note_moves.
  destruct (sos_active target) eqn:Ea; [destruct (sos_active (so_status x)) eqn:Ex'|].
  - apply event_moves; [exact H|]. intros y Hy. apply calm_status. intros _. congruence.
  - destruct (lw_returns b) eqn:Er; [|by destruct (Hb Er); split; [|exists x]]. eapply moved; [exact H|].
    destruct target; try done. by apply mv_back.
  - apply event_moves; [exact H|]. intros y Hy. apply calm_status. congruence.
Qed.

Section Handlers.
Context (b : leeway).

(** The trip a request names, if it is the caller's. *)
Definition trip_asked (env : SafetyEnv) (rq : SosRequest) : option Trip :=
  t ← (match sr_trip rq with Some t => if t =? 0 then None else Some t | None => None end); own_trip env (sr_user rq) t.

(** The trip its alarm is attached by. *)
Definition trip_raised (env : SafetyEnv) (rq : SosRequest) : option Trip := trip_of env (trip_id <$> trip_asked env rq).

Lemma raise_sos_moves (fails : bool) (env : SafetyEnv) (rq : SosRequest) (rd : Reads) (now : Z) (s : SafetyDb) :
  fits b (trip_raised env rq) rd s -> moves b s (raise_sos fails env rq rd now s).2.
Proof.
  intros Hf. unfold raise_sos. destruct (negb _); [apply no_move|]. destruct (_ && _); [apply no_move|]. cbv zeta.
  destruct (best_by _ _) as [p|]; [apply no_move|]. destruct (resolve_anchor _ _ _ _ _) as [n src].
  destruct (save_event _ _ _ _ _ _) as [e s'] eqn:E. cbn [snd]. change s' with (e, s').2. rewrite <- E. by apply save_event_moves.
Qed.

Lemma mistake_moves (u e : Z) (seen : SafetyDb) (now : Z) (s : SafetyDb) :
  punctual_for b e seen s -> moves b s (raiser_mistake_sos u e seen now s).2.
Proof.
  intros Hp. unfold raiser_mistake_sos. destruct (sos_events s !! e) as [x|] eqn:Ex; [|apply no_move]. destruct (negb _); [apply no_move|].
  assert (H : forall st (k : option SafetyDb -> res refusal bool * SafetyDb),
    (k None).2 = s -> (forall s', (k (Some s')).2 = s') ->
    moves b s (k (note_on_sos_transition e (so_incident x) st (Some u) RAISER_MISTAKE_NOTE seen now
      (push_sos_update {| su_event := e; su_actor := Some u; su_status := st; su_note := RAISER_MISTAKE_NOTE; su_at := now |} (update_event e (with_mistake now) s)))).2).
  { intros st k K1 K2. destruct (note_on_sos_transition _ _ _ _ _ _ _ _) as [s'|] eqn:En; [|rewrite K1; apply no_move]. rewrite K2.
    eapply transition_note_moves; [exact En|intros _; by apply (Hp x)|].
    apply sos_note_moves, event_moves; [apply no_move|]. intros y _. apply calm_mistake. }
  destruct (so_status x); [destruct (bool_decide _); [|apply no_move]..|apply no_move|apply no_move].
  all: by apply (H _ (fun o => match o with Some s' => (Ok true, s') | None => (Err InternalError, s) end)).
Qed.

Lemma close_moves (i : Z) (x : Incident) (a : option Z) (t o : string) (now : Z) (s s1 : SafetyDb) :
  close_blockers i s1 = [] -> moves b s s1 -> moves b s (close_incident i x a t o now s1).
Proof.
  intros Hb H. unfold close_incident.
  assert (H1 : moves b s (clear_on "safety_incident" i "Case closed" [] now
    (add_update i UClosed a (Some (in_status x)) (Some Closed) t EmptyString now (update_incident i (with_closed now o t) s1)))).
  { apply clear_moves, update_moves. eapply moved; [exact H|]. by apply mv_close. }
  revert H1. generalize (clear_on "safety_incident" i "Case closed" [] now
    (add_update i UClosed a (Some (in_status x)) (Some Closed) t EmptyString now (update_incident i (with_closed now o t) s1))).
  intros s2 H2. generalize (fst <$> events_of i s2). intros l. revert s2 H2.
  induction l as [|e l IH]; intros s2 H2; [exact H2|]. cbn [foldl]. apply IH. by apply clear_moves.
Qed.

Lemma assign_moves (i : Z) (p : option User) (a : option Z) (now : Z) (s : SafetyDb) : moves b s (assign i p a now s).
Proof.
  unfold assign. assert (H : moves b s (update_incident i (with_assigned (uid <$> p)) s))
    by (apply case_moves; [apply no_move|]; intros y _; apply gentle_assigned).
  destruct p; auto with safety.
Qed.

Lemma action_taken_moves (i : Z) (x : Incident) (a : option Z) (n : string) (now : Z) (s s1 : SafetyDb) :
  moves b s s1 -> (forall y, incidents s1 !! i = Some y -> in_status y = in_status x) ->
  moves b s (match in_status x with
             | Opened | Investigating =>
               add_update i UStatus a (Some (in_status x)) (Some ActionTaken) n EmptyString now (update_incident i (with_status ActionTaken) s1)
             | _ => s1
             end).
Proof.
  intros H Hx. destruct (in_status x) eqn:E; [| |exact H..].
  all: apply update_moves, case_moves; [exact H|]; intros y Hy; apply gentle_status; by rewrite (Hx y Hy).
Qed.

Lemma police_moves (i : Z) (x : Incident) (a : option Z) (r n : string) (now : Z) (s : SafetyDb) :
  incidents s !! i = Some x -> moves b s (refer_to_police i x a r n now s).
Proof.
  intros Hx. unfold refer_to_police. apply update_moves, action_taken_moves.
  - apply case_moves; [apply no_move|]. intros y _. apply gentle_police.
  - cbn. intros y (z & Hz & E)%alter_some. destruct E as [[_ ->]|[Hn _]]; [|done]. cbn. congruence.
Qed.

Lemma after_action_moves (i u : Z) (n : string) (now : Z) (s : SafetyDb) : moves b s (after_action i u n now s).
Proof.
  unfold after_action. destruct (incidents s !! i) as [x|] eqn:Ex; [|apply no_move].
  apply action_taken_moves; [auto with safety|]. cbn. intros y Hy. congruence.
Qed.

Lemma link_added_moves (i : Z) (k : link_kind) (t : Z) (a : option Z) (now : Z) (s s1 : SafetyDb) :
  moves b s s1 -> moves b s (link_added i k t a now s1).2.
Proof.
  intros H. unfold link_added. destruct (add_link i k t a s1) as [created s2] eqn:E. cbn [snd].
  assert (H2 : moves b s s2) by (change s2 with (created, s2).2; rewrite <- E; by apply linked_moves).
  destruct created; auto with safety.
Qed.

(** Linking an alarm: the link and the alarm's column together. *)
Lemma take_alarm_moves (i e : Z) (x : Incident) (a : option Z) (now : Z) (s s1 : SafetyDb) :
  moves b s s1 -> incidents s1 !! i = Some x -> (lw_closed b = false -> is_live x = true) ->
  moves b s (link_added i LinkSos e a now (update_event e (with_incident i) s1)).2.
Proof.
  intros H Hx Hl. unfold link_added. destruct (add_link i LinkSos e a (update_event e (with_incident i) s1)) as [created s2] eqn:E. cbn [snd].
  assert (H2 : moves b s s2).
  { change s2 with (created, s2).2. rewrite <- E. eapply moved; [exact H|]. by eapply mv_attach. }
  destruct created; auto with safety.
Qed.

Lemma take_alarm_comm (i e : Z) (a : option Z) (now : Z) (s : SafetyDb) :
  update_event e (with_incident i) (link_added i LinkSos e a now s).2 = (link_added i LinkSos e a now (update_event e (with_incident i) s)).2.
Proof.
  unfold link_added, add_link. cbn [links update_event set_events]. by destruct (existsb (is_link i LinkSos e) (links s)).
Qed.

Lemma link_removed_moves (i : Z) (k : link_kind) (t : Z) (a : option Z) (now : Z) (s : SafetyDb) :
  k <> LinkSos -> moves b s (link_removed i k t a now s).2.
Proof.
  intros Hk. unfold link_removed. destruct (existsb _ (links s)); [|apply no_move]. cbn [snd]. apply update_moves.
  eapply moved; [apply no_move|]. by apply mv_unlink.
Qed.

Lemma ticket_moves (env : SafetyEnv) (tk u : Z) (t : option Trip) (a : Z) (n : string) (rd : Reads) (now : Z) (s s' : SafetyDb) (i : Z) (c : bool) :
  open_from_ticket env tk u t a n rd now s = Some (i, c, s') -> fits b t rd s -> moves b s s'.
Proof.
  unfold open_from_ticket. intros ([[j created] s1] & E & H)%bind_Some Hf.
  apply (open_incident_spec b) in E as (Hm & _); [|done]. destruct created; injection H as <- <- <-; auto with safety.
Qed.

Lemma promote_moves (env : SafetyEnv) (k : Z) (t : Trip) (rd : Reads) (now : Z) (s : SafetyDb) :
  fits b (Some t) rd s -> moves b s (promote env k t rd now s).2.
Proof.
  intros Hf. unfold promote. destruct (signals s !! k) as [g|]; [|apply no_move]. destruct (negb _ || _); [apply no_move|].
  destruct (open_from_signal env g t rd now s) as [[[i c] s1]|] eqn:E; [|apply no_move]. cbn [snd]. apply alert_moves.
  unfold open_from_signal in E. apply bind_Some in E as ([[j created] s2] & Eo & E). apply (inj Some) in E. injection E as <- <- <-.
  apply (open_incident_spec b) in Eo as (H & _); [|done]. eapply moved; [apply update_moves, H|]. apply mv_signals.
Qed.

Lemma finding_moves (env : SafetyEnv) (t : Trip) (c : SafetyCountryConfig) (rd : Reads) (now : Z) (s : SafetyDb) (f : signal_kind * SignalMeasure) :
  fits b (Some t) rd s -> moves b s (record_finding env t c (fun _ => rd) now s f).
Proof.
  intros Hf. unfold record_finding. destruct f as [k m].
  set (r := match signal_of (trip_id t) k s with None => _ | Some _ => _ end).
  assert (Hr : moves b s r.2 /\ incidents r.2 = incidents s).
  { unfold r. destruct (signal_of (trip_id t) k s) as [[key g]|]; [destruct (bool_decide _)|]; cbn [snd]; (split; [|done]); try apply no_move.
    - eapply moved; [apply no_move|]. apply mv_signals.
    - eapply moved; [apply no_move|]. apply mv_signal. }
  destruct r as [[key open_] s1]. cbn [snd] in Hr. destruct Hr as [Hr Hi]. destruct (open_ && _); [|exact Hr].
  transitivity s1; [exact Hr|]. by apply promote_moves, (fits_same b _ rd s).
Qed.

Lemma escalate_sos_moves (env : SafetyEnv) (e : Z) (x : SosEvent) (m : Z) (c : string) (now : Z) (s : SafetyDb) :
  moves b s (escalate_sos env e x m c now s).2.
Proof.
  unfold escalate_sos. destruct (sos_events s !! e) as [row|] eqn:Er; [|apply no_move]. destruct (negb _) eqn:E; [apply no_move|].
  apply negb_false_iff, andb_true_iff in E as [_ E%bool_decide_eq_true].
  assert (H : moves b s (update_event e (with_sos_escalated now) s))
    by (apply event_moves; [apply no_move|]; intros y Hy; apply calm_escalated; congruence).
  cbn [snd]. destruct (so_incident x); auto with safety.
Qed.

Lemma escalate_incident_moves (env : SafetyEnv) (i : Z) (x : Incident) (m : Z) (c : string) (now : Z) (s : SafetyDb) :
  moves b s (escalate_incident env i x m c now s).2.
Proof.
  unfold escalate_incident. destruct (incidents s !! i) as [row|] eqn:Er; [|apply no_move]. destruct (negb _) eqn:E; [apply no_move|].
  apply negb_false_iff in E. rewrite !andb_true_iff in E. destruct E as [[[E%bool_decide_eq_true _] _] _].
  assert (H : moves b s (update_incident i (with_escalated now) s))
    by (apply case_moves; [apply no_move|]; intros y Hy; apply gentle_escalated; congruence).
  cbn [snd]. auto with safety.
Qed.
End Handlers.

Lemma transition_events (e : Z) (st : sos_status) (a : option Z) (n : string) (r : bool) (seen : SafetyDb) (now : Z) (s s' : SafetyDb) (w : transition_answer) :
  apply_transition e st a n r seen now s = (w, s') -> s' = s \/ (w = Moved /\ sos_events s' = alter (with_sos_status st) e (sos_events s)).
Proof.
  unfold apply_transition. destruct (sos_events s !! e) as [x|]; [|intros [= <- <-]; by left].
  destruct (bool_decide _); [intros [= <- <-]; by left|]. destruct (r && _); [intros [= <- <-]; by left|].
  destruct (note_on_sos_transition _ _ _ _ _ _ _ _) as [s1|] eqn:En; intros [= <- <-]; [|by left].
  right. split; [done|]. by apply note_cases_spec in En as [-> _].
Qed.

(** Moving an alarm keeps the live cases live. *)
Lemma transition_cases (e i : Z) (st : sos_status) (a : option Z) (n : string) (r : bool) (seen : SafetyDb) (now : Z) (s s' : SafetyDb)
    (w : transition_answer) (y : Incident) :
  apply_transition e st a n r seen now s = (w, s') -> incidents s' !! i = Some y ->
  exists x, incidents s !! i = Some x /\ (is_live x = true -> is_live y = true).
Proof.
  unfold apply_transition. destruct (sos_events s !! e) as [x|]; [|intros [= <- <-] Hy; by exists y].
  destruct (bool_decide _); [intros [= <- <-] Hy; by exists y|]. destruct (r && _); [intros [= <- <-] Hy; by exists y|].
  destruct (note_on_sos_transition _ _ _ _ _ _ _ _) as [s1|] eqn:En; intros [= <- <-] Hy; [|by exists y].
  apply note_cases_spec in En as [_ [E|(j & _ & _ & _ & _ & E)]]; rewrite E in Hy; cbn in Hy; [by exists y|].
  apply alter_some in Hy as (z & Hz & [[-> ->]|[_ ->]]); by exists z.
Qed.

(** What is asked of a list of transitions goes on from one to the next. *)
Lemma no_return_next (b : leeway) (e d : Z) (st : sos_status) (a : option Z) (n : string) (r : bool) (seen : SafetyDb) (now : Z) (s s' : SafetyDb)
    (w : transition_answer) :
  apply_transition e st a n r seen now s = (w, s') -> no_return b s d st -> no_return b s' d st.
Proof.
  intros E Hn Hb (Ha & x & Hx & Ho). apply transition_events in E as [->|[_ E]]; [by apply (Hn Hb); split; [|exists x]|].
  rewrite E in Hx. apply alter_some in Hx as (y & Hy & [[-> ->]|[_ ->]]); [cbn in Ho; congruence|]. apply (Hn Hb). split; [done|]. by exists y.
Qed.

Lemma punctual_next (b : leeway) (e d : Z) (st : sos_status) (a : option Z) (n : string) (r : bool) (seen other : SafetyDb) (now : Z) (s s' : SafetyDb)
    (w : transition_answer) :
  apply_transition e st a n r seen now s = (w, s') -> punctual_for b d other s -> punctual_for b d other s'.
Proof.
  intros E Hp x' Hx' Hb i y' Hi Ho Hy'. destruct (transition_cases _ i _ _ _ _ _ _ _ _ _ y' E Hy') as (y & Hy & Hl). apply Hl.
  assert (Hx : exists x, sos_events s !! d = Some x /\ so_incident x = Some i).
  { apply transition_events in E as [->|[_ E]]; [by exists x'|]. rewrite E in Hx'. apply alter_some in Hx' as (x & Hx & [[_ ->]|[_ ->]]); by exists x. }
  destruct Hx as (x & Hx & Hxi). by apply (Hp x Hx Hb i y).
Qed.

Lemma transition_all_moves (b : leeway) (st : sos_status) (a : option Z) (n : string) (rd : Reads) (now : Z) (l : list (Z * SosEvent)) (s s1 s' : SafetyDb)
    (m0 m : list Z) :
  st <> SosOpen ->
  (forall p, p ∈ l -> no_return b s1 p.1 st /\ (st = SosAcknowledged -> punctual_for b p.1 (rd_case rd p.1) s1)) ->
  foldl (fun acc (p : Z * SosEvent) =>
           let* (moved, s) := acc in
           match apply_transition p.1 st a n false (rd_case rd p.1) now s with
           | (Unchanged, s) | (Incidents.Moved, s) => Ok (moved ++ [p.1], s)
           | _ => Err (BadInput "SOS_TRANSITION_REFUSED")
           end) (Ok (m0, s1)) l = Ok (m, s') ->
  moves b s s1 -> moves b s s'.
Proof.
  intros Hst. revert m0 s1. induction l as [|p l IH]; intros m0 s1 Ha E H; [cbn in E; by injection E as <- <-|].
  cbn [foldl res_bind] in E. destruct (apply_transition p.1 st a n false (rd_case rd p.1) now s1) as [w s2] eqn:Et.
  destruct (Ha p ltac:(by left)) as [Hn Hp].
  assert (H2 : moves b s s2) by (change s2 with (w, s2).2; rewrite <- Et; by apply transition_moves).
  assert (Ha2 : forall q, q ∈ l -> no_return b s2 q.1 st /\ (st = SosAcknowledged -> punctual_for b q.1 (rd_case rd q.1) s2)).
  { intros q Hq. destruct (Ha q ltac:(by right)) as [H3 H4]. split; [by eapply no_return_next|]. intros Es. eapply punctual_next; [exact Et|auto]. }
  destruct w; [|exact (IH _ _ Ha2 E H2)| |exact (IH _ _ Ha2 E H2)|].
  all: exfalso; clear -E; induction l as [|q l IHl]; [done|by apply IHl].
Qed.

Lemma events_of_spec (i : Z) (s : SafetyDb) (p : Z * SosEvent) : p ∈ events_of i s <-> sos_events s !! p.1 = Some p.2 /\ so_incident p.2 = Some i.
Proof.
  unfold events_of. rewrite elem_of_filter_b, bool_decide_eq_true. destruct p as [e x]. by rewrite elem_of_map_to_list.
Qed.

(** What is asked of the alarms listed for an acknowledgement. *)
Definition ready (b : leeway) (i : Z) (rd : Reads) (s : SafetyDb) : Prop :=
  forall p, p ∈ events_of i (rd_alarms rd) -> so_status p.2 = SosOpen ->
  no_return b s p.1 SosAcknowledged /\ punctual_for b p.1 (rd_case rd p.1) s.

Lemma active_sos_moves (b : leeway) (i : Z) (st : sos_status) (a : option Z) (n : string) (rd : Reads) (now : Z) (s s' : SafetyDb) (m : list Z) :
  st = SosResolved \/ st = SosFalseAlarm -> transition_active_sos i st a n false rd now s = Ok (m, s') -> moves b s s'.
Proof.
  intros Hst E. unfold transition_active_sos in E. eapply transition_all_moves; [| |exact E|apply no_move]; [by destruct Hst as [-> | ->]|].
  intros p _. split; [|by destruct Hst as [-> | ->]]. intros _ [Ha _]. by destruct Hst as [-> | ->].
Qed.

Lemma acknowledged_sos_moves (b : leeway) (i : Z) (a : option Z) (n : string) (rd : Reads) (now : Z) (s s' : SafetyDb) (m : list Z) :
  ready b i rd s -> transition_active_sos i SosAcknowledged a n true rd now s = Ok (m, s') -> moves b s s'.
Proof.
  intros Hr E. unfold transition_active_sos in E. eapply (transition_all_moves b SosAcknowledged); [done| |exact E|apply no_move].
  intros p [Hp Hw%bool_decide_eq_true]%elem_of_filter_b. by destruct (Hr p Hp Hw).
Qed.

(** ** The console's writes are moves *)

Lemma after_moves {A : Type} (b : leeway) (c : res refusal A) (s : SafetyDb) (k : A -> res refusal bool * SafetyDb) :
  (forall a, c = Ok a -> moves b s (k a).2) -> moves b s (after c s k).2.
Proof. intros H. destruct c as [a|e]; [by apply H|apply no_move]. Qed.

Lemma locked_live_moves (b : leeway) (i : Z) (s : SafetyDb) (k : Incident -> res refusal bool * SafetyDb) :
  (forall x, incidents s !! i = Some x -> is_live x = true -> moves b s (k x).2) -> moves b s (locked_live i s k).2.
Proof.
  intros H. unfold locked_live, locked. destruct (incidents s !! i) as [x|] eqn:E; [|apply no_move].
  destruct (is_live x) eqn:El; [by apply H|apply no_move].
Qed.

Section Console.
Context (b : leeway) (env : SafetyEnv) (u : User) (i now : Z) (seen s : SafetyDb).

Lemma assign_handler_moves t : moves b s (safety_assign env u i t seen now s).2.
Proof. apply after_moves. intros p _. apply locked_live_moves. intros x Hx _. destruct (bool_decide _); [apply no_move|apply assign_moves]. Qed.

Lemma note_handler_moves body key : moves b s (safety_note env u i body key seen now s).2.
Proof. apply after_moves. intros t _. cbv zeta. destruct (_ && _); [apply no_move|]. cbn [snd]. auto with safety. Qed.

Lemma status_handler_moves w n : moves b s (safety_set_status env u i w n seen now s).2.
Proof.
  apply after_moves. intros t Ht. apply locked_live_moves. intros x Hx Hl. destruct (bool_decide (in_status x = w)); [apply no_move|]. cbn [snd].
  apply update_moves, case_moves; [apply no_move|]. intros y Hy. replace y with x by congruence.
  apply res_bind_ok in Ht as (_ & _ & (t' & _ & ([] & Hw%require_ok & _)%res_bind_ok)%res_bind_ok).
  apply negb_true_iff, bool_decide_eq_false in Hw. apply is_live_status in Hl. by apply gentle_status.
Qed.

Lemma link_handler_moves k t : moves b s (safety_link env u i k t seen now s).2.
Proof.
  apply after_moves. intros _ _. apply locked_live_moves. intros x Hx Hl.
  destruct (link_added i k t (Some (uid u)) now s) as [c s1] eqn:E. cbn [snd].
  assert (Hs : s1 = (link_added i k t (Some (uid u)) now s).2) by (by rewrite E). destruct (bool_decide_reflect (k = LinkSos)) as [->|Hn].
  - rewrite Hs, take_alarm_comm. by eapply take_alarm_moves; [apply no_move|..].
  - rewrite Hs. by apply link_added_moves.
Qed.

Lemma unlink_handler_moves k t : moves b s (safety_unlink env u i k t seen now s).2.
Proof.
  apply after_moves. intros [] H. apply locked_live_moves. intros x Hx Hl.
  apply res_bind_ok in H as (y & _ & Ha%require_ok). destruct (link_removed i k t (Some (uid u)) now s) as [r s1] eqn:E. cbn [snd].
  change s1 with (r, s1).2. rewrite <- E. apply link_removed_moves. by intros ->.
Qed.

Lemma police_handler_moves r n : moves b s (safety_refer_police env u i r n seen now s).2.
Proof. apply after_moves. intros t _. apply locked_live_moves. intros x Hx _. destruct (bool_decide _); [by apply police_moves|apply no_move]. Qed.

Lemma close_handler_moves t o : moves b s (safety_close env u i t o seen now s).2.
Proof.
  apply after_moves. intros p _. unfold locked. destruct (incidents s !! i) as [x|] eqn:Ex; [|apply no_move].
  destruct (negb (is_live x)); [apply no_move|]. destruct (bool_decide_reflect (close_blockers i s = [])) as [Hb|Hb]; [|apply no_move].
  apply close_moves; [done|apply no_move].
Qed.

Lemma acknowledge_handler_moves rd : ready b i rd s -> moves b s (safety_acknowledge env u i seen rd now s).2.
Proof.
  intros Hready. apply after_moves. intros [x [m s']] H. apply res_bind_ok in H as (y & _ & (t & Ht & Heq)%res_bind_ok). injection Heq as -> ->.
  apply (acknowledged_sos_moves b) in Ht; [|done]. destruct (incidents s' !! i) as [z|] eqn:Ez; [|apply no_move]. cbn [snd].
  destruct (bool_decide_reflect (in_status z = Opened)) as [Hz|Hz]; [|exact Ht].
  apply update_moves, case_moves; [exact Ht|]. intros w Hw. replace w with z by congruence. apply gentle_status. by rewrite Hz.
Qed.

Lemma finish_moves st o t rd : st = SosResolved \/ st = SosFalseAlarm -> moves b s (finish env u i st o t seen rd now s).2.
Proof.
  intros Hst. apply after_moves. intros [m s'] H. apply res_bind_ok in H as (y & _ & Ht). apply (active_sos_moves b) in Ht; [|done].
  destruct (incidents s' !! i) as [z|] eqn:Ez; [|apply no_move].
  destruct (bool_decide_reflect (close_blockers i s' = [])) as [Hb|Hb]; [|exact Ht]. by apply close_moves.
Qed.

Lemma resolve_handler_moves t o rd : moves b s (safety_resolve env u i t o seen rd now s).2.
Proof. apply after_moves. intros p _. apply finish_moves. by left. Qed.

Lemma false_alarm_handler_moves r rd : moves b s (safety_false_alarm env u i r seen rd now s).2.
Proof. apply after_moves. intros p _. apply finish_moves. by right. Qed.

Lemma create_handler_moves rq rd : fits b (trip_of env (cq_trip rq)) rd s -> moves b s (create_incident env u rq seen rd now s).2.
Proof.
  intros Hf. apply after_moves. intros [[[cat sev] title] n] _. cbv beta iota zeta.
  match goal with |- context [open_incident env ?o rd now s] => destruct (open_incident env o rd now s) as [[[j created] s1]|] eqn:Eo end; [|apply no_move].
  apply (open_incident_spec b) in Eo as (Hm & _ & y & Hy & Hl & _); [|done]. cbn [snd].
  set (s2 := if created then s1 else _). assert (H2 : moves b s s2) by (unfold s2; destruct created; auto with safety).
  assert (Hin : incidents s2 !! j = Some y) by (unfold s2; destruct created; done).
  destruct (cq_sos rq) as [e|]; [|exact H2]. eapply take_alarm_moves; [exact H2|exact Hin|]. intros Hb. by apply Hl, (ft_live _ _ _ _ Hf).
Qed.

Lemma ticket_handler_moves tk n rd : fits b (trip_of env (tv_trip tk)) rd s -> moves b s (safety_escalate_ticket env u tk n rd now s).2.
Proof.
  intros Hf. unfold safety_escalate_ticket. destruct (res_bind _ _) as [text|e]; [|apply no_move]. destruct (List.find _ _); [apply no_move|].
  destruct (open_from_ticket _ _ _ _ _ _ _ _ _) as [[[j c] s1]|] eqn:E; [|apply no_move]. cbn [snd]. by eapply ticket_moves.
Qed.

Lemma dismiss_handler_moves k r : moves b s (safety_dismiss_signal env u k r seen now s).2.
Proof.
  apply after_moves. intros t _. destruct (signals s !! k) as [g|]; [|apply no_move]. destruct (negb _); [apply no_move|]. cbv zeta. cbn [snd].
  assert (H : moves b s (set_signals (<[k := dismissed (now, uid u, t) g]> (signals s)) s)) by (eapply moved; [apply no_move|]; apply mv_signals).
  destruct (sg_incident g); auto with safety.
Qed.

Lemma transition_handler_moves e st n case :
  st <> SosOpen -> no_return b s e st -> (st = SosAcknowledged -> punctual_for b e case s) ->
  moves b s (admin_transition env u e st n seen case now s).2.
Proof.
  intros Hst Hb Hp. unfold admin_transition. destruct (negb _); [apply no_move|]. destruct (sos_events seen !! e) as [x|]; [|apply no_move].
  destruct (negb _); [apply no_move|]. destruct (_ && _); [apply no_move|].
  pose proof (transition_moves b e st (Some (uid u)) (truncated 10000 n) false case now s s Hst Hb Hp (no_move b s)) as H.
  destruct (apply_transition _ _ _ _ _ _ _ _) as [w s']. by destruct w.
Qed.
End Console.

(** ** Steps *)

(** The readings were taken at moments of the run. *)
Definition taken (past : list SafetyDb) (s : SafetyDb) (rd : Reads) : Prop := rd_open rd ∈ s :: past /\ rd_winner rd ∈ s :: past.

(** The case an opening joins was not closed, and not given another severity, since it was read;
    or the run may contain that. *)
Definition fresh (b : leeway) (t : option Trip) (rd : Reads) (s : SafetyDb) : Prop :=
  (lw_closed b = false -> still_live t rd s) /\ (lw_regraded b = false -> still_graded t rd s).

(** One operation of a rider, a driver, an operator or a sweep, with the environment of the
    moment.  [seen] is whatever the handler checked before it took its lock, [rd] what it read
    without one and writes from. *)
Inductive safety_step (b : leeway) (past : list SafetyDb) (s : SafetyDb) : SafetyDb -> Prop :=
| st_raise fails env rq rd now :
    taken past s rd -> fresh b (trip_raised env rq) rd s -> safety_step b past s (raise_sos fails env rq rd now s).2
| st_attach fails env e rd now :
    taken past s rd -> (forall x, sos_events s !! e = Some x -> fresh b (trip_of env (so_trip x)) rd s) ->
    safety_step b past s (attach_sos_safely fails env e rd now s).2
| st_mistake u e case now : punctual_for b e case s -> safety_step b past s (raiser_mistake_sos u e case now s).2
| st_transition env u e st n seen case now :
    st <> SosOpen -> no_return b s e st -> (st = SosAcknowledged -> punctual_for b e case s) ->
    safety_step b past s (admin_transition env u e st n seen case now s).2
| st_escalate env e x m c now : safety_step b past s (escalate_sos env e x m c now s).2
| st_escalate_case env i x m c now : safety_step b past s (escalate_incident env i x m c now s).2
| st_create env u rq seen rd now :
    taken past s rd -> fresh b (trip_of env (cq_trip rq)) rd s -> safety_step b past s (create_incident env u rq seen rd now s).2
| st_ticket env u tk n rd now :
    taken past s rd -> fresh b (trip_of env (tv_trip tk)) rd s -> safety_step b past s (safety_escalate_ticket env u tk n rd now s).2
| st_assign env u i t seen now : safety_step b past s (safety_assign env u i t seen now s).2
| st_note env u i body key seen now : safety_step b past s (safety_note env u i body key seen now s).2
| st_status env u i w n seen now : safety_step b past s (safety_set_status env u i w n seen now s).2
| st_link env u i k t seen now : safety_step b past s (safety_link env u i k t seen now s).2
| st_unlink env u i k t seen now : safety_step b past s (safety_unlink env u i k t seen now s).2
| st_action i u n now : safety_step b past s (after_action i u n now s)
| st_police env u i r n seen now : safety_step b past s (safety_refer_police env u i r n seen now s).2
| st_close env u i t o seen now : safety_step b past s (safety_close env u i t o seen now s).2
| st_acknowledge env u i seen rd now : ready b i rd s -> safety_step b past s (safety_acknowledge env u i seen rd now s).2
| st_resolve env u i t o seen rd now : safety_step b past s (safety_resolve env u i t o seen rd now s).2
| st_false_alarm env u i r seen rd now : safety_step b past s (safety_false_alarm env u i r seen rd now s).2
| st_finding env t c rd now f :
    taken past s rd -> fresh b (Some t) rd s -> safety_step b past s (record_finding env t c (fun _ => rd) now s f)
| st_dismiss env u k r seen now : safety_step b past s (safety_dismiss_signal env u k r seen now s).2.

(** The tables, and every state they were in. *)
Record Centre := { ce_db : SafetyDb; ce_past : list SafetyDb }.

Inductive centre_step (b : leeway) (c : Centre) : Centre -> Prop :=
| centre_goes s' : safety_step b (ce_past c) (ce_db c) s' -> centre_step b c {| ce_db := s'; ce_past := ce_db c :: ce_past c |}.

Lemma safety_step_moves (b : leeway) (past : list SafetyDb) (s s' : SafetyDb) :
  (forall z, z ∈ s :: past -> known s z) -> safety_step b past s s' -> moves b s s'.
Proof.
  intros Hk H.
  assert (Hf : forall t rd, taken past s rd -> fresh b t rd s -> fits b t rd s) by (intros t rd [T1 T2] [F1 F2]; split; auto).
  destruct H.
  - apply raise_sos_moves; auto.
  - apply attach_safely_moves; [auto|apply no_move].
  - by apply mistake_moves.
  - by apply transition_handler_moves.
  - apply escalate_sos_moves.
  - apply escalate_incident_moves.
  - apply create_handler_moves; auto.
  - apply ticket_handler_moves; auto.
  - apply assign_handler_moves.
  - apply note_handler_moves.
  - apply status_handler_moves.
  - apply link_handler_moves.
  - apply unlink_handler_moves.
  - apply after_action_moves.
  - apply police_handler_moves.
  - apply close_handler_moves.
  - by apply acknowledge_handler_moves.
  - apply resolve_handler_moves.
  - apply false_alarm_handler_moves.
  - apply finding_moves; auto.
  - apply dismiss_handler_moves.
Qed.

(** What holds along a run: the tables are well formed and nothing read earlier is gone. *)
Record centre_ok (c : Centre) : Prop := {
  cn_cases : cases_ok (ce_db c);
  cn_past : forall z, z ∈ ce_db c :: ce_past c -> later case_kept z (ce_db c)
}.

Lemma centre_known (c : Centre) : centre_ok c -> forall z, z ∈ ce_db c :: ce_past c -> known (ce_db c) z.
Proof. intros [_ H] z Hz. by apply kept_known, H. Qed.

Lemma centre_step_spec (b : leeway) (c c' : Centre) : centre_ok c -> centre_step b c c' -> centre_ok c' /\ moves b (ce_db c) (ce_db c').
Proof.
  intros Hok [s' H]. pose proof (safety_step_moves b _ _ _ (centre_known c Hok) H) as Hm. destruct Hok as [H1 H2]. cbn. split; [|done].
  pose proof (moves_kept b _ _ Hm H1) as Hl. split; cbn; [by eapply case_moves_ok|].
  intros z [-> |Hz]%elem_of_cons; [reflexivity|]. etrans; [by apply H2|done].
Qed.

Lemma centre_steps_spec (b : leeway) (c c' : Centre) : rtc (centre_step b) c c' -> centre_ok c -> centre_ok c' /\ moves b (ce_db c) (ce_db c').
Proof.
  induction 1 as [c|c c1 c' H _ IH]; intros Hok; [split; [done|apply no_move]|].
  apply centre_step_spec in H as [Hok1 Hm]; [|done]. destruct (IH Hok1) as [Hok' Hm']. split; [done|]. by transitivity (ce_db c1).
Qed.
