(* ===== verification/CaseSafety.v ===== *)
(** * CaseSafety: alarms reach somebody, cases do not hide them

    The properties of the incident module, and the places where the code does not do what it
    says: an alarm taken up again behind a closed case, an acknowledgement that silences an alert
    about something else, an alarm answered by somebody who may not answer there, and three races
    between a row that is read without a lock and the write that follows. *)

From Stdlib Require Import Ascii QArith.
From stdpp Require Import sorting relations.
From S2P Require Import Prelude PyDecimal PyText Countries Models Access Alerts SafetyConfig Incidents SafetyWatch IncidentSafety.
#[local] Open Scope string_scope.
#[local] Open Scope list_scope.
#[local] Open Scope Z_scope.

(** ** The tables at the start *)

Definition no_cases : SafetyDb :=
  {| incidents := ∅; incident_next := 1; links := []; updates := []; sos_events := ∅; sos_next := 1; sos_updates := []; signals := ∅;
     signal_next := 1; sf_alerts := {| alerts := []; alert_next := 1 |} |}.

Lemma no_cases_ok : cases_ok no_cases.
Proof.
  split; cbn.
  - intros i x H. by rewrite lookup_empty in H.
  - intros i x H. by rewrite lookup_empty in H.
  - intros t i j x y H. by rewrite lookup_empty in H.
  - intros e x i H. by rewrite lookup_empty in H.
Qed.

Lemma no_cases_quiet : no_hidden_alarm no_cases.
Proof. intros i y e x H. cbn in H. by rewrite lookup_empty in H. Qed.

(** The centre on its first day. *)
Definition start : Centre := {| ce_db := no_cases; ce_past := [] |}.

Lemma start_ok : centre_ok start.
Proof. split; [apply no_cases_ok|]. intros z Hz%list_elem_of_singleton. subst z. reflexivity. Qed.

Lemma centre_reached_ok (b : leeway) (c : Centre) : rtc (centre_step b) start c -> centre_ok c.
Proof. intros H. apply (centre_steps_spec b start c H), start_ok. Qed.

Lemma reached_cases (b : leeway) (c : Centre) : rtc (centre_step b) start c -> cases_ok (ce_db c).
Proof. intros H. by apply cn_cases, (centre_reached_ok b). Qed.

(** ** One case per trip *)

(** C13. However alarms, operators, tickets, signals and sweeps interleave, each with readings of any
    earlier moment, a trip has at most one case that is not closed, and every alarm that has a case
    is on the list of links of a case that exists. *)
Theorem one_case_per_trip (c : Centre) :
  rtc (centre_step anything) start c ->
  (forall t i j x y, incidents (ce_db c) !! i = Some x -> incidents (ce_db c) !! j = Some y ->
     live_on t x = true -> live_on t y = true -> i = j) /\
  (forall e x i, sos_events (ce_db c) !! e = Some x -> so_incident x = Some i ->
     is_Some (incidents (ce_db c) !! i) /\ existsb (is_link i LinkSos e) (links (ce_db c)) = true).
Proof. intros H%reached_cases. split; [apply (co_one _ H)|apply (co_linked _ H)]. Qed.

(** Runs in which no severity is written over one that was set since the case was read, and no
    case is set to work that was closed since it was read. *)
Definition no_overwrites : leeway := {| lw_returns := true; lw_closed := true; lw_regraded := false; lw_reopens := false |}.

(** C34. Nothing of a case goes back.  From any state that can be reached, every further operation,
    whatever it read, keeps every case with its trip, source and time of opening and every alarm
    with its data, only appends to the two timelines and never unsets or moves a mark of
    escalation.  A closed case also stays closed and no severity is lowered, as long as nothing is
    written over a case that was given another severity, or was closed, since it was read:
    [severity_overwritten] and [closed_case_reopened] show what those two races do. *)
Theorem cases_never_go_back (c c' : Centre) :
  rtc (centre_step anything) start c ->
  (rtc (centre_step anything) c c' -> later case_kept (ce_db c) (ce_db c')) /\
  (rtc (centre_step no_overwrites) c c' -> later case_grew (ce_db c) (ce_db c')).
Proof.
  intros Hok%centre_reached_ok. split; intros H.
  - destruct (centre_steps_spec _ _ _ H Hok) as [_ Hm]. eapply moves_kept; [exact Hm|apply Hok].
  - destruct (centre_steps_spec _ _ _ H Hok) as [_ Hm]. eapply (moves_grew no_overwrites); [done|done|exact Hm|apply Hok].
Qed.

(** Runs in which no operator takes up an alarm that was over, and no alarm joins a case that was
    closed since it was read; severities and statuses may be overwritten. *)
Definition none_lost : leeway := {| lw_returns := false; lw_closed := false; lw_regraded := true; lw_reopens := true |}.

(** C14. Closing a case does not hide an alarm: no alarm that is open or acknowledged ever sits on a
    closed case, unless in the run an operator took up an alarm that was over (as in
    [alarm_returns_behind_closed_case]) or an alarm joined a case that was closed between the moment
    it was read, without a lock, and the write (as in [alarm_joins_closed_case]).  Everything else,
    readings of any age included, may happen in any order. *)
Theorem closed_case_hides_no_alarm (c : Centre) : rtc (centre_step none_lost) start c -> no_hidden_alarm (ce_db c).
Proof.
  intros H. destruct (centre_steps_spec _ _ _ H start_ok) as [_ Hm].
  apply (quiet_moves none_lost _ _ eq_refl eq_refl Hm); [apply no_cases_ok|apply no_cases_quiet].
Qed.

(** ** An alarm gets its case *)

Lemma no_repeat (rq : SosRequest) (t : option Z) (k : string) (now : Z) (s : SafetyDb) :
  best_by later_event (List.filter (fun p : Z * SosEvent => repeats rq t k now p.2) (map_to_list (sos_events s))) = None ->
  forall e x, sos_events s !! e = Some x -> repeats rq t k now x = false.
Proof.
  intros H%best_by_none e x Hx. destruct (repeats rq t k now x) eqn:E; [|done].
  assert (Hin : (e, x) ∈ List.filter (fun p : Z * SosEvent => repeats rq t k now p.2) (map_to_list (sos_events s)))
    by (apply elem_of_filter_b; split; [by apply elem_of_map_to_list|done]).
  rewrite H in Hin. by apply elem_of_nil in Hin.
Qed.

Lemma best_by_only {A : Type} (better : A -> A -> bool) (l : list A) (a : A) : a ∈ l -> (forall x, x ∈ l -> x = a) -> best_by better l = Some a.
Proof.
  intros Ha Hl. destruct (best_by better l) as [x|] eqn:E; [by rewrite (Hl x (best_by_elem _ _ _ E))|].
  apply best_by_none in E. rewrite E in Ha. by apply elem_of_nil in Ha.
Qed.

(** The alarm a request records. *)
Definition event_for (env : SafetyEnv) (rq : SosRequest) (trip : option Trip) (now : Z) : SosEvent :=
  let '(anchor, source) := resolve_anchor env trip (sr_lat rq) (sr_lng rq) (Some (sr_user rq)) in
  {| so_user := Some (sr_user rq); so_initiated_by := sr_role rq; so_trip := trip_id <$> trip; so_type := event_type_of rq; so_status := SosOpen;
     so_lat := sr_lat rq; so_lng := sr_lng rq; so_note := truncated 10000 (sr_note rq); so_mistake_at := None; so_anchor := anchor;
     so_anchor_source := source; so_incident := None; so_escalated_at := None; so_created := now |}.

Lemma raise_recorded (fails : bool) (env : SafetyEnv) (rq : SosRequest) (rd : Reads) (now e : Z) (s s' : SafetyDb) :
  raise_sos fails env rq rd now s = (Recorded e, s') ->
  save_event fails env (event_for env rq (trip_asked env rq) now) rd now s = (e, s') /\
  (forall d x, sos_events s !! d = Some x -> repeats rq (trip_id <$> trip_asked env rq) (event_type_of rq) now x = false) /\
  (forall f rd' m, raise_sos f env rq rd' m s' = match best_by later_event (List.filter (fun p : Z * SosEvent =>
       repeats rq (trip_id <$> trip_asked env rq) (event_type_of rq) m p.2) (map_to_list (sos_events s'))) with
     | Some p => (RepeatOf p.1, s')
     | None => let r := save_event f env (event_for env rq (trip_asked env rq) m) rd' m s' in (Recorded r.1, r.2)
     end).
Proof.
  unfold raise_sos. fold (trip_asked env rq). destruct (negb (bool_decide (_ ∈ _))) eqn:E1; [done|].
  destruct (negb (bool_decide (_ = None)) && _) eqn:E2; [done|]. cbv zeta.
  destruct (best_by _ _) as [p|] eqn:Eb; [done|]. unfold event_for.
  destruct (resolve_anchor _ _ _ _ _) as [n src]. destruct (save_event _ _ _ _ _ s) as [e' s''] eqn:Es. intros [= <- <-].
  split; [done|]. split; [by apply no_repeat|]. intros f rd' m. destruct (best_by _ _); [done|]. by destruct (save_event f env _ rd' m s'').
Qed.

(** A recorded alarm that no case took, or that is linked to one. *)
Definition recorded (env : SafetyEnv) (e : Z) (x : SosEvent) (s : SafetyDb) : Prop := sos_events s !! e = Some x \/ filed env e x s.

Lemma save_event_spec (fails : bool) (env : SafetyEnv) (x : SosEvent) (rd : Reads) (now e : Z) (s s' : SafetyDb) :
  save_event fails env x rd now s = (e, s') -> known s (rd_open rd) -> known s (rd_winner rd) ->
  e = sos_next s /\ (forall d, d <> e -> sos_events s' !! d = sos_events s !! d) /\
  (fails = true -> sos_events s' !! e = Some x) /\ (fails = false -> timely (trip_of env (so_trip x)) rd s -> attached env e x s') /\
  recorded env e x s'.
Proof.
  unfold save_event. set (s1 := if bool_decide _ then _ else _). intros [= <- <-] K1 K2. split; [done|].
  assert (H1 : sos_events s1 = <[sos_next s := x]> (sos_events s)) by (unfold s1; by destruct (bool_decide _)).
  assert (Hi : incidents s1 = incidents s) by (unfold s1; by destruct (bool_decide _)).
  assert (Hx : sos_events s1 !! sos_next s = Some x) by (rewrite H1; apply lookup_insert_eq).
  assert (Hf : fits anything (trip_of env (so_trip x)) rd s1) by (apply (fits_same _ _ _ s); [done|by split]).
  destruct (attach_safely_spec anything fails env _ x rd now s1 Hx Hf) as (_ & Hor & Hother). split; [|split; [|split]].
  - intros d Hd. rewrite Hother, H1 by done. by rewrite lookup_insert_ne.
  - intros ->. by destruct Hor as [-> |[? _]].
  - intros -> Ht. apply attach_safely_timely; [done|apply Hf|apply Hf|]. unfold timely, still_live, still_graded, case_read in *.
    by rewrite (open_case_same _ s s1 Hi), Hi.
  - destruct Hor as [-> |[_ H]]; [by left|by right].
Qed.

(** C15. An alarm is recorded and gets its case.  When the case of its trip is, at the write, as it was
    read, the recorded alarm has a live case, on its trip if it has one, at least as severe as its
    type asks for, with the alarm among its links.  Whatever was read, the alarm is recorded: either
    on a case of its trip that exists and lists it, or without a case (if the case could not be
    written, or the race for it was lost and its winner gone), and then the next attempt gives it
    one.  Pressing again within two minutes answers with that alarm and writes nothing. *)
Theorem alarm_gets_its_case (fails : bool) (env : SafetyEnv) (rq : SosRequest) (rd : Reads) (now e : Z) (c : Centre) (s' : SafetyDb) :
  rtc (centre_step anything) start c -> taken (ce_past c) (ce_db c) rd -> raise_sos fails env rq rd now (ce_db c) = (Recorded e, s') ->
  let x := event_for env rq (trip_asked env rq) now in
  (fails = false -> timely (trip_raised env rq) rd (ce_db c) -> attached env e x s') /\
  recorded env e x s' /\ (fails = true -> sos_events s' !! e = Some x) /\
  (sos_events s' !! e = Some x -> forall m, attached env e x (attach_sos_safely false env e (reads_now s') m s').2) /\
  (forall f rd' m, now <= m <= now + SOS_DEDUPE_WINDOW_SECONDS * SECOND -> raise_sos f env rq rd' m s' = (RepeatOf e, s')).
Proof.
  intros Hok%centre_reached_ok [T1 T2] (Hs & Hno & Hagain)%raise_recorded x. set (s := ce_db c) in *.
  pose proof (centre_known c Hok _ T1) as K1. pose proof (centre_known c Hok _ T2) as K2.
  apply save_event_spec in Hs as (He & Hother & Hf & Hat & Hrec); [|done|done]. fold x in Hf, Hat, Hrec.
  assert (Hxt : so_trip x = trip_id <$> trip_asked env rq) by (unfold x, event_for; by destruct (resolve_anchor _ _ _ _ _)).
  split; [|split; [done|split; [done|split]]].
  - intros Hfa Ht. apply Hat; [done|]. by rewrite Hxt.
  - intros Hx m. apply attach_safely_timely; [done|apply known_refl|apply known_refl|apply now_timely].
  - intros f rd' m Hm. assert (Hy : exists y, sos_events s' !! e = Some y /\ (y = x \/ exists i, y = with_incident i x)).
    { destruct Hrec as [H|(i & _ & H & _)]; [exists x; by split; [|left]|exists (with_incident i x); split; [done|right; by exists i]]. }
    destruct Hy as (y & Hy & Hyx). rewrite Hagain.
    rewrite (best_by_only later_event _ (e, y)); [done| |].
    + apply elem_of_filter_b. split; [by apply elem_of_map_to_list|]. cbn [snd]. unfold repeats.
      assert (Hfields : so_user y = Some (sr_user rq) /\ so_trip y = trip_id <$> trip_asked env rq /\ so_type y = event_type_of rq /\
                        so_status y = SosOpen /\ so_created y = now).
      { unfold x, event_for in Hyx. destruct (resolve_anchor _ _ _ _ _) as [n src]. destruct Hyx as [-> |[i ->]]; done. }
      destruct Hfields as (-> & -> & -> & -> & ->). rewrite !bool_decide_true by done. cbn. apply Z.leb_le. lia.
    + intros [d z] [Hd%elem_of_map_to_list Hr]%elem_of_filter_b. cbn [snd] in Hr. destruct (decide (d = e)) as [->|Hne]; [congruence|].
      exfalso. rewrite Hother in Hd by done. specialize (Hno d z Hd). unfold repeats in Hr, Hno. rewrite !andb_true_iff in Hr.
      destruct Hr as [[[[A B] C] D] F]. rewrite A, B, C, D in Hno. cbn in Hno. apply Z.leb_gt in Hno. apply Z.leb_le in F. lia.
Qed.

(** ** The backfill *)

Lemma attach_same_others (env : SafetyEnv) (e d now : Z) (s : SafetyDb) :
  d <> e -> sos_events (attach_sos_safely false env e (reads_now s) now s).2 !! d = sos_events s !! d.
Proof.
  intros Hd. destruct (sos_events s !! e) as [x|] eqn:Ex; [|unfold attach_sos_safely; by rewrite Ex].
  destruct (attach_safely_spec anything false env e x (reads_now s) now s Ex (fits_now _ _ _)) as (_ & _ & H). by apply H.
Qed.

Lemma attach_gives (env : SafetyEnv) (e now : Z) (s : SafetyDb) (x : SosEvent) :
  sos_events s !! e = Some x -> exists i, sos_events (attach_sos_safely false env e (reads_now s) now s).2 !! e = Some (with_incident i x).
Proof.
  intros Hx. destruct (attach_safely_timely env e x (reads_now s) now s Hx) as [(i & y & H & _)];
    [apply known_refl|apply known_refl|apply now_timely|]. by exists i.
Qed.

Lemma backfill_fold (env : SafetyEnv) (now : Z) (l : list Z) (n : Z) (s : SafetyDb) (e : Z) (x : SosEvent) :
  NoDup l -> sos_events s !! e = Some x ->
  let r := foldl (fun '(n, s) e => let '(ok, s) := attach_sos_safely false env e (reads_now s) now s in ((if ok then n + 1 else n), s)) (n, s) l in
  if bool_decide (e ∈ l) then exists i, sos_events r.2 !! e = Some (with_incident i x) else sos_events r.2 !! e = Some x.
Proof.
  revert n s x. induction l as [|d l IH]; intros n s x Hnd Hx; [done|]. cbn [foldl]. apply NoDup_cons in Hnd as [Hd Hnd].
  destruct (attach_sos_safely false env d (reads_now s) now s) as [ok s1] eqn:E.
  assert (Es : s1 = (attach_sos_safely false env d (reads_now s) now s).2) by (by rewrite E).
  set (n1 := if ok then _ else _). destruct (decide (e = d)) as [->|Hne].
  - rewrite bool_decide_true by (by left). destruct (attach_gives env d now s x Hx) as [i Hi]. rewrite <- Es in Hi.
    pose proof (IH n1 s1 _ Hnd Hi) as H. cbv zeta in H. rewrite bool_decide_false in H by done. by exists i.
  - assert (Hx1 : sos_events s1 !! e = Some x) by (by rewrite Es, attach_same_others).
    pose proof (IH n1 s1 x Hnd Hx1) as H. cbv zeta in H.
    rewrite (bool_decide_ext (e ∈ d :: l) (e ∈ l)); [exact H|]. rewrite elem_of_cons. tauto.
Qed.

Lemma backfill_absent (env : SafetyEnv) (now : Z) (l : list Z) (n : Z) (s : SafetyDb) (e : Z) :
  sos_events s !! e = None ->
  sos_events (foldl (fun '(n, s) e => let '(ok, s) := attach_sos_safely false env e (reads_now s) now s in ((if ok then n + 1 else n), s)) (n, s) l).2 !! e = None.
Proof.
  revert n s. induction l as [|d l IH]; intros n s H; [done|]. cbn [foldl].
  destruct (attach_sos_safely false env d (reads_now s) now s) as [ok s1] eqn:E. apply IH. change s1 with (ok, s1).2. rewrite <- E.
  destruct (decide (e = d)) as [->|Hd]; [unfold attach_sos_safely; by rewrite H|by rewrite attach_same_others].
Qed.

(** The alarms without a case, as the backfill asks for them. *)
Definition orphans (s : SafetyDb) : list Z :=
  fst <$> List.filter (fun p : Z * SosEvent => bool_decide (so_incident p.2 = None) && sos_active (so_status p.2)) (map_to_list (sos_events s)).

Lemma orphans_spec (s : SafetyDb) (e : Z) :
  e ∈ orphans s <-> exists x, sos_events s !! e = Some x /\ so_incident x = None /\ sos_active (so_status x) = true.
Proof.
  unfold orphans. rewrite list_elem_of_fmap. split.
  - intros ([d x] & -> & [Hin%elem_of_map_to_list [H1%bool_decide_eq_true H2]%andb_true_iff]%elem_of_filter_b). by exists x.
  - intros (x & Hx & H1 & H2). exists (e, x). split; [done|]. apply elem_of_filter_b. rewrite elem_of_map_to_list, andb_true_iff, bool_decide_eq_true. done.
Qed.

Lemma fst_filter_nodup {A : Type} (P : Z * A -> bool) (m : gmap Z A) : NoDup (fst <$> List.filter P (map_to_list m)).
Proof.
  pose proof (NoDup_fst_map_to_list m) as H. induction (map_to_list m) as [|p l IH]; [constructor|]. cbn in H. apply NoDup_cons in H as [Hp H].
  cbn. destruct (P p); [|by apply IH]. cbn. apply NoDup_cons. split; [|by apply IH]. contradict Hp.
  apply list_elem_of_fmap in Hp as (q & Eq & Hq). apply elem_of_filter_b in Hq as [Hq _]. rewrite Eq. by apply list_elem_of_fmap_2.
Qed.

(** No alarm is left without a case: a pass of the backfill in which no write fails gives a case to
    every alarm that still needs somebody, as long as no more than its limit are waiting. *)
Theorem backfill_leaves_no_orphan (env : SafetyEnv) (now : Z) (limit : nat) (s : SafetyDb) :
  (length (orphans s) <= limit)%nat -> orphans (backfill_sos_incidents (fun _ => false) env now limit s).2 = [].
Proof.
  intros Hlen. unfold backfill_sos_incidents. fold (orphans s).
  assert (Hp : merge_sort Z.le (orphans s) ≡ₚ orphans s) by apply merge_sort_Permutation.
  rewrite take_ge by (by rewrite Hp). set (r := foldl _ _ _).
  destruct (orphans r.2) as [|e l] eqn:E; [done|]. exfalso.
  assert (He : e ∈ orphans r.2) by (rewrite E; by left). apply orphans_spec in He as (x & Hx & Hi & Ha).
  assert (Hs : exists y, sos_events s !! e = Some y).
  { destruct (sos_events s !! e) as [y|] eqn:Ey; [by exists y|]. pose proof (backfill_absent env now (merge_sort Z.le (orphans s)) 0 s e Ey) as Hn.
    unfold r in Hx. cbv beta in Hx, Hn. congruence. }
  destruct Hs as [y Hy]. pose proof (backfill_fold env now (merge_sort Z.le (orphans s)) 0 s e y) as H. cbv zeta in H. fold r in H.
  specialize (H ltac:(rewrite Hp; apply fst_filter_nodup) Hy). destruct (bool_decide_reflect (e ∈ merge_sort Z.le (orphans s))) as [Hin|Hin].
  - destruct H as [i H]. rewrite Hx in H. injection H as ->. done.
  - rewrite Hx in H. injection H as ->. apply Hin. rewrite Hp. apply orphans_spec. by exists y.
Qed.

(** ** The escalation sweep *)

(** What the sweep decides of an alarm: nobody took it and the timer of its country has passed. *)
Definition waiting (x : SosEvent) : bool := bool_decide (so_status x = SosOpen) && bool_decide (so_escalated_at x = None).

Definition country_of_event (env : SafetyEnv) (x : SosEvent) : string := country_for env (so_anchor x) (trip_of env (so_trip x)) (so_user x).

Definition event_due (env : SafetyEnv) (now : Z) (x : SosEvent) : bool :=
  waiting x && bool_decide (is_Some (timer_passed env (country_of_event env x) "sos_ack_minutes" (so_created x) now)).

Definition waiting_events (s : SafetyDb) : list (Z * SosEvent) := List.filter (fun p : Z * SosEvent => waiting p.2) (map_to_list (sos_events s)).

Lemma shortest_le (rows : list SafetyCountryConfig) (field country : string) (c : SafetyCountryConfig) (n : Z) :
  active_configs rows country = Some c -> setting c field = Some n -> exists m, shortest rows field = Some m /\ m <= n.
Proof.
  intros Hc Hn. unfold active_configs in Hc. apply find_some in Hc as [Hin [_ Ha]%andb_true_iff].
  assert (H : n ∈ omap (fun c => if sc_active c then setting c field else None) rows).
  { apply list_elem_of_omap. exists c. split; [by apply list_elem_of_In|]. by rewrite Ha. }
  unfold shortest. destruct (omap _ rows) as [|x l]; [by apply elem_of_nil in H|]. eexists. split; [done|].
  clear -H. revert n x H. induction l as [|y l IH]; intros n x; cbn.
  - intros [->|H]%elem_of_cons; [lia|by apply elem_of_nil in H].
  - intros [->|[->|H]%elem_of_cons]%elem_of_cons.
    + specialize (IH x x ltac:(by left)). lia.
    + lia.
    + specialize (IH n x ltac:(by right)). lia.
Qed.

Lemma timer_cutoff (env : SafetyEnv) (country field : string) (since now n : Z) :
  timer_passed env country field since now = Some n -> exists m, shortest (se_configs env) field = Some m /\ since <= now - m * MINUTE.
Proof.
  unfold timer_passed. intros (c & Hc & (k & Hk & H)%bind_Some)%bind_Some. destruct (_ <? _) eqn:E; [done|]. apply Z.ltb_ge in E.
  destruct (shortest_le _ _ _ _ _ Hc Hk) as (m & Hm & Hle). exists m. split; [done|]. unfold MINUTE, SECOND in *. lia.
Qed.

Lemma escalate_sos_events (env : SafetyEnv) (e : Z) (x row : SosEvent) (m : Z) (c : string) (now : Z) (s : SafetyDb) :
  sos_events s !! e = Some row -> waiting row = true ->
  sos_events (escalate_sos env e x m c now s).2 = alter (with_sos_escalated now) e (sos_events s).
Proof. intros Hr Hw. unfold escalate_sos. rewrite Hr. unfold waiting in Hw. rewrite Hw. cbn [negb snd]. by destruct (so_incident x). Qed.

Lemma escalate_incident_events (env : SafetyEnv) (i : Z) (x : Incident) (m : Z) (c : string) (now : Z) (s : SafetyDb) :
  sos_events (escalate_incident env i x m c now s).2 = sos_events s.
Proof. unfold escalate_incident. destruct (incidents s !! i); [|done]. by destruct (negb _). Qed.

Lemma sweep_cases_events (env : SafetyEnv) (now : Z) (l : list (Z * Incident)) (acc : Z * SafetyDb) :
  sos_events (foldl (sweep_incident env now) acc l).2 = sos_events acc.2.
Proof.
  revert acc. induction l as [|p l IH]; intros acc; [done|]. cbn [foldl]. rewrite IH. unfold sweep_incident.
  destruct (timer_passed _ _ _ _ _) as [m|]; [|done]. destruct (escalate_incident _ _ _ _ _ _ _) as [w s1] eqn:E. cbn [snd].
  change s1 with (w, s1).2. rewrite <- E. apply escalate_incident_events.
Qed.

Lemma sweep_events_fold (env : SafetyEnv) (now : Z) (l : list (Z * SosEvent)) (acc : Z * SafetyDb) :
  NoDup (fst <$> l) -> (forall p, p ∈ l -> sos_events acc.2 !! p.1 = Some p.2 /\ waiting p.2 = true) ->
  forall e x, sos_events acc.2 !! e = Some x ->
  sos_events (foldl (sweep_event env now) acc l).2 !! e =
  Some (if bool_decide (e ∈ fst <$> l) && event_due env now x then with_sos_escalated now x else x).
Proof.
  revert acc. induction l as [|p l IH]; intros acc Hnd Hl e x Hx; [done|]. cbn [foldl]. cbn in Hnd. apply NoDup_cons in Hnd as [Hp Hnd].
  destruct (Hl p ltac:(by left)) as [Hrow Hw].
  set (acc1 := sweep_event env now acc p).
  assert (H1 : sos_events acc1.2 = if event_due env now p.2 then alter (with_sos_escalated now) p.1 (sos_events acc.2) else sos_events acc.2).
  { unfold acc1, sweep_event, event_due. fold (country_of_event env p.2). rewrite Hw. destruct (timer_passed _ _ _ _ _) as [m|].
    - rewrite bool_decide_true by (by eexists). destruct (escalate_sos _ _ _ _ _ _ _) as [w s1] eqn:E. cbn [snd andb].
      change s1 with (w, s1).2. rewrite <- E. by apply (escalate_sos_events env p.1 p.2 p.2).
    - rewrite bool_decide_false by (by intros [? ?]). done. }
  assert (Hl1 : forall q, q ∈ l -> sos_events acc1.2 !! q.1 = Some q.2 /\ waiting q.2 = true).
  { intros q Hq. destruct (Hl q ltac:(by right)) as [Hq1 Hq2]. split; [|done]. rewrite H1. destruct (event_due env now p.2); [|done].
    rewrite lookup_alter_ne; [done|]. intros E. apply Hp. rewrite E. by apply list_elem_of_fmap_2. }
  destruct (decide (e = p.1)) as [->|Hne].
  - assert (x = p.2) as -> by congruence. rewrite (IH acc1 Hnd Hl1 p.1 (if event_due env now p.2 then with_sos_escalated now p.2 else p.2)).
    + rewrite bool_decide_false by done. rewrite bool_decide_true by (by left). done.
    + rewrite H1. destruct (event_due env now p.2); [by rewrite lookup_alter_eq, Hx|done].
  - rewrite (IH acc1 Hnd Hl1 e x).
    + rewrite (bool_decide_ext (e ∈ fst <$> p :: l) (e ∈ fst <$> l)); [done|]. cbn. rewrite elem_of_cons. tauto.
    + rewrite H1. destruct (event_due env now p.2); [by rewrite lookup_alter_ne|done].
Qed.

(** All the alarms the sweep has to look at are among those it reads, if they fit in a batch. *)
Lemma overdue_all (env : SafetyEnv) (cutoff : Z) (s : SafetyDb) :
  (length (waiting_events s) <= BATCH)%nat ->
  forall e x, (e, x) ∈ overdue_events cutoff s <-> sos_events s !! e = Some x /\ waiting x = true /\ so_created x <= cutoff.
Proof.
  intros Hlen e x. unfold overdue_events.
  set (f := fun p : Z * SosEvent => bool_decide (so_status p.2 = SosOpen) && bool_decide (so_escalated_at p.2 = None) && (so_created p.2 <=? cutoff)).
  assert (Hl : (length (List.filter f (map_to_list (sos_events s))) <= BATCH)%nat).
  { etrans; [|exact Hlen]. unfold waiting_events. generalize (map_to_list (sos_events s)). intros l. induction l as [|p l IH]; cbn; [lia|].
    unfold f at 1, waiting at 1. destruct (bool_decide (so_status p.2 = SosOpen) && bool_decide (so_escalated_at p.2 = None)); cbn; [|exact IH].
    destruct (_ <=? _); cbn; lia. }
  rewrite take_ge by (by rewrite merge_sort_Permutation). rewrite merge_sort_Permutation, elem_of_filter_b, elem_of_map_to_list.
  unfold f, waiting. cbn [snd]. rewrite !andb_true_iff, Z.leb_le. tauto.
Qed.

Lemma overdue_nodup (cutoff : Z) (s : SafetyDb) : NoDup (fst <$> overdue_events cutoff s).
Proof.
  unfold overdue_events. rewrite fmap_take. eapply sublist_NoDup; [|apply sublist_take]. rewrite merge_sort_Permutation. apply fst_filter_nodup.
Qed.

(** *** The cases nobody was given *)

Definition waiting_case (x : Incident) : bool :=
  bool_decide (in_severity x = Critical) && bool_decide (in_assigned x = None) && bool_decide (in_escalated_at x = None) && is_live x.

(** What the sweep decides of a case: critical, nobody has it and the timer of its country has passed. *)
Definition case_due (env : SafetyEnv) (now : Z) (x : Incident) : bool :=
  waiting_case x && bool_decide (is_Some (timer_passed env (in_country x) "incident_assign_minutes" (in_opened_at x) now)).

Definition waiting_cases (s : SafetyDb) : list (Z * Incident) := List.filter (fun p : Z * Incident => waiting_case p.2) (map_to_list (incidents s)).

Lemma overdue_cases_all (cutoff : Z) (s : SafetyDb) :
  (length (waiting_cases s) <= BATCH)%nat ->
  forall i x, (i, x) ∈ overdue_incidents cutoff s <-> incidents s !! i = Some x /\ waiting_case x = true /\ in_opened_at x <= cutoff.
Proof.
  intros Hlen i x. unfold overdue_incidents.
  set (f := fun p : Z * Incident => bool_decide (in_severity p.2 = Critical) && bool_decide (in_assigned p.2 = None) && bool_decide (in_escalated_at p.2 = None) &&
    (in_opened_at p.2 <=? cutoff) && is_live p.2).
  assert (Hf : forall p, f p = waiting_case p.2 && (in_opened_at p.2 <=? cutoff)).
  { intros p. unfold f, waiting_case. rewrite <- !andb_assoc. do 3 f_equal. apply andb_comm. }
  assert (Hl : (length (List.filter f (map_to_list (incidents s))) <= BATCH)%nat).
  { etrans; [|exact Hlen]. unfold waiting_cases. generalize (map_to_list (incidents s)). intros l. induction l as [|p l IH]; cbn; [lia|].
    rewrite Hf. destruct (waiting_case p.2); cbn; [|exact IH]. destruct (_ <=? _); cbn; lia. }
  rewrite take_ge by (by rewrite merge_sort_Permutation). rewrite merge_sort_Permutation, elem_of_filter_b, elem_of_map_to_list, Hf.
  cbn [snd]. rewrite !andb_true_iff, Z.leb_le. tauto.
Qed.

Lemma overdue_cases_nodup (cutoff : Z) (s : SafetyDb) : NoDup (fst <$> overdue_incidents cutoff s).
Proof.
  unfold overdue_incidents. rewrite fmap_take. eapply sublist_NoDup; [|apply sublist_take]. rewrite merge_sort_Permutation. apply fst_filter_nodup.
Qed.

(** *** The alerts of a sweep *)

(** There is an open critical alert on this source. *)
Definition critical_open (t : AlertTable) (st sid : string) : Prop :=
  exists a, a ∈ alerts t /\ open_for st sid a = true /\ alert_severity a = CRITICAL.

Lemma raise_up (k ti : string) (data : list (string * string)) (st sid : string) (city : option Place) (t : AlertTable) :
  table_ok t -> st <> EmptyString -> sid <> EmptyString -> live_city_only k = false ->
  critical_open (raise_alert t k ti CRITICAL (payload data) st sid city).2 st sid.
Proof.
  intros [_ Hk] Hst Hsid Hlive.
  destruct (raise_alert_open t k ti CRITICAL (payload data) st sid city Hk Hst Hsid) as (a & Hf & Hsev & _); [unfold city_is_live; by rewrite Hlive|].
  apply find_some in Hf as [Ha%list_elem_of_In Hop]. rewrite elem_of_reverse in Ha. exists a. split; [done|]. split; [done|].
  destruct (alert_severity a); [by cbn in Hsev; lia..|done].
Qed.

Lemma raise_keeps_up (k ti : string) (p : gmap string string) (st sid st' sid' : string) (city : option Place) (t : AlertTable) :
  critical_open t st' sid' -> critical_open (raise_alert t k ti CRITICAL p st sid city).2 st' sid'.
Proof.
  intros (a & Ha & Hop & Hsev). unfold raise_alert. destruct (negb _); [by exists a|].
  cbv zeta. set (o := if truthy (Some st) && truthy (Some sid) then find_open t st sid else None). destruct o as [b|].
  - destruct (_ <? _); cbn [snd]; [|by exists a]. exists (if alert_id a =? alert_id b then worsen k CRITICAL ti p a else a).
    split; [unfold update_alert; cbn [alerts]; apply list_elem_of_fmap; by exists a|]. destruct (_ =? _); [|done]. split; [|done]. exact Hop.
  - cbn [snd]. exists a. split; [cbn [alerts create_alert]; apply elem_of_app; by left|done].
Qed.

Lemma acknowledge_keeps (t : AlertTable) (a : Alert) (i : Z) (b : option Z) (n : string) (now : Z) :
  a ∈ alerts t -> alert_id a <> i -> a ∈ alerts (acknowledge t i b n now).2.
Proof.
  intros Ha Hi. unfold acknowledge. destruct (List.find _ _); [|done]. cbn [snd alerts update_alert]. apply list_elem_of_fmap. exists a.
  by rewrite (proj2 (Z.eqb_neq _ _) Hi).
Qed.

Lemma clear_keeps (t : AlertTable) (a : Alert) (st sid n : string) (ks : list string) (now : Z) :
  keys_ok t -> a ∈ alerts t -> open_for st sid a = false -> a ∈ alerts (clear_alerts t st sid n ks now).2.
Proof.
  intros Hk Ha Hop. unfold clear_alerts.
  set (l := List.filter _ (alerts t)). assert (Hl : forall b, b ∈ l -> alert_id a <> alert_id b).
  { intros b [Hb [Hb' _]%andb_true_iff]%elem_of_filter_b E. rewrite (keys_unique t a b Hk Ha Hb E) in Hop. congruence. }
  clearbody l. clear Hk Hop. generalize 0 as m. revert t Ha. induction l as [|b l IH]; intros t Ha m; [done|]. cbn [foldl].
  destruct (acknowledge t (alert_id b) None n now) as [ok t1] eqn:E. apply IH; [intros c Hc; apply Hl; by right|].
  change t1 with (ok, t1).2. rewrite <- E. apply acknowledge_keeps; [done|]. apply Hl. by left.
Qed.

Lemma clear_keeps_up (st sid n : string) (ks : list string) (now : Z) (st' sid' : string) (t : AlertTable) :
  table_ok t -> (st, sid) <> (st', sid') -> critical_open t st' sid' -> critical_open (clear_alerts t st sid n ks now).2 st' sid'.
Proof.
  intros [_ Hk] Hne (a & Ha & Hop & Hsev). exists a. split; [|done]. apply clear_keeps; [done..|].
  destruct (open_for st sid a) eqn:E; [|done]. apply open_for_iff in E as (<- & <- & _). apply open_for_iff in Hop as (<- & <- & _). done.
Qed.

(** Where the alert of an alarm is raised: on its case, or on itself. *)
Definition alert_source (e : Z) (x : SosEvent) : string * string :=
  match so_incident x with Some i => ("safety_incident", number i) | None => ("sos_event", number e) end.

Definition alarm_up (s : SafetyDb) (e : Z) (x : SosEvent) : Prop := critical_open (sf_alerts s) (alert_source e x).1 (alert_source e x).2.
Definition case_up (s : SafetyDb) (i : Z) : Prop := critical_open (sf_alerts s) "safety_incident" (number i).

Lemma escalate_sos_alerts (env : SafetyEnv) (e : Z) (x row : SosEvent) (m : Z) (c : string) (now : Z) (s : SafetyDb) :
  sos_events s !! e = Some row -> waiting row = true -> table_ok (sf_alerts s) ->
  let s' := (escalate_sos env e x m c now s).2 in
  table_ok (sf_alerts s') /\ incidents s' = incidents s /\ alarm_up s' e x /\
  (forall d y, d <> e -> alarm_up s d y -> alarm_up s' d y).
Proof.
  intros Hr Hw Hok. unfold escalate_sos, alarm_up, alert_source. rewrite Hr. unfold waiting in Hw. rewrite Hw. cbn [negb snd].
  destruct (so_incident x) as [i|]; cbv zeta; cbn [snd].
  - cbn [sf_alerts add_update push_update clear_on raise_on set_alerts update_event set_events incidents fst snd]. split; [|split; [done|split]].
    + apply clear_alerts_ok. by apply raise_alert_ok.
    + apply clear_keeps_up; [by apply raise_alert_ok|done|]. by apply raise_up; [| |apply number_not_empty|].
    + intros d y Hd Hy. apply clear_keeps_up; [by apply raise_alert_ok| |by apply raise_keeps_up].
      destruct (so_incident y); [done|]. cbn. intros [= E%number_eq]. congruence.
  - cbn [sf_alerts raise_on set_alerts update_event set_events incidents fst snd]. split; [by apply raise_alert_ok|]. split; [done|]. split.
    + by apply raise_up; [| |apply number_not_empty|].
    + intros d y _ Hy. by apply raise_keeps_up.
Qed.

Lemma sweep_event_alerts (env : SafetyEnv) (now : Z) (acc : Z * SafetyDb) (p : Z * SosEvent) :
  sos_events acc.2 !! p.1 = Some p.2 -> waiting p.2 = true -> table_ok (sf_alerts acc.2) ->
  let s' := (sweep_event env now acc p).2 in
  table_ok (sf_alerts s') /\ incidents s' = incidents acc.2 /\ (event_due env now p.2 = true -> alarm_up s' p.1 p.2) /\
  (forall d y, d <> p.1 -> alarm_up acc.2 d y -> alarm_up s' d y).
Proof.
  intros Hr Hw Hok. unfold sweep_event, event_due. fold (country_of_event env p.2). rewrite Hw.
  destruct (timer_passed _ _ _ _ _) as [m|]; [|split; [done|split; [done|split; [|done]]]; by rewrite bool_decide_false by (by intros [? ?])].
  destruct (escalate_sos_alerts env p.1 p.2 p.2 m (country_of_event env p.2) now acc.2 Hr Hw Hok) as (H1 & H2 & H3 & H4).
  destruct (escalate_sos _ _ _ _ _ _ _) as [w s1]. by cbn in *.
Qed.

Lemma sweep_event_rows (env : SafetyEnv) (now : Z) (acc : Z * SafetyDb) (p : Z * SosEvent) :
  sos_events acc.2 !! p.1 = Some p.2 -> waiting p.2 = true ->
  forall e, e <> p.1 -> sos_events (sweep_event env now acc p).2 !! e = sos_events acc.2 !! e.
Proof.
  intros Hr Hw e He. unfold sweep_event. destruct (timer_passed _ _ _ _ _) as [m|]; [|done].
  destruct (escalate_sos _ _ _ _ _ _ _) as [w s1] eqn:E. cbn [snd]. change s1 with (w, s1).2. rewrite <- E.
  rewrite (escalate_sos_events env p.1 p.2 p.2) by done. by rewrite lookup_alter_ne.
Qed.

Lemma sweep_events_alerts (env : SafetyEnv) (now : Z) (l : list (Z * SosEvent)) (acc : Z * SafetyDb) :
  NoDup (fst <$> l) -> (forall p, p ∈ l -> sos_events acc.2 !! p.1 = Some p.2 /\ waiting p.2 = true) -> table_ok (sf_alerts acc.2) ->
  let s' := (foldl (sweep_event env now) acc l).2 in
  table_ok (sf_alerts s') /\ incidents s' = incidents acc.2 /\
  (forall e x, (e, x) ∈ l -> event_due env now x = true -> alarm_up s' e x) /\
  (forall d y, d ∉ fst <$> l -> alarm_up acc.2 d y -> alarm_up s' d y).
Proof.
  revert acc. induction l as [|p l IH]; intros acc Hnd Hl Hok.
  { split; [done|]. split; [done|]. split; [|done]. intros e x Hin. by apply elem_of_nil in Hin. }
  cbn [foldl]. cbn in Hnd. apply NoDup_cons in Hnd as [Hp Hnd]. destruct (Hl p ltac:(by left)) as [Hr Hw].
  destruct (sweep_event_alerts env now acc p Hr Hw Hok) as (H1 & H2 & H3 & H4). set (acc1 := sweep_event env now acc p) in *.
  destruct (IH acc1 Hnd) as (G1 & G2 & G3 & G4); [|done|].
  - intros q Hq. destruct (Hl q ltac:(by right)) as [Hq1 Hq2]. split; [|done]. unfold acc1. rewrite sweep_event_rows; [done..|].
    intros E. apply Hp. rewrite <- E. by apply list_elem_of_fmap_2.
  - split; [done|]. split; [by rewrite G2|]. split.
    + intros e x [<- |Hin]%elem_of_cons Hd; [apply G4; [done|by apply H3]|by apply G3].
    + cbn. intros d y [Hd Hdl]%not_elem_of_cons Hy. apply G4; [done|by apply H4].
Qed.

Lemma escalate_case_spec (env : SafetyEnv) (i : Z) (x : Incident) (m : Z) (c : string) (now : Z) (s : SafetyDb) :
  incidents s !! i = Some x -> waiting_case x = true -> table_ok (sf_alerts s) ->
  let s' := (escalate_incident env i x m c now s).2 in
  table_ok (sf_alerts s') /\ incidents s' = alter (with_escalated now) i (incidents s) /\ case_up s' i /\
  (forall st sid, critical_open (sf_alerts s) st sid -> critical_open (sf_alerts s') st sid).
Proof.
  intros Hx Hw Hok. unfold escalate_incident. rewrite Hx.
  assert (E : bool_decide (in_escalated_at x = None) && bool_decide (in_assigned x = None) && bool_decide (in_severity x = Critical) && is_live x = true).
  { rewrite <- Hw. unfold waiting_case. destruct (bool_decide _), (bool_decide _), (bool_decide _); done. }
  rewrite E. cbn [negb snd]. unfold case_up. cbv zeta.
  cbn [sf_alerts add_update push_update raise_on set_alerts update_incident set_incidents incidents]. split; [by apply raise_alert_ok|].
  split; [done|]. split; [by apply raise_up; [| |apply number_not_empty|]|]. intros st sid. apply raise_keeps_up.
Qed.

Lemma sweep_cases_spec (env : SafetyEnv) (now : Z) (l : list (Z * Incident)) (acc : Z * SafetyDb) :
  NoDup (fst <$> l) -> (forall p, p ∈ l -> incidents acc.2 !! p.1 = Some p.2 /\ waiting_case p.2 = true) -> table_ok (sf_alerts acc.2) ->
  let s' := (foldl (sweep_incident env now) acc l).2 in
  (forall st sid, critical_open (sf_alerts acc.2) st sid -> critical_open (sf_alerts s') st sid) /\
  (forall i x, (i, x) ∈ l -> case_due env now x = true -> case_up s' i) /\
  (forall i x, incidents acc.2 !! i = Some x ->
     incidents s' !! i = Some (if bool_decide (i ∈ fst <$> l) && case_due env now x then with_escalated now x else x)).
Proof.
  revert acc. induction l as [|p l IH]; intros acc Hnd Hl Hok.
  { split; [done|]. split; [|done]. intros i x Hin. by apply elem_of_nil in Hin. }
  cbn [foldl]. cbn in Hnd. apply NoDup_cons in Hnd as [Hp Hnd]. destruct (Hl p ltac:(by left)) as [Hr Hw].
  set (acc1 := sweep_incident env now acc p).
  assert (H : table_ok (sf_alerts acc1.2) /\
    incidents acc1.2 = (if case_due env now p.2 then alter (with_escalated now) p.1 (incidents acc.2) else incidents acc.2) /\
    (case_due env now p.2 = true -> case_up acc1.2 p.1) /\
    (forall st sid, critical_open (sf_alerts acc.2) st sid -> critical_open (sf_alerts acc1.2) st sid)).
  { unfold acc1, sweep_incident, case_due. rewrite Hw. destruct (timer_passed _ _ _ _ _) as [m|].
    - rewrite bool_decide_true by (by eexists). destruct (escalate_case_spec env p.1 p.2 m (in_country p.2) now acc.2 Hr Hw Hok) as (A1 & A2 & A3 & A4).
      destruct (escalate_incident _ _ _ _ _ _ _) as [w s1]. by cbn in *.
    - rewrite bool_decide_false by (by intros [? ?]). done. }
  destruct H as (H1 & H2 & H3 & H4).
  assert (Hother : forall i, i <> p.1 -> incidents acc1.2 !! i = incidents acc.2 !! i)
    by (intros i Hi; rewrite H2; destruct (case_due _ _ _); [by rewrite lookup_alter_ne|done]).
  destruct (IH acc1 Hnd) as (G1 & G2 & G3); [|done|].
  { intros q Hq. destruct (Hl q ltac:(by right)) as [Hq1 Hq2]. split; [|done]. rewrite Hother; [done|].
    intros E. apply Hp. rewrite <- E. by apply list_elem_of_fmap_2. }
  split; [auto|]. split.
  - intros i x [<- |Hin]%elem_of_cons Hd; [apply G1; by apply H3|by eapply G2].
  - intros i x Hx. destruct (decide (i = p.1)) as [->|Hne].
    + assert (x = p.2) as -> by congruence. rewrite (G3 p.1 (if case_due env now p.2 then with_escalated now p.2 else p.2)).
      * rewrite bool_decide_false by done. rewrite bool_decide_true by (by left). done.
      * rewrite H2. destruct (case_due env now p.2); [by rewrite lookup_alter_eq, Hx|done].
    + rewrite (G3 i x) by (by rewrite Hother). rewrite (bool_decide_ext (i ∈ fst <$> p :: l) (i ∈ fst <$> l)); [done|].
      cbn. rewrite elem_of_cons. tauto.
Qed.

(** C33. The sweep raises its voice for exactly what nobody took in time.  After a pass, an alarm is
    marked as escalated at that moment if and only if it was open, was not escalated before and the
    timer its own country configures has passed; a case, if and only if it was live, critical,
    assigned to nobody, not escalated before and the timer of its country has passed; every other
    row is as it was.  And for each alarm and each case it marks there is then an open critical
    alert: on the case, or on the alarm if it has none (an alarm and its case share one alert).
    The alarms and the cases that wait have to fit in one batch each, and the alert table is one
    that [Alerts] can produce. *)
Theorem sweep_escalates_overdue (fails : Z -> bool) (env : SafetyEnv) (now : Z) (s : SafetyDb) :
  let s1 := (backfill_sos_incidents fails env now 50 s).2 in
  let s2 := (sweep fails env now s).2 in
  (length (waiting_events s1) <= BATCH)%nat -> (length (waiting_cases s1) <= BATCH)%nat -> table_ok (sf_alerts s1) ->
  (forall e x, sos_events s1 !! e = Some x ->
     sos_events s2 !! e = Some (if event_due env now x then with_sos_escalated now x else x) /\
     (event_due env now x = true -> alarm_up s2 e x)) /\
  (forall i x, incidents s1 !! i = Some x ->
     incidents s2 !! i = Some (if case_due env now x then with_escalated now x else x) /\
     (case_due env now x = true -> case_up s2 i)).
Proof.
  intros s1 s2 Hlen Hclen Hok. unfold s2, sweep. destruct (backfill_sos_incidents fails env now 50 s) as [n s1'] eqn:Eb. cbn [snd] in s1. subst s1.
  set (r := match shortest (se_configs env) "sos_ack_minutes" with Some m => _ | None => _ end).
  assert (Hr : table_ok (sf_alerts r.2) /\ incidents r.2 = incidents s1' /\ forall e x, sos_events s1' !! e = Some x ->
    sos_events r.2 !! e = Some (if event_due env now x then with_sos_escalated now x else x) /\ (event_due env now x = true -> alarm_up r.2 e x)).
  { unfold r. destruct (shortest (se_configs env) "sos_ack_minutes") as [m|] eqn:Em.
    - assert (Hin : forall p, p ∈ overdue_events (now - m * MINUTE) s1' -> sos_events (0, s1').2 !! p.1 = Some p.2 /\ waiting p.2 = true).
      { intros [d z] Hd. apply (overdue_all env _ s1' Hlen) in Hd as (H1 & H2 & _). done. }
      destruct (sweep_events_alerts env now _ (0, s1') (overdue_nodup _ _) Hin Hok) as (A1 & A2 & A3 & _).
      split; [done|]. split; [done|]. intros e x Hx.
      assert (Hdue : event_due env now x = true -> (e, x) ∈ overdue_events (now - m * MINUTE) s1').
      { intros Ed. apply (overdue_all env _ s1' Hlen). unfold event_due in Ed. apply andb_true_iff in Ed as [Hw [k Hk]%bool_decide_eq_true].
        split; [done|]. split; [done|]. apply timer_cutoff in Hk as (m' & Hm' & Hle). congruence. }
      split; [|intros Ed; by apply A3; [apply Hdue|]]. rewrite (sweep_events_fold env now _ (0, s1') (overdue_nodup _ _) Hin e x Hx).
      destruct (event_due env now x) eqn:Ed; [|by rewrite andb_false_r]. rewrite bool_decide_true; [done|].
      apply list_elem_of_fmap. exists (e, x). split; [done|]. by apply Hdue.
    - split; [done|]. split; [done|]. intros e x Hx. cbn [snd]. destruct (event_due env now x) eqn:Ed; [|done]. exfalso. unfold event_due in Ed.
      apply andb_true_iff in Ed as [_ [k Hk]%bool_decide_eq_true]. apply timer_cutoff in Hk as (m' & Hm' & _). congruence. }
  destruct r as [a s2']. cbn [snd] in Hr. destruct Hr as (Hok2 & Hinc & Hev).
  set (q := match shortest (se_configs env) "incident_assign_minutes" with Some m => _ | None => _ end).
  assert (Hq : sos_events q.2 = sos_events s2' /\ (forall st sid, critical_open (sf_alerts s2') st sid -> critical_open (sf_alerts q.2) st sid) /\
    forall i x, incidents s1' !! i = Some x ->
      incidents q.2 !! i = Some (if case_due env now x then with_escalated now x else x) /\ (case_due env now x = true -> case_up q.2 i)).
  { unfold q. assert (Hclen2 : (length (waiting_cases s2') <= BATCH)%nat) by (unfold waiting_cases; by rewrite Hinc).
    destruct (shortest (se_configs env) "incident_assign_minutes") as [m|] eqn:Em.
    - split; [by rewrite sweep_cases_events|].
      assert (Hin : forall p, p ∈ overdue_incidents (now - m * MINUTE) s2' -> incidents (0, s2').2 !! p.1 = Some p.2 /\ waiting_case p.2 = true).
      { intros [d z] Hd. apply (overdue_cases_all _ s2' Hclen2) in Hd as (H1 & H2 & _). done. }
      destruct (sweep_cases_spec env now _ (0, s2') (overdue_cases_nodup _ _) Hin Hok2) as (A1 & A2 & A3).
      split; [done|]. intros i x Hx. rewrite <- Hinc in Hx.
      assert (Hdue : case_due env now x = true -> (i, x) ∈ overdue_incidents (now - m * MINUTE) s2').
      { intros Ed. apply (overdue_cases_all _ s2' Hclen2). unfold case_due in Ed. apply andb_true_iff in Ed as [Hw [k Hk]%bool_decide_eq_true].
        split; [done|]. split; [done|]. apply timer_cutoff in Hk as (m' & Hm' & Hle). congruence. }
      split; [|intros Ed; by eapply A2; [apply Hdue|]]. rewrite (A3 i x Hx).
      destruct (case_due env now x) eqn:Ed; [|by rewrite andb_false_r]. rewrite bool_decide_true; [done|].
      apply list_elem_of_fmap. exists (i, x). split; [done|]. by apply Hdue.
    - split; [done|]. split; [done|]. intros i x Hx. cbn [snd]. rewrite Hinc. destruct (case_due env now x) eqn:Ed; [|done]. exfalso. unfold case_due in Ed.
      apply andb_true_iff in Ed as [_ [k Hk]%bool_decide_eq_true]. apply timer_cutoff in Hk as (m' & Hm' & _). congruence. }
  destruct q as [c s3]. cbn [snd] in *. destruct Hq as (Hq1 & Hq2 & Hq3). split; [|exact Hq3].
  intros e x Hx. rewrite Hq1. destruct (Hev e x Hx) as [E1 E2]. split; [done|]. intros Ed. by apply Hq2, E2.
Qed.

(** ** The people who are paged *)

Lemma responder_holds (db : AccessDb) (u : User) (node : option GeoRow) :
  u ∈ responders_for db node -> is_operator (Some u) = true ->
  exists r n, holds_at db u r n /\ CAPABILITY ∈ r_permissions r /\ (forall o, node = Some o -> covers n (Some o) = true).
Proof.
  unfold responders_for, operators_holding. intros [_ [_ (a & Ha & H)%existsb_exists]%andb_true_iff]%elem_of_filter_b Hop.
  rewrite !andb_true_iff in H. destruct H as [[Hu%Z.eqb_eq Hact] H]. unfold joined in H.
  destruct (roles db !! as_role a) as [r|] eqn:Er; [|done]. destruct (nodes db !! as_scope a) as [n|] eqn:En; [|done].
  rewrite !andb_true_iff in H. destruct H as [[Hra Hp%bool_decide_eq_true] Hc]. exists r, n.
  apply list_elem_of_In, list_elem_of_fmap in Ha as ([k a'] & -> & Hk%elem_of_map_to_list).
  split; [|split; [done|]].
  - split; [|by exists k, a']. unfold is_operator in Hop. by apply andb_true_iff in Hop as [? _].
  - intros o ->. rewrite bool_decide_false in Hc by done. done.
Qed.

Lemma holds_intro (db : AccessDb) (u : User) (node : option GeoRow) :
  is_operator (Some u) = true -> CAPABILITY ∈ permissions_at db u node -> holds db u CAPABILITY node = true.
Proof.
  intros Ho Hp. unfold holds, granted. rewrite Ho. cbn [negb]. unfold has_permission_at.
  rewrite (bool_decide_true (CAPABILITY ∈ ALL_PERMISSIONS)) by (by apply (bool_decide_unpack _); vm_compute). cbn [res_bind].
  by rewrite bool_decide_true.
Qed.

Lemma superuser_permissions (db : AccessDb) (u : User) (node : option GeoRow) : u_superuser u = true -> CAPABILITY ∈ permissions_at db u node.
Proof. intros H. unfold permissions_at. rewrite H. by apply (bool_decide_unpack _); vm_compute. Qed.

Lemma scoped_by (db : AccessDb) (u : User) (r : Role) (n : GeoRow) :
  holds_at db u r n -> unrestricted db u = true \/ exists ps, scope_paths db u = Some ps /\ g_path n ∈ ps.
Proof.
  intros H. unfold unrestricted, scope_paths. destruct (u_superuser u); [left; by rewrite orb_true_r|].
  destruct (existsb _ _); [left; by rewrite orb_true_r|]. right. eexists. split; [done|].
  apply elem_of_sorted_set, list_elem_of_fmap. exists (r, n). split; [done|]. by apply elem_of_active.
Qed.

(** Everyone who is paged can answer: an operator whom an alarm is pushed to (the responders at the
    place of its case, or everywhere for a case nobody could place) sees the case and may act on it. *)
Theorem paged_responders_can_answer (env : SafetyEnv) (u : User) (x : Incident) :
  (forall k, in_anchor x = Some k -> is_Some (nodes (se_access env) !! k)) ->
  (in_anchor x = None -> in_anchor_source x = AnchorUnanchored) ->
  u ∈ responders_for (se_access env) (node_of env (in_anchor x)) -> is_operator (Some u) = true ->
  sees_incident env u None x = true /\ incident_may env u CAPABILITY x = true.
Proof.
  intros Hnode Hun Hr Ho. set (db := se_access env) in *. destruct (responder_holds db u _ Hr Ho) as (r & n & Hh & Hp & Hc). split.
  - unfold sees_incident, paths_of. fold db. destruct (scoped_by db u r n Hh) as [->|(ps & Hps & Hin)]; [done|].
    destruct (unrestricted db u); [done|]. rewrite Hps. cbn [default]. destruct ps as [|p ps]; [by apply elem_of_nil in Hin|].
    destruct (in_anchor x) as [k|] eqn:Ek; [|by rewrite bool_decide_true by auto].
    apply orb_true_iff. right. cbn in Hc |- *. destruct (Hnode k eq_refl) as [m Hm]. fold db in Hc |- *. rewrite Hm in Hc |- *.
    apply orb_true_iff. left.
    assert (H : existsb (fun q => String.prefix q (g_path m)) (p :: ps) = true); [|exact H].
    apply existsb_exists. exists (g_path n). split; [by apply list_elem_of_In|]. by apply Hc.
  - assert (Hany : forall m, (forall o, m = Some o -> covers n (Some o) = true) -> holds db u CAPABILITY m = true).
    { intros m Hm. apply holds_intro; [done|]. destruct (u_superuser u) eqn:Es; [by apply superuser_permissions|].
      apply elem_of_permissions; [done|]. by exists r, n. }
    unfold incident_may. fold db. destruct (in_anchor x) as [k|] eqn:Ek; [|by apply Hany].
    cbn in Hc. fold db in Hc. destruct (Hnode k eq_refl) as [m Hm]. fold db in Hm. rewrite Hm in Hc |- *.
    destruct (negb _); [by apply Hany|]. destruct (u_superuser u || unrestricted db u); [by apply Hany|].
    destruct (negb (strict_mode db) && _); [by apply Hany|]. apply existsb_exists. exists (r, n).
    split; [by apply list_elem_of_In, elem_of_active|]. cbn [fst snd]. rewrite bool_decide_true by done. unfold related.
    specialize (Hc m eq_refl). unfold covers in Hc. by rewrite Hc.
Qed.

(** ** Where the code does not do what it says *)

(** A note on the case that does not set it to work leaves every case as it is. *)
Lemma note_done (e : Z) (incident : option Z) (st : sos_status) (a : option Z) (n : string) (seen : SafetyDb) (now : Z) (s : SafetyDb) :
  (forall i, incident = Some i -> st = SosAcknowledged -> in_status <$> incidents seen !! i <> Some Opened) ->
  exists s', note_on_sos_transition e incident st a n seen now s = Some s' /\ sos_events s' = sos_events s /\ incidents s' = incidents s.
Proof.
  intros Hno.
  assert (H : is_Some (note_on_sos_transition e incident st a n seen now s)).
  { unfold note_on_sos_transition. destruct incident as [i|]; [|by eexists]. destruct (_ && _) eqn:E; [|by eexists].
    apply andb_true_iff in E as [E1%bool_decide_eq_true E2%bool_decide_eq_true]. by destruct (Hno i eq_refl E1). }
  destruct H as [s' Hs']. exists s'. split; [done|]. apply note_cases_spec in Hs' as [H1 [H2|(i & Hi & Ha & Ho & _)]]; [done|].
  by destruct (Hno i Hi Ha).
Qed.

Lemma transition_done (env : SafetyEnv) (u : User) (e now : Z) (st : sos_status) (n : string) (case : SafetyDb) (x : SosEvent) (s : SafetyDb) :
  holds (se_access env) u CAPABILITY None = true -> sos_events s !! e = Some x -> sees_event env u x = true ->
  so_status x <> st -> st <> SosFalseAlarm ->
  (forall i, so_incident x = Some i -> st = SosAcknowledged -> in_status <$> incidents case !! i <> Some Opened) ->
  exists s', admin_transition env u e st n s case now s = (Ok true, s') /\ sos_events s' = alter (with_sos_status st) e (sos_events s) /\
             incidents s' = incidents s.
Proof.
  intros Hh He Hs Hst Hf Hno. unfold admin_transition. rewrite Hh, He, Hs. cbn [negb]. rewrite bool_decide_false by done. cbn [andb].
  unfold apply_transition. rewrite He, bool_decide_false by done. cbn [andb].
  match goal with |- context [note_on_sos_transition ?a ?b ?c ?d ?f ?g ?h ?k] => destruct (note_done a b c d f g h k Hno) as (s' & -> & H1 & H2) end.
  by exists s'.
Qed.

Lemma closed_case_refuses (env : SafetyEnv) (u : User) (i : Z) (y : Incident) (s : SafetyDb) :
  incidents s !! i = Some y -> in_status y = Closed -> forall x, incident_for env u i true s <> Ok x.
Proof.
  intros Hy Hc x H. unfold incident_for in H. apply res_bind_ok in H as (_ & _ & (z & Hz & H)%res_bind_ok).
  rewrite Hy in Hz. cbn in Hz. injection Hz as <-.
  apply res_bind_ok in H as (_ & _ & (_ & _ & (_ & Hl%require_ok & _)%res_bind_ok)%res_bind_ok).
  unfold is_live in Hl. by rewrite bool_decide_true in Hl by done.
Qed.

(** An alarm can come back behind a closed case: the endpoints of an alarm let an operator acknowledge
    one that was resolved or a false alarm, whatever became of its case.  The alarm then needs somebody
    again, its case stays closed, and no one can acknowledge, resolve or dismiss it through the case. *)
Theorem alarm_returns_behind_closed_case (env : SafetyEnv) (u : User) (i e now : Z) (n : string) (x : SosEvent) (y : Incident) (s : SafetyDb) :
  incidents s !! i = Some y -> in_status y = Closed -> sos_events s !! e = Some x -> so_incident x = Some i ->
  sos_active (so_status x) = false -> holds (se_access env) u CAPABILITY None = true -> sees_event env u x = true ->
  exists s', admin_transition env u e SosAcknowledged n s s now s = (Ok true, s') /\ ~ no_hidden_alarm s' /\
    forall env' u' t o rd r m, (safety_acknowledge env' u' i s' rd m s').1 <> Ok r /\ (safety_resolve env' u' i t o s' rd m s').1 <> Ok r /\
                               (safety_false_alarm env' u' i t s' rd m s').1 <> Ok r.
Proof.
  intros Hy Hc Hx Hi Ha Hh Hs.
  assert (Hst : so_status x <> SosAcknowledged) by (intros E; by rewrite E in Ha).
  destruct (transition_done env u e now SosAcknowledged n s x s Hh Hx Hs Hst ltac:(done)) as (s' & Hs' & Hev & Hin).
  { intros j Hj _. replace j with i by congruence. rewrite Hy. cbn. by rewrite Hc. }
  exists s'. split; [done|]. assert (Hy' : incidents s' !! i = Some y) by (by rewrite Hin).
  split.
  - intros Hq. specialize (Hq i y e (with_sos_status SosAcknowledged x) Hy' Hc). rewrite Hev, lookup_alter_eq, Hx in Hq.
    by specialize (Hq eq_refl Hi).
  - intros env' u' t o rd r m. pose proof (closed_case_refuses env' u' i y s' Hy' Hc) as Hno.
    assert (Hf : forall (A : Type) (k : Incident -> res refusal A) z, (let* v := incident_for env' u' i true s' in k v) <> Ok z).
    { intros A k z (v & Hv & _)%res_bind_ok. by apply (Hno v). }
    assert (Ha' : forall (A : Type) (c : res refusal A) k, (forall z, c <> Ok z) -> (after c s' k).1 <> Ok r).
    { intros A c k Hz. destruct c as [z|]; [by destruct (Hz z)|done]. }
    split; [|split].
    + apply Ha'. intros z. apply Hf.
    + unfold safety_resolve, after at 1. destruct (res_bind _ _) as [p|]; [|done]. apply Ha'. intros z. apply Hf.
    + unfold safety_false_alarm, after at 1. destruct (text_of _ _ _ _) as [p|]; [|done]. apply Ha'. intros z. apply Hf.
Qed.

(** The endpoints of an alarm do not ask where: an operator who may answer alarms in one city and has any
    other role in a second one can resolve an alarm of the second city, on a case where the console refuses
    them every action for want of the permission there. *)
Theorem alarm_answered_out_of_place (env : SafetyEnv) (u : User) (i e now : Z) (n : string) (t o : option string) (x : SosEvent) (y : Incident)
    (s : SafetyDb) (p : string * string) :
  incidents s !! i = Some y -> sos_events s !! e = Some x -> so_incident x = Some i -> so_status x = SosOpen ->
  holds (se_access env) u CAPABILITY None = true -> sees_event env u x = true -> sees_incident env u None y = true ->
  incident_may env u CAPABILITY y = false -> text_of "summary" true MAX_NOTE t = Ok p.1 -> outcome_text o = Ok p.2 ->
  (forall rd, (safety_resolve env u i t o s rd now s).1 = Err Denied) /\
  exists s', admin_transition env u e SosResolved n s s now s = (Ok true, s') /\ so_status <$> sos_events s' !! e = Some SosResolved.
Proof.
  intros Hy Hx Hi Hst Hh Hs Hsee Hmay Ht Hp. split.
  - intros rd. unfold safety_resolve, after at 1. rewrite Ht. cbn [res_bind]. rewrite Hp. cbn [res_bind fst snd]. unfold finish, incident_for.
    rewrite Hh, Hy. cbn. by rewrite Hsee, Hmay.
  - destruct (transition_done env u e now SosResolved n s x s Hh Hx Hs ltac:(by rewrite Hst) ltac:(done) ltac:(done)) as (s' & Hs' & Hev & _).
    exists s'. split; [done|]. by rewrite Hev, lookup_alter_eq, Hx.
Qed.

(** ** A night in Hyderabad *)

(** Two live cities; officer 7 answers in Hyderabad (4), officer 8 in Warangal (6), where they also help
    out support in Hyderabad; rider 5 and the driver profile 9 of account 109. *)
Definition demo_cities : GeoTable :=
  match save_rows (demo_rows ++ [(6, demo_row KCity "IN-TG-WGL" (Some 3))]) ∅ with Ok t => t | Err _ => ∅ end.

Definition officer_role : Role := {| r_code := COVERING_ROLE; r_permissions := ["safety.respond"; "safety.read"]; r_global_only := false; r_active := true |}.
Definition agent_role : Role := {| r_code := "support"; r_permissions := ["support.reply"]; r_global_only := false; r_active := true |}.

Definition assigned_to (admin role scope : Z) : Assignment := {| as_admin := admin; as_role := role; as_scope := scope; as_active := true |}.

Definition demo_staff : AccessDb := {|
  nodes := demo_cities; roles := {[1 := officer_role; 2 := agent_role]};
  assignments := {[1 := assigned_to 7 1 4; 2 := assigned_to 8 1 6; 3 := assigned_to 8 2 4]};
  users := {[7 := demo_user 7 false; 8 := demo_user 8 false]}; strict_mode := true |}.

Definition demo_timers : SafetyCountryConfig := {|
  sc_country := "IN"; sc_version := 1; sc_active := true; sc_valid_from := 0; sc_valid_to := None; sc_reason := "launch";
  sc_values := {["sos_ack_minutes" := 5; "incident_assign_minutes" := 5; "min_safety_officers" := 1]}; sc_numbers := [] |}.

Definition demo_zone_of_city : Zone := {|
  zone_id := 1; zone_code := "HYD"; zone_country := "IN"; zone_parent := None; zone_priority := 0; zone_currency := "INR";
  zone_distance_unit := "km"; zone_tax_mode := "inclusive"; zone_per_trip_fee := of_Z 0; zone_fee_label := EmptyString;
  zone_geo_node := Some (mk_node 4 KCity "IN-TG-HYD" "GLOBAL/IN/IN-TG/IN-TG-HYD/" None); zone_is_active := true |}.

Definition demo_safety : SafetyEnv := {|
  se_access := demo_staff; se_configs := [demo_timers]; se_trips := ∅; se_driver_of u := if u =? 109 then Some 9 else None;
  se_driver_user d := 100 + d; se_home_city _ := Some 4; se_is_rider u := u =? 5; se_rider_home _ := None;
  se_phone _ := Some "+919812345678"; se_trip_window := 0; se_zones_at _ _ := [demo_zone_of_city]; se_sees _ _ _ := true |}.

Definition demo_press : SosRequest := {|
  sr_user := 5; sr_role := "rider"; sr_type := None; sr_trip := None; sr_lat := Some (17.4)%Q; sr_lng := Some (78.5)%Q; sr_note := "help" |}.

Definition at_minute (n : Z) : Z := n * MINUTE.

Definition demo_raised : SafetyDb := (raise_sos false demo_safety demo_press (reads_now no_cases) 0 no_cases).2.
Definition demo_swept : SafetyDb := (sweep (fun _ => false) demo_safety (at_minute 6) demo_raised).2.
Definition demo_taken : SafetyDb := (safety_acknowledge demo_safety (demo_user 7 false) 1 demo_swept (reads_now demo_swept) (at_minute 7) demo_swept).2.
Definition alarm_1 (s : SafetyDb) : SosEvent := default (event_for demo_safety demo_press None 0) (sos_events s !! 1).
Definition case_1 (s : SafetyDb) : option Incident := incidents s !! 1.

(** Acknowledging an alarm can silence another alert: an SOS nobody took in time also leaves its case
    without an owner.  Both alerts share the case, so the second is the first, and taking the alarm
    clears it: the case stays critical and unassigned with no open alert, and no later sweep raises
    one again. *)
Theorem acknowledgement_silences_unassigned :
  (sweep (fun _ => false) demo_safety (at_minute 6) demo_raised).1 = (0, 1, 1) /\
  List.filter is_open (alerts (sf_alerts demo_taken)) = [] /\
  (exists x, case_1 demo_taken = Some x /\ is_live x = true /\ in_assigned x = None /\ in_severity x = Critical) /\
  forall env x m c now, escalate_incident env 1 x m c now demo_taken = (false, demo_taken).
Proof.
  split; [vm_compute; reflexivity|]. split; [vm_compute; reflexivity|].
  assert (H : exists x, incidents demo_taken !! 1 = Some x /\ is_live x = true /\ in_assigned x = None /\ in_severity x = Critical /\
                        bool_decide (in_escalated_at x = None) = false).
  { destruct (incidents demo_taken !! 1) as [x|] eqn:E; [|by vm_compute in E]. exists x. split; [done|].
    vm_compute in E. injection E as <-. by vm_compute. }
  destruct H as (x & Hx & H1 & H2 & H3 & H4). split; [by exists x|]. intros env x' m c now. unfold escalate_incident. by rewrite Hx, H4.
Qed.

(** ** Three races *)

(** Two riders' alarms on one trip of the night, and what its case was given for. *)
Definition demo_trip : Trip := {|
  trip_id := 12; trip_rider := 5; trip_driver := Some 9; trip_zone := Some demo_zone_of_city; trip_pickup := (0, 0)%Q; trip_vehicle_type := None;
  trip_vehicle_vt := None; trip_requested_at := 0; trip_currency := "INR"; estimated_fare_minor := None; final_fare_minor := None;
  payment_method := None; end_rule := EmptyString; commission_percent_snapshot := None; commission_rule_id := None; commission_rule_version := None |}.

Definition demo_ride : SafetyEnv := {|
  se_access := demo_staff; se_configs := [demo_timers]; se_trips := {[12 := demo_trip]}; se_driver_of u := if u =? 109 then Some 9 else None;
  se_driver_user d := 100 + d; se_home_city _ := Some 4; se_is_rider u := u =? 5; se_rider_home _ := None;
  se_phone _ := Some "+919812345678"; se_trip_window := 0; se_zones_at _ _ := [demo_zone_of_city]; se_sees _ _ _ := true |}.

Definition ride_press (kind : string) : SosRequest := {|
  sr_user := 5; sr_role := "rider"; sr_type := Some kind; sr_trip := Some 12; sr_lat := None; sr_lng := None; sr_note := EmptyString |}.
Definition next (s : SafetyDb) (c : Centre) : Centre := {| ce_db := s; ce_past := ce_db c :: ce_past c |}.

Lemma run_on (b : leeway) (s : SafetyDb) (c : Centre) :
  rtc (centre_step b) start c -> safety_step b (ce_past c) (ce_db c) s -> rtc (centre_step b) start (next s c).
Proof. intros Hr Hs. eapply rtc_r; [exact Hr|]. by apply centre_goes. Qed.

(** A press that reads the case of the trip in [z]. *)
Definition pressed (kind : string) (z : SafetyDb) (now : Z) (c : Centre) : Centre :=
  next (raise_sos false demo_ride (ride_press kind) (reads_now z) now (ce_db c)).2 c.

Lemma press_run (b : leeway) (kind : string) (z : SafetyDb) (now : Z) (c : Centre) :
  lw_closed b = true -> lw_regraded b = true -> z ∈ ce_db c :: ce_past c -> rtc (centre_step b) start c -> rtc (centre_step b) start (pressed kind z now c).
Proof. intros H1 H2 Hz Hr. apply run_on; [exact Hr|]. apply st_raise; [by split|]. split; intros H; congruence. Qed.

Definition officer : User := demo_user 7 false.

(** An alarm can join a case that is closed: the second press reads the open case, an operator
    resolves it, and then the alarm is attached.  It is open, its case is closed, and nobody took
    up an alarm that was over. *)
Definition joined_late : Centre :=
  let c1 := pressed "panic" no_cases 0 start in
  let c2 := next (safety_resolve demo_ride officer 1 (Some "rider is safe") (Some "no_action") (ce_db c1) (reads_now (ce_db c1)) (at_minute 9) (ce_db c1)).2 c1 in
  pressed "accident" (ce_db c1) (at_minute 9) c2.

Definition no_returns : leeway := {| lw_returns := false; lw_closed := true; lw_regraded := true; lw_reopens := true |}.

Theorem alarm_joins_closed_case :
  rtc (centre_step no_returns) start joined_late /\ ~ no_hidden_alarm (ce_db joined_late).
Proof.
  split.
  - apply press_run; [done|done|by right; left|]. apply run_on; [|by apply st_resolve]. apply press_run; [done|done|by left|apply rtc_refl].
  - intros H. destruct (incidents (ce_db joined_late) !! 1) as [y|] eqn:Ey; [|by vm_compute in Ey].
    destruct (sos_events (ce_db joined_late) !! 2) as [x|] eqn:Ex; [|by vm_compute in Ex].
    specialize (H 1 y 2 x Ey). vm_compute in Ey, Ex. injection Ey as <-. injection Ex as <-. by specialize (H eq_refl eq_refl eq_refl).
Qed.

(** A severity can be written over a worse one: two presses read the case while it is of medium
    severity; the panic makes it critical, the harassment then makes it high. *)
Theorem severity_overwritten :
  let c1 := pressed "vehicle_breakdown" no_cases 0 start in
  let c2 := pressed "panic" (ce_db c1) SECOND c1 in
  let c3 := pressed "harassment" (ce_db c1) SECOND c2 in
  rtc (centre_step anything) start c3 /\
  (in_severity <$> incidents (ce_db c1) !! 1, in_severity <$> incidents (ce_db c2) !! 1, in_severity <$> incidents (ce_db c3) !! 1) =
  (Some Medium, Some Critical, Some High).
Proof.
  split; [|vm_compute; reflexivity]. apply press_run; [done|done|by right; left|]. apply press_run; [done|done|by left|].
  apply press_run; [done|done|by left|apply rtc_refl].
Qed.

(** A closed case can be set to work: an operator takes the alarm up again, which reads the case
    while it is open; another closes it, having found no active alarm; the first then writes its
    status.  The case is under investigation and keeps its time of closing. *)
Theorem closed_case_reopened :
  let c1 := pressed "panic" no_cases 0 start in
  let c2 := next (admin_transition demo_ride officer 1 SosResolved EmptyString (ce_db c1) (ce_db c1) (at_minute 1) (ce_db c1)).2 c1 in
  let c3 := next (safety_close demo_ride officer 1 (Some "rider is safe") (Some "no_action") (ce_db c2) (at_minute 2) (ce_db c2)).2 c2 in
  let c4 := next (admin_transition demo_ride officer 1 SosAcknowledged EmptyString (ce_db c2) (ce_db c2) (at_minute 2) (ce_db c3)).2 c3 in
  rtc (centre_step anything) start c4 /\
  (in_status <$> incidents (ce_db c3) !! 1, in_status <$> incidents (ce_db c4) !! 1, in_closed_at <$> incidents (ce_db c4) !! 1) =
  (Some Closed, Some Investigating, Some (Some (at_minute 2))).
Proof.
  split; [|vm_compute; reflexivity].
  assert (Hany : forall case c e st n seen now, st <> SosOpen ->
    safety_step anything (ce_past c) (ce_db c) (admin_transition demo_ride officer e st n seen case now (ce_db c)).2)
    by (intros; apply st_transition; [done|intros [=]|intros _ x _ [=]]).
  apply run_on; [|by apply Hany]. apply run_on; [|apply st_close]. apply run_on; [|by apply Hany].
  apply press_run; [done|done|by left|apply rtc_refl].
Qed.

(** ** Witnesses *)

Lemma some_of {A : Type} (o : option A) : bool_decide (o = None) = false -> exists x, o = Some x.
Proof. destruct o as [x|]; [by exists x|done]. Qed.

(** The night's first press, as a run. *)
Definition demo_first : Centre := next demo_raised start.

Lemma demo_first_alarm_run (b : leeway) : rtc (centre_step b) start demo_first.
Proof.
  apply run_on; [apply rtc_refl|]. apply st_raise; [split; by left|]. split; intros _; [apply now_live|apply now_graded].
Qed.

Lemma one_case_per_trip_witness :
  bool_decide (case_1 demo_raised = None) = false /\ existsb (is_link 1 LinkSos 1) (links demo_raised) = true.
Proof.
  split; [vm_compute; reflexivity|].
  assert (H : sos_events demo_raised !! 1 = Some (alarm_1 demo_raised)) by (vm_compute; reflexivity).
  apply (proj2 (one_case_per_trip demo_first (demo_first_alarm_run anything)) 1 (alarm_1 demo_raised) 1 H).
  vm_compute. reflexivity.
Defined.

Lemma cases_never_go_back_witness :
  let s := (safety_acknowledge demo_safety officer 1 demo_raised (reads_now demo_raised) (at_minute 2) demo_raised).2 in
  length (updates s) = 4%nat /\ later case_grew demo_raised s.
Proof.
  split; [vm_compute; reflexivity|].
  apply (proj2 (cases_never_go_back demo_first (next (safety_acknowledge demo_safety officer 1 demo_raised (reads_now demo_raised) (at_minute 2) demo_raised).2 demo_first)
           (demo_first_alarm_run anything))).
  apply rtc_once, centre_goes, st_acknowledge. intros p Hp Ho. split; [intros [=]|].
  intros x Hx _ i y _ Ho' Hy. cbn in Ho'. apply is_live_status. intros E. rewrite Hy in Ho'. cbn in Ho'. rewrite E in Ho'. done.
Defined.

Definition demo_resolved : SafetyDb :=
  (safety_resolve demo_safety officer 1 (Some "rider is safe") (Some "no_action") demo_raised (reads_now demo_raised) (at_minute 9) demo_raised).2.

Lemma closed_case_hides_no_alarm_witness :
  in_status <$> case_1 demo_resolved = Some Closed /\ no_hidden_alarm demo_resolved.
Proof.
  split; [vm_compute; reflexivity|]. apply (closed_case_hides_no_alarm (next demo_resolved demo_first)).
  apply run_on; [apply demo_first_alarm_run|]. apply st_resolve.
Defined.

Lemma alarm_gets_its_case_witness :
  raise_sos false demo_safety demo_press (reads_now no_cases) 0 no_cases = (Recorded 1, demo_raised) /\
  attached demo_safety 1 (event_for demo_safety demo_press None 0) demo_raised /\
  raise_sos false demo_safety demo_press (reads_now demo_raised) (60 * SECOND) demo_raised = (RepeatOf 1, demo_raised).
Proof.
  assert (H : raise_sos false demo_safety demo_press (reads_now no_cases) 0 no_cases = (Recorded 1, demo_raised)) by (vm_compute; reflexivity).
  pose proof (alarm_gets_its_case false demo_safety demo_press (reads_now no_cases) 0 1 start demo_raised (rtc_refl _ _)
                ltac:(split; by left) H) as (H1 & _ & _ & _ & H3).
  split; [exact H|]. split; [apply H1; [reflexivity|apply now_timely]|]. apply H3. vm_compute. split; discriminate.
Defined.

Definition demo_orphan : SafetyDb := (raise_sos true demo_safety demo_press (reads_now no_cases) 0 no_cases).2.

Lemma backfill_leaves_no_orphan_witness :
  orphans demo_orphan = [1] /\ orphans (backfill_sos_incidents (fun _ => false) demo_safety 0 50 demo_orphan).2 = [].
Proof.
  split; [vm_compute; reflexivity|]. apply backfill_leaves_no_orphan. vm_compute. repeat constructor.
Defined.

(** After six minutes the alarm and its case are both overdue. *)
Lemma sweep_escalates_overdue_witness :
  let s2 := (sweep (fun _ => false) demo_safety (at_minute 6) demo_raised).2 in
  so_escalated_at <$> sos_events s2 !! 1 = Some (Some (at_minute 6)) /\
  in_escalated_at <$> incidents s2 !! 1 = Some (Some (at_minute 6)) /\ case_up s2 1.
Proof.
  set (s1 := (backfill_sos_incidents (fun _ => false) demo_safety (at_minute 6) 50 demo_raised).2).
  assert (H : sos_events s1 !! 1 = Some (alarm_1 demo_raised)) by (vm_compute; reflexivity).
  destruct (some_of (incidents s1 !! 1)) as [y Hy]; [vm_compute; reflexivity|].
  assert (Ht : table_ok (sf_alerts s1)).
  { assert (E : sf_alerts s1 = no_alerts) by (vm_compute; reflexivity). rewrite E. apply reachable_ok, rtc_refl. }
  destruct (sweep_escalates_overdue (fun _ => false) demo_safety (at_minute 6) demo_raised ltac:(vm_compute; repeat constructor)
              ltac:(vm_compute; repeat constructor) Ht) as [He Hc].
  destruct (He 1 (alarm_1 demo_raised) H) as [E1 _]. destruct (Hc 1 y Hy) as [E2 E3].
  assert (Hd : case_due demo_safety (at_minute 6) y = true)
    by (vm_compute in Hy; injection Hy as <-; vm_compute; reflexivity).
  split; [rewrite E1; vm_compute; reflexivity|]. split; [rewrite E2, Hd; reflexivity|]. by apply E3.
Defined.

Definition demo_case : Incident :=
  match case_1 demo_raised with
  | Some x => x
  | None => {| in_category := EmptyString; in_severity := Low; in_status := Opened; in_source := SrcSos; in_title := EmptyString; in_trip := None;
               in_anchor := None; in_anchor_source := AnchorUnanchored; in_country := EmptyString; in_assigned := None; in_opened_by := None;
               in_opened_at := 0; in_closed_at := None; in_outcome := EmptyString; in_summary := EmptyString; in_police_at := None;
               in_police_reference := EmptyString; in_escalated_at := None |}
  end.

Lemma paged_responders_can_answer_witness :
  in_anchor demo_case = Some 4 /\ sees_incident demo_safety (demo_user 7 false) None demo_case = true /\
  incident_may demo_safety (demo_user 7 false) CAPABILITY demo_case = true.
Proof.
  assert (H : in_anchor demo_case = Some 4) by (vm_compute; reflexivity).
  split; [exact H|]. apply (paged_responders_can_answer demo_safety (demo_user 7 false) demo_case).
  - intros k Hk. rewrite H in Hk. injection Hk as <-. apply (bool_decide_unpack _). vm_compute. exact I.
  - rewrite H. discriminate.
  - assert (Hu : responders_for (se_access demo_safety) (node_of demo_safety (in_anchor demo_case)) = [demo_user 7 false]) by (vm_compute; reflexivity).
    rewrite Hu. left.
  - reflexivity.
Defined.

Lemma alarm_returns_behind_closed_case_witness :
  exists s', admin_transition demo_safety officer 1 SosAcknowledged EmptyString demo_resolved demo_resolved (at_minute 10) demo_resolved = (Ok true, s') /\
             ~ no_hidden_alarm s'.
Proof.
  destruct (some_of (case_1 demo_resolved)) as [y Hy]; [vm_compute; reflexivity|].
  destruct (alarm_returns_behind_closed_case demo_safety officer 1 1 (at_minute 10) EmptyString (alarm_1 demo_resolved) y demo_resolved)
    as (s' & H1 & H2 & _).
  - exact Hy.
  - assert (E : in_status <$> case_1 demo_resolved = Some Closed) by (vm_compute; reflexivity). rewrite Hy in E. by injection E.
  - vm_compute. reflexivity.
  - vm_compute. reflexivity.
  - vm_compute. reflexivity.
  - vm_compute. reflexivity.
  - vm_compute. reflexivity.
  - exists s'. by split.
Defined.

Lemma alarm_answered_out_of_place_witness :
  (safety_resolve demo_safety (demo_user 8 false) 1 (Some "done") (Some "other") demo_raised (reads_now demo_raised) 0 demo_raised).1 = Err Denied.
Proof.
  apply (alarm_answered_out_of_place demo_safety (demo_user 8 false) 1 1 0 EmptyString (Some "done") (Some "other") (alarm_1 demo_raised) demo_case
           demo_raised ("done", "other")); vm_compute; reflexivity.
Defined.
