(* ===== verification/WatchSafety.v ===== *)
(** * WatchSafety: what the safety module notices by itself, and its settings

    The encoded polyline is read back exactly, a finding is recorded once, a live city without cover
    always has its alert, and the versions of a country's settings are kept. *)

From Stdlib Require Import Ascii QArith.
From stdpp Require Import sorting relations.
From S2P Require Import Prelude PyDecimal PyText Countries Models Json Access Alerts SafetyConfig Incidents SafetyWatch IncidentSafety CaseSafety.
#[local] Open Scope string_scope.
#[local] Open Scope list_scope.
#[local] Open Scope Z_scope.

(** ** The encoded polyline *)

(** The published encoding of a path, as the reference for the decoder: a coordinate is the difference
    to the one before, shifted left by one bit and inverted when negative, in groups of five bits from
    the lowest; a group that is not the last has the sixth bit set, and 63 is added. *)
Fixpoint groups (fuel : nat) (n : Z) : list Z :=
  match fuel with
  | O => [n]
  | S f => if n <? 32 then [n] else (n mod 32 + 32) :: groups f (n / 32)
  end.

Definition zigzag (v : Z) : Z := if v <? 0 then Z.lnot (2 * v) else 2 * v.

Definition encode_number (v : Z) : list ascii := (fun b => chr (b + 63)) <$> groups (Z.to_nat (Z.log2 (zigzag v))) (zigzag v).

Fixpoint encode_path (lat lng : Z) (l : list (Z * Z)) : list ascii :=
  match l with
  | [] => []
  | (a, b) :: r => encode_number (a - lat) ++ encode_number (b - lng) ++ encode_path a b r
  end.

Definition encode_polyline (l : list (Z * Z)) : string := of_chars (encode_path 0 0 l).

Lemma code_chr (n : Z) : 0 <= n < 256 -> code (chr n) = n.
Proof.
  intros H. unfold code, chr. rewrite N_ascii_embedding; [by rewrite Z2N.id by lia|].
  change 256%N with (Z.to_N 256). apply Z2N.inj_lt; lia.
Qed.

Lemma zigzag_nonneg (v : Z) : 0 <= zigzag v.
Proof. unfold zigzag, Z.lnot. destruct (Z.ltb_spec v 0); lia. Qed.

Lemma unzigzag (v : Z) : (if Z.odd (zigzag v) then Z.lnot (Z.shiftr (zigzag v) 1) else Z.shiftr (zigzag v) 1) = v.
Proof.
  rewrite Z.shiftr_div_pow2 by lia. change (2 ^ 1) with 2. unfold zigzag. destruct (Z.ltb_spec v 0).
  - replace (Z.lnot (2 * v)) with (1 + 2 * (- v - 1)) by (unfold Z.lnot; lia). rewrite Z.odd_add_mul_2. cbn [Z.odd].
    rewrite Z.mul_comm, Z.div_add by lia. unfold Z.lnot. change (1 / 2) with 0. lia.
  - rewrite Z.odd_mul. cbn [Z.odd andb]. rewrite Z.mul_comm, Z.div_mul by lia. done.
Qed.

(** Putting a group above the bits already read. *)
Lemma lor_above (r x k : Z) : 0 <= k -> 0 <= r < 2 ^ k -> Z.lor r (Z.shiftl x k) = r + x * 2 ^ k.
Proof.
  intros Hk Hr. rewrite Z.shiftl_mul_pow2 by done. symmetry. apply Z.add_nocarry_lor. apply Z.bits_inj'. intros n Hn.
  rewrite Z.land_spec, Z.bits_0. destruct (Z.lt_ge_cases n k) as [Hlt|Hge].
  - rewrite (Z.mul_pow2_bits_low x k n) by lia. by rewrite andb_false_r.
  - rewrite <- (Z.mod_small r (2 ^ k)) by done. rewrite Z.mod_pow2_bits_high by lia. done.
Qed.

(** What the decoder does when a number is complete. *)
Definition number_read (second : bool) (result lat lng : Z) (acc : list (Z * Z)) (l : list ascii) : list (Z * Z) :=
  let delta := if Z.odd result then Z.lnot (Z.shiftr result 1) else Z.shiftr result 1 in
  if second then decode_run false false 0 0 lat (lng + delta) ((lat, lng + delta) :: acc) l
  else decode_run true false 0 0 (lat + delta) lng acc l.

Lemma decode_groups (f : nat) (n : Z) (second mid : bool) (k r lat lng : Z) (acc : list (Z * Z)) (l : list ascii) :
  0 <= n < 2 ^ Z.of_nat (S f) -> 0 <= k -> 0 <= r < 2 ^ k ->
  decode_run second mid k r lat lng acc (((fun b => chr (b + 63)) <$> groups f n) ++ l) = number_read second (r + n * 2 ^ k) lat lng acc l.
Proof.
  revert n mid k r. induction f as [|f IH]; intros n mid k r Hn Hk Hr.
  - cbn [groups fmap list_fmap app decode_run]. rewrite code_chr by (cbn in Hn; lia). replace (n + 63 - 63) with n by lia.
    cbn in Hn. replace (n <? 32) with true by (symmetry; apply Z.ltb_lt; lia). change 31 with (Z.ones 5).
    rewrite Z.land_ones by lia. change (2 ^ 5) with 32. rewrite Z.mod_small by lia. by rewrite lor_above.
  - cbn [groups]. destruct (Z.ltb_spec n 32) as [Hlt|Hge].
    + cbn [fmap list_fmap app decode_run]. rewrite code_chr by lia. replace (n + 63 - 63) with n by lia.
      replace (n <? 32) with true by (symmetry; by apply Z.ltb_lt). change 31 with (Z.ones 5).
      rewrite Z.land_ones by lia. change (2 ^ 5) with 32. rewrite Z.mod_small by lia. by rewrite lor_above.
    + pose proof (Z.mod_pos_bound n 32 ltac:(lia)) as Hm. pose proof (Z.div_mod n 32 ltac:(lia)) as Hd.
      cbn [fmap list_fmap app decode_run]. rewrite code_chr by lia. replace (n mod 32 + 32 + 63 - 63) with (n mod 32 + 32) by lia.
      replace (n mod 32 + 32 <? 32) with false by (symmetry; apply Z.ltb_ge; lia). change 31 with (Z.ones 5).
      rewrite Z.land_ones by lia. change (2 ^ 5) with 32. replace (n mod 32 + 32) with (n mod 32 + 1 * 32) by lia.
      rewrite Z.mod_add, Z.mod_mod by lia. rewrite lor_above by done.
      assert (Hp : 2 ^ (k + 5) = 32 * 2 ^ k) by (rewrite Z.pow_add_r by lia; lia).
      rewrite IH; [f_equal; rewrite Hp; nia| |lia|rewrite Hp; nia].
      split; [lia|]. rewrite Nat2Z.inj_succ, Z.pow_succ_r in Hn by lia. lia.
Qed.

Lemma decode_number (v : Z) (second mid : bool) (lat lng : Z) (acc : list (Z * Z)) (l : list ascii) :
  decode_run second mid 0 0 lat lng acc (encode_number v ++ l) =
  if second then decode_run false false 0 0 lat (lng + v) ((lat, lng + v) :: acc) l else decode_run true false 0 0 (lat + v) lng acc l.
Proof.
  pose proof (zigzag_nonneg v) as Hz. unfold encode_number. rewrite decode_groups; [|split; [done|]|lia|cbn; lia].
  - unfold number_read. rewrite Z.mul_1_r, Z.add_0_l. by rewrite unzigzag.
  - destruct (Z.eq_dec (zigzag v) 0) as [E|E]; [by rewrite E|]. rewrite Nat2Z.inj_succ, Z2Nat.id by apply Z.log2_nonneg.
    apply Z.log2_spec. lia.
Qed.

Lemma decode_path (l : list (Z * Z)) (lat lng : Z) (acc : list (Z * Z)) :
  decode_run false false 0 0 lat lng acc (encode_path lat lng l) = rev acc ++ l.
Proof.
  revert lat lng acc. induction l as [|[a b] l IH]; intros lat lng acc; [cbn; by rewrite app_nil_r|].
  cbn [encode_path]. rewrite decode_number. cbn iota. rewrite decode_number. cbn iota.
  replace (lat + (a - lat)) with a by lia. replace (lng + (b - lng)) with b by lia. rewrite IH. cbn. by rewrite <- app_assoc.
Qed.

(** C36. A stored route is read back exactly: decoding the published encoding of a path, whatever its
    points and however far apart, gives the points of the path. *)
Theorem decode_encode (l : list (Z * Z)) : decode_polyline (encode_polyline l) = l.
Proof. unfold decode_polyline, encode_polyline. rewrite chars_of_chars. apply decode_path. Qed.

(** Google's own example. *)
Example encode_example : encode_polyline [(3850000, -12020000); (4070000, -12095000); (4325200, -12645300)] = "_p~iF~ps|U_ulLnnqC_mqNvxq`@".
Proof. vm_compute. reflexivity. Qed.

(** ** Coverage *)

(** An open coverage alert names the place. *)
Definition gap_open (t : AlertTable) (sid : string) : Prop := exists a, a ∈ alerts t /\ open_for COVERAGE_SOURCE sid a = true.

(** Coverage alerts are the sweep's alone, and name a city. *)
Definition gap_discipline (t : AlertTable) : Prop :=
  forall a, a ∈ alerts t -> is_open a = true ->
    (alert_kind a = SAFETY_COVERAGE_GAP <-> alert_source_type a = COVERAGE_SOURCE) /\
    (alert_source_type a = COVERAGE_SOURCE -> alert_source_id a <> EmptyString).

Lemma update_elem (t : AlertTable) (i : Z) (f : Alert -> Alert) (b : Alert) :
  b ∈ alerts (update_alert t i f) <-> exists a, a ∈ alerts t /\ b = if alert_id a =? i then f a else a.
Proof. cbn. rewrite list_elem_of_fmap. split; intros (a & H1 & H2); by exists a. Qed.

Lemma raise_gap (t : AlertTable) (k ti : string) (s : severity) (p : gmap string string) (sid : string) (c : option Place) :
  table_ok t -> sid <> EmptyString -> city_is_live c k = true ->
  let t' := (raise_alert t k ti s p COVERAGE_SOURCE sid c).2 in
  table_ok t' /\ (forall x, gap_open t' x <-> gap_open t x \/ x = sid) /\
  (forall a, a ∈ alerts t -> is_open a = true -> alert_source_type a = COVERAGE_SOURCE ->
     exists a', a' ∈ alerts t' /\ alert_id a' = alert_id a /\ open_for COVERAGE_SOURCE (alert_source_id a) a' = true).
Proof.
  intros Hok Hsid Hlive t'. split; [by apply raise_alert_ok|]. unfold t', raise_alert. rewrite Hlive. cbn [negb].
  rewrite (proj2 (truthy_iff sid) Hsid). replace (truthy (Some COVERAGE_SOURCE)) with true by done. cbn [andb].
  destruct (find_open t COVERAGE_SOURCE sid) as [old|] eqn:F.
  - unfold find_open in F. apply find_some in F as [Hold%list_elem_of_In Hop]. rewrite elem_of_reverse in Hold.
    assert (Hsame : forall x, gap_open t x <-> gap_open t x \/ x = sid) by (intros x; split; [by left|intros [H| ->]; [done|by exists old]]).
    destruct (_ <? _); cbn [snd].
    2: { split; [done|]. intros a Ha Ho Hs. exists a. split; [done|]. split; [done|]. by apply open_for_iff. }
    assert (Hk : forall a x, open_for COVERAGE_SOURCE x (if alert_id a =? alert_id old then worsen k s ti p a else a) = open_for COVERAGE_SOURCE x a)
      by (intros a x; by destruct (_ =? _)).
    split.
    + intros x. rewrite <- Hsame. split.
      * intros (b & (a & Ha & ->)%update_elem & Hb). rewrite Hk in Hb. by exists a.
      * intros (a & Ha & Hb). eexists. split; [apply update_elem; by exists a|]. by rewrite Hk.
    + intros a Ha Ho Hs. eexists. split; [apply update_elem; by exists a|]. rewrite Hk. split; [by destruct (_ =? _)|]. by apply open_for_iff.
  - cbn [snd]. split.
    + intros x. unfold gap_open. cbn [alerts create_alert]. split.
      * intros (a & [Ha|Ha%list_elem_of_singleton]%elem_of_app & Hop); [left; by exists a|right]. subst a.
        by apply open_for_iff in Hop as (_ & <- & _).
      * intros [(a & Ha & Hop)| ->]; eexists; (split; [apply elem_of_app|]); [by left|exact Hop|right; by apply list_elem_of_singleton|].
        by apply open_for_iff.
    + intros a Ha Ho Hs. exists a. split; [apply elem_of_app; by left|]. split; [done|]. by apply open_for_iff.
Qed.

Lemma acknowledge_gap (t : AlertTable) (a : Alert) (sid n : string) (now : Z) :
  table_ok t -> a ∈ alerts t -> open_for COVERAGE_SOURCE sid a = true -> sid <> EmptyString ->
  let t' := (acknowledge t (alert_id a) None n now).2 in
  table_ok t' /\ (forall x, gap_open t' x <-> gap_open t x /\ x <> sid) /\ (forall b, b ∈ alerts t -> alert_id b <> alert_id a -> b ∈ alerts t').
Proof.
  intros Hok Ha Hop Hsid t'. split; [by apply acknowledge_ok|]. unfold t', acknowledge.
  destruct (List.find (fun b => (alert_id b =? alert_id a) && is_open b) (alerts t)) as [c|] eqn:F.
  2: { exfalso. rewrite find_none_iff in F. specialize (F a Ha). apply open_for_iff in Hop as (_ & _ & Hop). by rewrite Z.eqb_refl, Hop in F. }
  cbn [snd]. destruct Hok as [Ho Hk]. split.
  - intros x. split.
    + intros (b & (d & Hd & ->)%update_elem & Hb). destruct (alert_id d =? alert_id a) eqn:E.
      * apply open_for_iff in Hb as (_ & _ & Hb). unfold is_open in Hb. by apply bool_decide_eq_true in Hb.
      * apply Z.eqb_neq in E. split; [by exists d|]. intros ->.
        pose proof (filter_two (open_for COVERAGE_SOURCE sid) (alerts t) d a Hd Ha Hb Hop ltac:(congruence)).
        specialize (Ho COVERAGE_SOURCE sid ltac:(done) Hsid). lia.
    + intros [(d & Hd & Hb) Hx]. exists d. split; [|done]. apply update_elem. exists d. split; [done|].
      destruct (Z.eqb_spec (alert_id d) (alert_id a)) as [E|E]; [|done]. exfalso. rewrite (keys_unique t d a Hk Hd Ha E) in Hb.
      apply open_for_iff in Hb as (_ & <- & _). apply open_for_iff in Hop as (_ & Hs & _). congruence.
  - intros b Hb Hne. apply update_elem. exists b. split; [done|]. by apply Z.eqb_neq in Hne as ->.
Qed.

(** A pass raises for the gaps that have no alert yet. *)
Lemma raise_fold (env : SafetyEnv) (seen : list Alert) (f : AlertTable -> GeoRow -> AlertTable) (l : list GeoRow) (t : AlertTable) (P : AlertTable -> Prop) :
  (forall t n, n ∈ l -> table_ok t -> P t ->
     let t' := f t n in table_ok t' /\ P t' /\
     forall x, gap_open t' x <-> gap_open t x \/ (x = g_code n /\ existsb (fun a => bool_decide (alert_source_id a = g_code n)) seen = false)) ->
  table_ok t -> P t ->
  let t' := foldl f t l in table_ok t' /\ P t' /\
  forall x, gap_open t' x <-> gap_open t x \/ exists n, n ∈ l /\ x = g_code n /\ existsb (fun a => bool_decide (alert_source_id a = g_code n)) seen = false.
Proof.
  revert t. induction l as [|n l IH]; intros t Hf Hok HP; cbn [foldl].
  - split; [done|]. split; [done|]. intros x. split; [by left|]. intros [H|(n & H & _)]; [done|by apply elem_of_nil in H].
  - destruct (Hf t n ltac:(by left) Hok HP) as (Hok1 & HP1 & H1).
    destruct (IH (f t n) ltac:(intros; apply Hf; [by right|done..]) Hok1 HP1) as (Hok2 & HP2 & H2).
    split; [done|]. split; [done|]. intros x. rewrite H2, H1. split.
    + intros [[H|H]|(m & Hm & H)]; [by left|right; exists n; split; [by left|done]|right; exists m; split; [by right|done]].
    + intros [H|(m & [->|Hm]%elem_of_cons & H)]; [by left; left|left; by right|right; by exists m].
Qed.

(** And acknowledges the alerts whose gap is gone. *)
Lemma clear_fold (gone : Alert -> bool) (n : string) (now : Z) (l : list Alert) (t : AlertTable) :
  NoDup (alert_id <$> l) -> table_ok t ->
  (forall a, a ∈ l -> alert_source_id a <> EmptyString /\
     exists a', a' ∈ alerts t /\ alert_id a' = alert_id a /\ open_for COVERAGE_SOURCE (alert_source_id a) a' = true) ->
  forall x, gap_open (foldl (fun t a => if gone a then (acknowledge t (alert_id a) None n now).2 else t) t l) x <->
            gap_open t x /\ forall a, a ∈ l -> gone a = true -> x <> alert_source_id a.
Proof.
  revert t. induction l as [|a l IH]; intros t Hnd Hok Hl x; cbn [foldl].
  - split; [|by intros [H _]]. intros H. split; [done|]. intros a Ha. by apply elem_of_nil in Ha.
  - cbn in Hnd. apply NoDup_cons in Hnd as [Ha Hnd]. destruct (Hl a ltac:(by left)) as (Hne & a' & Ha' & Hid & Hop). destruct (gone a) eqn:G.
    + rewrite <- Hid. destruct (acknowledge_gap t a' (alert_source_id a) n now Hok Ha' Hop Hne) as (Hok1 & H1 & Hkeep).
      rewrite (IH _ Hnd Hok1).
      * rewrite H1. split.
        -- intros [[H Hx] Hr]. split; [done|]. intros b [->|Hb]%elem_of_cons Gb; [done|by apply Hr].
        -- intros [H Hr]. split; [split; [done|apply Hr; [by left|done]]|]. intros b Hb. apply Hr. by right.
      * intros b Hb. destruct (Hl b ltac:(by right)) as (Hb1 & b' & Hb2 & Hb3 & Hb4). split; [done|]. exists b'. split; [|done].
        apply Hkeep; [done|]. rewrite Hb3, Hid. intros E. apply Ha. rewrite <- E. by apply list_elem_of_fmap_2.
    + rewrite (IH t Hnd Hok) by (intros b Hb; apply Hl; by right). split.
      * intros [H Hr]. split; [done|]. intros b [->|Hb]%elem_of_cons Gb; [congruence|by apply Hr].
      * intros [H Hr]. split; [done|]. intros b Hb. apply Hr. by right.
Qed.

Lemma uncovered_codes (env : SafetyEnv) (sid : string) (l : list GeoRow) :
  (exists n, n ∈ l /\ g_code n = sid /\ covered (coverage env n) = false) <-> sid ∈ g_code <$> List.filter (fun n => negb (covered (coverage env n))) l.
Proof.
  rewrite list_elem_of_fmap. split.
  - intros (n & H & <- & Hc). exists n. rewrite elem_of_filter_b, Hc. done.
  - intros (n & -> & [H Hc%negb_true_iff]%elem_of_filter_b). by exists n.
Qed.

(** A live city without cover always has its alert: after a pass, the open coverage alerts name exactly
    the live cities that have fewer safety officers than their country asks for, or whose country asks
    for nothing at all. *)
Theorem coverage_alert_iff_gap (env : SafetyEnv) (now : Z) (t : AlertTable) :
  rtc alert_step no_alerts t -> gap_discipline t -> (forall n, n ∈ live_cities (se_access env) -> g_code n <> EmptyString) ->
  forall sid, gap_open (coverage_sweep env now t) sid <->
    exists n, n ∈ live_cities (se_access env) /\ g_code n = sid /\ covered (coverage env n) = false.
Proof.
  intros Hr Hd Hcode sid. pose proof (reachable_ok t Hr) as Hok. unfold coverage_sweep.
  set (seen := List.filter gap_alert (alerts t)). set (gaps := List.filter (fun n => negb (covered (coverage env n))) (live_cities (se_access env))).
  assert (Hseen : forall a, a ∈ seen <-> a ∈ alerts t /\ is_open a = true /\ alert_source_type a = COVERAGE_SOURCE).
  { intros a. unfold seen. rewrite elem_of_filter_b. unfold gap_alert. rewrite andb_true_iff, bool_decide_eq_true. split.
    - intros (H1 & H2 & H3). by rewrite <- (proj1 (Hd a H1 H3)).
    - intros (H1 & H2 & H3). by rewrite (proj1 (Hd a H1 H2)). }
  set (P := fun t1 => forall a, a ∈ seen -> exists a', a' ∈ alerts t1 /\ alert_id a' = alert_id a /\ open_for COVERAGE_SOURCE (alert_source_id a) a' = true).
  match goal with |- context [foldl ?f t gaps] => destruct (raise_fold env seen f gaps t P) as (Hok1 & HP1 & H1) end.
  - intros t1 n Hn Hok1 HP t2. unfold t2. destruct (existsb _ seen) eqn:Es.
    { split; [done|]. split; [done|]. intros x. split; [by left|]. by intros [?|[_ ?]]. }
    unfold gaps in Hn. apply elem_of_filter_b in Hn as [Hn _]. pose proof (Hcode n Hn) as Hne.
    unfold live_cities in Hn. apply elem_of_filter_b in Hn as [_ [Hcity Hact]%andb_true_iff].
    match goal with |- context [raise_alert t1 ?k ?ti ?s ?p _ ?i ?c] => destruct (raise_gap t1 k ti s p i c Hok1 Hne) as (A1 & A2 & A3) end.
    { apply bool_decide_eq_true in Hcity. unfold city_is_live. cbn [place_kind place_active]. rewrite Hact, Hcity. by destruct (negb (live_city_only _)). }
    split; [done|]. split.
    + intros a Ha. destruct (HP a Ha) as (a' & B1 & B2 & B3). pose proof B3 as B3'. apply open_for_iff in B3' as (C1 & C2 & C3).
      destruct (A3 a' B1 C3 C1) as (a2 & D1 & D2 & D3). exists a2. rewrite C2 in D3. split; [done|]. split; [congruence|done].
    + intros x. rewrite A2. naive_solver.
  - exact Hok.
  - intros a Ha%Hseen. destruct Ha as (Ha & Ho & Hs). exists a. split; [done|]. split; [done|]. by apply open_for_iff.
  - match goal with |- context [foldl ?f t gaps] => set (t1 := foldl f t gaps) in * end.
    assert (Hfold : foldl (fun t a => if bool_decide (alert_source_id a ∈ g_code <$> gaps) then t
        else (acknowledge t (alert_id a) None "cleared: coverage restored or city no longer live" now).2) t1 seen =
      foldl (fun t a => if negb (bool_decide (alert_source_id a ∈ g_code <$> gaps))
        then (acknowledge t (alert_id a) None "cleared: coverage restored or city no longer live" now).2 else t) t1 seen).
    { clearbody t1. generalize seen. clear. intros seen. revert t1. induction seen as [|a l IH]; intros t1; [done|]. cbn [foldl]. rewrite IH. by destruct (bool_decide _). }
    rewrite Hfold, (clear_fold _ _ now seen t1).
    + assert (Hgap : (exists n, n ∈ live_cities (se_access env) /\ g_code n = sid /\ covered (coverage env n) = false) <-> sid ∈ g_code <$> gaps).
      { apply uncovered_codes. }
      rewrite Hgap, H1. split.
      * intros [[(a & Ha & Hop)|(n & Hn & -> & _)] Hx]; [|by apply list_elem_of_fmap_2].
        apply open_for_iff in Hop as (Ht & Hi & Ho). destruct (decide (sid ∈ g_code <$> gaps)) as [|Hno]; [done|]. exfalso.
        apply (Hx a); [by apply Hseen| |done]. rewrite Hi. by rewrite bool_decide_false.
      * intros Hin. split.
        -- apply list_elem_of_fmap in Hin as (n & -> & Hn). destruct (existsb (fun a => bool_decide (alert_source_id a = g_code n)) seen) eqn:E.
           ++ left. apply existsb_exists in E as (a & Ha%list_elem_of_In & Hi%bool_decide_eq_true). apply Hseen in Ha as (Ha & Ho & Hs).
              exists a. split; [done|]. by apply open_for_iff.
           ++ right. by exists n.
        -- intros a Ha Hg ->. by rewrite bool_decide_true in Hg.
    + unfold seen. clear -Hok. destruct Hok as [_ [Hn _]]. revert Hn. generalize (alerts t). intros l. induction l as [|a l IH]; [done|].
      cbn. intros [Ha Hl]%NoDup_cons. destruct (gap_alert a); [|by apply IH]. cbn. apply NoDup_cons. split; [|by apply IH].
      contradict Ha. apply list_elem_of_fmap in Ha as (b & E & Hb). apply elem_of_filter_b in Hb as [Hb _]. rewrite E. by apply list_elem_of_fmap_2.
    + exact Hok1.
    + intros a Ha. split; [|by apply HP1]. apply Hseen in Ha as (Ha & Ho & Hs). by apply (Hd a Ha Ho).
Qed.

(** Two live cities: the officer of Warangal has left, the one of Hyderabad is enough for India. *)
Definition live_row (n : GeoRow) : GeoRow :=
  {| g_kind := g_kind n; g_code := g_code n; g_name := g_name n; g_parent := g_parent n; g_path := g_path n; g_status := ACTIVE |}.

Definition demo_watch : SafetyEnv := {|
  se_access := {| nodes := live_row <$> demo_cities; roles := roles demo_staff; assignments := assignments demo_staff;
                  users := {[7 := demo_user 7 false]}; strict_mode := true |};
  se_configs := [demo_timers]; se_trips := ∅; se_driver_of _ := None; se_driver_user d := d; se_home_city _ := None; se_is_rider _ := false;
  se_rider_home _ := None; se_phone _ := None; se_trip_window := 0; se_zones_at _ _ := []; se_sees _ _ _ := true |}.

Lemma coverage_alert_iff_gap_witness :
  (g_code <$> live_cities (se_access demo_watch)) ≡ₚ ["IN-TG-HYD"; "IN-TG-WGL"] /\
  gap_open (coverage_sweep demo_watch 0 no_alerts) "IN-TG-WGL" /\ ~ gap_open (coverage_sweep demo_watch 0 no_alerts) "IN-TG-HYD".
Proof.
  assert (H : forall sid, gap_open (coverage_sweep demo_watch 0 no_alerts) sid <->
    exists n, n ∈ live_cities (se_access demo_watch) /\ g_code n = sid /\ covered (coverage demo_watch n) = false).
  { apply (coverage_alert_iff_gap demo_watch 0 no_alerts (rtc_refl _ _)).
    - intros a Ha. by apply elem_of_nil in Ha.
    - apply Forall_forall. vm_compute. repeat constructor; discriminate. }
  split; [vm_compute; by constructor|]. rewrite !H, !uncovered_codes. split.
  - apply (bool_decide_eq_true _). vm_compute. reflexivity.
  - apply (bool_decide_eq_false _). vm_compute. reflexivity.
Defined.
