(* ===== verification/TripConsole.v ===== *)
(** * TripConsole: what an operator does to a trip's money, flags and notes

    Models the writes of [servers/ride/admin_trips.py]: the request for a refund or an
    adjustment of the fare, their executors, flags, internal notes, and the bulk action.
    A request and its executor run in different requests with the approval of a second
    person between them ([Approvals]): the first ends in a [Proposal], the second starts
    from a [MoneyRequest].  Messages on the support ticket a refund is for, audit rows and
    notices are left out; whether the caller sees that ticket is an argument. *)

From Stdlib Require Import Ascii.
From S2P Require Import Prelude PyDecimal PyText Countries Models Money Json Access Alerts Store Trips OperatorEnd SafetyConfig Incidents.
#[local] Open Scope string_scope.
#[local] Open Scope list_scope.
#[local] Open Scope Z_scope.

(** ** Rows *)

(** The columns of an [ApprovalRequest] the executors read; the method and the currency are
    those of its payload. *)
Record MoneyRequest := {
  rq_id : Z; rq_trip : Z; rq_minor : Z; rq_money : string; rq_method : option string
}.

Inductive flag_reason := FRAUD_SUSPICION | SAFETY | DISPUTE.

#[global] Instance flag_reason_eq_dec : EqDecision flag_reason.
Proof. solve_decision. Defined.

(** [TripFlag], open while [tf_cleared] is null: when, by whom, and the note. *)
Record TripFlag := {
  tf_id : Z; tf_trip : Z; tf_reason : flag_reason; tf_note : string; tf_by : option Z; tf_cleared : option (Z * Z * string)
}.

Record TripNote := { tn_id : Z; tn_trip : Z; tn_body : string; tn_author : Z; tn_key : option string }.

(** The trips and their money, the approval request behind a money action (the id of an action is
    its place in the table, from 1), flags and notes. *)
Record Console := {
  co_world : World;
  co_actions : gmap Z Z;
  co_flags : list TripFlag;
  co_notes : list TripNote
}.

Definition with_world (w : World) (s : Console) : Console :=
  {| co_world := w; co_actions := co_actions s; co_flags := co_flags s; co_notes := co_notes s |}.

Definition with_flags (l : list TripFlag) (s : Console) : Console :=
  {| co_world := co_world s; co_actions := co_actions s; co_flags := l; co_notes := co_notes s |}.

Definition with_notes (l : list TripNote) (s : Console) : Console :=
  {| co_world := co_world s; co_actions := co_actions s; co_flags := co_flags s; co_notes := l |}.

(** ** Who may write *)

(** [_trip_for_write] *)
Definition trip_for_write (db : AccessDb) (u : User) (i : Z) (permission : string) (w : World) : res refusal LiveTrip :=
  let* _ := require (holds db u permission None) Denied in
  let* t := res_opt NotFound (w_trips w !! i) in
  let node := n ← trip_node (Some (lt_trip t)); nodes db !! n in
  let* _ := require (negb (bool_decide (scoped db u [t] (fun _ => [g_path <$> node]) (fun _ => false) = []))) NotFound in
  let* _ := require (holds db u permission node) Denied in
  Ok t.

(** [trip_country] *)
Definition trip_country (t : Trip) : option string :=
  match trip_zone t with
  | None => None
  | Some z =>
    let parts := match zone_geo_node z with
      | Some n => List.filter (fun p => negb (bool_decide (p = EmptyString))) (path_parts [] (chars (node_path n)))
      | None => []
      end in
    match parts with
    | _ :: c :: _ => Some c
    | _ => let c := upper (zone_country z) in if bool_decide (c = EmptyString) then None else Some c
    end
  end.

(** [_idempotency_key]: the header, else the body. *)
Definition idempotency_key (required : bool) (header body : option string) : res refusal string :=
  let key := truncated 120 (strip (if truthy header then default EmptyString header else default EmptyString body)) in
  if required && bool_decide (key = EmptyString) then Err (BadInput "IDEMPOTENCY_KEY_REQUIRED") else Ok key.

(** [_minor_amount] *)
Definition minor_amount (raw : json) : res refusal Z :=
  match raw with JInt n => Ok n | _ => Err (BadInput "AMOUNT_NOT_INTEGER") end.

(** ** Asking for a refund or an adjustment *)

(** What goes to [require_approval_or_execute]. *)
Record Proposal := {
  pr_action : string; pr_country : string; pr_amount : Z; pr_currency : string; pr_target : Z; pr_minor : Z;
  pr_method : option string; pr_ticket : option Z; pr_key : string; pr_reason : string
}.

Definition WALLET_CREDIT : string := "wallet_credit".
Definition GATEWAY : string := "gateway".
Definition LEDGER_ONLY : string := "ledger_only".

(** [refund_method] *)
Definition refund_method (t : Trip) : string :=
  let method := lower (match payment_method t with None => EmptyString | Some Cash => "cash" | Some (OtherMethod m) => m end) in
  if bool_decide (method ∈ ["cash"; "wallet"; EmptyString]) then WALLET_CREDIT else GATEWAY.

(** A request body; [mb_ticket] is the ticket asked for, [mb_seen] whether the caller sees it and
    it is about this trip. *)
Record MoneyBody := {
  mb_amount : json; mb_reason : option string; mb_header : option string; mb_key : option string;
  mb_ticket : option Z; mb_seen : bool
}.

Definition linked_ticket (b : MoneyBody) : res refusal (option Z) :=
  match mb_ticket b with
  | None => Ok None
  | Some k => if mb_seen b then Ok (Some k) else Err (BadInput "TICKET_TRIP_MISMATCH")
  end.

Definition admin_refund_trip (db : AccessDb) (u : User) (i : Z) (b : MoneyBody) (w : World) : res refusal Proposal :=
  let* t := trip_for_write db u i "support.refund" w in
  let* amount := minor_amount (mb_amount b) in
  let* _ := require (0 <? amount) (BadInput "AMOUNT_NOT_POSITIVE") in
  let* reason := text_of "reason" true 2000 (mb_reason b) in
  let* key := idempotency_key true (mb_header b) (mb_key b) in
  let* ticket := linked_ticket b in
  let reason := match ticket with
    | Some k => if k =? 0 then reason else truncated 2000 (reason +:+ " [support ticket #" +:+ number k +:+ "]")
    | None => reason
    end in
  let* country := res_opt (Conflict "COUNTRY_UNKNOWN") (trip_country (lt_trip t)) in
  let* _ := require (amount <=? refundable_minor t w) (BadInput "REFUND_EXCEEDS_PAID") in
  let node := n ← trip_node (Some (lt_trip t)); nodes db !! n in
  Ok {| pr_action := if holds db u "finance.read" node then "finance.refund" else "support.refund";
        pr_country := country; pr_amount := amount; pr_currency := trip_currency (lt_trip t); pr_target := i; pr_minor := amount;
        pr_method := Some (refund_method (lt_trip t)); pr_ticket := ticket; pr_key := "trip_refund:" +:+ number i +:+ ":" +:+ key;
        pr_reason := reason |}.

Definition admin_adjust_fare (db : AccessDb) (u : User) (i : Z) (b : MoneyBody) (w : World) : res refusal Proposal :=
  let* t := trip_for_write db u i "finance.adjust" w in
  let* amount := minor_amount (mb_amount b) in
  let* _ := require (negb (amount =? 0)) (BadInput "AMOUNT_ZERO") in
  let* reason := text_of "reason" true 2000 (mb_reason b) in
  let* key := idempotency_key true (mb_header b) (mb_key b) in
  let* _ := require (negb ((amount <? 0) && (trip_gross_minor (lt_trip t) <? - amount))) (BadInput "ADJUSTMENT_EXCEEDS_FARE") in
  let* country := res_opt (Conflict "COUNTRY_UNKNOWN") (trip_country (lt_trip t)) in
  Ok {| pr_action := "finance.adjust"; pr_country := country; pr_amount := Z.abs amount; pr_currency := trip_currency (lt_trip t);
        pr_target := i; pr_minor := amount; pr_method := None; pr_ticket := None; pr_key := "trip_adjust:" +:+ number i +:+ ":" +:+ key;
        pr_reason := reason |}.

(** The request an executor finds: its payload was frozen when it was proposed. *)
Definition request_of (id : Z) (p : Proposal) : MoneyRequest :=
  {| rq_id := id; rq_trip := pr_target p; rq_minor := pr_minor p; rq_money := pr_currency p; rq_method := pr_method p |}.

(** ** Carrying it out *)

(** The money action behind the answer, and its status. *)
Inductive money_answer := MoneyDone (action : Z) (st : action_status).

(** [_locked_trip] *)
Definition locked_trip (r : MoneyRequest) (w : World) : res string LiveTrip :=
  let* t := res_opt "TRIP_NOT_FOUND" (w_trips w !! rq_trip r) in
  let* _ := require (bool_decide (trip_currency (lt_trip t) = rq_money r)) "CURRENCY_CHANGED" in
  Ok t.

Definition action_of (r : MoneyRequest) (s : Console) : option money_answer :=
  k ← co_actions s !! rq_id r; a ← w_actions (co_world s) !! Z.to_nat (k - 1); Some (MoneyDone k (ma_status a)).

Definition add_action (r : MoneyRequest) (a : MoneyAction) (w : World) (s : Console) : money_answer * Console :=
  let k := Z.of_nat (length (w_actions w)) + 1 in
  (MoneyDone k (ma_status a),
   {| co_world := set_actions (w_actions w ++ [a]) w; co_actions := <[rq_id r := k]> (co_actions s); co_flags := co_flags s;
      co_notes := co_notes s |}).

(** The wallet credit of a refund, or why there is none. *)
Definition credit_rider (r : MoneyRequest) (t : Trip) (w : World) : res string World :=
  let* amount := map_err (fun _ => "ERROR") (from_minor_Z (rq_minor r) (Some (trip_currency t))) in
  let* (c, db) := map_err (fun _ => "ERROR") (issue_refund_credit t amount ("trip_refund_request:" +:+ number (rq_id r)) (w_db w)) in
  match c with
  | CreditRefused why => Err ("WALLET_" +:+ upper why)
  | _ => Ok (with_db db w)
  end.

(** [execute_refund].  A refusal or an exception undoes the transaction.  The request has no action
    yet when the money left is added up, so leaving its action out leaves nothing out. *)
Definition execute_refund (r : MoneyRequest) (s : Console) : res string money_answer * Console :=
  let w := co_world s in
  match locked_trip r w with
  | Err e => (Err e, s)
  | Ok t =>
    match action_of r s with
    | Some a => (Ok a, s)
    | None =>
      if (rq_minor r <=? 0) || (paid_minor t w - refunded_minor t w <? rq_minor r) then (Err "REFUND_EXCEEDS_PAID", s)
      else
        let method := match rq_method r with
          | Some m => if bool_decide (m = EmptyString) then refund_method (lt_trip t) else m
          | None => refund_method (lt_trip t)
          end in
        let row st := {| ma_trip := trip_id (lt_trip t); ma_kind := REFUND; ma_amount := rq_minor r; ma_currency := trip_currency (lt_trip t);
                         ma_method := method; ma_status := st |} in
        if bool_decide (method = WALLET_CREDIT)
        then match credit_rider r (lt_trip t) w with
             | Err e => (Err e, s)
             | Ok w => let '(a, s) := add_action r (row ACT_COMPLETED) w s in (Ok a, s)
             end
        else let '(a, s) := add_action r (row ACT_PENDING_GATEWAY) w s in (Ok a, s)
    end
  end.

(** [execute_adjustment]: the ledger row only. *)
Definition execute_adjustment (r : MoneyRequest) (s : Console) : res string money_answer * Console :=
  let w := co_world s in
  match locked_trip r w with
  | Err e => (Err e, s)
  | Ok t =>
    match action_of r s with
    | Some a => (Ok a, s)
    | None =>
      let '(a, s) := add_action r {| ma_trip := trip_id (lt_trip t); ma_kind := ADJUSTMENT; ma_amount := rq_minor r;
        ma_currency := trip_currency (lt_trip t); ma_method := LEDGER_ONLY; ma_status := ACT_RECORDED |} w s in (Ok a, s)
    end
  end.

(** ** Flags and notes *)

Inductive flag_outcome := Flagged (id : Z) | AlreadyFlagged (id : Z) | FlagNotFound.

Definition open_flag (i : Z) (reason : flag_reason) (f : TripFlag) : bool :=
  (tf_trip f =? i) && bool_decide (tf_reason f = reason) && bool_decide (tf_cleared f = None).

(** [operator_flag]; losing the race on the open flag ends in the second branch. *)
Definition operator_flag (i : Z) (reason : flag_reason) (note : string) (actor : option Z) (s : Console) : flag_outcome * Console :=
  match w_trips (co_world s) !! i with
  | None => (FlagNotFound, s)
  | Some _ =>
    match List.find (open_flag i reason) (co_flags s) with
    | Some f => (AlreadyFlagged (tf_id f), s)
    | None =>
      let k := Z.of_nat (length (co_flags s)) + 1 in
      (Flagged k, with_flags (co_flags s ++ [{| tf_id := k; tf_trip := i; tf_reason := reason; tf_note := note; tf_by := actor; tf_cleared := None |}]) s)
    end
  end.

Definition FLAG_REASONS : list (string * flag_reason) := [("fraud_suspicion", FRAUD_SUSPICION); ("safety", SAFETY); ("dispute", DISPUTE)].

(** [_flag_reason] *)
Definition flag_reason_of (required : bool) (raw : option string) : res refusal (option flag_reason) :=
  let* text := text_of "reason" required 32 raw in
  if bool_decide (text = EmptyString) then Ok None
  else match List.find (fun p => bool_decide (p.1 = text)) FLAG_REASONS with
       | Some (_, r) => Ok (Some r)
       | None => Err (BadInput "INVALID_REASON")
       end.

Definition admin_flag_trip (db : AccessDb) (u : User) (i : Z) (reason note : option string) (s : Console) : res refusal flag_outcome * Console :=
  match (let* _ := trip_for_write db u i "trip.write" (co_world s) in
         let* r := flag_reason_of true reason in
         let* n := text_of "note" false 2000 note in Ok (r, n)) with
  | Err e => (Err e, s)
  | Ok (None, _) => (Err (BadInput "INVALID_REASON"), s)
  | Ok (Some r, n) => let '(o, s) := operator_flag i r n (Some (uid u)) s in (Ok o, s)
  end.

Definition cleared_flag (by_ at_ : Z) (note : string) (f : TripFlag) : TripFlag :=
  {| tf_id := tf_id f; tf_trip := tf_trip f; tf_reason := tf_reason f; tf_note := tf_note f; tf_by := tf_by f; tf_cleared := Some (at_, by_, note) |}.

(** [admin_unflag_trip]: how many flags it cleared; with no reason, all that are open. *)
Definition admin_unflag_trip (db : AccessDb) (u : User) (i : Z) (reason note : option string) (s : Console) : res refusal Z * Console :=
  match (let* _ := trip_for_write db u i "trip.write" (co_world s) in
         let* r := flag_reason_of false reason in
         let* n := text_of "note" false 2000 note in Ok (r, n)) with
  | Err e => (Err e, s)
  | Ok (r, n) =>
    let hit f := match r with Some r => open_flag i r f | None => (tf_trip f =? i) && bool_decide (tf_cleared f = None) end in
    (Ok (Z.of_nat (length (List.filter hit (co_flags s)))),
     with_flags ((fun f => if hit f then cleared_flag (uid u) (now (co_world s)) n f else f) <$> co_flags s) s)
  end.

(** [admin_note_trip]: the note, and whether it is new. *)
Definition admin_note_trip (db : AccessDb) (u : User) (i : Z) (body header key : option string) (s : Console) : res refusal (Z * bool) * Console :=
  match (let* _ := trip_for_write db u i "trip.write" (co_world s) in
         let* b := text_of "body" true 5000 body in
         let* k := idempotency_key false header key in Ok (b, k)) with
  | Err e => (Err e, s)
  | Ok (b, k) =>
    let scoped_key := if bool_decide (k = EmptyString) then None else Some ("trip_note:" +:+ number i +:+ ":" +:+ k) in
    match scoped_key ≫= fun k => List.find (fun n => bool_decide (tn_key n = Some k)) (co_notes s) with
    | Some n => (Ok (tn_id n, false), s)
    | None =>
      let k' := Z.of_nat (length (co_notes s)) + 1 in
      (Ok (k', true), with_notes (co_notes s ++ [{| tn_id := k'; tn_trip := i; tn_body := b; tn_author := uid u; tn_key := scoped_key |}]) s)
    end
  end.

(** ** Bulk *)

Inductive bulk_action :=
| BulkCancel (reason_code note : string) (waive_fee : bool)
| BulkFlag (reason : flag_reason) (note : string).

Inductive row_outcome := RowCancelled (o : operator_outcome) | RowFlagged (o : flag_outcome).

Definition BULK_MAX_IDS : nat := 500.

(** [execute_bulk]: each trip on its own, then those the maker could not write. *)
Definition execute_bulk (a : bulk_action) (maker : option Z) (ids missing : list Z) (s : Console) : list (Z * row_outcome) * Console :=
  let '(rows, s) := foldl (fun acc i =>
    let '(rows, s) := acc in
    match a with
    | BulkCancel code note waive =>
      let '(o, w) := operator_cancel i code note waive false NotIssued (co_world s) in (rows ++ [(i, RowCancelled o)], with_world w s)
    | BulkFlag reason note => let '(o, s) := operator_flag i reason note maker s in (rows ++ [(i, RowFlagged o)], s)
    end) ([], s) ids in
  (rows ++ ((fun i => (i, match a with BulkCancel _ _ _ => RowCancelled OpNotFound | BulkFlag _ _ => RowFlagged FlagNotFound end)) <$> missing), s).

(** [admin_bulk_trips] up to the proposal: the country, the trips that are acted on, and the others. *)
Definition admin_bulk_trips (db : AccessDb) (u : User) (ids : list Z) (w : World) : res refusal (option string * list Z * list Z) :=
  let* _ := require (holds db u "trip.write" None) Denied in
  let* _ := require (negb (bool_decide (ids = []))) (BadInput "TRIP_IDS_REQUIRED") in
  let* _ := require (length ids <=? BULK_MAX_IDS)%nat (BadInput "TOO_MANY") in
  let distinct := reverse (remove_dups (reverse ids)) in
  let writable i := match trip_for_write db u i "trip.write" w with Ok t => Some t | Err _ => None end in
  let ordered := List.filter (fun i => negb (bool_decide (writable i = None))) distinct in
  let missing := List.filter (fun i => bool_decide (writable i = None)) distinct in
  match remove_dups ((fun t => trip_country (lt_trip t)) <$> omap writable distinct) with
  | [] => Ok (None, [], missing)
  | [Some c] => Ok (Some c, ordered, missing)
  | _ => Err (BadInput "MIXED_COUNTRIES")
  end.
