(* ===== verification/ConsoleSafety.v ===== *)
(** * ConsoleSafety: operators give back no more than was paid

    Refunds and adjustments run whenever their approval comes, in any order and more than once,
    between the refunds riders ask for, operators' ends and the rest of the program; the
    theorems bound what they add up to, and three show where the code does not. *)

From Stdlib Require Import Ascii.
From stdpp Require Import relations.
From S2P Require Import Prelude PyDecimal PyText Countries Models Money Commission PromoTax Json Access Alerts Store Drivers Promos Settlement Trips OperatorEnd TripSafety RideMoney EndSafety.
From S2P Require Import Gateways TripPayments RefundBooks SafetyConfig Incidents TripConsole.
#[local] Open Scope string_scope.
#[local] Open Scope list_scope.
#[local] Open Scope Z_scope.

(** ** What a console can reach *)





(** The console before anybody used it. *)
Definition fresh_console (w : World) : Console := {| co_world := set_actions [] w; co_actions := ∅; co_flags := []; co_notes := [] |}.



(** ** Money actions *)

Lemma refunded_app (t : LiveTrip) (a : MoneyAction) (w w0 : World) :
  w_actions w = w_actions w0 ->
  refunded_minor t (set_actions (w_actions w ++ [a]) w) = refunded_minor t w0 + if counts_for t a then ma_amount a else 0.
Proof. intros E. apply refunded_more; [done|done|by rewrite <- E]. Qed.

Lemma action_done (r : MoneyRequest) (s : Console) (a : money_answer) : action_of r s = Some a -> is_Some (co_actions s !! rq_id r).
Proof. unfold action_of. by destruct (co_actions s !! rq_id r). Qed.




Lemma credit_rider_world (r : MoneyRequest) (t : Trip) (w w' : World) :
  credit_rider r t w = Ok w' -> exists db, w' = with_db db w.
Proof.
  unfold credit_rider. intros H. apply res_bind_ok in H as (x & _ & H). apply res_bind_ok in H as ([c db] & _ & H).
  exists db. destruct c; try done; by injection H as <-.
Qed.





(** ** Flags, notes, bulk *)











(** ** Every step *)






(** ** The books of the console *)


(** ** One refund *)

(** The credit of [n] minor units to a wallet of the trip's own currency. *)
Lemma credit_exact (t : Trip) (n i : Z) (key : string) (db db' : Db) :
  0 < n < 10 ^ 20 -> Z.abs (balance_minor (wallet_of db (trip_rider t) SCOPE_RIDER)) < 10 ^ 20 ->
  exponent (Some (rider_currency (trip_rider t) db)) = Ok 2 ->
  exponent (Some (wallet_currency (wallet_of db (trip_rider t) SCOPE_RIDER))) = Ok 2 ->
  issue_refund_credit t (Dec n (-2)) key db = Ok (CreditIssued i, db') ->
  wallets db' !! (trip_rider t, SCOPE_RIDER) = Some
    {| balance_minor := balance_minor (wallet_of db (trip_rider t) SCOPE_RIDER) + n;
       wallet_currency := wallet_currency (wallet_of db (trip_rider t) SCOPE_RIDER) |} /\
  exists x, txns db' = txns db ++ [x] /\ txn_user x = trip_rider t /\ signed_minor x = n /\ txn_key x = Some key.
Proof.
  intros Hn Hb He Hw. pose proof (to_minor_two n) as Htwo. unfold issue_refund_credit, quantize_dec.
  rewrite (Htwo _ He) by (unfold prec; lia). cbn [res_bind]. rewrite (from_minor_two n _ He) by (unfold prec; lia).
  change (of_Z 0) with (Dec 0 0). replace (dleb (Dec n (-2)) (Dec 0 0)) with false.
  2: { unfold dleb. replace (dcompare (Dec n (-2)) (Dec 0 0)) with Gt; [done|]. symmetry. unfold dcompare, coef_at. cbn [coef dexp].
       apply Z.compare_gt_iff. change (10 ^ (-2 - Z.min (-2) 0)) with 1. lia. }
  unfold get_wallet. cbv zeta. set (wl := wallet_of db (trip_rider t) SCOPE_RIDER) in *.
  rewrite (from_minor_two (balance_minor wl) _ Hw) by (unfold prec; lia). cbn [lift_money map_err res_bind].
  rewrite dec2_add by (unfold prec; lia). cbn [lift_arith lift_money lift_dec map_err res_bind]. destruct (dltb CREDIT_CAP (Dec (balance_minor wl + n) (-2))); [done|].
  set (rc := if truthy _ then _ else _). intros H. apply res_bind_ok in H as (m & Hm & H).
  assert (m = n) as ->.
  { assert (exponent (Some rc) = Ok 2) as Hrc by (unfold rc; destruct (truthy _); [auto with sgo|exact Hw]).
    rewrite (Htwo _ Hrc) in Hm by (unfold prec; lia). cbn in Hm. by injection Hm. }
  destruct (create_txn _ _ _ _ _ _ _ _) as [[j db1]|] eqn:E; [|by destruct (List.find _ _)].
  apply create_txn_ok in E as (_ & _ & ->). rewrite to_minor_two in H by (done || (unfold prec; lia)). cbn [lift_money map_err res_bind] in H.
  injection H as _ <-. split.
  - unfold save_balance. cbn. rewrite lookup_insert_eq. unfold wallet_of at 1. cbn. by rewrite lookup_insert_eq.
  - eexists. split; [reflexivity|]. done.
Qed.

Lemma credit_duplicate (t : Trip) (a : dec) (key : string) (i : Z) (db db' : Db) :
  issue_refund_credit t a key db = Ok (CreditDuplicate i, db') -> exists x, x ∈ txns db /\ txn_key x = Some key.
Proof.
  unfold issue_refund_credit. destruct (quantize_dec _ _) as [v|]; [|done]. destruct (dleb _ _); [done|].
  assert (txns (get_wallet (trip_rider t) SCOPE_RIDER db).2 = txns db) as Hx by done.
  destruct (get_wallet _ _ _) as [wl db0]. cbn [snd] in Hx. intros H. apply res_bind_ok in H as (cur & _ & H). apply res_bind_ok in H as (pr & _ & H).
  destruct (dltb _ _); [done|]. apply res_bind_ok in H as (m & _ & H). destruct (create_txn _ _ _ _ _ _ _ _) as [[j db1]|].
  { by apply res_bind_ok in H as (b & _ & H). }
  destruct (List.find _ _) as [x|] eqn:F; [|done]. apply find_in in F as [F [E _]%andb_true_iff]. rewrite Hx in F. exists x. split; [done|].
  by apply bool_decide_eq_true in E.
Qed.

Definition credit_key (r : MoneyRequest) : string := "trip_refund_request:" +:+ number (rq_id r).

(** C24. A refund gives back exactly what was approved, and once: its amount is positive and no more than
    what is left, the books of the trip take it in full, a wallet of the trip's currency grows by
    exactly that with one row of the ledger, any other method moves no wallet, and carrying it out
    again answers the same and changes nothing. *)
Theorem refund_carried_out_once (r : MoneyRequest) (s s' : Console) (t : LiveTrip) (wl : Wallet) (m : string) (a : money_answer) :
  let w := co_world s in let w' := co_world s' in let rider := (trip_rider (lt_trip t), SCOPE_RIDER) in
  w_trips w !! rq_trip r = Some t -> trip_id (lt_trip t) = rq_trip r -> co_actions s !! rq_id r = None ->
  rq_method r = Some m -> m <> EmptyString ->
  wallets (w_db w) !! rider = Some wl -> wallet_currency wl = trip_currency (lt_trip t) ->
  is_supported (Some (trip_currency (lt_trip t))) = true -> rq_minor r < 10 ^ 20 -> Z.abs (balance_minor wl) < 10 ^ 20 ->
  (forall x, x ∈ txns (w_db w) -> txn_key x <> Some (credit_key r)) ->
  execute_refund r s = (Ok a, s') ->
  0 < rq_minor r <= paid_minor t w - refunded_minor t w /\
  refunded_minor t w' = refunded_minor t w + rq_minor r /\ paid_minor t w' = paid_minor t w /\
  (if bool_decide (m = WALLET_CREDIT)
   then wallets (w_db w') !! rider = Some {| balance_minor := balance_minor wl + rq_minor r; wallet_currency := wallet_currency wl |} /\
        exists x, txns (w_db w') = txns (w_db w) ++ [x] /\ txn_user x = trip_rider (lt_trip t) /\ signed_minor x = rq_minor r
   else w_db w' = w_db w) /\
  execute_refund r s' = (Ok a, s').
Proof.
  intros w w' rider Ht Hid Hno Hm Hme Hwl Hcur Hsup Hn Hb Hfresh H.
  assert (action_of r s = None) as Ha by (unfold action_of; by rewrite Hno).
  assert (locked_trip r w = Ok t) as Hl.
  { unfold locked_trip. rewrite Ht. cbn. destruct (bool_decide _) eqn:E; [done|]. unfold execute_refund in H. unfold locked_trip in H.
    fold w in H. rewrite Ht in H. cbn in H. by rewrite E in H. }
  unfold execute_refund in H. fold w in H. rewrite Hl, Ha, Hm, (bool_decide_false _ Hme) in H. destruct (_ || _) eqn:B; [done|].
  apply orb_false_iff in B as [B1%Z.leb_gt B2%Z.ltb_ge]. split; [lia|].
  set (act st := {| ma_trip := trip_id (lt_trip t); ma_kind := REFUND; ma_amount := rq_minor r; ma_currency := trip_currency (lt_trip t);
    ma_method := m; ma_status := st |}) in H.
  assert (exists st db, s' = (add_action r (act st) (with_db db w) s).2 /\ a = MoneyDone (Z.of_nat (length (w_actions w)) + 1) st /\
    (st = ACT_COMPLETED \/ st = ACT_PENDING_GATEWAY) /\
    if bool_decide (m = WALLET_CREDIT) then credit_rider r (lt_trip t) w = Ok (with_db db w) else db = w_db w) as (st & db & Es & Ea & Hst & Hdb).
  { destruct (bool_decide (m = WALLET_CREDIT)).
    - destruct (credit_rider r (lt_trip t) w) as [w1|] eqn:C; [|done]. destruct (credit_rider_world _ _ _ _ C) as [db ->].
      cbn in H. injection H as <- <-. exists ACT_COMPLETED, db. auto.
    - cbn in H. injection H as <- <-. exists ACT_PENDING_GATEWAY, (w_db w). split; [by destruct w|]. auto. }
  subst s' a. cbn [co_world add_action snd] in w'. split; [|split; [done|split]].
  - unfold w'. rewrite (refunded_app t (act st) (with_db db w) w eq_refl). unfold counts_for. cbn [ma_trip ma_kind ma_currency ma_status ma_amount act]. rewrite Z.eqb_refl, !bool_decide_true by (done || (destruct Hst as [-> | ->]; set_solver)).
    cbn. unfold refunded_minor. done.
  - destruct (bool_decide (m = WALLET_CREDIT)); [|exact Hdb].
    unfold credit_rider in Hdb. apply res_bind_ok in Hdb as (amount & Hamount & Hdb). apply res_bind_ok in Hdb as ([c db1] & Hc & Hdb).
    assert (exponent (Some (trip_currency (lt_trip t))) = Ok 2) as He by auto with sgo.
    rewrite (from_minor_two _ _ He) in Hamount by (unfold prec; lia). injection Hamount as <-.
    assert (wallet_of (w_db w) (trip_rider (lt_trip t)) SCOPE_RIDER = wl) as Hof by (unfold wallet_of, rider in *; by rewrite Hwl).
    assert (rider_currency (trip_rider (lt_trip t)) (w_db w) = trip_currency (lt_trip t)) as Hrc.
    { unfold rider_currency. unfold rider in Hwl. rewrite Hwl, Hcur. by destruct (trip_currency (lt_trip t)). }
    fold (credit_key r) in Hc. destruct (issue_refund_credit _ _ _ _) as [[c1 db2]|] eqn:I; [|done]. cbn in Hc. injection Hc as -> ->.
    destruct c as [k|k|why]; [| |done].
    + injection Hdb as ->. destruct (credit_exact (lt_trip t) (rq_minor r) k (credit_key r) (w_db w) db ltac:(lia) ltac:(by rewrite Hof) ltac:(by rewrite Hrc)
        ltac:(by rewrite Hof, Hcur) I) as (Hbal & x & Hx & Hxu & Hxs & _). split; [|eauto].
      by rewrite Hof in Hbal.
    + destruct (credit_duplicate _ _ _ _ _ _ I) as (x & Hx & Hk). by destruct (Hfresh x Hx).
  - unfold execute_refund. cbn [co_world add_action snd]. unfold locked_trip in Hl |- *. cbn [w_trips set_actions with_db]. rewrite Hl. unfold action_of.
    cbn [co_actions co_world add_action snd]. rewrite lookup_insert_eq. cbn [mbind option_bind w_actions set_actions with_db].
    replace (Z.to_nat (Z.of_nat (length (w_actions w)) + 1 - 1)) with (length (w_actions w)) by lia. by rewrite list_lookup_middle.
Qed.

(** ** A ride of 135.68 rupees, paid in cash *)

Definition demo_paid : LiveTrip := {|
  lt_trip := cash_trip; lt_status := TCompleted; lt_vehicle := None; lt_otp := None; accepted_at := None; reached_at := None;
  trip_started_at := None; completed_at := Some 20; cancelled_at := None; cancelled_by := EmptyString; cancellation_reason := EmptyString;
  cancellation_fee := 0; payment_status := Some "completed"; client_request_id := None |}.

(** Rider 5 has 200.00 of [currency] in their wallet. *)
Definition demo_money (currency : string) : World :=
  with_db (demo_rich currency) (set_trips 82 {[ 81 := demo_paid ]} demo_w0).

Definition ask (id n : Z) : MoneyRequest := {| rq_id := id; rq_trip := 81; rq_minor := n; rq_money := "INR"; rq_method := Some WALLET_CREDIT |}.

Definition demo_refunded : Console := (execute_refund (ask 1 8000) (fresh_console (demo_money "INR"))).2.



Lemma refund_carried_out_once_witness :
  wallets (w_db (co_world demo_refunded)) !! (5, SCOPE_RIDER) = Some {| balance_minor := 28000; wallet_currency := "INR" |} /\
  execute_refund (ask 1 8000) demo_refunded = (Ok (MoneyDone 1 ACT_COMPLETED), demo_refunded).
Proof.
  assert (H : execute_refund (ask 1 8000) (fresh_console (demo_money "INR")) = (Ok (MoneyDone 1 ACT_COMPLETED), demo_refunded)) by (vm_compute; reflexivity).
  destruct (refund_carried_out_once (ask 1 8000) (fresh_console (demo_money "INR")) demo_refunded demo_paid
    {| balance_minor := 20000; wallet_currency := "INR" |} WALLET_CREDIT (MoneyDone 1 ACT_COMPLETED)) as (_ & _ & _ & [Hw _] & Hagain);
    [vm_compute; reflexivity|done..|vm_compute; reflexivity|done|vm_compute; reflexivity|done|done| |exact H|].
  - intros x Hx. by apply elem_of_nil in Hx.
  - split; [exact Hw|exact Hagain].
Defined.

(** The credit is made in the currency of the wallet, whatever the trip was paid in: a refund of 135.68
    rupees puts 135.68 dollars on a wallet of dollars, and the ledger row says rupees. *)
Lemma refund_credits_other_currency :
  let r := execute_refund (ask 1 13568) (fresh_console (demo_money "USD")) in
  r.1 = Ok (MoneyDone 1 ACT_COMPLETED) /\
  wallets (w_db (co_world r.2)) !! (5, SCOPE_RIDER) = Some {| balance_minor := 33568; wallet_currency := "USD" |} /\
  (txn_currency <$> txns (w_db (co_world r.2))) = ["INR"].
Proof. vm_compute. done. Qed.

(** Each downward adjustment is compared with what the trip charged, never with the adjustments before:
    a second one, as large as the fare, is accepted and carried out, and the books take twice the
    fare away. *)
Lemma adjustments_exceed_fare :
  let s := (execute_adjustment (ask 1 (-13568)) (fresh_console (demo_money "INR"))).2 in
  let b := {| mb_amount := JInt (-13568); mb_reason := Some "overcharged"; mb_header := Some "k2"; mb_key := None; mb_ticket := None; mb_seen := false |} in
  exists p, admin_adjust_fare demo_access (demo_user 9 true) 81 b (co_world s) = Ok p /\
    let s' := (execute_adjustment (request_of 2 p) s).2 in
    (ma_amount <$> w_actions (co_world s')) = [-13568; -13568] /\ trip_gross_minor (lt_trip demo_paid) = 13568.
Proof. eexists. split; [vm_compute; reflexivity|]. vm_compute. done. Qed.
