(* ===== verification/Macros.v ===== *)
(** * Macros: saved replies of the support desk

    Models [servers/support/macros.py] (what a saved reply may contain and how it is filled
    in) and the writes on macros and their versions in [servers/support/admin_support.py]
    and [admin_followups.py].  [string.Formatter().parse] is the standard library's; its
    errors are all [ValueError] and are one here.  Audit rows are left out. *)

From Stdlib Require Import Ascii.
From S2P Require Import Prelude PyText Countries Models Json Access Alerts SafetyConfig Incidents.
#[local] Open Scope string_scope.
#[local] Open Scope list_scope.
#[local] Open Scope Z_scope.

(** ** [string.Formatter().parse] *)

Definition lbrace : ascii := "{"%char.
Definition rbrace : ascii := "}"%char.
Definition colon : ascii := ":"%char.
Definition bang : ascii := "!"%char.

Definition is_brace (c : ascii) : bool := bool_decide (c = lbrace) || bool_decide (c = rbrace).

(** A replacement field: its name, its format spec and its conversion. *)
Record Field := { fd_name : list ascii; fd_spec : list ascii; fd_conversion : option ascii }.

(** The name up to a closing brace, a colon or a bang, which is returned with what follows; inside
    brackets those are part of the name. *)
Fixpoint field_name (bracket : bool) (acc l : list ascii) : option (list ascii * ascii * list ascii) :=
  match l with
  | [] => None
  | c :: r =>
    if bracket then field_name (negb (bool_decide (c = "]"%char))) (c :: acc) r
    else if bool_decide (c = lbrace) then None
    else if bool_decide (c = rbrace) || bool_decide (c = colon) || bool_decide (c = bang) then Some (rev acc, c, r)
    else field_name (bool_decide (c = "["%char)) (c :: acc) r
  end.

(** The format spec up to the brace that closes the field. *)
Fixpoint format_spec (depth : nat) (acc l : list ascii) : option (list ascii * list ascii) :=
  match l with
  | [] => None
  | c :: r =>
    if bool_decide (c = lbrace) then format_spec (S depth) (c :: acc) r
    else if bool_decide (c = rbrace)
         then match depth with O => Some (rev acc, r) | S d => format_spec d (c :: acc) r end
         else format_spec depth (c :: acc) r
  end.

(** The field after an opening brace, and the text after it. *)
Definition parse_field (l : list ascii) : option (Field * list ascii) :=
  '(name, c, r) ← field_name false [] l;
  if bool_decide (c = rbrace) then Some ({| fd_name := name; fd_spec := []; fd_conversion := None |}, r)
  else if bool_decide (c = colon)
       then '(spec, r) ← format_spec 0 [] r; Some ({| fd_name := name; fd_spec := spec; fd_conversion := None |}, r)
       else match r with
            | conversion :: c :: r =>
              if bool_decide (c = rbrace) then Some ({| fd_name := name; fd_spec := []; fd_conversion := Some conversion |}, r)
              else if bool_decide (c = colon)
                   then '(spec, r) ← format_spec 0 [] r; Some ({| fd_name := name; fd_spec := spec; fd_conversion := Some conversion |}, r)
                   else None
            | _ => None
            end.

(** The text before the first brace, and what starts with that brace. *)
Fixpoint literal (l : list ascii) : list ascii * list ascii :=
  match l with
  | [] => ([], [])
  | c :: r => if is_brace c then ([], l) else let '(a, b) := literal r in (c :: a, b)
  end.

(** The pieces: a literal text and the field that follows it, if one does.  A doubled brace is one
    brace at the end of its literal. *)
Fixpoint pieces (fuel : nat) (l : list ascii) : option (list (list ascii * option Field)) :=
  match l with
  | [] => Some []
  | _ =>
    match fuel with
    | O => None
    | S fuel =>
      let '(text, rest) := literal l in
      match rest with
      | [] => Some [(text, None)]
      | [c] => None
      | c :: d :: r =>
        if bool_decide (c = d) then ps ← pieces fuel r; Some ((text ++ [c], None) :: ps)
        else if bool_decide (c = rbrace) then None
             else '(f, r) ← parse_field (d :: r); ps ← pieces fuel r; Some ((text, Some f) :: ps)
      end
    end
  end.

Definition parse (l : list ascii) : option (list (list ascii * option Field)) := pieces (length l) l.

(** ** [macros.py] *)

Definition ALLOWED_PLACEHOLDERS : list string := ["first_name"; "ticket_id"; "trip_id"].

(** What [validate_body] says about a field it refuses. *)
Definition field_text (f : Field) : string :=
  "{" +:+ of_chars (fd_name f) +:+ from_option (fun c => "!" +:+ of_chars [c]) EmptyString (fd_conversion f) +:+
  (if bool_decide (fd_spec f = []) then EmptyString else ":" +:+ of_chars (fd_spec f)) +:+ "}".

Definition field_ok (f : Field) : bool :=
  bool_decide (of_chars (fd_name f) ∈ ALLOWED_PLACEHOLDERS) && bool_decide (fd_spec f = []) && bool_decide (fd_conversion f = None).

(** [validate_body]: [Err bad] is the [PlaceholderError]. *)
Definition validate_body (body : string) : res (list string) unit :=
  match parse (chars body) with
  | None => Err ["unbalanced brace"]
  | Some ps =>
    let bad := field_text <$> List.filter (fun f => negb (field_ok f)) (omap snd ps) in
    if bool_decide (bad = []) then Ok tt else Err (sorted_set bad)
  end.

(** The values of a ticket: the requester's name, its id and the id of its trip. *)
Record Values := { va_name : string; va_ticket : Z; va_trip : option Z }.

Definition first_word (s : string) : string :=
  let fix go (l : list ascii) : list ascii := match l with [] => [] | c :: r => if is_space c then [] else c :: go r end in
  of_chars (go (chars s)).

(** [values_for] *)
Definition value_of (v : Values) (name : string) : string :=
  if bool_decide (name = "first_name")
  then let n := strip (va_name v) in
       if negb (bool_decide (n = EmptyString)) && negb (existsb is_digit (chars n)) then first_word n else "there"
  else if bool_decide (name = "ticket_id") then number (va_ticket v)
  else if bool_decide (name = "trip_id") then from_option (fun i => if i =? 0 then EmptyString else number i) EmptyString (va_trip v)
  else EmptyString.

(** [_TOKEN] at the start of a text. *)
Definition token (name : string) : list ascii := lbrace :: chars name ++ [rbrace].

Definition token_at (l : list ascii) : option string :=
  List.find (fun name => bool_decide (take (length (token name)) l = token name)) ALLOWED_PLACEHOLDERS.

(** [_TOKEN.sub]; [skip] characters belong to a token already replaced. *)
Fixpoint fill (value : string -> string) (skip : nat) (l : list ascii) : list ascii :=
  match l with
  | [] => []
  | c :: r =>
    match skip with
    | S k => fill value k r
    | O => match token_at l with
           | Some name => chars (value name) ++ fill value (length (chars name) + 1) r
           | None => c :: fill value 0 r
           end
    end
  end.

Fixpoint tokens_in (skip : nat) (l : list ascii) : list string :=
  match l with
  | [] => []
  | _ :: r =>
    match skip with
    | S k => tokens_in k r
    | O => match token_at l with Some name => name :: tokens_in (length (chars name) + 1) r | None => tokens_in 0 r end
    end
  end.

(** [render]: the text, and the placeholders the ticket has no value for. *)
Definition render (body : string) (v : Values) : string * list string :=
  (of_chars (fill (value_of v) 0 (chars body)),
   sorted_set (List.filter (fun name => bool_decide (value_of v name = EmptyString)) (tokens_in 0 (chars body)))).

(** ** Rows *)

Record Macro := {
  mc_title : string; mc_body : string; mc_locale : string; mc_country : option string; mc_issues : list string; mc_active : bool;
  mc_by : option Z
}.

Record MacroVersion := {
  mv_macro : Z; mv_version : Z; mv_title : string; mv_body : string; mv_locale : string; mv_issues : list string; mv_by : option Z;
  mv_restored : option Z
}.

Record MacroDb := { md_macros : gmap Z Macro; macro_next : Z; md_versions : list MacroVersion }.

Definition set_macro (i : Z) (m : Macro) (s : MacroDb) : MacroDb :=
  {| md_macros := <[i := m]> (md_macros s); macro_next := macro_next s; md_versions := md_versions s |}.

(** ** The fields of a request *)

Definition ISSUES : list string :=
  ["payment"; "fare_dispute"; "driver_behaviour"; "rider_behaviour"; "lost_item"; "safety"; "account"; "app_bug"; "other"].

Definition LOCALES : list string := ["en"; "hi"; "te"].

(** A request body: None for a key it does not have, the empty text for null. *)
Record MacroData := {
  ma_title : option string; ma_body : option string; ma_locale : option string; ma_country : option string; ma_issues : option json;
  ma_active : option json
}.

Record MacroFields := {
  mf_title : option string; mf_body : option string; mf_locale : option string; mf_country : option (option string);
  mf_issues : option (list string); mf_active : option bool
}.

Definition each {E A B : Type} (x : option A) (f : A -> res E B) : res E (option B) :=
  match x with None => Ok None | Some a => let* b := f a in Ok (Some b) end.

Definition locale_of (raw : string) : res refusal string :=
  let locale := strip (if bool_decide (raw = EmptyString) then "en" else raw) in
  let* _ := require (bool_decide (locale ∈ LOCALES)) (BadInput "INVALID_LOCALE") in Ok locale.

Definition macro_country (raw : string) : res refusal (option string) :=
  if bool_decide (raw ∈ [EmptyString; "all"]) then Ok None
  else let country := upper (strip raw) in
    let* _ := require (bool_decide (is_Some (registry_get country))) (BadInput "INVALID_COUNTRY") in Ok (Some country).

(** A list inside the list makes Python raise; here it is refused like any other stranger. *)
Definition issue_types_of (raw : json) : res refusal (list string) :=
  if negb (json_truthy raw) then Ok []
  else match raw with
       | JList l =>
         let names := omap (fun j => match j with JStr s => if bool_decide (s ∈ ISSUES) then Some s else None | _ => None end) l in
         let* _ := require (length names =? length l)%nat (BadInput "INVALID_ISSUE_TYPE") in
         Ok (reverse (remove_dups (reverse names)))
       | _ => Err (BadInput "INVALID_ISSUE_TYPE")
       end.

Definition body_of (raw : string) : res refusal string :=
  let* body := text_of "body" true MAX_NOTE (Some raw) in
  let* _ := map_err (fun _ => BadInput "UNKNOWN_PLACEHOLDER") (validate_body body) in Ok body.

(** [_macro_fields]; a create reads every field, an update those it was sent. *)
Definition macro_fields (create : bool) (d : MacroData) : res refusal MacroFields :=
  let given (x : option string) := if create then Some (default EmptyString x) else x in
  let* title := each (given (ma_title d)) (fun raw => text_of "title" true 120 (Some raw)) in
  let* body := each (given (ma_body d)) body_of in
  let* locale := each (given (ma_locale d)) locale_of in
  let* country := each (given (ma_country d)) macro_country in
  let* issues := each (if create then Some (default JNull (ma_issues d)) else ma_issues d) issue_types_of in
  let* active := each (ma_active d) (fun raw => match raw with JBool b => Ok b | _ => Err (BadInput "INVALID_FIELD") end) in
  Ok {| mf_title := title; mf_body := body; mf_locale := locale; mf_country := country; mf_issues := issues; mf_active := active |}.

(** The macro with the fields written over it. *)
Definition edited (f : MacroFields) (m : Macro) : Macro :=
  {| mc_title := default (mc_title m) (mf_title f); mc_body := default (mc_body m) (mf_body f);
     mc_locale := default (mc_locale m) (mf_locale f); mc_country := default (mc_country m) (mf_country f);
     mc_issues := default (mc_issues m) (mf_issues f); mc_active := default (mc_active m) (mf_active f); mc_by := mc_by m |}.

Definition versioned (m : Macro) : string * string * string * list string := (mc_title m, mc_body m, mc_locale m, mc_issues m).

#[global] Instance macro_eq_dec : EqDecision Macro.
Proof. solve_decision. Defined.

(** ** Who may write, and the history *)

Definition node_of_country (db : AccessDb) (country : string) : option GeoRow :=
  List.find (fun n => bool_decide (g_kind n = KCountry) && bool_decide (g_code n = country)) (snd <$> map_to_list (nodes db)).

(** [_macro_scope_ok] *)
Definition macro_scope_ok (db : AccessDb) (u : User) (country : option string) : bool :=
  match country with
  | None => unrestricted db u && holds db u "support.macro" None
  | Some c => holds db u "support.macro" (node_of_country db c)
  end.

(** [current_version] *)
Definition current_version (i : Z) (s : MacroDb) : Z :=
  foldr (fun v n => if mv_macro v =? i then Z.max (mv_version v) n else n) 0 (md_versions s).

(** [write_macro_version] *)
Definition write_macro_version (i : Z) (m : Macro) (user : Z) (restored : option Z) (s : MacroDb) : MacroDb :=
  {| md_macros := md_macros s; macro_next := macro_next s;
     md_versions := md_versions s ++ [{| mv_macro := i; mv_version := current_version i s + 1; mv_title := mc_title m; mv_body := mc_body m;
       mv_locale := mc_locale m; mv_issues := mc_issues m; mv_by := Some user; mv_restored := restored |}] |}.

(** [_create_macro] *)
Definition create_macro (db : AccessDb) (u : User) (d : MacroData) (s : MacroDb) : res refusal Z * MacroDb :=
  match (let* _ := require (holds db u "support.reply" None) Denied in
         let* _ := require (holds db u "support.macro" None) Denied in
         let* f := macro_fields true d in
         let* _ := require (macro_scope_ok db u (default None (mf_country f))) Denied in Ok f) with
  | Err e => (Err e, s)
  | Ok f =>
    let m := edited f {| mc_title := EmptyString; mc_body := EmptyString; mc_locale := "en"; mc_country := None; mc_issues := [];
                         mc_active := true; mc_by := Some (uid u) |} in
    let i := macro_next s in
    (Ok i, write_macro_version i m (uid u) None
             {| md_macros := <[i := m]> (md_macros s); macro_next := i + 1; md_versions := md_versions s |})
  end.

(** What a PATCH and a DELETE share: the fields are worked out under the lock. *)
Definition edit_macro (db : AccessDb) (u : User) (i : Z) (fields : res refusal MacroFields) (s : MacroDb) : res refusal bool * MacroDb :=
  match (let* _ := require (holds db u "support.macro" None) Denied in
         let* m := res_opt NotFound (md_macros s !! i) in
         let* _ := require (macro_scope_ok db u (mc_country m)) Denied in
         let* f := fields in
         let* _ := require (match mf_country f with Some c => macro_scope_ok db u c | None => true end) Denied in Ok (m, f)) with
  | Err e => (Err e, s)
  | Ok (m, f) =>
    let m' := edited f m in
    if bool_decide (m' = m) then (Ok false, s)
    else let s := set_macro i m' s in
      (Ok true, if bool_decide (versioned m' = versioned m) then s else write_macro_version i m' (uid u) None s)
  end.

(** [admin_macro_detail] *)
Definition update_macro (db : AccessDb) (u : User) (i : Z) (d : MacroData) (s : MacroDb) : res refusal bool * MacroDb :=
  edit_macro db u i (macro_fields false d) s.

Definition delete_macro (db : AccessDb) (u : User) (i : Z) (s : MacroDb) : res refusal bool * MacroDb :=
  edit_macro db u i (Ok {| mf_title := None; mf_body := None; mf_locale := None; mf_country := None; mf_issues := None;
                           mf_active := Some false |}) s.

(** [admin_macro_restore] *)
Definition restore_macro (db : AccessDb) (u : User) (i : Z) (version : json) (s : MacroDb) : res refusal (option Z) * MacroDb :=
  match (let* _ := require (holds db u "support.macro" None) Denied in
         let* wanted := match version with JInt n => Ok n | _ => Err (BadInput "INVALID_VERSION") end in
         let* m := res_opt NotFound (md_macros s !! i) in
         let* _ := require (macro_scope_ok db u (mc_country m)) Denied in
         let* old := res_opt NotFound (List.find (fun v => (mv_macro v =? i) && (mv_version v =? wanted)) (md_versions s)) in
         let* _ := map_err (fun _ => BadInput "UNKNOWN_PLACEHOLDER") (validate_body (mv_body old)) in Ok (m, old)) with
  | Err e => (Err e, s)
  | Ok (m, old) =>
    let m' := {| mc_title := mv_title old; mc_body := mv_body old; mc_locale := mv_locale old; mc_country := mc_country m;
                 mc_issues := mv_issues old; mc_active := mc_active m; mc_by := mc_by m |} in
    if bool_decide (versioned m' = versioned m) then (Ok None, s)
    else let s := write_macro_version i m' (uid u) (Some (mv_version old)) (set_macro i m' s) in
      (Ok (Some (current_version i s)), s)
  end.

(** [_macro_for]: the macro an agent picks for a ticket of this country and kind. *)
Definition macro_for (country issue : string) (i : Z) (s : MacroDb) : res refusal Macro :=
  let* m := res_opt (BadInput "MACRO_NOT_FOUND") (m ← md_macros s !! i; if mc_active m then Some m else None) in
  let* _ := require (negb (truthy (mc_country m) && negb (bool_decide (country = EmptyString)) && negb (bool_decide (mc_country m = Some country))))
              (BadInput "MACRO_NOT_FOR_TICKET") in
  let* _ := require (bool_decide (mc_issues m = []) || bool_decide (issue ∈ mc_issues m)) (BadInput "MACRO_NOT_FOR_TICKET") in
  Ok m.
