(* ===== verification/MacroSafety.v ===== *)
(** * MacroSafety: what saved replies promise

    A stored reply reads, when it is filled in, the way [str.format] would read it, except for
    two spellings that are shown here to slip through; and the history of a reply is complete. *)

From Stdlib Require Import Ascii.
From S2P Require Import Prelude PyText Access Json Alerts SafetyConfig Incidents Macros.
#[local] Open Scope string_scope.
#[local] Open Scope list_scope.
#[local] Open Scope Z_scope.

(** ** Reading a field *)

Lemma field_name_text (l : list ascii) (bracket : bool) (acc name r : list ascii) (c : ascii) :
  field_name bracket acc l = Some (name, c, r) -> exists m, name = rev acc ++ m /\ l = m ++ c :: r.
Proof.
  induction l as [|x l IH] in bracket, acc |- *; [done|]. cbn [field_name]. intros H.
  assert (forall b, field_name b (x :: acc) l = Some (name, c, r) -> exists m, name = rev acc ++ m /\ x :: l = m ++ c :: r) as Hnext.
  { intros b Hb. apply IH in Hb as (m & -> & ->). exists (x :: m). cbn. by rewrite <- app_assoc. }
  destruct bracket; [by eapply Hnext|]. destruct (bool_decide (x = lbrace)); [done|].
  destruct (_ || _); [|by eapply Hnext]. injection H as <- <- <-. exists []. by rewrite app_nil_r.
Qed.

Lemma format_spec_text (l : list ascii) (depth : nat) (acc spec r : list ascii) :
  format_spec depth acc l = Some (spec, r) -> exists m, spec = rev acc ++ m /\ l = m ++ rbrace :: r.
Proof.
  induction l as [|x l IH] in depth, acc |- *; [done|]. cbn [format_spec]. intros H.
  assert (forall d, format_spec d (x :: acc) l = Some (spec, r) -> exists m, spec = rev acc ++ m /\ x :: l = m ++ rbrace :: r) as Hnext.
  { intros b Hb. apply IH in Hb as (m & -> & ->). exists (x :: m). cbn. by rewrite <- app_assoc. }
  case_bool_decide as Hl; [by eapply Hnext|]. case_bool_decide as Hr; [subst x|by eapply Hnext].
  destruct depth; [|by eapply Hnext]. injection H as <- <-. exists []. by rewrite app_nil_r.
Qed.

(** No doubled brace, and no colon right before a closing brace. *)
Fixpoint tidy (l : list ascii) : bool :=
  match l with
  | [] => true
  | c :: r =>
    match r with
    | d :: _ => negb ((is_brace c && bool_decide (c = d)) || (bool_decide (c = colon) && bool_decide (d = rbrace)))
    | [] => true
    end && tidy r
  end.

Lemma tidy_app (a b : list ascii) : tidy (a ++ b) = true -> tidy b = true.
Proof. induction a as [|c a IH]; [done|]. cbn [app tidy]. intros [_ H]%andb_true_iff. by apply IH. Qed.

(** The text of a field that [validate_body] lets through. *)
Lemma parse_field_text (l r : list ascii) (f : Field) :
  parse_field l = Some (f, r) -> field_ok f = true -> tidy l = true -> l = fd_name f ++ rbrace :: r.
Proof.
  unfold parse_field. destruct (field_name false [] l) as [[[name c] q]|] eqn:E; [|done]. cbn.
  apply field_name_text in E as (m & -> & ->). cbn [rev app]. intros H Hok Ht.
  apply andb_true_iff in Hok as [[_ Hs%bool_decide_eq_true]%andb_true_iff Hc%bool_decide_eq_true].
  case_bool_decide as Hr; [subst c; by injection H as <- <-|]. case_bool_decide as Hcol.
  - destruct (format_spec 0 [] q) as [[spec q']|] eqn:F; [|done]. injection H as <- <-. cbn in Hs. subst spec c.
    apply format_spec_text in F as (m' & Hm & ->). destruct m'; [|done]. apply tidy_app in Ht. done.
  - destruct q as [|v [|c' q]]; [done|done|]. case_bool_decide; [by injection H as <- <-|]. case_bool_decide; [|done].
    destruct (format_spec 0 [] q) as [[spec q']|]; [|done]. by injection H as <- <-.
Qed.

(** ** Filling in *)

Lemma token_at_lbrace (c : ascii) (r : list ascii) : c <> lbrace -> token_at (c :: r) = None.
Proof.
  intros H. apply find_none_iff. intros n _. apply bool_decide_eq_false. unfold token. cbn [length take]. congruence.
Qed.

Lemma fill_skip (value : string -> string) (a b : list ascii) : fill value (length a) (a ++ b) = fill value 0 b.
Proof. by induction a. Qed.

Lemma fill_literal (value : string -> string) (l a b : list ascii) :
  literal l = (a, b) -> l = a ++ b /\ fill value 0 l = a ++ fill value 0 b /\ (forall c r, b = c :: r -> is_brace c = true).
Proof.
  induction l as [|c l IH] in a |- *; cbn [literal]; [by intros [= <- <-]|].
  destruct (is_brace c) eqn:E; [intros [= <- <-]; naive_solver|].
  destruct (literal l) as [a' b'] eqn:F. intros [= <- <-]. destruct (IH a' eq_refl) as (-> & H & Hb). split; [done|]. split; [|done].
  cbn [fill]. rewrite token_at_lbrace by (intros ->; done). by rewrite H.
Qed.

Lemma fill_token (value : string -> string) (name r : list ascii) :
  of_chars name ∈ ALLOWED_PLACEHOLDERS -> fill value 0 (lbrace :: name ++ rbrace :: r) = chars (value (of_chars name)) ++ fill value 0 r.
Proof.
  intros H. assert (chars (of_chars name) = name) as Hn by apply chars_of_chars.
  assert (token_at (lbrace :: name ++ rbrace :: r) = Some (of_chars name)) as Ht.
  { unfold ALLOWED_PLACEHOLDERS in H. rewrite !elem_of_cons, elem_of_nil in H. destruct H as [H|[H|[H|[]]]]; rewrite H in Hn; subst name; rewrite H; reflexivity. }
  cbn [fill]. rewrite Ht, Hn. f_equal. replace (length name + 1)%nat with (length (name ++ [rbrace])) by (rewrite length_app; done).
  change (name ++ rbrace :: r) with (name ++ ([rbrace] ++ r)). rewrite (app_assoc name). apply fill_skip.
Qed.

(** A field takes at least one character, so the length of a text is fuel enough to read it. *)
Lemma parse_field_shorter (l r : list ascii) (f : Field) : parse_field l = Some (f, r) -> (length r < length l)%nat.
Proof.
  unfold parse_field. destruct (field_name false [] l) as [[[name c] q]|] eqn:E; [|done]. cbn.
  apply field_name_text in E as (m & _ & ->). rewrite length_app. cbn [length]. intros H.
  case_bool_decide; [injection H as _ <-; lia|]. case_bool_decide.
  - destruct (format_spec 0 [] q) as [[spec q']|] eqn:F; [|done]. injection H as _ <-.
    apply format_spec_text in F as (m' & _ & ->). rewrite length_app. cbn [length]. lia.
  - destruct q as [|v [|c' q]]; [done|done|]. case_bool_decide; [injection H as _ <-; cbn [length]; lia|]. case_bool_decide; [|done].
    destruct (format_spec 0 [] q) as [[spec q']|] eqn:F; [|done]. injection H as _ <-.
    apply format_spec_text in F as (m' & _ & ->). cbn [length]. rewrite length_app. cbn [length]. lia.
Qed.

Lemma pieces_enough (f f' : nat) (l : list ascii) : (length l <= f)%nat -> (length l <= f')%nat -> pieces f l = pieces f' l.
Proof.
  induction f as [|f IH] in f', l |- *; intros H H'; [destruct l; [by destruct f'|cbn in H; lia]|].
  destruct l as [|x l]; [by destruct f'|]. destruct f' as [|f']; [cbn in H'; lia|]. cbn [pieces].
  destruct (literal (x :: l)) as [text rest] eqn:E. apply (fill_literal (fun s => s)) in E as (El & _). apply (f_equal length) in El.
  rewrite length_app in El. destruct rest as [|c [|d r]]; [done|done|]. cbn [length] in *.
  case_bool_decide; [by rewrite (IH f') by lia|]. case_bool_decide; [done|].
  destruct (parse_field (d :: r)) as [[g q]|] eqn:F; [|done]. apply parse_field_shorter in F. cbn [length] in F. cbn. by rewrite (IH f') by lia.
Qed.

(** A piece as [str.format] would print it. *)
Definition printed (value : string -> string) (p : list ascii * option Field) : list ascii :=
  p.1 ++ match p.2 with Some f => chars (value (of_chars (fd_name f))) | None => [] end.

Lemma fill_pieces (value : string -> string) (fuel : nat) (l : list ascii) (ps : list (list ascii * option Field)) :
  pieces fuel l = Some ps -> tidy l = true -> List.filter (fun f => negb (field_ok f)) (omap snd ps) = [] ->
  fill value 0 l = flat_map (printed value) ps.
Proof.
  induction fuel as [|fuel IH] in l, ps |- *; intros H Ht Hok; [destruct l; [by injection H as <-|done]|].
  destruct l as [|x l]; [by injection H as <-|]. cbn [pieces] in H. destruct (literal (x :: l)) as [text rest] eqn:E.
  destruct (fill_literal value _ _ _ E) as (El & -> & Hb). rewrite El in Ht. apply tidy_app in Ht. clear El E x l.
  destruct rest as [|c [|d r]]; [injection H as <-; unfold printed; cbn; by rewrite !app_nil_r|done|].
  specialize (Hb c (d :: r) eq_refl). case_bool_decide as Hcd.
  { subst d. cbn [tidy] in Ht. rewrite Hb, bool_decide_true in Ht by done. done. }
  case_bool_decide as Hc; [done|]. assert (c = lbrace) as ->.
  { unfold is_brace in Hb. apply orb_true_iff in Hb as [Hb%bool_decide_eq_true|Hb%bool_decide_eq_true]; congruence. }
  destruct (parse_field (d :: r)) as [[f r']|] eqn:F; [|done]. cbn in H. destruct (pieces fuel r') as [ps'|] eqn:G; [|done].
  injection H as <-. cbn [omap list_omap snd] in Hok. cbn [List.filter] in Hok. destruct (field_ok f) eqn:Hf; [|done]. cbn [negb] in Hok.
  assert (tidy (d :: r) = true) as Ht' by (apply (tidy_app [lbrace]); exact Ht).
  rewrite (parse_field_text _ _ _ F Hf Ht') in Ht' |- *. rewrite fill_token.
  2: { unfold field_ok in Hf. apply andb_true_iff in Hf as [[Hf _]%andb_true_iff _]. by apply bool_decide_eq_true in Hf. }
  apply (tidy_app (fd_name f)), (tidy_app [rbrace]) in Ht'. rewrite (IH r' ps' G Ht' Hok). cbn [flat_map]. unfold printed at 2. cbn [fst snd].
  by rewrite <- app_assoc.
Qed.

(** A saved reply is filled in the way [str.format] reads it: whatever [validate_body] accepts, as
    long as it doubles no brace and gives no empty format spec, splits into literal texts and
    placeholders of the allow-list, and [render] is those texts with each placeholder replaced by
    the value of the ticket, and nothing else. *)
Theorem render_is_format (body : string) (v : Values) :
  validate_body body = Ok tt -> tidy (chars body) = true ->
  exists ps, parse (chars body) = Some ps /\
    (forall text f, (text, Some f) ∈ ps -> of_chars (fd_name f) ∈ ALLOWED_PLACEHOLDERS) /\
    chars (render body v).1 = flat_map (printed (value_of v)) ps.
Proof.
  unfold validate_body. intros H Ht. destruct (parse (chars body)) as [ps|] eqn:E; [|done]. exists ps. split; [done|].
  case_bool_decide as Hb; [|done]. apply fmap_nil_inv in Hb. split.
  - intros text f Hf. destruct (field_ok f) eqn:G.
    + unfold field_ok in G. apply andb_true_iff in G as [[G _]%andb_true_iff _]. by apply bool_decide_eq_true in G.
    + assert (f ∈ List.filter (fun f => negb (field_ok f)) (omap snd ps)) as Hin.
      { apply elem_of_filter_b. rewrite G. split; [|done]. apply list_elem_of_omap. eexists. split; [exact Hf|done]. }
      rewrite Hb in Hin. by apply not_elem_of_nil in Hin.
  - cbn [render fst]. rewrite chars_of_chars. by apply (fill_pieces (value_of v) (length (chars body))).
Qed.

(** ** The history of a reply *)

Inductive macro_step : MacroDb -> MacroDb -> Prop :=
| ms_create db u d s : macro_step s (create_macro db u d s).2
| ms_update db u i d s : macro_step s (update_macro db u i d s).2
| ms_delete db u i s : macro_step s (delete_macro db u i s).2
| ms_restore db u i version s : macro_step s (restore_macro db u i version s).2.

Definition no_macros : MacroDb := {| md_macros := ∅; macro_next := 1; md_versions := [] |}.

Definition versions_of (i : Z) (s : MacroDb) : list MacroVersion := List.filter (fun v => mv_macro v =? i) (md_versions s).

Definition content (v : MacroVersion) : string * string * string * list string := (mv_title v, mv_body v, mv_locale v, mv_issues v).

(** The versions of a reply are numbered from 1 and the last one is what it says now. *)
Definition told (i : Z) (m : Macro) (s : MacroDb) : Prop :=
  exists vs v, versions_of i s = vs ++ [v] /\ mv_version <$> versions_of i s = seqZ 1 (Z.of_nat (length (versions_of i s))) /\
    content v = versioned m /\ validate_body (mc_body m) = Ok tt.

Record history_ok (s : MacroDb) : Prop := {
  ho_told : forall i m, md_macros s !! i = Some m -> told i m s;
  ho_rows : forall i, is_Some (md_macros s !! i) -> i < macro_next s;
  ho_versions : forall v, v ∈ md_versions s -> is_Some (md_macros s !! mv_macro v)
}.

Lemma max_version (vs : list MacroVersion) (i : Z) :
  foldr (fun v n => if mv_macro v =? i then Z.max (mv_version v) n else n) 0 vs =
  foldr Z.max 0 (mv_version <$> List.filter (fun v => mv_macro v =? i) vs).
Proof. induction vs as [|v vs IH]; [done|]. cbn. rewrite IH. by destruct (mv_macro v =? i). Qed.

Lemma max_seqZ (n : nat) (a : Z) : 0 <= a -> foldr Z.max 0 (seqZ a (Z.of_nat n)) = if (n =? 0)%nat then 0 else a + Z.of_nat n - 1.
Proof.
  induction n as [|n IH] in a |- *; intros Ha; [done|]. rewrite seqZ_cons by lia. cbn [foldr].
  replace (Z.pred (Z.of_nat (S n))) with (Z.of_nat n) by lia. rewrite IH by lia. destruct n; cbn [Nat.eqb]; lia.
Qed.

Lemma current_is_length (i : Z) (s : MacroDb) :
  mv_version <$> versions_of i s = seqZ 1 (Z.of_nat (length (versions_of i s))) -> current_version i s = Z.of_nat (length (versions_of i s)).
Proof.
  intros H. unfold current_version. rewrite max_version. fold (versions_of i s). rewrite H, max_seqZ by lia. destruct (versions_of i s); cbn; lia.
Qed.

Lemma versions_pushed (i j : Z) (m : Macro) (user : Z) (restored : option Z) (s : MacroDb) :
  versions_of j (write_macro_version i m user restored s) =
  versions_of j s ++ if i =? j then [{| mv_macro := i; mv_version := current_version i s + 1; mv_title := mc_title m; mv_body := mc_body m;
    mv_locale := mc_locale m; mv_issues := mc_issues m; mv_by := Some user; mv_restored := restored |}] else [].
Proof. unfold versions_of. cbn [md_versions write_macro_version]. rewrite List.filter_app. cbn. by destruct (i =? j). Qed.

(** Writing a new version of a macro whose versions are in order. *)
Lemma write_told (i : Z) (m : Macro) (user : Z) (restored : option Z) (s : MacroDb) :
  mv_version <$> versions_of i s = seqZ 1 (Z.of_nat (length (versions_of i s))) -> validate_body (mc_body m) = Ok tt ->
  told i m (write_macro_version i m user restored s).
Proof.
  intros H Hb. unfold told. rewrite versions_pushed, Z.eqb_refl. eexists _, _. split; [reflexivity|]. split; [|done].
  rewrite fmap_app, length_app, H. cbn [fmap list_fmap length mv_version]. rewrite (current_is_length i s H), Nat2Z.inj_add, seqZ_app by lia. cbn. by rewrite Z.add_comm.
Qed.

Lemma set_macro_ok (i : Z) (m' : Macro) (user : Z) (restored : option Z) (s : MacroDb) :
  history_ok s -> (is_Some (md_macros s !! i) \/ i = macro_next s) -> validate_body (mc_body m') = Ok tt ->
  history_ok (write_macro_version i m' user restored
    {| md_macros := <[i := m']> (md_macros s); macro_next := Z.max (macro_next s) (i + 1); md_versions := md_versions s |}).
Proof.
  intros [Ht Hr Hv] Hi Hb. split; cbn [md_macros macro_next write_macro_version md_versions].
  - intros j n H. destruct (decide (j = i)) as [->|Hj].
    + rewrite lookup_insert_eq in H. injection H as <-. apply write_told; [|done]. change (mv_version <$> versions_of i s = seqZ 1 (Z.of_nat (length (versions_of i s)))).
      destruct Hi as [[x Hx]| ->]; [by destruct (Ht i x Hx) as (vs & v & _ & Hn & _)|].
      assert (versions_of (macro_next s) s = []) as ->; [|done]. apply filter_none, Forall_forall. intros v Hin%Hv%Hr. lia.
    + rewrite lookup_insert_ne in H by done. destruct (Ht j n H) as (vs & v & E & Hn & Hc & Hbody). exists vs, v.
      rewrite versions_pushed. replace (i =? j) with false by lia. rewrite app_nil_r. done.
  - intros j H. destruct (decide (j = i)) as [->|Hj]; [lia|]. rewrite lookup_insert_ne in H by done. specialize (Hr j H). lia.
  - intros v H. apply elem_of_app in H as [H%Hv|H%list_elem_of_singleton]; [|subst v; cbn; by rewrite lookup_insert_eq].
    destruct (decide (mv_macro v = i)) as [->|]; [by rewrite lookup_insert_eq|by rewrite lookup_insert_ne].
Qed.

(** Changing what no version keeps. *)
Lemma same_content_ok (i : Z) (m m' : Macro) (s : MacroDb) :
  history_ok s -> md_macros s !! i = Some m -> versioned m' = versioned m -> history_ok (set_macro i m' s).
Proof.
  intros [Ht Hr Hv] Hi E. split; cbn [md_macros macro_next set_macro md_versions].
  - intros j n H. destruct (decide (j = i)) as [->|Hj].
    + rewrite lookup_insert_eq in H. injection H as <-. destruct (Ht i m Hi) as (vs & v & H1 & H2 & H3 & H4). exists vs, v.
      split; [done|]. split; [done|]. split; [by rewrite E|]. by assert (mc_body m' = mc_body m) as -> by (unfold versioned in E; congruence).
    + rewrite lookup_insert_ne in H by done. exact (Ht j n H).
  - intros j H. destruct (decide (j = i)) as [->|Hj]; [apply Hr; eauto|]. rewrite lookup_insert_ne in H by done. by apply Hr.
  - intros v H%Hv. destruct (decide (mv_macro v = i)) as [->|]; [by rewrite lookup_insert_eq|by rewrite lookup_insert_ne].
Qed.

Lemma macro_fields_body (create : bool) (d : MacroData) (f : MacroFields) (body : string) :
  macro_fields create d = Ok f -> mf_body f = Some body -> validate_body body = Ok tt.
Proof.
  unfold macro_fields. intros H Hb.
  apply res_bind_ok in H as (t & _ & H). apply res_bind_ok in H as (b & Eb & H). apply res_bind_ok in H as (l & _ & H).
  apply res_bind_ok in H as (c & _ & H). apply res_bind_ok in H as (i & _ & H). apply res_bind_ok in H as (a & _ & H).
  injection H as <-. cbn in Hb. subst b. unfold each in Eb.
  match type of Eb with context [match ?x with _ => _ end] => destruct x as [raw|]; [|done] end.
  apply res_bind_ok in Eb as (b & Eb & Hb). injection Hb as ->. unfold body_of in Eb. apply res_bind_ok in Eb as (b' & _ & Eb).
  apply res_bind_ok in Eb as ([] & Ev & Eb). injection Eb as ->. by destruct (validate_body body) as [[]|].
Qed.

Lemma macro_fields_given (d : MacroData) (f : MacroFields) : macro_fields true d = Ok f -> is_Some (mf_body f).
Proof.
  unfold macro_fields. intros H. apply res_bind_ok in H as (t & _ & H). apply res_bind_ok in H as (b & Eb & H). apply res_bind_ok in H as (l & _ & H).
  apply res_bind_ok in H as (c & _ & H). apply res_bind_ok in H as (i & _ & H). apply res_bind_ok in H as (a & _ & H).
  injection H as <-. cbn. cbn [each] in Eb. apply res_bind_ok in Eb as (x & _ & [= <-]). eauto.
Qed.

Lemma edit_ok (db : AccessDb) (u : User) (i : Z) (fields : res refusal MacroFields) (s : MacroDb) :
  (forall f body, fields = Ok f -> mf_body f = Some body -> validate_body body = Ok tt) ->
  history_ok s -> history_ok (edit_macro db u i fields s).2.
Proof.
  intros Hf H. unfold edit_macro. destruct (let* _ := _ in _) as [[m f]|e] eqn:E; [|done].
  apply res_bind_ok in E as ([] & _ & E). apply res_bind_ok in E as (x & Ex & E). apply res_bind_ok in E as ([] & _ & E).
  apply res_bind_ok in E as (g & Eg & E). apply res_bind_ok in E as ([] & _ & E). injection E as -> ->.
  destruct (md_macros s !! i) as [y|] eqn:Hm; [|done]. injection Ex as ->.
  case_bool_decide; [done|]. case_bool_decide as Hv; cbn [snd]; [by apply (same_content_ok i m)|].
  unfold set_macro. replace (macro_next s) with (Z.max (macro_next s) (i + 1)).
  2: { assert (i < macro_next s) by (apply (ho_rows s H); eauto). lia. }
  apply set_macro_ok; [done|left; eauto|]. cbn [mc_body edited]. destruct (mf_body f) as [b|] eqn:Eb; [by apply (Hf f)|].
  by destruct (ho_told s H i m Hm) as (? & ? & _ & _ & _ & Hb).
Qed.

Lemma macro_step_ok (s s' : MacroDb) : macro_step s s' -> history_ok s -> history_ok s'.
Proof.
  intros [db u d t|db u i d t|db u i t|db u i version t] H.
  - unfold create_macro. destruct (let* _ := _ in _) as [f|e] eqn:E; [|done]. cbn [snd].
    apply res_bind_ok in E as ([] & _ & E). apply res_bind_ok in E as ([] & _ & E). apply res_bind_ok in E as (g & Eg & E).
    apply res_bind_ok in E as ([] & _ & E). injection E as ->. destruct (macro_fields_given d f Eg) as [b Hb].
    replace (macro_next t + 1) with (Z.max (macro_next t) (macro_next t + 1)) by lia.
    apply set_macro_ok; [done|by right|]. cbn [mc_body edited]. rewrite Hb. by apply (macro_fields_body true d f).
  - apply edit_ok; [|done]. intros f body Hf Hb. by apply (macro_fields_body false d f).
  - apply edit_ok; [|done]. by intros f body [= <-].
  - unfold restore_macro. destruct (let* _ := _ in _) as [[m old]|e] eqn:E; [|done].
    apply res_bind_ok in E as ([] & _ & E). apply res_bind_ok in E as (w & _ & E). apply res_bind_ok in E as (x & Ex & E).
    apply res_bind_ok in E as ([] & _ & E). apply res_bind_ok in E as (y & Ey & E). apply res_bind_ok in E as ([] & Ev & E). injection E as -> ->.
    destruct (md_macros t !! i) as [z|] eqn:Hm; [|done]. injection Ex as ->.
    case_bool_decide; cbn [snd]; [done|]. unfold set_macro.
    replace (macro_next t) with (Z.max (macro_next t) (i + 1)) by (assert (i < macro_next t) by (apply (ho_rows t H); eauto); lia).
    apply set_macro_ok; [done|left; eauto|]. cbn. by destruct (validate_body (mv_body old)) as [[]|].
Qed.

Lemma macro_step_grows (s s' : MacroDb) : macro_step s s' -> exists new, md_versions s' = md_versions s ++ new.
Proof.
  intros [db u d t|db u i d t|db u i t|db u i version t]; unfold create_macro, update_macro, delete_macro, edit_macro, restore_macro;
    (match goal with |- context [match (let* _ := _ in _) with _ => _ end] => destruct (let* _ := _ in _) as [?|?] eqn:E end);
    repeat match goal with x : (_ * _)%type |- _ => destruct x end; repeat case_bool_decide; cbn [snd fst];
    first [exists []; by rewrite app_nil_r | eexists; reflexivity].
Qed.

(** The history of a saved reply is complete and never rewritten: whoever creates, edits,
    deactivates and restores replies, the versions of each are numbered from 1 without a gap, the
    newest one is what the reply says now, its text has been validated, and no later action
    changes or removes a version. *)
Theorem macro_history (s s' : MacroDb) :
  rtc macro_step no_macros s -> rtc macro_step s s' ->
  (forall i m, md_macros s !! i = Some m -> told i m s) /\ exists new, md_versions s' = md_versions s ++ new.
Proof.
  intros H H'. split.
  - enough (history_ok s) as [Ht _ _] by done. assert (history_ok no_macros) as H0.
    { split; unfold no_macros; cbn [md_macros md_versions]; [intros i m E|intros i [m E]|intros v E; by apply not_elem_of_nil in E]; by rewrite lookup_empty in E. }
    clear H'. induction H as [|x y z Hxy _ IH]; [done|]. apply IH. by apply (macro_step_ok x).
  - clear H. induction H' as [|x y z Hxy _ [new IH]]; [exists []; by rewrite app_nil_r|].
    apply macro_step_grows in Hxy as [new' E]. exists (new' ++ new). by rewrite IH, E, app_assoc.
Qed.

(** ** A reply *)

Definition demo_reply_values : Values := {| va_name := " Asha Rao"; va_ticket := 12; va_trip := Some 81 |}.

Definition demo_macro (body : string) : MacroData :=
  {| ma_title := Some "Refund"; ma_body := Some body; ma_locale := None; ma_country := Some "in"; ma_issues := Some (JList [JStr "payment"]);
     ma_active := None |}.

Definition demo_hello : string := "Hi {first_name}, about trip {trip_id}:".

Lemma render_is_format_witness :
  (render demo_hello demo_reply_values).1 = "Hi Asha, about trip 81:" /\
  exists ps, parse (chars demo_hello) = Some ps /\ length ps = 3%nat /\
    chars (render demo_hello demo_reply_values).1 = flat_map (printed (value_of demo_reply_values)) ps.
Proof.
  split; [vm_compute; reflexivity|].
  destruct (render_is_format demo_hello demo_reply_values) as (ps & Hp & _ & Hr); [vm_compute; reflexivity|vm_compute; reflexivity|].
  exists ps. split; [exact Hp|]. split; [|exact Hr]. vm_compute in Hp. injection Hp as <-. reflexivity.
Defined.

Definition demo_macros : MacroDb :=
  (restore_macro demo_access (demo_user 9 true) 1 (JInt 1)
    (update_macro demo_access (demo_user 9 true) 1 (demo_macro "Sorry {first_name}")
      (create_macro demo_access (demo_user 9 true) (demo_macro demo_hello) no_macros).2).2).2.

Lemma macro_history_witness :
  (mv_version <$> md_versions demo_macros) = [1; 2; 3] /\ exists m, md_macros demo_macros !! 1 = Some m /\ mc_body m = demo_hello /\ told 1 m demo_macros.
Proof.
  split; [vm_compute; reflexivity|]. eexists. split; [vm_compute; reflexivity|]. split; [reflexivity|].
  refine (proj1 (macro_history demo_macros demo_macros _ _) 1 _ _); [|apply rtc_refl|vm_compute; reflexivity].
  eapply rtc_l; [apply (ms_create demo_access (demo_user 9 true) (demo_macro demo_hello))|].
  eapply rtc_l; [apply (ms_update demo_access (demo_user 9 true) 1 (demo_macro "Sorry {first_name}"))|]. apply rtc_once, ms_restore.
Defined.

(** Two spellings slip through [validate_body] and are not rendered as they read: a doubled brace leaves
    braces around the value, and a placeholder with an empty format spec reaches the rider raw. *)
Lemma spellings_slip_through :
  validate_body "{{first_name}}" = Ok tt /\ (render "{{first_name}}" demo_reply_values).1 = "{Asha}" /\
  validate_body "Hi {first_name:}" = Ok tt /\ render "Hi {first_name:}" demo_reply_values = ("Hi {first_name:}", []).
Proof. vm_compute. done. Qed.
