(* ===== verification/Tickets.v ===== *)
(** * Tickets: the support desk

    Models [servers/support]: a ticket with its two clocks ([sla.py], [models.py]), who sees it
    ([scope.py] and [riders_visible_to] of [servers/rider/scope.py]), what its user and the
    operators do to it ([views.py], the writes of [admin_support.py]), the hourly sweep of
    tickets that wait for an answer ([waiting.py]), the refund that comes back ([service.py]) and
    the change of the numbers of a country ([sla_change.py]).

    A handler reads the ticket once before it locks it: [seen] are the tables it read then, the
    last argument those it writes to.  Instants are microseconds.  Audit rows and [updated_at]
    are left out; the inbox is kept. *)

From Stdlib Require Import Ascii.
From S2P Require Import Prelude PyText Countries Models Json Access Alerts SafetyConfig Incidents TripConsole Macros.
#[local] Open Scope string_scope.
#[local] Open Scope list_scope.
#[local] Open Scope Z_scope.

(** ** Rows *)

Inductive ticket_status := TkOpen | TkInProgress | TkWaiting | TkClosed.
Inductive ticket_priority := Urgent | HighPriority | Normal | Low_.
Inductive author_role := ByUser | BySupport | BySystem | ByInternal.

#[global] Instance ticket_status_eq_dec : EqDecision ticket_status.
Proof. solve_decision. Defined.
#[global] Instance ticket_priority_eq_dec : EqDecision ticket_priority.
Proof. solve_decision. Defined.
#[global] Instance author_role_eq_dec : EqDecision author_role.
Proof. solve_decision. Defined.

Record Ticket := {
  tk_user : Z; tk_trip : option Z; tk_issue : string; tk_status : ticket_status; tk_description : string; tk_assigned : option Z;
  tk_created : Z; tk_resolved : option Z; tk_priority : ticket_priority; tk_country : string;
  tk_first_due : option Z; tk_due : option Z; tk_responded : option Z;
  tk_safety_flag : bool; tk_waiting : option Z; tk_paused : Z; tk_reminded : option Z; tk_returned : option (Z * string)
}.

#[global] Instance ticket_eq_dec : EqDecision Ticket.
Proof. solve_decision. Defined.

Record Message := { mg_ticket : Z; mg_author : option Z; mg_role : author_role; mg_body : string; mg_key : option string }.

Record CountryConfig := { cc_reminder_days : Z; cc_autoclose_days : Z; cc_review_hours : Z; cc_version : Z }.

#[global] Instance country_config_eq_dec : EqDecision CountryConfig.
Proof. solve_decision. Defined.

Record InboxItem := { ib_recipient : Z; ib_ticket : Z; ib_request : Z; ib_text : string }.

(** The tables; a policy is the minutes of a country and the rank of a priority. *)
Record Desk := {
  dk_tickets : gmap Z Ticket;
  ticket_next : Z;
  dk_messages : list Message;
  dk_policies : gmap (string * Z) (Z * Z);
  dk_configs : gmap string CountryConfig;
  dk_inbox : list InboxItem
}.

Definition set_ticket (i : Z) (t : Ticket) (s : Desk) : Desk :=
  {| dk_tickets := <[i := t]> (dk_tickets s); ticket_next := ticket_next s; dk_messages := dk_messages s; dk_policies := dk_policies s;
     dk_configs := dk_configs s; dk_inbox := dk_inbox s |}.

Definition push_message (m : Message) (s : Desk) : Desk :=
  {| dk_tickets := dk_tickets s; ticket_next := ticket_next s; dk_messages := dk_messages s ++ [m]; dk_policies := dk_policies s;
     dk_configs := dk_configs s; dk_inbox := dk_inbox s |}.

Definition push_inbox (x : InboxItem) (s : Desk) : Desk :=
  {| dk_tickets := dk_tickets s; ticket_next := ticket_next s; dk_messages := dk_messages s; dk_policies := dk_policies s;
     dk_configs := dk_configs s; dk_inbox := dk_inbox s ++ [x] |}.

(** ** Writing a column of a ticket *)

Definition with_ticket_status (st : ticket_status) (t : Ticket) : Ticket :=
  {| tk_user := tk_user t; tk_trip := tk_trip t; tk_issue := tk_issue t; tk_status := st; tk_description := tk_description t;
     tk_assigned := tk_assigned t; tk_created := tk_created t; tk_resolved := tk_resolved t; tk_priority := tk_priority t;
     tk_country := tk_country t; tk_first_due := tk_first_due t; tk_due := tk_due t; tk_responded := tk_responded t;
     tk_safety_flag := tk_safety_flag t; tk_waiting := tk_waiting t; tk_paused := tk_paused t; tk_reminded := tk_reminded t;
     tk_returned := tk_returned t |}.

Definition with_resolved (at_ : option Z) (t : Ticket) : Ticket :=
  {| tk_user := tk_user t; tk_trip := tk_trip t; tk_issue := tk_issue t; tk_status := tk_status t;
     tk_description := tk_description t; tk_assigned := tk_assigned t; tk_created := tk_created t; tk_resolved := at_;
     tk_priority := tk_priority t; tk_country := tk_country t; tk_first_due := tk_first_due t; tk_due := tk_due t;
     tk_responded := tk_responded t; tk_safety_flag := tk_safety_flag t; tk_waiting := tk_waiting t; tk_paused := tk_paused t;
     tk_reminded := tk_reminded t; tk_returned := tk_returned t |}.

Definition with_dues (first due : option Z) (t : Ticket) : Ticket :=
  {| tk_user := tk_user t; tk_trip := tk_trip t; tk_issue := tk_issue t; tk_status := tk_status t;
     tk_description := tk_description t; tk_assigned := tk_assigned t; tk_created := tk_created t;
     tk_resolved := tk_resolved t; tk_priority := tk_priority t; tk_country := tk_country t; tk_first_due := first;
     tk_due := due; tk_responded := tk_responded t; tk_safety_flag := tk_safety_flag t; tk_waiting := tk_waiting t;
     tk_paused := tk_paused t; tk_reminded := tk_reminded t; tk_returned := tk_returned t |}.

Definition with_pause (paused : Z) (due waiting : option Z) (t : Ticket) : Ticket :=
  {| tk_user := tk_user t; tk_trip := tk_trip t; tk_issue := tk_issue t; tk_status := tk_status t;
     tk_description := tk_description t; tk_assigned := tk_assigned t; tk_created := tk_created t;
     tk_resolved := tk_resolved t; tk_priority := tk_priority t; tk_country := tk_country t; tk_first_due := tk_first_due t;
     tk_due := due; tk_responded := tk_responded t; tk_safety_flag := tk_safety_flag t; tk_waiting := waiting;
     tk_paused := paused; tk_reminded := tk_reminded t; tk_returned := tk_returned t |}.

Definition with_priority (p : ticket_priority) (t : Ticket) : Ticket :=
  {| tk_user := tk_user t; tk_trip := tk_trip t; tk_issue := tk_issue t; tk_status := tk_status t;
     tk_description := tk_description t; tk_assigned := tk_assigned t; tk_created := tk_created t;
     tk_resolved := tk_resolved t; tk_priority := p; tk_country := tk_country t; tk_first_due := tk_first_due t;
     tk_due := tk_due t; tk_responded := tk_responded t; tk_safety_flag := tk_safety_flag t; tk_waiting := tk_waiting t;
     tk_paused := tk_paused t; tk_reminded := tk_reminded t; tk_returned := tk_returned t |}.

Definition with_issue (issue : string) (t : Ticket) : Ticket :=
  {| tk_user := tk_user t; tk_trip := tk_trip t; tk_issue := issue; tk_status := tk_status t; tk_description := tk_description t;
     tk_assigned := tk_assigned t; tk_created := tk_created t; tk_resolved := tk_resolved t; tk_priority := tk_priority t;
     tk_country := tk_country t; tk_first_due := tk_first_due t; tk_due := tk_due t; tk_responded := tk_responded t;
     tk_safety_flag := tk_safety_flag t; tk_waiting := tk_waiting t; tk_paused := tk_paused t; tk_reminded := tk_reminded t;
     tk_returned := tk_returned t |}.

Definition with_assignee (who : option Z) (t : Ticket) : Ticket :=
  {| tk_user := tk_user t; tk_trip := tk_trip t; tk_issue := tk_issue t; tk_status := tk_status t;
     tk_description := tk_description t; tk_assigned := who; tk_created := tk_created t; tk_resolved := tk_resolved t;
     tk_priority := tk_priority t; tk_country := tk_country t; tk_first_due := tk_first_due t; tk_due := tk_due t;
     tk_responded := tk_responded t; tk_safety_flag := tk_safety_flag t; tk_waiting := tk_waiting t; tk_paused := tk_paused t;
     tk_reminded := tk_reminded t; tk_returned := tk_returned t |}.

Definition with_responded (at_ : Z) (t : Ticket) : Ticket :=
  {| tk_user := tk_user t; tk_trip := tk_trip t; tk_issue := tk_issue t; tk_status := tk_status t;
     tk_description := tk_description t; tk_assigned := tk_assigned t; tk_created := tk_created t;
     tk_resolved := tk_resolved t; tk_priority := tk_priority t; tk_country := tk_country t; tk_first_due := tk_first_due t;
     tk_due := tk_due t; tk_responded := Some at_; tk_safety_flag := tk_safety_flag t; tk_waiting := tk_waiting t;
     tk_paused := tk_paused t; tk_reminded := tk_reminded t; tk_returned := tk_returned t |}.

Definition with_reminded (at_ : Z) (t : Ticket) : Ticket :=
  {| tk_user := tk_user t; tk_trip := tk_trip t; tk_issue := tk_issue t; tk_status := tk_status t;
     tk_description := tk_description t; tk_assigned := tk_assigned t; tk_created := tk_created t;
     tk_resolved := tk_resolved t; tk_priority := tk_priority t; tk_country := tk_country t; tk_first_due := tk_first_due t;
     tk_due := tk_due t; tk_responded := tk_responded t; tk_safety_flag := tk_safety_flag t; tk_waiting := tk_waiting t;
     tk_paused := tk_paused t; tk_reminded := Some at_; tk_returned := tk_returned t |}.

Definition with_returned (x : option (Z * string)) (t : Ticket) : Ticket :=
  {| tk_user := tk_user t; tk_trip := tk_trip t; tk_issue := tk_issue t; tk_status := tk_status t;
     tk_description := tk_description t; tk_assigned := tk_assigned t; tk_created := tk_created t;
     tk_resolved := tk_resolved t; tk_priority := tk_priority t; tk_country := tk_country t; tk_first_due := tk_first_due t;
     tk_due := tk_due t; tk_responded := tk_responded t; tk_safety_flag := tk_safety_flag t; tk_waiting := tk_waiting t;
     tk_paused := tk_paused t; tk_reminded := tk_reminded t; tk_returned := x |}.

(** ** The clocks ([sla.py]) *)

Definition PRIORITY_RANK (p : ticket_priority) : Z := match p with Urgent => 0 | HighPriority => 1 | Normal => 2 | Low_ => 3 end.

Definition DEFAULT_MINUTES (p : ticket_priority) : Z * Z :=
  match p with Urgent => (15, 240) | HighPriority => (60, 1440) | Normal => (240, 2880) | Low_ => (1440, 4320) end.

Definition DUE_SOON_MINUTES : Z := 60.
Definition DAY : Z := 1440 * MINUTE.

Definition policy_minutes (country : string) (p : ticket_priority) (s : Desk) : Z * Z :=
  default (DEFAULT_MINUTES p) (dk_policies s !! (country, PRIORITY_RANK p)).

Definition apply_due_times (s : Desk) (t : Ticket) : Ticket :=
  let '(first, resolution) := policy_minutes (tk_country t) (tk_priority t) s in
  with_dues (Some (tk_created t + first * MINUTE)) (Some (tk_created t + resolution * MINUTE + tk_paused t * SECOND)) t.

Definition is_safety (t : Ticket) : bool := tk_safety_flag t || bool_decide (tk_issue t = "safety").

(** The whole seconds a wait lasted. *)
Definition waited (since now : Z) : Z := Z.max 0 (Z.quot (now - since) SECOND).

(** Leaving the wait: the pause is added, and the due time moves out by it. *)
Definition resumed (now since : Z) (t : Ticket) : Ticket :=
  with_pause (tk_paused t + waited since now) ((fun due => due + waited since now * SECOND) <$> tk_due t) None t.

Definition enter_status (st : ticket_status) (now : Z) (t : Ticket) : Ticket :=
  let t1 := match tk_waiting t with
    | Some since => if bool_decide (tk_status t = TkWaiting) && negb (bool_decide (st = TkWaiting)) then resumed now since t else t
    | None => t
    end in
  let t2 := if bool_decide (st = TkWaiting) && negb (bool_decide (tk_status t = TkWaiting)) && negb (is_safety t)
            then with_pause (tk_paused t1) (tk_due t1) (Some now) t1 else t1 in
  with_ticket_status st t2.

Definition is_paused (t : Ticket) : bool :=
  bool_decide (tk_status t = TkWaiting) && bool_decide (is_Some (tk_waiting t)) && negb (is_safety t).

(** [refund_review_sentence] *)
Definition refund_review_sentence (country : string) (s : Desk) : string :=
  let base := "We're reviewing your refund request." in
  match (if bool_decide (country = EmptyString) then None else dk_configs s !! country) with
  | None => base
  | Some c =>
    let hours := cc_review_hours c in
    if hours =? 0 then base
    else base +:+ " You'll hear from us within " +:+
      (if 48 <=? hours then number (- ((- hours) / 24)) +:+ " days" else number hours +:+ " hour" +:+ (if hours =? 1 then EmptyString else "s")) +:+ "."
  end.

(** [derive_country] *)
Definition derive_country (env : SafetyEnv) (user : Z) (trip : option Z) : string :=
  let t := trip_of env trip in
  let by_trip := match (t ← t; trip_zone t) with
    | Some z => let code := country_of_node (node_of env (trip_node t)) in if bool_decide (code = EmptyString) then upper (zone_country z) else code
    | None => EmptyString
    end in
  if negb (bool_decide (by_trip = EmptyString)) then by_trip
  else match se_driver_of env user with
  | Some d => country_of_node (node_of env (se_home_city env d))
  | None =>
    let home := if se_is_rider env user then country_of_node (node_of env (se_rider_home env user)) else EmptyString in
    if negb (bool_decide (home = EmptyString)) then home
    else from_option country_code EmptyString (country_of_phone (chars <$> se_phone env user))
  end.

(** One clock of [sla_state]. *)
Record Clock := { ck_due : option Z; ck_done : option Z; ck_breached : bool; ck_left : option Z }.

Definition minutes_between (later earlier : Z) : Z := (later - earlier) / MINUTE.

Definition clock (due done_at : option Z) (now : Z) : Clock :=
  match due, done_at with
  | None, _ => {| ck_due := None; ck_done := done_at; ck_breached := false; ck_left := None |}
  | Some d, Some e => {| ck_due := due; ck_done := done_at; ck_breached := d <? e; ck_left := None |}
  | Some d, None => {| ck_due := due; ck_done := None; ck_breached := d <? now; ck_left := Some (minutes_between d now) |}
  end.

Inductive sla_word := SlaClosed | SlaBreached | SlaPaused | SlaDueSoon | SlaOk.
Inductive clock_name := FirstResponse | Resolution.

#[global] Instance sla_word_eq_dec : EqDecision sla_word.
Proof. solve_decision. Defined.

Record SlaState := { ss_state : sla_word; ss_next : option clock_name; ss_left : option Z; ss_paused : bool; ss_first : Clock; ss_resolution : Clock }.

Definition sla_state (t : Ticket) (now : Z) : SlaState :=
  let closed := bool_decide (tk_status t = TkClosed) in
  let paused := negb closed && is_paused t in
  let first := clock (tk_first_due t) (tk_responded t) now in
  let resolution := clock (tk_due t) (if closed then tk_resolved t else None) now in
  let resolution := match paused, ck_due resolution, tk_waiting t with
    | true, Some d, Some since => {| ck_due := Some d; ck_done := None; ck_breached := false; ck_left := Some (minutes_between d since) |}
    | _, _, _ => resolution
    end in
  let running (c : Clock) := bool_decide (is_Some (ck_due c)) && bool_decide (ck_done c = None) in
  let open_clocks := (if running first then [(FirstResponse, first)] else []) ++
                     (if running resolution && negb paused then [(Resolution, resolution)] else []) in
  let earlier (a b : clock_name * Clock) := match ck_due a.2, ck_due b.2 with Some x, Some y => x <? y | _, _ => false end in
  let head := best_by earlier open_clocks in
  let left_ := p ← head; ck_left p.2 in
  let word :=
    if closed then SlaClosed
    else let w := if existsb (fun p => ck_breached p.2) open_clocks then SlaBreached
                  else if from_option (fun m => m <=? DUE_SOON_MINUTES) false left_ then SlaDueSoon else SlaOk in
      if paused && bool_decide (w = SlaOk) then SlaPaused else w in
  let rest := paused && bool_decide (word = SlaPaused) && bool_decide (head = None) in
  {| ss_state := word;
     ss_next := if closed then None else if rest then Some Resolution else fst <$> head;
     ss_left := if closed then None else if rest then ck_left resolution else left_;
     ss_paused := paused; ss_first := first; ss_resolution := resolution |}.

#[global] Instance clock_name_eq_dec : EqDecision clock_name.
Proof. solve_decision. Defined.

(** ** Who sees a ticket ([scope.py], [servers/rider/scope.py]) *)

(** What the desk reads of other parts: [sp_name] the full name of an account. *)
Record DeskEnv := { sp_env : SafetyEnv; sp_name : Z -> string; sp_macros : MacroDb }.

(** [_country_phone_q]: is the number one of a country that relates to the paths? *)
Definition country_phone (db : AccessDb) (paths : list string) (phone : option string) : bool :=
  match phone with
  | None => false
  | Some p =>
    existsb (fun n => match List.find (fun c => bool_decide (country_code c = g_code n)) COUNTRIES with
      | Some c =>
        bool_decide (g_kind n = KCountry) && existsb (fun path => related (g_path n) path) paths &&
        String.prefix ("+" +:+ calling_code c) p &&
        bool_decide (Z.of_nat (String.length p) ∈ Z.add 1 <$> e164_length c)
      | None => false
      end) (snd <$> map_to_list (nodes db))
  end.

Definition within (paths : list string) (node : option GeoRow) : bool :=
  match node with Some n => existsb (fun p => String.prefix p (g_path n)) paths | None => false end.

(** The places of a rider's trips since the window. *)
Definition recent_places (env : SafetyEnv) (rider : Z) : list Z :=
  omap (fun p : Z * Trip => if (trip_rider p.2 =? rider) && (se_trip_window env <=? trip_requested_at p.2) then trip_node (Some p.2) else None)
    (map_to_list (se_trips env)).

(** [riders_visible_to] for one rider, under the paths of the caller. *)
Definition rider_within (env : SafetyEnv) (paths : list string) (rider : Z) : bool :=
  let recent := recent_places env rider in
  existsb (fun i => within paths (nodes (se_access env) !! i)) recent ||
  within paths (node_of env (se_rider_home env rider)) ||
  (bool_decide (recent = []) && bool_decide (se_rider_home env rider = None) && country_phone (se_access env) paths (se_phone env rider)).

(** [tickets_visible_to] for one ticket. *)
Definition sees_ticket (env : SafetyEnv) (u : User) (node : option GeoRow) (t : Ticket) : bool :=
  match paths_of (se_access env) u node with
  | None => true
  | Some [] => false
  | Some paths =>
    match trip_node (trip_of env (tk_trip t)) with
    | Some i => within paths (nodes (se_access env) !! i)
    | None =>
      match se_driver_of env (tk_user t) with
      | Some d => within paths (node_of env (se_home_city env d))
      | None => se_is_rider env (tk_user t) && rider_within env paths (tk_user t)
      end
    end
  end.

(** [ticket_rider]: is the ticket placed by its rider? *)
Definition placed_by_rider (env : SafetyEnv) (t : Ticket) : bool :=
  bool_decide (trip_node (trip_of env (tk_trip t)) = None) && bool_decide (se_driver_of env (tk_user t) = None) && se_is_rider env (tk_user t).

Definition ticket_node (env : SafetyEnv) (t : Ticket) : option GeoRow :=
  match trip_node (trip_of env (tk_trip t)) with
  | Some i => nodes (se_access env) !! i
  | None => d ← se_driver_of env (tk_user t); node_of env (se_home_city env d)
  end.

(** The loop of [rider_may]. *)
Fixpoint may_at (db : AccessDb) (u : User) (permission : string) (anchors : list GeoRow) : bool :=
  match anchors with
  | [] => false
  | n :: r =>
    if negb (bool_decide (g_kind n = KCountry)) then holds db u permission (Some n) || may_at db u permission r
    else if u_superuser u then holds db u permission (Some n)
    else if negb (strict_mode db) && negb (is_migrated db u) then holds db u permission None || may_at db u permission r
    else existsb (fun a => bool_decide (permission ∈ r_permissions a.1) && related (g_path n) (g_path a.2)) (active_assignments db u) ||
         may_at db u permission r
  end.

Definition rider_may (env : SafetyEnv) (u : User) (permission : string) (rider : Z) : bool :=
  match anchor_nodes env rider with
  | [] => unrestricted (se_access env) u && holds (se_access env) u permission None
  | anchors => may_at (se_access env) u permission (snd <$> anchors)
  end.

Definition ticket_may (env : SafetyEnv) (u : User) (permission : string) (t : Ticket) : bool :=
  if placed_by_rider env t then rider_may env u permission (tk_user t)
  else match ticket_node env t with
       | None => unrestricted (se_access env) u && holds (se_access env) u permission None
       | Some n => holds (se_access env) u permission (Some n)
       end.

(** [_ticket_for], behind the permission class. *)
Definition ticket_for (env : SafetyEnv) (u : User) (i : Z) (permission : string) (seen : Desk) : res refusal Ticket :=
  let* _ := require (holds (se_access env) u permission None) Denied in
  let* t := res_opt NotFound (dk_tickets seen !! i) in
  let* _ := require (sees_ticket env u None t) NotFound in
  let* _ := require (ticket_may env u permission t) Denied in
  Ok t.

(** ** The queue ([admin_support.py]) *)

Definition ticket_open (t : Ticket) : bool := bool_decide (tk_status t ∈ [TkOpen; TkInProgress; TkWaiting]).

Definition past_due (due : option Z) (now : Z) : bool := from_option (fun d => d <? now) false due.

Definition breached_q (now : Z) (t : Ticket) : bool :=
  ticket_open t && ((bool_decide (tk_responded t = None) && past_due (tk_first_due t) now) ||
                (past_due (tk_due t) now && bool_decide (tk_waiting t = None))).

Definition due_soon_q (now : Z) (t : Ticket) : bool :=
  let soon (due : option Z) := from_option (fun d => d <=? now + DUE_SOON_MINUTES * MINUTE) false due in
  ticket_open t && negb (breached_q now t) &&
  ((bool_decide (tk_responded t = None) && soon (tk_first_due t)) || (soon (tk_due t) && bool_decide (tk_waiting t = None))).

Record QueueCounts := { qc_mine : nat; qc_unassigned : nat; qc_breaching : nat; qc_open : nat; qc_closed : nat; qc_returned : nat }.

Definition queue_counts (env : SafetyEnv) (u : User) (node : option GeoRow) (now : Z) (s : Desk) : QueueCounts :=
  let base := List.filter (sees_ticket env u node) (snd <$> map_to_list (dk_tickets s)) in
  let count (p : Ticket -> bool) := length (List.filter p base) in
  {| qc_mine := count (fun t => ticket_open t && bool_decide (tk_assigned t = Some (uid u)));
     qc_unassigned := count (fun t => ticket_open t && bool_decide (tk_assigned t = None));
     qc_breaching := count (breached_q now);
     qc_open := count ticket_open;
     qc_closed := count (fun t => bool_decide (tk_status t = TkClosed));
     qc_returned := count (fun t => ticket_open t && bool_decide (tk_assigned t = Some (uid u)) && bool_decide (is_Some (tk_returned t))) |}.

(** ** Messages ([service.py]) *)

Definition keyed_by (key : string) (m : Message) : bool := bool_decide (mg_key m = Some key).

(** Once for a key; a ticket that is gone gets none. *)
Definition post_once (i : Z) (author : option Z) (role : author_role) (body key : string) (s : Desk) : Desk :=
  if negb (bool_decide (is_Some (dk_tickets s !! i))) || existsb (keyed_by key) (dk_messages s) then s
  else push_message {| mg_ticket := i; mg_author := author; mg_role := role; mg_body := body; mg_key := Some key |} s.

Definition post_system_message (i : Z) (body key : string) (s : Desk) : Desk :=
  post_once i None BySystem body ("system:" +:+ number i +:+ ":" +:+ key) s.

Definition post_internal_note (i : Z) (body key : string) (author : option Z) (s : Desk) : Desk :=
  post_once i author ByInternal body ("internal:" +:+ number i +:+ ":" +:+ key) s.

(** What the manager of user-visible messages returns. *)
Definition visible_messages (i : Z) (s : Desk) : list Message :=
  List.filter (fun m => (mg_ticket m =? i) && negb (bool_decide (mg_role m = ByInternal))) (dk_messages s).

(** ** The user's side ([views.py]) *)

(** [SupportTicket.save] of a new row, and its due times. *)
Definition new_ticket (env : SafetyEnv) (user : Z) (trip : option Z) (issue description : string) (now : Z) (s : Desk) : Ticket :=
  let safety := bool_decide (issue = "safety") in
  apply_due_times s
    {| tk_user := user; tk_trip := trip; tk_issue := issue; tk_status := TkOpen; tk_description := description; tk_assigned := None;
       tk_created := now; tk_resolved := None; tk_priority := if safety then Urgent else Normal;
       tk_country := derive_country env user trip; tk_first_due := None; tk_due := None; tk_responded := None;
       tk_safety_flag := safety; tk_waiting := None; tk_paused := 0; tk_reminded := None; tk_returned := None |}.

(** [create_ticket].  The issue type is not compared with the choices; its column holds 100
    characters. *)
Definition create_ticket (env : SafetyEnv) (user : Z) (issue description : option string) (trip : option Z) (now : Z) (s : Desk)
    : res refusal Z * Desk :=
  let type := strip (if truthy issue then default EmptyString issue else "other") in
  let text := strip (default EmptyString description) in
  let trip := t ← trip; if t =? 0 then None else Some t in
  match (let* _ := require (negb (bool_decide (text = EmptyString))) (BadInput "MISSING_FIELDS") in
         let* _ := require (match trip with Some t => match se_trips env !! t with Some x => trip_rider x =? user | None => false end | None => true end) NotFound in
         require (String.length type <=? 100)%nat (BadInput "DATA_ERROR")) with
  | Err e => (Err e, s)
  | Ok _ =>
    let i := ticket_next s in
    (Ok i, push_message {| mg_ticket := i; mg_author := Some user; mg_role := ByUser; mg_body := text; mg_key := None |}
      {| dk_tickets := <[i := new_ticket env user trip type text now s]> (dk_tickets s); ticket_next := i + 1; dk_messages := dk_messages s;
         dk_policies := dk_policies s; dk_configs := dk_configs s; dk_inbox := dk_inbox s |})
  end.

Definition own_ticket (user i : Z) (seen : Desk) : res refusal Ticket :=
  res_opt NotFound (t ← dk_tickets seen !! i; if tk_user t =? user then Some t else None).

(** [add_user_message] *)
Definition add_user_message (user i : Z) (body : option string) (seen : Desk) (now : Z) (s : Desk) : res refusal unit * Desk :=
  let text := strip (default EmptyString body) in
  match (let* _ := require (negb (bool_decide (text = EmptyString))) (BadInput "MISSING_FIELDS") in
         let* t := own_ticket user i seen in
         let* _ := require (negb (bool_decide (tk_status t = TkClosed))) (BadInput "INVALID_STATE") in Ok t) with
  | Err e => (Err e, s)
  | Ok t =>
    let s := push_message {| mg_ticket := i; mg_author := Some user; mg_role := ByUser; mg_body := text; mg_key := None |} s in
    (Ok tt,
     if bool_decide (tk_status t = TkWaiting)
     then match dk_tickets s !! i with
          | Some x => if bool_decide (tk_status x = TkWaiting) then set_ticket i (enter_status TkInProgress now x) s else s
          | None => s
          end
     else s)
  end.

(** [close_my_ticket]: the columns it changed on the row it read are written to the row of now. *)
Definition close_my_ticket (user i : Z) (seen : Desk) (now : Z) (s : Desk) : res refusal bool * Desk :=
  match own_ticket user i seen with
  | Err e => (Err e, s)
  | Ok t =>
    if bool_decide (tk_status t = TkClosed) then (Ok false, s)
    else match dk_tickets s !! i with
         | None => (Err NotFound, s)
         | Some x =>
           let t' := enter_status TkClosed now t in
           let x := if bool_decide (tk_status t = TkWaiting) && bool_decide (is_Some (tk_waiting t))
                    then with_pause (tk_paused t') (tk_due t') (tk_waiting t') x else x in
           (Ok true, set_ticket i (with_resolved (Some now) (with_ticket_status TkClosed x)) s)
         end
  end.

(** ** The operators' side ([admin_support.py]) *)

(** [_set_status] *)
Definition set_status (st : ticket_status) (now : Z) (t : Ticket) : Ticket :=
  let t := enter_status st now t in
  if bool_decide (st = TkClosed)
  then with_returned None (with_resolved (Some (default now (tk_resolved t))) t)
  else with_resolved None t.

(** [_clear_returned] *)
Definition clear_returned (t : Ticket) : Ticket := with_returned None t.

(** [_new_status] *)
Definition STATUSES : list (string * ticket_status) :=
  [("OPEN", TkOpen); ("IN_PROGRESS", TkInProgress); ("WAITING_USER", TkWaiting); ("CLOSED", TkClosed)].

Definition new_status (raw : option string) : res refusal (option ticket_status) :=
  if truthy raw
  then let* st := res_opt (BadInput "INVALID_STATUS") (table_get STATUSES (upper (strip (default EmptyString raw)))) in Ok (Some st)
  else Ok None.

Record ReplyBody := { rb_status : option string; rb_header : option string; rb_key : option string; rb_macro : option Z; rb_body : option string }.

(** What [admin_reply] works out before it writes: the text, the status asked for and the key. *)
Definition reply_of (env : DeskEnv) (u : User) (i : Z) (b : ReplyBody) (seen : Desk) : res refusal (Ticket * string * option ticket_status * option string) :=
  let* t := ticket_for (sp_env env) u i "support.reply" seen in
  let* st := new_status (rb_status b) in
  let* key := idempotency_key false (rb_header b) (rb_key b) in
  let* m := match rb_macro b with
    | Some k => let* m := macro_for (tk_country t) (tk_issue t) k (sp_macros env) in Ok (Some m)
    | None => Ok None
    end in
  let* body := text_of "body" (bool_decide (m = None)) MAX_NOTE (rb_body b) in
  let body := match m with
    | Some m => if bool_decide (body = EmptyString)
                then (render (mc_body m) {| va_name := sp_name env (tk_user t); va_ticket := i; va_trip := tk_trip t |}).1 else body
    | None => body
    end in
  let* _ := require (negb (bool_decide (body = EmptyString))) (BadInput "BODY_REQUIRED") in
  Ok (t, body, st, if bool_decide (key = EmptyString) then None else Some ("reply:" +:+ number i +:+ ":" +:+ key)).

Definition keyed (key : option string) (s : Desk) : bool := from_option (fun k => existsb (keyed_by k) (dk_messages s)) false key.

(** The ticket after a reply. *)
Definition replied (st : option ticket_status) (now : Z) (t : Ticket) : Ticket :=
  let t := if bool_decide (tk_responded t = None) then with_responded now t else t in
  clear_returned (match st with
    | Some st => set_status st now t
    | None => if bool_decide (tk_status t = TkOpen) then set_status TkInProgress now t else t
    end).

(** [admin_reply]: was the message written?  A key that is taken by the time of the write undoes it. *)
Definition admin_reply (env : DeskEnv) (u : User) (i : Z) (b : ReplyBody) (seen : Desk) (now : Z) (s : Desk) : res refusal bool * Desk :=
  match reply_of env u i b seen with
  | Err e => (Err e, s)
  | Ok (t, body, st, key) =>
    if keyed key seen then (Ok false, s)
    else if bool_decide (tk_status t = TkClosed) && bool_decide (st ∈ [None; Some TkClosed]) then (Err (Conflict "TICKET_CLOSED"), s)
    else match dk_tickets s !! i with
         | None => (Err NotFound, s)
         | Some x =>
           if keyed key s then (Ok false, s)
           else (Ok true, set_ticket i (replied st now x)
                            (push_message {| mg_ticket := i; mg_author := Some (uid u); mg_role := BySupport; mg_body := body; mg_key := key |} s))
         end
  end.

(** [admin_note] *)
Definition admin_note (env : SafetyEnv) (u : User) (i : Z) (body header key : option string) (seen s : Desk) : res refusal bool * Desk :=
  match (let* _ := ticket_for env u i "support.reply" seen in
         let* text := text_of "body" true MAX_NOTE body in
         let* k := idempotency_key false header key in
         Ok (text, if bool_decide (k = EmptyString) then None else Some ("note:" +:+ number i +:+ ":" +:+ k))) with
  | Err e => (Err e, s)
  | Ok (text, k) =>
    if keyed k seen || keyed k s then (Ok false, s)
    else (Ok true, push_message {| mg_ticket := i; mg_author := Some (uid u); mg_role := ByInternal; mg_body := text; mg_key := k |} s)
  end.

(** [_change]: lock, compare, write once. *)
Definition change_ticket (i : Z) (reason : option string) (apply : Ticket -> option Ticket) (s : Desk) : res refusal bool * Desk :=
  match text_of "reason" false 2000 reason with
  | Err e => (Err e, s)
  | Ok _ =>
    match dk_tickets s !! i with
    | None => (Err NotFound, s)
    | Some t => match apply t with None => (Ok false, s) | Some t' => (Ok true, set_ticket i t' s) end
    end
  end.

(** A handler that checks first and then changes the ticket. *)
Definition checked {A : Type} (i : Z) (reason : option string) (checks : res refusal A) (apply : A -> Ticket -> option Ticket) (s : Desk)
    : res refusal bool * Desk :=
  match checks with Err e => (Err e, s) | Ok a => change_ticket i reason (apply a) s end.

Definition unless {A : Type} (same : bool) (a : A) : option A := if same then None else Some a.

Definition admin_set_status (env : SafetyEnv) (u : User) (i : Z) (status reason : option string) (seen : Desk) (now : Z) (s : Desk)
    : res refusal bool * Desk :=
  checked i reason
    (let* _ := require (holds (se_access env) u "support.reply" None) Denied in
     let* wanted := new_status status in
     let* wanted := res_opt (BadInput "STATUS_REQUIRED") wanted in
     let* _ := ticket_for env u i "support.reply" seen in Ok wanted)
    (fun wanted t => unless (bool_decide (tk_status t = wanted)) (set_status wanted now t)) s.

Definition PRIORITIES : list (string * ticket_priority) := [("urgent", Urgent); ("high", HighPriority); ("normal", Normal); ("low", Low_)].

Definition admin_set_priority (env : SafetyEnv) (u : User) (i : Z) (priority reason : option string) (seen s : Desk) : res refusal bool * Desk :=
  checked i reason
    (let* _ := require (holds (se_access env) u "support.reply" None) Denied in
     let* wanted := res_opt (BadInput "INVALID_PRIORITY") (table_get PRIORITIES (lower (strip (default EmptyString priority)))) in
     let* _ := ticket_for env u i "support.reply" seen in Ok wanted)
    (fun wanted t => unless (bool_decide (tk_priority t = wanted)) (apply_due_times s (with_priority wanted t))) s.

Definition admin_set_category (env : SafetyEnv) (u : User) (i : Z) (issue reason : option string) (seen s : Desk) : res refusal bool * Desk :=
  checked i reason
    (let* _ := require (holds (se_access env) u "support.reply" None) Denied in
     let wanted := strip (default EmptyString issue) in
     let* _ := require (bool_decide (wanted ∈ ISSUES)) (BadInput "INVALID_ISSUE_TYPE") in
     let* _ := ticket_for env u i "support.reply" seen in Ok wanted)
    (fun wanted t => unless (bool_decide (tk_issue t = wanted)) (with_issue wanted t)) s.

Definition eligible_assignee (env : SafetyEnv) (candidate : option User) (t : Ticket) : bool :=
  match candidate with
  | Some u => u_active u && is_operator (Some u) && negb (u_break_glass u) && ticket_may env u "support.reply" t
  | None => false
  end.

Definition admin_assign (env : SafetyEnv) (u : User) (i : Z) (target : assignee_target) (reason : option string) (seen s : Desk)
    : res refusal bool * Desk :=
  checked i reason
    (let* t := ticket_for env u i "support.reply" seen in
     match target with
     | Nobody => Ok None
     | Me => let* _ := require (eligible_assignee env (Some u) t) (BadInput "ASSIGNEE_NOT_ELIGIBLE") in Ok (Some (uid u))
     | Person k =>
       let who := users (se_access env) !! k in
       let* _ := require (eligible_assignee env who t) (BadInput "ASSIGNEE_NOT_ELIGIBLE") in Ok (uid <$> who)
     end)
    (fun who t => unless (bool_decide (tk_assigned t = who)) (clear_returned (with_assignee who t))) s.

(** ** A refund that was turned down ([service.py]) *)

Inductive refund_outcome := RefundRejected | RefundCancelled | RefundExpired.

#[global] Instance refund_outcome_eq_dec : EqDecision refund_outcome.
Proof. solve_decision. Defined.

(** The columns of the approval request it reads. *)
Record TurnedDown := {
  td_id : Z; td_ticket : option Z; td_maker : Z; td_checker : option Z; td_reason : option string; td_amount : option Z; td_currency : string
}.

Definition outcome_word (o : refund_outcome) : string :=
  match o with RefundRejected => "rejected" | RefundCancelled => "withdrawn" | RefundExpired => "expired" end.

Definition outcome_code (o : refund_outcome) : string :=
  match o with RefundRejected => "rejected" | RefundCancelled => "cancelled" | RefundExpired => "expired" end.

Definition why_returned (r : TurnedDown) (o : refund_outcome) : string :=
  if bool_decide (o = RefundExpired) then "It expired before a checker acted."
  else let why := strip (default EmptyString (td_reason r)) in if bool_decide (why = EmptyString) then "No reason was given." else why.

(** The ticket back with the agent who asked. *)
Definition returned (maker : option Z) (why : string) (now : Z) (t : Ticket) : Ticket :=
  let t := with_resolved None (enter_status TkInProgress now (with_returned (Some (now, truncated 2000 why)) t)) in
  match maker with Some m => with_assignee (Some m) t | None => t end.

Definition return_refund_to_agent (env : SafetyEnv) (r : TurnedDown) (o : refund_outcome) (now : Z) (s : Desk) : Desk :=
  match (i ← td_ticket r; if i =? 0 then None else Some i) with
  | None => s
  | Some i =>
    match dk_tickets s !! i with
    | None => s
    | Some t =>
      let known k := match users (se_access env) !! k with Some u => if u_active u then Some (uid u) else None | None => None end in
      let maker := known (td_maker r) in
      let checker := k ← td_checker r; uid <$> users (se_access env) !! k in
      let why := why_returned r o in
      let shown := match td_amount r with Some n => number n +:+ " " +:+ td_currency r +:+ " (minor units)" | None => "a refund" end in
      let note := "Refund request #" +:+ number (td_id r) +:+ " for " +:+ shown +:+ " was " +:+ outcome_word o +:+ ". " +:+ why +:+
                  " The ticket is back with you." in
      let s := post_internal_note i note ("returned:" +:+ number (td_id r) +:+ ":" +:+ outcome_code o)
                 (if bool_decide (o = RefundRejected) then checker else None) s in
      let s := set_ticket i (returned maker why now t) s in
      match maker with
      | Some m =>
        if existsb (fun x => (ib_recipient x =? m) && (ib_ticket x =? i) && (ib_request x =? td_id r)) (dk_inbox s) then s
        else push_inbox {| ib_recipient := m; ib_ticket := i; ib_request := td_id r;
               ib_text := "Ticket #" +:+ number i +:+ " came back: your refund request was " +:+ outcome_word o +:+ ". " +:+ why |} s
      | None => s
      end
    end
  end.

(** ** The sweep of waiting tickets ([waiting.py]) *)

Definition REMINDER_TEXT : string :=
  "We're still waiting to hear from you about this request. Reply here when you can and we'll pick it back up.".
Definition AUTOCLOSE_TEXT : string :=
  "We haven't heard back, so we've closed this request. If you still need help, reply here or open a new one.".

(** [_remind]; [since] is [waiting_since] of the row the sweep read, an instant in the key is written as its number. *)
Definition remind (i since now : Z) (s : Desk) : bool * Desk :=
  match dk_tickets s !! i with
  | None => (false, s)
  | Some t =>
    if negb (bool_decide (tk_status t = TkWaiting)) || bool_decide (is_Some (tk_reminded t)) || is_safety t then (false, s)
    else (true, post_system_message i REMINDER_TEXT ("reminder:" +:+ number since) (set_ticket i (with_reminded now t) s))
  end.

(** [_autoclose] *)
Definition autoclose (i now : Z) (s : Desk) : bool * Desk :=
  match dk_tickets s !! i with
  | None => (false, s)
  | Some t =>
    if negb (bool_decide (tk_status t = TkWaiting)) || is_safety t then (false, s)
    else (true, post_system_message i AUTOCLOSE_TEXT "autoclose" (set_ticket i (with_resolved (Some now) (enter_status TkClosed now t)) s))
  end.

(** Waiting since at most [limit], in this country. *)
Definition waits (country : string) (limit : Z) (t : Ticket) : bool :=
  bool_decide (tk_country t = country) && bool_decide (tk_status t = TkWaiting) &&
  from_option (fun since => since <=? limit) false (tk_waiting t) && negb (tk_safety_flag t) && negb (bool_decide (tk_issue t = "safety")).

Definition waiting_rows (p : Ticket -> bool) (s : Desk) : list (Z * Ticket) :=
  List.filter (fun x => p x.2) (map_to_list (dk_tickets s)).

Definition run_all {A : Type} (f : A -> Desk -> bool * Desk) (l : list A) (acc : Z * Desk) : Z * Desk :=
  foldl (fun acc a => let '(b, s) := f a acc.2 in (acc.1 + (if b then 1 else 0), s)) acc l.

(** One country: the tickets to close, then those to remind. *)
Definition sweep_country (now : Z) (acc : Z * Z * Desk) (c : string * CountryConfig) : Z * Z * Desk :=
  let '(reminded, closed, s) := acc in
  let '(closed, s) := run_all (fun x => autoclose x.1 now) (waiting_rows (waits c.1 (now - cc_autoclose_days c.2 * DAY)) s) (closed, s) in
  let due (t : Ticket) := waits c.1 (now - cc_reminder_days c.2 * DAY) t && bool_decide (tk_reminded t = None) in
  let '(reminded, s) := run_all (fun x => remind x.1 (default 0 (tk_waiting x.2)) now) (waiting_rows due s) (reminded, s) in
  (reminded, closed, s).

(** [sweep_waiting]: how many it reminded and closed. *)
Definition sweep_waiting (now : Z) (s : Desk) : Z * Z * Desk := foldl (sweep_country now) (0, 0, s) (map_to_list (dk_configs s)).

(** ** The numbers of a country ([sla_change.py]) *)

Definition MAX_MINUTES : Z := 60 * 24 * 90.

Definition check_policy (first resolution : Z) : option string :=
  if (first <? 1) || (resolution <? 1) then Some "Minutes must be at least 1."
  else if resolution <? first then Some "Resolution cannot be shorter than first response."
  else if MAX_MINUTES <? Z.max first resolution then Some "Minutes must be at most 90 days."
  else None.

Definition check_config (reminder autoclose hours : Z) : option string :=
  if negb ((1 <=? reminder) && (reminder <=? 90)) || negb ((1 <=? autoclose) && (autoclose <=? 365))
  then Some "Days must be between 1 and 90 (reminder) and 1 and 365 (auto-close)."
  else if autoclose <=? reminder then Some "Auto-close must come after the reminder."
  else if negb ((1 <=? hours) && (hours <=? 24 * 60)) then Some "Refund review hours must be between 1 and 1440."
  else None.

Inductive sla_change :=
| ChangePolicy (country : string) (p : ticket_priority) (first resolution : Z)
| ChangeConfig (country : string) (reminder autoclose hours : Z).

(** [execute_sla_change]: did anything change? *)
Definition execute_sla_change (c : sla_change) (s : Desk) : res string bool * Desk :=
  match c with
  | ChangePolicy country p first resolution =>
    match check_policy first resolution with
    | Some _ => (Err "INVALID_MINUTES", s)
    | None =>
      if bool_decide (dk_policies s !! (country, PRIORITY_RANK p) = Some (first, resolution)) then (Ok false, s)
      else (Ok true, {| dk_tickets := dk_tickets s; ticket_next := ticket_next s; dk_messages := dk_messages s;
        dk_policies := <[(country, PRIORITY_RANK p) := (first, resolution)]> (dk_policies s); dk_configs := dk_configs s; dk_inbox := dk_inbox s |})
    end
  | ChangeConfig country reminder autoclose hours =>
    match check_config reminder autoclose hours with
    | Some _ => (Err "INVALID_CONFIG", s)
    | None =>
      let old := dk_configs s !! country in
      if bool_decide ((fun c => (cc_reminder_days c, cc_autoclose_days c, cc_review_hours c)) <$> old = Some (reminder, autoclose, hours)) then (Ok false, s)
      else (Ok true, {| dk_tickets := dk_tickets s; ticket_next := ticket_next s; dk_messages := dk_messages s; dk_policies := dk_policies s;
        dk_configs := <[country := {| cc_reminder_days := reminder; cc_autoclose_days := autoclose; cc_review_hours := hours;
                                      cc_version := from_option cc_version 0 old + 1 |}]> (dk_configs s); dk_inbox := dk_inbox s |})
    end
  end.

(** [admin_sla_update] and [admin_country_config_update] up to the request for approval; None when the
    numbers are the current ones. *)
Definition propose_sla_change (env : SafetyEnv) (u : User) (c : sla_change) (s : Desk) : res refusal (option sla_change) :=
  let* _ := require (holds (se_access env) u "support.sla" None) Denied in
  let country := upper (match c with ChangePolicy country _ _ _ => country | ChangeConfig country _ _ _ => country end) in
  let* _ := require (bool_decide (is_Some (registry_get country))) NotFound in
  let* _ := require (holds (se_access env) u "support.sla" (node_of_country (se_access env) country)) Denied in
  match c with
  | ChangePolicy _ p first resolution =>
    let* _ := require (bool_decide (check_policy first resolution = None)) (BadInput "INVALID_MINUTES") in
    Ok (unless (bool_decide (dk_policies s !! (country, PRIORITY_RANK p) = Some (first, resolution))) (ChangePolicy country p first resolution))
  | ChangeConfig _ reminder autoclose hours =>
    let* _ := require (bool_decide (check_config reminder autoclose hours = None)) (BadInput "INVALID_CONFIG") in
    Ok (unless (bool_decide ((fun c => (cc_reminder_days c, cc_autoclose_days c, cc_review_hours c)) <$> dk_configs s !! country =
                             Some (reminder, autoclose, hours))) (ChangeConfig country reminder autoclose hours))
  end.
