(* ===== verification/TicketSafety.v ===== *)
(** * TicketSafety: what the support desk promises

    The clock of a ticket stops exactly while the user is waited for; the list of the queue and
    the badge of a ticket agree; whoever may act on a ticket finds it; the hourly sweep closes
    and reminds exactly the tickets that are due; and the invariants that hold whatever users,
    operators and sweeps do in any order, reading tables of earlier moments. *)

From Stdlib Require Import Ascii.
From S2P Require Import Prelude PyText Countries Models Json Access Alerts SafetyConfig Incidents TripConsole Macros Tickets.
#[local] Open Scope string_scope.
#[local] Open Scope list_scope.
#[local] Open Scope Z_scope.

(** ** The clock *)

(** The moves of a ticket: when, and to which status. *)
Definition walked (t : Ticket) (moves : list (Z * ticket_status)) : Ticket := foldl (fun t m => enter_status m.2 m.1 t) t moves.

(** What a clock on the wall sees of them: the waits that ended, and the one that lasts. *)
Fixpoint waits_of (since : option Z) (moves : list (Z * ticket_status)) : list (Z * Z) * option Z :=
  match moves with
  | [] => ([], since)
  | (now, st) :: r =>
    match since with
    | Some a => if bool_decide (st = TkWaiting) then waits_of since r else let '(l, o) := waits_of None r in ((a, now) :: l, o)
    | None => waits_of (if bool_decide (st = TkWaiting) then Some now else None) r
    end
  end.

Definition time_waited (l : list (Z * Z)) : Z := zsum (fun p => waited p.1 p.2) l.

(** Since when a ticket waits. *)
Definition waiting_as (since : option Z) (t : Ticket) : Prop :=
  tk_waiting t = since /\ (tk_status t = TkWaiting <-> is_Some since).

Lemma enter_safety (st : ticket_status) (now : Z) (t : Ticket) : is_safety (enter_status st now t) = is_safety t.
Proof. unfold enter_status. destruct (tk_waiting t); repeat case_match; done. Qed.

Lemma enter_wait (now : Z) (t : Ticket) (st : ticket_status) (since : option Z) :
  is_safety t = false -> waiting_as since t ->
  let since' := match since with
    | Some a => if bool_decide (st = TkWaiting) then Some a else None
    | None => if bool_decide (st = TkWaiting) then Some now else None
    end in
  let add := match since with Some a => if bool_decide (st = TkWaiting) then 0 else waited a now | None => 0 end in
  waiting_as since' (enter_status st now t) /\ tk_paused (enter_status st now t) = tk_paused t + add /\
  tk_due (enter_status st now t) = (fun d => d + add * SECOND) <$> tk_due t.
Proof.
  intros Hs [Hw Hst]. unfold waiting_as, enter_status. rewrite Hw.
  assert (forall x : option Z, (fun d => d + 0 * SECOND) <$> x = x) as H0 by (intros [d|]; [cbn; f_equal; lia|done]).
  destruct since as [a|].
  - assert (tk_status t = TkWaiting) as E by (apply Hst; eauto). rewrite E. rewrite (bool_decide_true (TkWaiting = TkWaiting)) by done.
    case_bool_decide as F; cbn; [subst st; rewrite Hw, H0; split; [split; [done|split; [eauto|done]]|split; [lia|done]]|].
    split; [split; [done|split; [by intros ->|by intros [? [=]]]]|done].
  - assert (tk_status t <> TkWaiting) as E by (intros [? [=]]%Hst). rewrite (bool_decide_false (tk_status t = TkWaiting)) by done.
    case_bool_decide as F; cbn [negb andb].
    + subst st. rewrite Hs. cbn. rewrite H0. split; [split; [done|split; [eauto|done]]|split; [lia|done]].
    + cbn. rewrite H0, Hw. split; [split; [done|split; [done|by intros [? [=]]]]|split; [lia|done]].
Qed.

Lemma moved_waits (moves : list (Z * ticket_status)) (t : Ticket) (since : option Z) :
  is_safety t = false -> waiting_as since t ->
  let '(l, o) := waits_of since moves in
  waiting_as o (walked t moves) /\ is_safety (walked t moves) = false /\ tk_paused (walked t moves) = tk_paused t + time_waited l /\
  tk_due (walked t moves) = (fun d => d + time_waited l * SECOND) <$> tk_due t.
Proof.
  induction moves as [|[now st] moves IH] in t, since |- *; intros Hs Hw; cbn [waits_of walked foldl].
  - split; [done|]. split; [done|]. unfold time_waited. cbn. split; [lia|]. destruct (tk_due t); [|done]; cbn [fmap option_fmap option_map]; f_equal; lia.
  - destruct (enter_wait now t st since Hs Hw) as (Hw' & Hp & Hd). cbn [fst snd]. rewrite <- (enter_safety st now) in Hs.
    specialize (IH (enter_status st now t) _ Hs Hw'). fold (walked (enter_status st now t) moves). destruct since as [a|].
    + case_bool_decide as F.
      * destruct (waits_of (Some a) moves) as [l o]. destruct IH as (H1 & H2 & H3 & H4). split; [done|]. split; [done|]. rewrite H3, H4, Hp, Hd.
        split; [lia|]. destruct (tk_due t); [|done]; cbn [fmap option_fmap option_map]; f_equal; lia.
      * destruct (waits_of None moves) as [l o]. destruct IH as (H1 & H2 & H3 & H4). split; [done|]. split; [done|]. rewrite H3, H4, Hp, Hd.
        change (time_waited ((a, now) :: l)) with (waited a now + time_waited l). split; [lia|]. destruct (tk_due t); [|done]; cbn [fmap option_fmap option_map]; f_equal; lia.
    + destruct (waits_of _ moves) as [l o]. destruct IH as (H1 & H2 & H3 & H4). split; [done|]. split; [done|]. rewrite H3, H4, Hp, Hd.
      split; [lia|]. destruct (tk_due t); [|done]; cbn [fmap option_fmap option_map]; f_equal; lia.
Qed.

Lemma clock_breached (due done_at : option Z) (now : Z) :
  ck_breached (clock due done_at now) = match due with Some d => match done_at with Some e => d <? e | None => d <? now end | None => false end.
Proof. by destruct due, done_at. Qed.

Lemma resolution_clock (t : Ticket) (now : Z) :
  tk_status t <> TkClosed ->
  ck_breached (ss_resolution (sla_state t now)) = negb (is_paused t) && past_due (tk_due t) now /\
  (forall since, is_paused t = true -> tk_waiting t = Some since -> ck_left (ss_resolution (sla_state t now)) = (fun d => minutes_between d since) <$> tk_due t).
Proof.
  intros H. unfold sla_state. cbn [ss_resolution]. rewrite (bool_decide_false (tk_status t = TkClosed)) by done. cbn [negb andb].
  destruct (is_paused t) eqn:E.
  - unfold is_paused in E. apply andb_true_iff in E as [[_ Hs%bool_decide_eq_true]%andb_true_iff _].
    destruct Hs as [since Hs]. rewrite Hs. destruct (tk_due t); split; try done; by intros ? _ [= <-].
  - split; [|done]. by destruct (tk_due t).
Qed.

(** C17. The resolution clock stands still exactly while the user is waited for: whatever way a ticket
    that is no safety concern moves between its statuses, the pause it has stored is the sum of the
    waits on the wall that ended, each in whole seconds, its due time has moved out by exactly
    that, it is waiting since the start of the wait that lasts, if one does; while it waits the
    clock shows what was left then and is not breached, and otherwise it is breached exactly when
    the time since the original due time is more than the time waited. *)
Theorem clock_stops_while_waiting (t : Ticket) (due : Z) (moves : list (Z * ticket_status)) :
  is_safety t = false -> tk_status t <> TkWaiting -> tk_waiting t = None -> tk_due t = Some due ->
  let t' := walked t moves in
  let l := (waits_of None moves).1 in
  tk_paused t' = tk_paused t + time_waited l /\ tk_due t' = Some (due + time_waited l * SECOND) /\ tk_waiting t' = (waits_of None moves).2 /\
  (tk_status t' <> TkClosed -> forall now,
    match (waits_of None moves).2 with
    | Some since => ck_breached (ss_resolution (sla_state t' now)) = false /\
                    ck_left (ss_resolution (sla_state t' now)) = Some (minutes_between (due + time_waited l * SECOND) since)
    | None => ck_breached (ss_resolution (sla_state t' now)) = true <-> time_waited l * SECOND < now - due
    end).
Proof.
  intros Hs Hst Hw Hd. cbv zeta. pose proof (moved_waits moves t None Hs) as H.
  destruct (waits_of None moves) as [l o]. cbn [fst snd]. destruct H as ([Ho Hi] & Hs' & Hp & Hd').
  { split; [done|]. split; [done|by intros [? [=]]]. }
  rewrite Hd in Hd'. cbn in Hd'. split; [done|]. split; [done|]. split; [done|]. intros Hc now.
  destruct (resolution_clock (walked t moves) now Hc) as [Hb Hl]. rewrite Hb, Hd'. cbn [past_due from_option]. destruct o as [since|].
  - assert (is_paused (walked t moves) = true) as E.
    { unfold is_paused. rewrite Ho, Hs', !bool_decide_true; [done|eauto|apply Hi; eauto]. }
    rewrite E. split; [done|]. by rewrite (Hl since E Ho), Hd'.
  - assert (is_paused (walked t moves) = false) as ->.
    { unfold is_paused. rewrite Ho. rewrite (bool_decide_false (is_Some None)) by (by intros [? [=]]). by rewrite andb_false_r. }
    cbn [negb andb]. lia.
Qed.

(** A wait is counted to less than a second. *)
Lemma waited_close (a b : Z) : a <= b -> waited a b * SECOND <= b - a < waited a b * SECOND + SECOND.
Proof. intros H. unfold waited, SECOND. rewrite Z.quot_div_nonneg by lia. pose proof (Z.div_mod (b - a) 1000000). pose proof (Z.mod_pos_bound (b - a) 1000000). lia. Qed.

(** ** The queue and the badge *)

(** The clocks of an open ticket that run. *)
Definition first_runs (t : Ticket) (d : Z) : Prop := tk_responded t = None /\ tk_first_due t = Some d.
Definition resolution_runs (t : Ticket) (d : Z) : Prop := is_paused t = false /\ tk_due t = Some d.
Definition runs (t : Ticket) (d : Z) : Prop := first_runs t d \/ resolution_runs t d.

Definition open_clocks (t : Ticket) (now : Z) : list (clock_name * Clock) :=
  (if bool_decide (tk_responded t = None) && bool_decide (is_Some (tk_first_due t)) then [(FirstResponse, clock (tk_first_due t) None now)] else []) ++
  (if negb (is_paused t) && bool_decide (is_Some (tk_due t)) then [(Resolution, clock (tk_due t) None now)] else []).

Definition earlier_clock (a b : clock_name * Clock) : bool := match ck_due a.2, ck_due b.2 with Some x, Some y => x <? y | _, _ => false end.

(** [ss_state] of an open ticket. *)
Lemma sla_word_open (t : Ticket) (now : Z) :
  tk_status t <> TkClosed ->
  ss_state (sla_state t now) =
    let w := if existsb (fun p => ck_breached p.2) (open_clocks t now) then SlaBreached
             else if from_option (fun m => m <=? DUE_SOON_MINUTES) false (p ← best_by earlier_clock (open_clocks t now); ck_left p.2) then SlaDueSoon else SlaOk in
    if is_paused t && bool_decide (w = SlaOk) then SlaPaused else w.
Proof.
  intros H. unfold sla_state, open_clocks. cbn [ss_state]. rewrite (bool_decide_false (tk_status t = TkClosed)) by done. cbn [negb andb].
  destruct (is_paused t) eqn:E.
  - unfold is_paused in E. apply andb_true_iff in E as [[_ Hs%bool_decide_eq_true]%andb_true_iff _]. destruct Hs as [since ->].
    rewrite !andb_false_r, !app_nil_r. destruct (tk_first_due t), (tk_responded t), (tk_due t); reflexivity.
  - destruct (tk_first_due t), (tk_responded t), (tk_due t); reflexivity.
Qed.

Lemma open_clocks_spec (t : Ticket) (now : Z) (p : clock_name * Clock) :
  p ∈ open_clocks t now <-> exists d, p.2 = clock (Some d) None now /\ ((p.1 = FirstResponse /\ first_runs t d) \/ (p.1 = Resolution /\ resolution_runs t d)).
Proof.
  unfold open_clocks, first_runs, resolution_runs. rewrite elem_of_app. destruct p as [n c]. cbn [fst snd].
  destruct (tk_responded t), (tk_first_due t) as [a|], (is_paused t), (tk_due t) as [b|]; cbn [negb andb bool_decide];
    rewrite ?bool_decide_true by eauto; rewrite ?(bool_decide_false (is_Some None)) by (by intros [? [=]]); rewrite ?bool_decide_false by done; cbn;
    rewrite ?list_elem_of_singleton, ?elem_of_nil; naive_solver.
Qed.

Lemma breached_word (t : Ticket) (now : Z) :
  tk_status t <> TkClosed -> ss_state (sla_state t now) = SlaBreached <-> exists d, runs t d /\ d < now.
Proof.
  intros H. rewrite (sla_word_open t now H). cbv zeta. destruct (existsb _ _) eqn:E.
  - rewrite (bool_decide_false (SlaBreached = SlaOk)) by done. rewrite andb_false_r. split; [intros _|done].
    apply existsb_exists in E as (p & Hp%list_elem_of_In & Hb). apply open_clocks_spec in Hp as (d & Hd & Hr). rewrite Hd in Hb. cbn in Hb.
    exists d. split; [|lia]. destruct Hr as [[_ Hr]|[_ Hr]]; [by left|by right].
  - split.
    + destruct (from_option _ _ _); cbn; destruct (is_paused t); done.
    + intros (d & Hr & Hd). assert (existsb (fun p : clock_name * Clock => ck_breached p.2) (open_clocks t now) = true); [|congruence].
      apply existsb_exists. destruct Hr as [Hr|Hr].
      * exists (FirstResponse, clock (Some d) None now). rewrite <- list_elem_of_In, open_clocks_spec. split; [exists d; auto|cbn; lia].
      * exists (Resolution, clock (Some d) None now). rewrite <- list_elem_of_In, open_clocks_spec. split; [exists d; auto|cbn; lia].
Qed.

Lemma best_by_least (l : list (clock_name * Clock)) (x : clock_name * Clock) (now : Z) :
  (forall p, p ∈ l -> exists d, p.2 = clock (Some d) None now) -> best_by earlier_clock l = Some x ->
  forall p a b, p ∈ l -> ck_due x.2 = Some a -> ck_due p.2 = Some b -> a <= b.
Proof.
  induction l as [|y l IH] in x |- *; [done|]. intros Hl H p a b Hp Ha Hb. cbn [best_by] in H.
  assert (forall q, q ∈ l -> exists d, q.2 = clock (Some d) None now) as Hl' by (intros q Hq; apply Hl; by right).
  destruct (Hl y ltac:(by left)) as [dy Hy].
  destruct (best_by earlier_clock l) as [z|] eqn:E.
  - injection H as H. destruct (Hl' z (best_by_elem _ _ _ E)) as [dz Hz].
    assert (forall q b, q ∈ l -> ck_due q.2 = Some b -> dz <= b) as Hmin by (intros q b' Hq Hb'; apply (IH z Hl' eq_refl q dz b' Hq); [by rewrite Hz|done]).
    unfold earlier_clock in H. rewrite Hy, Hz in H. cbn in H. destruct (dz <? dy) eqn:F; subst x.
    + rewrite Hz in Ha. injection Ha as <-. apply elem_of_cons in Hp as [->|Hp]; [rewrite Hy in Hb; injection Hb as <-; lia|by apply (Hmin p)].
    + rewrite Hy in Ha. injection Ha as <-. apply elem_of_cons in Hp as [->|Hp]; [rewrite Hy in Hb; injection Hb as <-; lia|].
      pose proof (Hmin p b Hp Hb). lia.
  - injection H as <-. apply best_by_none in E. subst l. apply list_elem_of_singleton in Hp as ->. rewrite Hb in Ha. injection Ha as <-. lia.
Qed.

Lemma open_is_not_closed (t : Ticket) : ticket_open t = true <-> tk_status t <> TkClosed.
Proof. unfold ticket_open. rewrite bool_decide_eq_true. destruct (tk_status t); set_solver. Qed.

(** A mark of waiting that no longer pauses the clock: the ticket is not in that status any more, or
    became a safety concern meanwhile. *)
Definition stale_wait (t : Ticket) : bool := bool_decide (is_Some (tk_waiting t)) && negb (is_paused t).

(** The dates the queries look at are the clocks that run, but for a stale mark. *)
Lemma query_clocks (t : Ticket) (p : Z -> bool) :
  (exists d, runs t d /\ p d = true) <->
  (bool_decide (tk_responded t = None) && from_option p false (tk_first_due t)) || (from_option p false (tk_due t) && bool_decide (tk_waiting t = None)) = true
  \/ stale_wait t = true /\ from_option p false (tk_due t) = true.
Proof.
  assert (is_paused t = true -> tk_waiting t <> None) as Hp.
  { unfold is_paused. intros [[_ H%bool_decide_eq_true]%andb_true_iff _]%andb_true_iff E. rewrite E in H. by destruct H. }
  unfold runs, first_runs, resolution_runs, stale_wait.
  rewrite orb_true_iff, !andb_true_iff, negb_true_iff, !bool_decide_eq_true.
  destruct (tk_waiting t) as [w|]; [|destruct (is_paused t); [by destruct Hp|]];
    destruct (tk_first_due t), (tk_due t), (is_paused t); cbn; try (split; [|intros]; naive_solver).
Qed.

Lemma due_soon_left (d now : Z) : d <= now + DUE_SOON_MINUTES * MINUTE -> (minutes_between d now <=? DUE_SOON_MINUTES) = true.
Proof.
  unfold minutes_between, DUE_SOON_MINUTES, MINUTE, SECOND. intros H. apply Z.leb_le. apply (Z.le_trans _ ((60 * (60 * 1000000)) / (60 * 1000000))).
  - apply Z.div_le_mono; lia.
  - by rewrite Z.div_mul.
Qed.

Lemma left_due_soon (d now : Z) : (minutes_between d now <=? DUE_SOON_MINUTES) = true -> d < now + (DUE_SOON_MINUTES + 1) * MINUTE.
Proof.
  unfold minutes_between, DUE_SOON_MINUTES, MINUTE, SECOND. intros H%Z.leb_le. pose proof (Z.div_mod (d - now) (60 * 1000000)).
  pose proof (Z.mod_pos_bound (d - now) (60 * 1000000)). lia.
Qed.

(** C27. The queue and the badge agree up to stale marks.  The badge says breached exactly for the
    tickets the filter for breached tickets lists, and for open tickets past their due time that
    still carry a mark of waiting although their clock is not paused, which the filter leaves out
    ([stale_close_hides_breach] reaches one).  What the filter for tickets due soon lists has that
    badge, or is a ticket with such a mark whose badge says breached; and a ticket with the badge of
    those due soon has a clock that runs out in less than 61 minutes. *)
Theorem queue_agrees_with_badge (t : Ticket) (now : Z) :
  (ss_state (sla_state t now) = SlaBreached <->
     breached_q now t = true \/ stale_wait t = true /\ ticket_open t = true /\ past_due (tk_due t) now = true) /\
  (due_soon_q now t = true ->
     ss_state (sla_state t now) = SlaDueSoon \/ stale_wait t = true /\ ss_state (sla_state t now) = SlaBreached) /\
  (ss_state (sla_state t now) = SlaDueSoon -> exists d, runs t d /\ d < now + (DUE_SOON_MINUTES + 1) * MINUTE).
Proof.
  assert (ss_state (sla_state t now) = SlaBreached <->
     breached_q now t = true \/ stale_wait t = true /\ ticket_open t = true /\ past_due (tk_due t) now = true) as Hb.
  { unfold breached_q. rewrite andb_true_iff. pose proof (query_clocks t (fun d => d <? now)) as Hq. unfold past_due. split.
    - intros H. assert (tk_status t <> TkClosed) as Ho by (intros E; unfold sla_state in H; cbn in H; by rewrite E in H).
      pose proof (proj2 (open_is_not_closed t) Ho) as Ho'. apply (breached_word t now Ho) in H as (d & Hr & Hd).
      destruct (proj1 Hq) as [H|[H1 H2]]; [exists d; split; [done|lia]|by left|by right].
    - intros H. assert (ticket_open t = true) as Ho' by (by destruct H as [[? _]|(_ & ? & _)]).
      pose proof (proj1 (open_is_not_closed t) Ho') as Ho. apply (breached_word t now Ho).
      destruct (proj2 Hq) as (d & Hr & Hd); [destruct H as [[_ H]|(H1 & _ & H2)]; [by left|by right]|]. exists d. split; [done|lia]. }
  split; [exact Hb|]. split.
  - unfold due_soon_q. rewrite !andb_true_iff, negb_true_iff, open_is_not_closed.
    intros [[Ho Hnb] Hsoon]. destruct (proj2 (query_clocks t (fun d => d <=? now + DUE_SOON_MINUTES * MINUTE)) (or_introl Hsoon)) as (d & Hr & Hd%Z.leb_le).
    destruct (decide (ss_state (sla_state t now) = SlaBreached)) as [Hbr|Hnbr].
    { right. split; [|done]. apply Hb in Hbr as [?|[? _]]; [congruence|done]. }
    left. rewrite (sla_word_open t now Ho) in Hnbr |- *. cbv zeta in Hnbr |- *.
    destruct (existsb _ _) eqn:E; [exfalso; apply Hnbr; rewrite (bool_decide_false (SlaBreached = SlaOk)) by done; by rewrite andb_false_r|]. clear Hnbr.
    assert (exists p, p ∈ open_clocks t now /\ p.2 = clock (Some d) None now) as (p & Hp & Hpd).
    { destruct Hr as [Hr|Hr]; eexists (_, clock (Some d) None now); (split; [apply open_clocks_spec; exists d; split; [done|]|done]); cbn; [left|right]; done. }
    destruct (best_by earlier_clock (open_clocks t now)) as [x|] eqn:Ex.
    2: { apply best_by_none in Ex. rewrite Ex in Hp. by apply not_elem_of_nil in Hp. }
    destruct (proj1 (open_clocks_spec t now x) (best_by_elem _ _ _ Ex)) as (dx & Hx & _).
    assert (dx <= d) as Hle.
    { apply (best_by_least (open_clocks t now) x now) with p; [|done|done|by rewrite Hx|by rewrite Hpd].
      intros q (dq & Hq & _)%open_clocks_spec. eauto. }
    cbn. rewrite Hx. cbn [clock ck_left from_option]. rewrite (due_soon_left dx now) by lia. cbn. by rewrite andb_false_r.
  - intros H. assert (tk_status t <> TkClosed) as Ho by (intros E; unfold sla_state in H; cbn in H; by rewrite E in H).
    rewrite (sla_word_open t now Ho) in H. cbv zeta in H.
    destruct (existsb _ _); [by destruct (is_paused t)|].
    destruct (from_option _ _ _) eqn:E; [|cbn in H; destruct (is_paused t); done].
    destruct (best_by earlier_clock (open_clocks t now)) as [x|] eqn:Ex; [|done]. cbn in E.
    destruct (proj1 (open_clocks_spec t now x) (best_by_elem _ _ _ Ex)) as (dx & Hx & Hr). rewrite Hx in E. cbn in E.
    exists dx. split; [destruct Hr as [[_ Hr]|[_ Hr]]; [by left|by right]|by apply left_due_soon].
Qed.

(** ** Who may act finds the ticket *)

Lemma restricted (db : AccessDb) (u : User) :
  unrestricted db u = false ->
  u_superuser u = false /\ (strict_mode db || is_migrated db u) = true /\
  exists paths, paths_of db u None = Some paths /\ forall r n, holds_at db u r n -> g_path n ∈ paths.
Proof.
  intros H. pose proof H as Hu. unfold unrestricted in H. apply orb_false_iff in H as [Hm Hp%bool_decide_eq_false].
  unfold scope_paths in Hp. destruct (u_superuser u) eqn:Es; [done|]. split; [done|].
  split; [destruct (strict_mode db), (is_migrated db u); done|].
  unfold paths_of. rewrite Hu. unfold scope_paths. rewrite Es. destruct (existsb _ _); [done|]. cbn [default]. eexists. split; [reflexivity|].
  intros r n Hh%elem_of_active. apply elem_of_sorted_set, list_elem_of_fmap. by exists (r, n).
Qed.

Lemma holds_restricted (db : AccessDb) (u : User) (permission : string) (node : option GeoRow) :
  unrestricted db u = false -> holds db u permission node = true ->
  exists r n, holds_at db u r n /\ forall o, node = Some o -> covers n (Some o) = true.
Proof.
  intros Hu H. destruct (restricted db u Hu) as (Hs & Hm & _). unfold holds, granted, has_permission_at in H.
  destruct (negb _); [done|]. destruct (bool_decide (permission ∈ ALL_PERMISSIONS)); [|done]. cbn [res_bind] in H.
  destruct (bool_decide (permission ∈ permissions_at db u node)) eqn:E.
  - apply bool_decide_eq_true, (elem_of_permissions db u permission node Hs) in E as (r & n & Hh & _ & Hc). eauto.
  - destruct (strict_mode db), (is_migrated db u); done.
Qed.

Lemma holds_within (db : AccessDb) (u : User) (permission : string) (o : GeoRow) (paths : list string) :
  unrestricted db u = false -> paths_of db u None = Some paths -> holds db u permission (Some o) = true -> within paths (Some o) = true.
Proof.
  intros Hu Hp H. destruct (holds_restricted db u permission (Some o) Hu H) as (r & n & Hh & Hc).
  destruct (restricted db u Hu) as (_ & _ & paths' & Hp' & Hin). rewrite Hp in Hp'. injection Hp' as <-.
  apply existsb_exists. exists (g_path n). rewrite <- list_elem_of_In. split; [by apply (Hin r)|]. by apply (Hc o).
Qed.

Lemma may_at_some (db : AccessDb) (u : User) (permission : string) (anchors : list GeoRow) :
  unrestricted db u = false -> may_at db u permission anchors = true ->
  exists n, n ∈ anchors /\
    ((g_kind n <> KCountry /\ holds db u permission (Some n) = true) \/
     (g_kind n = KCountry /\ exists r a, holds_at db u r a /\ related (g_path n) (g_path a) = true)).
Proof.
  intros Hu. destruct (restricted db u Hu) as (Hs & Hm & _).
  induction anchors as [|n l IH]; [done|]. cbn [may_at]. rewrite Hs. case_bool_decide as Hk; cbn [negb].
  - replace (negb (strict_mode db) && negb (is_migrated db u)) with false by (destruct (strict_mode db), (is_migrated db u); done).
    intros [H|H]%orb_true_iff.
    + apply existsb_exists in H as ([r a] & Ha%list_elem_of_In & [_ Hr]%andb_true_iff). exists n. split; [by left|]. right.
      split; [done|]. exists r, a. split; [by apply elem_of_active|done].
    + destruct (IH H) as (m & Hm' & Hr). exists m. split; [by right|done].
  - intros [H|H]%orb_true_iff; [exists n; split; [by left|by left]|]. destruct (IH H) as (m & Hm' & Hr). exists m. split; [by right|done].
Qed.

(** The places a rider is anchored at besides a country. *)
Definition rider_places (env : SafetyEnv) (rider : Z) : list Z := recent_places env rider ++ from_option (fun c => [c]) [] (se_rider_home env rider).

Lemma anchors_of (env : SafetyEnv) (rider : Z) (n : GeoRow) :
  n ∈ snd <$> anchor_nodes env rider ->
  (exists i, i ∈ rider_places env rider /\ nodes (se_access env) !! i = Some n) \/
  (rider_places env rider = [] /\ n ∈ snd <$> map_to_list (nodes (se_access env)) /\ g_kind n = KCountry /\
   exists c, country_of_phone (chars <$> se_phone env rider) = Some c /\ g_code n = country_code c).
Proof.
  unfold anchor_nodes. fold (recent_places env rider). fold (rider_places env rider). case_bool_decide as E.
  - destruct (country_of_phone _) as [c|] eqn:F; [|by intros H%not_elem_of_nil]. destruct (List.find _ _) as [p|] eqn:G; [|by intros H%not_elem_of_nil].
    cbn. intros ->%list_elem_of_singleton. right. apply find_some in G as [Hin [Hk%bool_decide_eq_true Hc%bool_decide_eq_true]%andb_true_iff].
    split; [done|]. split; [apply list_elem_of_fmap; exists p; by rewrite list_elem_of_In|]. split; [done|]. eauto.
  - intros H. left. apply list_elem_of_fmap in H as ([j m] & -> & H). apply list_elem_of_omap in H as (i & Hi & H).
    apply fmap_Some in H as (x & G & [= <- <-]). eauto.
Qed.

(** A phone number is stored as a plus and digits. *)
Definition phone_ok (env : SafetyEnv) (user : Z) : Prop :=
  forall p, se_phone env user = Some p -> exists digits, chars p = e164 digits /\ Forall (fun x => is_digit x = true) digits.

Lemma phone_country (p : string) (digits : list ascii) (c : Country) :
  chars p = e164 digits -> Forall (fun x => is_digit x = true) digits -> country_of_phone (Some (chars p)) = Some c ->
  c ∈ COUNTRIES /\ String.prefix ("+" +:+ calling_code c) p = true /\ Z.of_nat (String.length p) ∈ Z.add 1 <$> e164_length c.
Proof.
  intros Hp Hd H. rewrite Hp in H. unfold country_of_phone in H. cbn [e164 List.filter] in H. replace (is_digit plus) with false in H by done.
  rewrite (filter_all _ _ Hd) in H. assert (c ∈ COUNTRIES /\ full_number_of digits c = true) as [Hc Hf].
  { cbn [COUNTRIES foldl] in H.
    assert (INDIA ∈ COUNTRIES /\ UNITED_STATES ∈ COUNTRIES) as [HI HU] by (split; unfold COUNTRIES; set_solver).
    destruct (full_number_of digits INDIA) eqn:E1, (full_number_of digits UNITED_STATES) eqn:E2; simplify_eq; try done.
    destruct (_ <? _)%nat; simplify_eq; done. }
  split; [done|]. unfold full_number_of in Hf. apply andb_true_iff in Hf as [Hpre Hlen].
  split.
  - apply prefix_chars. rewrite Hp, chars_append. apply bool_decide_eq_true in Hpre. unfold e164. by apply (prefix_cons plus).
  - apply list_elem_of_fmap. exists (len digits). apply bool_decide_eq_true in Hlen. split; [|done].
    rewrite <- length_chars, Hp. unfold e164, len. cbn [length]. lia.
Qed.

Lemma within_in (paths : list string) (o : GeoRow) (p : string) : p ∈ paths -> String.prefix p (g_path o) = true -> within paths (Some o) = true.
Proof. intros H Hp. apply existsb_exists. exists p. by rewrite <- list_elem_of_In. Qed.

Lemma rider_may_sees (env : SafetyEnv) (u : User) (permission : string) (rider : Z) (paths : list string) :
  unrestricted (se_access env) u = false -> paths_of (se_access env) u None = Some paths -> phone_ok env rider ->
  (forall i n, i ∈ rider_places env rider -> nodes (se_access env) !! i = Some n -> g_kind n <> KCountry) ->
  rider_may env u permission rider = true -> rider_within env paths rider = true.
Proof.
  intros Hu Hp Hphone Hkinds H. unfold rider_may in H.
  assert (may_at (se_access env) u permission (snd <$> anchor_nodes env rider) = true) as Hm.
  { destruct (anchor_nodes env rider); [by rewrite Hu in H|exact H]. }
  apply (may_at_some _ _ _ _ Hu) in Hm as (n & Hn & Hm). unfold rider_within. cbv zeta.
  apply anchors_of in Hn as [(i & Hi & Hn)|(Hnone & Hin & Hk & c & Hc & Hcode)].
  - destruct Hm as [[_ Hh]|[Hk _]]; [|by destruct (Hkinds i n Hi Hn)].
    pose proof (holds_within _ _ _ _ _ Hu Hp Hh) as Hw. apply elem_of_app in Hi as [Hi|Hi].
    + apply orb_true_iff. left. apply orb_true_iff. left. apply existsb_exists. exists i. rewrite <- list_elem_of_In, Hn. done.
    + destruct (se_rider_home env rider) as [h|] eqn:E; [|by apply not_elem_of_nil in Hi]. apply list_elem_of_singleton in Hi as ->.
      apply orb_true_iff. left. apply orb_true_iff. right. unfold node_of. cbn. by rewrite Hn.
  - destruct Hm as [[? _]|[_ (r & a & Hh & Hr)]]; [done|]. apply app_eq_nil in Hnone as [Hr0 Hh0].
    apply orb_true_iff. right. rewrite Hr0, (bool_decide_true ([] = [])) by done.
    destruct (se_rider_home env rider); [done|]. rewrite (bool_decide_true (None = None)) by done. cbn [andb].
    destruct (se_phone env rider) as [p|] eqn:Ep; [|done]. destruct (Hphone p Ep) as (digits & Hd & Hdig). cbn in Hc.
    destruct (phone_country p digits c Hd Hdig Hc) as (HcC & Hpre & Hlen).
    unfold country_phone. apply existsb_exists. exists n. rewrite <- list_elem_of_In. split; [done|].
    assert (List.find (fun c => bool_decide (country_code c = g_code n)) COUNTRIES = Some c) as ->.
    { rewrite Hcode. by destruct (countries_cases c HcC) as [-> | ->]. }
    rewrite Hk, Hpre, bool_decide_true, bool_decide_true by done. rewrite !andb_true_r. cbn [andb].
    apply existsb_exists. exists (g_path a). rewrite <- list_elem_of_In. split; [|done].
    destruct (restricted _ _ Hu) as (_ & _ & paths' & Hp' & Hall). rewrite Hp in Hp'. injection Hp' as <-. by apply (Hall r).
Qed.

(** C26. Whoever may act on a ticket finds it: an account that holds a permission where a ticket sits, an
    assignee the console offers among them, sees it in the list and opens its page, provided that
    phone numbers are stored as a plus and digits and no trip or home city of the user is a whole
    country. *)
Theorem who_may_act_sees (env : SafetyEnv) (u : User) (permission : string) (t : Ticket) :
  phone_ok env (tk_user t) ->
  (forall i n, i ∈ rider_places env (tk_user t) -> nodes (se_access env) !! i = Some n -> g_kind n <> KCountry) ->
  (ticket_may env u permission t = true -> sees_ticket env u None t = true) /\
  (eligible_assignee env (Some u) t = true -> sees_ticket env u None t = true).
Proof.
  intros Hphone Hkinds. assert (forall p, ticket_may env u p t = true -> sees_ticket env u None t = true) as H.
  { intros p H. unfold sees_ticket. destruct (unrestricted (se_access env) u) eqn:Hu.
    { unfold paths_of. by rewrite Hu. }
    destruct (restricted _ _ Hu) as (_ & _ & paths & Hp & Hall). rewrite Hp.
    assert (forall n, holds (se_access env) u p (Some n) = true -> within paths (Some n) = true) as Hw by (intros n; by apply holds_within).
    unfold ticket_may, placed_by_rider, ticket_node in H. rewrite Hu in H.
    destruct paths as [|p0 paths].
    { exfalso. assert (forall n, within [] (Some n) = false) as Hf by done.
      assert (forall r n, ~ holds_at (se_access env) u r n) as Hno by (intros r n Hh; apply Hall in Hh; by apply not_elem_of_nil in Hh).
      destruct (_ && _) eqn:Epl.
      - unfold rider_may in H. rewrite Hu in H. destruct (anchor_nodes env (tk_user t)) as [|x l]; [done|].
        apply (may_at_some _ _ _ _ Hu) in H as (n & _ & [[_ Hh]|[_ (r & a & Hh & _)]]); [by apply Hw in Hh|by apply Hno in Hh].
      - match type of H with (match ?x with _ => _ end) = true => destruct x as [n|]; [by apply Hw in H|done] end. }
    destruct (trip_node (trip_of env (tk_trip t))) as [i|] eqn:Et.
    { rewrite (bool_decide_false (Some i = None)) in H by done. cbn [andb] in H. destruct (nodes (se_access env) !! i) as [n|]; [by apply Hw|done]. }
    rewrite (bool_decide_true (None = None)) in H by done. cbn [andb] in H.
    destruct (se_driver_of env (tk_user t)) as [d|] eqn:Ed.
    { rewrite (bool_decide_false (Some d = None)) in H by done. cbn [andb mbind option_bind] in H.
      destruct (node_of env (se_home_city env d)) as [n|]; [by apply Hw|done]. }
    rewrite (bool_decide_true (None = None)) in H by done. cbn [andb] in H. destruct (se_is_rider env (tk_user t)) eqn:Er; [|done]. cbn [andb].
    by apply (rider_may_sees env u p). }
  split; [apply H|]. unfold eligible_assignee. intros [_ Hm]%andb_true_iff. by apply (H "support.reply").
Qed.

(** ** The sweep *)

(** The ticket a country's settings make of one that waits. *)
Definition swept_by (now : Z) (c : string) (cc : CountryConfig) (t : Ticket) : Ticket :=
  if waits c (now - cc_autoclose_days cc * DAY) t then with_resolved (Some now) (enter_status TkClosed now t)
  else if waits c (now - cc_reminder_days cc * DAY) t && bool_decide (tk_reminded t = None) then with_reminded now t
  else t.

Lemma post_tickets (i : Z) (author : option Z) (role : author_role) (body key : string) (s : Desk) :
  dk_tickets (post_once i author role body key s) = dk_tickets s /\ dk_configs (post_once i author role body key s) = dk_configs s.
Proof. unfold post_once. by destruct (_ || _). Qed.

Lemma waits_spec (c : string) (limit : Z) (t : Ticket) :
  waits c limit t = true ->
  tk_country t = c /\ tk_status t = TkWaiting /\ is_safety t = false /\ exists since, tk_waiting t = Some since /\ since <= limit.
Proof.
  unfold waits, is_safety. rewrite !andb_true_iff, !negb_true_iff, !bool_decide_eq_true. intros [[[[Hc Hs] Hw] Hf] Hi].
  split; [done|]. split; [done|]. split; [by rewrite Hf, Hi|]. destruct (tk_waiting t) as [since|]; [|done]. exists since. split; [done|]. cbn in Hw. lia.
Qed.

(** What a pass over rows does, when each row is handled as [g] says. *)
Lemma run_all_map (f : Z * Ticket -> Desk -> bool * Desk) (g : Ticket -> Ticket) (p : Ticket -> bool) (l : list (Z * Ticket)) (n : Z) (s : Desk) :
  (forall i t s, dk_tickets s !! i = Some t -> p t = true ->
     dk_tickets (f (i, t) s).2 = <[i := g t]> (dk_tickets s) /\ dk_configs (f (i, t) s).2 = dk_configs s) ->
  NoDup l.*1 -> (forall i t, (i, t) ∈ l -> dk_tickets s !! i = Some t /\ p t = true) ->
  let s' := (run_all f l (n, s)).2 in
  dk_configs s' = dk_configs s /\
  forall j, dk_tickets s' !! j = if bool_decide (j ∈ l.*1) then g <$> dk_tickets s !! j else dk_tickets s !! j.
Proof.
  intros Hf. induction l as [|[i t] l IH] in n, s |- *; intros Hnd Hl; cbv zeta.
  - split; [done|]. intros j. rewrite bool_decide_false; [done|]. apply not_elem_of_nil.
  - cbn [run_all foldl snd fst]. destruct (f (i, t) s) as [b s1] eqn:E. destruct (Hl i t ltac:(by left)) as [Hi Hp].
    destruct (Hf i t s Hi Hp) as [Ht Hc]. rewrite E in Ht, Hc. cbn [snd] in Ht, Hc. apply NoDup_cons in Hnd as [Hni Hnd]. cbn [fst] in Hni.
    destruct (IH (n + (if b then 1 else 0)) s1 Hnd) as [Hc' Hj].
    { intros k x Hk. destruct (Hl k x ltac:(by right)) as [Hkx Hpx]. split; [|done]. rewrite Ht, lookup_insert_ne; [done|].
      intros ->. apply Hni, list_elem_of_fmap. by exists (k, x). }
    fold (run_all f l (n + (if b then 1 else 0), s1)). split; [by rewrite Hc'|]. intros j. rewrite Hj, Ht. cbn [fmap list_fmap fst].
    destruct (decide (j = i)) as [->|Hne].
    + rewrite bool_decide_false by done. rewrite bool_decide_true by (by left). by rewrite lookup_insert_eq, Hi.
    + rewrite lookup_insert_ne by done. destruct (decide (j ∈ l.*1)) as [Hin|Hin].
      * rewrite !bool_decide_true; [done|by right|done].
      * rewrite !bool_decide_false; [done| |done]. by intros [->|?]%elem_of_cons.
Qed.

Lemma waiting_rows_spec (p : Ticket -> bool) (s : Desk) :
  NoDup (waiting_rows p s).*1 /\ (forall i t, (i, t) ∈ waiting_rows p s -> dk_tickets s !! i = Some t /\ p t = true) /\
  (forall j, j ∈ (waiting_rows p s).*1 <-> exists t, dk_tickets s !! j = Some t /\ p t = true).
Proof.
  assert (forall i t, (i, t) ∈ waiting_rows p s <-> dk_tickets s !! i = Some t /\ p t = true) as H.
  { intros i t. unfold waiting_rows. rewrite elem_of_filter_b, elem_of_map_to_list. done. }
  split; [|split].
  - unfold waiting_rows. pose proof (NoDup_fst_map_to_list (dk_tickets s)) as Hn. induction (map_to_list (dk_tickets s)) as [|[i t] l IH]; [by constructor|].
    cbn [fmap list_fmap fst] in Hn. apply NoDup_cons in Hn as [Hi Hn]. cbn [List.filter snd]. destruct (p t); [|by apply IH]. cbn. apply NoDup_cons. split; [|by apply IH].
    intros ([k x] & -> & [Hin _]%elem_of_filter_b)%list_elem_of_fmap. apply Hi, list_elem_of_fmap. by exists (k, x).
  - intros i t. by rewrite H.
  - intros j. rewrite list_elem_of_fmap. split; [intros ([i t] & -> & Hin%H); eauto|]. intros (t & Ht). exists (j, t). split; [done|by apply H].
Qed.

Lemma run_rows (f : Z * Ticket -> Desk -> bool * Desk) (g : Ticket -> Ticket) (p : Ticket -> bool) (n : Z) (s : Desk) :
  (forall i t s, dk_tickets s !! i = Some t -> p t = true ->
     dk_tickets (f (i, t) s).2 = <[i := g t]> (dk_tickets s) /\ dk_configs (f (i, t) s).2 = dk_configs s) ->
  let s' := (run_all f (waiting_rows p s) (n, s)).2 in
  dk_configs s' = dk_configs s /\ forall j, dk_tickets s' !! j = (fun t => if p t then g t else t) <$> dk_tickets s !! j.
Proof.
  intros Hf. destruct (waiting_rows_spec p s) as (Hnd & Hin & Hj). destruct (run_all_map f g p _ n s Hf Hnd Hin) as [Hc Ht].
  split; [done|]. intros j. rewrite Ht. destruct (dk_tickets s !! j) as [t|] eqn:E; [|by case_bool_decide]. cbn. destruct (p t) eqn:Hp.
  - rewrite bool_decide_true; [done|]. apply Hj. eauto.
  - rewrite bool_decide_false; [done|]. rewrite Hj. intros (x & Hx & Hpx). congruence.
Qed.

Lemma autoclose_ticket (c : string) (limit now i : Z) (t : Ticket) (s : Desk) :
  dk_tickets s !! i = Some t -> waits c limit t = true ->
  dk_tickets (autoclose i now s).2 = <[i := with_resolved (Some now) (enter_status TkClosed now t)]> (dk_tickets s) /\
  dk_configs (autoclose i now s).2 = dk_configs s.
Proof.
  intros Hi (_ & Hst & Hs & _)%waits_spec. unfold autoclose. rewrite Hi, Hst, Hs. cbn [snd negb orb bool_decide].
  rewrite bool_decide_true by done. cbn. unfold post_system_message. by destruct (post_tickets i None BySystem AUTOCLOSE_TEXT ("system:" +:+ number i +:+ ":" +:+ "autoclose")
    (set_ticket i (with_resolved (Some now) (enter_status TkClosed now t)) s)) as [-> ->].
Qed.

Lemma remind_ticket (c : string) (limit since now i : Z) (t : Ticket) (s : Desk) :
  dk_tickets s !! i = Some t -> waits c limit t && bool_decide (tk_reminded t = None) = true ->
  dk_tickets (remind i since now s).2 = <[i := with_reminded now t]> (dk_tickets s) /\ dk_configs (remind i since now s).2 = dk_configs s.
Proof.
  intros Hi [(_ & Hst & Hs & _)%waits_spec Hr%bool_decide_eq_true]%andb_true_iff. unfold remind. rewrite Hi, Hst, Hs, Hr.
  rewrite bool_decide_true by done. rewrite bool_decide_false by (by intros [? [=]]). cbn [negb orb snd]. unfold post_system_message.
  by destruct (post_tickets i None BySystem REMINDER_TEXT ("system:" +:+ number i +:+ ":" +:+ ("reminder:" +:+ number since))
    (set_ticket i (with_reminded now t) s)) as [-> ->].
Qed.

Lemma sweep_country_map (now : Z) (reminded closed : Z) (s : Desk) (c : string) (cc : CountryConfig) :
  let s' := (sweep_country now (reminded, closed, s) (c, cc)).2 in
  dk_configs s' = dk_configs s /\ forall j, dk_tickets s' !! j = swept_by now c cc <$> dk_tickets s !! j.
Proof.
  cbv zeta. unfold sweep_country. cbn [fst snd].
  destruct (run_rows (fun x => autoclose x.1 now) (fun t => with_resolved (Some now) (enter_status TkClosed now t))
              (waits c (now - cc_autoclose_days cc * DAY)) closed s) as [Hc1 Ht1]; [intros i t s0; by apply autoclose_ticket|].
  destruct (run_all _ _ (closed, s)) as [n1 s1]. cbn [snd] in Hc1, Ht1.
  set (due := fun t => waits c (now - cc_reminder_days cc * DAY) t && bool_decide (tk_reminded t = None)).
  destruct (run_rows (fun x => remind x.1 (default 0 (tk_waiting x.2)) now) (with_reminded now) due reminded s1) as [Hc2 Ht2].
  { intros i t s0 H1 H2. exact (remind_ticket c _ _ now i t s0 H1 H2). }
  destruct (run_all _ _ (reminded, s1)) as [n2 s2]. cbn [snd] in *. split; [by rewrite Hc2|].
  intros j. rewrite Ht2, Ht1, <- map_fmap_compose || rewrite Ht2, Ht1. destruct (dk_tickets s !! j) as [t|]; [|done]. cbn. f_equal.
  unfold swept_by, due. destruct (waits c (now - cc_autoclose_days cc * DAY) t) eqn:E; [|done].
  replace (waits c _ (with_resolved (Some now) (enter_status TkClosed now t))) with false; [done|]. symmetry.
  unfold waits. rewrite (bool_decide_false (tk_status _ = TkWaiting)) by done. by rewrite andb_false_r.
Qed.

Lemma swept_other (now : Z) (c : string) (cc : CountryConfig) (t : Ticket) : tk_country t <> c -> swept_by now c cc t = t.
Proof.
  intros H. unfold swept_by. assert (forall limit, waits c limit t = false) as E.
  { intros limit. unfold waits. by rewrite bool_decide_false. }
  by rewrite !E.
Qed.

Lemma enter_country (st : ticket_status) (now : Z) (t : Ticket) : tk_country (enter_status st now t) = tk_country t.
Proof. unfold enter_status. destruct (tk_waiting t); repeat case_match; done. Qed.

Lemma swept_country (now : Z) (c : string) (cc : CountryConfig) (t : Ticket) : tk_country (swept_by now c cc t) = tk_country t.
Proof. unfold swept_by. destruct (waits _ _ t); [apply enter_country|]. by destruct (_ && _). Qed.

(** What the sweep makes of a ticket: one whose user has been silent for the days of its country is
    closed, one silent for the days of the reminder is reminded if it never was, any other stays. *)
Definition after_sweep (now : Z) (s : Desk) (t : Ticket) : Ticket :=
  match dk_configs s !! tk_country t with Some cc => swept_by now (tk_country t) cc t | None => t end.

Lemma sweep_fold (now : Z) (l : list (string * CountryConfig)) (acc : Z * Z * Desk) :
  NoDup l.*1 ->
  let s' := (foldl (sweep_country now) acc l).2 in
  dk_configs s' = dk_configs acc.2 /\
  forall j, dk_tickets s' !! j = (fun t => match (list_to_map l : gmap string CountryConfig) !! tk_country t with
    | Some cc => swept_by now (tk_country t) cc t | None => t end) <$> dk_tickets acc.2 !! j.
Proof.
  induction l as [|[c cc] l IH] in acc |- *; intros Hnd; cbv zeta; cbn [foldl].
  - split; [done|]. intros j. cbn. by destruct (dk_tickets acc.2 !! j).
  - cbn [fmap list_fmap fst] in Hnd. apply NoDup_cons in Hnd as [Hc Hnd]. destruct acc as [[r n] s].
    destruct (sweep_country_map now r n s c cc) as [Hcfg Ht]. destruct (IH (sweep_country now (r, n, s) (c, cc)) Hnd) as [Hcfg' Ht'].
    split; [by rewrite Hcfg', Hcfg|]. intros j. rewrite Ht', Ht. cbn [snd]. destruct (dk_tickets s !! j) as [t|]; [|done]. cbn [fmap option_fmap option_map].
    f_equal. rewrite swept_country. cbn [list_to_map foldr fst snd]. destruct (decide (tk_country t = c)) as [E|E].
    + rewrite E, lookup_insert_eq. rewrite (not_elem_of_list_to_map_1 l c Hc). done.
    + rewrite lookup_insert_ne by done. by rewrite (swept_other now c cc t E).
Qed.

Lemma swept_rests (now : Z) (c : string) (cc : CountryConfig) (t : Ticket) :
  let t' := swept_by now c cc t in
  waits c (now - cc_autoclose_days cc * DAY) t' = false /\ (waits c (now - cc_reminder_days cc * DAY) t' && bool_decide (tk_reminded t' = None)) = false.
Proof.
  cbv zeta. unfold swept_by. destruct (waits c (now - cc_autoclose_days cc * DAY) t) eqn:E.
  - assert (forall limit, waits c limit (with_resolved (Some now) (enter_status TkClosed now t)) = false) as H.
    { intros limit. unfold waits. rewrite (bool_decide_false (tk_status _ = TkWaiting)) by done. by rewrite andb_false_r. }
    by rewrite !H.
  - destruct (_ && _) eqn:F; [|done]. split; [exact E|]. cbn [tk_reminded with_reminded]. rewrite bool_decide_false by done. by rewrite andb_false_r.
Qed.

Lemma sweep_idle (now : Z) (l : list (string * CountryConfig)) (s : Desk) :
  (forall c cc, (c, cc) ∈ l -> forall j t, dk_tickets s !! j = Some t ->
     waits c (now - cc_autoclose_days cc * DAY) t = false /\ (waits c (now - cc_reminder_days cc * DAY) t && bool_decide (tk_reminded t = None)) = false) ->
  foldl (sweep_country now) (0, 0, s) l = (0, 0, s).
Proof.
  assert (forall p, (forall j t, dk_tickets s !! j = Some t -> p t = false) -> waiting_rows p s = []) as Hnone.
  { intros p Hp. apply filter_none, Forall_forall. intros [j t] Hin%elem_of_map_to_list. by apply (Hp j). }
  induction l as [|[c cc] l IH]; intros H; [done|]. cbn [foldl]. unfold sweep_country at 2. cbn [fst snd].
  rewrite (Hnone (waits c (now - cc_autoclose_days cc * DAY))) by (intros j t Ht; by apply (H c cc ltac:(by left) j t)).
  cbn [run_all foldl]. rewrite Hnone by (intros j t Ht; by apply (H c cc ltac:(by left) j t)). cbn [run_all foldl].
  apply IH. intros c' cc' Hin. apply H. by right.
Qed.

(** C25. The hourly sweep does what it says: after it, every ticket whose user has been silent for the
    days its country allows is closed, with the pause folded into its clock; every other that has
    been silent for the days of the reminder, and was never reminded, is; nothing else about any
    ticket changes, no safety concern and no ticket of a country without settings is touched; and
    a second run at the same moment finds nothing to do. *)
Theorem sweep_waiting_exact (now : Z) (s : Desk) :
  let s' := (sweep_waiting now s).2 in
  (forall j, dk_tickets s' !! j = after_sweep now s <$> dk_tickets s !! j) /\
  (forall t, is_safety t = true \/ dk_configs s !! tk_country t = None -> after_sweep now s t = t) /\
  sweep_waiting now s' = (0, 0, s').
Proof.
  cbv zeta. destruct (sweep_fold now (map_to_list (dk_configs s)) (0, 0, s) (NoDup_fst_map_to_list _)) as [Hc Ht].
  fold (sweep_waiting now s) in Hc, Ht. cbn [snd] in Hc, Ht. rewrite list_to_map_to_list in Ht. split; [exact Ht|]. split.
  - intros t [Hs|Hn]; unfold after_sweep; [|by rewrite Hn]. destruct (dk_configs s !! tk_country t) as [cc|]; [|done].
    assert (forall limit, waits (tk_country t) limit t = false) as E.
    { intros limit. destruct (waits (tk_country t) limit t) eqn:E; [|done]. apply waits_spec in E as (_ & _ & E & _). congruence. }
    unfold swept_by. by rewrite !E.
  - unfold sweep_waiting at 1. rewrite Hc. apply sweep_idle. intros c cc Hin j t Hj. apply elem_of_map_to_list in Hin.
    rewrite Ht in Hj. apply fmap_Some in Hj as (x & Hx & ->).
    destruct (decide (tk_country x = c)) as [<-|E].
    + unfold after_sweep. rewrite Hin. apply swept_rests.
    + assert (tk_country (after_sweep now s x) <> c) as E'.
      { unfold after_sweep. destruct (dk_configs s !! tk_country x); [by rewrite swept_country|done]. }
      assert (forall limit, waits c limit (after_sweep now s x) = false) as F by (intros limit; unfold waits; by rewrite bool_decide_false). by rewrite !F.
Qed.

(** ** A rider who waits for an answer *)

(** Agent 7 answers tickets in Hyderabad; rider 5 has an Indian number and no trip yet. *)
Definition desk_role : Role :=
  {| r_code := "support_agent"; r_permissions := ["support.read"; "support.reply"]; r_global_only := false; r_active := true |}.

Definition demo_desk_access : AccessDb :=
  {| nodes := demo_tree; roles := {[ 1 := desk_role ]};
     assignments := {[ 1 := {| as_admin := 7; as_role := 1; as_scope := 4; as_active := true |} ]};
     users := {[ 7 := demo_user 7 false ]}; strict_mode := true |}.

Definition demo_desk_env : SafetyEnv := {|
  se_access := demo_desk_access; se_configs := []; se_trips := ∅; se_driver_of _ := None; se_driver_user d := d; se_home_city _ := None;
  se_is_rider u := u =? 5; se_rider_home _ := None; se_phone _ := Some "+919812345678"; se_trip_window := 0; se_zones_at _ _ := [];
  se_sees _ _ _ := true |}.

Definition demo_desk : Desk :=
  {| dk_tickets := ∅; ticket_next := 1; dk_messages := []; dk_policies := ∅; dk_configs := {[ "IN" := {| cc_reminder_days := 2; cc_autoclose_days := 7; cc_review_hours := 48; cc_version := 1 |} ]};
     dk_inbox := [] |}.

Definition demo_ticket (issue : string) : Ticket := new_ticket demo_desk_env 5 None issue "I was charged twice" 0 demo_desk.

Definition demo_moves : list (Z * ticket_status) :=
  [(10 * MINUTE, TkWaiting); (70 * MINUTE, TkInProgress); (80 * MINUTE, TkInProgress); (90 * MINUTE, TkWaiting)].

(** One hour waited, and waiting again: 60 minutes more, frozen at what was left after 90. *)
Lemma clock_stops_while_waiting_witness :
  let t := walked (demo_ticket "payment") demo_moves in
  tk_paused t = 3600 /\ tk_due t = Some ((2880 + 60) * MINUTE) /\
  ck_left (ss_resolution (sla_state t (5000 * MINUTE))) = Some (2880 + 60 - 90).
Proof.
  destruct (clock_stops_while_waiting (demo_ticket "payment") (2880 * MINUTE) demo_moves) as (Hp & Hd & _ & Hc);
    [reflexivity|discriminate|reflexivity|vm_compute; reflexivity|].
  split; [rewrite Hp; vm_compute; reflexivity|]. split; [rewrite Hd; vm_compute; reflexivity|].
  destruct (Hc ltac:(vm_compute; discriminate) (5000 * MINUTE)) as [_ Hl]. rewrite Hl. vm_compute. reflexivity.
Defined.

Lemma queue_agrees_with_badge_witness :
  breached_q (300 * MINUTE) (demo_ticket "payment") = true /\ ss_state (sla_state (demo_ticket "payment") (300 * MINUTE)) = SlaBreached.
Proof.
  split; [vm_compute; reflexivity|].
  apply (proj1 (queue_agrees_with_badge (demo_ticket "payment") (300 * MINUTE))). left. vm_compute. reflexivity.
Defined.

(** For less than a minute a ticket has the badge of those due soon and is not in their list. *)
Lemma badge_before_list :
  let t := demo_ticket "payment" in let now := 180 * MINUTE - 30 * SECOND in
  ss_state (sla_state t now) = SlaDueSoon /\ due_soon_q now t = false.
Proof. vm_compute. done. Qed.

Lemma who_may_act_sees_witness :
  ticket_may demo_desk_env (demo_user 7 false) "support.reply" (demo_ticket "payment") = true /\
  sees_ticket demo_desk_env (demo_user 7 false) None (demo_ticket "payment") = true.
Proof.
  assert (ticket_may demo_desk_env (demo_user 7 false) "support.reply" (demo_ticket "payment") = true) as H by (vm_compute; reflexivity).
  split; [exact H|]. revert H. apply who_may_act_sees.
  - intros p [= <-]. exists (chars "919812345678"). split; [reflexivity|]. apply (bool_decide_unpack _). vm_compute. exact I.
  - intros i n Hi. vm_compute in Hi. by apply not_elem_of_nil in Hi.
Defined.
