(* ===== verification/DeskSafety.v ===== *)
(** * DeskSafety: the support desk under every interleaving

    Users, operators, sweeps, approvals and changes of the numbers run in any order, each on
    tables it read at any earlier moment of the run.  Every operation is reduced to a few
    elementary moves, and the invariants are proved of those. *)

From S2P Require Import Prelude PyText Models Json Access Alerts SafetyConfig Incidents TripConsole Macros Tickets TicketSafety.
#[local] Open Scope string_scope.
#[local] Open Scope list_scope.
#[local] Open Scope Z_scope.

(** ** A ticket in order *)

Definition minutes_ok (m : Z) : Prop := 1 <= m <= MAX_MINUTES.

(** Both due times count from the creation: minutes of a policy, and for the resolution the time paused. *)
Definition clocks_ok (t : Ticket) : Prop :=
  0 <= tk_paused t /\
  exists first m, minutes_ok first /\ minutes_ok m /\ tk_first_due t = Some (tk_created t + first * MINUTE) /\
    tk_due t = Some (tk_created t + m * MINUTE + tk_paused t * SECOND).

(** A ticket that was a safety concern when it was made never waits. *)
Definition never_waited (t : Ticket) : Prop := tk_waiting t = None /\ tk_paused t = 0 /\ tk_reminded t = None.

Record ticket_sound (t : Ticket) : Prop := {
  to_resolved : tk_status t = TkClosed <-> is_Some (tk_resolved t);
  to_clocks : clocks_ok t;
  to_safety : tk_safety_flag t = true -> never_waited t
}.

(** What never changes about a ticket, and what stays once it is there. *)
Definition identity (t : Ticket) := (tk_user t, tk_trip t, tk_description t, tk_created t, tk_country t, tk_safety_flag t).

Definition same (t t' : Ticket) : Prop := identity t' = identity t /\ forall r, tk_responded t = Some r -> tk_responded t' = Some r.

#[global] Instance same_preorder : PreOrder same.
Proof. split; [by intros t|]. intros a b c [H1 H2] [H3 H4]. split; [congruence|auto]. Qed.

Record desk_ok (s : Desk) : Prop := {
  do_tickets : forall i t, dk_tickets s !! i = Some t -> ticket_sound t;
  do_next : forall i, is_Some (dk_tickets s !! i) -> i < ticket_next s;
  do_keys : NoDup (omap mg_key (dk_messages s));
  do_policies : forall k f m, dk_policies s !! k = Some (f, m) -> minutes_ok f /\ f <= m /\ minutes_ok m;
  do_configs : forall c cc, dk_configs s !! c = Some cc -> 1 <= cc_reminder_days cc < cc_autoclose_days cc
}.

(** A later moment keeps what an earlier one had. *)
Definition kept (s s' : Desk) : Prop :=
  (forall i t, dk_tickets s !! i = Some t -> exists t', dk_tickets s' !! i = Some t' /\ same t t') /\
  exists new, dk_messages s' = dk_messages s ++ new.

#[global] Instance kept_preorder : PreOrder kept.
Proof.
  split.
  - intros s. split; [intros i t H; by exists t|]. exists []. by rewrite app_nil_r.
  - intros a b c [H1 [n1 E1]] [H2 [n2 E2]]. split; [|exists (n1 ++ n2); by rewrite E2, E1, app_assoc].
    intros i t (t1 & Ht1 & S1)%H1. apply H2 in Ht1 as (t2 & Ht2 & S2). exists t2. split; [done|by transitivity t1].
Qed.

(** ** Moves *)

Inductive desk_move : Desk -> Desk -> Prop :=
| mv_message m s : (forall k, mg_key m = Some k -> existsb (keyed_by k) (dk_messages s) = false) -> desk_move s (push_message m s)
| mv_inbox x s : desk_move s (push_inbox x s)
| mv_ticket i t t' s : dk_tickets s !! i = Some t -> (desk_ok s -> ticket_sound t' /\ same t t') -> desk_move s (set_ticket i t' s)
| mv_new t s : (desk_ok s -> ticket_sound t) ->
    desk_move s {| dk_tickets := <[ticket_next s := t]> (dk_tickets s); ticket_next := ticket_next s + 1; dk_messages := dk_messages s;
                   dk_policies := dk_policies s; dk_configs := dk_configs s; dk_inbox := dk_inbox s |}
| mv_numbers p c s :
    (forall k f m, p !! k = Some (f, m) -> dk_policies s !! k = Some (f, m) \/ (minutes_ok f /\ f <= m /\ minutes_ok m)) ->
    (forall k cc, c !! k = Some cc -> dk_configs s !! k = Some cc \/ 1 <= cc_reminder_days cc < cc_autoclose_days cc) ->
    desk_move s {| dk_tickets := dk_tickets s; ticket_next := ticket_next s; dk_messages := dk_messages s; dk_policies := p; dk_configs := c;
                   dk_inbox := dk_inbox s |}.

Notation moves := (rtc desk_move).

Lemma key_free (k : string) (l : list Message) : existsb (keyed_by k) l = false <-> k ∉ omap mg_key l.
Proof.
  rewrite <- not_true_iff_false, existsb_exists, list_elem_of_omap. unfold keyed_by. split.
  - intros H (m & Hm & E). apply H. exists m. rewrite <- list_elem_of_In, bool_decide_eq_true. done.
  - intros H (m & Hm & E%bool_decide_eq_true). apply H. exists m. by rewrite list_elem_of_In.
Qed.

Lemma desk_move_ok (s s' : Desk) : desk_move s s' -> desk_ok s -> desk_ok s' /\ kept s s'.
Proof.
  intros [m t Hk|x t|i t t' u Hi Ht|t u Ht|p c u Hp Hc] H; pose proof H as [H1 H2 H3 H4 H5].
  - split; [|split; [intros i x Hx; by exists x|by exists [m]]]. split; cbn; [done|done| |done|done].
    rewrite omap_app. cbn. destruct (mg_key m) as [k|] eqn:E; [|by rewrite app_nil_r]. apply NoDup_app. split; [done|]. split.
    + intros j Hj ->%list_elem_of_singleton. specialize (Hk k eq_refl). by apply key_free in Hk.
    + apply NoDup_singleton.
  - split; [|split; [intros i y Hy; by exists y|exists []; by rewrite app_nil_r]]. by split.
  - destruct (Ht H) as [Hok Hs]. split; [split; cbn; [| |done|done|done]|split; [|exists []; by rewrite app_nil_r]].
    + intros j x. destruct (decide (j = i)) as [->|Hne]; [rewrite lookup_insert_eq; by intros [= <-]|rewrite lookup_insert_ne by done; apply H1].
    + intros j. destruct (decide (j = i)) as [->|Hne]; [intros _; apply H2; eauto|rewrite lookup_insert_ne by done; apply H2].
    + intros j x Hj. cbn. destruct (decide (j = i)) as [->|Hne]; [|rewrite lookup_insert_ne by done; by exists x].
      rewrite lookup_insert_eq. exists t'. split; [done|]. rewrite Hi in Hj. by injection Hj as <-.
  - split; [split; cbn; [| |done|done|done]|split; [|exists []; by rewrite app_nil_r]].
    + intros j x. destruct (decide (j = ticket_next u)) as [->|Hne]; [rewrite lookup_insert_eq; intros [= <-]; by apply Ht|rewrite lookup_insert_ne by done; apply H1].
    + intros j. destruct (decide (j = ticket_next u)) as [->|Hne]; [lia|rewrite lookup_insert_ne by done]. intros Hj%H2. lia.
    + intros j x Hj. cbn. rewrite lookup_insert_ne; [by exists x|]. assert (j < ticket_next u) by (apply H2; eauto). lia.
  - split; [|split; [intros i x Hx; by exists x|exists []; by rewrite app_nil_r]]. split; cbn; [done|done|done| |].
    + intros k f m Hk. destruct (Hp k f m Hk) as [Hk'|Hk']; [by apply (H4 k)|done].
    + intros k cc Hk. destruct (Hc k cc Hk) as [Hk'|Hk']; [by apply (H5 k)|done].
Qed.

Lemma desk_moves_ok (s s' : Desk) : moves s s' -> desk_ok s -> desk_ok s' /\ kept s s'.
Proof.
  induction 1 as [|x y z Hxy _ IH]; intros H; [by split|]. destruct (desk_move_ok x y Hxy H) as [Hy Ky]. destruct (IH Hy) as [Hz Kz].
  split; [done|by transitivity y].
Qed.

(** ** What the operations do to one ticket *)

Lemma enter_identity (st : ticket_status) (now : Z) (t : Ticket) :
  identity (enter_status st now t) = identity t /\ tk_responded (enter_status st now t) = tk_responded t /\
  tk_status (enter_status st now t) = st /\ tk_resolved (enter_status st now t) = tk_resolved t /\ tk_reminded (enter_status st now t) = tk_reminded t.
Proof. unfold enter_status. destruct (tk_waiting t); repeat case_match; done. Qed.

Lemma waited_nonneg (a b : Z) : 0 <= waited a b.
Proof. unfold waited. lia. Qed.

Lemma resumed_clocks (now since : Z) (t : Ticket) : clocks_ok t -> clocks_ok (resumed now since t).
Proof.
  intros (Hp & f & m & Hf & Hm & E1 & E2). pose proof (waited_nonneg since now). split; [cbn; lia|]. exists f, m.
  split; [done|]. split; [done|]. split; [done|]. cbn [tk_due resumed with_pause tk_created tk_paused]. rewrite E2. cbn [fmap option_fmap option_map]. f_equal. lia.
Qed.

Lemma enter_clocks (st : ticket_status) (now : Z) (t : Ticket) :
  clocks_ok t -> (tk_safety_flag t = true -> never_waited t) ->
  clocks_ok (enter_status st now t) /\ (tk_safety_flag t = true -> never_waited (enter_status st now t)).
Proof.
  intros Hc Hs. split.
  - unfold enter_status. set (t1 := match tk_waiting t with Some _ => _ | None => _ end).
    assert (clocks_ok t1) as H1 by (unfold t1; destruct (tk_waiting t); [|done]; destruct (_ && _); [by apply resumed_clocks|done]).
    clearbody t1. by destruct (_ && _ && _).
  - intros Hf. destruct (Hs Hf) as (Hw & Hp & Hr). unfold enter_status. rewrite Hw. unfold is_safety. rewrite Hf. cbn [orb negb]. rewrite andb_false_r. done.
Qed.

Ltac same_ticket := split; [done|by intros ? ?].

Lemma set_status_ok (st : ticket_status) (now : Z) (t : Ticket) : ticket_sound t -> ticket_sound (set_status st now t) /\ same t (set_status st now t).
Proof.
  intros [Hr Hc Hs]. destruct (enter_identity st now t) as (Hi & Hre & Hst & Hres & _). destruct (enter_clocks st now t Hc Hs) as [Hc' Hs'].
  unfold set_status. generalize dependent (enter_status st now t). intros u Hi Hre Hst Hres Hc' Hs'.
  assert (tk_safety_flag u = tk_safety_flag t) as Hf by (unfold identity in Hi; congruence). rewrite <- Hf in Hs'.
  case_bool_decide as E.
  - split; [split; [cbn; rewrite Hst; split; [eauto|done]|exact Hc'|exact Hs']|]. split; [exact Hi|]. intros r. cbn. by rewrite Hre.
  - split; [split; [cbn; rewrite Hst; split; [done|by intros [? [=]]]|exact Hc'|exact Hs']|]. split; [exact Hi|]. intros r. cbn. by rewrite Hre.
Qed.

(** Writing columns the invariant does not speak of. *)
Lemma plain_ok (t t' : Ticket) :
  tk_status t' = tk_status t -> tk_resolved t' = tk_resolved t -> tk_first_due t' = tk_first_due t -> tk_due t' = tk_due t ->
  tk_paused t' = tk_paused t -> tk_waiting t' = tk_waiting t -> tk_reminded t' = tk_reminded t -> same t t' -> ticket_sound t -> ticket_sound t' /\ same t t'.
Proof.
  intros E1 E2 E3 E4 E5 E6 E7 [Hi Hr] [H1 H2 H3]. injection Hi as F1 F2 F3 F4 F5 F6. split; [split|split; [unfold identity; congruence|done]].
  - by rewrite E1, E2.
  - unfold clocks_ok. rewrite E3, E4, E5, F4. exact H2.
  - unfold never_waited. rewrite E5, E6, E7, F6. exact H3.
Qed.

Lemma policy_in_range (s : Desk) (country : string) (p : ticket_priority) :
  desk_ok s -> minutes_ok (policy_minutes country p s).1 /\ minutes_ok (policy_minutes country p s).2.
Proof.
  intros H. unfold policy_minutes. destruct (dk_policies s !! (country, PRIORITY_RANK p)) as [[f m]|] eqn:E.
  - destruct (do_policies s H _ f m E) as (H1 & _ & H2). done.
  - unfold minutes_ok, MAX_MINUTES. destruct p; cbn; lia.
Qed.

Lemma due_times_clocks (s : Desk) (t : Ticket) : desk_ok s -> 0 <= tk_paused t -> clocks_ok (apply_due_times s t).
Proof.
  intros H Hp. destruct (policy_in_range s (tk_country t) (tk_priority t) H) as [H1 H2]. unfold apply_due_times.
  destruct (policy_minutes _ _ s) as [f m]. split; [done|]. by exists f, m.
Qed.

Lemma due_times_rest (s : Desk) (t : Ticket) :
  identity (apply_due_times s t) = identity t /\ tk_responded (apply_due_times s t) = tk_responded t /\ tk_status (apply_due_times s t) = tk_status t /\
  tk_resolved (apply_due_times s t) = tk_resolved t /\ tk_waiting (apply_due_times s t) = tk_waiting t /\ tk_paused (apply_due_times s t) = tk_paused t /\
  tk_reminded (apply_due_times s t) = tk_reminded t.
Proof. unfold apply_due_times. by destruct (policy_minutes _ _ s). Qed.

(** ** Operations as moves *)

Lemma no_moves (s : Desk) : moves s s.
Proof. apply rtc_refl. Qed.

Lemma one_move (s s' : Desk) : desk_move s s' -> moves s s'.
Proof. apply rtc_once. Qed.

#[local] Hint Resolve no_moves : core.

Lemma post_moves (i : Z) (author : option Z) (role : author_role) (body key : string) (s : Desk) : moves s (post_once i author role body key s).
Proof.
  unfold post_once. destruct (existsb (keyed_by key) (dk_messages s)) eqn:E; [by rewrite orb_true_r|]. destruct (negb _); [done|].
  apply one_move, mv_message. by intros k [= <-].
Qed.

Lemma change_ticket_moves (i : Z) (reason : option string) (apply_ : Ticket -> option Ticket) (s : Desk) :
  (forall t t', apply_ t = Some t' -> desk_ok s -> ticket_sound t -> ticket_sound t' /\ same t t') -> moves s (change_ticket i reason apply_ s).2.
Proof.
  intros H. unfold change_ticket. destruct (text_of _ _ _ _); [|done]. destruct (dk_tickets s !! i) as [t|] eqn:E; [|done].
  destruct (apply_ t) as [t'|] eqn:F; [|done]. cbn. apply one_move, (mv_ticket i t t'); [done|]. intros Hs.
  apply H; [done|done|by apply (do_tickets s Hs i)].
Qed.

Lemma checked_moves {A : Type} (i : Z) (reason : option string) (checks : res refusal A) (apply_ : A -> Ticket -> option Ticket) (s : Desk) :
  (forall a t t', apply_ a t = Some t' -> desk_ok s -> ticket_sound t -> ticket_sound t' /\ same t t') -> moves s (checked i reason checks apply_ s).2.
Proof. intros H. unfold checked. destruct checks as [a|]; [|done]. apply change_ticket_moves. intros t t'. apply H. Qed.

Lemma unless_some {A : Type} (b : bool) (a x : A) : unless b a = Some x -> x = a.
Proof. destruct b; [done|]. by intros [= <-]. Qed.

Lemma new_ticket_ok (env : SafetyEnv) (user : Z) (trip : option Z) (issue description : string) (now : Z) (s : Desk) :
  desk_ok s -> ticket_sound (new_ticket env user trip issue description now s).
Proof.
  intros H. unfold new_ticket. match goal with |- ticket_sound (apply_due_times s ?x) => set (t := x) end.
  destruct (due_times_rest s t) as (_ & _ & E3 & E4 & E5 & E6 & E7). split.
  - rewrite E3, E4. cbn. split; [done|by intros [? [=]]].
  - apply due_times_clocks; [done|]. cbn. lia.
  - intros _. split; [by rewrite E5|split; [by rewrite E6|by rewrite E7]].
Qed.

Lemma create_moves (env : SafetyEnv) (user : Z) (issue description : option string) (trip : option Z) (now : Z) (s : Desk) :
  moves s (create_ticket env user issue description trip now s).2.
Proof.
  unfold create_ticket. cbv zeta. destruct (let* _ := _ in _) as [[]|]; [|done]. cbn [snd].
  eapply rtc_l; [apply mv_new; apply new_ticket_ok|]. apply one_move, mv_message. done.
Qed.

Lemma user_message_moves (user i : Z) (body : option string) (seen : Desk) (now : Z) (s : Desk) : moves s (add_user_message user i body seen now s).2.
Proof.
  unfold add_user_message. cbv zeta. destruct (let* _ := _ in _) as [t|]; [|done]. cbn [snd].
  match goal with |- moves s (if _ then match dk_tickets ?x !! _ with _ => _ end else _) => set (s1 := x) end.
  assert (moves s s1) as H1 by (apply one_move, mv_message; done).
  destruct (bool_decide _); [|done]. destruct (dk_tickets s1 !! i) as [x|] eqn:E; [|done]. case_bool_decide as Hw; [|done].
  etransitivity; [exact H1|]. apply one_move, (mv_ticket i x); [done|]. intros Hs. pose proof (do_tickets s1 Hs i x E) as [Hr Hc Hf].
  destruct (enter_identity TkInProgress now x) as (Hi & Hre & Hst & Hres & _). destruct (enter_clocks TkInProgress now x Hc Hf) as [Hc' Hf'].
  split; [split|].
  - rewrite Hst, Hres. split; [done|]. intros Hsome%Hr. congruence.
  - done.
  - intros G. apply Hf'. unfold identity in Hi. congruence.
  - split; [done|]. intros r. by rewrite Hre.
Qed.

(** The close of a user writes columns of the row it read, which is the same ticket at an earlier moment. *)
Lemma user_close_moves (user i : Z) (seen : Desk) (now : Z) (s : Desk) :
  desk_ok seen -> kept seen s -> moves s (close_my_ticket user i seen now s).2.
Proof.
  intros Hseen [Hkept _]. unfold close_my_ticket, own_ticket. destruct (dk_tickets seen !! i) as [t|] eqn:Et; [|done]. cbn [mbind option_bind].
  destruct (tk_user t =? user); [|done]. cbn [res_opt]. destruct (bool_decide _); [done|]. destruct (dk_tickets s !! i) as [x|] eqn:Ex; [|done]. cbn [snd].
  apply one_move, (mv_ticket i x); [done|]. intros Hs. destruct (Hkept i t Et) as (x' & Hx' & Hi & _). rewrite Ex in Hx'. injection Hx' as <-.
  pose proof (do_tickets s Hs i x Ex) as [Hr Hc Hf]. pose proof (do_tickets seen Hseen i t Et) as [Tr Tc Tf].
  destruct (enter_clocks TkClosed now t Tc Tf) as [(Tp & f' & m & _ & Hm & _ & Ed) _]. destruct (enter_identity TkClosed now t) as (Te & _).
  assert (tk_created (enter_status TkClosed now t) = tk_created x) as Hcr by (unfold identity in Te, Hi; congruence).
  assert (tk_safety_flag t = tk_safety_flag x) as Hfl by (unfold identity in Hi; congruence).
  destruct (bool_decide (tk_status t = TkWaiting) && bool_decide (is_Some (tk_waiting t))) eqn:E; cbn [tk_resolved].
  - apply andb_true_iff in E as [_ Hw%bool_decide_eq_true]. split; [split|same_ticket].
    + cbn. split; [eauto|done].
    + destruct Hc as (_ & f & _ & H1 & _ & H2 & _). split; [exact Tp|]. exists f, m. split; [done|]. split; [done|]. split; [exact H2|].
      cbn [tk_due with_resolved with_ticket_status with_pause tk_created tk_paused]. by rewrite Ed, Hcr.
    + cbn. intros G. rewrite <- Hfl in G. apply Tf in G as [G _]. rewrite G in Hw. by destruct Hw.
  - split; [split; [cbn; split; [eauto|done]|exact Hc|exact Hf]|same_ticket].
Qed.

Lemma replied_ok (st : option ticket_status) (now : Z) (t : Ticket) : ticket_sound t -> ticket_sound (replied st now t) /\ same t (replied st now t).
Proof.
  intros H. unfold replied. set (t1 := if bool_decide (tk_responded t = None) then with_responded now t else t).
  assert (ticket_sound t1 /\ same t t1) as [H1 S1].
  { unfold t1. case_bool_decide as E; [|done]. apply plain_ok; try done. split; [done|]. intros r Hr. congruence. }
  clearbody t1. assert (forall u, ticket_sound u /\ same t1 u -> ticket_sound (clear_returned u) /\ same t (clear_returned u)) as Hend.
  { intros u [Hu Su]. destruct (plain_ok u (clear_returned u)) as [H2 S2]; try done. split; [done|]. transitivity t1; [done|]. by transitivity u. }
  destruct st as [st|]; [by apply Hend, set_status_ok|]. destruct (bool_decide _); [by apply Hend, set_status_ok|]. by apply Hend.
Qed.

Lemma reply_moves (env : DeskEnv) (u : User) (i : Z) (b : ReplyBody) (seen : Desk) (now : Z) (s : Desk) : moves s (admin_reply env u i b seen now s).2.
Proof.
  unfold admin_reply. destruct (reply_of _ _ _ _ _) as [[[[t body] st] key]|]; [|done]. destruct (keyed key seen); [done|].
  destruct (_ && _); [done|]. destruct (dk_tickets s !! i) as [x|] eqn:E; [|done]. destruct (keyed key s) eqn:K; [done|]. cbn [snd].
  eapply rtc_l.
  - apply (mv_message {| mg_ticket := i; mg_author := Some (uid u); mg_role := BySupport; mg_body := body; mg_key := key |}).
    intros k Hk. cbn in Hk. subst key. exact K.
  - apply one_move, (mv_ticket i x); [done|]. intros Hs. apply replied_ok. by apply (do_tickets _ Hs i).
Qed.

Lemma note_moves (env : SafetyEnv) (u : User) (i : Z) (body header key : option string) (seen s : Desk) : moves s (admin_note env u i body header key seen s).2.
Proof.
  unfold admin_note. destruct (let* _ := _ in _) as [[text k]|]; [|done]. destruct (keyed k seen || keyed k s) eqn:K; [done|].
  apply orb_false_iff in K as [_ K]. cbn [snd]. apply one_move, mv_message. intros k' Hk. cbn in Hk. subst k. exact K.
Qed.

Lemma priority_ok (s : Desk) (p : ticket_priority) (t : Ticket) :
  desk_ok s -> ticket_sound t -> ticket_sound (apply_due_times s (with_priority p t)) /\ same t (apply_due_times s (with_priority p t)).
Proof.
  intros Hs [Hr Hc Hf]. destruct (due_times_rest s (with_priority p t)) as (E1 & E2 & E3 & E4 & E5 & E6 & E7). split; [split|].
  - by rewrite E3, E4.
  - apply due_times_clocks; [done|]. by destruct Hc.
  - intros G. unfold never_waited. rewrite E5, E6, E7. apply Hf. unfold identity in E1. change (tk_safety_flag t = true).
    change (tk_safety_flag (with_priority p t)) with (tk_safety_flag t) in E1. congruence.
  - split; [exact E1|]. intros r. by rewrite E2.
Qed.

Lemma return_moves (env : SafetyEnv) (r : TurnedDown) (o : refund_outcome) (now : Z) (s : Desk) : moves s (return_refund_to_agent env r o now s).
Proof.
  unfold return_refund_to_agent. destruct (i ← td_ticket r; _) as [i|]; [|done]. destruct (dk_tickets s !! i) as [t|] eqn:E; [|done]. cbv zeta.
  match goal with |- context [set_ticket i ?t' (post_internal_note i ?n ?k ?a s)] => set (t1 := t'); set (s1 := post_internal_note i n k a s) end.
  assert (moves s s1) as H1 by apply post_moves. assert (dk_tickets s1 !! i = Some t) as E1 by (unfold s1; unfold post_internal_note; by rewrite (proj1 (post_tickets _ _ _ _ _ _))).
  assert (moves s (set_ticket i t1 s1)) as H2.
  { etransitivity; [exact H1|]. apply one_move, (mv_ticket i t); [done|]. intros Hs. pose proof (do_tickets s1 Hs i t E1) as Ht.
    unfold t1, returned. match goal with |- context [with_resolved None (enter_status TkInProgress now ?x)] => set (t0 := x) end.
    destruct (plain_ok t t0) as [H0 S0]; try done. clearbody t0. destruct H0 as [Hr Hc Hf].
    destruct (enter_identity TkInProgress now t0) as (Hi & Hre & Hst & Hres & _). destruct (enter_clocks TkInProgress now t0 Hc Hf) as [Hc' Hf'].
    assert (ticket_sound (with_resolved None (enter_status TkInProgress now t0)) /\ same t (with_resolved None (enter_status TkInProgress now t0))) as [H3 S3].
    { generalize dependent (enter_status TkInProgress now t0). intros x Hi Hre Hst Hres Hc' Hf'.
      assert (tk_safety_flag x = tk_safety_flag t0) as Hfl by (unfold identity in Hi; congruence). rewrite <- Hfl in Hf'. split; [split|].
      - cbn. rewrite Hst. split; [done|by intros [? [=]]].
      - exact Hc'.
      - exact Hf'.
      - transitivity t0; [done|]. split; [exact Hi|]. intros q. cbn. by rewrite Hre. }
    match goal with |- context [match ?m with Some _ => _ | None => _ end] => destruct m as [k|]; [|done] end.
    generalize dependent (with_resolved None (enter_status TkInProgress now t0)). intros y H3 S3.
    split; [|exact S3]. by apply (plain_ok y). }
  match goal with |- context [match ?m with Some _ => _ | None => _ end] => destruct m as [k|]; [|exact H2] end.
  destruct (existsb _ _); [exact H2|]. etransitivity; [exact H2|]. apply one_move, mv_inbox.
Qed.

Lemma remind_moves (i since now : Z) (s : Desk) : moves s (remind i since now s).2.
Proof.
  unfold remind. destruct (dk_tickets s !! i) as [t|] eqn:E; [|done]. destruct (negb _ || _ || is_safety t) eqn:G; [done|]. cbn [snd].
  apply orb_false_iff in G as [_ G]. etransitivity; [|apply post_moves]. apply one_move, (mv_ticket i t); [done|]. intros Hs.
  pose proof (do_tickets s Hs i t E) as [Hr Hc Hf]. split; [split; [exact Hr|exact Hc|]|same_ticket].
  cbn. intros F. unfold is_safety in G. by rewrite F in G.
Qed.

Lemma autoclose_moves (i now : Z) (s : Desk) : moves s (autoclose i now s).2.
Proof.
  unfold autoclose. destruct (dk_tickets s !! i) as [t|] eqn:E; [|done]. destruct (_ || _); [done|]. cbn [snd].
  etransitivity; [|apply post_moves]. apply one_move, (mv_ticket i t); [done|]. intros Hs.
  pose proof (do_tickets s Hs i t E) as [Hr Hc Hf]. destruct (enter_identity TkClosed now t) as (Hi & Hre & Hst & Hres & _).
  destruct (enter_clocks TkClosed now t Hc Hf) as [Hc' Hf']. generalize dependent (enter_status TkClosed now t). intros x Hi Hre Hst Hres Hc' Hf'.
  assert (tk_safety_flag x = tk_safety_flag t) as Hfl by (unfold identity in Hi; congruence). rewrite <- Hfl in Hf'. split; [split|].
  - cbn. rewrite Hst. split; [eauto|done].
  - exact Hc'.
  - exact Hf'.
  - split; [exact Hi|]. intros q. cbn. by rewrite Hre.
Qed.

Lemma sla_moves (c : sla_change) (s : Desk) : moves s (execute_sla_change c s).2.
Proof.
  destruct c as [country p f m|country r a h]; cbn [execute_sla_change].
  - destruct (check_policy f m) eqn:E; [done|]. destruct (bool_decide _); [done|]. cbn [snd]. apply one_move, mv_numbers; [|by left].
    intros k f' m' Hk. destruct (decide (k = (country, PRIORITY_RANK p))) as [->|Hne]; [|rewrite lookup_insert_ne in Hk by done; by left].
    rewrite lookup_insert_eq in Hk. injection Hk as <- <-. right. unfold check_policy in E. unfold minutes_ok.
    destruct (f <? 1) eqn:E1, (m <? 1) eqn:E2, (m <? f) eqn:E3, (MAX_MINUTES <? Z.max f m) eqn:E4; cbn in E; try done. lia.
  - destruct (check_config r a h) eqn:E; [done|]. cbv zeta. destruct (bool_decide _); [done|]. cbn [snd]. apply one_move, mv_numbers; [by left|].
    intros k cc Hk. destruct (decide (k = country)) as [->|Hne]; [|rewrite lookup_insert_ne in Hk by done; by left].
    rewrite lookup_insert_eq in Hk. injection Hk as <-. right. cbn. unfold check_config in E.
    destruct (1 <=? r) eqn:E1, (r <=? 90), (1 <=? a), (a <=? 365), (a <=? r) eqn:E2; cbn in E; try done; lia.
Qed.

(** ** Runs *)

(** One operation, on the tables [seen] when it began. *)
Inductive desk_step (seen s : Desk) : Desk -> Prop :=
| ds_create env user issue description trip now : desk_step seen s (create_ticket env user issue description trip now s).2
| ds_message user i body now : desk_step seen s (add_user_message user i body seen now s).2
| ds_close user i now : desk_step seen s (close_my_ticket user i seen now s).2
| ds_reply env u i b now : desk_step seen s (admin_reply env u i b seen now s).2
| ds_note env u i body header key : desk_step seen s (admin_note env u i body header key seen s).2
| ds_status env u i st reason now : desk_step seen s (admin_set_status env u i st reason seen now s).2
| ds_priority env u i p reason : desk_step seen s (admin_set_priority env u i p reason seen s).2
| ds_category env u i issue reason : desk_step seen s (admin_set_category env u i issue reason seen s).2
| ds_assign env u i target reason : desk_step seen s (admin_assign env u i target reason seen s).2
| ds_return env r o now : desk_step seen s (return_refund_to_agent env r o now s)
| ds_remind i since now : desk_step seen s (remind i since now s).2
| ds_autoclose i now : desk_step seen s (autoclose i now s).2
| ds_numbers c : desk_step seen s (execute_sla_change c s).2
| ds_system i body key : desk_step seen s (post_system_message i body key s)
| ds_internal i body key author : desk_step seen s (post_internal_note i body key author s).

Definition empty_desk : Desk := {| dk_tickets := ∅; ticket_next := 1; dk_messages := []; dk_policies := ∅; dk_configs := ∅; dk_inbox := [] |}.

(** The moments of a run, the latest first; an operation may have read any earlier one. *)
Inductive desk_run : list Desk -> Prop :=
| run_start : desk_run [empty_desk]
| run_step seen s s' h : desk_run (s :: h) -> seen ∈ s :: h -> desk_step seen s s' -> desk_run (s' :: s :: h).

Lemma desk_step_moves (seen s s' : Desk) : desk_ok seen -> kept seen s -> desk_step seen s s' -> moves s s'.
Proof.
  intros Hseen Hk [env user issue d trip now|user i body now|user i now|env u i b now|env u i body header key|env u i st reason now
    |env u i p reason|env u i issue reason|env u i target reason|env r o now|i since now|i now|c|i body key|i body key author].
  - apply create_moves.
  - apply user_message_moves.
  - by apply user_close_moves.
  - apply reply_moves.
  - apply note_moves.
  - apply checked_moves. intros a t t' ->%unless_some _ Ht. by apply set_status_ok.
  - apply checked_moves. intros a t t' ->%unless_some Hs Ht. by apply priority_ok.
  - apply checked_moves. intros a t t' ->%unless_some _ Ht. apply plain_ok; try done; by split.
  - apply checked_moves. intros a t t' ->%unless_some _ Ht. apply plain_ok; try done; by split.
  - apply return_moves.
  - apply remind_moves.
  - apply autoclose_moves.
  - apply sla_moves.
  - apply post_moves.
  - apply post_moves.
Qed.

Lemma empty_ok : desk_ok empty_desk.
Proof.
  split; unfold empty_desk; cbn [dk_tickets dk_messages dk_policies dk_configs].
  - intros i t H. by rewrite lookup_empty in H.
  - intros i [t H]. by rewrite lookup_empty in H.
  - constructor.
  - intros k f m H. by rewrite lookup_empty in H.
  - intros c cc H. by rewrite lookup_empty in H.
Qed.

Lemma run_ok (h : list Desk) : desk_run h -> forall s, head h = Some s -> desk_ok s /\ forall a, a ∈ h -> desk_ok a /\ kept a s.
Proof.
  induction 1 as [|seen s s' h _ IH Hseen Hstep]; intros x [= <-].
  - split; [apply empty_ok|]. intros a ->%list_elem_of_singleton. split; [apply empty_ok|done].
  - destruct (IH s eq_refl) as [Hs Hall]. destruct (Hall seen Hseen) as [Hok Hk].
    destruct (desk_moves_ok s s' (desk_step_moves seen s s' Hok Hk Hstep) Hs) as [Hs' Hk']. split; [done|].
    intros a [->|Ha]%elem_of_cons; [done|]. destruct (Hall a Ha) as [Hoka Hka]. split; [done|by transitivity s].
Qed.

(** C18. The books of the desk: however users, operators, sweeps, returned refunds and changes of the
    numbers interleave, each on tables it read at any earlier moment, a ticket is closed exactly
    when it has a time of resolution; both its due times count from its creation, by minutes
    between one and 90 days, and its resolution by the time it was paused on top; who asked, about
    what, where and when never changes, a first answer stays the first answer, no message is lost
    and no key used twice; and in a country that reminds, the reminder comes before the close. *)
Theorem desk_books (s : Desk) (h : list Desk) :
  desk_run (s :: h) ->
  (forall i t, dk_tickets s !! i = Some t -> (tk_status t = TkClosed <-> is_Some (tk_resolved t)) /\ clocks_ok t) /\
  (forall a, a ∈ h -> kept a s) /\ NoDup (omap mg_key (dk_messages s)) /\
  (forall c cc, dk_configs s !! c = Some cc -> 1 <= cc_reminder_days cc < cc_autoclose_days cc).
Proof.
  intros H. destruct (run_ok _ H s eq_refl) as [Hs Hall]. split; [|split; [|split]].
  - intros i t Ht. destruct (do_tickets s Hs i t Ht). done.
  - intros a Ha. apply Hall. by right.
  - apply Hs.
  - apply Hs.
Qed.

(** C19. A safety concern never waits: whatever anybody does to a ticket that was one when it was made,
    and in whatever order, it is never paused and never reminded, its due time is its creation plus
    the minutes of a policy, and no sweep changes it; while it is open it is late exactly when that
    time has passed. *)
Theorem safety_never_waits (s : Desk) (h : list Desk) (i : Z) (t : Ticket) :
  desk_run (s :: h) -> dk_tickets s !! i = Some t -> tk_safety_flag t = true ->
  is_paused t = false /\ tk_reminded t = None /\
  (exists m, minutes_ok m /\ tk_due t = Some (tk_created t + m * MINUTE)) /\
  (forall now, after_sweep now s t = t) /\
  (tk_status t <> TkClosed -> forall now, ck_breached (ss_resolution (sla_state t now)) = past_due (tk_due t) now).
Proof.
  intros H Ht Hf. destruct (run_ok _ H s eq_refl) as [Hs _]. destruct (do_tickets s Hs i t Ht) as [_ (_ & f & m & _ & Hm & _ & Hd) Hsafe].
  destruct (Hsafe Hf) as (Hw & Hp & Hr). assert (is_paused t = false) as Hpaused.
  { unfold is_paused, is_safety. by rewrite Hf, andb_false_r. }
  split; [done|]. split; [done|]. split; [exists m; split; [done|]; rewrite Hd, Hp; f_equal; lia|]. split.
  - intros now. unfold after_sweep. destruct (dk_configs s !! tk_country t) as [cc|]; [|done]. unfold swept_by.
    assert (forall c limit, waits c limit t = false) as E by (intros c limit; unfold waits; by rewrite Hw, andb_false_r).
    by rewrite !E.
  - intros Ho now. destruct (resolution_clock t now Ho) as [-> _]. by rewrite Hpaused.
Qed.

(** ** A day at the desk *)

Definition demo_settings : sla_change := ChangeConfig "IN" 2 7 48.

Definition desk_0 : Desk := (execute_sla_change demo_settings empty_desk).2.
Definition desk_1 (issue : string) : Desk := (create_ticket demo_desk_env 5 (Some issue) (Some "I was charged twice") None 0 desk_0).2.

Definition ask_user : ReplyBody :=
  {| rb_status := Some "waiting_user"; rb_header := Some "k1"; rb_key := None; rb_macro := None; rb_body := Some "Which card was it?" |}.

Definition demo_replier : DeskEnv := {| sp_env := demo_desk_env; sp_name _ := "Asha Rao"; sp_macros := {| md_macros := ∅; macro_next := 1; md_versions := [] |} |}.

(** The agent asks at minute [m]; a day is 1440 of them. *)
Definition asked_at (m : Z) (s : Desk) : Desk := (admin_reply demo_replier (demo_user 7 false) 1 ask_user s (m * MINUTE) s).2.
Definition answered_at (m : Z) (s : Desk) : Desk := (add_user_message 5 1 (Some "the blue one") s (m * MINUTE) s).2.
Definition at_day (d : Z) (s : Desk) : Desk := (sweep_waiting (d * DAY) s).2.
Definition status_to (st : string) (m : Z) (s : Desk) : Desk :=
  (admin_set_status demo_desk_env (demo_user 7 false) 1 (Some st) None s (m * MINUTE) s).2.
Definition ticket_1 (s : Desk) : option Ticket := dk_tickets s !! 1.

Lemma demo_run : desk_run [answered_at 1440 (asked_at 5 (desk_1 "payment")); asked_at 5 (desk_1 "payment"); desk_1 "payment"; desk_0; empty_desk].
Proof.
  eapply run_step; [|left|apply ds_message]. eapply run_step; [|left|apply ds_reply]. eapply run_step; [|left|apply ds_create].
  eapply run_step; [apply run_start|left|apply ds_numbers].
Qed.

Lemma desk_books_witness :
  let s := answered_at 1440 (asked_at 5 (desk_1 "payment")) in
  (tk_paused <$> ticket_1 s) = Some (1435 * 60) /\ (forall a, a ∈ [asked_at 5 (desk_1 "payment"); desk_1 "payment"; desk_0; empty_desk] -> kept a s).
Proof. split; [vm_compute; reflexivity|]. apply (desk_books (answered_at 1440 (asked_at 5 (desk_1 "payment"))) _ demo_run). Defined.

Lemma safety_never_waits_witness :
  let t := new_ticket demo_desk_env 5 None "safety" "I was charged twice" 0 desk_0 in
  ticket_1 (desk_1 "safety") = Some t /\ is_paused t = false /\ after_sweep (100 * DAY) (desk_1 "safety") t = t.
Proof.
  assert (ticket_1 (desk_1 "safety") = Some (new_ticket demo_desk_env 5 None "safety" "I was charged twice" 0 desk_0)) as Ht by (vm_compute; reflexivity).
  cbv zeta. split; [exact Ht|].
  destruct (safety_never_waits (desk_1 "safety") [desk_0; empty_desk] 1 (new_ticket demo_desk_env 5 None "safety" "I was charged twice" 0 desk_0))
    as (Hp & _ & _ & Hs & _).
  - eapply run_step; [|left|apply ds_create]. eapply run_step; [apply run_start|left|apply ds_numbers].
  - exact Ht.
  - reflexivity.
  - split; [exact Hp|apply Hs].
Defined.

(** ** Gaps *)

(** A ticket that becomes a safety concern while it waits: its clock runs at once, and the moment the user
    answers the days of the wait are taken off it again. *)
Lemma recategorised_ticket_still_pauses :
  let s := (admin_set_category demo_desk_env (demo_user 7 false) 1 (Some "safety") None (asked_at 5 (desk_1 "payment")) (asked_at 5 (desk_1 "payment"))).2 in
  (is_safety <$> ticket_1 s) = Some true /\ (is_paused <$> ticket_1 s) = Some false /\
  (ss_state ∘ (fun t => sla_state t (3 * DAY)) <$> ticket_1 s) = Some SlaBreached /\
  (ss_state ∘ (fun t => sla_state t (3 * DAY)) <$> ticket_1 (answered_at (3 * 1440) s)) = Some SlaOk.
Proof. vm_compute. done. Qed.

(** The mark of the one reminder is never taken back: a user who answered and was asked again is not
    reminded, and the second wait ends in a close. *)
Lemma second_wait_is_closed_unreminded :
  let s := asked_at (4 * 1440) (answered_at (3 * 1440) (at_day 3 (asked_at 5 (desk_1 "payment")))) in
  length (List.filter (fun m => bool_decide (mg_body m = REMINDER_TEXT)) (dk_messages s)) = 1%nat /\
  (tk_waiting <$> ticket_1 s) = Some None /\ (tk_waiting <$> ticket_1 (status_to "WAITING_USER" (4 * 1440) s)) = Some (Some (4 * DAY)) /\
  let s' := at_day 11 (at_day 10 (at_day 8 (at_day 7 (status_to "WAITING_USER" (4 * 1440) s)))) in
  (tk_status <$> ticket_1 s') = Some TkClosed /\
  length (List.filter (fun m => bool_decide (mg_body m = REMINDER_TEXT)) (dk_messages s')) = 1%nat.
Proof. vm_compute. done. Qed.

(** The message of the close says to reply here, and the reply is refused. *)
Lemma told_to_reply_and_refused :
  let s := at_day 8 (asked_at 5 (desk_1 "payment")) in
  existsb (fun m => bool_decide (mg_body m = AUTOCLOSE_TEXT)) (dk_messages s) = true /\
  (add_user_message 5 1 (Some "still broken") s (9 * DAY) s).1 = Err (BadInput "INVALID_STATE").
Proof. vm_compute. done. Qed.

(** Under the lock the sweep looks at the status alone: a user who answers between its query and its lock,
    and is asked again, is closed at once. *)
Lemma fresh_wait_is_closed :
  let s := status_to "WAITING_USER" (7 * 1440 + 20) (answered_at (7 * 1440 + 10) (asked_at 5 (desk_1 "payment"))) in
  (tk_waiting <$> ticket_1 s) = Some (Some ((7 * 1440 + 20) * MINUTE)) /\
  (tk_status <$> ticket_1 (autoclose 1 ((7 * 1440 + 20) * MINUTE) s).2) = Some TkClosed.
Proof. vm_compute. done. Qed.

(** The kind of a new ticket is whatever text the app sends: a safety concern with a capital letter is an
    ordinary ticket. *)
Lemma capital_safety_is_ordinary :
  (tk_priority <$> ticket_1 (desk_1 "Safety")) = Some Normal /\ (is_safety <$> ticket_1 (desk_1 "Safety")) = Some false /\
  (tk_priority <$> ticket_1 (desk_1 "safety")) = Some Urgent.
Proof. vm_compute. done. Qed.

(** A user closes while the agent asks: the close writes the columns of the row it read, so the mark of
    the wait stays on the closed ticket, and the ticket reopened is in no list of breached tickets
    although its badge says breached. *)
Lemma stale_close_hides_breach :
  let seen := desk_1 "payment" in
  let s := status_to "OPEN" 20 (close_my_ticket 5 1 seen (6 * MINUTE) (asked_at 5 seen)).2 in
  (tk_waiting <$> ticket_1 s) = Some (Some (5 * MINUTE)) /\
  ((fun t => breached_q (10 * DAY) t) <$> ticket_1 s) = Some false /\
  ((fun t => ss_state (sla_state t (10 * DAY))) <$> ticket_1 s) = Some SlaBreached.
Proof. vm_compute. done. Qed.
